(* ===== verification/_CoqProject ===== *)
-Q . S2P
Prelude.v
Base.v
Spec.v
Node.v
Timing.v
TimingSpec.v
Commands.v
Standards.v
Device.v
Examples.v
TimingProps.v
DeviceFacts.v
BankFSM.v
DeviceProps.v
Controller.v
Scheduler.v
GenericDDR.v
ControllerFacts.v
ControllerInv.v
Refresh.v
ControllerProps.v
CtrlExamples.v
ActiveInv.v
ActiveProps.v
RefreshProps.v
Mapping.v
MappingProps.v
MemSystem.v
MemProps.v
Plugins.v
GrapheneProps.v
RFMProps.v
RRS.v
RRSProps.v
PluginInst.v
AQUA.v
AQUAProps.v
TRR.v
TRRProps.v
Hydra.v
HydraProps.v
Prac.v
PracProps.v
HBM.v
HBMProps.v
LPDDR.v
LPDDRProps.v
Latency.v
Elision.v
Simulation.v
SimProps.v
Batch.v
BatchProps.v
LLC.v
LLCProps.v
Core.v
SimpleO3.v
O3Facts.v
SimExamples.v
BlockHammer.v
BHLLC.v
BlockHammerProps.v
BHO3.v
BHLLCProps.v
Recipe.v
LatTp.v
LatTpProps.v
RecipeProps.v
Recorders.v
RecordersProps.v
Text.v
TraceReaders.v
TraceReadersProps.v
Synthetic.v
SyntheticProps.v
Envelope.v
EnvelopeProps.v
Mess.v
Bridge.v
Gem5.v
