(* ===== verification/Prelude.v ===== *)
(** * Ramulator 2: a verification library

    The program is the cycle-level DRAM simulator Ramulator 2 (C++, under
    src/ramulator/src/ramulator, the root of every path below).  A memory system
    routes requests to one controller per channel; a controller decodes addresses,
    buffers and schedules requests, drives a refresh manager, a row policy and
    plugins, and issues commands to a device; the device keeps a tree of nodes
    for timing and a flat array of banks for state; a standard supplies the
    tables (levels, commands, timing constraints, handlers) the device
    interprets.

    ** Conventions

    Fallible code returns [result]: [Ok], or [Err] with [Throw msg] (the
    exception and its message), [Undef] (undefined behaviour: an index outside a
    vector, a bad shift, signed overflow where it is within reach) or [OutOfFuel]
    (an artefact of a bounded recursion).  [vget] and [vset] are
    [std::vector::operator[]].  Mutable objects are records that operations
    take and return; an iterator is a buffer and a position; a node pointer is a
    path of the tree, so that an action through the flat bank array changes the
    tree.  Integers are [Z]; machine width is written out where a value can reach
    its limit (bit slicing, hashing, the [int] clocks of plugins, conversions from
    [float]), and clocks and statistics stay unbounded.  [float] arithmetic is
    binary32 from [SpecFloat].  Hash-table iteration orders, random draws and
    the conversions of text to floating point are arguments; a file is its bytes or its text.  Statistics of a controller are a map by name; callbacks and
    departure notices are a log of events.  A C++ closure passed as a callback is
    an identity the receiver interprets, and an iterator to a cache line is the
    line's identity.  The LPDDR controllers are modelled as the default Release
    build compiles them: their assertions have no effect.

    ** Files

    - [Prelude]: the result monad, vectors, loops, shared lemmas, [inv_res].
    - [Base]: base/request.h, base/request.cpp, base/utils.h, the request buffer.
    - [Spec]: dram/dram_spec.h, dram_spec.cpp, func_types.h (tables, lookups,
      [load_config]).
    - [Node]: dram/node.h, node.cpp (tree, [update_timing], [check_timing],
      [earliest_ready]); [Timing], [TimingSpec], [TimingProps]: its
      invariant, the skip optimisation, the declarative contract, what [load_config]
      guarantees and the window it lets through.
    - [Commands], [Standards]: dram/commands/*.h and the thirteen classes of
      dram/impl/*.cpp with the registry.
    - [Device]: dram/device.h, device.cpp; [DeviceFacts] (bank dispatch, and the
      refinement against the interface [HandlerLaws]), [BankFSM] (the abstract bank
      machine, discharging [HandlerLaws] for every standard), [DeviceProps].
    - [Controller]: controller/controller_base.h, controller_base.cpp;
      [Scheduler]: scheduler/impl; [GenericDDR]: impl/generic_ddr_controller.cpp
      and the interfaces [RefreshManager], [RowPolicy], [ControllerPlugin];
      [ControllerFacts], [ControllerInv] (invariants, against [RefreshLaws],
      [RowPolicyLaws], [PluginLaws]), [ControllerProps].
    - [Refresh]: refresh/impl (none, all-bank, per-bank, HBM per-bank) and
      rowpolicy/impl; [RefreshProps].
    - [ActiveInv], [ActiveProps]: addresses of maintenance requests, the active
      buffer.
    - [Mapping]: addr_mapper, memory_system/channel_mapper; [MappingProps].
       [MemSystem]: memory_system/impl/generic_dram_system.cpp
      over the class [IController], and translation/impl; [MemProps].
    - [Plugins]: plugin/impl (Graphene, OracleRH, TWiCeIdeal, PARA, RFMManager,
      CommandCounter, IssuedCommandValidationHook); [GrapheneProps], [RFMProps].
      [RRS], [RRSProps]: plugin/impl/rrs.cpp on the row indirection
      table; [AQUA], [AQUAProps]: plugin/impl/aqua.cpp on the same table; [TRR],
      [TRRProps]: plugin/impl/hynix_trr.cpp, samsung_trr.cpp and ideal_trr.cpp
      behind the interface [TRRModel]; [Hydra], [HydraProps]: plugin/impl/hydra.cpp.
      [PluginInst]: every plugin discharges [PluginLaws].
    - [Prac], [PracProps]: controller/impl/prac_controller.cpp (activation
      counters, the alert state machine).
    - [HBM]: impl/hbm_controller_base.cpp, hbm12_controller.cpp,
      hbm34_controller.cpp, gddr7_controller.cpp; [HBMProps].
    - [LPDDR], [LPDDRProps]: impl/lpddr_controller_base.cpp,
      lpddr5_controller.cpp, lpddr6_controller.cpp.
    - [Latency]: the latency-model controllers (impl/atomic_controller_base.h,
      fixed_lat_controller.cpp, md1_controller.cpp, wmg1_controller.cpp with the queue
      of ext/sniper_wmg1, mess_controller.cpp, zoo_probe.h) over the class
      [PriorityQueue]; [Envelope]: atomic_model/api.h and the model of
      results/models/astra_single_core; [EnvelopeProps]; [Mess]: the predictor of
      ext/mess (curve files as text, nearest curves, feedback) and that its estimates
      stay within its curves; [Elision]: what skipping idle ticks must preserve, the
      class [ControllerElision] and its instances.
    - [Simulation]: base/simulation.cpp over the interfaces [IFrontEnd] and
      [IMemorySystem]; [Batch]: base/batch_simulation.cpp; [SimProps],
      [BatchProps], proved against the contracts [FrontEndElision] and
      [MemoryElision].
    - [LLC], [Core], [SimpleO3]: frontend/impl/processor/simpleO3 (llc.cpp,
      core.cpp, simpleO3.cpp); [LLCProps]; [O3Facts] (the frontend discharges
      its contract).
    - [BlockHammer]: controller/impl/blockhammer_controller.cpp (counting Bloom
      filters, activation history, attack throttler) over the interface
      [BlacklistLLC]; [BHLLC], [BHO3]: frontend/impl/processor/bhO3 (the cache
      that caps the misses of a source, its cores and frontend), with the
      instance of [BlacklistLLC]; [BlockHammerProps], [BHLLCProps].
    - [Recipe], [LatTp]: frontend/lat_tp_addresses.h and
      frontend/impl/memory_trace/latency_throughput_trace.cpp over the interfaces
      [RandomEngine] and [MemoryStats]; [LatTpProps] (the frontend discharges its
      elision contract), [RecipeProps] (addresses, and a concrete system).
    - [Text]: base/utils.cpp, the text conversions of the standard library, and the
      configuration tree (base/config_node.h, config.cpp, param.h);
      [TraceReaders]: frontend/impl/memory_trace/readwrite_trace.cpp, loadstore_trace.cpp,
      frontend/impl/external.cpp, the trace files of the processor frontends, the
      snapshots of the SimpleO3 cache and the files of base/batch_simulation.cpp, a
      file as its text or bytes; [TraceReadersProps].
    - [Synthetic]: frontend/impl/memory_trace/synthetic_pattern.cpp (stream engines,
      index-seeded choices, overrides); [SyntheticProps]: the abstract generator a
      stream refines, over a memory system that notes what it accepts.
    - [Bridge]: resources/champsim_bridge, the backend of ChampSim's memory
      controller over any [IMemorySystem] (identities, admission windows, clock
      ratio, delivery of answers), with the channels it drains, and its theorems.
    - [Gem5]: resources/gem5_wrappers (ports, admission tokens, responses, draining,
      the event-driven service clock) over any [IMemorySystem], and its theorems
      against the contracts [IdleShrinks] and [RejectQuiet].
    - [Recorders], [RecordersProps]: plugin/impl (bin_trace_recorder.cpp,
      cmd_trace_recorder.cpp, req_trace_recorder.cpp, live_trace_streamer.cpp), files
      as bytes or text, a stream as the bodies it posts.
    - [Examples], [CtrlExamples], [SimExamples]: concrete configurations for the
      witnesses; [SimExamples] also has the memory system's instance of the
      contract.

    ** Theorems

    - C1, C3, C4, timing: the tree answers [check_timing] exactly as the declarative
      specification over the issue history does; rolling windows are enforced (lemma
      [min_distance_enforced]: the case of minimum distances); updates never reach
      undefined behaviour (lemmas [update_timing_skip_sound], [earliest_ready_exact]:
      skipping unaffected children and the cached ready clocks are exact).
    - C5, trace readers: a file in the documented format is loaded to exactly the
      accesses or instruction records it lists.
    - C29, synthetic patterns: what a stream sends is the same sequence over every
      memory system and every interleaving of ticks.
    - C6, C28, latency-throughput frontend: the ticks it declares idle can be skipped
      exactly, and in the random-probe mode without a pending retry it declares all of
      them; its physical addresses are decoded to
      the coordinates it aimed at.
    - C7, latency model: behind the controller of channel 0 every prediction stays
      within the model's workloads, behind any other controller none does.
    - C9-C11, device: bank dispatch agrees with the timing traversal and flat ids are
      bijective (lemmas [target_banks_exact], [flat_bank_id_bijective]), [issue_command] refines an array of abstract banks, at most
      one row is open per bank in every reachable device of every standard, and
      prerequisite resolution of an access terminates within three commands
      ([refresh_resolves] is the companion lemma for a refresh).
    - C12, C14, BlockHammer: a row whose activations reach the threshold within
      the tested epoch is deferred, whatever the hash functions; the cache never
      lets a source past its cap of outstanding misses, as long as misses are completed
      by their owners and no flush hits a line in flight.
    - C13, loading: a checked configuration loads to exactly the constraints, flags and
      values it describes, and they satisfy the timing invariant; a window
      of zero is accepted and makes the first update undefined
      ([zero_window_undefined]).
    - C15-C19, controller: what the schedulers select, conservation of the
      accepted requests as a multiset, exactness of the write-forwarding filter, on-time completion of reads.
    - C20, split buses: the edge and pairing rules of the HBM3/HBM4 command buses
      over whole runs.
    - C21, active buffer: an opened row stays open until its request is served
      under the open-row policy; the closed-row policy breaks this
      ([closed_cap_closes_active]).
    - C23, refresh: at which clocks the all-bank manager queues its requests.
    - C24, LPDDR: split activations and the WCK clock follow the command
      protocol over whole runs while the active buffer has room, and an ACT2 is late
      only when the device's timing refused it or the access before it.
    - C25: a split-bus controller under the closed-row policy reaches a state in
      which a write is never served.
    - C2, C26, addresses: decoding is a bijection onto the device coordinates, also with
      the split column and the XOR of MOP4CLXOR; lemmas of [MemProps]: no
      two transactions share a place, interleaving is invertible, admission ordinals
      are unique, the random translation is not injective.
    - C27, C35, ChampSim bridge: every answer reaches the channel that asked, once;
      the reads reported for a measured window are exactly those of the request trace
      (lemmas [bridge_tick_ratio], [identity_injective], [one_channel_admits] and, for
      two channels, [two_channels_refused]).
    - C30, recorders: the binary trace is read back to exactly the commands issued.
    - C8, C22, C32, RowHammer trackers: the in-DRAM trackers send refreshes for
      exactly their hottest rows; Hydra, Graphene and RFMManager (lemma
      [rfm_bounds_activations]) bound unmitigated activations while the priority queue
      has room.
    - C33, gem5 wrapper: with or without skipping, the memory has been advanced once
      per DRAM edge when a request is sent to it; [gem5_responses_conserved] and
      [gem5_drain_signalled] are the companions for responses and draining.
    - C31, C34, row indirection: under RRS and AQUA (lemma [aqua_keeps_bijection]) it
      stays a permutation except in the cases the theorems name; AQUA's quarantine
      redirects another row than the aggressor, which stays where it was.
    - C36-C37, elision: the simulation loop and the batch replay that skip idle
      ticks compute exactly the results of the loops that execute every tick (the
      replay without its option to skip retries).
    - C38-C39, cache: capacity, uniqueness and bookkeeping invariants of the
      last-level cache, and that no request or completion can make it fail.
    - C40, PRAC: the critical rows are exact, an alert follows at once, and
      recovery starts exactly one alert window later.

    ** Fuel and bounds

    [make_node] recurses on the level count of the specification, which bounds
    the depth of the tree; [calc_log2] and [round_down_pow2] run once per bit of
    a 64-bit word; [cold_from] (RRS) follows a loop the source itself leaves
    unbounded, and its theorems hold for every fuel.  [sim_loop], [send_retry],
    [drain] and [probe_open] also follow loops without a bound in the source:
    C36 and C37 relate the two loops for every fuel, in both directions.
    [zoo_serve] takes the length of its queue as fuel, [issue_bubbles] and the
    retirement loop of the core their width, as do [bc_issue_bubbles] and
    [bw_retire_loop].  [idle_loop] takes twice the nop counter and four more, which is
    proved enough for every caller's bound; [tokenize_loop] the length of the line,
    proved enough by [tokenize_split]; [members] the length of the file, proved enough
    by [loadCurveFile_total]; [tick_memory] an eighth of the accumulator, proved enough
    by [tick_memory_fuel].  The other recursions are structural.  Where a theorem says that code returns, success is part of its
    conclusion.

    ** Not modelled

    Of the latency models under results/models only one is modelled.  CSV logs, the
    factory, statistics output, the parser of YAML, the socket of the live trace
    streamer, wall-clock measurements and bindings are infrastructure or I/O; ChampSim
    and gem5 are third-party simulators, of which the adapters are modelled. *)

From Stdlib Require Import ZArith Lia.
From stdpp Require Export base gmap strings list fin_maps sets sorting.


(** ** Errors

    [Undef] is undefined behaviour: an unchecked [operator[]] out of range,
    a null dereference, an invalid shift; [Throw] a [std::runtime_error] with its message,
    [OutOfFuel] the artefact of a bounded recursion. *)
Inductive error :=
| Undef
| Throw (msg : string)
| OutOfFuel.

#[export] Instance error_eq_dec : EqDecision error.
Proof. solve_decision. Defined.

Inductive result (A : Type) :=
| Ok (a : A)
| Err (e : error).
Arguments Ok {A} a.
Arguments Err {A} e.

#[export] Instance result_ret : MRet result := fun A a => Ok a.
#[export] Instance result_bind : MBind result :=
  fun A B f m => match m with Ok a => f a | Err e => Err e end.

Definition is_ok {A} (m : result A) : Prop := exists a, m = Ok a.

(** [std::vector::operator[]]: an index outside the vector is undefined. *)
Definition vget {A} (l : list A) (i : Z) : result A :=
  if (i <? 0)%Z then Err Undef
  else match l !! Z.to_nat i with Some x => Ok x | None => Err Undef end.

Definition vset {A} (l : list A) (i : Z) (x : A) : result (list A) :=
  if (i <? 0)%Z then Err Undef
  else if decide (Z.to_nat i < length l)%nat then Ok (<[Z.to_nat i := x]> l)
  else Err Undef.

(** A range-for loop that threads a state and may fail. *)
Definition foldM {S A} (f : S -> A -> result S) : S -> list A -> result S :=
  fix go s l := match l with [] => Ok s | x :: l => s' ← f s x; go s' l end.

(** Apply a fallible update to the element at an index. *)
Definition alterM {A} (f : A -> result A) : nat -> list A -> result (list A) :=
  fix go i l {struct l} :=
    match l, i with
    | [], _ => Err Undef
    | x :: l, O => y ← f x; Ok (y :: l)
    | x :: l, S i => k ← go i l; Ok (x :: k)
    end.

(** ** Machine integers *)
Definition wrap_u (w x : Z) : Z := (x mod 2 ^ w)%Z.
Definition wrap_s (w x : Z) : Z := ((x + 2 ^ (w - 1)) mod 2 ^ w - 2 ^ (w - 1))%Z.

(** An [int] computation, and [/] and [%] of [int] and of unsigned operands. *)
Definition s32 (v : Z) : result Z := if ((- 2 ^ 31 <=? v) && (v <? 2 ^ 31))%Z then Ok v else Err Undef.
Definition quot_s (a b : Z) : result Z := if (b =? 0)%Z then Err Undef else s32 (Z.quot a b).
Definition rem_s (a b : Z) : result Z := if (b =? 0)%Z then Err Undef else _ ← s32 (Z.quot a b); Ok (Z.rem a b).
Definition quot_u (a b : Z) : result Z := if (b =? 0)%Z then Err Undef else Ok (a / b)%Z.
Definition rem_u (a b : Z) : result Z := if (b =? 0)%Z then Err Undef else Ok (a mod b)%Z.

(** [std::vector<T> v(n, x)] of an [int] size. *)
Definition vec_make {A} (n : Z) (x : A) : result (list A) :=
  if (n <? 0)%Z then Err (Throw "cannot create std::vector larger than max_size()") else Ok (replicate (Z.to_nat n) x).

(** A value and a shifted one that do not overlap. *)
Lemma lor_disjoint (x y n : Z) : (0 <= n -> 0 <= x < 2 ^ n -> Z.lor x (Z.shiftl y n) = x + y * 2 ^ n)%Z.
Proof.
  intros Hn Hx. rewrite <- Z.shiftl_mul_pow2 by done. symmetry. apply Z.add_nocarry_lor. apply Z.bits_inj'. intros i Hi.
  rewrite Z.land_spec, Z.bits_0, Z.shiftl_spec by done. destruct (Z.ltb_spec i n).
  - by rewrite (Z.testbit_neg_r y) by lia; rewrite andb_false_r.
  - rewrite <- (Z.mod_small x (2 ^ n)), Z.mod_pow2_bits_high by lia. done.
Qed.

(** ** Lemmas on the result monad *)
Lemma bind_Ok {A B} (m : result A) (f : A -> result B) (b : B) :
  (m ≫= f) = Ok b <-> exists a, m = Ok a /\ f a = Ok b.
Proof. destruct m as [a|e]; simpl; naive_solver. Qed.

Lemma bind_Ok_l {A B} (m : result A) (f : A -> result B) (a : A) :
  m = Ok a -> (m ≫= f) = f a.
Proof. by intros ->. Qed.

Section result_lemmas.
Context {A B : Type}.

Lemma vget_Ok (l : list A) (i : Z) (x : A) :
  vget l i = Ok x <-> (0 <= i)%Z /\ l !! Z.to_nat i = Some x.
Proof.
  unfold vget. destruct (Z.ltb_spec i 0); [split; [done|lia]|].
  destruct (l !! Z.to_nat i); naive_solver.
Qed.

Lemma vget_in_range (l : list A) (i : Z) :
  (0 <= i < Z.of_nat (length l))%Z -> is_ok (vget l i).
Proof.
  intros Hi. destruct (lookup_lt_is_Some_2 l (Z.to_nat i)) as [x Hx]; [lia|].
  exists x. apply vget_Ok. split; [lia|done].
Qed.

Lemma vset_Ok (l l' : list A) (i : Z) (x : A) :
  vset l i x = Ok l' <->
  (0 <= i < Z.of_nat (length l))%Z /\ l' = <[Z.to_nat i := x]> l.
Proof.
  unfold vset. destruct (Z.ltb_spec i 0); [split; [done|lia]|].
  case_decide; split; intros; simplify_eq; try done; try (destruct_and?; lia).
  - split; [lia|done].
  - destruct_and?; congruence.
Qed.

Lemma vget_vset (l l' : list A) (i j : Z) (x : A) :
  vset l i x = Ok l' -> vget l' j = if (j =? i)%Z then Ok x else vget l j.
Proof.
  intros [Hi ->]%vset_Ok. destruct (Z.eqb_spec j i) as [->|Hne].
  - apply vget_Ok. split; [lia|]. apply list_lookup_insert_eq. lia.
  - unfold vget. destruct (Z.ltb_spec j 0); [done|]. rewrite list_lookup_insert_ne by lia. done.
Qed.

Lemma vget_bound (l : list A) (i : Z) (x : A) : vget l i = Ok x -> (0 <= i < Z.of_nat (length l))%Z.
Proof. intros [Hi Hl%lookup_lt_Some]%vget_Ok. lia. Qed.

Lemma vset_length (l l' : list A) (i : Z) (x : A) : vset l i x = Ok l' -> length l' = length l.
Proof. intros [_ ->]%vset_Ok. apply length_insert. Qed.

Lemma vset_total (l : list A) (i : Z) (x : A) : (0 <= i < Z.of_nat (length l))%Z -> is_ok (vset l i x).
Proof. intros Hi. exists (<[Z.to_nat i := x]> l). by apply vset_Ok. Qed.

Lemma alterM_Ok (f : A -> result A) (i : nat) (l l' : list A) :
  alterM f i l = Ok l' <->
  exists x y, l !! i = Some x /\ f x = Ok y /\ l' = <[i := y]> l.
Proof.
  revert i l'. induction l as [|x l IH]; intros [|i] l'; simpl.
  - naive_solver.
  - naive_solver.
  - rewrite bind_Ok. naive_solver.
  - rewrite bind_Ok. split.
    + intros (k & Hk & ?); simplify_eq. apply IH in Hk. naive_solver.
    + intros (x' & y & ? & ? & ->). eexists; split; [apply IH; eauto|done].
Qed.

Lemma mapM_Ok (f : A -> result B) (l : list A) (k : list B) :
  mapM f l = Ok k <-> Forall2 (fun x y => f x = Ok y) l k.
Proof.
  revert k. induction l as [|x l IH]; intros k; simpl.
  - split; [intros [= <-]; constructor|by inversion 1].
  - rewrite bind_Ok. split.
    + intros (y & Hy & (k' & Hk & [= <-])%bind_Ok). constructor; [done|by apply IH].
    + inversion 1; subst. eexists; split; [done|]. apply bind_Ok.
      eexists; split; [by apply IH|done].
Qed.

Lemma foldM_cons {S} (f : S -> A -> result S) (s : S) (x : A) (l : list A) :
  foldM f s (x :: l) = (s' ← f s x; foldM f s' l).
Proof. done. Qed.

Lemma foldM_app {S} (f : S -> A -> result S) (s : S) (l1 l2 : list A) :
  foldM f s (l1 ++ l2) = (s' ← foldM f s l1; foldM f s' l2).
Proof.
  revert s. induction l1 as [|x l1 IH]; intros s; simpl; [done|].
  destruct (f s x); simpl; [apply IH|done].
Qed.

Lemma foldM_inv {S} (P : S -> Prop) (f : S -> A -> result S) (l : list A) (s s' : S) :
  P s -> (forall a b x, x ∈ l -> P a -> f a x = Ok b -> P b) -> foldM f s l = Ok s' -> P s'.
Proof.
  revert s. induction l as [|x l IH]; simpl; intros s Hs Hf H; [by simplify_eq|].
  apply bind_Ok in H as (s1 & H1 & H2).
  eapply (IH s1); eauto; intros; eapply Hf; eauto; set_solver.
Qed.

Lemma foldM_ok {S} (P : S -> Prop) (f : S -> A -> result S) (l : list A) (s : S) :
  P s -> (forall a x, x ∈ l -> P a -> exists b, f a x = Ok b /\ P b) ->
  exists s', foldM f s l = Ok s' /\ P s'.
Proof.
  revert s. induction l as [|x l IH]; simpl; intros s Hs Hf; [eauto|].
  destruct (Hf s x) as (b & Hb & HPb); [set_solver|done|].
  rewrite Hb; simpl. apply IH; [done|]. intros; apply Hf; [set_solver|done].
Qed.
End result_lemmas.

Lemma mapM_ok {A B} (P : B -> Prop) (f : A -> result B) (l : list A) :
  Forall (fun x => exists y, f x = Ok y /\ P y) l ->
  exists k, mapM f l = Ok k /\ length k = length l /\ Forall P k.
Proof.
  induction 1 as [|x l (y & Hy & HP) Hl (k & Hk & Hlen & HPk)]; simpl; [by exists []|].
  exists (y :: k). rewrite Hy, Hk. simpl. rewrite Hlen. auto.
Qed.

#[global] Arguments alterM : simpl never.
#[global] Arguments mapM : simpl never.

(** Inversion of a successful monadic computation, step by step. *)
Ltac inv_res :=
  repeat match goal with
  | H : Ok _ = Ok _ |- _ => injection H as H; try subst
  | H : Err _ = Ok _ |- _ => discriminate H
  | H : Ok _ = Err _ |- _ => discriminate H
  | H : mret _ = Ok _ |- _ => unfold mret, result_ret in H
  | H : mbind _ _ = Ok _ |- _ => apply bind_Ok in H; destruct H as (? & ? & H)
  | H : exists _, _ |- _ => destruct H
  | H : _ /\ _ |- _ => destruct H
  end.

Create HintDb ramulator.
#[export] Hint Resolve vget_in_range : ramulator.
