(* ===== verification/Base.v ===== *)
(** * Base types of the simulator

    [base/type.h], [base/request.h], [base/request.cpp], [base/utils.h] and the
    request buffer of [controller/i_controller.h].  [Clk_t] and [Addr_t] are
    64-bit in the source; clocks stay far from the limit and are kept in [Z],
    while shifts and masks are written with their C++ domain. *)

From Stdlib Require Import ZArith Lia.
From S2P Require Import Prelude.

Local Open Scope Z_scope.

Abbreviation Clk_t := Z (only parsing).
Abbreviation Addr_t := Z (only parsing).
Abbreviation AddrVec_t := (list Z) (only parsing).

(** [Request::Type]; any other id is metadata, -1 marks internal requests. *)
Definition Read : Z := 0.
Definition Write : Z := 1.

(** A request.  [callback] is the identity of the closure to run on
    completion: running it is an event of the component's log. *)
Record Request := mkRequest {
  addr : Addr_t;
  intra_channel_addr : Addr_t;
  addr_vec : AddrVec_t;
  type_id : Z;
  source_id : Z;
  ingress_id : Z;
  frontend_id : Z;
  frontend_sub_id : Z;
  admission_ordinal : Z;
  size_bytes : Z;
  command : Z;
  final_command : Z;
  is_stat_updated : bool;
  arrive : Clk_t;
  depart : Clk_t;
  callback : option Z
}.

#[export] Instance Request_eq_dec : EqDecision Request.
Proof. solve_decision. Defined.

(** [Request() = default]. *)
Definition Request_default : Request :=
  mkRequest (-1) (-1) [] (-1) (-1) (-1) (-1) 0 (-1) (-1) (-1) (-1) false (-1) (-1) None.

(** In-place member updates. *)
Definition set_addr (r : Request) (a : Addr_t) : Request :=
  mkRequest a (intra_channel_addr r) (addr_vec r) (type_id r) (source_id r) (ingress_id r)
    (frontend_id r) (frontend_sub_id r) (admission_ordinal r) (size_bytes r) (command r)
    (final_command r) (is_stat_updated r) (arrive r) (depart r) (callback r).
Definition set_intra_channel_addr (r : Request) (a : Addr_t) : Request :=
  mkRequest (addr r) a (addr_vec r) (type_id r) (source_id r) (ingress_id r)
    (frontend_id r) (frontend_sub_id r) (admission_ordinal r) (size_bytes r) (command r)
    (final_command r) (is_stat_updated r) (arrive r) (depart r) (callback r).
Definition set_addr_vec (r : Request) (v : AddrVec_t) : Request :=
  mkRequest (addr r) (intra_channel_addr r) v (type_id r) (source_id r) (ingress_id r)
    (frontend_id r) (frontend_sub_id r) (admission_ordinal r) (size_bytes r) (command r)
    (final_command r) (is_stat_updated r) (arrive r) (depart r) (callback r).
Definition set_admission_ordinal (r : Request) (o : Z) : Request :=
  mkRequest (addr r) (intra_channel_addr r) (addr_vec r) (type_id r) (source_id r) (ingress_id r)
    (frontend_id r) (frontend_sub_id r) o (size_bytes r) (command r)
    (final_command r) (is_stat_updated r) (arrive r) (depart r) (callback r).
Definition set_command (r : Request) (c : Z) : Request :=
  mkRequest (addr r) (intra_channel_addr r) (addr_vec r) (type_id r) (source_id r) (ingress_id r)
    (frontend_id r) (frontend_sub_id r) (admission_ordinal r) (size_bytes r) c
    (final_command r) (is_stat_updated r) (arrive r) (depart r) (callback r).
Definition set_final_command (r : Request) (c : Z) : Request :=
  mkRequest (addr r) (intra_channel_addr r) (addr_vec r) (type_id r) (source_id r) (ingress_id r)
    (frontend_id r) (frontend_sub_id r) (admission_ordinal r) (size_bytes r) (command r)
    c (is_stat_updated r) (arrive r) (depart r) (callback r).
Definition set_is_stat_updated (r : Request) (b : bool) : Request :=
  mkRequest (addr r) (intra_channel_addr r) (addr_vec r) (type_id r) (source_id r) (ingress_id r)
    (frontend_id r) (frontend_sub_id r) (admission_ordinal r) (size_bytes r) (command r)
    (final_command r) b (arrive r) (depart r) (callback r).
Definition set_arrive (r : Request) (c : Clk_t) : Request :=
  mkRequest (addr r) (intra_channel_addr r) (addr_vec r) (type_id r) (source_id r) (ingress_id r)
    (frontend_id r) (frontend_sub_id r) (admission_ordinal r) (size_bytes r) (command r)
    (final_command r) (is_stat_updated r) c (depart r) (callback r).
Definition set_depart (r : Request) (c : Clk_t) : Request :=
  mkRequest (addr r) (intra_channel_addr r) (addr_vec r) (type_id r) (source_id r) (ingress_id r)
    (frontend_id r) (frontend_sub_id r) (admission_ordinal r) (size_bytes r) (command r)
    (final_command r) (is_stat_updated r) (arrive r) c (callback r).

(** The four constructors of [request.cpp]. *)
Definition Request_addr (a : Addr_t) (type : Z) : Request :=
  mkRequest a (-1) [] type (-1) (-1) (-1) 0 (-1) (-1) (-1) (-1) false (-1) (-1) None.
Definition Request_vec (v : AddrVec_t) (type : Z) : Request :=
  mkRequest (-1) (-1) v type (-1) (-1) (-1) 0 (-1) (-1) (-1) (-1) false (-1) (-1) None.
Definition Request_src (a : Addr_t) (type source : Z) (cb : option Z) : Request :=
  mkRequest a (-1) [] type source (-1) (-1) 0 (-1) (-1) (-1) (-1) false (-1) (-1) cb.
Definition Request_cmd (v : AddrVec_t) (final_cmd : Z) : Request :=
  mkRequest (-1) (-1) v (-1) (-1) (-1) (-1) 0 (-1) (-1) (-1) final_cmd false (-1) (-1) None.

(** ** Request buffers *)
Record ReqBuffer := mkReqBuffer { buffer : list Request; max_size : Z }.

Definition buf_size (b : ReqBuffer) : Z := Z.of_nat (length (buffer b)).

(** [enqueue]: appends when there is room and reports it. *)
Definition enqueue (b : ReqBuffer) (r : Request) : bool * ReqBuffer :=
  if buf_size b <? max_size b
  then (true, mkReqBuffer (buffer b ++ [r]) (max_size b))
  else (false, b).

(** [remove(it)], the iterator being the position in the list. *)
Definition remove_at (b : ReqBuffer) (i : nat) : ReqBuffer :=
  mkReqBuffer (delete i (buffer b)) (max_size b).

(** Writing through an iterator. *)
Definition set_at (b : ReqBuffer) (i : nat) (r : Request) : ReqBuffer :=
  mkReqBuffer (<[i := r]> (buffer b)) (max_size b).

(** ** Bit utilities *)

(** [calc_log2]: counts how often [val >>= 1] stays non-zero.  64 rounds are
    enough for every non-negative 64-bit value; a negative value loops for
    ever in the source and runs out of fuel here. *)
Fixpoint calc_log2_loop (fuel : nat) (val n : Z) : result Z :=
  match fuel with
  | O => Err OutOfFuel
  | S fuel =>
      let val := Z.shiftr val 1 in
      if val =? 0 then Ok n else calc_log2_loop fuel val (n + 1)
  end.

Definition calc_log2 (val : Z) : result Z := calc_log2_loop 64 val 0.

(** [slice_lower_bits]: returns the low bits and the shifted address.  The mask
    [(1 << num_bits) - 1] is computed in [int]: it is defined for 0..30 bits. *)
Definition slice_lower_bits (a : Addr_t) (num_bits : Z) : result (Z * Addr_t) :=
  if (0 <=? num_bits) && (num_bits <=? 30)
  then Ok (Z.land a (Z.shiftl 1 num_bits - 1), Z.shiftr a num_bits)
  else Err Undef.

(** [v & (v - 1)) != 0] is how the source tests for a power of two. *)
Definition not_pow2 (v : Z) : bool := negb (Z.land v (v - 1) =? 0).

(** ** Lemmas *)

Lemma calc_log2_loop_spec (fuel : nat) (val n : Z) :
  0 <= val < 2 ^ Z.of_nat fuel -> (0 < fuel)%nat ->
  calc_log2_loop fuel val n = Ok (n + Z.log2 val).
Proof.
  revert val n. induction fuel as [|fuel IH]; intros val n Hv Hf; [lia|]. simpl.
  rewrite Nat2Z.inj_succ, Z.pow_succ_r in Hv by lia.
  rewrite <- Z.div2_spec, Z.div2_div.
  destruct (Z.eqb_spec (val / 2) 0) as [E|E].
  - f_equal. assert (val = 0 \/ val = 1) as [->| ->] by (Z.to_euclidean_division_equations; lia);
      simpl; lia.
  - rewrite IH; [|Z.to_euclidean_division_equations; lia|].
    + assert (2 <= val) by (Z.to_euclidean_division_equations; lia).
      f_equal. rewrite <- Z.div2_div, Z.div2_spec, Z.log2_shiftr by lia.
      assert (1 <= Z.log2 val); [|lia].
      apply Z.log2_le_pow2; [|change (2 ^ 1) with 2]; lia.
    + destruct fuel; [|lia]. change (2 ^ Z.of_nat 0) with 1 in Hv.
      exfalso. apply E. apply Z.div_small. lia.
Qed.

Lemma calc_log2_spec (val : Z) : 0 <= val < 2 ^ 64 -> calc_log2 val = Ok (Z.log2 val).
Proof. intros. unfold calc_log2. rewrite calc_log2_loop_spec; [done|done|lia]. Qed.

Lemma slice_lower_bits_spec (a n : Z) :
  0 <= n <= 30 -> slice_lower_bits a n = Ok (a mod 2 ^ n, a / 2 ^ n).
Proof.
  intros Hn. unfold slice_lower_bits.
  destruct (Z.leb_spec 0 n); [|lia]. destruct (Z.leb_spec n 30); [|lia]. simpl.
  replace (Z.shiftl 1 n - 1) with (Z.ones n) by (rewrite Z.ones_equiv, Z.shiftl_1_l; lia).
  rewrite Z.land_ones, Z.shiftr_div_pow2 by lia. done.
Qed.

Lemma pow2_pos (n : Z) : 0 <= n -> 0 < 2 ^ n.
Proof. intros. apply Z.pow_pos_nonneg; lia. Qed.
#[export] Hint Resolve pow2_pos : ramulator.

(** The source's test accepts exactly the powers of two (and zero). *)
Lemma not_pow2_false (v : Z) : 0 < v -> not_pow2 v = false -> v = 2 ^ Z.log2 v.
Proof.
  intros Hv H. unfold not_pow2 in H. apply negb_false_iff, Z.eqb_eq in H.
  destruct (Z.log2_spec v Hv) as [Hlo Hhi]. apply Z.le_antisymm; [|done].
  destruct (Z.eq_dec v (2 ^ Z.log2 v)) as [E|Hne]; [lia|].
  exfalso. pose proof (Z.log2_nonneg v).
  assert (Z.log2 (v - 1) = Z.log2 v) as Hl.
  { apply Z.log2_unique; [lia|]. split; [lia|]. lia. }
  assert (Z.testbit (Z.land v (v - 1)) (Z.log2 v) = true) as Hb.
  { rewrite Z.land_spec, Z.bit_log2 by lia. rewrite <- Hl at 1.
    rewrite Z.bit_log2; [done|]. assert (0 < 2 ^ Z.log2 v) by auto with ramulator. lia. }
  rewrite H, Z.bits_0 in Hb. done.
Qed.

Lemma enqueue_true (b b' : ReqBuffer) (r : Request) :
  enqueue b r = (true, b') -> buffer b' = buffer b ++ [r] /\ max_size b' = max_size b.
Proof. unfold enqueue. destruct (_ <? _); naive_solver. Qed.

Lemma enqueue_false (b b' : ReqBuffer) (r : Request) :
  enqueue b r = (false, b') -> b' = b /\ max_size b <= buf_size b.
Proof. unfold enqueue. destruct (Z.ltb_spec (buf_size b) (max_size b)); naive_solver. Qed.

Definition buf_wf (b : ReqBuffer) : Prop := buf_size b <= max_size b.

Lemma enqueue_wf (b b' : ReqBuffer) (r : Request) (ok : bool) :
  buf_wf b -> enqueue b r = (ok, b') -> buf_wf b'.
Proof.
  unfold buf_wf, enqueue. destruct (Z.ltb_spec (buf_size b) (max_size b)); intros ? [= <- <-]; [|done].
  unfold buf_size in *. simpl. rewrite length_app. simpl. lia.
Qed.

Lemma remove_at_wf (b : ReqBuffer) (i : nat) : buf_wf b -> buf_wf (remove_at b i).
Proof.
  unfold buf_wf, remove_at, buf_size. simpl. intros H.
  rewrite delete_take_drop, length_app, length_take, length_drop. lia.
Qed.
#[export] Hint Resolve enqueue_wf remove_at_wf : ramulator.
