(* ===== verification/Spec.v ===== *)
(** * DRAM specification data

    [dram/dram_spec.h], [dram/dram_spec.cpp], [dram/func_types.h] and the data
    of a node of the device tree ([dram/node.h]): everything the standards, the
    command handlers and the device share. *)

From Stdlib Require Import ZArith Lia.
From S2P Require Import Prelude Base.

Local Open Scope Z_scope.

(** ** Nodes of the device tree

    The parent pointer of the source is not stored: a [DRAMNode*] is the path of
    child positions from the root (see [Node.v]), so the parent of a pointer is
    the shorter path. *)
Inductive DRAMNode := mkNode {
  m_level : Z;
  m_node_id : Z;
  m_state : Z;
  m_cmd_ready_clk : list Clk_t;
  m_cmd_history : list (list Clk_t);
  m_shared_window_history : list (list Clk_t);
  m_row_state : gmap Z Z;
  m_child_nodes : list DRAMNode
}.

(** ** Bank targets, command metadata, timing constraints *)
Inductive BankTarget := Single | All | SameBank.

#[export] Instance BankTarget_eq_dec : EqDecision BankTarget.
Proof. solve_decision. Defined.

Record DRAMCommandMeta := mkMeta {
  is_opening : bool;
  is_closing : bool;
  is_accessing : bool;
  is_refreshing : bool;
  is_row_command : bool;
  is_column_command : bool
}.

Definition meta_none : DRAMCommandMeta := mkMeta false false false false false false.

Record TimingConsEntry := mkTC {
  tc_cmd : Z;
  tc_val : Z;
  tc_window : Z;
  tc_sibling : bool;
  tc_history_group : Z
}.

(** The constructor rejects a negative window. *)
Definition TimingConsEntry_ctor (cmd val window : Z) (sibling : bool) (group : Z)
  : result TimingConsEntry :=
  if window <? 0 then Err (Throw "TimingConsEntry: window value < 0")
  else Ok (mkTC cmd val window sibling group).

Record Organization := mkOrg { dq : Z; level_sizes : list Z }.

(** ** Handlers: function pointers of [func_types.h], [None] for [nullptr] *)
Definition ActionFunc_t := DRAMNode -> Z -> AddrVec_t -> Clk_t -> result DRAMNode.
Definition PreqFunc_t := DRAMNode -> Z -> AddrVec_t -> Clk_t -> result Z.
Definition RowhitFunc_t := DRAMNode -> Z -> AddrVec_t -> Clk_t -> result bool.
Definition RowopenFunc_t := DRAMNode -> Z -> AddrVec_t -> Clk_t -> result bool.

Record FuncArrays := mkFuncs {
  actions : list (option ActionFunc_t);
  preqs : list (option PreqFunc_t);
  rowhits : list (option RowhitFunc_t);
  rowopens : list (option RowopenFunc_t)
}.

(** ** The runtime specification *)
Record DRAMSpec := mkSpec {
  standard_name : string;
  levels : gmap string Z;
  commands : gmap string Z;
  states : gmap string Z;
  timings : gmap string Z;
  level_names : list string;
  command_names : list string;
  state_names : list string;
  timing_names : list string;
  level_count : Z;
  command_count : Z;
  state_count : Z;
  timing_count : Z;
  internal_prefetch_size : Z;
  channel_width : Z;
  data_payload_bytes : Z;
  read_latency : Clk_t;
  organization : Organization;
  init_states : list Z;
  supported_requests : list Z;
  timing_vals : list Z;
  command_cycles : list Z;
  timing_cons : list (list (list TimingConsEntry));
  has_sibling_cons : list (list bool);
  command_meta : list DRAMCommandMeta;
  bank_targets : list BankTarget;
  funcs : FuncArrays
}.

(** Checked lookups: [throw] on an unknown name. *)
Definition get_level_id (s : DRAMSpec) (name : string) : result Z :=
  match levels s !! name with
  | Some i => Ok i
  | None => Err (Throw ("DRAMSpec: unknown level '" +:+ name +:+ "'"))
  end.
Definition get_command_id (s : DRAMSpec) (name : string) : result Z :=
  match commands s !! name with
  | Some i => Ok i
  | None => Err (Throw ("DRAMSpec: unknown command '" +:+ name +:+ "'"))
  end.
Definition get_state_id (s : DRAMSpec) (name : string) : result Z :=
  match states s !! name with
  | Some i => Ok i
  | None => Err (Throw ("DRAMSpec: unknown state '" +:+ name +:+ "'"))
  end.
Definition get_timing_value (s : DRAMSpec) (name : string) : result Z :=
  match timings s !! name with
  | Some i => vget (timing_vals s) i
  | None => Err (Throw ("DRAMSpec: unknown timing '" +:+ name +:+ "'"))
  end.
Definition get_level_size (s : DRAMSpec) (name : string) : result Z :=
  i ← get_level_id s name; vget (level_sizes (organization s)) i.

Definition has_level (s : DRAMSpec) (name : string) : bool :=
  bool_decide (is_Some (levels s !! name)).
Definition has_command (s : DRAMSpec) (name : string) : bool :=
  bool_decide (is_Some (commands s !! name)).

(** Bytes per transaction; C++ integer division truncates. *)
Definition get_tx_bytes (s : DRAMSpec) : Z :=
  if 0 <? data_payload_bytes s then data_payload_bytes s
  else Z.quot (internal_prefetch_size s * channel_width s) 8.

(** [set_names]: the map is filled in order, so a repeated name keeps its last
    position. *)
Fixpoint set_names_from (i : Z) (names : list string) (m : gmap string Z) : gmap string Z :=
  match names with
  | [] => m
  | n :: names => set_names_from (i + 1) names (<[n := i]> m)
  end.
Definition set_names (names : list string) : gmap string Z := set_names_from 0 names ∅.

(** ** Configuration

    The ["dram"] subtree read by [load_config], with the optional fields as
    options. *)
Record ConstraintRow := mkRow {
  row_level : Z;
  row_preceding : list Z;
  row_following : list Z;
  row_latency : Z;
  row_window : option Z;
  row_sibling : option bool;
  row_history_group : option Z
}.

Record DramConfig := mkConfig {
  cfg_channel_width : Z;
  cfg_data_payload_bytes : option Z;
  cfg_dq : Z;
  cfg_count : list Z;
  cfg_timing : list Z;
  cfg_command_cycles : option (list Z);
  cfg_read_latency : Z;
  cfg_timing_constraints : list ConstraintRow
}.

(** [timing_cons[level][p].push_back(...)]. *)
Definition push_cons (tc : list (list (list TimingConsEntry))) (level p : Z)
  (e : TimingConsEntry) : result (list (list (list TimingConsEntry))) :=
  row ← vget tc level; cell ← vget row p;
  row' ← vset row p (cell ++ [e]); vset tc level row'.

(** One entry of ["timing_constraints"]: every preceding command against every
    following one. *)
Definition load_row (tc : list (list (list TimingConsEntry))) (r : ConstraintRow)
  : result (list (list (list TimingConsEntry))) :=
  foldM (fun tc p =>
    foldM (fun tc fc =>
      e ← TimingConsEntry_ctor fc (row_latency r) (default 1 (row_window r))
            (default false (row_sibling r)) (default (-1) (row_history_group r));
      push_cons tc (row_level r) p e) tc (row_following r)) tc (row_preceding r).

Definition sibling_flags (tc : list (list (list TimingConsEntry))) : list (list bool) :=
  map (map (existsb tc_sibling)) tc.

(** The command-cycle vector: 1 by default, overwritten by the configured
    prefix. *)
Definition load_command_cycles (count : nat) (cfg : option (list Z)) : list Z :=
  match cfg with
  | None => replicate count 1
  | Some cs => take count cs ++ replicate (count - length cs) 1
  end.

(** [load_config] fills the organization, timing values and constraints of a
    specification whose counts are already set. *)
Definition load_config (s : DRAMSpec) (c : DramConfig) : result DRAMSpec :=
  ch ← vget (cfg_count c) 0;
  if negb (ch =? 1) then Err (Throw "DRAMSpec: level_sizes[0] (Channel) must be 1")
  else
    tc ← foldM load_row
           (replicate (Z.to_nat (level_count s)) (replicate (Z.to_nat (command_count s)) []))
           (cfg_timing_constraints c);
    Ok (mkSpec (standard_name s) (levels s) (commands s) (states s) (timings s)
         (level_names s) (command_names s) (state_names s) (timing_names s)
         (level_count s) (command_count s) (state_count s) (timing_count s)
         (internal_prefetch_size s) (cfg_channel_width c)
         (default (-1) (cfg_data_payload_bytes c)) (cfg_read_latency c)
         (mkOrg (cfg_dq c) (cfg_count c)) (init_states s) (supported_requests s)
         (cfg_timing c)
         (load_command_cycles (Z.to_nat (command_count s)) (cfg_command_cycles c))
         tc (sibling_flags tc)
         (command_meta s) (bank_targets s) (funcs s)).

(** ** Accessors used on the hot paths *)
Definition cons_of (s : DRAMSpec) (level cmd : Z) : result (list TimingConsEntry) :=
  row ← vget (timing_cons s) level; vget row cmd.
Definition sibling_flag (s : DRAMSpec) (level cmd : Z) : result bool :=
  row ← vget (has_sibling_cons s) level; vget row cmd.
