(* ===== verification/Node.v ===== *)
(** * The DRAM node tree: hierarchical command timing

    [dram/node.h] and [dram/node.cpp].  Every node keeps, per command, the next
    clock at which the command may be issued again at its level, and the recent
    issue history needed by rolling-window constraints such as nFAW. *)

From Stdlib Require Import ZArith Lia.
From S2P Require Import Prelude Base Spec.

Local Open Scope Z_scope.

(** ** Member updates *)
Definition set_ready (n : DRAMNode) (r : list Clk_t) : DRAMNode :=
  mkNode (m_level n) (m_node_id n) (m_state n) r (m_cmd_history n)
    (m_shared_window_history n) (m_row_state n) (m_child_nodes n).
Definition set_children (n : DRAMNode) (cs : list DRAMNode) : DRAMNode :=
  mkNode (m_level n) (m_node_id n) (m_state n) (m_cmd_ready_clk n) (m_cmd_history n)
    (m_shared_window_history n) (m_row_state n) cs.
Definition set_bank_state (n : DRAMNode) (st : Z) (rows : gmap Z Z) : DRAMNode :=
  mkNode (m_level n) (m_node_id n) st (m_cmd_ready_clk n) (m_cmd_history n)
    (m_shared_window_history n) rows (m_child_nodes n).
Definition set_node_id (n : DRAMNode) (i : Z) : DRAMNode :=
  mkNode (m_level n) i (m_state n) (m_cmd_ready_clk n) (m_cmd_history n)
    (m_shared_window_history n) (m_row_state n) (m_child_nodes n).

(** ** Construction *)

(** The deepest window any constraint of a command needs. *)
Definition window_of (es : list TimingConsEntry) : Z :=
  foldl (fun w t => Z.max w (tc_window t)) 0 es.

Definition group_count_of (es : list TimingConsEntry) : Z :=
  foldl (fun c t => if 0 <=? tc_history_group t then Z.max c (tc_history_group t + 1) else c) 0 es.

(** [resize(window, -1)] when the history is shorter. *)
Definition grow_history (w : Z) (h : list Clk_t) : list Clk_t :=
  if Z.of_nat (length h) <? w then h ++ replicate (Z.to_nat w - length h) (-1) else h.

Definition init_shared (es : list TimingConsEntry) : list (list Clk_t) :=
  foldl (fun sh t =>
           if 0 <=? tc_history_group t
           then alter (grow_history (tc_window t)) (Z.to_nat (tc_history_group t)) sh
           else sh)
        (replicate (Z.to_nat (group_count_of es)) []) es.

(** [DRAMNode::DRAMNode]: the tree stops just above the ["Row"] level. *)
Fixpoint make_node (fuel : nat) (spec : DRAMSpec) (level id : Z) : result DRAMNode :=
  match fuel with
  | O => Err OutOfFuel
  | S fuel =>
      cells ← mapM (cons_of spec level) (seqZ 0 (command_count spec));
      st ← vget (init_states spec) level;
      let n := mkNode level id st
                 (replicate (Z.to_nat (command_count spec)) (-1))
                 (map (fun es => replicate (Z.to_nat (window_of es)) (-1)) cells)
                 (init_shared (concat cells)) ∅ [] in
      last_level ← get_level_id spec "Row";
      if level + 1 =? last_level then Ok n
      else
        size ← vget (level_sizes (organization spec)) (level + 1);
        if size =? 0 then Ok n
        else
          cs ← mapM (make_node fuel spec (level + 1)) (seqZ 0 size);
          Ok (set_children n cs)
  end.

(** ** Timing update *)

(** [m_cmd_ready_clk[t.cmd] = max(m_cmd_ready_clk[t.cmd], future)] for each
    constraint that contributes a clock. *)
Definition bump_all (g : TimingConsEntry -> result (option Clk_t))
  : list Clk_t -> list TimingConsEntry -> result (list Clk_t) :=
  foldM (fun ready t =>
    f ← g t;
    match f with
    | None => Ok ready
    | Some future =>
        old ← vget ready (tc_cmd t);
        vset ready (tc_cmd t) (Z.max old future)
    end).

Definition sibling_future (clk : Clk_t) (t : TimingConsEntry) : result (option Clk_t) :=
  Ok (if tc_sibling t then Some (clk + tc_val t) else None).

(** A node that is not the target but shares the parent with it. *)
Definition update_sibling (spec : DRAMSpec) (command : Z) (clk : Clk_t) (n : DRAMNode)
  : result DRAMNode :=
  es ← cons_of spec (m_level n) command;
  r ← bump_all (sibling_future clk) (m_cmd_ready_clk n) es;
  Ok (set_ready n r).

(** [pop_back(); push_front(clk)] on a non-empty deque. *)
Definition push_history (h : list Clk_t) (clk : Clk_t) : list Clk_t :=
  match h with [] => [] | _ => clk :: removelast h end.

(** The shared rolling windows: each group is advanced once per command. *)
Definition update_shared (es : list TimingConsEntry) (stamp : Clk_t) (sh : list (list Clk_t))
  : result (list (list Clk_t)) :=
  p ← foldM (fun (p : list (list Clk_t) * list bool) t =>
        let g := tc_history_group t in
        if g <? 0 then Ok p
        else
          updated ← vget p.2 g;
          if (updated : bool) then Ok p
          else
            h ← vget p.1 g;
            match h with
            | [] => Err Undef
            | _ =>
                sh' ← vset p.1 g (push_history h stamp);
                up' ← vset p.2 g true;
                Ok (sh', up')
            end)
      (sh, replicate (length sh) false) es;
  Ok p.1.

Definition target_future (command : Z) (hist sh : list (list Clk_t)) (t : TimingConsEntry)
  : result (option Clk_t) :=
  if tc_sibling t then Ok None
  else
    h ← (if 0 <=? tc_history_group t then vget sh (tc_history_group t) else vget hist command);
    past ← vget h (tc_window t - 1);
    Ok (if past <? 0 then None else Some (past + tc_val t)).

(** The node the command addresses: histories first, then ready clocks. *)
Definition update_target (spec : DRAMSpec) (command : Z) (clk : Clk_t) (n : DRAMNode)
  : result DRAMNode :=
  es ← cons_of spec (m_level n) command;
  h ← vget (m_cmd_history n) command;
  hist ← vset (m_cmd_history n) command (push_history h clk);
  cycles ← vget (command_cycles spec) command;
  sh ← update_shared es (clk + cycles - 1) (m_shared_window_history n);
  r ← bump_all (target_future command hist sh) (m_cmd_ready_clk n) es;
  Ok (mkNode (m_level n) (m_node_id n) (m_state n) r hist sh (m_row_state n) (m_child_nodes n)).

(** [DRAMNode::update_timing].  Children are skipped when the addressed child is
    known and no sibling constraint exists at their level. *)
Fixpoint update_timing (spec : DRAMSpec) (command : Z) (av : AddrVec_t) (clk : Clk_t)
  (n : DRAMNode) {struct n} : result DRAMNode :=
  a ← vget av (m_level n);
  if negb (m_node_id n =? a) && negb (a =? -1) then update_sibling spec command clk n
  else
    n1 ← update_target spec command clk n;
    match n with
    | mkNode _ _ _ _ _ _ _ [] => Ok n1
    | mkNode _ _ _ _ _ _ _ children =>
        let child_level := m_level n + 1 in
        target_child_id ← vget av child_level;
        children_have_sibling_cons ← sibling_flag spec child_level command;
        if (children_have_sibling_cons : bool) || (target_child_id =? -1)
        then
          cs ← mapM (update_timing spec command av clk) children;
          Ok (set_children n1 cs)
        else if target_child_id <? 0 then Err Undef
        else
          cs ← alterM (update_timing spec command av clk) (Z.to_nat target_child_id) children;
          Ok (set_children n1 cs)
    end.

(** ** Timing queries *)

(** [DRAMNode::earliest_ready]. *)
Fixpoint earliest_ready (command : Z) (av : AddrVec_t) (n : DRAMNode) : result Clk_t :=
  ready ← vget (m_cmd_ready_clk n) command;
  match n with
  | mkNode _ _ _ _ _ _ _ [] => Ok ready
  | mkNode _ _ _ _ _ _ _ children =>
      child_id ← vget av (m_level n + 1);
      if child_id =? -1 then
        foldM (fun ready c => r ← earliest_ready command av c; Ok (Z.max ready r)) ready children
      else if child_id <? 0 then Err Undef
      else
        (fix pick (i : nat) (l : list DRAMNode) {struct l} : result Clk_t :=
           match l, i with
           | [], _ => Err Undef
           | c :: _, O => r ← earliest_ready command av c; Ok (Z.max ready r)
           | _ :: l, S i => pick i l
           end) (Z.to_nat child_id) children
  end.

(** [DRAMNode::check_timing].  [addr_vec[m_level + 1]] is read before the test
    for children, as in the source. *)
Fixpoint check_timing (command : Z) (av : AddrVec_t) (clk : Clk_t) (n : DRAMNode) : result bool :=
  ready ← vget (m_cmd_ready_clk n) command;
  if negb (ready =? -1) && (clk <? ready) then Ok false
  else
    child_id ← vget av (m_level n + 1);
    match n with
    | mkNode _ _ _ _ _ _ _ [] => Ok true
    | mkNode _ _ _ _ _ _ _ children =>
        if child_id =? -1 then
          foldM (fun timing_ok c =>
                   if (timing_ok : bool) then check_timing command av clk c else Ok false)
                true children
        else if child_id <? 0 then Err Undef
        else
          (fix pick (i : nat) (l : list DRAMNode) {struct l} : result bool :=
             match l, i with
             | [], _ => Err Undef
             | c :: _, O => check_timing command av clk c
             | _ :: l, S i => pick i l
             end) (Z.to_nat child_id) children
    end.

(** ** Pointers and traversal *)

(** A [DRAMNode*]: child positions from the root. *)
Abbreviation node_ptr := (list nat) (only parsing).

Fixpoint node_at (n : DRAMNode) (p : node_ptr) : option DRAMNode :=
  match p with
  | [] => Some n
  | i :: p => c ← m_child_nodes n !! i; node_at c p
  end.

(** Writing through a pointer. *)
Fixpoint update_at (f : DRAMNode -> result DRAMNode) (p : node_ptr) (n : DRAMNode)
  : result DRAMNode :=
  match p with
  | [] => f n
  | i :: p => cs ← alterM (update_at f p) i (m_child_nodes n); Ok (set_children n cs)
  end.

(** [for_each_at_level(target, fn)]: the nodes visited, in visiting order. *)
Fixpoint nodes_at_level (target : Z) (n : DRAMNode) : list node_ptr :=
  if m_level n =? target then [[]]
  else
    (fix go (i : nat) (l : list DRAMNode) : list node_ptr :=
       match l with
       | [] => []
       | c :: l => map (cons i) (nodes_at_level target c) ++ go (S i) l
       end) O (m_child_nodes n).

(** The nodes from a pointer up to the root: the loop over [m_parent_node]. *)
Fixpoint ancestors (n : DRAMNode) (p : node_ptr) : list DRAMNode :=
  match p with
  | [] => [n]
  | i :: p => match m_child_nodes n !! i with
              | Some c => ancestors c p ++ [n]
              | None => [n]
              end
  end.
