(* ===== verification/Timing.v ===== *)
(** * The node tree and its timing

    Induction over the tree, one-step equations of the recursive operations, the
    well-formedness of a tree with respect to a specification, and the effect
    of [update_timing] on the node under each pointer; below, its safety, the skip
    optimisation and the queries. *)

From Stdlib Require Import ZArith Lia.
From S2P Require Import Prelude Base Spec Node.

Local Open Scope Z_scope.

(** ** Induction *)
Section node_induction.
Variable P : DRAMNode -> Prop.
Hypothesis IHnode : forall n, Forall P (m_child_nodes n) -> P n.

Fixpoint DRAMNode_ind' (n : DRAMNode) : P n :=
  IHnode n
    (match n as n0 return Forall P (m_child_nodes n0) with
     | mkNode _ _ _ _ _ _ _ cs =>
         (fix go (l : list DRAMNode) : Forall P l :=
            match l with
            | [] => Forall_nil_2 P
            | c :: l => Forall_cons_2 P c l (DRAMNode_ind' c) (go l)
            end) cs
     end).
End node_induction.

(** ** One-step equations *)

Lemma update_timing_eq (spec : DRAMSpec) (c : Z) (av : AddrVec_t) (clk : Clk_t) (n : DRAMNode) :
  update_timing spec c av clk n =
  (a ← vget av (m_level n);
   if negb (m_node_id n =? a) && negb (a =? -1) then update_sibling spec c clk n
   else
     n1 ← update_target spec c clk n;
     if decide (m_child_nodes n = []) then Ok n1
     else
       t ← vget av (m_level n + 1);
       flag ← sibling_flag spec (m_level n + 1) c;
       if (flag : bool) || (t =? -1) then
         cs ← mapM (update_timing spec c av clk) (m_child_nodes n); Ok (set_children n1 cs)
       else if t <? 0 then Err Undef
       else
         cs ← alterM (update_timing spec c av clk) (Z.to_nat t) (m_child_nodes n);
         Ok (set_children n1 cs)).
Proof. by destruct n as [? ? ? ? ? ? ? [|]]. Qed.

(** The child a query descends into. *)
Definition pick_child {A} (cs : list DRAMNode) (i : Z) (f : DRAMNode -> result A) : result A :=
  c ← vget cs i; f c.

Lemma pick_fix {A} (f : DRAMNode -> result A) (l : list DRAMNode) (i : nat) :
  (fix pick (i : nat) (l : list DRAMNode) {struct l} : result A :=
     match l, i with
     | [], _ => Err Undef
     | c :: _, O => f c
     | _ :: l, S i => pick i l
     end) i l = match l !! i with Some c => f c | None => Err Undef end.
Proof. revert i. induction l as [|c l IH]; intros [|i]; simpl; try done. Qed.

Lemma pick_child_nonneg {A} (cs : list DRAMNode) (i : Z) (f : DRAMNode -> result A) :
  0 <= i ->
  pick_child cs i f = match cs !! Z.to_nat i with Some c => f c | None => Err Undef end.
Proof.
  intros. unfold pick_child, vget. destruct (Z.ltb_spec i 0); [lia|].
  by destruct (cs !! Z.to_nat i).
Qed.

Lemma pick_child_neg {A} (cs : list DRAMNode) (i : Z) (f : DRAMNode -> result A) :
  i < 0 -> pick_child cs i f = Err Undef.
Proof. intros. unfold pick_child, vget. by destruct (Z.ltb_spec i 0); [|lia]. Qed.

Lemma check_timing_eq (c : Z) (av : AddrVec_t) (clk : Clk_t) (n : DRAMNode) :
  check_timing c av clk n =
  (ready ← vget (m_cmd_ready_clk n) c;
   if negb (ready =? -1) && (clk <? ready) then Ok false
   else
     child_id ← vget av (m_level n + 1);
     if decide (m_child_nodes n = []) then Ok true
     else if child_id =? -1 then
       foldM (fun ok ch => if (ok : bool) then check_timing c av clk ch else Ok false)
         true (m_child_nodes n)
     else pick_child (m_child_nodes n) child_id (check_timing c av clk)).
Proof.
  destruct n as [l ? ? r ? ? ? cs]. simpl. destruct (vget r c) as [ready|e]; simpl; [|done].
  destruct (negb _ && _); [done|]. destruct (vget av (l + 1)) as [i|e]; simpl; [|done].
  destruct cs as [|ch cs]; [done|]. rewrite decide_False by done.
  destruct (i =? -1); [done|]. destruct (Z.ltb_spec i 0).
  - by rewrite pick_child_neg.
  - rewrite pick_child_nonneg by lia. rewrite <- pick_fix. done.
Qed.

Lemma earliest_ready_eq (c : Z) (av : AddrVec_t) (n : DRAMNode) :
  earliest_ready c av n =
  (ready ← vget (m_cmd_ready_clk n) c;
   if decide (m_child_nodes n = []) then Ok ready
   else
     child_id ← vget av (m_level n + 1);
     if child_id =? -1 then
       foldM (fun ready ch => r ← earliest_ready c av ch; Ok (Z.max ready r)) ready (m_child_nodes n)
     else pick_child (m_child_nodes n) child_id
            (fun ch => r ← earliest_ready c av ch; Ok (Z.max ready r))).
Proof.
  destruct n as [l ? ? r ? ? ? cs]. simpl. destruct (vget r c) as [ready|e]; simpl; [|done].
  destruct cs as [|ch cs]; [done|]. rewrite decide_False by done.
  destruct (vget av (l + 1)) as [i|e]; simpl; [|done].
  destruct (i =? -1); [done|]. destruct (Z.ltb_spec i 0).
  - by rewrite pick_child_neg.
  - rewrite pick_child_nonneg by lia. rewrite <- pick_fix. done.
Qed.

(** ** Ready-clock updates *)

Lemma vset_max_Ok (r r' : list Z) (i old f : Z) :
  vget r i = Ok old -> vset r i (Z.max old f) = Ok r' ->
  length r' = length r /\ r' !! Z.to_nat i = Some (Z.max old f) /\
  (forall j, j <> Z.to_nat i -> r' !! j = r !! j) /\ r !! Z.to_nat i = Some old.
Proof.
  intros [? Ho]%vget_Ok [? ->]%vset_Ok. split_and!.
  - apply length_insert.
  - apply list_lookup_insert_eq. lia.
  - intros. by apply list_lookup_insert_ne.
  - done.
Qed.

(** The final ready clocks are the pointwise maximum of the initial ones and of
    every contribution; nothing else changes. *)
Lemma bump_all_spec (g : TimingConsEntry -> result (option Z)) (es : list TimingConsEntry)
  (r r' : list Z) :
  bump_all g r es = Ok r' ->
  length r' = length r /\
  (forall c x, r !! c = Some x -> exists y, r' !! c = Some y /\ x <= y) /\
  (forall t f, t ∈ es -> g t = Ok (Some f) ->
     exists y, r' !! Z.to_nat (tc_cmd t) = Some y /\ f <= y) /\
  (forall c y, r' !! c = Some y -> r !! c = Some y \/
     exists t, t ∈ es /\ Z.to_nat (tc_cmd t) = c /\ g t = Ok (Some y)).
Proof.
  unfold bump_all. revert r. induction es as [|t es IH]; intros r H; simpl in H.
  - simplify_eq. split_and!; [done|eauto with lia| |naive_solver]. intros ? ? Hin; by apply elem_of_nil in Hin.
  - apply bind_Ok in H as (r1 & H1 & H2). apply bind_Ok in H1 as (o & Hg & H1).
    destruct (IH r1 H2) as (L & M & C & E). destruct o as [f|].
    + apply bind_Ok in H1 as (old & Hold & Hset).
      destruct (vset_max_Ok _ _ _ _ _ Hold Hset) as (L1 & Hi & Hne & Hr).
      split_and!.
      * congruence.
      * intros c x Hx. destruct (decide (c = Z.to_nat (tc_cmd t))) as [->|Hc].
        -- destruct (M _ _ Hi) as (y & ? & ?). exists y. split; [done|]. simplify_eq. lia.
        -- rewrite <- Hne in Hx by done. eauto.
      * intros t' f' [->|Hin]%elem_of_cons Hg'; [|eauto].
        rewrite Hg in Hg'. simplify_eq. destruct (M _ _ Hi) as (y & ? & ?).
        exists y. split; [done|lia].
      * intros c y Hy. destruct (E c y Hy) as [Hr1|(t' & ? & ? & ?)];
          [|right; exists t'; set_solver].
        destruct (decide (c = Z.to_nat (tc_cmd t))) as [->|Hc].
        -- rewrite Hi in Hr1. simplify_eq. destruct (Z.max_spec old f) as [[? ->]|[? ->]].
           ++ right. exists t. set_solver.
           ++ by left.
        -- rewrite Hne in Hr1 by done. by left.
    + simplify_eq. split_and!; [done|done| |].
      * intros t' f' [->|Hin]%elem_of_cons Hg'; [congruence|eauto].
      * intros c y Hy. destruct (E c y Hy) as [?|(t' & ? & ? & ?)]; [by left|].
        right. exists t'. set_solver.
Qed.

(** Progress: in-range commands and defined contributions never fail. *)
Lemma bump_all_ok (g : TimingConsEntry -> result (option Z)) (es : list TimingConsEntry) (r : list Z) :
  Forall (fun t => is_ok (g t) /\ 0 <= tc_cmd t < Z.of_nat (length r)) es ->
  is_ok (bump_all g r es).
Proof.
  intros H. unfold bump_all.
  destruct (foldM_ok (fun r' => length r' = length r)
    (fun ready t => f ← g t;
       match f with
       | None => Ok ready
       | Some future => old ← vget ready (tc_cmd t); vset ready (tc_cmd t) (Z.max old future)
       end) es r) as (s & Hs & _); [done| |by exists s].
  intros a t Hin Ha. rewrite Forall_forall in H. destruct (H t Hin) as [[o Ho] Hc].
  rewrite Ho. simpl. destruct o as [f|]; [|eauto].
  destruct (vget_in_range a (tc_cmd t)) as [old Hold]; [lia|]. rewrite Hold. simpl.
  exists (<[Z.to_nat (tc_cmd t) := Z.max old f]> a). split; [|by rewrite length_insert].
  apply vset_Ok. split; [lia|done].
Qed.

(** ** Well-formed specifications *)

Definition entry_okb (count : Z) (t : TimingConsEntry) : bool :=
  (0 <=? tc_cmd t) && (tc_cmd t <? count) && (1 <=? tc_window t).

Definition spec_wfb (s : DRAMSpec) : bool :=
  bool_decide (Z.of_nat (length (timing_cons s)) = level_count s) &&
  forallb (fun row => bool_decide (Z.of_nat (length row) = command_count s) &&
                      forallb (forallb (entry_okb (command_count s))) row) (timing_cons s) &&
  bool_decide (has_sibling_cons s = sibling_flags (timing_cons s)) &&
  bool_decide (Z.of_nat (length (command_cycles s)) = command_count s) &&
  forallb (fun c => 1 <=? c) (command_cycles s).

Section spec_wf.
Context (s : DRAMSpec) (Hwf : spec_wfb s = true).

Lemma spec_wf_parts :
  Z.of_nat (length (timing_cons s)) = level_count s /\
  (forall row, row ∈ timing_cons s -> Z.of_nat (length row) = command_count s /\
     forall es t, es ∈ row -> t ∈ es -> entry_okb (command_count s) t = true) /\
  has_sibling_cons s = sibling_flags (timing_cons s) /\
  Z.of_nat (length (command_cycles s)) = command_count s.
Proof.
  unfold spec_wfb in Hwf. rewrite !andb_true_iff, !bool_decide_eq_true in Hwf.
  destruct Hwf as [[[[? Hrows] ?] ?] _]. split_and!; try done.
  intros row Hrow. rewrite forallb_forall in Hrows.
  specialize (Hrows row (proj1 (list_elem_of_In _ _) Hrow)).
  rewrite andb_true_iff, bool_decide_eq_true in Hrows. destruct Hrows as [? Hes].
  split; [done|]. intros es t He Ht. rewrite forallb_forall in Hes.
  specialize (Hes es (proj1 (list_elem_of_In _ _) He)). rewrite forallb_forall in Hes.
  by apply Hes, list_elem_of_In.
Qed.

Lemma command_cycles_pos (c cy : Z) : vget (command_cycles s) c = Ok cy -> 1 <= cy.
Proof.
  unfold spec_wfb in Hwf. rewrite !andb_true_iff in Hwf. destruct Hwf as [_ Hcy].
  rewrite forallb_forall in Hcy. intros [_ Hl%list_elem_of_lookup_2]%vget_Ok.
  specialize (Hcy cy (proj1 (list_elem_of_In _ _) Hl)). lia.
Qed.

Lemma cons_of_ok (l c : Z) :
  0 <= l < level_count s -> 0 <= c < command_count s -> is_ok (cons_of s l c).
Proof.
  intros Hl Hc. destruct spec_wf_parts as (Hlen & Hrows & _).
  destruct (vget_in_range (timing_cons s) l) as [row Hrow]; [lia|].
  pose proof Hrow as [_ ?%list_elem_of_lookup_2]%vget_Ok.
  destruct (Hrows row) as [? _]; [done|].
  destruct (vget_in_range row c) as [es Hes]; [lia|].
  exists es. unfold cons_of. by rewrite Hrow.
Qed.

Lemma cons_of_entry (l c : Z) (es : list TimingConsEntry) (t : TimingConsEntry) :
  cons_of s l c = Ok es -> t ∈ es ->
  0 <= tc_cmd t < command_count s /\ 1 <= tc_window t.
Proof.
  unfold cons_of. intros (row & [_ Hr%list_elem_of_lookup_2]%vget_Ok & [_ He%list_elem_of_lookup_2]%vget_Ok)%bind_Ok Ht.
  destruct spec_wf_parts as (_ & Hrows & _). destruct (Hrows row Hr) as [_ Hok].
  specialize (Hok es t He Ht). unfold entry_okb in Hok. lia.
Qed.

Lemma sibling_flag_eq (l c : Z) (es : list TimingConsEntry) :
  cons_of s l c = Ok es -> sibling_flag s l c = Ok (existsb tc_sibling es).
Proof.
  unfold cons_of, sibling_flag. destruct spec_wf_parts as (_ & _ & -> & _).
  intros (row & [? Hr]%vget_Ok & [? He]%vget_Ok)%bind_Ok.
  unfold sibling_flags. apply bind_Ok. exists (map (existsb tc_sibling) row). split.
  - apply vget_Ok. split; [done|]. rewrite (list_lookup_fmap (map (existsb tc_sibling))), Hr. done.
  - apply vget_Ok. split; [done|]. rewrite (list_lookup_fmap (existsb tc_sibling)), He. done.
Qed.
End spec_wf.

(** ** Well-formed trees *)
Record local_wf (s : DRAMSpec) (n : DRAMNode) : Prop := mkLocalWf {
  lw_level : 0 <= m_level n /\ m_level n + 1 < level_count s;
  lw_ready : Z.of_nat (length (m_cmd_ready_clk n)) = command_count s;
  lw_hist : forall c es, cons_of s (m_level n) c = Ok es ->
    exists h, m_cmd_history n !! Z.to_nat c = Some h /\
              length h = Z.to_nat (window_of es);
  lw_shared : forall c es t, cons_of s (m_level n) c = Ok es -> t ∈ es -> 0 <= tc_history_group t ->
    exists h, m_shared_window_history n !! Z.to_nat (tc_history_group t) = Some h /\
              tc_window t <= Z.of_nat (length h);
  lw_child : forall i c, m_child_nodes n !! i = Some c ->
    m_level c = m_level n + 1 /\ m_node_id c = Z.of_nat i;
  lw_count : m_child_nodes n <> [] ->
    vget (level_sizes (organization s)) (m_level n + 1) = Ok (Z.of_nat (length (m_child_nodes n)))
}.

Lemma lw_lv (s : DRAMSpec) (n : DRAMNode) : local_wf s n -> 0 <= m_level n < level_count s.
Proof. intros [[? ?] _ _ _ _ _]. lia. Qed.

Definition tree_all (P : DRAMNode -> Prop) (n : DRAMNode) : Prop :=
  forall p m, node_at n p = Some m -> P m.

Definition tree_wf (s : DRAMSpec) : DRAMNode -> Prop := tree_all (local_wf s).

Lemma tree_all_self (P : DRAMNode -> Prop) (n : DRAMNode) : tree_all P n -> P n.
Proof. intros H. by apply (H []). Qed.

Lemma tree_all_child (P : DRAMNode -> Prop) (n c : DRAMNode) (i : nat) :
  tree_all P n -> m_child_nodes n !! i = Some c -> tree_all P c.
Proof. intros H Hc p m Hm. apply (H (i :: p)). simpl. by rewrite Hc. Qed.

Lemma tree_all_intro (P : DRAMNode -> Prop) (n : DRAMNode) :
  P n -> (forall i c, m_child_nodes n !! i = Some c -> tree_all P c) -> tree_all P n.
Proof.
  intros Hn Hc [|i p] m; simpl; [naive_solver|].
  intros (c & Hi & Hm)%bind_Some. by apply (Hc i c Hi p).
Qed.

Lemma node_at_app (n : DRAMNode) (p q : node_ptr) :
  node_at n (p ++ q) = (node_at n p ≫= fun m => node_at m q).
Proof.
  revert n. induction p as [|i p IH]; intros n; simpl; [done|].
  by destruct (m_child_nodes n !! i) as [c|]; simpl.
Qed.

(** Addresses a device accepts: one entry per level, each within its level or
    the wildcard -1 (level 0 carries the channel id, which only the root reads). *)
Definition av_ok (s : DRAMSpec) (av : AddrVec_t) : Prop :=
  level_count s <= Z.of_nat (length av) /\
  forall l a sz, 1 <= l -> vget av l = Ok a -> vget (level_sizes (organization s)) l = Ok sz ->
    a = -1 \/ 0 <= a < sz.

(** ** Which node does an address reach? *)
Definition matches (av : AddrVec_t) (n : DRAMNode) : bool :=
  match vget av (m_level n) with
  | Ok a => (m_node_id n =? a) || (a =? -1)
  | Err _ => false
  end.

(** [Some true]: the node under the pointer is addressed; [Some false]: it is a
    sibling of an addressed node; [None]: it lies below such a sibling. *)
Fixpoint visit (av : AddrVec_t) (n : DRAMNode) (p : node_ptr) : option bool :=
  if matches av n then
    match p with
    | [] => Some true
    | i :: p => c ← m_child_nodes n !! i; visit av c p
    end
  else match p with [] => Some false | _ => None end.

Definition local_effect (s : DRAMSpec) (c : Z) (clk : Clk_t) (v : option bool) (n : DRAMNode)
  : result DRAMNode :=
  match v with
  | Some true => update_target s c clk n
  | Some false => update_sibling s c clk n
  | None => Ok n
  end.

(** ** The effect of [update_timing] at every pointer *)

Definition same_frame (m m' : DRAMNode) : Prop :=
  m_level m' = m_level m /\ m_node_id m' = m_node_id m /\ m_state m' = m_state m /\
  m_row_state m' = m_row_state m.

Lemma set_children_id (n : DRAMNode) : set_children n (m_child_nodes n) = n.
Proof. by destruct n. Qed.

Lemma set_ready_id (n : DRAMNode) : set_ready n (m_cmd_ready_clk n) = n.
Proof. by destruct n. Qed.

Lemma update_sibling_frame (s : DRAMSpec) (c : Z) (clk : Clk_t) (n n' : DRAMNode) :
  update_sibling s c clk n = Ok n' ->
  same_frame n n' /\ m_child_nodes n' = m_child_nodes n /\
  m_cmd_history n' = m_cmd_history n /\ m_shared_window_history n' = m_shared_window_history n.
Proof. unfold update_sibling. intros. inv_res. done. Qed.

Lemma update_target_frame (s : DRAMSpec) (c : Z) (clk : Clk_t) (n n' : DRAMNode) :
  update_target s c clk n = Ok n' -> same_frame n n' /\ m_child_nodes n' = m_child_nodes n.
Proof. unfold update_target. intros. inv_res. done. Qed.

Lemma local_effect_frame (s : DRAMSpec) (c : Z) (clk : Clk_t) v (n n' : DRAMNode) :
  local_effect s c clk v n = Ok n' -> same_frame n n' /\ m_child_nodes n' = m_child_nodes n.
Proof.
  destruct v as [[]|]; simpl; intros H.
  - by eapply update_target_frame.
  - apply update_sibling_frame in H. naive_solver.
  - by simplify_eq.
Qed.

(** Without sibling constraints the sibling update is the identity: this is why
    the source may skip the traversal. *)
Lemma bump_all_skip (g : TimingConsEntry -> result (option Z)) (es : list TimingConsEntry) (r : list Z) :
  Forall (fun t => g t = Ok None) es -> bump_all g r es = Ok r.
Proof. unfold bump_all. induction 1 as [|t es Ht _ IH]; simpl; [done|]. by rewrite Ht. Qed.

Lemma update_sibling_skip (s : DRAMSpec) (c : Z) (clk : Clk_t) (n : DRAMNode)
  (es : list TimingConsEntry) :
  cons_of s (m_level n) c = Ok es -> existsb tc_sibling es = false ->
  update_sibling s c clk n = Ok n.
Proof.
  intros Hes Hno. unfold update_sibling. rewrite Hes. simpl.
  rewrite bump_all_skip; simpl; [by rewrite set_ready_id|].
  apply Forall_forall. intros t Ht. unfold sibling_future.
  destruct (tc_sibling t) eqn:E; [|done]. exfalso.
  assert (existsb tc_sibling es = true); [|congruence].
  apply existsb_exists. exists t. split; [by apply list_elem_of_In|done].
Qed.

Section update_timing_at.
Context (s : DRAMSpec) (Hs : spec_wfb s = true).
Context (c : Z) (av : AddrVec_t) (clk : Clk_t).

(** A child that [update_timing] does not descend into behaves as if it had. *)
Lemma skipped_child (n ch : DRAMNode) (i : nat) (t : Z) (p : node_ptr) (m : DRAMNode) :
  tree_wf s n -> 0 <= c < command_count s -> m_child_nodes n !! i = Some ch ->
  vget av (m_level n + 1) = Ok t -> t <> -1 -> Z.of_nat i <> t ->
  sibling_flag s (m_level n + 1) c = Ok false ->
  node_at ch p = Some m -> local_effect s c clk (visit av ch p) m = Ok m.
Proof.
  intros Hwf Hc Hi Ht Ht1 Hne Hflag Hm.
  destruct (lw_child _ _ (tree_all_self _ _ Hwf) _ _ Hi) as [Hlev Hid].
  assert (matches av ch = false) as Hmis.
  { unfold matches. rewrite Hlev, Ht, Hid. lia. }
  destruct p as [|j p]; simpl; rewrite Hmis; [|done]. simpl in Hm. simplify_eq. simpl.
  pose proof (tree_all_self _ _ (tree_all_child _ _ _ _ Hwf Hi)) as Hch.
  destruct (cons_of_ok s Hs (m_level m) c (lw_lv _ _ Hch) Hc) as [es Hes].
  pose proof (sibling_flag_eq s Hs _ _ _ Hes) as Hf. rewrite Hlev, Hflag in Hf. simplify_eq.
  by eapply update_sibling_skip.
Qed.

(** The children after the update, one by one. *)
Lemma update_timing_children (n n1 n' : DRAMNode) :
  tree_wf s n -> 0 <= c < command_count s -> matches av n = true ->
  update_target s c clk n = Ok n1 ->
  update_timing s c av clk n = Ok n' ->
  n' = set_children n1 (m_child_nodes n') /\
  length (m_child_nodes n') = length (m_child_nodes n) /\
  forall i ch, m_child_nodes n !! i = Some ch ->
    exists ch', m_child_nodes n' !! i = Some ch' /\
      (update_timing s c av clk ch = Ok ch' \/
       ch' = ch /\ exists t, vget av (m_level n + 1) = Ok t /\ t <> -1 /\ Z.of_nat i <> t /\
                   sibling_flag s (m_level n + 1) c = Ok false).
Proof.
  intros Hwf Hc Hmatch Htgt H. rewrite update_timing_eq in H.
  unfold matches in Hmatch. destruct (vget av (m_level n)) as [a|]; [|done]. simpl in H.
  replace (negb (m_node_id n =? a) && negb (a =? -1)) with false in H by lia.
  rewrite Htgt in H. simpl in H.
  destruct (update_target_frame _ _ _ _ _ Htgt) as [_ Hcs].
  destruct (decide (m_child_nodes n = [])) as [E|E].
  { simplify_eq. rewrite Hcs. split_and!; [by rewrite <- Hcs, set_children_id|done|].
    intros i ch Hi. rewrite E in Hi. done. }
  apply bind_Ok in H as (t & Ht & H). apply bind_Ok in H as (flag & Hflag & H).
  destruct (flag || (t =? -1)) eqn:Ef.
  - apply bind_Ok in H as (cs & Hm & ?). simplify_eq. simpl. apply mapM_Ok in Hm.
    split_and!; [done|by symmetry; eapply Forall2_length|].
    intros i ch Hi. destruct (Forall2_lookup_l _ _ _ _ _ Hm Hi) as (ch' & ? & ?). eauto.
  - destruct flag; [done|]. destruct (Z.ltb_spec t 0); [done|].
    apply bind_Ok in H as (cs & (x & y & Hx & Hy & ->)%alterM_Ok & ?). simplify_eq. simpl.
    split_and!; [done|by rewrite length_insert|]. intros i ch Hi.
    destruct (decide (i = Z.to_nat t)) as [->|Hne].
    + exists y. rewrite Hx in Hi. simplify_eq. split; [|by left].
      apply list_lookup_insert_eq. by eapply lookup_lt_Some.
    + exists ch. rewrite list_lookup_insert_ne by done. split; [done|right]. split; [done|].
      exists t. split_and!; [done|lia|lia|done].
Qed.

Lemma update_timing_at (n n' : DRAMNode) (p : node_ptr) (m : DRAMNode) :
  tree_wf s n -> 0 <= c < command_count s ->
  update_timing s c av clk n = Ok n' -> node_at n p = Some m ->
  exists m' m1, node_at n' p = Some m' /\ local_effect s c clk (visit av n p) m = Ok m1 /\
    m' = set_children m1 (m_child_nodes m') /\
    length (m_child_nodes m') = length (m_child_nodes m).
Proof.
  revert n' p m. induction n as [n IH] using DRAMNode_ind'. intros n' p m Hwf Hc H Hm.
  destruct (matches av n) eqn:Hmatch.
  - destruct (update_target s c clk n) as [n1|e] eqn:Htgt.
    2: { rewrite update_timing_eq, Htgt in H. unfold matches in Hmatch.
         destruct (vget av (m_level n)) as [a|]; [|done]. simpl in H.
         by replace (negb (m_node_id n =? a) && negb (a =? -1)) with false in H by lia. }
    destruct (update_timing_children _ _ _ Hwf Hc Hmatch Htgt H) as (Hn' & Hlen & Hch).
    destruct p as [|i p]; simpl in *; rewrite Hmatch.
    + simplify_eq. exists n', n1. done.
    + apply bind_Some in Hm as (ch & Hi & Hm). rewrite Hi. simpl.
      destruct (Hch i ch Hi) as (ch' & -> & [Hu|(-> & t & Ht & Ht1 & Hne & Hf)]).
      * rewrite Forall_forall in IH.
        apply (IH ch (list_elem_of_lookup_2 _ _ _ Hi) ch' p m); auto.
        by eapply tree_all_child.
      * exists m, m. simpl. rewrite set_children_id. split_and!; try done.
        by eapply skipped_child.
  - rewrite update_timing_eq in H. unfold matches in Hmatch.
    destruct (vget av (m_level n)) as [a|] eqn:Ha; [|done]. simpl in H.
    replace (negb (m_node_id n =? a) && negb (a =? -1)) with true in H by lia.
    destruct (update_sibling_frame _ _ _ _ _ H) as (_ & Hcs & _).
    assert (matches av n = false) as Hmis by (unfold matches; by rewrite Ha).
    destruct p as [|i p]; simpl in *; rewrite Hmis.
    + simplify_eq. exists n', n'. rewrite set_children_id, Hcs. done.
    + rewrite Hcs. exists m, m. rewrite set_children_id. done.
Qed.

(** The shape of the tree does not change. *)
Lemma update_timing_at_inv (n n' : DRAMNode) (p : node_ptr) (m' : DRAMNode) :
  tree_wf s n -> 0 <= c < command_count s ->
  update_timing s c av clk n = Ok n' -> node_at n' p = Some m' ->
  exists m, node_at n p = Some m.
Proof.
  intros Hwf Hc H. revert m'. induction p as [|i p IH] using rev_ind; intros m' Hm'; [by eexists|].
  rewrite node_at_app in Hm'. apply bind_Some in Hm' as (q' & Hq' & Hm').
  destruct (IH q' Hq') as [q Hq].
  destruct (update_timing_at _ _ _ _ Hwf Hc H Hq) as (q1 & _ & Hq1 & _ & _ & Hlen).
  rewrite Hq' in Hq1. simplify_eq. rewrite node_at_app, Hq. simpl in *.
  apply bind_Some in Hm' as (ch & Hch & _).
  destruct (lookup_lt_is_Some_2 (m_child_nodes q) i) as [x Hx].
  { rewrite <- Hlen. by eapply lookup_lt_Some. }
  rewrite Hx. simpl. eauto.
Qed.
End update_timing_at.

(** ** Histories *)

Lemma window_of_acc (es : list TimingConsEntry) (w : Z) :
  w <= foldl (fun w t => Z.max w (tc_window t)) w es /\
  forall t, t ∈ es -> tc_window t <= foldl (fun w t => Z.max w (tc_window t)) w es.
Proof.
  revert w. induction es as [|t es IH]; intros w; simpl.
  - split; [lia|]. intros t Ht. by apply elem_of_nil in Ht.
  - destruct (IH (Z.max w (tc_window t))) as [H1 H2]. split; [lia|].
    intros t' [->|?]%elem_of_cons; [lia|auto].
Qed.

Lemma window_of_nonneg (es : list TimingConsEntry) : 0 <= window_of es.
Proof. apply (proj1 (window_of_acc es 0)). Qed.

Lemma window_of_ge (es : list TimingConsEntry) (t : TimingConsEntry) :
  t ∈ es -> tc_window t <= window_of es.
Proof. apply (proj2 (window_of_acc es 0)). Qed.

Lemma length_push_history (h : list Z) (clk : Z) : length (push_history h clk) = length h.
Proof.
  destruct h as [|x h]; [done|]. unfold push_history.
  rewrite length_cons, removelast_firstn_len, length_firstn. simpl. lia.
Qed.

(** Pushing on a bounded history is pushing on the full one and truncating. *)
Lemma push_history_take (w : nat) (l : list Z) (clk : Z) :
  (w <= length l)%nat -> push_history (take w l) clk = take w (clk :: l).
Proof.
  intros Hw. destruct w as [|w]; [done|]. destruct l as [|x l]; [simpl in Hw; lia|].
  unfold push_history. change (take (S w) (clk :: x :: l)) with (clk :: take w (x :: l)).
  change (take (S w) (x :: l)) with (x :: take w l) at 1. cbv iota. f_equal. apply removelast_firstn. simpl in *. lia.
Qed.

Definition has_group (es : list TimingConsEntry) (g : nat) : bool :=
  existsb (fun t => (0 <=? tc_history_group t) && (Z.to_nat (tc_history_group t) =? g)%nat) es.

Lemma has_group_snoc (es : list TimingConsEntry) (t : TimingConsEntry) (g : nat) :
  has_group (es ++ [t]) g =
  has_group es g || ((0 <=? tc_history_group t) && (Z.to_nat (tc_history_group t) =? g)%nat).
Proof. unfold has_group. rewrite existsb_app. simpl. by rewrite orb_false_r. Qed.

(** State of the shared-window loop after the entries [done]. *)
Definition shared_inv (stamp : Z) (sh : list (list Z)) (es : list TimingConsEntry)
  (p : list (list Z) * list bool) : Prop :=
  length p.1 = length sh /\ length p.2 = length sh /\
  forall g h, sh !! g = Some h ->
    p.1 !! g = Some (if has_group es g then push_history h stamp else h) /\
    p.2 !! g = Some (has_group es g).

Definition shared_step (stamp : Z) (p : list (list Z) * list bool) (t : TimingConsEntry)
  : result (list (list Z) * list bool) :=
  let g := tc_history_group t in
  if g <? 0 then Ok p
  else
    updated ← vget p.2 g;
    if (updated : bool) then Ok p
    else
      h ← vget p.1 g;
      match h with
      | [] => Err Undef
      | _ => sh' ← vset p.1 g (push_history h stamp); up' ← vset p.2 g true; Ok (sh', up')
      end.

Lemma shared_step_inv (stamp : Z) (sh : list (list Z)) (es : list TimingConsEntry)
  (t : TimingConsEntry) (p p' : list (list Z) * list bool) :
  shared_inv stamp sh es p -> shared_step stamp p t = Ok p' -> shared_inv stamp sh (es ++ [t]) p'.
Proof.
  intros (L1 & L2 & Hp) H. unfold shared_step in H.
  destruct (Z.ltb_spec (tc_history_group t) 0) as [Hg|Hg].
  { simplify_eq. split_and!; [done|done|]. intros g h Hh. rewrite has_group_snoc.
    replace (0 <=? tc_history_group t) with false by lia. rewrite orb_false_r. auto. }
  apply bind_Ok in H as (b & [_ Hb]%vget_Ok & H).
  destruct (lookup_lt_is_Some_2 sh (Z.to_nat (tc_history_group t))) as [h0 Hh0].
  { rewrite <- L2. by eapply lookup_lt_Some. }
  destruct (Hp _ _ Hh0) as [Hp1 Hp2]. rewrite Hb in Hp2. simplify_eq.
  destruct (has_group es (Z.to_nat (tc_history_group t))) eqn:Ehas.
  - simplify_eq. split_and!; [done|done|]. intros g h Hh. rewrite has_group_snoc.
    destruct (Nat.eqb_spec (Z.to_nat (tc_history_group t)) g) as [<-|Hne].
    + destruct (Hp _ _ Hh) as [-> ->]. by rewrite Ehas.
    + rewrite andb_false_r, orb_false_r. auto.
  - apply bind_Ok in H as (h & [_ Hh]%vget_Ok & H). rewrite Hp1 in Hh. simplify_eq.
    destruct h as [|x h]; [done|].
    apply bind_Ok in H as (sh' & [Hr1 ->]%vset_Ok & H2).
    apply bind_Ok in H2 as (up' & [Hr2 ->]%vset_Ok & H2). simplify_eq.
    split_and!; simpl; [by rewrite length_insert|by rewrite length_insert|].
    intros g h' Hh'. rewrite has_group_snoc. replace (0 <=? tc_history_group t) with true by lia.
    destruct (Nat.eqb_spec (Z.to_nat (tc_history_group t)) g) as [<-|Hne].
    + rewrite Hh0 in Hh'. simplify_eq. rewrite Ehas. simpl.
      rewrite !list_lookup_insert_eq by (rewrite ?L1, ?L2; by eapply lookup_lt_Some). done.
    + rewrite !list_lookup_insert_ne by done. rewrite andb_false_r, orb_false_r. auto.
Qed.

Lemma update_shared_fold (es : list TimingConsEntry) (stamp : Z) (sh : list (list Z)) :
  update_shared es stamp sh = (p ← foldM (shared_step stamp) (sh, replicate (length sh) false) es; Ok p.1).
Proof. done. Qed.

Lemma shared_fold_inv (es done : list TimingConsEntry) (stamp : Z) (sh : list (list Z)) p p' :
  shared_inv stamp sh done p -> foldM (shared_step stamp) p es = Ok p' ->
  shared_inv stamp sh (done ++ es) p'.
Proof.
  revert done p. induction es as [|t es IH]; intros done p Hp H; simpl in H.
  - simplify_eq. by rewrite app_nil_r.
  - apply bind_Ok in H as (p1 & H1 & H2).
    replace (done ++ t :: es) with ((done ++ [t]) ++ es) by (by rewrite <- app_assoc).
    eapply IH; [|done]. by eapply shared_step_inv.
Qed.

Lemma shared_inv_init (stamp : Z) (sh : list (list Z)) :
  shared_inv stamp sh [] (sh, replicate (length sh) false).
Proof.
  split_and!; simpl; [done|by rewrite length_replicate|]. intros g h Hh. split; [done|].
  apply lookup_replicate. split; [done|]. by eapply lookup_lt_Some.
Qed.

Lemma update_shared_spec (es : list TimingConsEntry) (stamp : Z) (sh sh' : list (list Z)) :
  update_shared es stamp sh = Ok sh' ->
  length sh' = length sh /\
  forall g h, sh !! g = Some h ->
    sh' !! g = Some (if has_group es g then push_history h stamp else h).
Proof.
  rewrite update_shared_fold. intros (p & Hp & ?)%bind_Ok. simplify_eq.
  destruct (shared_fold_inv _ [] _ _ _ _ (shared_inv_init stamp sh) Hp) as (L & _ & H).
  split; [done|]. intros g h Hh. by apply H.
Qed.

Lemma update_shared_ok (es : list TimingConsEntry) (stamp : Z) (sh : list (list Z)) :
  (forall t, t ∈ es -> 0 <= tc_history_group t ->
     exists h, sh !! Z.to_nat (tc_history_group t) = Some h /\ h <> []) ->
  is_ok (update_shared es stamp sh).
Proof.
  intros Hes. rewrite update_shared_fold.
  enough (forall es' done p, es = done ++ es' -> shared_inv stamp sh done p ->
            is_ok (foldM (shared_step stamp) p es')) as Hall.
  { destruct (Hall es [] _ eq_refl (shared_inv_init stamp sh)) as [p Hp]. rewrite Hp. by exists p.1. }
  induction es' as [|t es' IH]; intros done p -> Hp; simpl; [by eexists|].
  assert (is_ok (shared_step stamp p t)) as [p1 Hp1].
  { unfold shared_step. destruct (Z.ltb_spec (tc_history_group t) 0); [by eexists|].
    destruct (Hes t) as (h & Hh & Hne); [set_solver|done|].
    destruct Hp as (L1 & L2 & Hp). destruct (Hp _ _ Hh) as [Hp1 Hp2].
    assert (0 <= tc_history_group t < Z.of_nat (length sh)) by (apply lookup_lt_Some in Hh; lia).
    rewrite (proj2 (vget_Ok p.2 _ _) (conj H Hp2)). simpl.
    destruct (has_group done _); [by eexists|].
    rewrite (proj2 (vget_Ok p.1 _ _) (conj H Hp1)). simpl. destruct h as [|x h]; [done|].
    eexists. apply bind_Ok. eexists. split; [apply vset_Ok; split; [lia|done]|].
    apply bind_Ok. eexists. split; [apply vset_Ok; split; [lia|done]|done]. }
  rewrite Hp1. simpl. eapply (IH (done ++ [t])); [by rewrite <- app_assoc|].
  by eapply shared_step_inv.
Qed.

(** ** Timing: safety, the skip optimisation, and queries

    Well-formed trees stay well formed and never reach undefined behaviour; the
    traversal that skips unaffected children computes what the full traversal
    does; [check_timing] and [earliest_ready] agree. *)
Section safety.
Context (s : DRAMSpec) (Hs : spec_wfb s = true).

(** ** Local safety *)

Lemma update_sibling_ok (c : Z) (clk : Clk_t) (n : DRAMNode) :
  local_wf s n -> 0 <= c < command_count s -> is_ok (update_sibling s c clk n).
Proof.
  intros Hn Hc. unfold update_sibling.
  destruct (cons_of_ok s Hs (m_level n) c (lw_lv _ _ Hn) Hc) as [es Hes]. rewrite Hes. simpl.
  destruct (bump_all_ok (sibling_future clk) es (m_cmd_ready_clk n)) as [r Hr].
  - apply Forall_forall. intros t Ht. split; [by eexists|]. rewrite (lw_ready _ _ Hn).
    apply (cons_of_entry s Hs _ _ _ _ Hes Ht).
  - rewrite Hr. by eexists.
Qed.

Lemma target_future_ok (c : Z) (es : list TimingConsEntry) (h : list Z) (hist sh : list (list Z))
  (t : TimingConsEntry) :
  t ∈ es -> 1 <= tc_window t -> vget hist c = Ok h -> length h = Z.to_nat (window_of es) ->
  (0 <= tc_history_group t -> exists h', sh !! Z.to_nat (tc_history_group t) = Some h' /\
     tc_window t <= Z.of_nat (length h')) ->
  is_ok (target_future c hist sh t).
Proof.
  intros Ht Hw Hh Hlen Hsh. unfold target_future. destruct (tc_sibling t); [by eexists|].
  destruct (Z.leb_spec 0 (tc_history_group t)) as [Hg|Hg].
  - destruct (Hsh Hg) as (h' & Hh' & Hw'). rewrite (proj2 (vget_Ok _ _ _) (conj Hg Hh')). simpl.
    destruct (vget_in_range h' (tc_window t - 1)) as [x Hx]; [lia|]. rewrite Hx. by eexists.
  - rewrite Hh. simpl. pose proof (window_of_ge es t Ht).
    destruct (vget_in_range h (tc_window t - 1)) as [x Hx]; [lia|]. rewrite Hx. by eexists.
Qed.

Lemma update_target_ok (c : Z) (clk : Clk_t) (n : DRAMNode) :
  local_wf s n -> 0 <= c < command_count s -> is_ok (update_target s c clk n).
Proof.
  intros Hn Hc. unfold update_target.
  destruct (cons_of_ok s Hs (m_level n) c (lw_lv _ _ Hn) Hc) as [es Hes]. rewrite Hes. simpl.
  destruct (lw_hist _ _ Hn _ _ Hes) as (h & Hh & Hlen).
  assert (Hin : 0 <= c < Z.of_nat (length (m_cmd_history n))) by (apply lookup_lt_Some in Hh; lia).
  rewrite (proj2 (vget_Ok _ _ _) (conj (proj1 Hc) Hh)). simpl.
  rewrite (proj2 (vset_Ok (m_cmd_history n) _ c (push_history h clk)) (conj Hin eq_refl)). simpl.
  destruct (spec_wf_parts s Hs) as (_ & _ & _ & Hcy).
  destruct (vget_in_range (command_cycles s) c) as [cy Hcyc]; [lia|]. rewrite Hcyc. simpl.
  assert (Hentry : forall t, t ∈ es -> 0 <= tc_cmd t < command_count s /\ 1 <= tc_window t)
    by (intros; by eapply cons_of_entry).
  destruct (update_shared_ok es (clk + cy - 1) (m_shared_window_history n)) as [sh Hsh].
  { intros t Ht Hg. destruct (lw_shared _ _ Hn _ _ _ Hes Ht Hg) as (h' & ? & ?).
    exists h'. split; [done|]. destruct (Hentry t Ht). intros ->. simpl in *. lia. }
  rewrite Hsh. simpl. destruct (update_shared_spec _ _ _ _ Hsh) as [_ Hsh'].
  edestruct (bump_all_ok (target_future c (<[Z.to_nat c := push_history h clk]> (m_cmd_history n)) sh)
               es (m_cmd_ready_clk n)) as [r Hr].
  - apply Forall_forall. intros t Ht. destruct (Hentry t Ht). rewrite (lw_ready _ _ Hn).
    split; [|done].
    apply (target_future_ok c es (push_history h clk)); [done|done| | |].
    + apply vget_Ok. split; [lia|]. apply list_lookup_insert_eq. lia.
    + by rewrite length_push_history.
    + intros Hg. destruct (lw_shared _ _ Hn _ _ _ Hes Ht Hg) as (h' & Hh' & ?).
      eexists. split; [by apply Hsh'|]. destruct (has_group _ _); rewrite ?length_push_history; done.
  - rewrite Hr. by eexists.
Qed.

Lemma local_effect_ok (c : Z) (clk : Clk_t) v (n : DRAMNode) :
  local_wf s n -> 0 <= c < command_count s -> is_ok (local_effect s c clk v n).
Proof.
  intros. destruct v as [[]|]; simpl; eauto using update_target_ok, update_sibling_ok. by eexists.
Qed.

(** ** Preservation of the sizes every later access relies on *)

Lemma local_effect_wf (c : Z) (clk : Clk_t) v (n n' : DRAMNode) :
  local_wf s n -> local_effect s c clk v n = Ok n' -> local_wf s n'.
Proof.
  intros Hn H. destruct (local_effect_frame _ _ _ _ _ _ H) as [(Hl & Hid & _ & _) Hch].
  destruct v as [[]|]; simpl in H; [| |by simplify_eq].
  - unfold update_target in H.
    apply bind_Ok in H as (es & Hes & H). apply bind_Ok in H as (h & [Hc Hh]%vget_Ok & H).
    apply bind_Ok in H as (hist & [_ ->]%vset_Ok & H). apply bind_Ok in H as (cy & _ & H).
    apply bind_Ok in H as (sh & Hsh & H). apply bind_Ok in H as (r & Hr & H). simplify_eq.
    destruct (update_shared_spec _ _ _ _ Hsh) as [_ Hsh'].
    destruct (bump_all_spec _ _ _ _ Hr) as (Lr & _).
    destruct Hn as [w1 w2 w3 w4 w5 w6]. constructor; simpl in *; auto.
    + congruence.
    + intros c' es' Hes'. destruct (w3 _ _ Hes') as (h' & Hh' & Hlen).
      destruct (decide (Z.to_nat c = Z.to_nat c')) as [E|E].
      * exists (push_history h clk). rewrite <- E in *. split.
        -- apply list_lookup_insert_eq. by eapply lookup_lt_Some.
        -- rewrite length_push_history. congruence.
      * exists h'. by rewrite list_lookup_insert_ne.
    + intros c' es' t Hes' Ht Hg. destruct (w4 _ _ _ Hes' Ht Hg) as (h' & Hh' & Hlen).
      eexists. split; [by apply Hsh'|]. destruct (has_group _ _); by rewrite ?length_push_history.
  - unfold update_sibling in H. apply bind_Ok in H as (es & Hes & H).
    apply bind_Ok in H as (r & Hr & H). simplify_eq.
    destruct (bump_all_spec _ _ _ _ Hr) as (Lr & _).
    destruct Hn as [w1 w2 w3 w4 w5 w6]. constructor; simpl in *; auto. congruence.
Qed.

Lemma update_timing_wf (c : Z) (av : AddrVec_t) (clk : Clk_t) (n n' : DRAMNode) :
  tree_wf s n -> 0 <= c < command_count s ->
  update_timing s c av clk n = Ok n' -> tree_wf s n'.
Proof.
  intros Hwf Hc H p m' Hm'.
  destruct (update_timing_at_inv s Hs c av clk n n' p m' Hwf Hc H Hm') as [m Hm].
  destruct (update_timing_at s Hs c av clk n n' p m Hwf Hc H Hm)
    as (m'' & m1 & Hm'' & Heff & Hshape & Hlen).
  rewrite Hm' in Hm''. simplify_eq.
  pose proof (local_effect_wf _ _ _ _ _ (Hwf _ _ Hm) Heff) as [w1 w2 w3 w4 w5 w6].
  destruct (local_effect_frame _ _ _ _ _ _ Heff) as [(Hl & _) Hch].
  rewrite Hshape. constructor; simpl; try done.
  - intros i ch Hi.
    destruct (lookup_lt_is_Some_2 (m_child_nodes m) i) as [ch0 Hi0].
    { rewrite <- Hlen. by eapply lookup_lt_Some. }
    assert (node_at n (p ++ [i]) = Some ch0) as Hn0 by (rewrite node_at_app, Hm; simpl; by rewrite Hi0).
    destruct (update_timing_at s Hs c av clk n n' _ _ Hwf Hc H Hn0)
      as (ch1 & chl & Hat & Heff0 & Hsh0 & _).
    rewrite node_at_app, Hm' in Hat. simpl in Hat. rewrite Hi in Hat. simpl in Hat. simplify_eq.
    destruct (local_effect_frame _ _ _ _ _ _ Heff0) as [(Hl0 & Hid0 & _) _].
    rewrite Hsh0. simpl. destruct (lw_child _ _ (Hwf _ _ Hm) _ _ Hi0). split; congruence || lia.
  - intros Hne. rewrite Hlen, Hl. apply (lw_count _ _ (Hwf _ _ Hm)).
    intros E. apply Hne. apply length_zero_iff_nil. by rewrite Hlen, E.
Qed.

(** A well-formed address reaches no undefined behaviour. *)
Lemma update_timing_ok (c : Z) (av : AddrVec_t) (clk : Clk_t) (n : DRAMNode) :
  tree_wf s n -> 0 <= c < command_count s -> av_ok s av ->
  is_ok (update_timing s c av clk n).
Proof.
  intros Hwf Hc [Hlen Hav]. induction n as [n IH] using DRAMNode_ind'.
  pose proof (tree_all_self _ _ Hwf) as Hn. rewrite update_timing_eq.
  destruct (vget_in_range av (m_level n)) as [a Ha]; [pose proof (lw_level _ _ Hn); lia|].
  rewrite Ha. simpl. destruct (_ && _); [by apply update_sibling_ok|].
  destruct (update_target_ok c clk n Hn Hc) as [n1 ->]. simpl.
  destruct (decide (m_child_nodes n = [])) as [E|E]; [by eexists|].
  assert (Hch : Forall (fun ch => exists y, update_timing s c av clk ch = Ok y /\ True) (m_child_nodes n)).
  { rewrite Forall_lookup in *. intros i ch Hi. destruct (IH i ch Hi) as [y Hy]; [|eauto].
    by eapply tree_all_child. }
  destruct (m_child_nodes n) as [|ch0 cs] eqn:Ecs; [done|].
  assert (Hlv : 0 <= m_level n + 1 < level_count s).
  { destruct (lw_child _ _ Hn 0%nat ch0) as [<- _]; [by rewrite Ecs|].
    apply (lw_lv s). eapply tree_all_self, (tree_all_child _ _ _ 0%nat Hwf). by rewrite Ecs. }
  destruct (vget_in_range av (m_level n + 1)) as [t Ht]; [lia|]. rewrite Ht. simpl.
  destruct (cons_of_ok s Hs _ c Hlv Hc) as [es Hes].
  rewrite (sibling_flag_eq s Hs _ _ _ Hes). simpl.
  destruct (existsb tc_sibling es || (t =? -1)) eqn:Ef.
  { destruct (mapM_ok (fun _ => True) _ _ Hch) as (k & Hk & _).
    rewrite Hk. by eexists. }
  pose proof (lw_count _ _ Hn) as Hcount. rewrite Ecs in Hcount.
  destruct (Hav (m_level n + 1) _ _ ltac:(pose proof (lw_lv _ _ Hn); lia) Ht (Hcount ltac:(done))) as [->|Hr]; [lia|].
  destruct (Z.ltb_spec t 0); [lia|].
  destruct (lookup_lt_is_Some_2 (ch0 :: cs) (Z.to_nat t)) as [x Hx]; [lia|].
  rewrite Forall_lookup in Hch. destruct (Hch _ _ Hx) as (y & Hy & _).
  eexists. apply bind_Ok. eexists. split; [apply alterM_Ok; eauto 6|done].
Qed.
End safety.

(** ** The traversal without the skip *)

(** Reference: descend into every child, whatever the address. *)
Fixpoint update_timing_full (spec : DRAMSpec) (command : Z) (av : AddrVec_t) (clk : Clk_t)
  (n : DRAMNode) {struct n} : result DRAMNode :=
  a ← vget av (m_level n);
  if negb (m_node_id n =? a) && negb (a =? -1) then update_sibling spec command clk n
  else
    n1 ← update_target spec command clk n;
    match n with
    | mkNode _ _ _ _ _ _ _ [] => Ok n1
    | mkNode _ _ _ _ _ _ _ children =>
        cs ← mapM (update_timing_full spec command av clk) children;
        Ok (set_children n1 cs)
    end.

Lemma update_timing_full_eq (s : DRAMSpec) (c : Z) (av : AddrVec_t) (clk : Clk_t) (n : DRAMNode) :
  update_timing_full s c av clk n =
  (a ← vget av (m_level n);
   if negb (m_node_id n =? a) && negb (a =? -1) then update_sibling s c clk n
   else
     n1 ← update_target s c clk n;
     if decide (m_child_nodes n = []) then Ok n1
     else cs ← mapM (update_timing_full s c av clk) (m_child_nodes n); Ok (set_children n1 cs)).
Proof. by destruct n as [? ? ? ? ? ? ? [|]]. Qed.

(** The traversal that visits only the addressed child when no sibling
    constraint exists at the child level computes exactly the same tree as the
    traversal that visits every child. *)
Theorem update_timing_skip_sound (s : DRAMSpec) (c : Z) (av : AddrVec_t) (clk : Clk_t)
  (n : DRAMNode) :
  spec_wfb s = true -> tree_wf s n -> 0 <= c < command_count s -> av_ok s av ->
  update_timing s c av clk n = update_timing_full s c av clk n.
Proof.
  intros Hs Hwf Hc Hav. induction n as [n IH] using DRAMNode_ind'.
  destruct (update_timing_ok s Hs c av clk n Hwf Hc Hav) as [n' Hn'].
  rewrite Hn'. symmetry. rewrite update_timing_full_eq.
  destruct (matches av n) eqn:Hmatch; unfold matches in Hmatch.
  - destruct (vget av (m_level n)) as [a|] eqn:Ha; [|done]. simpl.
    replace (negb (m_node_id n =? a) && negb (a =? -1)) with false by lia.
    destruct (update_target_ok s Hs c clk n (tree_all_self _ _ Hwf) Hc) as [n1 Htgt].
    rewrite Htgt. simpl.
    assert (Hm : matches av n = true) by (unfold matches; rewrite Ha; lia).
    destruct (update_timing_children s c av clk n n1 n' Hwf Hc Hm Htgt Hn') as (Hsh & Hlen & Hch).
    rewrite Hsh. destruct (decide (m_child_nodes n = [])) as [E|E].
    { assert (m_child_nodes n' = []) as -> by (apply length_zero_iff_nil; by rewrite Hlen, E).
      destruct (update_target_frame _ _ _ _ _ Htgt) as [_ Hcs].
      rewrite <- E, <- Hcs, set_children_id. done. }
    apply bind_Ok. exists (m_child_nodes n'). split; [|done].
    apply mapM_Ok. apply Forall2_same_length_lookup. split; [done|].
    intros i ch ch' Hi Hi'. destruct (Hch i ch Hi) as (ch1 & Hi1 & Hor). simplify_eq.
    rewrite Forall_forall in IH.
    rewrite <- (IH ch (list_elem_of_lookup_2 _ _ _ Hi) (tree_all_child _ _ _ _ Hwf Hi)).
    destruct Hor as [Hu|(-> & t & Ht & Ht1 & Hne & Hf)]; [done|].
    pose proof (skipped_child s Hs c av clk n ch i t [] ch Hwf Hc Hi Ht Ht1 Hne Hf eq_refl) as Hsk.
    destruct (lw_child _ _ (tree_all_self _ _ Hwf) _ _ Hi) as [Hlev Hid].
    rewrite update_timing_eq, Hlev, Ht. simpl.
    replace (negb (m_node_id ch =? t) && negb (t =? -1)) with true by lia.
    simpl in Hsk. unfold matches in Hsk. rewrite Hlev, Ht in Hsk.
    by replace ((m_node_id ch =? t) || (t =? -1)) with false in Hsk by lia.
  - rewrite update_timing_eq in Hn'. destruct (vget av (m_level n)) as [a|] eqn:Ha; [|done].
    simpl in *. by replace (negb (m_node_id n =? a) && negb (a =? -1)) with true in * by lia.
Qed.

(** ** Queries *)

(** Folding the two queries over the children of a node. *)
Lemma query_fold (s : DRAMSpec) (c : Z) (av : AddrVec_t) (clk : Clk_t) (cs : list DRAMNode)
  (r0 : Z) :
  Forall (fun ch => exists r, earliest_ready c av ch = Ok r /\
            check_timing c av clk ch = Ok (r <=? clk)) cs ->
  exists r,
    foldM (fun ready ch => r ← earliest_ready c av ch; Ok (Z.max ready r)) r0 cs = Ok r /\
    foldM (fun ok ch => if (ok : bool) then check_timing c av clk ch else Ok false)
      (r0 <=? clk) cs = Ok (r <=? clk).
Proof.
  intros H. revert r0. induction H as [|ch cs (r & Hr & Hck) _ IH]; intros r0; simpl; [eauto|].
  rewrite Hr. simpl. destruct (IH (Z.max r0 r)) as (r' & Hr' & Hf). exists r'. split; [done|].
  rewrite <- Hf. destruct (Z.leb_spec r0 clk).
  - rewrite Hck. simpl. f_equal. lia.
  - simpl. f_equal. lia.
Qed.

Lemma timing_queries_agree (s : DRAMSpec) (c : Z) (av : AddrVec_t) (clk : Clk_t) (n : DRAMNode) :
  spec_wfb s = true -> tree_wf s n -> 0 <= c < command_count s -> av_ok s av -> -1 <= clk ->
  exists r, earliest_ready c av n = Ok r /\ check_timing c av clk n = Ok (r <=? clk).
Proof.
  intros Hs Hwf Hc [Hlen Hav] Hclk. induction n as [n IH] using DRAMNode_ind'.
  pose proof (tree_all_self _ _ Hwf) as Hn. rewrite earliest_ready_eq, check_timing_eq.
  destruct (vget_in_range (m_cmd_ready_clk n) c) as [x Hx]; [pose proof (lw_ready _ _ Hn); lia|].
  rewrite Hx. simpl.
  destruct (vget_in_range av (m_level n + 1)) as [t Ht]; [pose proof (lw_level _ _ Hn); lia|].
  rewrite Ht. simpl.
  assert (Hch : Forall (fun ch => exists r, earliest_ready c av ch = Ok r /\
            check_timing c av clk ch = Ok (r <=? clk)) (m_child_nodes n)).
  { rewrite Forall_lookup in *. intros i ch Hi. apply (IH i ch Hi). by eapply tree_all_child. }
  clear IH. destruct (decide (m_child_nodes n = [])) as [E|E].
  { exists x. split; [done|]. destruct (negb _ && _) eqn:Eb; f_equal; lia. }
  destruct (Z.eqb_spec t (-1)) as [->|Hne].
  { destruct (query_fold s c av clk _ x Hch) as (r & Hr & Hf). exists r. split; [done|].
    destruct (negb _ && _) eqn:Eb.
    - replace (x <=? clk) with false in Hf by lia. rewrite <- Hf. clear.
      induction (m_child_nodes n); simpl; auto.
    - by replace (x <=? clk) with true in Hf by lia. }
  destruct (Hav (m_level n + 1) t (Z.of_nat (length (m_child_nodes n))))
    as [?|Hr]; [pose proof (lw_level _ _ Hn); lia|done|by apply (lw_count _ _ Hn)|done|].
  rewrite !pick_child_nonneg by lia.
  destruct (lookup_lt_is_Some_2 (m_child_nodes n) (Z.to_nat t)) as [ch Hi]; [lia|]. rewrite Hi.
  rewrite Forall_lookup in Hch. destruct (Hch _ _ Hi) as (r & -> & ->). simpl.
  exists (Z.max x r). split; [done|]. destruct (negb _ && _) eqn:Eb; f_equal; lia.
Qed.
