(* ===== verification/TimingSpec.v ===== *)
(** * Timing as a declarative contract

    The clocks kept by the tree refine an abstract specification that only looks
    at which commands were issued and when: a command may be issued at a clock
    exactly when every constraint raised by an earlier command is satisfied.
    The window of a constraint counts issues of the constraining command (or of
    the commands of its history group), so nFAW-like rules are covered. *)

From Stdlib Require Import ZArith Lia.
From S2P Require Import Prelude Base Spec Node Timing.

Local Open Scope Z_scope.

(** ** Events seen by one node *)
Record event := mkEv { ev_target : bool; ev_cmd : Z; ev_clk : Clk_t }.

(** Clocks at which the node was the target of a command, latest first. *)
Definition issue_times (evs : list event) (c : Z) : list Clk_t :=
  map ev_clk (List.filter (fun e => ev_target e && (ev_cmd e =? c)) evs).

(** Does a command advance a shared window of this level? *)
Definition in_group (s : DRAMSpec) (l c : Z) (g : nat) : bool :=
  match cons_of s l c with Ok es => has_group es g | Err _ => false end.

(** The last cycle on which a command occupies the command bus. *)
Definition stamp_of (s : DRAMSpec) (e : event) : Clk_t :=
  match vget (command_cycles s) (ev_cmd e) with Ok cy => ev_clk e + cy - 1 | Err _ => ev_clk e end.

Definition group_times (s : DRAMSpec) (l : Z) (evs : list event) (g : nat) : list Clk_t :=
  map (stamp_of s) (List.filter (fun e => ev_target e && in_group s l (ev_cmd e) g) evs).

(** [obliged s l evs c t]: at level [l], after the events [evs] (latest first),
    command [c] may not be issued before clock [t]. *)
Inductive obliged (s : DRAMSpec) (l : Z) : list event -> Z -> Clk_t -> Prop :=
| ob_later e evs c t : obliged s l evs c t -> obliged s l (e :: evs) c t
| ob_sibling cmd clk evs es e :
    cons_of s l cmd = Ok es -> e ∈ es -> tc_sibling e = true ->
    obliged s l (mkEv false cmd clk :: evs) (tc_cmd e) (clk + tc_val e)
| ob_window cmd clk evs es e past :
    cons_of s l cmd = Ok es -> e ∈ es -> tc_sibling e = false -> tc_history_group e < 0 ->
    issue_times (mkEv true cmd clk :: evs) cmd !! Z.to_nat (tc_window e - 1) = Some past ->
    obliged s l (mkEv true cmd clk :: evs) (tc_cmd e) (past + tc_val e)
| ob_group cmd clk evs es e past :
    cons_of s l cmd = Ok es -> e ∈ es -> tc_sibling e = false -> 0 <= tc_history_group e ->
    group_times s l (mkEv true cmd clk :: evs) (Z.to_nat (tc_history_group e))
      !! Z.to_nat (tc_window e - 1) = Some past ->
    obliged s l (mkEv true cmd clk :: evs) (tc_cmd e) (past + tc_val e).

(** ** Histories are padded suffixes of the event log *)
Definition padded (w : nat) (times : list Clk_t) : list Clk_t := take w (times ++ replicate w (-1)).

Lemma push_padded (w : nat) (times : list Z) (clk : Z) :
  push_history (padded w times) clk = padded w (clk :: times).
Proof.
  unfold padded. rewrite push_history_take; [done|].
  rewrite length_app, length_replicate. lia.
Qed.

Lemma length_padded (w : nat) (times : list Z) : length (padded w times) = w.
Proof. unfold padded. rewrite length_take, length_app, length_replicate. lia. Qed.

Lemma padded_lookup (w k : nat) (times : list Z) (x : Z) :
  (k < w)%nat -> Forall (fun t => 0 <= t) times ->
  (padded w times !! k = Some x /\ 0 <= x) <-> times !! k = Some x.
Proof.
  intros Hk Hpos. unfold padded. rewrite lookup_take_lt by done. split.
  - intros [Hx H0]. apply lookup_app_Some in Hx as [?|[? [-> _]%lookup_replicate]]; [done|lia].
  - intros Hx. split; [by apply lookup_app_l_Some|]. by eapply (Forall_lookup_1 _ _ _ _ Hpos).
Qed.

(** ** The abstraction relation between a node and its event log *)
Record log_inv (s : DRAMSpec) (n : DRAMNode) (evs : list event) : Prop := mkLogInv {
  li_clk : Forall (fun e => 0 <= ev_clk e) evs;
  li_hist : forall c es h, 0 <= c -> cons_of s (m_level n) c = Ok es ->
    m_cmd_history n !! Z.to_nat c = Some h -> h = padded (Z.to_nat (window_of es)) (issue_times evs c);
  li_shared : forall g h, m_shared_window_history n !! g = Some h ->
    h = padded (length h) (group_times s (m_level n) evs g);
  li_ready : forall c x, 0 <= c -> m_cmd_ready_clk n !! Z.to_nat c = Some x ->
    (forall t, obliged s (m_level n) evs c t -> t <= x) /\ -1 <= x /\
    (x = -1 \/ obliged s (m_level n) evs c x)
}.

Section log.
Context (s : DRAMSpec) (Hs : spec_wfb s = true).

Lemma issue_times_pos (evs : list event) (c : Z) :
  Forall (fun e => 0 <= ev_clk e) evs -> Forall (fun t => 0 <= t) (issue_times evs c).
Proof.
  unfold issue_times. induction 1 as [|e evs He _ IH]; simpl; [constructor|].
  destruct (_ && _); simpl; auto.
Qed.

Lemma group_times_pos (l : Z) (evs : list event) (g : nat) :
  Forall (fun e => 0 <= ev_clk e) evs -> Forall (fun t => 0 <= t) (group_times s l evs g).
Proof.
  unfold group_times. induction 1 as [|e evs He _ IH]; simpl; [constructor|].
  destruct (_ && _); simpl; [|done]. constructor; [|done]. unfold stamp_of.
  destruct (vget (command_cycles s) (ev_cmd e)) as [cy|] eqn:E; [|done].
  pose proof (command_cycles_pos s Hs _ _ E). lia.
Qed.

(** Obligations never disappear and are exactly those of the new event. *)
Lemma obliged_sibling_inv (l cmd clk : Z) (evs : list event) (c t : Z) :
  obliged s l (mkEv false cmd clk :: evs) c t ->
  obliged s l evs c t \/ exists es e, cons_of s l cmd = Ok es /\ e ∈ es /\
    tc_cmd e = c /\ sibling_future clk e = Ok (Some t).
Proof.
  inversion 1; subst; [by left|]. right. exists es, e. unfold sibling_future.
  split_and!; try done. by destruct (tc_sibling e).
Qed.

Lemma log_sibling (c : Z) (clk : Clk_t) (n n' : DRAMNode) (evs : list event) :
  0 <= clk -> log_inv s n evs -> update_sibling s c clk n = Ok n' ->
  log_inv s n' (mkEv false c clk :: evs).
Proof.
  intros Hclk [i1 i2 i3 i4] H. destruct (update_sibling_frame _ _ _ _ _ H) as ((Hl & _) & _ & Hh & Hsh).
  unfold update_sibling in H. apply bind_Ok in H as (es & Hes & H).
  apply bind_Ok in H as (r & Hr & H). simplify_eq.
  destruct (bump_all_spec _ _ _ _ Hr) as (Lr & Mono & Contrib & Exact).
  constructor; simpl in *; [constructor; done|done|done|].
  intros c' x Hc' Hx. destruct (lookup_lt_is_Some_2 (m_cmd_ready_clk n) (Z.to_nat c')) as [x0 Hx0].
  { rewrite <- Lr. by eapply lookup_lt_Some. }
  destruct (i4 c' x0 Hc' Hx0) as (Hob & Hm1 & _).
  destruct (Mono _ _ Hx0) as (x1 & Hx1 & Hle). rewrite Hx in Hx1. simplify_eq. split_and!; [|lia|].
  - intros t [Ht|(es' & e & Hes' & Hin & <- & Hf)]%obliged_sibling_inv; [specialize (Hob t Ht); lia|].
    rewrite Hes in Hes'. simplify_eq. destruct (Contrib e t Hin Hf) as (y & Hy & ?). rewrite Hx in Hy. simplify_eq. done.
  - destruct (Exact _ _ Hx) as [Hold|(e & Hin & Hc & Hf)].
    + destruct (i4 _ _ Hc' Hold) as (_ & _ & [->|?]); [by left|right; by constructor].
    + right. unfold sibling_future in Hf. destruct (tc_sibling e) eqn:Esib; [|done]. simplify_eq.
      destruct (cons_of_entry s Hs _ _ _ _ Hes Hin) as [? _].
      replace c' with (tc_cmd e) by lia. by eapply ob_sibling.
Qed.

(** What a constraint contributes at the addressed node, read off the log. *)
Lemma target_future_log (n : DRAMNode) (evs : list event) (c clk : Z) (es : list TimingConsEntry)
  (hist sh : list (list Z)) (e : TimingConsEntry) (f : Z) :
  local_wf s n -> cons_of s (m_level n) c = Ok es -> e ∈ es ->
  Forall (fun e => 0 <= ev_clk e) (mkEv true c clk :: evs) ->
  vget hist c = Ok (padded (Z.to_nat (window_of es)) (issue_times (mkEv true c clk :: evs) c)) ->
  (0 <= tc_history_group e ->
     exists h, vget sh (tc_history_group e) = Ok h /\ tc_window e <= Z.of_nat (length h) /\
       h = padded (length h)
             (group_times s (m_level n) (mkEv true c clk :: evs) (Z.to_nat (tc_history_group e)))) ->
  (target_future c hist sh e = Ok (Some f) <->
   tc_sibling e = false /\
   exists past, f = past + tc_val e /\
     (if 0 <=? tc_history_group e
      then group_times s (m_level n) (mkEv true c clk :: evs) (Z.to_nat (tc_history_group e))
      else issue_times (mkEv true c clk :: evs) c) !! Z.to_nat (tc_window e - 1) = Some past).
Proof.
  intros Hn Hes Hin Hpos Hh Hg. unfold target_future.
  destruct (cons_of_entry s Hs _ _ _ _ Hes Hin) as [_ Hw].
  destruct (tc_sibling e); [naive_solver|].
  assert (forall w times, Forall (fun t => 0 <= t) times -> tc_window e <= Z.of_nat w ->
    ((past ← vget (padded w times) (tc_window e - 1);
      Ok (if past <? 0 then None else Some (past + tc_val e))) = Ok (Some f) <->
     exists past, f = past + tc_val e /\ times !! Z.to_nat (tc_window e - 1) = Some past)) as Hgen.
  { intros w times Ht Hle.
    pose proof (padded_lookup w (Z.to_nat (tc_window e - 1)) times) as Hpl. split.
    - intros (past & [_ Hp]%vget_Ok & Hf)%bind_Ok. destruct (Z.ltb_spec past 0); [done|].
      simplify_eq. exists past. split; [done|]. apply Hpl; [lia|done|done].
    - intros (past & -> & Hp). apply Hpl in Hp as [Hp H0]; [|lia|done].
      apply bind_Ok. exists past. split; [apply vget_Ok; split; [lia|done]|].
      by destruct (Z.ltb_spec past 0); [lia|]. }
  destruct (Z.leb_spec 0 (tc_history_group e)) as [H0|H0].
  - destruct (Hg H0) as (h & Hgh & Hle & Heq). rewrite Hgh. simpl. rewrite Heq.
    rewrite Hgen; [naive_solver|by apply group_times_pos|done].
  - rewrite Hh. simpl. rewrite Hgen; [naive_solver|by apply issue_times_pos|].
    pose proof (window_of_ge es e Hin). lia.
Qed.

Lemma issue_times_target (evs : list event) (c clk c' : Z) :
  issue_times (mkEv true c clk :: evs) c' =
  if c =? c' then clk :: issue_times evs c' else issue_times evs c'.
Proof. unfold issue_times. simpl. by destruct (c =? c'). Qed.

Lemma group_times_target (l : Z) (evs : list event) (c clk cy : Z) (es : list TimingConsEntry) (g : nat) :
  cons_of s l c = Ok es -> vget (command_cycles s) c = Ok cy ->
  group_times s l (mkEv true c clk :: evs) g =
  if has_group es g then (clk + cy - 1) :: group_times s l evs g else group_times s l evs g.
Proof.
  intros Hes Hcy. unfold group_times. simpl. unfold in_group at 1. simpl. rewrite Hes.
  destruct (has_group es g); [|done]. simpl. unfold stamp_of at 1. simpl. by rewrite Hcy.
Qed.

Lemma obliged_target_inv (l cmd clk : Z) (evs : list event) (c t : Z) :
  obliged s l (mkEv true cmd clk :: evs) c t ->
  obliged s l evs c t \/ exists es e past, cons_of s l cmd = Ok es /\ e ∈ es /\
    tc_cmd e = c /\ tc_sibling e = false /\ t = past + tc_val e /\
    (if 0 <=? tc_history_group e
     then group_times s l (mkEv true cmd clk :: evs) (Z.to_nat (tc_history_group e))
     else issue_times (mkEv true cmd clk :: evs) cmd) !! Z.to_nat (tc_window e - 1) = Some past.
Proof.
  inversion 1; subst; [by left| |]; right; exists es, e, past; split_and!; try done.
  - by destruct (Z.leb_spec 0 (tc_history_group e)); [lia|].
  - by destruct (Z.leb_spec 0 (tc_history_group e)); [|lia].
Qed.

Lemma obliged_target_intro (l cmd clk : Z) (evs : list event) (es : list TimingConsEntry)
  (e : TimingConsEntry) (past : Z) :
  cons_of s l cmd = Ok es -> e ∈ es -> tc_sibling e = false ->
  (if 0 <=? tc_history_group e
   then group_times s l (mkEv true cmd clk :: evs) (Z.to_nat (tc_history_group e))
   else issue_times (mkEv true cmd clk :: evs) cmd) !! Z.to_nat (tc_window e - 1) = Some past ->
  obliged s l (mkEv true cmd clk :: evs) (tc_cmd e) (past + tc_val e).
Proof.
  intros. destruct (Z.leb_spec 0 (tc_history_group e)); [by eapply ob_group|by eapply ob_window].
Qed.

(** The shared windows after the addressed update. *)
Lemma shared_target_log (c : Z) (clk : Clk_t) (n : DRAMNode) (evs : list event) (es : list TimingConsEntry) (cy : Z) (sh : list (list Z)) :
  log_inv s n evs -> cons_of s (m_level n) c = Ok es -> vget (command_cycles s) c = Ok cy ->
  update_shared es (clk + cy - 1) (m_shared_window_history n) = Ok sh ->
  forall g h, sh !! g = Some h -> h = padded (length h) (group_times s (m_level n) (mkEv true c clk :: evs) g).
Proof.
  intros [_ _ i3 _] Hes Hcy Hsh g h Hg. destruct (update_shared_spec _ _ _ _ Hsh) as [Lsh Hsh'].
  destruct (lookup_lt_is_Some_2 (m_shared_window_history n) g) as [h0 Hh0].
  { rewrite <- Lsh. by eapply lookup_lt_Some. }
  rewrite (Hsh' _ _ Hh0) in Hg. simplify_eq.
  rewrite (group_times_target _ _ _ _ _ _ g Hes Hcy). destruct (has_group es g); [|by apply i3].
  rewrite length_push_history. rewrite (i3 _ _ Hh0) at 1. by rewrite push_padded.
Qed.

Lemma log_target (c : Z) (clk : Clk_t) (n n' : DRAMNode) (evs : list event) :
  0 <= clk -> 0 <= c -> local_wf s n -> log_inv s n evs -> update_target s c clk n = Ok n' ->
  log_inv s n' (mkEv true c clk :: evs).
Proof.
  intros Hclk Hc0 Hn Hlog H. pose proof Hlog as [i1 i2 i3 i4]. unfold update_target in H.
  apply bind_Ok in H as (es & Hes & H). apply bind_Ok in H as (h & [_ Hh]%vget_Ok & H).
  apply bind_Ok in H as (hist & [Hcl ->]%vset_Ok & H). apply bind_Ok in H as (cy & Hcy & H).
  apply bind_Ok in H as (sh & Hsh & H). apply bind_Ok in H as (r & Hr & H). simplify_eq.
  destruct (update_shared_spec _ _ _ _ Hsh) as [Lsh Hsh'].
  destruct (bump_all_spec _ _ _ _ Hr) as (Lr & Mono & Contrib & Exact).
  assert (Hpos : Forall (fun e => 0 <= ev_clk e) (mkEv true c clk :: evs)) by (by constructor).
  assert (Hcur : push_history h clk =
            padded (Z.to_nat (window_of es)) (issue_times (mkEv true c clk :: evs) c)).
  { rewrite (i2 c es h Hc0 Hes Hh), push_padded, issue_times_target, Z.eqb_refl. done. }
  assert (Hshl : forall g h', sh !! g = Some h' ->
            h' = padded (length h') (group_times s (m_level n) (mkEv true c clk :: evs) g)).
  { by eapply shared_target_log. }
  assert (Hfut : forall e f, e ∈ es ->
    target_future c (<[Z.to_nat c := push_history h clk]> (m_cmd_history n)) sh e = Ok (Some f) <->
    tc_sibling e = false /\ exists past, f = past + tc_val e /\
     (if 0 <=? tc_history_group e
      then group_times s (m_level n) (mkEv true c clk :: evs) (Z.to_nat (tc_history_group e))
      else issue_times (mkEv true c clk :: evs) c) !! Z.to_nat (tc_window e - 1) = Some past).
  { intros e f Hin. apply (target_future_log n evs c clk es); try done.
    - apply vget_Ok. split; [done|]. rewrite <- Hcur. apply list_lookup_insert_eq. lia.
    - intros Hg. destruct (lw_shared _ _ Hn _ _ _ Hes Hin Hg) as (h0 & Hh0 & Hle).
      pose proof (Hsh' _ _ Hh0) as Hnew. eexists. split; [by apply vget_Ok|].
      split; [|by apply Hshl]. destruct (has_group _ _); by rewrite ?length_push_history. }
  constructor; simpl in *; [done| |done|].
  - intros c' es' h' Hc' Hes' Hh'. destruct (decide (c = c')) as [<-|Hne].
    + rewrite list_lookup_insert_eq in Hh' by lia. rewrite Hes in Hes'. simplify_eq. done.
    + rewrite list_lookup_insert_ne in Hh' by lia. rewrite (i2 c' es' h' Hc' Hes' Hh').
      rewrite issue_times_target. by destruct (Z.eqb_spec c c').
  - intros c' x Hc' Hx. destruct (lookup_lt_is_Some_2 (m_cmd_ready_clk n) (Z.to_nat c')) as [x0 Hx0].
    { rewrite <- Lr. by eapply lookup_lt_Some. }
    destruct (i4 c' x0 Hc' Hx0) as (Hob & Hm1 & _).
    destruct (Mono _ _ Hx0) as (x1 & Hx1 & Hle). rewrite Hx in Hx1. simplify_eq. split_and!; [|lia|].
    + intros t [Ht|(es' & e & past & Hes' & Hin & <- & Hsib & -> & Hp)]%obliged_target_inv;
        [specialize (Hob t Ht); lia|].
      rewrite Hes in Hes'. simplify_eq.
      destruct (Contrib e (past + tc_val e) Hin) as (y & Hy & ?).
      { apply Hfut; [done|]. split; [done|]. by exists past. }
      rewrite Hx in Hy. by simplify_eq.
    + destruct (Exact _ _ Hx) as [Hold|(e & Hin & Hc & Hf)].
      * destruct (i4 _ _ Hc' Hold) as (_ & _ & [->|?]); [by left|right; by constructor].
      * right. apply Hfut in Hf as (Hsib & past & -> & Hp); [|done].
        destruct (cons_of_entry s Hs _ _ _ _ Hes Hin) as [? _].
        replace c' with (tc_cmd e) by lia. by eapply obliged_target_intro.
Qed.
End log.

(** ** Traces of issued commands *)
Record issue := mkIssue { is_cmd : Z; is_av : AddrVec_t; is_clk : Clk_t }.

Definition issue_ok (s : DRAMSpec) (i : issue) : Prop :=
  0 <= is_cmd i < command_count s /\ 0 <= is_clk i.

Definition run_trace (s : DRAMSpec) : DRAMNode -> list issue -> result DRAMNode :=
  foldM (fun n i => update_timing s (is_cmd i) (is_av i) (is_clk i) n).

(** The events a trace sends to the node under a pointer, latest first. *)
Definition events_from (n : DRAMNode) (p : node_ptr) : list event -> list issue -> list event :=
  foldl (fun evs i => match visit (is_av i) n p with
                      | Some b => mkEv b (is_cmd i) (is_clk i) :: evs
                      | None => evs
                      end).
Definition events_at (n : DRAMNode) (p : node_ptr) (tr : list issue) : list event :=
  events_from n p [] tr.

(** ** Static shape *)
Definition same_shape (n n' : DRAMNode) : Prop :=
  forall p, match node_at n p, node_at n' p with
            | Some m, Some m' => m_level m' = m_level m /\ m_node_id m' = m_node_id m
            | None, None => True
            | _, _ => False
            end.

#[export] Instance same_shape_equiv : Equivalence same_shape.
Proof.
  split.
  - intros n p. by destruct (node_at n p).
  - intros n n' H p. specialize (H p). destruct (node_at n p), (node_at n' p); naive_solver.
  - intros n1 n2 n3 H1 H2 p. specialize (H1 p). specialize (H2 p).
    destruct (node_at n1 p), (node_at n2 p), (node_at n3 p); naive_solver congruence.
Qed.

Lemma same_shape_self (n n' : DRAMNode) :
  same_shape n n' -> m_level n' = m_level n /\ m_node_id n' = m_node_id n.
Proof. intros H. apply (H []). Qed.

Lemma same_shape_child (n n' : DRAMNode) (i : nat) :
  same_shape n n' ->
  match m_child_nodes n !! i, m_child_nodes n' !! i with
  | Some c, Some c' => same_shape c c'
  | None, None => True
  | _, _ => False
  end.
Proof.
  intros H. pose proof (H [i]) as Hi. simpl in Hi.
  destruct (m_child_nodes n !! i) as [c|] eqn:E, (m_child_nodes n' !! i) as [c'|] eqn:E'; simpl in Hi; try done.
  intros p. specialize (H (i :: p)). simpl in H. by rewrite E, E' in H.
Qed.

#[export] Instance visit_proper (av : AddrVec_t) : Proper (same_shape ==> eq ==> eq) (visit av).
Proof.
  intros n n' Hsh p ? <-. revert n n' Hsh. induction p as [|i p IH]; intros n n' Hsh; simpl;
    unfold matches; destruct (same_shape_self _ _ Hsh) as [-> ->]; [done|].
  destruct (vget av (m_level n)); [|done]. destruct (_ || _); [|done].
  pose proof (same_shape_child _ _ i Hsh) as Hc.
  destruct (m_child_nodes n !! i), (m_child_nodes n' !! i); simpl; try done. by apply IH.
Qed.

Lemma events_from_shape (n n' : DRAMNode) (p : node_ptr) (evs : list event) (tr : list issue) :
  same_shape n n' -> events_from n' p evs tr = events_from n p evs tr.
Proof.
  intros Hsh. revert evs. induction tr as [|i tr IH]; intros evs; simpl; [done|].
  rewrite (visit_proper (is_av i) n' n (symmetry Hsh) p p eq_refl). apply IH.
Qed.

(** ** Logs along a trace *)

Lemma log_inv_children (s : DRAMSpec) (n : DRAMNode) (cs : list DRAMNode) (evs : list event) :
  log_inv s n evs -> log_inv s (set_children n cs) evs.
Proof. intros [i1 i2 i3 i4]. by constructor. Qed.

Section traces.
Context (s : DRAMSpec) (Hs : spec_wfb s = true).

Lemma update_timing_shape (c : Z) (av : AddrVec_t) (clk : Clk_t) (n n' : DRAMNode) :
  tree_wf s n -> 0 <= c < command_count s -> update_timing s c av clk n = Ok n' -> same_shape n n'.
Proof.
  intros Hwf Hc H p. destruct (node_at n p) as [m|] eqn:Hm.
  - destruct (update_timing_at s Hs c av clk n n' p m Hwf Hc H Hm) as (m' & m1 & -> & Heff & -> & _).
    destruct (local_effect_frame _ _ _ _ _ _ Heff) as [(? & ? & _) _]. done.
  - destruct (node_at n' p) as [m'|] eqn:Hm'; [|done].
    destruct (update_timing_at_inv s Hs c av clk n n' p m' Hwf Hc H Hm') as [m Hm0]. congruence.
Qed.

Definition logged (n : DRAMNode) (E : node_ptr -> list event) : Prop :=
  forall p m, node_at n p = Some m -> log_inv s m (E p).

Lemma update_timing_logged (c : Z) (av : AddrVec_t) (clk : Clk_t) (n n' : DRAMNode) E :
  tree_wf s n -> 0 <= c < command_count s -> 0 <= clk -> logged n E ->
  update_timing s c av clk n = Ok n' ->
  logged n' (fun p => match visit av n p with Some b => mkEv b c clk :: E p | None => E p end).
Proof.
  intros Hwf Hc Hclk HE H p m' Hm'.
  destruct (update_timing_at_inv s Hs c av clk n n' p m' Hwf Hc H Hm') as [m Hm].
  destruct (update_timing_at s Hs c av clk n n' p m Hwf Hc H Hm) as (m2 & m1 & Hm2 & Heff & Hsh & _).
  rewrite Hm' in Hm2. simplify_eq. rewrite Hsh. apply log_inv_children.
  pose proof (HE p m Hm) as Hlog. destruct (visit av n p) as [[]|]; simpl in Heff.
  - eapply (log_target s Hs); eauto; lia.
  - by eapply (log_sibling s Hs).
  - by simplify_eq.
Qed.

Lemma run_trace_logged (tr : list issue) (n n' : DRAMNode) E :
  tree_wf s n -> Forall (issue_ok s) tr -> logged n E -> run_trace s n tr = Ok n' ->
  tree_wf s n' /\ same_shape n n' /\ logged n' (fun p => events_from n p (E p) tr).
Proof.
  revert n E. induction tr as [|i tr IH]; intros n E Hwf Hok HE H; simpl in H.
  - simplify_eq. done.
  - apply bind_Ok in H as (n1 & H1 & H2). inversion Hok as [|? ? [Hc Hclk] Htr]; subst.
    pose proof (update_timing_shape _ _ _ _ _ Hwf Hc H1) as Hsh.
    destruct (IH n1 _ (update_timing_wf s Hs _ _ _ _ _ Hwf Hc H1) Htr
                (update_timing_logged _ _ _ _ _ _ Hwf Hc Hclk HE H1) H2) as (? & ? & Hl).
    split_and!; [done|by etrans|]. intros p m Hm. specialize (Hl p m Hm). cbv beta in Hl.
    rewrite (events_from_shape n n1 p _ tr Hsh) in Hl. simpl. by destruct (visit (is_av i) n p).
Qed.
End traces.

(** ** Freshly constructed trees *)

Definition org_wfb (s : DRAMSpec) : bool :=
  match levels s !! "Row" with
  | Some r => (1 <=? r) && (r <? level_count s) && (level_count s <=? Z.of_nat (length (init_states s))) &&
              (level_count s <=? Z.of_nat (length (level_sizes (organization s))))
  | None => false
  end.

(** One step of [init_shared]. *)
Definition shared_grow (sh : list (list Z)) (t : TimingConsEntry) : list (list Z) :=
  if 0 <=? tc_history_group t
  then alter (grow_history (tc_window t)) (Z.to_nat (tc_history_group t)) sh else sh.

Lemma grow_history_length (w : Z) (h : list Z) :
  (length h <= length (grow_history w h))%nat /\ w <= Z.of_nat (length (grow_history w h)).
Proof.
  unfold grow_history. destruct (Z.ltb_spec (Z.of_nat (length h)) w); [|lia].
  rewrite length_app, length_replicate. lia.
Qed.

Lemma shared_grow_length (l : list TimingConsEntry) (sh : list (list Z)) :
  length (foldl shared_grow sh l) = length sh.
Proof.
  revert sh. induction l as [|t l IH]; intros sh; simpl; [done|]. rewrite IH. unfold shared_grow.
  destruct (_ <=? _); [|done]. by rewrite length_alter.
Qed.

Lemma shared_grow_mono (l : list TimingConsEntry) (sh : list (list Z)) (g : nat) (h : list Z) :
  sh !! g = Some h ->
  exists h', foldl shared_grow sh l !! g = Some h' /\ (length h <= length h')%nat.
Proof.
  revert sh h. induction l as [|t l IH]; intros sh h Hg; simpl; [by exists h|].
  assert (exists h1, shared_grow sh t !! g = Some h1 /\ (length h <= length h1)%nat) as (h1 & Hh1 & ?).
  { unfold shared_grow. destruct (_ <=? _); [|eauto].
    destruct (decide (Z.to_nat (tc_history_group t) = g)) as [<-|].
    - rewrite list_lookup_alter_eq, Hg. eexists. split; [done|]. apply grow_history_length.
    - rewrite list_lookup_alter_ne by done. eauto. }
  destruct (IH _ _ Hh1) as (h' & ? & ?). exists h'. split; [done|lia].
Qed.

Lemma group_count_acc (l : list TimingConsEntry) (c : Z) :
  let f := fun c t => if 0 <=? tc_history_group t then Z.max c (tc_history_group t + 1) else c in
  c <= foldl f c l /\
  forall t, t ∈ l -> 0 <= tc_history_group t -> tc_history_group t < foldl f c l.
Proof.
  intros f. revert c. induction l as [|t l IH]; intros c; simpl.
  - split; [lia|]. intros t Ht. by apply elem_of_nil in Ht.
  - destruct (IH (f c t)) as [H1 H2].
    assert (c <= f c t /\ (0 <= tc_history_group t -> tc_history_group t < f c t)) as [? ?].
    { unfold f. destruct (Z.leb_spec 0 (tc_history_group t)); lia. }
    split; [lia|]. intros t' [->|?]%elem_of_cons ?; [lia|auto].
Qed.

(** Every shared window is long enough for every constraint that reads it. *)
Lemma init_shared_spec (es : list TimingConsEntry) (t : TimingConsEntry) :
  t ∈ es -> 0 <= tc_history_group t ->
  exists h, init_shared es !! Z.to_nat (tc_history_group t) = Some h /\
            tc_window t <= Z.of_nat (length h).
Proof.
  intros Hin Hg. pose proof (proj2 (group_count_acc es 0) t Hin Hg) as Hlt.
  apply list_elem_of_split in Hin as (l1 & l2 & E).
  unfold init_shared. fold shared_grow. fold (group_count_of es) in Hlt.
  set (sh0 := replicate _ _). rewrite E, foldl_app. simpl.
  destruct (lookup_lt_is_Some_2 (foldl shared_grow sh0 l1) (Z.to_nat (tc_history_group t))) as [h1 Hh1].
  { rewrite shared_grow_length. unfold sh0. rewrite length_replicate. lia. }
  destruct (shared_grow_mono l2 (shared_grow (foldl shared_grow sh0 l1) t)
              (Z.to_nat (tc_history_group t)) (grow_history (tc_window t) h1)) as (h & Hh & Hle).
  { unfold shared_grow at 1. destruct (Z.leb_spec 0 (tc_history_group t)); [|lia].
    by rewrite list_lookup_alter_eq, Hh1. }
  exists h. split; [done|]. pose proof (grow_history_length (tc_window t) h1). lia.
Qed.

Lemma init_shared_fill (es : list TimingConsEntry) (g : nat) (h : list Z) :
  init_shared es !! g = Some h -> h = padded (length h) [].
Proof.
  assert (Hall : forall l sh, Forall (Forall (fun x => x = -1)) sh ->
            Forall (Forall (fun x => x = -1)) (foldl shared_grow sh l)).
  { induction l as [|t l IH]; intros sh H; simpl; [done|]. apply IH. unfold shared_grow.
    destruct (_ <=? _); [|done]. apply Forall_alter; [done|]. intros x _ Hx. unfold grow_history.
    destruct (_ <? _); [|done]. apply Forall_app. split; [done|]. by apply Forall_replicate. }
  intros Hh. assert (Forall (fun x => x = -1) h) as Hx.
  { assert (Forall (Forall (fun x => x = -1)) (init_shared es)) as Hs.
    { apply Hall. apply Forall_replicate. constructor. }
    by eapply Forall_lookup_1 in Hs. }
  unfold padded. simpl. rewrite take_replicate, Nat.min_id. clear Hh.
  induction Hx as [|x h -> _ IH]; simpl; [done|]. by f_equal.
Qed.

Section construction.
Context (s : DRAMSpec) (Hs : spec_wfb s = true) (Ho : org_wfb s = true).

Lemma cons_of_range (l c : Z) (es : list TimingConsEntry) :
  cons_of s l c = Ok es -> 0 <= c < command_count s.
Proof.
  unfold cons_of. intros (row & [_ Hr%list_elem_of_lookup_2]%vget_Ok & [? Hc%lookup_lt_Some]%vget_Ok)%bind_Ok.
  destruct (spec_wf_parts s Hs) as (_ & Hrows & _). destruct (Hrows row Hr). lia.
Qed.

(** The constraint lists of a level, as the constructor collects them. *)
Lemma cells_lookup (l : Z) (cells : list (list TimingConsEntry)) (c : Z) (es : list TimingConsEntry) :
  mapM (cons_of s l) (seqZ 0 (command_count s)) = Ok cells ->
  cons_of s l c = Ok es -> cells !! Z.to_nat c = Some es.
Proof.
  intros Hm%mapM_Ok Hes. pose proof (cons_of_range _ _ _ Hes).
  assert (seqZ 0 (command_count s) !! Z.to_nat c = Some c) as Hc.
  { apply lookup_seqZ. split; lia. }
  destruct (Forall2_lookup_l _ _ _ _ _ Hm Hc) as (es' & -> & H'). rewrite Hes in H'. by simplify_eq.
Qed.

Definition fresh_node (l id st : Z) (cells : list (list TimingConsEntry)) (cs : list DRAMNode) : DRAMNode :=
  mkNode l id st (replicate (Z.to_nat (command_count s)) (-1))
    (map (fun es => replicate (Z.to_nat (window_of es)) (-1)) cells)
    (init_shared (concat cells)) ∅ cs.

Lemma fresh_node_log (l id st : Z) (cells : list (list TimingConsEntry)) (cs : list DRAMNode) :
  mapM (cons_of s l) (seqZ 0 (command_count s)) = Ok cells ->
  log_inv s (fresh_node l id st cells cs) [].
Proof.
  intros Hm. constructor; simpl; [constructor| | |].
  - intros c es h Hc Hes Hh. pose proof (cells_lookup _ _ _ _ Hm Hes) as He.
    rewrite (list_lookup_fmap _ cells), He in Hh. simpl in Hh. simplify_eq.
    unfold padded. simpl. by rewrite take_replicate, Nat.min_id.
  - intros g h Hh. by eapply init_shared_fill.
  - intros c x Hc [-> _]%lookup_replicate. split_and!; [|lia|by left].
    intros t Ht. inversion Ht.
Qed.

Lemma fresh_node_wf (l id st : Z) (cells : list (list TimingConsEntry)) (cs : list DRAMNode) :
  0 <= l -> l + 1 < level_count s ->
  mapM (cons_of s l) (seqZ 0 (command_count s)) = Ok cells ->
  (forall i c, cs !! i = Some c -> m_level c = l + 1 /\ m_node_id c = Z.of_nat i) ->
  (cs <> [] -> vget (level_sizes (organization s)) (l + 1) = Ok (Z.of_nat (length cs))) ->
  0 <= command_count s ->
  local_wf s (fresh_node l id st cells cs).
Proof.
  intros Hl Hl1 Hm Hcs Hcount Hpos. constructor; simpl; [done| | | |done|done].
  - rewrite length_replicate. lia.
  - intros c es Hes. pose proof (cells_lookup _ _ _ _ Hm Hes) as He. eexists.
    rewrite (list_lookup_fmap _ cells), He. split; [done|]. apply length_replicate.
  - intros c es t Hes Ht Hg. apply init_shared_spec; [|done].
    pose proof (cells_lookup _ _ _ _ Hm Hes) as He%list_elem_of_lookup_2.
    apply list_elem_of_In, in_concat. exists es. split; by apply list_elem_of_In.
Qed.

Lemma org_wf_parts : exists r, levels s !! "Row" = Some r /\ 1 <= r < level_count s /\
  level_count s <= Z.of_nat (length (init_states s)) /\
  level_count s <= Z.of_nat (length (level_sizes (organization s))).
Proof. unfold org_wfb in Ho. destruct (levels s !! "Row") as [r|]; [|done]. exists r. split; [done|lia]. Qed.

Lemma command_count_nonneg : 0 <= command_count s.
Proof. destruct (spec_wf_parts s Hs) as (_ & _ & _ & H). lia. Qed.

Lemma make_node_spec (fuel : nat) (r l id : Z) (n : DRAMNode) :
  levels s !! "Row" = Some r -> 0 <= l < r ->
  make_node fuel s l id = Ok n ->
  m_level n = l /\ m_node_id n = id /\ tree_wf s n /\ logged s n (fun _ => []).
Proof.
  intros Hr. destruct org_wf_parts as (r' & Hr' & Hrange & _). rewrite Hr in Hr'. simplify_eq.
  revert l id n. induction fuel as [|fuel IH]; intros l id n Hl H; [done|]. simpl in H.
  apply bind_Ok in H as (cells & Hcells & H). apply bind_Ok in H as (st & _ & H).
  unfold get_level_id in H. rewrite Hr in H. simpl in H.
  assert (Hleaf : forall cs,
    (forall i c, cs !! i = Some c -> m_level c = l + 1 /\ m_node_id c = Z.of_nat i /\
       tree_wf s c /\ logged s c (fun _ => [])) ->
    (cs <> [] -> vget (level_sizes (organization s)) (l + 1) = Ok (Z.of_nat (length cs))) ->
    tree_wf s (fresh_node l id st cells cs) /\ logged s (fresh_node l id st cells cs) (fun _ => [])).
  { intros cs Hcs Hcount. split.
    - apply tree_all_intro; [|naive_solver]. apply fresh_node_wf; try done; try lia; [|by apply command_count_nonneg].
      naive_solver.
    - intros [|i p] m Hm; simpl in Hm.
      + simplify_eq. by apply fresh_node_log.
      + apply bind_Some in Hm as (c & Hi & Hm). destruct (Hcs i c Hi) as (_ & _ & _ & Hlog). by apply (Hlog p). }
  destruct (Z.eqb_spec (l + 1) r') as [E|E].
  { simplify_eq. split_and!; [done|done|..]; apply (Hleaf []); done. }
  apply bind_Ok in H as (size & Hsize & H). destruct (Z.eqb_spec size 0) as [E0|E0].
  { simplify_eq. split_and!; [done|done|..]; apply (Hleaf []); done. }
  apply bind_Ok in H as (cs & Hcs%mapM_Ok & H). simplify_eq.
  split_and!; [done|done|..]; (apply (Hleaf cs); [|]).
  1,3: intros i c Hi; destruct (Forall2_lookup_r _ _ _ _ _ Hcs Hi) as (z & [-> Hi']%lookup_seqZ & Hz);
    apply (IH (l + 1) (Z.of_nat i) c); [lia|done].
  all: intros Hne; pose proof (Forall2_length _ _ _ Hcs) as Hlen; rewrite length_seqZ in Hlen;
    rewrite Hsize; f_equal; destruct cs; [done|simpl in *; lia].
Qed.

Lemma make_node_ok (fuel : nat) (r l id : Z) :
  levels s !! "Row" = Some r -> 0 <= l < r -> (Z.to_nat (r - l) <= fuel)%nat ->
  is_ok (make_node fuel s l id).
Proof.
  intros Hr. destruct org_wf_parts as (r' & Hr' & Hrange & Hi & Hz). rewrite Hr in Hr'. simplify_eq.
  revert l id. induction fuel as [|fuel IH]; intros l id Hl Hf; [lia|]. simpl.
  destruct (mapM_ok (fun _ => True) (cons_of s l) (seqZ 0 (command_count s))) as (cells & -> & _).
  { apply Forall_forall. intros c Hc%elem_of_seqZ.
    destruct (cons_of_ok s Hs l c) as [es Hes]; [lia|lia|]. eauto. }
  simpl. destruct (vget_in_range (init_states s) l) as [st ->]; [lia|]. simpl.
  unfold get_level_id. rewrite Hr. simpl. destruct (Z.eqb_spec (l + 1) r'); [by eexists|].
  destruct (vget_in_range (level_sizes (organization s)) (l + 1)) as [size ->]; [lia|]. simpl.
  destruct (size =? 0); [by eexists|].
  destruct (mapM_ok (fun _ => True) (make_node fuel s (l + 1)) (seqZ 0 size)) as (cs & -> & _).
  { apply Forall_forall. intros c _. destruct (IH (l + 1) c) as [m Hm]; [lia|lia|]. eauto. }
  by eexists.
Qed.
End construction.

(** ** Nodes a query reads *)

(** The root is always read; below it only the addressed children are. *)
Fixpoint reach (av : AddrVec_t) (n : DRAMNode) (p : node_ptr) : bool :=
  match p with
  | [] => true
  | i :: p => match m_child_nodes n !! i with
              | Some c => matches av c && reach av c p
              | None => false
              end
  end.

#[export] Instance reach_proper (av : AddrVec_t) : Proper (same_shape ==> eq ==> eq) (reach av).
Proof.
  intros n n' Hsh p ? <-. revert n n' Hsh. induction p as [|i p IH]; intros n n' Hsh; simpl; [done|].
  pose proof (same_shape_child _ _ i Hsh) as Hc.
  destruct (m_child_nodes n !! i) as [c|], (m_child_nodes n' !! i) as [c'|]; try done.
  rewrite (IH _ _ Hc). unfold matches. by destruct (same_shape_self _ _ Hc) as [-> ->].
Qed.

Lemma foldM_max_Ok {A} (f : A -> result Z) (l : list A) (r0 r : Z) :
  foldM (fun acc x => y ← f x; Ok (Z.max acc y)) r0 l = Ok r ->
  (forall i x, l !! i = Some x -> is_ok (f x)) /\
  forall b, r <= b <-> r0 <= b /\ forall i x y, l !! i = Some x -> f x = Ok y -> y <= b.
Proof.
  revert r0. induction l as [|x l IH]; intros r0 H; simpl in H.
  - simplify_eq. split; [done|]. intros b. split; [|tauto]. intros ?; split; [done|]. intros i x y Hi. done.
  - apply bind_Ok in H as (acc & (y & Hy & Ha)%bind_Ok & H). simplify_eq.
    destruct (IH _ H) as [Hok Hb]. split.
    + intros [|i] z Hz; simpl in Hz; [simplify_eq; by eexists|eauto].
    + intros b. rewrite Hb. split.
      * intros [? Hl]. split; [lia|]. intros [|i] z w Hz Hw; simpl in Hz; [|eauto].
        simplify_eq. rewrite Hy in Hw. simplify_eq. lia.
      * intros [? Hl]. split; [|intros i z w; apply (Hl (S i))].
        specialize (Hl 0%nat x y eq_refl Hy). lia.
Qed.

Lemma earliest_ready_reach (s : DRAMSpec) (c : Z) (av : AddrVec_t) (n : DRAMNode) (r b : Z) :
  tree_wf s n -> 0 <= c -> earliest_ready c av n = Ok r ->
  r <= b <-> forall p m y, node_at n p = Some m -> reach av n p = true ->
               m_cmd_ready_clk m !! Z.to_nat c = Some y -> y <= b.
Proof.
  revert r. induction n as [n IH] using DRAMNode_ind'. intros r Hwf Hc H.
  rewrite Forall_lookup in IH. rewrite earliest_ready_eq in H.
  apply bind_Ok in H as (x & [_ Hx]%vget_Ok & H).
  (* reading the node itself, then the children that match *)
  assert (Hsplit : (forall p m y, node_at n p = Some m -> reach av n p = true ->
               m_cmd_ready_clk m !! Z.to_nat c = Some y -> y <= b) <->
    x <= b /\ forall i ch, m_child_nodes n !! i = Some ch -> matches av ch = true ->
       forall p m y, node_at ch p = Some m -> reach av ch p = true ->
         m_cmd_ready_clk m !! Z.to_nat c = Some y -> y <= b).
  { split.
    - intros Hall. split; [by eapply (Hall [])|]. intros i ch Hi Hm p m y Hp Hr Hy.
      apply (Hall (i :: p) m y); simpl; rewrite ?Hi; simpl; [done|by rewrite Hm|done].
    - intros [Hx0 Hch] [|i p] m y Hp Hr Hy; simpl in Hp, Hr; [by simplify_eq|].
      apply bind_Some in Hp as (ch & Hi & Hp). rewrite Hi in Hr. apply andb_true_iff in Hr as [Hm Hr].
      by eapply Hch. }
  rewrite Hsplit. clear Hsplit.
  destruct (decide (m_child_nodes n = [])) as [E|E].
  { simplify_eq. rewrite E. split; [|tauto]. intros ?; split; [done|]. intros i ch Hi. done. }
  apply bind_Ok in H as (t & Ht & H).
  assert (Hmatch : forall i ch, m_child_nodes n !! i = Some ch ->
            matches av ch = (Z.of_nat i =? t) || (t =? -1)).
  { intros i ch Hi. destruct (lw_child _ _ (tree_all_self _ _ Hwf) _ _ Hi) as [Hl Hid].
    unfold matches. by rewrite Hl, Ht, Hid. }
  destruct (Z.eqb_spec t (-1)) as [->|Hne].
  - destruct (foldM_max_Ok _ _ _ _ H) as [Hok Hb]. rewrite Hb. split; intros [? Hch]; (split; [done|]).
    + intros i ch Hi _. destruct (Hok i ch Hi) as [y Hy].
      apply (IH i ch Hi y (tree_all_child _ _ _ _ Hwf Hi) Hc Hy). by eapply Hch.
    + intros i ch y Hi Hy. apply (IH i ch Hi y (tree_all_child _ _ _ _ Hwf Hi) Hc Hy).
      apply (Hch i ch Hi). rewrite (Hmatch i ch Hi). by rewrite orb_true_r.
  - unfold pick_child in H. apply bind_Ok in H as (ch & [Ht0 Hi]%vget_Ok & H).
    apply bind_Ok in H as (y & Hy & H). simplify_eq.
    pose proof (IH _ ch Hi y (tree_all_child _ _ _ _ Hwf Hi) Hc Hy) as IHc.
    split.
    + intros Hle. split; [lia|]. intros i ch' Hi' Hm'. rewrite (Hmatch _ _ Hi') in Hm'.
      assert (i = Z.to_nat t) as -> by lia. rewrite Hi in Hi'. simplify_eq. apply IHc. lia.
    + intros [? Hch]. assert (y <= b); [|lia]. apply IHc.
      apply (Hch _ ch Hi). rewrite (Hmatch _ _ Hi). rewrite Z2Nat.id by done. by rewrite Z.eqb_refl.
Qed.

(** ** The refinement *)

(** A device tree as [DRAMDevice::init] builds it. *)
Definition built (s : DRAMSpec) (n : DRAMNode) : Prop :=
  spec_wfb s = true /\ org_wfb s = true /\
  make_node (Z.to_nat (level_count s)) s 0 0 = Ok n.

Lemma built_spec (s : DRAMSpec) (n : DRAMNode) :
  built s n -> m_level n = 0 /\ tree_wf s n /\ logged s n (fun _ => []).
Proof.
  intros (Hs & Ho & Hn). destruct (org_wf_parts s Ho) as (r & Hr & Hrange & _).
  destruct (make_node_spec s Hs Ho _ r 0 0 n Hr ltac:(lia) Hn) as (? & _ & ? & ?). done.
Qed.

Lemma check_timing_obliged (s : DRAMSpec) (n0 n : DRAMNode) (tr : list issue) (c : Z)
  (av : AddrVec_t) (clk : Clk_t) :
  built s n0 -> Forall (issue_ok s) tr -> run_trace s n0 tr = Ok n ->
  0 <= c < command_count s -> av_ok s av -> 0 <= clk ->
  exists b, check_timing c av clk n = Ok b /\
    (b = true <-> forall p m t, node_at n0 p = Some m -> reach av n0 p = true ->
       obliged s (m_level m) (events_at n0 p tr) c t -> t <= clk).
Proof.
  intros Hb Htr Hrun Hc Hav Hclk. destruct (built_spec s n0 Hb) as (_ & Hwf0 & Hlog0).
  destruct Hb as (Hs & _ & _).
  destruct (run_trace_logged s Hs tr n0 n _ Hwf0 Htr Hlog0 Hrun) as (Hwf & Hsh & Hlog).
  destruct (timing_queries_agree s c av clk n Hs Hwf Hc Hav ltac:(lia)) as (r & Hr & Hck).
  exists (r <=? clk). split; [done|].
  rewrite Z.leb_le, (earliest_ready_reach s c av n r clk Hwf (proj1 Hc) Hr).
  split; intros Hall p m t.
  - intros Hm Hre Hob. pose proof (Hsh p) as Hp. rewrite Hm in Hp.
    destruct (node_at n p) as [m'|] eqn:Hm'; [|done]. destruct Hp as [Hl _].
    rewrite (reach_proper av n0 n Hsh p p eq_refl) in Hre.
    destruct (lookup_lt_is_Some_2 (m_cmd_ready_clk m') (Z.to_nat c)) as [y Hy].
    { pose proof (lw_ready _ _ (Hwf _ _ Hm')). lia. }
    destruct (li_ready _ _ _ (Hlog p m' Hm') c y (proj1 Hc) Hy) as [Hle _].
    rewrite Hl in Hle. specialize (Hle t Hob). specialize (Hall p m' y Hm' Hre Hy). lia.
  - intros Hm' Hre Hy. pose proof (Hsh p) as Hp. rewrite Hm' in Hp.
    destruct (node_at n0 p) as [m0|] eqn:Hm0; [|done]. destruct Hp as [Hl _].
    rewrite <- (reach_proper av n0 n Hsh p p eq_refl) in Hre.
    destruct (li_ready _ _ _ (Hlog p m Hm') c t (proj1 Hc) Hy) as (_ & _ & [->|Hob]); [lia|].
    apply (Hall p m0 t Hm0 Hre). by rewrite <- Hl.
Qed.

(** ** Obligations along a trace *)

Lemma events_from_app (n : DRAMNode) (p : node_ptr) (evs : list event) (tr1 tr2 : list issue) :
  events_from n p evs (tr1 ++ tr2) = events_from n p (events_from n p evs tr1) tr2.
Proof. apply foldl_app. Qed.

Lemma obliged_mono (s : DRAMSpec) (l : Z) (n : DRAMNode) (p : node_ptr) (evs : list event)
  (tr : list issue) (c t : Z) :
  obliged s l evs c t -> obliged s l (events_from n p evs tr) c t.
Proof.
  revert evs. induction tr as [|i tr IH]; intros evs H; simpl; [done|].
  apply IH. destruct (visit (is_av i) n p); [by constructor|done].
Qed.

(** A constraint raised by the command that ends a prefix of the trace. *)
Lemma obliged_window (s : DRAMSpec) (l : Z) (n : DRAMNode) (p : node_ptr) (tr1 tr2 : list issue)
  (i : issue) (es : list TimingConsEntry) (e : TimingConsEntry) (past : Z) :
  visit (is_av i) n p = Some true -> cons_of s l (is_cmd i) = Ok es -> e ∈ es ->
  tc_sibling e = false -> tc_history_group e < 0 ->
  issue_times (events_at n p (tr1 ++ [i])) (is_cmd i) !! Z.to_nat (tc_window e - 1) = Some past ->
  obliged s l (events_at n p (tr1 ++ i :: tr2)) (tc_cmd e) (past + tc_val e).
Proof.
  intros Hv Hes Hin Hsib Hg Hp. unfold events_at in *.
  replace (tr1 ++ i :: tr2) with ((tr1 ++ [i]) ++ tr2) by (by rewrite <- app_assoc).
  rewrite events_from_app. apply obliged_mono. rewrite events_from_app in Hp |- *.
  simpl in *. rewrite Hv in Hp |- *. by eapply ob_window.
Qed.
