(* ===== verification/Commands.v ===== *)
(** * Command handlers

    [dram/commands/*.h]: each C++ command is a class template over the standard
    [T]; here each is a [CmdImpl] parameterised by the [Standard] record, with
    the handlers the template declares and [None] for the ones it does not. *)

From Stdlib Require Import ZArith Lia.
From S2P Require Import Prelude Base Spec Node.

Local Open Scope Z_scope.

(** ** Standards

    The enumerations of a standard class; an enumerator's value is its
    position. *)
Record Standard := mkStd {
  std_name : string;
  Level : list string;
  Command : list string;
  State : list string;
  Timing : list string;
  std_prefetch : Z;
  std_init_states : list string;
  std_supported_requests : list string;
  std_row_commands : list string;
  std_column_commands : list string
}.

(** The value of an enumerator; -1 when it is not declared, which in the source
    is a template that does not compile. *)
Fixpoint enum_from (i : Z) (names : list string) (x : string) : Z :=
  match names with
  | [] => -1
  | n :: names => if bool_decide (n = x) then i else enum_from (i + 1) names x
  end.
Definition enum (names : list string) (x : string) : Z := enum_from 0 names x.
Definition declares (names : list string) (x : string) : bool := bool_decide (x ∈ names).

Record CmdImpl := mkCmd {
  ci_meta : DRAMCommandMeta;
  ci_bank_target : BankTarget;
  ci_action : option ActionFunc_t;
  ci_preq : option PreqFunc_t;
  ci_rowhit : option RowhitFunc_t;
  ci_rowopen : option RowopenFunc_t
}.

Definition meta_opening : DRAMCommandMeta := mkMeta true false false false false false.
Definition meta_closing : DRAMCommandMeta := mkMeta false true false false false false.
Definition meta_accessing : DRAMCommandMeta := mkMeta false false true false false false.
Definition meta_closing_accessing : DRAMCommandMeta := mkMeta false true true false false false.
Definition meta_refreshing : DRAMCommandMeta := mkMeta false false false true false false.
Definition meta_column : DRAMCommandMeta := mkMeta false false false false false true.

Section commands.
Context (T : Standard).

Definition T_Row : Z := enum (Level T) "Row".
Definition T_Opened : Z := enum (State T) "Opened".
Definition T_Closed : Z := enum (State T) "Closed".
Definition T_Activating : Z := enum (State T) "Activating".
Definition T_cmd (name : string) : Z := enum (Command T) name.

(** [m_row_state.find(addr_vec[Row]) != end()]. *)
Definition row_is_open (bank : DRAMNode) (av : AddrVec_t) : result bool :=
  row ← vget av T_Row; Ok (bool_decide (is_Some (m_row_state bank !! row))).

(** *** Activation *)
Definition ACT_action : ActionFunc_t := fun bank cmd av clk =>
  row ← vget av T_Row;
  Ok (set_bank_state bank T_Opened (<[row := T_Opened]> (m_row_state bank))).

Definition ACT_preq : PreqFunc_t := fun bank cmd av clk =>
  if m_state bank =? T_Closed then Ok (T_cmd "ACT")
  else if m_state bank =? T_Opened then
    hit ← row_is_open bank av; Ok (if (hit : bool) then cmd else T_cmd "PREpb")
  else Err (Throw "[ACT] Invalid bank state!").

Definition ACT1_action : ActionFunc_t := fun bank cmd av clk =>
  Ok (set_bank_state bank T_Activating (m_row_state bank)).

Definition ACT1_preq : PreqFunc_t := fun bank cmd av clk =>
  if m_state bank =? T_Closed then Ok (T_cmd "ACT1")
  else if m_state bank =? T_Activating then Ok cmd
  else if m_state bank =? T_Opened then
    hit ← row_is_open bank av; Ok (if (hit : bool) then cmd else T_cmd "PREpb")
  else Err (Throw "[ACT1] Invalid bank state!").

Definition ACT2_action : ActionFunc_t := fun bank cmd av clk =>
  row ← vget av T_Row;
  Ok (set_bank_state bank T_Opened (<[row := T_Opened]> (m_row_state bank))).

Definition ACT2_preq : PreqFunc_t := fun bank cmd av clk =>
  if m_state bank =? T_Closed then Ok (T_cmd "ACT1")
  else if m_state bank =? T_Activating then Ok (T_cmd "ACT2")
  else if m_state bank =? T_Opened then
    hit ← row_is_open bank av; Ok (if (hit : bool) then cmd else T_cmd "PREpb")
  else Err (Throw "[ACT2] Invalid bank state!").

(** *** Precharge *)
Definition PREpb_action : ActionFunc_t := fun bank cmd av clk =>
  Ok (set_bank_state bank T_Closed ∅).

Definition PREpb_preq : PreqFunc_t := fun bank cmd av clk =>
  Ok (if m_state bank =? T_Closed then cmd else T_cmd "PREpb").

(** *** Column accesses: split activation (ACT1/ACT2) when the standard has it *)
Definition RD_preq : PreqFunc_t := fun bank cmd av clk =>
  if declares (Command T) "ACT2" then ACT2_preq bank cmd av clk
  else ACT_preq bank cmd av clk.

Definition RD_rowhit : RowhitFunc_t := fun bank cmd av clk =>
  if m_state bank =? T_Opened then row_is_open bank av else Ok false.

Definition RD_rowopen : RowopenFunc_t := fun bank cmd av clk =>
  Ok (m_state bank =? T_Opened).

(** *** Refresh: the bank must be closed, by the precharge of the same scope *)
Definition close_preq (pre : string) : PreqFunc_t := fun bank cmd av clk =>
  Ok (if negb (m_state bank =? T_Closed) then T_cmd pre else cmd).

(** *** The command structs *)
Definition ACT : CmdImpl := mkCmd meta_opening Single (Some ACT_action) (Some ACT_preq) None None.
Definition ACT1 : CmdImpl := mkCmd meta_opening Single (Some ACT1_action) (Some ACT1_preq) None None.
Definition ACT2 : CmdImpl := mkCmd meta_none Single (Some ACT2_action) (Some ACT2_preq) None None.
Definition PREpb : CmdImpl := mkCmd meta_closing Single (Some PREpb_action) (Some PREpb_preq) None None.
Definition PREab : CmdImpl := mkCmd meta_closing All (Some PREpb_action) None None None.
Definition PREsb : CmdImpl := mkCmd meta_closing SameBank (Some PREpb_action) None None None.
Definition RD : CmdImpl :=
  mkCmd meta_accessing Single None (Some RD_preq) (Some RD_rowhit) (Some RD_rowopen).
Definition WR : CmdImpl :=
  mkCmd meta_accessing Single None (Some RD_preq) (Some RD_rowhit) (Some RD_rowopen).
Definition RDA : CmdImpl :=
  mkCmd meta_closing_accessing Single (Some PREpb_action) (Some RD_preq) (Some RD_rowhit) (Some RD_rowopen).
Definition WRA : CmdImpl :=
  mkCmd meta_closing_accessing Single (Some PREpb_action) (Some RD_preq) (Some RD_rowhit) (Some RD_rowopen).
Definition REFab : CmdImpl := mkCmd meta_refreshing All None (Some (close_preq "PREab")) None None.
Definition REFpb : CmdImpl := mkCmd meta_refreshing Single None (Some (close_preq "PREpb")) None None.
Definition REFsb : CmdImpl := mkCmd meta_refreshing SameBank None (Some (close_preq "PREsb")) None None.
Definition RFMab : CmdImpl := mkCmd meta_refreshing All None (Some (close_preq "PREab")) None None.
Definition RFMpb : CmdImpl := mkCmd meta_refreshing Single None (Some (close_preq "PREpb")) None None.
Definition RFMsb : CmdImpl := mkCmd meta_refreshing SameBank None (Some (close_preq "PREsb")) None None.
Definition VRR : CmdImpl := mkCmd meta_refreshing Single None (Some (close_preq "PREpb")) None None.
Definition CAS : CmdImpl := mkCmd meta_none Single None None None None.
Definition CAS_RD : CmdImpl := mkCmd meta_none Single None None None None.
Definition CAS_WR : CmdImpl := mkCmd meta_none Single None None None None.
Definition RCKSTRT : CmdImpl := mkCmd meta_column All None None None None.
Definition RCKSTOP : CmdImpl := mkCmd meta_column All None None None None.
(** LPDDR6 short and long bursts inherit the plain command. *)
Definition RD_S : CmdImpl := RD.
Definition RD_L : CmdImpl := RD.
Definition RDA_S : CmdImpl := RDA.
Definition RDA_L : CmdImpl := RDA.
Definition WR_S : CmdImpl := WR.
Definition WR_L : CmdImpl := WR.
Definition WRA_S : CmdImpl := WRA.
Definition WRA_L : CmdImpl := WRA.

(** [CommandImpls]: the struct that implements each enumerator. *)
Definition impl_table : list (string * CmdImpl) :=
  [("ACT", ACT); ("ACT1", ACT1); ("ACT2", ACT2); ("PREpb", PREpb); ("PREab", PREab);
   ("PREsb", PREsb); ("RD", RD); ("WR", WR); ("RDA", RDA); ("WRA", WRA); ("REFab", REFab);
   ("REFpb", REFpb); ("REFsb", REFsb); ("RFMab", RFMab); ("RFMpb", RFMpb); ("RFMsb", RFMsb);
   ("VRR", VRR); ("CAS", CAS); ("CAS_RD", CAS_RD); ("CAS_WR", CAS_WR); ("RCKSTRT", RCKSTRT);
   ("RCKSTOP", RCKSTOP); ("RD_S", RD_S); ("RD_L", RD_L); ("RDA_S", RDA_S); ("RDA_L", RDA_L);
   ("WR_S", WR_S); ("WR_L", WR_L); ("WRA_S", WRA_S); ("WRA_L", WRA_L)].

Definition impl_of (name : string) : option CmdImpl :=
  snd <$> List.find (fun p => bool_decide (p.1 = name)) impl_table.

Definition CommandImpls : list CmdImpl := omap impl_of (Command T).

(** [populate_commands]: register every command at its position. *)
Definition populate_commands (impls : list CmdImpl)
  : list DRAMCommandMeta * list BankTarget * FuncArrays :=
  (map ci_meta impls, map ci_bank_target impls,
   mkFuncs (map ci_action impls) (map ci_preq impls) (map ci_rowhit impls) (map ci_rowopen impls)).

(** [command_meta[c].is_row_command = true] and its column counterpart, which the
    GDDR7 and HBM classes run after [populate_commands]. *)
Definition mark_row (m : DRAMCommandMeta) : DRAMCommandMeta :=
  mkMeta (is_opening m) (is_closing m) (is_accessing m) (is_refreshing m) true (is_column_command m).
Definition mark_column (m : DRAMCommandMeta) : DRAMCommandMeta :=
  mkMeta (is_opening m) (is_closing m) (is_accessing m) (is_refreshing m) (is_row_command m) true.
Definition mark_all (f : DRAMCommandMeta -> DRAMCommandMeta) (names : list string)
  (metas : list DRAMCommandMeta) : list DRAMCommandMeta :=
  foldl (fun ms name => alter f (Z.to_nat (T_cmd name)) ms) metas names.

(** The constructor shared by the generated standard classes: counts, names,
    static data, configuration, handlers, bus marks. *)
Definition construct (cfg : DramConfig) : result DRAMSpec :=
  let '(metas0, targets, fs) := populate_commands CommandImpls in
  let metas := mark_all mark_column (std_column_commands T)
                 (mark_all mark_row (std_row_commands T) metas0) in
  load_config
    (mkSpec (std_name T) (set_names (Level T)) (set_names (Command T)) (set_names (State T))
       (set_names (Timing T)) (Level T) (Command T) (State T) (Timing T)
       (Z.of_nat (length (Level T))) (Z.of_nat (length (Command T)))
       (Z.of_nat (length (State T))) (Z.of_nat (length (Timing T)))
       (std_prefetch T) (-1) (-1) (-1) (mkOrg (-1) [])
       (map (enum (State T)) (std_init_states T))
       (map T_cmd (std_supported_requests T)) [] [] [] [] metas targets fs)
    cfg.
End commands.
