(* ===== verification/Standards.v ===== *)
(** * The DRAM standards

    The thirteen standard classes of [dram/impl/*.cpp]: their level, command,
    state and timing enumerations, prefetch size, initial states, the command
    that serves each request type and the commands of the split row and column
    buses.  In every class the strings passed to [set_names] are the enumerators
    in order and [CommandImpls] lists the struct of each command in order, so the
    enumerations determine both. *)

From Stdlib Require Import ZArith Lia.
From S2P Require Import Prelude Base Spec Node Commands.

Local Open Scope Z_scope.

Definition DDR3 : Standard :=
  mkStd "DDR3"
    ["Channel"; "Rank"; "Bank"; "Row"; "Column"]
    ["ACT"; "PREpb"; "PREab"; "RD"; "WR"; "RDA"; "WRA"; "REFab"]
    ["Opened"; "Closed"; "N_A"]
    ["rate"; "nBL"; "nCL"; "nRCD"; "nRP"; "nRAS"; "nRC"; "nWR"; "nRTP"; "nCWL"; "nCCD"; "nRRD";
     "nWTR"; "nFAW"; "nRFC"; "nREFI"; "nCS"; "tCK_ps"]
    8
    ["N_A"; "N_A"; "Closed"; "Closed"; "N_A"]
    ["RD"; "WR"]
    []
    [].

Definition DDR4 : Standard :=
  mkStd "DDR4"
    ["Channel"; "Rank"; "BankGroup"; "Bank"; "Row"; "Column"]
    ["ACT"; "PREpb"; "PREab"; "RD"; "WR"; "RDA"; "WRA"; "REFab"]
    ["Opened"; "Closed"; "N_A"]
    ["rate"; "nBL"; "nCL"; "nRCD"; "nRP"; "nRAS"; "nRC"; "nWR"; "nRTP"; "nCWL"; "nCCDS";
     "nCCDL"; "nRRDS"; "nRRDL"; "nWTRS"; "nWTRL"; "nFAW"; "nRFC"; "nREFI"; "nCS"; "tCK_ps"]
    8
    ["N_A"; "N_A"; "N_A"; "Closed"; "Closed"; "N_A"]
    ["RD"; "WR"]
    []
    [].

Definition DDR4_VRR : Standard :=
  mkStd "DDR4_VRR"
    ["Channel"; "Rank"; "BankGroup"; "Bank"; "Row"; "Column"]
    ["ACT"; "PREpb"; "PREab"; "RD"; "WR"; "RDA"; "WRA"; "REFab"; "VRR"]
    ["Opened"; "Closed"; "N_A"]
    ["rate"; "nBL"; "nCL"; "nRCD"; "nRP"; "nRAS"; "nRC"; "nWR"; "nRTP"; "nCWL"; "nCCDS";
     "nCCDL"; "nRRDS"; "nRRDL"; "nWTRS"; "nWTRL"; "nFAW"; "nRFC"; "nREFI"; "nCS"; "tCK_ps";
     "nVRR"]
    8
    ["N_A"; "N_A"; "N_A"; "Closed"; "Closed"; "N_A"]
    ["RD"; "WR"]
    []
    [].

Definition DDR5 : Standard :=
  mkStd "DDR5"
    ["Channel"; "Rank"; "BankGroup"; "Bank"; "Row"; "Column"]
    ["ACT"; "PREpb"; "PREab"; "RD"; "WR"; "RDA"; "WRA"; "REFab"; "PREsb"; "REFsb"; "RFMab";
     "RFMsb"]
    ["Opened"; "Closed"; "N_A"]
    ["rate"; "nBL"; "nCL"; "nRCD"; "nRP"; "nRAS"; "nRC"; "nWR"; "nRTP"; "nCWL"; "nPPD";
     "nCCDS"; "nCCDL"; "nCCDS_WR"; "nCCDL_WR"; "nCCDM"; "nCCDM_WR"; "nWTRM"; "nRTW"; "nRRDS";
     "nRRDL"; "nWTRS"; "nWTRL"; "nFAW"; "nRFC"; "nREFI"; "nRFCsb"; "nCS"; "tCK_ps"; "nRFM";
     "nRFMsb"; "nREFSBRD"]
    16
    ["N_A"; "N_A"; "N_A"; "Closed"; "Closed"; "N_A"]
    ["RD"; "WR"]
    []
    [].

Definition DDR5_VRR : Standard :=
  mkStd "DDR5_VRR"
    ["Channel"; "Rank"; "BankGroup"; "Bank"; "Row"; "Column"]
    ["ACT"; "PREpb"; "PREab"; "RD"; "WR"; "RDA"; "WRA"; "REFab"; "PREsb"; "REFsb"; "RFMab";
     "RFMsb"; "VRR"]
    ["Opened"; "Closed"; "N_A"]
    ["rate"; "nBL"; "nCL"; "nRCD"; "nRP"; "nRAS"; "nRC"; "nWR"; "nRTP"; "nCWL"; "nPPD";
     "nCCDS"; "nCCDL"; "nCCDS_WR"; "nCCDL_WR"; "nCCDM"; "nCCDM_WR"; "nWTRM"; "nRTW"; "nRRDS";
     "nRRDL"; "nWTRS"; "nWTRL"; "nFAW"; "nRFC"; "nREFI"; "nRFCsb"; "nCS"; "tCK_ps"; "nRFM";
     "nRFMsb"; "nREFSBRD"; "nVRR"]
    16
    ["N_A"; "N_A"; "N_A"; "Closed"; "Closed"; "N_A"]
    ["RD"; "WR"]
    []
    [].

Definition GDDR6 : Standard :=
  mkStd "GDDR6"
    ["Channel"; "BankGroup"; "Bank"; "Row"; "Column"]
    ["ACT"; "PREab"; "PREpb"; "RD"; "WR"; "RDA"; "WRA"; "REFab"; "REFpb"]
    ["Opened"; "Closed"; "N_A"]
    ["rate"; "nBL"; "nCL"; "nRCDRD"; "nRCDWR"; "nRP"; "nRAS"; "nRC"; "nWR"; "nRTP"; "nCWL";
     "nCCDS"; "nCCDL"; "nRRDS"; "nRRDL"; "nWTRS"; "nWTRL"; "nRTW"; "nFAW"; "nRFCpb"; "nRREFD";
     "nREFI"; "nREFIpb"; "tCK_ps"; "nRFCab"; "nPPD"]
    16
    ["N_A"; "N_A"; "Closed"; "Closed"; "N_A"]
    ["RD"; "WR"]
    []
    [].

Definition GDDR7 : Standard :=
  mkStd "GDDR7"
    ["Channel"; "Bank"; "Row"; "Column"]
    ["ACT"; "PREpb"; "PREab"; "RD"; "WR"; "RDA"; "WRA"; "REFab"; "REFpb"; "RFMab"; "RFMpb";
     "RCKSTRT"; "RCKSTOP"]
    ["Opened"; "Closed"; "N_A"]
    ["rate"; "nBL"; "nRL"; "nWL"; "nDQERL"; "nRCDRD"; "nRCDWR"; "nRP"; "nRAS"; "nRC"; "nRRD";
     "nRREFD"; "nRPD"; "nRTPSB"; "nPPD"; "nWR"; "nCCD"; "nCCDSB"; "nWTR"; "nWTRSB"; "nRTW";
     "nREFI"; "nREFIpb"; "nRFCab"; "nRFCpb"; "nRDREFab"; "nRFMab"; "nRFMpb"; "nRCKSTRT2RD";
     "nRD2RCKSTOP"; "nRCKSP2ST"; "nRCKST2SP"; "nRCKSTOP_LAT"; "nRCKEN"; "nRCK_LS"; "nRCKPST";
     "tCK_ps"]
    32
    ["N_A"; "Closed"; "Closed"; "N_A"]
    ["RD"; "WR"]
    ["ACT"; "PREpb"; "PREab"; "REFab"; "REFpb"; "RFMab"; "RFMpb"]
    ["RD"; "WR"; "RDA"; "WRA"; "RCKSTRT"; "RCKSTOP"].

Definition HBM1 : Standard :=
  mkStd "HBM1"
    ["Channel"; "BankGroup"; "Bank"; "Row"; "Column"]
    ["ACT"; "PREpb"; "PREab"; "RD"; "WR"; "RDA"; "WRA"; "REFab"; "REFpb"]
    ["Opened"; "Closed"; "N_A"]
    ["rate"; "nBL"; "nCL"; "nRCDRD"; "nRCDWR"; "nRP"; "nRAS"; "nRC"; "nWR"; "nRTPL"; "nCWL";
     "nCCDS"; "nCCDL"; "nRRDS"; "nRRDL"; "nWTRS"; "nWTRL"; "nRTW"; "nFAW"; "nRFC"; "nRFCpb";
     "nRREFD"; "nREFI"; "nREFIpb"; "tCK_ps"]
    2
    ["N_A"; "N_A"; "Closed"; "Closed"; "N_A"]
    ["RD"; "WR"]
    ["ACT"; "PREpb"; "PREab"; "REFab"; "REFpb"]
    ["RD"; "WR"; "RDA"; "WRA"].

Definition HBM2 : Standard :=
  mkStd "HBM2"
    ["Channel"; "PseudoChannel"; "Sid"; "BankGroup"; "Bank"; "Row"; "Column"]
    ["ACT"; "PREpb"; "PREab"; "RD"; "WR"; "RDA"; "WRA"; "REFab"; "REFpb"]
    ["Opened"; "Closed"; "N_A"]
    ["rate"; "nBL"; "nCL"; "nRCDRD"; "nRCDWR"; "nRP"; "nRAS"; "nRC"; "nWR"; "nRTPL"; "nCWL";
     "nCCDS"; "nCCDL"; "nCCDR"; "nRRDS"; "nRRDL"; "nWTRS"; "nWTRL"; "nRTW"; "nFAW"; "nRFC";
     "nRFCpb"; "nRREFD"; "nREFI"; "nREFIpb"; "tCK_ps"]
    4
    ["N_A"; "N_A"; "N_A"; "N_A"; "Closed"; "Closed"; "N_A"]
    ["RD"; "WR"]
    ["ACT"; "PREpb"; "PREab"; "REFab"; "REFpb"]
    ["RD"; "WR"; "RDA"; "WRA"].

Definition HBM3 : Standard :=
  mkStd "HBM3"
    ["Channel"; "PseudoChannel"; "Sid"; "BankGroup"; "Bank"; "Row"; "Column"]
    ["ACT"; "PREpb"; "PREab"; "RD"; "WR"; "RDA"; "WRA"; "REFab"; "REFpb"; "RFMab"; "RFMpb"]
    ["Opened"; "Closed"; "N_A"]
    ["rate"; "nBL"; "nCL"; "nRCDRD"; "nRCDWR"; "nRP"; "nRAS"; "nRC"; "nWR"; "nRTP"; "nCWL";
     "nCCDS"; "nCCDL"; "nCCDR"; "nRRDS"; "nRRDL"; "nWTRS"; "nWTRL"; "nRTW"; "nFAW"; "nPPD";
     "nRFC"; "nRFCpb"; "nRFMab"; "nRFMpb"; "nRREFD"; "nREFI"; "nREFIpb"; "tCK_ps"]
    8
    ["N_A"; "N_A"; "N_A"; "N_A"; "Closed"; "Closed"; "N_A"]
    ["RD"; "WR"]
    ["ACT"; "PREpb"; "PREab"; "REFab"; "REFpb"; "RFMab"; "RFMpb"]
    ["RD"; "WR"; "RDA"; "WRA"].

Definition HBM4 : Standard :=
  mkStd "HBM4"
    ["Channel"; "PseudoChannel"; "Sid"; "BankGroup"; "Bank"; "Row"; "Column"]
    ["ACT"; "PREpb"; "PREab"; "RD"; "WR"; "RDA"; "WRA"; "REFab"; "REFpb"; "RFMab"; "RFMpb"]
    ["Opened"; "Closed"; "N_A"]
    ["rate"; "nBL"; "nCL"; "nRCDRD"; "nRCDWR"; "nRP"; "nRAS"; "nRC"; "nWR"; "nRTP"; "nCWL";
     "nCCDS"; "nCCDL"; "nCCDR"; "nRRDS"; "nRRDL"; "nWTRS"; "nWTRL"; "nRTW"; "nFAW"; "nPPD";
     "nRFC"; "nRFCpb"; "nRFMab"; "nRFMpb"; "nRREFD"; "nREFI"; "nREFIpb"; "tCK_ps"]
    8
    ["N_A"; "N_A"; "N_A"; "N_A"; "Closed"; "Closed"; "N_A"]
    ["RD"; "WR"]
    ["ACT"; "PREpb"; "PREab"; "REFab"; "REFpb"; "RFMab"; "RFMpb"]
    ["RD"; "WR"; "RDA"; "WRA"].

Definition LPDDR5 : Standard :=
  mkStd "LPDDR5"
    ["Channel"; "Rank"; "BankGroup"; "Bank"; "Row"; "Column"]
    ["ACT1"; "ACT2"; "PREpb"; "PREab"; "CAS_RD"; "CAS_WR"; "RD"; "WR"; "RDA"; "WRA"; "REFab";
     "REFpb"]
    ["Opened"; "Closed"; "Activating"; "N_A"]
    ["rate"; "nBL_min"; "nBL_max"; "nCL"; "nRCD"; "nRP"; "nRPab"; "nRAS"; "nRC"; "nWR"; "nRTP";
     "nCWL"; "nPPD"; "nCCDS"; "nCCDL"; "nCCDS_WR"; "nCCDL_WR"; "nRRDS"; "nRRDL"; "nWTRS";
     "nWTRL"; "nFAW"; "nRFC"; "nRFCpb"; "nREFI"; "nREFIpb"; "nWCKPST"; "nCAS"; "nAAD"; "nCS";
     "tCK_ps"; "nPBR2PBR"; "nPBR2ACT"]
    16
    ["N_A"; "N_A"; "N_A"; "Closed"; "Closed"; "N_A"]
    ["RD"; "WR"]
    []
    [].

Definition LPDDR6 : Standard :=
  mkStd "LPDDR6"
    ["Channel"; "Rank"; "BankGroup"; "Bank"; "Row"; "Column"]
    ["ACT1"; "ACT2"; "PREpb"; "PREab"; "CAS"; "RD_S"; "WR_S"; "RDA_S"; "WRA_S"; "RD_L"; "WR_L";
     "RDA_L"; "WRA_L"; "REFab"]
    ["Opened"; "Closed"; "Activating"; "N_A"]
    ["rate"; "nBL_min"; "nBL_max"; "nBL_min_L"; "nBL_max_L"; "nRL"; "nWL"; "nACU"; "nRCDr";
     "nRCDw"; "nRP"; "nRPab"; "nRAS"; "nRC"; "nWTP"; "nRTP"; "nRTP_L"; "nPPD"; "nCCDS";
     "nCCDL"; "nCCDL_L"; "nCCDS_WR"; "nCCDL_WR"; "nCCDL_WR_L"; "nRRD"; "nWTRS"; "nWTRL";
     "nRTW_S"; "nRTW_L"; "nRTW_S_L"; "nRTW_L_L"; "nWCK2DQO"; "nRPST"; "nODTLon"; "nODTon_min";
     "nFAW"; "nRFC"; "nREFI"; "nWCKPST"; "nCAS"; "nAAD"; "nCS"; "tCK_ps"]
    16
    ["N_A"; "N_A"; "N_A"; "Closed"; "Closed"; "N_A"]
    ["RD_S"; "WR_S"]
    []
    [].

(** ** The registry ([DRAMSpec::registry], [DRAMSpec::create]) *)
Definition registry : list Standard :=
  [DDR3; DDR4; DDR4_VRR; DDR5; DDR5_VRR; GDDR6; GDDR7; HBM1; HBM2; HBM3; HBM4; LPDDR5; LPDDR6].

Definition create (name : string) (cfg : DramConfig) : result DRAMSpec :=
  match List.find (fun T => bool_decide (std_name T = name)) registry with
  | Some T => construct T cfg
  | None => Err (Throw ("Unknown DRAM standard: " +:+ name))
  end.

