(* ===== verification/Device.v ===== *)
(** * The DRAM device

    [dram/device.h] and [dram/device.cpp]: the node tree for timing, the flat
    bank array for state.  A bank pointer of the source is a path of the tree, so
    an action through the flat array changes the node of the tree. *)

From Stdlib Require Import ZArith Lia.
From S2P Require Import Prelude Base Spec Node.

Local Open Scope Z_scope.

Record DRAMDevice := mkDevice {
  m_spec : DRAMSpec;
  m_root : DRAMNode;
  m_bank_nodes : list node_ptr;
  m_bank_level : Z
}.

Definition set_root (d : DRAMDevice) (r : DRAMNode) : DRAMDevice :=
  mkDevice (m_spec d) r (m_bank_nodes d) (m_bank_level d).

(** [init]: build the tree and collect the banks. *)
Definition init (spec : DRAMSpec) : result DRAMDevice :=
  bank_level ← get_level_id spec "Bank";
  root ← make_node (Z.to_nat (level_count spec)) spec 0 0;
  Ok (mkDevice spec root (nodes_at_level bank_level root) bank_level).

Definition set_channel_id (d : DRAMDevice) (channel_id : Z) : DRAMDevice :=
  set_root d (set_node_id (m_root d) channel_id).

(** Dereferencing a pointer. *)
Definition deref (d : DRAMDevice) (p : node_ptr) : result DRAMNode :=
  match node_at (m_root d) p with Some n => Ok n | None => Err Undef end.

(** [id = id * level_sizes[lvl] + addr_vec[lvl]] for the levels 1 .. Bank. *)
Definition get_flat_bank_id (d : DRAMDevice) (av : AddrVec_t) : result Z :=
  foldM (fun id lvl =>
           size ← vget (level_sizes (organization (m_spec d))) lvl;
           a ← vget av lvl;
           Ok (id * size + a)) 0 (seqZ 1 (m_bank_level d)).

(** [bank_matches]: the bank and its ancestors agree with the address. *)
Definition bank_matches (d : DRAMDevice) (p : node_ptr) (av : AddrVec_t) : result bool :=
  foldM (fun ok n =>
           if (ok : bool) then
             a ← vget av (m_level n);
             Ok (negb (negb (a =? -1) && negb (a =? m_node_id n)))
           else Ok false) true (ancestors (m_root d) p).

(** The loop of [for_each_target_bank_while] over the flat array: [sel] decides
    whether a bank is visited, the visitor returns [false] to stop. *)
Fixpoint visit_banks {S} (sel : node_ptr -> result bool) (visitor : S -> Z -> result (S * bool))
  (s : S) (i : Z) (l : list node_ptr) : result (S * bool) :=
  match l with
  | [] => Ok (s, true)
  | p :: l =>
      b ← sel p;
      if (b : bool) then
        r ← visitor s i;
        match r with
        | (s', true) => visit_banks sel visitor s' (i + 1) l
        | (s', false) => Ok (s', false)
        end
      else visit_banks sel visitor s (i + 1) l
  end.

Definition same_bank_sel (d : DRAMDevice) (av : AddrVec_t) (target : Z) (p : node_ptr) : result bool :=
  n ← deref d p;
  if negb (m_node_id n =? target) then Ok false else bank_matches d p av.

Definition for_each_target_bank_while {S} (d : DRAMDevice) (command : Z) (av : AddrVec_t)
  (visitor : S -> Z -> result (S * bool)) (s : S) : result (S * bool) :=
  target ← vget (bank_targets (m_spec d)) command;
  match target with
  | Single => id ← get_flat_bank_id d av; visitor s id
  | All => visit_banks (fun p => bank_matches d p av) visitor s 0 (m_bank_nodes d)
  | SameBank =>
      bank_id ← vget av (m_bank_level d);
      visit_banks (same_bank_sel d av bank_id) visitor s 0 (m_bank_nodes d)
  end.

Definition for_each_target_bank {S} (d : DRAMDevice) (command : Z) (av : AddrVec_t)
  (visitor : S -> Z -> result S) (s : S) : result S :=
  r ← for_each_target_bank_while d command av
        (fun s id => s' ← visitor s id; Ok (s', true)) s;
  Ok r.1.

Definition get_target_banks (d : DRAMDevice) (command : Z) (av : AddrVec_t) : result (list Z) :=
  for_each_target_bank d command av (fun ids id => Ok (ids ++ [id])) [].

(** [apply_action]: run the handler on every target bank, through its pointer. *)
Definition apply_action (d : DRAMDevice) (command : Z) (av : AddrVec_t) (clk : Clk_t)
  : result DRAMDevice :=
  fn ← vget (actions (funcs (m_spec d))) command;
  match fn with
  | None => Ok d
  | Some action =>
      root ← for_each_target_bank d command av
        (fun root id =>
           p ← vget (m_bank_nodes d) id;
           update_at (fun bank => action bank command av clk) p root) (m_root d);
      Ok (set_root d root)
  end.

Definition issue_command (d : DRAMDevice) (command : Z) (av : AddrVec_t) (clk : Clk_t)
  : result DRAMDevice :=
  root ← update_timing (m_spec d) command av clk (m_root d);
  apply_action (set_root d root) command av clk.

Definition device_check_timing (d : DRAMDevice) (command : Z) (av : AddrVec_t) (clk : Clk_t)
  : result bool := check_timing command av clk (m_root d).

Definition device_earliest_ready (d : DRAMDevice) (command : Z) (av : AddrVec_t) : result Clk_t :=
  earliest_ready command av (m_root d).

(** [get_preq_command]: the first target bank that needs another command
    decides. *)
Definition get_preq_command (d : DRAMDevice) (command : Z) (av : AddrVec_t) (clk : Clk_t) : result Z :=
  fn ← vget (preqs (funcs (m_spec d))) command;
  match fn with
  | None => Ok command
  | Some preq_fn =>
      r ← for_each_target_bank_while d command av
        (fun resolved id =>
           p ← vget (m_bank_nodes d) id;
           bank ← deref d p;
           preq ← preq_fn bank command av clk;
           if negb (preq =? command) then Ok (preq, false) else Ok (resolved, true)) command;
      Ok r.1
  end.

Definition check_rowbuffer_hit (d : DRAMDevice) (command : Z) (av : AddrVec_t) (clk : Clk_t)
  : result bool :=
  fn ← vget (rowhits (funcs (m_spec d))) command;
  match fn with
  | None => Ok false
  | Some rowhit_fn =>
      id ← get_flat_bank_id d av;
      p ← vget (m_bank_nodes d) id;
      bank ← deref d p;
      rowhit_fn bank command av clk
  end.

Definition check_node_open (d : DRAMDevice) (command : Z) (av : AddrVec_t) (clk : Clk_t)
  : result bool :=
  fn ← vget (rowopens (funcs (m_spec d))) command;
  match fn with
  | None => Ok false
  | Some rowopen_fn =>
      id ← get_flat_bank_id d av;
      p ← vget (m_bank_nodes d) id;
      bank ← deref d p;
      rowopen_fn bank command av clk
  end.
