(* ===== verification/Examples.v ===== *)
(** * A small DDR4 configuration

    Two ranks of two bank groups of two banks, with a handful of the DDR4 timing
    constraints: the concrete instance on which the witnesses evaluate. *)

From Stdlib Require Import ZArith Lia.
From S2P Require Import Prelude Base Spec Node Timing Commands Standards TimingSpec Device.

Local Open Scope Z_scope.

Definition ddr4_cfg : DramConfig :=
  mkConfig 64 None 8 [1; 2; 2; 2; 64; 1024] [] None 22
    [ (* Rank: nRRDS between activations, a four-activate window, nCS to other ranks *)
      mkRow 1 [0] [0] 4 None None None;
      mkRow 1 [0] [0] 20 (Some 4) None None;
      mkRow 1 [3] [3] 6 None (Some true) None;
      mkRow 1 [7] [0] 100 None None None;
      (* BankGroup: nCCDL *)
      mkRow 2 [3; 4] [3; 4] 6 None None None;
      (* Bank: nRCD, nRAS, nRP, nRTP *)
      mkRow 3 [0] [3; 4] 10 None None None;
      mkRow 3 [0] [1] 25 None None None;
      mkRow 3 [1] [0] 10 None None None;
      mkRow 3 [3] [1] 6 None None None ].

Definition spec_or (r : result DRAMSpec) : DRAMSpec :=
  match r with Ok s => s | Err _ => mkSpec "" ∅ ∅ ∅ ∅ [] [] [] [] 0 0 0 0 0 0 0 0 (mkOrg 0 []) [] [] [] [] [] [] [] [] (mkFuncs [] [] [] []) end.

Definition ddr4 : DRAMSpec := Eval cbv [spec_or] in spec_or (construct DDR4 ddr4_cfg).

Lemma ddr4_wf : spec_wfb ddr4 = true.
Proof. vm_compute. reflexivity. Qed.

Lemma ddr4_org_wf : org_wfb ddr4 = true.
Proof. vm_compute. reflexivity. Qed.

Definition ddr4_root : DRAMNode :=
  match make_node (Z.to_nat (level_count ddr4)) ddr4 0 0 with
  | Ok n => n
  | Err _ => mkNode 0 0 0 [] [] [] ∅ []
  end.

Lemma ddr4_built : built ddr4 ddr4_root.
Proof. split_and!; [apply ddr4_wf|apply ddr4_org_wf|vm_compute; reflexivity]. Qed.

(** Deciding [av_ok] on a concrete address. *)
Definition av_okb (s : DRAMSpec) (av : AddrVec_t) : bool :=
  (level_count s <=? Z.of_nat (length av)) &&
  forallb (fun l => match vget av l, vget (level_sizes (organization s)) l with
                    | Ok a, Ok sz => (a =? -1) || ((0 <=? a) && (a <? sz))
                    | _, _ => true
                    end) (seqZ 1 (Z.of_nat (length av))).

Lemma av_okb_sound (s : DRAMSpec) (av : AddrVec_t) : av_okb s av = true -> av_ok s av.
Proof.
  unfold av_okb. rewrite andb_true_iff, forallb_forall. intros [Hlen Hall]. split; [lia|].
  intros l a sz Hl Ha Hsz. pose proof Ha as [_ Hlt%lookup_lt_Some]%vget_Ok.
  specialize (Hall l). rewrite Ha, Hsz in Hall.
  assert (In l (seqZ 1 (Z.of_nat (length av)))) as Hin.
  { apply list_elem_of_In, elem_of_seqZ. lia. }
  specialize (Hall Hin). lia.
Qed.
