(* ===== verification/TimingProps.v ===== *)
(** * Loading a configuration, and the timing of the device

    [DRAMSpec::load_config] turns a checked configuration into exactly the
    specification it describes, which satisfies the invariant every timing theorem
    starts from; the one
    malformed window its own check lets through makes the first command of the
    affected kind undefined.  Then the theorems on timing. *)

From Stdlib Require Import ZArith Lia.
From S2P Require Import Prelude Base Spec Node Timing TimingSpec Commands Standards Examples Device.

Local Open Scope Z_scope.

(** What the generator of the configuration has to respect for one row of
    ["timing_constraints"]. *)
Definition row_okb (levels cmds : Z) (r : ConstraintRow) : bool :=
  (0 <=? row_level r) && (row_level r <? levels) &&
  forallb (fun p => (0 <=? p) && (p <? cmds)) (row_preceding r) &&
  forallb (fun f => (0 <=? f) && (f <? cmds)) (row_following r) &&
  (1 <=? default 1 (row_window r)).

Definition cfg_okb (levels cmds : Z) (c : DramConfig) : bool :=
  bool_decide (cfg_count c !! 0%nat = Some 1) &&
  forallb (row_okb levels cmds) (cfg_timing_constraints c) &&
  forallb (fun cy => 1 <=? cy) (default [] (cfg_command_cycles c)).

(** The constraint table while it is being filled. *)
Definition table_ok (L C : Z) (tc : list (list (list TimingConsEntry))) : Prop :=
  Z.of_nat (length tc) = L /\
  Forall (fun row => Z.of_nat (length row) = C /\ Forall (Forall (fun t => entry_okb C t = true)) row) tc.

Section load.
Context (L C : Z).

Lemma push_cons_ok (tc : list (list (list TimingConsEntry))) (l p : Z) (e : TimingConsEntry) :
  table_ok L C tc -> 0 <= l < L -> 0 <= p < C -> entry_okb C e = true ->
  exists tc', push_cons tc l p e = Ok tc' /\ table_ok L C tc'.
Proof.
  intros [Hlen Hall] Hl Hp He. rewrite Forall_lookup in Hall. unfold push_cons.
  destruct (vget_in_range tc l) as [row Hrow]; [lia|]. rewrite Hrow. simpl.
  apply vget_Ok in Hrow as [_ Hrow]. destruct (Hall _ _ Hrow) as [Hrl Hre]. rewrite Forall_lookup in Hre.
  destruct (vget_in_range row p) as [cell Hcell]; [lia|]. rewrite Hcell. simpl.
  apply vget_Ok in Hcell as [_ Hcell]. specialize (Hre _ _ Hcell).
  assert (vset row p (cell ++ [e]) = Ok (<[Z.to_nat p := cell ++ [e]]> row)) as -> by (by apply vset_Ok; split; [lia|]).
  simpl. eexists. split; [by apply vset_Ok; split; [lia|]|].
  split; [by rewrite length_insert|]. apply Forall_insert; [by apply Forall_lookup|].
  split; [by rewrite length_insert|]. apply Forall_insert; [by apply Forall_lookup; destruct (Hall _ _ Hrow) as [_ H]; apply Forall_lookup|].
  apply Forall_app; auto.
Qed.

Lemma load_row_ok (tc : list (list (list TimingConsEntry))) (r : ConstraintRow) :
  table_ok L C tc -> row_okb L C r = true -> exists tc', load_row tc r = Ok tc' /\ table_ok L C tc'.
Proof.
  intros Htc Hr. unfold row_okb in Hr. rewrite !andb_true_iff, !forallb_forall in Hr.
  destruct Hr as ((((Hl0 & Hl1) & Hp) & Hf) & Hw). unfold load_row.
  apply foldM_ok; [done|]. intros tc1 p Hpin Htc1. apply foldM_ok; [done|]. intros tc2 f Hfin Htc2.
  apply list_elem_of_In in Hpin, Hfin. specialize (Hp p Hpin). specialize (Hf f Hfin).
  unfold TimingConsEntry_ctor. destruct (Z.ltb_spec (default 1 (row_window r)) 0); [lia|]. simpl.
  apply push_cons_ok; [done|lia|lia|]. unfold entry_okb. simpl. lia.
Qed.

Lemma table_ok_empty : 0 <= L -> 0 <= C -> table_ok L C (replicate (Z.to_nat L) (replicate (Z.to_nat C) [])).
Proof.
  intros. split; [rewrite length_replicate; lia|]. apply Forall_replicate. split; [rewrite length_replicate; lia|].
  apply Forall_replicate. constructor.
Qed.
End load.

Lemma command_cycles_ok (n : nat) (cfg : option (list Z)) :
  forallb (fun cy => 1 <=? cy) (default [] cfg) = true ->
  length (load_command_cycles n cfg) = n /\ forallb (fun cy => 1 <=? cy) (load_command_cycles n cfg) = true.
Proof.
  intros H. destruct cfg as [cs|]; simpl in *.
  - rewrite length_app, length_take, length_replicate. split; [lia|]. rewrite forallb_app, andb_true_iff. split.
    + rewrite forallb_forall in *. intros x Hx%list_elem_of_In. apply H, list_elem_of_In.
      apply elem_of_take in Hx as (i & Hi & _). by eapply list_elem_of_lookup_2.
    + apply forallb_forall. intros x Hx%list_elem_of_In. by apply elem_of_replicate in Hx as [-> _].
  - rewrite length_replicate. split; [done|]. apply forallb_forall.
    intros x Hx%list_elem_of_In. by apply elem_of_replicate in Hx as [-> _].
Qed.

(** Every table has its dimensions, every constraint names a command and a window of
    at least one, the sibling flags are exact and every command occupies the bus. *)
Lemma load_config_wf (s0 : DRAMSpec) (c : DramConfig) :
  0 <= level_count s0 -> 0 <= command_count s0 -> cfg_okb (level_count s0) (command_count s0) c = true ->
  exists s, load_config s0 c = Ok s /\ spec_wfb s = true /\ organization s = mkOrg (cfg_dq c) (cfg_count c).
Proof.
  intros HL HC Hc. unfold cfg_okb in Hc. rewrite !andb_true_iff, bool_decide_eq_true in Hc.
  destruct Hc as ((Hch & Hrows) & Hcy). unfold load_config.
  assert (vget (cfg_count c) 0 = Ok 1) as -> by (by apply vget_Ok). simpl.
  destruct (foldM_ok (table_ok (level_count s0) (command_count s0)) load_row (cfg_timing_constraints c)
              (replicate (Z.to_nat (level_count s0)) (replicate (Z.to_nat (command_count s0)) [])))
    as (tc & Htc & Hlen & Hall).
  { by apply table_ok_empty. }
  { intros tc r Hr Htc. apply load_row_ok; [done|]. rewrite forallb_forall in Hrows. by apply Hrows, list_elem_of_In. }
  rewrite Htc. simpl. eexists. split; [done|]. split; [|done].
  destruct (command_cycles_ok (Z.to_nat (command_count s0)) (cfg_command_cycles c) Hcy) as [Hcl Hcp].
  unfold spec_wfb. simpl. rewrite !andb_true_iff, !bool_decide_eq_true. split_and!; try done; [|lia].
  apply forallb_forall. intros row Hrow%list_elem_of_In. rewrite Forall_forall in Hall.
  destruct (Hall row Hrow) as [Hrl Hre]. rewrite andb_true_iff, bool_decide_eq_true. split; [done|].
  rewrite Forall_forall in Hre. apply forallb_forall. intros es Hes%list_elem_of_In. specialize (Hre es Hes).
  rewrite Forall_forall in Hre. apply forallb_forall. intros t Ht%list_elem_of_In. auto.
Qed.

(** ** What a constraint row means *)

(** The constraint of a row on a following command. *)
Definition entry_of (r : ConstraintRow) (f : Z) : TimingConsEntry :=
  mkTC f (row_latency r) (default 1 (row_window r)) (default false (row_sibling r)) (default (-1) (row_history_group r)).

(** The constraints of a row on the commands that follow [p] at level [l]. *)
Definition row_entries (r : ConstraintRow) (l p : Z) : list TimingConsEntry :=
  if row_level r =? l then
    flat_map (fun p' => if p' =? p then map (entry_of r) (row_following r) else []) (row_preceding r)
  else [].

Definition cell (tc : list (list (list TimingConsEntry))) (l p : Z) : result (list TimingConsEntry) :=
  row ← vget tc l; vget row p.

(** A step that appends to the cells. *)
Definition grows (tc tc' : list (list (list TimingConsEntry))) (new : Z -> Z -> list TimingConsEntry) : Prop :=
  forall l p old, cell tc l p = Ok old -> cell tc' l p = Ok (old ++ new l p).

Lemma push_cons_grows (tc tc' : list (list (list TimingConsEntry))) (l p : Z) (e : TimingConsEntry) :
  push_cons tc l p e = Ok tc' -> grows tc tc' (fun l' p' => if (l =? l') && (p =? p') then [e] else []).
Proof.
  unfold push_cons. intros (row & Hrow & H)%bind_Ok. apply bind_Ok in H as (es & Hes & H). apply bind_Ok in H as (row' & Hrow' & H).
  intros l' p' old. unfold cell. rewrite (vget_vset _ _ _ l' _ H). intros (row0 & H0 & Hp)%bind_Ok.
  rewrite (Z.eqb_sym l' l). destruct (Z.eqb_spec l l') as [<-|Hne]; cbn [andb mbind result_bind].
  - rewrite (vget_vset _ _ _ p' _ Hrow'), (Z.eqb_sym p' p). rewrite Hrow in H0. injection H0 as <-.
    destruct (Z.eqb_spec p p') as [<-|Hne]; [|by rewrite app_nil_r]. rewrite Hes in Hp. by injection Hp as <-.
  - rewrite H0. cbn [mbind result_bind]. by rewrite app_nil_r.
Qed.

Lemma foldM_grows {A} (f : list (list (list TimingConsEntry)) -> A -> result (list (list (list TimingConsEntry))))
  (new : A -> Z -> Z -> list TimingConsEntry) (xs : list A) (tc tc' : list (list (list TimingConsEntry))) :
  (forall tc tc' x, f tc x = Ok tc' -> grows tc tc' (new x)) -> foldM f tc xs = Ok tc' ->
  grows tc tc' (fun l p => flat_map (fun x => new x l p) xs).
Proof.
  intros Hf. revert tc. induction xs as [|x xs IH]; intros tc H l p old Hold; cbn [flat_map].
  - injection H as <-. by rewrite app_nil_r.
  - rewrite foldM_cons in H. apply bind_Ok in H as (tc1 & H1 & H). rewrite app_assoc. apply (IH tc1 H). by apply (Hf tc tc1 x).
Qed.

Lemma load_row_appends (tc tc' : list (list (list TimingConsEntry))) (r : ConstraintRow) :
  load_row tc r = Ok tc' ->
  grows tc tc' (fun l p => flat_map (fun p' => flat_map (fun f =>
    if (row_level r =? l) && (p' =? p) then [entry_of r f] else []) (row_following r)) (row_preceding r)).
Proof.
  unfold load_row.
  apply (foldM_grows _ (fun p' l p => flat_map (fun f => if (row_level r =? l) && (p' =? p) then [entry_of r f] else [])
    (row_following r))).
  intros a a' p'.
  apply (foldM_grows _ (fun f l p => if (row_level r =? l) && (p' =? p) then [entry_of r f] else [])).
  intros b b' f (e & He & Hp)%bind_Ok. unfold TimingConsEntry_ctor in He. destruct (_ <? 0); [done|].
  injection He as <-. by apply push_cons_grows in Hp.
Qed.

Lemma flat_map_nil {A B} (xs : list A) : flat_map (fun _ => @nil B) xs = [].
Proof. by induction xs. Qed.

Lemma load_row_grows (tc tc' : list (list (list TimingConsEntry))) (r : ConstraintRow) :
  load_row tc r = Ok tc' -> grows tc tc' (row_entries r).
Proof.
  intros H l p old Hold. rewrite (load_row_appends _ _ _ H l p old Hold). do 2 f_equal. unfold row_entries.
  destruct (row_level r =? l); cbn [andb].
  - apply flat_map_ext. intros p'. destruct (p' =? p); [|apply flat_map_nil].
    induction (row_following r) as [|f fs IH]; [done|]. cbn [flat_map map]. by rewrite IH.
  - rewrite (flat_map_ext _ (fun _ => [])); [apply flat_map_nil|]. intros p'. apply flat_map_nil.
Qed.

Lemma load_cycles_at (n : nat) (cfg : option (list Z)) (i : nat) :
  (i < n)%nat -> load_command_cycles n cfg !! i = Some (default 1 (default [] cfg !! i)).
Proof.
  intros Hi. destruct cfg as [cs|]; cbn [load_command_cycles default id]; [|by rewrite lookup_replicate_2].
  destruct (decide (i < length cs)%nat) as [Hl|Hl].
  - rewrite lookup_app_l by (rewrite length_take; lia). rewrite lookup_take_lt by done.
    destruct (lookup_lt_is_Some_2 cs i Hl) as [x ->]. done.
  - rewrite lookup_app_r, length_take by (rewrite length_take; lia). rewrite lookup_replicate_2 by lia.
    by rewrite lookup_ge_None_2 by lia.
Qed.

(** C13: on a checked configuration [load_config] succeeds, and the specification
    it produces is the one described.  At every level, the constraints that follow
    a command are, in the order of the configuration, those of the rows of that
    level, one for each occurrence of the command among the preceding ones and each
    following one, with the row's latency, window (1 if absent), sibling flag
    (false) and history group (-1); the sibling flag of the cell is set if one of
    them has it; a command occupies the bus for the configured number of cycles, or
    one; the organization, timing values, read latency, channel width and payload
    are the configured ones; and the invariant of the timing model holds. *)
Theorem load_config_exact (s0 : DRAMSpec) (c : DramConfig) :
  0 <= level_count s0 -> 0 <= command_count s0 -> cfg_okb (level_count s0) (command_count s0) c = true ->
  exists s, load_config s0 c = Ok s /\ spec_wfb s = true /\
    (forall l p, 0 <= l < level_count s0 -> 0 <= p < command_count s0 ->
       let es := flat_map (fun r => row_entries r l p) (cfg_timing_constraints c) in
       cons_of s l p = Ok es /\ sibling_flag s l p = Ok (existsb tc_sibling es)) /\
    (forall p, 0 <= p < command_count s0 ->
       vget (command_cycles s) p = Ok (default 1 (default [] (cfg_command_cycles c) !! Z.to_nat p))) /\
    organization s = mkOrg (cfg_dq c) (cfg_count c) /\ timing_vals s = cfg_timing c /\ read_latency s = cfg_read_latency c /\
    channel_width s = cfg_channel_width c /\ data_payload_bytes s = default (-1) (cfg_data_payload_bytes c).
Proof.
  intros HL HC Hc. destruct (load_config_wf s0 c HL HC Hc) as (s & Hs & Hwf & _). exists s. split; [done|]. split; [done|].
  unfold load_config in Hs. apply bind_Ok in Hs as (ch & _ & Hs). destruct (negb _); [done|].
  apply bind_Ok in Hs as (tc & Htc & Hs). injection Hs as <-. split_and!; try done.
  - intros l p Hl Hp es. assert (cell tc l p = Ok es) as E.
    { apply (foldM_grows load_row row_entries _ _ _ load_row_grows Htc l p []). unfold cell.
      rewrite (proj2 (vget_Ok _ _ (replicate (Z.to_nat (command_count s0)) []))) by (split; [lia|apply lookup_replicate_2; lia]).
      cbn [mbind result_bind]. apply vget_Ok. split; [lia|]. apply lookup_replicate_2. lia. }
    split; [exact E|]. unfold sibling_flag, cell in *. cbn. apply bind_Ok in E as (row & [_ Hrow]%vget_Ok & [_ Hes]%vget_Ok).
    unfold sibling_flags. rewrite (proj2 (vget_Ok _ _ (map (existsb tc_sibling) row))).
    + cbn [mbind result_bind]. apply vget_Ok. split; [lia|]. by rewrite list_lookup_fmap, Hes.
    + split; [lia|]. by rewrite list_lookup_fmap, Hrow.
  - intros p Hp. cbn. apply vget_Ok. split; [lia|]. apply load_cycles_at. lia.
Qed.

Lemma load_config_exact_witness :
  exists s, construct DDR4 ddr4_cfg = Ok s /\ organization s = mkOrg 8 [1; 2; 2; 2; 64; 1024] /\
    forall l p, 0 <= l < 6 -> 0 <= p < Z.of_nat (length (Command DDR4)) ->
      cons_of s l p = Ok (flat_map (fun r => row_entries r l p) (cfg_timing_constraints ddr4_cfg)).
Proof.
  unfold construct. destruct (populate_commands (CommandImpls DDR4)) as [[metas targets] fs].
  edestruct (load_config_exact) as (s & Hs & _ & Ht & _ & Ho & _); [| | |exists s; split; [exact Hs|split; [exact Ho|]]].
  - simpl. lia.
  - simpl. lia.
  - vm_compute. reflexivity.
  - intros l p Hl Hp. exact (proj1 (Ht l p Hl Hp)).
Defined.

(** ** A window of zero *)

(** The DDR4 configuration with one row whose window is zero: the entry check
    only rejects negative windows. *)
Definition zero_window_cfg : DramConfig :=
  mkConfig 64 None 8 [1; 2; 2; 2; 64; 1024] [] None 22 [mkRow 1 [0] [0] 4 (Some 0) None None].

(** A constraint with window 0 is accepted by [TimingConsEntry] and
    [load_config], and the first command that carries it indexes its history at
    position -1: the update of the addressed node is undefined. *)
Theorem zero_window_undefined :
  exists s n, construct DDR4 zero_window_cfg = Ok s /\
    make_node (Z.to_nat (level_count s)) s 0 0 = Ok n /\
    update_timing s 0 [0; 0; 0; 0; 0; 0] 0 n = Err Undef.
Proof.
  exists (spec_or (construct DDR4 zero_window_cfg)).
  exists (match make_node 6 (spec_or (construct DDR4 zero_window_cfg)) 0 0 with
          | Ok n => n | Err _ => ddr4_root end).
  split_and!; vm_compute; reflexivity.
Qed.

(** ** Properties of the device timing

    The contract of [DRAMNode] towards the controllers, with witnesses on the
    small DDR4 device. *)
(** C1: refinement of the timing engine.  Starting from a tree as [init] builds
    it, after any sequence of issued commands [check_timing] answers [true]
    exactly when every timing constraint raised by the earlier commands at every
    node the address reaches is satisfied at that clock; it never reaches
    undefined behaviour. *)
Theorem timing_refinement (s : DRAMSpec) (n0 n : DRAMNode) (tr : list issue) (c : Z)
  (av : AddrVec_t) (clk : Clk_t) :
  built s n0 -> Forall (issue_ok s) tr -> run_trace s n0 tr = Ok n ->
  0 <= c < command_count s -> av_ok s av -> 0 <= clk ->
  exists b, check_timing c av clk n = Ok b /\
    (b = true <-> forall p m t, node_at n0 p = Some m -> reach av n0 p = true ->
       obliged s (m_level m) (events_at n0 p tr) c t -> t <= clk).
Proof. apply check_timing_obliged. Qed.

(** Minimum distances, the case of a window of one.  If a command was issued at an address
    and constrains a second command at a node that both addresses share, then
    [check_timing] accepts the second command only [val] cycles later, whatever
    was issued in between. *)
Theorem min_distance_enforced (s : DRAMSpec) (n0 n : DRAMNode) (tr1 tr2 : list issue) (i : issue)
  (p : node_ptr) (m : DRAMNode) (es : list TimingConsEntry) (e : TimingConsEntry)
  (av : AddrVec_t) (clk : Clk_t) :
  built s n0 -> Forall (issue_ok s) (tr1 ++ i :: tr2) -> run_trace s n0 (tr1 ++ i :: tr2) = Ok n ->
  node_at n0 p = Some m -> visit (is_av i) n0 p = Some true -> reach av n0 p = true ->
  cons_of s (m_level m) (is_cmd i) = Ok es -> e ∈ es ->
  tc_sibling e = false -> tc_window e = 1 -> tc_history_group e < 0 ->
  av_ok s av -> 0 <= clk -> check_timing (tc_cmd e) av clk n = Ok true ->
  is_clk i + tc_val e <= clk.
Proof.
  intros Hb Htr Hrun Hm Hv Hre Hes Hin Hsib Hw Hg Hav Hclk Hck.
  destruct (cons_of_entry s (proj1 Hb) _ _ _ _ Hes Hin) as [Hc _].
  destruct (check_timing_obliged s n0 n _ (tc_cmd e) av clk Hb Htr Hrun Hc Hav Hclk)
    as (b & Hb' & Hiff).
  rewrite Hck in Hb'. simplify_eq. apply (proj1 Hiff eq_refl p m); [done|done|].
  eapply obliged_window; eauto. rewrite Hw. unfold events_at. rewrite events_from_app. simpl.
  rewrite Hv. unfold issue_times. simpl. by rewrite Z.eqb_refl.
Qed.

(** C3: rolling windows are enforced.  For a constraint with window [w] (nFAW has
    4), once a command has been issued at least [w] times at a shared node, the
    constrained command is accepted only [val] cycles after the [w]-th most recent
    issue. *)
Theorem rolling_window_enforced (s : DRAMSpec) (n0 n : DRAMNode) (tr1 tr2 : list issue) (i : issue)
  (p : node_ptr) (m : DRAMNode) (es : list TimingConsEntry) (e : TimingConsEntry) (past : Clk_t)
  (av : AddrVec_t) (clk : Clk_t) :
  built s n0 -> Forall (issue_ok s) (tr1 ++ i :: tr2) -> run_trace s n0 (tr1 ++ i :: tr2) = Ok n ->
  node_at n0 p = Some m -> visit (is_av i) n0 p = Some true -> reach av n0 p = true ->
  cons_of s (m_level m) (is_cmd i) = Ok es -> e ∈ es ->
  tc_sibling e = false -> tc_history_group e < 0 ->
  issue_times (events_at n0 p (tr1 ++ [i])) (is_cmd i) !! Z.to_nat (tc_window e - 1) = Some past ->
  av_ok s av -> 0 <= clk -> check_timing (tc_cmd e) av clk n = Ok true ->
  past + tc_val e <= clk.
Proof.
  intros Hb Htr Hrun Hm Hv Hre Hes Hin Hsib Hg Hp Hav Hclk Hck.
  destruct (cons_of_entry s (proj1 Hb) _ _ _ _ Hes Hin) as [Hc _].
  destruct (check_timing_obliged s n0 n _ (tc_cmd e) av clk Hb Htr Hrun Hc Hav Hclk)
    as (b & Hb' & Hiff).
  rewrite Hck in Hb'. simplify_eq. apply (proj1 Hiff eq_refl p m); [done|done|].
  by eapply obliged_window.
Qed.

(** C4: safety of the timing update.  On a well-formed tree every command at
    every address of the device is processed without undefined behaviour, and
    the tree stays well formed. *)
Theorem update_timing_safe (s : DRAMSpec) (c : Z) (av : AddrVec_t) (clk : Clk_t) (n : DRAMNode) :
  spec_wfb s = true -> tree_wf s n -> 0 <= c < command_count s -> av_ok s av ->
  exists n', update_timing s c av clk n = Ok n' /\ tree_wf s n'.
Proof.
  intros Hs Hwf Hc Hav. destruct (update_timing_ok s Hs c av clk n Hwf Hc Hav) as [n' Hn'].
  exists n'. split; [done|]. by eapply update_timing_wf.
Qed.

(** The read-only probe is exact.  [earliest_ready] returns the first clock at
    which [check_timing] passes. *)
Theorem earliest_ready_exact (s : DRAMSpec) (c : Z) (av : AddrVec_t) (n : DRAMNode) :
  spec_wfb s = true -> tree_wf s n -> 0 <= c < command_count s -> av_ok s av ->
  exists r, earliest_ready c av n = Ok r /\
    forall clk, -1 <= clk -> check_timing c av clk n = Ok (r <=? clk).
Proof.
  intros Hs Hwf Hc Hav.
  destruct (timing_queries_agree s c av (-1) n Hs Hwf Hc Hav ltac:(lia)) as (r & Hr & _).
  exists r. split; [done|]. intros clk Hclk.
  destruct (timing_queries_agree s c av clk n Hs Hwf Hc Hav Hclk) as (r' & Hr' & Hck).
  rewrite Hr in Hr'. by simplify_eq.
Qed.

(** ** Witnesses *)

Definition ex_trace : list issue :=
  [mkIssue 0 [0; 0; 0; 0; 5; 0] 10; mkIssue 0 [0; 0; 0; 1; 5; 0] 14;
   mkIssue 0 [0; 0; 1; 0; 5; 0] 18; mkIssue 0 [0; 0; 1; 1; 5; 0] 22].

Definition ex_after : DRAMNode :=
  match run_trace ddr4 ddr4_root ex_trace with Ok n => n | Err _ => ddr4_root end.

Lemma ex_trace_ok : Forall (issue_ok ddr4) ex_trace.
Proof. repeat constructor; vm_compute; congruence. Qed.

Lemma ddr4_tree_wf : tree_wf ddr4 ddr4_root.
Proof. apply (built_spec ddr4 ddr4_root ddr4_built). Qed.

Lemma timing_refinement_witness : exists b, check_timing 0 [0; 0; 0; 0; 9; 0] 29 ex_after = Ok b.
Proof.
  destruct (timing_refinement ddr4 ddr4_root ex_after ex_trace 0 [0; 0; 0; 0; 9; 0] 29)
    as (b & Hb & _);
    [apply ddr4_built|apply ex_trace_ok|vm_compute; reflexivity|vm_compute; split; congruence
    |apply av_okb_sound; vm_compute; reflexivity|lia|].
  exists b. exact Hb.
Defined.

Lemma min_distance_enforced_witness : 22 + 4 <= 30.
Proof.
  refine (min_distance_enforced ddr4 ddr4_root ex_after (take 3 ex_trace) []
    (mkIssue 0 [0; 0; 1; 1; 5; 0] 22) [0%nat] _ _ (mkTC 0 4 1 false (-1)) [0; 0; 0; 0; 9; 0] 30
    ddr4_built ex_trace_ok _ _ _ _ _ _ _ _ _ _ _ _);
    try (vm_compute; reflexivity).
  - vm_compute. left.
  - apply av_okb_sound. vm_compute. reflexivity.
  - lia.
Defined.

Lemma rolling_window_enforced_witness : 10 + 20 <= 30.
Proof.
  refine (rolling_window_enforced ddr4 ddr4_root ex_after (take 3 ex_trace) []
    (mkIssue 0 [0; 0; 1; 1; 5; 0] 22) [0%nat] _ _ (mkTC 0 20 4 false (-1)) 10 [0; 0; 0; 0; 9; 0] 30
    ddr4_built ex_trace_ok _ _ _ _ _ _ _ _ _ _ _ _);
    try (vm_compute; reflexivity).
  - vm_compute. right. left.
  - apply av_okb_sound. vm_compute. reflexivity.
  - lia.
Defined.

Lemma update_timing_safe_witness :
  exists n', update_timing ddr4 0 [0; -1; 0; 1; 3; 0] 7 ddr4_root = Ok n'.
Proof.
  destruct (update_timing_safe ddr4 0 [0; -1; 0; 1; 3; 0] 7 ddr4_root) as (n' & Hn' & _);
    [apply ddr4_wf|apply ddr4_tree_wf|vm_compute; split; congruence
    |apply av_okb_sound; vm_compute; reflexivity|].
  exists n'. exact Hn'.
Defined.

Lemma update_timing_skip_sound_witness :
  update_timing ddr4 0 [0; 1; 0; 1; 3; 0] 7 ddr4_root =
  update_timing_full ddr4 0 [0; 1; 0; 1; 3; 0] 7 ddr4_root.
Proof.
  apply update_timing_skip_sound;
    [apply ddr4_wf|apply ddr4_tree_wf|vm_compute; split; congruence
    |apply av_okb_sound; vm_compute; reflexivity].
Defined.

Lemma earliest_ready_exact_witness : exists r, earliest_ready 0 [0; 0; 0; 0; 9; 0] ddr4_root = Ok r.
Proof.
  destruct (earliest_ready_exact ddr4 0 [0; 0; 0; 0; 9; 0] ddr4_root) as (r & Hr & _);
    [apply ddr4_wf|apply ddr4_tree_wf|vm_compute; split; congruence
    |apply av_okb_sound; vm_compute; reflexivity|].
  exists r. exact Hr.
Defined.
