(* ===== verification/DeviceFacts.v ===== *)
(** * Facts about the device, and its refinement

    The flat bank array enumerates the banks of the tree in the order
    [get_flat_bank_id] numbers them, and the banks a command acts on are those
    the timing traversal treats as targets. *)

From Stdlib Require Import ZArith Lia.
From S2P Require Import Prelude Base Spec Node Timing TimingSpec Device.

Local Open Scope Z_scope.

(** ** Complete trees *)

(** Above the row level a node has as many children as its level has entries. *)
Definition complete_at (s : DRAMSpec) (r : Z) (n : DRAMNode) : Prop :=
  if decide (m_level n + 1 = r) then m_child_nodes n = []
  else exists sz, vget (level_sizes (organization s)) (m_level n + 1) = Ok sz /\
         length (m_child_nodes n) = Z.to_nat sz.

Lemma make_node_complete (fuel : nat) (s : DRAMSpec) (r l id : Z) (n : DRAMNode) :
  levels s !! "Row" = Some r -> make_node fuel s l id = Ok n -> tree_all (complete_at s r) n.
Proof.
  intros Hr. revert l id n. induction fuel as [|fuel IH]; intros l id n H; [done|]. simpl in H.
  apply bind_Ok in H as (cells & _ & H). apply bind_Ok in H as (st & _ & H).
  unfold get_level_id in H. rewrite Hr in H. simpl in H.
  destruct (Z.eqb_spec (l + 1) r) as [E|E].
  { simplify_eq. apply tree_all_intro; [|done]. unfold complete_at. simpl. by rewrite decide_True. }
  apply bind_Ok in H as (size & Hsize & H). destruct (Z.eqb_spec size 0) as [E0|E0].
  { simplify_eq. apply tree_all_intro; [|done]. unfold complete_at. simpl. rewrite decide_False by done.
    by exists 0. }
  apply bind_Ok in H as (cs & Hcs%mapM_Ok & H). simplify_eq. apply tree_all_intro.
  - unfold complete_at. simpl. rewrite decide_False by done. exists size. split; [done|].
    by rewrite <- (Forall2_length _ _ _ Hcs), length_seqZ.
  - simpl. intros i c Hi. destruct (Forall2_lookup_r _ _ _ _ _ Hcs Hi) as (z & _ & Hz). by eapply IH.
Qed.

(** ** The flat bank array *)

Lemma nodes_at_level_eq (b : Z) (n : DRAMNode) :
  nodes_at_level b n =
  if m_level n =? b then [[]]
  else concat (imap (fun i c => map (cons i) (nodes_at_level b c)) (m_child_nodes n)).
Proof.
  destruct n as [l ? ? ? ? ? ? cs]. simpl. destruct (l =? b); [done|].
  enough (forall k, (fix go (i : nat) (l : list DRAMNode) : list node_ptr :=
       match l with
       | [] => []
       | c :: l => map (cons i) (nodes_at_level b c) ++ go (S i) l
       end) k cs = concat (imap (fun i c => map (cons (k + i)%nat) (nodes_at_level b c)) cs)) as H.
  { apply (H 0%nat). }
  induction cs as [|c cs IH]; intros k; simpl; [done|]. rewrite Nat.add_0_r. f_equal.
  rewrite IH. f_equal. apply imap_ext. intros i x _. simpl. f_equal. f_equal. lia.
Qed.

Lemma concat_uniform_lookup {A} (ls : list (list A)) (K i j : nat) (l : list A) (x : A) :
  Forall (fun l => length l = K) ls -> ls !! i = Some l -> l !! j = Some x ->
  concat ls !! (i * K + j)%nat = Some x.
Proof.
  revert i. induction ls as [|l0 ls IH]; intros i Hall Hi Hj; [done|].
  inversion Hall as [|? ? HK Htl]; subst. destruct i as [|i]; simpl in *.
  - simplify_eq. by apply lookup_app_l_Some.
  - rewrite lookup_app_r by lia.
    replace (length l0 + i * length l0 + j - length l0)%nat with (i * length l0 + j)%nat by lia. eauto.
Qed.

Lemma length_concat_uniform {A} (ls : list (list A)) (K : nat) :
  Forall (fun l => length l = K) ls -> length (concat ls) = (length ls * K)%nat.
Proof. induction 1 as [|l ls Hl _ IH]; simpl; [done|]. rewrite length_app. lia. Qed.

Section flat.
Context (s : DRAMSpec).

Definition size_at (l : Z) : nat :=
  match vget (level_sizes (organization s)) l with Ok sz => Z.to_nat sz | Err _ => O end.

(** How many banks lie below a node, [k] levels above the bank level. *)
Fixpoint bank_prod (k : nat) (l : Z) : nat :=
  match k with O => 1%nat | S k => (size_at (l + 1) * bank_prod k (l + 1))%nat end.

Lemma bank_count (r b : Z) (k : nat) (n : DRAMNode) (l : Z) :
  b < r -> m_level n = l -> b = l + Z.of_nat k -> tree_wf s n -> tree_all (complete_at s r) n ->
  length (nodes_at_level b n) = bank_prod k l.
Proof.
  intros Hbr. revert n l. induction k as [|k IH]; intros n l Hl Hb Hwf Hc; rewrite nodes_at_level_eq.
  - destruct (Z.eqb_spec (m_level n) b); [done|lia].
  - destruct (Z.eqb_spec (m_level n) b); [lia|]. simpl.
    pose proof (tree_all_self _ _ Hc) as Hn. unfold complete_at in Hn.
    rewrite decide_False in Hn by lia. destruct Hn as (sz & Hsz & Hlen).
    rewrite (length_concat_uniform _ (bank_prod k (l + 1))).
    + rewrite length_imap, Hlen. unfold size_at. by rewrite <- Hl, Hsz.
    + apply Forall_lookup. intros i x Hx. rewrite list_lookup_imap in Hx.
      destruct (m_child_nodes n !! i) as [c|] eqn:Hi; simpl in Hx; [|done]. simplify_eq.
      rewrite length_map. destruct (lw_child _ _ (tree_all_self _ _ Hwf) _ _ Hi) as [? _].
      apply IH; [lia|lia|by eapply tree_all_child|by eapply tree_all_child].
Qed.

(** The coordinates of an address between two levels, as a path. *)
Definition coords (av : AddrVec_t) (l : Z) (k : nat) : node_ptr :=
  map (fun j => match vget av j with Ok a => Z.to_nat a | Err _ => O end) (seqZ (l + 1) (Z.of_nat k)).

Definition concrete (av : AddrVec_t) (lo hi : Z) : Prop :=
  forall j, lo < j <= hi -> exists a sz, vget av j = Ok a /\
    vget (level_sizes (organization s)) j = Ok sz /\ 0 <= a < sz.

Definition flat_step (av : AddrVec_t) (id lvl : Z) : result Z :=
  size ← vget (level_sizes (organization s)) lvl; a ← vget av lvl; Ok (id * size + a).

Lemma flat_index (r b : Z) (av : AddrVec_t) (k : nat) (n : DRAMNode) (l : Z) :
  b < r -> m_level n = l -> b = l + Z.of_nat k -> tree_wf s n -> tree_all (complete_at s r) n ->
  concrete av l b ->
  exists idx, (idx < bank_prod k l)%nat /\ nodes_at_level b n !! idx = Some (coords av l k) /\
    (exists m, node_at n (coords av l k) = Some m /\ m_level m = b) /\
    forall acc, foldM (flat_step av) acc (seqZ (l + 1) (Z.of_nat k)) =
                Ok (acc * Z.of_nat (bank_prod k l) + Z.of_nat idx).
Proof.
  intros Hbr. revert n l. induction k as [|k IH]; intros n l Hl Hb Hwf Hc Hav; rewrite nodes_at_level_eq.
  - destruct (Z.eqb_spec (m_level n) b); [|lia]. exists O. simpl.
    split_and!; [lia|done|by eexists|]. intros acc. f_equal. lia.
  - destruct (Z.eqb_spec (m_level n) b); [lia|].
    pose proof (tree_all_self _ _ Hc) as Hn. unfold complete_at in Hn.
    rewrite decide_False in Hn by lia. destruct Hn as (sz & Hsz & Hlen).
    destruct (Hav (l + 1)) as (a & sz' & Ha & Hsz' & Hrange); [lia|].
    rewrite <- Hl in Hsz'. rewrite Hsz in Hsz'. simplify_eq.
    destruct (lookup_lt_is_Some_2 (m_child_nodes n) (Z.to_nat a)) as [c Hi]; [lia|].
    destruct (lw_child _ _ (tree_all_self _ _ Hwf) _ _ Hi) as [Hlc _].
    destruct (IH c (m_level n + 1)) as (idx & Hidx & Hlk & (m & Hm & Hml) & Hfold);
      [done|lia|by eapply tree_all_child|by eapply tree_all_child|intros j Hj; apply Hav; lia|].
    assert (Hco : coords av (m_level n) (S k) = Z.to_nat a :: coords av (m_level n + 1) k).
    { unfold coords. rewrite seqZ_cons by lia. simpl. rewrite Ha. f_equal. f_equal. f_equal; lia. }
    assert (Hsize : size_at (m_level n + 1) = Z.to_nat sz') by (unfold size_at; by rewrite Hsz).
    assert (Ha' : (Z.to_nat a < Z.to_nat sz')%nat) by lia.
    exists (Z.to_nat a * bank_prod k (m_level n + 1) + idx)%nat. rewrite Hco. simpl. rewrite Hsize.
    split_and!.
    + nia.
    + eapply concat_uniform_lookup.
      * apply Forall_lookup. intros i x Hx. rewrite list_lookup_imap in Hx.
        destruct (m_child_nodes n !! i) as [ch|] eqn:Hich; simpl in Hx; [|done]. simplify_eq.
        rewrite length_map. destruct (lw_child _ _ (tree_all_self _ _ Hwf) _ _ Hich) as [? _].
        apply (bank_count r); [lia|lia|lia|by eapply tree_all_child|by eapply tree_all_child].
      * rewrite list_lookup_imap, Hi. done.
      * rewrite list_lookup_fmap, Hlk. done.
    + exists m. rewrite Hi. done.
    + intros acc. rewrite seqZ_cons, foldM_cons by lia.
      assert (flat_step av acc (m_level n + 1) = Ok (acc * sz' + a)) as ->.
      { unfold flat_step. rewrite Hsz, Ha. done. }
      simpl.
      replace (Z.succ (m_level n + 1)) with (m_level n + 1 + 1) by lia.
      replace (Z.pred (Z.of_nat (S k))) with (Z.of_nat k) by lia. rewrite Hfold. f_equal. nia.
Qed.
End flat.

(** ** Writing through a pointer *)

(** Two nodes that differ at most in their children. *)
Definition same_local (n n' : DRAMNode) : Prop := set_children n [] = set_children n' [].

#[export] Instance same_local_equiv : Equivalence same_local.
Proof.
  split.
  - intros n. unfold same_local. reflexivity.
  - intros n m H. unfold same_local in *. congruence.
  - intros n m k H1 H2. unfold same_local in *. congruence.
Qed.

Lemma same_local_fields (n n' : DRAMNode) :
  same_local n n' ->
  m_level n' = m_level n /\ m_node_id n' = m_node_id n /\ m_state n' = m_state n /\
  m_cmd_ready_clk n' = m_cmd_ready_clk n /\ m_cmd_history n' = m_cmd_history n /\
  m_shared_window_history n' = m_shared_window_history n /\ m_row_state n' = m_row_state n.
Proof. unfold same_local, set_children. intros H. injection H as ? ? ? ? ? ? ?. split_and!; congruence. Qed.

Lemma update_at_spec (f : DRAMNode -> result DRAMNode) (p : node_ptr) (n n' : DRAMNode) :
  update_at f p n = Ok n' ->
  exists m m', node_at n p = Some m /\ f m = Ok m' /\ node_at n' p = Some m' /\
    (m_child_nodes m' = m_child_nodes m ->
     forall q, q <> p ->
       match node_at n q, node_at n' q with
       | Some x, Some x' => same_local x x' /\ length (m_child_nodes x') = length (m_child_nodes x)
       | None, None => True
       | _, _ => False
       end).
Proof.
  revert n n'. induction p as [|i p IH]; intros n n' H; simpl in H.
  - exists n, n'. split_and!; [done|done|done|]. intros Hch [|j q] Hq; [done|]. simpl. rewrite Hch.
    destruct (m_child_nodes n !! j) as [c|]; simpl; [|done]. by destruct (node_at c q).
  - apply bind_Ok in H as (cs & (x & y & Hx & Hy & ->)%alterM_Ok & H). simplify_eq.
    destruct (IH x y Hy) as (m & m' & Hm & Hf & Hm' & Hq).
    exists m, m'. simpl. rewrite Hx, list_lookup_insert_eq by (by eapply lookup_lt_Some). simpl.
    split_and!; [done|done|done|]. intros Hch [|j q] Hne; simpl.
    + split; [done|]. apply length_insert.
    + destruct (decide (i = j)) as [<-|Hij].
      * rewrite Hx, list_lookup_insert_eq by (by eapply lookup_lt_Some). simpl. apply Hq; [done|congruence].
      * rewrite list_lookup_insert_ne by done. destruct (m_child_nodes n !! j) as [c|]; simpl; [|done].
        by destruct (node_at c q).
Qed.

(** An update that leaves the timing part of a bank alone. *)
Definition state_only (f : DRAMNode -> result DRAMNode) : Prop :=
  forall m m', f m = Ok m' -> exists st rows, m' = set_bank_state m st rows.

Lemma update_at_state (s : DRAMSpec) (f : DRAMNode -> result DRAMNode) (p : node_ptr) (n n' : DRAMNode) :
  state_only f -> update_at f p n = Ok n' ->
  same_shape n n' /\ (tree_wf s n -> tree_wf s n') /\
  (forall q, q <> p -> forall x, node_at n q = Some x ->
     exists x', node_at n' q = Some x' /\ same_local x x') /\
  exists m m', node_at n p = Some m /\ f m = Ok m' /\ node_at n' p = Some m'.
Proof.
  intros Hf H. destruct (update_at_spec f p n n' H) as (m & m' & Hm & Hfm & Hm' & Hq).
  destruct (Hf m m' Hfm) as (st & rows & E).
  assert (Hch : m_child_nodes m' = m_child_nodes m) by (by subst m').
  specialize (Hq Hch).
  assert (Hsh : same_shape n n').
  { intros q. destruct (decide (q = p)) as [->|Hne].
    - rewrite Hm, Hm'. by subst m'.
    - specialize (Hq q Hne). destruct (node_at n q), (node_at n' q); try done.
      destruct Hq as [Hl _]. apply same_local_fields in Hl. naive_solver. }
  split_and!; [done| | |by exists m, m'].
  - intros Hwf q x' Hx'. pose proof (Hsh q) as Hs. rewrite Hx' in Hs.
    destruct (node_at n q) as [x|] eqn:Hx; [|done]. destruct Hs as [Hl _].
    assert (m_cmd_ready_clk x' = m_cmd_ready_clk x /\ m_cmd_history x' = m_cmd_history x /\
            m_shared_window_history x' = m_shared_window_history x /\
            length (m_child_nodes x') = length (m_child_nodes x)) as (E1 & E2 & E3 & E4).
    { destruct (decide (q = p)) as [->|Hne].
      - rewrite Hm in Hx. rewrite Hm' in Hx'. injection Hx as <-. injection Hx' as <-. by rewrite E.
      - specialize (Hq q Hne). rewrite Hx, Hx' in Hq. destruct Hq as [Hl' ?].
        apply same_local_fields in Hl'. naive_solver. }
    destruct (Hwf q x Hx) as [w1 w2 w3 w4 w5 w6].
    constructor; rewrite ?Hl, ?E1, ?E2, ?E3; try done.
    + intros i c' Hi. pose proof (Hsh (q ++ [i])) as Hc. rewrite !node_at_app, Hx, Hx' in Hc. simpl in Hc.
      rewrite Hi in Hc. simpl in Hc.
      destruct (m_child_nodes x !! i) as [c|] eqn:Hci; simpl in Hc; [|done].
      destruct (w5 i c Hci). destruct Hc. split; congruence || lia.
    + intros Hne. rewrite E4. apply w6. intros Enil. apply Hne, length_zero_iff_nil. by rewrite E4, Enil.
  - intros q Hne x Hx. specialize (Hq q Hne). rewrite Hx in Hq.
    destruct (node_at n' q) as [x'|]; [|done]. exists x'. naive_solver.
Qed.

Lemma update_at_ok (f : DRAMNode -> result DRAMNode) (p : node_ptr) (n m : DRAMNode) :
  node_at n p = Some m -> is_ok (f m) -> is_ok (update_at f p n).
Proof.
  revert n. induction p as [|i p IH]; intros n Hm Hf; simpl in *; [by simplify_eq|].
  apply bind_Some in Hm as (c & Hi & Hm). destruct (IH c Hm Hf) as [c' Hc'].
  eexists. apply bind_Ok. eexists. split; [apply alterM_Ok; eauto 6|done].
Qed.

(** ** Shape and the flat array *)

Lemma same_shape_length (n n' : DRAMNode) :
  same_shape n n' -> length (m_child_nodes n') = length (m_child_nodes n).
Proof.
  intros Hsh. destruct (Nat.lt_trichotomy (length (m_child_nodes n')) (length (m_child_nodes n)))
    as [Hlt|[?|Hlt]]; [|done|].
  - pose proof (same_shape_child _ _ (length (m_child_nodes n')) Hsh) as Hc.
    rewrite (lookup_ge_None_2 (m_child_nodes n')) in Hc by lia.
    destruct (lookup_lt_is_Some_2 _ _ Hlt) as [x Hx]. by rewrite Hx in Hc.
  - pose proof (same_shape_child _ _ (length (m_child_nodes n)) Hsh) as Hc.
    rewrite (lookup_ge_None_2 (m_child_nodes n)) in Hc by lia.
    destruct (lookup_lt_is_Some_2 _ _ Hlt) as [x Hx]. by rewrite Hx in Hc.
Qed.

Lemma same_shape_nodes (b : Z) (n n' : DRAMNode) :
  same_shape n n' -> nodes_at_level b n' = nodes_at_level b n.
Proof.
  revert n'. induction n as [n IH] using DRAMNode_ind'. intros n' Hsh.
  rewrite !nodes_at_level_eq. destruct (same_shape_self _ _ Hsh) as [-> _].
  destruct (_ =? _); [done|]. f_equal. apply list_eq. intros i. rewrite !list_lookup_imap.
  pose proof (same_shape_child _ _ i Hsh) as Hc.
  destruct (m_child_nodes n !! i) as [c|] eqn:Hi, (m_child_nodes n' !! i) as [c'|]; simpl; try done.
  rewrite Forall_lookup in IH. by rewrite (IH i c Hi c' Hc).
Qed.

Lemma same_shape_complete (s : DRAMSpec) (r : Z) (n n' : DRAMNode) :
  same_shape n n' -> tree_all (complete_at s r) n -> tree_all (complete_at s r) n'.
Proof.
  intros Hsh Hc p m' Hm'. pose proof (Hsh p) as Hp. rewrite Hm' in Hp.
  destruct (node_at n p) as [m|] eqn:Hm; [|done]. destruct Hp as [Hl _].
  assert (same_shape m m') as Hmm.
  { intros q. specialize (Hsh (p ++ q)). by rewrite !node_at_app, Hm, Hm' in Hsh. }
  specialize (Hc p m Hm). unfold complete_at in *. rewrite Hl.
  pose proof (same_shape_length _ _ Hmm) as Hlen. destruct (decide _).
  - apply length_zero_iff_nil. by rewrite Hlen, Hc.
  - destruct Hc as (sz & ? & ?). exists sz. split; [done|congruence].
Qed.

(** ** Bank dispatch *)

(** The positions of the selected banks, counted from [i]. *)
Fixpoint sel_ids (selb : node_ptr -> bool) (i : Z) (l : list node_ptr) : list Z :=
  match l with
  | [] => []
  | p :: l => if selb p then i :: sel_ids selb (i + 1) l else sel_ids selb (i + 1) l
  end.

Lemma visit_banks_fold {S} (sel : node_ptr -> result bool) (selb : node_ptr -> bool)
  (visitor : S -> Z -> result S) (l : list node_ptr) (i : Z) (s : S) :
  (forall p, p ∈ l -> sel p = Ok (selb p)) ->
  visit_banks sel (fun s id => s' ← visitor s id; Ok (s', true)) s i l =
  (s' ← foldM visitor s (sel_ids selb i l); Ok (s', true)).
Proof.
  revert i s. induction l as [|p l IH]; intros i s Hsel; [done|]. cbn [visit_banks sel_ids].
  assert (forall p, p ∈ l -> sel p = Ok (selb p)) as Hl by (intros; apply Hsel; set_solver).
  rewrite (Hsel p) by set_solver. simpl. destruct (selb p); [|by apply IH].
  rewrite foldM_cons. destruct (visitor s i); simpl; [by apply IH|done].
Qed.

Lemma sel_ids_elem (selb : node_ptr -> bool) (l : list node_ptr) (i j : Z) :
  j ∈ sel_ids selb i l <-> exists p, i <= j /\ l !! Z.to_nat (j - i) = Some p /\ selb p = true.
Proof.
  revert i. induction l as [|p l IH]; intros i; simpl.
  { split; [by intros ?%elem_of_nil|by intros (? & _ & ? & _)]. }
  assert (Hrest : j ∈ sel_ids selb (i + 1) l <->
            exists q, i < j /\ (p :: l) !! Z.to_nat (j - i) = Some q /\ selb q = true).
  { rewrite IH. split; intros (q & Hj & Hq & Hs); exists q; (split_and!; [lia| |done]).
    - replace (Z.to_nat (j - i)) with (S (Z.to_nat (j - (i + 1)))) by lia. done.
    - replace (Z.to_nat (j - i)) with (S (Z.to_nat (j - (i + 1)))) in Hq by lia. done. }
  assert (Hj : (exists q, i <= j /\ (p :: l) !! Z.to_nat (j - i) = Some q /\ selb q = true) <->
               (j = i /\ selb p = true) \/
               exists q, i < j /\ (p :: l) !! Z.to_nat (j - i) = Some q /\ selb q = true).
  { split.
    - intros (q & Hle & Hq & Hs). destruct (decide (j = i)) as [->|]; [|right; exists q; split_and!; [lia|done|done]].
      left. replace (Z.to_nat (i - i)) with O in Hq by lia. by simplify_eq/=.
    - intros [[-> Hs]|(q & ? & ? & ?)]; [exists p|exists q; split_and!; [lia|done|done]].
      replace (Z.to_nat (i - i)) with O by lia. split_and!; [lia|done|done]. }
  rewrite Hj, <- Hrest. destruct (selb p); [rewrite elem_of_cons|]; naive_solver.
Qed.

Lemma sel_ids_NoDup (selb : node_ptr -> bool) (l : list node_ptr) (i : Z) : NoDup (sel_ids selb i l).
Proof.
  revert i. induction l as [|p l IH]; intros i; simpl; [constructor|].
  destruct (selb p); [|done]. constructor; [|done]. intros (q & ? & _)%sel_ids_elem. lia.
Qed.

Lemma sel_ids_unique (selb : node_ptr -> bool) (l : list node_ptr) (i : Z) (k : nat) (p : node_ptr) :
  NoDup l -> l !! k = Some p -> (forall q, q ∈ l -> selb q = true <-> q = p) ->
  sel_ids selb i l = [i + Z.of_nat k].
Proof.
  revert i k. induction l as [|q l IH]; intros i k Hnd Hk Hsel; [done|].
  apply NoDup_cons in Hnd as [Hq Hnd]. simpl.
  assert (Hsel' : forall q', q' ∈ l -> selb q' = true <-> q' = p) by (intros; apply Hsel; set_solver).
  destruct k as [|k]; simpl in Hk.
  - simplify_eq. rewrite (proj2 (Hsel p ltac:(set_solver))) by done.
    replace (i + Z.of_nat 0) with i by lia. f_equal.
    destruct (sel_ids selb (i + 1) l) as [|j js] eqn:E; [done|].
    assert (j ∈ sel_ids selb (i + 1) l) as (q & _ & Hl%list_elem_of_lookup_2 & Hs)%sel_ids_elem
      by (rewrite E; set_solver).
    apply Hsel' in Hs; [|done]. by subst.
  - assert (selb q = false) as ->.
    { apply not_true_is_false. intros Hs. apply Hsel in Hs; [|set_solver]. subst.
      by apply Hq, (list_elem_of_lookup_2 _ k). }
    rewrite (IH (i + 1) k) by done. f_equal. lia.
Qed.

(** ** Paths of the flat array *)

Lemma nodes_at_level_elem (b : Z) (n : DRAMNode) (p : node_ptr) :
  p ∈ nodes_at_level b n -> exists m, node_at n p = Some m /\ m_level m = b.
Proof.
  revert p. induction n as [n IH] using DRAMNode_ind'. intros p Hp. rewrite nodes_at_level_eq in Hp.
  destruct (Z.eqb_spec (m_level n) b) as [Hb|_].
  { apply list_elem_of_singleton in Hp as ->. by exists n. }
  apply list_elem_of_In, in_concat in Hp as (l & Hl%list_elem_of_In & Hp%list_elem_of_In).
  apply list_elem_of_lookup in Hl as (i & Hl). rewrite list_lookup_imap in Hl.
  destruct (m_child_nodes n !! i) as [c|] eqn:Hi; simpl in Hl; [|done]. simplify_eq.
  apply list_elem_of_fmap in Hp as (q & -> & Hq). rewrite Forall_lookup in IH.
  destruct (IH i c Hi q Hq) as (m & Hm & ?). exists m. simpl. rewrite Hi. done.
Qed.

Lemma NoDup_concat_heads (ls : list (list node_ptr)) (k : nat) :
  (forall i l, ls !! i = Some l -> NoDup l /\ Forall (fun p => head p = Some (k + i)%nat) l) ->
  NoDup (concat ls).
Proof.
  revert k. induction ls as [|l ls IH]; intros k H; simpl; [constructor|].
  destruct (H O l eq_refl) as [Hnd Hhd]. apply NoDup_app. split_and!; [done| |].
  - intros p Hp Hin. rewrite Forall_forall in Hhd. specialize (Hhd p Hp). simpl in Hhd.
    apply list_elem_of_In, in_concat in Hin as (l' & Hl'%list_elem_of_In & Hp'%list_elem_of_In).
    apply list_elem_of_lookup in Hl' as (i & Hl'). destruct (H (S i) l' Hl') as [_ Hhd'].
    rewrite Forall_forall in Hhd'. specialize (Hhd' p Hp'). rewrite Hhd in Hhd'. simplify_eq. lia.
  - apply (IH (S k)). intros i l' Hl'. destruct (H (S i) l' Hl') as [? Hh]. split; [done|].
    eapply Forall_impl; [exact Hh|]. intros p ->. f_equal. lia.
Qed.

Lemma nodes_at_level_NoDup (b : Z) (n : DRAMNode) : NoDup (nodes_at_level b n).
Proof.
  induction n as [n IH] using DRAMNode_ind'. rewrite nodes_at_level_eq.
  destruct (_ =? _); [apply NoDup_singleton|]. apply (NoDup_concat_heads _ O).
  intros i l Hl. rewrite list_lookup_imap in Hl.
  destruct (m_child_nodes n !! i) as [c|] eqn:Hi; simpl in Hl; [|done]. simplify_eq.
  rewrite Forall_lookup in IH. split.
  - apply (NoDup_fmap_2 _). by eapply IH.
  - apply Forall_forall. intros p (q & -> & _)%list_elem_of_fmap. done.
Qed.

(** ** The addressed banks *)

Lemma matches_fold (av : AddrVec_t) (ns : list DRAMNode) (b : bool) :
  Forall (fun n => 0 <= m_level n < Z.of_nat (length av)) ns ->
  foldM (fun ok n =>
           if (ok : bool) then
             a ← vget av (m_level n);
             Ok (negb (negb (a =? -1) && negb (a =? m_node_id n)))
           else Ok false) b ns = Ok (b && forallb (matches av) ns).
Proof.
  intros H. revert b. induction H as [|n ns Hn _ IH]; intros b; simpl; [by rewrite andb_true_r|].
  destruct b; [|apply IH]. destruct (vget_in_range av (m_level n) Hn) as [a Ha].
  unfold matches at 1. rewrite Ha. simpl. rewrite IH. do 2 f_equal.
  rewrite (Z.eqb_sym a (m_node_id n)). by destruct (_ =? _), (_ =? _).
Qed.

Lemma visit_ancestors (av : AddrVec_t) (n : DRAMNode) (p : node_ptr) (m : DRAMNode) :
  node_at n p = Some m ->
  forallb (matches av) (ancestors n p) = bool_decide (visit av n p = Some true).
Proof.
  revert n. induction p as [|i p IH]; intros n Hm; simpl in *.
  - rewrite andb_true_r. by destruct (matches av n).
  - apply bind_Some in Hm as (c & Hi & Hm). rewrite Hi. simpl. rewrite forallb_app, (IH c Hm). simpl.
    rewrite andb_true_r. destruct (matches av n); [by rewrite andb_true_r|]. by rewrite andb_false_r.
Qed.

Lemma ancestors_all (P : DRAMNode -> Prop) (n : DRAMNode) (p : node_ptr) :
  tree_all P n -> Forall P (ancestors n p).
Proof.
  revert n. induction p as [|i p IH]; intros n Hn; simpl.
  { constructor; [by apply tree_all_self|done]. }
  destruct (m_child_nodes n !! i) as [c|] eqn:Hi.
  - apply Forall_app. split; [by eapply IH, tree_all_child|]. constructor; [by apply tree_all_self|done].
  - constructor; [by apply tree_all_self|done].
Qed.

Lemma bank_matches_visit (d : DRAMDevice) (p : node_ptr) (av : AddrVec_t) (m : DRAMNode) :
  tree_wf (m_spec d) (m_root d) -> level_count (m_spec d) <= Z.of_nat (length av) ->
  node_at (m_root d) p = Some m ->
  bank_matches d p av = Ok (bool_decide (visit av (m_root d) p = Some true)).
Proof.
  intros Hwf Hlen Hm. unfold bank_matches. rewrite matches_fold.
  - simpl. by erewrite visit_ancestors.
  - eapply Forall_impl; [by apply ancestors_all, Hwf|]. intros n Hn. pose proof (lw_lv _ _ Hn). lia.
Qed.

Lemma node_level (s : DRAMSpec) (n m : DRAMNode) (p : node_ptr) :
  tree_wf s n -> node_at n p = Some m -> m_level m = m_level n + Z.of_nat (length p).
Proof.
  revert n. induction p as [|i p IH]; intros n Hwf Hm; simpl in *; [simplify_eq; lia|].
  apply bind_Some in Hm as (c & Hi & Hm). rewrite (IH c); [|by eapply tree_all_child|done].
  destruct (lw_child _ _ (tree_all_self _ _ Hwf) _ _ Hi). lia.
Qed.

(** An address with a concrete coordinate at every level down to the bank
    addresses one path. *)
Lemma visit_concrete (s : DRAMSpec) (av : AddrVec_t) (k : nat) (n m : DRAMNode) (l : Z) (p : node_ptr) :
  tree_wf s n -> m_level n = l -> node_at n p = Some m -> m_level m = l + Z.of_nat k ->
  concrete s av l (l + Z.of_nat k) -> matches av n = true ->
  visit av n p = Some true <-> p = coords av l k.
Proof.
  revert n l p. induction k as [|k IH]; intros n l p Hwf Hl Hm Hlm Hav Hn.
  - destruct p as [|i p]; simpl; [by rewrite Hn|]. exfalso. simpl in Hm.
    apply bind_Some in Hm as (c & Hi & Hm). pose proof (node_level _ _ _ _ (tree_all_child _ _ _ _ Hwf Hi) Hm).
    destruct (lw_child _ _ (tree_all_self _ _ Hwf) _ _ Hi). lia.
  - destruct p as [|i p]; simpl in Hm; [simplify_eq; lia|].
    apply bind_Some in Hm as (c & Hi & Hm).
    destruct (lw_child _ _ (tree_all_self _ _ Hwf) _ _ Hi) as [Hlc Hidc].
    destruct (Hav (l + 1)) as (a & sz & Ha & _ & Hr); [lia|].
    assert (Hco : coords av l (S k) = Z.to_nat a :: coords av (l + 1) k).
    { unfold coords. rewrite seqZ_cons by lia. simpl. rewrite Ha. f_equal. f_equal. f_equal; lia. }
    rewrite Hco. simpl. rewrite Hn, Hi. simpl.
    destruct (matches av c) eqn:Hc; unfold matches in Hc; rewrite Hlc, Hl, Ha, Hidc in Hc.
    + rewrite (IH c (l + 1) p); [|by eapply tree_all_child|lia|done|lia|intros j Hj; apply Hav; lia|].
      * assert (i = Z.to_nat a) as -> by lia. naive_solver.
      * unfold matches. rewrite Hlc, Hl, Ha, Hidc. done.
    + assert (i <> Z.to_nat a) by lia. assert (matches av c = false) as Hc'.
      { unfold matches. rewrite Hlc, Hl, Ha, Hidc. done. }
      split; [|naive_solver]. intros Hv. destruct p; simpl in Hv; rewrite Hc' in Hv; done.
Qed.

(** ** The device invariant *)

(** The per-command tables cover every command. *)
Definition tables_wfb (s : DRAMSpec) : bool :=
  forallb (fun n => Z.of_nat n =? command_count s)
    [length (bank_targets s); length (command_meta s); length (actions (funcs s));
     length (preqs (funcs s)); length (rowhits (funcs s)); length (rowopens (funcs s))].

Definition bank_levels_okb (s : DRAMSpec) : bool :=
  match levels s !! "Bank", levels s !! "Row" with
  | Some b, Some r => (1 <=? b) && (b <? r)
  | _, _ => false
  end.

Record dev_wf (d : DRAMDevice) : Prop := mkDevWf {
  dw_spec : spec_wfb (m_spec d) = true;
  dw_org : org_wfb (m_spec d) = true;
  dw_tables : tables_wfb (m_spec d) = true;
  dw_levels : exists r, levels (m_spec d) !! "Row" = Some r /\ 1 <= m_bank_level d < r /\
                tree_all (complete_at (m_spec d) r) (m_root d);
  dw_tree : tree_wf (m_spec d) (m_root d);
  dw_root : m_level (m_root d) = 0;
  dw_banks : m_bank_nodes d = nodes_at_level (m_bank_level d) (m_root d)
}.

(** The address is precise enough for the scope of the command. *)
Definition addressed (d : DRAMDevice) (c : Z) (av : AddrVec_t) : Prop :=
  0 <= c < command_count (m_spec d) /\ level_count (m_spec d) <= Z.of_nat (length av) /\
  match vget (bank_targets (m_spec d)) c with
  | Ok Single => concrete (m_spec d) av 0 (m_bank_level d) /\ matches av (m_root d) = true
  | Ok SameBank => vget av (m_bank_level d) <> Ok (-1)
  | _ => True
  end.

(** The banks the timing traversal updates as targets. *)
Definition timing_target (d : DRAMDevice) (av : AddrVec_t) (p : node_ptr) : bool :=
  bool_decide (visit av (m_root d) p = Some true).

Definition timing_targets (d : DRAMDevice) (av : AddrVec_t) : list Z :=
  sel_ids (timing_target d av) 0 (m_bank_nodes d).

Lemma tables_wf_length (s : DRAMSpec) :
  tables_wfb s = true ->
  Z.of_nat (length (bank_targets s)) = command_count s /\
  Z.of_nat (length (actions (funcs s))) = command_count s /\
  Z.of_nat (length (preqs (funcs s))) = command_count s /\
  Z.of_nat (length (rowhits (funcs s))) = command_count s /\
  Z.of_nat (length (rowopens (funcs s))) = command_count s.
Proof. unfold tables_wfb. simpl. rewrite !andb_true_iff, !Z.eqb_eq. naive_solver. Qed.

Section dispatch.
Context (d : DRAMDevice) (Hd : dev_wf d).

Lemma bank_path (p : node_ptr) :
  p ∈ m_bank_nodes d -> exists m, node_at (m_root d) p = Some m /\ m_level m = m_bank_level d.
Proof. rewrite (dw_banks d Hd). apply nodes_at_level_elem. Qed.

Lemma flat_bank (av : AddrVec_t) :
  concrete (m_spec d) av 0 (m_bank_level d) ->
  exists id, get_flat_bank_id d av = Ok (Z.of_nat id) /\
    m_bank_nodes d !! id = Some (coords av 0 (Z.to_nat (m_bank_level d))).
Proof.
  intros Hav. destruct (dw_levels d Hd) as (r & _ & Hb & Hc).
  destruct (flat_index (m_spec d) r (m_bank_level d) av (Z.to_nat (m_bank_level d)) (m_root d) 0)
    as (idx & _ & Hlk & _ & Hfold);
    [lia|apply (dw_root d Hd)|lia|apply (dw_tree d Hd)|done|done|].
  exists idx. rewrite (dw_banks d Hd). split; [|done].
  specialize (Hfold 0). rewrite Z2Nat.id in Hfold by lia. exact Hfold.
Qed.

Lemma timing_target_coords (av : AddrVec_t) (p : node_ptr) :
  concrete (m_spec d) av 0 (m_bank_level d) -> matches av (m_root d) = true -> p ∈ m_bank_nodes d ->
  timing_target d av p = true <-> p = coords av 0 (Z.to_nat (m_bank_level d)).
Proof.
  intros Hav Hroot Hp. destruct (bank_path p Hp) as (m & Hm & Hl).
  destruct (dw_levels d Hd) as (r & _ & Hb & _). unfold timing_target. rewrite bool_decide_eq_true.
  apply (visit_concrete (m_spec d) av _ _ m); [apply (dw_tree d Hd)|apply (dw_root d Hd)|done|lia| |done].
  by rewrite Z2Nat.id by lia.
Qed.

Lemma timing_targets_single (av : AddrVec_t) (id : nat) :
  concrete (m_spec d) av 0 (m_bank_level d) -> matches av (m_root d) = true ->
  get_flat_bank_id d av = Ok (Z.of_nat id) -> timing_targets d av = [Z.of_nat id].
Proof.
  intros Hav Hroot Hid. destruct (flat_bank av Hav) as (id' & Hid' & Hlk).
  rewrite Hid in Hid'. assert (id' = id) as -> by (injection Hid'; lia).
  unfold timing_targets. eapply (sel_ids_unique _ _ 0 id); [|exact Hlk|].
  - rewrite (dw_banks d Hd). apply nodes_at_level_NoDup.
  - intros q Hq. by apply timing_target_coords.
Qed.

(** A bank addressed at its own coordinate is selected by [bank_matches]. *)
Lemma same_bank_sel_eq (av : AddrVec_t) (a : Z) (p : node_ptr) :
  level_count (m_spec d) <= Z.of_nat (length av) -> vget av (m_bank_level d) = Ok a -> a <> -1 ->
  p ∈ m_bank_nodes d -> same_bank_sel d av a p = Ok (timing_target d av p).
Proof.
  intros Hlen Ha Ha1 Hp. destruct (bank_path p Hp) as (m & Hm & Hl).
  unfold same_bank_sel, deref. rewrite Hm. simpl.
  pose proof (bank_matches_visit d p av m (dw_tree d Hd) Hlen Hm) as Hbm. unfold timing_target.
  destruct (Z.eqb_spec (m_node_id m) a); simpl; [done|]. f_equal. symmetry.
  apply bool_decide_eq_false. intros Hv.
  pose proof (visit_ancestors av (m_root d) p m Hm) as Hall. rewrite bool_decide_true in Hall by done.
  rewrite forallb_forall in Hall.
  assert (In m (ancestors (m_root d) p)) as Hin.
  { clear -Hm. revert Hm. generalize (m_root d). induction p as [|i p IH]; intros n Hm; simpl in *.
    - simplify_eq. by left.
    - apply bind_Some in Hm as (c & -> & Hm). apply in_or_app. left. by apply IH. }
  specialize (Hall m Hin). unfold matches in Hall. rewrite Hl, Ha in Hall. lia.
Qed.

(** The loop over the target banks is a loop over the banks the timing traversal
    addresses. *)
Lemma for_each_target_bank_eq {S} (c : Z) (av : AddrVec_t) (visitor : S -> Z -> result S) (s : S) :
  addressed d c av ->
  for_each_target_bank d c av visitor s = foldM visitor s (timing_targets d av).
Proof.
  intros (Hc & Hlen & Hscope). unfold for_each_target_bank, for_each_target_bank_while.
  pose proof (tables_wf_length _ (dw_tables d Hd)) as (Hbt & _).
  destruct (vget_in_range (bank_targets (m_spec d)) c) as [t Ht]; [lia|]. rewrite Ht in Hscope |- *. simpl.
  destruct t.
  - destruct Hscope as [Hav Hroot]. destruct (flat_bank av Hav) as (id & Hid & _).
    rewrite (timing_targets_single av id), Hid by done. simpl. by destruct (visitor s (Z.of_nat id)).
  - rewrite (visit_banks_fold _ (timing_target d av)).
    + unfold timing_targets. by destruct (foldM _ _ _).
    + intros p Hp. destruct (bank_path p Hp) as (m & Hm & _).
      by rewrite (bank_matches_visit d p av m (dw_tree d Hd)).
  - destruct (dw_levels d Hd) as (r & Hr & Hb & _). destruct (org_wf_parts _ (dw_org d Hd)) as (r' & Hr' & ? & _).
    rewrite Hr in Hr'. simplify_eq.
    destruct (vget_in_range av (m_bank_level d)) as [a Ha]; [lia|]. rewrite Ha in Hscope |- *. simpl.
    rewrite (visit_banks_fold _ (timing_target d av)).
    + unfold timing_targets. by destruct (foldM _ _ _).
    + intros p Hp. apply same_bank_sel_eq; [done|done|congruence|done].
Qed.
End dispatch.

(** ** The device as an array of bank state machines

    What the command handlers promise the device ([HandlerLaws]) and, against
    that interface, the refinement: issuing a command applies its effect to
    exactly the banks its address selects, each once, and keeps the device
    well formed. *)
(** The part of a bank the handlers read and write. *)
Definition bank_state : Type := Z * gmap Z Z.
Definition view (n : DRAMNode) : bank_state := (m_state n, m_row_state n).
Definition with_view (n : DRAMNode) (v : bank_state) : DRAMNode := set_bank_state n v.1 v.2.

(** The interface between the device and the command handlers: an action is a
    total function of the bank state that touches nothing else; a prerequisite
    query reads nothing else. *)
Class HandlerLaws (s : DRAMSpec) := mkHandlerLaws {
  effect : Z -> AddrVec_t -> bank_state -> bank_state;
  action_effect : forall c f av clk n,
    vget (actions (funcs s)) c = Ok (Some f) -> level_count s <= Z.of_nat (length av) ->
    f n c av clk = Ok (with_view n (effect c av (view n)));
  no_action : forall c av v, vget (actions (funcs s)) c = Ok None -> effect c av v = v;
  preq_view : forall c f av clk n n',
    vget (preqs (funcs s)) c = Ok (Some f) -> view n = view n' -> f n c av clk = f n' c av clk
}.

Definition bank_view (d : DRAMDevice) (i : nat) : option bank_state :=
  p ← m_bank_nodes d !! i; view <$> node_at (m_root d) p.

Definition bank_step (banks : list node_ptr) (f : DRAMNode -> result DRAMNode)
  (root : DRAMNode) (id : Z) : result DRAMNode :=
  p ← vget banks id; update_at f p root.

Lemma with_view_state_only (e : bank_state -> bank_state) (f : DRAMNode -> result DRAMNode) :
  (forall n, f n = Ok (with_view n (e (view n)))) -> state_only f.
Proof. intros Hf m m'. rewrite Hf. intros [= <-]. by eexists _, _. Qed.

Lemma bank_step_spec (s : DRAMSpec) (banks : list node_ptr) (e : bank_state -> bank_state)
  (f : DRAMNode -> result DRAMNode) (root : DRAMNode) (id : Z) (p : node_ptr) (m : DRAMNode) :
  (forall n, f n = Ok (with_view n (e (view n)))) -> vget banks id = Ok p ->
  node_at root p = Some m -> tree_wf s root ->
  exists root', bank_step banks f root id = Ok root' /\ tree_wf s root' /\ same_shape root root' /\
    forall q x, node_at root q = Some x -> exists x', node_at root' q = Some x' /\
      view x' = if decide (q = p) then e (view x) else view x.
Proof.
  intros Hf Hp Hm Hwf. unfold bank_step. rewrite Hp. simpl.
  destruct (update_at_ok f p root m Hm) as [root' H]; [rewrite Hf; by eexists|].
  destruct (update_at_state s f p root root' (with_view_state_only e f Hf) H)
    as (Hsh & Hwf' & Hother & m0 & m' & Hm0 & Hfm & Hm').
  exists root'. split_and!; [done|auto|done|]. intros q x Hx. case_decide as Hq.
  - subst q. rewrite Hm in Hm0, Hx. simplify_eq. rewrite Hf in Hfm. simplify_eq.
    exists (with_view m0 (e (view m0))). split; [done|]. by destruct (e (view m0)).
  - destruct (Hother q Hq x Hx) as (x' & Hx' & Hl). exists x'. split; [done|].
    apply same_local_fields in Hl. unfold view. f_equal; apply Hl.
Qed.

Lemma bank_steps_spec (s : DRAMSpec) (banks : list node_ptr) (e : bank_state -> bank_state)
  (f : DRAMNode -> result DRAMNode) (ids : list Z) (root : DRAMNode) :
  (forall n, f n = Ok (with_view n (e (view n)))) -> NoDup banks -> NoDup ids ->
  (forall id, id ∈ ids -> exists p m, vget banks id = Ok p /\ node_at root p = Some m) ->
  tree_wf s root ->
  exists root', foldM (bank_step banks f) root ids = Ok root' /\ tree_wf s root' /\
    same_shape root root' /\
    forall i p x, banks !! i = Some p -> node_at root p = Some x ->
      exists x', node_at root' p = Some x' /\
        view x' = if decide (Z.of_nat i ∈ ids) then e (view x) else view x.
Proof.
  intros Hf Hnb. revert root. induction ids as [|id ids IH]; intros root Hnd Hids Hwf.
  { exists root. split_and!; [done|done|done|]. intros i p x _ Hx. exists x.
    split; [done|]. rewrite decide_False; [done|]. apply not_elem_of_nil. }
  apply NoDup_cons in Hnd as [Hid Hnd].
  destruct (Hids id) as (p & m & Hp & Hm); [set_solver|].
  destruct (bank_step_spec s banks e f root id p m Hf Hp Hm Hwf) as (r1 & H1 & Hwf1 & Hsh1 & Hv1).
  destruct (IH r1 Hnd) as (r2 & H2 & Hwf2 & Hsh2 & Hv2); [|done|].
  { intros id' Hid'. destruct (Hids id') as (p' & m' & Hp' & Hm'); [set_solver|].
    destruct (Hv1 p' m' Hm') as (x' & Hx' & _). eauto. }
  exists r2. rewrite foldM_cons, H1. split_and!; [done|done|by etrans|].
  intros i q x Hq Hx. destruct (Hv1 q x Hx) as (x1 & Hx1 & E1).
  destruct (Hv2 i q x1 Hq Hx1) as (x2 & Hx2 & E2). exists x2. split; [done|]. rewrite E2.
  apply vget_Ok in Hp as [Hid0 Hp].
  destruct (decide (Z.of_nat i ∈ ids)) as [Hi|Hi], (decide (Z.of_nat i ∈ id :: ids)) as [Hi'|Hi'].
  2: { destruct Hi'. by apply elem_of_cons; right. }
  - rewrite E1. rewrite decide_False; [done|]. intros ->.
    rewrite (NoDup_lookup _ _ _ _ Hnb Hq Hp), Z2Nat.id in Hi by done. done.
  - rewrite E1. apply elem_of_cons in Hi' as [Hi'|?]; [|done].
    subst id. rewrite Nat2Z.id, Hq in Hp. simplify_eq. by rewrite decide_True.
  - rewrite E1. rewrite decide_False; [done|]. intros ->.
    pose proof (NoDup_lookup _ _ _ _ Hnb Hq Hp) as ->.
    apply Hi'. rewrite Z2Nat.id by done. apply elem_of_cons. by left.
Qed.

Section refine.
Context (d : DRAMDevice) (Hd : dev_wf d).

Lemma timing_targets_elem (av : AddrVec_t) (i : Z) :
  i ∈ timing_targets d av <->
  exists p, 0 <= i /\ m_bank_nodes d !! Z.to_nat i = Some p /\ timing_target d av p = true.
Proof. unfold timing_targets. rewrite sel_ids_elem. by rewrite Z.sub_0_r. Qed.

Lemma dev_wf_same_shape (root' : DRAMNode) :
  same_shape (m_root d) root' -> tree_wf (m_spec d) root' -> dev_wf (set_root d root').
Proof.
  intros Hsh Hwf. destruct Hd as [w1 w2 w3 (r & Hr & Hb & Hc) w5 w6 w7].
  constructor; simpl; try done.
  - exists r. split_and!; [done|lia|lia|]. by eapply same_shape_complete.
  - destruct (same_shape_self _ _ Hsh) as [-> _]. done.
  - by rewrite w7, (same_shape_nodes _ _ _ Hsh).
Qed.

Lemma set_root_timing_targets (root' : DRAMNode) (av : AddrVec_t) :
  same_shape (m_root d) root' -> timing_targets (set_root d root') av = timing_targets d av.
Proof.
  intros Hsh. unfold timing_targets. simpl.
  enough (forall i, sel_ids (timing_target (set_root d root') av) i (m_bank_nodes d) =
                    sel_ids (timing_target d av) i (m_bank_nodes d)) as H by apply H.
  induction (m_bank_nodes d) as [|p l IH]; intros i; simpl; [done|]. rewrite !IH.
  unfold timing_target. simpl. by rewrite (visit_proper av _ _ Hsh p p eq_refl).
Qed.

Lemma set_root_addressed (root' : DRAMNode) (c : Z) (av : AddrVec_t) :
  same_shape (m_root d) root' -> addressed d c av -> addressed (set_root d root') c av.
Proof.
  intros Hsh (Hc & Hlen & H). split_and!; [apply Hc|apply Hc|done|]. simpl.
  destruct (vget _ _) as [[]|]; try done. destruct H as [? Hm]. split; [done|].
  unfold matches in *. by destruct (same_shape_self _ _ Hsh) as [-> ->].
Qed.

Lemma update_timing_view (c : Z) (av : AddrVec_t) (clk : Clk_t) (root' : DRAMNode) :
  0 <= c < command_count (m_spec d) -> update_timing (m_spec d) c av clk (m_root d) = Ok root' ->
  same_shape (m_root d) root' /\ tree_wf (m_spec d) root' /\
  forall p x, node_at (m_root d) p = Some x -> exists x', node_at root' p = Some x' /\ view x' = view x.
Proof.
  intros Hc H. pose proof (dw_spec d Hd) as Hs. pose proof (dw_tree d Hd) as Hwf. split_and!.
  - by eapply update_timing_shape.
  - by eapply update_timing_wf.
  - intros p x Hx. destruct (update_timing_at (m_spec d) Hs c av clk _ _ p x Hwf Hc H Hx)
      as (m' & m1 & Hm' & Heff & E & _).
    exists m'. split; [done|]. destruct (local_effect_frame _ _ _ _ _ _ Heff) as [(_ & _ & Hst & Hrow) _].
    rewrite E. unfold view. simpl. by rewrite Hst, Hrow.
Qed.
End refine.

Lemma apply_action_spec (d : DRAMDevice) `{HandlerLaws (m_spec d)} (c : Z) (av : AddrVec_t) (clk : Clk_t) :
  dev_wf d -> addressed d c av ->
  exists d', apply_action d c av clk = Ok d' /\ dev_wf d' /\ same_shape (m_root d) (m_root d') /\
    m_spec d' = m_spec d /\ m_bank_nodes d' = m_bank_nodes d /\ m_bank_level d' = m_bank_level d /\
    forall i v, bank_view d i = Some v ->
      bank_view d' i = Some (if decide (Z.of_nat i ∈ timing_targets d av) then effect c av v else v).
Proof.
  intros Hd Ha. pose proof Ha as (Hc & Hlen & _). unfold apply_action.
  pose proof (tables_wf_length _ (dw_tables d Hd)) as (_ & Hact & _).
  destruct (vget_in_range (actions (funcs (m_spec d))) c) as [[f|] Hf]; [lia| |]; rewrite Hf; simpl.
  2: { exists d. split_and!; try done. intros i v Hv. rewrite (no_action c av v Hf). by case_decide. }
  rewrite (for_each_target_bank_eq d Hd c av _ _ Ha).
  destruct (bank_steps_spec (m_spec d) (m_bank_nodes d) (effect c av) (fun n => f n c av clk)
              (timing_targets d av) (m_root d)) as (root' & Hr & Hwf' & Hsh & Hv).
  - intros n. by apply action_effect.
  - rewrite (dw_banks d Hd). apply nodes_at_level_NoDup.
  - apply sel_ids_NoDup.
  - intros id (p & Hid & Hp & _)%timing_targets_elem.
    destruct (bank_path d Hd p (list_elem_of_lookup_2 _ _ _ Hp)) as (m & Hm & _).
    exists p, m. split; [|done]. by apply vget_Ok.
  - apply (dw_tree d Hd).
  - unfold bank_step in Hr. rewrite Hr. simpl. exists (set_root d root').
    split_and!; try done; [by apply dev_wf_same_shape|].
    intros i v Hi. unfold bank_view in *. simpl in *.
    apply bind_Some in Hi as (p & Hp & (x & Hx & ->)%fmap_Some_1).
    rewrite Hp. simpl. destruct (Hv i p x Hp Hx) as (x' & -> & E). simpl. by rewrite E.
Qed.

Lemma issue_command_spec (d : DRAMDevice) `{HandlerLaws (m_spec d)} (c : Z) (av : AddrVec_t) (clk : Clk_t) :
  dev_wf d -> addressed d c av -> av_ok (m_spec d) av ->
  exists d', issue_command d c av clk = Ok d' /\ dev_wf d' /\ same_shape (m_root d) (m_root d') /\
    m_spec d' = m_spec d /\ m_bank_nodes d' = m_bank_nodes d /\ m_bank_level d' = m_bank_level d /\
    forall i v, bank_view d i = Some v ->
      bank_view d' i = Some (if decide (Z.of_nat i ∈ timing_targets d av) then effect c av v else v).
Proof.
  intros Hd Ha Hav. pose proof Ha as (Hc & _). unfold issue_command.
  destruct (update_timing_ok (m_spec d) (dw_spec d Hd) c av clk (m_root d) (dw_tree d Hd) Hc Hav) as [r1 H1].
  rewrite H1. simpl. destruct (update_timing_view d Hd c av clk r1 Hc H1) as (Hsh & Hwf & Hv).
  destruct (apply_action_spec (set_root d r1) c av clk (dev_wf_same_shape d Hd r1 Hsh Hwf)
              (set_root_addressed d r1 c av Hsh Ha)) as (d' & H2 & Hd' & Hsh' & Es & Eb & El & Hv').
  exists d'. split_and!; [done|done|by etrans; [exact Hsh|]|done|done|done|].
  intros i v Hi. rewrite <- (set_root_timing_targets d r1 av Hsh). apply Hv'.
  unfold bank_view in *. simpl. apply bind_Some in Hi as (p & Hp & (x & Hx & ->)%fmap_Some_1).
  rewrite Hp. simpl. destruct (Hv p x Hx) as (x' & -> & E). simpl. by rewrite E.
Qed.
