(* ===== verification/BankFSM.v ===== *)
(** * Bank state machines of the standards

    The abstract machine of a bank (idle, activating, one open row), the
    discharge of [HandlerLaws] for every device built by a standard's
    constructor, and the refinement between the handlers of [dram/commands/*.h]
    and the machine. *)

From Stdlib Require Import ZArith Lia.
From S2P Require Import Prelude Base Spec Node Timing TimingSpec Commands Standards Device DeviceFacts.

Local Open Scope Z_scope.

(** ** What a command does to a bank *)
Inductive action_kind := KOpen | KActivate | KClose | KNone.

Definition kind_of (name : string) : action_kind :=
  if bool_decide (name ∈ ["ACT"; "ACT2"]) then KOpen
  else if bool_decide (name ∈ ["ACT1"]) then KActivate
  else if bool_decide (name ∈ ["PREpb"; "PREab"; "PREsb"; "RDA"; "WRA"; "RDA_S"; "RDA_L"; "WRA_S"; "WRA_L"])
  then KClose else KNone.

(** The three ways a prerequisite is computed. *)
Inductive preq_kind := PAccess | PClosed (pre : string) | PPrecharge | PActivation | PAlways.

Definition preq_of (name : string) : preq_kind :=
  if bool_decide (name ∈ ["RD"; "WR"; "RDA"; "WRA"; "RD_S"; "RD_L"; "RDA_S"; "RDA_L"; "WR_S"; "WR_L"; "WRA_S"; "WRA_L"])
  then PAccess
  else if bool_decide (name ∈ ["REFab"; "RFMab"]) then PClosed "PREab"
  else if bool_decide (name ∈ ["REFsb"; "RFMsb"]) then PClosed "PREsb"
  else if bool_decide (name ∈ ["REFpb"; "RFMpb"; "VRR"]) then PClosed "PREpb"
  else if bool_decide (name ∈ ["PREpb"]) then PPrecharge
  else if bool_decide (name ∈ ["ACT"; "ACT1"; "ACT2"]) then PActivation
  else PAlways.

(** The properties of an enumeration the handlers rely on. *)
Definition std_okb (T : Standard) : bool :=
  forallb (fun n => bool_decide (is_Some (impl_of T n))) (Command T) &&
  bool_decide (NoDup (Command T)) && bool_decide (NoDup (State T)) && bool_decide (NoDup (Level T)) &&
  forallb (declares (State T)) ["Opened"; "Closed"] &&
  forallb (declares (Level T)) ["Bank"; "Row"] &&
  declares (Command T) "PREpb" &&
  (if declares (Command T) "ACT2"
   then declares (Command T) "ACT1" && declares (State T) "Activating" && negb (declares (Command T) "ACT")
   else declares (Command T) "ACT" && negb (declares (Command T) "ACT1")) &&
  forallb (fun n => match preq_of n with PClosed pre => declares (Command T) pre | _ => true end) (Command T) &&
  (length (std_init_states T) =? length (Level T))%nat &&
  (1 <=? enum (Level T) "Bank") && (enum (Level T) "Bank" <? enum (Level T) "Row") &&
  forallb (declares (State T)) (std_init_states T) &&
  bool_decide (std_init_states T !! Z.to_nat (enum (Level T) "Bank") = Some "Closed").

Lemma registry_ok : forallb std_okb registry = true.
Proof. vm_compute. reflexivity. Qed.

(** ** Enumerators *)
Lemma enum_from_spec (l : list string) (x : string) (i : Z) :
  x ∈ l -> exists k, enum_from i l x = i + Z.of_nat k /\ l !! k = Some x.
Proof.
  revert i. induction l as [|y l IH]; intros i Hx; [by apply elem_of_nil in Hx|]. simpl.
  case_bool_decide as E.
  - subst. exists O. split; [lia|done].
  - apply elem_of_cons in Hx as [->|Hx]; [done|]. destruct (IH (i + 1) Hx) as (k & -> & Hk).
    exists (S k). split; [lia|done].
Qed.

Lemma enum_spec (l : list string) (x : string) :
  x ∈ l -> exists k, enum l x = Z.of_nat k /\ l !! k = Some x.
Proof. intros Hx. destruct (enum_from_spec l x 0 Hx) as (k & E & Hk). by exists k. Qed.

Lemma enum_inj (l : list string) (x y : string) : x ∈ l -> y ∈ l -> enum l x = enum l y -> x = y.
Proof.
  intros (k & -> & Hk)%enum_spec (j & -> & Hj)%enum_spec ->%Nat2Z.inj. by simplify_eq.
Qed.

Lemma enum_lookup (l : list string) (x : string) (k : nat) :
  NoDup l -> l !! k = Some x -> enum l x = Z.of_nat k.
Proof.
  intros Hnd Hk. destruct (enum_spec l x (list_elem_of_lookup_2 _ _ _ Hk)) as (j & -> & Hj).
  by rewrite (NoDup_lookup _ _ _ _ Hnd Hk Hj).
Qed.

Lemma set_names_from_lookup (l : list string) (i : Z) (m : gmap string Z) (x : string) :
  NoDup l -> (x ∈ l -> set_names_from i l m !! x = Some (enum_from i l x)) /\
             (x ∉ l -> set_names_from i l m !! x = m !! x).
Proof.
  revert i m. induction l as [|y l IH]; intros i m Hnd; simpl.
  { split; [by intros ?%elem_of_nil|done]. }
  apply NoDup_cons in Hnd as [Hy Hnd]. destruct (IH (i + 1) (<[y := i]> m) Hnd) as [IH1 IH2].
  rewrite elem_of_cons. split.
  - intros Hx. case_bool_decide as E; [subst|naive_solver]. rewrite IH2 by done. apply lookup_insert_eq.
  - intros Hx. rewrite IH2 by naive_solver. apply lookup_insert_ne. naive_solver.
Qed.

Lemma set_names_lookup (l : list string) (x : string) :
  NoDup l -> x ∈ l -> set_names l !! x = Some (enum l x).
Proof. intros Hnd Hx. by apply set_names_from_lookup. Qed.

(** ** The handlers of a named command *)
Section handlers.
Context (T : Standard).

Lemma impl_handlers (name : string) (i : CmdImpl) :
  impl_of T name = Some i ->
  ci_action i = match kind_of name with
                | KOpen => Some (ACT_action T)
                | KActivate => Some (ACT1_action T)
                | KClose => Some (PREpb_action T)
                | KNone => None
                end /\
  match preq_of name with
  | PAccess => ci_preq i = Some (RD_preq T)
  | PClosed pre => ci_preq i = Some (close_preq T pre)
  | PPrecharge => ci_preq i = Some (PREpb_preq T)
  | PActivation => ci_preq i ∈ [Some (ACT_preq T); Some (ACT1_preq T); Some (ACT2_preq T)]
  | PAlways => ci_preq i = None
  end /\
  (forall pre, preq_of name = PClosed pre -> exists j, impl_of T pre = Some j /\ ci_bank_target j = ci_bank_target i) /\
  (preq_of name ∈ [PAccess; PPrecharge; PActivation] -> ci_bank_target i = Single).
Proof.
  unfold impl_of. intros H. apply fmap_Some in H as ([n i'] & Hf & ->).
  apply find_some in Hf as [Hin Hn]. simpl in Hn. apply bool_decide_eq_true in Hn. subst n.
  simpl in Hin. repeat destruct Hin as [Hin|Hin]; try done; simplify_eq;
    (split_and!; [done|first [done|set_solver]| |]; [intros pre [= <-] || (intros pre; done)|]; try done;
     try (eexists; split; reflexivity); intros ?; exfalso; set_solver).
Qed.

(** The effect of a command on the state of a bank, by kind. *)
Definition kind_effect (k : action_kind) (av : AddrVec_t) (v : bank_state) : bank_state :=
  match k with
  | KOpen => match vget av (T_Row T) with
             | Ok row => (T_Opened T, <[row := T_Opened T]> v.2)
             | Err _ => v
             end
  | KActivate => (T_Activating T, v.2)
  | KClose => (T_Closed T, ∅)
  | KNone => v
  end.

Definition effect_of (c : Z) (av : AddrVec_t) (v : bank_state) : bank_state :=
  match Command T !! Z.to_nat c with Some name => kind_effect (kind_of name) av v | None => v end.

Context (Hok : std_okb T = true).

Lemma std_ok_parts :
  (forall n, n ∈ Command T -> is_Some (impl_of T n)) /\
  NoDup (Command T) /\ NoDup (State T) /\ NoDup (Level T) /\
  ("Opened" ∈ State T /\ "Closed" ∈ State T) /\ ("Bank" ∈ Level T /\ "Row" ∈ Level T) /\
  "PREpb" ∈ Command T /\
  (if declares (Command T) "ACT2"
   then "ACT1" ∈ Command T /\ "Activating" ∈ State T /\ "ACT" ∉ Command T
   else "ACT" ∈ Command T /\ "ACT1" ∉ Command T) /\
  (forall n pre, n ∈ Command T -> preq_of n = PClosed pre -> pre ∈ Command T) /\
  length (std_init_states T) = length (Level T) /\
  1 <= enum (Level T) "Bank" < enum (Level T) "Row" /\
  std_init_states T !! Z.to_nat (enum (Level T) "Bank") = Some "Closed".
Proof.
  unfold std_okb in Hok. rewrite !andb_true_iff, !forallb_forall in Hok.
  destruct Hok as (((((((((((((H1 & H2) & H3) & H4) & H5) & H6) & H7) & H8) & H9) & H10) & H11) & H12) & _) & H14).
  unfold declares in *. rewrite !bool_decide_eq_true in *. split_and!; try done; try lia.
  - intros n Hn. apply list_elem_of_In, H1, bool_decide_eq_true in Hn. done.
  - apply (bool_decide_eq_true _), H5. simpl; auto.
  - apply (bool_decide_eq_true _), H5. simpl; auto.
  - apply (bool_decide_eq_true _), H6. simpl; auto.
  - apply (bool_decide_eq_true _), H6. simpl; auto.
  - case_bool_decide; rewrite ?andb_true_iff, ?negb_true_iff, ?bool_decide_eq_true, ?bool_decide_eq_false in H8;
      naive_solver.
  - intros n pre Hn%list_elem_of_In Hp. specialize (H9 n Hn). rewrite Hp in H9.
    by apply bool_decide_eq_true in H9.
  - by apply Nat.eqb_eq in H10.
Qed.

Lemma omap_total {A B} (f : A -> option B) (l : list A) (k : nat) :
  (forall x, x ∈ l -> is_Some (f x)) -> omap f l !! k = (l !! k ≫= f).
Proof.
  revert k. induction l as [|x l IH]; intros k Hf; [done|]. simpl.
  destruct (Hf x) as [y Hy]; [set_solver|]. rewrite Hy. destruct k; simpl; [by rewrite Hy|].
  apply IH. set_solver.
Qed.

Lemma impl_lookup {A} (g : CmdImpl -> A) (c : Z) (y : A) :
  vget (map g (CommandImpls T)) c = Ok y <->
  exists name i, 0 <= c /\ Command T !! Z.to_nat c = Some name /\ impl_of T name = Some i /\ y = g i.
Proof.
  rewrite vget_Ok, list_lookup_fmap. unfold CommandImpls.
  destruct std_ok_parts as (Hi & _). rewrite omap_total by done. split.
  - intros (Hc & (i & Hl & ->)%fmap_Some). apply bind_Some in Hl as (name & ? & ?). by exists name, i.
  - intros (name & i & Hc & Hn & Hi' & ->). rewrite Hn. simpl. by rewrite Hi'.
Qed.

Lemma length_impls : length (CommandImpls T) = length (Command T).
Proof.
  destruct std_ok_parts as (Hi & _). unfold CommandImpls. induction (Command T) as [|n l IH]; simpl; [done|].
  destruct (Hi n) as [y ->]; [set_solver|]. simpl. f_equal. apply IH. set_solver.
Qed.

(** What the constructor of a standard fixes. *)
Record built_from (s : DRAMSpec) : Prop := mkBuiltFrom {
  bf_levels : levels s = set_names (Level T);
  bf_commands : commands s = set_names (Command T);
  bf_level_count : level_count s = Z.of_nat (length (Level T));
  bf_command_count : command_count s = Z.of_nat (length (Command T));
  bf_targets : bank_targets s = map ci_bank_target (CommandImpls T);
  bf_actions : actions (funcs s) = map ci_action (CommandImpls T);
  bf_preqs : preqs (funcs s) = map ci_preq (CommandImpls T);
  bf_rowhits : rowhits (funcs s) = map ci_rowhit (CommandImpls T);
  bf_rowopens : rowopens (funcs s) = map ci_rowopen (CommandImpls T);
  bf_init : init_states s = map (enum (State T)) (std_init_states T)
}.

Lemma construct_built (cfg : DramConfig) (s : DRAMSpec) : construct T cfg = Ok s -> built_from s.
Proof.
  unfold construct, load_config. simpl. intros (ch & _ & H)%bind_Ok. destruct (negb _); [done|].
  apply bind_Ok in H as (tc & _ & H). by injection H as <-.
Qed.

Lemma T_Row_range : 0 <= T_Row T < Z.of_nat (length (Level T)).
Proof.
  destruct std_ok_parts as (_ & _ & _ & _ & _ & [_ HR] & _).
  destruct (enum_spec _ _ HR) as (k & Hk & Hl%lookup_lt_Some). unfold T_Row. lia.
Qed.

Lemma access_preq_view (av : AddrVec_t) (c clk : Z) (n n' : DRAMNode) :
  view n = view n' ->
  ACT_preq T n c av clk = ACT_preq T n' c av clk /\ ACT1_preq T n c av clk = ACT1_preq T n' c av clk /\
  ACT2_preq T n c av clk = ACT2_preq T n' c av clk.
Proof. intros [= E1 E2]. unfold ACT_preq, ACT1_preq, ACT2_preq, row_is_open. by rewrite E1, E2. Qed.
End handlers.

(** The handlers of every standard meet the device's interface. *)
Definition construct_laws (T : Standard) (s : DRAMSpec) (Hok : std_okb T = true) (Hs : built_from T s)
  : HandlerLaws s.
Proof.
  refine (mkHandlerLaws s (effect_of T) _ _ _).
  - intros c f av clk n Hf Hlen. rewrite (bf_actions T s Hs) in Hf.
    apply impl_lookup in Hf as (name & i & Hc & Hn & Hi & Hf); [|done].
    destruct (impl_handlers T name i Hi) as (Ha & _). rewrite Ha in Hf. unfold effect_of. rewrite Hn.
    pose proof (T_Row_range T Hok) as HR. rewrite (bf_level_count T s Hs) in Hlen.
    destruct (vget_in_range av (T_Row T)) as [row Hrow]; [lia|].
    destruct (kind_of name); simplify_eq; simpl; try done.
    unfold ACT_action. by rewrite Hrow.
  - intros c av v Hf. rewrite (bf_actions T s Hs) in Hf.
    apply impl_lookup in Hf as (name & i & Hc & Hn & Hi & Hf); [|done].
    destruct (impl_handlers T name i Hi) as (Ha & _). rewrite Ha in Hf. unfold effect_of. rewrite Hn.
    by destruct (kind_of name).
  - intros c f av clk n n' Hf E. rewrite (bf_preqs T s Hs) in Hf.
    apply impl_lookup in Hf as (name & i & Hc & Hn & Hi & Hf); [|done].
    destruct (impl_handlers T name i Hi) as (_ & Hp & _). rewrite <- Hf in Hp.
    pose proof (access_preq_view T av c clk n n' E) as (E1 & E2 & E3).
    pose proof E as [= Est _].
    destruct (preq_of name); simplify_eq; unfold RD_preq, close_preq, PREpb_preq; rewrite ?Est, ?E1, ?E3; try done.
    set_solver.
Defined.

(** ** The abstract bank *)
Inductive bank_abs := Idle | Activating | Active (row : Z).

#[export] Instance bank_abs_eq_dec : EqDecision bank_abs.
Proof. solve_decision. Defined.

Section fsm.
Context (T : Standard) (Hok : std_okb T = true).

Definition split_act : bool := declares (Command T) "ACT2".

(** The concrete state that represents an abstract one: an open bank has exactly
    one open row. *)
Definition rel (v : bank_state) (a : bank_abs) : Prop :=
  match a with
  | Idle => v = (T_Closed T, ∅)
  | Activating => v = (T_Activating T, ∅) /\ split_act = true
  | Active r => v = (T_Opened T, {[r := T_Opened T]})
  end.

(** The next command towards [name] on row [row]. *)
Definition abs_preq (a : bank_abs) (row : Z) (name : string) : string :=
  match preq_of name with
  | PAccess =>
      match a with
      | Idle => if split_act then "ACT1" else "ACT"
      | Activating => "ACT2"
      | Active r => if decide (r = row) then name else "PREpb"
      end
  | PClosed pre => if decide (a = Idle) then name else pre
  | _ => name
  end.

Definition abs_step (a : bank_abs) (row : Z) (name : string) : bank_abs :=
  match kind_of name with
  | KOpen => Active row
  | KActivate => Activating
  | KClose => Idle
  | KNone => a
  end.

(** When a command may reach a bank. *)
Definition legal (a : bank_abs) (row : Z) (name : string) : Prop :=
  match kind_of name with
  | KOpen => match a with Active r => r = row | _ => True end
  | KActivate => match a with Active _ => False | _ => split_act = true end
  | _ => True
  end.

Lemma states_distinct :
  T_Opened T <> T_Closed T /\
  (split_act = true -> T_Activating T <> T_Closed T /\ T_Activating T <> T_Opened T).
Proof.
  destruct (std_ok_parts T Hok) as (_ & _ & _ & _ & [HO HC] & _ & _ & HA & _).
  unfold split_act. split; [intros E%enum_inj; done|]. intros Hs. rewrite Hs in HA. destruct HA as (_ & HA & _).
  split; intros E%enum_inj; done.
Qed.

Lemma eqb_neq_false (x y : Z) : x <> y -> (x =? y) = false.
Proof. apply Z.eqb_neq. Qed.

Lemma access_preq_abs (n : DRAMNode) (a : bank_abs) (c row clk : Z) (av : AddrVec_t) :
  rel (view n) a -> vget av (T_Row T) = Ok row ->
  RD_preq T n c av clk =
  Ok (match a with
      | Idle => T_cmd T (if split_act then "ACT1" else "ACT")
      | Activating => T_cmd T "ACT2"
      | Active r => if decide (r = row) then c else T_cmd T "PREpb"
      end).
Proof.
  intros Hr Hrow. destruct states_distinct as (D1 & D2). unfold RD_preq, ACT_preq, ACT2_preq, row_is_open.
  rewrite Hrow. fold split_act. destruct a as [| |r]; simpl in Hr.
  - injection Hr as -> _. rewrite Z.eqb_refl. by destruct split_act.
  - destruct Hr as [[= -> _] Hs]. destruct (D2 Hs) as [E1 E2]. rewrite Hs.
    by rewrite (eqb_neq_false _ _ E1), Z.eqb_refl.
  - injection Hr as Est Erow. rewrite Est, Erow, (eqb_neq_false _ _ D1), Z.eqb_refl. simpl.
    assert (bool_decide (is_Some (({[r := T_Opened T]} : gmap Z Z) !! row)) = bool_decide (r = row)) as ->.
    { apply bool_decide_ext. rewrite lookup_singleton_is_Some. done. }
    assert ((if T_Opened T =? T_Activating T then true else false) = true -> split_act = true -> False).
    { intros E Hs. destruct (D2 Hs) as [_ E2]. destruct (Z.eqb_spec (T_Opened T) (T_Activating T)); congruence. }
    destruct split_act; case_bool_decide; [rewrite decide_True by done|rewrite decide_False by done| |];
      try (rewrite decide_True by done); try (rewrite decide_False by done);
      destruct (T_Opened T =? T_Activating T); try done; naive_solver.
Qed.

(** The handlers compute the abstract prerequisite. *)
Lemma preq_refines (name : string) (i : CmdImpl) (f : PreqFunc_t) (n : DRAMNode) (a : bank_abs)
  (row clk : Z) (av : AddrVec_t) :
  impl_of T name = Some i -> ci_preq i = Some f -> preq_of name <> PActivation ->
  rel (view n) a -> vget av (T_Row T) = Ok row ->
  f n (T_cmd T name) av clk = Ok (T_cmd T (abs_preq a row name)).
Proof.
  intros Hi Hf Hact Hr Hrow. destruct (impl_handlers T name i Hi) as (_ & Hp & _). rewrite Hf in Hp.
  unfold abs_preq. destruct (preq_of name) as [|pre| | |] eqn:Hname; try done; simplify_eq.
  - rewrite (access_preq_abs n a _ row clk av Hr Hrow). f_equal. destruct a; try done. by case_decide.
  - destruct states_distinct as (D1 & D2). unfold close_preq.
    destruct a as [| |r]; simpl in Hr.
    + injection Hr as -> _. by rewrite Z.eqb_refl, decide_True.
    + destruct Hr as [[= -> _] Hs]. destruct (D2 Hs) as [E1 _].
      rewrite (eqb_neq_false _ _ E1), decide_False; done.
    + injection Hr as -> _. rewrite (eqb_neq_false _ _ D1), decide_False; done.
  - unfold PREpb_preq. assert (name = "PREpb") as ->; [|by destruct (_ =? _)].
    unfold preq_of in Hname. repeat case_bool_decide; try done. set_solver.
Qed.

(** A legal command keeps the representation. *)
Lemma step_refines (name : string) (v : bank_state) (a : bank_abs) (row : Z) (av : AddrVec_t) :
  rel v a -> legal a row name -> vget av (T_Row T) = Ok row ->
  rel (kind_effect T (kind_of name) av v) (abs_step a row name).
Proof.
  unfold legal, abs_step, kind_effect. intros Hr Hl Hrow. destruct (kind_of name); simpl; [rewrite Hrow| |done|done].
  - destruct a as [| |r]; simpl in Hr; [by subst|destruct Hr as [-> _]; done|]. subst v r. simpl.
    f_equal. apply insert_singleton_eq.
  - destruct a as [| |r]; simpl in Hr; [by subst|destruct Hr as [-> ?]; done|done].
Qed.

Lemma close_legal (a : bank_abs) (row : Z) (name pre : string) :
  preq_of name = PClosed pre -> legal a row pre /\ kind_of pre = KClose.
Proof. unfold preq_of. repeat case_bool_decide; intros E; simplify_eq; done. Qed.

Lemma close_neq (name pre : string) : preq_of name = PClosed pre -> pre <> name.
Proof. intros H <-. unfold preq_of in H. repeat case_bool_decide; simplify_eq; set_solver. Qed.

Lemma abs_preq_legal (a : bank_abs) (row : Z) (name : string) (v : bank_state) :
  preq_of name <> PActivation -> rel v a -> legal a row (abs_preq a row name).
Proof.
  intros Hact Hr. unfold abs_preq. destruct (preq_of name) as [|pre| | |] eqn:E; try done.
  - destruct a as [| |r]; [unfold legal; by destruct split_act eqn:?|done|].
    case_decide; [|done]. unfold legal. subst. destruct (kind_of name) eqn:Hk; try done.
    unfold kind_of in Hk. repeat case_bool_decide; try done. set_solver.
  - case_decide; unfold preq_of in E; repeat case_bool_decide; simplify_eq; try done; set_solver.
  - unfold preq_of in E. repeat case_bool_decide; simplify_eq; try done; set_solver.
  - unfold preq_of in E. unfold legal, kind_of. repeat case_bool_decide; simplify_eq; try done; set_solver.
Qed.
End fsm.

(** ** The device as an array of abstract banks

    Lifts the bank refinement through the dispatch of [DeviceFacts.v]: [get_preq_command] and [issue_command] implement the
    abstract banks, a device driven through prerequisites keeps at most one row
    open per bank, and prerequisite resolution terminates. *)
(** ** The initial device *)
Definition fresh_bank (s : DRAMSpec) (n : DRAMNode) : Prop :=
  vget (init_states s) (m_level n) = Ok (m_state n) /\ m_row_state n = ∅.

Lemma make_node_fresh (fuel : nat) (s : DRAMSpec) (l id : Z) (n : DRAMNode) :
  make_node fuel s l id = Ok n -> tree_all (fresh_bank s) n.
Proof.
  revert l id n. induction fuel as [|fuel IH]; intros l id n H; [done|]. simpl in H.
  apply bind_Ok in H as (cells & _ & H). apply bind_Ok in H as (st & Hst & H).
  apply bind_Ok in H as (r & _ & H). destruct (l + 1 =? r).
  { simplify_eq. by apply tree_all_intro. }
  apply bind_Ok in H as (size & _ & H). destruct (size =? 0).
  { simplify_eq. by apply tree_all_intro. }
  apply bind_Ok in H as (cs & Hcs%mapM_Ok & H). simplify_eq. apply tree_all_intro; [done|].
  simpl. intros i c Hi. destruct (Forall2_lookup_r _ _ _ _ _ Hcs Hi) as (z & _ & Hz). by eapply IH.
Qed.

Lemma init_wf (s : DRAMSpec) (d : DRAMDevice) :
  spec_wfb s = true -> org_wfb s = true -> tables_wfb s = true -> bank_levels_okb s = true ->
  init s = Ok d -> dev_wf d /\ m_spec d = s /\ levels s !! "Bank" = Some (m_bank_level d) /\
                   tree_all (fresh_bank s) (m_root d).
Proof.
  intros Hs Ho Ht Hb H. unfold init in H.
  apply bind_Ok in H as (b & Hbl & H). apply bind_Ok in H as (root & Hroot & H). injection H as <-.
  unfold get_level_id in Hbl. destruct (levels s !! "Bank") as [b'|] eqn:Eb; [|done]. injection Hbl as ->.
  destruct (org_wf_parts s Ho) as (r & Hr & Hrange & _).
  unfold bank_levels_okb in Hb. rewrite Eb, Hr in Hb.
  destruct (make_node_spec s Hs Ho _ r 0 0 root Hr ltac:(lia) Hroot) as (Hl & _ & Hwf & _).
  split_and!; simpl; [|done|done|by eapply make_node_fresh].
  constructor; simpl; try done. exists r. split_and!; [done|lia|lia|by eapply make_node_complete].
Qed.

(** ** Devices that represent an array of abstract banks *)
Definition dev_rel (T : Standard) (d : DRAMDevice) (A : list bank_abs) : Prop :=
  length A = length (m_bank_nodes d) /\
  forall i v a, bank_view d i = Some v -> A !! i = Some a -> rel T v a.

Definition abs_get_preq (T : Standard) (A : list bank_abs) (ids : list Z) (row : Z) (name : string) : string :=
  let q i := match A !! Z.to_nat i with Some a => abs_preq T a row name | None => name end in
  match List.find (fun i => negb (bool_decide (q i = name))) ids with Some i => q i | None => name end.

Definition abs_issue (A : list bank_abs) (ids : list Z) (row : Z) (name : string) : list bank_abs :=
  imap (fun i a => if decide (Z.of_nat i ∈ ids) then abs_step a row name else a) A.

(** The loop of [get_preq_command] with its early exit. *)
Lemma visit_banks_first (sel : node_ptr -> result bool) (selb : node_ptr -> bool) (g : Z -> Z) (c : Z)
  (visitor : Z -> Z -> result (Z * bool)) (l : list node_ptr) (i : Z) :
  (forall p, p ∈ l -> sel p = Ok (selb p)) ->
  (forall k p, l !! k = Some p -> selb p = true ->
     visitor c (i + Z.of_nat k) =
     Ok (if negb (g (i + Z.of_nat k) =? c) then (g (i + Z.of_nat k), false) else (c, true))) ->
  (r ← visit_banks sel visitor c i l; Ok r.1) =
  Ok (match List.find (fun j => negb (g j =? c)) (sel_ids selb i l) with Some j => g j | None => c end).
Proof.
  revert i. induction l as [|p l IH]; intros i Hsel Hv; [done|]. cbn [visit_banks sel_ids].
  rewrite (Hsel p) by set_solver. simpl.
  assert (IH' : (r ← visit_banks sel visitor c (i + 1) l; Ok r.1) =
    Ok (match List.find (fun j => negb (g j =? c)) (sel_ids selb (i + 1) l) with Some j => g j | None => c end)).
  { apply IH; [intros; apply Hsel; set_solver|]. intros k q Hk Hq.
    specialize (Hv (S k) q Hk Hq). by replace (i + Z.of_nat (S k)) with (i + 1 + Z.of_nat k) in Hv by lia. }
  destruct (selb p) eqn:Hp; [|exact IH'].
  pose proof (Hv O p eq_refl Hp) as H0. replace (i + Z.of_nat 0) with i in H0 by lia. rewrite H0. simpl.
  destruct (negb (g i =? c)); [done|exact IH'].
Qed.

Section device.
Context (T : Standard) (Hok : std_okb T = true).

(** A device of this standard: the invariant shared by the lemmas below. *)
Record dev_of (d : DRAMDevice) : Prop := mkDevOf {
  do_wf : dev_wf d;
  do_std : built_from T (m_spec d)
}.

Context (d : DRAMDevice) (Hd : dev_of d).

Lemma bank_view_ok (i : Z) (p : node_ptr) :
  0 <= i -> m_bank_nodes d !! Z.to_nat i = Some p ->
  exists n, node_at (m_root d) p = Some n /\ bank_view d (Z.to_nat i) = Some (view n).
Proof.
  intros Hi Hp. destruct (bank_path d (do_wf d Hd) p (list_elem_of_lookup_2 _ _ _ Hp)) as (n & Hn & _).
  exists n. unfold bank_view. by rewrite Hp; simpl; rewrite Hn.
Qed.

(** A command of the standard, by name. *)
Lemma command_impl (c : Z) :
  0 <= c < command_count (m_spec d) ->
  exists name i, Command T !! Z.to_nat c = Some name /\ impl_of T name = Some i /\ c = T_cmd T name /\
    vget (bank_targets (m_spec d)) c = Ok (ci_bank_target i) /\
    vget (preqs (funcs (m_spec d))) c = Ok (ci_preq i).
Proof.
  intros Hc. rewrite (bf_command_count T _ (do_std d Hd)) in Hc.
  destruct (lookup_lt_is_Some_2 (Command T) (Z.to_nat c)) as [name Hn]; [lia|].
  destruct (std_ok_parts T Hok) as (Hi & Hnd & _).
  destruct (Hi name (list_elem_of_lookup_2 _ _ _ Hn)) as [i Hi']. exists name, i.
  rewrite (bf_targets T _ (do_std d Hd)), (bf_preqs T _ (do_std d Hd)), !impl_lookup by done.
  split_and!; [done|done| |by exists name, i; split_and!; [lia|..]|by exists name, i; split_and!; [lia|..]].
  unfold T_cmd. rewrite (enum_lookup _ _ _ Hnd Hn). lia.
Qed.

Lemma T_cmd_range (name : string) :
  name ∈ Command T -> 0 <= T_cmd T name < command_count (m_spec d) /\
    Command T !! Z.to_nat (T_cmd T name) = Some name.
Proof.
  intros Hn. rewrite (bf_command_count T _ (do_std d Hd)).
  destruct (enum_spec _ _ Hn) as (k & E & Hk). unfold T_cmd. rewrite E, Nat2Z.id. split; [|done].
  apply lookup_lt_Some in Hk. lia.
Qed.

Lemma row_coord (av : AddrVec_t) :
  level_count (m_spec d) <= Z.of_nat (length av) -> is_ok (vget av (T_Row T)).
Proof.
  rewrite (bf_level_count T _ (do_std d Hd)). intros Hlen. pose proof (T_Row_range T Hok).
  apply vget_in_range. lia.
Qed.

Lemma target_bank (A : list bank_abs) (av : AddrVec_t) (i : Z) :
  dev_rel T d A -> i ∈ timing_targets d av ->
  exists p n a, vget (m_bank_nodes d) i = Ok p /\ deref d p = Ok n /\ A !! Z.to_nat i = Some a /\
    bank_view d (Z.to_nat i) = Some (view n) /\ rel T (view n) a.
Proof.
  intros [Hlen HA] (p & Hi & Hp & _)%timing_targets_elem.
  destruct (bank_view_ok i p Hi Hp) as (n & Hn & Hv).
  destruct (lookup_lt_is_Some_2 A (Z.to_nat i)) as [a Ha].
  { rewrite Hlen. by eapply lookup_lt_Some. }
  exists p, n, a. split_and!; [by apply vget_Ok|unfold deref; by rewrite Hn|done|done|by eapply HA].
Qed.

Lemma addressed_sel (c : Z) (av : AddrVec_t) (visitor : Z -> Z -> result (Z * bool)) (g : Z -> Z) :
  addressed d c av ->
  (forall i, i ∈ timing_targets d av ->
     visitor c i = Ok (if negb (g i =? c) then (g i, false) else (c, true))) ->
  (r ← for_each_target_bank_while d c av visitor c; Ok r.1) =
  Ok (match List.find (fun j => negb (g j =? c)) (timing_targets d av) with Some j => g j | None => c end).
Proof.
  intros (Hc & Hlen & Hscope) Hv. pose proof (do_wf d Hd) as Hw. unfold for_each_target_bank_while.
  pose proof (tables_wf_length _ (dw_tables d Hw)) as (Hbt & _).
  destruct (vget_in_range (bank_targets (m_spec d)) c) as [t Ht]; [lia|]. rewrite Ht in Hscope |- *. simpl.
  assert (Hv' : forall k p, m_bank_nodes d !! k = Some p -> timing_target d av p = true ->
     visitor c (0 + Z.of_nat k) =
     Ok (if negb (g (0 + Z.of_nat k) =? c) then (g (0 + Z.of_nat k), false) else (c, true))).
  { intros k p Hk Hp. apply Hv, timing_targets_elem. exists p. rewrite Z.add_0_l, Nat2Z.id. split_and!; [lia|done|done]. }
  destruct t.
  - destruct Hscope as [Hav Hroot]. destruct (flat_bank d Hw av Hav) as (id & Hid & _).
    pose proof (timing_targets_single d Hw av id Hav Hroot Hid) as E.
    rewrite Hid. simpl. rewrite (Hv (Z.of_nat id)) by (rewrite E; set_solver). rewrite E. simpl.
    by destruct (negb _).
  - apply (visit_banks_first _ (timing_target d av)); [|done]. intros p Hp.
    destruct (bank_path d Hw p Hp) as (m & Hm & _). by rewrite (bank_matches_visit d p av m (dw_tree d Hw)).
  - destruct (dw_levels d Hw) as (r & Hr & Hb & _). destruct (org_wf_parts _ (dw_org d Hw)) as (r' & Hr' & ? & _).
    rewrite Hr in Hr'. simplify_eq.
    destruct (vget_in_range av (m_bank_level d)) as [a Ha]; [lia|]. rewrite Ha in Hscope |- *. simpl.
    apply (visit_banks_first _ (timing_target d av)); [|done]. intros p Hp.
    apply same_bank_sel_eq; [done|done|done|congruence|done].
Qed.

Lemma abs_preq_declared (a : bank_abs) (row : Z) (name : string) (v : bank_state) (i : CmdImpl) :
  name ∈ Command T -> impl_of T name = Some i -> preq_of name <> PActivation -> rel T v a ->
  abs_preq T a row name ∈ Command T /\
  exists j, impl_of T (abs_preq T a row name) = Some j /\ ci_bank_target j = ci_bank_target i.
Proof.
  intros Hn Hi Hact Hr. destruct (std_ok_parts T Hok) as (_ & _ & _ & _ & _ & _ & Hpre & Hsplit & Hcl & _).
  destruct (impl_handlers T name i Hi) as (_ & _ & Hpt & Hst). unfold abs_preq.
  destruct (preq_of name) as [|pre| | |] eqn:E; try (split; [done|by exists i]).
  - rewrite (Hst ltac:(set_solver)). fold (split_act T) in Hsplit. destruct a as [| |r].
    + destruct (split_act T); (split; [apply Hsplit|eexists; split; reflexivity]).
    + destruct Hr as [_ Hs]. split; [|eexists; split; reflexivity]. unfold split_act, declares in Hs.
      by apply bool_decide_eq_true in Hs.
    + case_decide; split; try done; [exists i; split; [done|]|eexists; split; reflexivity]. apply Hst. set_solver.
  - case_decide; [split; [done|by exists i]|]. split; [by apply (Hcl name)|by apply Hpt].
Qed.

Lemma get_preq_abs (A : list bank_abs) (name : string) (av : AddrVec_t) (row clk : Z) :
  dev_rel T d A -> name ∈ Command T -> addressed d (T_cmd T name) av -> preq_of name <> PActivation ->
  vget av (T_Row T) = Ok row ->
  get_preq_command d (T_cmd T name) av clk =
  Ok (T_cmd T (abs_get_preq T A (timing_targets d av) row name)).
Proof.
  intros HA Hn Ha Hact Hrow. destruct (T_cmd_range name Hn) as [Hrange Hlk].
  destruct (command_impl _ Hrange) as (name' & i & Hlk' & Hi & _ & _ & Hp).
  rewrite Hlk in Hlk'. injection Hlk' as <-. unfold get_preq_command. rewrite Hp. simpl.
  set (q := fun j => match A !! Z.to_nat j with Some a => abs_preq T a row name | None => name end).
  assert (Hfind : forall ids, (forall j, j ∈ ids -> j ∈ timing_targets d av) ->
    match List.find (fun j => negb (T_cmd T (q j) =? T_cmd T name)) ids with
    | Some j => T_cmd T (q j) | None => T_cmd T name end =
    T_cmd T (match List.find (fun j => negb (bool_decide (q j = name))) ids with Some j => q j | None => name end)).
  { induction ids as [|j ids IH]; intros Hids; simpl; [done|].
    destruct (target_bank A av j HA (Hids j ltac:(set_solver))) as (p & n & a & _ & _ & Hja & _ & Hr).
    assert (q j ∈ Command T) as Hq. { unfold q. rewrite Hja. by eapply abs_preq_declared. }
    assert ((T_cmd T (q j) =? T_cmd T name) = bool_decide (q j = name)) as ->.
    { case_bool_decide as E; [rewrite E; lia|]. apply Z.eqb_neq. intros E'. by apply E, (enum_inj _ _ _ Hq Hn). }
    destruct (negb _); [done|]. apply IH. set_solver. }
  change (abs_get_preq T A (timing_targets d av) row name) with
    (match List.find (fun j => negb (bool_decide (q j = name))) (timing_targets d av) with
     | Some j => q j | None => name end).
  rewrite <- (Hfind (timing_targets d av)) by done.
  destruct (ci_preq i) as [f|] eqn:Ef.
  - apply (addressed_sel _ _ _ (fun j => T_cmd T (q j))); [done|]. intros j Hj.
    destruct (target_bank A av j HA Hj) as (p & n & a & Hp' & Hn' & Hja & _ & Hr). rewrite Hp'. simpl. rewrite Hn'. simpl.
    rewrite (preq_refines T Hok name i f n a row clk av Hi Ef Hact Hr Hrow). simpl. unfold q. rewrite Hja.
    by destruct (negb _).
  - destruct (impl_handlers T name i Hi) as (_ & Hpk & _). rewrite Ef in Hpk.
    assert (forall j, q j = name) as Hq.
    { intros j. unfold q. destruct (A !! Z.to_nat j); [|done]. unfold abs_preq. by destruct (preq_of name). }
    f_equal. destruct (List.find _ _) as [j|]; [by rewrite Hq|done].
Qed.

Lemma bank_view_lt (i : nat) (v : bank_state) : bank_view d i = Some v -> (i < length (m_bank_nodes d))%nat.
Proof. unfold bank_view. intros (p & Hp & _)%bind_Some. by eapply lookup_lt_Some. Qed.

Lemma issue_abs (A : list bank_abs) (name : string) (av : AddrVec_t) (row clk : Z) :
  dev_rel T d A -> name ∈ Command T -> addressed d (T_cmd T name) av -> av_ok (m_spec d) av ->
  vget av (T_Row T) = Ok row ->
  (forall i a, i ∈ timing_targets d av -> A !! Z.to_nat i = Some a -> legal T a row name) ->
  exists d', issue_command d (T_cmd T name) av clk = Ok d' /\ dev_of d' /\
    dev_rel T d' (abs_issue A (timing_targets d av) row name) /\
    timing_targets d' av = timing_targets d av /\
    (forall c av', addressed d c av' -> addressed d' c av') /\ m_spec d' = m_spec d /\
    m_bank_nodes d' = m_bank_nodes d /\ m_bank_level d' = m_bank_level d.
Proof.
  intros HA Hn Ha Hav Hrow Hlegal. pose proof (do_wf d Hd) as Hw. pose proof (do_std d Hd) as Hs.
  destruct (T_cmd_range name Hn) as [Hrange Hlk].
  destruct (@issue_command_spec d (construct_laws T (m_spec d) Hok Hs) (T_cmd T name) av clk Hw Ha Hav)
    as (d' & Hd' & Hw' & Hsh & Es & Eb & El & Hv).
  exists d'. assert (Hd'' : d' = set_root d (m_root d')) by (unfold set_root; destruct d'; simpl in *; congruence).
  split_and!; try done; [constructor; [done|by rewrite Es]| |
    by rewrite Hd'', set_root_timing_targets |intros c av' Hc; rewrite Hd''; by apply set_root_addressed].
  destruct HA as [Hlen HA]. split; [unfold abs_issue; by rewrite length_imap, Eb|].
  intros i v' a' Hv' Ha'. unfold abs_issue in Ha'. rewrite list_lookup_imap in Ha'.
  destruct (A !! i) as [a|] eqn:Ei; simpl in Ha'; [|done]. injection Ha' as <-.
  destruct (bank_view_ok (Z.of_nat i) (default [] (m_bank_nodes d !! i))) as (n & _ & Hvi).
  { lia. } { rewrite Nat2Z.id. apply lookup_lt_Some in Ei. rewrite Hlen in Ei.
             destruct (lookup_lt_is_Some_2 _ _ Ei) as [p Hp]. by rewrite Hp. }
  rewrite Nat2Z.id in Hvi. rewrite (Hv i _ Hvi) in Hv'. injection Hv' as <-. simpl.
  case_decide as Hi; [|by eapply HA]. unfold effect_of. rewrite Hlk.
  apply step_refines; [by eapply HA| |done]. apply (Hlegal (Z.of_nat i)); [done|]. by rewrite Nat2Z.id.
Qed.
End device.

(** ** Commands issued through their prerequisites *)

(** What the controllers do with a request: ask for the prerequisite of its
    final command, issue it, and ask again. *)
Fixpoint resolve (fuel : nat) (d : DRAMDevice) (final : Z) (av : AddrVec_t) (clk : Clk_t)
  : result (list Z * DRAMDevice) :=
  match fuel with
  | O => Err OutOfFuel
  | S fuel =>
      c ← get_preq_command d final av clk;
      if c =? final then Ok ([], d)
      else
        d' ← issue_command d c av clk;
        r ← resolve fuel d' final av (clk + 1);
        Ok (c :: r.1, r.2)
  end.

(** The devices that such a driver can reach from a fresh one. *)
Inductive reachable (T : Standard) (s : DRAMSpec) : DRAMDevice -> Prop :=
| reachable_init d : init s = Ok d -> reachable T s d
| reachable_step d d' name av clk c :
    reachable T s d -> name ∈ Command T -> preq_of name <> PActivation ->
    addressed d (T_cmd T name) av -> av_ok s av ->
    get_preq_command d (T_cmd T name) av clk = Ok c ->
    issue_command d c av clk = Ok d' -> reachable T s d'.

Section driver.
Context (T : Standard) (Hok : std_okb T = true).

Lemma abs_get_preq_cases (A : list bank_abs) (ids : list Z) (row : Z) (name : string) :
  (abs_get_preq T A ids row name = name /\
   forall i a, i ∈ ids -> A !! Z.to_nat i = Some a -> abs_preq T a row name = name) \/
  exists i a, i ∈ ids /\ A !! Z.to_nat i = Some a /\ abs_preq T a row name <> name /\
    abs_get_preq T A ids row name = abs_preq T a row name.
Proof.
  induction ids as [|j ids IH]; [by left; split; [|intros ? ? ?%elem_of_nil]|].
  unfold abs_get_preq. simpl. case_bool_decide as E; simpl.
  - destruct IH as [[E' Hall]|(i & a & Hi & Ha & Hne & E')].
    + left. split; [done|]. intros i a [->|Hi]%elem_of_cons Ha; [by rewrite Ha in E|by eapply Hall].
    + right. exists i, a. split_and!; [by apply elem_of_cons; right|done|done|done].
  - right. destruct (A !! Z.to_nat j) as [a|] eqn:Ha; [|done]. exists j, a.
    split_and!; [by apply elem_of_cons; left|done|done|done].
Qed.

(** An access addresses the one bank its flat id names. *)
Lemma access_single (d : DRAMDevice) (name : string) (av : AddrVec_t) :
  dev_of T d -> name ∈ Command T -> preq_of name = PAccess -> addressed d (T_cmd T name) av ->
  exists k, get_flat_bank_id d av = Ok (Z.of_nat k) /\ timing_targets d av = [Z.of_nat k].
Proof.
  intros Hd Hn Hacc Haddr. pose proof Haddr as (Hrange & _ & Hscope).
  destruct (command_impl T Hok d Hd _ Hrange) as (name' & i & Hl & Hi & _ & Ht & _).
  rewrite (proj2 (T_cmd_range T d Hd name Hn)) in Hl. injection Hl as <-.
  destruct (impl_handlers T name i Hi) as (_ & _ & _ & Hst). rewrite Hacc in Hst.
  rewrite Ht, (Hst ltac:(set_solver)) in Hscope. destruct Hscope as [Hcon Hroot].
  destruct (flat_bank d (do_wf T d Hd) av Hcon) as (k & Hk & _). exists k. split; [done|].
  by apply (timing_targets_single d (do_wf T d Hd)).
Qed.

(** Commands of one scope accept the same addresses. *)
Lemma addressed_scope (d : DRAMDevice) (name q : string) (i j : CmdImpl) (av : AddrVec_t) :
  dev_of T d -> name ∈ Command T -> q ∈ Command T -> impl_of T name = Some i -> impl_of T q = Some j ->
  ci_bank_target j = ci_bank_target i -> addressed d (T_cmd T name) av -> addressed d (T_cmd T q) av.
Proof.
  intros Hd Hn Hq Hi Hj Et (Hrange & Hlen & Hscope).
  destruct (T_cmd_range T d Hd q Hq) as [Hqr Hql]. split_and!; [lia|lia|done|].
  destruct (command_impl T Hok d Hd _ Hrange) as (n' & i' & Hl & Hi' & _ & Ht & _).
  rewrite (proj2 (T_cmd_range T d Hd name Hn)) in Hl. injection Hl as <-. rewrite Hi in Hi'. injection Hi' as <-.
  destruct (command_impl T Hok d Hd _ Hqr) as (q' & j' & Hl & Hj' & _ & Ht' & _).
  rewrite Hql in Hl. injection Hl as <-. rewrite Hj in Hj'. injection Hj' as <-.
  rewrite Ht', Et. by rewrite Ht in Hscope.
Qed.

(** A prerequisite is legal for every bank it reaches. *)
Lemma preq_legal (d : DRAMDevice) (A : list bank_abs) (name : string) (i0 : CmdImpl) (av : AddrVec_t) (row : Z) :
  dev_of T d -> dev_rel T d A -> addressed d (T_cmd T name) av -> name ∈ Command T ->
  impl_of T name = Some i0 -> preq_of name <> PActivation ->
  let c := abs_get_preq T A (timing_targets d av) row name in
  (c ∈ Command T /\ exists j, impl_of T c = Some j /\ ci_bank_target j = ci_bank_target i0) /\
  forall i a, i ∈ timing_targets d av -> A !! Z.to_nat i = Some a -> legal T a row c.
Proof.
  intros Hd HA Haddr Hn Hi0 Hact c. split.
  - destruct (abs_get_preq_cases A (timing_targets d av) row name) as [[E _]|(i & a & Hi & Ha & _ & E)];
      subst c; rewrite E; [split; [done|by exists i0]|].
    destruct (target_bank T d Hd A av i HA Hi) as (p & n & a' & _ & _ & Ha' & _ & Hr).
    rewrite Ha in Ha'. injection Ha' as <-. by eapply abs_preq_declared.
  - assert (Hrel : forall i a, i ∈ timing_targets d av -> A !! Z.to_nat i = Some a ->
              exists v, rel T v a).
    { intros i a Hi Ha. destruct (target_bank T d Hd A av i HA Hi) as (p & n & a' & _ & _ & Ha' & _ & Hr).
      rewrite Ha in Ha'. injection Ha' as <-. eauto. }
    intros i a Hi Ha. destruct (Hrel i a Hi Ha) as [v Hv].
    destruct (abs_get_preq_cases A (timing_targets d av) row name) as [[E Hall]|(k & b & Hk & Hb & Hne & E)];
      subst c; rewrite E.
    + rewrite <- (Hall i a Hi Ha). by eapply abs_preq_legal.
    + destruct (Hrel k b Hk Hb) as [w Hw]. unfold abs_preq in *.
      destruct (preq_of name) as [|pre| | |] eqn:Ep; try done.
      * assert (i = k) as ->.
        { destruct (access_single d name av Hd Hn Ep Haddr) as (id & _ & Hids). rewrite Hids in Hi, Hk. set_solver. }
        rewrite Ha in Hb. injection Hb as <-.
        pose proof (abs_preq_legal T Hok a row name v ltac:(congruence) Hv) as Hl.
        unfold abs_preq in Hl. by rewrite Ep in Hl.
      * destruct (decide (b = Idle)); [done|]. by eapply close_legal.
Qed.

(** One round of the driver: the prerequisite is computed and can be issued. *)
Lemma driver_round (d : DRAMDevice) (A : list bank_abs) (name : string) (av : AddrVec_t) (row clk : Z) :
  dev_of T d -> dev_rel T d A -> name ∈ Command T -> preq_of name <> PActivation ->
  addressed d (T_cmd T name) av -> av_ok (m_spec d) av -> vget av (T_Row T) = Ok row ->
  let q := abs_get_preq T A (timing_targets d av) row name in
  get_preq_command d (T_cmd T name) av clk = Ok (T_cmd T q) /\ q ∈ Command T /\
  exists d', issue_command d (T_cmd T q) av clk = Ok d' /\ dev_of T d' /\
    dev_rel T d' (abs_issue A (timing_targets d av) row q) /\
    timing_targets d' av = timing_targets d av /\
    (forall c av', addressed d c av' -> addressed d' c av') /\ m_spec d' = m_spec d /\
    m_bank_nodes d' = m_bank_nodes d /\ m_bank_level d' = m_bank_level d.
Proof.
  intros Hd HA Hn Hact Haddr Hav Hrow q. split; [by apply get_preq_abs|].
  pose proof Haddr as (Hrange & Hlen & Hscope).
  destruct (command_impl T Hok d Hd _ Hrange) as (name' & i & Hl & Hi & _ & Ht & _).
  rewrite (proj2 (T_cmd_range T d Hd name Hn)) in Hl. injection Hl as <-.
  destruct (preq_legal d A name i av row Hd HA Haddr Hn Hi Hact) as [(Hq & j & Hj & Et) Hlegal].
  split; [done|]. apply (issue_abs T Hok d Hd A); try done. by eapply (addressed_scope d name q i j).
Qed.
End driver.
