(* ===== verification/DeviceProps.v ===== *)
(** * Device theorems

    Dispatch, refinement, protocol safety and termination of prerequisite
    resolution, for every device a standard can build. *)

From Stdlib Require Import ZArith Lia.
From S2P Require Import Prelude Base Spec Node Timing TimingSpec Commands Standards.
From S2P Require Import Device DeviceFacts BankFSM Examples.

Local Open Scope Z_scope.

(** ** Resolution of one access *)

(** How many commands separate a bank from serving an access to [row]. *)
Definition rank (T : Standard) (row : Z) (a : bank_abs) : nat :=
  let idle := if split_act T then 2%nat else 1%nat in
  match a with
  | Idle => idle
  | Activating => 1
  | Active r => if decide (r = row) then 0 else S idle
  end.

Lemma rank_zero (T : Standard) (row : Z) (a : bank_abs) : rank T row a = O -> a = Active row.
Proof. unfold rank. destruct a as [| |r]; [by destruct (split_act T)|done|]. case_decide; [by subst|done]. Qed.

Lemma access_names (name : string) :
  preq_of name = PAccess -> name <> "ACT" /\ name <> "ACT1" /\ name <> "ACT2" /\ name <> "PREpb".
Proof. unfold preq_of. case_bool_decide; [set_solver|]. repeat case_bool_decide; done. Qed.

Lemma rank_step (T : Standard) (row : Z) (a : bank_abs) (name : string) (n : nat) :
  preq_of name = PAccess -> rank T row a = S n ->
  abs_preq T a row name <> name /\ rank T row (abs_step a row (abs_preq T a row name)) = n.
Proof.
  intros Hp Hr. destruct (access_names name Hp) as (? & ? & ? & ?). unfold abs_preq. rewrite Hp.
  destruct a as [| |r]; simpl in *.
  - destruct (split_act T); (split; [congruence|]); unfold abs_step; simpl; [lia|].
    rewrite decide_True by done. lia.
  - split; [congruence|]. unfold abs_step. simpl. rewrite decide_True by done. lia.
  - case_decide; [lia|]. split; [congruence|]. unfold abs_step. simpl. lia.
Qed.

Lemma abs_issue_single (A : list bank_abs) (i : Z) (a : bank_abs) (row : Z) (q : string) :
  0 <= i -> A !! Z.to_nat i = Some a -> abs_issue A [i] row q = <[Z.to_nat i := abs_step a row q]> A.
Proof.
  intros Hi Ha. apply list_eq. intros k. unfold abs_issue. rewrite list_lookup_imap.
  destruct (decide (k = Z.to_nat i)) as [->|Hne].
  - rewrite Ha, list_lookup_insert_eq by (by eapply lookup_lt_Some). simpl.
    rewrite decide_True; [done|]. rewrite Z2Nat.id by done. set_solver.
  - rewrite list_lookup_insert_ne by done. destruct (A !! k); simpl; [|done].
    rewrite decide_False; [done|]. intros ?%list_elem_of_singleton. lia.
Qed.

Lemma abs_get_preq_single (T : Standard) (A : list bank_abs) (i : Z) (a : bank_abs) (row : Z) (name : string) :
  A !! Z.to_nat i = Some a -> abs_get_preq T A [i] row name = abs_preq T a row name.
Proof. intros Ha. unfold abs_get_preq. simpl. rewrite Ha. case_bool_decide as E; simpl; [by rewrite E|by rewrite Ha]. Qed.

Section access.
Context (T : Standard) (Hok : std_okb T = true) (name : string) (av : AddrVec_t) (row : Z).
Context (Hn : name ∈ Command T) (Hacc : preq_of name = PAccess) (Hrow : vget av (T_Row T) = Ok row).

Lemma resolve_access (n fuel : nat) (d : DRAMDevice) (A : list bank_abs) (i : Z) (a : bank_abs) (clk : Z) :
  dev_of T d -> dev_rel T d A -> addressed d (T_cmd T name) av -> av_ok (m_spec d) av ->
  timing_targets d av = [i] -> 0 <= i -> A !! Z.to_nat i = Some a -> rank T row a = n -> (n < fuel)%nat ->
  exists cs d', resolve fuel d (T_cmd T name) av clk = Ok (cs, d') /\ length cs = n /\ dev_of T d' /\
    dev_rel T d' (<[Z.to_nat i := Active row]> A) /\ m_bank_nodes d' = m_bank_nodes d /\
    forall clk', get_preq_command d' (T_cmd T name) av clk' = Ok (T_cmd T name).
Proof.
  revert fuel d A a clk. induction n as [|n IH]; intros fuel d A a clk Hd HA Haddr Hav Ht Hi Ha Hr Hf;
    (destruct fuel as [|fuel]; [lia|]); cbn [resolve];
    destruct (driver_round T Hok d A name av row clk Hd HA Hn ltac:(congruence) Haddr Hav Hrow)
      as (Hq & Hqn & d1 & Hd1 & Hof & Hrel & Ht1 & Haddr1 & Es & Eb & _);
    rewrite Ht, (abs_get_preq_single T A i a row name Ha) in *; rewrite Hq; simpl.
  - apply rank_zero in Hr. subst a.
    assert (abs_preq T (Active row) row name = name) as E by (unfold abs_preq; by rewrite Hacc, decide_True).
    rewrite E, Z.eqb_refl. exists [], d. rewrite list_insert_id by done. split_and!; try done.
    intros clk'. rewrite (get_preq_abs T Hok d Hd A name av row clk'); try done; [|congruence].
    by rewrite Ht, (abs_get_preq_single T A i (Active row) row name Ha), E.
  - destruct (rank_step T row a name n Hacc Hr) as [Hne Hr']. rewrite (abs_issue_single A i a) in Hrel by done.
    assert ((T_cmd T (abs_preq T a row name) =? T_cmd T name) = false) as ->.
    { apply Z.eqb_neq. intros E. by apply Hne, (enum_inj (Command T)). }
    rewrite Hd1. simpl.
    destruct (IH fuel d1 _ (abs_step a row (abs_preq T a row name)) (clk + 1) Hof Hrel (Haddr1 _ _ Haddr))
      as (cs & d' & Hres & Hlen & Hof' & Hrel' & Eb' & Hfin);
      [by rewrite Es|done|done| |done|lia|].
    { apply list_lookup_insert_eq. by eapply lookup_lt_Some. }
    rewrite Hres. simpl. rewrite list_insert_insert_eq in Hrel'.
    exists (T_cmd T (abs_preq T a row name) :: cs), d'. split_and!; try done; [simpl; lia|congruence].
Qed.
End access.

(** The concrete state of a bank is determined by the abstract one. *)
Lemma rel_fun (T : Standard) (v w : bank_state) (a : bank_abs) : rel T v a -> rel T w a -> v = w.
Proof. destruct a; simpl; [congruence|intros [-> _] [-> _]; done|congruence]. Qed.

Lemma bank_view_some (T : Standard) (d : DRAMDevice) (k : nat) :
  dev_of T d -> (k < length (m_bank_nodes d))%nat -> is_Some (bank_view d k).
Proof.
  intros Hd Hk. destruct (lookup_lt_is_Some_2 _ _ Hk) as [p Hp].
  destruct (bank_view_ok T d Hd (Z.of_nat k) p) as (n & _ & Hv); [lia|by rewrite Nat2Z.id|].
  rewrite Nat2Z.id in Hv. by eexists.
Qed.

(** Two devices that represent the same abstract bank hold the same state there. *)
Lemma dev_rel_same (T : Standard) (d d' : DRAMDevice) (A A' : list bank_abs) (k : nat) (a : bank_abs) :
  dev_of T d -> dev_of T d' -> dev_rel T d A -> dev_rel T d' A' ->
  m_bank_nodes d' = m_bank_nodes d -> A !! k = Some a -> A' !! k = Some a ->
  bank_view d' k = bank_view d k.
Proof.
  intros Hd Hd' [Hl HA] [_ HA'] Eb Ha Ha'. pose proof (lookup_lt_Some _ _ _ Ha) as Hk. rewrite Hl in Hk.
  destruct (bank_view_some T d k Hd Hk) as [v Hv].
  destruct (bank_view_some T d' k Hd') as [v' Hv']; [by rewrite Eb|].
  rewrite Hv, Hv'. f_equal. by eapply rel_fun; [eapply HA'|eapply HA].
Qed.

(** ** Devices of a standard *)
Lemma built_tables (T : Standard) (s : DRAMSpec) :
  std_okb T = true -> built_from T s -> Z.of_nat (length (command_meta s)) = command_count s ->
  tables_wfb s = true /\ bank_levels_okb s = true.
Proof.
  intros Hok Hs Hm. destruct (std_ok_parts T Hok) as (_ & _ & _ & HL & _ & [HB HR] & _ & _ & _ & _ & Hlt & _).
  split.
  - unfold tables_wfb. simpl. rewrite Hm, (bf_targets T s Hs), (bf_actions T s Hs), (bf_preqs T s Hs),
      (bf_rowhits T s Hs), (bf_rowopens T s Hs), !length_map, (length_impls T Hok), (bf_command_count T s Hs).
    by rewrite !Z.eqb_refl.
  - unfold bank_levels_okb. rewrite (bf_levels T s Hs), !set_names_lookup by done. lia.
Qed.

Lemma mark_all_length (T : Standard) f names metas : length (mark_all T f names metas) = length metas.
Proof.
  unfold mark_all. revert metas. induction names as [|n names IH]; intros metas; simpl; [done|].
  by rewrite IH, length_alter.
Qed.

Lemma construct_meta (T : Standard) (cfg : DramConfig) (s : DRAMSpec) :
  std_okb T = true -> construct T cfg = Ok s -> Z.of_nat (length (command_meta s)) = command_count s.
Proof.
  intros Hok. unfold construct, load_config. simpl. intros (ch & _ & H)%bind_Ok. destruct (negb _); [done|].
  apply bind_Ok in H as (tc & _ & H). injection H as <-. simpl.
  by rewrite !mark_all_length, length_map, (length_impls T Hok).
Qed.

(** A fresh device of a standard has every bank idle. *)
Lemma init_dev (T : Standard) (cfg : DramConfig) (s : DRAMSpec) (d : DRAMDevice) :
  std_okb T = true -> construct T cfg = Ok s -> spec_wfb s = true -> org_wfb s = true -> init s = Ok d ->
  dev_of T d /\ m_spec d = s /\ dev_rel T d (replicate (length (m_bank_nodes d)) Idle).
Proof.
  intros Hok Hc Hs Ho Hi. pose proof (construct_built T cfg s Hc) as Hb.
  destruct (built_tables T s Hok Hb (construct_meta T cfg s Hok Hc)) as [Ht Hl].
  destruct (init_wf s d Hs Ho Ht Hl Hi) as (Hw & Es & Hbl & Hfresh).
  split_and!; [constructor; [done|by rewrite Es]|done|]. split; [apply length_replicate|].
  intros i v a Hv [-> _]%lookup_replicate. unfold bank_view in Hv.
  apply bind_Some in Hv as (p & Hp & (n & Hn & ->)%fmap_Some_1).
  destruct (bank_path d Hw p (list_elem_of_lookup_2 _ _ _ Hp)) as (n' & Hn' & Hlev).
  rewrite Hn in Hn'. injection Hn' as <-. destruct (Hfresh p n Hn) as [Hst Hrow].
  destruct (std_ok_parts T Hok) as (_ & _ & _ & HL & _ & [HB _] & _ & _ & _ & _ & _ & Hinit).
  rewrite (bf_levels T s Hb), set_names_lookup in Hbl by done. injection Hbl as Eb.
  rewrite Hlev, <- Eb, (bf_init T s Hb) in Hst. apply vget_Ok in Hst as [_ Hst].
  rewrite list_lookup_fmap, Hinit in Hst. simpl in Hst. injection Hst as Est.
  unfold view. simpl. by rewrite Hrow, <- Est.
Qed.

Lemma reachable_inv (T : Standard) (cfg : DramConfig) (s : DRAMSpec) (d : DRAMDevice) :
  std_okb T = true -> construct T cfg = Ok s -> spec_wfb s = true -> org_wfb s = true -> reachable T s d ->
  dev_of T d /\ m_spec d = s /\ exists A, dev_rel T d A.
Proof.
  intros Hok Hc Hs Ho. induction 1 as [d Hi|d d' name av clk c _ IH Hn Hact Haddr Hav Hq Hiss].
  - destruct (init_dev T cfg s d Hok Hc Hs Ho Hi) as (? & ? & ?). eauto.
  - destruct IH as (Hd & Es & A & HA). pose proof Haddr as (_ & Hlen & _).
    destruct (row_coord T Hok d Hd av Hlen) as [row Hrow].
    destruct (driver_round T Hok d A name av row clk Hd HA Hn Hact Haddr ltac:(by rewrite Es) Hrow)
      as (Hq' & _ & d1 & Hd1 & Hof & Hrel & _ & _ & Es' & _).
    rewrite Hq in Hq'. injection Hq' as ->. rewrite Hiss in Hd1. injection Hd1 as ->.
    split_and!; [done|congruence|eauto].
Qed.

(** A refresh is ready when the banks in its scope are idle. *)
Lemma refresh_ready (T : Standard) (Hok : std_okb T = true) (d : DRAMDevice) (A : list bank_abs)
  (name pre : string) (av : AddrVec_t) (row : Z) :
  dev_of T d -> dev_rel T d A -> addressed d (T_cmd T name) av -> name ∈ Command T ->
  preq_of name = PClosed pre -> vget av (T_Row T) = Ok row ->
  (forall i a, i ∈ timing_targets d av -> A !! Z.to_nat i = Some a -> a = Idle) ->
  (forall clk, get_preq_command d (T_cmd T name) av clk = Ok (T_cmd T name)) /\
  forall i, i ∈ timing_targets d av -> bank_view d (Z.to_nat i) = Some (T_Closed T, ∅).
Proof.
  intros Hd HA Haddr Hn Hcl Hrow Hall. split.
  - intros clk. rewrite (get_preq_abs T Hok d Hd A name av row clk); try done; [|congruence].
    destruct (abs_get_preq_cases T A (timing_targets d av) row name) as [[-> _]|(i & a & Hi & Ha & Hne & _)]; [done|].
    specialize (Hall i a Hi Ha). subst a. unfold abs_preq in Hne. by rewrite Hcl, decide_True in Hne.
  - intros i Hi. destruct (target_bank T d Hd A av i HA Hi) as (p & n & a & _ & _ & Ha & Hv & Hrel).
    specialize (Hall i a Hi Ha). subst a. simpl in Hrel. by rewrite Hv, Hrel.
Qed.

Lemma get_target_banks_eq (d : DRAMDevice) (c : Z) (av : AddrVec_t) :
  dev_wf d -> addressed d c av -> get_target_banks d c av = Ok (timing_targets d av).
Proof.
  intros Hd Ha. unfold get_target_banks. rewrite (for_each_target_bank_eq d Hd c av _ _ Ha).
  enough (forall acc l, foldM (fun ids id => Ok (ids ++ [id])) acc l = Ok (acc ++ l)) as H by apply H.
  intros acc l. revert acc. induction l as [|x l IH]; intros acc; simpl; [by rewrite app_nil_r|].
  by rewrite IH, <- app_assoc.
Qed.

(** ** Theorems *)

(** The banks whose state a command changes are, in order, exactly the banks
    the timing traversal of the node tree treats as addressed, whatever the scope
    of the command (one bank, all matching banks, the same bank of every
    group). *)
Theorem target_banks_exact (d : DRAMDevice) (c : Z) (av : AddrVec_t) :
  dev_wf d -> addressed d c av -> get_target_banks d c av = Ok (timing_targets d av).
Proof. apply get_target_banks_eq. Qed.

(** For a concrete bank address the flat bank id is the position, in the flat
    bank array, of the node those coordinates lead to, and two addresses share a
    flat id only when they name the same bank. *)
Theorem flat_bank_id_bijective (d : DRAMDevice) (av av' : AddrVec_t) :
  dev_wf d -> concrete (m_spec d) av 0 (m_bank_level d) -> concrete (m_spec d) av' 0 (m_bank_level d) ->
  exists id, get_flat_bank_id d av = Ok id /\ 0 <= id < Z.of_nat (length (m_bank_nodes d)) /\
    vget (m_bank_nodes d) id = Ok (coords av 0 (Z.to_nat (m_bank_level d))) /\
    (get_flat_bank_id d av' = Ok id -> forall l, 1 <= l <= m_bank_level d -> vget av' l = vget av l).
Proof.
  intros Hd Hav Hav'. destruct (flat_bank d Hd av Hav) as (id & Hid & Hlk).
  destruct (flat_bank d Hd av' Hav') as (id' & Hid' & Hlk').
  pose proof (lookup_lt_Some _ _ _ Hlk). exists (Z.of_nat id).
  split_and!; [done|lia|lia|apply vget_Ok; rewrite Nat2Z.id; split; [lia|done]|].
  intros E l Hl. rewrite E in Hid'. injection Hid' as Eid. apply Nat2Z.inj in Eid. subst id'.
  rewrite Hlk in Hlk'. injection Hlk' as Eco. unfold coords in Eco.
  assert (Hk : seqZ (0 + 1) (Z.of_nat (Z.to_nat (m_bank_level d))) !! Z.to_nat (l - 1) = Some l).
  { apply lookup_seqZ. lia. }
  apply (f_equal (fun x => x !! Z.to_nat (l - 1))) in Eco. rewrite !list_lookup_fmap, Hk in Eco. simpl in Eco.
  destruct (Hav l) as (a & sz & Ha & _ & Hr); [lia|]. destruct (Hav' l) as (a' & sz' & Ha' & _ & Hr'); [lia|].
  rewrite Ha, Ha' in Eco |- *. injection Eco as E1. f_equal. lia.
Qed.

(** C9: issuing a command never fails on a well-formed device, keeps the device
    well formed, and refines the array of bank state machines: the effect of the
    command is applied once to each addressed bank and no other bank changes. *)
Theorem issue_command_refines (d : DRAMDevice) (HL : HandlerLaws (m_spec d)) (c : Z) (av : AddrVec_t)
  (clk : Clk_t) :
  dev_wf d -> addressed d c av -> av_ok (m_spec d) av ->
  exists d', issue_command d c av clk = Ok d' /\ dev_wf d' /\
    forall i v, bank_view d i = Some v ->
      bank_view d' i = Some (if decide (Z.of_nat i ∈ timing_targets d av) then effect c av v else v).
Proof.
  intros Hd Ha Hav. destruct (issue_command_spec d c av clk Hd Ha Hav) as (d' & ? & ? & _ & _ & _ & _ & ?).
  by exists d'.
Qed.

(** C10: however a device of a standard is driven through the prerequisites of
    access, precharge and refresh commands, every bank is closed with no open
    row, activating with no open row, or open with exactly one open row. *)
Theorem one_open_row (T : Standard) (cfg : DramConfig) (s : DRAMSpec) (d : DRAMDevice) (i : nat) :
  T ∈ registry -> construct T cfg = Ok s -> spec_wfb s = true -> org_wfb s = true -> reachable T s d ->
  (i < length (m_bank_nodes d))%nat ->
  exists v, bank_view d i = Some v /\
    (v = (T_Closed T, ∅) \/ v = (T_Activating T, ∅) \/ exists row, v = (T_Opened T, {[row := T_Opened T]})).
Proof.
  intros HT Hc Hs Ho Hr Hi.
  assert (Hok : std_okb T = true).
  { pose proof registry_ok as H. rewrite forallb_forall in H. by apply H, list_elem_of_In. }
  destruct (reachable_inv T cfg s d Hok Hc Hs Ho Hr) as (Hd & _ & A & HlA & HA).
  destruct (bank_view_some T d i Hd Hi) as [v Hv]. exists v. split; [done|].
  destruct (lookup_lt_is_Some_2 A i) as [a Ha]; [lia|]. specialize (HA i v a Hv Ha).
  destruct a; simpl in HA; naive_solver.
Qed.

(** C11: from any state a driver can reach, resolving the prerequisites of an
    access ends after at most three commands with the access itself ready, the
    addressed bank open at exactly the requested row and every other bank
    untouched. *)
Theorem access_resolves (T : Standard) (cfg : DramConfig) (s : DRAMSpec) (d : DRAMDevice) (name : string)
  (av : AddrVec_t) (row clk : Z) :
  std_okb T = true -> construct T cfg = Ok s -> spec_wfb s = true -> org_wfb s = true -> reachable T s d ->
  name ∈ Command T -> preq_of name = PAccess -> addressed d (T_cmd T name) av -> av_ok s av ->
  vget av (T_Row T) = Ok row ->
  exists cs d' id, resolve 4 d (T_cmd T name) av clk = Ok (cs, d') /\ (length cs <= 3)%nat /\
    (forall clk', get_preq_command d' (T_cmd T name) av clk' = Ok (T_cmd T name)) /\
    get_flat_bank_id d av = Ok (Z.of_nat id) /\
    bank_view d' id = Some (T_Opened T, {[row := T_Opened T]}) /\
    forall k, k <> id -> bank_view d' k = bank_view d k.
Proof.
  intros Hok Hc Hs Ho Hr Hn Hacc Haddr Hav Hrow.
  destruct (reachable_inv T cfg s d Hok Hc Hs Ho Hr) as (Hd & Es & A & HA). subst s.
  destruct (access_single T Hok d name av Hd Hn Hacc Haddr) as (id & Hid & Htt).
  assert (Hin : Z.of_nat id ∈ timing_targets d av) by (rewrite Htt; set_solver).
  destruct (target_bank T d Hd A av _ HA Hin) as (_ & _ & a & _ & _ & Ha & _). rewrite Nat2Z.id in Ha.
  destruct (resolve_access T Hok name av row Hn Hacc Hrow (rank T row a) 4 d A (Z.of_nat id) a clk)
    as (cs & d' & Hres & Hlen & Hd' & HA' & Eb & Hfin); try done; [lia|by rewrite Nat2Z.id| |].
  { unfold rank. destruct a; destruct (split_act T); try case_decide; lia. }
  rewrite Nat2Z.id in HA'. pose proof (lookup_lt_Some _ _ _ Ha) as Hlt.
  exists cs, d', id. split_and!; try done.
  - rewrite Hlen. unfold rank. destruct a; destruct (split_act T); try case_decide; lia.
  - destruct (bank_view_some T d' id Hd') as [v Hv]; [rewrite Eb, <- (proj1 HA); done|].
    rewrite Hv. f_equal. apply (proj2 HA' id v (Active row) Hv). by apply list_lookup_insert_eq.
  - intros k Hk. destruct (A !! k) as [b|] eqn:Hb.
    + eapply (dev_rel_same T d d' A); try done. by rewrite list_lookup_insert_ne.
    + apply lookup_ge_None in Hb. unfold bank_view. rewrite Eb, (lookup_ge_None_2 (m_bank_nodes d)); [done|].
      rewrite <- (proj1 HA). done.
Qed.

(** From any reachable state, resolving the prerequisites of a refresh (or
    refresh-management) command takes at most one precharge of the same scope,
    after which every bank in scope is closed and the refresh is ready. *)
Theorem refresh_resolves (T : Standard) (cfg : DramConfig) (s : DRAMSpec) (d : DRAMDevice)
  (name pre : string) (av : AddrVec_t) (clk : Z) :
  std_okb T = true -> construct T cfg = Ok s -> spec_wfb s = true -> org_wfb s = true -> reachable T s d ->
  name ∈ Command T -> preq_of name = PClosed pre -> addressed d (T_cmd T name) av -> av_ok s av ->
  exists cs d', resolve 2 d (T_cmd T name) av clk = Ok (cs, d') /\ (cs = [] \/ cs = [T_cmd T pre]) /\
    (forall clk', get_preq_command d' (T_cmd T name) av clk' = Ok (T_cmd T name)) /\
    forall i, i ∈ timing_targets d av -> bank_view d' (Z.to_nat i) = Some (T_Closed T, ∅).
Proof.
  intros Hok Hc Hs Ho Hr Hn Hcl Haddr Hav.
  destruct (reachable_inv T cfg s d Hok Hc Hs Ho Hr) as (Hd & Es & A & HA). subst s.
  destruct (row_coord T Hok d Hd av (proj1 (proj2 Haddr))) as [row Hrow].
  cbn [resolve].
  destruct (driver_round T Hok d A name av row clk Hd HA Hn ltac:(congruence) Haddr Hav Hrow)
    as (Hq & Hqn & d1 & Hd1 & Hof & Hrel & Ht1 & Haddr1 & Es & Eb & _).
  rewrite Hq. simpl.
  destruct (abs_get_preq_cases T A (timing_targets d av) row name) as [[E Hall]|(i & a & Hi & Ha & Hne & E)];
    rewrite E in *.
  - rewrite Z.eqb_refl. exists [], d. split_and!; [done|by left| |]; apply (refresh_ready T Hok d A name pre av row); try done;
      intros i a Hi Ha; specialize (Hall i a Hi Ha); unfold abs_preq in Hall; rewrite Hcl in Hall;
      (case_decide; [done|]); by apply (close_neq T Hok) in Hcl.
  - assert (abs_preq T a row name = pre) as Ep.
    { unfold abs_preq in Hne |- *. rewrite Hcl in Hne |- *. by case_decide. }
    rewrite Ep in *. destruct (close_legal T a row name pre Hcl) as [_ Hk].
    assert ((T_cmd T pre =? T_cmd T name) = false) as ->.
    { apply Z.eqb_neq. intros E'. by apply Hne, (enum_inj (Command T)). }
    rewrite Hd1. simpl.
    destruct (refresh_ready T Hok d1 _ name pre av row Hof Hrel (Haddr1 _ _ Haddr) Hn Hcl Hrow) as [Hq1 Hcl1].
    { rewrite Ht1. intros j b Hj Hb. unfold abs_issue in Hb. rewrite list_lookup_imap in Hb.
      destruct (A !! Z.to_nat j); simpl in Hb; [|done]. injection Hb as <-.
      assert (0 <= j) by (apply timing_targets_elem in Hj as (? & ? & _); done).
      rewrite decide_True by (by rewrite Z2Nat.id). unfold abs_step. by rewrite Hk. }
    rewrite Hq1. simpl. rewrite Z.eqb_refl. simpl. exists [T_cmd T pre], d1.
    rewrite Ht1 in Hcl1. split_and!; [done|by right|done|done].
Qed.

(** ** Witnesses on the small DDR4 device *)

Definition concreteb (s : DRAMSpec) (av : AddrVec_t) (lo hi : Z) : bool :=
  forallb (fun j => match vget av j, vget (level_sizes (organization s)) j with
                    | Ok a, Ok sz => (0 <=? a) && (a <? sz)
                    | _, _ => false
                    end) (seqZ (lo + 1) (hi - lo)).

Lemma concreteb_sound (s : DRAMSpec) (av : AddrVec_t) (lo hi : Z) :
  concreteb s av lo hi = true -> concrete s av lo hi.
Proof.
  unfold concreteb. rewrite forallb_forall. intros H j Hj. specialize (H j).
  rewrite <- list_elem_of_In, elem_of_seqZ in H. specialize (H ltac:(lia)).
  destruct (vget av j) as [a|]; [|done]. destruct (vget (level_sizes _) j) as [sz|]; [|done].
  exists a, sz. split_and!; [done|done|lia|lia].
Qed.

Lemma addressed_single (d : DRAMDevice) (c : Z) (av : AddrVec_t) :
  (0 <=? c) && (c <? command_count (m_spec d)) && (level_count (m_spec d) <=? Z.of_nat (length av)) = true ->
  vget (bank_targets (m_spec d)) c = Ok Single ->
  concreteb (m_spec d) av 0 (m_bank_level d) = true -> matches av (m_root d) = true -> addressed d c av.
Proof.
  intros Hb Ht Hc Hm. rewrite !andb_true_iff in Hb. split_and!; [lia|lia|lia|]. rewrite Ht.
  split; [by apply concreteb_sound|done].
Qed.

Definition ddr4_dev : DRAMDevice :=
  match init ddr4 with Ok d => d | Err _ => mkDevice ddr4 ddr4_root [] 0 end.

Lemma ddr4_dev_init : init ddr4 = Ok ddr4_dev.
Proof. vm_compute. reflexivity. Qed.

Lemma ddr4_construct : construct DDR4 ddr4_cfg = Ok ddr4.
Proof. vm_compute. reflexivity. Qed.

Lemma ddr4_ok : std_okb DDR4 = true.
Proof. vm_compute. reflexivity. Qed.

Lemma ddr4_dev_of : dev_of DDR4 ddr4_dev.
Proof.
  eapply init_dev; [apply ddr4_ok|apply ddr4_construct|apply ddr4_wf|apply ddr4_org_wf|apply ddr4_dev_init].
Qed.

(** Rank 1, bank group 0, bank 1, row 5. *)
Definition ddr4_av : AddrVec_t := [0; 1; 0; 1; 5; 0].
Definition ddr4_rank_av : AddrVec_t := [0; 1; -1; -1; -1; -1].

Lemma ddr4_addressed_RD : addressed ddr4_dev (T_cmd DDR4 "RD") ddr4_av.
Proof. by apply addressed_single; vm_compute. Qed.

Lemma ddr4_addressed_REFab : addressed ddr4_dev (T_cmd DDR4 "REFab") ddr4_rank_av.
Proof. split_and!; [vm_compute; congruence|vm_compute; congruence|vm_compute; congruence|by vm_compute]. Qed.

Lemma target_banks_exact_witness :
  get_target_banks ddr4_dev (T_cmd DDR4 "REFab") ddr4_rank_av = Ok [4; 5; 6; 7].
Proof.
  rewrite (target_banks_exact ddr4_dev _ _ (do_wf _ _ ddr4_dev_of) ddr4_addressed_REFab).
  vm_compute. reflexivity.
Defined.

Lemma flat_bank_id_bijective_witness :
  exists id, get_flat_bank_id ddr4_dev ddr4_av = Ok id /\ 0 <= id < Z.of_nat (length (m_bank_nodes ddr4_dev)) /\
    vget (m_bank_nodes ddr4_dev) id = Ok (coords ddr4_av 0 (Z.to_nat (m_bank_level ddr4_dev))) /\
    (get_flat_bank_id ddr4_dev [0; 1; 1; 1; 5; 0] = Ok id ->
     forall l, 1 <= l <= m_bank_level ddr4_dev -> vget [0; 1; 1; 1; 5; 0] l = vget ddr4_av l).
Proof.
  apply (flat_bank_id_bijective ddr4_dev ddr4_av [0; 1; 1; 1; 5; 0]);
    [apply (do_wf _ _ ddr4_dev_of)|by apply concreteb_sound; vm_compute|by apply concreteb_sound; vm_compute].
Defined.

Lemma issue_command_refines_witness :
  exists d', issue_command ddr4_dev (T_cmd DDR4 "ACT") ddr4_av 0 = Ok d' /\ dev_wf d' /\
    bank_view d' 5 = Some (T_Opened DDR4, {[5 := T_Opened DDR4]}) /\
    bank_view d' 4 = Some (T_Closed DDR4, ∅).
Proof.
  destruct (issue_command_refines ddr4_dev
              (construct_laws DDR4 ddr4 ddr4_ok (construct_built _ _ _ ddr4_construct))
              (T_cmd DDR4 "ACT") ddr4_av 0) as (d' & H & Hd' & Hv).
  - apply (do_wf _ _ ddr4_dev_of).
  - by apply addressed_single; vm_compute.
  - apply av_okb_sound. by vm_compute.
  - exists d'. split_and!; [done|done| |].
    + rewrite (Hv 5%nat (T_Closed DDR4, ∅)) by (vm_compute; reflexivity). vm_compute. reflexivity.
    + rewrite (Hv 4%nat (T_Closed DDR4, ∅)) by (vm_compute; reflexivity). vm_compute. reflexivity.
Defined.

Lemma one_open_row_witness :
  exists v, bank_view ddr4_dev 5 = Some v /\
    (v = (T_Closed DDR4, ∅) \/ v = (T_Activating DDR4, ∅) \/
     exists row, v = (T_Opened DDR4, {[row := T_Opened DDR4]})).
Proof.
  apply (one_open_row DDR4 ddr4_cfg ddr4 ddr4_dev 5);
    [apply list_elem_of_In; right; left; reflexivity|apply ddr4_construct|apply ddr4_wf|apply ddr4_org_wf
    |apply reachable_init, ddr4_dev_init|vm_compute; lia].
Defined.

Lemma access_resolves_witness :
  exists cs d' id, resolve 4 ddr4_dev (T_cmd DDR4 "RD") ddr4_av 0 = Ok (cs, d') /\ (length cs <= 3)%nat /\
    (forall clk', get_preq_command d' (T_cmd DDR4 "RD") ddr4_av clk' = Ok (T_cmd DDR4 "RD")) /\
    get_flat_bank_id ddr4_dev ddr4_av = Ok (Z.of_nat id) /\
    bank_view d' id = Some (T_Opened DDR4, {[5 := T_Opened DDR4]}) /\
    forall k, k <> id -> bank_view d' k = bank_view ddr4_dev k.
Proof.
  apply (access_resolves DDR4 ddr4_cfg ddr4 ddr4_dev "RD" ddr4_av 5 0);
    [apply ddr4_ok|apply ddr4_construct|apply ddr4_wf|apply ddr4_org_wf|apply reachable_init, ddr4_dev_init
    |apply (bool_decide_unpack _); by vm_compute|by vm_compute|apply ddr4_addressed_RD
    |by apply av_okb_sound; vm_compute|by vm_compute].
Defined.

Lemma refresh_resolves_witness :
  exists cs d', resolve 2 ddr4_dev (T_cmd DDR4 "REFab") ddr4_rank_av 0 = Ok (cs, d') /\
    (cs = [] \/ cs = [T_cmd DDR4 "PREab"]) /\
    (forall clk', get_preq_command d' (T_cmd DDR4 "REFab") ddr4_rank_av clk' = Ok (T_cmd DDR4 "REFab")) /\
    forall i, i ∈ timing_targets ddr4_dev ddr4_rank_av ->
      bank_view d' (Z.to_nat i) = Some (T_Closed DDR4, ∅).
Proof.
  apply (refresh_resolves DDR4 ddr4_cfg ddr4 ddr4_dev "REFab" "PREab" ddr4_rank_av 0);
    [apply ddr4_ok|apply ddr4_construct|apply ddr4_wf|apply ddr4_org_wf|apply reachable_init, ddr4_dev_init
    |apply (bool_decide_unpack _); by vm_compute|by vm_compute|apply ddr4_addressed_REFab
    |by apply av_okb_sound; vm_compute].
Defined.
