(* ===== verification/Controller.v ===== *)
(** * The controller base

    [controller/controller_base.h] and [controller/controller_base.cpp]: request
    buffers, admission, the request life cycle, write-mode control and the
    scheduling helpers every cycle-level controller shares.

    An iterator into a buffer is the buffer's identity and a position.
    Statistics are the map of [m_stats], by registered name.  Callbacks and
    departure notifications are events of a log, in order. *)

From Stdlib Require Import ZArith Lia SpecFloat.
From stdpp Require Import pretty.
From S2P Require Import Prelude Base Spec Node Standards Device.

Local Open Scope Z_scope.

(** ** State *)

Record PendingRead := mkPending { p_depart : Clk_t; p_sequence : Z; p_req : Request }.

Inductive Event :=
| EvDeparture (r : Request)   (* on_request_departure_scheduled *)
| EvCallback (r : Request).   (* req.callback(req) *)

Inductive buf_id := BActive | BPriority | BRead | BWrite.

#[export] Instance buf_id_eq_dec : EqDecision buf_id.
Proof. solve_decision. Defined.

Record Ctrl := mkCtrl {
  m_channel_id : Z;
  m_clk : Clk_t;
  m_device : DRAMDevice;
  m_pending : list PendingRead;
  m_pending_sequence : Z;
  m_active_buffer : ReqBuffer;
  m_priority_buffer : ReqBuffer;
  m_read_buffer : ReqBuffer;
  m_write_buffer : ReqBuffer;
  m_buffered_write_addrs : gset Z;
  m_wr_low_watermark : spec_float;
  m_wr_high_watermark : spec_float;
  m_is_write_mode : bool;
  m_active_per_bank : list Z;
  m_num_cores : Z;
  m_stats : gmap string Z;
  m_log : list Event
}.

(** Member updates. *)
Definition set_channel (c : Ctrl) x := mkCtrl x (m_clk c) (m_device c) (m_pending c) (m_pending_sequence c)
  (m_active_buffer c) (m_priority_buffer c) (m_read_buffer c) (m_write_buffer c) (m_buffered_write_addrs c)
  (m_wr_low_watermark c) (m_wr_high_watermark c) (m_is_write_mode c) (m_active_per_bank c) (m_num_cores c)
  (m_stats c) (m_log c).
Definition set_clk (c : Ctrl) x := mkCtrl (m_channel_id c) x (m_device c) (m_pending c) (m_pending_sequence c)
  (m_active_buffer c) (m_priority_buffer c) (m_read_buffer c) (m_write_buffer c) (m_buffered_write_addrs c)
  (m_wr_low_watermark c) (m_wr_high_watermark c) (m_is_write_mode c) (m_active_per_bank c) (m_num_cores c)
  (m_stats c) (m_log c).
Definition set_device (c : Ctrl) x := mkCtrl (m_channel_id c) (m_clk c) x (m_pending c) (m_pending_sequence c)
  (m_active_buffer c) (m_priority_buffer c) (m_read_buffer c) (m_write_buffer c) (m_buffered_write_addrs c)
  (m_wr_low_watermark c) (m_wr_high_watermark c) (m_is_write_mode c) (m_active_per_bank c) (m_num_cores c)
  (m_stats c) (m_log c).
Definition set_pending (c : Ctrl) x n := mkCtrl (m_channel_id c) (m_clk c) (m_device c) x n
  (m_active_buffer c) (m_priority_buffer c) (m_read_buffer c) (m_write_buffer c) (m_buffered_write_addrs c)
  (m_wr_low_watermark c) (m_wr_high_watermark c) (m_is_write_mode c) (m_active_per_bank c) (m_num_cores c)
  (m_stats c) (m_log c).
Definition set_buf (c : Ctrl) (id : buf_id) (b : ReqBuffer) := mkCtrl (m_channel_id c) (m_clk c) (m_device c)
  (m_pending c) (m_pending_sequence c)
  (if decide (id = BActive) then b else m_active_buffer c)
  (if decide (id = BPriority) then b else m_priority_buffer c)
  (if decide (id = BRead) then b else m_read_buffer c)
  (if decide (id = BWrite) then b else m_write_buffer c) (m_buffered_write_addrs c)
  (m_wr_low_watermark c) (m_wr_high_watermark c) (m_is_write_mode c) (m_active_per_bank c) (m_num_cores c)
  (m_stats c) (m_log c).
Definition set_write_addrs (c : Ctrl) x := mkCtrl (m_channel_id c) (m_clk c) (m_device c) (m_pending c)
  (m_pending_sequence c) (m_active_buffer c) (m_priority_buffer c) (m_read_buffer c) (m_write_buffer c) x
  (m_wr_low_watermark c) (m_wr_high_watermark c) (m_is_write_mode c) (m_active_per_bank c) (m_num_cores c)
  (m_stats c) (m_log c).
Definition set_mode (c : Ctrl) x := mkCtrl (m_channel_id c) (m_clk c) (m_device c) (m_pending c)
  (m_pending_sequence c) (m_active_buffer c) (m_priority_buffer c) (m_read_buffer c) (m_write_buffer c)
  (m_buffered_write_addrs c) (m_wr_low_watermark c) (m_wr_high_watermark c) x (m_active_per_bank c)
  (m_num_cores c) (m_stats c) (m_log c).
Definition set_active_per_bank (c : Ctrl) x := mkCtrl (m_channel_id c) (m_clk c) (m_device c) (m_pending c)
  (m_pending_sequence c) (m_active_buffer c) (m_priority_buffer c) (m_read_buffer c) (m_write_buffer c)
  (m_buffered_write_addrs c) (m_wr_low_watermark c) (m_wr_high_watermark c) (m_is_write_mode c) x
  (m_num_cores c) (m_stats c) (m_log c).
Definition set_stats (c : Ctrl) x := mkCtrl (m_channel_id c) (m_clk c) (m_device c) (m_pending c)
  (m_pending_sequence c) (m_active_buffer c) (m_priority_buffer c) (m_read_buffer c) (m_write_buffer c)
  (m_buffered_write_addrs c) (m_wr_low_watermark c) (m_wr_high_watermark c) (m_is_write_mode c)
  (m_active_per_bank c) (m_num_cores c) x (m_log c).
Definition log_event (c : Ctrl) (e : Event) := mkCtrl (m_channel_id c) (m_clk c) (m_device c) (m_pending c)
  (m_pending_sequence c) (m_active_buffer c) (m_priority_buffer c) (m_read_buffer c) (m_write_buffer c)
  (m_buffered_write_addrs c) (m_wr_low_watermark c) (m_wr_high_watermark c) (m_is_write_mode c)
  (m_active_per_bank c) (m_num_cores c) (m_stats c) (m_log c ++ [e]).

Definition get_buf (c : Ctrl) (id : buf_id) : ReqBuffer :=
  match id with
  | BActive => m_active_buffer c
  | BPriority => m_priority_buffer c
  | BRead => m_read_buffer c
  | BWrite => m_write_buffer c
  end.

(** Dereferencing an iterator; the end iterator is undefined. *)
Definition req_at (c : Ctrl) (id : buf_id) (i : nat) : result Request :=
  match buffer (get_buf c id) !! i with Some r => Ok r | None => Err Undef end.
Definition put_req (c : Ctrl) (id : buf_id) (i : nat) (r : Request) : Ctrl :=
  set_buf c id (set_at (get_buf c id) i r).

(** [stat += n]. *)
Definition stat (c : Ctrl) (name : string) : Z := default 0 (m_stats c !! name).
Definition bump (c : Ctrl) (name : string) (n : Z) : Ctrl :=
  set_stats c (<[name := stat c name + n]> (m_stats c)).

(** ** Forwarding methods *)
Definition ctrl_check_timing (c : Ctrl) (command : Z) (av : AddrVec_t) : result bool :=
  device_check_timing (m_device c) command av (m_clk c).
Definition ctrl_get_preq_command (c : Ctrl) (command : Z) (av : AddrVec_t) : result Z :=
  get_preq_command (m_device c) command av (m_clk c).
Definition ctrl_set_channel_id (c : Ctrl) (channel_id : Z) : Ctrl :=
  set_channel (set_device c (set_channel_id (m_device c) channel_id)) channel_id.

(** ** Initialisation *)

(** binary32 arithmetic of the watermarks. *)
Definition f32_of_Z (z : Z) : spec_float := binary_normalize 24 128 z 0 false.
Definition f32_mul (x y : spec_float) : spec_float := SFmul 24 128 x y.
Definition f32_lt (x y : spec_float) : bool := SFltb x y.
Definition f32_isfinite (x : spec_float) : bool :=
  match x with S754_zero _ | S754_finite _ _ _ => true | _ => false end.

Record CtrlConfig := mkCtrlConfig {
  wr_low_watermark : spec_float;
  wr_high_watermark : spec_float;
  read_buffer_size : Z;
  write_buffer_size : Z;
  priority_buffer_size : Z;
  dram_impl : string;
  dram_config : DramConfig
}.

Definition init_base (cfg : CtrlConfig) : result Ctrl :=
  if (read_buffer_size cfg <=? 0) || (write_buffer_size cfg <=? 0) || (priority_buffer_size cfg <? 0)
  then Err (Throw "ControllerBase: read/write buffer sizes must be positive and priority buffer size must be non-negative")
  else if negb (f32_isfinite (wr_low_watermark cfg)) || negb (f32_isfinite (wr_high_watermark cfg)) ||
          f32_lt (wr_low_watermark cfg) (f32_of_Z 0) || f32_lt (f32_of_Z 1) (wr_high_watermark cfg) ||
          f32_lt (wr_high_watermark cfg) (wr_low_watermark cfg)
  then Err (Throw "ControllerBase: watermarks must satisfy 0 <= low <= high <= 1")
  else
    spec ← create (dram_impl cfg) (dram_config cfg);
    device ← init spec;
    _ ← get_timing_value spec "tCK_ps";
    let banks := length (m_bank_nodes device) in
    Ok (mkCtrl (-1) 0 device [] 0
          (mkReqBuffer [] (Z.of_nat banks)) (mkReqBuffer [] (priority_buffer_size cfg))
          (mkReqBuffer [] (read_buffer_size cfg)) (mkReqBuffer [] (write_buffer_size cfg)) ∅
          (wr_low_watermark cfg) (wr_high_watermark cfg) false (replicate banks 0) 0 ∅ []).

(** [setup_base]: the per-core counters. *)
Definition setup_base (c : Ctrl) (num_cores : Z) : Ctrl :=
  mkCtrl (m_channel_id c) (m_clk c) (m_device c) (m_pending c) (m_pending_sequence c)
    (m_active_buffer c) (m_priority_buffer c) (m_read_buffer c) (m_write_buffer c) (m_buffered_write_addrs c)
    (m_wr_low_watermark c) (m_wr_high_watermark c) (m_is_write_mode c) (m_active_per_bank c) num_cores
    (m_stats c) (m_log c).

(** ** The pending queue: ordered by departure, then insertion sequence *)
Definition pending_gtb (a b : PendingRead) : bool :=
  if negb (p_depart a =? p_depart b) then p_depart b <? p_depart a else p_sequence b <? p_sequence a.

Fixpoint pq_push (p : PendingRead) (q : list PendingRead) : list PendingRead :=
  match q with
  | [] => [p]
  | x :: q' => if pending_gtb x p then p :: x :: q' else x :: pq_push p q'
  end.

Definition push_pending (c : Ctrl) (r : Request) : Ctrl :=
  set_pending c (pq_push (mkPending (depart r) (m_pending_sequence c) r) (m_pending c))
    (m_pending_sequence c + 1).

Definition notify_departure_scheduled (c : Ctrl) (r : Request) : Ctrl := log_event c (EvDeparture r).

Definition run_callback (c : Ctrl) (r : Request) : Ctrl :=
  match callback r with Some _ => log_event c (EvCallback r) | None => c end.

(** ** Admission *)

(** [send]; [apply] is the address mapper.  Returns the verdict, the request as
    the caller sees it afterwards, and the controller. *)
Definition send (apply : Request -> result Request) (c : Ctrl) (req : Request)
  : result (bool * Request * Ctrl) :=
  if negb (type_id req =? Read) && negb (type_id req =? Write)
  then Err (Throw ("ControllerBase only supports Read (0) and Write (1) request types, got type_id " +:+ pretty (type_id req)))
  else
    req ← apply req;
    av ← vset (addr_vec req) 0 (m_channel_id c);
    let req := set_addr_vec req av in
    fc ← vget (supported_requests (m_spec (m_device c))) (type_id req);
    let req := set_final_command req fc in
    if (type_id req =? Read) && bool_decide (addr req ∈ m_buffered_write_addrs c) then
      let req := set_depart (set_arrive req (m_clk c)) (m_clk c + 1) in
      let c := notify_departure_scheduled (push_pending c req) req in
      Ok (true, req, bump (bump c "num_read_reqs" 1) "num_read_reqs_forwarded" 1)
    else
      let req := set_arrive req (m_clk c) in
      if type_id req =? Read then
        match enqueue (m_read_buffer c) req with
        | (true, b) => Ok (true, req, bump (set_buf c BRead b) "num_read_reqs" 1)
        | (false, _) => Ok (false, set_arrive req (-1), c)
        end
      else if bool_decide (addr req ∈ m_buffered_write_addrs c) then
        let c := notify_departure_scheduled c (set_depart req (m_clk c)) in
        let c := run_callback c req in
        Ok (true, req, bump (bump c "num_write_reqs" 1) "num_write_reqs_coalesced" 1)
      else
        match enqueue (m_write_buffer c) req with
        | (true, b) =>
            Ok (true, req, bump (set_write_addrs (set_buf c BWrite b)
                                   ({[addr req]} ∪ m_buffered_write_addrs c)) "num_write_reqs" 1)
        | (false, _) => Ok (false, set_arrive req (-1), c)
        end.

Definition priority_send (c : Ctrl) (req : Request) : result (bool * Ctrl) :=
  if (final_command req <? 0) || (command_count (m_spec (m_device c)) <=? final_command req)
  then Err (Throw ("Invalid priority request final_command " +:+ pretty (final_command req) +:+
               ": expected a DRAM command id in [0, " +:+ pretty (command_count (m_spec (m_device c))) +:+ ")"))
  else
    match enqueue (m_priority_buffer c) req with
    | (true, b) =>
        let c := set_buf c BPriority b in
        Ok (true, if type_id req =? -1 then bump c "num_maintenance_reqs" 1 else c)
    | (false, _) => Ok (false, c)
    end.

(** ** Tick preamble *)

(** The loop of [serve_completed_reads] pops the queue's head while it is due. *)
Fixpoint serve_loop (q : list PendingRead) (c : Ctrl) : Ctrl :=
  match q with
  | [] => set_pending c [] (m_pending_sequence c)
  | p :: q' =>
      if m_clk c <? p_depart p then set_pending c (p :: q') (m_pending_sequence c)
      else
        let req := p_req p in
        let c := bump (bump c "read_latency" (depart req - arrive req)) "num_read_reqs_served" 1 in
        serve_loop q' (run_callback c req)
  end.
Definition serve_completed_reads (c : Ctrl) : Ctrl := serve_loop (m_pending c) c.

Definition tick_prologue (c : Ctrl) : Ctrl :=
  let c := set_clk c (m_clk c + 1) in
  let c := bump c "cycles" 1 in
  let r := buf_size (m_read_buffer c) in
  let w := buf_size (m_write_buffer c) in
  let p := buf_size (m_priority_buffer c) in
  let c := bump c "queue_len" (r + w + p) in
  let c := bump c "read_queue_len" r in
  let c := bump c "write_queue_len" w in
  let c := bump c "priority_queue_len" p in
  serve_completed_reads c.

(** ** Request life cycle *)
Definition bump_active (c : Ctrl) (av : AddrVec_t) (n : Z) : result Ctrl :=
  id ← get_flat_bank_id (m_device c) av;
  k ← vget (m_active_per_bank c) id;
  l ← vset (m_active_per_bank c) id (k + n);
  Ok (set_active_per_bank c l).

Definition retire_request (c : Ctrl) (id : buf_id) (i : nat) : result Ctrl :=
  r ← req_at c id i;
  c ← (if decide (id = BActive) then bump_active c (addr_vec r) (-1) else Ok c);
  let c := if decide (id = BWrite) then set_write_addrs c (m_buffered_write_addrs c ∖ {[addr r]}) else c in
  let c :=
    if type_id r =? Read then
      let r := set_depart r (m_clk c + read_latency (m_spec (m_device c))) in
      notify_departure_scheduled (push_pending (put_req c id i r) r) r
    else if type_id r =? Write then
      let c := notify_departure_scheduled c (set_depart r (m_clk c)) in
      bump (run_callback c r) "num_write_reqs_served" 1
    else if type_id r =? -1 then bump c "num_maintenance_reqs_served" 1
    else c in
  Ok (set_buf c id (remove_at (get_buf c id) i)).

Definition promote_to_active (c : Ctrl) (id : buf_id) (i : nat) : result Ctrl :=
  r ← req_at c id i;
  match enqueue (m_active_buffer c) r with
  | (false, _) => Ok c
  | (true, b) =>
      c ← bump_active (set_buf c BActive b) (addr_vec r) 1;
      let c := if decide (id = BWrite) then set_write_addrs c (m_buffered_write_addrs c ∖ {[addr r]}) else c in
      Ok (set_buf c id (remove_at (get_buf c id) i))
  end.

(** ** Scheduling helpers *)

(** The linear scan of [would_close_active] over the occupied banks. *)
Fixpoint scan_active (c : Ctrl) (target : BankTarget) (av : AddrVec_t) (l : list Z) (banks : list node_ptr)
  : result bool :=
  match l, banks with
  | [], _ => Ok false
  | _ :: _, [] => Err Undef
  | n :: l, p :: banks =>
      if n =? 0 then scan_active c target av l banks
      else
        skip ← (if decide (target = SameBank)
                then bank ← deref (m_device c) p; a ← vget av (m_bank_level (m_device c));
                     Ok (negb (m_node_id bank =? a))
                else Ok false);
        if (skip : bool) then scan_active c target av l banks
        else
          hit ← bank_matches (m_device c) p av;
          if (hit : bool) then Ok true else scan_active c target av l banks
  end.

Definition would_close_active (c : Ctrl) (req : Request) : result bool :=
  meta ← vget (command_meta (m_spec (m_device c))) (command req);
  if negb (is_closing meta) then Ok false
  else if buf_size (m_active_buffer c) =? 0 then Ok false
  else
    target ← vget (bank_targets (m_spec (m_device c))) (command req);
    if decide (target = Single) then
      id ← get_flat_bank_id (m_device c) (addr_vec req);
      n ← vget (m_active_per_bank c) id;
      Ok (0 <? n)
    else scan_active c target (addr_vec req) (m_active_per_bank c) (m_bank_nodes (m_device c)).

(** Row-buffer outcome counters, by request type. *)
Definition update_request_stats (c : Ctrl) (id : buf_id) (i : nat) : result Ctrl :=
  r ← req_at c id i;
  let r := set_is_stat_updated r true in
  let c := put_req c id i r in
  if (type_id r =? Read) || (type_id r =? Write) then
    let kind := if type_id r =? Read then "read_" else "write_" in
    hit ← check_rowbuffer_hit (m_device c) (final_command r) (addr_vec r) (m_clk c);
    outcome ← (if (hit : bool) then Ok "row_hits"
               else open ← check_node_open (m_device c) (final_command r) (addr_vec r) (m_clk c);
                    Ok (if (open : bool) then "row_conflicts" else "row_misses"));
    let c := bump (bump c (kind +:+ outcome) 1) outcome 1 in
    Ok (if (type_id r =? Read) && (0 <=? source_id r) && (source_id r <? m_num_cores c)
        then bump c ("read_" +:+ outcome +:+ "_core_" +:+ pretty (source_id r)) 1 else c)
  else Ok c.

(** [size > high * max] and [size < low * max] in binary32. *)
Definition above_high (c : Ctrl) : bool :=
  f32_lt (f32_mul (m_wr_high_watermark c) (f32_of_Z (max_size (m_write_buffer c))))
    (f32_of_Z (buf_size (m_write_buffer c))).
Definition below_low (c : Ctrl) : bool :=
  f32_lt (f32_of_Z (buf_size (m_write_buffer c)))
    (f32_mul (m_wr_low_watermark c) (f32_of_Z (max_size (m_write_buffer c)))).

Definition set_write_mode (c : Ctrl) : Ctrl :=
  if negb (m_is_write_mode c) then
    if above_high c || (buf_size (m_read_buffer c) =? 0) then set_mode c true else c
  else if ((buf_size (m_write_buffer c) =? 0) || below_low c) && negb (buf_size (m_read_buffer c) =? 0)
  then set_mode c false else c.

(** [reset_stats]: every registered counter back to zero. *)
Definition reset_stats (c : Ctrl) : Ctrl := set_stats c ∅.
