(* ===== verification/Scheduler.v ===== *)
(** * Request schedulers

    [controller/scheduler/i_scheduler.h], [frfcfs.cpp] and [frfcfs_rowhit.cpp]:
    the interface a controller schedules against, the two schedulers, and what
    they select. *)

From Stdlib Require Import ZArith Lia.
From S2P Require Import Prelude Base Spec Node Standards Device Controller.

Local Open Scope Z_scope.

(** [RequestFilterRef]; the empty filter accepts everything. *)
Definition filter_t : Type := Request -> result bool.
Definition no_filter : filter_t := fun _ => Ok true.

(** [get_best_request]: the buffer with every [command] refreshed, and the
    position of the choice ([None] is [buffer.end()]). *)
Definition scheduler_t : Type := Ctrl -> ReqBuffer -> filter_t -> result (ReqBuffer * option nat).

(** ** The first-ready, first-come-first-served scan *)

(** The incumbent: its position, arrival and cached readiness. *)
Record Cand := mkCand { cd_pos : nat; cd_arrive : Clk_t; cd_ready : bool }.

(** The comparison of a challenger that passed the filters with the incumbent. *)
Definition challenge (cand : option Cand) (i : nat) (r : Request) (ok : bool) : option Cand :=
  match cand with
  | None => Some (mkCand i (arrive r) ok)
  | Some inc =>
      if negb (Bool.eqb (cd_ready inc) ok) then
        if ok then Some (mkCand i (arrive r) true) else cand
      else if arrive r <? cd_arrive inc then Some (mkCand i (arrive r) (cd_ready inc))
      else cand
  end.

(** The loop over the buffer; [resolve] is the statement that precedes the
    filters. *)
Fixpoint scan (c : Ctrl) (refresh : Request -> result Request) (eligible : filter_t) (i : nat)
  (cand : option Cand) (l : list Request) : result (list Request * option Cand) :=
  match l with
  | [] => Ok ([], cand)
  | r :: l =>
      r ← refresh r;
      e ← eligible r;
      cand ← (if (e : bool)
              then ok ← ctrl_check_timing c (command r) (addr_vec r); Ok (challenge cand i r ok)
              else Ok cand);
      p ← scan c refresh eligible (S i) cand l;
      Ok (r :: p.1, p.2)
  end.

(** [it->command = get_preq_command(it->final_command, it->addr_vec)]. *)
Definition derive_command (c : Ctrl) (r : Request) : result Request :=
  cmd ← ctrl_get_preq_command c (final_command r) (addr_vec r); Ok (set_command r cmd).

Definition FRFCFS : scheduler_t := fun c b filter =>
  p ← scan c (derive_command c) filter 0 None (buffer b);
  Ok (mkReqBuffer p.1 (max_size b), option_map cd_pos p.2).

(** ** The row-hit aware variant *)

(** Pass 1: per bank, whether a row hit is buffered and the earliest arrival. *)
Definition record_rowhit (c : Ctrl) (flags : list (option Clk_t)) (r : Request)
  : result (list (option Clk_t)) :=
  hit ← check_rowbuffer_hit (m_device c) (final_command r) (addr_vec r) (m_clk c);
  if (hit : bool) then
    bank ← get_flat_bank_id (m_device c) (addr_vec r);
    if (0 <=? bank) && (bank <? Z.of_nat (length flags)) then
      flag ← vget flags bank;
      if match flag with None => true | Some a => arrive r <? a end
      then vset flags bank (Some (arrive r)) else Ok flags
    else Ok flags
  else Ok flags.

Definition pass1 (c : Ctrl) (banks : nat) (l : list Request) : result (list Request * list (option Clk_t)) :=
  foldM (fun p r =>
           r ← derive_command c r;
           flags ← record_rowhit c p.2 r;
           Ok (p.1 ++ [r], flags)) ([], replicate banks None) l.

Definition would_preempt_rowhit (c : Ctrl) (flags : list (option Clk_t)) (r : Request) : result bool :=
  meta ← vget (command_meta (m_spec (m_device c))) (command r);
  if negb (is_closing meta) then Ok false
  else if command r =? final_command r then Ok false
  else
    target ← vget (bank_targets (m_spec (m_device c))) (command r);
    if negb (bool_decide (target = Single)) then Ok false
    else
      bank ← get_flat_bank_id (m_device c) (addr_vec r);
      if (bank <? 0) || (Z.of_nat (length flags) <=? bank) then Ok false
      else
        flag ← vget flags bank;
        Ok (match flag with None => false | Some a => a <=? arrive r end).

Definition FRFCFSRowHit : scheduler_t := fun c b filter =>
  if buf_size b =? 0 then Ok (b, None)
  else
    p1 ← pass1 c (length (m_bank_nodes (m_device c))) (buffer b);
    p2 ← scan c (fun r => Ok r)
           (fun r => f ← filter r;
                     if (f : bool) then pre ← would_preempt_rowhit c p1.2 r; Ok (negb pre) else Ok false)
           0 None p1.1;
    Ok (mkReqBuffer p2.1 (max_size b), option_map cd_pos p2.2).

(** ** What the scan selects *)

(** The requests after [refresh], with their eligibility and readiness. *)
Record Verdict := mkVerdict { v_req : Request; v_elig : bool; v_ready : bool }.

(** [i] is the best of the eligible requests: ready before not ready, then the
    earliest arrival, then the earliest position. *)
Definition is_best (vs : list Verdict) (i : nat) : Prop :=
  exists v, vs !! i = Some v /\ v_elig v = true /\
  forall j w, vs !! j = Some w -> v_elig w = true ->
    (v_ready w = true -> v_ready v = true) /\
    (v_ready w = v_ready v ->
     arrive (v_req v) < arrive (v_req w) \/ (arrive (v_req v) = arrive (v_req w) /\ (i <= j)%nat)).

Definition cand_ok (vs : list Verdict) (cand : option Cand) : Prop :=
  match cand with
  | None => forall i v, vs !! i = Some v -> v_elig v = false
  | Some inc => is_best vs (cd_pos inc) /\
      exists v, vs !! cd_pos inc = Some v /\ arrive (v_req v) = cd_arrive inc /\ v_ready v = cd_ready inc
  end.

Lemma is_best_weaken (vs : list Verdict) (v : Verdict) (i : nat) (u : Verdict) :
  is_best vs i -> vs !! i = Some u ->
  (v_elig v = true ->
    (v_ready v = true -> v_ready u = true) /\
    (v_ready v = v_ready u -> arrive (v_req u) <= arrive (v_req v))) ->
  is_best (vs ++ [v]) i.
Proof.
  intros (u' & Hu' & He & Hall) Hu Hv. rewrite Hu in Hu'. injection Hu' as <-.
  pose proof (lookup_lt_Some _ _ _ Hu). exists u. split_and!; [by apply lookup_app_l_Some|done|].
  intros j w Hj Hw. apply lookup_app_Some in Hj as [Hj|[Hge Hj]]; [by eapply Hall|].
  destruct (j - length vs)%nat eqn:E; simpl in Hj; [|done]. injection Hj as <-.
  destruct (Hv Hw) as [H1 H2]. split; [done|]. intros Hr. specialize (H2 Hr). lia.
Qed.

Lemma challenge_ok (vs : list Verdict) (cand : option Cand) (v : Verdict) :
  cand_ok vs cand -> v_elig v = true ->
  cand_ok (vs ++ [v]) (challenge cand (length vs) (v_req v) (v_ready v)).
Proof.
  intros Hc He. assert (Hself : (vs ++ [v]) !! length vs = Some v) by apply list_lookup_middle, eq_refl.
  assert (Hold : forall j w, (vs ++ [v]) !! j = Some w -> j <> length vs -> vs !! j = Some w).
  { intros j w Hj Hne. apply lookup_app_Some in Hj as [Hj|[Hge Hj]]; [done|].
    apply lookup_lt_Some in Hj. simpl in Hj. lia. }
  unfold challenge. destruct cand as [inc|]; simpl in Hc.
  - destruct Hc as (Hb & u & Hu & Ha & Hr). pose proof Hb as (u' & Hu' & _ & Hall).
    rewrite Hu in Hu'. injection Hu' as <-.
    assert (Hnew : (v_ready v = true /\ v_ready u = false \/
                    v_ready v = v_ready u /\ arrive (v_req v) < arrive (v_req u)) ->
                   is_best (vs ++ [v]) (length vs)).
    { intros Hcase. exists v. split_and!; [done|done|]. intros j w Hj Hw.
      destruct (decide (j = length vs)) as [->|Hne].
      - rewrite Hself in Hj. injection Hj as <-. split; [done|]. right. lia.
      - specialize (Hold j w Hj Hne). destruct (Hall j w Hold Hw) as [H1 H2].
        destruct Hcase as [[Hv Hu0]|[Hv Hlt]].
        + split; [done|]. intros E. exfalso. rewrite Hv in E. specialize (H1 E). congruence.
        + split; [rewrite Hv; done|]. intros E. rewrite Hv in E. specialize (H2 E). lia. }
    rewrite <- Hr, <- Ha. destruct (Bool.eqb (v_ready u) (v_ready v)) eqn:Eb; simpl.
    + apply eqb_prop in Eb. destruct (Z.ltb_spec (arrive (v_req v)) (arrive (v_req u))).
      * split; [apply Hnew; right; done|]. by exists v.
      * split; [eapply is_best_weaken; [done|done|]; intros _; split; [congruence|intros _; lia]|].
        exists u. split_and!; [by apply lookup_app_l_Some|done|done].
    + apply eqb_false_iff in Eb. destruct (v_ready v) eqn:Ev.
      * split; [apply Hnew; left; split; [done|by destruct (v_ready u)]|]. by exists v.
      * split; [eapply is_best_weaken; [done|done|]; intros _; split; congruence|].
        exists u. split_and!; [by apply lookup_app_l_Some|done|done].
  - split; [|by exists v]. exists v. split_and!; [done|done|]. intros j w Hj Hw.
    destruct (decide (j = length vs)) as [->|Hne].
    + rewrite Hself in Hj. injection Hj as <-. split; [done|]. right. simpl. lia.
    + specialize (Hc j w (Hold j w Hj Hne)). congruence.
Qed.

(** How a verdict comes from a request. *)
Definition judged (c : Ctrl) (refresh : Request -> result Request) (eligible : filter_t)
  (r : Request) (v : Verdict) : Prop :=
  refresh r = Ok (v_req v) /\ eligible (v_req v) = Ok (v_elig v) /\
  (v_elig v = true -> ctrl_check_timing c (command (v_req v)) (addr_vec (v_req v)) = Ok (v_ready v)).

Lemma scan_spec (c : Ctrl) (refresh : Request -> result Request) (eligible : filter_t)
  (l l' : list Request) (vs0 : list Verdict) (cand cand' : option Cand) :
  scan c refresh eligible (length vs0) cand l = Ok (l', cand') -> cand_ok vs0 cand ->
  exists vs, cand_ok (vs0 ++ vs) cand' /\ l' = map v_req vs /\ Forall2 (judged c refresh eligible) l vs.
Proof.
  revert vs0 cand l'. induction l as [|r l IH]; intros vs0 cand l' H Hc; simpl in H.
  { injection H as <- <-. exists []. by rewrite app_nil_r. }
  apply bind_Ok in H as (r1 & Hr & H). apply bind_Ok in H as (e & He & H).
  apply bind_Ok in H as (cand1 & Hcand & H). apply bind_Ok in H as ([l1 cand2] & Hs & H).
  simpl in H. injection H as <- <-.
  assert (exists ok, (e = true -> ctrl_check_timing c (command r1) (addr_vec r1) = Ok ok) /\
            cand_ok (vs0 ++ [mkVerdict r1 e ok]) cand1) as (ok & Hok & Hc1).
  { destruct e.
    - apply bind_Ok in Hcand as (ok & Hok & [= <-]). exists ok. split; [done|].
      by apply (challenge_ok vs0 cand (mkVerdict r1 true ok)).
    - injection Hcand as <-. exists false. split; [done|]. destruct cand as [inc|]; simpl in *.
      + destruct Hc as (Hb & u & Hu & ? & ?). split; [by eapply is_best_weaken|].
        exists u. split_and!; [by apply lookup_app_l_Some|done|done].
      + intros i v [Hv|[_ Hv]]%lookup_app_Some; [by eapply Hc|].
        destruct (i - length vs0)%nat; simpl in Hv; [by simplify_eq|done]. }
  destruct (IH (vs0 ++ [mkVerdict r1 e ok]) cand1 l1) as (vs & Hc2 & -> & Hvs); [|done|].
  { rewrite length_app. simpl. by rewrite Nat.add_1_r. }
  exists (mkVerdict r1 e ok :: vs). rewrite <- app_assoc in Hc2. split_and!; [done|done|].
  constructor; [done|done].
Qed.

(** What the controller relies on: the choice is an element of the refreshed
    buffer that passed the filter, and refreshing only derives commands. *)
Class SchedulerLaws (sch : scheduler_t) := {
  sched_refresh : forall c b f b' o, sch c b f = Ok (b', o) ->
    max_size b' = max_size b /\ Forall2 (fun r r' => derive_command c r = Ok r') (buffer b) (buffer b');
  sched_choice : forall c b f b' i, sch c b f = Ok (b', Some i) ->
    exists r, buffer b' !! i = Some r /\ f r = Ok true
}.

Lemma FRFCFS_spec (c : Ctrl) (b b' : ReqBuffer) (f : filter_t) (o : option nat) :
  FRFCFS c b f = Ok (b', o) ->
  exists vs, buffer b' = map v_req vs /\ max_size b' = max_size b /\
    Forall2 (judged c (derive_command c) f) (buffer b) vs /\
    match o with
    | Some i => is_best vs i
    | None => forall i v, vs !! i = Some v -> v_elig v = false
    end.
Proof.
  unfold FRFCFS. intros ([l cand] & Hs & H)%bind_Ok. injection H as <- <-. simpl.
  destruct (scan_spec c (derive_command c) f (buffer b) l [] None cand Hs) as (vs & Hc & -> & Hvs); [done|].
  exists vs. split_and!; try done. destruct cand as [inc|]; simpl in *; [apply Hc|done].
Qed.

Lemma best_choice (c : Ctrl) refresh (f : filter_t) (l : list Request) (vs : list Verdict) (i : nat) :
  Forall2 (judged c refresh f) l vs -> is_best vs i -> exists r, map v_req vs !! i = Some r /\ f r = Ok true.
Proof.
  intros HF (v & Hv & He & _). destruct (Forall2_lookup_r _ _ _ _ _ HF Hv) as (r & _ & _ & Hf & _).
  exists (v_req v). rewrite list_lookup_fmap, Hv. split; [done|]. by rewrite Hf, He.
Qed.

#[export] Instance FRFCFS_laws : SchedulerLaws FRFCFS.
Proof.
  split.
  - intros c b f b' o (vs & -> & ? & HF & _)%FRFCFS_spec. split; [done|]. apply Forall2_fmap_r.
    eapply Forall2_impl; [exact HF|]. intros r v (? & _). done.
  - intros c b f b' i (vs & -> & ? & HF & Hb)%FRFCFS_spec. by eapply best_choice.
Qed.

(** ** Pass 1 of the row-hit variant *)

(** The flags after pass 1: for each bank the earliest arrival among the row hits
    seen so far. *)
Definition flags_ok (c : Ctrl) (rs : list Request) (flags : list (option Clk_t)) : Prop :=
  forall r bank, r ∈ rs ->
    check_rowbuffer_hit (m_device c) (final_command r) (addr_vec r) (m_clk c) = Ok true ->
    get_flat_bank_id (m_device c) (addr_vec r) = Ok bank -> 0 <= bank < Z.of_nat (length flags) ->
    exists a, flags !! Z.to_nat bank = Some (Some a) /\ a <= arrive r.

Lemma record_rowhit_spec (c : Ctrl) (rs : list Request) (flags flags' : list (option Clk_t)) (r : Request) :
  flags_ok c rs flags -> record_rowhit c flags r = Ok flags' ->
  flags_ok c (rs ++ [r]) flags' /\ length flags' = length flags.
Proof.
  intros Hok H. unfold record_rowhit in H. apply bind_Ok in H as (hit & Hhit & H).
  assert (Hkeep : hit = false \/ (forall bank, get_flat_bank_id (m_device c) (addr_vec r) = Ok bank ->
            0 <= bank < Z.of_nat (length flags) ->
            exists a, flags !! Z.to_nat bank = Some (Some a) /\ a <= arrive r) ->
          flags_ok c (rs ++ [r]) flags).
  { intros Hcase r' bank [Hin|Hin]%elem_of_app Hh Hb Hr; [by eapply Hok|].
    apply list_elem_of_singleton in Hin as ->. destruct Hcase as [->|Hc]; [congruence|by apply Hc]. }
  destruct hit; [|injection H as <-; auto].
  apply bind_Ok in H as (bank & Hbank & H).
  destruct ((0 <=? bank) && (bank <? Z.of_nat (length flags))) eqn:Hrange.
  2: { injection H as <-. split; [|done]. apply Hkeep. right. intros b Hb Hr.
       rewrite Hbank in Hb. injection Hb as <-. lia. }
  apply bind_Ok in H as (flag & [_ Hflag]%vget_Ok & H).
  destruct (match flag with None => true | Some a => arrive r <? a end) eqn:Hupd.
  - apply vset_Ok in H as [Hr ->]. split; [|by rewrite length_insert].
    intros r' b Hin Hh Hb Hb'. rewrite length_insert in Hb'.
    destruct (decide (b = bank)) as [->|Hne].
    + exists (arrive r). rewrite list_lookup_insert_eq by lia. split; [done|].
      apply elem_of_app in Hin as [Hin|Hin]; [|by apply list_elem_of_singleton in Hin as ->].
      destruct (Hok r' bank Hin Hh Hb ltac:(lia)) as (a & Ha & ?). rewrite Hflag in Ha. simplify_eq.
      apply Z.ltb_lt in Hupd. lia.
    + rewrite list_lookup_insert_ne by lia.
      apply elem_of_app in Hin as [Hin|Hin]; [by eapply Hok|].
      apply list_elem_of_singleton in Hin as ->. congruence.
  - injection H as <-. split; [|done]. apply Hkeep. right. intros b Hb Hr.
    rewrite Hbank in Hb. injection Hb as <-. destruct flag as [a|]; [|done].
    exists a. split; [done|]. lia.
Qed.

Lemma pass1_spec (c : Ctrl) (banks : nat) (l l' : list Request) (flags : list (option Clk_t)) :
  pass1 c banks l = Ok (l', flags) ->
  Forall2 (fun r r' => derive_command c r = Ok r') l l' /\ flags_ok c l' flags /\ length flags = banks.
Proof.
  unfold pass1.
  assert (Hgen : forall l l0 lp l' flags0 flags,
    Forall2 (fun r r' => derive_command c r = Ok r') l0 lp -> flags_ok c lp flags0 -> length flags0 = banks ->
    foldM (fun p r => r ← derive_command c r; flags ← record_rowhit c p.2 r; Ok (p.1 ++ [r], flags)) (lp, flags0) l
      = Ok (l', flags) ->
    Forall2 (fun r r' => derive_command c r = Ok r') (l0 ++ l) l' /\ flags_ok c l' flags /\ length flags = banks).
  { clear. induction l as [|r l IH]; intros l0 lp l' flags0 flags HF Hok Hlen H; simpl in H.
    - injection H as <- <-. by rewrite app_nil_r.
    - apply bind_Ok in H as ([lp1 fl1] & H1 & H). apply bind_Ok in H1 as (r1 & Hr & H1).
      apply bind_Ok in H1 as (fl & Hfl & H1). injection H1 as <- <-. simpl in *.
      destruct (record_rowhit_spec c lp flags0 fl r1 Hok Hfl) as [Hok1 Hlen1].
      destruct (IH (l0 ++ [r]) (lp ++ [r1]) l' fl flags) as (H1 & H2 & H3); [|done|congruence|done|].
      { apply Forall2_app; [done|]. by constructor. }
      by rewrite <- app_assoc in H1. }
  intros H. eapply (Hgen l [] []) in H; try done.
  - intros r bank Hr. by apply elem_of_nil in Hr.
  - apply length_replicate.
Qed.

(** The eligibility test of pass 2. *)
Definition rowhit_elig (c : Ctrl) (flags : list (option Clk_t)) (filter : filter_t) : filter_t :=
  fun r => f ← filter r;
           if (f : bool) then pre ← would_preempt_rowhit c flags r; Ok (negb pre) else Ok false.

Lemma FRFCFSRowHit_spec (c : Ctrl) (b b' : ReqBuffer) (f : filter_t) (o : option nat) :
  FRFCFSRowHit c b f = Ok (b', o) ->
  exists vs flags, buffer b' = map v_req vs /\ max_size b' = max_size b /\
    Forall2 (fun r r' => derive_command c r = Ok r') (buffer b) (buffer b') /\
    flags_ok c (buffer b') flags /\
    (buffer b <> [] -> length flags = length (m_bank_nodes (m_device c))) /\
    Forall2 (judged c (fun r => Ok r) (rowhit_elig c flags f)) (buffer b') vs /\
    match o with
    | Some i => is_best vs i
    | None => forall i v, vs !! i = Some v -> v_elig v = false
    end.
Proof.
  unfold FRFCFSRowHit. destruct (Z.eqb_spec (buf_size b) 0) as [E|E].
  - intros [= <- <-]. exists [], []. unfold buf_size in E. destruct (buffer b) eqn:Eb; [|simpl in E; lia].
    split_and!; try done. intros r bank Hr. by apply elem_of_nil in Hr.
  - intros ([l1 flags] & H1 & H)%bind_Ok. apply bind_Ok in H as ([l2 cand] & H2 & H). injection H as <- <-.
    simpl in *. destruct (pass1_spec _ _ _ _ _ H1) as (HF & Hok & Hlen).
    destruct (scan_spec c (fun r => Ok r) (rowhit_elig c flags f) l1 l2 [] None cand H2) as (vs & Hc & -> & Hvs); [done|].
    assert (map v_req vs = l1) as Emap.
    { clear -Hvs. induction Hvs as [|r v l vs (H & _) _ IH]; simpl; [done|]. by simplify_eq. }
    exists vs, flags. rewrite Emap. split_and!; try done.
    destruct cand as [inc|]; simpl in *; [apply Hc|done].
Qed.

#[export] Instance FRFCFSRowHit_laws : SchedulerLaws FRFCFSRowHit.
Proof.
  split.
  - intros c b f b' o (vs & flags & _ & ? & HF & _)%FRFCFSRowHit_spec. done.
  - intros c b f b' i (vs & flags & Hb & _ & _ & _ & _ & HF & Hbest)%FRFCFSRowHit_spec. rewrite Hb.
    destruct (best_choice _ _ _ _ _ _ HF Hbest) as (r & Hr & He). exists r. split; [done|].
    unfold rowhit_elig in He. apply bind_Ok in He as (e & He & H). by destruct e.
Qed.
