(* ===== verification/GenericDDR.v ===== *)
(** * The generic DDR controller

    The scheduling helpers of [controller_base.cpp] that call the scheduler, the
    interfaces of the refresh manager, the row policy and the plugins
    ([i_refresh_manager.h], [i_row_policy.h], [i_controller_plugin.h]) and the
    tick of [impl/generic_ddr_controller.cpp]. *)

From Stdlib Require Import ZArith Lia.
From S2P Require Import Prelude Base Spec Node Standards Device Controller Scheduler.

Local Open Scope Z_scope.

(** ** Picking a candidate *)

(** [Candidate]: [None] is [valid = false]. *)
Definition candidate : Type := option (buf_id * nat).

Definition pick_best_ready_from (sch : scheduler_t) (c : Ctrl) (id : buf_id) (filter : filter_t)
  : result (Ctrl * candidate) :=
  p ← sch c (get_buf c id) filter;
  let c := set_buf c id p.1 in
  match p.2 with
  | None => Ok (c, None)
  | Some i =>
      r ← req_at c id i;
      ok ← ctrl_check_timing c (command r) (addr_vec r);
      Ok (c, if (ok : bool) then Some (id, i) else None)
  end.

Definition pick_priority_if (c : Ctrl) (filter : filter_t) : result (Ctrl * candidate) :=
  if buf_size (m_priority_buffer c) =? 0 then Ok (c, None)
  else
    r ← req_at c BPriority 0;
    cmd ← ctrl_get_preq_command c (final_command r) (addr_vec r);
    let r := set_command r cmd in
    let c := put_req c BPriority 0 r in
    ok ← ctrl_check_timing c (command r) (addr_vec r);
    if negb ok then Ok (c, None)
    else
      w ← would_close_active c r;
      if (w : bool) then Ok (c, None)
      else
        f ← filter r;
        Ok (c, if (f : bool) then Some (BPriority, 0%nat) else None).

Definition pick_rw_if (sch : scheduler_t) (c : Ctrl) (filter : filter_t) : result (Ctrl * candidate) :=
  let c := set_write_mode c in
  let id := if m_is_write_mode c then BWrite else BRead in
  pick_best_ready_from sch c id
    (fun r => w ← would_close_active c r; if (w : bool) then Ok false else filter r).

(** ** Sub-component interfaces *)
Class RefreshManager (R : Type) := refresh_tick : R -> Ctrl -> result (R * Ctrl).

Class RowPolicy (P : Type) := {
  rp_pre_schedule : P -> Ctrl -> result (P * Ctrl);
  rp_try_upgrade_command : P -> Ctrl -> Request -> result Request;
  rp_on_issue : P -> Ctrl -> Request -> result P;
  rp_post_schedule : P -> Ctrl -> result (P * Ctrl)
}.

Class ControllerPlugin (G : Type) := {
  pl_pre_schedule : G -> Ctrl -> result (G * Ctrl);
  pl_on_issue : G -> Ctrl -> Request -> result (G * Ctrl);
  pl_post_schedule : G -> Ctrl -> result (G * Ctrl)
}.

(** [for (auto* p : m_plugins) p->hook()]. *)
Definition each_plugin {G} (hook : G -> Ctrl -> result (G * Ctrl)) (gs : list G) (c : Ctrl)
  : result (list G * Ctrl) :=
  foldM (fun (p : list G * Ctrl) g => q ← hook g p.2; Ok (p.1 ++ [q.1], q.2)) ([], c) gs.

(** A function of the base applied to an iterator into a further buffer of a
    derived controller.  The base distinguishes the active and the write buffer by
    their identity and treats every other buffer alike, so the further buffer takes
    the place of the priority buffer for the call. *)
Definition on_side_buffer (f : Ctrl -> buf_id -> nat -> result Ctrl) (c : Ctrl) (b : ReqBuffer) (i : nat)
  : result (Ctrl * ReqBuffer) :=
  c' ← f (set_buf c BPriority b) BPriority i;
  Ok (set_buf c' BPriority (m_priority_buffer c), m_priority_buffer c').

Section generic_ddr.
Context {R P G : Type} `{RefreshManager R} `{RowPolicy P} `{ControllerPlugin G} (sch : scheduler_t).

Record GenericDDR := mkGDDR {
  g_ctrl : Ctrl;
  g_refresh : R;
  g_policy : P;
  g_plugins : list G
}.

(** The controller with another [Ctrl]. *)
Definition with_base_ctrl (g : GenericDDR) (c : Ctrl) : GenericDDR :=
  mkGDDR c (g_refresh g) (g_policy g) (g_plugins g).

(** The cascade active > priority > read/write. *)
Definition pick (c : Ctrl) : result (Ctrl * candidate) :=
  a ← pick_best_ready_from sch c BActive no_filter;
  b ← (match a.2 with None => pick_priority_if a.1 no_filter | Some _ => Ok a end);
  match b.2 with
  | None => if buf_size (m_priority_buffer b.1) =? 0 then pick_rw_if sch b.1 no_filter else Ok b
  | Some _ => Ok b
  end.

(** Everything up to and including the command's issue. *)
Definition issue_candidate (p : P) (c : Ctrl) (id : buf_id) (i : nat) : result Ctrl :=
  r ← req_at c id i;
  r ← rp_try_upgrade_command p c r;
  let c := put_req c id i r in
  c ← (if negb (is_stat_updated r) then update_request_stats c id i else Ok c);
  r ← req_at c id i;
  d ← issue_command (m_device c) (command r) (addr_vec r) (m_clk c);
  Ok (set_device c d).

(** Retire the request, promote it, or leave it where it is. *)
Definition advance_request (c : Ctrl) (id : buf_id) (i : nat) : result Ctrl :=
  r ← req_at c id i;
  if command r =? final_command r then retire_request c id i
  else
    meta ← vget (command_meta (m_spec (m_device c))) (command r);
    if is_opening meta then promote_to_active c id i else Ok c.

Definition serve_candidate (g : GenericDDR) (id : buf_id) (i : nat) : result GenericDDR :=
  c ← issue_candidate (g_policy g) (g_ctrl g) id i;
  r ← req_at c id i;
  p ← rp_on_issue (g_policy g) c r;
  q ← each_plugin (fun g c => pl_on_issue g c r) (g_plugins g) c;
  c ← advance_request q.2 id i;
  Ok (mkGDDR c (g_refresh g) p q.1).

(** The hooks that run before scheduling. *)
Definition pre_hooks (g : GenericDDR) : result GenericDDR :=
  rf ← refresh_tick (g_refresh g) (tick_prologue (g_ctrl g));
  rp ← rp_pre_schedule (g_policy g) rf.2;
  pl ← each_plugin pl_pre_schedule (g_plugins g) rp.2;
  Ok (mkGDDR pl.2 rf.1 rp.1 pl.1).

Definition post_hooks (g : GenericDDR) : result GenericDDR :=
  rp ← rp_post_schedule (g_policy g) (g_ctrl g);
  pl ← each_plugin pl_post_schedule (g_plugins g) rp.2;
  Ok (mkGDDR pl.2 (g_refresh g) rp.1 pl.1).

Definition tick (g : GenericDDR) : result GenericDDR :=
  g ← pre_hooks g;
  k ← pick (g_ctrl g);
  let g := mkGDDR k.1 (g_refresh g) (g_policy g) (g_plugins g) in
  g ← (match k.2 with None => Ok g | Some (id, i) => serve_candidate g id i end);
  post_hooks g.
End generic_ddr.
Arguments GenericDDR : clear implicits.
