(* ===== verification/ControllerFacts.v ===== *)
(** * Invariants of the controller base

    The bookkeeping every controller relies on: no request is lost or
    duplicated, the set of buffered write addresses is exact, and the pending
    queue is served in order at the announced clocks. *)

From Stdlib Require Import ZArith Lia Ascii.
From S2P Require Import Prelude Base Spec Node Standards Device Controller Scheduler GenericDDR.

Local Open Scope Z_scope.

(** ** Requests up to the fields scheduling rewrites *)

(** Equal but for [command], [final_command], [is_stat_updated] and [depart]. *)
Definition same_req (r r' : Request) : Prop :=
  addr r' = addr r /\ type_id r' = type_id r /\ addr_vec r' = addr_vec r /\ arrive r' = arrive r /\
  source_id r' = source_id r /\ callback r' = callback r.

#[export] Instance same_req_equiv : Equivalence same_req.
Proof.
  split.
  - intros r. unfold same_req. by split_and!.
  - intros r r' (? & ? & ? & ? & ? & ?). unfold same_req. by split_and!.
  - intros r1 r2 r3 (? & ? & ? & ? & ? & ?) (? & ? & ? & ? & ? & ?). unfold same_req. split_and!; congruence.
Qed.

Lemma set_command_same (r : Request) (x : Z) : same_req r (set_command r x).
Proof. by unfold same_req. Qed.

Definition same_buf (b b' : ReqBuffer) : Prop :=
  max_size b' = max_size b /\ Forall2 same_req (buffer b) (buffer b').

#[export] Instance same_buf_equiv : Equivalence same_buf.
Proof.
  split.
  - intros b. split; [done|]. apply Forall2_same_length_lookup. split; [done|]. intros i x y. by intros -> [= <-].
  - intros b b' [? H]. split; [done|].
    induction H as [|x y l k Hxy _ IH]; constructor; [exact (symmetry Hxy)|done].
  - intros b1 b2 b3 [? H1] [? H2]. split; [congruence|]. apply Forall2_same_length_lookup.
    apply Forall2_same_length_lookup in H1 as [L1 H1], H2 as [L2 H2]. split; [congruence|].
    intros i x z Hx Hz. destruct (lookup_lt_is_Some_2 (buffer b2) i) as [y Hy].
    { rewrite <- L1. by eapply lookup_lt_Some. }
    etrans; [by eapply H1|by eapply H2].
Qed.

Lemma set_at_same (b : ReqBuffer) (i : nat) (r r' : Request) :
  buffer b !! i = Some r -> same_req r r' -> same_buf b (set_at b i r').
Proof.
  intros Hi Hs. split; [done|]. simpl. apply Forall2_same_length_lookup. split; [by rewrite length_insert|].
  intros j x y Hx Hy. destruct (decide (i = j)) as [<-|Hne].
  - rewrite list_lookup_insert_eq in Hy by (by eapply lookup_lt_Some). by simplify_eq.
  - rewrite list_lookup_insert_ne in Hy by done. by simplify_eq.
Qed.

(** ** Counting requests by type *)
Definition cnt (t : Z) (b : ReqBuffer) : Z :=
  Z.of_nat (length (List.filter (fun r => type_id r =? t) (buffer b))).

Definition one_if (b : bool) : Z := if b then 1 else 0.

Definition in_bufs (t : Z) (c : Ctrl) : Z :=
  cnt t (m_active_buffer c) + cnt t (m_priority_buffer c) + cnt t (m_read_buffer c) + cnt t (m_write_buffer c).

Lemma cnt_app (t : Z) (l1 l2 : list Request) (m : Z) :
  cnt t (mkReqBuffer (l1 ++ l2) m) = cnt t (mkReqBuffer l1 m) + cnt t (mkReqBuffer l2 m).
Proof. unfold cnt. simpl. rewrite List.filter_app, length_app. lia. Qed.

Lemma cnt_remove (t : Z) (b : ReqBuffer) (i : nat) (r : Request) :
  buffer b !! i = Some r -> cnt t (remove_at b i) = cnt t b - one_if (type_id r =? t).
Proof.
  intros Hi. destruct b as [l m]. simpl in *. unfold remove_at. simpl.
  rewrite <- (take_drop_middle l i r Hi) at 2. rewrite delete_take_drop, !cnt_app.
  change (r :: drop (S i) l) with ([r] ++ drop (S i) l). rewrite cnt_app.
  assert (cnt t (mkReqBuffer [r] m) = one_if (type_id r =? t)) as ->; [|lia].
  unfold cnt. simpl. by destruct (type_id r =? t).
Qed.

Lemma cnt_enqueue (t : Z) (b b' : ReqBuffer) (r : Request) :
  enqueue b r = (true, b') -> cnt t b' = cnt t b + one_if (type_id r =? t).
Proof.
  unfold enqueue. destruct (_ <? _); [|done]. intros [= <-]. destruct b as [l m]. simpl. rewrite cnt_app.
  f_equal. unfold cnt. simpl. by destruct (type_id r =? t).
Qed.

Lemma cnt_same (t : Z) (b b' : ReqBuffer) : same_buf b b' -> cnt t b' = cnt t b.
Proof.
  intros [_ H]. unfold cnt. induction H as [|r r' l l' (_ & Ht & _) _ IH]; simpl; [done|].
  rewrite Ht. destruct (type_id r =? t); simpl; lia.
Qed.

Lemma in_bufs_set_buf (t : Z) (c : Ctrl) (id : buf_id) (b : ReqBuffer) :
  in_bufs t (set_buf c id b) = in_bufs t c - cnt t (get_buf c id) + cnt t b.
Proof. unfold in_bufs, set_buf. destruct id; simpl; lia. Qed.

(** ** Statistics *)
Lemma stat_bump_eq (c : Ctrl) (n : string) (k : Z) : stat (bump c n k) n = stat c n + k.
Proof. unfold stat, bump. simpl. by rewrite lookup_insert_eq. Qed.

Lemma stat_bump_ne (c : Ctrl) (n m : string) (k : Z) : n <> m -> stat (bump c n k) m = stat c m.
Proof. intros. unfold stat, bump. simpl. by rewrite lookup_insert_ne. Qed.

(** The counters of the ledger below. *)
Definition ledger_stats : list string :=
  ["num_read_reqs"; "num_read_reqs_served"; "num_write_reqs"; "num_write_reqs_served";
   "num_write_reqs_coalesced"; "num_maintenance_reqs"; "num_maintenance_reqs_served"].

(** Evaluates ledger counters through [bump]. *)
Ltac stats :=
  repeat first
    [ rewrite stat_bump_eq
    | rewrite stat_bump_ne by (intros ?; simplify_eq; discriminate) ].

(** ** The invariants *)

(** Every admitted request is in a buffer, in flight, or counted as served. *)
Definition ledger (c : Ctrl) : Prop :=
  stat c "num_read_reqs" =
    in_bufs Read c + Z.of_nat (length (m_pending c)) + stat c "num_read_reqs_served" /\
  stat c "num_write_reqs" =
    in_bufs Write c + stat c "num_write_reqs_served" + stat c "num_write_reqs_coalesced" /\
  stat c "num_maintenance_reqs" = in_bufs (-1) c + stat c "num_maintenance_reqs_served".

(** The write-address filter mirrors the write buffer, which holds each address
    once. *)
Definition write_addrs_ok (c : Ctrl) : Prop :=
  m_buffered_write_addrs c = list_to_set (addr <$> buffer (m_write_buffer c)) /\
  NoDup (addr <$> buffer (m_write_buffer c)).

(** Later in the order of the pending queue. *)
Definition pending_lt (a b : PendingRead) : Prop :=
  p_depart a < p_depart b \/ (p_depart a = p_depart b /\ p_sequence a < p_sequence b).

Definition pending_ok (c : Ctrl) : Prop :=
  StronglySorted pending_lt (m_pending c) /\
  Forall (fun p => m_clk c < p_depart p /\ p_sequence p < m_pending_sequence c /\
                   p_depart p = depart (p_req p)) (m_pending c).

Definition bufs_ok (c : Ctrl) : Prop := forall id, buf_wf (get_buf c id).

Record base_inv (c : Ctrl) : Prop := mkBaseInv {
  bi_ledger : ledger c;
  bi_write : write_addrs_ok c;
  bi_pending : pending_ok c;
  bi_bufs : bufs_ok c
}.

(** Two states that agree on everything the invariants read. *)
Record same_base (c c' : Ctrl) : Prop := mkSameBase {
  sb_clk : m_clk c' = m_clk c;
  sb_pending : m_pending c' = m_pending c;
  sb_seq : m_pending_sequence c' = m_pending_sequence c;
  sb_addrs : m_buffered_write_addrs c' = m_buffered_write_addrs c;
  sb_bufs : forall id, same_buf (get_buf c id) (get_buf c' id);
  sb_stats : forall n, n ∈ ledger_stats -> stat c' n = stat c n;
  sb_spec : m_spec (m_device c') = m_spec (m_device c);
  sb_log : m_log c' = m_log c
}.

#[export] Instance same_base_preorder : PreOrder same_base.
Proof.
  split.
  - intros c. by constructor.
  - intros c1 c2 c3 [a1 a2 a3 a4 a5 a6 a7 a8] [b1 b2 b3 b4 b5 b6 b7 b8]. constructor; try congruence.
    + intros id. etrans; [apply a5|apply b5].
    + intros n Hn. rewrite b6, a6; done.
Qed.

Lemma same_buf_addrs (b b' : ReqBuffer) : same_buf b b' -> addr <$> buffer b' = addr <$> buffer b.
Proof. intros [_ H]. induction H as [|r r' l l' (E & _) _ IH]; [done|]. by rewrite !fmap_cons, E, IH. Qed.

Lemma same_base_inv (c c' : Ctrl) : same_base c c' -> base_inv c -> base_inv c'.
Proof.
  intros [a1 a2 a3 a4 a5 a6 a7 a8] [(L1 & L2 & L3) [W1 W2] [P1 P2] B].
  assert (Hin : forall t, in_bufs t c' = in_bufs t c).
  { intros t. unfold in_bufs. pose proof (cnt_same t _ _ (a5 BActive)). pose proof (cnt_same t _ _ (a5 BPriority)).
    pose proof (cnt_same t _ _ (a5 BRead)). pose proof (cnt_same t _ _ (a5 BWrite)). simpl in *. lia. }
  constructor.
  - unfold ledger. rewrite !Hin, a2, !a6 by (unfold ledger_stats; set_solver). done.
  - unfold write_addrs_ok. pose proof (same_buf_addrs _ _ (a5 BWrite)) as E. simpl in E. by rewrite a4, E.
  - unfold pending_ok. rewrite a1, a2, a3. done.
  - intros id. specialize (B id). unfold buf_wf, buf_size in *. destruct (a5 id) as [-> HF].
    by rewrite <- (Forall2_length _ _ _ HF).
Qed.

(** ** Steps that keep the base *)
Lemma set_buf_same (c : Ctrl) (id : buf_id) (b : ReqBuffer) :
  same_buf (get_buf c id) b -> same_base c (set_buf c id b).
Proof.
  intros Hb. constructor; try done. intros id'. unfold set_buf. destruct id, id'; simpl in *; done || reflexivity.
Qed.

Lemma put_req_same (c : Ctrl) (id : buf_id) (i : nat) (r r' : Request) :
  req_at c id i = Ok r -> same_req r r' -> same_base c (put_req c id i r').
Proof.
  unfold req_at. intros Hr Hs. apply set_buf_same. destruct (buffer (get_buf c id) !! i) eqn:E; [|done].
  injection Hr as ->. by eapply set_at_same.
Qed.

Lemma set_mode_same (c : Ctrl) (m : bool) : same_base c (set_mode c m).
Proof. constructor; try done; intros []; reflexivity. Qed.

Lemma set_write_mode_same (c : Ctrl) : same_base c (set_write_mode c).
Proof.
  unfold set_write_mode. repeat case_match; try reflexivity; apply set_mode_same.
Qed.

Lemma bump_same (c : Ctrl) (n : string) (k : Z) : n ∉ ledger_stats -> same_base c (bump c n k).
Proof.
  intros Hn. constructor; try done. intros m Hm. apply stat_bump_ne. intros ->. done.
Qed.

Lemma set_device_same (c : Ctrl) (d : DRAMDevice) :
  m_spec d = m_spec (m_device c) -> same_base c (set_device c d).
Proof. intros. constructor; try done; intros []; reflexivity. Qed.

Lemma not_ledger (n : string) (a : Ascii.ascii) (s : string) :
  n = String a s -> a <> Ascii.ascii_of_nat 110 -> n ∉ ledger_stats.
Proof. intros -> Ha. unfold ledger_stats. rewrite !elem_of_cons, elem_of_nil. naive_solver. Qed.

Lemma update_request_stats_same (c c' : Ctrl) (id : buf_id) (i : nat) :
  update_request_stats c id i = Ok c' -> same_base c c'.
Proof.
  unfold update_request_stats. intros (r & Hr & H)%bind_Ok. simpl in H.
  assert (H0 : same_base c (put_req c id i (set_is_stat_updated r true))).
  { eapply put_req_same; [exact Hr|]. by unfold same_req. }
  destruct (_ || _); [|by injection H as <-].
  apply bind_Ok in H as (hit & _ & H). apply bind_Ok in H as (outcome & Ho & H). injection H as <-.
  assert (exists s, outcome = String "r" s) as (s & ->).
  { destruct hit; [injection Ho as <-; by eexists|]. apply bind_Ok in Ho as (o & _ & Ho). injection Ho as <-.
    destruct o; by eexists. }
  etrans; [exact H0|]. etrans; [|destruct (_ && _); [apply bump_same; by eapply not_ledger|reflexivity]].
  etrans; apply bump_same; [|by eapply not_ledger]. destruct (type_id r =? Read); by eapply not_ledger.
Qed.

Lemma issue_command_frame (d d' : DRAMDevice) (cmd : Z) (av : AddrVec_t) (clk : Clk_t) :
  issue_command d cmd av clk = Ok d' -> m_spec d' = m_spec d.
Proof.
  unfold issue_command, apply_action. intros (root & _ & H)%bind_Ok. apply bind_Ok in H as (fn & _ & H).
  destruct fn as [f|]; [|by injection H as <-].
  apply bind_Ok in H as (root' & _ & H). by injection H as <-.
Qed.

(** ** The pending queue *)
Lemma pending_gtb_spec (a b : PendingRead) :
  p_sequence a <> p_sequence b -> pending_gtb a b = true <-> pending_lt b a.
Proof.
  intros Hne. unfold pending_gtb, pending_lt.
  destruct (Z.eqb_spec (p_depart a) (p_depart b)); simpl; rewrite Z.ltb_lt; lia.
Qed.

Lemma pending_gtb_false (a b : PendingRead) :
  p_sequence a <> p_sequence b -> pending_gtb a b = false -> pending_lt a b.
Proof.
  intros Hne. unfold pending_gtb, pending_lt.
  destruct (Z.eqb_spec (p_depart a) (p_depart b)); simpl; rewrite Z.ltb_ge; lia.
Qed.

Lemma pending_lt_trans (a b d : PendingRead) : pending_lt a b -> pending_lt b d -> pending_lt a d.
Proof. unfold pending_lt. lia. Qed.

Lemma pq_push_perm (p : PendingRead) (q : list PendingRead) : pq_push p q ≡ₚ p :: q.
Proof.
  induction q as [|x q IH]; simpl; [done|]. destruct (pending_gtb x p); [done|]. rewrite IH. apply Permutation_swap.
Qed.

Lemma pq_push_sorted (p : PendingRead) (q : list PendingRead) :
  StronglySorted pending_lt q -> Forall (fun x => p_sequence x <> p_sequence p) q ->
  StronglySorted pending_lt (pq_push p q).
Proof.
  induction 1 as [|x q Hq IH Hx]; intros Hs; simpl; [repeat constructor|].
  inversion Hs as [|? ? Hsx Hsq]; subst. destruct (pending_gtb x p) eqn:E.
  - apply pending_gtb_spec in E; [|done]. constructor; [by constructor|]. constructor; [done|].
    eapply Forall_impl; [exact Hx|]. intros y Hy. by eapply pending_lt_trans.
  - apply pending_gtb_false in E; [|done]. constructor; [by apply IH|].
    rewrite (pq_push_perm p q). by constructor.
Qed.

Lemma push_pending_ok (c : Ctrl) (r : Request) :
  m_clk c < depart r -> pending_ok c -> pending_ok (push_pending c r).
Proof.
  intros Hd [Hs Hall]. split; simpl.
  - apply pq_push_sorted; [done|]. eapply Forall_impl; [exact Hall|]. simpl. intros p (_ & ? & _). lia.
  - rewrite pq_push_perm. constructor; [simpl; split_and!; [done|lia|done]|].
    eapply Forall_impl; [exact Hall|]. simpl. intros p (? & ? & ?). split_and!; [done|lia|done].
Qed.

Lemma length_push_pending (c : Ctrl) (r : Request) :
  length (m_pending (push_pending c r)) = S (length (m_pending c)).
Proof. simpl. by rewrite pq_push_perm. Qed.

(** ** Serving the pending queue *)
Definition due (clk : Clk_t) (p : PendingRead) : bool := p_depart p <=? clk.

(** The callbacks of a list of completed reads. *)
Definition callbacks (l : list PendingRead) : list Event :=
  omap (fun p => match callback (p_req p) with Some _ => Some (EvCallback (p_req p)) | None => None end) l.

Lemma serve_loop_spec (q : list PendingRead) (c : Ctrl) :
  StronglySorted pending_lt q ->
  let q1 := List.filter (due (m_clk c)) q in
  let q2 := List.filter (fun p => negb (due (m_clk c) p)) q in
  let c' := serve_loop q c in
  m_pending c' = q2 /\ m_log c' = m_log c ++ callbacks q1 /\
  stat c' "num_read_reqs_served" = stat c "num_read_reqs_served" + Z.of_nat (length q1) /\
  (forall n, n <> "num_read_reqs_served" -> n <> "read_latency" -> stat c' n = stat c n) /\
  m_clk c' = m_clk c /\ m_pending_sequence c' = m_pending_sequence c /\
  (forall id, get_buf c' id = get_buf c id) /\ m_buffered_write_addrs c' = m_buffered_write_addrs c /\
  m_device c' = m_device c /\ m_active_per_bank c' = m_active_per_bank c.
Proof.
  revert c. induction q as [|p q IH]; intros c Hs; simpl.
  { rewrite app_nil_r. split_and!; try done; first [unfold stat; simpl; lia|by intros []]. }
  inversion Hs as [|? ? Hsq Hp]; subst. destruct (Z.ltb_spec (m_clk c) (p_depart p)) as [Hlt|Hge].
  - assert (due (m_clk c) p = false) as -> by (unfold due; lia). simpl.
    assert (List.filter (due (m_clk c)) q = [] /\ List.filter (fun p => negb (due (m_clk c) p)) q = q) as [-> ->].
    { clear -Hp Hlt. induction Hp as [|x q Hx _ [IH1 IH2]]; simpl; [done|].
      assert (due (m_clk c) x = false) as -> by (unfold due, pending_lt in *; lia). simpl. by rewrite IH2. }
    change (callbacks []) with (@nil Event). rewrite app_nil_r. split_and!; try done; first [unfold stat; simpl; lia|by intros []].
  - assert (due (m_clk c) p = true) as -> by (unfold due; lia). simpl.
    set (c1 := run_callback (bump (bump c "read_latency" (depart (p_req p) - arrive (p_req p)))
                  "num_read_reqs_served" 1) (p_req p)).
    assert (E1 : m_clk c1 = m_clk c) by (unfold c1, run_callback; by destruct (callback _)).
    assert (Est : forall n, stat c1 n = stat (bump (bump c "read_latency" (depart (p_req p) - arrive (p_req p)))
                  "num_read_reqs_served" 1) n) by (intros n; unfold c1, run_callback; by destruct (callback _)).
    destruct (IH c1 Hsq) as (H1 & H2 & H3 & H4 & H5 & H6 & H7 & H8 & H9 & H10). rewrite E1 in *.
    split_and!; try done.
    + rewrite H2. unfold c1, run_callback. destruct (callback (p_req p)); simpl; [by rewrite <- app_assoc|done].
    + rewrite H3, Est. stats. lia.
    + intros n Hn1 Hn2. rewrite H4, Est by done. by rewrite !stat_bump_ne.
    + rewrite H6. unfold c1, run_callback. by destruct (callback _).
    + intros id. rewrite H7. unfold c1, run_callback. by destruct (callback _), id.
    + rewrite H8. unfold c1, run_callback. by destruct (callback _).
    + rewrite H9. unfold c1, run_callback. by destruct (callback _).
    + rewrite H10. unfold c1, run_callback. by destruct (callback _).
Qed.
