(* ===== verification/ControllerInv.v ===== *)
(** * Preservation of the controller's invariants

    Each operation of [controller_base.cpp], then the whole tick of the generic
    DDR controller against the interfaces of its sub-components. *)

From Stdlib Require Import ZArith Lia.
From S2P Require Import Prelude Base Spec Node Standards Device Controller Scheduler GenericDDR ControllerFacts.

Local Open Scope Z_scope.

(** ** Projections through the member updates *)
Lemma in_bufs_bump t c n k : in_bufs t (bump c n k) = in_bufs t c.
Proof. done. Qed.
Lemma in_bufs_log t c e : in_bufs t (log_event c e) = in_bufs t c.
Proof. done. Qed.
Lemma in_bufs_push t c r : in_bufs t (push_pending c r) = in_bufs t c.
Proof. done. Qed.
Lemma in_bufs_waddrs t c s : in_bufs t (set_write_addrs c s) = in_bufs t c.
Proof. done. Qed.
Lemma stat_log c e n : stat (log_event c e) n = stat c n.
Proof. done. Qed.
Lemma stat_push c r n : stat (push_pending c r) n = stat c n.
Proof. done. Qed.
Lemma stat_set_buf c id b n : stat (set_buf c id b) n = stat c n.
Proof. done. Qed.
Lemma stat_waddrs c s n : stat (set_write_addrs c s) n = stat c n.
Proof. done. Qed.
Lemma pending_bump c n k : m_pending (bump c n k) = m_pending c.
Proof. done. Qed.
Lemma pending_log c e : m_pending (log_event c e) = m_pending c.
Proof. done. Qed.
Lemma pending_set_buf c id b : m_pending (set_buf c id b) = m_pending c.
Proof. done. Qed.
Lemma pending_waddrs c s : m_pending (set_write_addrs c s) = m_pending c.
Proof. done. Qed.
#[export] Hint Rewrite in_bufs_bump in_bufs_log in_bufs_push in_bufs_waddrs stat_log stat_push stat_set_buf
  stat_waddrs pending_bump pending_log pending_set_buf pending_waddrs in_bufs_set_buf : ctrl.

(** Running a callback only logs. *)
Lemma run_callback_cases (c : Ctrl) (r : Request) :
  run_callback c r = c \/ exists e, run_callback c r = log_event c e.
Proof. unfold run_callback. destruct (callback r); eauto. Qed.

Lemma get_set_buf (c : Ctrl) (id id' : buf_id) (b : ReqBuffer) :
  get_buf (set_buf c id b) id' = if decide (id = id') then b else get_buf c id'.
Proof. destruct id, id'; done. Qed.

(** ** Admission *)
Class AddrMapperLaws (apply : Request -> result Request) :=
  mapper_frame : forall r r', apply r = Ok r' -> exists av, r' = set_addr_vec r av.

Section admission.
Context (apply : Request -> result Request) `{!AddrMapperLaws apply}.

(** What [send] does, case by case. *)
Inductive send_outcome (c : Ctrl) (req : Request) : bool -> Request -> Ctrl -> Prop :=
| send_forward r' :
    type_id r' = Read -> addr r' ∈ m_buffered_write_addrs c -> depart r' = m_clk c + 1 ->
    arrive r' = m_clk c -> addr r' = addr req ->
    send_outcome c req true r'
      (bump (bump (log_event (push_pending c r') (EvDeparture r')) "num_read_reqs" 1)
         "num_read_reqs_forwarded" 1)
| send_read r' b :
    type_id r' = Read -> addr r' ∉ m_buffered_write_addrs c -> arrive r' = m_clk c -> addr r' = addr req ->
    enqueue (m_read_buffer c) r' = (true, b) ->
    send_outcome c req true r' (bump (set_buf c BRead b) "num_read_reqs" 1)
| send_coalesce r' e :
    type_id r' = Write -> addr r' ∈ m_buffered_write_addrs c -> addr r' = addr req ->
    e = EvDeparture (set_depart r' (m_clk c)) ->
    send_outcome c req true r'
      (bump (bump (run_callback (log_event c e) r') "num_write_reqs" 1) "num_write_reqs_coalesced" 1)
| send_write r' b :
    type_id r' = Write -> addr r' ∉ m_buffered_write_addrs c -> arrive r' = m_clk c -> addr r' = addr req ->
    enqueue (m_write_buffer c) r' = (true, b) ->
    send_outcome c req true r'
      (bump (set_write_addrs (set_buf c BWrite b) ({[addr r']} ∪ m_buffered_write_addrs c)) "num_write_reqs" 1)
| send_full r' :
    arrive r' = -1 -> addr r' = addr req ->
    max_size (if type_id r' =? Read then m_read_buffer c else m_write_buffer c) <=
      buf_size (if type_id r' =? Read then m_read_buffer c else m_write_buffer c) ->
    send_outcome c req false r' c.

Lemma send_cases (c c' : Ctrl) (req req' : Request) (ok : bool) :
  send apply c req = Ok (ok, req', c') -> send_outcome c req ok req' c'.
Proof.
  unfold send. destruct (negb (type_id req =? Read) && negb (type_id req =? Write)) eqn:Ht; [done|].
  intros (r1 & Hap & H)%bind_Ok. destruct (mapper_frame _ _ Hap) as (av0 & ->).
  apply bind_Ok in H as (av & _ & H). simpl in H. apply bind_Ok in H as (fc & _ & H). simpl in H.
  destruct (Z.eqb_spec (type_id req) Read) as [HR|HR]; simpl in *.
  - case_bool_decide as Hin; simpl in H.
    + injection H as <- <- <-. by apply send_forward.
    + destruct (enqueue (m_read_buffer c) _) as [[|] b] eqn:Hq; injection H as <- <- <-.
      * by apply send_read.
      * apply send_full; [done|done|]. simpl. rewrite HR. simpl. by apply enqueue_false in Hq as [_ Hq].
  - assert (type_id req = Write) as HW by lia. case_bool_decide as Hin; simpl in H.
    + injection H as <- <- <-. by eapply send_coalesce.
    + destruct (enqueue (m_write_buffer c) _) as [[|] b] eqn:Hq; injection H as <- <- <-.
      * by refine (send_write c req _ b _ _ _ _ Hq).
      * apply send_full; [done|done|]. simpl. destruct (Z.eqb_spec (type_id req) Read); [done|].
        by apply enqueue_false in Hq as [_ Hq].
Qed.

Lemma enqueue_addrs (b b' : ReqBuffer) (r : Request) :
  enqueue b r = (true, b') -> addr <$> buffer b' = (addr <$> buffer b) ++ [addr r].
Proof. intros [-> _]%enqueue_true. by rewrite fmap_app. Qed.

Lemma send_inv (c c' : Ctrl) (req req' : Request) (ok : bool) :
  send apply c req = Ok (ok, req', c') -> base_inv c -> base_inv c'.
Proof.
  intros Hs%send_cases [(L1 & L2 & L3) [W1 W2] Pd B]. destruct Hs as [r' Ht Hin Hd Ha _|r' b Ht Hin Ha _ Hq|r' e Ht Hin _|r' b Ht Hin Ha _ Hq|r'].
  - constructor; [|done| |by intros id; apply (B id)].
    + unfold ledger. autorewrite with ctrl. rewrite length_push_pending. stats. autorewrite with ctrl. lia.
    + by apply (push_pending_ok c r'); [lia|].
  - constructor; [|done|done|].
    + unfold ledger. autorewrite with ctrl. rewrite !(cnt_enqueue _ _ _ _ Hq), Ht. stats.
      autorewrite with ctrl. simpl. unfold one_if. simpl. lia.
    + intros id. specialize (B id). destruct id; simpl in *; try done. by eapply enqueue_wf.
  - destruct (run_callback_cases (log_event c e) r') as [->|(e' & ->)];
      (constructor; [|done|done|by intros id; apply (B id)]); unfold ledger; autorewrite with ctrl; stats;
      autorewrite with ctrl; lia.
  - constructor; [| |done|].
    + unfold ledger. autorewrite with ctrl. rewrite !(cnt_enqueue _ _ _ _ Hq), Ht. stats.
      autorewrite with ctrl. simpl. unfold one_if. simpl. lia.
    + unfold write_addrs_ok. simpl. rewrite (enqueue_addrs _ _ _ Hq), W1. split.
      * rewrite list_to_set_app_L. set_solver.
      * apply NoDup_app. split_and!; [done| |apply NoDup_singleton].
        intros x Hx ->%list_elem_of_singleton. apply Hin. rewrite W1. by apply elem_of_list_to_set.
    + intros id. specialize (B id). destruct id; simpl in *; try done. by eapply enqueue_wf.
  - by constructor.
Qed.
End admission.

Lemma priority_send_inv (c c' : Ctrl) (r : Request) (ok : bool) :
  type_id r = -1 -> priority_send c r = Ok (ok, c') -> base_inv c -> base_inv c'.
Proof.
  unfold priority_send. intros Ht H [(L1 & L2 & L3) W Pd B]. destruct (_ || _); [done|].
  destruct (enqueue (m_priority_buffer c) r) as [[|] b] eqn:Hq; injection H as <- <-; [|by constructor].
  rewrite Ht. simpl. constructor; [|done|done|].
  - unfold ledger. autorewrite with ctrl. rewrite !(cnt_enqueue _ _ _ _ Hq), Ht. stats.
    autorewrite with ctrl. simpl. unfold one_if. simpl. lia.
  - intros id. specialize (B id). destruct id; simpl in *; try done. by eapply enqueue_wf.
Qed.

(** ** Leaving a buffer *)
Lemma req_at_lookup (c : Ctrl) (id : buf_id) (i : nat) (r : Request) :
  req_at c id i = Ok r <-> buffer (get_buf c id) !! i = Some r.
Proof. unfold req_at. destruct (_ !! i); split; congruence. Qed.

Lemma delete_addrs (l : list Request) (i : nat) (r : Request) :
  NoDup (addr <$> l) -> l !! i = Some r ->
  (list_to_set (addr <$> delete i l) : gset Z) = list_to_set (addr <$> l) ∖ {[addr r]} /\
  NoDup (addr <$> delete i l).
Proof.
  intros Hnd Hi. rewrite delete_take_drop. rewrite <- (take_drop_middle l i r Hi) in Hnd.
  rewrite <- (take_drop_middle l i r Hi) at 3. rewrite !fmap_app, fmap_cons in *.
  apply NoDup_app in Hnd as (H1 & H2 & [H3 H4]%NoDup_cons). split.
  - rewrite !list_to_set_app_L, list_to_set_cons. apply set_eq. intros x.
    assert (x = addr r -> x ∉ addr <$> take i l) by (intros -> Hx; specialize (H2 _ Hx); set_solver).
    assert (x = addr r -> x ∉ addr <$> drop (S i) l) by (by intros ->).
    rewrite !elem_of_difference, !elem_of_union, !elem_of_list_to_set, elem_of_singleton. naive_solver.
  - apply NoDup_app. split_and!; [done| |done]. intros x Hx Hx'. apply (H2 x Hx). set_solver.
Qed.

(** The write-address filter after a request leaves a buffer. *)
Lemma leave_write_ok (c c' : Ctrl) (id : buf_id) (i : nat) (r : Request) :
  write_addrs_ok c -> buffer (get_buf c id) !! i = Some r ->
  m_buffered_write_addrs c' =
    (if decide (id = BWrite) then m_buffered_write_addrs c ∖ {[addr r]} else m_buffered_write_addrs c) ->
  addr <$> buffer (m_write_buffer c') =
    (if decide (id = BWrite) then addr <$> delete i (buffer (m_write_buffer c)) else addr <$> buffer (m_write_buffer c)) ->
  write_addrs_ok c'.
Proof.
  intros [W1 W2] Hi E1 E2. unfold write_addrs_ok. rewrite E1, E2. destruct (decide (id = BWrite)) as [->|]; [|done].
  simpl in Hi. destruct (delete_addrs _ _ _ W2 Hi) as [E3 E4]. by rewrite E3, W1.
Qed.

Lemma bump_active_frame (c c' : Ctrl) (av : AddrVec_t) (n : Z) :
  bump_active c av n = Ok c' -> exists l, c' = set_active_per_bank c l.
Proof.
  unfold bump_active. intros (id & _ & H)%bind_Ok. apply bind_Ok in H as (k & _ & H).
  apply bind_Ok in H as (l & _ & H). injection H as <-. eauto.
Qed.

Lemma remove_set_at (b : ReqBuffer) (i : nat) (r : Request) : remove_at (set_at b i r) i = remove_at b i.
Proof. unfold remove_at, set_at. simpl. f_equal.
  by rewrite !delete_take_drop, take_insert_ge, drop_insert_lt by lia.
Qed.

(** The controller just before the request is removed. *)
Definition retire_effect (c : Ctrl) (id : buf_id) (i : nat) (r : Request) : Ctrl :=
  if type_id r =? Read then
    let r := set_depart r (m_clk c + read_latency (m_spec (m_device c))) in
    notify_departure_scheduled (push_pending (put_req c id i r) r) r
  else if type_id r =? Write then
    let c := notify_departure_scheduled c (set_depart r (m_clk c)) in
    bump (run_callback c r) "num_write_reqs_served" 1
  else if type_id r =? -1 then bump c "num_maintenance_reqs_served" 1
  else c.

Lemma retire_spec (c c' : Ctrl) (id : buf_id) (i : nat) :
  retire_request c id i = Ok c' ->
  exists r l, buffer (get_buf c id) !! i = Some r /\
    let c1 := set_active_per_bank c l in
    let c2 := if decide (id = BWrite) then set_write_addrs c1 (m_buffered_write_addrs c ∖ {[addr r]}) else c1 in
    c' = set_buf (retire_effect c2 id i r) id (remove_at (get_buf c id) i).
Proof.
  unfold retire_request. intros (r & Hr%req_at_lookup & H)%bind_Ok. apply bind_Ok in H as (c1 & H1 & H).
  assert (exists l, c1 = set_active_per_bank c l) as (l & ->).
  { destruct (decide (id = BActive)); [by eapply bump_active_frame|]. injection H1 as <-.
    exists (m_active_per_bank c). by destruct c. }
  injection H as <-. exists r, l. split; [done|]. simpl. f_equal.
  set (c2 := if decide (id = BWrite) then _ else _).
  assert (get_buf c2 id = get_buf c id) as Eb.
  { unfold c2. destruct (decide (id = BWrite)); by destruct id. }
  unfold retire_effect. destruct (type_id r =? Read); [|destruct (type_id r =? Write); [|destruct (type_id r =? -1)]].
  - assert (forall c0 r0 r1, get_buf (notify_departure_scheduled (push_pending (put_req c0 id i r0) r0) r1) id =
              set_at (get_buf c0 id) i r0) as E.
    { intros c0 r0 r1. unfold put_req. destruct id; done. }
    by rewrite E, remove_set_at, Eb.
  - f_equal. rewrite <- Eb. unfold run_callback. by destruct (callback r), id.
  - by rewrite <- Eb; destruct id.
  - by rewrite Eb.
Qed.

(** The effect of completion, before the removal. *)
Lemma retire_effect_frame (c : Ctrl) (id : buf_id) (i : nat) (r : Request) :
  buffer (get_buf c id) !! i = Some r -> let c' := retire_effect c id i r in
  (forall id', same_buf (get_buf c id') (get_buf c' id')) /\
  m_buffered_write_addrs c' = m_buffered_write_addrs c /\
  Z.of_nat (length (m_pending c')) = Z.of_nat (length (m_pending c)) + one_if (type_id r =? Read) /\
  stat c' "num_write_reqs_served" = stat c "num_write_reqs_served" + one_if (type_id r =? Write) /\
  stat c' "num_maintenance_reqs_served" = stat c "num_maintenance_reqs_served" + one_if (type_id r =? -1) /\
  (forall n, n <> "num_write_reqs_served" -> n <> "num_maintenance_reqs_served" -> stat c' n = stat c n).
Proof.
  intros Hi. unfold retire_effect.
  destruct (Z.eqb_spec (type_id r) Read) as [->|HR]; [|destruct (Z.eqb_spec (type_id r) Write) as [->|HW];
    [|destruct (Z.eqb_spec (type_id r) (-1)) as [HM|HM]]]; unfold one_if; simpl.
  - split_and!; [|done| |unfold stat; simpl; lia|unfold stat; simpl; lia|done].
    + intros id'. set (r' := set_depart r _).
      enough (same_buf (get_buf c id') (get_buf (put_req c id i r') id')) as H by (destruct id'; exact H).
      apply (sb_bufs c (put_req c id i r')). eapply put_req_same; [by apply req_at_lookup|by unfold same_req].
    + rewrite (Permutation_length (pq_push_perm _ _)). simpl. lia.
  - unfold notify_departure_scheduled.
    destruct (run_callback_cases (log_event c (EvDeparture (set_depart r (m_clk c)))) r) as [->|(e & ->)];
      (split_and!; [intros []; reflexivity|done|simpl; lia|by stats; autorewrite with ctrl|
        stats; autorewrite with ctrl; lia|intros; rewrite stat_bump_ne; done]).
  - split_and!; [intros []; reflexivity|done|simpl; lia|stats; lia|by stats|].
    intros. by rewrite stat_bump_ne.
  - split_and!; [intros []; reflexivity|done|lia|lia|lia|done].
Qed.

Lemma retire_pending_ok (c : Ctrl) (id : buf_id) (i : nat) (r : Request) :
  1 <= read_latency (m_spec (m_device c)) -> pending_ok c -> pending_ok (retire_effect c id i r).
Proof.
  intros Hlat Hp. unfold retire_effect. destruct (type_id r =? Read).
  - set (r' := set_depart r _). apply (push_pending_ok (put_req c id i r') r'); [|done]. simpl. lia.
  - destruct (type_id r =? Write); [|by destruct (type_id r =? -1)]. unfold run_callback. by destruct (callback r).
Qed.

Lemma in_bufs_same (t : Z) (c c' : Ctrl) :
  (forall id, same_buf (get_buf c id) (get_buf c' id)) -> in_bufs t c' = in_bufs t c.
Proof.
  intros H. unfold in_bufs. pose proof (cnt_same t _ _ (H BActive)). pose proof (cnt_same t _ _ (H BPriority)).
  pose proof (cnt_same t _ _ (H BRead)). pose proof (cnt_same t _ _ (H BWrite)). simpl in *. lia.
Qed.

Lemma retire_inv (c c' : Ctrl) (id : buf_id) (i : nat) :
  1 <= read_latency (m_spec (m_device c)) ->
  retire_request c id i = Ok c' -> base_inv c -> base_inv c'.
Proof.
  intros Hlat (r & l & Hi & ->)%retire_spec [(L1 & L2 & L3) W Pd B].
  set (c2 := if decide (id = BWrite) then _ else _).
  assert (Hc2 : (forall id, get_buf c2 id = get_buf c id) /\ m_stats c2 = m_stats c /\
     m_pending c2 = m_pending c /\ pending_ok c2 /\ m_spec (m_device c2) = m_spec (m_device c) /\
     m_buffered_write_addrs c2 = (if decide (id = BWrite) then m_buffered_write_addrs c ∖ {[addr r]}
                                  else m_buffered_write_addrs c)).
  { unfold c2. destruct (decide (id = BWrite)); split_and!; try done; by intros []. }
  clearbody c2. destruct Hc2 as (Eb & Es & Ep & Hp & Ed & Ew).
  assert (Hi2 : buffer (get_buf c2 id) !! i = Some r) by (by rewrite Eb).
  destruct (retire_effect_frame c2 id i r Hi2) as (Hb & Hw & Hlen & S1 & S2 & S3).
  set (c3 := retire_effect c2 id i r) in *.
  assert (Hin : forall t, in_bufs t c3 = in_bufs t c).
  { intros t. apply in_bufs_same. intros id'. rewrite <- Eb. apply Hb. }
  assert (Hst : forall n, stat c2 n = stat c n) by (intros n; unfold stat; by rewrite Es).
  pose proof (fun t => cnt_same t _ _ (Hb id)) as Hcnt. rewrite Eb in Hcnt. rewrite Ep in Hlen. rewrite Hst in S1, S2.
  constructor.
  - unfold ledger. rewrite !in_bufs_set_buf, !stat_set_buf, pending_set_buf, !(cnt_remove _ _ _ _ Hi), !Hin, !Hcnt.
    rewrite S1, S2, !S3, !Hst, Hlen by done. lia.
  - apply (leave_write_ok c _ id i r W Hi); [by rewrite <- Ew, <- Hw|].
    unfold set_buf. simpl. destruct (decide (id = BWrite)) as [->|]; [done|].
    pose proof (same_buf_addrs _ _ (Hb BWrite)) as E. rewrite Eb in E. exact E.
  - apply retire_pending_ok; [by rewrite Ed|done].
  - intros id'. rewrite get_set_buf. destruct (decide (id = id')) as [->|Hne]; [by apply remove_at_wf|].
    specialize (B id'). rewrite <- Eb in B. unfold buf_wf, buf_size in *. destruct (Hb id') as [-> HF].
    by rewrite <- (Forall2_length _ _ _ HF).
Qed.

Lemma promote_inv (c c' : Ctrl) (id : buf_id) (i : nat) :
  promote_to_active c id i = Ok c' -> base_inv c -> base_inv c'.
Proof.
  unfold promote_to_active. intros (r & Hi%req_at_lookup & H)%bind_Ok [(L1 & L2 & L3) W Pd B].
  destruct (enqueue (m_active_buffer c) r) as [[|] b] eqn:Hq; [|by injection H as <-; constructor].
  apply bind_Ok in H as (c1 & (l & ->)%bump_active_frame & H). injection H as <-.
  set (c1 := set_active_per_bank (set_buf c BActive b) l).
  set (c2 := if decide (id = BWrite) then _ else _).
  assert (Hc2 : (forall id', get_buf c2 id' = get_buf (set_buf c BActive b) id') /\ m_stats c2 = m_stats c /\
     m_pending c2 = m_pending c /\ pending_ok c2 /\
     m_buffered_write_addrs c2 = (if decide (id = BWrite) then m_buffered_write_addrs c ∖ {[addr r]}
                                  else m_buffered_write_addrs c)).
  { unfold c2, c1. destruct (decide (id = BWrite)); split_and!; try done; by intros []. }
  clearbody c2. clear c1. destruct Hc2 as (Eb & Es & Ep & Hp & Ew).
  assert (Hi2 : buffer (get_buf c2 id) !! i = Some r).
  { rewrite Eb, get_set_buf. destruct (decide (BActive = id)) as [<-|]; [|done].
    apply enqueue_true in Hq as [-> _]. by apply lookup_app_l_Some. }
  assert (Hin : forall t, in_bufs t c2 = in_bufs t c + one_if (type_id r =? t)).
  { intros t. rewrite (in_bufs_same t (set_buf c BActive b) c2) by (intros id'; by rewrite Eb).
    rewrite in_bufs_set_buf, (cnt_enqueue _ _ _ _ Hq). simpl. lia. }
  assert (Hst : forall n, stat c2 n = stat c n) by (intros n; unfold stat; by rewrite Es).
  constructor.
  - unfold ledger. rewrite !in_bufs_set_buf, !stat_set_buf, pending_set_buf, !(cnt_remove _ _ _ _ Hi2), !Hin.
    rewrite !Hst, Ep. lia.
  - apply (leave_write_ok c _ id i r W Hi); [by rewrite <- Ew|]. unfold set_buf. simpl.
    pose proof (Eb BWrite) as E. simpl in E. rewrite E. destruct (decide (id = BWrite)) as [->|]; [|done].
    simpl. by rewrite E.
  - done.
  - intros id'. rewrite get_set_buf. destruct (decide (id = id')) as [->|Hne].
    + apply remove_at_wf. rewrite Eb, get_set_buf. destruct (decide (BActive = id')) as [<-|]; [|done].
      eapply enqueue_wf; [exact (B BActive)|exact Hq].
    + rewrite Eb, get_set_buf. destruct (decide (BActive = id')) as [<-|]; [|done].
      eapply enqueue_wf; [exact (B BActive)|exact Hq].
Qed.

(** ** The tick preamble *)
Lemma filter_due (clk : Z) (q : list PendingRead) :
  (length (List.filter (due clk) q) + length (List.filter (fun p => negb (due clk p)) q) = length q)%nat.
Proof. induction q as [|p q IH]; simpl; [done|]. destruct (due clk p); simpl; lia. Qed.

Lemma StronglySorted_filter {A} (R : A -> A -> Prop) (f : A -> bool) (l : list A) :
  StronglySorted R l -> StronglySorted R (List.filter f l).
Proof.
  induction 1 as [|x l Hl IH Hx]; simpl; [constructor|]. destruct (f x); [|done]. constructor; [done|].
  rewrite Forall_forall in *. intros y Hy%list_elem_of_In. apply filter_In in Hy as [Hy%list_elem_of_In _]. auto.
Qed.

Lemma serve_inv (c : Ctrl) :
  ledger c -> write_addrs_ok c -> bufs_ok c -> StronglySorted pending_lt (m_pending c) ->
  Forall (fun p => p_sequence p < m_pending_sequence c /\ p_depart p = depart (p_req p)) (m_pending c) ->
  base_inv (serve_completed_reads c).
Proof.
  intros (L1 & L2 & L3) [W1 W2] B Hs Hall. unfold serve_completed_reads.
  destruct (serve_loop_spec (m_pending c) c Hs) as (H1 & H2 & H3 & H4 & H5 & H6 & H7 & H8 & _).
  pose proof (filter_due (m_clk c) (m_pending c)) as Hlen. set (c' := serve_loop (m_pending c) c) in *.
  assert (Hin : forall t, in_bufs t c' = in_bufs t c).
  { intros t. apply in_bufs_same. intros id. by rewrite H7. }
  constructor.
  - unfold ledger. rewrite !Hin, H1, H3, !H4 by done. lia.
  - unfold write_addrs_ok. pose proof (H7 BWrite) as E. simpl in E. by rewrite H8, E.
  - unfold pending_ok. rewrite H1, H5, H6. split; [by apply StronglySorted_filter|].
    apply Forall_forall. intros p Hp%list_elem_of_In. apply filter_In in Hp as [Hp%list_elem_of_In Hd].
    rewrite Forall_forall in Hall. destruct (Hall p Hp). unfold due in Hd. split_and!; [lia|done|done].
  - intros id. rewrite H7. apply B.
Qed.

Lemma tick_prologue_inv (c : Ctrl) : base_inv c -> base_inv (tick_prologue c).
Proof.
  intros [(L1 & L2 & L3) W [Hs Hall] B]. unfold tick_prologue.
  apply serve_inv; [|exact W|intros id; generalize (B id); by destruct id|exact Hs|].
  - unfold ledger. autorewrite with ctrl. stats. done.
  - eapply Forall_impl; [exact Hall|]. simpl. naive_solver.
Qed.

Lemma get_buf_serve_loop (q : list PendingRead) (c : Ctrl) (id : buf_id) : get_buf (serve_loop q c) id = get_buf c id.
Proof.
  revert c. induction q as [|p q IH]; intros c; simpl; [by destruct id|]. destruct (_ <? _); [by destruct id|].
  rewrite IH. unfold run_callback. by destruct (callback _), id.
Qed.

Lemma get_buf_prologue (c : Ctrl) (id : buf_id) : get_buf (tick_prologue c) id = get_buf c id.
Proof. unfold tick_prologue, serve_completed_reads. rewrite get_buf_serve_loop. by destruct id. Qed.

(** Admission appends: positions of requests stay valid. *)
Lemma enqueue_lookup (b b' : ReqBuffer) (r x : Request) (ok : bool) (i : nat) :
  enqueue b r = (ok, b') -> buffer b !! i = Some x -> buffer b' !! i = Some x.
Proof.
  destruct ok; [intros [-> _]%enqueue_true; by apply lookup_app_l_Some|]. by intros [-> _]%enqueue_false.
Qed.

Lemma priority_send_req_at (c c' : Ctrl) (r x : Request) (ok : bool) (id : buf_id) (i : nat) :
  priority_send c r = Ok (ok, c') -> req_at c id i = Ok x -> req_at c' id i = Ok x.
Proof.
  unfold priority_send. destruct (_ || _); [done|]. destruct (enqueue (m_priority_buffer c) r) as [[|] b] eqn:Hq;
    intros [= <- <-]; [|done]. rewrite !req_at_lookup. intros Hi.
  assert (buffer (get_buf (set_buf c BPriority b) id) !! i = Some x) as H.
  { rewrite get_set_buf. destruct (decide (BPriority = id)) as [<-|]; [by eapply enqueue_lookup|done]. }
  destruct (type_id r =? -1); [|done]. by destruct id.
Qed.

(** ** Sub-components

    What a sub-component may do to the controller: enqueue maintenance requests
    that satisfy [Q]. *)
Inductive sends (Q : Ctrl -> Request -> Prop) : Ctrl -> Ctrl -> Prop :=
| sends_nil c : sends Q c c
| sends_cons c c1 c2 r ok :
    type_id r = -1 -> Q c r -> priority_send c r = Ok (ok, c1) -> sends Q c1 c2 -> sends Q c c2.

Lemma sends_trans (Q : Ctrl -> Request -> Prop) (c1 c2 c3 : Ctrl) : sends Q c1 c2 -> sends Q c2 c3 -> sends Q c1 c3.
Proof. induction 1; [done|]. intros. econstructor; eauto. Qed.

Lemma priority_send_device (c c' : Ctrl) (r : Request) (ok : bool) :
  priority_send c r = Ok (ok, c') -> m_device c' = m_device c.
Proof.
  unfold priority_send. destruct (_ || _); [done|]. destruct (enqueue _ _) as [[|] b]; intros [= <- <-]; [|done].
  by destruct (_ =? _).
Qed.

Lemma sends_inv (Q : Ctrl -> Request -> Prop) (c c' : Ctrl) :
  sends Q c c' -> m_device c' = m_device c /\ (base_inv c -> base_inv c').
Proof.
  induction 1 as [c|c c1 c2 r ok Ht _ Hp _ [IH1 IH2]]; [done|]. split.
  - rewrite IH1. by eapply priority_send_device.
  - intros Hb. by eapply IH2, priority_send_inv.
Qed.

Lemma sends_req_at (Q : Ctrl -> Request -> Prop) (c c' : Ctrl) (id : buf_id) (i : nat) (x : Request) :
  sends Q c c' -> req_at c id i = Ok x -> req_at c' id i = Ok x.
Proof. induction 1 as [c|c c1 c2 r ok _ _ Hp _ IH]; [done|]. intros Hx. by eapply IH, priority_send_req_at. Qed.

(** The laws a sub-component's implementation discharges. *)
Class RefreshLaws (Q : Ctrl -> Request -> Prop) (R : Type) `{RefreshManager R} :=
  refresh_sends : forall (r r' : R) c c', refresh_tick r c = Ok (r', c') -> sends Q c c'.

Class RowPolicyLaws (Q : Ctrl -> Request -> Prop) (P : Type) `{RowPolicy P} := {
  pre_schedule_sends : forall (p p' : P) c c', rp_pre_schedule p c = Ok (p', c') -> sends Q c c';
  post_schedule_sends : forall (p p' : P) c c', rp_post_schedule p c = Ok (p', c') -> sends Q c c';
  upgrade_same : forall (p : P) c r r', rp_try_upgrade_command p c r = Ok r' -> same_req r r'
}.

Class PluginLaws (Q : Ctrl -> Request -> Prop) (G : Type) `{ControllerPlugin G} := {
  plugin_pre_sends : forall (g g' : G) c c', pl_pre_schedule g c = Ok (g', c') -> sends Q c c';
  plugin_issue_sends : forall (g g' : G) c c' r, pl_on_issue g c r = Ok (g', c') -> sends Q c c';
  plugin_post_sends : forall (g g' : G) c c', pl_post_schedule g c = Ok (g', c') -> sends Q c c'
}.

Lemma each_plugin_sends {G} (Q : Ctrl -> Request -> Prop) (hook : G -> Ctrl -> result (G * Ctrl)) (gs gs' : list G) (c c' : Ctrl) :
  (forall g g' c c', hook g c = Ok (g', c') -> sends Q c c') ->
  each_plugin hook gs c = Ok (gs', c') -> sends Q c c'.
Proof.
  intros Hh H. unfold each_plugin in H.
  assert (Hgen : forall l acc c0 acc' c1,
    foldM (fun (p : list G * Ctrl) g => q ← hook g p.2; Ok (p.1 ++ [q.1], q.2)) (acc, c0) l = Ok (acc', c1) ->
    sends Q c0 c1).
  { induction l as [|g l IH]; intros acc c0 acc' c1 H1; simpl in H1; [injection H1 as <- <-; constructor|].
    apply bind_Ok in H1 as ([a1 c2] & H2 & H1). apply bind_Ok in H2 as ([g' c3] & H2 & H3). injection H3 as <- <-.
    eapply sends_trans; [by eapply Hh|by eapply IH]. }
  by eapply Hgen.
Qed.

(** ** The tick *)
Section tick.
Context {R P G : Type} `{IR : RefreshManager R} `{IP : RowPolicy P} `{IG : ControllerPlugin G}.
Context (Q : Ctrl -> Request -> Prop).
Context `{!RefreshLaws Q R} `{!RowPolicyLaws Q P} `{!PluginLaws Q G}.
Context (sch : scheduler_t) `{!SchedulerLaws sch}.

Lemma derive_same (c : Ctrl) (b b' : ReqBuffer) :
  max_size b' = max_size b -> Forall2 (fun r r' => derive_command c r = Ok r') (buffer b) (buffer b') ->
  same_buf b b'.
Proof.
  intros E HF. split; [done|]. eapply Forall2_impl; [exact HF|]. intros r r' Hr. unfold derive_command in Hr.
  apply bind_Ok in Hr as (cmd & _ & Hr). injection Hr as <-. apply set_command_same.
Qed.

Lemma pick_best_same (c c' : Ctrl) (id : buf_id) (f : filter_t) (k : candidate) :
  pick_best_ready_from sch c id f = Ok (c', k) -> same_base c c'.
Proof.
  unfold pick_best_ready_from. intros ([b o] & Hs & H')%bind_Ok. simpl in H'.
  destruct (sched_refresh c (get_buf c id) f b o Hs) as [E HF].
  assert (same_base c (set_buf c id b)) as Hb by (by apply set_buf_same, (derive_same c)).
  destruct o as [i|]; [|by injection H' as <- <-].
  apply bind_Ok in H' as (r & _ & H'). apply bind_Ok in H' as (ok & _ & H'). by injection H' as <- <-.
Qed.

Lemma pick_priority_same (c c' : Ctrl) (f : filter_t) (k : candidate) :
  pick_priority_if c f = Ok (c', k) -> same_base c c'.
Proof.
  unfold pick_priority_if. destruct (_ =? 0); [by intros [= <- <-]|].
  intros (r & Hr & H')%bind_Ok. apply bind_Ok in H' as (cmd & _ & H'). apply bind_Ok in H' as (ok & _ & H').
  assert (same_base c (put_req c BPriority 0 (set_command r cmd))) as Hb.
  { eapply put_req_same; [exact Hr|apply set_command_same]. }
  destruct (negb ok); [by injection H' as <- <-|]. apply bind_Ok in H' as (w & _ & H').
  destruct w; [by injection H' as <- <-|]. apply bind_Ok in H' as (e & _ & H'). by injection H' as <- <-.
Qed.

Lemma pick_same (c c' : Ctrl) (k : candidate) : pick sch c = Ok (c', k) -> same_base c c'.
Proof.
  unfold pick. intros ([c1 k1] & H1 & H')%bind_Ok. apply bind_Ok in H' as ([c2 k2] & H2 & H'). simpl in *.
  apply pick_best_same in H1.
  assert (same_base c c2) as Hc2.
  { destruct k1; [by injection H2 as <- <-|]. etrans; [exact H1|by eapply pick_priority_same]. }
  destruct k2; [by injection H' as <- <-|]. destruct (_ =? 0); [|by injection H' as <- <-].
  etrans; [exact Hc2|]. unfold pick_rw_if in H'. etrans; [apply set_write_mode_same|by eapply pick_best_same].
Qed.

Lemma issue_candidate_same (p : P) (c c' : Ctrl) (id : buf_id) (i : nat) :
  issue_candidate p c id i = Ok c' -> same_base c c'.
Proof.
  unfold issue_candidate. intros (r & Hr & H')%bind_Ok. apply bind_Ok in H' as (r1 & Hu & H').
  apply bind_Ok in H' as (c1 & Hc1 & H'). apply bind_Ok in H' as (r2 & _ & H').
  apply bind_Ok in H' as (d & Hd & H'). injection H' as <-.
  assert (same_base c (put_req c id i r1)) as Hp by (by eapply put_req_same, upgrade_same).
  assert (same_base c c1) as Hb.
  { destruct (negb (is_stat_updated r1)); [|by injection Hc1 as <-].
    etrans; [exact Hp|by eapply update_request_stats_same]. }
  etrans; [exact Hb|]. apply set_device_same. by eapply issue_command_frame.
Qed.

(** Advancing keeps the specification of the device. *)
Lemma advance_inv (c c' : Ctrl) (id : buf_id) (i : nat) :
  1 <= read_latency (m_spec (m_device c)) -> advance_request c id i = Ok c' -> base_inv c -> base_inv c'.
Proof.
  intros Hl. unfold advance_request. intros (r & _ & H')%bind_Ok. destruct (_ =? _); [by eapply retire_inv|].
  apply bind_Ok in H' as (m & _ & H'). destruct (is_opening m); [by eapply promote_inv|by injection H' as <-].
Qed.

Lemma advance_device (c c' : Ctrl) (id : buf_id) (i : nat) :
  advance_request c id i = Ok c' -> m_device c' = m_device c.
Proof.
  unfold advance_request. intros (r & _ & H')%bind_Ok. destruct (_ =? _).
  - apply retire_spec in H' as (r0 & l & _ & ->). unfold retire_effect, run_callback.
    by repeat case_match.
  - apply bind_Ok in H' as (m & _ & H'). destruct (is_opening m); [|by injection H' as <-].
    unfold promote_to_active in H'. apply bind_Ok in H' as (r0 & _ & H').
    destruct (enqueue _ _) as [[|] b]; [|by injection H' as <-].
    apply bind_Ok in H' as (c1 & (l & ->)%bump_active_frame & H'). injection H' as <-.
    by destruct (decide _).
Qed.

Lemma serve_loop_device (q : list PendingRead) (c : Ctrl) : m_device (serve_loop q c) = m_device c.
Proof.
  revert c. induction q as [|p q IH]; intros c; simpl; [done|]. destruct (_ <? _); [done|].
  rewrite IH. unfold run_callback. by destruct (callback _).
Qed.

Lemma tick_prologue_device (c : Ctrl) : m_device (tick_prologue c) = m_device c.
Proof. unfold tick_prologue, serve_completed_reads. by rewrite serve_loop_device. Qed.

(** The whole tick, for any scheduler, refresh manager, row policy and plugins
    that meet their interfaces. *)
Lemma tick_inv (g g' : GenericDDR R P G) :
  1 <= read_latency (m_spec (m_device (g_ctrl g))) -> tick sch g = Ok g' ->
  base_inv (g_ctrl g) ->
  base_inv (g_ctrl g') /\ m_spec (m_device (g_ctrl g')) = m_spec (m_device (g_ctrl g)).
Proof.
  intros Hl H' Hb. unfold tick in H'. apply bind_Ok in H' as (g1 & H1 & H').
  apply bind_Ok in H' as ([c2 k] & H2 & H'). apply bind_Ok in H' as (g3 & H3 & H').
  assert (base_inv (g_ctrl g1) /\ m_device (g_ctrl g1) = m_device (g_ctrl g)) as [Hb1 Hd1].
  { unfold pre_hooks in H1. apply bind_Ok in H1 as ([r1 ca] & Ha & H1). apply bind_Ok in H1 as ([p1 cb] & Hb' & H1).
    apply bind_Ok in H1 as ([gs cc] & Hc & H1). injection H1 as <-. simpl in *.
    apply refresh_sends, sends_inv in Ha as [Da Ia]. apply pre_schedule_sends, sends_inv in Hb' as [Db Ib].
    apply (each_plugin_sends Q) in Hc; [|apply plugin_pre_sends]. apply sends_inv in Hc as [Dc Ic].
    split; [|by rewrite Dc, Db, Da, tick_prologue_device]. by apply Ic, Ib, Ia, tick_prologue_inv. }
  apply pick_same in H2 as Hs2. simpl in *.
  pose proof (same_base_inv _ _ Hs2 Hb1) as Hb2. pose proof (sb_spec _ _ Hs2) as Es2.
  assert (base_inv (g_ctrl g3) /\ m_spec (m_device (g_ctrl g3)) = m_spec (m_device (g_ctrl g))) as [Hb3 Hd3].
  { destruct k as [[id i]|]; [|injection H3 as <-; simpl; split; [done|congruence]].
    unfold serve_candidate in H3. apply bind_Ok in H3 as (c3 & Hi & H3). apply bind_Ok in H3 as (r & _ & H3).
    apply bind_Ok in H3 as (p' & _ & H3). apply bind_Ok in H3 as ([gs c4] & Hg & H3).
    apply bind_Ok in H3 as (c5 & Hadv & H3). injection H3 as <-. simpl in *.
    apply issue_candidate_same in Hi. pose proof (sb_spec _ _ Hi) as Es3.
    apply (each_plugin_sends Q) in Hg; [|intros ? ? ? ?; apply plugin_issue_sends].
    apply sends_inv in Hg as [D4 I4]. pose proof (advance_device _ _ _ _ Hadv) as D5.
    assert (E : m_spec (m_device c4) = m_spec (m_device (g_ctrl g))) by congruence.
    split; [|by rewrite D5]. eapply advance_inv; [by rewrite E|exact Hadv|]. by apply I4, (same_base_inv _ _ Hi). }
  unfold post_hooks in H'. apply bind_Ok in H' as ([p4 cp] & Hp & H'). apply bind_Ok in H' as ([gs cq] & Hq & H').
  injection H' as <-. simpl in *. apply post_schedule_sends, sends_inv in Hp as [Dp Ip].
  apply (each_plugin_sends Q) in Hq; [|apply plugin_post_sends]. apply sends_inv in Hq as [Dq Iq].
  split; [by apply Iq, Ip|]. by rewrite Dq, Dp.
Qed.
End tick.
