(* ===== verification/Refresh.v ===== *)
(** * Refresh managers and row policies

    [controller/refresh/impl]: no refresh, all-bank refresh (at once or
    scattered), per-bank refresh and the HBM per-bank refresh core.  Below them
    [controller/rowpolicy/impl]. *)

From Stdlib Require Import ZArith Lia.
From stdpp Require Import pretty.
From S2P Require Import Prelude Base Spec Node Standards Device Controller Scheduler GenericDDR.

Local Open Scope Z_scope.

(** [build_addr_vec]: the coordinates of a node, -1 below it.  The same helper
    is a member of every manager, and of the closed-row policy. *)
Definition build_addr_vec (d : DRAMDevice) (p : node_ptr) : result AddrVec_t :=
  _ ← deref d p;
  foldM (fun av n => vset av (m_level n) (m_node_id n))
    (replicate (Z.to_nat (level_count (m_spec d))) (-1)) (ancestors (m_root d) p).

(** ** No refresh *)
Inductive NoRefresh : Set := mkNoRefresh.
#[export] Instance NoRefresh_tick : RefreshManager NoRefresh := fun r c => Ok (r, c).

(** ** All-bank refresh *)
Definition all_bank_refresh_scopes : list (string * string) :=
  [("DDR3", "Rank"); ("DDR4", "Rank"); ("DDR5", "Rank"); ("LPDDR5", "Rank"); ("LPDDR6", "Rank");
   ("GDDR6", "Channel"); ("GDDR7", "Channel"); ("HBM1", "Channel"); ("HBM2", "PseudoChannel");
   ("HBM3", "PseudoChannel"); ("HBM4", "PseudoChannel")].

Definition all_bank_refresh_scope_for (s : DRAMSpec) : result string :=
  match List.find (fun p => bool_decide (standard_name s = p.1)) all_bank_refresh_scopes with
  | Some p => Ok p.2
  | None => Err (Throw ("AllBank refresh: no default scope for DRAM standard '" +:+ standard_name s +:+ "'"))
  end.

Record AllBankRefresh := mkAllBank {
  ab_next_refresh_cycle : Clk_t;
  ab_cmd_refab : Z;
  ab_nrefi : Z;
  ab_scatter_enabled : bool;
  ab_ref_nodes : list node_ptr;
  ab_next_scattered_refresh_cycles : list Clk_t
}.

Definition AllBank_init (c : Ctrl) (scatter_interval : Z) : result AllBankRefresh :=
  let info := m_spec (m_device c) in
  scope ← all_bank_refresh_scope_for info;
  refab ← get_command_id info "REFab";
  level ← get_level_id info scope;
  nrefi ← get_timing_value info "nREFI";
  let nodes := nodes_at_level level (m_root (m_device c)) in
  if (length nodes =? 0)%nat
  then Err (Throw ("AllBank refresh: no nodes found at level '" +:+ scope +:+ "'"))
  else if negb (0 <? scatter_interval) then Ok (mkAllBank nrefi refab nrefi false nodes [])
  else if nrefi <? scatter_interval * Z.of_nat (length nodes)
  then Err (Throw "AllBank refresh: scatter_interval * number_of_refresh_nodes must be <= nREFI")
  else Ok (mkAllBank (-1) refab nrefi true nodes
             (map (fun i => (i + 1) * scatter_interval) (seqZ 0 (Z.of_nat (length nodes))))).

Definition send_refresh (ab : AllBankRefresh) (c : Ctrl) (p : node_ptr) : result Ctrl :=
  av ← build_addr_vec (m_device c) p;
  r ← priority_send c (Request_cmd av (ab_cmd_refab ab));
  match r with
  | (true, c) => Ok c
  | (false, _) => Err (Throw "Failed to send all-bank refresh!")
  end.

Definition tick_all_at_once (ab : AllBankRefresh) (c : Ctrl) : result (AllBankRefresh * Ctrl) :=
  if negb (m_clk c =? ab_next_refresh_cycle ab) then Ok (ab, c)
  else
    let ab := mkAllBank (ab_next_refresh_cycle ab + ab_nrefi ab) (ab_cmd_refab ab) (ab_nrefi ab)
                (ab_scatter_enabled ab) (ab_ref_nodes ab) (ab_next_scattered_refresh_cycles ab) in
    c ← foldM (send_refresh ab) c (ab_ref_nodes ab);
    Ok (ab, c).

Definition tick_scattered (ab : AllBankRefresh) (c : Ctrl) : result (AllBankRefresh * Ctrl) :=
  foldM (fun (s : AllBankRefresh * Ctrl) i =>
    let '(ab, c) := s in
    next ← vget (ab_next_scattered_refresh_cycles ab) i;
    if negb (m_clk c =? next) then Ok (ab, c)
    else
      l ← vset (ab_next_scattered_refresh_cycles ab) i (next + ab_nrefi ab);
      let ab := mkAllBank (ab_next_refresh_cycle ab) (ab_cmd_refab ab) (ab_nrefi ab)
                  (ab_scatter_enabled ab) (ab_ref_nodes ab) l in
      p ← vget (ab_ref_nodes ab) i;
      c ← send_refresh ab c p;
      Ok (ab, c)) (ab, c) (seqZ 0 (Z.of_nat (length (ab_ref_nodes ab)))).

#[export] Instance AllBankRefresh_tick : RefreshManager AllBankRefresh := fun ab c =>
  if ab_scatter_enabled ab then tick_scattered ab c else tick_all_at_once ab c.

(** ** Per-bank refresh *)
Record PerBankRefresh := mkPerBank {
  pb_next_refresh_cycle : Clk_t;
  pb_cmd_refpb : Z;
  pb_nrefipb : Z;
  pb_nrfc_pb : Z;
  pb_requires_set_pause : bool;
  pb_pending_boundary_bank : option node_ptr;
  pb_pending_boundary_enqueue_clk : Clk_t;
  pb_next_set_allowed_clk : Clk_t;
  pb_bank_nodes : list node_ptr;
  pb_next_bank_idx : Z
}.

Definition PerBank_init (c : Ctrl) : result PerBankRefresh :=
  let info := m_spec (m_device c) in
  if bool_decide (standard_name info = "HBM1") || has_level info "PseudoChannel"
  then Err (Throw "PerBank refresh does not support HBM or PseudoChannel standards; use HBMPerBankRefresh instead")
  else
    refpb ← get_command_id info "REFpb";
    bank_level ← get_level_id info "Bank";
    nrefipb ← get_timing_value info "nREFIpb";
    let pause := bool_decide (standard_name info = "GDDR6") || bool_decide (standard_name info = "GDDR7") in
    nrfc ← (if pause then get_timing_value info "nRFCpb" else Ok (-1));
    Ok (mkPerBank nrefipb refpb nrefipb nrfc pause None (-1) 0
          (nodes_at_level bank_level (m_root (m_device c))) 0).

(** The most recent issue of a command at a node, from its history. *)
Definition last_issue (d : DRAMDevice) (p : node_ptr) (cmd : Z) (msg : string) : result Clk_t :=
  n ← deref d p;
  h ← vget (m_cmd_history n) cmd;
  match h with [] => Err (Throw msg) | t :: _ => Ok t end.

(** The pause between two passes over the banks ends [nRFCpb] after the boundary
    bank's refresh was issued. *)
Definition pb_observe (pb : PerBankRefresh) (c : Ctrl) : result PerBankRefresh :=
  match pb_pending_boundary_bank pb with
  | None => Ok pb
  | Some p =>
      issue_clk ← last_issue (m_device c) p (pb_cmd_refpb pb) "PerBank refresh requires Bank-level REFpb timing history";
      Ok (if pb_pending_boundary_enqueue_clk pb <=? issue_clk
          then mkPerBank (pb_next_refresh_cycle pb) (pb_cmd_refpb pb) (pb_nrefipb pb) (pb_nrfc_pb pb)
                 (pb_requires_set_pause pb) None (-1) (issue_clk + pb_nrfc_pb pb)
                 (pb_bank_nodes pb) (pb_next_bank_idx pb)
          else pb)
  end.

#[export] Instance PerBankRefresh_tick : RefreshManager PerBankRefresh := fun pb c =>
  pb ← pb_observe pb c;
  if (m_clk c <? pb_next_refresh_cycle pb) || bool_decide (is_Some (pb_pending_boundary_bank pb)) ||
     (m_clk c <? pb_next_set_allowed_clk pb)
  then Ok (pb, c)
  else
    p ← vget (pb_bank_nodes pb) (pb_next_bank_idx pb);
    av ← build_addr_vec (m_device c) p;
    r ← priority_send c (Request_cmd av (pb_cmd_refpb pb));
    match r with
    | (false, _) => Err (Throw "Failed to send per-bank refresh!")
    | (true, c) =>
        let size := Z.of_nat (length (pb_bank_nodes pb)) in
        let boundary := pb_requires_set_pause pb && (pb_next_bank_idx pb + 1 =? size) in
        Ok (mkPerBank (pb_next_refresh_cycle pb + pb_nrefipb pb) (pb_cmd_refpb pb) (pb_nrefipb pb)
              (pb_nrfc_pb pb) (pb_requires_set_pause pb)
              (if boundary then Some p else pb_pending_boundary_bank pb)
              (if boundary then m_clk c else pb_pending_boundary_enqueue_clk pb)
              (pb_next_set_allowed_clk pb) (pb_bank_nodes pb)
              ((pb_next_bank_idx pb + 1) mod size), c)
    end.

(** ** HBM per-bank refresh *)
Record BankRef := mkBankRef { br_node : node_ptr; br_scope : Z; br_flat_bank : Z }.

Record RefpbSetState := mkSet {
  banks_by_flat : list (option BankRef);
  pending_boundary_bank : option node_ptr;
  pending_boundary_enqueue_clk : Clk_t;
  next_block_allowed_clk : Clk_t
}.

Record HBMPerBankRefresh := mkHBM {
  h_cmd_refpb : Z;
  h_level_scope : Z;
  h_level_sid : Z;
  h_level_bg : Z;
  h_level_bank : Z;
  h_scope_count : Z;
  h_banks_per_group : Z;
  h_banks_per_sid : Z;
  h_banks_per_scope : Z;
  h_boundary_block_size : Z;
  h_nrefipb : Z;
  h_nrfc_pb : Z;
  h_next_flat_bank : Z;
  h_next_refresh_clk : Clk_t;
  h_sets : list RefpbSetState;
  h_pending_refpbs : list BankRef
}.

Definition h_update (h : HBMPerBankRefresh) (flat : Z) (next : Clk_t) (sets : list RefpbSetState)
  (pending : list BankRef) : HBMPerBankRefresh :=
  mkHBM (h_cmd_refpb h) (h_level_scope h) (h_level_sid h) (h_level_bg h) (h_level_bank h) (h_scope_count h)
    (h_banks_per_group h) (h_banks_per_sid h) (h_banks_per_scope h) (h_boundary_block_size h) (h_nrefipb h)
    (h_nrfc_pb h) flat next sets pending.

Definition flat_bank_in_scope (h : HBMPerBankRefresh) (av : AddrVec_t) : result Z :=
  sid ← (if 0 <=? h_level_sid h then vget av (h_level_sid h) else Ok 0);
  bg ← vget av (h_level_bg h);
  bank ← vget av (h_level_bank h);
  Ok (sid * h_banks_per_sid h + (bg * h_banks_per_group h + bank)).

(** One bank node placed in its slot. *)
Definition place_bank (h : HBMPerBankRefresh) (d : DRAMDevice) (sets : list RefpbSetState) (p : node_ptr)
  : result (list RefpbSetState) :=
  av ← build_addr_vec d p;
  scope ← vget av (h_level_scope h);
  flat ← flat_bank_in_scope h av;
  set ← vget sets scope;
  slot ← vget (banks_by_flat set) flat;
  match slot with
  | Some _ => Err (Throw "HBMPerBankRefresh found duplicate bank node in a REFpb set")
  | None =>
      l ← vset (banks_by_flat set) flat (Some (mkBankRef p scope flat));
      vset sets scope (mkSet l (pending_boundary_bank set) (pending_boundary_enqueue_clk set)
                         (next_block_allowed_clk set))
  end.

Definition build_refpb_sets (h : HBMPerBankRefresh) (d : DRAMDevice) : result (list RefpbSetState) :=
  let empty := mkSet (replicate (Z.to_nat (h_banks_per_scope h)) None) None (-1) 0 in
  sets ← foldM (place_bank h d) (replicate (Z.to_nat (h_scope_count h)) empty)
           (nodes_at_level (h_level_bank h) (m_root d));
  if forallb (fun s => forallb (fun b => bool_decide (is_Some b)) (banks_by_flat s)) sets then Ok sets
  else Err (Throw "HBMPerBankRefresh found an incomplete REFpb set").

Definition HBM_init (c : Ctrl) : result HBMPerBankRefresh :=
  let info := m_spec (m_device c) in
  if negb (bool_decide (standard_name info ∈ ["HBM1"; "HBM2"; "HBM3"; "HBM4"]))
  then Err (Throw "HBMPerBankRefresh requires an HBM1, HBM2, HBM3, or HBM4 standard")
  else
    refpb ← get_command_id info "REFpb";
    scope ← (if has_level info "PseudoChannel" then get_level_id info "PseudoChannel"
             else get_level_id info "Channel");
    sid ← (if has_level info "Sid" then get_level_id info "Sid" else Ok (-1));
    bg ← get_level_id info "BankGroup";
    bank ← get_level_id info "Bank";
    scope_count ← vget (level_sizes (organization info)) scope;
    sid_count ← (if 0 <=? sid then get_level_size info "Sid" else Ok 1);
    bgs ← get_level_size info "BankGroup";
    per_group ← get_level_size info "Bank";
    let per_sid := bgs * per_group in
    let per_scope := sid_count * per_sid in
    let block := if bool_decide (standard_name info = "HBM3") || bool_decide (standard_name info = "HBM4")
                 then per_sid else per_scope in
    nrefipb ← get_timing_value info "nREFIpb";
    nrfc ← get_timing_value info "nRFCpb";
    let h := mkHBM refpb scope sid bg bank scope_count per_group per_sid per_scope block nrefipb nrfc 0
               nrefipb [] [] in
    sets ← build_refpb_sets h (m_device c);
    Ok (h_update h 0 nrefipb sets []).

Definition observe_boundary_refpbs (h : HBMPerBankRefresh) (c : Ctrl) : result (list RefpbSetState) :=
  mapM (fun set =>
    match pending_boundary_bank set with
    | None => Ok set
    | Some p =>
        issue_clk ← last_issue (m_device c) p (h_cmd_refpb h) "HBMPerBankRefresh requires Bank-level REFpb timing history";
        Ok (if issue_clk <? pending_boundary_enqueue_clk set then set
            else mkSet (banks_by_flat set) None (-1) (issue_clk + h_nrfc_pb h))
    end) (h_sets h).

(** The next bank of every scope, when no set is pausing. *)
Definition seed_pending_refpbs (h : HBMPerBankRefresh) (c : Ctrl) : result (bool * HBMPerBankRefresh) :=
  if existsb (fun set => bool_decide (is_Some (pending_boundary_bank set)) ||
                         (m_clk c <? next_block_allowed_clk set)) (h_sets h)
  then Ok (false, h)
  else
    q ← foldM (fun q scope =>
          set ← vget (h_sets h) scope;
          b ← vget (banks_by_flat set) (h_next_flat_bank h);
          match b with Some b => Ok (q ++ [b]) | None => Err Undef end)
        (h_pending_refpbs h) (seqZ 0 (h_scope_count h));
    Ok (true, h_update h (Z.rem (h_next_flat_bank h + 1) (h_banks_per_scope h)) (h_next_refresh_clk h)
                (h_sets h) q).

Definition service_pending_refpb (h : HBMPerBankRefresh) (c : Ctrl) : result (bool * HBMPerBankRefresh * Ctrl) :=
  match h_pending_refpbs h with
  | [] => Ok (false, h, c)
  | pending :: rest =>
      av ← build_addr_vec (m_device c) (br_node pending);
      r ← priority_send c (Request_cmd av (h_cmd_refpb h));
      match r with
      | (false, _) => Ok (true, h, c)
      | (true, c) =>
          set ← vget (h_sets h) (br_scope pending);
          let set := if Z.rem (br_flat_bank pending + 1) (h_boundary_block_size h) =? 0
                     then mkSet (banks_by_flat set) (Some (br_node pending)) (m_clk c) (next_block_allowed_clk set)
                     else set in
          sets ← vset (h_sets h) (br_scope pending) set;
          Ok (true, h_update h (h_next_flat_bank h) (h_next_refresh_clk h) sets rest, c)
      end
  end.

#[export] Instance HBMPerBankRefresh_tick : RefreshManager HBMPerBankRefresh := fun h c =>
  sets ← observe_boundary_refpbs h c;
  let h := h_update h (h_next_flat_bank h) (h_next_refresh_clk h) sets (h_pending_refpbs h) in
  s ← service_pending_refpb h c;
  let '(serviced, h, c) := s in
  if (serviced : bool) then Ok (h, c)
  else if m_clk c <? h_next_refresh_clk h then Ok (h, c)
  else
    s ← seed_pending_refpbs h c;
    let '(seeded, h) := s in
    if negb seeded then Ok (h, c)
    else
      s ← service_pending_refpb h c;
      let '(_, h, c) := s in
      Ok (h_update h (h_next_flat_bank h) (h_next_refresh_clk h + h_nrefipb h) (h_sets h) (h_pending_refpbs h), c).

(** ** Row policies

    [controller/rowpolicy/impl]: the open-row policy (every hook a no-op) and the
    closed-row policy that caps the column accesses of a row. *)

(** *** Open row *)
Inductive OpenRowPolicy : Set := mkOpen.

#[export] Instance OpenRowPolicy_hooks : RowPolicy OpenRowPolicy := {|
  rp_pre_schedule := fun p c => Ok (p, c);
  rp_try_upgrade_command := fun _ _ r => Ok r;
  rp_on_issue := fun p _ _ => Ok p;
  rp_post_schedule := fun p c => Ok (p, c)
|}.

(** *** Closed row with a cap on column accesses *)
Record ClosedCAP := mkCAP {
  m_cap : Z;
  m_cmd_prepb : Z;
  m_cmd_rd : Z;
  m_cmd_wr : Z;
  m_cmd_rda : Z;
  m_cmd_wra : Z;
  m_has_ap : bool;
  m_col_accesses : list Z;
  m_prepb_injected : list bool
}.

Definition cap_update (p : ClosedCAP) (cols : list Z) (inj : list bool) : ClosedCAP :=
  mkCAP (m_cap p) (m_cmd_prepb p) (m_cmd_rd p) (m_cmd_wr p) (m_cmd_rda p) (m_cmd_wra p) (m_has_ap p) cols inj.

(** [find_command]: the first of the names the standard defines. *)
Fixpoint find_command (s : DRAMSpec) (names : list string) (required : bool) : result Z :=
  match names with
  | [] => if required
          then Err (Throw "ClosedCAP: DRAM standard does not define required RD/WR commands")
          else Ok (-1)
  | n :: names => if has_command s n then get_command_id s n else find_command s names required
  end.

Definition ClosedCAP_init (c : Ctrl) (cap : Z) : result ClosedCAP :=
  let s := m_spec (m_device c) in
  prepb ← get_command_id s "PREpb";
  rd ← find_command s ["RD"; "RD_S"] true;
  wr ← find_command s ["WR"; "WR_S"] true;
  rda ← find_command s ["RDA"; "RDA_S"] false;
  wra ← find_command s ["WRA"; "WRA_S"] false;
  let banks := length (m_bank_nodes (m_device c)) in
  Ok (mkCAP cap prepb rd wr rda wra (negb (rda =? -1) && negb (wra =? -1))
        (replicate banks 0) (replicate banks false)).

Definition cap_try_upgrade (p : ClosedCAP) (c : Ctrl) (r : Request) : result Request :=
  if negb (m_has_ap p) then Ok r
  else if (length (addr_vec r) =? 0)%nat then Ok r
  else
    bank ← get_flat_bank_id (m_device c) (addr_vec r);
    if (bank <? 0) || (Z.of_nat (length (m_col_accesses p)) <=? bank) then Ok r
    else
      n ← vget (m_col_accesses p) bank;
      if n <? m_cap p then Ok r
      else
        rda ← (if command r =? m_cmd_rd p then ctrl_check_timing c (m_cmd_rda p) (addr_vec r) else Ok false);
        if (rda : bool) then Ok (set_final_command (set_command r (m_cmd_rda p)) (m_cmd_rda p))
        else
          wra ← (if command r =? m_cmd_wr p then ctrl_check_timing c (m_cmd_wra p) (addr_vec r) else Ok false);
          Ok (if (wra : bool) then set_final_command (set_command r (m_cmd_wra p)) (m_cmd_wra p) else r).

Definition cap_on_issue (p : ClosedCAP) (c : Ctrl) (r : Request) : result ClosedCAP :=
  meta ← vget (command_meta (m_spec (m_device c))) (command r);
  p ← (if is_closing meta then
         for_each_target_bank (m_device c) (command r) (addr_vec r)
           (fun p id => cols ← vset (m_col_accesses p) id 0;
                        inj ← vset (m_prepb_injected p) id false;
                        Ok (cap_update p cols inj)) p
       else Ok p);
  if is_accessing meta && negb (is_closing meta) && negb (length (addr_vec r) =? 0)%nat then
    bank ← get_flat_bank_id (m_device c) (addr_vec r);
    if (0 <=? bank) && (bank <? Z.of_nat (length (m_col_accesses p))) then
      n ← vget (m_col_accesses p) bank;
      cols ← vset (m_col_accesses p) bank (n + 1);
      Ok (cap_update p cols (m_prepb_injected p))
    else Ok p
  else Ok p.

(** One round of the loop over the banks in [pre_schedule]. *)
Definition cap_inject (s : ClosedCAP * Ctrl) (i : Z) : result (ClosedCAP * Ctrl) :=
  let '(p, c) := s in
  n ← vget (m_col_accesses p) i;
  inj ← vget (m_prepb_injected p) i;
  if (n <? m_cap p) || inj then Ok (p, c)
  else
    bank ← vget (m_bank_nodes (m_device c)) i;
    av ← build_addr_vec (m_device c) bank;
    ok ← ctrl_check_timing c (m_cmd_prepb p) av;
    if negb ok then Ok (p, c)
    else
      s ← priority_send c (Request_cmd av (m_cmd_prepb p));
      match s with
      | (true, c) => l ← vset (m_prepb_injected p) i true; Ok (cap_update p (m_col_accesses p) l, c)
      | (false, c) => Ok (p, c)
      end.

Definition cap_pre_schedule (p : ClosedCAP) (c : Ctrl) : result (ClosedCAP * Ctrl) :=
  foldM cap_inject (p, c) (seqZ 0 (Z.of_nat (length (m_col_accesses p)))).

#[export] Instance ClosedCAP_hooks : RowPolicy ClosedCAP := {|
  rp_pre_schedule := cap_pre_schedule;
  rp_try_upgrade_command := cap_try_upgrade;
  rp_on_issue := cap_on_issue;
  rp_post_schedule := fun p c => Ok (p, c)
|}.
