(* ===== verification/ControllerProps.v ===== *)
(** * Controller theorems

    Schedulers, admission, the request life cycle and write-mode control, for
    any combination of scheduler, refresh manager, row policy and plugins. *)

From Stdlib Require Import ZArith Lia SpecFloat.
From S2P Require Import Prelude Base Spec Node Standards Device Controller Scheduler GenericDDR.
From S2P Require Import ControllerFacts ControllerInv Refresh.

Local Open Scope Z_scope.

(** ** The sub-components meet their interfaces *)

Definition any_request : Ctrl -> Request -> Prop := fun _ _ => True.

#[export] Instance NoRefresh_laws (Q : Ctrl -> Request -> Prop) : RefreshLaws Q NoRefresh.
Proof. intros r r' c c' H. unfold refresh_tick, NoRefresh_tick in H. injection H as _ <-. constructor. Qed.

Lemma foldM_sends {S A} (Q : Ctrl -> Request -> Prop) (ctrl : S -> Ctrl) (f : S -> A -> result S) (l : list A) (s s' : S) :
  (forall s s' a, f s a = Ok s' -> sends Q (ctrl s) (ctrl s')) -> foldM f s l = Ok s' -> sends Q (ctrl s) (ctrl s').
Proof.
  intros Hf. revert s. induction l as [|a l IH]; intros s H; simpl in H; [injection H as <-; constructor|].
  apply bind_Ok in H as (s1 & H1 & H). eapply sends_trans; eauto.
Qed.

Lemma send_cmd_sends (c c' : Ctrl) (av : AddrVec_t) (cmd : Z) (ok : bool) :
  priority_send c (Request_cmd av cmd) = Ok (ok, c') -> sends any_request c c'.
Proof. intros H. by eapply (sends_cons any_request _ _ _ (Request_cmd av cmd)); [| |exact H|constructor]. Qed.

Lemma send_refresh_sends (ab : AllBankRefresh) (c c' : Ctrl) (p : node_ptr) :
  send_refresh ab c p = Ok c' -> sends any_request c c'.
Proof.
  unfold send_refresh. intros (av & _ & H)%bind_Ok. apply bind_Ok in H as ([[|] c1] & H1 & H); [|done].
  injection H as <-. by eapply send_cmd_sends.
Qed.

#[export] Instance AllBankRefresh_laws : RefreshLaws any_request AllBankRefresh.
Proof.
  intros ab ab' c c' H. unfold refresh_tick, AllBankRefresh_tick in H. destruct (ab_scatter_enabled ab).
  - unfold tick_scattered in H.
    apply (foldM_sends any_request (fun s : AllBankRefresh * Ctrl => s.2)) in H; [done|].
    clear. intros [ab c] [ab' c'] i H. apply bind_Ok in H as (next & _ & H).
    destruct (negb _); [injection H as <- <-; constructor|]. apply bind_Ok in H as (l & _ & H).
    apply bind_Ok in H as (p & _ & H). apply bind_Ok in H as (c1 & H1 & H). injection H as <- <-.
    by eapply send_refresh_sends.
  - unfold tick_all_at_once in H. destruct (negb _); [injection H as <- <-; constructor|].
    apply bind_Ok in H as (c1 & H1 & H). injection H as <- <-.
    apply (foldM_sends any_request (fun c => c)) in H1; [done|]. intros. by eapply send_refresh_sends.
Qed.

#[export] Instance PerBankRefresh_laws : RefreshLaws any_request PerBankRefresh.
Proof.
  intros pb pb' c c' H. unfold refresh_tick, PerBankRefresh_tick in H. apply bind_Ok in H as (pb1 & _ & H).
  destruct (_ || _); [injection H as <- <-; constructor|]. apply bind_Ok in H as (p & _ & H).
  apply bind_Ok in H as (av & _ & H). apply bind_Ok in H as ([[|] c1] & H1 & H); [|done].
  injection H as <- <-. by eapply send_cmd_sends.
Qed.

Lemma service_sends (h h' : HBMPerBankRefresh) (c c' : Ctrl) (b : bool) :
  service_pending_refpb h c = Ok (b, h', c') -> sends any_request c c'.
Proof.
  unfold service_pending_refpb. destruct (h_pending_refpbs h) as [|p rest]; [intros [= <- <- <-]; constructor|].
  intros (av & _ & H)%bind_Ok. apply bind_Ok in H as ([[|] c1] & H1 & H); [|injection H as <- <- <-; constructor].
  apply bind_Ok in H as (set & _ & H). apply bind_Ok in H as (sets & _ & H). injection H as <- <- <-.
  by eapply send_cmd_sends.
Qed.

#[export] Instance HBMPerBankRefresh_laws : RefreshLaws any_request HBMPerBankRefresh.
Proof.
  intros h h' c c' H. unfold refresh_tick, HBMPerBankRefresh_tick in H. apply bind_Ok in H as (sets & _ & H).
  apply bind_Ok in H as ([[b1 h1] c1] & H1%service_sends & H). destruct b1; [by injection H as <- <-|].
  destruct (_ <? _); [by injection H as <- <-|]. apply bind_Ok in H as ([b2 h2] & _ & H).
  destruct (negb b2); [by injection H as <- <-|]. apply bind_Ok in H as ([[b3 h3] c3] & H3%service_sends & H).
  injection H as <- <-. by eapply sends_trans.
Qed.

#[export] Instance OpenRowPolicy_laws (Q : Ctrl -> Request -> Prop) : RowPolicyLaws Q OpenRowPolicy.
Proof. split; intros; simplify_eq/=; try constructor; done. Qed.

#[export] Instance ClosedCAP_laws : RowPolicyLaws any_request ClosedCAP.
Proof.
  split.
  - intros p p' c c' H. simpl in H. unfold cap_pre_schedule in H.
    apply (foldM_sends any_request (fun s : ClosedCAP * Ctrl => s.2)) in H; [done|].
    clear. intros [p c] [p' c'] i H. unfold cap_inject in H. apply bind_Ok in H as (n & _ & H).
    apply bind_Ok in H as (inj & _ & H). destruct (_ || _); [injection H as <- <-; constructor|].
    apply bind_Ok in H as (bank & _ & H). apply bind_Ok in H as (av & _ & H). apply bind_Ok in H as (ok & _ & H).
    destruct (negb ok); [injection H as <- <-; constructor|]. apply bind_Ok in H as ([[|] c1] & H1 & H).
    + apply bind_Ok in H as (l & _ & H). injection H as <- <-. by eapply send_cmd_sends.
    + injection H as <- <-. by eapply send_cmd_sends.
  - intros p p' c c' [= <- <-]. constructor.
  - intros p c r r' H. simpl in H. unfold cap_try_upgrade in H.
    assert (Hr : same_req r r) by reflexivity.
    destruct (negb _); [by injection H as <-|]. destruct (_ =? 0)%nat; [by injection H as <-|].
    apply bind_Ok in H as (bank & _ & H). destruct (_ || _); [by injection H as <-|].
    apply bind_Ok in H as (n & _ & H). destruct (_ <? _); [by injection H as <-|].
    apply bind_Ok in H as (rda & _ & H). destruct rda; [by injection H as <-|].
    apply bind_Ok in H as (wra & _ & H). injection H as <-. by destruct wra.
Qed.

(** No plugin configured. *)
#[export] Instance no_plugin : ControllerPlugin Empty_set := {|
  pl_pre_schedule := fun (g : Empty_set) _ => match g with end;
  pl_on_issue := fun (g : Empty_set) _ _ => match g with end;
  pl_post_schedule := fun (g : Empty_set) _ => match g with end
|}.
#[export] Instance no_plugin_laws (Q : Ctrl -> Request -> Prop) : PluginLaws Q Empty_set.
Proof. split; by intros []. Qed.

(** ** Reachable controllers *)
Section reach.
Context {R P G : Type} `{IR : RefreshManager R} `{IP : RowPolicy P} `{IG : ControllerPlugin G}.
Context (apply : Request -> result Request) (sch : scheduler_t).

(** The steps a memory system drives: a request is offered, a sub-component of
    the system enqueues maintenance, a clock edge. *)
Inductive gstep (g : GenericDDR R P G) : GenericDDR R P G -> Prop :=
| gstep_send r r' ok c' :
    send apply (g_ctrl g) r = Ok (ok, r', c') ->
    gstep g (mkGDDR c' (g_refresh g) (g_policy g) (g_plugins g))
| gstep_priority r ok c' :
    type_id r = -1 -> priority_send (g_ctrl g) r = Ok (ok, c') ->
    gstep g (mkGDDR c' (g_refresh g) (g_policy g) (g_plugins g))
| gstep_tick g' : tick sch g = Ok g' -> gstep g g'.
End reach.

Lemma init_base_inv (cfg : CtrlConfig) (c : Ctrl) :
  init_base cfg = Ok c -> base_inv c.
Proof.
  unfold init_base. destruct (_ || _) eqn:Hsz; [done|]. destruct (_ || _) in |- *; [done|].
  intros (s & _ & H)%bind_Ok. apply bind_Ok in H as (d & _ & H). apply bind_Ok in H as (t & _ & H).
  injection H as <-. constructor.
  - unfold ledger, in_bufs, cnt, stat. simpl. rewrite !lookup_empty. done.
  - split; [done|constructor].
  - split; [constructor|constructor].
  - intros []; unfold buf_wf, buf_size; simpl; lia.
Qed.

Lemma setup_base_inv (c : Ctrl) (n : Z) : base_inv c -> base_inv (setup_base c n).
Proof.
  intros [L W Pd B]. constructor; [exact L|exact W|exact Pd|]. intros id. generalize (B id). by destruct id.
Qed.

Section reach_inv.
Context {R P G : Type} `{IR : RefreshManager R} `{IP : RowPolicy P} `{IG : ControllerPlugin G}.
Context (Q : Ctrl -> Request -> Prop).
Context `{!RefreshLaws Q R} `{!RowPolicyLaws Q P} `{!PluginLaws Q G}.
Context (apply : Request -> result Request) `{!AddrMapperLaws apply}.
Context (sch : scheduler_t) `{!SchedulerLaws sch}.

Lemma send_device (c c' : Ctrl) (r r' : Request) (ok : bool) :
  send apply c r = Ok (ok, r', c') -> m_device c' = m_device c.
Proof.
  intros H%send_cases; [|done]. destruct H; try done.
  by destruct (run_callback_cases (log_event c e) r') as [->|(e' & ->)].
Qed.

Lemma gstep_inv (g g' : GenericDDR R P G) :
  gstep apply sch g g' -> 1 <= read_latency (m_spec (m_device (g_ctrl g))) -> base_inv (g_ctrl g) ->
  base_inv (g_ctrl g') /\ m_spec (m_device (g_ctrl g')) = m_spec (m_device (g_ctrl g)).
Proof.
  intros Hs Hl Hb. destruct Hs as [r r' ok c' H|r ok c' Ht H|g' H]; simpl.
  - split; [by eapply send_inv|]. by erewrite send_device.
  - split; [by eapply priority_send_inv|]. by erewrite priority_send_device.
  - by eapply tick_inv.
Qed.

Lemma reach_inv (g g' : GenericDDR R P G) :
  rtc (gstep apply sch) g g' -> 1 <= read_latency (m_spec (m_device (g_ctrl g))) -> base_inv (g_ctrl g) ->
  base_inv (g_ctrl g').
Proof.
  induction 1 as [g|g1 g2 g3 Hs _ IH]; [done|]. intros Hl Hb.
  destruct (gstep_inv _ _ Hs Hl Hb) as [Hb2 E]. apply IH; [by rewrite E|done].
Qed.
End reach_inv.

(** ** The identity of requests

    What no step changes in a request: its address and address vector, its type,
    its arrival cycle, its source and its callback. *)
Definition ident (r : Request) : Z * Z * AddrVec_t * Z * Z * option Z :=
  (addr r, type_id r, addr_vec r, arrive r, source_id r, callback r).

#[local] Arguments ident : simpl never.

Definition of_type (t : Z) (l : list Request) : list Request := List.filter (fun r => type_id r =? t) l.
Definition with_callback (l : list Request) : list Request := List.filter (fun r => bool_decide (is_Some (callback r))) l.
Definition idents_of (l : list Request) := ident <$> List.filter (fun r => (type_id r =? Read) || (type_id r =? Write)) l.

(** The requests whose departure was announced, and whose callback ran. *)
Definition departed (l : list Event) : list Request :=
  omap (fun e => match e with EvDeparture r => Some r | EvCallback _ => None end) l.
Definition called_back (l : list Event) : list Request :=
  omap (fun e => match e with EvCallback r => Some r | EvDeparture _ => None end) l.

(** Everything that waits in a buffer. *)
Definition held (c : Ctrl) : list Request :=
  buffer (m_active_buffer c) ++ buffer (m_priority_buffer c) ++ buffer (m_read_buffer c) ++ buffer (m_write_buffer c).

(** The books: what was accepted has departed or is held, and of the departed
    reads each is pending or was served, with its callback if it has one. *)
Record books (acc : list Request) (c : Ctrl) : Prop := mkBooks {
  bk_accepted : idents_of acc ≡ₚ idents_of (departed (m_log c) ++ held c);
  bk_reads : exists served,
    ident <$> of_type Read (departed (m_log c)) ≡ₚ ident <$> ((p_req <$> m_pending c) ++ served) /\
    ident <$> of_type Read (called_back (m_log c)) = ident <$> with_callback served /\
    Z.of_nat (length served) = stat c "num_read_reqs_served";
  bk_pending : Forall (fun p => type_id (p_req p) = Read) (m_pending c);
  bk_writes : ident <$> of_type Write (called_back (m_log c)) = ident <$> with_callback (of_type Write (departed (m_log c)))
}.

Lemma idents_app (l l' : list Request) : idents_of (l ++ l') = idents_of l ++ idents_of l'.
Proof. unfold idents_of. by rewrite List.filter_app, fmap_app. Qed.
Lemma of_type_app (t : Z) (l l' : list Request) : of_type t (l ++ l') = of_type t l ++ of_type t l'.
Proof. apply List.filter_app. Qed.
Lemma with_callback_app (l l' : list Request) : with_callback (l ++ l') = with_callback l ++ with_callback l'.
Proof. apply List.filter_app. Qed.
Lemma departed_app (l l' : list Event) : departed (l ++ l') = departed l ++ departed l'.
Proof. apply omap_app. Qed.
Lemma called_back_app (l l' : list Event) : called_back (l ++ l') = called_back l ++ called_back l'.
Proof. apply omap_app. Qed.

Lemma filter_perm {A} (f : A -> bool) (l l' : list A) : l ≡ₚ l' -> List.filter f l ≡ₚ List.filter f l'.
Proof.
  induction 1 as [|x l l' _ IH|x y l|l1 l2 l3 _ IH1 _ IH2]; cbn [List.filter]; [done| | |by etrans].
  - destruct (f x); [by rewrite IH|done].
  - destruct (f x), (f y); try done. apply Permutation_swap.
Qed.

#[export] Instance idents_perm : Proper ((≡ₚ) ==> (≡ₚ)) idents_of.
Proof. intros l l' H. unfold idents_of. by rewrite (filter_perm _ _ _ H). Qed.

Lemma idents_same (l l' : list Request) : Forall2 same_req l l' -> idents_of l' = idents_of l.
Proof.
  unfold idents_of. induction 1 as [|r r' l l' (E1 & E2 & E3 & E4 & E5 & E6) _ IH]; [done|]. cbn [List.filter]. rewrite E2.
  destruct (_ || _); [|done]. rewrite !fmap_cons, IH. f_equal. unfold ident. congruence.
Qed.

Lemma held_same (c c' : Ctrl) :
  (forall id, same_buf (get_buf c id) (get_buf c' id)) -> idents_of (held c') = idents_of (held c).
Proof.
  intros H. apply idents_same. unfold held. pose proof (proj2 (H BActive)). pose proof (proj2 (H BPriority)).
  pose proof (proj2 (H BRead)). pose proof (proj2 (H BWrite)). repeat apply Forall2_app; done.
Qed.

Lemma held_set_buf (c : Ctrl) (id : buf_id) (b : ReqBuffer) (r : Request) :
  buffer (get_buf c id) ≡ₚ r :: buffer b -> held c ≡ₚ r :: held (set_buf c id b).
Proof. unfold held. destruct id; simpl; intros ->; solve_Permutation. Qed.

Lemma held_enqueue (c : Ctrl) (id : buf_id) (b : ReqBuffer) (r : Request) :
  enqueue (get_buf c id) r = (true, b) -> held (set_buf c id b) ≡ₚ r :: held c.
Proof. intros [E _]%enqueue_true. unfold held. destruct id; simpl in *; rewrite E; solve_Permutation. Qed.

Lemma held_remove (c : Ctrl) (id : buf_id) (i : nat) (r : Request) :
  buffer (get_buf c id) !! i = Some r -> held c ≡ₚ r :: held (set_buf c id (remove_at (get_buf c id) i)).
Proof. intros Hi. apply held_set_buf. simpl. by apply delete_Permutation. Qed.

(** A step that announces, completes and serves nothing. *)
Lemma books_frame (acc acc' : list Request) (c c' : Ctrl) :
  m_log c' = m_log c -> m_pending c' = m_pending c -> stat c' "num_read_reqs_served" = stat c "num_read_reqs_served" ->
  idents_of acc' ++ idents_of (held c) ≡ₚ idents_of acc ++ idents_of (held c') -> books acc c -> books acc' c'.
Proof.
  intros E1 E2 E3 H [B1 (served & B2) B3 B4]. constructor; rewrite ?E1, ?E2, ?E3; [|by exists served|done|done].
  rewrite idents_app in *. apply (Permutation_app_inv_r (idents_of (held c))).
  rewrite H, B1. solve_Permutation.
Qed.

Lemma books_same (acc : list Request) (c c' : Ctrl) : same_base c c' -> books acc c -> books acc c'.
Proof.
  intros Hs. apply books_frame; [apply Hs|apply Hs|apply Hs; unfold ledger_stats; set_solver|].
  by rewrite (held_same _ _ (sb_bufs _ _ Hs)).
Qed.

Lemma idents_maintenance (r : Request) (l : list Request) : type_id r = -1 -> idents_of (r :: l) = idents_of l.
Proof. unfold idents_of. intros E. cbn [List.filter]. by rewrite E. Qed.

Lemma books_priority (acc : list Request) (c c' : Ctrl) (r : Request) (ok : bool) :
  type_id r = -1 -> priority_send c r = Ok (ok, c') -> books acc c -> books acc c'.
Proof.
  unfold priority_send. intros Ht H. destruct (_ || _); [done|].
  destruct (enqueue (m_priority_buffer c) r) as [[|] b] eqn:Hq; injection H as <- <-; [|done].
  rewrite Ht. cbn [Z.eqb Pos.eqb]. apply books_frame; [done|done|by stats|].
  change (held (bump _ _ _)) with (held (set_buf c BPriority b)). by rewrite (held_enqueue c BPriority b r Hq), idents_maintenance.
Qed.

Lemma books_sends (Q : Ctrl -> Request -> Prop) (acc : list Request) (c c' : Ctrl) : sends Q c c' -> books acc c -> books acc c'.
Proof. induction 1 as [|c c1 c2 r ok Ht _ Hp _ IH]; [done|]. intros Hb. by eapply IH, books_priority. Qed.

(** The books after a departure of [r], which takes the events [ev]. *)
Lemma books_depart (acc acc' : list Request) (c c' : Ctrl) (r : Request) (ev : list Event) :
  m_log c' = m_log c ++ ev -> idents_of (departed ev) = idents_of [r] ->
  idents_of acc' ++ idents_of (held c) ≡ₚ idents_of acc ++ idents_of [r] ++ idents_of (held c') ->
  books acc c -> idents_of acc' ≡ₚ idents_of (departed (m_log c') ++ held c').
Proof.
  intros E Hd H [B1 _ _ _]. rewrite E, departed_app, !idents_app, Hd in *. apply (Permutation_app_inv_r (idents_of (held c))).
  rewrite H, B1. solve_Permutation.
Qed.

(** A read that departs goes to the pending queue. *)
Lemma books_read (acc acc' : list Request) (c c' : Ctrl) (r r' : Request) (n : Z) :
  type_id r' = Read -> ident r' = ident r ->
  m_log c' = m_log c ++ [EvDeparture r'] -> m_pending c' = pq_push (mkPending (depart r') n r') (m_pending c) ->
  stat c' "num_read_reqs_served" = stat c "num_read_reqs_served" ->
  idents_of acc' ++ idents_of (held c) ≡ₚ idents_of acc ++ idents_of [r] ++ idents_of (held c') ->
  books acc c -> books acc' c'.
Proof.
  intros Ht Ei El Ep Es H Hb. assert (type_id r = Read) as Htr by (unfold ident in Ei; congruence). constructor.
  - eapply books_depart; [exact El| |exact H|exact Hb]. unfold idents_of. cbn. rewrite Ht, Htr. cbn. by rewrite Ei.
  - destruct (bk_reads _ _ Hb) as (served & B1 & B2 & B3). exists served. rewrite El, Ep, Es, departed_app, called_back_app, !of_type_app.
    split_and!; [|by cbn; rewrite app_nil_r|done]. cbn [departed omap list_omap of_type List.filter]. rewrite Ht. cbn [Z.eqb].
    rewrite pq_push_perm, fmap_cons, <- app_comm_cons, fmap_app, B1. cbn. solve_Permutation.
  - rewrite Ep, pq_push_perm. constructor; [done|apply Hb].
  - rewrite El, departed_app, called_back_app, !of_type_app. cbn. rewrite Ht. cbn. rewrite !app_nil_r. apply Hb.
Qed.

(** A write that departs has its callback run at once. *)
Lemma books_write (acc acc' : list Request) (c c' : Ctrl) (r r' : Request) :
  type_id r = Write -> ident r' = ident r ->
  m_log c' = m_log c ++ EvDeparture r' :: match callback r with Some _ => [EvCallback r] | None => [] end ->
  m_pending c' = m_pending c -> stat c' "num_read_reqs_served" = stat c "num_read_reqs_served" ->
  idents_of acc' ++ idents_of (held c) ≡ₚ idents_of acc ++ idents_of [r] ++ idents_of (held c') ->
  books acc c -> books acc' c'.
Proof.
  intros Ht Ei El Ep Es H Hb. assert (type_id r' = Write /\ callback r' = callback r) as [Ht' Ec] by (unfold ident in Ei; split; congruence).
  constructor.
  - eapply books_depart; [exact El| |exact H|exact Hb]. unfold idents_of. destruct (callback r); cbn; rewrite Ht, Ht'; cbn; by rewrite Ei.
  - destruct (bk_reads _ _ Hb) as (served & B). exists served. rewrite El, Ep, Es, departed_app, called_back_app, !of_type_app.
    destruct (callback r); cbn; rewrite Ht', ?Ht; cbn; by rewrite !app_nil_r.
  - rewrite Ep. apply Hb.
  - rewrite El, departed_app, called_back_app, !of_type_app, with_callback_app, !fmap_app, (bk_writes _ _ Hb). f_equal.
    destruct (callback r) eqn:Er; cbn; rewrite Ht', ?Ht; cbn; rewrite Ec; cbn; [|done]. by rewrite Ei.
Qed.

Lemma run_callback_log (c : Ctrl) (r : Request) :
  m_log (run_callback c r) = m_log c ++ match callback r with Some _ => [EvCallback r] | None => [] end.
Proof. unfold run_callback. destruct (callback r); [done|]. by rewrite app_nil_r. Qed.

Lemma run_callback_frame (c : Ctrl) (r : Request) :
  m_pending (run_callback c r) = m_pending c /\ m_stats (run_callback c r) = m_stats c /\
  (forall id, get_buf (run_callback c r) id = get_buf c id).
Proof. unfold run_callback. destruct (callback r); split_and!; try done; by intros []. Qed.

Lemma books_send (apply : Request -> result Request) `{!AddrMapperLaws apply} (acc : list Request) (c c' : Ctrl) (r r' : Request) (ok : bool) :
  send apply c r = Ok (ok, r', c') -> books acc c -> books (if ok then r' :: acc else acc) c'.
Proof.
  intros Hs%send_cases; [|done]. intros Hb. change (r' :: acc) with ([r'] ++ acc).
  destruct Hs as [r' Ht Hin Hd Ha _|r' b Ht Hin Ha _ Hq|r' e Ht Hin _ ->|r' b Ht Hin Ha _ Hq|r']; [..|done].
  - eapply (books_read acc _ c _ r' r'); [done|done|done|done|by stats| |done]. rewrite idents_app. solve_Permutation.
  - eapply (books_frame acc _ c); [done|done|by stats| |done]. rewrite idents_app.
    change (held (bump _ _ _)) with (held (set_buf c BRead b)). rewrite (held_enqueue c BRead b r' Hq).
    change (r' :: held c) with ([r'] ++ held c). rewrite idents_app. solve_Permutation.
  - set (c1 := log_event c _). destruct (run_callback_frame c1 r') as (F1 & F2 & F3).
    eapply (books_write acc _ c _ r' (set_depart r' (m_clk c))); [done|done| |exact F1| | |done].
    + change (m_log (bump (bump (run_callback c1 r') "num_write_reqs" 1) "num_write_reqs_coalesced" 1)) with (m_log (run_callback c1 r')).
      rewrite run_callback_log. unfold c1. cbn. by rewrite <- app_assoc.
    + stats. unfold stat. by rewrite F2.
    + rewrite idents_app. change (held (bump (bump (run_callback c1 r') "num_write_reqs" 1) "num_write_reqs_coalesced" 1)) with (held (run_callback c1 r')).
      rewrite (held_same c (run_callback c1 r')) by (intros id; rewrite F3; by destruct id). solve_Permutation.
  - eapply (books_frame acc _ c); [done|done|by stats| |done]. rewrite idents_app.
    change (held (bump _ _ _)) with (held (set_buf c BWrite b)). rewrite (held_enqueue c BWrite b r' Hq).
    change (r' :: held c) with ([r'] ++ held c). rewrite idents_app. solve_Permutation.
Qed.

(** Serving moves the due reads from the pending queue to the served ones. *)
Lemma filter_split {A} (f : A -> bool) (l : list A) : l ≡ₚ List.filter f l ++ List.filter (fun x => negb (f x)) l.
Proof. induction l as [|x l IH]; [done|]. cbn. destruct (f x); cbn; rewrite IH at 1; [done|solve_Permutation]. Qed.

Lemma callbacks_requests (q : list PendingRead) :
  departed (callbacks q) = [] /\ called_back (callbacks q) = with_callback (p_req <$> q).
Proof.
  unfold callbacks, departed, called_back, with_callback. induction q as [|p q [IH1 IH2]]; [done|].
  cbn. destruct (callback (p_req p)) eqn:E; cbn; rewrite ?E; cbn; [|done]. split; [done|]. f_equal. exact IH2.
Qed.

Lemma of_type_callback (t : Z) (l : list Request) : of_type t (with_callback l) = with_callback (of_type t l).
Proof.
  unfold of_type, with_callback. induction l as [|x l IH]; [done|]. cbn.
  destruct (bool_decide _) eqn:E1, (_ =? _) eqn:E2; cbn; rewrite ?E1, ?E2, ?IH; done.
Qed.

Lemma books_serve (acc : list Request) (c : Ctrl) :
  StronglySorted pending_lt (m_pending c) -> books acc c -> books acc (serve_completed_reads c).
Proof.
  intros Hs [B1 (served & B2 & B3 & B4) B5 B6]. unfold serve_completed_reads.
  destruct (serve_loop_spec (m_pending c) c Hs) as (H1 & H2 & H3 & _ & _ & _ & H7 & _).
  set (q1 := List.filter (due (m_clk c)) (m_pending c)) in *. destruct (callbacks_requests q1) as [D1 D2].
  assert (Forall (fun p => type_id (p_req p) = Read) q1 /\ of_type Read (p_req <$> q1) = p_req <$> q1 /\
    of_type Write (p_req <$> q1) = []) as (T0 & T1 & T2).
  { assert (Forall (fun p => type_id (p_req p) = Read) q1) as Hq1.
    { apply Forall_forall. intros p Hp%list_elem_of_In. apply filter_In in Hp as [Hp%list_elem_of_In _]. rewrite Forall_forall in B5. auto. }
    split; [done|]. clear -Hq1. unfold of_type. induction Hq1 as [|p q Hp _ [IH1 IH2]]; [done|]. cbn. rewrite Hp. cbn. by rewrite IH1, IH2. }
  constructor; rewrite ?H1, ?H2, ?departed_app, ?called_back_app, ?of_type_app, ?D1, ?D2, ?app_nil_r, ?of_type_callback.
  - by rewrite idents_app, (held_same c), <- idents_app by (intros id; by rewrite H7).
  - exists (served ++ (p_req <$> q1)). split_and!.
    + rewrite B2. rewrite (filter_split (due (m_clk c)) (m_pending c)) at 1. fold q1. rewrite !fmap_app. solve_Permutation.
    + rewrite T1, !fmap_app, B3, with_callback_app, fmap_app. done.
    + rewrite H3, length_app, length_fmap. lia.
  - apply Forall_forall. intros p Hp%list_elem_of_In. apply filter_In in Hp as [Hp%list_elem_of_In _]. rewrite Forall_forall in B5. auto.
  - by rewrite T2, !app_nil_r.
Qed.

Lemma books_prologue (acc : list Request) (c : Ctrl) : base_inv c -> books acc c -> books acc (tick_prologue c).
Proof.
  intros [_ _ [Hs _] _] Hb. unfold tick_prologue. apply books_serve; [exact Hs|].
  eapply (books_frame acc _ c); [done|done|by stats| |exact Hb]. done.
Qed.

(** Leaving a buffer. *)
Lemma books_retire (acc : list Request) (c c' : Ctrl) (id : buf_id) (i : nat) :
  retire_request c id i = Ok c' -> books acc c -> books acc c'.
Proof.
  intros (r & l & Hi & ->)%retire_spec Hb. set (c2 := if decide (id = BWrite) then _ else _).
  assert (Hc2 : (forall id, get_buf c2 id = get_buf c id) /\ m_stats c2 = m_stats c /\ m_pending c2 = m_pending c /\ m_log c2 = m_log c).
  { unfold c2. destruct (decide (id = BWrite)); split_and!; try done; by intros []. }
  clearbody c2. destruct Hc2 as (Eb & Es & Ep & El).
  assert (Hi2 : buffer (get_buf c2 id) !! i = Some r) by (by rewrite Eb).
  destruct (retire_effect_frame c2 id i r Hi2) as (Hbuf & _). set (c' := set_buf _ _ _).
  assert (Hh : idents_of acc ++ idents_of (held c) ≡ₚ idents_of acc ++ idents_of [r] ++ idents_of (held c')).
  { rewrite (held_same (set_buf c id (remove_at (get_buf c id) i)) c').
    - rewrite <- (idents_app [r]), (held_remove c id i r Hi). done.
    - intros id'. unfold c'. rewrite !get_set_buf. destruct (decide (id = id')); [reflexivity|]. rewrite <- Eb. apply Hbuf. }
  unfold c' in *. clear c' Hbuf. revert Hh. unfold retire_effect.
  destruct (Z.eqb_spec (type_id r) Read) as [HR|HR]; [|destruct (Z.eqb_spec (type_id r) Write) as [HW|HW]].
  - intros Hh. eapply (books_read acc acc c _ r (set_depart r (m_clk c2 + read_latency (m_spec (m_device c2))))); [done|done|..|exact Hh|done].
    + cbn. by rewrite <- El.
    + cbn. by rewrite <- Ep.
    + unfold stat. cbn. by rewrite Es.
  - intros Hh. set (c3 := notify_departure_scheduled c2 _) in *. destruct (run_callback_frame c3 r) as (F1 & F2 & F3).
    eapply (books_write acc acc c _ r (set_depart r (m_clk c2))); [done|done|..|exact Hh|done].
    + change (m_log (run_callback c3 r) = m_log c ++ EvDeparture (set_depart r (m_clk c2)) :: match callback r with Some _ => [EvCallback r] | None => [] end).
      rewrite run_callback_log. unfold c3. cbn. rewrite El. by rewrite <- app_assoc.
    + cbn. rewrite F1. by rewrite <- Ep.
    + rewrite stat_set_buf. stats. unfold stat. rewrite F2. cbn. by rewrite Es.
  - assert (idents_of [r] = []) as E0 by (unfold idents_of; cbn; by rewrite (proj2 (Z.eqb_neq _ _) HR), (proj2 (Z.eqb_neq _ _) HW)).
    rewrite E0. destruct (type_id r =? -1); intros Hh; (eapply (books_frame acc _ c); [done|done| |exact Hh|done]).
    + rewrite stat_set_buf. stats. unfold stat. by rewrite Es.
    + rewrite stat_set_buf. unfold stat. by rewrite Es.
Qed.

Lemma books_promote (acc : list Request) (c c' : Ctrl) (id : buf_id) (i : nat) :
  promote_to_active c id i = Ok c' -> books acc c -> books acc c'.
Proof.
  unfold promote_to_active. intros (r & Hi%req_at_lookup & H)%bind_Ok.
  destruct (enqueue (m_active_buffer c) r) as [[|] b] eqn:Hq; [|by injection H as <-].
  apply bind_Ok in H as (c1 & (l & ->)%bump_active_frame & H). injection H as <-.
  set (c2 := if decide (id = BWrite) then _ else _).
  assert (Hc2 : (forall id', get_buf c2 id' = get_buf (set_buf c BActive b) id') /\ m_stats c2 = m_stats c /\
    m_pending c2 = m_pending c /\ m_log c2 = m_log c).
  { unfold c2. destruct (decide (id = BWrite)); split_and!; try done; by intros []. }
  clearbody c2. destruct Hc2 as (Eb & Es & Ep & El).
  assert (Hi2 : buffer (get_buf c2 id) !! i = Some r).
  { rewrite Eb, get_set_buf. destruct (decide (BActive = id)) as [<-|]; [|done].
    apply enqueue_true in Hq as [-> _]. by apply lookup_app_l_Some. }
  apply books_frame; [done|done|unfold stat; cbn; by rewrite Es|]. f_equiv.
  apply (Permutation_app_inv_l (idents_of [r])). rewrite <- !idents_app.
  change ([r] ++ ?x) with (r :: x). rewrite <- (held_remove c2 id i r Hi2).
  rewrite (held_same (set_buf c BActive b) c2) by (intros id'; by rewrite Eb). by rewrite (held_enqueue c BActive b r Hq).
Qed.

Lemma books_advance (acc : list Request) (c c' : Ctrl) (id : buf_id) (i : nat) :
  advance_request c id i = Ok c' -> books acc c -> books acc c'.
Proof.
  unfold advance_request. intros (r & _ & H')%bind_Ok. destruct (_ =? _); [by eapply books_retire|].
  apply bind_Ok in H' as (m & _ & H'). destruct (is_opening m); [by eapply books_promote|by injection H' as <-].
Qed.

Section accepted.
Context {R P G : Type} `{IR : RefreshManager R} `{IP : RowPolicy P} `{IG : ControllerPlugin G}.
Context (Q : Ctrl -> Request -> Prop).
Context `{!RefreshLaws Q R} `{!RowPolicyLaws Q P} `{!PluginLaws Q G}.
Context (apply : Request -> result Request) `{!AddrMapperLaws apply}.
Context (sch : scheduler_t) `{!SchedulerLaws sch}.

Lemma books_tick (acc : list Request) (g g' : GenericDDR R P G) :
  tick sch g = Ok g' -> base_inv (g_ctrl g) -> books acc (g_ctrl g) -> books acc (g_ctrl g').
Proof.
  intros H' Hbi Hb. unfold tick in H'. apply bind_Ok in H' as (g1 & H1 & H').
  apply bind_Ok in H' as ([c2 k] & H2 & H'). apply bind_Ok in H' as (g3 & H3 & H').
  assert (books acc (g_ctrl g1)) as Hb1.
  { unfold pre_hooks in H1. apply bind_Ok in H1 as ([r1 ca] & Ha & H1). apply bind_Ok in H1 as ([p1 cb] & Hb' & H1).
    apply bind_Ok in H1 as ([gs cc] & Hc & H1). injection H1 as <-. simpl in *.
    apply refresh_sends in Ha. apply pre_schedule_sends in Hb'. apply (each_plugin_sends Q) in Hc; [|apply plugin_pre_sends].
    eapply books_sends; [exact (sends_trans _ _ _ _ (sends_trans _ _ _ _ Ha Hb') Hc)|by apply books_prologue]. }
  apply (pick_same sch) in H2. pose proof (books_same _ _ _ H2 Hb1) as Hb2. simpl in *.
  assert (books acc (g_ctrl g3)) as Hb3.
  { destruct k as [[id i]|]; [|by injection H3 as <-].
    unfold serve_candidate in H3. apply bind_Ok in H3 as (c3 & Hi & H3). apply bind_Ok in H3 as (r & _ & H3).
    apply bind_Ok in H3 as (p' & _ & H3). apply bind_Ok in H3 as ([gs c4] & Hg & H3).
    apply bind_Ok in H3 as (c5 & Hadv & H3). injection H3 as <-. simpl in *.
    apply (issue_candidate_same Q) in Hi. apply (each_plugin_sends Q) in Hg; [|intros ? ? ? ?; apply plugin_issue_sends].
    eapply books_advance; [exact Hadv|]. eapply books_sends; [exact Hg|]. by eapply books_same. }
  unfold post_hooks in H'. apply bind_Ok in H' as ([p4 cp] & Hp & H'). apply bind_Ok in H' as ([gs cq] & Hq & H').
  injection H' as <-. simpl in *. apply post_schedule_sends in Hp. apply (each_plugin_sends Q) in Hq; [|apply plugin_post_sends].
  eapply books_sends; [exact (sends_trans _ _ _ _ Hp Hq)|done].
Qed.

(** A run with the requests it accepted, the newest first, each as [send] left it. *)
Inductive accepts (g0 : GenericDDR R P G) : list Request -> GenericDDR R P G -> Prop :=
| accepts_start : accepts g0 [] g0
| accepts_send acc g r r' ok c' :
    accepts g0 acc g -> send apply (g_ctrl g) r = Ok (ok, r', c') ->
    accepts g0 (if ok then r' :: acc else acc) (mkGDDR c' (g_refresh g) (g_policy g) (g_plugins g))
| accepts_priority acc g r ok c' :
    accepts g0 acc g -> type_id r = -1 -> priority_send (g_ctrl g) r = Ok (ok, c') ->
    accepts g0 acc (mkGDDR c' (g_refresh g) (g_policy g) (g_plugins g))
| accepts_tick acc g g' : accepts g0 acc g -> tick sch g = Ok g' -> accepts g0 acc g'.

Lemma accepts_reach (g0 g : GenericDDR R P G) (acc : list Request) : accepts g0 acc g -> rtc (gstep apply sch) g0 g.
Proof.
  induction 1 as [|acc g r r' ok c' _ IH H|acc g r ok c' _ IH Ht H|acc g g' _ IH H]; [done|..].
  - eapply rtc_r; [exact IH|by eapply gstep_send].
  - eapply rtc_r; [exact IH|by eapply gstep_priority].
  - eapply rtc_r; [exact IH|by eapply gstep_tick].
Qed.

Lemma accepts_books (g0 g : GenericDDR R P G) (acc : list Request) :
  accepts g0 acc g -> 1 <= read_latency (m_spec (m_device (g_ctrl g0))) -> base_inv (g_ctrl g0) -> books [] (g_ctrl g0) ->
  books acc (g_ctrl g).
Proof.
  intros H Hl Hb H0. induction H as [|acc g r r' ok c' _ IH H|acc g r ok c' _ IH Ht H|acc g g' Hg IH H]; [done|..].
  - by eapply books_send.
  - by eapply books_priority.
  - eapply books_tick; [exact H| |done]. by apply (reach_inv Q apply sch _ _ (accepts_reach _ _ _ Hg)).
Qed.
End accepted.

Lemma init_books (cfg : CtrlConfig) (c : Ctrl) (n : Z) : init_base cfg = Ok c -> books [] (setup_base c n).
Proof.
  unfold init_base. destruct (_ || _); [done|]. destruct (_ || _) in |- *; [done|].
  intros (s & _ & H)%bind_Ok. apply bind_Ok in H as (d & _ & H). apply bind_Ok in H as (t & _ & H).
  injection H as <-. constructor; try done. by exists [].
Qed.

(** ** Watermarks *)

(** The condition [init_base] checks. *)
Definition watermarks_okb (low high : spec_float) : bool :=
  negb (negb (f32_isfinite low) || negb (f32_isfinite high) || f32_lt low (f32_of_Z 0) ||
        f32_lt (f32_of_Z 1) high || f32_lt high low).

(** Not below zero. *)
Definition nonneg (x : spec_float) : bool := negb (f32_lt x (S754_zero false)).

(** The sign bit is clear. *)
Definition pos_sign (x : spec_float) : bool :=
  match x with S754_zero s | S754_infinity s | S754_finite s _ _ => negb s | S754_nan => true end.

Lemma pos_sign_nonneg (x : spec_float) : pos_sign x = true -> nonneg x = true.
Proof. by destruct x as [[]|[]| |[] ? ?]. Qed.

Lemma round_aux_pos (mx ex : Z) (l : location) : pos_sign (binary_round_aux 24 128 false mx ex l) = true.
Proof.
  unfold binary_round_aux. destruct (shr_fexp 24 128 mx ex l) as [mrs e].
  destruct (shr_fexp 24 128 _ e loc_Exact) as [mrs2 e2]. destruct (shr_m mrs2); try done.
  by destruct (_ <=? _).
Qed.

Lemma of_Z_pos (z : Z) : 0 <= z -> pos_sign (f32_of_Z z) = true.
Proof.
  intros Hz. unfold f32_of_Z, binary_normalize. destruct z as [|p|p]; [done| |lia].
  unfold binary_round. destruct (shl_align _ _ _) as [m e]. apply round_aux_pos.
Qed.

Lemma mul_nonneg (x y : spec_float) :
  nonneg x = true -> f32_isfinite x = true -> pos_sign y = true -> nonneg (f32_mul x y) = true.
Proof.
  intros Hx Hf Hy. unfold f32_mul. destruct x as [[]| | |[] mx ex], y as [[]|[]| |[] my ey]; try done.
  apply pos_sign_nonneg, round_aux_pos.
Qed.

Lemma watermarks_high (low high : spec_float) :
  watermarks_okb low high = true -> f32_isfinite high = true /\ nonneg high = true.
Proof.
  unfold watermarks_okb. rewrite !negb_true_iff, !orb_false_iff, !negb_false_iff.
  intros ((((H1 & H2) & H3) & _) & H5). split; [done|]. unfold nonneg. apply negb_true_iff.
  destruct high as [sh| | |[|] mh eh]; try done. exfalso.
  destruct low as [sl| | |[|] ml el]; try done.
Qed.

(** ** Theorems: schedulers *)

(** C15: FR-FCFS refreshes the command of every buffered request and returns the
    first request, in buffer order, among the oldest of the ready eligible
    requests; when none is ready, among the oldest of the eligible ones; and the
    end of the buffer exactly when nothing is eligible. *)
Theorem frfcfs_selects_best (c : Ctrl) (b b' : ReqBuffer) (f : filter_t) (o : option nat) :
  FRFCFS c b f = Ok (b', o) ->
  exists vs, buffer b' = map v_req vs /\ Forall2 (judged c (derive_command c) f) (buffer b) vs /\
    match o with
    | Some i => is_best vs i
    | None => forall i v, vs !! i = Some v -> v_elig v = false
    end.
Proof. intros (vs & ? & _ & ? & ?)%FRFCFS_spec. by exists vs. Qed.

(** C16: the row-hit variant never selects a request whose next command would
    precharge, on the way to another row, a bank for which the buffer holds a row
    hit that is at least as old. *)
Theorem rowhit_never_preempted (c : Ctrl) (b b' : ReqBuffer) (f : filter_t) (i : nat) (r hit : Request)
  (meta : DRAMCommandMeta) (bank : Z) :
  FRFCFSRowHit c b f = Ok (b', Some i) -> buffer b' !! i = Some r ->
  vget (command_meta (m_spec (m_device c))) (command r) = Ok meta -> is_closing meta = true ->
  command r <> final_command r -> vget (bank_targets (m_spec (m_device c))) (command r) = Ok Single ->
  get_flat_bank_id (m_device c) (addr_vec r) = Ok bank ->
  0 <= bank < Z.of_nat (length (m_bank_nodes (m_device c))) ->
  hit ∈ buffer b' -> get_flat_bank_id (m_device c) (addr_vec hit) = Ok bank ->
  check_rowbuffer_hit (m_device c) (final_command hit) (addr_vec hit) (m_clk c) = Ok true ->
  arrive r < arrive hit.
Proof.
  intros H Hr Hm Hcl Hne Ht Hbank Hrange Hin Hbh Hhit.
  apply FRFCFSRowHit_spec in H as (vs & flags & Eb & _ & HF & Hflags & Hlen & Hj & (v & Hv & He & _)).
  rewrite Eb, list_lookup_fmap, Hv in Hr. injection Hr as <-.
  destruct (Forall2_lookup_r _ _ _ _ _ Hj Hv) as (r0 & _ & _ & Hel & _).
  unfold rowhit_elig in Hel. rewrite He in Hel. apply bind_Ok in Hel as (e & _ & Hel).
  destruct e; [|done]. apply bind_Ok in Hel as (pre & Hpre & Hel). injection Hel as Hel.
  destruct pre; [done|]. unfold would_preempt_rowhit in Hpre. rewrite Hm in Hpre. simpl in Hpre.
  rewrite Hcl in Hpre. simpl in Hpre. destruct (Z.eqb_spec (command (v_req v)) (final_command (v_req v))); [done|].
  rewrite Ht, Hbank in Hpre. simpl in Hpre.
  assert (buffer b <> []) as Hnil.
  { intros E. rewrite E in HF. apply Forall2_nil_inv_l in HF. rewrite HF in Hin. by apply elem_of_nil in Hin. }
  specialize (Hlen Hnil). rewrite Hlen in Hpre.
  destruct ((bank <? 0) || (Z.of_nat (length (m_bank_nodes (m_device c))) <=? bank)) eqn:E; [lia|].
  destruct (Hflags hit bank Hin Hhit Hbh ltac:(by rewrite Hlen)) as (a & Ha & Hle).
  apply bind_Ok in Hpre as (flag & [_ Hfl]%vget_Ok & Hpre). rewrite Ha in Hfl. simplify_eq. lia.
Qed.

(** ** Theorems: admission and life cycle *)

(** C17: whatever is offered and however the controller is clocked, the reads and
    writes it accepted are, as a multiset of requests identified by address, type,
    address vector, arrival cycle, source and callback, exactly the ones whose
    departure was announced together with the ones in the buffers.  The reads whose
    departure was announced are exactly the pending ones and the served ones: the
    served ones are as many as the counter says, and those of them that have a
    callback are exactly the reads whose callback ran, in that order; a write's
    callback runs when its departure is announced.  None is lost or duplicated.  The
    counters of reads, writes and maintenance requests add up to what the buffers
    and the pending queue hold. *)
Theorem requests_conserved {R P G : Type} (IR : RefreshManager R) (IP : RowPolicy P) (IG : ControllerPlugin G)
  (Q : Ctrl -> Request -> Prop) (LR : RefreshLaws Q R) (LP : RowPolicyLaws Q P) (LG : PluginLaws Q G)
  (apply : Request -> result Request) (LA : AddrMapperLaws apply) (sch : scheduler_t) (LS : SchedulerLaws sch)
  (cfg : CtrlConfig) (c : Ctrl) (cores : Z) (rf : R) (rp : P) (pl : list G) (acc : list Request) (g : GenericDDR R P G) :
  init_base cfg = Ok c -> 1 <= read_latency (m_spec (m_device c)) ->
  accepts apply sch (mkGDDR (setup_base c cores) rf rp pl) acc g ->
  let k := g_ctrl g in
  idents_of acc ≡ₚ idents_of (departed (m_log k) ++ held k) /\
  (exists served,
    ident <$> of_type Read (departed (m_log k)) ≡ₚ ident <$> ((p_req <$> m_pending k) ++ served) /\
    ident <$> of_type Read (called_back (m_log k)) = ident <$> with_callback served /\
    Z.of_nat (length served) = stat k "num_read_reqs_served") /\
  ident <$> of_type Write (called_back (m_log k)) = ident <$> with_callback (of_type Write (departed (m_log k))) /\
  stat k "num_read_reqs" = in_bufs Read k + Z.of_nat (length (m_pending k)) + stat k "num_read_reqs_served" /\
  stat k "num_write_reqs" = in_bufs Write k + stat k "num_write_reqs_served" + stat k "num_write_reqs_coalesced" /\
  stat k "num_maintenance_reqs" = in_bufs (-1) k + stat k "num_maintenance_reqs_served".
Proof.
  intros Hi Hl Hr. assert (base_inv (setup_base c cores)) as H0 by (by eapply setup_base_inv, init_base_inv).
  destruct (accepts_books Q apply sch _ _ _ Hr Hl H0 (init_books _ _ _ Hi)) as [B1 B2 _ B4].
  split; [exact B1|]. split; [exact B2|]. split; [exact B4|].
  apply bi_ledger, (reach_inv Q apply sch _ _ (accepts_reach apply sch _ _ _ Hr)); done.
Qed.

(** C18: the set used to forward reads and coalesce writes holds exactly the
    addresses of the write buffer, the write buffer holds each address once, and
    no buffer exceeds its capacity, in every reachable state. *)
Theorem write_filter_exact {R P G : Type} (IR : RefreshManager R) (IP : RowPolicy P) (IG : ControllerPlugin G)
  (Q : Ctrl -> Request -> Prop) (LR : RefreshLaws Q R) (LP : RowPolicyLaws Q P) (LG : PluginLaws Q G)
  (apply : Request -> result Request) (LA : AddrMapperLaws apply) (sch : scheduler_t) (LS : SchedulerLaws sch)
  (cfg : CtrlConfig) (c : Ctrl) (cores : Z) (rf : R) (rp : P) (pl : list G) (g : GenericDDR R P G) :
  init_base cfg = Ok c -> 1 <= read_latency (m_spec (m_device c)) ->
  rtc (gstep apply sch) (mkGDDR (setup_base c cores) rf rp pl) g ->
  (forall a, a ∈ m_buffered_write_addrs (g_ctrl g) <-> exists r, r ∈ buffer (m_write_buffer (g_ctrl g)) /\ addr r = a) /\
  NoDup (addr <$> buffer (m_write_buffer (g_ctrl g))) /\
  forall id, buf_size (get_buf (g_ctrl g) id) <= max_size (get_buf (g_ctrl g) id).
Proof.
  intros Hi Hl Hr. assert (base_inv (g_ctrl g)) as [_ [W1 W2] _ B].
  { apply (reach_inv Q apply sch _ _ Hr); [done|]. by eapply setup_base_inv, init_base_inv. }
  split_and!; [|done|exact B]. intros a. rewrite W1, elem_of_list_to_set, list_elem_of_fmap. naive_solver.
Qed.

(** C19: in every reachable state the clock edge completes exactly the reads whose
    announced departure is the new clock, runs their callbacks in the order they
    were scheduled, and leaves only reads that depart later: no completion is
    early or late. *)
Theorem reads_complete_on_time {R P G : Type} (IR : RefreshManager R) (IP : RowPolicy P) (IG : ControllerPlugin G)
  (Q : Ctrl -> Request -> Prop) (LR : RefreshLaws Q R) (LP : RowPolicyLaws Q P) (LG : PluginLaws Q G)
  (apply : Request -> result Request) (LA : AddrMapperLaws apply) (sch : scheduler_t) (LS : SchedulerLaws sch)
  (cfg : CtrlConfig) (c : Ctrl) (cores : Z) (rf : R) (rp : P) (pl : list G) (g : GenericDDR R P G) :
  init_base cfg = Ok c -> 1 <= read_latency (m_spec (m_device c)) ->
  rtc (gstep apply sch) (mkGDDR (setup_base c cores) rf rp pl) g ->
  let k := g_ctrl g in
  let k' := tick_prologue k in
  let now := List.filter (fun p => p_depart p =? m_clk k + 1) (m_pending k) in
  m_clk k' = m_clk k + 1 /\ m_log k' = m_log k ++ callbacks now /\ StronglySorted pending_lt now /\
  stat k' "num_read_reqs_served" = stat k "num_read_reqs_served" + Z.of_nat (length now) /\
  Forall (fun p => m_clk k' < p_depart p) (m_pending k').
Proof.
  intros Hi Hl Hr k k' now. assert (base_inv k) as [_ _ [Hs Hall] _].
  { apply (reach_inv Q apply sch _ _ Hr); [done|]. by eapply setup_base_inv, init_base_inv. }
  assert (Hnow : List.filter (due (m_clk k + 1)) (m_pending k) = now).
  { unfold now. clear -Hall. induction Hall as [|p q (Hp & _) _ IH]; simpl; [done|]. unfold due at 1.
    rewrite IH. replace (p_depart p <=? m_clk k + 1) with (p_depart p =? m_clk k + 1) by lia. done. }
  unfold k', tick_prologue, serve_completed_reads.
  match goal with |- context [serve_loop ?q ?c] => destruct (serve_loop_spec q c Hs) as (H1 & H2 & H3 & _ & H5 & _) end.
  simpl in *. rewrite Hnow in *. split_and!; [done|done|by apply StronglySorted_filter| |].
  - rewrite H3. stats. done.
  - rewrite H1, H5. apply Forall_forall. intros p Hp%list_elem_of_In.
    apply filter_In in Hp as [_ Hd]. unfold due in Hd. lia.
Qed.

(** With the watermarks [init_base] accepts, waiting reads are never blocked
    by an empty write queue: the next mode decision selects the read buffer (even
    for a low watermark of zero), and without waiting reads it selects the write
    buffer. *)
Theorem reads_never_blocked (c : Ctrl) :
  watermarks_okb (m_wr_low_watermark c) (m_wr_high_watermark c) = true ->
  0 <= max_size (m_write_buffer c) ->
  (buffer (m_write_buffer c) = [] -> buffer (m_read_buffer c) <> [] ->
   m_is_write_mode (set_write_mode c) = false) /\
  (buffer (m_read_buffer c) = [] -> m_is_write_mode (set_write_mode c) = true).
Proof.
  intros Hw Hmax. destruct (watermarks_high _ _ Hw) as [Hf Hn]. unfold set_write_mode, buf_size. split.
  - intros Ew Er. rewrite Ew. destruct (buffer (m_read_buffer c)) as [|r l] eqn:E; [done|]. simpl.
    assert (above_high c = false) as ->.
    { unfold above_high, buf_size. rewrite Ew. simpl. change (f32_of_Z 0) with (S754_zero false).
      apply negb_true_iff, mul_nonneg; [done|done|]. by apply of_Z_pos. }
    by destruct (m_is_write_mode c) eqn:Em; simpl.
  - intros Er. rewrite Er. simpl. rewrite orb_true_r, andb_false_r. by destruct (m_is_write_mode c) eqn:Em.
Qed.
