(* ===== verification/CtrlExamples.v ===== *)
(** * A controller on the small DDR4 device

    An executable driver of the generic DDR controller, and the concrete
    controller on which the witnesses evaluate. *)

From Stdlib Require Import ZArith Lia SpecFloat.
From S2P Require Import Prelude Base Spec Node Commands Standards Device Examples Controller.
From S2P Require Import Scheduler GenericDDR ControllerFacts ControllerInv Refresh.
From S2P Require Import ControllerProps.

Local Open Scope Z_scope.

(** ** The driver *)
Inductive stimulus := Offer (r : Request) | Edge.

Section run.
Context {R P G : Type} `{IR : RefreshManager R} `{IP : RowPolicy P} `{IG : ControllerPlugin G}.
Context (apply : Request -> result Request) (sch : scheduler_t).

Definition drive (g : GenericDDR R P G) (s : stimulus) : result (GenericDDR R P G) :=
  match s with
  | Offer r => q ← send apply (g_ctrl g) r; Ok (mkGDDR q.2 (g_refresh g) (g_policy g) (g_plugins g))
  | Edge => tick sch g
  end.

Definition run : GenericDDR R P G -> list stimulus -> result (GenericDDR R P G) := foldM drive.

Lemma run_reaches (g g' : GenericDDR R P G) (l : list stimulus) :
  run g l = Ok g' -> rtc (gstep apply sch) g g'.
Proof.
  revert g. induction l as [|s l IH]; intros g H; simpl in H; [by injection H as <-|].
  apply bind_Ok in H as (g1 & H1 & H). econstructor; [|by apply IH]. destruct s as [r|]; simpl in H1.
  - apply bind_Ok in H1 as ([[ok r'] c'] & Hs & H1). injection H1 as <-. by eapply gstep_send.
  - by apply gstep_tick.
Qed.

(** The same, with the accepted requests. *)
Definition drive_acc (p : list Request * GenericDDR R P G) (s : stimulus) : result (list Request * GenericDDR R P G) :=
  match s with
  | Offer r => q ← send apply (g_ctrl p.2) r;
      Ok (if (q.1.1 : bool) then q.1.2 :: p.1 else p.1, mkGDDR q.2 (g_refresh p.2) (g_policy p.2) (g_plugins p.2))
  | Edge => g ← tick sch p.2; Ok (p.1, g)
  end.

Lemma drive_accepts (g0 : GenericDDR R P G) (p p' : list Request * GenericDDR R P G) (l : list stimulus) :
  foldM drive_acc p l = Ok p' -> accepts apply sch g0 p.1 p.2 -> accepts apply sch g0 p'.1 p'.2.
Proof.
  revert p. induction l as [|s l IH]; intros p H Hp; simpl in H; [by injection H as <-|].
  apply bind_Ok in H as (p1 & H1 & H). apply (IH p1 H). destruct s as [r|]; simpl in H1.
  - apply bind_Ok in H1 as ([[ok r'] c'] & Hs & H1). injection H1 as <-. by eapply accepts_send.
  - apply bind_Ok in H1 as (g & Ht & H1). injection H1 as <-. by eapply accepts_tick.
Qed.
End run.

(** ** The configuration *)
Definition small_cfg : DramConfig :=
  mkConfig 64 None 8 [1; 2; 2; 2; 64; 1024]
    [2400; 4; 10; 10; 10; 25; 35; 12; 6; 9; 4; 6; 4; 6; 3; 9; 20; 100; 200; 2; 833]
    None 14 (cfg_timing_constraints ddr4_cfg).

Definition f32_0_2 : spec_float := S754_finite false 13421773 (-26).
Definition f32_0_8 : spec_float := S754_finite false 13421773 (-24).

Definition small_ctrl_cfg : CtrlConfig := mkCtrlConfig f32_0_2 f32_0_8 32 32 (512*3+32) "DDR4" small_cfg.

Definition empty_ctrl : Ctrl :=
  mkCtrl 0 0 (mkDevice ddr4 ddr4_root [] 0) [] 0 (mkReqBuffer [] 0) (mkReqBuffer [] 0) (mkReqBuffer [] 0)
    (mkReqBuffer [] 0) ∅ f32_0_2 f32_0_8 false [] 0 ∅ [].

Definition small_ctrl : Ctrl := match init_base small_ctrl_cfg with Ok c => c | Err _ => empty_ctrl end.

Lemma small_init : init_base small_ctrl_cfg = Ok small_ctrl.
Proof. vm_compute. reflexivity. Qed.

Lemma small_latency : 1 <= read_latency (m_spec (m_device small_ctrl)).
Proof. vm_compute. congruence. Qed.

(** The mapper that leaves the address vector of the request alone. *)
Definition keep_vec (r : Request) : result Request := Ok r.
#[export] Instance keep_vec_laws : AddrMapperLaws keep_vec.
Proof. intros r r' [= <-]. exists (addr_vec r). by destruct r. Qed.

(** A read or write of a bank, row and column. *)
Definition access (type a rank bg bank row col : Z) : Request :=
  set_addr_vec (Request_src a type 0 (Some a)) [0; rank; bg; bank; row; col].

(** Two reads of different rows of one bank and a write elsewhere, then clock edges. *)
Definition small_stimuli (n : nat) : list stimulus :=
  [Offer (access Read 1 0 0 0 5 0); Offer (access Read 2 0 0 0 6 0); Offer (access Write 3 1 0 1 7 0)] ++
  replicate n Edge.

Definition small_gddr : GenericDDR NoRefresh OpenRowPolicy Empty_set :=
  mkGDDR (setup_base small_ctrl 1) mkNoRefresh mkOpen [].

Definition small_after (n : nat) : GenericDDR NoRefresh OpenRowPolicy Empty_set :=
  match run keep_vec FRFCFS small_gddr (small_stimuli n) with Ok g => g | Err _ => small_gddr end.

Lemma small_run : run keep_vec FRFCFS small_gddr (small_stimuli 30) = Ok (small_after 30).
Proof. vm_compute. reflexivity. Qed.

Lemma small_reach : rtc (gstep keep_vec FRFCFS) small_gddr (small_after 30).
Proof. eapply run_reaches, small_run. Qed.

(** A read, a write and a second write to the same address, which is coalesced, and
    a read of it, which is forwarded; then clock edges. *)
Definition small_mix (n : nat) : list stimulus :=
  [Offer (access Read 1 0 0 0 5 0); Offer (access Write 3 1 0 1 7 0); Offer (access Write 3 1 0 1 7 0);
   Offer (access Read 3 1 0 1 7 0)] ++ replicate n Edge.

Definition small_mixed (n : nat) : list Request * GenericDDR NoRefresh OpenRowPolicy Empty_set :=
  match foldM (drive_acc keep_vec FRFCFS) ([], small_gddr) (small_mix n) with Ok p => p | Err _ => ([], small_gddr) end.

(** ** Witnesses *)

(** The read buffer of the small controller before the first clock edge. *)
Definition small_before : Ctrl := g_ctrl (small_after 0).

Lemma frfcfs_selects_best_witness :
  exists b' vs, FRFCFS small_before (m_read_buffer small_before) no_filter = Ok (b', Some O) /\
    buffer b' = map v_req vs /\
    Forall2 (judged small_before (derive_command small_before) no_filter) (buffer (m_read_buffer small_before)) vs /\
    is_best vs 0.
Proof.
  destruct (FRFCFS small_before (m_read_buffer small_before) no_filter) as [[b' o]|] eqn:E; [|by vm_compute in E].
  assert (o = Some O) as ->.
  { enough (Ok o = Ok (Some O)) as [= ->] by done.
    transitivity (match FRFCFS small_before (m_read_buffer small_before) no_filter with Ok q => Ok q.2 | Err e => Err e end).
    - by rewrite E.
    - vm_compute. reflexivity. }
  destruct (frfcfs_selects_best _ _ _ _ _ E) as (vs & H1 & H2 & H3).
  exact (ex_intro _ b' (ex_intro _ vs (conj eq_refl (conj H1 (conj H2 H3))))).
Defined.

Lemma requests_conserved_witness :
  let k := g_ctrl (small_mixed 12).2 in
  length (small_mixed 12).1 = 4%nat /\ length (departed (m_log k)) = 4%nat /\ length (called_back (m_log k)) = 3%nat /\
  idents_of (small_mixed 12).1 ≡ₚ idents_of (departed (m_log k) ++ held k).
Proof.
  split; [vm_compute; reflexivity|]. split; [vm_compute; reflexivity|]. split; [vm_compute; reflexivity|].
  apply (requests_conserved NoRefresh_tick OpenRowPolicy_hooks no_plugin any_request _ _ _ keep_vec _ FRFCFS _
           small_ctrl_cfg small_ctrl 1 mkNoRefresh mkOpen [] (small_mixed 12).1 (small_mixed 12).2);
    [exact small_init|exact small_latency|].
  apply (drive_accepts keep_vec FRFCFS _ ([], small_gddr) _ (small_mix 12)); [vm_compute; reflexivity|apply accepts_start].
Defined.

Lemma write_filter_exact_witness :
  let k := g_ctrl (small_after 30) in
  (forall a, a ∈ m_buffered_write_addrs k <-> exists r, r ∈ buffer (m_write_buffer k) /\ addr r = a) /\
  NoDup (addr <$> buffer (m_write_buffer k)) /\ forall id, buf_size (get_buf k id) <= max_size (get_buf k id).
Proof.
  apply (write_filter_exact NoRefresh_tick OpenRowPolicy_hooks no_plugin any_request _ _ _ keep_vec _ FRFCFS _
           small_ctrl_cfg small_ctrl 1 mkNoRefresh mkOpen []); [exact small_init|exact small_latency|exact small_reach].
Defined.

Lemma reads_complete_on_time_witness :
  let k := g_ctrl (small_after 30) in
  let k' := tick_prologue k in
  let now := List.filter (fun p => p_depart p =? m_clk k + 1) (m_pending k) in
  m_clk k' = m_clk k + 1 /\ m_log k' = m_log k ++ callbacks now /\ StronglySorted pending_lt now /\
  stat k' "num_read_reqs_served" = stat k "num_read_reqs_served" + Z.of_nat (length now) /\
  Forall (fun p => m_clk k' < p_depart p) (m_pending k').
Proof.
  apply (reads_complete_on_time NoRefresh_tick OpenRowPolicy_hooks no_plugin any_request _ _ _ keep_vec _ FRFCFS _
           small_ctrl_cfg small_ctrl 1 mkNoRefresh mkOpen []); [exact small_init|exact small_latency|exact small_reach].
Defined.

Lemma reads_never_blocked_witness : m_is_write_mode (set_write_mode (g_ctrl small_gddr)) = true.
Proof.
  apply (reads_never_blocked (g_ctrl small_gddr)); [vm_compute; reflexivity|vm_compute; congruence|vm_compute; reflexivity].
Defined.

(** A controller whose bank 0 was left open at row 5, long enough to be precharged. *)
Definition open_ctrl : Ctrl :=
  match run keep_vec FRFCFS small_gddr (Offer (access Read 1 0 0 0 5 0) :: replicate 40 Edge) with
  | Ok g => g_ctrl g
  | Err _ => small_ctrl
  end.

(** A conflicting read, then a later row hit. *)
Definition conflict_then_hit : ReqBuffer :=
  mkReqBuffer [set_arrive (set_final_command (access Read 2 0 0 0 6 0) 3) 38;
               set_arrive (set_final_command (access Read 3 0 0 0 5 1) 3) 39] 32.

Definition rowhit_choice : result (ReqBuffer * option nat) := FRFCFSRowHit open_ctrl conflict_then_hit no_filter.
Definition rowhit_buffer : ReqBuffer :=
  match rowhit_choice with Ok (b, _) => b | Err _ => conflict_then_hit end.
Definition rowhit_req (i : nat) : Request := default Request_default (buffer rowhit_buffer !! i).

(** The precharge for the older request is selected: the hit is younger. *)
Lemma rowhit_never_preempted_witness : arrive (rowhit_req 0) < arrive (rowhit_req 1).
Proof.
  apply (rowhit_never_preempted open_ctrl conflict_then_hit rowhit_buffer no_filter 0 (rowhit_req 0) (rowhit_req 1)
           (mkMeta false true false false false false) 0).
  all: try (vm_compute; reflexivity).
  - vm_compute. congruence.
  - vm_compute. split; congruence.
  - apply (list_elem_of_lookup_2 _ 1). vm_compute. reflexivity.
Defined.
