(* ===== verification/ActiveInv.v ===== *)
(** * Requests in the active buffer

    Facts for the theorem that a request in the active buffer keeps its row: the
    bank metadata of a standard, the exactness of [would_close_active], and what
    the candidate cascade of the generic DDR controller can return; then the invariant
    under the open-row policy and its preservation by a clock edge. *)

From Stdlib Require Import ZArith Lia.
From S2P Require Import Prelude Base Spec Node Timing TimingSpec Commands Standards Device DeviceFacts.
From S2P Require Import BankFSM DeviceProps Controller Scheduler GenericDDR.
From S2P Require Import ControllerFacts ControllerInv Refresh.

Local Open Scope Z_scope.

(** ** Opening and closing commands of a standard *)
Lemma impl_meta (T : Standard) (name : string) (i : CmdImpl) :
  impl_of T name = Some i ->
  is_closing (ci_meta i) = bool_decide (name ∈ ["PREpb"; "PREab"; "PREsb"; "RDA"; "WRA"; "RDA_S"; "RDA_L"; "WRA_S"; "WRA_L"]) /\
  is_opening (ci_meta i) = bool_decide (name ∈ ["ACT"; "ACT1"]).
Proof.
  unfold impl_of. intros H. apply fmap_Some in H as ([n i'] & Hf & ->).
  apply find_some in Hf as [Hin Hn]. simpl in Hn. apply bool_decide_eq_true in Hn. subst n.
  simpl in Hin. repeat destruct Hin as [Hin|Hin]; try done; simplify_eq; done.
Qed.

Definition meta_of (T : Standard) (s : DRAMSpec) : Prop :=
  forall name i, name ∈ Command T -> impl_of T name = Some i ->
    exists m, vget (command_meta s) (T_cmd T name) = Ok m /\
      is_closing m = is_closing (ci_meta i) /\ is_opening m = is_opening (ci_meta i).

Lemma mark_all_lookup (T : Standard) (f : DRAMCommandMeta -> DRAMCommandMeta) (names : list string)
  (metas : list DRAMCommandMeta) (k : nat) (m : DRAMCommandMeta) :
  (forall m, is_closing (f m) = is_closing m /\ is_opening (f m) = is_opening m) ->
  metas !! k = Some m ->
  exists m', mark_all T f names metas !! k = Some m' /\
    is_closing m' = is_closing m /\ is_opening m' = is_opening m.
Proof.
  intros Hf. unfold mark_all. revert metas m. induction names as [|n names IH]; intros metas m Hm; simpl.
  { by exists m. }
  destruct (decide (k = Z.to_nat (T_cmd T n))) as [->|Hne].
  - destruct (IH (alter f (Z.to_nat (T_cmd T n)) metas) (f m)) as (m' & ? & E1 & E2).
    { rewrite list_lookup_alter_eq, Hm. done. }
    exists m'. destruct (Hf m). split_and!; [done|congruence|congruence].
  - apply IH. by rewrite list_lookup_alter_ne.
Qed.

Lemma construct_meta_of (T : Standard) (cfg : DramConfig) (s : DRAMSpec) :
  std_okb T = true -> construct T cfg = Ok s -> meta_of T s.
Proof.
  intros Hok H name i Hn Hi. unfold construct, load_config in H. simpl in H.
  apply bind_Ok in H as (ch & _ & H). destruct (negb _); [done|]. apply bind_Ok in H as (tc & _ & H).
  injection H as <-. simpl.
  assert (Hl : map ci_meta (CommandImpls T) !! Z.to_nat (T_cmd T name) = Some (ci_meta i)).
  { destruct (enum_spec _ _ Hn) as (k & E & Hk). apply vget_Ok. apply impl_lookup; [done|].
    exists name, i. unfold T_cmd. rewrite E, Nat2Z.id. split_and!; [lia|done|done|done]. }
  destruct (mark_all_lookup T mark_row (std_row_commands T) _ _ _ (fun m => conj eq_refl eq_refl) Hl) as (m1 & Hm1 & E1 & E2).
  destruct (mark_all_lookup T mark_column (std_column_commands T) _ _ _ (fun m => conj eq_refl eq_refl) Hm1) as (m2 & Hm2 & E3 & E4).
  exists m2. split_and!; [|congruence|congruence]. apply vget_Ok. split; [|done].
  destruct (enum_spec _ _ Hn) as (k & E & _). unfold T_cmd. lia.
Qed.

(** ** Counting active requests per bank *)
Definition on_bank (d : DRAMDevice) (i : nat) (r : Request) : bool :=
  match get_flat_bank_id d (addr_vec r) with Ok k => k =? Z.of_nat i | Err _ => false end.

Definition active_on (c : Ctrl) (i : nat) : nat :=
  length (List.filter (on_bank (m_device c) i) (buffer (m_active_buffer c))).

(** [m_active_per_bank] counts the active requests of each bank. *)
Definition counts_ok (c : Ctrl) : Prop :=
  length (m_active_per_bank c) = length (m_bank_nodes (m_device c)) /\
  forall i n, m_active_per_bank c !! i = Some n -> n = Z.of_nat (active_on c i).

Lemma active_on_pos (c : Ctrl) (i : nat) :
  (0 < active_on c i)%nat <->
  exists r, r ∈ buffer (m_active_buffer c) /\ get_flat_bank_id (m_device c) (addr_vec r) = Ok (Z.of_nat i).
Proof.
  unfold active_on. split.
  - intros H. destruct (List.filter _ _) as [|r l] eqn:E; [simpl in H; lia|].
    assert (In r (r :: l)) as Hin by (by left). rewrite <- E in Hin. apply filter_In in Hin as [Hr Hb].
    exists r. split; [by apply list_elem_of_In|]. unfold on_bank in Hb. destruct (get_flat_bank_id _ _) as [k|]; [|done].
    f_equal. lia.
  - intros (r & Hr%list_elem_of_In & Hf). assert (In r (List.filter (on_bank (m_device c) i) (buffer (m_active_buffer c)))) as Hin.
    { apply filter_In. split; [done|]. unfold on_bank. rewrite Hf. lia. }
    destruct (List.filter _ _); [done|]. simpl. lia.
Qed.

Section close.
Context (c : Ctrl) (Hw : dev_wf (m_device c)).

(** The scan visits the banks the command addresses. *)
Lemma scan_active_spec (target : BankTarget) (cmd : Z) (av : AddrVec_t) :
  addressed (m_device c) cmd av -> vget (bank_targets (m_spec (m_device c))) cmd = Ok target -> target <> Single ->
  forall (l : list Z) (banks : list node_ptr),
    (forall p, p ∈ banks -> p ∈ m_bank_nodes (m_device c)) -> length l = length banks ->
    exists b, scan_active c target av l banks = Ok b /\
      (b = true <-> exists i n p, l !! i = Some n /\ n <> 0 /\ banks !! i = Some p /\
                                  timing_target (m_device c) av p = true).
Proof.
  intros (Hc & Hlen & Hscope) Ht Hns. rewrite Ht in Hscope.
  induction l as [|n l IH]; intros [|p banks] Hb Hll; try done.
  { exists false. simpl. split; [done|]. split; [done|]. by intros (i & n & p & Hi & _). }
  destruct (IH banks) as (b & Hscan & Hiff); [intros q Hq; apply Hb; by right|simpl in Hll; lia|].
  assert (Hrest : (exists i m q, (n :: l) !! i = Some m /\ m <> 0 /\ (p :: banks) !! i = Some q /\
            timing_target (m_device c) av q = true) <->
          (n <> 0 /\ timing_target (m_device c) av p = true) \/ b = true).
  { rewrite Hiff. split.
    - intros ([|i] & m & q & Hm & Hm0 & Hq & Htt); simpl in *; [left; by simplify_eq|right; naive_solver].
    - intros [[? ?]|(i & m & q & ? & ? & ? & ?)]; [by exists O, n, p|by exists (S i), m, q]. }
  assert (Hp : p ∈ m_bank_nodes (m_device c)) by (apply Hb; by left).
  simpl. destruct (Z.eqb_spec n 0) as [->|Hn].
  { exists b. split; [done|]. rewrite Hrest. naive_solver. }
  destruct (bank_path _ Hw p Hp) as (m & Hm & Hl).
  pose proof (bank_matches_visit (m_device c) p av m (dw_tree _ Hw) Hlen Hm) as Hbm.
  assert (Hfin : forall skip : bool, (skip = true -> timing_target (m_device c) av p = false) ->
    exists b', (if skip then scan_active c target av l banks
                else hit ← bank_matches (m_device c) p av; if (hit : bool) then Ok true else scan_active c target av l banks) = Ok b' /\
      (b' = true <-> (n <> 0 /\ timing_target (m_device c) av p = true) \/ b = true)).
  { intros [] Hskip.
    - exists b. rewrite Hskip by done. naive_solver.
    - rewrite Hbm. simpl. fold (timing_target (m_device c) av p). destruct (timing_target _ _ _) eqn:E;
        [exists true|exists b]; naive_solver. }
  destruct (decide (target = SameBank)) as [->|Hne].
  - unfold deref. rewrite Hm. simpl.
    destruct (dw_levels _ Hw) as (r & Hr & Hbl & _). destruct (org_wf_parts _ (dw_org _ Hw)) as (r' & Hr' & ? & _).
    rewrite Hr in Hr'. simplify_eq.
    destruct (vget_in_range av (m_bank_level (m_device c))) as [a Ha]; [lia|]. rewrite Ha in Hscope |- *. simpl.
    destruct (Hfin (negb (m_node_id m =? a))) as (b' & Hb' & Hiff').
    + intros Hskip. pose proof (same_bank_sel_eq _ Hw av a p Hlen Ha ltac:(congruence) Hp) as Hs.
      unfold same_bank_sel, deref in Hs. rewrite Hm in Hs. simpl in Hs. rewrite Hskip in Hs. congruence.
    + exists b'. split; [exact Hb'|]. by rewrite Hiff', Hrest.
  - destruct (Hfin false) as (b' & Hb' & Hiff'); [done|]. exists b'. split; [exact Hb'|]. by rewrite Hiff', Hrest.
Qed.

(** [would_close_active] answers whether a closing command reaches the bank of an
    active request. *)
Lemma would_close_active_spec (r : Request) (m : DRAMCommandMeta) :
  counts_ok c -> addressed (m_device c) (command r) (addr_vec r) ->
  vget (command_meta (m_spec (m_device c))) (command r) = Ok m ->
  exists b, would_close_active c r = Ok b /\
    (b = true <-> is_closing m = true /\ exists i a, Z.of_nat i ∈ timing_targets (m_device c) (addr_vec r) /\
       a ∈ buffer (m_active_buffer c) /\ get_flat_bank_id (m_device c) (addr_vec a) = Ok (Z.of_nat i)).
Proof.
  intros [Hlen Hcnt] Ha Hm. unfold would_close_active. rewrite Hm. simpl.
  destruct (is_closing m); simpl; [|exists false; naive_solver].
  destruct (Z.eqb_spec (buf_size (m_active_buffer c)) 0) as [E|E].
  { exists false. split; [done|]. split; [done|]. intros (_ & i & a & _ & Hin & _). unfold buf_size in E.
    destruct (buffer (m_active_buffer c)); [by apply elem_of_nil in Hin|simpl in E; lia]. }
  pose proof Ha as (Hc & Hav & Hscope). pose proof (tables_wf_length _ (dw_tables _ Hw)) as (Hbt & _).
  destruct (vget_in_range (bank_targets (m_spec (m_device c))) (command r)) as [t Ht]; [lia|].
  rewrite Ht in Hscope |- *. simpl. destruct (decide (t = Single)) as [->|Hns].
  - destruct Hscope as [Hcon Hroot]. destruct (flat_bank _ Hw _ Hcon) as (id & Hid & Hlk). rewrite Hid. simpl.
    pose proof (lookup_lt_Some _ _ _ Hlk) as Hlt.
    destruct (lookup_lt_is_Some_2 (m_active_per_bank c) id) as [n Hn]; [lia|].
    assert (vget (m_active_per_bank c) (Z.of_nat id) = Ok n) as -> by (apply vget_Ok; rewrite Nat2Z.id; split; [lia|done]).
    simpl. exists (0 <? n). split; [done|]. rewrite (timing_targets_single _ Hw _ _ Hcon Hroot Hid).
    rewrite Z.ltb_lt, (Hcnt id n Hn). change 0 with (Z.of_nat 0). rewrite <- Nat2Z.inj_lt, active_on_pos. split.
    + intros (a & ? & ?). split; [done|]. exists id, a. set_solver.
    + intros (_ & i & a & ->%list_elem_of_singleton%Nat2Z.inj & ? & ?). by exists a.
  - destruct (scan_active_spec t (command r) (addr_vec r) Ha Ht Hns (m_active_per_bank c) (m_bank_nodes (m_device c)))
      as (b & Hb & Hiff); [done|done|].
    exists b. split; [done|]. rewrite Hiff. split.
    + intros (i & n & p & Hi & Hn & Hp & Htt). split; [done|]. assert (0 < active_on c i)%nat as (a & Hin & Hf)%active_on_pos.
      { pose proof (Hcnt i n Hi). lia. }
      exists i, a. split_and!; [|done|done]. apply timing_targets_elem. exists p. rewrite Nat2Z.id. split_and!; [lia|done|done].
    + intros (_ & i & a & (p & _ & Hp & Htt)%timing_targets_elem & Hin & Hf). rewrite Nat2Z.id in Hp.
      destruct (lookup_lt_is_Some_2 (m_active_per_bank c) i) as [n Hn]; [rewrite Hlen; by eapply lookup_lt_Some|].
      exists i, n, p. split_and!; try done. assert (0 < active_on c i)%nat by (apply active_on_pos; eauto).
      pose proof (Hcnt i n Hn). lia.
Qed.
End close.

(** ** The active buffer under the open-row policy

    Every request in the active buffer holds its bank open at its own row, and
    each bank has at most one such request: the invariant and its preservation by
    a clock edge of the generic DDR controller. *)
(** ** Buffers up to the fields the open-row policy leaves alone *)
Definition same_fin (r r' : Request) : Prop :=
  addr_vec r' = addr_vec r /\ final_command r' = final_command r.

Record frame_fin (c c' : Ctrl) : Prop := mkFrameFin {
  ff_device : m_device c' = m_device c;
  ff_clk : m_clk c' = m_clk c;
  ff_per_bank : m_active_per_bank c' = m_active_per_bank c;
  ff_bufs : forall id, Forall2 same_fin (buffer (get_buf c id)) (buffer (get_buf c' id))
}.

Lemma Forall2_same_fin_refl (l : list Request) : Forall2 same_fin l l.
Proof. induction l; constructor; [done|done]. Qed.

Lemma Forall2_same_fin_trans (l1 l2 l3 : list Request) :
  Forall2 same_fin l1 l2 -> Forall2 same_fin l2 l3 -> Forall2 same_fin l1 l3.
Proof.
  intros H. revert l3. induction H as [|x y l1 l2 [E1 E2] _ IH]; intros l3 H3; inversion H3 as [|? z ? ? [E3 E4]]; subst; constructor.
  - split; congruence.
  - by apply IH.
Qed.

#[export] Instance frame_fin_preorder : PreOrder frame_fin.
Proof.
  split.
  - intros c. constructor; try done. intros id. apply Forall2_same_fin_refl.
  - intros c1 c2 c3 [a1 a2 a3 a4] [b1 b2 b3 b4]. constructor; try congruence.
    intros id. by eapply Forall2_same_fin_trans.
Qed.

Lemma set_buf_fin (c : Ctrl) (id : buf_id) (b : ReqBuffer) :
  Forall2 same_fin (buffer (get_buf c id)) (buffer b) -> frame_fin c (set_buf c id b).
Proof.
  intros H. constructor; try done. intros id'. rewrite get_set_buf. destruct (decide (id = id')) as [<-|]; [done|].
  apply Forall2_same_fin_refl.
Qed.

Lemma put_req_fin (c : Ctrl) (id : buf_id) (i : nat) (r r' : Request) :
  req_at c id i = Ok r -> same_fin r r' -> frame_fin c (put_req c id i r').
Proof.
  intros Hr%req_at_lookup Hs. apply set_buf_fin. simpl. apply Forall2_same_length_lookup.
  split; [by rewrite length_insert|]. intros j x y Hx Hy. destruct (decide (i = j)) as [<-|Hne].
  - rewrite list_lookup_insert_eq in Hy by (by eapply lookup_lt_Some). by simplify_eq.
  - rewrite list_lookup_insert_ne in Hy by done. by simplify_eq.
Qed.

Lemma set_write_mode_fin (c : Ctrl) : frame_fin c (set_write_mode c).
Proof.
  assert (forall m, frame_fin c (set_mode c m)) as H.
  { intros m. constructor; try done. intros []; apply Forall2_same_fin_refl. }
  unfold set_write_mode. repeat case_match; try reflexivity; apply H.
Qed.

(** [would_close_active] reads only the framed part. *)
Lemma would_close_active_fin (c c' : Ctrl) (r : Request) :
  frame_fin c c' -> would_close_active c' r = would_close_active c r.
Proof.
  intros [E1 E2 E3 E4]. unfold would_close_active. rewrite E1, E3.
  assert (buf_size (m_active_buffer c') = buf_size (m_active_buffer c)) as ->.
  { unfold buf_size. pose proof (Forall2_length _ _ _ (E4 BActive)) as E. simpl in E. by rewrite E. }
  assert (forall t av l banks, scan_active c' t av l banks = scan_active c t av l banks) as Hs.
  { intros t av. induction l as [|n l IH]; intros [|p banks]; simpl; try done. rewrite E1, IH. done. }
  destruct (vget (command_meta _) _) as [m|]; [|done]. simpl. destruct (negb _); [done|].
  destruct (_ =? 0); [done|]. destruct (vget (bank_targets _) _) as [t|]; [|done]. simpl.
  destruct (decide _); [done|]. apply Hs.
Qed.

(** ** What the cascade returns *)

(** The candidate carries its freshly derived command; unless it comes from the
    active buffer it does not close an active bank. *)
Definition good_candidate (c : Ctrl) (k : candidate) : Prop :=
  match k with
  | None => True
  | Some (id, i) => exists r, req_at c id i = Ok r /\
      ctrl_get_preq_command c (final_command r) (addr_vec r) = Ok (command r) /\
      (id = BActive \/ would_close_active c r = Ok false)
  end.

Section pick.
Context (sch : scheduler_t) `{!SchedulerLaws sch}.

Lemma pick_best_fin (c c' : Ctrl) (id : buf_id) (f : filter_t) (k : candidate) :
  pick_best_ready_from sch c id f = Ok (c', k) ->
  frame_fin c c' /\
  forall id' i, k = Some (id', i) -> id' = id /\ exists r, req_at c' id i = Ok r /\ f r = Ok true /\
    ctrl_get_preq_command c (final_command r) (addr_vec r) = Ok (command r).
Proof.
  unfold pick_best_ready_from. intros ([b o] & Hs & H')%bind_Ok. simpl in H'.
  destruct (sched_refresh c (get_buf c id) f b o Hs) as [E HF].
  assert (frame_fin c (set_buf c id b)) as Hb.
  { apply set_buf_fin. eapply Forall2_impl; [exact HF|]. intros r r' Hr. unfold derive_command in Hr.
    apply bind_Ok in Hr as (cmd & _ & Hr). by injection Hr as <-. }
  destruct o as [j|]; [|by injection H' as <- <-].
  apply bind_Ok in H' as (r & Hr & H'). apply bind_Ok in H' as (ok & _ & H'). injection H' as <- <-.
  split; [done|]. intros id' i Hk. destruct ok; [|done]. injection Hk as <- <-. split; [done|].
  exists r. split; [done|]. destruct (sched_choice c (get_buf c id) f b j Hs) as (r0 & Hr0 & Hf).
  apply req_at_lookup in Hr. rewrite get_set_buf, decide_True in Hr by done. rewrite Hr in Hr0. injection Hr0 as <-.
  split; [done|]. destruct (Forall2_lookup_r _ _ _ _ _ HF Hr) as (r1 & _ & Hd).
  unfold derive_command in Hd. apply bind_Ok in Hd as (cmd & Hcmd & Hd). by injection Hd as <-.
Qed.

Lemma get_preq_fin (c c' : Ctrl) (cmd : Z) (av : AddrVec_t) :
  frame_fin c c' -> ctrl_get_preq_command c' cmd av = ctrl_get_preq_command c cmd av.
Proof. intros [E1 E2 _ _]. unfold ctrl_get_preq_command. by rewrite E1, E2. Qed.

Lemma pick_priority_fin (c c' : Ctrl) (k : candidate) :
  pick_priority_if c no_filter = Ok (c', k) -> frame_fin c c' /\ good_candidate c' k.
Proof.
  unfold pick_priority_if. destruct (_ =? 0); [by intros [= <- <-]|].
  intros (r & Hr & H')%bind_Ok. apply bind_Ok in H' as (cmd & Hcmd & H'). apply bind_Ok in H' as (ok & _ & H').
  assert (frame_fin c (put_req c BPriority 0 (set_command r cmd))) as Hb by (by eapply put_req_fin).
  destruct (negb ok); [by injection H' as <- <-|]. apply bind_Ok in H' as (w & Hw & H').
  destruct w; [by injection H' as <- <-|]. injection H' as <- <-. split; [done|].
  exists (set_command r cmd). split_and!; [|by rewrite (get_preq_fin _ _ _ _ Hb)|by right].
  apply req_at_lookup in Hr. apply req_at_lookup. simpl in *. apply list_lookup_insert_eq. by eapply lookup_lt_Some.
Qed.

Lemma pick_fin (c c' : Ctrl) (k : candidate) : pick sch c = Ok (c', k) -> frame_fin c c' /\ good_candidate c' k.
Proof.
  unfold pick. intros ([c1 k1] & H1 & H')%bind_Ok. apply bind_Ok in H' as ([c2 k2] & H2 & H'). simpl in *.
  apply pick_best_fin in H1 as [F1 G1].
  assert (frame_fin c c2 /\ good_candidate c2 k2) as [F2 G2].
  { destruct k1 as [[id i]|].
    - injection H2 as <- <-. split; [done|]. destruct (G1 id i eq_refl) as (-> & r & Hr & _ & Hp).
      exists r. split_and!; [done|by rewrite (get_preq_fin _ _ _ _ F1)|by left].
    - apply pick_priority_fin in H2 as [? ?]. split; [by etrans|done]. }
  destruct k2 as [k2|]; [by injection H' as <- <-|]. destruct (_ =? 0); [|by injection H' as <- <-].
  unfold pick_rw_if in H'. pose proof (set_write_mode_fin c2) as Fm.
  apply pick_best_fin in H' as [F3 G3]. split; [by do 2 (etrans; [eassumption|])|].
  destruct k as [[id i]|]; [|done]. destruct (G3 id i eq_refl) as (-> & r & Hr & Hf & Hp).
  exists r. split_and!; [done|by rewrite (get_preq_fin _ _ _ _ F3)|right].
  apply bind_Ok in Hf as (w & Hw & Hf). destruct w; [done|]. by rewrite (would_close_active_fin _ _ _ F3).
Qed.
End pick.

(** ** The invariant *)
Section prot.
Context (T : Standard) (Hok : std_okb T = true) (Hns : split_act T = false).

Definition named (r : Request) (name : string) : Prop :=
  final_command r = T_cmd T name /\ name ∈ Command T /\ preq_of name <> PActivation.

(** A request the device can serve. *)
Definition req_ok (d : DRAMDevice) (r : Request) : Prop :=
  exists name, named r name /\ addressed d (T_cmd T name) (addr_vec r) /\ av_ok (m_spec d) (addr_vec r).

(** An access whose bank is open at its row. *)
Definition holds_row (d : DRAMDevice) (A : list bank_abs) (r : Request) : Prop :=
  exists name i row, named r name /\ preq_of name = PAccess /\
    get_flat_bank_id d (addr_vec r) = Ok (Z.of_nat i) /\ vget (addr_vec r) (T_Row T) = Ok row /\
    A !! i = Some (Active row).

Record prot (c : Ctrl) : Prop := mkProt {
  pr_dev : dev_of T (m_device c);
  pr_meta : meta_of T (m_spec (m_device c));
  pr_reqs : forall id r, r ∈ buffer (get_buf c id) -> req_ok (m_device c) r;
  pr_counts : counts_ok c;
  pr_one : forall i, (active_on c i <= 1)%nat;
  pr_rows : exists A, dev_rel T (m_device c) A /\
              forall r, r ∈ buffer (m_active_buffer c) -> holds_row (m_device c) A r
}.

Lemma same_fin_named (r r' : Request) (name : string) : same_fin r r' -> named r name -> named r' name.
Proof. intros [_ E] (? & ? & ?). split_and!; [congruence|done|done]. Qed.

Lemma active_on_fin (c c' : Ctrl) (i : nat) : frame_fin c c' -> active_on c' i = active_on c i.
Proof.
  intros [E1 _ _ E4]. unfold active_on. rewrite E1. specialize (E4 BActive). simpl in E4.
  induction E4 as [|r r' l l' [Ea _] _ IH]; simpl; [done|].
  assert (on_bank (m_device c) i r' = on_bank (m_device c) i r) as -> by (unfold on_bank; by rewrite Ea).
  destruct (on_bank (m_device c) i r); simpl; lia.
Qed.

Lemma prot_fin (c c' : Ctrl) : frame_fin c c' -> prot c -> prot c'.
Proof.
  intros Hf [p1 p2 p3 [p4 p5] p6 (A & HA & p7)]. pose proof Hf as [E1 _ E3 E4].
  assert (Hback : forall id r', r' ∈ buffer (get_buf c' id) -> exists r, r ∈ buffer (get_buf c id) /\ same_fin r r').
  { intros id r' (j & Hj)%list_elem_of_lookup. destruct (Forall2_lookup_r _ _ _ _ _ (E4 id) Hj) as (r & Hr & ?).
    exists r. split; [by eapply list_elem_of_lookup_2|done]. }
  constructor; rewrite ?E1; try done.
  - intros id r' Hr'. destruct (Hback id r' Hr') as (r & Hr & Hs). destruct (p3 id r Hr) as (name & Hn & Ha & Hav).
    exists name. split; [by eapply same_fin_named|]. destruct Hs as [-> _]. done.
  - split; [by rewrite E1, E3|]. intros i n. rewrite E3, (active_on_fin c c' i Hf). apply p5.
  - intros i. rewrite (active_on_fin c c' i Hf). apply p6.
  - exists A. split; [done|]. intros r' Hr'. destruct (Hback BActive r' Hr') as (r & Hr & Hs).
    destruct (p7 r Hr) as (name & i & row & Hn & ? & ? & ? & ?). exists name, i, row.
    split; [by eapply same_fin_named|]. destruct Hs as [-> _]. done.
Qed.

(** *** Effect of an issued command on rows that are held *)
Lemma keep_row (A : list bank_abs) (ids : list Z) (row ra : Z) (q : string) (i : nat) :
  A !! i = Some (Active ra) ->
  (forall k a, k ∈ ids -> A !! Z.to_nat k = Some a -> legal T a row q) ->
  (kind_of q = KClose -> Z.of_nat i ∉ ids) ->
  abs_issue A ids row q !! i = Some (Active ra).
Proof.
  intros Ha Hl Hc. unfold abs_issue. rewrite list_lookup_imap, Ha. simpl. f_equal. case_decide as Hi; [|done].
  specialize (Hl (Z.of_nat i) (Active ra) Hi ltac:(by rewrite Nat2Z.id)). unfold legal in Hl. unfold abs_step.
  destruct (kind_of q); [by subst|done| |done]. by destruct (Hc eq_refl).
Qed.

(** The activation case: the only command that opens a bank finds it idle. *)
Lemma opening_idle (A : list bank_abs) (ids : list Z) (row : Z) (name : string) :
  preq_of name <> PActivation -> abs_get_preq T A ids row name = "ACT" ->
  preq_of name = PAccess /\ exists i, i ∈ ids /\ A !! Z.to_nat i = Some Idle.
Proof.
  intros Hact Hq. destruct (abs_get_preq_cases T A ids row name) as [[E _]|(i & a & Hi & Ha & Hne & E)].
  { rewrite Hq in E. subst name. done. }
  rewrite Hq in E. unfold abs_preq in E, Hne. destruct (preq_of name) as [|pre| | |] eqn:Ep; try (subst name; done).
  - split; [done|]. exists i. split; [done|]. destruct a as [| |r]; [done|done|]. case_decide; [|done].
    subst name. done.
  - case_decide; [congruence|]. destruct (close_legal T a row name pre Ep) as [_ Hk]. by subst pre.
Qed.

Lemma closing_kind (q : string) (i : CmdImpl) :
  impl_of T q = Some i -> is_closing (ci_meta i) = true <-> kind_of q = KClose.
Proof.
  intros Hi. destruct (impl_meta T q i Hi) as [-> _]. rewrite bool_decide_eq_true. unfold kind_of.
  repeat case_bool_decide; split; try done; set_solver.
Qed.

Lemma opening_name (q : string) (i : CmdImpl) :
  q ∈ Command T -> impl_of T q = Some i -> is_opening (ci_meta i) = true -> q = "ACT".
Proof.
  intros Hq Hi Ho. destruct (impl_meta T q i Hi) as [_ E]. rewrite E, bool_decide_eq_true in Ho.
  destruct (std_ok_parts T Hok) as (_ & _ & _ & _ & _ & _ & _ & Hs & _). fold (split_act T) in Hs. rewrite Hns in Hs.
  destruct Hs as [_ Hn1]. apply elem_of_cons in Ho as [->|Ho]; [done|]. apply list_elem_of_singleton in Ho as ->. done.
Qed.

Lemma flat_same (d d' : DRAMDevice) (av : AddrVec_t) :
  m_spec d' = m_spec d -> m_bank_level d' = m_bank_level d -> get_flat_bank_id d' av = get_flat_bank_id d av.
Proof. intros E1 E2. unfold get_flat_bank_id. by rewrite E1, E2. Qed.

(** Two active requests of one bank are the same request. *)
Lemma one_active (c : Ctrl) (j k : nat) (a b : Request) (i : nat) :
  prot c -> buffer (m_active_buffer c) !! j = Some a -> buffer (m_active_buffer c) !! k = Some b ->
  get_flat_bank_id (m_device c) (addr_vec a) = Ok (Z.of_nat i) ->
  get_flat_bank_id (m_device c) (addr_vec b) = Ok (Z.of_nat i) -> j = k.
Proof.
  intros Hp Ha Hb Fa Fb. pose proof (pr_one c Hp i) as H1. unfold active_on in H1.
  assert (on_bank (m_device c) i a = true /\ on_bank (m_device c) i b = true) as [Oa Ob].
  { unfold on_bank. rewrite Fa, Fb. lia. }
  revert Ha Hb H1. generalize (buffer (m_active_buffer c)). clear -Oa Ob. intros l. revert j k.
  assert (Hin : forall l x n, l !! n = Some x -> on_bank (m_device c) i x = true ->
            (1 <= length (List.filter (on_bank (m_device c) i) l))%nat).
  { clear. intros l x n Hn Ho. assert (In x (List.filter (on_bank (m_device c) i) l)) as H.
    { apply filter_In. split; [|done]. by apply list_elem_of_In, (list_elem_of_lookup_2 _ n). }
    destruct (List.filter _ _); [done|]. simpl. lia. }
  induction l as [|x l IH]; intros [|j] [|k] Ha Hb H1; simpl in *; try done.
  - simplify_eq. rewrite Oa in H1. simpl in H1. pose proof (Hin _ _ _ Hb Ob). lia.
  - simplify_eq. rewrite Ob in H1. simpl in H1. pose proof (Hin _ _ _ Ha Oa). lia.
  - f_equal. apply IH; [done|done|]. destruct (on_bank _ _ x); simpl in H1; lia.
Qed.

(** An active request asks for its final command: its row is open. *)
Lemma active_ready (d : DRAMDevice) (A : list bank_abs) (r : Request) (name : string) (row : Z) :
  dev_of T d -> named r name -> addressed d (T_cmd T name) (addr_vec r) -> vget (addr_vec r) (T_Row T) = Ok row ->
  holds_row d A r ->
  preq_of name = PAccess /\ abs_get_preq T A (timing_targets d (addr_vec r)) row name = name.
Proof.
  intros Hd (Hfin & Hn & _) Haddr Hrow (n2 & k & row' & (F2 & N2 & _) & Hacc & Hk & Hrow' & HAk).
  rewrite Hfin in F2. apply (enum_inj (Command T)) in F2; [|done|done]. subst n2.
  destruct (access_single T Hok d name _ Hd Hn Hacc Haddr) as (k' & Hk' & ->). rewrite Hk in Hk'.
  injection Hk' as E%Nat2Z.inj. subst k'. rewrite Hrow in Hrow'. injection Hrow' as <-. split; [done|].
  rewrite (abs_get_preq_single T A (Z.of_nat k) (Active row) row name) by (by rewrite Nat2Z.id).
  unfold abs_preq. by rewrite Hacc, decide_True.
Qed.

(** A closing command of a candidate does not reach another active request. *)
Lemma close_misses (c : Ctrl) (id : buf_id) (i j : nat) (r a : Request) (q : string) (ci : CmdImpl) (k : nat)
  (name : string) :
  prot c -> buffer (get_buf c id) !! i = Some r -> (id = BActive \/ would_close_active c r = Ok false) ->
  q ∈ Command T -> impl_of T q = Some ci -> command r = T_cmd T q -> addressed (m_device c) (T_cmd T q) (addr_vec r) ->
  named r name -> addressed (m_device c) (T_cmd T name) (addr_vec r) ->
  buffer (m_active_buffer c) !! j = Some a -> (id = BActive -> j <> i) ->
  get_flat_bank_id (m_device c) (addr_vec a) = Ok (Z.of_nat k) -> kind_of q = KClose ->
  Z.of_nat k ∉ timing_targets (m_device c) (addr_vec r).
Proof.
  intros Hp Hr [->|Hw] Hq Hci Hcmd Haq Hnm Haddr Hj Hne Hk Hkc Hin; pose proof Hp as [p1 p2 p3 p4 p6 (A & HA & p7)].
  - destruct (row_coord T Hok _ p1 _ (proj1 (proj2 Haddr))) as [row Hrow].
    destruct (active_ready _ A r name row p1 Hnm Haddr Hrow (p7 r (list_elem_of_lookup_2 _ _ _ Hr))) as [Hacc _].
    destruct (access_single T Hok _ name _ p1 (proj1 (proj2 Hnm)) Hacc Haddr) as (k' & Hk' & Hids). rewrite Hids in Hin.
    apply list_elem_of_singleton, Nat2Z.inj in Hin. subst k'. apply (Hne eq_refl). by eapply (one_active c j i a r k).
  - destruct (p2 q ci Hq Hci) as (m & Hm & Ecl & _). rewrite <- Hcmd in Haq, Hm.
    destruct (would_close_active_spec c (do_wf T _ p1) r m p4 Haq Hm) as (b & Hb & Hiff).
    rewrite Hw in Hb. injection Hb as <-. enough (false = true) by done. apply Hiff. split.
    + rewrite Ecl. by apply (closing_kind q ci Hci).
    + exists k, a. split_and!; [done|by eapply list_elem_of_lookup_2|done].
Qed.

(** An activation finds its bank idle and leaves it open at the requested row. *)
Lemma open_fresh (c : Ctrl) (A : list bank_abs) (r : Request) (name : string) (row : Z) (d' : DRAMDevice) :
  dev_of T (m_device c) -> (forall a, a ∈ buffer (m_active_buffer c) -> holds_row (m_device c) A a) ->
  named r name -> addressed (m_device c) (T_cmd T name) (addr_vec r) -> vget (addr_vec r) (T_Row T) = Ok row ->
  abs_get_preq T A (timing_targets (m_device c) (addr_vec r)) row name = "ACT" ->
  m_spec d' = m_spec (m_device c) -> m_bank_level d' = m_bank_level (m_device c) ->
  exists k, get_flat_bank_id (m_device c) (addr_vec r) = Ok (Z.of_nat k) /\ active_on c k = O /\
    holds_row d' (abs_issue A (timing_targets (m_device c) (addr_vec r)) row "ACT") r.
Proof.
  intros p1 p7 Hnm Haddr Hrow Eq Es El.
  destruct (opening_idle A _ row name (proj2 (proj2 Hnm)) Eq) as (Hacc & j & Hj & HAj).
  destruct (access_single T Hok _ name _ p1 (proj1 (proj2 Hnm)) Hacc Haddr) as (k & Hk & Hids). rewrite Hids in Hj |- *.
  apply list_elem_of_singleton in Hj as ->. rewrite Nat2Z.id in HAj. exists k. split_and!; [done| |].
  - destruct (active_on c k) as [|n] eqn:En; [done|]. exfalso.
    assert (0 < active_on c k)%nat as (a & Hin & Hfa)%active_on_pos by lia.
    destruct (p7 a Hin) as (? & ka & ? & _ & _ & Hka & _ & HAa). rewrite Hfa in Hka. injection Hka as E%Nat2Z.inj.
    subst ka. congruence.
  - exists name, k, row. rewrite (flat_same _ d') by done. split_and!; try done.
    rewrite (abs_issue_single A (Z.of_nat k) Idle) by (try lia; by rewrite Nat2Z.id). rewrite Nat2Z.id.
    by rewrite list_lookup_insert_eq by (by eapply lookup_lt_Some).
Qed.

(** Issuing the candidate's command leaves every other active request's row open. *)
Lemma issue_holds (c : Ctrl) (id : buf_id) (i : nat) (r : Request) :
  prot c -> req_at c id i = Ok r ->
  ctrl_get_preq_command c (final_command r) (addr_vec r) = Ok (command r) ->
  (id = BActive \/ would_close_active c r = Ok false) ->
  exists d' q A' ci, command r = T_cmd T q /\ q ∈ Command T /\ impl_of T q = Some ci /\
    issue_command (m_device c) (command r) (addr_vec r) (m_clk c) = Ok d' /\ dev_of T d' /\ dev_rel T d' A' /\
    m_spec d' = m_spec (m_device c) /\ m_bank_nodes d' = m_bank_nodes (m_device c) /\
    m_bank_level d' = m_bank_level (m_device c) /\ same_shape (m_root (m_device c)) (m_root d') /\
    (forall c0 av, addressed (m_device c) c0 av -> addressed d' c0 av) /\
    (forall j a, buffer (m_active_buffer c) !! j = Some a -> (id = BActive -> j <> i) -> holds_row d' A' a) /\
    (id = BActive -> command r = final_command r) /\
    (is_opening (ci_meta ci) = true -> exists k, get_flat_bank_id (m_device c) (addr_vec r) = Ok (Z.of_nat k) /\
       active_on c k = O /\ holds_row d' A' r).
Proof.
  intros Hp Hr%req_at_lookup Hq Hclose. pose proof Hp as [p1 p2 p3 p4 p6 (A & HA & p7)].
  destruct (p3 id r (list_elem_of_lookup_2 _ _ _ Hr)) as (name & Hnm & Haddr & Hav). pose proof Hnm as (Hfin & Hn & Hact).
  destruct (row_coord T Hok _ p1 _ (proj1 (proj2 Haddr))) as [row Hrow].
  destruct (driver_round T Hok _ A name (addr_vec r) row (m_clk c) p1 HA Hn Hact Haddr Hav Hrow)
    as (Hpq & Hqn & d' & Hd' & Hof & Hrel & _ & Haddr' & Es & Eb & El).
  unfold ctrl_get_preq_command in Hq. rewrite Hfin, Hpq in Hq. injection Hq as Hcmd.
  destruct (std_ok_parts T Hok) as (Himpl & _). destruct (Himpl name Hn) as [i0 Hi0].
  destruct (preq_legal T Hok (m_device c) A name i0 (addr_vec r) row p1 HA Haddr Hn Hi0 Hact) as [(_ & ci & Hci & Et) Hlegal].
  pose proof (addressed_scope T Hok _ name _ i0 ci _ p1 Hn Hqn Hi0 Hci Et Haddr) as Haq.
  set (q := abs_get_preq T A _ row name) in *.
  destruct (@issue_command_spec (m_device c) (construct_laws T _ Hok (do_std T _ p1)) (T_cmd T q) (addr_vec r) (m_clk c)
              (do_wf T _ p1) Haq Hav) as (d2 & Hd2 & _ & Hsh & _). rewrite Hd' in Hd2. injection Hd2 as <-.
  exists d', q, (abs_issue A (timing_targets (m_device c) (addr_vec r)) row q), ci.
  split_and!; try done; try (by rewrite <- Hcmd).
  - intros j a Hj Hne. destruct (p7 a (list_elem_of_lookup_2 _ _ _ Hj)) as (na & ka & ra & Hna & Hacca & Hka & Hra & HAa).
    exists na, ka, ra. rewrite (flat_same _ d') by done. split_and!; try done.
    apply keep_row; [done|done|]. intros Hkc. by eapply (close_misses c id i j r a q ci).
  - intros ->. destruct (active_ready _ A r name row p1 Hnm Haddr Hrow (p7 r (list_elem_of_lookup_2 _ _ _ Hr))) as [_ E].
    rewrite Hfin, <- Hcmd. unfold q. by rewrite E.
  - intros Ho. pose proof (opening_name q ci Hqn Hci Ho) as Eq. rewrite Eq. by eapply open_fresh.
Qed.

(** *** Between the issue and the end of the tick *)
Record mid (c : Ctrl) (id : buf_id) (i : nat) : Prop := mkMid {
  md_dev : dev_of T (m_device c);
  md_meta : meta_of T (m_spec (m_device c));
  md_reqs : forall id' r, r ∈ buffer (get_buf c id') -> req_ok (m_device c) r;
  md_counts : counts_ok c;
  md_one : forall k, (active_on c k <= 1)%nat;
  md_rows : exists A r q ci, dev_rel T (m_device c) A /\
    (forall j a, buffer (m_active_buffer c) !! j = Some a -> (id = BActive -> j <> i) -> holds_row (m_device c) A a) /\
    buffer (get_buf c id) !! i = Some r /\ command r = T_cmd T q /\ q ∈ Command T /\ impl_of T q = Some ci /\
    (id = BActive -> command r = final_command r) /\
    (is_opening (ci_meta ci) = true -> exists k, get_flat_bank_id (m_device c) (addr_vec r) = Ok (Z.of_nat k) /\
       active_on c k = O /\ holds_row (m_device c) A r)
}.

Lemma length_filter_delete {X} (f : X -> bool) (l : list X) (i : nat) (x : X) :
  l !! i = Some x -> length (List.filter f l) = (length (List.filter f (delete i l)) + if f x then 1 else 0)%nat.
Proof.
  revert i. induction l as [|y l IH]; intros [|i] Hi; simpl in *; try done.
  - simplify_eq. destruct (f x); simpl; lia.
  - specialize (IH i Hi). destruct (f y); simpl; lia.
Qed.

Lemma elem_of_delete {X} (l : list X) (i : nat) (x : X) :
  x ∈ delete i l -> exists j, j <> i /\ l !! j = Some x.
Proof.
  intros (j & Hj)%list_elem_of_lookup. destruct (decide (j < i)%nat).
  - rewrite list_lookup_delete_lt in Hj by done. exists j. split; [lia|done].
  - rewrite list_lookup_delete_ge in Hj by lia. exists (S j). split; [lia|done].
Qed.

Lemma on_bank_flat (d : DRAMDevice) (k j : nat) (r : Request) :
  get_flat_bank_id d (addr_vec r) = Ok (Z.of_nat k) -> on_bank d j r = bool_decide (j = k).
Proof. intros H. unfold on_bank. rewrite H. case_bool_decide; lia. Qed.

(** The occupancy counters after one entry changes by [x]. *)
Lemma counts_update (c c' : Ctrl) (av : AddrVec_t) (k : nat) (x : Z) (l : list Z) :
  counts_ok c -> get_flat_bank_id (m_device c) av = Ok (Z.of_nat k) ->
  bump_active c av x = Ok (set_active_per_bank c l) -> m_device c' = m_device c -> m_active_per_bank c' = l ->
  (forall j, Z.of_nat (active_on c' j) = Z.of_nat (active_on c j) + if decide (j = k) then x else 0) ->
  counts_ok c'.
Proof.
  intros [Hlen Hcnt] Hf Hb Ed El Hon. unfold bump_active in Hb. rewrite Hf in Hb. simpl in Hb.
  apply bind_Ok in Hb as (n & [_ Hn]%vget_Ok & Hb). apply bind_Ok in Hb as (l' & [Hr ->]%vset_Ok & Hb).
  assert (l = <[Z.to_nat (Z.of_nat k) := n + x]> (m_active_per_bank c)) as ->.
  { apply (f_equal (fun r => match r with Ok c => m_active_per_bank c | Err _ => [] end)) in Hb. done. }
  rewrite Nat2Z.id in *. split; [by rewrite El, Ed, length_insert|]. intros j m. rewrite El, Hon.
  destruct (decide (j = k)) as [->|Hne].
  - rewrite list_lookup_insert_eq by (by eapply lookup_lt_Some). intros [= <-]. by rewrite (Hcnt k n Hn).
  - rewrite list_lookup_insert_ne by done. intros Hm. rewrite (Hcnt j m Hm). lia.
Qed.

Lemma retire_frame (c c' : Ctrl) (id : buf_id) (i : nat) :
  retire_request c id i = Ok c' ->
  exists r l, buffer (get_buf c id) !! i = Some r /\ m_device c' = m_device c /\ m_active_per_bank c' = l /\
    (forall id', get_buf c' id' = if decide (id = id') then remove_at (get_buf c id) i else get_buf c id') /\
    (if decide (id = BActive) then bump_active c (addr_vec r) (-1) = Ok (set_active_per_bank c l)
     else l = m_active_per_bank c).
Proof.
  intros H. pose proof H as (r & l & Hi & E)%retire_spec. exists r, l.
  unfold retire_request in H. apply bind_Ok in H as (r' & Hr'%req_at_lookup & H). rewrite Hi in Hr'. injection Hr' as <-.
  apply bind_Ok in H as (c1 & Hc1 & H). injection H as Hc'.
  assert (Hdev : m_device c' = m_device c /\ m_active_per_bank c' = l /\ m_active_per_bank c' = m_active_per_bank c1).
  { split_and!.
    - rewrite E. unfold retire_effect, run_callback. by repeat case_match.
    - rewrite E. unfold retire_effect, run_callback. by repeat case_match.
    - rewrite <- Hc'. unfold run_callback. by repeat case_match. }
  destruct Hdev as (D1 & D2 & D3). split_and!; try done.
  - intros id'. rewrite E, get_set_buf. destruct (decide (id = id')) as [|Hne]; [done|].
    unfold retire_effect, run_callback, put_req. repeat case_match; destruct id, id'; done.
  - destruct (decide (id = BActive)); [|injection Hc1 as <-; by rewrite <- D2, D3].
    rewrite Hc1. destruct (bump_active_frame _ _ _ _ Hc1) as (l' & ->). simpl in D3. by rewrite <- D2, D3.
Qed.

Lemma retire_prot (c c' : Ctrl) (id : buf_id) (i : nat) :
  mid c id i -> retire_request c id i = Ok c' -> prot c'.
Proof.
  intros [p1 p2 p3 p4 p5 (A & r & q & ci & HA & Hrows & Hr & _)] H.
  apply retire_frame in H as (r' & l & Hr' & Ed & El & Eb & Hl). rewrite Hr in Hr'. injection Hr' as <-.
  assert (Hsub : forall id' x, x ∈ buffer (get_buf c' id') -> x ∈ buffer (get_buf c id')).
  { intros id' x. rewrite Eb. destruct (decide (id = id')) as [<-|]; [|done]. simpl.
    intros (j & _ & Hj)%elem_of_delete. by eapply list_elem_of_lookup_2. }
  assert (Hact : forall x, x ∈ buffer (m_active_buffer c') -> holds_row (m_device c) A x).
  { intros x Hx. pose proof (Eb BActive) as Ea. simpl in Ea. rewrite Ea in Hx. destruct (decide (id = BActive)) as [->|Hne].
    - simpl in Hx. apply elem_of_delete in Hx as (j & Hne & Hj). by eapply Hrows.
    - apply list_elem_of_lookup in Hx as (j & Hj). by eapply Hrows. }
  assert (Hon : forall j, (active_on c j = active_on c' j + if decide (id = BActive) then (if on_bank (m_device c) j r then 1 else 0) else 0)%nat).
  { intros j. unfold active_on. pose proof (Eb BActive) as Ea. simpl in Ea. rewrite Ed, Ea.
    destruct (decide (id = BActive)) as [->|]; [|lia]. by apply (length_filter_delete _ _ i). }
  constructor; rewrite ?Ed; try done.
  - intros id' x Hx. by eapply p3, Hsub.
  - destruct (decide (id = BActive)) as [->|Hne].
    + destruct (p3 BActive r (list_elem_of_lookup_2 _ _ _ Hr)) as (name & Hnm & Haddr & _).
      assert (exists k, get_flat_bank_id (m_device c) (addr_vec r) = Ok (Z.of_nat k)) as (k & Hk).
      { unfold bump_active in Hl. apply bind_Ok in Hl as (k & Hk & Hl). apply bind_Ok in Hl as (n & [? _]%vget_Ok & _).
        exists (Z.to_nat k). by rewrite Z2Nat.id. }
      eapply (counts_update c c' (addr_vec r) k (-1) l p4 Hk Hl Ed El). intros j. rewrite (Hon j), (on_bank_flat _ k j r Hk).
      destruct (decide (j = k)); case_bool_decide; try done; lia.
    + destruct p4 as [L1 L2]. split; [by rewrite El, Hl, Ed|]. intros j n. rewrite El, Hl. intros Hn.
      rewrite (L2 j n Hn), (Hon j). lia.
  - intros j. pose proof (Hon j). pose proof (p5 j). lia.
  - by exists A.
Qed.

Lemma promote_prot (c c' : Ctrl) (id : buf_id) (i : nat) (r : Request) (A : list bank_abs) (k : nat) :
  dev_of T (m_device c) -> meta_of T (m_spec (m_device c)) ->
  (forall id' r, r ∈ buffer (get_buf c id') -> req_ok (m_device c) r) -> counts_ok c ->
  (forall j, (active_on c j <= 1)%nat) -> dev_rel T (m_device c) A -> id <> BActive ->
  (forall a, a ∈ buffer (m_active_buffer c) -> holds_row (m_device c) A a) ->
  buffer (get_buf c id) !! i = Some r -> get_flat_bank_id (m_device c) (addr_vec r) = Ok (Z.of_nat k) ->
  active_on c k = O -> holds_row (m_device c) A r -> promote_to_active c id i = Ok c' -> prot c'.
Proof.
  intros p1 p2 p3 p4 p5 HA Hid Hrows Hr Hk Hk0 Hnew H. unfold promote_to_active in H.
  apply bind_Ok in H as (r' & Hr'%req_at_lookup & H). rewrite Hr in Hr'. injection Hr' as <-.
  destruct (enqueue (m_active_buffer c) r) as [[|] b] eqn:Hq; [|injection H as <-; constructor; eauto].
  apply enqueue_true in Hq as [Eb _].
  apply bind_Ok in H as (c1 & Hb & H). destruct (bump_active_frame _ _ _ _ Hb) as (l & ->).
  assert (Hb' : bump_active c (addr_vec r) 1 = Ok (set_active_per_bank c l)).
  { unfold bump_active in *. simpl in Hb. change (m_device (set_buf c BActive b)) with (m_device c) in Hb.
    rewrite Hk in *. simpl in *. destruct (vget (m_active_per_bank c) (Z.of_nat k)) as [n|]; [|done]. simpl in *.
    destruct (vset (m_active_per_bank c) (Z.of_nat k) (n + 1)) as [l'|]; [|done]. simpl in *. f_equal.
    injection Hb as E. by rewrite E. }
  injection H as H.
  assert (Hc' : m_device c' = m_device c /\ m_active_per_bank c' = l /\ m_active_buffer c' = b /\
     forall id' x, x ∈ buffer (get_buf c' id') -> x ∈ buffer (get_buf c id') \/ x = r).
  { rewrite <- H. destruct (decide (id = BWrite)); (split_and!; [done|done|by destruct id|]);
      intros id' x; rewrite get_set_buf; (destruct (decide (id = id')) as [<-|]; simpl;
        [intros (j & _ & Hj)%elem_of_delete; apply list_elem_of_lookup_2 in Hj; destruct id; naive_solver|
         destruct id'; simpl; rewrite ?Eb, ?elem_of_app, ?list_elem_of_singleton; auto]). }
  destruct Hc' as (Ed & El & Ea & Hin).
  assert (Hon : forall j, active_on c' j = (active_on c j + if decide (j = k) then 1 else 0)%nat).
  { intros j. unfold active_on. rewrite Ed, Ea, Eb, List.filter_app, length_app. simpl.
    rewrite (on_bank_flat _ k j r Hk). destruct (decide (j = k)); case_bool_decide; done. }
  constructor; rewrite ?Ed; try done.
  - intros id' x [Hx| ->]%Hin; [by eapply p3|]. by eapply p3, list_elem_of_lookup_2.
  - eapply (counts_update c c' (addr_vec r) k 1 l p4 Hk Hb' Ed El). intros j. rewrite (Hon j). destruct (decide (j = k)); lia.
  - intros j. rewrite (Hon j). pose proof (p5 j). destruct (decide (j = k)) as [->|]; lia.
  - exists A. split; [done|]. rewrite Ea, Eb. intros x [Hx|Hx]%elem_of_app; [auto|].
    by apply list_elem_of_singleton in Hx as ->.
Qed.

Lemma advance_prot (c c' : Ctrl) (id : buf_id) (i : nat) :
  mid c id i -> advance_request c id i = Ok c' -> prot c'.
Proof.
  intros Hm H. unfold advance_request in H. apply bind_Ok in H as (r & Hr%req_at_lookup & H).
  destruct (Z.eqb_spec (command r) (final_command r)) as [E|E]; [by eapply retire_prot|].
  destruct Hm as [p1 p2 p3 p4 p5 (A & r' & q & ci & HA & Hrows & Hr' & Hcmd & Hq & Hci & Hfin & Hopen)].
  rewrite Hr in Hr'. injection Hr' as <-.
  assert (Hid : id <> BActive) by (intros Hid; by apply E, Hfin).
  assert (Hrows' : forall a, a ∈ buffer (m_active_buffer c) -> holds_row (m_device c) A a).
  { intros a (j & Hj)%list_elem_of_lookup. by eapply Hrows. }
  destruct (p2 q ci Hq Hci) as (m & Hm & _ & Eo). rewrite Hcmd, Hm in H. simpl in H.
  destruct (is_opening m) eqn:Ho; [|injection H as <-; constructor; eauto].
  destruct (Hopen ltac:(congruence)) as (k & Hk & Hk0 & Hnew). by eapply promote_prot.
Qed.

(** *** Maintenance requests *)
Definition serviceable (c : Ctrl) (r : Request) : Prop := req_ok (m_device c) r.

Lemma priority_send_frame (c c' : Ctrl) (r : Request) (ok : bool) :
  priority_send c r = Ok (ok, c') ->
  m_device c' = m_device c /\ m_active_per_bank c' = m_active_per_bank c /\ m_clk c' = m_clk c /\
  (forall id, get_buf c' id = get_buf c id \/
     id = BPriority /\ buffer (get_buf c' id) = buffer (get_buf c id) ++ [r]).
Proof.
  unfold priority_send. destruct (_ || _); [done|]. destruct (enqueue _ _) as [[|] b] eqn:Hq.
  - intros [= <- <-]. apply enqueue_true in Hq as [Eb _].
    destruct (type_id r =? -1); (split_and!; [done|done|done|]); intros []; simpl; auto.
  - intros [= <- <-]. split_and!; auto.
Qed.

Lemma active_on_eq (c c' : Ctrl) (i : nat) :
  m_device c' = m_device c -> m_active_buffer c' = m_active_buffer c -> active_on c' i = active_on c i.
Proof. intros E1 E2. unfold active_on. by rewrite E1, E2. Qed.

Lemma counts_eq (c c' : Ctrl) :
  m_device c' = m_device c -> m_active_buffer c' = m_active_buffer c ->
  m_active_per_bank c' = m_active_per_bank c -> counts_ok c -> counts_ok c'.
Proof.
  intros E1 E2 E3 [L1 L2]. split; [by rewrite E1, E3|]. intros i n. rewrite E3, (active_on_eq c c') by done. apply L2.
Qed.

Lemma prot_send (c c' : Ctrl) (r : Request) (ok : bool) :
  priority_send c r = Ok (ok, c') -> serviceable c r -> prot c -> prot c'.
Proof.
  intros (Ed & Ep & _ & Hb)%priority_send_frame Hs [p1 p2 p3 p4 p5 (A & HA & p7)].
  assert (m_active_buffer c' = m_active_buffer c) as Ea by (destruct (Hb BActive) as [E|[? _]]; [exact E|done]).
  constructor; rewrite ?Ed; try done.
  - intros id x Hx. destruct (Hb id) as [E|[-> E]]; rewrite E in Hx; [by eapply p3|].
    apply elem_of_app in Hx as [Hx|Hx]; [by eapply p3|]. by apply list_elem_of_singleton in Hx as ->.
  - by eapply counts_eq.
  - intros i. rewrite (active_on_eq c c') by done. apply p5.
  - exists A. split; [done|]. by rewrite Ea.
Qed.

Lemma mid_send (c c' : Ctrl) (r : Request) (ok : bool) (id : buf_id) (i : nat) :
  priority_send c r = Ok (ok, c') -> serviceable c r -> mid c id i -> mid c' id i.
Proof.
  intros (Ed & Ep & _ & Hb)%priority_send_frame Hs [p1 p2 p3 p4 p5 (A & x & q & ci & HA & p7 & Hx & p8 & p9 & p10 & p11 & p12)].
  assert (m_active_buffer c' = m_active_buffer c) as Ea by (destruct (Hb BActive) as [E|[? _]]; [exact E|done]).
  constructor; rewrite ?Ed; try done.
  - intros id' y Hy. destruct (Hb id') as [E|[-> E]]; rewrite E in Hy; [by eapply p3|].
    apply elem_of_app in Hy as [Hy|Hy]; [by eapply p3|]. by apply list_elem_of_singleton in Hy as ->.
  - by eapply counts_eq.
  - intros j. rewrite (active_on_eq c c') by done. apply p5.
  - exists A, x, q, ci. rewrite Ea. split_and!; try done.
    + destruct (Hb id) as [->|[-> E]]; [done|]. rewrite E. by apply lookup_app_l_Some.
    + intros Ho. destruct (p12 Ho) as (k & ? & ? & ?). exists k. by rewrite (active_on_eq c c').
Qed.

Lemma sends_prot (c c' : Ctrl) : sends serviceable c c' -> prot c -> prot c'.
Proof. induction 1 as [|c c1 c2 r ok _ Hq Hp _ IH]; [done|]. intros. by eapply IH, prot_send. Qed.

Lemma sends_mid (c c' : Ctrl) (id : buf_id) (i : nat) : sends serviceable c c' -> mid c id i -> mid c' id i.
Proof. induction 1 as [|c c1 c2 r ok _ Hq Hp _ IH]; [done|]. intros. by eapply IH, mid_send. Qed.

(** ** The clock edge *)

(** Serving completed reads touches neither the buffers nor the device. *)
Lemma same_fields_fin (c c' : Ctrl) :
  m_device c' = m_device c -> m_clk c' = m_clk c -> m_active_per_bank c' = m_active_per_bank c ->
  (forall id, get_buf c' id = get_buf c id) -> frame_fin c c'.
Proof. intros. constructor; try done. intros id. rewrite (H2 id). apply Forall2_same_fin_refl. Qed.

Lemma serve_loop_fin (q : list PendingRead) (c : Ctrl) : frame_fin c (serve_loop q c).
Proof.
  revert c. induction q as [|p q IH]; intros c; simpl; [by apply same_fields_fin; try (intros [])|].
  destruct (_ <? _); [by apply same_fields_fin; try (intros [])|].
  etrans; [|apply IH]. apply same_fields_fin; unfold run_callback; by destruct (callback _).
Qed.

Lemma prot_clk (c : Ctrl) (t : Clk_t) : prot c -> prot (set_clk c t).
Proof.
  intros [p1 p2 p3 p4 p5 p6]. by constructor.
Qed.

Lemma prologue_prot (c : Ctrl) : prot c -> prot (tick_prologue c).
Proof.
  intros Hp. unfold tick_prologue, serve_completed_reads. eapply prot_fin; [apply serve_loop_fin|].
  eapply prot_fin; [|apply (prot_clk c (m_clk c + 1) Hp)].
  constructor; try done. intros []; apply Forall2_same_fin_refl.
Qed.

(** What [update_request_stats] writes to the request. *)
Lemma update_stats_fin (c c' : Ctrl) (id : buf_id) (i : nat) (r : Request) :
  req_at c id i = Ok r -> update_request_stats c id i = Ok c' ->
  frame_fin c c' /\ req_at c' id i = Ok (set_is_stat_updated r true).
Proof.
  intros Hr H. unfold update_request_stats in H. rewrite Hr in H. simpl in H.
  set (c1 := put_req c id i (set_is_stat_updated r true)) in *.
  assert (frame_fin c c1) as Hf by (by eapply put_req_fin).
  assert (req_at c1 id i = Ok (set_is_stat_updated r true)) as H1.
  { apply req_at_lookup in Hr. apply req_at_lookup. unfold c1, put_req. rewrite get_set_buf, decide_True by done.
    apply list_lookup_insert_eq. by eapply lookup_lt_Some. }
  assert (Hb : forall c0 n x, frame_fin c c0 -> req_at c0 id i = Ok (set_is_stat_updated r true) ->
            frame_fin c (bump c0 n x) /\ req_at (bump c0 n x) id i = Ok (set_is_stat_updated r true)).
  { intros c0 n x F0 R0. split.
    - etrans; [exact F0|]. constructor; try done. intros []; apply Forall2_same_fin_refl.
    - destruct id; exact R0. }
  destruct (_ || _); [|by injection H as <-].
  apply bind_Ok in H as (hit & _ & H). apply bind_Ok in H as (o & _ & H). injection H as <-.
  destruct (_ && _); repeat (apply Hb); done.
Qed.

Lemma put_same (c : Ctrl) (id : buf_id) (i : nat) (r : Request) :
  req_at c id i = Ok r -> req_at (put_req c id i r) id i = Ok r.
Proof.
  intros Hr%req_at_lookup. apply req_at_lookup. unfold put_req. rewrite get_set_buf, decide_True by done.
  apply list_lookup_insert_eq. by eapply lookup_lt_Some.
Qed.

(** The request that is issued is the candidate, up to the statistics flag. *)
Lemma before_issue (p : OpenRowPolicy) (c c' : Ctrl) (id : buf_id) (i : nat) (r : Request) :
  req_at c id i = Ok r -> issue_candidate p c id i = Ok c' ->
  exists c1 r1 d, frame_fin c c1 /\ req_at c1 id i = Ok r1 /\ same_fin r r1 /\ command r1 = command r /\
    issue_command (m_device c1) (command r1) (addr_vec r1) (m_clk c1) = Ok d /\ c' = set_device c1 d.
Proof.
  intros Hr H. unfold issue_candidate in H. rewrite Hr in H. simpl in H.
  apply bind_Ok in H as (c1 & Hc1 & H). apply bind_Ok in H as (r1 & Hr1 & H). apply bind_Ok in H as (d & Hd & H).
  injection H as <-. assert (frame_fin c (put_req c id i r)) as Hf by (by eapply put_req_fin).
  exists c1, r1, d. destruct (negb (is_stat_updated r)).
  - destruct (update_stats_fin _ _ _ _ _ (put_same _ _ _ _ Hr) Hc1) as [Hf1 Hr1']. rewrite Hr1 in Hr1'. injection Hr1' as ->.
    split_and!; try done. by etrans.
  - injection Hc1 as <-. rewrite (put_same _ _ _ _ Hr) in Hr1. injection Hr1 as <-. split_and!; try done. by apply put_same.
Qed.

Lemma issue_mid (p : OpenRowPolicy) (c c' : Ctrl) (id : buf_id) (i : nat) :
  prot c -> good_candidate c (Some (id, i)) -> issue_candidate p c id i = Ok c' ->
  mid c' id i /\ same_shape (m_root (m_device c)) (m_root (m_device c')) /\
  m_spec (m_device c') = m_spec (m_device c) /\ m_bank_level (m_device c') = m_bank_level (m_device c).
Proof.
  intros Hp (r & Hr & Hq & Hw) H. destruct (before_issue p c c' id i r Hr H) as (c1 & r1 & d & Hf & Hr1 & [Ea Efin] & Ec & Hd & ->).
  pose proof (prot_fin c c1 Hf Hp) as Hp1.
  assert (ctrl_get_preq_command c1 (final_command r1) (addr_vec r1) = Ok (command r1)) as Hq1.
  { by rewrite (get_preq_fin _ _ _ _ Hf), Ea, Efin, Ec. }
  assert (id = BActive \/ would_close_active c1 r1 = Ok false) as Hw1.
  { destruct Hw as [?|Hw]; [by left|right]. rewrite (would_close_active_fin _ _ _ Hf). rewrite <- Hw.
    unfold would_close_active. by rewrite Ec, Ea. }
  destruct (issue_holds c1 id i r1 Hp1 Hr1 Hq1 Hw1)
    as (d' & q & A & ci & Hcmd & Hqn & Hci & Hd' & Hof & Hrel & Es & Eb & El & Hsh & Haddr & Hrows & Hfin & Hopen).
  rewrite Hd in Hd'. injection Hd' as <-. pose proof Hp1 as [p1 p2 p3 [p4 p5] p6 _].
  assert (Hon : forall k, active_on (set_device c1 d) k = active_on c1 k).
  { intros k. unfold active_on. simpl. f_equal. apply List.filter_ext. intros x. unfold on_bank.
    by rewrite (flat_same (m_device c1) d). }
  assert (Hbuf : forall id', get_buf (set_device c1 d) id' = get_buf c1 id') by (by intros []).
  pose proof (ff_device _ _ Hf) as Edev. split; [|simpl; by rewrite <- Edev].
  constructor; simpl; [done|by rewrite Es| | | |].
  - intros id' x. rewrite Hbuf. intros (name & Hn & Hx & Hav)%p3. exists name. rewrite Es. split_and!; auto.
  - split; [simpl; by rewrite Eb|]. intros k n Hn. rewrite Hon. by apply p5.
  - intros k. rewrite Hon. apply p6.
  - exists A, r1, q, ci. rewrite Hbuf. split_and!; try done; [by apply req_at_lookup|].
    intros Ho. destruct (Hopen Ho) as (k & Hk & H0 & Hh). exists k. by rewrite Hon, (flat_same (m_device c1) d).
Qed.

(** What the invariant asks of a refresh manager: an invariant of its own that
    depends on the device only through its shape, under which its requests can be
    served. *)
Class RefreshServes (R : Type) `{RefreshManager R} := {
  serves : DRAMDevice -> R -> Prop;
  serves_shape : forall d d' r, dev_of T d -> dev_of T d' -> same_shape (m_root d) (m_root d') ->
    m_spec d' = m_spec d -> m_bank_level d' = m_bank_level d -> serves d r -> serves d' r;
  serves_tick : forall r r' c c', dev_of T (m_device c) -> serves (m_device c) r ->
    refresh_tick r c = Ok (r', c') -> sends serviceable c c' /\ serves (m_device c) r'
}.

Section tick.
Context {R G : Type} `{IR : RefreshManager R} `{IG : ControllerPlugin G}.
Context `{!RefreshServes R} `{!PluginLaws serviceable G}.
Context (sch : scheduler_t) `{!SchedulerLaws sch}.

Definition gprot (g : GenericDDR R OpenRowPolicy G) : Prop :=
  prot (g_ctrl g) /\ serves (m_device (g_ctrl g)) (g_refresh g).

Lemma pre_hooks_prot (g g' : GenericDDR R OpenRowPolicy G) : pre_hooks g = Ok g' -> gprot g -> gprot g'.
Proof.
  intros H [Hp Hs]. unfold pre_hooks in H. apply bind_Ok in H as ([r1 ca] & Ha & H). simpl in H.
  apply bind_Ok in H as ([gs cc] & Hc & H). injection H as <-. simpl in *.
  pose proof (prologue_prot _ Hp) as Hp1. rewrite <- (tick_prologue_device (g_ctrl g)) in Hs.
  destruct (serves_tick _ _ _ _ (pr_dev _ Hp1) Hs Ha) as [Hsend Hs'].
  apply (each_plugin_sends serviceable) in Hc; [|apply plugin_pre_sends].
  destruct (sends_inv _ _ _ Hsend) as [E1 _]. destruct (sends_inv _ _ _ Hc) as [E2 _]. split; simpl.
  - by eapply sends_prot, sends_prot.
  - by rewrite E2, E1.
Qed.

Lemma post_hooks_prot (g g' : GenericDDR R OpenRowPolicy G) : post_hooks g = Ok g' -> gprot g -> gprot g'.
Proof.
  intros H [Hp Hs]. unfold post_hooks in H. simpl in H.
  apply bind_Ok in H as ([gs cc] & Hc & H). injection H as <-. simpl in *.
  apply (each_plugin_sends serviceable) in Hc; [|apply plugin_post_sends].
  destruct (sends_inv _ _ _ Hc) as [E _]. split; simpl; [by eapply sends_prot|by rewrite E].
Qed.

Lemma serve_candidate_prot (g g' : GenericDDR R OpenRowPolicy G) (id : buf_id) (i : nat) :
  good_candidate (g_ctrl g) (Some (id, i)) -> serve_candidate g id i = Ok g' -> gprot g -> gprot g'.
Proof.
  intros Hk H [Hp Hs]. unfold serve_candidate in H. apply bind_Ok in H as (c1 & Hi & H).
  apply bind_Ok in H as (r & _ & H). simpl in H. apply bind_Ok in H as ([gs c2] & Hg & H).
  apply bind_Ok in H as (c3 & Ha & H). injection H as <-. simpl in *.
  destruct (issue_mid _ _ _ _ _ Hp Hk Hi) as (Hm & Esh & Es & El).
  apply (each_plugin_sends serviceable) in Hg; [|intros ? ? ? ?; apply plugin_issue_sends].
  destruct (sends_inv _ _ _ Hg) as [E _]. split; simpl.
  - eapply advance_prot; [|exact Ha]. by eapply sends_mid.
  - rewrite (advance_device _ _ _ _ Ha), E. eapply serves_shape; [exact (pr_dev _ Hp)| |done..]. apply (md_dev _ _ _ Hm).
Qed.

Lemma tick_prot (g g' : GenericDDR R OpenRowPolicy G) : tick sch g = Ok g' -> gprot g -> gprot g'.
Proof.
  intros H Hg. unfold tick in H. apply bind_Ok in H as (g1 & H1 & H). apply bind_Ok in H as ([c2 k] & H2 & H).
  apply bind_Ok in H as (g3 & H3 & H). simpl in *. apply pre_hooks_prot in H1; [|done].
  destruct (pick_fin sch _ _ _ H2) as [Hf Hk]. eapply post_hooks_prot; [exact H|].
  assert (gprot (mkGDDR c2 (g_refresh g1) (g_policy g1) (g_plugins g1))) as Hg2.
  { destruct H1 as [Hp Hs]. split; simpl; [by eapply prot_fin|]. by rewrite (ff_device _ _ Hf). }
  destruct k as [[id i]|]; [|by injection H3 as <-]. eapply serve_candidate_prot; [|exact H3|exact Hg2]. exact Hk.
Qed.
End tick.
End prot.
