(* ===== verification/ActiveProps.v ===== *)
(** * Maintenance requests and the active buffer

    What [build_addr_vec] computes and that the managers' requests can be served by
    the device; then reachable controllers: an opened row stays open until its
    request is served. *)

From Stdlib Require Import ZArith Lia SpecFloat.
From S2P Require Import Prelude Base Spec Node Timing TimingSpec Commands Standards Device DeviceFacts.
From S2P Require Import BankFSM DeviceProps Controller Scheduler GenericDDR ControllerFacts ControllerInv Refresh.
From S2P Require Import ActiveInv ControllerProps Examples CtrlExamples.

Local Open Scope Z_scope.

(** ** The address of a node *)
Definition write_coord (av : AddrVec_t) (n : DRAMNode) : result AddrVec_t := vset av (m_level n) (m_node_id n).

Lemma vset_mid (pre post : list Z) (x y : Z) :
  vset (pre ++ x :: post) (Z.of_nat (length pre)) y = Ok (pre ++ y :: post).
Proof.
  apply vset_Ok. rewrite length_app, Nat2Z.id. simpl. split; [lia|].
  by rewrite insert_app_r_alt, Nat.sub_diag by lia.
Qed.

Lemma write_coords (s : DRAMSpec) (p : node_ptr) (n m : DRAMNode) (pre : list Z) (k : nat) :
  tree_wf s n -> node_at n p = Some m -> m_level n = Z.of_nat (length pre) ->
  foldM write_coord (pre ++ replicate (S (length p) + k) (-1)) (ancestors n p) =
  Ok (pre ++ m_node_id n :: (Z.of_nat <$> p) ++ replicate k (-1)).
Proof.
  revert n pre. induction p as [|i p IH]; intros n pre Hwf Hm Hl; simpl in *.
  - unfold write_coord. rewrite Hl, vset_mid. done.
  - apply bind_Some in Hm as (c & Hi & Hm). rewrite Hi, foldM_app.
    destruct (lw_child _ _ (tree_all_self _ _ Hwf) _ _ Hi) as [Hlc Hid].
    specialize (IH c (pre ++ [-1]) (tree_all_child _ _ _ _ Hwf Hi) Hm ltac:(rewrite length_app; simpl; lia)).
    rewrite <- app_assoc in IH. simpl in IH. rewrite IH. simpl. unfold write_coord.
    rewrite <- app_assoc. simpl. rewrite Hl, vset_mid, Hid. done.
Qed.

(** ** The nodes it addresses *)
Lemma vget_mid (pre post : list Z) (x : Z) (l : Z) : l = Z.of_nat (length pre) -> vget (pre ++ x :: post) l = Ok x.
Proof. intros ->. apply vget_Ok. rewrite Nat2Z.id. split; [lia|]. by rewrite lookup_app_r, Nat.sub_diag by lia. Qed.

Lemma visit_wild (s : DRAMSpec) (av : AddrVec_t) (q : node_ptr) (n m : DRAMNode) :
  tree_wf s n -> node_at n q = Some m -> matches av n = true ->
  (forall l, m_level n < l <= m_level m -> vget av l = Ok (-1)) -> visit av n q = Some true.
Proof.
  revert n. induction q as [|j q IH]; intros n Hwf Hm Hn Hav; simpl; rewrite Hn; [done|].
  simpl in Hm. apply bind_Some in Hm as (c & Hi & Hm). rewrite Hi. simpl.
  destruct (lw_child _ _ (tree_all_self _ _ Hwf) _ _ Hi) as [Hlc _].
  pose proof (node_level _ _ _ _ (tree_all_child _ _ _ _ Hwf Hi) Hm) as Hlm.
  apply IH; [by eapply tree_all_child|done| |intros l Hl; apply Hav; lia].
  unfold matches. rewrite Hav by lia. lia.
Qed.

Lemma visit_prefix (s : DRAMSpec) (p q : node_ptr) (n m : DRAMNode) (pre : list Z) (k : nat) :
  tree_wf s n -> node_at n q = Some m -> m_level n = Z.of_nat (length pre) -> (length p <= length q)%nat ->
  (length q <= length p + k)%nat ->
  visit (pre ++ m_node_id n :: (Z.of_nat <$> p) ++ replicate k (-1)) n q = Some true <-> p `prefix_of` q.
Proof.
  revert q n pre. induction p as [|i p IH]; intros q n pre Hwf Hm Hl Hle Hk;
    (assert (Hn : forall post, matches (pre ++ m_node_id n :: post) n = true) by
       (intros post; unfold matches; rewrite vget_mid by done; lia)).
  - split; [intros _; apply prefix_nil|intros _]. eapply visit_wild; [done|done|apply Hn|].
    pose proof (node_level _ _ _ _ Hwf Hm) as Hlm. simpl in *. intros l Hl'. apply vget_Ok. split; [lia|].
    rewrite lookup_app_r by lia. destruct (Z.to_nat l - length pre)%nat as [|x] eqn:E; [lia|].
    simpl. apply lookup_replicate_2. lia.
  - destruct q as [|j q]; simpl in *; [lia|]. apply bind_Some in Hm as (c & Hi & Hm). rewrite Hn, Hi. simpl.
    destruct (lw_child _ _ (tree_all_self _ _ Hwf) _ _ Hi) as [Hlc Hid]. destruct (decide (i = j)) as [->|Hne].
    + rewrite cons_middle, app_assoc, <- Hid. rewrite IH; [|by eapply tree_all_child|done| |lia|lia].
      * split; [apply prefix_cons|apply prefix_cons_inv_2].
      * rewrite length_app. simpl. lia.
    + split; [|intros ?%prefix_cons_inv_1; done]. intros Hv. exfalso.
      assert (forall post, matches (pre ++ m_node_id n :: Z.of_nat i :: post) c = false) as Hc.
      { intros post. unfold matches. rewrite cons_middle, app_assoc, vget_mid by (rewrite length_app; simpl; lia). lia. }
      destruct q; simpl in Hv; rewrite Hc in Hv; done.
Qed.

Section node_address.
Context (d : DRAMDevice) (Hd : dev_wf d).

Lemma node_depth (p : node_ptr) (m : DRAMNode) :
  node_at (m_root d) p = Some m -> m_level m = Z.of_nat (length p) /\ Z.of_nat (length p) + 1 < level_count (m_spec d).
Proof.
  intros Hm. pose proof (node_level _ _ _ _ (dw_tree d Hd) Hm) as Hl. rewrite (dw_root d Hd) in Hl.
  destruct (lw_level _ _ (dw_tree d Hd _ _ Hm)). lia.
Qed.

(** The address: the channel's id, the node's coordinates, wildcards below. *)
Definition node_av (p : node_ptr) : AddrVec_t :=
  m_node_id (m_root d) :: (Z.of_nat <$> p) ++
    replicate (Z.to_nat (level_count (m_spec d)) - S (length p)) (-1).

Lemma build_addr_vec_eq (p : node_ptr) (m : DRAMNode) :
  node_at (m_root d) p = Some m -> build_addr_vec d p = Ok (node_av p).
Proof.
  intros Hm. destruct (node_depth p m Hm) as [_ Hl]. unfold build_addr_vec, deref. rewrite Hm. simpl.
  pose proof (write_coords _ p (m_root d) m [] (Z.to_nat (level_count (m_spec d)) - S (length p))
    (dw_tree d Hd) Hm (dw_root d Hd)) as H. simpl in H. unfold write_coord in H. unfold node_av. rewrite <- H.
  f_equal. change (-1 :: replicate ?n (-1)) with (replicate (S n) (-1)). f_equal. lia.
Qed.

Lemma length_node_av (p : node_ptr) (m : DRAMNode) :
  node_at (m_root d) p = Some m -> Z.of_nat (length (node_av p)) = level_count (m_spec d).
Proof.
  intros Hm. destruct (node_depth p m Hm) as [_ Hl]. unfold node_av. simpl.
  rewrite length_app, length_fmap, length_replicate. lia.
Qed.

Lemma node_av_ok (p : node_ptr) (m : DRAMNode) : node_at (m_root d) p = Some m -> av_ok (m_spec d) (node_av p).
Proof.
  intros Hm. split; [by rewrite (length_node_av p m Hm)|]. intros l a sz Hl Ha Hsz.
  apply vget_Ok in Ha as [_ Ha]. unfold node_av in Ha. destruct (Z.to_nat l) as [|j] eqn:Ej; [lia|]. simpl in Ha.
  apply lookup_app_Some in Ha as [Ha|[_ Ha]]; [right|left; by apply lookup_replicate in Ha as [-> _]].
  apply list_lookup_fmap_Some in Ha as (i & -> & Hi).
  assert (Hpre : exists n, node_at (m_root d) (take j p) = Some n /\ is_Some (m_child_nodes n !! i)).
  { rewrite <- (take_drop_middle p j i Hi) in Hm. rewrite node_at_app in Hm.
    apply bind_Some in Hm as (n & Hn & Hm). exists n. split; [done|]. simpl in Hm.
    apply bind_Some in Hm as (c & Hc & _). by exists c. }
  destruct Hpre as (n & Hn & c & Hc). pose proof (node_depth _ _ Hn) as [Hln _].
  rewrite length_take_le in Hln by (apply lookup_lt_Some in Hi; lia).
  pose proof (lw_count _ _ (dw_tree d Hd _ _ Hn) ltac:(by destruct (m_child_nodes n))) as Hcnt.
  replace (m_level n + 1) with l in Hcnt by lia. rewrite Hsz in Hcnt. injection Hcnt as ->.
  apply lookup_lt_Some in Hc. lia.
Qed.

(** Exactly the banks below the node are addressed. *)
Lemma node_av_targets (p q : node_ptr) (m : DRAMNode) (i : nat) :
  node_at (m_root d) p = Some m -> m_level m <= m_bank_level d -> m_bank_nodes d !! i = Some q ->
  Z.of_nat i ∈ timing_targets d (node_av p) <-> p `prefix_of` q.
Proof.
  intros Hm Hlv Hq. destruct (bank_path d Hd q (list_elem_of_lookup_2 _ _ _ Hq)) as (b & Hb & Hlb).
  destruct (node_depth p m Hm) as [Hlm _]. destruct (node_depth q b Hb) as [Hlq Hcnt].
  unfold timing_targets. rewrite sel_ids_elem.
  assert (Hv : timing_target d (node_av p) q = true <-> p `prefix_of` q).
  { unfold timing_target. rewrite bool_decide_eq_true.
    apply (visit_prefix _ p q (m_root d) b [] _ (dw_tree d Hd) Hb (dw_root d Hd)); lia. }
  rewrite <- Hv. split.
  - intros (q' & _ & Hq' & Ht). rewrite Z.sub_0_r, Nat2Z.id, Hq in Hq'. by simplify_eq.
  - intros Ht. exists q. rewrite Z.sub_0_r, Nat2Z.id. split_and!; [lia|done|done].
Qed.
End node_address.

(** ** The managers' requests can be served *)
Section serves.
Context (T : Standard) (Hok : std_okb T = true).

#[export] Instance NoRefresh_serves : RefreshServes T NoRefresh.
Proof.
  refine {| serves := fun _ _ => True |}; [done|]. intros r r' c c' _ _ H.
  unfold refresh_tick, NoRefresh_tick in H. injection H as _ <-. split; [constructor|done].
Defined.

(** A manager's command is a refresh whose scope leaves the banks open to the
    address, and its nodes exist. *)
Definition ref_nodes_ok (d : DRAMDevice) (nodes : list node_ptr) : Prop :=
  forall p, p ∈ nodes -> is_Some (node_at (m_root d) p).

Lemma ref_nodes_shape (d d' : DRAMDevice) (nodes : list node_ptr) :
  same_shape (m_root d) (m_root d') -> ref_nodes_ok d nodes -> ref_nodes_ok d' nodes.
Proof.
  intros Hsh Hn p Hp. specialize (Hsh p). destruct (Hn p Hp) as [m Hm]. rewrite Hm in Hsh.
  destruct (node_at (m_root d') p); done.
Qed.

Lemma refab_addressed (d : DRAMDevice) (p : node_ptr) (m : DRAMNode) (name : string) (i : CmdImpl) :
  dev_of T d -> node_at (m_root d) p = Some m -> name ∈ Command T -> impl_of T name = Some i ->
  ci_bank_target i = All -> addressed d (T_cmd T name) (node_av d p).
Proof.
  intros Hd Hm Hn Hi Ht. destruct (T_cmd_range T d Hd name Hn) as [Hr Hl]. split_and!; [lia|lia| |].
  - by rewrite (length_node_av d (do_wf T d Hd) p m Hm).
  - destruct (command_impl T Hok d Hd _ Hr) as (name' & i' & Hl' & Hi' & _ & Hbt & _). rewrite Hl in Hl'.
    simplify_eq. rewrite Hbt, Ht. done.
Qed.

Lemma refab_impl : "REFab" ∈ Command T -> exists i, impl_of T "REFab" = Some i /\ ci_bank_target i = All.
Proof.
  intros Hn. destruct (std_ok_parts T Hok) as (Himpl & _). destruct (Himpl _ Hn) as [i Hi]. exists i. split; [done|].
  unfold impl_of in Hi. apply fmap_Some in Hi as ([n i'] & Hf & ->). apply find_some in Hf as [Hin Hnm].
  simpl in Hnm. apply bool_decide_eq_true in Hnm. subst n. simpl in Hin.
  repeat destruct Hin as [Hin|Hin]; try done; simplify_eq; done.
Qed.

Lemma send_refresh_serviceable (ab : AllBankRefresh) (c c' : Ctrl) (p : node_ptr) (m : DRAMNode) :
  dev_of T (m_device c) -> "REFab" ∈ Command T -> ab_cmd_refab ab = T_cmd T "REFab" ->
  node_at (m_root (m_device c)) p = Some m -> send_refresh ab c p = Ok c' -> sends (serviceable T) c c'.
Proof.
  intros Hd Hn Hcmd Hm H. unfold send_refresh in H. rewrite (build_addr_vec_eq _ (do_wf T _ Hd) p m Hm) in H. simpl in H.
  apply bind_Ok in H as ([[|] c1] & H1 & H); [|done]. injection H as <-.
  destruct (refab_impl Hn) as (i & Hi & Ht).
  eapply (sends_cons _ _ _ _ (Request_cmd (node_av (m_device c) p) (ab_cmd_refab ab))); [done| |exact H1|constructor].
  exists "REFab". split; [by split_and!|]. simpl. split.
  - by eapply refab_addressed.
  - by eapply (node_av_ok _ (do_wf T _ Hd)).
Qed.

Lemma foldM_served {S A} (ctrl : S -> Ctrl) (I : S -> Prop) (f : S -> A -> result S) (l : list A) (s s' : S) :
  (forall s s' a, a ∈ l -> f s a = Ok s' -> I s -> sends (serviceable T) (ctrl s) (ctrl s') /\ I s') ->
  foldM f s l = Ok s' -> I s -> sends (serviceable T) (ctrl s) (ctrl s') /\ I s'.
Proof.
  revert s. induction l as [|a l IH]; intros s Hf H HI; simpl in H; [injection H as <-; split; [constructor|done]|].
  apply bind_Ok in H as (s1 & H1 & H). destruct (Hf s s1 a ltac:(by left) H1 HI) as [S1 I1].
  destruct (IH s1) as [S2 I2]; [|done|done|].
  - intros s2 s3 b Hb. apply Hf. by right.
  - split; [by eapply sends_trans|done].
Qed.

(** The invariant of the all-bank manager. *)
Definition ab_ok (d : DRAMDevice) (ab : AllBankRefresh) : Prop :=
  "REFab" ∈ Command T /\ ab_cmd_refab ab = T_cmd T "REFab" /\ ref_nodes_ok d (ab_ref_nodes ab).

Lemma tick_all_serves (ab ab' : AllBankRefresh) (c c' : Ctrl) :
  dev_of T (m_device c) -> ab_ok (m_device c) ab -> tick_all_at_once ab c = Ok (ab', c') ->
  sends (serviceable T) c c' /\ ab_ok (m_device c) ab'.
Proof.
  intros Hd (Hn & Hcmd & Hp) H. unfold tick_all_at_once in H.
  destruct (negb _); [injection H as <- <-; by split; [constructor|]|]. apply bind_Ok in H as (c1 & H1 & H).
  injection H as <- <-. split; [|done].
  apply (foldM_served (fun c => c) (fun c1 => m_device c1 = m_device c)) in H1 as [? _]; [done| |done].
  intros s s' p Hin Hs Es. simpl in *. destruct (Hp p Hin) as [m Hm]. rewrite <- Es in Hm, Hd.
  apply (send_refresh_serviceable _ s s' p m Hd Hn) in Hs; [|done|done]. split; [done|].
  apply sends_inv in Hs as [E _]. congruence.
Qed.

Lemma tick_scattered_serves (ab ab' : AllBankRefresh) (c c' : Ctrl) :
  dev_of T (m_device c) -> ab_ok (m_device c) ab -> tick_scattered ab c = Ok (ab', c') ->
  sends (serviceable T) c c' /\ ab_ok (m_device c) ab'.
Proof.
  intros Hd Hab H. unfold tick_scattered in H.
  apply (foldM_served snd (fun s => m_device s.2 = m_device c /\ ab_ok (m_device c) s.1)) in H as [? [_ ?]]; [done| |done].
  clear -Hd Hok. intros [a1 c1] [a2 c2] i Hin H [Es (Hn & Hcmd & Hp)]. simpl in *.
  apply bind_Ok in H as (next & _ & H). destruct (negb _); [injection H as <- <-; by split; [constructor|]|].
  apply bind_Ok in H as (l & _ & H). apply bind_Ok in H as (p & [_ Hpl]%vget_Ok & H).
  apply bind_Ok in H as (c3 & H1 & H). injection H as <- <-. simpl in *.
  destruct (Hp p (list_elem_of_lookup_2 _ _ _ Hpl)) as [m Hm]. rewrite <- Es in Hm, Hd.
  apply (send_refresh_serviceable _ c1 c3 p m Hd Hn) in H1; [|done|done]. split; [done|].
  apply sends_inv in H1 as [E _]. split; [congruence|done].
Qed.

#[export] Instance AllBankRefresh_serves : RefreshServes T AllBankRefresh.
Proof.
  refine {| serves := ab_ok |}.
  - intros d d' ab _ _ Hsh _ _ (? & ? & ?). split_and!; [done|done|]. by eapply ref_nodes_shape.
  - intros ab ab' c c' Hd Hab H. unfold refresh_tick, AllBankRefresh_tick in H. destruct (ab_scatter_enabled ab).
    + by eapply tick_scattered_serves.
    + by eapply tick_all_serves.
Defined.

Lemma AllBank_init_ok (c : Ctrl) (scatter : Z) (ab : AllBankRefresh) :
  dev_of T (m_device c) -> AllBank_init c scatter = Ok ab -> ab_ok (m_device c) ab.
Proof.
  intros Hd H. unfold AllBank_init in H. apply bind_Ok in H as (sc & _ & H). apply bind_Ok in H as (refab & Hr & H).
  apply bind_Ok in H as (lv & _ & H). apply bind_Ok in H as (nr & _ & H).
  assert (Hid : "REFab" ∈ Command T /\ refab = T_cmd T "REFab").
  { unfold get_command_id in Hr. rewrite (bf_commands T _ (do_std T _ Hd)) in Hr.
    destruct (std_ok_parts T Hok) as (_ & Hnd & _).
    destruct (decide ("REFab" ∈ Command T)) as [Hin|Hin].
    - rewrite set_names_lookup in Hr by done. by injection Hr as <-.
    - unfold set_names in Hr. rewrite (proj2 (set_names_from_lookup _ 0 ∅ "REFab" Hnd) Hin) in Hr. done. }
  assert (Hnodes : ref_nodes_ok (m_device c) (nodes_at_level lv (m_root (m_device c)))).
  { intros p (m & Hm & _)%nodes_at_level_elem. by exists m. }
  destruct (_ =? 0)%nat; [done|]. destruct (negb _); [injection H as <-; by destruct Hid|].
  destruct (_ <? _); [done|]. injection H as <-. by destruct Hid.
Qed.
End serves.

(** ** Theorems on the active buffer

    Requests whose row was opened for them keep it until they are served, under
    the open-row policy; the closed-row policy breaks this. *)
(** ** The initial state *)
Section initial.
Context (T : Standard) (Hok : std_okb T = true).

Lemma node_at_renamed (n : DRAMNode) (x : Z) (p : node_ptr) :
  node_at (set_node_id n x) p = match p with [] => Some (set_node_id n x) | _ => node_at n p end.
Proof. by destruct p. Qed.

Lemma tree_all_renamed (P : DRAMNode -> Prop) (n : DRAMNode) (x : Z) :
  (P n -> P (set_node_id n x)) -> tree_all P n -> tree_all P (set_node_id n x).
Proof.
  intros HP Hn p m Hm. rewrite node_at_renamed in Hm. destruct p as [|i p]; [|by eapply Hn].
  injection Hm as <-. apply HP. by apply (Hn []).
Qed.

Lemma set_channel_dev (d : DRAMDevice) (A : list bank_abs) (x : Z) :
  dev_of T d -> dev_rel T d A -> dev_of T (set_channel_id d x) /\ dev_rel T (set_channel_id d x) A.
Proof.
  intros [[w1 w2 w3 (r & Hr & Hb & Hc) w5 w6 w7] Hs] [Hl HA]. split.
  - constructor; [|done]. constructor; simpl; try done.
    + exists r. split_and!; [done|lia|lia|]. by apply tree_all_renamed.
    + apply tree_all_renamed; [|done]. intros [a1 a2 a3 a4 a5 a6]. by constructor.
    + rewrite w7, (nodes_at_level_eq _ (m_root d)). symmetry. apply (nodes_at_level_eq _ (set_node_id (m_root d) x)).
  - split; [done|]. intros i v a Hv. apply (HA i v a). unfold bank_view in *. simpl in Hv.
    apply bind_Some in Hv as (p & Hp & (n & Hn & ->)%fmap_Some_1). rewrite Hp. simpl.
    rewrite node_at_renamed in Hn. destruct p as [|j p]; [by injection Hn as <-|by rewrite Hn].
Qed.

Lemma create_in (name : string) (cfg : DramConfig) (s : DRAMSpec) :
  create name cfg = Ok s -> exists T, T ∈ registry /\ std_name T = name /\ construct T cfg = Ok s.
Proof.
  unfold create. destruct (List.find _ registry) as [T'|] eqn:Hf; [|done]. apply find_some in Hf as [Hin Hn].
  intros Hc. exists T'. split_and!; [by apply list_elem_of_In|by apply bool_decide_eq_true in Hn|done].
Qed.

Lemma registry_std_ok (T1 : Standard) : T1 ∈ registry -> std_okb T1 = true.
Proof. pose proof registry_ok as H. rewrite forallb_forall in H. intros Hin. by apply H, list_elem_of_In. Qed.

Lemma registry_names (T1 T2 : Standard) : T1 ∈ registry -> T2 ∈ registry -> std_name T1 = std_name T2 -> T1 = T2.
Proof.
  assert (Hnd : NoDup (std_name <$> registry)) by (apply (bool_decide_eq_true_1 _); by vm_compute).
  intros (i & Hi)%list_elem_of_lookup (j & Hj)%list_elem_of_lookup E.
  assert (i = j) as ->; [|congruence].
  eapply (NoDup_lookup _ i j (std_name T1) Hnd); rewrite list_lookup_fmap; [by rewrite Hi|by rewrite Hj; simpl; rewrite E].
Qed.

(** The controller as the memory system sets it up. *)
Definition fresh_ctrl (c : Ctrl) (channel cores : Z) : Ctrl := setup_base (ctrl_set_channel_id c channel) cores.

Lemma fresh_prot (cfg : CtrlConfig) (c : Ctrl) (channel cores : Z) :
  T ∈ registry -> std_name T = dram_impl cfg -> init_base cfg = Ok c ->
  spec_wfb (m_spec (m_device c)) = true -> org_wfb (m_spec (m_device c)) = true ->
  prot T (fresh_ctrl c channel cores).
Proof.
  intros Hin Hname H Hs Ho. unfold init_base in H. destruct (_ || _); [done|]. destruct (_ || _) in H; [done|].
  apply bind_Ok in H as (s & Hc & H). apply bind_Ok in H as (d & Hd & H). apply bind_Ok in H as (t & _ & H).
  injection H as <-. simpl in *. apply create_in in Hc as (T' & Hin' & Hname' & Hc).
  assert (T' = T) as -> by (apply registry_names; [done|done|congruence]).
  assert (m_spec d = s) as Es.
  { unfold init in Hd. apply bind_Ok in Hd as (b & _ & Hd). apply bind_Ok in Hd as (root & _ & Hd). by injection Hd as <-. }
  rewrite Es in *. destruct (init_dev T _ s d Hok Hc Hs Ho Hd) as (Hof & _ & Hrel).
  destruct (set_channel_dev d _ channel Hof Hrel) as [Hof' Hrel'].
  constructor; simpl; [done| | | | |].
  - rewrite Es. by eapply construct_meta_of.
  - by intros [] r Hr%elem_of_nil.
  - split; simpl; [apply length_replicate|]. intros i n [-> _]%lookup_replicate. done.
  - intros i. unfold active_on. simpl. lia.
  - eexists. split; [exact Hrel'|]. by intros r Hr%elem_of_nil.
Qed.
End initial.

(** ** Reachable states *)
Section served.
Context (T : Standard) (Hok : std_okb T = true) (Hns : split_act T = false).

(** Adding a request the device can serve to a buffer other than the active one. *)
Lemma prot_enqueue (c c' : Ctrl) (id : buf_id) (b : ReqBuffer) (r : Request) :
  prot T c -> req_ok T (m_device c) r -> id <> BActive -> enqueue (get_buf c id) r = (true, b) ->
  m_device c' = m_device c -> m_active_per_bank c' = m_active_per_bank c ->
  (forall id', get_buf c' id' = get_buf (set_buf c id b) id') -> prot T c'.
Proof.
  intros [p1 p2 p3 p4 p5 p6] Hr Hid [Eb _]%enqueue_true Ed Ep Hb.
  assert (m_active_buffer c' = m_active_buffer c) as Ea.
  { specialize (Hb BActive). rewrite get_set_buf, decide_False in Hb by done. exact Hb. }
  constructor; rewrite ?Ed; try done.
  - intros id' x. rewrite Hb, get_set_buf. destruct (decide (id = id')) as [<-|]; [|apply p3].
    rewrite Eb. intros [Hx|Hx]%elem_of_app; [by eapply p3|]. by apply list_elem_of_singleton in Hx as ->.
  - by eapply counts_eq.
  - intros i. rewrite (active_on_eq c c') by done. apply p5.
  - by rewrite Ea.
Qed.

Lemma prot_same (c c' : Ctrl) :
  prot T c -> m_device c' = m_device c -> m_active_per_bank c' = m_active_per_bank c ->
  (forall id, get_buf c' id = get_buf c id) -> prot T c'.
Proof.
  intros [p1 p2 p3 p4 p5 p6] Ed Ep Hb. pose proof (Hb BActive : m_active_buffer c' = m_active_buffer c) as Ea.
  constructor; rewrite ?Ed; try done.
  - intros id x. rewrite Hb. apply p3.
  - by eapply counts_eq.
  - intros i. rewrite (active_on_eq c c') by done. apply p5.
  - by rewrite Ea.
Qed.

Context (apply : Request -> result Request) `{!AddrMapperLaws apply}.

Lemma send_prot (c c' : Ctrl) (r r' : Request) (ok : bool) :
  send apply c r = Ok (ok, r', c') -> serviceable T c r' -> prot T c -> prot T c'.
Proof.
  intros Hs%send_cases Hr Hp; [|done]. destruct Hs as [r' _ _ _ _ _|r' b _ _ _ _ Hq|r' e _ _ _|r' b _ _ _ _ Hq|r' _ _ _].
  - by apply (prot_same c); [..|intros []].
  - by apply (prot_enqueue c _ BRead b r'); [..|intros []].
  - destruct (run_callback_cases (log_event c e) r') as [->|(e' & ->)]; by apply (prot_same c); [..|intros []].
  - by apply (prot_enqueue c _ BWrite b r'); [..|intros []].
  - done.
Qed.

Context {R G : Type} `{IR : RefreshManager R} `{IG : ControllerPlugin G}.
Context `{!RefreshServes T R} `{!PluginLaws (serviceable T) G}.
Context (sch : scheduler_t) `{!SchedulerLaws sch}.

(** Steps whose requests the device can serve: offered requests that map to an
    address of the device, maintenance requests likewise, clock edges. *)
Inductive served_step (g : GenericDDR R OpenRowPolicy G) : GenericDDR R OpenRowPolicy G -> Prop :=
| served_send r r' ok c' :
    send apply (g_ctrl g) r = Ok (ok, r', c') -> serviceable T (g_ctrl g) r' ->
    served_step g (mkGDDR c' (g_refresh g) (g_policy g) (g_plugins g))
| served_priority r ok c' :
    priority_send (g_ctrl g) r = Ok (ok, c') -> serviceable T (g_ctrl g) r ->
    served_step g (mkGDDR c' (g_refresh g) (g_policy g) (g_plugins g))
| served_tick g' : tick sch g = Ok g' -> served_step g g'.

Lemma served_step_prot (g g' : GenericDDR R OpenRowPolicy G) : served_step g g' -> gprot T g -> gprot T g'.
Proof.
  intros Hs [Hp Hr]. destruct Hs as [r r' ok c' H Hq|r ok c' H Hq|g' H].
  - split; simpl; [by eapply send_prot|]. by rewrite (send_device apply _ _ _ _ _ H).
  - split; simpl; [by eapply prot_send|]. by rewrite (priority_send_device _ _ _ _ H).
  - by eapply tick_prot.
Qed.

Lemma served_reach_prot (g g' : GenericDDR R OpenRowPolicy G) : rtc served_step g g' -> gprot T g -> gprot T g'.
Proof. induction 1 as [|g1 g2 g3 Hs _ IH]; [done|]. intros Hg. by eapply IH, served_step_prot. Qed.

(** What the invariant means for the requests of the active buffer. *)
Lemma prot_ready (c : Ctrl) (r : Request) :
  prot T c -> r ∈ buffer (m_active_buffer c) ->
  ctrl_get_preq_command c (final_command r) (addr_vec r) = Ok (final_command r) /\
  exists k, get_flat_bank_id (m_device c) (addr_vec r) = Ok (Z.of_nat k) /\ active_on c k = 1%nat.
Proof.
  intros [p1 p2 p3 p4 p5 (A & HA & p6)] Hr. pose proof (p6 r Hr) as Hh.
  destruct (p3 BActive r Hr) as (name & Hnm & Haddr & Hav).
  destruct (row_coord T Hok _ p1 _ (proj1 (proj2 Haddr))) as [row Hrow].
  destruct (active_ready T Hok _ A r name row p1 Hnm Haddr Hrow Hh) as [Hacc E]. pose proof Hnm as (Hfin & Hn & Hact).
  split.
  - unfold ctrl_get_preq_command. rewrite Hfin, (get_preq_abs T Hok _ p1 A name _ row); try done. by rewrite E.
  - destruct Hh as (_ & k & _ & _ & _ & Hk & _). exists k. split; [done|].
    assert (0 < active_on c k)%nat by (apply active_on_pos; by exists r). pose proof (p5 k). lia.
Qed.
End served.

(** ** Theorems *)

(** C21: under the open-row policy, for every standard whose activation is one
    command and whatever the scheduler, the plugins and the refresh manager
    (within their interfaces), in every reachable state each request of the
    active buffer still finds the row that was opened for it: its next command is
    its final command; no bank has two such requests, and the per-bank occupancy
    counters are exact. *)
Theorem active_rows_protected (T : Standard) {R G : Type} (IR : RefreshManager R) (IG : ControllerPlugin G)
  (LR : RefreshServes T R) (LG : PluginLaws (serviceable T) G)
  (apply : Request -> result Request) (LA : AddrMapperLaws apply) (sch : scheduler_t) (LS : SchedulerLaws sch)
  (cfg : CtrlConfig) (c : Ctrl) (channel cores : Z) (rf : R) (pl : list G) (g : GenericDDR R OpenRowPolicy G) :
  T ∈ registry -> std_name T = dram_impl cfg -> split_act T = false -> init_base cfg = Ok c ->
  spec_wfb (m_spec (m_device c)) = true -> org_wfb (m_spec (m_device c)) = true ->
  serves T (m_device (fresh_ctrl c channel cores)) rf ->
  rtc (served_step T apply sch) (mkGDDR (fresh_ctrl c channel cores) rf mkOpen pl) g ->
  let k := g_ctrl g in
  (forall r, r ∈ buffer (m_active_buffer k) ->
     ctrl_get_preq_command k (final_command r) (addr_vec r) = Ok (final_command r) /\
     exists i, get_flat_bank_id (m_device k) (addr_vec r) = Ok (Z.of_nat i) /\ active_on k i = 1%nat) /\
  forall i n, m_active_per_bank k !! i = Some n -> n = Z.of_nat (active_on k i) /\ n <= 1.
Proof.
  intros Hin Hname Hns Hi Hs Ho Hsv Hr k. assert (std_okb T = true) as Hok by (by apply registry_std_ok).
  destruct (served_reach_prot T Hok Hns apply sch _ _ Hr) as [Hp _].
  { split; [by eapply fresh_prot|done]. }
  split; [intros r Hra; by apply (prot_ready T Hok)|]. intros i n Hn.
  pose proof (proj2 (pr_counts T _ Hp) i n Hn) as E. pose proof (pr_one T _ Hp i). split; [done|]. unfold k in *. lia.
Qed.

(** The small controller with all-bank refresh, after one read was offered and
    its row opened. *)
Definition small_fresh : Ctrl := fresh_ctrl small_ctrl 0 1.
Definition small_refresh : AllBankRefresh :=
  match AllBank_init small_fresh (-1) with Ok ab => ab | Err _ => mkAllBank 0 0 0 false [] [] end.
Definition served_start : GenericDDR AllBankRefresh OpenRowPolicy Empty_set :=
  mkGDDR small_fresh small_refresh mkOpen [].
Definition served_offer : result (bool * Request * Ctrl) := send keep_vec small_fresh (access Read 1 1 0 1 5 0).
Definition served_one : GenericDDR AllBankRefresh OpenRowPolicy Empty_set :=
  match served_offer with Ok q => mkGDDR q.2 small_refresh mkOpen [] | Err _ => served_start end.
Definition served_two : GenericDDR AllBankRefresh OpenRowPolicy Empty_set :=
  match tick FRFCFS served_one with Ok g => g | Err _ => served_start end.

Lemma small_refresh_init : AllBank_init small_fresh (-1) = Ok small_refresh.
Proof. vm_compute. reflexivity. Qed.

Lemma small_dev_of : dev_of DDR4 (m_device small_fresh).
Proof.
  apply (pr_dev DDR4), (fresh_prot DDR4 ddr4_ok small_ctrl_cfg);
    [apply list_elem_of_In; right; left; reflexivity|reflexivity|exact small_init|vm_compute; reflexivity..].
Qed.

Lemma served_reach : rtc (served_step DDR4 keep_vec FRFCFS) served_start served_two.
Proof.
  assert (served_step DDR4 keep_vec FRFCFS served_start served_one) as H1.
  { refine (served_send DDR4 keep_vec FRFCFS served_start (access Read 1 1 0 1 5 0)
              (match served_offer with Ok q => q.1.2 | Err _ => Request_default end) true (g_ctrl served_one) _ _).
    - vm_compute. reflexivity.
    - exists "RD". split; [split_and!; [vm_compute; reflexivity|apply (bool_decide_unpack _); by vm_compute|by vm_compute]|].
      split; [apply addressed_single; vm_compute; reflexivity|apply av_okb_sound; vm_compute; reflexivity]. }
  assert (served_step DDR4 keep_vec FRFCFS served_one served_two) as H2.
  { apply served_tick. vm_compute. reflexivity. }
  by eapply rtc_l, rtc_once.
Qed.

Lemma active_rows_protected_witness :
  let k := g_ctrl served_two in
  buf_size (m_active_buffer k) = 1 /\
  (forall r, r ∈ buffer (m_active_buffer k) ->
     ctrl_get_preq_command k (final_command r) (addr_vec r) = Ok (final_command r) /\
     exists i, get_flat_bank_id (m_device k) (addr_vec r) = Ok (Z.of_nat i) /\ active_on k i = 1%nat) /\
  forall i n, m_active_per_bank k !! i = Some n -> n = Z.of_nat (active_on k i) /\ n <= 1.
Proof.
  split; [vm_compute; reflexivity|].
  apply (active_rows_protected DDR4 AllBankRefresh_tick no_plugin (AllBankRefresh_serves DDR4 ddr4_ok)
           (no_plugin_laws _) keep_vec _ FRFCFS _ small_ctrl_cfg small_ctrl 0 1 small_refresh []);
    [apply list_elem_of_In; right; left; reflexivity|reflexivity|vm_compute; reflexivity|exact small_init
    |vm_compute; reflexivity|vm_compute; reflexivity|exact (AllBank_init_ok DDR4 ddr4_ok _ _ _ small_dev_of small_refresh_init)
    |exact served_reach].
Defined.

(** ** The closed-row policy *)

(** The small device with DDR4's auto-precharge commands and a read-to-write
    turnaround longer than the column-to-column delay. *)
Definition cap_cfg : DramConfig :=
  mkConfig 64 None 8 [1; 2; 2; 2; 64; 1024] (cfg_timing small_cfg) None 14
    [ mkRow 1 [0] [0] 4 None None None;
      mkRow 1 [3; 5] [4; 6] 12 None None None;
      mkRow 2 [3; 4; 5; 6] [3; 4; 5; 6] 6 None None None;
      mkRow 3 [0] [3; 4; 5; 6] 10 None None None;
      mkRow 3 [0] [1] 25 None None None;
      mkRow 3 [1] [0] 10 None None None;
      mkRow 3 [3] [1] 6 None None None;
      mkRow 3 [5] [0] 16 None None None ].

Definition cap_ctrl : Ctrl :=
  match init_base (mkCtrlConfig f32_0_2 f32_0_8 32 32 1568 "DDR4" cap_cfg) with
  | Ok c => fresh_ctrl c 0 1
  | Err _ => empty_ctrl
  end.

Definition cap_policy : ClosedCAP :=
  match ClosedCAP_init cap_ctrl 1 with Ok p => p | Err _ => mkCAP 0 0 0 0 0 0 false [] [] end.

Definition cap_start : GenericDDR NoRefresh ClosedCAP Empty_set := mkGDDR cap_ctrl mkNoRefresh cap_policy [].

(** A read of another bank, a write whose row is opened, then two reads of that row. *)
Definition cap_stimuli (n : nat) : list stimulus :=
  [Offer (access Read 1 0 1 0 9 0); Edge; Offer (access Write 2 0 0 0 5 0)] ++ replicate 4 Edge ++
  [Offer (access Read 3 0 0 0 5 1); Offer (access Read 4 0 0 0 5 2)] ++ replicate n Edge.

Definition cap_after (n : nat) : GenericDDR NoRefresh ClosedCAP Empty_set :=
  match run keep_vec FRFCFS cap_start (cap_stimuli n) with Ok g => g | Err _ => cap_start end.

(** The protection of active rows fails for the closed-row policy: its upgrade of a
    column command to auto-precharge comes after the check against active
    requests, so in a reachable state the write of the active buffer has lost its
    row (its next command is an activation, not its write), and once it is served
    the counter of its bank stays at 1 although no request is active. *)
Theorem closed_cap_closes_active :
  exists g1 g2 w, rtc (gstep keep_vec FRFCFS) cap_start g1 /\ rtc (gstep keep_vec FRFCFS) g1 g2 /\
    buffer (m_active_buffer (g_ctrl g1)) = [w] /\ final_command w = T_cmd DDR4 "WR" /\
    ctrl_get_preq_command (g_ctrl g1) (final_command w) (addr_vec w) = Ok (T_cmd DDR4 "ACT") /\
    buffer (m_active_buffer (g_ctrl g2)) = [] /\ m_active_per_bank (g_ctrl g2) !! O = Some 1.
Proof.
  exists (cap_after 16), (cap_after 60).
  exists (default Request_default (buffer (m_active_buffer (g_ctrl (cap_after 16))) !! O)).
  split; [eapply (run_reaches keep_vec FRFCFS _ _ (cap_stimuli 16)); vm_compute; reflexivity|].
  split; [eapply (run_reaches keep_vec FRFCFS _ _ (replicate 44 Edge)); vm_compute; reflexivity|].
  split_and!; vm_compute; reflexivity.
Qed.
