(* ===== verification/RefreshProps.v ===== *)
(** * Refresh managers: theorems

    When the managers enqueue refreshes in the running controller, and which
    banks their requests cover. *)

From Stdlib Require Import ZArith Lia SpecFloat.
From S2P Require Import Prelude Base Spec Node Timing TimingSpec Commands Standards.
From S2P Require Import Device DeviceFacts BankFSM DeviceProps Examples.
From S2P Require Import Controller Scheduler GenericDDR ControllerFacts ControllerInv Refresh.
From S2P Require Import ControllerProps ActiveInv ActiveProps CtrlExamples.

Local Open Scope Z_scope.

(** ** The clock of the running controller *)
Section clock.
Context {R P G : Type} `{IR : RefreshManager R} `{IP : RowPolicy P} `{IG : ControllerPlugin G}.
Context (Q : Ctrl -> Request -> Prop).
Context `{!RefreshLaws Q R} `{!RowPolicyLaws Q P} `{!PluginLaws Q G}.
Context (sch : scheduler_t) `{!SchedulerLaws sch}.

Lemma sends_clk (c c' : Ctrl) : sends Q c c' -> m_clk c' = m_clk c.
Proof.
  induction 1 as [c|c c1 c2 r ok _ _ Hp _ IH]; [done|]. rewrite IH.
  by destruct (priority_send_frame _ _ _ _ Hp) as (_ & _ & ? & _).
Qed.

Lemma prologue_clk (c : Ctrl) : m_clk (tick_prologue c) = m_clk c + 1.
Proof. unfold tick_prologue, serve_completed_reads. by rewrite (ff_clk _ _ (serve_loop_fin _ _)). Qed.

Lemma advance_clk (c c' : Ctrl) (id : buf_id) (i : nat) : advance_request c id i = Ok c' -> m_clk c' = m_clk c.
Proof.
  unfold advance_request. intros (r & _ & H')%bind_Ok. destruct (_ =? _).
  - apply retire_spec in H' as (r0 & l & _ & ->). unfold retire_effect, run_callback. by repeat case_match.
  - apply bind_Ok in H' as (m & _ & H'). destruct (is_opening m); [|by injection H' as <-].
    unfold promote_to_active in H'. apply bind_Ok in H' as (r0 & _ & H').
    destruct (enqueue _ _) as [[|] b]; [|by injection H' as <-].
    apply bind_Ok in H' as (c1 & (l & ->)%bump_active_frame & H'). injection H' as <-. by destruct (decide _).
Qed.

Lemma serve_candidate_clk (g g' : GenericDDR R P G) (id : buf_id) (i : nat) :
  serve_candidate g id i = Ok g' -> m_clk (g_ctrl g') = m_clk (g_ctrl g) /\ g_refresh g' = g_refresh g.
Proof.
  unfold serve_candidate. intros (c1 & Hi & H)%bind_Ok. apply bind_Ok in H as (r & _ & H).
  apply bind_Ok in H as (p & _ & H). apply bind_Ok in H as ([gs c2] & Hg & H).
  apply bind_Ok in H as (c3 & Ha & H). injection H as <-. simpl in *. split; [|done].
  apply (each_plugin_sends Q) in Hg; [|intros ? ? ? ?; apply plugin_issue_sends].
  rewrite (advance_clk _ _ _ _ Ha), (sends_clk _ _ Hg). apply (issue_candidate_same Q) in Hi. by apply sb_clk.
Qed.

Lemma pre_hooks_clk (g g' : GenericDDR R P G) :
  pre_hooks g = Ok g' -> m_clk (g_ctrl g') = m_clk (g_ctrl g) + 1 /\
  exists c2, refresh_tick (g_refresh g) (tick_prologue (g_ctrl g)) = Ok (g_refresh g', c2).
Proof.
  unfold pre_hooks. intros ([r1 ca] & Ha & H)%bind_Ok. apply bind_Ok in H as ([p1 cb] & Hb & H).
  apply bind_Ok in H as ([gs cc] & Hc & H). injection H as <-. simpl in *. split; [|by exists ca].
  apply (each_plugin_sends Q) in Hc; [|apply plugin_pre_sends]. rewrite (sends_clk _ _ Hc).
  apply pre_schedule_sends in Hb. rewrite (sends_clk _ _ Hb). pose proof (refresh_sends _ _ _ _ Ha) as Ha'.
  by rewrite (sends_clk _ _ Ha'), prologue_clk.
Qed.

Lemma post_hooks_clk (g g' : GenericDDR R P G) :
  post_hooks g = Ok g' -> m_clk (g_ctrl g') = m_clk (g_ctrl g) /\ g_refresh g' = g_refresh g.
Proof.
  unfold post_hooks. intros ([p4 cp] & Hp & H)%bind_Ok. apply bind_Ok in H as ([gs' cq] & Hq & H).
  injection H as <-. simpl in *. apply (each_plugin_sends Q) in Hq; [|apply plugin_post_sends].
  apply post_schedule_sends in Hp. by rewrite (sends_clk _ _ Hq), (sends_clk _ _ Hp).
Qed.

(** A clock edge runs the refresh manager once, at the new clock. *)
Lemma tick_clk (g g' : GenericDDR R P G) :
  tick sch g = Ok g' -> m_clk (g_ctrl g') = m_clk (g_ctrl g) + 1 /\
  exists c2, refresh_tick (g_refresh g) (tick_prologue (g_ctrl g)) = Ok (g_refresh g', c2).
Proof.
  intros H. unfold tick in H. apply bind_Ok in H as (g1 & H1 & H). apply bind_Ok in H as ([c2 k] & H2 & H).
  apply bind_Ok in H as (g3 & H3 & H). simpl in *. destruct (pre_hooks_clk _ _ H1) as [E1 (ca & Ha)].
  destruct (post_hooks_clk _ _ H) as [-> ->]. pose proof (sb_clk _ _ (pick_same sch _ _ _ H2)) as E2.
  assert (m_clk (g_ctrl g3) = m_clk (g_ctrl g) + 1 /\ g_refresh g3 = g_refresh g1) as [-> ->].
  { destruct k as [[id i]|].
    - apply serve_candidate_clk in H3 as [-> ->]. simpl. split; [lia|done].
    - injection H3 as <-. simpl. split; [lia|done]. }
  split; [done|by exists ca].
Qed.

Context (apply : Request -> result Request) `{!AddrMapperLaws apply}.

Lemma send_clk (c c' : Ctrl) (r r' : Request) (ok : bool) : send apply c r = Ok (ok, r', c') -> m_clk c' = m_clk c.
Proof.
  intros H%send_cases; [|done]. destruct H; try done.
  by destruct (run_callback_cases (log_event c e) r') as [->|(e' & ->)].
Qed.

(** An invariant of the manager and the clock holds in every reachable state. *)
Lemma refresh_reach (I : R -> Z -> Prop) (g g' : GenericDDR R P G) :
  (forall r r' c c', I r (m_clk c - 1) -> refresh_tick r c = Ok (r', c') -> I r' (m_clk c)) ->
  rtc (gstep apply sch) g g' -> I (g_refresh g) (m_clk (g_ctrl g)) -> I (g_refresh g') (m_clk (g_ctrl g')).
Proof.
  intros HI. induction 1 as [|g1 g2 g3 Hs _ IH]; [done|]. intros H1. apply IH.
  destruct Hs as [r r' ok c' Hs|r ok c' Ht Hs|g2 Hs]; simpl.
  - by rewrite (send_clk _ _ _ _ _ Hs).
  - by destruct (priority_send_frame _ _ _ _ Hs) as (_ & _ & -> & _).
  - destruct (tick_clk _ _ Hs) as [-> (c2 & Hr)]. rewrite <- prologue_clk. eapply HI; [|exact Hr].
    rewrite prologue_clk. by replace (m_clk (g_ctrl g1) + 1 - 1) with (m_clk (g_ctrl g1)) by lia.
Qed.
End clock.

(** ** All-bank refresh *)

(** The request a manager sends for a node. *)
Definition refresh_of (d : DRAMDevice) (cmd : Z) (p : node_ptr) (r : Request) : Prop :=
  exists av, build_addr_vec d p = Ok av /\ r = Request_cmd av cmd.

(** The phase of the node at a position: its refreshes fall on the clocks that
    agree with it modulo nREFI. *)
Definition phase (ab : AllBankRefresh) (interval : Z) (i : nat) : Z :=
  if ab_scatter_enabled ab then (Z.of_nat i + 1) * interval else 0.

(** The nodes whose refresh falls on clock [t]. *)
Definition due_from (ab : AllBankRefresh) (interval t : Z) (k : nat) (nodes : list node_ptr) : list node_ptr :=
  concat (imap (fun i p => if (t - phase ab interval (k + i)) mod ab_nrefi ab =? 0 then [p] else []) nodes).
Definition due_nodes (ab : AllBankRefresh) (interval t : Z) : list node_ptr :=
  due_from ab interval t 0 (ab_ref_nodes ab).

(** The next refresh with phase [off], seen from clock [t]. *)
Definition next_due (nrefi off t x : Z) : Prop := t < x <= t + nrefi /\ (x - off) mod nrefi = 0.

Lemma next_due_now (nrefi off t x : Z) :
  1 <= nrefi -> next_due nrefi off (t - 1) x -> (t =? x) = ((t - off) mod nrefi =? 0).
Proof.
  intros Hn [Hx Hm]. destruct (Z.eqb_spec t x) as [->|Hne]; [by rewrite Hm|].
  symmetry. apply Z.eqb_neq. intros Ht.
  assert ((x - t) mod nrefi = 0) as Hd.
  { replace (x - t) with ((x - off) - (t - off)) by lia. rewrite Zminus_mod, Hm, Ht. simpl. apply Zmod_0_l. }
  rewrite Z.mod_small in Hd; lia.
Qed.

Lemma next_due_step (nrefi off t x : Z) :
  1 <= nrefi -> next_due nrefi off (t - 1) x -> next_due nrefi off t (if t =? x then x + nrefi else x).
Proof.
  intros Hn [Hx Hm]. destruct (Z.eqb_spec t x) as [->|Hne]; (split; [lia|]); [|done].
  replace (x + nrefi - off) with (x - off + 1 * nrefi) by lia. by rewrite Z_mod_plus_full.
Qed.

(** The state of the manager at clock [t]. *)
Definition ab_sync (interval : Z) (ab : AllBankRefresh) (t : Z) : Prop :=
  1 <= ab_nrefi ab /\
  if ab_scatter_enabled ab
  then length (ab_next_scattered_refresh_cycles ab) = length (ab_ref_nodes ab) /\
       forall i x, ab_next_scattered_refresh_cycles ab !! i = Some x ->
         next_due (ab_nrefi ab) ((Z.of_nat i + 1) * interval) t x
  else next_due (ab_nrefi ab) 0 t (ab_next_refresh_cycle ab).

Definition same_config (ab ab' : AllBankRefresh) : Prop :=
  ab_nrefi ab' = ab_nrefi ab /\ ab_cmd_refab ab' = ab_cmd_refab ab /\
  ab_scatter_enabled ab' = ab_scatter_enabled ab /\ ab_ref_nodes ab' = ab_ref_nodes ab.

Lemma send_refresh_spec (ab : AllBankRefresh) (c c' : Ctrl) (p : node_ptr) :
  send_refresh ab c p = Ok c' ->
  m_clk c' = m_clk c /\ m_device c' = m_device c /\
  exists r, refresh_of (m_device c) (ab_cmd_refab ab) p r /\
    buffer (m_priority_buffer c') = buffer (m_priority_buffer c) ++ [r].
Proof.
  unfold send_refresh. intros (av & Hav & H)%bind_Ok. apply bind_Ok in H as ([[|] c1] & H1 & H); [|done].
  injection H as <-. destruct (priority_send_frame _ _ _ _ H1) as (Ed & _ & Ec & _). split_and!; [done|done|].
  exists (Request_cmd av (ab_cmd_refab ab)). split; [by exists av|]. unfold priority_send in H1.
  destruct (_ || _); [done|]. destruct (enqueue _ _) as [[|] b] eqn:Hq; [|done].
  injection H1 as <-. apply enqueue_true in Hq as [Eb _]. exact Eb.
Qed.

Lemma send_all_spec (ab : AllBankRefresh) (nodes : list node_ptr) (c c' : Ctrl) :
  foldM (send_refresh ab) c nodes = Ok c' ->
  m_clk c' = m_clk c /\ m_device c' = m_device c /\
  exists rs, Forall2 (refresh_of (m_device c) (ab_cmd_refab ab)) nodes rs /\
    buffer (m_priority_buffer c') = buffer (m_priority_buffer c) ++ rs.
Proof.
  revert c. induction nodes as [|p nodes IH]; intros c H; simpl in H.
  { injection H as <-. split_and!; [done|done|]. exists []. by rewrite app_nil_r. }
  apply bind_Ok in H as (c1 & H1 & H). apply send_refresh_spec in H1 as (E1 & E2 & r & Hr & Eb).
  apply IH in H as (E3 & E4 & rs & Hrs & Eb'). rewrite E2 in Hrs. split_and!; [congruence|congruence|].
  exists (r :: rs). split; [by constructor|]. rewrite Eb', Eb, <- app_assoc. done.
Qed.

Lemma due_all (b : bool) (nodes : list node_ptr) :
  concat (imap (fun _ (p : node_ptr) => if b then [p] else []) nodes) = if b then nodes else [].
Proof. induction nodes as [|p nodes IH]; [by destruct b|]. simpl. destruct b; [f_equal|]; exact IH. Qed.

Lemma tick_all_spec (interval : Z) (ab ab' : AllBankRefresh) (c c' : Ctrl) :
  ab_sync interval ab (m_clk c - 1) -> ab_scatter_enabled ab = false -> tick_all_at_once ab c = Ok (ab', c') ->
  ab_sync interval ab' (m_clk c) /\ same_config ab ab' /\
  exists rs, Forall2 (refresh_of (m_device c) (ab_cmd_refab ab)) (due_nodes ab interval (m_clk c)) rs /\
    buffer (m_priority_buffer c') = buffer (m_priority_buffer c) ++ rs.
Proof.
  intros [Hn Hs] Hsc H. rewrite Hsc in Hs. unfold tick_all_at_once in H.
  assert (due_nodes ab interval (m_clk c) = if m_clk c =? ab_next_refresh_cycle ab then ab_ref_nodes ab else []) as ->.
  { rewrite (next_due_now _ _ _ _ Hn Hs). unfold due_nodes, due_from, phase. rewrite Hsc. apply due_all. }
  pose proof (next_due_step _ _ _ _ Hn Hs) as Hs'. destruct (m_clk c =? ab_next_refresh_cycle ab); simpl in H.
  - apply bind_Ok in H as (c1 & H1 & H). injection H as <- <-. apply send_all_spec in H1 as (_ & _ & rs & Hrs & Eb).
    simpl in *. split; [split; [done|]; simpl; by rewrite Hsc|]. split; [done|]. by exists rs.
  - injection H as <- <-. split; [split; [done|]; by rewrite Hsc|]. split; [done|]. exists []. by rewrite app_nil_r.
Qed.

(** One round of the loop over the nodes. *)
Definition scatter_round (s : AllBankRefresh * Ctrl) (i : Z) : result (AllBankRefresh * Ctrl) :=
  let '(ab, c) := s in
  next ← vget (ab_next_scattered_refresh_cycles ab) i;
  if negb (m_clk c =? next) then Ok (ab, c)
  else
    l ← vset (ab_next_scattered_refresh_cycles ab) i (next + ab_nrefi ab);
    let ab := mkAllBank (ab_next_refresh_cycle ab) (ab_cmd_refab ab) (ab_nrefi ab)
                (ab_scatter_enabled ab) (ab_ref_nodes ab) l in
    p ← vget (ab_ref_nodes ab) i;
    c ← send_refresh ab c p;
    Ok (ab, c).

Lemma scatter_round_spec (ab ab' : AllBankRefresh) (c c' : Ctrl) (k : nat) (p : node_ptr) (off : Z) :
  1 <= ab_nrefi ab -> ab_ref_nodes ab !! k = Some p -> scatter_round (ab, c) (Z.of_nat k) = Ok (ab', c') ->
  (forall x, ab_next_scattered_refresh_cycles ab !! k = Some x -> next_due (ab_nrefi ab) off (m_clk c - 1) x) ->
  same_config ab ab' /\ m_clk c' = m_clk c /\ m_device c' = m_device c /\
  (exists x, ab_next_scattered_refresh_cycles ab' = <[k := x]> (ab_next_scattered_refresh_cycles ab) /\
     next_due (ab_nrefi ab) off (m_clk c) x) /\
  exists rs, Forall2 (refresh_of (m_device c) (ab_cmd_refab ab))
      (if (m_clk c - off) mod ab_nrefi ab =? 0 then [p] else []) rs /\
    buffer (m_priority_buffer c') = buffer (m_priority_buffer c) ++ rs.
Proof.
  intros Hn Hp H Hx. simpl in H. apply bind_Ok in H as (x & [_ Hk]%vget_Ok & H). rewrite Nat2Z.id in Hk.
  specialize (Hx x Hk). pose proof (next_due_step _ _ _ _ Hn Hx) as Hstep.
  rewrite <- (next_due_now _ _ _ _ Hn Hx). destruct (m_clk c =? x); simpl in H.
  - apply bind_Ok in H as (l & [_ ->]%vset_Ok & H). rewrite Nat2Z.id in H.
    apply bind_Ok in H as (p' & [_ Hp']%vget_Ok & H). simpl in Hp'. rewrite Nat2Z.id, Hp in Hp'. injection Hp' as <-.
    apply bind_Ok in H as (c1 & H1 & H). injection H as <- <-.
    apply send_refresh_spec in H1 as (E1 & E2 & r & Hr & Eb). simpl in *. split_and!; try done.
    + by exists (x + ab_nrefi ab).
    + exists [r]. split; [by repeat constructor|done].
  - injection H as <- <-. split_and!; try done.
    + exists x. split; [by rewrite list_insert_id|done].
    + exists []. by rewrite app_nil_r.
Qed.

Lemma scatter_fold (interval : Z) (nodes : list node_ptr) (k : nat) (ab ab' : AllBankRefresh) (c c' : Ctrl) :
  1 <= ab_nrefi ab -> ab_scatter_enabled ab = true -> drop k (ab_ref_nodes ab) = nodes ->
  (forall i x, (k <= i)%nat -> ab_next_scattered_refresh_cycles ab !! i = Some x ->
     next_due (ab_nrefi ab) ((Z.of_nat i + 1) * interval) (m_clk c - 1) x) ->
  foldM scatter_round (ab, c) (seqZ (Z.of_nat k) (Z.of_nat (length nodes))) = Ok (ab', c') ->
  same_config ab ab' /\
  length (ab_next_scattered_refresh_cycles ab') = length (ab_next_scattered_refresh_cycles ab) /\
  (forall i x, ab_next_scattered_refresh_cycles ab' !! i = Some x -> (i < k)%nat ->
     ab_next_scattered_refresh_cycles ab !! i = Some x) /\
  (forall i x, (k <= i < k + length nodes)%nat -> ab_next_scattered_refresh_cycles ab' !! i = Some x ->
     next_due (ab_nrefi ab) ((Z.of_nat i + 1) * interval) (m_clk c) x) /\
  exists rs, Forall2 (refresh_of (m_device c) (ab_cmd_refab ab)) (due_from ab interval (m_clk c) k nodes) rs /\
    buffer (m_priority_buffer c') = buffer (m_priority_buffer c) ++ rs.
Proof.
  revert k ab c. induction nodes as [|p nodes IH]; intros k ab c Hn Hsc Hd Hx H.
  { simpl in H. injection H as <- <-. split_and!; try done; [intros i x Hi; simpl in Hi; lia|]. exists []. by rewrite app_nil_r. }
  rewrite seqZ_cons in H by (simpl; lia). simpl length in H.
  replace (Z.pred (Z.of_nat (S (length nodes)))) with (Z.of_nat (length nodes)) in H by lia.
  replace (Z.succ (Z.of_nat k)) with (Z.of_nat (S k)) in H by lia.
  rewrite foldM_cons in H. apply bind_Ok in H as ([ab1 c1] & H1 & H).
  assert (Hp : ab_ref_nodes ab !! k = Some p) by (by rewrite <- (Nat.add_0_r k), <- lookup_drop, Hd).
  destruct (scatter_round_spec ab ab1 c c1 k p ((Z.of_nat k + 1) * interval) Hn Hp H1) as
    ((S1 & S2 & S3 & S4) & Ec & Ed & (x0 & El & Hx0) & rs1 & Hrs1 & Eb1).
  { intros x Hk. by apply Hx. }
  destruct (IH (S k) ab1 c1) as ((U1 & U2 & U3 & U4) & Hl2 & Hlow & Hhigh & rs2 & Hrs2 & Eb2); try done.
  - by rewrite S1.
  - by rewrite S3.
  - rewrite S4. replace (S k) with (k + 1)%nat by lia. rewrite <- drop_drop, Hd. done.
  - intros i x Hi. rewrite El, S1, Ec, list_lookup_insert_ne by lia. apply Hx. lia.
  - rewrite El in Hl2, Hlow. rewrite S1, Ec in Hhigh. split; [split_and!; congruence|].
    split_and!.
    + rewrite Hl2. apply length_insert.
    + intros i x Hi Hlt. specialize (Hlow i x Hi ltac:(lia)). by rewrite list_lookup_insert_ne in Hlow by lia.
    + intros i x Hi Hlk. destruct (decide (i = k)) as [->|Hne]; [|apply Hhigh; [simpl in *; lia|done]].
      specialize (Hlow k x Hlk ltac:(lia)). destruct (decide (k < length (ab_next_scattered_refresh_cycles ab))%nat).
      * rewrite list_lookup_insert_eq in Hlow by done. by simplify_eq.
      * apply lookup_lt_Some in Hlow. rewrite length_insert in Hlow. lia.
    + exists (rs1 ++ rs2). rewrite Ed, S2 in Hrs2. split; [|by rewrite Eb2, Eb1, <- app_assoc].
      unfold due_from. rewrite imap_cons. simpl. apply Forall2_app.
      * unfold phase. rewrite Hsc, Nat.add_0_r. done.
      * unfold due_from, phase in *. rewrite S1, S3, Ec in Hrs2. erewrite imap_ext; [exact Hrs2|].
        intros i q _. simpl. by rewrite <- plus_n_Sm.
Qed.

Lemma all_bank_tick_spec (interval : Z) (ab ab' : AllBankRefresh) (c c' : Ctrl) :
  ab_sync interval ab (m_clk c - 1) -> refresh_tick ab c = Ok (ab', c') ->
  ab_sync interval ab' (m_clk c) /\ same_config ab ab' /\
  exists rs, Forall2 (refresh_of (m_device c) (ab_cmd_refab ab)) (due_nodes ab interval (m_clk c)) rs /\
    buffer (m_priority_buffer c') = buffer (m_priority_buffer c) ++ rs.
Proof.
  intros Hs H. unfold refresh_tick, AllBankRefresh_tick in H. destruct (ab_scatter_enabled ab) eqn:Hsc.
  - destruct Hs as [Hn Hs]. rewrite Hsc in Hs. destruct Hs as [Hl Hx].
    destruct (scatter_fold interval (ab_ref_nodes ab) 0 ab ab' c c' Hn Hsc eq_refl) as (Hcfg & Hl' & _ & Hx' & Hrs).
    { intros i x _. apply Hx. }
    { exact H. }
    pose proof Hcfg as (S1 & S2 & S3 & S4). split; [|done]. split; [by rewrite S1|].
    rewrite S3, Hsc, S4, S1. split; [congruence|]. intros i x Hi. apply Hx'; [|done].
    apply lookup_lt_Some in Hi. lia.
  - by eapply tick_all_spec.
Qed.

Lemma AllBank_init_sync (c : Ctrl) (interval : Z) (ab : AllBankRefresh) :
  AllBank_init c interval = Ok ab -> 1 <= ab_nrefi ab -> ab_sync interval ab 0.
Proof.
  intros H Hn. split; [done|]. unfold AllBank_init in H. apply bind_Ok in H as (sc & _ & H).
  apply bind_Ok in H as (refab & _ & H). apply bind_Ok in H as (lv & _ & H). apply bind_Ok in H as (nr & _ & H).
  destruct (_ =? 0)%nat; [done|]. destruct (Z.ltb_spec 0 interval) as [Hi|Hi]; simpl in H.
  - destruct (Z.ltb_spec nr (interval * Z.of_nat (length (nodes_at_level lv (m_root (m_device c)))))); [done|].
    injection H as <-. simpl in *. split; [by rewrite length_map, length_seqZ, Nat2Z.id|].
    intros i x Hx. apply list_lookup_fmap_Some in Hx as (j & -> & [-> Hlt]%lookup_seqZ). rewrite Z.add_0_l.
    split; [nia|]. by rewrite Z.sub_diag, Zmod_0_l.
  - injection H as <-. simpl in *. split; [lia|]. by rewrite Z.sub_0_r, Z_mod_same_full.
Qed.

(** C23: in the running controller an all-bank manager queues, at every clock edge
    at which it returns (it throws when the priority buffer is full), one refresh
    request for each node whose phase agrees with the new clock modulo nREFI, in
    node order, by appending it to the priority buffer, and nothing else:
    at once for all nodes at the multiples of nREFI, or, scattered, for the i-th node
    at [(i+1) * interval] and every nREFI from there.  No request is skipped or
    repeated; the refresh commands themselves are issued when the requests are
    scheduled. *)
Theorem all_bank_cadence {P G : Type} (IP : RowPolicy P) (IG : ControllerPlugin G)
  (LP : RowPolicyLaws any_request P) (LG : PluginLaws any_request G)
  (apply : Request -> result Request) (LA : AddrMapperLaws apply) (sch : scheduler_t) (LS : SchedulerLaws sch)
  (cfg : CtrlConfig) (c c' : Ctrl) (cores interval : Z) (ab ab' : AllBankRefresh) (rp : P) (pl : list G)
  (g : GenericDDR AllBankRefresh P G) :
  init_base cfg = Ok c -> AllBank_init c interval = Ok ab -> 1 <= ab_nrefi ab ->
  rtc (gstep apply sch) (mkGDDR (setup_base c cores) ab rp pl) g ->
  let k := tick_prologue (g_ctrl g) in
  refresh_tick (g_refresh g) k = Ok (ab', c') ->
  exists rs, Forall2 (refresh_of (m_device k) (ab_cmd_refab ab)) (due_nodes ab interval (m_clk (g_ctrl g) + 1)) rs /\
    buffer (m_priority_buffer c') = buffer (m_priority_buffer k) ++ rs.
Proof.
  intros Hi Hab Hn Hr k H.
  assert (ab_sync interval (g_refresh g) (m_clk (g_ctrl g)) /\ same_config ab (g_refresh g)) as [Hs (S1 & S2 & S3 & S4)].
  { eapply (refresh_reach any_request sch apply (fun r t => ab_sync interval r t /\ same_config ab r) _ _ ltac:(shelve) Hr).
    Unshelve.
    - simpl. unfold init_base in Hi. destruct (_ || _); [done|]. destruct (_ || _) in Hi; [done|].
      apply bind_Ok in Hi as (s & _ & Hi). apply bind_Ok in Hi as (d & _ & Hi). apply bind_Ok in Hi as (t & _ & Hi).
      injection Hi as <-. split; [by eapply AllBank_init_sync|done].
    - intros r r' c0 c1 [H1 (T1 & T2 & T3 & T4)] H2. destruct (all_bank_tick_spec _ _ _ _ _ H1 H2) as (? & (U1 & U2 & U3 & U4) & _).
      split; [done|]. split_and!; congruence. }
  assert (m_clk k = m_clk (g_ctrl g) + 1) as Ek by apply prologue_clk.
  destruct (all_bank_tick_spec interval (g_refresh g) ab' k c') as (_ & _ & rs & Hrs & Eb); [|done|].
  { rewrite Ek. by replace (m_clk (g_ctrl g) + 1 - 1) with (m_clk (g_ctrl g)) by lia. }
  exists rs. split; [|done]. rewrite Ek, S2 in Hrs. unfold due_nodes, due_from, phase in *. by rewrite S1, S3, S4 in Hrs.
Qed.

(** The small controller with scattered refresh, up to the refresh of its second rank. *)
Definition scatter_refresh : AllBankRefresh :=
  match AllBank_init small_ctrl 7 with Ok ab => ab | Err _ => mkAllBank 0 0 0 false [] [] end.
Definition scatter_start : GenericDDR AllBankRefresh OpenRowPolicy Empty_set :=
  mkGDDR (setup_base small_ctrl 1) scatter_refresh mkOpen [].
Definition scatter_before : GenericDDR AllBankRefresh OpenRowPolicy Empty_set :=
  match run keep_vec FRFCFS scatter_start (replicate 13 Edge) with Ok g => g | Err _ => scatter_start end.
Definition scatter_tick : result (AllBankRefresh * Ctrl) :=
  refresh_tick (g_refresh scatter_before) (tick_prologue (g_ctrl scatter_before)).

Lemma all_bank_cadence_witness :
  exists rs, Forall2 (refresh_of (m_device (tick_prologue (g_ctrl scatter_before))) (ab_cmd_refab scatter_refresh))
      [[1%nat]] rs.
Proof.
  destruct scatter_tick as [[ab' c']|] eqn:E; [|by vm_compute in E].
  destruct (all_bank_cadence OpenRowPolicy_hooks no_plugin _ _ keep_vec _ FRFCFS _ small_ctrl_cfg small_ctrl c' 1 7
              scatter_refresh ab' mkOpen [] scatter_before) as (rs & Hrs & _).
  - exact small_init.
  - vm_compute. reflexivity.
  - vm_compute. congruence.
  - eapply (run_reaches keep_vec FRFCFS _ _ (replicate 13 Edge)). vm_compute. reflexivity.
  - exact E.
  - exists rs.
    assert (due_nodes scatter_refresh 7 (m_clk (g_ctrl scatter_before) + 1) = [[1%nat]]) as <- by (vm_compute; reflexivity).
    exact Hrs.
Defined.

(** ** Scope of a refresh *)

(** The request a manager builds for a node reaches, on the device, exactly
    the banks below that node: for each bank, [get_target_banks] of the refresh
    lists it if and only if the node is one of its ancestors. *)
Theorem refresh_covers_node (T : Standard) (d : DRAMDevice) (p : node_ptr) (m : DRAMNode) :
  T ∈ registry -> "REFab" ∈ Command T -> dev_of T d -> node_at (m_root d) p = Some m -> m_level m <= m_bank_level d ->
  exists av ids, build_addr_vec d p = Ok av /\ get_target_banks d (T_cmd T "REFab") av = Ok ids /\
    forall i q, m_bank_nodes d !! i = Some q -> Z.of_nat i ∈ ids <-> p `prefix_of` q.
Proof.
  intros Hin Hn Hd Hm Hl. pose proof (do_wf T d Hd) as Hw. pose proof (registry_std_ok T Hin) as Hok.
  destruct (refab_impl T Hok Hn) as (i & Hi & Ht).
  exists (node_av d p), (timing_targets d (node_av d p)). split_and!.
  - by eapply build_addr_vec_eq.
  - apply get_target_banks_eq; [done|]. by eapply refab_addressed.
  - intros j q Hq. by eapply node_av_targets.
Qed.

Lemma refresh_covers_node_witness :
  exists av ids, build_addr_vec ddr4_dev [1%nat] = Ok av /\
    get_target_banks ddr4_dev (T_cmd DDR4 "REFab") av = Ok ids /\
    forall i q, m_bank_nodes ddr4_dev !! i = Some q -> Z.of_nat i ∈ ids <-> [1%nat] `prefix_of` q.
Proof.
  eapply (refresh_covers_node DDR4 ddr4_dev [1%nat]);
    [apply list_elem_of_In; right; left; reflexivity|apply (bool_decide_unpack _); by vm_compute|exact ddr4_dev_of
    |vm_compute; reflexivity|vm_compute; congruence].
Defined.

(** The all-bank manager has no scope for the two standards with victim-row
    refresh, although both define REFab: initialising it always throws. *)
Theorem all_bank_rejects_vrr (T : Standard) (cfg : DramConfig) (c : Ctrl) (interval : Z) :
  T ∈ [DDR4_VRR; DDR5_VRR] -> construct T cfg = Ok (m_spec (m_device c)) ->
  "REFab" ∈ Command T /\
  AllBank_init c interval =
    Err (Throw ("AllBank refresh: no default scope for DRAM standard '" +:+ std_name T +:+ "'")).
Proof.
  intros HT Hc. split.
  { apply elem_of_cons in HT as [->|HT]; [|apply list_elem_of_singleton in HT as ->];
      apply (bool_decide_unpack _); by vm_compute. }
  assert (standard_name (m_spec (m_device c)) = std_name T) as E.
  { unfold construct, load_config in Hc. simpl in Hc. apply bind_Ok in Hc as (ch & _ & Hc).
    destruct (negb _); [done|]. apply bind_Ok in Hc as (tc & _ & Hc). by injection Hc as <-. }
  unfold AllBank_init, all_bank_refresh_scope_for. rewrite E.
  apply elem_of_cons in HT as [->|HT]; [|apply list_elem_of_singleton in HT as ->]; done.
Qed.

Definition vrr_cfg : DramConfig := mkConfig 64 None 8 [1; 2; 2; 2; 64; 1024] [] None 22 [].
Definition vrr_ctrl : Ctrl :=
  set_device empty_ctrl (mkDevice (spec_or (construct DDR4_VRR vrr_cfg)) ddr4_root [] 0).

Lemma all_bank_rejects_vrr_witness :
  "REFab" ∈ Command DDR4_VRR /\
  AllBank_init vrr_ctrl (-1) =
    Err (Throw ("AllBank refresh: no default scope for DRAM standard '" +:+ std_name DDR4_VRR +:+ "'")).
Proof.
  apply (all_bank_rejects_vrr DDR4_VRR vrr_cfg vrr_ctrl (-1)); [by left|vm_compute; reflexivity].
Defined.
