(* ===== verification/Mapping.v ===== *)
(** * Address and channel mapping

    [controller/addr_mapper], [memory_system/channel_mapper]: from a flat address
    to a channel, an address inside the channel and a coordinate per level of the
    device. *)

From Stdlib Require Import ZArith Lia.
From stdpp Require Import pretty.
From S2P Require Import Prelude Base Spec Node Device.

Local Open Scope Z_scope.

(** ** Address mappers *)

(** [AddrMapperBase]. *)
Record AddrMapperBase := mkMapper {
  m_num_mapped_levels : Z;
  m_addr_bits : list Z;
  m_tx_offset : Z;
  m_row_idx : Z;
  m_col_idx : Z
}.

Definition level_bits (name : string) (s : DRAMSpec) (i : Z) : result Z :=
  count ← vget (level_sizes (organization s)) (i + 1);
  if (count <=? 0) || not_pow2 count then
    level ← vget (level_names s) (i + 1);
    Err (Throw (name +:+ ": " +:+ level +:+ " count " +:+ pretty count +:+
           " is currently unsupported; expected a positive power of two"))
  else calc_log2 count.

(** [name] is the registered name of the mapper, for its messages. *)
Definition AddrMapperBase_init (name : string) (s : DRAMSpec) : result AddrMapperBase :=
  let n := level_count s - 1 in
  bits ← mapM (level_bits name s) (seqZ 0 n);
  let prefetch := internal_prefetch_size s in
  if (prefetch <=? 0) || not_pow2 prefetch then
    Err (Throw (name +:+ ": internal prefetch size " +:+ pretty prefetch +:+
           " is currently unsupported; expected a positive power of two"))
  else
    column_count ← get_level_size s "Column";
    if (column_count <? prefetch) || negb (Z.rem column_count prefetch =? 0) then
      Err (Throw (name +:+ ": Column count " +:+ pretty column_count +:+
             " is currently unsupported; expected a positive multiple of internal prefetch size " +:+ pretty prefetch))
    else
      lp ← calc_log2 prefetch;
      last ← vget bits (n - 1);
      bits ← vset bits (n - 1) (last - lp);
      tx ← calc_log2 (get_tx_bytes s);
      row ← get_level_id s "Row";
      Ok (mkMapper n bits tx (row - 1) (level_count s - 2)).

(** [addr_vec[i + 1] = slice_lower_bits(addr, m_addr_bits[i])]. *)
Definition slice_level (m : AddrMapperBase) (st : AddrVec_t * Addr_t) (i : Z) : result (AddrVec_t * Addr_t) :=
  b ← vget (m_addr_bits m) i;
  x ← slice_lower_bits st.2 b;
  av ← vset st.1 (i + 1) x.1;
  Ok (av, x.2).

(** The vector resized to one entry per level, and the transaction number. *)
Definition start_vec (m : AddrMapperBase) (r : Request) : AddrVec_t :=
  resize (Z.to_nat (m_num_mapped_levels m + 1)) (-1) (addr_vec r).
Definition tx_number (m : AddrMapperBase) (r : Request) : Addr_t :=
  Z.shiftr (intra_channel_addr r) (m_tx_offset m).

Definition ChRaBaRoCo_apply (m : AddrMapperBase) (r : Request) : result Request :=
  st ← foldM (slice_level m) (start_vec m r, tx_number m r) (reverse (seqZ 0 (m_num_mapped_levels m)));
  Ok (set_addr_vec r st.1).

Definition RoBaRaCoCh_apply (m : AddrMapperBase) (r : Request) : result Request :=
  st ← slice_level m (start_vec m r, tx_number m r) (m_col_idx m);
  st ← foldM (slice_level m) st (seqZ 0 (m_row_idx m + 1));
  Ok (set_addr_vec r st.1).

Definition MOP4CLXOR_init (s : DRAMSpec) : result AddrMapperBase :=
  m ← AddrMapperBase_init "MOP4CLXOR" s;
  b ← vget (m_addr_bits m) (m_col_idx m);
  if b <? 2 then Err (Throw "MOP4CLXOR requires at least two post-prefetch column address bits") else Ok m.

(** One round of the loop that mixes column bits into the other coordinates. *)
Definition xor_level (m : AddrMapperBase) (st : AddrVec_t * Z) (i : Z) : result (AddrVec_t * Z) :=
  let '(av, row_xor_index) := st in
  b ← vget (m_addr_bits m) i;
  if 0 <? b then
    col ← vget av (m_col_idx m + 1);
    x ← vget av (i + 1);
    if (30 <? b) || (31 <? row_xor_index) then Err Undef
    else
      let mask := Z.land (Z.shiftr col row_xor_index) (Z.shiftl 1 b - 1) in
      av ← vset av (i + 1) (Z.lxor x mask);
      Ok (av, row_xor_index + b)
  else Ok (av, row_xor_index).

Definition MOP4CLXOR_apply (m : AddrMapperBase) (r : Request) : result Request :=
  lo ← slice_lower_bits (tx_number m r) 2;
  av ← vset (start_vec m r) (m_col_idx m + 1) lo.1;
  st ← foldM (slice_level m) (av, lo.2) (seqZ 0 (m_row_idx m));
  cb ← vget (m_addr_bits m) (m_col_idx m);
  hi ← slice_lower_bits st.2 (cb - 2);
  c0 ← vget st.1 (m_col_idx m + 1);
  av ← vset st.1 (m_col_idx m + 1) (c0 + Z.shiftl hi.1 2);
  av ← vset av (m_row_idx m + 1) (wrap_s 32 hi.2);
  q ← foldM (xor_level m) (av, 0) (seqZ 0 (m_col_idx m));
  Ok (set_addr_vec r q.1).

(** The address vector was populated by the frontend. *)
Definition PassThrough_apply (r : Request) : result Request := Ok r.

(** ** The row indirection table *)
Record RITEntry := mkRIT { swapped_row : Z; rit_locked : bool }.

Record RITAddrMapper := mkRITMapper {
  rit_row_idx : Z;
  rit_reserved : Z;
  rit_num_rows : Z;
  m_rit : list (gmap Z RITEntry);
  rit_max_entries : Z;
  rit_initialized : bool
}.

Definition set_rit (m : RITAddrMapper) (t : list (gmap Z RITEntry)) : RITAddrMapper :=
  mkRITMapper (rit_row_idx m) (rit_reserved m) (rit_num_rows m) t (rit_max_entries m) (rit_initialized m).

Definition RIT_init (s : DRAMSpec) (reserved : Z) : result RITAddrMapper :=
  if reserved <? 0 then Err (Throw "RITAddrMapper: reserved_rows_per_bank must be non-negative")
  else
    row ← get_level_id s "Row";
    rows ← get_level_size s "Row";
    if rows <=? reserved then
      Err (Throw ("RITAddrMapper: reserved_rows_per_bank (" +:+ pretty reserved +:+
             ") must be less than num_rows_per_bank (" +:+ pretty rows +:+ ")"))
    else Ok (mkRITMapper (row - 1) reserved rows [] 0 false).

(** The redirected row of a bank. *)
Definition rit_row (t : gmap Z RITEntry) (row : Z) : Z :=
  match t !! row with Some e => swapped_row e | None => row end.

Definition RIT_apply (base : Request -> result Request) (m : RITAddrMapper) (d : DRAMDevice) (r : Request)
  : result Request :=
  r ← base r;
  r ← (if rit_initialized m then
         bank ← get_flat_bank_id d (addr_vec r);
         row ← vget (addr_vec r) (rit_row_idx m + 1);
         t ← vget (m_rit m) bank;
         av ← vset (addr_vec r) (rit_row_idx m + 1) (rit_row t row);
         Ok (set_addr_vec r av)
       else Ok r);
  if 0 <? rit_reserved m then
    row ← vget (addr_vec r) (rit_row_idx m + 1);
    if rit_num_rows m <=? row + rit_reserved m then
      Err (Throw ("RITAddrMapper: workload row " +:+ pretty row +:+ " + reserved_rows_per_bank " +:+
             pretty (rit_reserved m) +:+ " = " +:+ pretty (row + rit_reserved m) +:+
             " exceeds num_rows_per_bank " +:+ pretty (rit_num_rows m) +:+
             ". Reduce workload row range or shrink the reserved region."))
    else
      av ← vset (addr_vec r) (rit_row_idx m + 1) (row + rit_reserved m);
      Ok (set_addr_vec r av)
  else Ok r.

Definition init_rit (m : RITAddrMapper) (num_banks max_entries : Z) : RITAddrMapper :=
  mkRITMapper (rit_row_idx m) (rit_reserved m) (rit_num_rows m)
    (replicate (Z.to_nat num_banks) ∅) max_entries true.

Definition check_rit (m : RITAddrMapper) (bank row : Z) : result Z :=
  t ← vget (m_rit m) bank; Ok (match t !! row with Some e => swapped_row e | None => -1 end).
Definition is_rit_locked (m : RITAddrMapper) (bank row : Z) : result bool :=
  t ← vget (m_rit m) bank; Ok (match t !! row with Some e => rit_locked e | None => false end).
Definition is_rit_full (m : RITAddrMapper) (bank : Z) : result bool :=
  t ← vget (m_rit m) bank; Ok (rit_max_entries m * 2 <=? Z.of_nat (size t)).
Definition insert_entry (m : RITAddrMapper) (bank src dst : Z) : result RITAddrMapper :=
  t ← vget (m_rit m) bank;
  l ← vset (m_rit m) bank (<[dst := mkRIT src true]> (<[src := mkRIT dst true]> t));
  Ok (set_rit m l).
Definition remove_entry (m : RITAddrMapper) (bank src dst : Z) : result RITAddrMapper :=
  t ← vget (m_rit m) bank;
  l ← vset (m_rit m) bank (delete dst (delete src t));
  Ok (set_rit m l).
Definition rit_unlock (m : RITAddrMapper) : RITAddrMapper :=
  set_rit m (map (fmap (fun e => mkRIT (swapped_row e) false)) (m_rit m)).

(** ** Channel mappers *)

(** Shifting out the channel bits. *)
Definition drop_channel_bits (a shift width : Z) : Addr_t :=
  Z.lor (Z.shiftl (Z.shiftr a (shift + width)) shift) (Z.land a (Z.shiftl 1 shift - 1)).

(** [addr_vec[0] = c], after a resize to one entry when the vector is empty. *)
Definition set_channel_coord (r : Request) (c : Z) : result Request :=
  let av := if (length (addr_vec r) =? 0)%nat then [-1] else addr_vec r in
  av ← vset av 0 c;
  Ok (set_addr_vec r av).

Record Interleave := mkInterleave { il_num_channels : Z; il_ch_shift : Z; il_ch_width : Z }.

Definition CacheLineInterleave_setup (interleave_bits num_channels tx_offset : Z) : result Interleave :=
  if (1 <? num_channels) && not_pow2 num_channels then
    Err (Throw ("CacheLineInterleave requires a power-of-two channel count, got " +:+ pretty num_channels))
  else
    w ← calc_log2 num_channels;
    Ok (mkInterleave num_channels (tx_offset + interleave_bits) w).

Definition CacheLineInterleave_apply (m : Interleave) (r : Request) : result Request :=
  if il_num_channels m <=? 1 then
    r ← set_channel_coord r 0;
    Ok (set_intra_channel_addr r (addr r))
  else if negb ((0 <=? il_ch_shift m) && (il_ch_shift m <=? 62) && (il_ch_shift m + il_ch_width m <=? 63) &&
                (il_ch_width m <=? 30)) then Err Undef
  else
    r ← set_channel_coord r (Z.land (Z.shiftr (addr r) (il_ch_shift m)) (Z.shiftl 1 (il_ch_width m) - 1));
    Ok (set_intra_channel_addr r (drop_channel_bits (addr r) (il_ch_shift m) (il_ch_width m))).

Definition Gem5PortInterleave_setup (interleave_size num_channels tx_offset : Z) : result Interleave :=
  if num_channels <=? 0 then
    Err (Throw ("Gem5PortInterleave requires a positive channel count, got " +:+ pretty num_channels))
  else if not_pow2 num_channels then
    Err (Throw ("Gem5PortInterleave requires a power-of-two channel count, got " +:+ pretty num_channels))
  else if (interleave_size <=? 0) || not_pow2 interleave_size then
    Err (Throw ("Gem5PortInterleave requires power-of-two interleave_size, got " +:+ pretty interleave_size))
  else if interleave_size <? Z.shiftl 1 tx_offset then
    Err (Throw ("Gem5PortInterleave interleave_size (" +:+ pretty interleave_size +:+
           ") must be at least one Ramulator transaction (" +:+ pretty (Z.shiftl 1 tx_offset) +:+ ")"))
  else
    sh ← calc_log2 interleave_size;
    w ← calc_log2 num_channels;
    Ok (mkInterleave num_channels sh w).

Definition Gem5PortInterleave_apply (m : Interleave) (r : Request) : result Request :=
  r ← set_channel_coord r (ingress_id r);
  Ok (set_intra_channel_addr r
        (if il_num_channels m =? 1 then addr r
         else drop_channel_bits (addr r) (il_ch_shift m) (il_ch_width m))).

Definition PassThroughChannel_apply (r : Request) : result Request :=
  let av := match addr_vec r with [] => [0] | c :: l => (if c <? 0 then 0 else c) :: l end in
  Ok (set_intra_channel_addr (set_addr_vec r av) (addr r)).
