(* ===== verification/MappingProps.v ===== *)
(** * Address mapping: facts and theorems

    Mixed-radix decomposition by slicing, the XOR mixing of MOP4CLXOR, and the
    invariant of an initialised mapper; then the bijection theorems of the mappers. *)

From Stdlib Require Import ZArith Lia.
From S2P Require Import Prelude Base Spec Node Device Mapping Standards Commands Examples.

Local Open Scope Z_scope.

(** ** Slicing *)

Definition bit (m : AddrMapperBase) (i : Z) : Z := match vget (m_addr_bits m) i with Ok b => b | Err _ => 0 end.
Definition coord (av : AddrVec_t) (l : Z) : Z := match vget av l with Ok x => x | Err _ => -1 end.

(** The number whose digits, from the least significant, are the coordinates of
    the levels of [is]. *)
Fixpoint join (m : AddrMapperBase) (ls : list Z) (av : AddrVec_t) : Z :=
  match ls with [] => 0 | i :: ls => coord av (i + 1) + 2 ^ bit m i * join m ls av end.
Fixpoint width (m : AddrMapperBase) (ls : list Z) : Z :=
  match ls with [] => 0 | i :: ls => bit m i + width m ls end.

(** A level that can be sliced into the vector. *)
Definition slot_ok (m : AddrMapperBase) (n : nat) (i : Z) : Prop :=
  0 <= i /\ i + 1 < Z.of_nat n /\ exists b, vget (m_addr_bits m) i = Ok b /\ 0 <= b <= 30.

Definition digit_ok (m : AddrMapperBase) (av : AddrVec_t) (i : Z) : Prop :=
  is_ok (vget av (i + 1)) /\ 0 <= coord av (i + 1) < 2 ^ bit m i.

Lemma slot_bit (m : AddrMapperBase) (n : nat) (i : Z) : slot_ok m n i -> vget (m_addr_bits m) i = Ok (bit m i) /\ 0 <= bit m i <= 30.
Proof. intros (_ & _ & b & Hb & Hr). unfold bit. by rewrite Hb. Qed.

Lemma vset_coord (av av' : AddrVec_t) (l x : Z) :
  vset av l x = Ok av' -> length av' = length av /\ vget av' l = Ok x /\
  forall l', l' <> l -> vget av' l' = vget av l'.
Proof.
  intros [Hr ->]%vset_Ok. split_and!; [apply length_insert| |].
  - apply vget_Ok. split; [lia|]. apply list_lookup_insert_eq. lia.
  - intros l' Hne. unfold vget. destruct (Z.ltb_spec l' 0); [done|]. by rewrite list_lookup_insert_ne by lia.
Qed.

Lemma join_ext (m : AddrMapperBase) (ls : list Z) (av av' : AddrVec_t) :
  (forall i, i ∈ ls -> vget av' (i + 1) = vget av (i + 1)) -> join m ls av' = join m ls av.
Proof.
  intros H. induction ls as [|i ls IH]; simpl; [done|]. unfold coord at 1 2. rewrite H by (by left).
  rewrite IH; [done|]. intros j Hj. apply H. by right.
Qed.

Lemma width_nonneg (m : AddrMapperBase) (n : nat) (ls : list Z) : Forall (slot_ok m n) ls -> 0 <= width m ls.
Proof. induction 1 as [|i ls Hi _ IH]; simpl; [lia|]. pose proof (slot_bit _ _ _ Hi). lia. Qed.

(** The slicing loop: total, local, in range, and a decomposition of the number. *)
Lemma slice_fold (m : AddrMapperBase) (ls : list Z) (av : AddrVec_t) (a : Z) :
  NoDup ls -> Forall (slot_ok m (length av)) ls ->
  exists av' a', foldM (slice_level m) (av, a) ls = Ok (av', a') /\ length av' = length av /\
    (forall l, l - 1 ∉ ls -> vget av' l = vget av l) /\ Forall (digit_ok m av') ls /\
    a = join m ls av' + 2 ^ width m ls * a'.
Proof.
  intros Hnd. revert av a. induction Hnd as [|i ls Hi Hnd IH]; intros av a Hok.
  { exists av, a. split_and!; try done. simpl. lia. }
  apply Forall_cons in Hok as [Hsi Hok]. pose proof (slot_bit _ _ _ Hsi) as [Hb Hbr].
  destruct Hsi as (Hi0 & Hlen & _). destruct (vset_total av (i + 1) (a mod 2 ^ bit m i)) as [av1 H1]; [lia|].
  destruct (vset_coord _ _ _ _ H1) as (El & Hx & Hframe).
  destruct (IH av1 (a / 2 ^ bit m i)) as (av' & a' & Hf & El' & Hframe' & Hd & Ej); [by rewrite El|].
  exists av', a'. assert (Hxi : vget av' (i + 1) = Ok (a mod 2 ^ bit m i)).
  { rewrite Hframe'; [done|]. by replace (i + 1 - 1) with i by lia. }
  assert (0 < 2 ^ bit m i) as Hp by (apply pow2_pos; lia).
  split_and!.
  - assert (slice_level m (av, a) i = Ok (av1, a / 2 ^ bit m i)) as Hstep.
    { unfold slice_level. rewrite Hb. simpl. rewrite slice_lower_bits_spec by lia. simpl. by rewrite H1. }
    rewrite foldM_cons, Hstep. exact Hf.
  - congruence.
  - intros l Hl. rewrite Hframe'; [apply Hframe; intros ->; apply Hl|intros Hin; apply Hl; by right].
    apply elem_of_cons. left. lia.
  - constructor; [|done]. split; [by eexists|]. unfold coord. rewrite Hxi. apply Z.mod_pos_bound. lia.
  - simpl. unfold coord at 1. rewrite Hxi. rewrite Z.pow_add_r; [|lia|by eapply width_nonneg].
    rewrite (Z.div_mod a (2 ^ bit m i)) at 1 by lia. rewrite Ej at 1. ring.
Qed.

(** Digits determine the number below the radix. *)
Lemma join_bound (m : AddrMapperBase) (n : nat) (ls : list Z) (av : AddrVec_t) :
  Forall (slot_ok m n) ls -> Forall (digit_ok m av) ls -> 0 <= join m ls av < 2 ^ width m ls.
Proof.
  induction 1 as [|i ls Hi Hs IH]; intros Hd; simpl; [lia|]. apply Forall_cons in Hd as [[_ Hx] Hd].
  pose proof (slot_bit _ _ _ Hi) as [_ Hb]. specialize (IH Hd).
  rewrite Z.pow_add_r by (try lia; by eapply width_nonneg). nia.
Qed.

Lemma join_mod (m : AddrMapperBase) (n : nat) (ls : list Z) (av : AddrVec_t) (a a' : Z) :
  Forall (slot_ok m n) ls -> Forall (digit_ok m av) ls ->
  a = join m ls av + 2 ^ width m ls * a' -> join m ls av = a mod 2 ^ width m ls /\ a' = a / 2 ^ width m ls.
Proof.
  intros Hs Hd E. pose proof (join_bound m n ls av Hs Hd) as Hj. split.
  - apply (Z.mod_unique_pos a _ a'); lia.
  - apply (Z.div_unique_pos a _ _ (join m ls av)); lia.
Qed.

(** ** The XOR loop *)
Lemma lxor_bound (x y b : Z) : 0 <= b -> 0 <= x < 2 ^ b -> 0 <= y < 2 ^ b -> 0 <= Z.lxor x y < 2 ^ b.
Proof.
  intros Hb Hx Hy. split; [apply Z.lxor_nonneg; lia|].
  destruct (Z.eq_dec (Z.lxor x y) 0) as [->|Hne]; [by apply pow2_pos|].
  assert (0 < Z.lxor x y) by (pose proof (proj2 (Z.lxor_nonneg x y)); lia).
  apply Z.log2_lt_pow2; [done|]. pose proof (Z.log2_lxor x y ltac:(lia) ltac:(lia)) as Hl.
  assert (forall z, 0 <= z < 2 ^ b -> Z.log2 z < b \/ z = 0) as Hz.
  { intros z Hz. destruct (Z.eq_dec z 0); [by right|left]. apply Z.log2_lt_pow2; lia. }
  assert (0 < b) as Hb0.
  { destruct (Z.eq_dec b 0) as [->|]; [|lia]. assert (x = 0 /\ y = 0) as [-> ->] by (simpl in *; lia). done. }
  destruct (Hz x Hx) as [|Ex], (Hz y Hy) as [|Ey]; subst; simpl in *; lia.
Qed.

Lemma xor_level_eq (m : AddrMapperBase) (av : AddrVec_t) (k i b col x : Z) :
  vget (m_addr_bits m) i = Ok b -> vget av (m_col_idx m + 1) = Ok col -> vget av (i + 1) = Ok x ->
  b <= 30 -> k <= 31 ->
  xor_level m (av, k) i =
    if 0 <? b then av' ← vset av (i + 1) (Z.lxor x (Z.land (Z.shiftr col k) (Z.shiftl 1 b - 1))); Ok (av', k + b)
    else Ok (av, k).
Proof.
  intros Hb Hc Hx Hb30 Hk. unfold xor_level. rewrite Hb. simpl. rewrite Hc, Hx. simpl.
  destruct (Z.ltb_spec 30 b); [lia|]. destruct (Z.ltb_spec 31 k); [lia|]. done.
Qed.

Lemma xor_fold (m : AddrMapperBase) (ls : list Z) (av : AddrVec_t) (k : Z) :
  NoDup ls -> Forall (slot_ok m (length av)) ls -> Forall (digit_ok m av) ls -> m_col_idx m ∉ ls ->
  is_ok (vget av (m_col_idx m + 1)) -> 0 <= k ->
  (forall pre i suf, ls = pre ++ i :: suf -> k + width m pre <= 31) ->
  exists av' k', foldM (xor_level m) (av, k) ls = Ok (av', k') /\ length av' = length av /\
    (forall l, l - 1 ∉ ls -> vget av' l = vget av l) /\ Forall (digit_ok m av') ls.
Proof.
  intros Hnd. revert av k. induction Hnd as [|i ls Hi Hnd IH]; intros av k Hs Hd Hc [col Hcol] Hk Hw.
  { by exists av, k. }
  apply Forall_cons in Hs as [Hsi Hs]. apply Forall_cons in Hd as [[[x Hx] Hxr] Hd].
  pose proof (slot_bit _ _ _ Hsi) as [Hb Hbr]. destruct Hsi as (Hi0 & Hlen & _).
  pose proof (width_nonneg _ _ _ Hs) as Hwn. unfold coord in Hxr. rewrite Hx in Hxr.
  assert (Hkw : k <= 31) by (specialize (Hw [] i ls eq_refl); simpl in Hw; lia).
  assert (Hrec : forall av1 k1, length av1 = length av -> (forall l, l <> i + 1 -> vget av1 l = vget av l) ->
    digit_ok m av1 i -> 0 <= k1 <= k + bit m i ->
    exists av' k', foldM (xor_level m) (av1, k1) ls = Ok (av', k') /\ length av' = length av /\
      (forall l, l - 1 ∉ i :: ls -> vget av' l = vget av l) /\ Forall (digit_ok m av') (i :: ls)).
  { intros av1 k1 El Hfr Hdi Hk1. destruct (IH av1 k1) as (av' & k' & Hf & El' & Hfr' & Hd').
    - by rewrite El.
    - apply Forall_forall. intros j Hj. rewrite Forall_forall in Hd. unfold digit_ok, coord.
      rewrite Hfr; [by apply Hd|]. intros E. apply Hi. by replace i with j by lia.
    - intros H. apply Hc. by right.
    - rewrite Hfr; [by eexists|]. intros E. apply Hc, elem_of_cons. left. lia.
    - lia.
    - intros pre j suf E. specialize (Hw (i :: pre) j suf ltac:(by rewrite E)). simpl in Hw. lia.
    - exists av', k'. split_and!; [done|congruence| |].
      + intros l Hl. rewrite Hfr'; [apply Hfr; intros ->; apply Hl, elem_of_cons; left; lia|intros H; apply Hl; by right].
      + constructor; [|done]. unfold digit_ok, coord in *. rewrite Hfr'; [done|].
        by replace (i + 1 - 1) with i by lia. }
  rewrite foldM_cons, (xor_level_eq m av k i _ col x Hb Hcol Hx) by lia. destruct (Z.ltb_spec 0 (bit m i)).
  - set (mask := Z.land _ _). destruct (vset_total av (i + 1) (Z.lxor x mask)) as [av1 Hav1]; [lia|].
    rewrite Hav1. simpl.
    destruct (vset_coord _ _ _ _ Hav1) as (El & Hx1 & Hfr). apply Hrec; [done|done| |lia].
    split; [by eexists|]. unfold coord. rewrite Hx1. apply lxor_bound; [lia|done|]. unfold mask.
    replace (Z.shiftl 1 (bit m i) - 1) with (Z.ones (bit m i)) by (rewrite Z.ones_equiv, Z.shiftl_1_l; lia).
    rewrite Z.land_ones by lia. apply Z.mod_pos_bound, pow2_pos. lia.
  - apply Hrec; [done|done| |lia]. split; [by eexists|]. unfold coord. by rewrite Hx.
Qed.

(** The mixing can be undone: it is injective for a given column. *)
Lemma xor_fold_inj (m : AddrMapperBase) (ls : list Z) (av1 av2 av1' av2' : AddrVec_t) (k k1 k2 : Z) :
  foldM (xor_level m) (av1, k) ls = Ok (av1', k1) -> foldM (xor_level m) (av2, k) ls = Ok (av2', k2) ->
  m_col_idx m ∉ ls -> vget av1 (m_col_idx m + 1) = vget av2 (m_col_idx m + 1) ->
  (forall l, 1 <= l -> vget av1' l = vget av2' l) -> forall l, 1 <= l -> vget av1 l = vget av2 l.
Proof.
  revert av1 av2 k. induction ls as [|i ls IH]; intros av1 av2 k H1 H2 Hc Hcol He l Hl.
  { simpl in *. simplify_eq. by apply He. }
  rewrite foldM_cons in H1, H2. apply bind_Ok in H1 as ([b1 j1] & S1 & H1). apply bind_Ok in H2 as ([b2 j2] & S2 & H2).
  unfold xor_level in S1, S2. apply bind_Ok in S1 as (b & Hb & S1). rewrite Hb in S2. simpl in S2.
  assert (Hc' : m_col_idx m ∉ ls) by (intros ?; apply Hc; by right).
  destruct (0 <? b); [|simplify_eq; by eapply IH].
  apply bind_Ok in S1 as (c1 & Hc1 & S1). apply bind_Ok in S2 as (c2 & Hc2 & S2).
  apply bind_Ok in S1 as (x1 & Hx1 & S1). apply bind_Ok in S2 as (x2 & Hx2 & S2).
  destruct (_ || _); [done|]. apply bind_Ok in S1 as (a1 & A1 & S1). apply bind_Ok in S2 as (a2 & A2 & S2).
  injection S1 as -> <-. injection S2 as -> <-.
  rewrite Hcol in Hc1. rewrite Hc1 in Hc2. injection Hc2 as ->.
  destruct (vset_coord _ _ _ _ A1) as (_ & E1 & F1). destruct (vset_coord _ _ _ _ A2) as (_ & E2 & F2).
  assert (m_col_idx m + 1 <> i + 1) as Hne by (intros E; apply Hc, elem_of_cons; left; lia).
  assert (Hb12 : forall l, 1 <= l -> vget b1 l = vget b2 l).
  { eapply IH; [exact H1|exact H2|done| |done]. by rewrite F1, F2. }
  destruct (decide (l = i + 1)) as [->|Hli].
  - specialize (Hb12 (i + 1) Hl). rewrite E1, E2 in Hb12. injection Hb12 as Hx. rewrite Hx1, Hx2. f_equal.
    apply (f_equal (fun z => Z.lxor z (Z.land (Z.shiftr c2 k) (Z.shiftl 1 b - 1)))) in Hx.
    by rewrite !Z.lxor_assoc, Z.lxor_nilpotent, !Z.lxor_0_r in Hx.
  - rewrite <- (F1 l), <- (F2 l) by done. by apply Hb12.
Qed.

(** ** Initialised mappers *)

(** What the hardware integers and the order of the levels give: sizes fit an
    [int], Row and Column are the last two levels. *)
Definition mappable (s : DRAMSpec) : bool :=
  forallb (fun c => c <? 2 ^ 31) (level_sizes (organization s)) && (internal_prefetch_size s <? 2 ^ 31) &&
  bool_decide (levels s !! "Row" = Some (level_count s - 2)) &&
  bool_decide (levels s !! "Column" = Some (level_count s - 1)) && (3 <=? level_count s).

(** Two to the bits of a level is its size, in transactions for the column. *)
Definition level_sized (s : DRAMSpec) (m : AddrMapperBase) (i : Z) : Prop :=
  exists b sz, vget (m_addr_bits m) i = Ok b /\ 0 <= b <= 30 /\ vget (level_sizes (organization s)) (i + 1) = Ok sz /\
    sz = 2 ^ b * (if i =? m_col_idx m then internal_prefetch_size s else 1).

Record mapper_wf (s : DRAMSpec) (m : AddrMapperBase) : Prop := mkMapperWf {
  mw_count : m_num_mapped_levels m = level_count s - 1 /\ 3 <= level_count s;
  mw_row : m_row_idx m = level_count s - 3;
  mw_col : m_col_idx m = level_count s - 2;
  mw_prefetch : 1 <= internal_prefetch_size s;
  mw_levels : forall i, 0 <= i < m_num_mapped_levels m -> level_sized s m i
}.

Lemma level_bits_spec (name : string) (s : DRAMSpec) (i b : Z) :
  mappable s = true -> level_bits name s i = Ok b ->
  0 <= b <= 30 /\ vget (level_sizes (organization s)) (i + 1) = Ok (2 ^ b).
Proof.
  intros Hs H. unfold level_bits in H. apply bind_Ok in H as (c & Hc & H).
  destruct ((c <=? 0) || not_pow2 c) eqn:Ep; [by apply bind_Ok in H as (l & _ & H)|].
  apply orb_false_iff in Ep as [Hpos Hp]. apply Z.leb_gt in Hpos.
  assert (c < 2 ^ 31) as Hlt.
  { unfold mappable in Hs. rewrite !andb_true_iff, forallb_forall in Hs. destruct Hs as ((((Hs & _) & _) & _) & _).
    apply vget_Ok in Hc as [_ Hc]. specialize (Hs c). apply list_elem_of_lookup_2, list_elem_of_In in Hc. specialize (Hs Hc). lia. }
  rewrite calc_log2_spec in H by lia. injection H as <-. pose proof (not_pow2_false c Hpos Hp) as E. rewrite Hc.
  split; [|by rewrite <- E]. split; [apply Z.log2_nonneg|]. apply Z.lt_succ_r, Z.log2_lt_pow2; lia.
Qed.

Lemma pow2_le_log (p c : Z) : 0 < p -> p <= c -> not_pow2 p = false -> not_pow2 c = false ->
  0 <= Z.log2 c - Z.log2 p /\ c = 2 ^ (Z.log2 c - Z.log2 p) * p.
Proof.
  intros Hp Hle Ep Ec. pose proof (Z.log2_le_mono _ _ Hle) as Hl. split; [lia|].
  rewrite (not_pow2_false p Hp Ep) at 2. rewrite <- Z.pow_add_r by (pose proof (Z.log2_nonneg p); lia).
  replace (Z.log2 c - Z.log2 p + Z.log2 p) with (Z.log2 c) by lia. apply not_pow2_false; [lia|done].
Qed.

Lemma pow2_pow2 (b : Z) : 0 <= b -> not_pow2 (2 ^ b) = false.
Proof.
  intros Hb. unfold not_pow2. apply negb_false_iff, Z.eqb_eq. rewrite Z.sub_1_r, <- Z.ones_equiv, Z.land_ones by done.
  apply Z_mod_same_full.
Qed.

Lemma init_mapper_wf (name : string) (s : DRAMSpec) (m : AddrMapperBase) :
  mappable s = true -> AddrMapperBase_init name s = Ok m -> mapper_wf s m.
Proof.
  intros Hs H. unfold AddrMapperBase_init in H. apply bind_Ok in H as (bits & Hbits & H).
  destruct ((_ <=? 0) || not_pow2 (internal_prefetch_size s)) eqn:Ep; [done|].
  apply orb_false_iff in Ep as [Hpp Hp2]. apply Z.leb_gt in Hpp.
  apply bind_Ok in H as (cc & Hcc & H). destruct (Z.ltb_spec cc (internal_prefetch_size s)) as [|Hcp]; [done|].
  destruct (negb _); [done|]. apply bind_Ok in H as (lp & Hlp & H). apply bind_Ok in H as (last & Hlast & H).
  apply bind_Ok in H as (bits' & Hset & H). apply bind_Ok in H as (tx & _ & H). apply bind_Ok in H as (row & Hrow & H).
  injection H as <-. pose proof Hs as Hs'. unfold mappable in Hs'.
  rewrite !andb_true_iff, !bool_decide_eq_true in Hs'. destruct Hs' as ((((_ & Hpi) & HR) & HC) & Hl3).
  assert (row = level_count s - 2) as -> by (unfold get_level_id in Hrow; rewrite HR in Hrow; by injection Hrow).
  rewrite calc_log2_spec in Hlp by lia. injection Hlp as <-.
  unfold get_level_size, get_level_id in Hcc. rewrite HC in Hcc. simpl in Hcc.
  assert (Hbit : forall i, 0 <= i < level_count s - 1 ->
    exists b, vget bits i = Ok b /\ 0 <= b <= 30 /\ vget (level_sizes (organization s)) (i + 1) = Ok (2 ^ b)).
  { intros i Hi. apply mapM_Ok in Hbits.
    assert (seqZ 0 (level_count s - 1) !! Z.to_nat i = Some i) as Hq by (apply lookup_seqZ; lia).
    destruct (Forall2_lookup_l _ _ _ _ _ Hbits Hq) as (b & Hb & Hlb). exists b.
    split; [apply vget_Ok; split; [lia|done]|]. by eapply level_bits_spec. }
  destruct (vset_coord _ _ _ _ Hset) as (_ & Hnew & Hold).
  replace (level_count s - 1 - 1) with (level_count s - 2) in Hlast, Hnew, Hold by lia.
  constructor; simpl; [lia|lia|lia|lia|]. intros i Hi. unfold level_sized. simpl.
  destruct (Hbit i Hi) as (b & Hb & Hbr & Hsz). destruct (Z.eqb_spec i (level_count s - 2)) as [->|Hne].
  - rewrite Hlast in Hb. injection Hb as <-.
    replace (level_count s - 2 + 1) with (level_count s - 1) in * by lia. rewrite Hcc in Hsz. injection Hsz as ->.
    destruct (pow2_le_log _ _ Hpp Hcp Hp2 (pow2_pow2 last ltac:(lia))) as [H0 E].
    rewrite Z.log2_pow2 in H0, E by lia. exists (last - Z.log2 (internal_prefetch_size s)), (2 ^ last).
    pose proof (Z.log2_nonneg (internal_prefetch_size s)). split_and!; [done|lia|lia|done|done].
  - exists b, (2 ^ b). rewrite Hold by lia. split_and!; [done|lia|lia|done|lia].
Qed.

(** ** Theorems on address mapping

    Decoding is a bijection between the transactions of a channel and the
    coordinates of the device, and between the transactions of the system and the
    channels' transactions. *)
(** ** The two linear mappers *)
Inductive linear_mapper := ChRaBaRoCo | RoBaRaCoCh.

Definition linear_apply (k : linear_mapper) : AddrMapperBase -> Request -> result Request :=
  match k with ChRaBaRoCo => ChRaBaRoCo_apply | RoBaRaCoCh => RoBaRaCoCh_apply end.

(** The levels from the least significant coordinate up. *)
Definition linear_order (k : linear_mapper) (m : AddrMapperBase) : list Z :=
  match k with
  | ChRaBaRoCo => reverse (seqZ 0 (m_num_mapped_levels m))
  | RoBaRaCoCh => m_col_idx m :: seqZ 0 (m_row_idx m + 1)
  end.

(** Transactions of a channel. *)
Definition capacity (m : AddrMapperBase) : Z := 2 ^ width m (seqZ 0 (m_num_mapped_levels m)).

Lemma width_perm (m : AddrMapperBase) (l1 l2 : list Z) : l1 ≡ₚ l2 -> width m l1 = width m l2.
Proof. induction 1; simpl; lia. Qed.

Lemma width_app (m : AddrMapperBase) (l1 l2 : list Z) : width m (l1 ++ l2) = width m l1 + width m l2.
Proof. induction l1 as [|i l1 IH]; simpl; lia. Qed.

(** A proper prefix leaves the last level out. *)
Lemma width_prefix (m : AddrMapperBase) (n : nat) (pre suf all : list Z) (i x : Z) :
  Forall (slot_ok m n) all -> pre ++ i :: suf = all ++ [x] -> width m pre <= width m all.
Proof.
  intros Hs E. destruct suf as [|y suf] using rev_ind.
  - apply app_inj_tail in E as [-> _]. done.
  - clear IHsuf. rewrite app_comm_cons, app_assoc in E. apply app_inj_tail in E as [<- _].
    rewrite width_app. apply Forall_app in Hs as [_ Hs]. pose proof (width_nonneg _ _ _ Hs). lia.
Qed.

Section mapper.
Context (s : DRAMSpec) (m : AddrMapperBase) (Hm : mapper_wf s m).

Lemma order_perm (k : linear_mapper) : linear_order k m ≡ₚ seqZ 0 (m_num_mapped_levels m).
Proof.
  destruct k; simpl; [apply reverse_Permutation|]. destruct (mw_count s m Hm) as [En H3].
  rewrite (mw_col s m Hm), (mw_row s m Hm), En.
  replace (level_count s - 3 + 1) with (level_count s - 2) by lia.
  replace (level_count s - 1) with ((level_count s - 2) + 1) by lia.
  rewrite seqZ_app by lia. rewrite Z.add_0_l.
  assert (seqZ (level_count s - 2) 1 = [level_count s - 2]) as -> by (rewrite seqZ_cons by lia; done).
  by rewrite Permutation_app_comm.
Qed.

Lemma slots_ok (ls : list Z) (av : AddrVec_t) :
  Z.of_nat (length av) = level_count s -> (forall i, i ∈ ls -> 0 <= i < m_num_mapped_levels m) ->
  Forall (slot_ok m (length av)) ls.
Proof.
  intros Hl Hin. apply Forall_forall. intros i Hi. specialize (Hin i Hi). destruct (mw_count s m Hm) as [En _].
  destruct (mw_levels s m Hm i Hin) as (b & sz & Hb & Hr & _). split; [lia|]. split; [lia|]. by exists b.
Qed.

Lemma start_length (r : Request) : Z.of_nat (length (start_vec m r)) = level_count s.
Proof. unfold start_vec. rewrite length_resize. destruct (mw_count s m Hm) as [-> ?]. lia. Qed.

(** A digit is a coordinate of its level. *)
Lemma digit_in_level (av : AddrVec_t) (i : Z) :
  0 <= i < m_num_mapped_levels m -> digit_ok m av i ->
  exists x sz, vget av (i + 1) = Ok x /\ vget (level_sizes (organization s)) (i + 1) = Ok sz /\
    0 <= x /\ x * (if i =? m_col_idx m then internal_prefetch_size s else 1) < sz.
Proof.
  intros Hi [[x Hx] Hd]. unfold coord in Hd. rewrite Hx in Hd.
  destruct (mw_levels s m Hm i Hi) as (b & sz & Hb & Hbr & Hsz & E). exists x, sz.
  unfold bit in Hd. rewrite Hb in Hd. pose proof (mw_prefetch s m Hm). split_and!; [done|done|lia|].
  subst sz. destruct (i =? m_col_idx m); nia.
Qed.

Lemma linear_decodes (k : linear_mapper) (r : Request) :
  exists av, linear_apply k m r = Ok (set_addr_vec r av) /\ Z.of_nat (length av) = level_count s /\
    Forall (digit_ok m av) (linear_order k m) /\ join m (linear_order k m) av = tx_number m r mod capacity m /\
    vget av 0 = vget (start_vec m r) 0.
Proof.
  pose proof (order_perm k) as Hp.
  assert (Hslots : Forall (slot_ok m (length (start_vec m r))) (linear_order k m)).
  { apply slots_ok; [apply start_length|]. intros i. rewrite Hp, elem_of_seqZ. lia. }
  destruct (slice_fold m (linear_order k m) (start_vec m r) (tx_number m r)) as (av & a' & Hf & El & Hfr & Hd & Ej);
    [|done|].
  { rewrite Hp. apply NoDup_seqZ. }
  exists av. split_and!; [|by rewrite El; apply start_length|done| |].
  - destruct k; simpl in *; unfold ChRaBaRoCo_apply, RoBaRaCoCh_apply; [by rewrite Hf|].
    destruct (slice_level m _ (m_col_idx m)) as [st|]; simpl in *; [|done]. by rewrite Hf.
  - destruct (join_mod m _ _ _ _ _ Hslots Hd Ej) as [E _]. rewrite E. unfold capacity. by rewrite (width_perm _ _ _ Hp).
  - apply Hfr. rewrite Hp, elem_of_seqZ. lia.
Qed.

(** *** MOP4CLXOR before the mixing *)

(** The transaction number encoded by the unmixed coordinates. *)
Definition mop_join (av : AddrVec_t) : Z :=
  let col := coord av (m_col_idx m + 1) in
  col mod 4 + 4 * (join m (seqZ 0 (m_row_idx m)) av +
    2 ^ width m (seqZ 0 (m_row_idx m)) * (col / 4 + 2 ^ (bit m (m_col_idx m) - 2) * coord av (m_row_idx m + 1))).

Lemma capacity_split :
  capacity m = 2 ^ (width m (seqZ 0 (m_row_idx m)) + bit m (m_row_idx m) + bit m (m_col_idx m)).
Proof.
  unfold capacity. destruct (mw_count s m Hm) as [En H3]. rewrite En, (mw_col s m Hm), (mw_row s m Hm).
  rewrite <- (width_perm m (linear_order RoBaRaCoCh m)).
  - simpl. rewrite (mw_col s m Hm), (mw_row s m Hm). rewrite seqZ_app by lia. rewrite Z.add_0_l.
    assert (seqZ (level_count s - 3) 1 = [level_count s - 3]) as -> by (rewrite seqZ_cons by lia; done).
    assert (forall l x, width m (l ++ [x]) = width m l + bit m x) as ->; [|f_equal; lia].
    intros l x. induction l as [|y l IH]; simpl; lia.
  - rewrite (order_perm RoBaRaCoCh). by rewrite En.
Qed.

Lemma wrap_s_small (x : Z) : 0 <= x < 2 ^ 31 -> wrap_s 32 x = x.
Proof. intros Hx. unfold wrap_s. change (2 ^ (32 - 1)) with (2 ^ 31). rewrite Z.mod_small by (change (2 ^ 32) with (2 * 2 ^ 31); lia). lia. Qed.

(** The vector the mixing loop starts from. *)
Definition mop_unmixed (r : Request) : result AddrVec_t :=
  lo ← slice_lower_bits (tx_number m r) 2;
  av ← vset (start_vec m r) (m_col_idx m + 1) lo.1;
  st ← foldM (slice_level m) (av, lo.2) (seqZ 0 (m_row_idx m));
  cb ← vget (m_addr_bits m) (m_col_idx m);
  hi ← slice_lower_bits st.2 (cb - 2);
  c0 ← vget st.1 (m_col_idx m + 1);
  av ← vset st.1 (m_col_idx m + 1) (c0 + Z.shiftl hi.1 2);
  vset av (m_row_idx m + 1) (wrap_s 32 hi.2).

Lemma mop_apply_eq (r : Request) :
  MOP4CLXOR_apply m r =
  (av ← mop_unmixed r; q ← foldM (xor_level m) (av, 0) (seqZ 0 (m_col_idx m)); Ok (set_addr_vec r q.1)).
Proof.
  unfold MOP4CLXOR_apply, mop_unmixed. repeat (match goal with |- (?x ≫= _) = _ => destruct x; simpl; [|done] end). done.
Qed.

Lemma level_bit (i : Z) : 0 <= i < m_num_mapped_levels m -> vget (m_addr_bits m) i = Ok (bit m i) /\ 0 <= bit m i <= 30.
Proof. intros Hi. destruct (mw_levels s m Hm i Hi) as (b & sz & Hb & Hr & _). unfold bit. by rewrite Hb. Qed.

(** The digits and the number of the final vector, from its pieces. *)
Lemma mop_unmixed_digits (av2 av3 av4 : AddrVec_t) (t lo hi a3 : Z) :
  2 <= bit m (m_col_idx m) -> Forall (digit_ok m av2) (seqZ 0 (m_row_idx m)) ->
  (forall l, l <> m_col_idx m + 1 -> vget av3 l = vget av2 l) -> vget av3 (m_col_idx m + 1) = Ok (lo + hi * 4) ->
  (forall l, l <> m_row_idx m + 1 -> vget av4 l = vget av3 l) -> vget av4 (m_row_idx m + 1) = Ok a3 ->
  0 <= lo < 4 -> 0 <= hi < 2 ^ (bit m (m_col_idx m) - 2) -> 0 <= a3 < 2 ^ bit m (m_row_idx m) ->
  t = lo + 4 * (join m (seqZ 0 (m_row_idx m)) av2 +
        2 ^ width m (seqZ 0 (m_row_idx m)) * (hi + 2 ^ (bit m (m_col_idx m) - 2) * a3)) ->
  Forall (digit_ok m av4) (seqZ 0 (m_num_mapped_levels m)) /\ t = mop_join av4.
Proof.
  intros Hcb D2 F3 C3 F4 C4 Hlo Hhi Ha3 Et. destruct (mw_count s m Hm) as [En H3].
  pose proof (mw_row s m Hm) as ER. pose proof (mw_col s m Hm) as EC.
  assert (Ccol : vget av4 (m_col_idx m + 1) = Ok (lo + hi * 4)) by (rewrite F4; [done|lia]).
  assert (Hkeep : forall i, 0 <= i < m_row_idx m -> vget av4 (i + 1) = vget av2 (i + 1)).
  { intros i Hi. rewrite F4, F3 by lia. done. }
  split.
  - apply Forall_forall. intros i Hi%elem_of_seqZ. unfold digit_ok, coord.
    destruct (decide (i = m_col_idx m)) as [->|]; [|destruct (decide (i = m_row_idx m)) as [->|]].
    + rewrite Ccol. split; [by eexists|].
      replace (2 ^ bit m (m_col_idx m)) with (4 * 2 ^ (bit m (m_col_idx m) - 2)); [lia|].
      change 4 with (2 ^ 2). rewrite <- Z.pow_add_r by lia. f_equal. lia.
    + rewrite C4. split; [by eexists|lia].
    + rewrite Hkeep by lia. rewrite Forall_forall in D2. apply D2, elem_of_seqZ. lia.
  - unfold mop_join, coord. rewrite Ccol, C4. rewrite (join_ext m _ av2 av4) by (intros i Hi%elem_of_seqZ; apply Hkeep; lia).
    assert ((lo + hi * 4) mod 4 = lo) as -> by (rewrite Z_mod_plus_full; apply Z.mod_small; lia).
    assert ((lo + hi * 4) / 4 = hi) as -> by (rewrite Z_div_plus_full by lia; rewrite Z.div_small by lia; lia). done.
Qed.

Lemma div_chain (t W rb cb lo j hi a3 : Z) :
  0 <= W -> 0 <= rb -> 2 <= cb -> 0 <= t < 2 ^ (W + rb + cb) -> 0 <= lo -> 0 <= j -> 0 <= hi ->
  t = lo + 4 * (j + 2 ^ W * (hi + 2 ^ (cb - 2) * a3)) -> lo < 4 -> j < 2 ^ W -> hi < 2 ^ (cb - 2) -> 0 <= a3 < 2 ^ rb.
Proof.
  intros HW Hrb Hcb Ht Hlo Hj Hhi E Hlo4 HjW Hhic.
  assert (a3 = t / 2 ^ (W + cb)) as ->.
  { apply (Z.div_unique_pos t _ _ (lo + 4 * (j + 2 ^ W * hi))).
    - replace (2 ^ (W + cb)) with (4 * (2 ^ W * 2 ^ (cb - 2))).
      + split; [nia|]. assert (j + 2 ^ W * hi + 1 <= 2 ^ W * 2 ^ (cb - 2)) by nia. nia.
      + change 4 with (2 ^ 2). rewrite <- !Z.pow_add_r by lia. f_equal. lia.
    - rewrite E. replace (2 ^ (W + cb)) with (4 * (2 ^ W * 2 ^ (cb - 2))); [ring|].
      change 4 with (2 ^ 2). rewrite <- !Z.pow_add_r by lia. f_equal. lia. }
  split; [apply Z.div_pos; [lia|apply pow2_pos; lia]|]. apply Z.div_lt_upper_bound; [apply pow2_pos; lia|].
  rewrite <- Z.pow_add_r by lia. replace (W + cb + rb) with (W + rb + cb) by lia. apply Ht.
Qed.

Lemma mop_unmixed_spec (r : Request) :
  2 <= bit m (m_col_idx m) -> 0 <= tx_number m r < capacity m ->
  exists av, mop_unmixed r = Ok av /\ Z.of_nat (length av) = level_count s /\
    Forall (digit_ok m av) (seqZ 0 (m_num_mapped_levels m)) /\ tx_number m r = mop_join av.
Proof.
  intros Hcb Ht. destruct (mw_count s m Hm) as [En H3]. pose proof (mw_row s m Hm) as ER. pose proof (mw_col s m Hm) as EC.
  destruct (level_bit (m_col_idx m)) as [Hcol Hcolr]; [lia|]. destruct (level_bit (m_row_idx m)) as [_ Hrowr]; [lia|].
  pose proof (start_length r) as Hsl. set (t := tx_number m r) in *. set (av0 := start_vec m r) in *.
  unfold mop_unmixed. fold t av0. rewrite slice_lower_bits_spec by lia. simpl.
  destruct (vset_total av0 (m_col_idx m + 1) (t mod 2 ^ 2)) as [av1 H1]; [lia|]. rewrite H1. simpl.
  destruct (vset_coord _ _ _ _ H1) as (L1 & C1 & F1).
  assert (Hslots : Forall (slot_ok m (length av1)) (seqZ 0 (m_row_idx m))).
  { apply slots_ok; [by rewrite L1|]. intros i. rewrite elem_of_seqZ. lia. }
  destruct (slice_fold m (seqZ 0 (m_row_idx m)) av1 (t / 2 ^ 2)) as (av2 & a2 & Hf & L2 & F2 & D2 & E2);
    [apply NoDup_seqZ|done|]. rewrite Hf. simpl. rewrite Hcol. simpl. rewrite slice_lower_bits_spec by lia. simpl.
  assert (C2 : vget av2 (m_col_idx m + 1) = Ok (t mod 2 ^ 2)) by (rewrite F2; [done|rewrite elem_of_seqZ; lia]).
  rewrite C2. simpl. set (cb := bit m (m_col_idx m)) in *. set (hi := a2 mod 2 ^ (cb - 2)).
  destruct (vset_total av2 (m_col_idx m + 1) (t mod 2 ^ 2 + Z.shiftl hi 2)) as [av3 H3']; [lia|]. rewrite H3'. simpl.
  destruct (vset_coord _ _ _ _ H3') as (L3 & C3 & F3). set (a3 := a2 / 2 ^ (cb - 2)).
  destruct (vset_total av3 (m_row_idx m + 1) (wrap_s 32 a3)) as [av4 H4]; [lia|].
  destruct (vset_coord _ _ _ _ H4) as (L4 & C4 & F4). exists av4. split; [exact H4|]. split; [lia|].
  assert (Hj : 0 <= join m (seqZ 0 (m_row_idx m)) av2 < 2 ^ width m (seqZ 0 (m_row_idx m))) by (by eapply join_bound).
  pose proof (width_nonneg _ _ _ Hslots) as HW. change (2 ^ 2) with 4 in *.
  pose proof (Z.mod_pos_bound t 4 ltac:(lia)) as Hlo.
  pose proof (Z.mod_pos_bound a2 (2 ^ (cb - 2)) ltac:(apply pow2_pos; lia)) as Hhi. fold hi in Hhi.
  assert (Et : t = t mod 4 + 4 * (join m (seqZ 0 (m_row_idx m)) av2 +
             2 ^ width m (seqZ 0 (m_row_idx m)) * (hi + 2 ^ (cb - 2) * a3))).
  { rewrite (Z.div_mod t 4) at 1 by lia. rewrite E2 at 1. rewrite (Z.div_mod a2 (2 ^ (cb - 2))) at 1 by (pose proof (pow2_pos (cb - 2)); lia).
    fold hi a3. ring. }
  rewrite capacity_split in Ht. fold cb in Ht.
  assert (Ha3 : 0 <= a3 < 2 ^ bit m (m_row_idx m)) by (apply (div_chain t (width m (seqZ 0 (m_row_idx m))) (bit m (m_row_idx m)) cb (t mod 4) (join m (seqZ 0 (m_row_idx m)) av2) hi a3);
    try done; lia).
  assert (2 ^ bit m (m_row_idx m) <= 2 ^ 30) by (apply Z.pow_le_mono_r; lia).
  rewrite wrap_s_small in C4 by lia. rewrite Z.shiftl_mul_pow2 in C3 by lia. change (2 ^ 2) with 4 in C3.
  by apply mop_unmixed_digits with (av2 := av2) (lo := t mod 4) (hi := hi) (a3 := a3) (av3 := av3).
Qed.

(** The mixed vector: total, in range. *)
Lemma mop_decodes (r : Request) :
  2 <= bit m (m_col_idx m) -> width m (seqZ 0 (m_row_idx m)) <= 31 -> 0 <= tx_number m r < capacity m ->
  exists av0 av k, mop_unmixed r = Ok av0 /\ tx_number m r = mop_join av0 /\
    foldM (xor_level m) (av0, 0) (seqZ 0 (m_col_idx m)) = Ok (av, k) /\
    MOP4CLXOR_apply m r = Ok (set_addr_vec r av) /\ Z.of_nat (length av) = level_count s /\
    vget av (m_col_idx m + 1) = vget av0 (m_col_idx m + 1) /\
    Forall (digit_ok m av) (seqZ 0 (m_num_mapped_levels m)).
Proof.
  intros Hcb HW Ht. destruct (mw_count s m Hm) as [En H3]. pose proof (mw_row s m Hm) as ER. pose proof (mw_col s m Hm) as EC.
  destruct (mop_unmixed_spec r Hcb Ht) as (av0 & H0 & L0 & D0 & E0). rewrite Forall_forall in D0.
  destruct (xor_fold m (seqZ 0 (m_col_idx m)) av0 0) as (av & k & Hf & L & F & D).
  - apply NoDup_seqZ.
  - apply slots_ok; [done|]. intros i. rewrite elem_of_seqZ. lia.
  - apply Forall_forall. intros i Hi%elem_of_seqZ. apply D0, elem_of_seqZ. lia.
  - rewrite elem_of_seqZ. lia.
  - apply D0, elem_of_seqZ. lia.
  - lia.
  - intros pre i suf E. rewrite Z.add_0_l. apply (Z.le_trans _ (width m (seqZ 0 (m_row_idx m)))); [|done].
    apply width_prefix with (n := length av0) (i := i) (suf := suf) (x := m_row_idx m).
    + apply slots_ok; [done|]. intros j. rewrite elem_of_seqZ. lia.
    + rewrite <- E. replace (m_col_idx m) with (m_row_idx m + 1) by lia. rewrite seqZ_app by lia.
      rewrite Z.add_0_l. f_equal.
  - assert (Fcol : vget av (m_col_idx m + 1) = vget av0 (m_col_idx m + 1)) by (apply F; rewrite elem_of_seqZ; lia).
    exists av0, av, k. split_and!; try done.
    + rewrite mop_apply_eq, H0. simpl. by rewrite Hf.
    + lia.
    + apply Forall_forall. intros i Hi%elem_of_seqZ. destruct (decide (i = m_col_idx m)) as [->|].
      * unfold digit_ok, coord. rewrite Fcol. apply D0, elem_of_seqZ. lia.
      * rewrite Forall_forall in D. apply D, elem_of_seqZ. lia.
Qed.

Lemma mop_join_ext (av1 av2 : AddrVec_t) : (forall l, 1 <= l -> vget av1 l = vget av2 l) -> mop_join av1 = mop_join av2.
Proof.
  intros H. pose proof (mw_row s m Hm) as ER. pose proof (mw_col s m Hm) as EC. destruct (mw_count s m Hm) as [_ H3].
  unfold mop_join, coord. rewrite !(H (m_col_idx m + 1)), !(H (m_row_idx m + 1)) by lia.
  rewrite (join_ext m _ av2 av1); [done|]. intros i Hi%elem_of_seqZ. apply H. lia.
Qed.
End mapper.

(** ** Theorems *)

(** C26: ChRaBaRoCo and RoBaRaCoCh decode every address: the request only gets a
    coordinate per level, each within its level (times the prefetch for the
    column), and reading the coordinates back in the order of the mapper gives the
    transaction number of the address modulo the capacity of the channel. *)
Theorem linear_mapping_roundtrip (k : linear_mapper) (name : string) (s : DRAMSpec) (m : AddrMapperBase) (r : Request) :
  mappable s = true -> AddrMapperBase_init name s = Ok m ->
  exists av, linear_apply k m r = Ok (set_addr_vec r av) /\ Z.of_nat (length av) = level_count s /\
    (forall l, 1 <= l < level_count s -> exists x sz, vget av l = Ok x /\
       vget (level_sizes (organization s)) l = Ok sz /\ 0 <= x /\
       x * (if l =? level_count s - 1 then internal_prefetch_size s else 1) < sz) /\
    join m (linear_order k m) av = tx_number m r mod capacity m.
Proof.
  intros Hs Hi. pose proof (init_mapper_wf name s m Hs Hi) as Hm.
  destruct (linear_decodes s m Hm k r) as (av & Ha & Hl & Hd & Hj & _). exists av. split_and!; try done.
  intros l Hlr. destruct (mw_count s m Hm) as [En _].
  destruct (digit_in_level s m Hm av (l - 1)) as (x & sz & Hx & Hsz & H0 & Hlt); [lia| |].
  - rewrite Forall_forall in Hd. apply Hd. rewrite (order_perm s m Hm k), elem_of_seqZ. lia.
  - replace (l - 1 + 1) with l in * by lia. exists x, sz. rewrite (mw_col s m Hm) in Hlt.
    replace (l =? level_count s - 1) with (l - 1 =? level_count s - 2) by lia. done.
Qed.

(** The DDR4 device with burst-sized columns. *)
Definition map_spec : DRAMSpec := ddr4.
Definition map_mapper : AddrMapperBase :=
  match AddrMapperBase_init "ChRaBaRoCo" map_spec with Ok m => m | Err _ => mkMapper 0 [] 0 0 0 end.
Definition map_request (a : Addr_t) : Request := set_intra_channel_addr (Request_addr a Read) a.

Lemma linear_mapping_roundtrip_witness :
  exists av, linear_apply RoBaRaCoCh map_mapper (map_request 123456) = Ok (set_addr_vec (map_request 123456) av) /\
    Z.of_nat (length av) = level_count map_spec /\
    (forall l, 1 <= l < level_count map_spec -> exists x sz, vget av l = Ok x /\
       vget (level_sizes (organization map_spec)) l = Ok sz /\ 0 <= x /\
       x * (if l =? level_count map_spec - 1 then internal_prefetch_size map_spec else 1) < sz) /\
    join map_mapper (linear_order RoBaRaCoCh map_mapper) av = tx_number map_mapper (map_request 123456) mod capacity map_mapper.
Proof.
  apply (linear_mapping_roundtrip RoBaRaCoCh "ChRaBaRoCo"); [vm_compute; reflexivity|vm_compute; reflexivity].
Defined.

(** C2: MOP4CLXOR decodes every transaction of the channel to coordinates within
    the levels, and no two transactions to the same coordinates: mixing column
    bits into the others loses nothing.  For organizations the mapper accepts, of
    fewer than 2^31 per level, with row and column as the last two levels, and at
    most 31 bits in the levels above the row. *)
Theorem mop4clxor_injective (s : DRAMSpec) (m : AddrMapperBase) (r1 r2 : Request) :
  mappable s = true -> MOP4CLXOR_init s = Ok m -> width m (seqZ 0 (m_row_idx m)) <= 31 ->
  0 <= tx_number m r1 < capacity m -> 0 <= tx_number m r2 < capacity m ->
  exists av1 av2, MOP4CLXOR_apply m r1 = Ok (set_addr_vec r1 av1) /\ MOP4CLXOR_apply m r2 = Ok (set_addr_vec r2 av2) /\
    (forall l, 1 <= l < level_count s -> exists x sz, vget av1 l = Ok x /\
       vget (level_sizes (organization s)) l = Ok sz /\ 0 <= x < sz) /\
    ((forall l, 1 <= l -> vget av1 l = vget av2 l) -> tx_number m r1 = tx_number m r2).
Proof.
  intros Hs Hi HW H1 H2. unfold MOP4CLXOR_init in Hi. apply bind_Ok in Hi as (m' & Hi & Hb). apply bind_Ok in Hb as (b & Hb & H).
  destruct (Z.ltb_spec b 2) as [|Hb2]; [done|]. injection H as ->. pose proof (init_mapper_wf _ s m Hs Hi) as Hm.
  assert (2 <= bit m (m_col_idx m)) as Hcb by (unfold bit; by rewrite Hb).
  destruct (mop_decodes s m Hm r1 Hcb HW H1) as (u1 & av1 & k1 & _ & E1 & X1 & A1 & L1 & C1 & D1).
  destruct (mop_decodes s m Hm r2 Hcb HW H2) as (u2 & av2 & k2 & _ & E2 & X2 & A2 & L2 & C2 & _).
  exists av1, av2. split_and!; [done|done| |].
  - intros l Hl. destruct (mw_count s m Hm) as [En _].
    destruct (digit_in_level s m Hm av1 (l - 1)) as (x & sz & Hx & Hsz & H0 & Hlt); [lia| |].
    + rewrite Forall_forall in D1. apply D1, elem_of_seqZ. lia.
    + replace (l - 1 + 1) with l in * by lia. exists x, sz. split_and!; [done|done|done|].
      pose proof (mw_prefetch s m Hm). destruct (_ =? _); nia.
  - intros He. rewrite E1, E2. apply (mop_join_ext s m Hm).
    eapply (xor_fold_inj m _ u1 u2 av1 av2 0 k1 k2 X1 X2); [|..|done].
    + rewrite elem_of_seqZ. lia.
    + rewrite <- C1, <- C2. apply He. rewrite (mw_col s m Hm). destruct (mw_count s m Hm). lia.
Qed.

Definition mop_mapper : AddrMapperBase :=
  match MOP4CLXOR_init map_spec with Ok m => m | Err _ => mkMapper 0 [] 0 0 0 end.

Lemma mop4clxor_injective_witness :
  exists av1 av2, MOP4CLXOR_apply mop_mapper (map_request 4096) = Ok (set_addr_vec (map_request 4096) av1) /\
    MOP4CLXOR_apply mop_mapper (map_request 99328) = Ok (set_addr_vec (map_request 99328) av2) /\
    (forall l, 1 <= l < level_count map_spec -> exists x sz, vget av1 l = Ok x /\
       vget (level_sizes (organization map_spec)) l = Ok sz /\ 0 <= x < sz) /\
    ((forall l, 1 <= l -> vget av1 l = vget av2 l) ->
     tx_number mop_mapper (map_request 4096) = tx_number mop_mapper (map_request 99328)).
Proof.
  apply (mop4clxor_injective map_spec mop_mapper (map_request 4096) (map_request 99328));
    [vm_compute; reflexivity|vm_compute; reflexivity|vm_compute; congruence
    |vm_compute; split; congruence|vm_compute; split; congruence].
Defined.
