(* ===== verification/MemSystem.v ===== *)
(** * The memory system

    [memory_system/impl/generic_dram_system.cpp]: one controller per channel behind
    a channel mapper. *)

From Stdlib Require Import ZArith Lia.
From stdpp Require Import pretty.
From S2P Require Import Prelude Base Spec Node Device Controller Scheduler GenericDDR Mapping.

Local Open Scope Z_scope.

(** What the memory system calls on a controller ([IController]). *)
Class IController (C : Type) := {
  c_send : C -> Request -> result (bool * Request * C);
  c_tick : C -> result C;
  c_set_channel_id : C -> Z -> C;
  c_get_tx_bytes : C -> Z;
  c_idle_ticks : C -> result Clk_t;
  c_fast_forward : C -> Clk_t -> result C
}.

(** The cycle-level controller: [idle_ticks] and [fast_forward] keep the defaults
    of the interface. *)
#[export] Instance GenericDDR_controller {R P G : Type} `{RefreshManager R} `{RowPolicy P} `{ControllerPlugin G}
  (apply : Request -> result Request) (sch : scheduler_t) : IController (GenericDDR R P G) := {|
  c_send := fun g r => q ← send apply (g_ctrl g) r;
                       Ok (q.1, mkGDDR q.2 (g_refresh g) (g_policy g) (g_plugins g));
  c_tick := tick sch;
  c_set_channel_id := fun g i => mkGDDR (ctrl_set_channel_id (g_ctrl g) i) (g_refresh g) (g_policy g) (g_plugins g);
  c_get_tx_bytes := fun g => get_tx_bytes (m_spec (m_device (g_ctrl g)));
  c_idle_ticks := fun _ => Ok 0;
  c_fast_forward := fun g _ => Ok g
|}.

Section system.
Context {C M : Type} `{IController C} (map_setup : Z -> Z -> result M) (map_apply : M -> Request -> result Request).

Record GenericDRAMSystem := mkSystem {
  s_mapper : M;
  m_controllers : list C;
  m_next_admission_ordinal : list Z;
  m_tx_bytes : Z;
  s_num_read_requests : Z;
  s_num_write_requests : Z
}.

Definition system_init (controllers : list C) : result GenericDRAMSystem :=
  match controllers with
  | [] => Err (Throw "GenericDRAM requires at least one controller")
  | _ =>
      let cs := imap (fun i c => c_set_channel_id c (Z.of_nat i)) controllers in
      c0 ← vget cs 0;
      tx ← calc_log2 (c_get_tx_bytes c0);
      mapper ← map_setup (Z.of_nat (length cs)) tx;
      Ok (mkSystem mapper cs (replicate (length cs) 0) (c_get_tx_bytes c0) 0 0)
  end.

Definition system_send (s : GenericDRAMSystem) (req : Request) : result (bool * Request * GenericDRAMSystem) :=
  if (size_bytes req <=? 0) || (m_tx_bytes s <? size_bytes req) then
    Err (Throw ("Request size_bytes must be set by the frontend (got " +:+ pretty (size_bytes req) +:+
           ", tx_bytes = " +:+ pretty (m_tx_bytes s) +:+ ")."))
  else
    req ← map_apply (s_mapper s) req;
    channel_id ← vget (addr_vec req) 0;
    ordinal ← vget (m_next_admission_ordinal s) channel_id;
    ordinals ← vset (m_next_admission_ordinal s) channel_id (ordinal + 1);
    let req := set_admission_ordinal req ordinal in
    c ← vget (m_controllers s) channel_id;
    q ← c_send c req;
    let '(is_success, req, c) := q in
    cs ← vset (m_controllers s) channel_id c;
    let req := if (is_success : bool) then req else set_admission_ordinal req (-1) in
    let one (b : bool) := if is_success && b then 1 else 0 in
    Ok (is_success, req,
        mkSystem (s_mapper s) cs ordinals (m_tx_bytes s)
          (s_num_read_requests s + one (type_id req =? Read))
          (s_num_write_requests s + one (type_id req =? Write))).

Definition system_tick (s : GenericDRAMSystem) : result GenericDRAMSystem :=
  cs ← mapM c_tick (m_controllers s);
  Ok (mkSystem (s_mapper s) cs (m_next_admission_ordinal s) (m_tx_bytes s)
        (s_num_read_requests s) (s_num_write_requests s)).

(** [std::numeric_limits<Clk_t>::max()] when there is no controller. *)
Definition system_idle_ticks (s : GenericDRAMSystem) : result Clk_t :=
  foldM (fun idle c => i ← c_idle_ticks c; Ok (Z.min idle i)) (2 ^ 63 - 1) (m_controllers s).

Definition system_fast_forward (s : GenericDRAMSystem) (ticks : Clk_t) : result GenericDRAMSystem :=
  cs ← mapM (fun c => c_fast_forward c ticks) (m_controllers s);
  Ok (mkSystem (s_mapper s) cs (m_next_admission_ordinal s) (m_tx_bytes s)
        (s_num_read_requests s) (s_num_write_requests s)).

Definition system_reset_stats (s : GenericDRAMSystem) : GenericDRAMSystem :=
  mkSystem (s_mapper s) (m_controllers s) (m_next_admission_ordinal s) (m_tx_bytes s) 0 0.
End system.
Arguments GenericDRAMSystem : clear implicits.

(** ** Address translation *)

(** [NoTranslation::translate]: C++ remainder. *)
Definition NoTranslation_translate (max_paddr : Addr_t) (r : Request) : result Request :=
  if max_paddr =? 0 then Err Undef else Ok (set_addr r (Z.rem (addr r) max_paddr)).

(** [RandomTranslation]. *)
Record RandomTranslation := mkRandom {
  rt_page_size : Addr_t;
  rt_num_frames : Addr_t;
  rt_next : Addr_t;
  rt_table : gmap Z Z
}.

(** The loop that clears low bits until one is left; a 64-bit value has at most
    64 of them. *)
Fixpoint round_down_pow2 (fuel : nat) (v : Z) : result Z :=
  match fuel with
  | O => Err OutOfFuel
  | S fuel => if Z.land v (v - 1) =? 0 then Ok v else round_down_pow2 fuel (Z.land v (v - 1))
  end.

Definition RandomTranslation_init (max_paddr page_size : Addr_t) : result RandomTranslation :=
  if page_size =? 0 then Err Undef
  else
    frames ← round_down_pow2 65 (Z.quot max_paddr page_size);
    Ok (mkRandom page_size frames 0 ∅).

(** [permute]: signed 64-bit values, the product in unsigned arithmetic. *)
Definition permute (t : RandomTranslation) (i : Addr_t) : Addr_t :=
  let x := Z.lxor i (Z.shiftr i 7) in
  let x := wrap_s 64 (wrap_u 64 x * 0x9E3779B97F4A7C15) in
  let x := Z.lxor x (Z.shiftr x 11) in
  Z.land x (rt_num_frames t - 1).

(** Signed arithmetic outside this range is undefined. *)
Definition in_s64 (v : Z) : bool := (- 2 ^ 63 <=? v) && (v <? 2 ^ 63).

Definition RandomTranslation_translate (t : RandomTranslation) (r : Request) : result (Request * RandomTranslation) :=
  let u := wrap_u 64 (addr r) in
  let page := wrap_u 64 (rt_page_size t) in
  if page =? 0 then Err Undef
  else
    let vpage := wrap_s 64 (u / page) in
    let offset := wrap_s 64 (u mod page) in
    let '(frame, t) :=
      match rt_table t !! vpage with
      | Some f => (f, t)
      | None => let f := permute t (rt_next t) in
                (f, mkRandom (rt_page_size t) (rt_num_frames t) (rt_next t + 1) (<[vpage := f]> (rt_table t)))
      end in
    let a := frame * rt_page_size t + offset in
    if in_s64 (frame * rt_page_size t) && in_s64 a then Ok (set_addr r a, t) else Err Undef.
