(* ===== verification/MemProps.v ===== *)
(** * Theorems on channels, the memory system and translation *)

From Stdlib Require Import ZArith Lia.
From S2P Require Import Prelude Base Spec Node Device Standards Commands Examples.
From S2P Require Import Controller Scheduler GenericDDR ControllerInv Refresh ControllerProps CtrlExamples.
From S2P Require Import Mapping MappingProps MemSystem.

Local Open Scope Z_scope.

(** ** Channel interleaving *)

(** Putting the channel bits back. *)
Definition insert_channel_bits (intra ch shift width : Z) : Addr_t :=
  (intra / 2 ^ shift) * 2 ^ (shift + width) + ch * 2 ^ shift + intra mod 2 ^ shift.

Lemma drop_channel_bits_eq (a sh w : Z) :
  0 <= sh -> 0 <= w -> drop_channel_bits a sh w = (a / 2 ^ (sh + w)) * 2 ^ sh + a mod 2 ^ sh.
Proof.
  intros Hs Hw. unfold drop_channel_bits.
  replace (Z.shiftl 1 sh - 1) with (Z.ones sh) by (rewrite Z.ones_equiv, Z.shiftl_1_l; lia).
  rewrite Z.land_ones, Z.shiftr_div_pow2, Z.shiftl_mul_pow2 by lia.
  rewrite <- Z.add_nocarry_lor; [done|]. apply Z.bits_inj'. intros n Hn. rewrite Z.land_spec, Z.bits_0.
  destruct (Z.lt_ge_cases n sh) as [Hlt|Hge].
  - rewrite Z.mul_pow2_bits_low by lia. done.
  - rewrite Z.mod_pow2_bits_high by lia. apply andb_false_r.
Qed.

Lemma channel_bits_split (a sh w : Z) :
  0 <= sh -> 0 <= w ->
  insert_channel_bits (drop_channel_bits a sh w) ((a / 2 ^ sh) mod 2 ^ w) sh w = a.
Proof.
  intros Hs Hw. rewrite drop_channel_bits_eq by done. unfold insert_channel_bits.
  assert (0 < 2 ^ sh /\ 0 < 2 ^ w) as [P1 P2] by (split; by apply pow2_pos).
  assert (((a / 2 ^ (sh + w)) * 2 ^ sh + a mod 2 ^ sh) / 2 ^ sh = a / 2 ^ (sh + w)) as ->.
  { rewrite Z.div_add_l by lia. rewrite (Z.div_small (a mod 2 ^ sh)); [lia|]. apply Z.mod_pos_bound. lia. }
  assert (((a / 2 ^ (sh + w)) * 2 ^ sh + a mod 2 ^ sh) mod 2 ^ sh = a mod 2 ^ sh) as ->.
  { rewrite Z.add_comm, Z_mod_plus_full. apply Z.mod_mod. lia. }
  rewrite Z.pow_add_r by lia. rewrite <- Z.div_div by lia.
  rewrite (Z.div_mod a (2 ^ sh)) at 4 by lia. rewrite (Z.div_mod (a / 2 ^ sh) (2 ^ w)) at 3 by lia. ring.
Qed.

(** What the interleaving writes. *)
Lemma interleave_spec (m : Interleave) (r r' : Request) :
  CacheLineInterleave_apply m r = Ok r' -> 0 <= il_ch_width m ->
  exists ch intra av, r' = set_intra_channel_addr (set_addr_vec r av) intra /\ vget av 0 = Ok ch /\
    (if il_num_channels m <=? 1 then ch = 0 /\ intra = addr r
     else 0 <= ch < 2 ^ il_ch_width m /\ 0 <= il_ch_shift m /\
          insert_channel_bits intra ch (il_ch_shift m) (il_ch_width m) = addr r).
Proof.
  intros H Hw. unfold CacheLineInterleave_apply, set_channel_coord in H.
  set (av0 := if (length (addr_vec r) =? 0)%nat then [-1] else addr_vec r) in H.
  destruct (il_num_channels m <=? 1).
  - apply bind_Ok in H as (r1 & H1 & H). apply bind_Ok in H1 as (av & Hav & H1). injection H1 as <-. injection H as <-.
    exists 0, (addr r), av. destruct (vset_coord _ _ _ _ Hav) as (_ & ? & _). done.
  - destruct (negb _) eqn:Hg; [done|]. apply bind_Ok in H as (r1 & H1 & H). apply bind_Ok in H1 as (av & Hav & H1).
    injection H1 as <-. injection H as <-. simpl.
    replace (Z.shiftl 1 (il_ch_width m) - 1) with (Z.ones (il_ch_width m)) in Hav by (rewrite Z.ones_equiv, Z.shiftl_1_l; lia).
    rewrite Z.land_ones, Z.shiftr_div_pow2 in Hav by lia. destruct (vset_coord _ _ _ _ Hav) as (_ & Hv & _).
    eexists _, _, av. split; [done|]. split; [exact Hv|]. split; [apply Z.mod_pos_bound, pow2_pos; lia|].
    split; [lia|]. apply channel_bits_split; lia.
Qed.

(** The interleaving returns whenever its shifts are within the word. *)
Lemma interleave_total (m : Interleave) (r : Request) :
  0 <= il_ch_shift m <= 62 -> il_ch_shift m + il_ch_width m <= 63 -> il_ch_width m <= 30 ->
  exists r', CacheLineInterleave_apply m r = Ok r'.
Proof.
  intros H1 H2 H3. unfold CacheLineInterleave_apply.
  assert (forall c, exists r1, set_channel_coord r c = Ok r1) as Hc.
  { intros c. unfold set_channel_coord. set (av0 := if (length (addr_vec r) =? 0)%nat then _ else _).
    assert (0 < length av0)%nat by (unfold av0; destruct (Nat.eqb_spec (length (addr_vec r)) 0); simpl; lia).
    destruct (vset_total av0 0 c ltac:(lia)) as (av & ->). by eexists. }
  destruct (il_num_channels m <=? 1).
  - destruct (Hc 0) as (r1 & ->). by eexists.
  - assert (negb ((0 <=? il_ch_shift m) && (il_ch_shift m <=? 62) && (il_ch_shift m + il_ch_width m <=? 63) &&
                  (il_ch_width m <=? 30)) = false) as -> by lia.
    match goal with |- context [set_channel_coord r ?c] => destruct (Hc c) as (r1 & ->) end. by eexists.
Qed.

(** Cache-line interleaving is total and invertible as long as the channel
    bits fit the word: the channel it selects exists, and the address is recovered
    from the channel and the address inside it. *)
Theorem interleave_roundtrip (bits n tx : Z) (m : Interleave) (r : Request) :
  CacheLineInterleave_setup bits n tx = Ok m -> 1 <= n < 2 ^ 31 ->
  0 <= tx + bits <= 62 -> tx + bits + Z.log2 n <= 63 ->
  exists r' ch, CacheLineInterleave_apply m r = Ok r' /\
    vget (addr_vec r') 0 = Ok ch /\ 0 <= ch < n /\ addr r' = addr r /\
    insert_channel_bits (intra_channel_addr r') ch (if n =? 1 then 0 else tx + bits) (Z.log2 n) = addr r.
Proof.
  intros Hs Hn Hsh Hsum. unfold CacheLineInterleave_setup in Hs. destruct ((1 <? n) && not_pow2 n) eqn:Hp; [done|].
  rewrite calc_log2_spec in Hs by lia. injection Hs as <-. pose proof (Z.log2_nonneg n) as Hl.
  assert (Z.log2 n < 31) as Hw by (apply Z.log2_lt_pow2; lia).
  destruct (interleave_total (mkInterleave n (tx + bits) (Z.log2 n)) r) as (r' & H); simpl; [lia..|].
  exists r'. pose proof H as H0.
  apply interleave_spec in H as (ch & intra & av & -> & Hv & Hc); [|done]. simpl in *. exists ch. do 2 (split; [done|]).
  destruct (Z.leb_spec n 1) as [Hle|Hgt].
  - assert (n = 1) as -> by lia. destruct Hc as [-> ->]. split_and!; [lia|lia|done|]. unfold insert_channel_bits. simpl.
    rewrite Z.div_1_r, Z.mod_1_r. lia.
  - destruct (Z.eqb_spec n 1); [lia|]. destruct Hc as (Hc & _ & E). split_and!; [lia| |done|done].
    apply andb_false_iff in Hp as [Hp|Hp]; [lia|]. pose proof (not_pow2_false n ltac:(lia) Hp). lia.
Qed.

Definition four_channels : Interleave := mkInterleave 4 8 2.

Lemma interleave_roundtrip_witness :
  exists r' ch, CacheLineInterleave_apply four_channels (Request_addr 123456 Read) = Ok r' /\
    vget (addr_vec r') 0 = Ok ch /\ 0 <= ch < 4 /\ addr r' = 123456 /\
    insert_channel_bits (intra_channel_addr r') ch (if 4 =? 1 then 0 else 6 + 2) (Z.log2 4) = 123456.
Proof.
  apply (interleave_roundtrip 2 4 6 four_channels (Request_addr 123456 Read));
    [vm_compute; reflexivity|lia|lia|vm_compute; congruence].
Defined.

(** ** From the system's address to the device *)

(** Channel mapping, then address mapping in the channel. *)
Definition decode (k : linear_mapper) (im : Interleave) (m : AddrMapperBase) (r : Request) : result Request :=
  r ← CacheLineInterleave_apply im r; linear_apply k m r.

Lemma insert_channel_tx (intra ch sh w tx : Z) :
  0 <= tx <= sh -> 0 <= w ->
  insert_channel_bits intra ch sh w / 2 ^ tx =
  (intra / 2 ^ tx / 2 ^ (sh - tx)) * 2 ^ (sh + w - tx) + ch * 2 ^ (sh - tx) + (intra / 2 ^ tx) mod 2 ^ (sh - tx).
Proof.
  intros Htx Hw. unfold insert_channel_bits.
  assert (0 < 2 ^ tx /\ 0 < 2 ^ (sh - tx)) as [P1 P2] by (split; apply pow2_pos; lia).
  replace (2 ^ (sh + w)) with (2 ^ (sh + w - tx) * 2 ^ tx) by (rewrite <- Z.pow_add_r by lia; f_equal; lia).
  replace (2 ^ sh) with (2 ^ tx * 2 ^ (sh - tx)) by (rewrite <- Z.pow_add_r by lia; f_equal; lia).
  rewrite (Z.rem_mul_r intra (2 ^ tx) (2 ^ (sh - tx))) by lia. rewrite <- Z.div_div by lia.
  set (q := intra / 2 ^ tx). set (e := q mod 2 ^ (sh - tx)).
  replace (q / 2 ^ (sh - tx) * (2 ^ (sh + w - tx) * 2 ^ tx) + ch * (2 ^ tx * 2 ^ (sh - tx)) + (intra mod 2 ^ tx + 2 ^ tx * e))
    with ((q / 2 ^ (sh - tx) * 2 ^ (sh + w - tx) + ch * 2 ^ (sh - tx) + e) * 2 ^ tx + intra mod 2 ^ tx) by ring.
  rewrite Z.div_add_l by lia. rewrite (Z.div_small (intra mod 2 ^ tx)); [lia|]. apply Z.mod_pos_bound. lia.
Qed.

(** The vector keeps its channel coordinate when it is resized. *)
Lemma start_channel (m : AddrMapperBase) (r : Request) (h : Z) :
  vget (addr_vec r) 0 = Ok h -> 0 <= m_num_mapped_levels m -> vget (start_vec m r) 0 = Ok h.
Proof.
  intros [_ Hv]%vget_Ok Hn. apply vget_Ok. split; [lia|]. unfold start_vec.
  rewrite lookup_resize; [done|lia|by eapply lookup_lt_Some].
Qed.

(** No two transactions of the system share a place: addresses that decode
    to the same channel and the same coordinates lie in the same transaction. *)
Theorem decode_no_aliasing (k : linear_mapper) (name : string) (s : DRAMSpec) (m : AddrMapperBase)
  (bits n : Z) (im : Interleave) (r1 r2 c1 c2 d1 d2 : Request) :
  mappable s = true -> AddrMapperBase_init name s = Ok m -> 0 <= m_tx_offset m -> 0 <= bits -> 1 <= n < 2 ^ 31 ->
  CacheLineInterleave_setup bits n (m_tx_offset m) = Ok im ->
  CacheLineInterleave_apply im r1 = Ok c1 -> CacheLineInterleave_apply im r2 = Ok c2 ->
  0 <= tx_number m c1 < capacity m -> 0 <= tx_number m c2 < capacity m ->
  decode k im m r1 = Ok d1 -> decode k im m r2 = Ok d2 ->
  (forall l, 0 <= l < level_count s -> vget (addr_vec d1) l = vget (addr_vec d2) l) ->
  addr r1 / 2 ^ m_tx_offset m = addr r2 / 2 ^ m_tx_offset m.
Proof.
  intros Hs Hi Htx Hb Hn Hset Hc1 Hc2 B1 B2 Hd1 Hd2 He. unfold decode in *. rewrite Hc1 in Hd1. rewrite Hc2 in Hd2. simpl in *.
  pose proof (init_mapper_wf name s m Hs Hi) as Hm. destruct (mw_count s m Hm) as [En H3].
  destruct (linear_decodes s m Hm k c1) as (av1 & A1 & L1 & _ & J1 & Z1).
  destruct (linear_decodes s m Hm k c2) as (av2 & A2 & L2 & _ & J2 & Z2).
  rewrite Hd1 in A1. injection A1 as ->. rewrite Hd2 in A2. injection A2 as ->. simpl in He.
  assert (Htxn : tx_number m c1 = tx_number m c2).
  { rewrite <- (Z.mod_small (tx_number m c1) (capacity m)), <- (Z.mod_small (tx_number m c2) (capacity m)) by done.
    rewrite <- J1, <- J2. apply join_ext. intros i. rewrite (order_perm s m Hm k), elem_of_seqZ. intros Hin. apply He. lia. }
  unfold CacheLineInterleave_setup in Hset. destruct ((1 <? n) && not_pow2 n) eqn:Hp; [done|].
  rewrite calc_log2_spec in Hset by lia. injection Hset as <-. pose proof (Z.log2_nonneg n) as Hl.
  apply interleave_spec in Hc1 as (h1 & a1 & v1 & -> & V1 & X1); [|done].
  apply interleave_spec in Hc2 as (h2 & a2 & v2 & -> & V2 & X2); [|done]. simpl in *.
  unfold tx_number in Htxn. simpl in Htxn. rewrite !Z.shiftr_div_pow2 in Htxn by lia.
  assert (Hch : h1 = h2).
  { specialize (He 0 ltac:(lia)). rewrite Z1, Z2 in He. erewrite !start_channel in He; [|exact V2|lia|exact V1|lia].
    by injection He. }
  subst h2. destruct (n <=? 1).
  - destruct X1 as [_ ->]. destruct X2 as [_ ->]. done.
  - destruct X1 as (_ & _ & <-). destruct X2 as (_ & _ & <-). rewrite !insert_channel_tx by lia. by rewrite Htxn.
Qed.

(** Two bytes of one transaction. *)
Definition req_or (q : result Request) : Request := match q with Ok r => r | Err _ => Request_default end.
Definition byte_a : Request := Request_addr 123456 Read.
Definition byte_b : Request := Request_addr 123467 Read.

Lemma decode_no_aliasing_witness : addr byte_a / 2 ^ 6 = addr byte_b / 2 ^ 6.
Proof.
  apply (decode_no_aliasing ChRaBaRoCo "ChRaBaRoCo" map_spec map_mapper 2 4 four_channels byte_a byte_b
           (req_or (CacheLineInterleave_apply four_channels byte_a)) (req_or (CacheLineInterleave_apply four_channels byte_b))
           (req_or (decode ChRaBaRoCo four_channels map_mapper byte_a))
           (req_or (decode ChRaBaRoCo four_channels map_mapper byte_b)));
    try (vm_compute; reflexivity); try (vm_compute; congruence); try (vm_compute; split; congruence).
Defined.

(** ** The memory system *)

(** What the system relies on: a controller leaves the ordinal of the request
    alone. *)
Class IControllerLaws (C : Type) `{IController C} :=
  c_send_keeps : forall c r ok r' c', c_send c r = Ok (ok, r', c') -> admission_ordinal r' = admission_ordinal r.

#[export] Instance GenericDDR_controller_laws {R P G : Type} `{IR : RefreshManager R} `{IP : RowPolicy P}
  `{IG : ControllerPlugin G} (apply : Request -> result Request) `{!AddrMapperLaws apply} (sch : scheduler_t) :
  @IControllerLaws (GenericDDR R P G) (GenericDDR_controller apply sch).
Proof.
  intros g r ok r' g' H. simpl in H. apply bind_Ok in H as ([[ok1 r1] c1] & Hs & H). injection H as <- <- <-. simpl.
  unfold send in Hs. destruct (_ && _); [done|]. apply bind_Ok in Hs as (r2 & Hap & Hs).
  destruct (mapper_frame _ _ Hap) as (av0 & ->). apply bind_Ok in Hs as (av & _ & Hs). apply bind_Ok in Hs as (fc & _ & Hs).
  simpl in Hs. repeat (case_match; simplify_eq/=; try done).
Qed.

Section system.
Context {C M : Type} `{IC : IController C} `{!IControllerLaws C} (map_apply : M -> Request -> result Request).

(** A sequence of offered requests, and the identities of those accepted. *)
Fixpoint send_all (s : GenericDRAMSystem C M) (rs : list Request) : result (list (Z * Z) * GenericDRAMSystem C M) :=
  match rs with
  | [] => Ok ([], s)
  | r :: rs =>
      m ← map_apply (s_mapper s) r;
      ch ← vget (addr_vec m) 0;
      q ← system_send map_apply s r;
      let '(ok, r', s) := q in
      p ← send_all s rs;
      Ok ((if (ok : bool) then [(ch, admission_ordinal r')] else []) ++ p.1, p.2)
  end.

Lemma system_send_spec (s s' : GenericDRAMSystem C M) (r r' : Request) (ok : bool) :
  system_send map_apply s r = Ok (ok, r', s') ->
  exists m ch c c' o, map_apply (s_mapper s) r = Ok m /\ vget (addr_vec m) 0 = Ok ch /\
    vget (m_next_admission_ordinal s) ch = Ok o /\ vset (m_next_admission_ordinal s) ch (o + 1) = Ok (m_next_admission_ordinal s') /\
    vget (m_controllers s) ch = Ok c /\ vset (m_controllers s) ch c' = Ok (m_controllers s') /\
    s_mapper s' = s_mapper s /\ admission_ordinal r' = (if ok then o else -1).
Proof.
  unfold system_send. destruct (_ || _); [done|]. intros (m & Hm & H)%bind_Ok. apply bind_Ok in H as (ch & Hch & H).
  apply bind_Ok in H as (o & Ho & H). apply bind_Ok in H as (os & Hos & H). apply bind_Ok in H as (c & Hc & H).
  apply bind_Ok in H as ([[ok1 r1] c1] & Hs & H). apply bind_Ok in H as (cs & Hcs & H). injection H as <- <- <-.
  exists m, ch, c, c1, o. simpl. split_and!; try done. destruct ok1; [|done].
  by rewrite (c_send_keeps _ _ _ _ _ Hs).
Qed.

(** Ordinals handed out later are at least the channel's next one. *)
Lemma send_all_ge (rs : list Request) (s s' : GenericDRAMSystem C M) (ids : list (Z * Z)) :
  send_all s rs = Ok (ids, s') ->
  forall ch o n, (ch, o) ∈ ids -> vget (m_next_admission_ordinal s) ch = Ok n -> n <= o.
Proof.
  revert s ids. induction rs as [|r rs IH]; intros s ids H ch o n Hin Hn; simpl in H.
  { injection H as <- <-. by apply elem_of_nil in Hin. }
  apply bind_Ok in H as (m & Hm & H). apply bind_Ok in H as (h & Hh & H). apply bind_Ok in H as ([[ok r'] s1] & Hs & H).
  apply bind_Ok in H as ([ids' s2] & Hrest & H). injection H as <- <-.
  apply system_send_spec in Hs as (m' & h' & c & c' & o' & Hm' & Hh' & Ho & Hos & _ & _ & _ & Eo).
  rewrite Hm in Hm'. injection Hm' as <-. rewrite Hh in Hh'. injection Hh' as <-.
  destruct (vset_coord _ _ _ _ Hos) as (_ & Hnew & Hold). simpl in Hin. apply elem_of_app in Hin as [Hin|Hin].
  - destruct ok; [|by apply elem_of_nil in Hin]. apply list_elem_of_singleton in Hin as [= -> ->]. rewrite Eo.
    rewrite Hn in Ho. injection Ho as <-. lia.
  - destruct (decide (ch = h)) as [->|Hne].
    + specialize (IH _ _ Hrest h o (o' + 1) Hin Hnew). rewrite Hn in Ho. injection Ho as <-. lia.
    + eapply (IH _ _ Hrest ch o n Hin). by rewrite Hold.
Qed.
End system.

(** The identity (channel, admission ordinal) that the memory system gives
    an accepted request is never given to another one, whatever is offered and
    rejected in between. *)
Theorem admission_ordinals_unique {C M : Type} (IC : IController C) (LC : IControllerLaws C)
  (map_apply : M -> Request -> result Request) (s s' : GenericDRAMSystem C M) (rs : list Request) (ids : list (Z * Z)) :
  send_all map_apply s rs = Ok (ids, s') -> NoDup ids.
Proof.
  revert s ids. induction rs as [|r rs IH]; intros s ids H; simpl in H; [injection H as <- <-; constructor|].
  apply bind_Ok in H as (m & Hm & H). apply bind_Ok in H as (h & Hh & H). apply bind_Ok in H as ([[ok r'] s1] & Hs & H).
  apply bind_Ok in H as ([ids' s2] & Hrest & H). injection H as <- <-. simpl.
  apply system_send_spec in Hs as (m' & h' & c & c' & o' & Hm' & Hh' & _ & Hos & _ & _ & _ & Eo).
  rewrite Hm in Hm'. injection Hm' as <-. rewrite Hh in Hh'. injection Hh' as <-.
  destruct ok; simpl; [|by eapply IH]. constructor; [|by eapply IH]. intros Hin.
  destruct (vset_coord _ _ _ _ Hos) as (_ & Hnew & _).
  pose proof (send_all_ge map_apply _ _ _ _ Hrest _ _ _ Hin Hnew). lia.
Qed.


(** The mappers only write the address vector. *)
#[export] Instance linear_mapper_laws (k : linear_mapper) (m : AddrMapperBase) : AddrMapperLaws (linear_apply k m).
Proof.
  intros r r' H. destruct k; simpl in H; unfold ChRaBaRoCo_apply, RoBaRaCoCh_apply in H.
  - apply bind_Ok in H as (st & _ & H). injection H as <-. by eexists.
  - apply bind_Ok in H as (st & _ & H). apply bind_Ok in H as (st2 & _ & H). injection H as <-. by eexists.
Qed.
#[export] Instance mop_mapper_laws (m : AddrMapperBase) : AddrMapperLaws (MOP4CLXOR_apply m).
Proof.
  intros r r' H. unfold MOP4CLXOR_apply in H. repeat (apply bind_Ok in H as (? & _ & H)). injection H as <-. by eexists.
Qed.

(** Two channels of the small DDR4 controller. *)
#[export] Instance small_controller : IController (GenericDDR NoRefresh OpenRowPolicy Empty_set) :=
  GenericDDR_controller (linear_apply ChRaBaRoCo map_mapper) FRFCFS.

Definition small_system_r : result (GenericDRAMSystem (GenericDDR NoRefresh OpenRowPolicy Empty_set) Interleave) :=
  system_init (CacheLineInterleave_setup 0) [small_gddr; small_gddr].
Definition small_system : GenericDRAMSystem (GenericDDR NoRefresh OpenRowPolicy Empty_set) Interleave :=
  match small_system_r with Ok s => s | Err _ => mkSystem (mkInterleave 0 0 0) [] [] 0 0 0 end.

Definition sized_read (a : Addr_t) : Request :=
  mkRequest a (-1) [] Read 0 (-1) (-1) 0 (-1) 64 (-1) (-1) false (-1) (-1) None.

(** Addresses of channels 0, 1 and 0. *)
Definition small_sends : result (list (Z * Z) * GenericDRAMSystem (GenericDDR NoRefresh OpenRowPolicy Empty_set) Interleave) :=
  send_all CacheLineInterleave_apply small_system [sized_read 0; sized_read 64; sized_read 4096].

Lemma admission_ordinals_unique_witness : NoDup [(0, 0); (1, 0); (0, 1)].
Proof.
  apply (admission_ordinals_unique small_controller _ CacheLineInterleave_apply small_system
           (match small_sends with Ok q => q.2 | Err _ => small_system end)
           [sized_read 0; sized_read 64; sized_read 4096]).
  vm_compute. reflexivity.
Defined.

(** ** Translation *)

(** Translating a sequence of addresses. *)
Definition translate_all (t : RandomTranslation) (l : list Addr_t) : result (list Addr_t) :=
  p ← foldM (fun (st : RandomTranslation * list Addr_t) a =>
        q ← RandomTranslation_translate st.1 (Request_addr a Read);
        Ok (q.2, st.2 ++ [addr q.1])) (t, []) l;
  Ok p.2.

(** The frames handed out by the random translation are not distinct: on a
    64 KiB memory of 16 frames the fifth page touched is given the frame of the
    second, so two virtual pages share physical memory. *)
Theorem random_translation_collides :
  exists t, RandomTranslation_init 65536 4096 = Ok t /\ rt_num_frames t = 16 /\
    translate_all t [0; 4096; 8192; 12288; 16384] = Ok [0; 40960; 20480; 4096; 40960].
Proof.
  exists (mkRandom 4096 16 0 ∅). split_and!; vm_compute; reflexivity.
Qed.
