(* ===== verification/Plugins.v ===== *)
(** * Controller plugins

    [controller/plugin/impl]: the RowHammer trackers Graphene, TWiCeIdeal,
    OracleRH and PARA, the refresh-management dispatcher RFMManager, and the two
    observers CommandCounter and IssuedCommandValidationHook, each as an instance
    of the plugin interface of the generic controller.  Debug output is left out.

    A [std::unordered_map] is a [gmap]; its iteration order is unspecified, so a
    function that stops at the first match takes the order as an argument. *)

From Stdlib Require Import ZArith Lia SpecFloat.
From S2P Require Import Prelude Base Spec Node Standards Device Controller Scheduler GenericDDR.

Local Open Scope Z_scope.

(** ** Shared by the plugins *)

(** The two guards of every tracker: a command that opens a row of one bank. *)
Definition is_single_act (d : DRAMDevice) (req : Request) : result bool :=
  meta ← vget (command_meta (m_spec d)) (command req);
  if negb (is_opening meta) then Ok false
  else target ← vget (bank_targets (m_spec d)) (command req);
       Ok (bool_decide (target = Single)).

(** A refresh of all banks of its scope. *)
Definition is_all_refresh (d : DRAMDevice) (req : Request) : result bool :=
  meta ← vget (command_meta (m_spec d)) (command req);
  if negb (is_refreshing meta) then Ok false
  else target ← vget (bank_targets (m_spec d)) (command req);
       Ok (bool_decide (target = All)).

(** [m_clk++] on an [int]. *)
Definition inc_s32 (v : Z) : result Z := if v <? 2 ^ 31 - 1 then Ok (v + 1) else Err Undef.

(** Conversion of a [float] to [int]: truncation, undefined out of range. *)
Definition f32_to_s32 (x : spec_float) : result Z :=
  match x with
  | S754_zero _ => Ok 0
  | S754_finite s m e =>
      let v := Z.shiftl (Zpos m) e in
      let v := if (s : bool) then - v else v in
      if (- 2 ^ 31 <=? v) && (v <? 2 ^ 31) then Ok v else Err Undef
  | _ => Err Undef
  end.

(** [ns / (tCK_ps / 1000.0f)]. *)
Definition ns_to_clk (s : DRAMSpec) (ns : Z) : result Z :=
  tck ← get_timing_value s "tCK_ps";
  f32_to_s32 (SFdiv 24 128 (f32_of_Z ns) (SFdiv 24 128 (f32_of_Z tck) (f32_of_Z 1000))).

(** [m_clk % period == 0]. *)
Definition period_elapsed (clk period : Z) : result bool :=
  if period =? 0 then Err Undef else Ok (Z.rem clk period =? 0).

(** A VRR with the aggressor's address, sent without looking at the result. *)
Definition send_vrr (c : Ctrl) (req : Request) (vrr : Z) : result Ctrl :=
  q ← priority_send c (Request_cmd (addr_vec req) vrr); Ok q.2.

(** A plugin list may mix kinds. *)
#[export] Instance plugin_sum {A B : Type} `{ControllerPlugin A} `{ControllerPlugin B} : ControllerPlugin (A + B) :=
  let lift {X : Type} (inj : X -> A + B) (q : result (X * Ctrl)) : result ((A + B) * Ctrl) := p ← q; Ok (inj p.1, p.2) in
  {| pl_pre_schedule := fun g c => match g with inl a => lift inl (pl_pre_schedule a c) | inr b => lift inr (pl_pre_schedule b c) end;
     pl_on_issue := fun g c r => match g with inl a => lift inl (pl_on_issue a c r) | inr b => lift inr (pl_on_issue b c r) end;
     pl_post_schedule := fun g c => match g with inl a => lift inl (pl_post_schedule a c) | inr b => lift inr (pl_post_schedule b c) end |}.

(** ** Graphene *)
Record Graphene := mkGraphene {
  gr_clk : Z;
  gr_num_table_entries : Z;
  gr_activation_threshold : Z;
  gr_reset_period_clk : Z;
  gr_vrr_cmd_id : Z;
  gr_row_level : Z;
  gr_table : list (gmap Z Z);
  gr_spillover : list Z
}.

Definition gr_set (g : Graphene) (clk : Z) (t : list (gmap Z Z)) (s : list Z) : Graphene :=
  mkGraphene clk (gr_num_table_entries g) (gr_activation_threshold g) (gr_reset_period_clk g)
    (gr_vrr_cmd_id g) (gr_row_level g) t s.

(** The dummy entries: rows [-num_rows .. -num_rows + entries - 1]. *)
Definition dummy_table (rows entries : Z) : gmap Z Z :=
  list_to_map (map (fun j => (j, 0)) (seqZ (- rows) entries)).

Definition Graphene_setup (c : Ctrl) (num_table_entries activation_threshold reset_period_ns : Z) : result Graphene :=
  let spec := m_spec (m_device c) in
  if negb (has_command spec "VRR") then
    Err (Throw "Graphene is not compatible with the DRAM standard that does not have Victim-Row-Refresh (VRR) command!")
  else
    period ← ns_to_clk spec reset_period_ns;
    vrr ← get_command_id spec "VRR";
    _ ← get_level_id spec "Rank";
    _ ← get_level_id spec "Bank";
    row ← get_level_id spec "Row";
    rows ← get_level_size spec "Row";
    let banks := length (m_bank_nodes (m_device c)) in
    Ok (mkGraphene 0 num_table_entries activation_threshold period vrr row
          (replicate banks (dummy_table rows num_table_entries)) (replicate banks 0)).

Definition Graphene_pre_schedule (g : Graphene) : result Graphene :=
  clk ← inc_s32 (gr_clk g);
  e ← period_elapsed clk (gr_reset_period_clk g);
  Ok (if (e : bool)
      then gr_set g clk (map (fmap (fun _ => 0)) (gr_table g)) (map (fun _ => 0) (gr_spillover g))
      else gr_set g clk (gr_table g) (gr_spillover g)).

(** The loop that looks for an entry whose count is the spillover counter. *)
Definition evictable (order : gmap Z Z -> list (Z * Z)) (t : gmap Z Z) (spill : Z) : option (Z * Z) :=
  List.find (fun e => e.2 =? spill) (order t).

Definition Graphene_on_issue (order : gmap Z Z -> list (Z * Z)) (g : Graphene) (c : Ctrl) (req : Request)
  : result (Graphene * Ctrl) :=
  act ← is_single_act (m_device c) req;
  if negb act then Ok (g, c)
  else
    bank ← get_flat_bank_id (m_device c) (addr_vec req);
    row ← vget (addr_vec req) (gr_row_level g);
    t ← vget (gr_table g) bank;
    match t !! row with
    | None =>
        spill ← vget (gr_spillover g) bank;
        match evictable order t spill with
        | Some (to_remove, value) =>
            ts ← vset (gr_table g) bank (<[row := value + 1]> (delete to_remove t));
            Ok (gr_set g (gr_clk g) ts (gr_spillover g), c)
        | None =>
            ss ← vset (gr_spillover g) bank (spill + 1);
            Ok (gr_set g (gr_clk g) (gr_table g) ss, c)
        end
    | Some count =>
        if gr_activation_threshold g <=? count + 1 then
          c ← send_vrr c req (gr_vrr_cmd_id g);
          spill ← vget (gr_spillover g) bank;
          ts ← vset (gr_table g) bank (<[row := spill]> t);
          Ok (gr_set g (gr_clk g) ts (gr_spillover g), c)
        else
          ts ← vset (gr_table g) bank (<[row := count + 1]> t);
          Ok (gr_set g (gr_clk g) ts (gr_spillover g), c)
    end.

#[export] Instance Graphene_plugin (order : gmap Z Z -> list (Z * Z)) : ControllerPlugin Graphene := {|
  pl_pre_schedule := fun g c => g ← Graphene_pre_schedule g; Ok (g, c);
  pl_on_issue := Graphene_on_issue order;
  pl_post_schedule := fun g c => Ok (g, c)
|}.

(** ** OracleRH *)
Record OracleRH := mkOracle {
  or_rh_threshold : Z;
  or_vrr_cmd_id : Z;
  or_rank_level : Z;
  or_row_level : Z;
  or_num_banks_per_rank : Z;
  or_table : list (gmap Z Z)
}.

Definition or_set (o : OracleRH) (t : list (gmap Z Z)) : OracleRH :=
  mkOracle (or_rh_threshold o) (or_vrr_cmd_id o) (or_rank_level o) (or_row_level o) (or_num_banks_per_rank o) t.

Definition OracleRH_setup (c : Ctrl) (tRH : Z) : result OracleRH :=
  let spec := m_spec (m_device c) in
  if negb (has_command spec "VRR") then
    Err (Throw "OracleRH is not compatible with the DRAM standard that does not have Victim-Row-Refresh (VRR) command!")
  else
    vrr ← get_command_id spec "VRR";
    rank ← get_level_id spec "Rank";
    row ← get_level_id spec "Row";
    let banks := length (m_bank_nodes (m_device c)) in
    ranks ← get_level_size spec "Rank";
    if ranks =? 0 then Err Undef
    else Ok (mkOracle tRH vrr rank row (Z.quot (Z.of_nat banks) ranks) (replicate banks ∅)).

(** [m_table[bank][row]] creates the entry with 0. *)
Definition oracle_count (o : OracleRH) (c : Ctrl) (req : Request) : result (OracleRH * Ctrl) :=
  bank ← get_flat_bank_id (m_device c) (addr_vec req);
  row ← vget (addr_vec req) (or_row_level o);
  t ← vget (or_table o) bank;
  let count := default 0 (t !! row) + 1 in
  if or_rh_threshold o <=? count then
    ts ← vset (or_table o) bank (<[row := 0]> t);
    c ← send_vrr c req (or_vrr_cmd_id o);
    Ok (or_set o ts, c)
  else
    ts ← vset (or_table o) bank (<[row := count]> t);
    Ok (or_set o ts, c).

Definition oracle_clear (o : OracleRH) (req : Request) : result OracleRH :=
  rank ← vget (addr_vec req) (or_rank_level o);
  ts ← foldM (fun ts i => vset ts i ∅) (or_table o)
         (seqZ (rank * or_num_banks_per_rank o) (or_num_banks_per_rank o));
  Ok (or_set o ts).

Definition OracleRH_on_issue (o : OracleRH) (c : Ctrl) (req : Request) : result (OracleRH * Ctrl) :=
  act ← is_single_act (m_device c) req;
  p ← (if (act : bool) then oracle_count o c req else Ok (o, c));
  ref ← is_all_refresh (m_device c) req;
  o ← (if (ref : bool) then oracle_clear p.1 req else Ok p.1);
  Ok (o, p.2).

#[export] Instance OracleRH_plugin : ControllerPlugin OracleRH := {|
  pl_pre_schedule := fun g c => Ok (g, c);
  pl_on_issue := OracleRH_on_issue;
  pl_post_schedule := fun g c => Ok (g, c)
|}.

(** ** TWiCeIdeal *)
Record TwiCeEntry := mkTwice { act_count : Z; life : Z }.

Record TWiCeIdeal := mkTWiCe {
  tw_rh_threshold : Z;
  tw_pruning_interval_threshold : spec_float;
  tw_vrr_cmd_id : Z;
  tw_row_level : Z;
  tw_table : list (gmap Z TwiCeEntry)
}.

Definition tw_set (t : TWiCeIdeal) (l : list (gmap Z TwiCeEntry)) : TWiCeIdeal :=
  mkTWiCe (tw_rh_threshold t) (tw_pruning_interval_threshold t) (tw_vrr_cmd_id t) (tw_row_level t) l.

Definition TWiCeIdeal_setup (c : Ctrl) (threshold : Z) (pruning : spec_float) : result TWiCeIdeal :=
  let spec := m_spec (m_device c) in
  if negb (has_command spec "VRR") then
    Err (Throw "TWiCe is not compatible with the DRAM standard that does not have Victim-Row-Refresh (VRR) command!")
  else
    vrr ← get_command_id spec "VRR";
    _ ← get_level_id spec "Rank";
    _ ← get_level_id spec "Bank";
    row ← get_level_id spec "Row";
    Ok (mkTWiCe threshold pruning vrr row (replicate (length (m_bank_nodes (m_device c))) ∅)).

(** Pruning or ageing one entry. *)
Definition twice_age (pruning : spec_float) (e : TwiCeEntry) : option TwiCeEntry :=
  if f32_lt (f32_of_Z (act_count e)) (f32_mul (f32_of_Z (life e)) pruning) then None
  else Some (mkTwice (act_count e) (life e + 1)).

Definition twice_count (t : TWiCeIdeal) (c : Ctrl) (req : Request) : result (TWiCeIdeal * Ctrl) :=
  bank ← get_flat_bank_id (m_device c) (addr_vec req);
  row ← vget (addr_vec req) (tw_row_level t);
  m ← vget (tw_table t) bank;
  match m !! row with
  | None => l ← vset (tw_table t) bank (<[row := mkTwice 1 0]> m); Ok (tw_set t l, c)
  | Some e =>
      if tw_rh_threshold t <=? act_count e + 1 then
        c ← send_vrr c req (tw_vrr_cmd_id t);
        l ← vset (tw_table t) bank (delete row m);
        Ok (tw_set t l, c)
      else
        l ← vset (tw_table t) bank (<[row := mkTwice (act_count e + 1) (life e)]> m);
        Ok (tw_set t l, c)
  end.

Definition TWiCeIdeal_on_issue (t : TWiCeIdeal) (c : Ctrl) (req : Request) : result (TWiCeIdeal * Ctrl) :=
  ref ← is_all_refresh (m_device c) req;
  if (ref : bool) then Ok (tw_set t (map (omap (twice_age (tw_pruning_interval_threshold t))) (tw_table t)), c)
  else
    act ← is_single_act (m_device c) req;
    if (act : bool) then twice_count t c req else Ok (t, c).

#[export] Instance TWiCeIdeal_plugin : ControllerPlugin TWiCeIdeal := {|
  pl_pre_schedule := fun g c => Ok (g, c);
  pl_on_issue := TWiCeIdeal_on_issue;
  pl_post_schedule := fun g c => Ok (g, c)
|}.

(** ** PARA

    [draw n] is the n-th number of the seeded generator. *)
Record PARA := mkPARA { pa_pr_threshold : spec_float; pa_drawn : nat; pa_vrr_cmd_id : Z }.

Definition PARA_setup (c : Ctrl) (threshold : spec_float) : result PARA :=
  if SFleb threshold (f32_of_Z 0) || SFleb (f32_of_Z 1) threshold then
    Err (Throw "PARA: Invalid probability threshold!")
  else if negb (has_command (m_spec (m_device c)) "VRR") then
    Err (Throw "PARA is not compatible with the DRAM standard that does not have Victim-Row-Refresh (VRR) command!")
  else
    vrr ← get_command_id (m_spec (m_device c)) "VRR";
    Ok (mkPARA threshold 0 vrr).

Definition PARA_on_issue (draw : nat -> spec_float) (p : PARA) (c : Ctrl) (req : Request) : result (PARA * Ctrl) :=
  act ← is_single_act (m_device c) req;
  if negb act then Ok (p, c)
  else
    let p' := mkPARA (pa_pr_threshold p) (S (pa_drawn p)) (pa_vrr_cmd_id p) in
    if SFleb (pa_pr_threshold p) (draw (pa_drawn p)) then Ok (p', c)
    else c ← send_vrr c req (pa_vrr_cmd_id p); Ok (p', c).

#[export] Instance PARA_plugin (draw : nat -> spec_float) : ControllerPlugin PARA := {|
  pl_pre_schedule := fun g c => Ok (g, c);
  pl_on_issue := PARA_on_issue draw;
  pl_post_schedule := fun g c => Ok (g, c)
|}.

(** ** RFMManager *)
Inductive rfm_mode := RfmAb | RfmSb | RfmPb.

#[export] Instance rfm_mode_eq_dec : EqDecision rfm_mode.
Proof. solve_decision. Defined.

Definition parse_rfm_mode (s : string) : result rfm_mode :=
  if bool_decide (s = "ab") then Ok RfmAb
  else if bool_decide (s = "sb") then Ok RfmSb
  else if bool_decide (s = "pb") then Ok RfmPb
  else Err (Throw ("RFMManager: rfm_mode must be 'ab' (all-bank), 'sb' (same-bank), or 'pb' (per-bank); got '" +:+ s +:+ "'")).

Definition rfm_name (m : rfm_mode) : string := match m with RfmAb => "ab" | RfmSb => "sb" | RfmPb => "pb" end.
Definition rfm_cmd_name (m : rfm_mode) : string := match m with RfmAb => "RFMab" | RfmSb => "RFMsb" | RfmPb => "RFMpb" end.

(** Levels are -1 when the standard has none. *)
Record RFMManager := mkRFM {
  rfm_thresh : Z;
  rfm_rfm_mode : rfm_mode;
  rfm_cmd_id : Z;
  rfm_all_bank_scope_level : Z;
  rfm_bank_level : Z;
  rfm_bankgroup_level : Z;
  rfm_bank_ctrs : list Z;
  rfm_counter : Z
}.

Definition RFM_setup (c : Ctrl) (thresh : Z) (mode : rfm_mode) : result RFMManager :=
  let spec := m_spec (m_device c) in
  if negb (has_command spec (rfm_cmd_name mode)) then
    Err (Throw ("RFMManager: rfm_mode='" +:+ rfm_name mode +:+ "' requires DRAM standard with " +:+ rfm_cmd_name mode +:+ " command"))
  else
    cmd ← get_command_id spec (rfm_cmd_name mode);
    scope ← (if has_level spec "Rank" then get_level_id spec "Rank"
             else if has_level spec "PseudoChannel" then get_level_id spec "PseudoChannel"
             else get_level_id spec "Channel");
    bank ← get_level_id spec "Bank";
    _ ← get_level_id spec "Row";
    bg ← (if has_level spec "BankGroup" then get_level_id spec "BankGroup" else Ok (-1));
    Ok (mkRFM thresh mode cmd scope bank bg (replicate (length (m_bank_nodes (m_device c))) 0) 0).

(** The address of the RFM for the bank whose counter crossed. *)
Definition rfm_addr (m : RFMManager) (av : AddrVec_t) : result AddrVec_t :=
  av ← (if bool_decide (rfm_rfm_mode m = RfmPb) then Ok av
        else if 0 <=? rfm_bankgroup_level m then vset av (rfm_bankgroup_level m) (-1) else Ok av);
  if bool_decide (rfm_rfm_mode m = RfmAb) then
    foldM (fun av level => vset av level (-1)) av
      (seqZ (rfm_all_bank_scope_level m + 1) (rfm_bank_level m - rfm_all_bank_scope_level m))
  else Ok av.

Definition rfm_set (m : RFMManager) (l : list Z) (n : Z) : RFMManager :=
  mkRFM (rfm_thresh m) (rfm_rfm_mode m) (rfm_cmd_id m) (rfm_all_bank_scope_level m) (rfm_bank_level m)
    (rfm_bankgroup_level m) l n.

Definition RFM_on_issue (m : RFMManager) (c : Ctrl) (req : Request) : result (RFMManager * Ctrl) :=
  act ← is_single_act (m_device c) req;
  if negb act then Ok (m, c)
  else
    bank ← get_flat_bank_id (m_device c) (addr_vec req);
    n ← vget (rfm_bank_ctrs m) bank;
    ctrs ← vset (rfm_bank_ctrs m) bank (n + 1);
    if n + 1 <? rfm_thresh m then Ok (rfm_set m ctrs (rfm_counter m), c)
    else
      av ← rfm_addr m (addr_vec req);
      q ← priority_send c (Request_cmd av (rfm_cmd_id m));
      match q with
      | (false, _) =>
          name ← vget (command_names (m_spec (m_device c))) (rfm_cmd_id m);
          Err (Throw ("RFMManager: priority_send failed for " +:+ name +:+ " (priority buffer full)"))
      | (true, c) =>
          targets ← get_target_banks (m_device c) (rfm_cmd_id m) av;
          ctrs ← foldM (fun l b => vset l b 0) ctrs targets;
          Ok (rfm_set m ctrs (rfm_counter m + 1), c)
      end.

#[export] Instance RFM_plugin : ControllerPlugin RFMManager := {|
  pl_pre_schedule := fun g c => Ok (g, c);
  pl_on_issue := RFM_on_issue;
  pl_post_schedule := fun g c => Ok (g, c)
|}.

(** ** CommandCounter *)
Definition CommandCounter : Type := gmap Z Z.

Definition CommandCounter_setup (c : Ctrl) (names : list string) : result CommandCounter :=
  foldM (fun (m : CommandCounter) name => id ← get_command_id (m_spec (m_device c)) name; Ok (<[id := 0]> m)) ∅ names.

Definition CommandCounter_on_issue (m : CommandCounter) (req : Request) : CommandCounter :=
  match m !! command req with Some n => <[command req := n + 1]> m | None => m end.

Definition CommandCounter_reset_stats (m : CommandCounter) : CommandCounter := (fun _ => 0) <$> m.

#[export] Instance CommandCounter_plugin : ControllerPlugin CommandCounter := {|
  pl_pre_schedule := fun g c => Ok (g, c);
  pl_on_issue := fun g c req => Ok (CommandCounter_on_issue g req, c);
  pl_post_schedule := fun g c => Ok (g, c)
|}.

(** ** IssuedCommandValidationHook *)
Record IssuedCommandRecord := mkIssued {
  ic_clk : Clk_t;
  ic_command : Z;
  ic_final_command : Z;
  ic_addr_vec : AddrVec_t;
  ic_type_id : Z;
  ic_source_id : Z
}.

Inductive ValidationHook := mkHook (issued_commands_this_tick : list IssuedCommandRecord).

Definition Hook_on_issue (h : ValidationHook) (c : Ctrl) (req : Request) : ValidationHook :=
  let 'mkHook l := h in
  mkHook (l ++ [mkIssued (m_clk c) (command req) (final_command req) (addr_vec req) (type_id req) (source_id req)]).

Definition take_issued_commands_this_tick (h : ValidationHook) : list IssuedCommandRecord * ValidationHook :=
  let 'mkHook l := h in (l, mkHook []).

#[export] Instance Hook_plugin : ControllerPlugin ValidationHook := {|
  pl_pre_schedule := fun _ c => Ok (mkHook [], c);
  pl_on_issue := fun h c req => Ok (Hook_on_issue h c req, c);
  pl_post_schedule := fun h c => Ok (h, c)
|}.
