(* ===== verification/GrapheneProps.v ===== *)
(** * Graphene bounds unmitigated activations

    The counting table of Graphene over-approximates, per bank, the activations a
    row has received since its last victim-row refresh, and the spillover counter
    those of the rows it does not track.  With a table large enough for the
    activation budget of a reset period, no row reaches the threshold without a
    VRR in the priority queue. *)

From Stdlib Require Import ZArith Lia SpecFloat.
From S2P Require Import Prelude Base Spec Node Standards Device Controller Scheduler GenericDDR.
From S2P Require Import ControllerFacts ControllerInv Refresh ControllerProps Examples CtrlExamples Plugins.

Local Open Scope Z_scope.

(** ** The sum of a table *)
Definition total (t : gmap Z Z) : Z := map_fold (fun _ v s => v + s) 0 t.

Lemma total_insert (t : gmap Z Z) (k v : Z) : t !! k = None -> total (<[k := v]> t) = v + total t.
Proof. intros Hk. unfold total. rewrite map_fold_insert_L; [done|intros; lia|done]. Qed.

Lemma total_delete (t : gmap Z Z) (k v : Z) : t !! k = Some v -> total t = v + total (delete k t).
Proof. intros Hk. rewrite <- (total_insert (delete k t) k v) by apply lookup_delete_eq. by rewrite insert_delete_id. Qed.

Lemma total_update (t : gmap Z Z) (k v w : Z) : t !! k = Some v -> total (<[k := w]> t) = total t + w - v.
Proof.
  intros Hk. rewrite <- insert_delete_eq, total_insert by apply lookup_delete_eq. rewrite (total_delete t k v Hk). lia.
Qed.

Lemma total_lower (t : gmap Z Z) (s : Z) : (forall k v, t !! k = Some v -> s <= v) -> Z.of_nat (size t) * s <= total t.
Proof.
  induction t as [|k v t Hk IH] using map_ind; intros Hs; [unfold total; rewrite map_fold_empty, map_size_empty; lia|].
  rewrite total_insert, map_size_insert_None by done. pose proof (Hs k v (lookup_insert_eq _ _ _)).
  assert (Z.of_nat (size t) * s <= total t); [|lia]. apply IH. intros k' v' Hk'. apply (Hs k').
  rewrite lookup_insert_ne; [done|congruence].
Qed.

Lemma total_zero (t : gmap Z Z) : (forall k v, t !! k = Some v -> v = 0) -> total t = 0.
Proof.
  induction t as [|k v t Hk IH] using map_ind; intros Hs; [done|]. rewrite total_insert by done.
  rewrite (Hs k v (lookup_insert_eq _ _ _)). rewrite IH; [done|]. intros k' v' Hk'. apply (Hs k').
  rewrite lookup_insert_ne; [done|congruence].
Qed.

(** ** One bank *)

(** [N] entries, threshold [T]; [n row] activations of a row since its last VRR,
    [a] activations of the bank in the period. *)
Record bank_inv (N T : Z) (t : gmap Z Z) (s : Z) (n : Z -> Z) (a : Z) : Prop := {
  bi_size : Z.of_nat (size t) = N;
  bi_spill : 0 <= s;
  bi_total : total t + s <= a;
  bi_in : forall row v, t !! row = Some v -> s <= v < T /\ 0 <= n row <= v;
  bi_out : forall row, t !! row = None -> 0 <= n row <= s
}.

Definition upd (n : Z -> Z) (k v : Z) : Z -> Z := fun x => if x =? k then v else n x.

Lemma upd_eq (n : Z -> Z) (k v : Z) : upd n k v k = v.
Proof. unfold upd. by rewrite Z.eqb_refl. Qed.
Lemma upd_ne (n : Z -> Z) (k v x : Z) : x <> k -> upd n k v x = n x.
Proof. intros Hx. unfold upd. by destruct (Z.eqb_spec x k). Qed.

Section bank.
Context {N T : Z} {t : gmap Z Z} {s a : Z} {n : Z -> Z} (HB : bank_inv N T t s n a).

(** The spillover counter is bounded by the mean of the table. *)
Lemma spill_bound : (N + 1) * s <= a.
Proof.
  destruct HB as [Hsz H0 Ht Hi _]. pose proof (total_lower t s (fun k v Hk => proj1 (proj1 (Hi k v Hk)))). lia.
Qed.

Lemma bank_hit (row v : Z) : t !! row = Some v -> v + 1 < T -> bank_inv N T (<[row := v + 1]> t) s (upd n row (n row + 1)) (a + 1).
Proof.
  intros Hr Hv. destruct HB as [Hsz H0 Ht Hi Ho]. pose proof (Hi row v Hr). constructor.
  - rewrite map_size_insert_Some by done. done.
  - done.
  - rewrite (total_update t row v) by done. lia.
  - intros r w Hw. destruct (decide (r = row)) as [->|Hne].
    + rewrite lookup_insert_eq in Hw. injection Hw as <-. rewrite upd_eq. lia.
    + rewrite lookup_insert_ne in Hw by done. rewrite upd_ne by done. by apply Hi.
  - intros r Hw. apply lookup_insert_None in Hw as [Hw Hne]. rewrite upd_ne by done. by apply Ho.
Qed.

Lemma bank_mitigate (row v : Z) : t !! row = Some v -> s < T -> bank_inv N T (<[row := s]> t) s (upd n row 0) (a + 1).
Proof.
  intros Hr HT. destruct HB as [Hsz H0 Ht Hi Ho]. pose proof (Hi row v Hr). constructor.
  - rewrite map_size_insert_Some by done. done.
  - done.
  - rewrite (total_update t row v) by done. lia.
  - intros r w Hw. destruct (decide (r = row)) as [->|Hne].
    + rewrite lookup_insert_eq in Hw. injection Hw as <-. rewrite upd_eq. lia.
    + rewrite lookup_insert_ne in Hw by done. rewrite upd_ne by done. by apply Hi.
  - intros r Hw. apply lookup_insert_None in Hw as [Hw Hne]. rewrite upd_ne by done. by apply Ho.
Qed.

Lemma bank_evict (row out : Z) :
  t !! row = None -> t !! out = Some s -> s + 1 < T ->
  bank_inv N T (<[row := s + 1]> (delete out t)) s (upd n row (n row + 1)) (a + 1).
Proof.
  intros Hr Hout HT. destruct HB as [Hsz H0 Ht Hi Ho]. pose proof (Ho row Hr).
  assert (delete out t !! row = None) as Hd by (apply lookup_delete_None; by right). constructor.
  - rewrite map_size_insert_None by done. rewrite map_size_delete, Hout. simpl.
    enough (size t <> 0%nat) by lia. rewrite map_size_ne_0_lookup. eauto.
  - done.
  - rewrite total_insert by done. pose proof (total_delete t out s Hout). lia.
  - intros r w Hw. destruct (decide (r = row)) as [->|Hne].
    + rewrite lookup_insert_eq in Hw. injection Hw as <-. rewrite upd_eq. lia.
    + rewrite lookup_insert_ne in Hw by done. apply lookup_delete_Some in Hw as [_ Hw]. rewrite upd_ne by done. by apply Hi.
  - intros r Hw. apply lookup_insert_None in Hw as [Hw Hne]. rewrite upd_ne by done.
    apply lookup_delete_None in Hw as [->|Hw]; [|by apply Ho]. apply (Hi r s Hout).
Qed.

Lemma bank_spill (row : Z) :
  t !! row = None -> (forall k v, t !! k = Some v -> v <> s) -> bank_inv N T t (s + 1) (upd n row (n row + 1)) (a + 1).
Proof.
  intros Hr Hs. destruct HB as [Hsz H0 Ht Hi Ho]. pose proof (Ho row Hr). constructor; [done|lia|lia| |].
  - intros r v Hv. pose proof (Hi r v Hv). pose proof (Hs r v Hv). rewrite upd_ne by congruence. lia.
  - intros r Hv. pose proof (Ho r Hv). unfold upd. destruct (Z.eqb_spec r row) as [->|]; lia.
Qed.
End bank.

Lemma bank_reset (N T : Z) (t : gmap Z Z) :
  Z.of_nat (size t) = N -> 0 < T -> (forall k v, t !! k = Some v -> v = 0) -> bank_inv N T t 0 (fun _ => 0) 0.
Proof.
  intros Hsz HT Hz. constructor; [done|lia|rewrite total_zero by done; lia| |intros; lia].
  intros r v Hv. rewrite (Hz r v Hv). lia.
Qed.

(** ** Runs of the plugin

    [n b row] is the number of activations of a row of a bank since a VRR for it
    was queued, or since the period began; [a b] the activations of the bank in the
    period, at most [A].  Any iteration order of the tables may occur at any step,
    and any controller whose priority queue has room may call the plugin. *)
Definition upd2 (n : Z -> Z -> Z) (b row v : Z) : Z -> Z -> Z := fun x => if x =? b then upd (n x) row v else n x.

Definition period_starts (g : Graphene) : bool := Z.rem (gr_clk g) (gr_reset_period_clk g) =? 0.

Definition prio (c : Ctrl) : list Request := buffer (m_priority_buffer c).

Inductive gr_run (A : Z) : Graphene -> (Z -> Z -> Z) -> (Z -> Z) -> Prop :=
| gr_setup c entries threshold ns g :
    Graphene_setup c entries threshold ns = Ok g -> gr_run A g (fun _ _ => 0) (fun _ => 0)
| gr_cycle g g' n a :
    gr_run A g n a -> Graphene_pre_schedule g = Ok g' ->
    gr_run A g' (if period_starts g' then fun _ _ => 0 else n) (if period_starts g' then fun _ => 0 else a)
| gr_other g g' n a order c c' req :
    gr_run A g n a -> is_single_act (m_device c) req = Ok false -> Graphene_on_issue order g c req = Ok (g', c') ->
    gr_run A g' n a
| gr_act g g' n a order c c' req b row (vrr : bool) :
    gr_run A g n a -> (forall t, order t ≡ₚ map_to_list t) ->
    is_single_act (m_device c) req = Ok true -> get_flat_bank_id (m_device c) (addr_vec req) = Ok b ->
    vget (addr_vec req) (gr_row_level g) = Ok row ->
    buf_size (m_priority_buffer c) < max_size (m_priority_buffer c) -> a b < A ->
    Graphene_on_issue order g c req = Ok (g', c') ->
    prio c' = prio c ++ (if vrr then [Request_cmd (addr_vec req) (gr_vrr_cmd_id g)] else []) ->
    gr_run A g' (upd2 n b row (if vrr then 0 else n b row + 1)) (upd a b (a b + 1)).

Record gr_inv (A : Z) (g : Graphene) (n : Z -> Z -> Z) (a : Z -> Z) : Prop := {
  gi_len : length (gr_spillover g) = length (gr_table g);
  gi_budget : forall b, a b <= A;
  gi_bank : forall b t s, vget (gr_table g) b = Ok t -> vget (gr_spillover g) b = Ok s ->
    bank_inv (gr_num_table_entries g) (gr_activation_threshold g) t s (n b) (a b);
  gi_none : forall b row, ~ 0 <= b < Z.of_nat (length (gr_table g)) -> n b row = 0
}.

Lemma evictable_spec (order : gmap Z Z -> list (Z * Z)) (t : gmap Z Z) (s : Z) :
  order t ≡ₚ map_to_list t ->
  match evictable order t s with
  | Some (k, v) => v = s /\ t !! k = Some s
  | None => forall k v, t !! k = Some v -> v <> s
  end.
Proof.
  intros Hp. unfold evictable. destruct (List.find _ _) as [[k v]|] eqn:Hf.
  - apply List.find_some in Hf as [Hin Heq]. simpl in Heq. assert (v = s) as -> by lia. split; [done|].
    apply elem_of_map_to_list. rewrite <- Hp. by apply list_elem_of_In.
  - intros k v Hk. pose proof (List.find_none _ _ Hf (k, v)) as Hn. simpl in Hn.
    enough ((v =? s) = false) by lia. apply Hn. apply list_elem_of_In. rewrite Hp. by apply elem_of_map_to_list.
Qed.

Lemma priority_send_prio (c c' : Ctrl) (r : Request) :
  priority_send c r = Ok (true, c') -> prio c' = prio c ++ [r].
Proof.
  unfold priority_send. destruct (_ || _); [done|]. destruct (enqueue _ _) as [[|] b] eqn:Hq; [|done].
  apply enqueue_true in Hq as [Hq _]. intros [= <-]. unfold prio. by destruct (_ =? _).
Qed.

Lemma priority_send_room (c : Ctrl) (r : Request) :
  0 <= final_command r < command_count (m_spec (m_device c)) ->
  buf_size (m_priority_buffer c) < max_size (m_priority_buffer c) -> exists c', priority_send c r = Ok (true, c').
Proof.
  intros Hf Hr. unfold priority_send.
  assert ((final_command r <? 0) || (command_count (m_spec (m_device c)) <=? final_command r) = false) as -> by lia.
  destruct (enqueue _ _) as [[|] b] eqn:Hq; [by eexists|]. apply enqueue_false in Hq as [_ Hq]. lia.
Qed.

Lemma send_vrr_room (c c' : Ctrl) (req : Request) (vrr : Z) :
  send_vrr c req vrr = Ok c' -> buf_size (m_priority_buffer c) < max_size (m_priority_buffer c) ->
  prio c' = prio c ++ [Request_cmd (addr_vec req) vrr].
Proof.
  unfold send_vrr. intros ([[|] c1] & H & [= <-])%bind_Ok Hr; [by apply priority_send_prio|].
  unfold priority_send in H. destruct (_ || _); [done|]. destruct (enqueue _ _) as [[|] b] eqn:Hq; [done|].
  apply enqueue_false in Hq as [_ Hq]. lia.
Qed.

(** What an activation does to the table and spillover counter of its bank. *)
Lemma on_issue_act (order : gmap Z Z -> list (Z * Z)) (g g' : Graphene) (c c' : Ctrl) (req : Request) (b row N a : Z)
  (n : Z -> Z) (vrr : bool) (t : gmap Z Z) (s : Z) :
  (forall t, order t ≡ₚ map_to_list t) -> is_single_act (m_device c) req = Ok true ->
  get_flat_bank_id (m_device c) (addr_vec req) = Ok b -> vget (addr_vec req) (gr_row_level g) = Ok row ->
  buf_size (m_priority_buffer c) < max_size (m_priority_buffer c) ->
  Graphene_on_issue order g c req = Ok (g', c') ->
  prio c' = prio c ++ (if vrr then [Request_cmd (addr_vec req) (gr_vrr_cmd_id g)] else []) ->
  vget (gr_table g) b = Ok t -> vget (gr_spillover g) b = Ok s ->
  bank_inv N (gr_activation_threshold g) t s n a -> s + 1 < gr_activation_threshold g ->
  exists t' s', bank_inv N (gr_activation_threshold g) t' s' (upd n row (if vrr then 0 else n row + 1)) (a + 1) /\
    (forall j, vget (gr_table g') j = if j =? b then Ok t' else vget (gr_table g) j) /\
    (forall j, vget (gr_spillover g') j = if j =? b then Ok s' else vget (gr_spillover g) j) /\
    length (gr_table g') = length (gr_table g) /\ length (gr_spillover g') = length (gr_spillover g) /\
    gr_num_table_entries g' = gr_num_table_entries g /\ gr_activation_threshold g' = gr_activation_threshold g.
Proof.
  intros Hord Hact Hb Hrow Hroom H Hv Ht Hs HB Hlim. unfold Graphene_on_issue in H.
  rewrite Hact in H. simpl in H. rewrite Hb in H. simpl in H. rewrite Hrow in H. simpl in H. rewrite Ht in H. simpl in H.
  assert (Hsame : forall (l : list Z), vget l b = Ok s -> forall j, vget l j = if j =? b then Ok s else vget l j).
  { intros l Hl j. by destruct (Z.eqb_spec j b) as [->|]. }
  assert (Hsame' : forall j, vget (gr_table g) j = if j =? b then Ok t else vget (gr_table g) j).
  { intros j. by destruct (Z.eqb_spec j b) as [->|]. }
  assert (Hnov : forall c1, c1 = c -> c' = c1 -> vrr = false).
  { intros ? -> ->. destruct vrr; [|done]. exfalso. apply (f_equal length) in Hv. rewrite length_app in Hv. simpl in Hv. lia. }
  destruct (t !! row) as [v|] eqn:Hr.
  - destruct (Z.leb_spec (gr_activation_threshold g) (v + 1)) as [Hge|Hlt].
    + apply bind_Ok in H as (c1 & Hsend & H). rewrite Hs in H. simpl in H. apply bind_Ok in H as (ts & Hts & H).
      injection H as <- <-. pose proof (send_vrr_room _ _ _ _ Hsend Hroom) as Hg. rewrite Hv in Hg.
      apply app_inv_head in Hg. destruct vrr; [|done]. exists (<[row := s]> t), s. simpl.
      split_and!; try done; [by apply (bank_mitigate HB row v); [|lia]|intros; by eapply vget_vset|by apply Hsame|by eapply vset_length].
    + apply bind_Ok in H as (ts & Hts & H). injection H as <- <-. rewrite (Hnov c) by done.
      exists (<[row := v + 1]> t), s. simpl.
      split_and!; try done; [by apply (bank_hit HB row v); [|lia]|intros; by eapply vget_vset|by apply Hsame|by eapply vset_length].
  - rewrite Hs in H. simpl in H. pose proof (evictable_spec order t s (Hord t)) as He.
    destruct (evictable order t s) as [[k v]|].
    + destruct He as [-> Hk]. apply bind_Ok in H as (ts & Hts & H). injection H as <- <-. rewrite (Hnov c) by done.
      exists (<[row := s + 1]> (delete k t)), s. simpl.
      split_and!; try done; [by apply (bank_evict HB row k)|intros; by eapply vget_vset|by apply Hsame|by eapply vset_length].
    + apply bind_Ok in H as (ss & Hss & H). injection H as <- <-. rewrite (Hnov c) by done.
      exists t, (s + 1). simpl.
      split_and!; try done; [by apply (bank_spill HB row)|intros; by eapply vget_vset|by eapply vset_length].
Qed.

Lemma dummy_table_spec (rows entries : Z) :
  0 <= entries -> Z.of_nat (size (dummy_table rows entries)) = entries /\
  forall k v, dummy_table rows entries !! k = Some v -> v = 0.
Proof.
  intros He. unfold dummy_table.
  assert (Hnd : NoDup (map (fun j : Z => (j, 0)) (seqZ (- rows) entries)).*1).
  { rewrite <- list_fmap_compose. change (NoDup ((fun j : Z => j) <$> seqZ (- rows) entries)). rewrite list_fmap_id.
    apply NoDup_seqZ. }
  split.
  - rewrite <- length_map_to_list, (Permutation_length (map_to_list_to_map _ Hnd)), length_map, length_seqZ. lia.
  - intros k v Hk%elem_of_list_to_map_2. apply list_elem_of_In, List.in_map_iff in Hk as (x & [= _ <-] & _). done.
Qed.

Lemma fold_reset (l : list (gmap Z Z)) (ss : list Z) (b : Z) (t : gmap Z Z) (s : Z) :
  vget (map (fmap (fun _ => 0)) l) b = Ok t -> vget (map (fun _ => 0) ss) b = Ok s ->
  s = 0 /\ (forall k v, t !! k = Some v -> v = 0) /\ exists t0, vget l b = Ok t0 /\ size t = size t0.
Proof.
  intros [Hb Ht]%vget_Ok [_ Hs]%vget_Ok. apply list_lookup_fmap_Some in Ht as (t0 & -> & Ht0).
  apply list_lookup_fmap_Some in Hs as (s0 & -> & _). split_and!; [done| |].
  - intros k v Hk. apply lookup_fmap_Some in Hk as (x & <- & _). done.
  - exists t0. split; [by apply vget_Ok|]. apply map_size_fmap.
Qed.

(** The activation budget of a period fits the table. *)
Definition budget_fits (A : Z) (g : Graphene) : Prop :=
  0 <= gr_num_table_entries g /\ A < (gr_num_table_entries g + 1) * (gr_activation_threshold g - 1).

Section preservation.
Context {A : Z} (HA : 0 <= A).

Lemma setup_gr_inv (c : Ctrl) (entries T ns : Z) (g : Graphene) :
  Graphene_setup c entries T ns = Ok g -> budget_fits A g -> gr_inv A g (fun _ _ => 0) (fun _ => 0).
Proof.
  intros H [HN HAT]. unfold Graphene_setup in H. destruct (negb _); [done|]. repeat (apply bind_Ok in H as (? & _ & H)).
  injection H as <-. simpl in *. destruct (dummy_table_spec x4 entries HN) as [Hsz Hz].
  constructor; simpl; [by rewrite !length_replicate|done| |done].
  intros b t s [_ Ht]%vget_Ok [_ Hs]%vget_Ok. apply lookup_replicate in Ht as [-> _]. apply lookup_replicate in Hs as [-> _].
  apply bank_reset; [done|nia|done].
Qed.

Lemma cycle_cases (g g' : Graphene) :
  Graphene_pre_schedule g = Ok g' -> exists clk, let e := period_starts g' in
  g' = if e then gr_set g clk (map (fmap (fun _ => 0)) (gr_table g)) (map (fun _ => 0) (gr_spillover g))
       else gr_set g clk (gr_table g) (gr_spillover g).
Proof.
  intros (clk & _ & H)%bind_Ok. apply bind_Ok in H as (e & He & H). exists clk. unfold period_elapsed in He.
  destruct (_ =? 0) eqn:Hz in He; [done|]. injection He as He.
  assert (period_starts g' = e) as -> by (injection H as <-; destruct e; exact He). by injection H as <-.
Qed.

Lemma cycle_gr_inv (g g' : Graphene) (n : Z -> Z -> Z) (a : Z -> Z) :
  Graphene_pre_schedule g = Ok g' -> budget_fits A g -> gr_inv A g n a ->
  gr_inv A g' (if period_starts g' then fun _ _ => 0 else n) (if period_starts g' then fun _ => 0 else a).
Proof.
  intros (clk & HE)%cycle_cases [HN HAT] [I1 I2 I3 I4]. simpl in HE. destruct (period_starts g'); subst g'; constructor; simpl; try done.
  - by rewrite !length_map.
  - intros b t s Ht Hs. destruct (fold_reset _ _ _ _ _ Ht Hs) as (-> & Hzero & t0 & Ht0 & Hsz).
    destruct (vget_in_range (gr_spillover g) b) as [s0 Hs0]; [rewrite I1; by eapply vget_bound|].
    apply bank_reset; [|nia|done]. rewrite Hsz. by apply (bi_size _ _ _ _ _ _ (I3 b t0 s0 Ht0 Hs0)).
Qed.

Lemma act_gr_inv (order : gmap Z Z -> list (Z * Z)) (g g' : Graphene) (n : Z -> Z -> Z) (a : Z -> Z)
  (c c' : Ctrl) (req : Request) (b row : Z) (vrr : bool) :
  (forall t, order t ≡ₚ map_to_list t) -> is_single_act (m_device c) req = Ok true ->
  get_flat_bank_id (m_device c) (addr_vec req) = Ok b -> vget (addr_vec req) (gr_row_level g) = Ok row ->
  buf_size (m_priority_buffer c) < max_size (m_priority_buffer c) -> a b < A ->
  Graphene_on_issue order g c req = Ok (g', c') ->
  prio c' = prio c ++ (if vrr then [Request_cmd (addr_vec req) (gr_vrr_cmd_id g)] else []) ->
  budget_fits A g -> gr_inv A g n a ->
  gr_inv A g' (upd2 n b row (if vrr then 0 else n b row + 1)) (upd a b (a b + 1)).
Proof.
  intros Hord Hact Hb Hrow Hroom Hlt H Hv [HN HAT] [I1 I2 I3 I4].
  assert (exists t, vget (gr_table g) b = Ok t) as [t Ht].
  { clear -H Hact Hb Hrow. unfold Graphene_on_issue in H. rewrite Hact in H. simpl in H. rewrite Hb in H. simpl in H.
    rewrite Hrow in H. simpl in H. apply bind_Ok in H as (t & Ht & _). eauto. }
  destruct (vget_in_range (gr_spillover g) b) as [s Hs]; [rewrite I1; by eapply vget_bound|].
  pose proof (I3 b t s Ht Hs) as HB. pose proof (spill_bound HB) as Hsp. pose proof (I2 b).
  edestruct (on_issue_act order g g' c c' req b row) as (t' & s' & HB' & Ht' & Hs' & L1 & L2 & EN & ET); try done; [nia|]. constructor.
  - lia.
  - intros x. unfold upd. destruct (x =? b) eqn:Hx; [lia|apply I2].
  - intros x u w. rewrite Ht', Hs', EN, ET. unfold upd2, upd at 2. destruct (Z.eqb_spec x b) as [->|Hne]; [|apply I3].
    intros [= <-] [= <-]. done.
  - intros x r Hx. rewrite L1 in Hx. unfold upd2. destruct (Z.eqb_spec x b) as [->|Hne]; [|by apply I4].
    pose proof (vget_bound _ _ _ Ht). lia.
Qed.

(** The parameters never change. *)
Lemma on_issue_params (order : gmap Z Z -> list (Z * Z)) (g g' : Graphene) (c c' : Ctrl) (req : Request) :
  Graphene_on_issue order g c req = Ok (g', c') -> budget_fits A g' <-> budget_fits A g.
Proof. intros H. unfold Graphene_on_issue in H. inv_res. repeat (case_match; inv_res; simplify_eq/=; try done). Qed.

Lemma gr_run_inv (g : Graphene) (n : Z -> Z -> Z) (a : Z -> Z) : gr_run A g n a -> budget_fits A g -> gr_inv A g n a.
Proof.
  induction 1 as [c entries T ns g H|g g' n a Hrun IH H|g g' n a order c c' req Hrun IH Hact H
    |g g' n a order c c' req b row vrr Hrun IH Hord Hact Hb Hrow Hroom Hlt H Hv]; intros Hfit.
  - by eapply setup_gr_inv.
  - assert (budget_fits A g) as Hf by (destruct (cycle_cases _ _ H) as (clk & HE); rewrite HE in Hfit; by destruct (period_starts g')).
    eapply cycle_gr_inv; eauto.
  - unfold Graphene_on_issue in H. rewrite Hact in H. simpl in H. injection H as <- <-. by apply IH.
  - apply (on_issue_params _ _ _ _ _ _ H) in Hfit. eapply act_gr_inv; eauto.
Qed.
End preservation.

(** A notified activation of an existing bank is always handled. *)
Lemma on_issue_returns (A : Z) (g : Graphene) (n : Z -> Z -> Z) (a : Z -> Z) (order : gmap Z Z -> list (Z * Z))
  (c : Ctrl) (req : Request) (b row : Z) :
  gr_inv A g n a -> is_single_act (m_device c) req = Ok true ->
  get_flat_bank_id (m_device c) (addr_vec req) = Ok b -> 0 <= b < Z.of_nat (length (gr_table g)) ->
  vget (addr_vec req) (gr_row_level g) = Ok row -> 0 <= gr_vrr_cmd_id g < command_count (m_spec (m_device c)) ->
  is_ok (Graphene_on_issue order g c req).
Proof.
  intros [I1 _ _ _] Hact Hb Hr Hrow Hv. unfold Graphene_on_issue. rewrite Hact. simpl. rewrite Hb. simpl. rewrite Hrow. simpl.
  destruct (vget_in_range (gr_table g) b Hr) as [t ->]. simpl.
  destruct (vget_in_range (gr_spillover g) b) as [s ->]; [lia|]. simpl. rewrite <- I1 in Hr.
  assert (Hs : forall t', is_ok (vset (gr_table g) b t')) by (intros t'; apply vset_total; lia).
  destruct (t !! row) as [v|]; [|destruct (evictable order t s) as [[k w]|]].
  - destruct (_ <=? _); [|destruct (Hs (<[row := v + 1]> t)) as [ts ->]; by eexists].
    unfold send_vrr, priority_send. simpl.
    assert ((gr_vrr_cmd_id g <? 0) || (command_count (m_spec (m_device c)) <=? gr_vrr_cmd_id g) = false) as -> by lia.
    destruct (enqueue _ _) as [[|] q]; simpl; destruct (Hs (<[row := s]> t)) as [ts ->]; by eexists.
  - destruct (Hs (<[row := w + 1]> (delete k t))) as [ts ->]. by eexists.
  - destruct (vset_total (gr_spillover g) b (s + 1)) as [ss ->]; [lia|]. by eexists.
Qed.

(** C32: as long as a bank receives at most [A] activations per reset period, the
    table has more than [A / (threshold - 1) - 1] entries, and the priority queue has
    room at every activation, no row is activated [threshold] times in a period
    without a VRR for it entering the priority queue, whatever the iteration order
    of the hash tables; and every activation of an existing bank is handled. *)
Theorem graphene_bounds_activations (A : Z) (g : Graphene) (n : Z -> Z -> Z) (a : Z -> Z) :
  0 <= A -> gr_run A g n a -> 0 <= gr_num_table_entries g ->
  A < (gr_num_table_entries g + 1) * (gr_activation_threshold g - 1) ->
  (forall b row, 0 <= n b row < gr_activation_threshold g) /\
  (forall order c req b row, is_single_act (m_device c) req = Ok true ->
     get_flat_bank_id (m_device c) (addr_vec req) = Ok b -> 0 <= b < Z.of_nat (length (gr_table g)) ->
     vget (addr_vec req) (gr_row_level g) = Ok row -> 0 <= gr_vrr_cmd_id g < command_count (m_spec (m_device c)) ->
     is_ok (Graphene_on_issue order g c req)).
Proof.
  intros HA Hrun HN HAT. pose proof (gr_run_inv HA g n a Hrun (conj HN HAT)) as HI. split; [|intros; by eapply on_issue_returns].
  intros b row. destruct HI as [I1 I2 I3 I4]. assert (1 < gr_activation_threshold g) by nia.
  destruct (decide (0 <= b < Z.of_nat (length (gr_table g)))) as [Hb|Hb]; [|rewrite (I4 b row Hb); lia].
  destruct (vget_in_range (gr_table g) b Hb) as [t Ht]. destruct (vget_in_range (gr_spillover g) b) as [s Hs]; [lia|].
  pose proof (I3 b t s Ht Hs) as HB. pose proof (spill_bound HB). pose proof (I2 b). destruct HB as [_ _ _ Hi Ho].
  destruct (t !! row) as [v|] eqn:Hr; [pose proof (Hi row v Hr); lia|pose proof (Ho row Hr); nia].
Qed.

(** ** On a DDR4 device with VRR *)
Definition vrr_ctrl_cfg : CtrlConfig :=
  mkCtrlConfig f32_0_2 f32_0_8 32 32 16 "DDR4_VRR"
    (mkConfig 64 None 8 [1; 2; 2; 2; 64; 1024] (cfg_timing small_cfg ++ [50]) None 14 []).
Definition vrr_ctrl_ready : Ctrl := match init_base vrr_ctrl_cfg with Ok c => c | Err _ => empty_ctrl end.

Definition graphene_or (r : result (Graphene * Ctrl)) : Graphene * Ctrl :=
  match r with Ok p => p | Err _ => (mkGraphene 0 0 0 0 0 0 [] [], empty_ctrl) end.

(** Two entries, threshold 3. *)
Definition gr0 : Graphene := (graphene_or (g ← Graphene_setup vrr_ctrl_ready 2 3 64000; Ok (g, vrr_ctrl_ready))).1.
Definition act_row (row : Z) : Request := set_command (Request_vec [0; 0; 0; 1; row; 0] Read) 0.
Definition gr_next (p : Graphene * Ctrl) (row : Z) : Graphene * Ctrl :=
  graphene_or (Graphene_on_issue map_to_list p.1 p.2 (act_row row)).
Definition gr1 := gr_next (gr0, vrr_ctrl_ready) 7.
Definition gr2 := gr_next gr1 7.

Lemma gr2_run : exists n a, gr_run 5 gr2.1 n a /\ n 1 7 = 2.
Proof.
  assert (H0 : gr_run 5 gr0 (fun _ _ => 0) (fun _ => 0)).
  { apply (gr_setup 5 vrr_ctrl_ready 2 3 64000). vm_compute. reflexivity. }
  assert (H1 := gr_act 5 gr0 gr1.1 _ _ map_to_list vrr_ctrl_ready gr1.2 (act_row 7) 1 7 false H0 (fun t => reflexivity _)).
  do 6 (specialize (H1 ltac:(vm_compute; reflexivity))). specialize (H1 ltac:(vm_compute; reflexivity)).
  assert (H2 := gr_act 5 gr1.1 gr2.1 _ _ map_to_list gr1.2 gr2.2 (act_row 7) 1 7 false H1 (fun t => reflexivity _)).
  do 6 (specialize (H2 ltac:(vm_compute; reflexivity))). specialize (H2 ltac:(vm_compute; reflexivity)).
  do 2 eexists. split; [exact H2|]. vm_compute. reflexivity.
Qed.

Lemma graphene_bounds_activations_witness : exists n, n 1 7 = 2 /\ (forall b row, 0 <= n b row < 3).
Proof.
  destruct gr2_run as (n & a & Hrun & Hn). exists n. split; [exact Hn|].
  refine (proj1 (graphene_bounds_activations 5 gr2.1 n a _ Hrun _ _)); vm_compute; congruence.
Defined.

(** With a full priority queue the VRR of the third activation is lost, while the
    counter of the row starts again from the spillover counter. *)
Definition full_prio (c : Ctrl) : Ctrl := set_buf c BPriority (mkReqBuffer [] 0).

Lemma graphene_loses_vrr :
  exists g', Graphene_on_issue map_to_list gr2.1 (full_prio gr2.2) (act_row 7) = Ok (g', full_prio gr2.2) /\
    (gr_table gr2.1 !! 1%nat ≫= fun t => t !! 7) = Some 2 /\ (gr_table g' !! 1%nat ≫= fun t => t !! 7) = Some 0.
Proof. eexists. split_and!; vm_compute; reflexivity. Qed.
