(* ===== verification/RFMProps.v ===== *)
(** * Refresh management bounds activations

    RFMManager queues a refresh-management command before any bank reaches the
    threshold, and the command it queues covers the bank that crossed, in every
    dispatch mode and for every standard that defines the command. *)

From Stdlib Require Import ZArith Lia SpecFloat.
From S2P Require Import Prelude Base Spec Node Timing TimingSpec Commands Standards.
From S2P Require Import Device DeviceFacts BankFSM DeviceProps Controller.
From S2P Require Import Scheduler GenericDDR ControllerFacts ControllerInv Refresh ControllerProps.
From S2P Require Import Examples CtrlExamples ActiveInv ActiveProps Plugins GrapheneProps.

Local Open Scope Z_scope.

(** ** Blanking coordinates *)

(** [av'] is [av] with some coordinates set to -1. *)
Definition blanked (av av' : AddrVec_t) : Prop :=
  length av' = length av /\ forall l, vget av' l = vget av l \/ (vget av' l = Ok (-1) /\ is_ok (vget av l)).

Lemma blanked_refl (av : AddrVec_t) : blanked av av.
Proof. split; [done|]. by left. Qed.

Lemma blanked_step (av av1 av2 : AddrVec_t) (l : Z) :
  blanked av av1 -> vset av1 l (-1) = Ok av2 -> blanked av av2.
Proof.
  intros [Hl Hb] Hs. split; [by rewrite (vset_length _ _ _ _ Hs)|]. intros k. rewrite (vget_vset _ _ _ k _ Hs).
  destruct (Z.eqb_spec k l) as [->|]; [|apply Hb]. right. split; [done|]. apply vget_in_range. rewrite <- Hl.
  by apply vset_Ok in Hs as [Hs _].
Qed.

Lemma matches_blanked (av av' : AddrVec_t) (n : DRAMNode) : blanked av av' -> matches av n = true -> matches av' n = true.
Proof.
  intros [_ Hb]. unfold matches. destruct (Hb (m_level n)) as [->|[-> _]]; [done|]. intros _. by rewrite orb_true_r.
Qed.

Lemma visit_blanked (av av' : AddrVec_t) (n : DRAMNode) (p : node_ptr) :
  blanked av av' -> visit av n p = Some true -> visit av' n p = Some true.
Proof.
  intros Hb. revert n. induction p as [|i p IH]; intros n H; simpl in *.
  - destruct (matches av n) eqn:Hm; [|done]. by rewrite (matches_blanked _ _ _ Hb Hm).
  - destruct (matches av n) eqn:Hm; [|done]. rewrite (matches_blanked _ _ _ Hb Hm).
    destruct (m_child_nodes n !! i) as [c|]; [|done]. simpl in *. by apply IH.
Qed.

(** Blanking keeps the addressed bank among the targets. *)
Lemma blanked_target (d : DRAMDevice) (av av' : AddrVec_t) (id : Z) :
  dev_wf d -> concrete (m_spec d) av 0 (m_bank_level d) -> matches av (m_root d) = true ->
  get_flat_bank_id d av = Ok id -> blanked av av' -> id ∈ timing_targets d av'.
Proof.
  intros Hd Hc Hm Hid Hb. destruct (flat_bank d Hd av Hc) as (k & Hk & Hlk). rewrite Hid in Hk. injection Hk as ->.
  apply sel_ids_elem. exists (coords av 0 (Z.to_nat (m_bank_level d))). split_and!; [lia|by rewrite Z.sub_0_r, Nat2Z.id|].
  pose proof (proj2 (timing_target_coords d Hd av _ Hc Hm (list_elem_of_lookup_2 _ _ _ Hlk)) eq_refl) as Ht.
  unfold timing_target in *. rewrite bool_decide_eq_true in Ht |- *. by eapply visit_blanked.
Qed.

Lemma timing_targets_range (d : DRAMDevice) (av : AddrVec_t) (x : Z) :
  x ∈ timing_targets d av -> 0 <= x < Z.of_nat (length (m_bank_nodes d)).
Proof. intros (p & H0 & Hl%lookup_lt_Some & _)%sel_ids_elem. lia. Qed.

(** ** Levels of the manager *)
Definition rfm_target (m : rfm_mode) : BankTarget := match m with RfmAb => All | RfmSb => SameBank | RfmPb => Single end.

Definition rfm_levels_ok (s : DRAMSpec) (m : RFMManager) : Prop :=
  0 <= rfm_cmd_id m < command_count s /\ vget (bank_targets s) (rfm_cmd_id m) = Ok (rfm_target (rfm_rfm_mode m)) /\
  -1 <= rfm_bankgroup_level m < rfm_bank_level m /\ 0 <= rfm_all_bank_scope_level m < rfm_bank_level m /\
  rfm_bank_level m < level_count s.

(** The same for the tables of a standard, as a boolean. *)
Definition std_rfm_okb (T : Standard) (mode : rfm_mode) : bool :=
  let lv := set_names (Level T) in
  match set_names (Command T) !! rfm_cmd_name mode, lv !! "Bank" with
  | Some cmd, Some bank =>
      let scope := default (default (default (-1) (lv !! "Channel")) (lv !! "PseudoChannel")) (lv !! "Rank") in
      let bg := default (-1) (lv !! "BankGroup") in
      (0 <=? cmd) && (cmd <? Z.of_nat (length (Command T))) &&
      bool_decide (map ci_bank_target (CommandImpls T) !! Z.to_nat cmd = Some (rfm_target mode)) &&
      (-1 <=? bg) && (bg <? bank) && (0 <=? scope) && (scope <? bank) && (bank <? Z.of_nat (length (Level T)))
  | _, _ => true
  end.

Lemma registry_rfm_ok (T : Standard) (mode : rfm_mode) : T ∈ registry -> std_rfm_okb T mode = true.
Proof.
  intros Hin. assert (forallb (fun T => forallb (std_rfm_okb T) [RfmAb; RfmSb; RfmPb]) registry = true) as H by (vm_compute; reflexivity).
  rewrite forallb_forall in H. specialize (H T ltac:(by apply list_elem_of_In)). rewrite forallb_forall in H. apply H.
  destruct mode; simpl; tauto.
Qed.

Lemma setup_levels_ok (T : Standard) (c : Ctrl) (thresh : Z) (mode : rfm_mode) (m : RFMManager) :
  T ∈ registry -> built_from T (m_spec (m_device c)) -> RFM_setup c thresh mode = Ok m ->
  rfm_levels_ok (m_spec (m_device c)) m /\ rfm_bank_ctrs m = replicate (length (m_bank_nodes (m_device c))) 0.
Proof.
  intros Hin HB H. pose proof (registry_rfm_ok T mode Hin) as Hok. unfold std_rfm_okb in Hok.
  unfold RFM_setup, get_command_id, get_level_id, has_level, has_command in H. rewrite (bf_levels T _ HB), (bf_commands T _ HB) in H.
  set (lv := set_names (Level T)) in *.
  destruct (set_names (Command T) !! rfm_cmd_name mode) as [cmd|]; [|by rewrite bool_decide_false in H by (by intros [])].
  rewrite bool_decide_true in H by eauto. simpl in H. apply bind_Ok in H as (scope & Hsc & H).
  destruct (lv !! "Bank") as [bank|]; [|done]. simpl in H. destruct (lv !! "Row") as [row|]; [|done]. simpl in H.
  apply bind_Ok in H as (bg & Hbg & H). injection H as <-.
  assert (scope = default (default (default (-1) (lv !! "Channel")) (lv !! "PseudoChannel")) (lv !! "Rank")) as ->.
  { revert Hsc. destruct (lv !! "Rank"); [rewrite bool_decide_true by eauto; by intros [= <-]|].
    rewrite bool_decide_false by (by intros []). destruct (lv !! "PseudoChannel"); [rewrite bool_decide_true by eauto; by intros [= <-]|].
    rewrite bool_decide_false by (by intros []). destruct (lv !! "Channel"); [by intros [= <-]|done]. }
  assert (bg = default (-1) (lv !! "BankGroup")) as ->.
  { revert Hbg. destruct (lv !! "BankGroup"); [rewrite bool_decide_true by eauto; by intros [= <-]|].
    rewrite bool_decide_false by (by intros []). by intros [= <-]. }
  rewrite !andb_true_iff, bool_decide_eq_true, !Z.leb_le, !Z.ltb_lt in Hok. destruct Hok as (((((((? & ?) & Ht) & ?) & ?) & ?) & ?) & ?).
  unfold rfm_levels_ok. simpl. rewrite (bf_command_count T _ HB), (bf_level_count T _ HB), (bf_targets T _ HB).
  split_and!; try lia; [|done]. apply vget_Ok. split; [lia|done].
Qed.

(** ** The request it queues *)
Lemma blank_levels (av av0 : AddrVec_t) (ls : list Z) :
  blanked av av0 -> (forall l, l ∈ ls -> 0 <= l < Z.of_nat (length av)) ->
  exists av', foldM (fun av level => vset av level (-1)) av0 ls = Ok av' /\ blanked av av'.
Proof.
  intros Hb Hls. apply (foldM_ok (blanked av)); [done|]. intros a l Hl Ha. pose proof (proj1 Ha) as Hlen.
  destruct (vset_total a l (-1)) as [b Hs]; [rewrite Hlen; by apply Hls|]. exists b. split; [done|]. by eapply blanked_step.
Qed.

Lemma rfm_addr_ok (s : DRAMSpec) (m : RFMManager) (av : AddrVec_t) :
  rfm_levels_ok s m -> level_count s <= Z.of_nat (length av) ->
  exists av', rfm_addr m av = Ok av' /\ blanked av av' /\
    (rfm_rfm_mode m = RfmPb -> av' = av) /\
    (rfm_rfm_mode m = RfmSb -> vget av' (rfm_bank_level m) = vget av (rfm_bank_level m)).
Proof.
  intros (_ & _ & Hbg & Hsc & Hbk) Hlen. unfold rfm_addr.
  assert (exists av1, (if 0 <=? rfm_bankgroup_level m then vset av (rfm_bankgroup_level m) (-1) else Ok av) = Ok av1 /\
            blanked av av1 /\ vget av1 (rfm_bank_level m) = vget av (rfm_bank_level m)) as (av1 & E & Hb & Hk).
  { destruct (Z.leb_spec 0 (rfm_bankgroup_level m)); [|exists av; by pose proof (blanked_refl av)].
    destruct (vset_total av (rfm_bankgroup_level m) (-1)) as [av1 Hs]; [lia|]. exists av1.
    split_and!; [done|by eapply blanked_step; [apply blanked_refl|]|]. rewrite (vget_vset _ _ _ _ _ Hs).
    by destruct (Z.eqb_spec (rfm_bank_level m) (rfm_bankgroup_level m)); [lia|]. }
  destruct (rfm_rfm_mode m); simpl.
  - rewrite E. simpl. edestruct (blank_levels av av1) as (av2 & H2 & Hb2); [done| |by exists av2].
    intros l Hl%elem_of_seqZ. lia.
  - rewrite E. simpl. by exists av1.
  - exists av. by pose proof (blanked_refl av).
Qed.

(** The banks the queued command reaches, the one that crossed among them. *)
Lemma rfm_covers (d : DRAMDevice) (m : RFMManager) (av : AddrVec_t) (cmd id : Z) :
  dev_wf d -> rfm_levels_ok (m_spec d) m -> m_bank_level d = rfm_bank_level m ->
  addressed d cmd av -> vget (bank_targets (m_spec d)) cmd = Ok Single -> get_flat_bank_id d av = Ok id ->
  exists av', rfm_addr m av = Ok av' /\ get_target_banks d (rfm_cmd_id m) av' = Ok (timing_targets d av') /\
    id ∈ timing_targets d av'.
Proof.
  intros Hd Hm Hbl (Hcmd & Hlen & Hsc) Ht Hid. rewrite Ht in Hsc. destruct Hsc as [Hc Hroot].
  destruct (rfm_addr_ok _ m av Hm Hlen) as (av' & Ha & Hb & Hpb & Hsb). exists av'. split; [done|].
  split; [|by eapply blanked_target]. apply get_target_banks_eq; [done|].
  destruct Hm as (Hr & Htar & _). split_and!; [lia|lia|by rewrite (proj1 Hb)|]. rewrite Htar.
  destruct (rfm_rfm_mode m); simpl; [done| |by rewrite Hpb].
  rewrite Hbl, Hsb by done. destruct (Hc (m_bank_level d)) as (x & sz & Hx & _ & Hx0).
  { destruct (dw_levels d Hd) as (r & _ & Hb' & _). lia. }
  rewrite <- Hbl, Hx. intros [= ->]. lia.
Qed.

(** Resetting the counters of a list of banks. *)
Lemma reset_ctrs (l : list Z) (ids : list Z) :
  (forall x, x ∈ ids -> 0 <= x < Z.of_nat (length l)) ->
  exists l', foldM (fun l b => vset l b 0) l ids = Ok l' /\ length l' = length l /\
    forall x, vget l' x = if bool_decide (x ∈ ids) then Ok 0 else vget l x.
Proof.
  revert l. induction ids as [|i ids IH]; intros l Hr; [by exists l|]. rewrite foldM_cons.
  destruct (vset_total l i 0) as [l1 H1]; [apply Hr; by left|]. rewrite H1. simpl.
  pose proof (vset_length _ _ _ _ H1) as E. destruct (IH l1) as (l' & H' & L' & V').
  { intros x Hx. rewrite E. apply Hr. by right. }
  exists l'. split_and!; [done|lia|]. intros x. rewrite V', (vget_vset _ _ _ _ _ H1).
  destruct (Z.eqb_spec x i) as [->|Hne].
  - rewrite (bool_decide_true (i ∈ i :: ids)) by (by left). by case_bool_decide.
  - assert (x ∈ i :: ids <-> x ∈ ids) as Hx by (rewrite elem_of_cons; naive_solver). by rewrite (bool_decide_ext _ _ Hx).
Qed.

(** ** Runs of the plugin

    The manager and the device it was set up on, whatever was issued since. *)
Definition on_device (T : Standard) (m : RFMManager) (d : DRAMDevice) : Prop :=
  dev_of T d /\ m_bank_level d = rfm_bank_level m /\ length (m_bank_nodes d) = length (rfm_bank_ctrs m).

(** [n b] is the number of activations of a bank since an RFM that covers it was
    queued. *)
Inductive rfm_run (T : Standard) : RFMManager -> (Z -> Z) -> Prop :=
| rfm_setup c thresh mode m :
    dev_of T (m_device c) -> RFM_setup c thresh mode = Ok m -> rfm_run T m (fun _ => 0)
| rfm_other m m' n c c' req :
    rfm_run T m n -> is_single_act (m_device c) req = Ok false -> RFM_on_issue m c req = Ok (m', c') ->
    rfm_run T m' n
| rfm_act m m' n c c' req b (rfm : option AddrVec_t) ids :
    rfm_run T m n -> on_device T m (m_device c) ->
    addressed (m_device c) (command req) (addr_vec req) ->
    is_single_act (m_device c) req = Ok true -> get_flat_bank_id (m_device c) (addr_vec req) = Ok b ->
    RFM_on_issue m c req = Ok (m', c') ->
    prio c' = prio c ++ from_option (fun av => [Request_cmd av (rfm_cmd_id m)]) [] rfm ->
    from_option (fun av => get_target_banks (m_device c) (rfm_cmd_id m) av) (Ok []) rfm = Ok ids ->
    rfm_run T m' (fun x => if bool_decide (x ∈ ids) then 0 else upd n b (n b + 1) x).

Definition ctr (l : list Z) (b : Z) : Z := match vget l b with Ok k => k | Err _ => 0 end.

Record rfm_inv (T : Standard) (m : RFMManager) (n : Z -> Z) : Prop := {
  ri_levels : forall s, built_from T s -> rfm_levels_ok s m;
  ri_ctr : forall b, n b = ctr (rfm_bank_ctrs m) b /\ 0 <= n b < rfm_thresh m
}.

Lemma levels_transfer (T : Standard) (m : RFMManager) (s s' : DRAMSpec) :
  built_from T s -> built_from T s' -> rfm_levels_ok s m -> rfm_levels_ok s' m.
Proof.
  intros B B'. unfold rfm_levels_ok. by rewrite (bf_command_count T _ B), (bf_level_count T _ B), (bf_targets T _ B),
    (bf_command_count T _ B'), (bf_level_count T _ B'), (bf_targets T _ B').
Qed.

Lemma single_target (d : DRAMDevice) (req : Request) :
  is_single_act d req = Ok true -> vget (bank_targets (m_spec d)) (command req) = Ok Single.
Proof.
  unfold is_single_act. intros (meta & _ & H)%bind_Ok. destruct (negb _); [done|]. apply bind_Ok in H as (t & Ht & H).
  injection H as H. apply bool_decide_eq_true in H. by subst t.
Qed.

(** The two outcomes of an activation. *)
Lemma rfm_act_cases (m m' : RFMManager) (c c' : Ctrl) (req : Request) (b : Z) :
  is_single_act (m_device c) req = Ok true -> get_flat_bank_id (m_device c) (addr_vec req) = Ok b ->
  RFM_on_issue m c req = Ok (m', c') ->
  exists k ctrs, vget (rfm_bank_ctrs m) b = Ok k /\ vset (rfm_bank_ctrs m) b (k + 1) = Ok ctrs /\
    ((k + 1 < rfm_thresh m /\ m' = rfm_set m ctrs (rfm_counter m) /\ c' = c) \/
     (rfm_thresh m <= k + 1 /\ exists av' ids l,
        rfm_addr m (addr_vec req) = Ok av' /\ priority_send c (Request_cmd av' (rfm_cmd_id m)) = Ok (true, c') /\
        get_target_banks (m_device c) (rfm_cmd_id m) av' = Ok ids /\
        foldM (fun l b => vset l b 0) ctrs ids = Ok l /\ m' = rfm_set m l (rfm_counter m + 1))).
Proof.
  intros Hact Hb H. unfold RFM_on_issue in H. rewrite Hact in H. simpl in H. rewrite Hb in H. simpl in H.
  apply bind_Ok in H as (k & Hk & H). apply bind_Ok in H as (ctrs & Hc & H). exists k, ctrs. do 2 (split; [done|]).
  destruct (Z.ltb_spec (k + 1) (rfm_thresh m)) as [Hlt|Hge]; [injection H as <- <-; by left|]. right. split; [done|].
  apply bind_Ok in H as (av' & Ha & H). apply bind_Ok in H as ([[|] c1] & Hs & H).
  - apply bind_Ok in H as (ids & Hi & H). apply bind_Ok in H as (l & Hl & H). injection H as <- <-.
    rewrite (priority_send_device _ _ _ _ Hs) in Hi. by exists av', ids, l.
  - by apply bind_Ok in H as (? & _ & H).
Qed.

Section step.
Context {T : Standard} {m : RFMManager} {n : Z -> Z} {c : Ctrl} {req : Request} {b k : Z} {ctrs : list Z}.
Context (Hinv : rfm_inv T m n) (HT : 0 < rfm_thresh m) (Hdev : on_device T m (m_device c)).
Context (Had : addressed (m_device c) (command req) (addr_vec req)).
Context (Hact : is_single_act (m_device c) req = Ok true) (Hb : get_flat_bank_id (m_device c) (addr_vec req) = Ok b).
Context (Hk : vget (rfm_bank_ctrs m) b = Ok k) (Hset : vset (rfm_bank_ctrs m) b (k + 1) = Ok ctrs).

Lemma counted (x : Z) : upd n b (n b + 1) x = ctr ctrs x.
Proof.
  destruct Hinv as [_ Hn]. unfold upd, ctr. rewrite (vget_vset _ _ _ x _ Hset). destruct (x =? b); [|apply Hn].
  rewrite (proj1 (Hn b)). unfold ctr. by rewrite Hk.
Qed.

Lemma quiet_rfm_inv (k' : Z) : k + 1 < rfm_thresh m -> rfm_inv T (rfm_set m ctrs k') (upd n b (n b + 1)).
Proof.
  intros Hlt. destruct Hinv as [Hlv Hn]. constructor; [done|]. intros x. split; [apply counted|]. simpl. unfold upd.
  destruct (x =? b); [|apply Hn]. pose proof (Hn b) as [E ?]. unfold ctr in E. rewrite Hk in E. lia.
Qed.

Lemma fire_targets : exists av', rfm_addr m (addr_vec req) = Ok av' /\
  get_target_banks (m_device c) (rfm_cmd_id m) av' = Ok (timing_targets (m_device c) av') /\ b ∈ timing_targets (m_device c) av' /\
  forall y, y ∈ timing_targets (m_device c) av' -> 0 <= y < Z.of_nat (length ctrs).
Proof.
  destruct Hinv as [Hlv Hn]. destruct Hdev as (Hd & Hbl & Hlen).
  destruct (rfm_covers (m_device c) m (addr_vec req) (command req) b (do_wf T _ Hd) (Hlv _ (do_std T _ Hd)) Hbl Had
    (single_target _ _ Hact) Hb) as (av' & Ha & Ht & Hin). exists av'. split_and!; try done.
  intros y Hy%timing_targets_range. rewrite (vset_length _ _ _ _ Hset). lia.
Qed.

Lemma fire_rfm_inv (av' : AddrVec_t) (ids l : list Z) (k' : Z) :
  rfm_addr m (addr_vec req) = Ok av' -> get_target_banks (m_device c) (rfm_cmd_id m) av' = Ok ids ->
  foldM (fun l b => vset l b 0) ctrs ids = Ok l ->
  rfm_inv T (rfm_set m l k') (fun x => if bool_decide (x ∈ ids) then 0 else upd n b (n b + 1) x).
Proof.
  intros Ha Ht Hl. destruct fire_targets as (av2 & Ha2 & Ht2 & Hin & Hr). simplify_eq. rewrite Ha in Ha2. injection Ha2 as <-.
  rewrite Ht in Ht2. injection Ht2 as ->. destruct (reset_ctrs ctrs _ Hr) as (l' & Hl' & _ & Hv). rewrite Hl in Hl'. injection Hl' as <-.
  destruct Hinv as [Hlv Hn]. constructor; [done|]. intros x. simpl. rewrite counted. unfold ctr at 1 2. rewrite (Hv x).
  case_bool_decide as Hx; [lia|]. fold (ctr ctrs x). split; [done|]. rewrite <- counted. unfold upd.
  destruct (Z.eqb_spec x b) as [->|]; [done|apply Hn].
Qed.
End step.

Lemma act_rfm_inv (T : Standard) (m m' : RFMManager) (n : Z -> Z) (c c' : Ctrl) (req : Request) (b : Z)
  (rfm : option AddrVec_t) (ids : list Z) :
  on_device T m (m_device c) -> addressed (m_device c) (command req) (addr_vec req) ->
  is_single_act (m_device c) req = Ok true -> get_flat_bank_id (m_device c) (addr_vec req) = Ok b ->
  RFM_on_issue m c req = Ok (m', c') ->
  prio c' = prio c ++ from_option (fun av => [Request_cmd av (rfm_cmd_id m)]) [] rfm ->
  from_option (fun av => get_target_banks (m_device c) (rfm_cmd_id m) av) (Ok []) rfm = Ok ids ->
  0 < rfm_thresh m -> rfm_inv T m n -> rfm_inv T m' (fun x => if bool_decide (x ∈ ids) then 0 else upd n b (n b + 1) x).
Proof.
  intros Hd Had Hact Hb H Hp Hids HT Hinv.
  destruct (rfm_act_cases _ _ _ _ _ _ Hact Hb H) as (k & ctrs & Hk & Hset & [(Hlt & -> & ->)|(Hge & av' & ids' & l & Ha & Hs & Ht & Hl & ->)]).
  - destruct rfm as [av|]; simpl in *.
    { apply (f_equal length) in Hp. rewrite length_app in Hp. simpl in Hp. lia. }
    injection Hids as <-. destruct (quiet_rfm_inv Hinv Hk Hset (rfm_counter m) Hlt) as [I1 I2]. constructor; [done|].
    intros x. rewrite bool_decide_false by (by intros ?%elem_of_nil). apply I2.
  - apply priority_send_prio in Hs. rewrite Hp in Hs. apply app_inv_head in Hs. destruct rfm as [av|]; simpl in *; [|done].
    injection Hs as ->. rewrite Ht in Hids. injection Hids as <-. by eapply fire_rfm_inv.
Qed.

Lemma rfm_run_inv (T : Standard) (m : RFMManager) (n : Z -> Z) :
  T ∈ registry -> rfm_run T m n -> 0 < rfm_thresh m -> rfm_inv T m n.
Proof.
  intros Hin. induction 1 as [c thresh mode m Hd H|m m' n c c' req Hrun IH Hact H|m m' n c c' req b rfm ids Hrun IH Hd Had Hact Hb H Hp Hids];
    intros HT.
  - destruct (setup_levels_ok T c thresh mode m Hin (do_std T _ Hd) H) as [Hlv Hz]. constructor.
    + intros s Hs. by eapply (levels_transfer T m (m_spec (m_device c))); [apply (do_std T _ Hd)| |].
    + intros b. rewrite Hz. unfold ctr. destruct (vget _ b) as [k|] eqn:Hk; [|lia].
      apply vget_Ok in Hk as [_ Hk]. apply lookup_replicate in Hk as [-> _]. lia.
  - unfold RFM_on_issue in H. rewrite Hact in H. simpl in H. injection H as <- <-. by apply IH.
  - assert (rfm_thresh m' = rfm_thresh m) as E.
    { destruct (rfm_act_cases _ _ _ _ _ _ Hact Hb H) as (? & ? & _ & _ & [(_ & -> & _)|(_ & ? & ? & ? & _ & _ & _ & _ & ->)]); done. }
    rewrite E in HT. by eapply act_rfm_inv; eauto.
Qed.

(** No bank is activated [rfm_thresh] times without an RFM whose targets
    include it entering the priority queue, in every dispatch mode and for every
    standard that defines the command; and with room in the priority queue every
    activation is handled. *)
Theorem rfm_bounds_activations (T : Standard) (m : RFMManager) (n : Z -> Z) :
  T ∈ registry -> rfm_run T m n -> 0 < rfm_thresh m ->
  (forall b, 0 <= n b < rfm_thresh m) /\
  (forall c req b, on_device T m (m_device c) -> addressed (m_device c) (command req) (addr_vec req) ->
     is_single_act (m_device c) req = Ok true -> get_flat_bank_id (m_device c) (addr_vec req) = Ok b ->
     buf_size (m_priority_buffer c) < max_size (m_priority_buffer c) -> is_ok (RFM_on_issue m c req)).
Proof.
  intros Hin Hrun HT. pose proof (rfm_run_inv T m n Hin Hrun HT) as Hinv. split; [apply Hinv|].
  intros c req b Hdev Had Hact Hb Hroom. unfold RFM_on_issue. rewrite Hact. simpl. rewrite Hb. simpl.
  assert (0 <= b < Z.of_nat (length (rfm_bank_ctrs m))) as Hr.
  { destruct Hdev as (Hd & _ & <-). destruct Had as (_ & _ & Hs). rewrite (single_target _ _ Hact) in Hs.
    destruct (flat_bank _ (do_wf T _ Hd) _ (proj1 Hs)) as (i & Hi & Hl%lookup_lt_Some). rewrite Hb in Hi. injection Hi as ->. lia. }
  destruct (vget_in_range _ _ Hr) as [k Hk]. rewrite Hk. simpl. destruct (vset_total _ _ (k + 1) Hr) as [ctrs Hset]. rewrite Hset. simpl.
  destruct (_ <? _); [by eexists|]. destruct (fire_targets Hinv Hdev Had Hact Hb Hset) as (av' & -> & Ht & _ & Hrange). simpl.
  destruct (ri_levels T m n Hinv _ (do_std T _ (proj1 Hdev))) as (Hcmd & _).
  destruct (priority_send_room c (Request_cmd av' (rfm_cmd_id m)) Hcmd Hroom) as (c' & Hs). rewrite Hs. simpl.
  rewrite (priority_send_device _ _ _ _ Hs), Ht. simpl. destruct (reset_ctrs ctrs _ Hrange) as (l & -> & _). by eexists.
Qed.

(** ** On a DDR5 device, same-bank mode, threshold 2 *)
Definition ddr5_cfg : DramConfig := mkConfig 32 None 8 [1; 2; 2; 2; 64; 1024] [] None 14 [].
Definition ddr5 : DRAMSpec := spec_or (construct DDR5 ddr5_cfg).
Definition ddr5_dev : DRAMDevice := match init ddr5 with Ok d => d | Err _ => mkDevice ddr5 ddr4_root [] 0 end.
Definition ddr5_ctrl : Ctrl := set_buf (set_device empty_ctrl ddr5_dev) BPriority (mkReqBuffer [] 4).

Lemma ddr5_dev_of : dev_of DDR5 ddr5_dev.
Proof.
  refine (proj1 (init_dev DDR5 ddr5_cfg ddr5 _ _ _ _ _ _)); vm_compute; reflexivity.
Qed.

Definition rfm_or (r : result (RFMManager * Ctrl)) : RFMManager * Ctrl :=
  match r with Ok p => p | Err _ => (mkRFM 0 RfmAb 0 0 0 0 [] 0, empty_ctrl) end.
Definition rfm0 : RFMManager := (rfm_or (m ← RFM_setup ddr5_ctrl 2 RfmSb; Ok (m, ddr5_ctrl))).1.
Definition act5 : Request := set_command (Request_vec [0; 1; 0; 1; 5; 0] Read) 0.
Definition rfm1 := rfm_or (RFM_on_issue rfm0 ddr5_ctrl act5).
Definition rfm2 := rfm_or (RFM_on_issue rfm1.1 rfm1.2 act5).

(** The second activation queues an RFMsb for bank 1 of both groups of rank 1. *)
Lemma rfm2_run : exists n, rfm_run DDR5 rfm2.1 n /\ n 5 = 0.
Proof.
  assert (H0 : rfm_run DDR5 rfm0 (fun _ => 0)).
  { apply (rfm_setup DDR5 ddr5_ctrl 2 RfmSb); [exact ddr5_dev_of|vm_compute; reflexivity]. }
  assert (Had : addressed ddr5_dev 0 [0; 1; 0; 1; 5; 0]) by (by apply addressed_single; vm_compute).
  assert (D1 : on_device DDR5 rfm0 ddr5_dev) by (split; [exact ddr5_dev_of|split; vm_compute; reflexivity]).
  assert (E : m_device rfm1.2 = ddr5_dev) by (vm_compute; reflexivity).
  assert (D2 : on_device DDR5 rfm1.1 (m_device rfm1.2)) by (rewrite E; split; [exact ddr5_dev_of|split; vm_compute; reflexivity]).
  assert (H1 := rfm_act DDR5 rfm0 rfm1.1 _ ddr5_ctrl rfm1.2 act5 5 None [] H0).
  specialize (H1 D1 Had).
  do 5 (specialize (H1 ltac:(vm_compute; reflexivity))).
  assert (H2 := rfm_act DDR5 rfm1.1 rfm2.1 _ rfm1.2 rfm2.2 act5 5 (Some [0; 1; -1; 1; 5; 0]) [5; 7] H1).
  specialize (H2 D2 ltac:(rewrite E; exact Had)).
  do 5 (specialize (H2 ltac:(vm_compute; reflexivity))).
  eexists. split; [exact H2|]. vm_compute. reflexivity.
Qed.

Lemma rfm_bounds_activations_witness : exists n : Z -> Z, n 5 = 0 /\ forall b, 0 <= n b < 2.
Proof.
  destruct rfm2_run as (n & Hrun & Hn). exists n. split; [exact Hn|].
  refine (proj1 (rfm_bounds_activations DDR5 rfm2.1 n _ Hrun _)); [apply list_elem_of_In; do 3 right; left; reflexivity|vm_compute; reflexivity].
Defined.
