(* ===== verification/RRS.v ===== *)
(** * Randomized row swap, on the row indirection table

    First the table of [controller/addr_mapper/impl/rit_addr_mapper.cpp] as an
    involution on the rows of a bank, and what its insertions and removals do to it
    (shared by the plugins that move rows), then [controller/plugin/impl/rrs.cpp]. *)

From Stdlib Require Import ZArith Lia SpecFloat.
From S2P Require Import Prelude Base Spec Node Device Mapping Standards Controller Scheduler GenericDDR Plugins.

Local Open Scope Z_scope.

(** ** Involutive tables *)
Definition rit_wf (t : gmap Z RITEntry) : Prop :=
  forall a e, t !! a = Some e -> 0 <= a /\ swapped_row e <> a /\
    exists e', t !! swapped_row e = Some e' /\ swapped_row e' = a.

Lemma rit_wf_insert (t : gmap Z RITEntry) (src dst : Z) :
  rit_wf t -> t !! src = None -> t !! dst = None -> src <> dst -> 0 <= src -> 0 <= dst ->
  rit_wf (<[dst := mkRIT src true]> (<[src := mkRIT dst true]> t)).
Proof.
  intros Hw Hs Hd Hne H1 H2 a e Ha. destruct (decide (a = dst)) as [->|Had].
  - rewrite lookup_insert_eq in Ha. injection Ha as <-. simpl. split_and!; [done|done|]. exists (mkRIT dst true).
    by rewrite lookup_insert_ne, lookup_insert_eq by done.
  - rewrite lookup_insert_ne in Ha by done. destruct (decide (a = src)) as [->|Has].
    + rewrite lookup_insert_eq in Ha. injection Ha as <-. simpl. split_and!; [done|done|]. exists (mkRIT src true).
      by rewrite lookup_insert_eq.
    + rewrite lookup_insert_ne in Ha by done. destruct (Hw a e Ha) as (? & ? & e' & He' & ?). split_and!; [done|done|].
      exists e'. split; [|done]. rewrite !lookup_insert_ne; [done|congruence|congruence].
Qed.

Lemma rit_wf_remove (t : gmap Z RITEntry) (src : Z) (e : RITEntry) :
  rit_wf t -> t !! src = Some e -> rit_wf (delete (swapped_row e) (delete src t)).
Proof.
  intros Hw Hs a f Ha. apply lookup_delete_Some in Ha as [Hne1 Ha]. apply lookup_delete_Some in Ha as [Hne2 Ha].
  destruct (Hw a f Ha) as (? & ? & f' & Hf' & Hback). split_and!; [done|done|]. exists f'. split; [|done].
  destruct (Hw src e Hs) as (_ & _ & e' & He' & Hb'). rewrite !lookup_delete_ne; [done|congruence|].
  intros E. rewrite <- E in Hf'. rewrite He' in Hf'. injection Hf' as <-. congruence.
Qed.

Lemma rit_row_involutive (t : gmap Z RITEntry) (x : Z) : rit_wf t -> rit_row t (rit_row t x) = x.
Proof.
  intros Hw. unfold rit_row. destruct (t !! x) as [e|] eqn:Hx; [|by rewrite Hx].
  destruct (Hw x e Hx) as (_ & _ & e' & -> & ?). done.
Qed.

(** ** Every bank's table *)
Definition rits_wf (m : RITAddrMapper) : Prop := forall b t, vget (m_rit m) b = Ok t -> rit_wf t.

Lemma rits_wf_set (m : RITAddrMapper) (b : Z) (t : gmap Z RITEntry) (l : list (gmap Z RITEntry)) :
  rits_wf m -> rit_wf t -> vset (m_rit m) b t = Ok l -> rits_wf (set_rit m l).
Proof.
  intros Hm Ht Hs b' t'. simpl. rewrite (vget_vset _ _ _ b' _ Hs). destruct (_ =? _); [by intros [= <-]|apply Hm].
Qed.

Lemma insert_entry_wf (m m' : RITAddrMapper) (b src dst : Z) (t : gmap Z RITEntry) :
  rits_wf m -> insert_entry m b src dst = Ok m' -> vget (m_rit m) b = Ok t ->
  t !! src = None -> t !! dst = None -> src <> dst -> 0 <= src -> 0 <= dst -> rits_wf m'.
Proof.
  intros Hm H Ht Hs Hd Hne H1 H2. unfold insert_entry in H. rewrite Ht in H. simpl in H. apply bind_Ok in H as (l & Hl & [= <-]).
  eapply rits_wf_set; [done| |exact Hl]. by apply rit_wf_insert; [eapply Hm|..].
Qed.

Lemma remove_entry_spec (m m' : RITAddrMapper) (b src dst : Z) :
  remove_entry m b src dst = Ok m' ->
  exists t, vget (m_rit m) b = Ok t /\ vget (m_rit m') b = Ok (delete dst (delete src t)).
Proof.
  unfold remove_entry. intros (t & Ht & H)%bind_Ok. apply bind_Ok in H as (l & Hl & [= <-]). exists t. split; [done|].
  simpl. by rewrite (vget_vset _ _ _ _ _ Hl), Z.eqb_refl.
Qed.

Lemma remove_entry_wf (m m' : RITAddrMapper) (b src : Z) (t : gmap Z RITEntry) (e : RITEntry) :
  rits_wf m -> remove_entry m b src (swapped_row e) = Ok m' -> vget (m_rit m) b = Ok t -> t !! src = Some e -> rits_wf m'.
Proof.
  intros Hm H Ht He. unfold remove_entry in H. rewrite Ht in H. simpl in H. apply bind_Ok in H as (l & Hl & [= <-]).
  eapply rits_wf_set; [done| |exact Hl]. by apply rit_wf_remove; [eapply Hm|].
Qed.

Lemma rit_unlock_wf (m : RITAddrMapper) : rits_wf m -> rits_wf (rit_unlock m).
Proof.
  intros Hm b t [Hb Ht]%vget_Ok. simpl in Ht. apply list_lookup_fmap_Some in Ht as (t0 & -> & Ht0).
  assert (rit_wf t0) as Hw by (eapply Hm, vget_Ok; eauto). intros a e Ha.
  apply lookup_fmap_Some in Ha as (e0 & <- & Ha). destruct (Hw a e0 Ha) as (? & ? & e' & He' & ?). simpl. split_and!; [done|done|].
  exists (mkRIT (swapped_row e') false). by rewrite lookup_fmap, He'.
Qed.

Lemma init_rit_wf (m : RITAddrMapper) (n k : Z) : rits_wf (init_rit m n k).
Proof. intros b t [_ Ht]%vget_Ok. apply lookup_replicate in Ht as [-> _]. intros a e. by rewrite lookup_empty. Qed.

(** The sentinel of [check_rit] means that the row is not in the table. *)
Lemma check_rit_absent (m : RITAddrMapper) (b row : Z) (t : gmap Z RITEntry) :
  rits_wf m -> check_rit m b row = Ok (-1) -> vget (m_rit m) b = Ok t -> t !! row = None.
Proof.
  unfold check_rit. intros Hm H Ht. rewrite Ht in H. simpl in H. destruct (t !! row) as [e|] eqn:He; [|done]. exfalso.
  injection H as H. destruct (Hm b t Ht row e He) as (_ & _ & e' & He' & _). destruct (Hm b t Ht _ _ He'). lia.
Qed.

Lemma check_rit_present (m : RITAddrMapper) (b row prev : Z) :
  check_rit m b row = Ok prev -> prev <> -1 ->
  exists t e, vget (m_rit m) b = Ok t /\ t !! row = Some e /\ swapped_row e = prev.
Proof.
  unfold check_rit. intros (t & Ht & H)%bind_Ok Hne. destruct (t !! row) as [e|] eqn:He; [|by injection H as <-].
  injection H as <-. eauto.
Qed.

(** ** Randomized row swap

    [controller/plugin/impl/rrs.cpp]: hot rows, counted by a Graphene-style table,
    are swapped with random cold rows through the row indirection table of the
    address mapper.  The mapper is shared with the controller; here the plugin
    holds it.  [draw n] is the n-th number of the seeded generator, [order] and
    [rorder] the iteration orders of the two kinds of hash table. *)
(** [RITAddrMapper::get_unswap_pair]: the first entry whose row is not hot, else
    the first entry. *)
Definition get_unswap_pair (rorder : gmap Z RITEntry -> list (Z * RITEntry)) (t : gmap Z RITEntry) (hrt : gmap Z Z)
  : result (Z * Z) :=
  match List.find (fun e => bool_decide (hrt !! e.1 = None)) (rorder t), rorder t with
  | Some (src, e), _ => Ok (src, swapped_row e)
  | None, (src, e) :: _ => Ok (src, swapped_row e)
  | None, [] => Err Undef
  end.

(** The copy traffic of a row: one priority request per cache line, whose verdicts
    are ignored. *)
Definition row_copy (row_level col_level num_cls prefetch final_cmd : Z) (template : AddrVec_t) (row : Z) (c : Ctrl)
  : result Ctrl :=
  av ← vset template row_level row;
  st ← foldM (fun (st : AddrVec_t * Ctrl) cl =>
        av ← vset st.1 col_level (cl * prefetch);
        q ← priority_send st.2 (set_final_command (set_command (Request_vec av (-1)) final_cmd) final_cmd);
        Ok (av, q.2)) (av, c) (seqZ 0 num_cls);
  Ok st.2.

Record RRS := mkRRS {
  rrs_rit : RITAddrMapper;
  rrs_num_hrt_entries : Z;
  rrs_threshold : Z;
  rrs_reset_period_clk : Z;
  rrs_rd_cmd_id : Z;
  rrs_wr_cmd_id : Z;
  rrs_row_level : Z;
  rrs_col_level : Z;
  rrs_num_cls : Z;
  rrs_prefetch : Z;
  rrs_clk : Z;
  rrs_hrt : list (gmap Z Z);
  rrs_spillover : list Z;
  rrs_drawn : nat;
  rrs_num_swaps : Z;
  rrs_num_unswaps : Z;
  rrs_num_reswaps : Z
}.

Definition rrs_with (r : RRS) (rit : RITAddrMapper) (clk : Z) (hrt : list (gmap Z Z)) (spill : list Z) (drawn : nat)
  (swaps unswaps reswaps : Z) : RRS :=
  mkRRS rit (rrs_num_hrt_entries r) (rrs_threshold r) (rrs_reset_period_clk r) (rrs_rd_cmd_id r) (rrs_wr_cmd_id r)
    (rrs_row_level r) (rrs_col_level r) (rrs_num_cls r) (rrs_prefetch r) clk hrt spill drawn
    (rrs_num_swaps r + swaps) (rrs_num_unswaps r + unswaps) (rrs_num_reswaps r + reswaps).
Definition set_hrt (r : RRS) (hrt : list (gmap Z Z)) (spill : list Z) : RRS :=
  rrs_with r (rrs_rit r) (rrs_clk r) hrt spill (rrs_drawn r) 0 0 0.
Definition set_rrs_rit (r : RRS) (rit : RITAddrMapper) (swaps unswaps reswaps : Z) : RRS :=
  rrs_with r rit (rrs_clk r) (rrs_hrt r) (rrs_spillover r) (rrs_drawn r) swaps unswaps reswaps.
Definition set_drawn (r : RRS) (n : nat) : RRS :=
  rrs_with r (rrs_rit r) (rrs_clk r) (rrs_hrt r) (rrs_spillover r) n 0 0 0.

(** [mapper] is the controller's address mapper when it is a RIT mapper. *)
Definition RRS_setup (c : Ctrl) (mapper : option RITAddrMapper) (num_hrt_entries num_rit_entries threshold reset_period_ns : Z)
  : result RRS :=
  let spec := m_spec (m_device c) in
  match mapper with
  | None => Err (Throw "RRS requires the controller's addr_mapper to be RITAddrMapper")
  | Some rit =>
      rd ← get_command_id spec "RD";
      wr ← get_command_id spec "WR";
      row ← get_level_id spec "Row";
      col ← get_level_id spec "Column";
      let banks := length (m_bank_nodes (m_device c)) in
      _ ← get_level_size spec "Row";
      let prefetch := internal_prefetch_size spec in
      cols ← get_level_size spec "Column";
      if prefetch =? 0 then Err Undef
      else
        period ← ns_to_clk spec reset_period_ns;
        Ok (mkRRS (init_rit rit (Z.of_nat banks) num_rit_entries) num_hrt_entries threshold period rd wr row col
              (Z.quot cols prefetch) prefetch 0 (replicate banks ∅) (replicate banks 0) 0 0 0 0)
  end.

Definition RRS_pre_schedule (r : RRS) : result RRS :=
  clk ← inc_s32 (rrs_clk r);
  e ← period_elapsed clk (rrs_reset_period_clk r);
  Ok (if (e : bool)
      then rrs_with r (rit_unlock (rrs_rit r)) clk (map (fun _ => ∅) (rrs_hrt r)) (map (fun _ => 0) (rrs_spillover r))
             (rrs_drawn r) 0 0 0
      else rrs_with r (rrs_rit r) clk (rrs_hrt r) (rrs_spillover r) (rrs_drawn r) 0 0 0).

Section rrs.
Context (draw : nat -> Z) (order : gmap Z Z -> list (Z * Z)) (rorder : gmap Z RITEntry -> list (Z * RITEntry)).
Context (fuel : nat).

(** Updating the hot-row table; [None] when the activation went to the spillover
    counter, which ends the handler. *)
Definition hrt_update (r : RRS) (bank row : Z) : result (RRS * option Z) :=
  t ← vget (rrs_hrt r) bank;
  match t !! row with
  | Some count =>
      ts ← vset (rrs_hrt r) bank (<[row := count + 1]> t);
      Ok (set_hrt r ts (rrs_spillover r), Some (count + 1))
  | None =>
      if Z.of_nat (size t) <? rrs_num_hrt_entries r then
        ts ← vset (rrs_hrt r) bank (<[row := 1]> t);
        Ok (set_hrt r ts (rrs_spillover r), Some 1)
      else
        spill ← vget (rrs_spillover r) bank;
        match evictable order t spill with
        | Some (to_remove, value) =>
            ts ← vset (rrs_hrt r) bank (<[row := value + 1]> (delete to_remove t));
            Ok (set_hrt r ts (rrs_spillover r), Some (value + 1))
        | None =>
            ss ← vset (rrs_spillover r) bank (spill + 1);
            Ok (set_hrt r (rrs_hrt r) ss, None)
        end
  end.

(** The loop of [random_cold_row] from the n-th draw on. *)
Fixpoint cold_from (fuel : nat) (rit : RITAddrMapper) (hrt : gmap Z Z) (bank src : Z) (n : nat) : result (Z * nat) :=
  match fuel with
  | O => Err OutOfFuel
  | S fuel =>
      let rand := draw n in
      swapped ← check_rit rit bank rand;
      if bool_decide (hrt !! rand = None) && (swapped =? -1) && negb (rand =? src) && negb (rand =? -1)
      then Ok (rand, S n) else cold_from fuel rit hrt bank src (S n)
  end.

Definition random_cold_row (r : RRS) (bank src : Z) : result (Z * RRS) :=
  hrt ← vget (rrs_hrt r) bank;
  p ← cold_from fuel (rrs_rit r) hrt bank src (rrs_drawn r);
  Ok (p.1, set_drawn r p.2).

Definition issue_row_copy (r : RRS) (template : AddrVec_t) (row : Z) (is_write : bool) (c : Ctrl) : result Ctrl :=
  row_copy (rrs_row_level r) (rrs_col_level r) (rrs_num_cls r) (rrs_prefetch r)
    (if is_write then rrs_wr_cmd_id r else rrs_rd_cmd_id r) template row c.

Definition issue_swap (r : RRS) (template : AddrVec_t) (src dst : Z) (c : Ctrl) : result Ctrl :=
  c ← issue_row_copy r template src false c;
  c ← issue_row_copy r template dst false c;
  c ← issue_row_copy r template dst true c;
  issue_row_copy r template src true c.

(** Making room in a full table. *)
Definition unswap_if_full (r : RRS) (template : AddrVec_t) (bank : Z) (c : Ctrl) : result (RRS * Ctrl) :=
  full ← is_rit_full (rrs_rit r) bank;
  if (full : bool) then
    t ← vget (m_rit (rrs_rit r)) bank;
    hrt ← vget (rrs_hrt r) bank;
    u ← get_unswap_pair rorder t hrt;
    c ← issue_swap r template u.1 u.2 c;
    rit ← remove_entry (rrs_rit r) bank u.1 u.2;
    Ok (set_rrs_rit r rit 0 1 0, c)
  else Ok (r, c).

(** The row was swapped in this epoch: both rows get new partners. *)
Definition reswap_both (r : RRS) (template : AddrVec_t) (bank row prev : Z) (c : Ctrl) : result (RRS * Ctrl) :=
  p ← unswap_if_full r template bank c;
  d0 ← random_cold_row p.1 bank row;
  d1 ← random_cold_row d0.2 bank row;
  let r := d1.2 in
  rit ← remove_entry (rrs_rit r) bank row prev;
  c ← issue_swap r template row d0.1 p.2;
  c ← issue_swap r template prev d1.1 c;
  rit ← insert_entry rit bank row d1.1;
  rit ← insert_entry rit bank prev d0.1;
  Ok (set_rrs_rit r rit 2 0 1, c).

(** The row was swapped in an earlier epoch. *)
Definition unswap_reswap (r : RRS) (template : AddrVec_t) (bank row prev : Z) (c : Ctrl) : result (RRS * Ctrl) :=
  d ← random_cold_row r bank row;
  c ← issue_swap d.2 template row prev c;
  rit ← remove_entry (rrs_rit d.2) bank row prev;
  c ← issue_swap d.2 template row d.1 c;
  rit ← insert_entry rit bank row d.1;
  Ok (set_rrs_rit d.2 rit 1 1 0, c).

Definition fresh_swap (r : RRS) (template : AddrVec_t) (bank row : Z) (c : Ctrl) : result (RRS * Ctrl) :=
  p ← unswap_if_full r template bank c;
  d ← random_cold_row p.1 bank row;
  c ← issue_swap d.2 template row d.1 p.2;
  rit ← insert_entry (rrs_rit d.2) bank row d.1;
  Ok (set_rrs_rit d.2 rit 1 0 0, c).

Definition RRS_on_issue (r : RRS) (c : Ctrl) (req : Request) : result (RRS * Ctrl) :=
  act ← is_single_act (m_device c) req;
  if negb act then Ok (r, c)
  else
    bank ← get_flat_bank_id (m_device c) (addr_vec req);
    row ← vget (addr_vec req) (rrs_row_level r);
    u ← hrt_update r bank row;
    match u with
    | (r, None) => Ok (r, c)
    | (r, Some count) =>
        if rrs_threshold r =? 0 then Err Undef
        else if negb (Z.rem count (rrs_threshold r) =? 0) then Ok (r, c)
        else
          prev ← check_rit (rrs_rit r) bank row;
          if negb (prev =? -1) then
            locked ← is_rit_locked (rrs_rit r) bank row;
            if (locked : bool) then reswap_both r (addr_vec req) bank row prev c
            else unswap_reswap r (addr_vec req) bank row prev c
          else fresh_swap r (addr_vec req) bank row c
    end.
End rrs.

#[export] Instance RRS_plugin draw order rorder fuel : ControllerPlugin RRS := {|
  pl_pre_schedule := fun r c => r ← RRS_pre_schedule r; Ok (r, c);
  pl_on_issue := RRS_on_issue draw order rorder fuel;
  pl_post_schedule := fun r c => Ok (r, c)
|}.
