(* ===== verification/RRSProps.v ===== *)
(** * Row indirection under randomized row swap

    The row indirection table is meant to be a permutation of the rows of a bank.
    It stays an involution, hence a permutation, through every operation of RRS
    except the swap of a row that was already swapped in the same epoch, whose
    two random partners may coincide. *)

From Stdlib Require Import ZArith Lia SpecFloat.
From S2P Require Import Prelude Base Spec Node Standards Device Controller Scheduler GenericDDR Mapping Plugins RRS.
From S2P Require Import ControllerFacts ControllerInv ControllerProps Examples CtrlExamples.

Local Open Scope Z_scope.

(** ** The handler *)

(** The request activates the row and brings its count to the threshold. *)
Definition rrs_crosses (order : gmap Z Z -> list (Z * Z)) (r : RRS) (d : DRAMDevice) (req : Request) (bank row : Z) : Prop :=
  is_single_act d req = Ok true /\ get_flat_bank_id d (addr_vec req) = Ok bank /\
  vget (addr_vec req) (rrs_row_level r) = Ok row /\
  exists r1 count, hrt_update order r bank row = Ok (r1, Some count) /\ Z.rem count (rrs_threshold r1) = 0.

Section handler.
Context (draw : nat -> Z) (order : gmap Z Z -> list (Z * Z)) (rorder : gmap Z RITEntry -> list (Z * RITEntry)) (fuel : nat).
Context (Hdraw : forall n, 0 <= draw n) (Hrorder : forall t, rorder t ≡ₚ map_to_list t).

Lemma hrt_update_rit (r r' : RRS) (bank row : Z) (o : option Z) :
  hrt_update order r bank row = Ok (r', o) -> rrs_rit r' = rrs_rit r.
Proof. unfold hrt_update. intros (t & _ & H)%bind_Ok. repeat (case_match; inv_res; simplify_eq/=; try done). Qed.

Lemma cold_from_spec (f : nat) (rit : RITAddrMapper) (hrt : gmap Z Z) (bank src d : Z) (n k : nat) :
  cold_from draw f rit hrt bank src n = Ok (d, k) -> check_rit rit bank d = Ok (-1) /\ d <> src /\ 0 <= d.
Proof.
  revert n. induction f as [|f IH]; intros n H; [done|]. simpl in H. apply bind_Ok in H as (s & Hs & H).
  destruct (_ && _) eqn:Hg; [|by eapply IH]. injection H as <- <-. rewrite !andb_true_iff in Hg.
  destruct Hg as [[[_ Hg1] Hg2] _]. assert (s = -1) as -> by lia. split_and!; [done|lia|done].
Qed.

Lemma random_cold_row_spec (r r' : RRS) (bank src d : Z) :
  random_cold_row draw fuel r bank src = Ok (d, r') ->
  rrs_rit r' = rrs_rit r /\ check_rit (rrs_rit r) bank d = Ok (-1) /\ d <> src /\ 0 <= d.
Proof.
  unfold random_cold_row. intros (hrt & _ & H)%bind_Ok. apply bind_Ok in H as ([d0 k] & H1 & [= <- <-]).
  split; [done|]. by eapply cold_from_spec.
Qed.

Lemma unswap_pair_spec (t : gmap Z RITEntry) (hrt : gmap Z Z) (u : Z * Z) :
  get_unswap_pair rorder t hrt = Ok u -> exists e, t !! u.1 = Some e /\ u.2 = swapped_row e.
Proof.
  unfold get_unswap_pair. assert (forall k e, (k, e) ∈ rorder t -> t !! k = Some e) as Hin.
  { intros k e. rewrite Hrorder. apply elem_of_map_to_list. }
  destruct (List.find _ _) as [[k e]|] eqn:Hf.
  - apply List.find_some in Hf as [Hf _]. intros [= <-]. exists e. split; [apply Hin; by apply list_elem_of_In|done].
  - destruct (rorder t) as [|[k e] l]; [done|]. intros [= <-]. exists e. split; [apply Hin; by left|done].
Qed.

Lemma unswap_if_full_wf (r r' : RRS) (template : AddrVec_t) (bank row : Z) (c c' : Ctrl) :
  rits_wf (rrs_rit r) -> check_rit (rrs_rit r) bank row = Ok (-1) ->
  unswap_if_full rorder r template bank c = Ok (r', c') -> rits_wf (rrs_rit r') /\ check_rit (rrs_rit r') bank row = Ok (-1).
Proof.
  intros Hw Hrow. unfold unswap_if_full. intros (full & _ & H)%bind_Ok. destruct full; [|by injection H as <- <-].
  apply bind_Ok in H as (t & Ht & H). apply bind_Ok in H as (hrt & _ & H). apply bind_Ok in H as (u & Hu & H).
  apply bind_Ok in H as (c1 & _ & H). apply bind_Ok in H as (rit & Hr & H). injection H as <- <-. simpl.
  destruct (unswap_pair_spec _ _ _ Hu) as (e & He & Eu). rewrite Eu in Hr. split; [by eapply remove_entry_wf|].
  destruct (remove_entry_spec _ _ _ _ _ Hr) as (t' & Ht' & Hnew). rewrite Ht in Ht'. injection Ht' as <-.
  unfold check_rit. rewrite Hnew. simpl. pose proof (check_rit_absent _ _ _ _ Hw Hrow Ht) as Habs.
  by rewrite (proj2 (lookup_delete_None _ _ _) (or_intror (proj2 (lookup_delete_None _ _ _) (or_intror Habs)))).
Qed.

Lemma fresh_swap_wf (r r' : RRS) (template : AddrVec_t) (bank row : Z) (c c' : Ctrl) :
  rits_wf (rrs_rit r) -> check_rit (rrs_rit r) bank row = Ok (-1) -> 0 <= row ->
  fresh_swap draw rorder fuel r template bank row c = Ok (r', c') -> rits_wf (rrs_rit r').
Proof.
  intros Hw Hrow H0. unfold fresh_swap. intros ([r1 c1] & Hu & H)%bind_Ok. simpl in H.
  apply unswap_if_full_wf with (row := row) in Hu as [Hw1 Hrow1]; [|done..].
  apply bind_Ok in H as ([d r2] & Hd & H). simpl in H. apply random_cold_row_spec in Hd as (E & Hcold & Hne & Hd0).
  apply bind_Ok in H as (c2 & _ & H). apply bind_Ok in H as (rit & Hi & H). injection H as <- <-. simpl.
  rewrite E in Hi. pose proof Hrow1 as Ht. unfold check_rit in Ht. apply bind_Ok in Ht as (t & Ht & _).
  eapply insert_entry_wf; [exact Hw1|exact Hi|exact Ht|by eapply check_rit_absent..|congruence|done|done].
Qed.

Lemma unswap_reswap_wf (r r' : RRS) (template : AddrVec_t) (bank row prev : Z) (c c' : Ctrl) :
  rits_wf (rrs_rit r) -> check_rit (rrs_rit r) bank row = Ok prev -> prev <> -1 -> 0 <= row ->
  unswap_reswap draw fuel r template bank row prev c = Ok (r', c') -> rits_wf (rrs_rit r').
Proof.
  intros Hw Hrow Hp H0. unfold unswap_reswap. intros ([d r2] & Hd & H)%bind_Ok. simpl in H.
  apply random_cold_row_spec in Hd as (E & Hcold & Hne & Hd0). apply bind_Ok in H as (c1 & _ & H).
  apply bind_Ok in H as (rit & Hr & H). apply bind_Ok in H as (c2 & _ & H). apply bind_Ok in H as (rit2 & Hi & H).
  injection H as <- <-. simpl. rewrite E in Hr. destruct (check_rit_present _ _ _ _ Hrow Hp) as (t & e & Ht & He & <-).
  pose proof (check_rit_absent _ _ _ _ Hw Hcold Ht) as Habs.
  destruct (remove_entry_spec _ _ _ _ _ Hr) as (t' & Ht' & Hnew). rewrite Ht in Ht'. injection Ht' as <-.
  eapply (insert_entry_wf rit rit2 bank row d); [by eapply remove_entry_wf|exact Hi|exact Hnew| | |congruence|done|done].
  - apply lookup_delete_None. right. apply lookup_delete_eq.
  - apply lookup_delete_None. right. apply lookup_delete_None. by right.
Qed.

(** A swap keeps the tables involutive unless the row is locked. *)
Lemma on_issue_wf (r r' : RRS) (c c' : Ctrl) (req : Request) :
  rits_wf (rrs_rit r) ->
  (forall bank row, rrs_crosses order r (m_device c) req bank row ->
     0 <= row /\ is_rit_locked (rrs_rit r) bank row = Ok false) ->
  RRS_on_issue draw order rorder fuel r c req = Ok (r', c') -> rits_wf (rrs_rit r').
Proof.
  intros Hw Hlk. unfold RRS_on_issue. intros (act & Hact & H)%bind_Ok. destruct act; cbn [negb] in H; [|by injection H as <- <-].
  apply bind_Ok in H as (bank & Hb & H). apply bind_Ok in H as (row & Hr & H).
  apply bind_Ok in H as ([r1 o] & Hu & H). apply hrt_update_rit in Hu as E. rewrite <- E in Hw.
  destruct o as [count|]; [|by injection H as <- <-]. destruct (_ =? 0); [done|].
  destruct (Z.eqb_spec (Z.rem count (rrs_threshold r1)) 0) as [Hc|Hc]; cbn [negb] in H; [|by injection H as <- <-].
  destruct (Hlk bank row) as [H0 Hl]; [split_and!; eauto|]. rewrite <- E in Hl.
  apply bind_Ok in H as (prev & Hp & H). destruct (Z.eqb_spec prev (-1)) as [->|Hne]; simpl in H.
  - by eapply fresh_swap_wf.
  - rewrite Hl in H. simpl in H. by eapply unswap_reswap_wf.
Qed.
End handler.

(** ** Runs

    A row whose activation crosses the threshold is an existing row that is not
    locked, that is, was not swapped in the current epoch; nothing is asked of the
    other requests. *)
Inductive rrs_run (draw : nat -> Z) : RRS -> Prop :=
| rrs_setup c mapper hrt rit threshold ns r :
    RRS_setup c mapper hrt rit threshold ns = Ok r -> rrs_run draw r
| rrs_cycle r r' : rrs_run draw r -> RRS_pre_schedule r = Ok r' -> rrs_run draw r'
| rrs_issue r r' c c' req order rorder fuel :
    rrs_run draw r -> (forall t, rorder t ≡ₚ map_to_list t) ->
    (forall bank row, rrs_crosses order r (m_device c) req bank row ->
       0 <= row /\ is_rit_locked (rrs_rit r) bank row = Ok false) ->
    RRS_on_issue draw order rorder fuel r c req = Ok (r', c') -> rrs_run draw r'.

Lemma rrs_run_wf (draw : nat -> Z) (r : RRS) : (forall n, 0 <= draw n) -> rrs_run draw r -> rits_wf (rrs_rit r).
Proof.
  intros Hd. induction 1 as [c mapper hrt rit threshold ns r H|r r' Hrun IH H|r r' c c' req order rorder fuel Hrun IH Ho Hl H].
  - unfold RRS_setup in H. destruct mapper as [m|]; [|done]. inv_res. case_match; [done|]. inv_res. apply init_rit_wf.
  - apply bind_Ok in H as (clk & _ & H). apply bind_Ok in H as ([|] & _ & H); injection H as <-; [by apply rit_unlock_wf|done].
  - eapply on_issue_wf; eauto.
Qed.

(** C34: while no row that is already swapped in the current epoch crosses the
    threshold again, and activated and drawn rows are not negative, the row
    indirection of every bank stays an involution, so the redirected rows of
    different logical rows are different.  Swapped rows may be accessed and activated
    below the threshold. *)
Theorem rrs_keeps_involution (draw : nat -> Z) (r : RRS) (bank : Z) (t : gmap Z RITEntry) :
  (forall n, 0 <= draw n) -> rrs_run draw r -> vget (m_rit (rrs_rit r)) bank = Ok t ->
  (forall x, rit_row t (rit_row t x) = x) /\ (forall x y, rit_row t x = rit_row t y -> x = y).
Proof.
  intros Hd Hrun Ht. pose proof (rrs_run_wf draw r Hd Hrun bank t Ht) as Hw.
  split; [intros x; by apply rit_row_involutive|]. intros x y E.
  by rewrite <- (rit_row_involutive t x Hw), <- (rit_row_involutive t y Hw), E.
Qed.

(** ** On the small DDR4 controller, swapping at every activation *)
Definition rrs_or (q : result (RRS * Ctrl)) : RRS * Ctrl :=
  match q with Ok p => p | Err _ => (mkRRS (mkRITMapper 0 0 0 [] 0 false) 0 0 0 0 0 0 0 0 0 0 [] [] 0 0 0 0, empty_ctrl) end.
Definition rrs_mapper : option RITAddrMapper :=
  match RIT_init (m_spec (m_device small_ctrl)) 0 with Ok m => Some m | Err _ => None end.
Definition rrs_start : result RRS := RRS_setup small_ctrl rrs_mapper 4 4 1 64000.
Definition rrs0 : RRS := (rrs_or (r ← rrs_start; Ok (r, small_ctrl))).1.
Definition rrs_act (row : Z) : Request := set_command (Request_vec [0; 0; 0; 0; row; 0] Read) 0.
Definition rrs_next (draw : nat -> Z) (p : RRS * Ctrl) (row : Z) : RRS * Ctrl :=
  rrs_or (RRS_on_issue draw map_to_list map_to_list 10 p.1 p.2 (rrs_act row)).

(** The generator's numbers from [l], then 0. *)
Definition draws (l : list Z) (n : nat) : Z := default 0 (l !! n).
Definition table_of (r : RRS) : gmap Z RITEntry := match m_rit (rrs_rit r) with t :: _ => t | [] => ∅ end.

(** Row 7 is swapped with row 10. *)
Definition rrs1 := rrs_next (draws [10]) (rrs0, small_ctrl) 7.

Lemma rrs1_run : rrs_run (draws [10]) rrs1.1.
Proof.
  assert (H0 : rrs_run (draws [10]) rrs0).
  { apply (rrs_setup (draws [10]) small_ctrl rrs_mapper 4 4 1 64000). vm_compute. reflexivity. }
  apply (rrs_issue _ _ rrs1.1 small_ctrl rrs1.2 (rrs_act 7) map_to_list map_to_list 10 H0).
  - done.
  - intros bank row (_ & Hb & Hr & _). assert (bank = 0) as -> by (vm_compute in Hb; congruence). assert (row = 7) as -> by (vm_compute in Hr; congruence).
    split; [lia|]. vm_compute. reflexivity.
  - vm_compute. reflexivity.
Qed.

Lemma rrs_keeps_involution_witness :
  rit_row (table_of rrs1.1) 7 = 10 /\ forall x, rit_row (table_of rrs1.1) (rit_row (table_of rrs1.1) x) = x.
Proof.
  split; [vm_compute; reflexivity|].
  refine (proj1 (rrs_keeps_involution (draws [10]) rrs1.1 0 (table_of rrs1.1) _ rrs1_run _)); [|vm_compute; reflexivity].
  intros [|n]; vm_compute; discriminate.
Defined.

(** Swapping a row again in the epoch it was swapped in draws its two new
    partners independently.  When they coincide, the table redirects two logical
    rows to one physical row. *)
Theorem rrs_reswap_collides :
  exists r c, rrs_next (draws [10; 20; 20]) (rrs_next (draws [10; 20; 20]) (rrs0, small_ctrl) 7) 7 = (r, c) /\
    rrs_num_reswaps r = 1 /\ rit_row (table_of r) 7 = 20 /\ rit_row (table_of r) 10 = 20.
Proof. do 2 eexists. split; [apply surjective_pairing|]. split_and!; vm_compute; reflexivity. Qed.

(** The distribution includes its upper bound, so the partner may be the row after
    the last one. *)
Lemma rrs_row_out_of_range :
  get_level_size (m_spec (m_device small_ctrl)) "Row" = Ok 64 /\
  rit_row (table_of (rrs_next (draws [64]) (rrs0, small_ctrl) 7).1) 7 = 64.
Proof. split; vm_compute; reflexivity. Qed.
