(* ===== verification/PluginInst.v ===== *)
(** * The plugins keep the controller's laws

    A plugin may touch the controller only by queueing maintenance requests;
    against that promise the request accounting, the write filter and the read
    completion theorems hold for controllers with any mix of these plugins. *)

From Stdlib Require Import ZArith Lia SpecFloat.
From S2P Require Import Prelude Base Spec Node Standards Device Controller Scheduler GenericDDR Mapping Plugins RRS.
From S2P Require Import ControllerFacts ControllerInv ControllerProps.

Local Open Scope Z_scope.

Lemma send_vrr_sends (c c' : Ctrl) (req : Request) (vrr : Z) : send_vrr c req vrr = Ok c' -> sends any_request c c'.
Proof. intros ([ok c1] & H & [= <-])%bind_Ok. by eapply send_cmd_sends. Qed.

(** Sending a list of requests, whatever the verdicts. *)
Definition send_all (c : Ctrl) (rs : list Request) : result Ctrl :=
  foldM (fun c r => q ← priority_send c r; Ok q.2) c rs.

Lemma send_all_cons (c c1 c' : Ctrl) (r : Request) (rs : list Request) (ok : bool) :
  priority_send c r = Ok (ok, c1) -> send_all c1 rs = Ok c' -> send_all c (r :: rs) = Ok c'.
Proof. intros H1 H2. unfold send_all. rewrite foldM_cons, H1. exact H2. Qed.

Lemma send_all_app (c c1 c' : Ctrl) (rs1 rs2 : list Request) :
  send_all c rs1 = Ok c1 -> send_all c1 rs2 = Ok c' -> send_all c (rs1 ++ rs2) = Ok c'.
Proof. intros H1 H2. unfold send_all. rewrite foldM_app. fold (send_all c rs1). rewrite H1. exact H2. Qed.

Lemma send_all_device (c c' : Ctrl) (rs : list Request) : send_all c rs = Ok c' -> m_device c' = m_device c.
Proof.
  revert c. induction rs as [|r rs IH]; intros c H; [by injection H as <-|]. unfold send_all in H. rewrite foldM_cons in H.
  apply bind_Ok in H as (c1 & H1 & H). apply bind_Ok in H1 as ([ok c2] & H1 & [= <-]). rewrite (IH _ H). by eapply priority_send_device.
Qed.

(** The queue only grows, and with room left at the end nothing was dropped. *)
Lemma send_all_prio (c c' : Ctrl) (rs : list Request) :
  send_all c rs = Ok c' ->
  max_size (m_priority_buffer c') = max_size (m_priority_buffer c) /\
  buf_size (m_priority_buffer c) <= buf_size (m_priority_buffer c') /\
  (buf_size (m_priority_buffer c') < max_size (m_priority_buffer c') ->
   buffer (m_priority_buffer c') = buffer (m_priority_buffer c) ++ rs).
Proof.
  revert c. induction rs as [|r rs IH]; intros c H.
  { injection H as <-. split_and!; [done|lia|]. by rewrite app_nil_r. }
  unfold send_all in H. rewrite foldM_cons in H. apply bind_Ok in H as (c1 & H1 & H). apply bind_Ok in H1 as ([ok c2] & H1 & [= <-]).
  destruct (IH _ H) as (E1 & E2 & E3). cbn [snd] in *.
  assert (max_size (m_priority_buffer c2) = max_size (m_priority_buffer c) /\
    (buffer (m_priority_buffer c2) = buffer (m_priority_buffer c) ++ [r] \/
     (m_priority_buffer c2 = m_priority_buffer c /\ max_size (m_priority_buffer c) <= buf_size (m_priority_buffer c)))) as [M B].
  { unfold priority_send in H1. destruct (_ || _); [done|]. destruct (enqueue _ _) as [[|] b] eqn:Hq.
    - apply enqueue_true in Hq as (Hq1 & Hq2). injection H1 as _ <-. destruct (_ =? _); cbn; auto.
    - apply enqueue_false in Hq as [-> Hq]. injection H1 as _ <-. auto. }
  unfold buf_size in *. destruct B as [B|[B Hfull]].
  - rewrite B, length_app in E2. cbn in E2. split_and!; [congruence|lia|]. intros Hr. rewrite (E3 Hr), B. by rewrite <- app_assoc.
  - rewrite B in *. split_and!; [congruence|lia|]. intros Hr. lia.
Qed.

(** Handlers that branch, update their tables and send at most one VRR. *)
Ltac solve_sends :=
  repeat (case_match; inv_res; simplify_eq/=);
  first [constructor | by eapply send_vrr_sends | by eapply send_cmd_sends].

#[export] Instance plugin_sum_laws {A B : Type} (Q : Ctrl -> Request -> Prop) `{IA : ControllerPlugin A} `{IB : ControllerPlugin B}
  `{!PluginLaws Q A} `{!PluginLaws Q B} : PluginLaws Q (A + B).
Proof.
  split; intros [a|b] g' c c'; [..|intros r|intros r| |]; intros H; simpl in H; apply bind_Ok in H as ([x c1] & H & E);
    injection E as <- <-;
    first [exact (plugin_pre_sends _ _ _ _ H) | exact (plugin_issue_sends _ _ _ _ _ H) | exact (plugin_post_sends _ _ _ _ H)].
Qed.

#[export] Instance Graphene_laws order : @PluginLaws any_request Graphene (Graphene_plugin order).
Proof.
  split; intros g g' c c'; [|intros r|]; intros H; simpl in H.
  - inv_res. constructor.
  - unfold Graphene_on_issue in H. inv_res. solve_sends.
  - inv_res. constructor.
Qed.

#[export] Instance OracleRH_laws : PluginLaws any_request OracleRH.
Proof.
  split; intros g g' c c'; [|intros r|]; intros H; simpl in H.
  - inv_res. constructor.
  - unfold OracleRH_on_issue in H. apply bind_Ok in H as (act & _ & H). apply bind_Ok in H as ([o c1] & H1 & H).
    inv_res. simplify_eq/=. destruct act; [|injection H1 as <- <-; constructor]. unfold oracle_count in H1. inv_res. solve_sends.
  - inv_res. constructor.
Qed.

#[export] Instance TWiCeIdeal_laws : PluginLaws any_request TWiCeIdeal.
Proof.
  split; intros g g' c c'; [|intros r|]; intros H; simpl in H.
  - inv_res. constructor.
  - unfold TWiCeIdeal_on_issue, twice_count in H. inv_res. solve_sends.
  - inv_res. constructor.
Qed.

#[export] Instance PARA_laws draw : @PluginLaws any_request PARA (PARA_plugin draw).
Proof.
  split; intros g g' c c'; [|intros r|]; intros H; simpl in H.
  - inv_res. constructor.
  - unfold PARA_on_issue in H. inv_res. solve_sends.
  - inv_res. constructor.
Qed.

#[export] Instance RFMManager_laws : PluginLaws any_request RFMManager.
Proof.
  split; intros g g' c c'; [|intros r|]; intros H; simpl in H.
  - inv_res. constructor.
  - unfold RFM_on_issue in H. inv_res. solve_sends.
  - inv_res. constructor.
Qed.

#[export] Instance CommandCounter_laws : PluginLaws any_request CommandCounter.
Proof. split; intros g g' c c'; [|intros r|]; intros H; simpl in H; inv_res; constructor. Qed.

#[export] Instance ValidationHook_laws : PluginLaws any_request ValidationHook.
Proof. split; intros g g' c c'; [|intros r|]; intros H; simpl in H; inv_res; constructor. Qed.

(** ** Randomized row swap *)
Lemma row_copy_sends (rl cl n pf cmd : Z) (av : AddrVec_t) (row : Z) (c c' : Ctrl) :
  row_copy rl cl n pf cmd av row c = Ok c' -> sends any_request c c'.
Proof.
  unfold row_copy. intros (av1 & _ & H)%bind_Ok. apply bind_Ok in H as (st & H & [= <-]).
  apply (foldM_sends any_request (fun s : AddrVec_t * Ctrl => s.2)) in H; [done|]. clear.
  intros [av c] [av' c'] x H. simpl in *. apply bind_Ok in H as (av1 & _ & H). apply bind_Ok in H as ([ok c1] & H & [= <- <-]).
  by eapply (sends_cons any_request); [| |exact H|constructor].
Qed.

Lemma swap_sends (r : RRS) (av : AddrVec_t) (src dst : Z) (c c' : Ctrl) :
  issue_swap r av src dst c = Ok c' -> sends any_request c c'.
Proof.
  unfold issue_swap. intros (c1 & H1 & H)%bind_Ok. apply bind_Ok in H as (c2 & H2 & H). apply bind_Ok in H as (c3 & H3 & H).
  apply row_copy_sends in H1, H2, H3, H. eauto using sends_trans.
Qed.

Lemma unswap_if_full_sends rorder (r r' : RRS) (av : AddrVec_t) (bank : Z) (c c' : Ctrl) :
  unswap_if_full rorder r av bank c = Ok (r', c') -> sends any_request c c'.
Proof.
  unfold unswap_if_full. intros (full & _ & H)%bind_Ok. destruct full; inv_res; [|constructor]. simplify_eq. by eapply swap_sends.
Qed.

(** Collect what every part of a swap sends. *)
Ltac collect_sends :=
  repeat match goal with
  | H : issue_swap _ _ _ _ _ = Ok _ |- _ => apply swap_sends in H
  | H : unswap_if_full _ _ _ _ _ = Ok ?p |- _ => destruct p; apply unswap_if_full_sends in H
  end; simpl in *; eauto using sends_trans.

#[export] Instance RRS_laws draw order rorder fuel : @PluginLaws any_request RRS (RRS_plugin draw order rorder fuel).
Proof.
  split; intros g g' c c'; [|intros r|]; intros H; simpl in H; [inv_res; constructor| |inv_res; constructor].
  unfold RRS_on_issue in H. inv_res. repeat (case_match; inv_res; simplify_eq/=); try constructor;
    unfold reswap_both, unswap_reswap, fresh_swap in *; inv_res; simplify_eq/=; collect_sends.
Qed.
