(* ===== verification/AQUA.v ===== *)
(** * Aggressor-row quarantine

    [controller/plugin/impl/aqua.cpp]: hot rows, counted by a table with a spillover
    counter, are moved to the reserved low rows of their bank, one slot after the
    other, through the row indirection table of the address mapper.  The mapper is
    shared with the controller; here the plugin holds it. *)

From Stdlib Require Import ZArith Lia SpecFloat.
From S2P Require Import Prelude Base Spec Node Standards Device Controller Scheduler GenericDDR Mapping Plugins RRS.

Local Open Scope Z_scope.

Record AQUA := mkAQUA {
  aq_rit : RITAddrMapper;
  aq_num_art_entries : Z;
  aq_num_qrows : Z;
  aq_art_threshold : Z;
  aq_reset_period_clk : Z;
  aq_rd_cmd_id : Z;
  aq_wr_cmd_id : Z;
  aq_row_level : Z;
  aq_col_level : Z;
  aq_num_cls : Z;
  aq_prefetch : Z;
  aq_clk : Z;
  aq_art : list (gmap Z Z);
  aq_spillover : list Z;
  aq_rpt : list (gmap Z Z);
  aq_rqa_head : Z;
  aq_num_migrations : Z;
  aq_num_r_migrations : Z
}.

Definition aq_with (a : AQUA) (rit : RITAddrMapper) (clk : Z) (art : list (gmap Z Z)) (spill : list Z) (rpt : list (gmap Z Z))
  (head migrations r_migrations : Z) : AQUA :=
  mkAQUA rit (aq_num_art_entries a) (aq_num_qrows a) (aq_art_threshold a) (aq_reset_period_clk a) (aq_rd_cmd_id a)
    (aq_wr_cmd_id a) (aq_row_level a) (aq_col_level a) (aq_num_cls a) (aq_prefetch a) clk art spill rpt head
    (aq_num_migrations a + migrations) (aq_num_r_migrations a + r_migrations).
Definition set_art (a : AQUA) (art : list (gmap Z Z)) (spill : list Z) : AQUA :=
  aq_with a (aq_rit a) (aq_clk a) art spill (aq_rpt a) (aq_rqa_head a) 0 0.
Definition set_tables (a : AQUA) (rit : RITAddrMapper) (rpt : list (gmap Z Z)) (r_migrations : Z) : AQUA :=
  aq_with a rit (aq_clk a) (aq_art a) (aq_spillover a) rpt (aq_rqa_head a) 0 r_migrations.
Definition set_head (a : AQUA) (head : Z) : AQUA :=
  aq_with a (aq_rit a) (aq_clk a) (aq_art a) (aq_spillover a) (aq_rpt a) head 1 0.

(** [mapper] is the controller's address mapper when it is a RIT mapper. *)
Definition AQUA_setup (c : Ctrl) (mapper : option RITAddrMapper)
  (num_art_entries num_fpt_entries num_qrows art_threshold reset_period_ns : Z) : result AQUA :=
  let spec := m_spec (m_device c) in
  match mapper with
  | None => Err (Throw "AQUA requires the controller's addr_mapper to be RITAddrMapper")
  | Some rit =>
      rd ← get_command_id spec "RD";
      wr ← get_command_id spec "WR";
      row ← get_level_id spec "Row";
      col ← get_level_id spec "Column";
      let banks := length (m_bank_nodes (m_device c)) in
      rows ← get_level_size spec "Row";
      let prefetch := internal_prefetch_size spec in
      cols ← get_level_size spec "Column";
      if prefetch =? 0 then Err Undef
      else
        period ← ns_to_clk spec reset_period_ns;
        if (num_qrows <=? 0) || (rows <=? num_qrows) then Err (Throw "AQUA: num_qrows_per_bank out of range")
        else
          Ok (mkAQUA (init_rit rit (Z.of_nat banks) num_fpt_entries) num_art_entries num_qrows art_threshold period rd wr
                row col (Z.quot cols prefetch) prefetch 0 (replicate banks ∅) (replicate banks 0) (replicate banks ∅) 0 0 0)
  end.

Definition AQUA_pre_schedule (a : AQUA) : result AQUA :=
  clk ← inc_s32 (aq_clk a);
  e ← period_elapsed clk (aq_reset_period_clk a);
  Ok (if (e : bool)
      then aq_with a (aq_rit a) clk (map (fun _ => ∅) (aq_art a)) (map (fun _ => 0) (aq_spillover a)) (aq_rpt a) (aq_rqa_head a) 0 0
      else aq_with a (aq_rit a) clk (aq_art a) (aq_spillover a) (aq_rpt a) (aq_rqa_head a) 0 0).

(** Updating the aggressor-row tracker; [None] when the activation went to the
    spillover counter, which ends the handler. *)
Definition art_update (order : gmap Z Z -> list (Z * Z)) (a : AQUA) (bank row : Z) : result (AQUA * option Z) :=
  t ← vget (aq_art a) bank;
  match t !! row with
  | Some count =>
      ts ← vset (aq_art a) bank (<[row := count + 1]> t);
      Ok (set_art a ts (aq_spillover a), Some (count + 1))
  | None =>
      if Z.of_nat (size t) <? aq_num_art_entries a then
        ts ← vset (aq_art a) bank (<[row := 1]> t);
        Ok (set_art a ts (aq_spillover a), Some 1)
      else
        spill ← vget (aq_spillover a) bank;
        match evictable order t spill with
        | Some (to_remove, value) =>
            ts ← vset (aq_art a) bank (<[row := value + 1]> (delete to_remove t));
            Ok (set_art a ts (aq_spillover a), Some (value + 1))
        | None =>
            ss ← vset (aq_spillover a) bank (spill + 1);
            Ok (set_art a (aq_art a) ss, None)
        end
  end.

Definition aq_row_copy (a : AQUA) (template : AddrVec_t) (row : Z) (is_write : bool) (c : Ctrl) : result Ctrl :=
  row_copy (aq_row_level a) (aq_col_level a) (aq_num_cls a) (aq_prefetch a)
    (if is_write then aq_wr_cmd_id a else aq_rd_cmd_id a) template row c.

Definition issue_migration (a : AQUA) (template : AddrVec_t) (src dst : Z) (c : Ctrl) : result Ctrl :=
  c ← aq_row_copy a template src false c;
  aq_row_copy a template dst true c.

(** The slot at the head is vacated first. *)
Definition vacate (a : AQUA) (template : AddrVec_t) (bank q_row : Z) (c : Ctrl) : result (AQUA * Ctrl) :=
  rpt ← vget (aq_rpt a) bank;
  match rpt !! q_row with
  | None => Ok (a, c)
  | Some prev_workload_row =>
      rpts ← vset (aq_rpt a) bank (delete q_row rpt);
      rit ← remove_entry (aq_rit a) bank prev_workload_row q_row;
      c ← issue_migration a template q_row prev_workload_row c;
      Ok (set_tables a rit rpts 1, c)
  end.

(** Record the new place of the row; a row that is itself a slot hands over what
    it holds. *)
Definition quarantine (a : AQUA) (bank row q_row : Z) : result AQUA :=
  rpt ← vget (aq_rpt a) bank;
  if row <? aq_num_qrows a then
    match rpt !! row with
    | None => Ok a
    | Some original =>
        rit ← remove_entry (aq_rit a) bank original row;
        rpts ← vset (aq_rpt a) bank (<[q_row := original]> (delete row rpt));
        rit ← insert_entry rit bank original q_row;
        Ok (set_tables a rit rpts 0)
    end
  else
    rpts ← vset (aq_rpt a) bank (<[q_row := row]> rpt);
    rit ← insert_entry (aq_rit a) bank row q_row;
    Ok (set_tables a rit rpts 0).

Definition AQUA_on_issue (order : gmap Z Z -> list (Z * Z)) (a : AQUA) (c : Ctrl) (req : Request) : result (AQUA * Ctrl) :=
  act ← is_single_act (m_device c) req;
  if negb act then Ok (a, c)
  else
    bank ← get_flat_bank_id (m_device c) (addr_vec req);
    row ← vget (addr_vec req) (aq_row_level a);
    u ← art_update order a bank row;
    match u with
    | (a, None) => Ok (a, c)
    | (a, Some count) =>
        if aq_art_threshold a =? 0 then Err Undef
        else if negb (Z.rem count (aq_art_threshold a) =? 0) then Ok (a, c)
        else
          let q_row := aq_rqa_head a in
          p ← vacate a (addr_vec req) bank q_row c;
          a ← quarantine p.1 bank row q_row;
          c ← issue_migration a (addr_vec req) row q_row p.2;
          Ok (set_head a (Z.rem (aq_rqa_head a + 1) (aq_num_qrows a)), c)
    end.

#[export] Instance AQUA_plugin (order : gmap Z Z -> list (Z * Z)) : ControllerPlugin AQUA := {|
  pl_pre_schedule := fun a c => a ← AQUA_pre_schedule a; Ok (a, c);
  pl_on_issue := AQUA_on_issue order;
  pl_post_schedule := fun a c => Ok (a, c)
|}.
