(* ===== verification/AQUAProps.v ===== *)
(** * Quarantine and row indirection

    Between its two tables AQUA keeps a bijection of quarantined workload rows and
    slots, as long as no row that is in quarantine is quarantined again.  What the
    address mapper makes of them: it looks up logical rows in a table of physical
    ones. *)

From Stdlib Require Import ZArith Lia SpecFloat.
From S2P Require Import Prelude Base Spec Node Standards Device Controller Scheduler GenericDDR Mapping Plugins RRS AQUA.
From S2P Require Import ControllerFacts ControllerInv ControllerProps PluginInst Examples CtrlExamples.

Local Open Scope Z_scope.

(** ** The plugin keeps the controller's laws *)
Lemma migration_sends (a : AQUA) (av : AddrVec_t) (src dst : Z) (c c' : Ctrl) :
  issue_migration a av src dst c = Ok c' -> sends any_request c c'.
Proof. intros (c1 & H1 & H)%bind_Ok. apply row_copy_sends in H1, H. eauto using sends_trans. Qed.

#[export] Instance AQUA_laws order : @PluginLaws any_request AQUA (AQUA_plugin order).
Proof.
  split; intros g g' c c'; [|intros r|]; intros H; simpl in H; [inv_res; constructor| |inv_res; constructor].
  unfold AQUA_on_issue in H. inv_res. repeat (case_match; inv_res; simplify_eq/=); try constructor.
  unfold vacate in *. inv_res. repeat (case_match; inv_res; simplify_eq/=);
    repeat match goal with H : issue_migration _ _ _ _ _ = Ok _ |- _ => apply migration_sends in H end; eauto using sends_trans.
Qed.

(** ** The tables of one bank

    [m] is the indirection without its locks, [rpt] the reverse pointers: the pairs
    of [m] are exactly those of [rpt] in both directions. *)
Record slots_ok (Q : Z) (rpt m : gmap Z Z) : Prop := {
  so_range : forall q w, rpt !! q = Some w -> 0 <= q < Q /\ Q <= w;
  so_pairs : forall x y, m !! x = Some y <-> rpt !! x = Some y \/ rpt !! y = Some x
}.

Section slots.
Context {Q : Z} {rpt m : gmap Z Z} (HS : slots_ok Q rpt m).

Lemma slots_inj (q1 q2 w : Z) : rpt !! q1 = Some w -> rpt !! q2 = Some w -> q1 = q2.
Proof.
  intros H1 H2. assert (m !! w = Some q1) as E1 by (apply HS; auto).
  assert (m !! w = Some q2) as E2 by (apply HS; auto). congruence.
Qed.

Lemma slots_involutive (x y : Z) : m !! x = Some y -> m !! y = Some x /\ x <> y /\ 0 <= x.
Proof.
  intros H. apply HS in H as H'. split; [apply HS; tauto|].
  destruct H' as [H'|H']; apply (so_range _ _ _ HS) in H'; lia.
Qed.

Lemma slots_vacate (q w : Z) : rpt !! q = Some w -> slots_ok Q (delete q rpt) (delete q (delete w m)).
Proof.
  intros Hq. pose proof (so_range _ _ _ HS q w Hq) as Hr. split.
  - intros x y [_ Hx]%lookup_delete_Some. by apply HS.
  - intros x y. rewrite !lookup_delete_Some, (so_pairs _ _ _ HS). split.
    + intros (H1 & H2 & [H|H]); [left; split; [congruence|done]|right; split; [|done]].
      intros ->. rewrite Hq in H. congruence.
    + intros [[H1 H]|[H1 H]]; (split; [|split]); try tauto.
      * intros ->. apply (so_range _ _ _ HS) in H. lia.
      * intros ->. apply (so_range _ _ _ HS) in H. lia.
      * intros ->. apply H1. exact (slots_inj _ _ _ Hq H).
Qed.

Lemma slots_occupy (q w : Z) :
  rpt !! q = None -> (forall q', rpt !! q' <> Some w) -> 0 <= q < Q -> Q <= w ->
  slots_ok Q (<[q := w]> rpt) (<[q := w]> (<[w := q]> m)).
Proof.
  intros Hq Hw Hr1 Hr2. split.
  - intros x y. rewrite lookup_insert_Some. intros [[<- <-]|[_ H]]; [lia|by apply HS].
  - assert (forall y, rpt !! w <> Some y) as Hwr by (intros y H; apply (so_range _ _ _ HS) in H; lia).
    intros x y. rewrite !lookup_insert_Some, (so_pairs _ _ _ HS). split.
    + intros [[<- <-]|[H1 [[<- <-]|[H2 [H|H]]]]]; [tauto|tauto|tauto|]. right. right. split; [|done].
      intros ->. congruence.
    + intros [[[<- <-]|[H1 H]]|[[<- <-]|[H1 H]]]; [tauto| | |].
      * right. split; [done|]. right. split; [|tauto]. intros ->. by apply Hwr in H.
      * right. split; [lia|]. tauto.
      * pose proof (so_range _ _ _ HS _ _ H). right. split; [lia|]. right. split; [|tauto]. intros ->. by apply (Hw y).
Qed.
End slots.

(** ** All banks *)
Definition unlocked (t : gmap Z RITEntry) : gmap Z Z := swapped_row <$> t.

Definition tables_ok (a : AQUA) : Prop :=
  0 <= aq_rqa_head a < aq_num_qrows a /\
  forall b rpt t, vget (aq_rpt a) b = Ok rpt -> vget (m_rit (aq_rit a)) b = Ok t -> slots_ok (aq_num_qrows a) rpt (unlocked t).

Lemma unlocked_remove (t : gmap Z RITEntry) (w q : Z) : unlocked (delete q (delete w t)) = delete q (delete w (unlocked t)).
Proof. unfold unlocked. by rewrite !fmap_delete. Qed.

Lemma unlocked_insert (t : gmap Z RITEntry) (w q : Z) :
  unlocked (<[q := mkRIT w true]> (<[w := mkRIT q true]> t)) = <[q := w]> (<[w := q]> (unlocked t)).
Proof. unfold unlocked. by rewrite !fmap_insert. Qed.

Lemma remove_entry_vget (m m' : RITAddrMapper) (b src dst : Z) :
  remove_entry m b src dst = Ok m' -> exists t, vget (m_rit m) b = Ok t /\
    forall j, vget (m_rit m') j = if j =? b then Ok (delete dst (delete src t)) else vget (m_rit m) j.
Proof.
  unfold remove_entry. intros (t & Ht & H)%bind_Ok. apply bind_Ok in H as (l & Hl & [= <-]). exists t. split; [done|].
  intros j. exact (vget_vset _ _ _ j _ Hl).
Qed.

Lemma insert_entry_vget (m m' : RITAddrMapper) (b src dst : Z) :
  insert_entry m b src dst = Ok m' -> exists t, vget (m_rit m) b = Ok t /\
    forall j, vget (m_rit m') j = if j =? b then Ok (<[dst := mkRIT src true]> (<[src := mkRIT dst true]> t)) else vget (m_rit m) j.
Proof.
  unfold insert_entry. intros (t & Ht & H)%bind_Ok. apply bind_Ok in H as (l & Hl & [= <-]). exists t. split; [done|].
  intros j. exact (vget_vset _ _ _ j _ Hl).
Qed.

(** Changing the tables of one bank. *)
Lemma tables_ok_set (a : AQUA) (b : Z) (rpt : gmap Z Z) (rit : RITAddrMapper) (t : gmap Z RITEntry) (rpts : list (gmap Z Z)) (k : Z) :
  tables_ok a -> vset (aq_rpt a) b rpt = Ok rpts ->
  (forall j, vget (m_rit rit) j = if j =? b then Ok t else vget (m_rit (aq_rit a)) j) ->
  slots_ok (aq_num_qrows a) rpt (unlocked t) -> tables_ok (set_tables a rit rpts k).
Proof.
  intros [Hh HT] Hs Hr HS. split; [done|]. intros j rpt' t'. simpl. rewrite (vget_vset _ _ _ j _ Hs), Hr.
  destruct (j =? b); [by intros [= <-] [= <-]|apply HT].
Qed.

(** The request activates the row and brings its count to the threshold. *)
Definition aq_crosses (order : gmap Z Z -> list (Z * Z)) (a : AQUA) (d : DRAMDevice) (req : Request) (b row : Z) : Prop :=
  is_single_act d req = Ok true /\ get_flat_bank_id d (addr_vec req) = Ok b /\ vget (addr_vec req) (aq_row_level a) = Ok row /\
  exists a1 count, art_update order a b row = Ok (a1, Some count) /\ Z.rem count (aq_art_threshold a1) = 0.

Section steps.
Context (order : gmap Z Z -> list (Z * Z)).

Lemma art_update_same (a a' : AQUA) (b row : Z) (o : option Z) :
  art_update order a b row = Ok (a', o) ->
  aq_rit a' = aq_rit a /\ aq_rpt a' = aq_rpt a /\ aq_rqa_head a' = aq_rqa_head a /\ aq_num_qrows a' = aq_num_qrows a.
Proof. unfold art_update. intros (t & _ & H)%bind_Ok. repeat (case_match; inv_res; simplify_eq/=; try done). Qed.

Lemma art_update_migrations (a a' : AQUA) (b row : Z) (o : option Z) :
  art_update order a b row = Ok (a', o) -> aq_num_migrations a' = aq_num_migrations a.
Proof. unfold art_update. intros (t & _ & H)%bind_Ok. repeat (case_match; inv_res; simplify_eq/=; try lia). Qed.

Lemma tables_ok_same (a a' : AQUA) :
  aq_rit a' = aq_rit a /\ aq_rpt a' = aq_rpt a /\ aq_rqa_head a' = aq_rqa_head a /\ aq_num_qrows a' = aq_num_qrows a ->
  tables_ok a -> tables_ok a'.
Proof. intros (E1 & E2 & E3 & E4). unfold tables_ok. by rewrite E1, E2, E3, E4. Qed.

(** The head's slot is free afterwards, and nothing new is quarantined. *)
Lemma vacate_ok (a a' : AQUA) (av : AddrVec_t) (b : Z) (c c' : Ctrl) :
  tables_ok a -> vacate a av b (aq_rqa_head a) c = Ok (a', c') ->
  tables_ok a' /\ aq_rqa_head a' = aq_rqa_head a /\ aq_num_qrows a' = aq_num_qrows a /\
  exists rpt rpt', vget (aq_rpt a) b = Ok rpt /\ vget (aq_rpt a') b = Ok rpt' /\ rpt' = delete (aq_rqa_head a) rpt.
Proof.
  intros HT. unfold vacate. intros (rpt & Hrpt & H)%bind_Ok. destruct (rpt !! _) as [w|] eqn:Hq.
  - apply bind_Ok in H as (rpts & Hs & H). apply bind_Ok in H as (rit & Hr & H). apply bind_Ok in H as (c1 & _ & [= <- <-]).
    destruct (remove_entry_vget _ _ _ _ _ Hr) as (t & Ht & Hnew). split; [|split_and!; try done].
    + eapply tables_ok_set; [done|exact Hs|exact Hnew|]. rewrite unlocked_remove. apply slots_vacate; [|done]. by apply (proj2 HT b).
    + exists rpt, (delete (aq_rqa_head a) rpt). split_and!; try done. simpl. by rewrite (vget_vset _ _ _ _ _ Hs), Z.eqb_refl.
  - injection H as <- <-. split_and!; try done. exists rpt, rpt. split_and!; try done. by rewrite delete_id.
Qed.

Lemma quarantine_ok (a a' : AQUA) (b row : Z) (rpt : gmap Z Z) :
  tables_ok a -> vget (aq_rpt a) b = Ok rpt -> rpt !! aq_rqa_head a = None -> (forall q, rpt !! q <> Some row) ->
  quarantine a b row (aq_rqa_head a) = Ok a' ->
  tables_ok a' /\ aq_rqa_head a' = aq_rqa_head a /\ aq_num_qrows a' = aq_num_qrows a.
Proof.
  intros HT Hrpt Hh Hrow. unfold quarantine. rewrite Hrpt. cbn [mbind result_bind].
  destruct (Z.ltb_spec row (aq_num_qrows a)) as [Hlt|Hge].
  - destruct (rpt !! row) as [w|] eqn:Hw; [|by intros [= <-]]. intros (rit & Hr & H)%bind_Ok.
    apply bind_Ok in H as (rpts & Hs & H). apply bind_Ok in H as (rit2 & Hi & [= <-]). split; [|done].
    destruct (remove_entry_vget _ _ _ _ _ Hr) as (t & Ht & Hn1). destruct (insert_entry_vget _ _ _ _ _ Hi) as (t2 & Ht2 & Hn2).
    rewrite Hn1, Z.eqb_refl in Ht2. injection Ht2 as <-. pose proof (proj2 HT b rpt t Hrpt Ht) as HS.
    eapply tables_ok_set; [done|exact Hs| |].
    + intros j. rewrite Hn2. destruct (j =? b) eqn:Hj; [reflexivity|]. by rewrite Hn1, Hj.
    + rewrite unlocked_insert, unlocked_remove. apply slots_occupy; [by apply slots_vacate| | |apply HT|apply (so_range _ _ _ HS _ _ Hw)].
      * apply lookup_delete_None. by right.
      * intros q [Hne Hq]%lookup_delete_Some. apply Hne. exact (slots_inj HS _ _ _ Hw Hq).
  - intros (rpts & Hs & H)%bind_Ok. apply bind_Ok in H as (rit & Hi & [= <-]). split; [|done].
    destruct (insert_entry_vget _ _ _ _ _ Hi) as (t & Ht & Hn). eapply tables_ok_set; [done|exact Hs|exact Hn|].
    rewrite unlocked_insert. apply slots_occupy; [by apply (proj2 HT b)|done|done|apply HT|done].
Qed.

(** A request either leaves the two tables, the head and the migrations alone, or it
    crosses the threshold and its row is quarantined at the head. *)
Lemma AQUA_on_issue_cases (a a' : AQUA) (c c' : Ctrl) (req : Request) :
  AQUA_on_issue order a c req = Ok (a', c') ->
  (aq_rit a' = aq_rit a /\ aq_rpt a' = aq_rpt a /\ aq_rqa_head a' = aq_rqa_head a /\ aq_num_qrows a' = aq_num_qrows a) /\
    aq_num_migrations a' = aq_num_migrations a \/
  exists b row a1 a2 a3 c2, aq_crosses order a (m_device c) req b row /\
    (aq_rit a1 = aq_rit a /\ aq_rpt a1 = aq_rpt a /\ aq_rqa_head a1 = aq_rqa_head a /\ aq_num_qrows a1 = aq_num_qrows a) /\
    vacate a1 (addr_vec req) b (aq_rqa_head a1) c = Ok (a2, c2) /\ quarantine a2 b row (aq_rqa_head a1) = Ok a3 /\
    a' = set_head a3 (Z.rem (aq_rqa_head a3 + 1) (aq_num_qrows a3)).
Proof.
  unfold AQUA_on_issue. intros (act & Hact & H)%bind_Ok. destruct act; cbn [negb] in H; [|by injection H as <- <-; left].
  apply bind_Ok in H as (b & Hb & H). apply bind_Ok in H as (row & Hr & H). apply bind_Ok in H as ([a1 o] & Hu & H).
  pose proof (art_update_same _ _ _ _ _ Hu) as Hs. pose proof (art_update_migrations _ _ _ _ _ Hu) as Hm.
  destruct o as [count|]; [|injection H as <- <-; by left]. destruct (_ =? 0); [done|].
  destruct (Z.eqb_spec (Z.rem count (aq_art_threshold a1)) 0) as [Hc|Hc]; cbn [negb] in H; [|injection H as <- <-; by left].
  apply bind_Ok in H as ([a2 c2] & Hv & H). cbn [fst snd] in H. apply bind_Ok in H as (a3 & Hq & H).
  apply bind_Ok in H as (c3 & _ & [= <- <-]). right. exists b, row, a1, a2, a3, c2. split_and!; try done; try apply Hs.
  split_and!; try done. eauto.
Qed.

(** An activation of a row that is in no slot but the head's keeps the tables
    consistent. *)
Lemma AQUA_on_issue_ok (a a' : AQUA) (c c' : Ctrl) (req : Request) :
  tables_ok a ->
  (forall b row rpt q, aq_crosses order a (m_device c) req b row ->
     vget (aq_rpt a) b = Ok rpt -> rpt !! q = Some row -> q = aq_rqa_head a) ->
  AQUA_on_issue order a c req = Ok (a', c') -> tables_ok a' /\ aq_num_qrows a' = aq_num_qrows a.
Proof.
  intros HT Hno [[Hs _]|(b & row & a1 & a2 & a3 & c2 & Hc & Hs & Hv & Hq & ->)]%AQUA_on_issue_cases.
  { split; [by eapply tables_ok_same|apply Hs]. }
  pose proof (tables_ok_same a a1 Hs HT) as HT1. specialize (fun rpt q => Hno b row rpt q Hc). destruct Hs as (_ & Er & Eh & Eq).
  rewrite <- Er, <- Eh in Hno.
  destruct (vacate_ok _ _ _ _ _ _ HT1 Hv) as (HT2 & Eh2 & Eq2 & rpt & rpt' & Hrpt & Hrpt' & ->). rewrite <- Eh2 in Hq.
  destruct (quarantine_ok a2 a3 b row _ HT2 Hrpt') as (HT3 & Eh3 & Eq3).
  - rewrite Eh2. apply lookup_delete_eq.
  - intros q [Hne Hq']%lookup_delete_Some. apply Hne. symmetry. eauto.
  - done.
  - split; [|simpl; congruence]. destruct HT3 as [Hh3 HT3]. split; [|exact HT3]. cbn. rewrite Z.rem_mod_nonneg by lia.
    apply Z.mod_pos_bound. lia.
Qed.
End steps.

(** ** Runs

    A request that crosses the threshold names an existing row, which [P] allows;
    nothing is asked of the others. *)
Inductive aq_run (P : AQUA -> Z -> Z -> Prop) : AQUA -> Prop :=
| aq_start c mapper art fpt qrows threshold ns a :
    AQUA_setup c mapper art fpt qrows threshold ns = Ok a -> aq_run P a
| aq_cycle a a' : aq_run P a -> AQUA_pre_schedule a = Ok a' -> aq_run P a'
| aq_issue a a' c c' req order :
    aq_run P a ->
    (forall b row, aq_crosses order a (m_device c) req b row -> 0 <= row /\ P a b row) ->
    AQUA_on_issue order a c req = Ok (a', c') -> aq_run P a'.

(** The row is in no slot but the one about to be vacated. *)
Definition not_quarantined (a : AQUA) (b row : Z) : Prop :=
  forall rpt q, vget (aq_rpt a) b = Ok rpt -> rpt !! q = Some row -> q = aq_rqa_head a.

Lemma AQUA_setup_ok (c : Ctrl) (mapper : option RITAddrMapper) (art fpt qrows threshold ns : Z) (a : AQUA) :
  AQUA_setup c mapper art fpt qrows threshold ns = Ok a -> tables_ok a.
Proof.
  unfold AQUA_setup. destruct mapper as [m|]; [|done]. intros H. inv_res. case_match; [done|]. inv_res.
  destruct (_ || _) eqn:Hg in H; [done|]. injection H as <-. apply orb_false_iff in Hg as [Hg _].
  split; [cbn; lia|]. intros b rpt t [_ Hr]%vget_Ok [_ Ht]%vget_Ok. cbn in Hr, Ht.
  apply lookup_replicate in Hr as [-> _]. apply lookup_replicate in Ht as [-> _].
  unfold unlocked. split; [by intros q w; rewrite lookup_empty|]. intros u v. rewrite fmap_empty, !lookup_empty. naive_solver.
Qed.

Lemma aq_run_ok (a : AQUA) : aq_run not_quarantined a -> tables_ok a.
Proof.
  induction 1 as [c mapper art fpt qrows threshold ns a H|a a' Hrun IH H|a a' c c' req order Hrun IH Hno H].
  - by eapply AQUA_setup_ok.
  - apply bind_Ok in H as (clk & _ & H). apply bind_Ok in H as ([|] & _ & [= <-]); exact IH.
  - eapply AQUA_on_issue_ok; [exact IH| |exact H]. intros b row rpt q Hc. by apply (Hno b row Hc).
Qed.

(** While no quarantined row is quarantined again, AQUA's two tables agree:
    every occupied slot is below [num_qrows_per_bank] and holds one workload row
    above it, the indirection exchanges the two, redirects no other row, and sends
    different rows to different rows. *)
Theorem aqua_keeps_bijection (a : AQUA) (b : Z) (rpt : gmap Z Z) (t : gmap Z RITEntry) :
  aq_run not_quarantined a -> vget (aq_rpt a) b = Ok rpt -> vget (m_rit (aq_rit a)) b = Ok t ->
  (forall q w, rpt !! q = Some w -> 0 <= q < aq_num_qrows a /\ aq_num_qrows a <= w /\ rit_row t w = q /\ rit_row t q = w) /\
  (forall x, rit_row t x <> x -> rpt !! x = Some (rit_row t x) \/ rpt !! rit_row t x = Some x) /\
  (forall x y, rit_row t x = rit_row t y -> x = y).
Proof.
  intros Hrun Hrpt Ht. pose proof (proj2 (aq_run_ok a Hrun) b rpt t Hrpt Ht) as HS.
  assert (Hrow : forall x, rit_row t x = default x (unlocked t !! x)).
  { intros x. unfold rit_row, unlocked. rewrite lookup_fmap. by destruct (t !! x). }
  assert (Hinv : forall x, rit_row t (rit_row t x) = x).
  { intros x. rewrite (Hrow x). destruct (unlocked t !! x) as [y|] eqn:Hx; simpl; rewrite Hrow; [|by rewrite Hx].
    destruct (slots_involutive HS x y Hx) as [-> _]. done. }
  split_and!.
  - intros q w Hq. split_and!; try apply (so_range _ _ _ HS _ _ Hq); rewrite Hrow.
    + by rewrite (proj2 (so_pairs _ _ _ HS w q) (or_intror Hq)).
    + by rewrite (proj2 (so_pairs _ _ _ HS q w) (or_introl Hq)).
  - intros x. rewrite Hrow. destruct (unlocked t !! x) as [y|] eqn:Hx; simpl; [|done]. intros _. by apply HS.
  - intros x y E. by rewrite <- (Hinv x), <- (Hinv y), E.
Qed.

















(** ** On the small DDR4 controller: four slots, four reserved rows, threshold 2 *)
Definition aqua_or (q : result (AQUA * Ctrl)) : AQUA * Ctrl :=
  match q with Ok p => p | Err _ => (mkAQUA (mkRITMapper 0 0 0 [] 0 false) 0 0 0 0 0 0 0 0 0 0 0 [] [] [] 0 0 0, empty_ctrl) end.
Definition aqua_mapper : option RITAddrMapper :=
  match RIT_init (m_spec (m_device small_ctrl)) 4 with Ok m => Some m | Err _ => None end.
Definition aqua0 : AQUA * Ctrl := aqua_or (a ← AQUA_setup small_ctrl aqua_mapper 4 4 4 2 64000; Ok (a, small_ctrl)).
Definition aqua_act (row : Z) : Request := set_command (Request_vec [0; 0; 0; 0; row; 0] Read) 0.
Definition aqua_next (p : AQUA * Ctrl) (row : Z) : AQUA * Ctrl := aqua_or (AQUA_on_issue map_to_list p.1 p.2 (aqua_act row)).
Definition aqua1 : AQUA * Ctrl := aqua_next aqua0 14.
Definition aqua2 : AQUA * Ctrl := aqua_next aqua1 14.
Definition aqua_rit_of (a : AQUA) : gmap Z RITEntry := match m_rit (aq_rit a) with t :: _ => t | [] => ∅ end.
Definition aqua_rpt_of (a : AQUA) : gmap Z Z := match aq_rpt a with t :: _ => t | [] => ∅ end.

Lemma aqua_step_ok (p : AQUA * Ctrl) : p = aqua0 \/ p = aqua1 -> forall b row,
  aq_crosses map_to_list p.1 (m_device p.2) (aqua_act 14) b row -> 0 <= row /\ not_quarantined p.1 b row.
Proof.
  intros Hp b row (_ & Hb & Hr & _). assert (b = 0) as -> by (destruct Hp as [-> | ->]; vm_compute in Hb; congruence).
  assert (row = 14) as -> by (destruct Hp as [-> | ->]; vm_compute in Hr; congruence).
  split; [lia|]. intros rpt q Hq. assert (rpt = ∅) as -> by (destruct Hp as [-> | ->]; vm_compute in Hq; injection Hq as <-; reflexivity).
  by rewrite lookup_empty.
Qed.

Lemma aqua1_run : aq_run not_quarantined aqua1.1.
Proof.
  assert (H0 : aq_run not_quarantined aqua0.1).
  { apply (aq_start _ small_ctrl aqua_mapper 4 4 4 2 64000). vm_compute. reflexivity. }
  apply (aq_issue _ aqua0.1 aqua1.1 aqua0.2 aqua1.2 (aqua_act 14) map_to_list H0); [by apply aqua_step_ok; left|vm_compute; reflexivity].
Qed.

(** Row 14 is quarantined in slot 0 at its second activation. *)
Lemma aqua2_run : aq_run not_quarantined aqua2.1 /\ aq_num_migrations aqua2.1 = 1 /\ aqua_rpt_of aqua2.1 = {[0 := 14]}.
Proof.
  split; [|split; vm_compute; reflexivity].
  apply (aq_issue _ aqua1.1 aqua2.1 aqua1.2 aqua2.2 (aqua_act 14) map_to_list aqua1_run); [by apply aqua_step_ok; right|vm_compute; reflexivity].
Qed.

Lemma aqua_keeps_bijection_witness :
  rit_row (aqua_rit_of aqua2.1) 14 = 0 /\
  forall x y, rit_row (aqua_rit_of aqua2.1) x = rit_row (aqua_rit_of aqua2.1) y -> x = y.
Proof.
  split; [vm_compute; reflexivity|].
  refine (proj2 (proj2 (aqua_keeps_bijection aqua2.1 0 (aqua_rpt_of aqua2.1) (aqua_rit_of aqua2.1) (proj1 aqua2_run) _ _)));
    vm_compute; reflexivity.
Defined.



(** Row 14, still activated, is quarantined again in slot 1.  The pointer of slot 0
    stays, and the mapper now sends two logical rows to the same place. *)
Definition aqua_row_of (a : AQUA) (row : Z) : result Z :=
  r ← RIT_apply PassThrough_apply (aq_rit a) (m_device small_ctrl) (Request_vec [0; 0; 0; 0; row; 0] Read); vget (addr_vec r) 4.

Lemma aqua_requarantine_aliases :
  let a := (aqua_next (aqua_next aqua2 14) 14).1 in
  aq_num_migrations a = 2 /\ aqua_row_of a 0 = Ok 18 /\ aqua_row_of a 1 = Ok 18.
Proof. split_and!; vm_compute; reflexivity. Qed.
