(* ===== verification/TRR.v ===== *)
(** * In-DRAM target row refresh

    [controller/plugin/impl/hynix_trr.cpp], [samsung_trr.cpp] and [ideal_trr.cpp]:
    what a chip does while a refresh-management command runs.  The three plugins
    look up the same commands and levels and build the address of a victim-row
    refresh from a flat bank id in the same way; they differ in how they pick rows.

    [draw n] is the n-th number of the seeded generator, [order] the iteration
    order of the hash tables, and [psort k l] the vector [l] after
    [std::partial_sort] of its first [k] elements by descending count, which leaves
    the order of equal counts and of the rest open. *)

From Stdlib Require Import ZArith Lia SpecFloat.
From S2P Require Import Prelude Base Spec Node Standards Device Controller Scheduler GenericDDR Plugins.

Local Open Scope Z_scope.

(** ** Shared by the three plugins *)

(** Ids and levels are -1 when the standard has none. *)
Record TRRLevels := mkTRRLevels {
  trr_act_cmd_id : Z;
  trr_vrr_cmd_id : Z;
  trr_rfm_ab_cmd_id : Z;
  trr_rfm_sb_cmd_id : Z;
  trr_rfm_pb_cmd_id : Z;
  trr_rank_level : Z;
  trr_bankgroup_level : Z;
  trr_bank_level : Z;
  trr_row_level : Z;
  trr_num_banks_per_rank : Z;
  trr_num_banks_per_bankgroup : Z
}.

Definition optional_command (s : DRAMSpec) (name : string) : result Z :=
  if has_command s name then get_command_id s name else Ok (-1).

Definition TRR_setup (who : string) (c : Ctrl) : result TRRLevels :=
  let spec := m_spec (m_device c) in
  if negb (has_command spec "VRR") then
    Err (Throw (who +:+ " requires a DRAM standard with VRR command (e.g. DDR5_VRR)"))
  else if negb (has_command spec "RFMab") && negb (has_command spec "RFMsb") && negb (has_command spec "RFMpb") then
    Err (Throw (who +:+ " requires a DRAM standard with at least one of RFMab/RFMsb/RFMpb"))
  else
    act ← get_command_id spec "ACT";
    vrr ← get_command_id spec "VRR";
    ab ← optional_command spec "RFMab";
    sb ← optional_command spec "RFMsb";
    pb ← optional_command spec "RFMpb";
    rank ← get_level_id spec "Rank";
    bank ← get_level_id spec "Bank";
    row ← get_level_id spec "Row";
    bg ← (if has_level spec "BankGroup" then
            l ← get_level_id spec "BankGroup"; n ← get_level_size spec "Bank"; Ok (l, n)
          else Ok (-1, -1));
    ranks ← get_level_size spec "Rank";
    if ranks =? 0 then Err Undef
    else Ok (mkTRRLevels act vrr ab sb pb rank bg.1 bank row
               (Z.quot (Z.of_nat (length (m_bank_nodes (m_device c)))) ranks) bg.2).

Definition is_rfm_cmd (t : TRRLevels) (cmd : Z) : bool :=
  (cmd =? trr_rfm_ab_cmd_id t) || (cmd =? trr_rfm_sb_cmd_id t) || (cmd =? trr_rfm_pb_cmd_id t).

(** Division of [int]s. *)
Definition div_s (a b : Z) : result Z := if b =? 0 then Err Undef else Ok (Z.quot a b).
Definition rem_s (a b : Z) : result Z := if b =? 0 then Err Undef else Ok (Z.rem a b).

(** The address of the victim-row refresh of a row of a bank, from the flat id. *)
Definition vrr_addr (t : TRRLevels) (av : AddrVec_t) (bank_id row : Z) : result AddrVec_t :=
  rank_id ← div_s bank_id (trr_num_banks_per_rank t);
  let local_bank := bank_id - rank_id * trr_num_banks_per_rank t in
  av ← vset av (trr_rank_level t) rank_id;
  av ← (if 0 <=? trr_bankgroup_level t then
          bg ← div_s local_bank (trr_num_banks_per_bankgroup t);
          av ← vset av (trr_bankgroup_level t) bg;
          b ← rem_s local_bank (trr_num_banks_per_bankgroup t);
          vset av (trr_bank_level t) b
        else vset av (trr_bank_level t) local_bank);
  vset av (trr_row_level t) row.

(** Queue the refresh; a full queue drops it and does not count it. *)
Definition fire_vrr (t : TRRLevels) (av : AddrVec_t) (bank_id row fired : Z) (c : Ctrl) : result (Z * Ctrl) :=
  av ← vrr_addr t av bank_id row;
  q ← priority_send c (Request_cmd av (trr_vrr_cmd_id t));
  Ok (if (q.1 : bool) then fired + 1 else fired, q.2).

(** ** HynixTRR: one randomly sampled row per bank *)
Record HynixTRR := mkHynix {
  hy_levels : TRRLevels;
  hy_sample_probability : spec_float;
  hy_drawn : nat;
  hy_sampled_row : list Z;
  hy_rfm_observed : Z;
  hy_vrrs_fired : Z
}.

Definition HynixTRR_setup (c : Ctrl) (sample_probability : spec_float) : result HynixTRR :=
  if SFleb sample_probability (f32_of_Z 0) || SFltb (f32_of_Z 1) sample_probability then
    Err (Throw "HynixTRR: sample_probability must be in (0, 1]")
  else
    t ← TRR_setup "HynixTRR" c;
    Ok (mkHynix t sample_probability 0 (replicate (length (m_bank_nodes (m_device c))) (-1)) 0 0).

Definition hynix_act (draw : nat -> spec_float) (h : HynixTRR) (d : DRAMDevice) (req : Request) : result HynixTRR :=
  let set (l : list Z) := mkHynix (hy_levels h) (hy_sample_probability h) (S (hy_drawn h)) l (hy_rfm_observed h) (hy_vrrs_fired h) in
  if SFleb (hy_sample_probability h) (draw (hy_drawn h)) then Ok (set (hy_sampled_row h))
  else
    bank ← get_flat_bank_id d (addr_vec req);
    row ← vget (addr_vec req) (trr_row_level (hy_levels h));
    l ← vset (hy_sampled_row h) bank row;
    Ok (set l).

Definition hynix_rfm_bank (req : Request) (st : HynixTRR * Ctrl) (bank_id : Z) : result (HynixTRR * Ctrl) :=
  let '(h, c) := st in
  row ← vget (hy_sampled_row h) bank_id;
  if row <? 0 then Ok (h, c)
  else
    q ← fire_vrr (hy_levels h) (addr_vec req) bank_id row (hy_vrrs_fired h) c;
    l ← vset (hy_sampled_row h) bank_id (-1);
    Ok (mkHynix (hy_levels h) (hy_sample_probability h) (hy_drawn h) l (hy_rfm_observed h) q.1, q.2).

Definition HynixTRR_on_issue (draw : nat -> spec_float) (h : HynixTRR) (c : Ctrl) (req : Request) : result (HynixTRR * Ctrl) :=
  if is_rfm_cmd (hy_levels h) (command req) then
    banks ← get_target_banks (m_device c) (command req) (addr_vec req);
    foldM (hynix_rfm_bank req)
      (mkHynix (hy_levels h) (hy_sample_probability h) (hy_drawn h) (hy_sampled_row h) (hy_rfm_observed h + 1) (hy_vrrs_fired h), c)
      banks
  else if negb (command req =? trr_act_cmd_id (hy_levels h)) then Ok (h, c)
  else h ← hynix_act draw h (m_device c) req; Ok (h, c).

#[export] Instance HynixTRR_plugin (draw : nat -> spec_float) : ControllerPlugin HynixTRR := {|
  pl_pre_schedule := fun h c => Ok (h, c);
  pl_on_issue := HynixTRR_on_issue draw;
  pl_post_schedule := fun h c => Ok (h, c)
|}.

(** ** Counting trackers: SamsungTRR and IdealTRR

    Both keep a counter table per bank and refresh the rows with the highest
    counts.  Samsung's tables hold [num_table_entries] rows and have a spillover
    counter, to which the count of a refreshed row returns; Ideal's are unbounded
    and return it to 0. *)
Record CountingTRR := mkCounting {
  ct_levels : TRRLevels;
  ct_num_rows_per_rfm : Z;
  ct_counter_table : list (gmap Z Z);
  ct_rfm_observed : Z;
  ct_vrrs_fired : Z
}.

Definition ct_set (t : CountingTRR) (l : list (gmap Z Z)) (observed fired : Z) : CountingTRR :=
  mkCounting (ct_levels t) (ct_num_rows_per_rfm t) l observed fired.

Definition CountingTRR_setup (who : string) (c : Ctrl) (num_rows_per_rfm : Z) : result CountingTRR :=
  if num_rows_per_rfm <? 1 then Err (Throw (who +:+ ": num_rows_per_rfm must be >= 1"))
  else
    t ← TRR_setup who c;
    Ok (mkCounting t num_rows_per_rfm (replicate (length (m_bank_nodes (m_device c))) ∅) 0 0).

Section counting.
Context (order : gmap Z Z -> list (Z * Z)) (psort : nat -> list (Z * Z) -> list (Z * Z)).

(** The rows an RFM refreshes, in the order in which it does. *)
Definition top_rows (k : Z) (table : gmap Z Z) : list Z :=
  let entries := order table in
  let k := Z.to_nat (Z.min k (Z.of_nat (length entries))) in
  (take k (psort k entries)).*1.

(** [process_rfm_for_bank], with the count [base] a refreshed row returns to. *)
Definition counting_rfm_bank (base : Z -> result Z) (req : Request) (st : CountingTRR * Ctrl) (bank_id : Z)
  : result (CountingTRR * Ctrl) :=
  let '(t, c) := st in
  table ← vget (ct_counter_table t) bank_id;
  if bool_decide (table = ∅) then Ok (t, c)
  else
    q ← foldM (fun (s : gmap Z Z * Z * Ctrl) row =>
          let '(table, fired, c) := s in
          q ← fire_vrr (ct_levels t) (addr_vec req) bank_id row fired c;
          n ← base bank_id;
          Ok (<[row := n]> table, q.1, q.2)) (table, ct_vrrs_fired t, c) (top_rows (ct_num_rows_per_rfm t) table);
    let '(table, fired, c) := q in
    l ← vset (ct_counter_table t) bank_id table;
    Ok (ct_set t l (ct_rfm_observed t) fired, c).

Definition counting_rfm (base : Z -> result Z) (t : CountingTRR) (c : Ctrl) (req : Request) : result (CountingTRR * Ctrl) :=
  banks ← get_target_banks (m_device c) (command req) (addr_vec req);
  foldM (counting_rfm_bank base req) (ct_set t (ct_counter_table t) (ct_rfm_observed t + 1) (ct_vrrs_fired t), c) banks.

(** *** IdealTRR *)
Definition ideal_act (t : CountingTRR) (d : DRAMDevice) (req : Request) : result CountingTRR :=
  bank ← get_flat_bank_id d (addr_vec req);
  row ← vget (addr_vec req) (trr_row_level (ct_levels t));
  table ← vget (ct_counter_table t) bank;
  l ← vset (ct_counter_table t) bank (<[row := default 0 (table !! row) + 1]> table);
  Ok (ct_set t l (ct_rfm_observed t) (ct_vrrs_fired t)).

Definition IdealTRR_on_issue (t : CountingTRR) (c : Ctrl) (req : Request) : result (CountingTRR * Ctrl) :=
  if is_rfm_cmd (ct_levels t) (command req) then counting_rfm (fun _ => Ok 0) t c req
  else if negb (command req =? trr_act_cmd_id (ct_levels t)) then Ok (t, c)
  else t ← ideal_act t (m_device c) req; Ok (t, c).

(** *** SamsungTRR *)
Record SamsungTRR := mkSamsung {
  sa_base : CountingTRR;
  sa_num_table_entries : Z;
  sa_spillover : list Z
}.

Definition SamsungTRR_setup (c : Ctrl) (num_table_entries num_rows_per_rfm : Z) : result SamsungTRR :=
  t ← CountingTRR_setup "SamsungTRR" c num_rows_per_rfm;
  Ok (mkSamsung t num_table_entries (replicate (length (m_bank_nodes (m_device c))) 0)).

Definition samsung_act (s : SamsungTRR) (d : DRAMDevice) (req : Request) : result SamsungTRR :=
  let t := sa_base s in
  let put (l : list (gmap Z Z)) :=
    mkSamsung (ct_set t l (ct_rfm_observed t) (ct_vrrs_fired t)) (sa_num_table_entries s) (sa_spillover s) in
  bank ← get_flat_bank_id d (addr_vec req);
  row ← vget (addr_vec req) (trr_row_level (ct_levels t));
  table ← vget (ct_counter_table t) bank;
  match table !! row with
  | Some n => l ← vset (ct_counter_table t) bank (<[row := n + 1]> table); Ok (put l)
  | None =>
      spill ← vget (sa_spillover s) bank;
      if Z.of_nat (size table) <? sa_num_table_entries s then
        l ← vset (ct_counter_table t) bank (<[row := spill + 1]> table); Ok (put l)
      else
        match evictable order table spill with
        | Some (to_remove, value) =>
            l ← vset (ct_counter_table t) bank (<[row := value + 1]> (delete to_remove table)); Ok (put l)
        | None =>
            ss ← vset (sa_spillover s) bank (spill + 1);
            Ok (mkSamsung t (sa_num_table_entries s) ss)
        end
  end.

Definition SamsungTRR_on_issue (s : SamsungTRR) (c : Ctrl) (req : Request) : result (SamsungTRR * Ctrl) :=
  let t := sa_base s in
  if is_rfm_cmd (ct_levels t) (command req) then
    q ← counting_rfm (vget (sa_spillover s)) t c req;
    Ok (mkSamsung q.1 (sa_num_table_entries s) (sa_spillover s), q.2)
  else if negb (command req =? trr_act_cmd_id (ct_levels t)) then Ok (s, c)
  else s ← samsung_act s (m_device c) req; Ok (s, c).
End counting.

Inductive IdealTRR := mkIdeal (t : CountingTRR).

Definition IdealTRR_setup (c : Ctrl) (num_rows_per_rfm : Z) : result IdealTRR :=
  t ← CountingTRR_setup "IdealTRR" c num_rows_per_rfm; Ok (mkIdeal t).

#[export] Instance IdealTRR_plugin order psort : ControllerPlugin IdealTRR := {|
  pl_pre_schedule := fun t c => Ok (t, c);
  pl_on_issue := fun '(mkIdeal t) c req => q ← IdealTRR_on_issue order psort t c req; Ok (mkIdeal q.1, q.2);
  pl_post_schedule := fun t c => Ok (t, c)
|}.

#[export] Instance SamsungTRR_plugin order psort : ControllerPlugin SamsungTRR := {|
  pl_pre_schedule := fun s c => Ok (s, c);
  pl_on_issue := SamsungTRR_on_issue order psort;
  pl_post_schedule := fun s c => Ok (s, c)
|}.
