(* ===== verification/TRRProps.v ===== *)
(** * What target row refresh refreshes

    On a refresh-management command each of the three plugins sends a victim-row
    refresh for the rows it holds to be the most activated ones of every bank the
    command covers, as many as it may refresh, addressed to that bank, and returns
    their counts to the base value, also when the priority queue is full and drops
    the refresh.  The theorem is proved against the interface [TRRModel], whose laws the
    three plugins discharge. *)

From Stdlib Require Import ZArith Lia SpecFloat.
From S2P Require Import Prelude Base Spec Node Timing TimingSpec Commands Standards.
From S2P Require Import Device DeviceFacts BankFSM DeviceProps Controller.
From S2P Require Import Scheduler GenericDDR ControllerFacts ControllerInv Refresh ControllerProps.
From S2P Require Import Examples CtrlExamples Plugins RFMProps PluginInst TRR.

Local Open Scope Z_scope.

(** ** Levels *)
Definition trr_levels_ok (s : DRAMSpec) (t : TRRLevels) : Prop :=
  trr_rank_level t = 1 /\ trr_bankgroup_level t = 2 /\ trr_bank_level t = 3 /\ trr_row_level t = 4 /\
  5 <= level_count s /\ 0 <= trr_vrr_cmd_id t < command_count s.

(** Of the registered standards, those with a VRR and an RFM command have the
    levels Channel, Rank, BankGroup, Bank, Row. *)
Definition std_trr_okb (T : Standard) : bool :=
  let cs := set_names (Command T) in
  let lv := set_names (Level T) in
  match cs !! "VRR" with
  | None => true
  | Some vrr =>
      (bool_decide (cs !! "RFMab" = None) && bool_decide (cs !! "RFMsb" = None) && bool_decide (cs !! "RFMpb" = None)) ||
      (bool_decide (lv !! "Rank" = Some 1) && bool_decide (lv !! "BankGroup" = Some 2) && bool_decide (lv !! "Bank" = Some 3) &&
       bool_decide (lv !! "Row" = Some 4) && (5 <=? Z.of_nat (length (Level T))) &&
       (0 <=? vrr) && (vrr <? Z.of_nat (length (Command T))))
  end.

Lemma registry_trr_ok (T : Standard) : T ∈ registry -> std_trr_okb T = true.
Proof.
  intros Hin. assert (forallb std_trr_okb registry = true) as H by (vm_compute; reflexivity).
  rewrite forallb_forall in H. apply H. by apply list_elem_of_In.
Qed.

Lemma TRR_setup_ok (T : Standard) (who : string) (c : Ctrl) (t : TRRLevels) :
  T ∈ registry -> built_from T (m_spec (m_device c)) -> TRR_setup who c = Ok t ->
  trr_levels_ok (m_spec (m_device c)) t /\
  exists ranks, vget (level_sizes (organization (m_spec (m_device c)))) 1 = Ok ranks /\ ranks <> 0 /\
    vget (level_sizes (organization (m_spec (m_device c)))) 3 = Ok (trr_num_banks_per_bankgroup t) /\
    trr_num_banks_per_rank t = Z.quot (Z.of_nat (length (m_bank_nodes (m_device c)))) ranks.
Proof.
  intros Hin HB H. pose proof (registry_trr_ok T Hin) as Hok. unfold std_trr_okb in Hok.
  unfold TRR_setup, optional_command, has_command, has_level, get_level_size, get_command_id, get_level_id in H.
  rewrite (bf_levels T _ HB), (bf_commands T _ HB) in H. set (lv := set_names (Level T)) in *. set (cs := set_names (Command T)) in *.
  destruct (cs !! "VRR") as [vrr|]; [|by rewrite bool_decide_false in H by (by intros [])].
  rewrite (bool_decide_true (is_Some (Some vrr))) in H by eauto. cbn [negb] in H.
  apply orb_true_iff in Hok as [Hok|Hok].
  { rewrite !andb_true_iff, !bool_decide_eq_true in Hok. destruct Hok as [[F1 F2] F3].
    rewrite F1, F2, F3 in H. by rewrite bool_decide_false in H by (by intros []). }
  rewrite !andb_true_iff, !bool_decide_eq_true, !Z.leb_le, Z.ltb_lt in Hok.
  destruct Hok as ((((((E1 & E2) & E3) & E4) & Hn) & Hv1) & Hv2). rewrite E1, E2, E3, E4 in H.
  destruct (_ && _); [done|]. rewrite (bool_decide_true (is_Some (Some 2))) in H by eauto.
  apply bind_Ok in H as (act & _ & H). cbn [mbind result_bind] in H. apply bind_Ok in H as (ab & _ & H).
  apply bind_Ok in H as (sb & _ & H). apply bind_Ok in H as (pb & _ & H). cbn [mbind result_bind] in H.
  apply bind_Ok in H as (bg & Hbg & H). apply bind_Ok in H as (ranks & Hr & H). apply bind_Ok in Hbg as (n & Hn' & [= <-]).
  destruct (Z.eqb_spec ranks 0) as [|Hne]; [done|]. injection H as <-. cbn.
  split; [|by exists ranks]. unfold trr_levels_ok. cbn. rewrite (bf_level_count T _ HB), (bf_command_count T _ HB). by split_and!.
Qed.

(** ** The address of a refresh *)
Lemma bank_total (d : DRAMDevice) :
  dev_wf d -> m_bank_level d = 3 -> length (m_bank_nodes d) = (size_at (m_spec d) 1 * (size_at (m_spec d) 2 * (size_at (m_spec d) 3 * 1)))%nat.
Proof.
  intros Hd Hb. destruct (dw_levels d Hd) as (r & _ & Hr & Hc). rewrite (dw_banks d Hd), Hb.
  rewrite (bank_count (m_spec d) r 3 3 (m_root d) 0); [done|lia|apply (dw_root d Hd)|done|apply (dw_tree d Hd)|done].
Qed.

(** Splitting a flat id into its coordinates and back. *)
Lemma split_flat_id (id r g b per : Z) :
  0 < r -> 0 < g -> 0 < b -> 0 <= id < r * (g * b) -> per = Z.quot (r * (g * b)) r ->
  let rank := Z.quot id per in let local := id - rank * per in
  0 < per /\ 0 <= rank < r /\ 0 <= Z.quot local b < g /\ 0 <= Z.rem local b < b /\
  (rank * g + Z.quot local b) * b + Z.rem local b = id.
Proof.
  intros Hr Hg Hb Hid ->. cbn zeta. rewrite (Z.mul_comm r), Z.quot_mul by lia. assert (0 < g * b) by nia.
  rewrite (Z.quot_div_nonneg id) by lia. pose proof (Z.div_mod id (g * b)) as E. pose proof (Z.mod_pos_bound id (g * b)) as Hm.
  assert (id - id / (g * b) * (g * b) = id mod (g * b)) as -> by lia.
  rewrite Z.quot_div_nonneg, Z.rem_mod_nonneg by lia. pose proof (Z.div_mod (id mod (g * b)) b). pose proof (Z.mod_pos_bound (id mod (g * b)) b).
  split_and!; first [lia | apply Z.div_pos; lia | apply Z.div_lt_upper_bound; nia | nia].
Qed.

Lemma vrr_addr_ok (d : DRAMDevice) (t : TRRLevels) (ranks : Z) (av : AddrVec_t) (id row : Z) :
  dev_wf d -> m_bank_level d = 3 -> trr_levels_ok (m_spec d) t -> level_count (m_spec d) <= Z.of_nat (length av) ->
  vget (level_sizes (organization (m_spec d))) 1 = Ok ranks ->
  vget (level_sizes (organization (m_spec d))) 3 = Ok (trr_num_banks_per_bankgroup t) ->
  trr_num_banks_per_rank t = Z.quot (Z.of_nat (length (m_bank_nodes d))) ranks ->
  0 <= id < Z.of_nat (length (m_bank_nodes d)) ->
  exists av', vrr_addr t av id row = Ok av' /\ get_flat_bank_id d av' = Ok id /\ vget av' 4 = Ok row /\
    length av' = length av /\ (forall l, l = 0 \/ 4 < l -> vget av' l = vget av l) /\ concrete (m_spec d) av' 0 (m_bank_level d).
Proof.
  intros Hd Hb (L1 & L2 & L3 & L4 & Hlc & _) Hlen S1 S3 Hper Hid. pose proof (bank_total d Hd Hb) as Htot. rewrite Htot in Hid, Hper.
  set (b := trr_num_banks_per_bankgroup t) in *. unfold size_at in Hid, Hper. rewrite S1, S3 in Hid, Hper.
  destruct (vget (level_sizes (organization (m_spec d))) 2) as [g|e] eqn:S2; [|lia].
  assert (0 < ranks /\ 0 < g /\ 0 < b) as (Hr & Hg & Hbb) by nia.
  destruct (split_flat_id id ranks g b (trr_num_banks_per_rank t)) as (P1 & P2 & P3 & P4 & P5); [lia..|rewrite Hper; f_equal; lia|].
  cbn zeta in *. unfold vrr_addr, div_s, rem_s. rewrite L1, L2, L3, L4. fold b.
  destruct (Z.eqb_spec (trr_num_banks_per_rank t) 0); [lia|]. destruct (Z.eqb_spec b 0); [lia|]. cbn [mbind result_bind Z.leb Z.compare].
  set (rank := Z.quot id (trr_num_banks_per_rank t)) in *. set (lb := id - rank * trr_num_banks_per_rank t) in *.
  destruct (vset_total av 1 rank) as [a1 V1]; [lia|]. pose proof (vset_length _ _ _ _ V1) as N1.
  destruct (vset_total a1 2 (Z.quot lb b)) as [a2 V2]; [lia|]. pose proof (vset_length _ _ _ _ V2) as N2.
  destruct (vset_total a2 3 (Z.rem lb b)) as [a3 V3]; [lia|]. pose proof (vset_length _ _ _ _ V3) as N3.
  destruct (vset_total a3 4 row) as [a4 V4]; [lia|]. pose proof (vset_length _ _ _ _ V4) as N4.
  rewrite V1. cbn [mbind result_bind]. rewrite V2. cbn [mbind result_bind]. rewrite V3. cbn [mbind result_bind]. rewrite V4.
  assert (Hv : forall l, vget a4 l = if l =? 4 then Ok row else if l =? 3 then Ok (Z.rem lb b) else if l =? 2 then Ok (Z.quot lb b)
    else if l =? 1 then Ok rank else vget av l).
  { intros l. by rewrite (vget_vset _ _ _ _ _ V4), (vget_vset _ _ _ _ _ V3), (vget_vset _ _ _ _ _ V2), (vget_vset _ _ _ _ _ V1). }
  exists a4. split_and!; [done| |by rewrite Hv|lia| |].
  - unfold get_flat_bank_id. rewrite Hb. change (seqZ 1 3) with [1; 2; 3]. cbn [foldM]. rewrite S1, S2, S3, !Hv. cbn. f_equal. lia.
  - intros l Hl. rewrite Hv. by rewrite !(proj2 (Z.eqb_neq _ _)) by lia.
  - intros j Hj. rewrite Hb in Hj. rewrite Hv. assert (j = 1 \/ j = 2 \/ j = 3) as [->|[->| ->]] by lia; cbn; eauto 10.
Qed.

(** ** The interface

    [tm_count] is the count of a tracked row of a bank, [tm_limit] the most rows a
    refresh-management command refreshes in a bank, [tm_rows] the rows the next one
    does, [tm_base] what their counts become; [tm_bank] handles one bank and [tm_observe] counts the command. *)
Class TRRModel (X : Type) := {
  tm_levels : X -> TRRLevels;
  tm_banks : X -> nat;
  tm_limit : X -> Z;
  tm_count : X -> Z -> Z -> option Z;
  tm_base : X -> Z -> option Z;
  tm_rows : X -> Z -> list Z;
  tm_observe : X -> X;
  tm_bank : Request -> X * Ctrl -> Z -> result (X * Ctrl);
  tm_issue : X -> Ctrl -> Request -> result (X * Ctrl)
}.

(** The refreshes of some rows of a bank, in order. *)
Definition send_rows (t : TRRLevels) (av : AddrVec_t) (b : Z) (c : Ctrl) (rows : list Z) : result Ctrl :=
  foldM (fun c row => av ← vrr_addr t av b row; q ← priority_send c (Request_cmd av (trr_vrr_cmd_id t)); Ok q.2) c rows.

Definition same_bank {X} `{TRRModel X} (x x' : X) (b : Z) : Prop :=
  tm_rows x' b = tm_rows x b /\ tm_base x' b = tm_base x b /\ forall row, tm_count x' b row = tm_count x b row.

Definition refreshed {X} `{TRRModel X} (x x' : X) (b : Z) : Prop :=
  forall row, tm_count x' b row = if bool_decide (row ∈ tm_rows x b) then tm_base x b else tm_count x b row.

Class TRRLaws (X : Type) `{TRRModel X} : Prop := {
  law_issue (x : X) (c : Ctrl) (req : Request) (banks : list Z) :
    is_rfm_cmd (tm_levels x) (command req) = true -> get_target_banks (m_device c) (command req) (addr_vec req) = Ok banks ->
    tm_issue x c req = foldM (tm_bank req) (tm_observe x, c) banks;
  law_observe (x : X) :
    tm_levels (tm_observe x) = tm_levels x /\ tm_banks (tm_observe x) = tm_banks x /\ forall b, same_bank x (tm_observe x) b;
  law_bank (x : X) (c c' : Ctrl) (req : Request) (b : Z) :
    0 <= b < Z.of_nat (tm_banks x) -> send_rows (tm_levels x) (addr_vec req) b c (tm_rows x b) = Ok c' ->
    exists x', tm_bank req (x, c) b = Ok (x', c') /\ tm_levels x' = tm_levels x /\ tm_banks x' = tm_banks x /\
      refreshed x x' b /\ forall b', b' <> b -> same_bank x x' b';
  law_top (x : X) (b row row' n : Z) :
    row ∈ tm_rows x b -> row' ∉ tm_rows x b -> tm_count x b row' = Some n -> exists m, tm_count x b row = Some m /\ n <= m;
  law_rows (x : X) (b : Z) : NoDup (tm_rows x b);
  law_tracked (x : X) (b row : Z) : row ∈ tm_rows x b -> is_Some (tm_count x b row);
  law_size (x : X) (b : Z) (rows : list Z) :
    1 <= tm_limit x -> NoDup rows -> (forall row, row ∈ rows <-> is_Some (tm_count x b row)) ->
    Z.of_nat (length (tm_rows x b)) = Z.min (tm_limit x) (Z.of_nat (length rows))
}.

(** ** Sending *)
Lemma flat_map_ext_elem {A B} (f g : A -> list B) (l : list A) : (forall a, a ∈ l -> f a = g a) -> flat_map f l = flat_map g l.
Proof.
  induction l as [|a l IH]; intros Hf; [done|]. cbn [flat_map]. f_equal; [apply Hf; by left|]. apply IH. intros b Hb. apply Hf. by right.
Qed.

(** The queue takes requests while it has room. *)
Lemma send_all_queue (c c' : Ctrl) (rs : list Request) :
  send_all c rs = Ok c' ->
  let q := m_priority_buffer c in
  buffer (m_priority_buffer c') = buffer q ++ take (Z.to_nat (max_size q - buf_size q)) rs.
Proof.
  cbn zeta. revert c. induction rs as [|r rs IH]; intros c H; [injection H as <-; by rewrite take_nil, app_nil_r|].
  unfold send_all in H. rewrite foldM_cons in H. apply bind_Ok in H as (c1 & H1 & H). apply bind_Ok in H1 as ([ok c2] & H1 & [= <-]).
  rewrite (IH c2 H). unfold priority_send in H1. destruct (_ || _); [done|]. unfold enqueue in H1.
  destruct (Z.ltb_spec (buf_size (m_priority_buffer c)) (max_size (m_priority_buffer c))) as [Hlt|Hge].
  - assert (m_priority_buffer c2 = mkReqBuffer (buffer (m_priority_buffer c) ++ [r]) (max_size (m_priority_buffer c))) as ->
      by (injection H1 as _ <-; by destruct (_ =? _)).
    cbn [buffer max_size]. unfold buf_size in *. cbn [buffer]. rewrite length_app. cbn [length].
    replace (Z.to_nat (max_size (m_priority_buffer c) - Z.of_nat (length (buffer (m_priority_buffer c)))))
      with (S (Z.to_nat (max_size (m_priority_buffer c) - Z.of_nat (length (buffer (m_priority_buffer c)) + 1)))) by lia.
    cbn [take]. by rewrite <- app_assoc.
  - injection H1 as _ <-. replace (Z.to_nat (max_size (m_priority_buffer c) - buf_size (m_priority_buffer c))) with O by lia. done.
Qed.

(** The request refreshes that row of that bank. *)
Definition refreshes (d : DRAMDevice) (t : TRRLevels) (p : Z * Z) (r : Request) : Prop :=
  exists av, r = Request_cmd av (trr_vrr_cmd_id t) /\ get_flat_bank_id d av = Ok p.1 /\ vget av (trr_row_level t) = Ok p.2.

Section rounds.
Context {X : Type} `{TRRModel X} `{!TRRLaws X} (t : TRRLevels) (d : DRAMDevice) (N : nat) (req : Request).
Context (Hcmd : 0 <= trr_vrr_cmd_id t < command_count (m_spec d)).
Context (Haddr : forall b row, 0 <= b < Z.of_nat N ->
  exists av, vrr_addr t (addr_vec req) b row = Ok av /\ refreshes d t (b, row) (Request_cmd av (trr_vrr_cmd_id t))).

Lemma send_rows_all (b : Z) (rows : list Z) (c : Ctrl) :
  0 <= b < Z.of_nat N -> m_device c = d ->
  exists c' rs, send_rows t (addr_vec req) b c rows = Ok c' /\ send_all c rs = Ok c' /\
    Forall2 (refreshes d t) (map (pair b) rows) rs /\ m_device c' = d.
Proof.
  intros Hb. revert c. induction rows as [|row rows IH]; intros c Hc; [by exists c, []|].
  destruct (Haddr b row Hb) as (av & Hav & Hr). unfold send_rows. rewrite foldM_cons, Hav. cbn [mbind result_bind].
  assert (exists q, priority_send c (Request_cmd av (trr_vrr_cmd_id t)) = Ok q) as [[ok c1] Hq].
  { unfold priority_send. rewrite Hc. cbn [final_command Request_cmd].
    assert ((trr_vrr_cmd_id t <? 0) || (command_count (m_spec d) <=? trr_vrr_cmd_id t) = false) as -> by lia.
    destruct (enqueue _ _) as [[|] ?]; eauto. }
  rewrite Hq. cbn [mbind result_bind snd]. destruct (IH c1) as (c' & rs & H1 & H2 & H3 & H4).
  { rewrite <- Hc. by eapply priority_send_device. }
  exists c', (Request_cmd av (trr_vrr_cmd_id t) :: rs). split_and!; [exact H1| |by constructor|done].
  unfold send_all. rewrite foldM_cons, Hq. exact H2.
Qed.

(** All banks of a command, each once. *)
Lemma rfm_rounds (banks : list Z) (x : X) (c : Ctrl) :
  tm_levels x = t -> tm_banks x = N -> m_device c = d -> NoDup banks -> (forall b, b ∈ banks -> 0 <= b < Z.of_nat N) ->
  exists x' c' rs, foldM (tm_bank req) (x, c) banks = Ok (x', c') /\ send_all c rs = Ok c' /\
    Forall2 (refreshes d t) (flat_map (fun b => map (pair b) (tm_rows x b)) banks) rs /\
    (forall b, b ∈ banks -> refreshed x x' b) /\ (forall b, b ∉ banks -> same_bank x x' b).
Proof.
  intros Et En. revert x c Et En. induction banks as [|b banks IH]; intros x c Et En Hc Hnd Hr.
  - exists x, c, []. split_and!; try done. by intros b Hb%elem_of_nil.
  - apply NoDup_cons in Hnd as [Hb Hnd].
    destruct (send_rows_all b (tm_rows x b) c) as (c1 & rs1 & S1 & A1 & F1 & D1); [apply Hr; by left|done|].
    destruct (law_bank x c c1 req b) as (x1 & B1 & E1 & E2 & R1 & K1); [rewrite En; apply Hr; by left|by rewrite Et|].
    destruct (IH x1 c1) as (x' & c' & rs & Hf & A2 & F2 & R2 & K2); [congruence|congruence|done|done|intros; apply Hr; by right|].
    exists x', c', (rs1 ++ rs). split_and!.
    + rewrite foldM_cons, B1. exact Hf.
    + unfold send_all. rewrite foldM_app. fold (send_all c rs1). rewrite A1. exact A2.
    + cbn [flat_map]. apply Forall2_app; [done|]. rewrite (flat_map_ext_elem _ (fun b => map (pair b) (tm_rows x1 b))); [done|].
      intros b' Hb'. f_equal. symmetry. apply K1. by intros ->.
    + intros b' Hb' row. destruct (decide (b' = b)) as [->|Hne].
      * rewrite (proj2 (proj2 (K2 b Hb))). apply R1.
      * apply elem_of_cons in Hb' as [->|Hb']; [done|]. destruct (K1 b' Hne) as (Er & Eb & Ec).
        rewrite (R2 b' Hb' row), Er, Eb, Ec. done.
    + intros b' Hb'. apply not_elem_of_cons in Hb' as [Hne Hb']. destruct (K1 b' Hne) as (P1 & P2 & P3).
      destruct (K2 b' Hb') as (Q1 & Q2 & Q3). split_and!; [congruence|congruence|]. intros row. by rewrite Q3, P3.
Qed.
End rounds.

(** C8. On a refresh-management command, a plugin that was set up on the device
    returns, having sent exactly the victim-row refreshes of the rows it selects,
    bank after bank of the command, each addressed to its bank and row.  In each
    bank the selected rows are distinct tracked rows, as many as are tracked but at
    most the configured number, and no tracked row that is left out has a higher
    count than a selected one.  The priority queue takes the refreshes in order
    while it has room and drops the rest; the counts of all selected rows return to
    the base value, also of those whose refresh was dropped, and nothing else
    changes. *)
Theorem trr_refreshes_hottest_rows {X : Type} `{TRRLaws X} (T : Standard) (who : string) (x : X) (c : Ctrl) (req : Request) :
  T ∈ registry -> dev_of T (m_device c) -> TRR_setup who c = Ok (tm_levels x) ->
  m_bank_level (m_device c) = trr_bank_level (tm_levels x) -> tm_banks x = length (m_bank_nodes (m_device c)) ->
  is_rfm_cmd (tm_levels x) (command req) = true -> addressed (m_device c) (command req) (addr_vec req) -> 1 <= tm_limit x ->
  let banks := timing_targets (m_device c) (addr_vec req) in
  let queue (c : Ctrl) := m_priority_buffer c in
  exists x' c' rs, tm_issue x c req = Ok (x', c') /\ send_all c rs = Ok c' /\
    Forall2 (refreshes (m_device c) (tm_levels x)) (flat_map (fun b => map (pair b) (tm_rows x b)) banks) rs /\
    buffer (queue c') = buffer (queue c) ++ take (Z.to_nat (max_size (queue c) - buf_size (queue c))) rs /\
    (forall b, b ∈ banks -> refreshed x x' b) /\ (forall b, b ∉ banks -> same_bank x x' b) /\
    (forall b, NoDup (tm_rows x b)) /\
    (forall b row, row ∈ tm_rows x b -> is_Some (tm_count x b row)) /\
    (forall b tracked, NoDup tracked -> (forall row, row ∈ tracked <-> is_Some (tm_count x b row)) ->
       Z.of_nat (length (tm_rows x b)) = Z.min (tm_limit x) (Z.of_nat (length tracked))) /\
    (forall b row row' n, row ∈ tm_rows x b -> row' ∉ tm_rows x b -> tm_count x b row' = Some n ->
       exists m, tm_count x b row = Some m /\ n <= m).
Proof.
  intros Hin [Hd HB] Hset Hbl Hlen Hrfm Had Hlim. cbn zeta. destruct (TRR_setup_ok T who c _ Hin HB Hset) as [Hlv (ranks & S1 & _ & S3 & Hper)].
  assert (trr_bank_level (tm_levels x) = 3) as E3 by apply Hlv. rewrite E3 in Hbl.
  assert (trr_row_level (tm_levels x) = 4) as E4 by apply Hlv.
  destruct (law_observe x) as (O1 & O2 & O3).
  destruct (rfm_rounds (tm_levels x) (m_device c) (tm_banks x) req) with (banks := timing_targets (m_device c) (addr_vec req))
    (x := tm_observe x) (c := c) as (x' & c' & rs & Hf & A & F & R & K); try done.
  - apply Hlv.
  - intros b row Hb. rewrite Hlen in Hb. destruct Had as (_ & Hav & _).
    destruct (vrr_addr_ok (m_device c) (tm_levels x) ranks (addr_vec req) b row) as (av & Hav' & Hfl & Hrow & _); try done.
    exists av. split; [done|]. exists av. by rewrite E4.
  - apply sel_ids_NoDup.
  - intros b Hb. rewrite Hlen. by eapply timing_targets_range.
  - exists x', c', rs. split_and!;
      [|done| |by apply send_all_queue| | |apply law_rows|apply law_tracked|by intros; apply law_size|by intros; eapply law_top].
    + rewrite (law_issue x c req (timing_targets (m_device c) (addr_vec req)) Hrfm); [exact Hf|]. by apply get_target_banks_eq.
    + rewrite (flat_map_ext_elem _ (fun b => map (pair b) (tm_rows (tm_observe x) b))); [exact F|].
      intros b _. cbn beta. by rewrite (proj1 (O3 b)).
    + intros b Hb row. destruct (O3 b) as (P1 & P2 & P3). rewrite (R b Hb row), P1, P2, P3. done.
    + intros b Hb. destruct (O3 b) as (P1 & P2 & P3), (K b Hb) as (Q1 & Q2 & Q3). split_and!; [congruence|congruence|].
      intros row. by rewrite Q3, P3.
Qed.

(** ** HynixTRR *)
Definition hynix_count (h : HynixTRR) (b row : Z) : option Z :=
  match vget (hy_sampled_row h) b with Ok r => if (r =? row) && (0 <=? r) then Some 1 else None | Err _ => None end.
Definition hynix_rows (h : HynixTRR) (b : Z) : list Z :=
  match vget (hy_sampled_row h) b with Ok r => if r <? 0 then [] else [r] | Err _ => [] end.

#[export] Instance HynixTRR_model (draw : nat -> spec_float) : TRRModel HynixTRR := {|
  tm_levels := hy_levels;
  tm_banks := fun h => length (hy_sampled_row h);
  tm_limit := fun _ => 1;
  tm_count := hynix_count;
  tm_base := fun _ _ => None;
  tm_rows := hynix_rows;
  tm_observe := fun h => mkHynix (hy_levels h) (hy_sample_probability h) (hy_drawn h) (hy_sampled_row h) (hy_rfm_observed h + 1) (hy_vrrs_fired h);
  tm_bank := hynix_rfm_bank;
  tm_issue := HynixTRR_on_issue draw
|}.

#[export] Instance HynixTRR_TRRLaws (draw : nat -> spec_float) : @TRRLaws HynixTRR (HynixTRR_model draw).
Proof.
  split.
  - intros x c req banks Hr Hb. cbn in *. unfold HynixTRR_on_issue. by rewrite Hr, Hb.
  - intros x. by split_and!.
  - intros x c c' req b Hb. cbn in *. unfold hynix_rows. destruct (vget_in_range (hy_sampled_row x) b Hb) as [r Hr].
    rewrite Hr. cbn [mbind result_bind]. destruct (Z.ltb_spec r 0) as [Hlt|Hge].
    + intros [= <-]. exists x. split_and!; try done. intros row. cbn. unfold hynix_rows. rewrite Hr.
      by destruct (Z.ltb_spec r 0); [|lia].
    + unfold send_rows. cbn [foldM]. intros (c1 & H1 & [= <-])%bind_Ok. apply bind_Ok in H1 as (av & Hav & H1).
      apply bind_Ok in H1 as (q & Hq & [= <-]). unfold fire_vrr. rewrite Hav. cbn [mbind result_bind]. rewrite Hq. cbn [mbind result_bind snd fst].
      destruct (vset_total (hy_sampled_row x) b (-1) Hb) as [l Hl]. rewrite Hl. cbn [mbind result_bind].
      eexists. split; [done|]. split_and!; [done|by apply (vset_length _ _ _ _ Hl)| |].
      * intros row. cbn. unfold hynix_count, hynix_rows. cbn. rewrite (vget_vset _ _ _ _ _ Hl), Z.eqb_refl, Hr.
        destruct (Z.ltb_spec r 0); [lia|]. rewrite andb_false_r. case_bool_decide as Hin; [done|].
        destruct (Z.eqb_spec r row) as [->|]; [|done]. exfalso. apply Hin. by left.
      * intros b' Hne. unfold same_bank. cbn. unfold hynix_count, hynix_rows. cbn. rewrite (vget_vset _ _ _ _ _ Hl).
        by rewrite (proj2 (Z.eqb_neq b' b) Hne).
  - intros x b row row' n. cbn. unfold hynix_rows, hynix_count. destruct (vget _ b) as [r|]; [|done].
    destruct (Z.ltb_spec r 0); [by intros ?%elem_of_nil|]. intros ->%list_elem_of_singleton Hn. destruct (Z.eqb_spec r row') as [->|]; [|done].
    exfalso. apply Hn. by left.
  - intros x b. cbn. unfold hynix_rows. destruct (vget _ b) as [r|]; [|constructor]. destruct (_ <? _); [constructor|apply NoDup_singleton].
  - intros x b row. cbn. unfold hynix_rows, hynix_count. destruct (vget _ b) as [r|]; [|by intros ?%elem_of_nil].
    destruct (Z.ltb_spec r 0); [by intros ?%elem_of_nil|]. intros ->%list_elem_of_singleton.
    rewrite Z.eqb_refl, (proj2 (Z.leb_le 0 r)) by lia. by eexists.
  - intros x b rows _ Hnd Hrows. cbn in *. unfold hynix_rows, hynix_count in *. destruct (vget _ b) as [r|].
    + destruct (Z.ltb_spec r 0) as [Hlt|Hge].
      * destruct rows as [|a rows]; [done|]. destruct (proj1 (Hrows a) ltac:(by left)) as [n Hn].
        rewrite (proj2 (Z.leb_gt 0 r)), andb_false_r in Hn by lia. done.
      * assert (rows ≡ₚ [r]) as Hp; [|apply Permutation_length in Hp; cbn in *; lia].
        apply NoDup_Permutation; [done|apply NoDup_singleton|]. intros a. rewrite Hrows, list_elem_of_singleton.
        rewrite (proj2 (Z.leb_le 0 r)), andb_true_r by lia. destruct (Z.eqb_spec r a) as [->|Hne].
        -- split; [done|]. intros _. by eexists.
        -- split; [by intros [? ?]|]. by intros ->.
    + destruct rows as [|a rows]; [done|]. by destruct (proj1 (Hrows a) ltac:(by left)) as [n Hn].
Qed.

(** ** The counting trackers *)

(** What [std::partial_sort] promises about its result. *)
Class PartialSort (psort : nat -> list (Z * Z) -> list (Z * Z)) : Prop := {
  ps_perm (k : nat) (l : list (Z * Z)) : psort k l ≡ₚ l;
  ps_top (k i j : nat) (l : list (Z * Z)) (a b : Z * Z) :
    psort k l !! i = Some a -> psort k l !! j = Some b -> (i < k)%nat -> (i <= j)%nat -> b.2 <= a.2
}.

Section counting.
Context (order : gmap Z Z -> list (Z * Z)) (psort : nat -> list (Z * Z) -> list (Z * Z)).
Context (Hord : forall t, order t ≡ₚ map_to_list t) `{!PartialSort psort}.

Lemma psort_lookup (k : nat) (table : gmap Z Z) (row n : Z) :
  table !! row = Some n <-> (row, n) ∈ psort k (order table).
Proof. by rewrite ps_perm, Hord, elem_of_map_to_list. Qed.

Lemma top_rows_NoDup (K : Z) (table : gmap Z Z) : NoDup (top_rows order psort K table).
Proof.
  unfold top_rows. set (k := Z.to_nat _). assert (NoDup (psort k (order table)).*1) as Hnd.
  { rewrite ps_perm, Hord. apply NoDup_fst_map_to_list. }
  rewrite <- (take_drop k (psort k (order table))), fmap_app in Hnd. by apply NoDup_app in Hnd as [Hnd _].
Qed.

Lemma top_rows_top (K : Z) (table : gmap Z Z) (row row' n : Z) :
  row ∈ top_rows order psort K table -> row' ∉ top_rows order psort K table -> table !! row' = Some n ->
  exists m, table !! row = Some m /\ n <= m.
Proof.
  unfold top_rows. set (k := Z.to_nat _). intros Hin Hout Hn. apply list_elem_of_fmap in Hin as ([r m] & -> & Hin).
  apply list_elem_of_lookup_1 in Hin as (i & Hi). apply lookup_take_Some in Hi as [Hi Hik].
  exists m. split; [apply (psort_lookup k); by eapply list_elem_of_lookup_2|].
  apply (psort_lookup k) in Hn as Hj. apply list_elem_of_lookup_1 in Hj as (j & Hj).
  destruct (decide (j < k)%nat) as [Hjk|Hjk].
  - exfalso. apply Hout. apply list_elem_of_fmap. exists (row', n). split; [done|]. eapply list_elem_of_lookup_2.
    apply lookup_take_Some. split; [exact Hj|done].
  - pose proof (ps_top k i j _ _ _ Hi Hj Hik ltac:(lia)). done.
Qed.

Lemma top_rows_tracked (K : Z) (table : gmap Z Z) (row : Z) : row ∈ top_rows order psort K table -> is_Some (table !! row).
Proof.
  unfold top_rows. set (k := Z.to_nat _). intros ([r m] & -> & Hin)%list_elem_of_fmap. exists m. apply (psort_lookup k).
  by eapply elem_of_take in Hin as (? & ? & ?); eapply list_elem_of_lookup_2.
Qed.

(** As many rows as there are, up to the limit. *)
Lemma top_rows_length (K : Z) (table : gmap Z Z) (rows : list Z) :
  1 <= K -> NoDup rows -> (forall row, row ∈ rows <-> is_Some (table !! row)) ->
  Z.of_nat (length (top_rows order psort K table)) = Z.min K (Z.of_nat (length rows)).
Proof.
  intros HK Hnd Hrows. assert (rows ≡ₚ (map_to_list table).*1) as Hp.
  { apply NoDup_Permutation; [done|apply NoDup_fst_map_to_list|]. intros row. rewrite Hrows, list_elem_of_fmap. split.
    - intros [n Hn]. exists (row, n). split; [done|]. by apply elem_of_map_to_list.
    - intros ([r n] & -> & Hin). exists n. by apply elem_of_map_to_list. }
  apply Permutation_length in Hp. rewrite length_fmap, <- Hord in Hp.
  unfold top_rows. rewrite length_fmap, length_take, ps_perm. lia.
Qed.

(** The refreshes of one bank, with the counts they reset. *)
Lemma reset_rows (t : TRRLevels) (av : AddrVec_t) (base : Z -> result Z) (b n : Z) (rows : list Z) (table : gmap Z Z)
  (fired : Z) (c c' : Ctrl) :
  base b = Ok n -> send_rows t av b c rows = Ok c' ->
  exists table' fired',
    foldM (fun (s : gmap Z Z * Z * Ctrl) row =>
      let '(table, fired, c) := s in
      q ← fire_vrr t av b row fired c; n ← base b; Ok (<[row := n]> table, q.1, q.2)) (table, fired, c) rows = Ok (table', fired', c') /\
    forall row, table' !! row = if bool_decide (row ∈ rows) then Some n else table !! row.
Proof.
  intros Hb. revert table fired c. induction rows as [|row rows IH]; intros table fired c H.
  - injection H as <-. exists table, fired. split; [done|]. intros r. by rewrite bool_decide_false by (by intros ?%elem_of_nil).
  - unfold send_rows in H. rewrite foldM_cons in H. apply bind_Ok in H as (c1 & H1 & H). apply bind_Ok in H1 as (av' & Hav & H1).
    apply bind_Ok in H1 as (q & Hq & [= <-]). rewrite foldM_cons. cbn beta iota. unfold fire_vrr at 2. rewrite Hav. cbn [mbind result_bind].
    rewrite Hq. cbn [mbind result_bind fst snd]. rewrite (bind_Ok_l (base b) _ n Hb).
    destruct (IH (<[row := n]> table) (if q.1 : bool then fired + 1 else fired) q.2 H) as (table' & fired' & Hf & Ht).
    exists table', fired'. split; [exact Hf|]. intros r. rewrite Ht. destruct (decide (r = row)) as [->|Hne].
    + rewrite lookup_insert_eq, (bool_decide_true (row ∈ row :: rows)) by (by left). by case_bool_decide.
    + rewrite lookup_insert_ne by done. assert (r ∈ row :: rows <-> r ∈ rows) as E by (rewrite elem_of_cons; naive_solver).
      by rewrite (bool_decide_ext _ _ E).
Qed.

Definition ct_count (t : CountingTRR) (b row : Z) : option Z :=
  match vget (ct_counter_table t) b with Ok m => m !! row | Err _ => None end.
Definition ct_rows (t : CountingTRR) (b : Z) : list Z :=
  match vget (ct_counter_table t) b with Ok m => top_rows order psort (ct_num_rows_per_rfm t) m | Err _ => [] end.

Lemma top_rows_empty (K : Z) : top_rows order psort K ∅ = [].
Proof.
  unfold top_rows. assert (order ∅ = []) as ->.
  2: { by replace (Z.to_nat (Z.min K _)) with O by (cbn [length]; lia). }
  apply Permutation_nil_r. rewrite Hord. by rewrite map_to_list_empty.
Qed.

Lemma counting_bank (base : Z -> result Z) (t : CountingTRR) (c c' : Ctrl) (req : Request) (b n : Z) :
  0 <= b < Z.of_nat (length (ct_counter_table t)) -> base b = Ok n ->
  send_rows (ct_levels t) (addr_vec req) b c (ct_rows t b) = Ok c' ->
  exists t', counting_rfm_bank order psort base req (t, c) b = Ok (t', c') /\ ct_levels t' = ct_levels t /\
    ct_num_rows_per_rfm t' = ct_num_rows_per_rfm t /\ length (ct_counter_table t') = length (ct_counter_table t) /\
    (forall row, ct_count t' b row = if bool_decide (row ∈ ct_rows t b) then Some n else ct_count t b row) /\
    (forall b', b' <> b -> vget (ct_counter_table t') b' = vget (ct_counter_table t) b').
Proof.
  intros Hb Hn. destruct (vget_in_range _ _ Hb) as [table Ht]. unfold ct_rows, counting_rfm_bank. rewrite Ht. cbn [mbind result_bind].
  case_bool_decide as He.
  - subst table. rewrite top_rows_empty. intros [= <-]. by exists t.
  - intros Hs. destruct (reset_rows _ _ base b n _ table (ct_vrrs_fired t) c c' Hn Hs) as (table' & fired' & Hf & Hr).
    destruct (vset_total (ct_counter_table t) b table' Hb) as [l Hl]. exists (ct_set t l (ct_rfm_observed t) fired').
    rewrite Hf. cbn [mbind result_bind]. rewrite Hl. split_and!; try done; [by apply (vset_length _ _ _ _ Hl)| |].
    + intros row. unfold ct_count. cbn. by rewrite (vget_vset _ _ _ _ _ Hl), Z.eqb_refl, Ht, Hr.
    + intros b' Hne. cbn. by rewrite (vget_vset _ _ _ _ _ Hl), (proj2 (Z.eqb_neq b' b) Hne).
Qed.
End counting.

#[export] Instance IdealTRR_model order psort : TRRModel IdealTRR := {|
  tm_levels := fun '(mkIdeal t) => ct_levels t;
  tm_banks := fun '(mkIdeal t) => length (ct_counter_table t);
  tm_limit := fun '(mkIdeal t) => ct_num_rows_per_rfm t;
  tm_count := fun '(mkIdeal t) => ct_count t;
  tm_base := fun _ _ => Some 0;
  tm_rows := fun '(mkIdeal t) => ct_rows order psort t;
  tm_observe := fun '(mkIdeal t) => mkIdeal (ct_set t (ct_counter_table t) (ct_rfm_observed t + 1) (ct_vrrs_fired t));
  tm_bank := fun req '(mkIdeal t, c) b => q ← counting_rfm_bank order psort (fun _ => Ok 0) req (t, c) b; Ok (mkIdeal q.1, q.2);
  tm_issue := fun '(mkIdeal t) c req => q ← IdealTRR_on_issue order psort t c req; Ok (mkIdeal q.1, q.2)
|}.

#[export] Instance SamsungTRR_model order psort : TRRModel SamsungTRR := {|
  tm_levels := fun s => ct_levels (sa_base s);
  tm_banks := fun s => Nat.min (length (ct_counter_table (sa_base s))) (length (sa_spillover s));
  tm_limit := fun s => ct_num_rows_per_rfm (sa_base s);
  tm_count := fun s => ct_count (sa_base s);
  tm_base := fun s b => match vget (sa_spillover s) b with Ok n => Some n | Err _ => None end;
  tm_rows := fun s => ct_rows order psort (sa_base s);
  tm_observe := fun s => let t := sa_base s in
    mkSamsung (ct_set t (ct_counter_table t) (ct_rfm_observed t + 1) (ct_vrrs_fired t)) (sa_num_table_entries s) (sa_spillover s);
  tm_bank := fun req '(s, c) b => q ← counting_rfm_bank order psort (vget (sa_spillover s)) req (sa_base s, c) b;
    Ok (mkSamsung q.1 (sa_num_table_entries s) (sa_spillover s), q.2);
  tm_issue := SamsungTRR_on_issue order psort
|}.

(** Handling the banks on a wrapped tracker is handling them on the tracker. *)
Lemma foldM_wrap {S S' A} (wrap : S -> S') (f : S -> A -> result S) (f' : S' -> A -> result S') (l : list A) (s : S) :
  (forall s a, f' (wrap s) a = (s1 ← f s a; Ok (wrap s1))) -> foldM f' (wrap s) l = (s1 ← foldM f s l; Ok (wrap s1)).
Proof.
  intros Hf. revert s. induction l as [|a l IH]; intros s; [done|]. rewrite !foldM_cons, Hf. by destruct (f s a) as [s1|]; [apply IH|].
Qed.

Section counting_laws.
Context (order : gmap Z Z -> list (Z * Z)) (psort : nat -> list (Z * Z) -> list (Z * Z)).
Context (Hord : forall t, order t ≡ₚ map_to_list t) `{!PartialSort psort}.

Lemma ct_rows_ext (t t' : CountingTRR) (b : Z) :
  ct_num_rows_per_rfm t' = ct_num_rows_per_rfm t -> vget (ct_counter_table t') b = vget (ct_counter_table t) b ->
  ct_rows order psort t' b = ct_rows order psort t b /\ forall row, ct_count t' b row = ct_count t b row.
Proof. intros E1 E2. unfold ct_rows, ct_count. by rewrite E1, E2. Qed.

Lemma ct_top (t : CountingTRR) (b row row' n : Z) :
  row ∈ ct_rows order psort t b -> row' ∉ ct_rows order psort t b -> ct_count t b row' = Some n ->
  exists m, ct_count t b row = Some m /\ n <= m.
Proof. unfold ct_rows, ct_count. destruct (vget _ b); [by apply top_rows_top|done]. Qed.

Lemma ct_rows_NoDup (t : CountingTRR) (b : Z) : NoDup (ct_rows order psort t b).
Proof. unfold ct_rows. destruct (vget _ b); [by apply top_rows_NoDup|constructor]. Qed.

Lemma ct_tracked (t : CountingTRR) (b row : Z) : row ∈ ct_rows order psort t b -> is_Some (ct_count t b row).
Proof. unfold ct_rows, ct_count. destruct (vget _ b); [by apply top_rows_tracked|by intros ?%elem_of_nil]. Qed.

Lemma ct_size (t : CountingTRR) (b : Z) (rows : list Z) :
  1 <= ct_num_rows_per_rfm t -> NoDup rows -> (forall row, row ∈ rows <-> is_Some (ct_count t b row)) ->
  Z.of_nat (length (ct_rows order psort t b)) = Z.min (ct_num_rows_per_rfm t) (Z.of_nat (length rows)).
Proof.
  unfold ct_rows, ct_count. destruct (vget _ b); [by apply top_rows_length|]. intros HK _ Hrows.
  destruct rows as [|a rows]; [cbn; lia|]. by destruct (proj1 (Hrows a) ltac:(by left)).
Qed.

Lemma IdealTRR_TRRLaws : @TRRLaws IdealTRR (IdealTRR_model order psort).
Proof.
  split.
  - intros [t] c req banks Hr Hb. cbn [tm_levels tm_issue tm_bank tm_observe IdealTRR_model] in *. unfold IdealTRR_on_issue.
    rewrite Hr. unfold counting_rfm. rewrite Hb. cbn [mbind result_bind]. symmetry.
    by apply (foldM_wrap (fun p : CountingTRR * Ctrl => (mkIdeal p.1, p.2)) _ _ banks (_, c)); intros [t1 c1] b.
  - by intros [t].
  - intros [t] c c' req b Hb Hs. cbn [tm_levels tm_banks tm_rows tm_bank IdealTRR_model] in *.
    destruct (counting_bank order psort Hord (fun _ => Ok 0) t c c' req b 0 Hb eq_refl Hs) as (t' & H & E1 & E2 & E3 & E4 & E5).
    exists (mkIdeal t'). rewrite H. split_and!; try done. intros b' Hne. destruct (ct_rows_ext t t' b' E2 (E5 b' Hne)). by split_and!.
  - intros [t]. apply ct_top.
  - intros [t]. apply ct_rows_NoDup.
  - intros [t]. apply ct_tracked.
  - intros [t]. apply ct_size.
Qed.

Lemma SamsungTRR_TRRLaws : @TRRLaws SamsungTRR (SamsungTRR_model order psort).
Proof.
  split.
  - intros s c req banks Hr Hb. cbn [tm_levels tm_issue tm_bank tm_observe SamsungTRR_model] in *. unfold SamsungTRR_on_issue.
    rewrite Hr. unfold counting_rfm. rewrite Hb. cbn [mbind result_bind]. symmetry.
    by apply (foldM_wrap (fun p : CountingTRR * Ctrl => (mkSamsung p.1 (sa_num_table_entries s) (sa_spillover s), p.2)) _ _ banks (_, c));
      intros [t1 c1] b.
  - by intros s.
  - intros s c c' req b Hb Hs. cbn [tm_levels tm_banks tm_rows tm_bank SamsungTRR_model] in *.
    destruct (vget_in_range (sa_spillover s) b) as [n Hn]; [lia|].
    destruct (counting_bank order psort Hord (vget (sa_spillover s)) (sa_base s) c c' req b n) as (t' & H & E1 & E2 & E3 & E4 & E5); [lia|done|done|].
    eexists. rewrite H. split; [reflexivity|]. split_and!; [done|cbn; by rewrite E3| |].
    + intros row. cbn. by rewrite Hn, E4.
    + intros b' Hne. destruct (ct_rows_ext (sa_base s) t' b' E2 (E5 b' Hne)). by split_and!.
  - intros s. apply ct_top.
  - intros s. apply ct_rows_NoDup.
  - intros s. apply ct_tracked.
  - intros s. apply ct_size.
Qed.
End counting_laws.

(** ** The plugins keep the controller's laws *)
Lemma fire_vrr_sends (t : TRRLevels) (av : AddrVec_t) (b row fired : Z) (c : Ctrl) (q : Z * Ctrl) :
  fire_vrr t av b row fired c = Ok q -> sends any_request c q.2.
Proof. unfold fire_vrr. intros (av' & _ & H)%bind_Ok. apply bind_Ok in H as ([ok c1] & H & [= <-]). by eapply send_cmd_sends. Qed.

#[export] Instance HynixTRR_laws draw : @PluginLaws any_request HynixTRR (HynixTRR_plugin draw).
Proof.
  split; intros g g' c c'; [|intros r|]; intros H; simpl in H; [inv_res; constructor| |inv_res; constructor].
  unfold HynixTRR_on_issue in H. destruct (is_rfm_cmd _ _).
  - apply bind_Ok in H as (banks & _ & H). apply (foldM_sends any_request (fun s : HynixTRR * Ctrl => s.2)) in H; [done|]. clear.
    intros [h c] [h' c'] b H. unfold hynix_rfm_bank in H. apply bind_Ok in H as (row & _ & H). destruct (_ <? _); [injection H as <- <-; constructor|].
    apply bind_Ok in H as (q & Hq & H). apply bind_Ok in H as (l & _ & [= <- <-]). by eapply fire_vrr_sends.
  - destruct (negb _); [injection H as <- <-; constructor|]. apply bind_Ok in H as (h & _ & [= <- <-]). constructor.
Qed.

Lemma counting_rfm_sends order psort base (t t' : CountingTRR) (c c' : Ctrl) (req : Request) :
  counting_rfm order psort base t c req = Ok (t', c') -> sends any_request c c'.
Proof.
  unfold counting_rfm. intros (banks & _ & H)%bind_Ok. apply (foldM_sends any_request (fun s : CountingTRR * Ctrl => s.2)) in H; [done|].
  clear. intros [t c] [t' c'] b H. unfold counting_rfm_bank in H. apply bind_Ok in H as (table & _ & H).
  case_bool_decide; [injection H as <- <-; constructor|]. apply bind_Ok in H as ([[table1 fired] c1] & H1 & H).
  apply bind_Ok in H as (l & _ & [= <- <-]). apply (foldM_sends any_request (fun s : gmap Z Z * Z * Ctrl => s.2)) in H1; [done|]. clear.
  intros [[tb f] c] s' row H. apply bind_Ok in H as (q & Hq & H). apply bind_Ok in H as (n & _ & [= <-]). by eapply fire_vrr_sends.
Qed.

#[export] Instance IdealTRR_laws order psort : @PluginLaws any_request IdealTRR (IdealTRR_plugin order psort).
Proof.
  split; intros g g' c c'; [|intros r|]; intros H; simpl in H; [inv_res; constructor| |inv_res; constructor].
  destruct g as [t]. apply bind_Ok in H as ([t1 c1] & H & [= <- <-]). cbn. unfold IdealTRR_on_issue in H.
  destruct (is_rfm_cmd _ _); [by eapply counting_rfm_sends|]. destruct (negb _); [injection H as <- <-; constructor|].
  apply bind_Ok in H as (h & _ & [= <- <-]). constructor.
Qed.

#[export] Instance SamsungTRR_laws order psort : @PluginLaws any_request SamsungTRR (SamsungTRR_plugin order psort).
Proof.
  split; intros g g' c c'; [|intros r|]; intros H; simpl in H; [inv_res; constructor| |inv_res; constructor].
  unfold SamsungTRR_on_issue in H. destruct (is_rfm_cmd _ _).
  - apply bind_Ok in H as ([t1 c1] & H & [= <- <-]). by eapply counting_rfm_sends.
  - destruct (negb _); [injection H as <- <-; constructor|]. apply bind_Ok in H as (h & _ & [= <- <-]). constructor.
Qed.

(** ** On a DDR5 device with VRR *)
Definition by_count (a b : Z * Z) : Prop := b.2 <= a.2.
#[export] Instance by_count_dec a b : Decision (by_count a b).
Proof. unfold by_count. solve_decision. Defined.
#[export] Instance by_count_total : Total by_count.
Proof. intros a b. unfold by_count. lia. Qed.
#[export] Instance by_count_trans : Transitive by_count.
Proof. intros a b c. unfold by_count. lia. Qed.

Lemma StronglySorted_le {A} (R : A -> A -> Prop) (l : list A) (i j : nat) (a b : A) :
  Reflexive R -> StronglySorted R l -> l !! i = Some a -> l !! j = Some b -> (i <= j)%nat -> R a b.
Proof.
  intros Hrefl Hs. revert i j. induction Hs as [|x l Hs IH Hx]; intros [|i] [|j] Ha Hb Hij; simplify_eq/=; try lia; [done| |].
  - rewrite Forall_lookup in Hx. eauto.
  - eapply IH; eauto. lia.
Qed.

(** Sorting everything is one way to sort the first elements. *)
Definition full_sort (k : nat) (l : list (Z * Z)) : list (Z * Z) := merge_sort by_count l.

#[export] Instance full_sort_partial : PartialSort full_sort.
Proof.
  split; [intros; apply merge_sort_Permutation|]. intros k i j l a b Ha Hb _ Hij.
  apply (StronglySorted_le by_count (full_sort k l) i j a b); [intros x; unfold by_count; lia|apply StronglySorted_merge_sort; apply _|done..].
Qed.

Definition ddr5v_cfg : DramConfig := mkConfig 32 None 8 [1; 2; 2; 2; 64; 1024] [] None 14 [].
Definition ddr5v : DRAMSpec := spec_or (construct DDR5_VRR ddr5v_cfg).
Definition ddr5v_dev : DRAMDevice := match init ddr5v with Ok d => d | Err _ => mkDevice ddr5v ddr4_root [] 0 end.
Definition ddr5v_ctrl : Ctrl := set_buf (set_device empty_ctrl ddr5v_dev) BPriority (mkReqBuffer [] 4).

Lemma ddr5v_dev_of : dev_of DDR5_VRR ddr5v_dev.
Proof. refine (proj1 (init_dev DDR5_VRR ddr5v_cfg ddr5v _ _ _ _ _ _)); vm_compute; reflexivity. Qed.

Definition trr_act (row : Z) : Request := set_command (Request_vec [0; 1; 0; 1; row; 0] Read) 0.
Definition ideal_or (q : result (IdealTRR * Ctrl)) : IdealTRR :=
  match q with Ok p => p.1 | Err _ => mkIdeal (mkCounting (mkTRRLevels 0 0 0 0 0 0 0 0 0 0 0) 0 [] 0 0) end.
Definition ideal0 : IdealTRR := ideal_or (t ← IdealTRR_setup ddr5v_ctrl 1; Ok (t, ddr5v_ctrl)).
Definition ideal_step (t : IdealTRR) (row : Z) : IdealTRR := ideal_or (@pl_on_issue _ (IdealTRR_plugin map_to_list full_sort) t ddr5v_ctrl (trr_act row)).

(** Bank 5 saw row 7 once and row 9 twice; then an RFMsb comes for bank 1 of both
    groups of rank 1. *)
Definition ideal3 : IdealTRR := ideal_step (ideal_step (ideal_step ideal0 7) 9) 9.
Definition rfmsb : Request := set_command (Request_cmd [0; 1; -1; 1; -1; -1] 11) 11.

Lemma trr_refreshes_hottest_rows_witness :
  exists (x' : IdealTRR) (c' : Ctrl) rs, @tm_issue _ (IdealTRR_model map_to_list full_sort) ideal3 ddr5v_ctrl rfmsb = Ok (x', c') /\
    Forall2 (refreshes ddr5v_dev (@tm_levels _ (IdealTRR_model map_to_list full_sort) ideal3)) [(5, 9)] rs /\
    buffer (m_priority_buffer c') = rs.
Proof.
  destruct (@trr_refreshes_hottest_rows IdealTRR (IdealTRR_model map_to_list full_sort)
    (IdealTRR_TRRLaws map_to_list full_sort (fun t => reflexivity _)) DDR5_VRR "IdealTRR" ideal3 ddr5v_ctrl rfmsb)
    as (x' & c' & rs & H1 & H2 & H3 & H4 & _);
    [apply list_elem_of_In; do 4 right; left; reflexivity|exact ddr5v_dev_of|vm_compute; reflexivity..| | |].
  - split_and!; [vm_compute; congruence|vm_compute; congruence|vm_compute; congruence|vm_compute; congruence].
  - vm_compute. congruence.
  - change (Forall2 (refreshes ddr5v_dev (@tm_levels _ (IdealTRR_model map_to_list full_sort) ideal3)) [(5, 9)] rs) in H3.
    exists x', c', rs. split_and!; [exact H1|exact H3|]. rewrite H4.
    pose proof (Forall2_length _ _ _ H3) as Hl. cbn [length] in Hl.
    change (take 4 rs = rs). apply take_ge. rewrite <- Hl. auto.
Defined.
