(* ===== verification/Hydra.v ===== *)
(** * Hydra

    [controller/plugin/impl/hydra.cpp]: a hierarchy of activation counters.  A group
    count table counts a group of rows together up to a threshold; then the rows
    are counted one by one in a row count table, which lives in reserved DRAM rows
    and is cached in a set-associative row count cache; a last table counts the
    activations of the reserved rows themselves.  Debug output is left out.

    [order] is the iteration order of the hash tables of the cache and [draw n] the
    n-th number of the seeded generator.  [std::log2] of an [int] is exact enough
    for its truncation and its ceiling to be those of the real logarithm. *)

From Stdlib Require Import ZArith Lia SpecFloat.
From S2P Require Import Prelude Base Spec Node Standards Device Controller Scheduler GenericDDR Plugins TRR.

Local Open Scope Z_scope.

(** ** Arithmetic *)

(** [(int)std::log2(n)]; the conversion is undefined for the logarithm of 0 or less. *)
Definition log2_s (n : Z) : result Z := if n <=? 0 then Err Undef else Ok (Z.log2 n).

(** [std::ceil(std::log2(n) / 8.0f) * 8]. *)
Definition log2_bytes (n : Z) : result Z := if n <=? 0 then Err Undef else Ok ((Z.log2_up n + 7) / 8 * 8).

(** [(int)std::ceil(x)] of a [float]. *)
Definition f32_ceil_s32 (x : spec_float) : result Z :=
  match x with
  | S754_zero _ => Ok 0
  | S754_finite s m e =>
      let v := if (s : bool) then Z.neg m else Z.pos m in
      let v := - Z.shiftl (- v) e in
      if (- 2 ^ 31 <=? v) && (v <? 2 ^ 31) then Ok v else Err Undef
  | _ => Err Undef
  end.

Definition shr_s (v n : Z) : result Z := if (0 <=? n) && (n <? 32) then Ok (Z.shiftr v n) else Err Undef.
Definition shl_s (v n : Z) : result Z := if (0 <=? n) && (n <? 32) then Ok (Z.shiftl v n) else Err Undef.

(** ** State *)
Record GCTEntry := mkGCT { group_count : Z; gct_initialized : bool }.

Record RCCEntry := mkRCC {
  rcc_row_id : Z;
  rcc_flat_bank_id : Z;
  rcc_count : Z;
  rcc_dirty : bool;
  addr_template : AddrVec_t
}.

Record HydraConst := mkHydraConst {
  hc_tracking_threshold : Z;
  hc_group_threshold : Z;
  hc_row_group_size : Z;
  hc_rcc_policy : string;
  hc_reset_period_clk : Z;
  hc_vrr_cmd_id : Z;
  hc_act_cmd_id : Z;
  hc_rd_cmd_id : Z;
  hc_wr_cmd_id : Z;
  hc_rank_level : Z;
  hc_row_level : Z;
  hc_col_level : Z;
  hc_num_banks_per_rank : Z;
  hc_num_rows_per_bank : Z;
  hc_row_address_bits : Z;
  hc_counter_bits : Z;
  hc_gct_index_bits : Z;
  hc_rcc_set_num : Z;
  hc_rcc_index_bits : Z;
  hc_rcc_tag_row_bits : Z;
  hc_total_rct_row_size : Z;
  hc_rct_per_row : Z;
  hc_rct_per_cl : Z;
  hc_group_rct_cl_size : Z
}.

Record Hydra := mkHydra {
  hy_const : HydraConst;
  hy_clk : Z;
  m_gct : list (gmap Z GCTEntry);
  m_rct : list (gmap Z Z);
  m_rctct : list (gmap Z Z);
  m_rcc : list (list (gmap Z RCCEntry));
  hy_rnd_drawn : nat;
  hy_stats : gmap string Z
}.

Definition hy_set_gct (h : Hydra) (t : list (gmap Z GCTEntry)) : Hydra :=
  mkHydra (hy_const h) (hy_clk h) t (m_rct h) (m_rctct h) (m_rcc h) (hy_rnd_drawn h) (hy_stats h).
Definition hy_set_rct (h : Hydra) (t : list (gmap Z Z)) : Hydra :=
  mkHydra (hy_const h) (hy_clk h) (m_gct h) t (m_rctct h) (m_rcc h) (hy_rnd_drawn h) (hy_stats h).
Definition hy_set_rctct (h : Hydra) (t : list (gmap Z Z)) : Hydra :=
  mkHydra (hy_const h) (hy_clk h) (m_gct h) (m_rct h) t (m_rcc h) (hy_rnd_drawn h) (hy_stats h).
Definition hy_set_rcc (h : Hydra) (t : list (list (gmap Z RCCEntry))) : Hydra :=
  mkHydra (hy_const h) (hy_clk h) (m_gct h) (m_rct h) (m_rctct h) t (hy_rnd_drawn h) (hy_stats h).
Definition hy_set_drawn (h : Hydra) (n : nat) : Hydra :=
  mkHydra (hy_const h) (hy_clk h) (m_gct h) (m_rct h) (m_rctct h) (m_rcc h) n (hy_stats h).
Definition hy_bump (name : string) (h : Hydra) : Hydra :=
  mkHydra (hy_const h) (hy_clk h) (m_gct h) (m_rct h) (m_rctct h) (m_rcc h) (hy_rnd_drawn h)
    (<[name := default 0 (hy_stats h !! name) + 1]> (hy_stats h)).

(** [m_rcc[rank][index] = set]. *)
Definition hy_put_rcc (h : Hydra) (rank index : Z) (set : gmap Z RCCEntry) : result Hydra :=
  sets ← vget (m_rcc h) rank;
  sets ← vset sets index set;
  l ← vset (m_rcc h) rank sets;
  Ok (hy_set_rcc h l).

(** The parameters of [init], in order. *)
Record HydraParams := mkHydraParams {
  hp_tracking_threshold : Z;
  hp_group_threshold : Z;
  hp_row_group_size : Z;
  hp_reset_period_ns : Z;
  hp_rcc_num_per_rank : Z;
  hp_rcc_policy : string
}.

Definition Hydra_setup (c : Ctrl) (p : HydraParams) : result Hydra :=
  let spec := m_spec (m_device c) in
  if negb (has_command spec "VRR") then
    Err (Throw "Hydra is not compatible with the DRAM standard that does not have Victim-Row-Refresh (VRR) command!")
  else
    vrr ← get_command_id spec "VRR";
    act ← get_command_id spec "ACT";
    rd ← get_command_id spec "RD";
    wr ← get_command_id spec "WR";
    rank ← get_level_id spec "Rank";
    _ ← get_level_id spec "Bank";
    row ← get_level_id spec "Row";
    col ← get_level_id spec "Column";
    ranks ← get_level_size spec "Rank";
    let num_banks := length (m_bank_nodes (m_device c)) in
    banks_per_rank ← div_s (Z.of_nat num_banks) ranks;
    rows ← get_level_size spec "Row";
    cols ← get_level_size spec "Column";
    let num_cls := Z.quot cols 8 in
    period ← ns_to_clk spec (hp_reset_period_ns p);
    row_bits ← log2_s rows;
    _ ← log2_s banks_per_rank;
    counter_bits ← log2_bytes (hp_tracking_threshold p);
    gct_entries ← div_s rows (hp_row_group_size p);
    gct_bits ← log2_s gct_entries;
    let set_num := Z.quot (hp_rcc_num_per_rank p) 16 in
    rcc_bits ← log2_s set_num;
    let total_cl := Z.quot (rows * counter_bits) 512 in
    total_rows ← f32_ceil_s32 (SFdiv 24 128 (f32_of_Z total_cl) (f32_of_Z num_cls));
    per_row ← div_s (num_cls * 512) counter_bits;
    per_cl ← div_s 512 counter_bits;
    let group_cl := Z.quot (hp_row_group_size p * counter_bits) 512 in
    Ok (mkHydra
          (mkHydraConst (hp_tracking_threshold p) (hp_group_threshold p) (hp_row_group_size p) (hp_rcc_policy p) period
             vrr act rd wr rank row col banks_per_rank rows row_bits counter_bits gct_bits set_num rcc_bits
             (row_bits - rcc_bits) total_rows per_row per_cl group_cl)
          0 (replicate num_banks ∅) (replicate num_banks ∅) (replicate num_banks ∅)
          (replicate (Z.to_nat ranks) (replicate (Z.to_nat set_num) ∅)) 0 ∅).

Definition Hydra_pre_schedule (h : Hydra) : result Hydra :=
  clk ← inc_s32 (hy_clk h);
  e ← period_elapsed clk (hc_reset_period_clk (hy_const h));
  Ok (if (e : bool)
      then mkHydra (hy_const h) clk (map (fun _ => ∅) (m_gct h)) (map (fun _ => ∅) (m_rct h)) (map (fun _ => ∅) (m_rctct h))
             (map (map (fun _ => ∅)) (m_rcc h)) (hy_rnd_drawn h) (hy_stats h)
      else mkHydra (hy_const h) clk (m_gct h) (m_rct h) (m_rctct h) (m_rcc h) (hy_rnd_drawn h) (hy_stats h)).

(** ** Counter rows in DRAM *)
Definition generate_row_col_id (k : HydraConst) (workload_row : Z) : result (Z * Z) :=
  rct_row ← div_s workload_row (hc_rct_per_row k);
  r ← rem_s workload_row (hc_rct_per_row k);
  Ok (rct_row, Z.shiftl (Z.quot (r * hc_counter_bits k) 512) 3).

(** An activation and a column access of the counter's row, whose verdicts are
    ignored. *)
Definition issue_rct_access (is_write : bool) (workload_row : Z) (template : AddrVec_t) (h : Hydra) (c : Ctrl)
  : result (Hydra * Ctrl) :=
  let k := hy_const h in
  rc ← generate_row_col_id k workload_row;
  av ← vset template (hc_row_level k) rc.1;
  av ← vset av (hc_col_level k) rc.2;
  q ← priority_send c (Request_cmd av (hc_act_cmd_id k));
  q ← priority_send q.2 (Request_cmd av (if is_write then hc_wr_cmd_id k else hc_rd_cmd_id k));
  Ok (hy_bump (if is_write then "hydra_num_write_req" else "hydra_num_read_req") h, q.2).

Section hydra.
Context (order : gmap Z RCCEntry -> list (Z * RCCEntry)) (draw : nat -> Z).

(** The scan of the MIN_COUNT policy. *)
Definition min_tag (l : list (Z * RCCEntry)) : Z :=
  (foldl (fun (acc : Z * Z) e => if rcc_count e.2 <? acc.1 then (rcc_count e.2, e.1) else acc) (2 ^ 31 - 1, -1) l).2.

Definition get_tag_to_evict (h : Hydra) (set : gmap Z RCCEntry) : result (Z * Hydra) :=
  if bool_decide (hc_rcc_policy (hy_const h) = "RANDOM") then
    i ← rem_s (draw (hy_rnd_drawn h)) (Z.of_nat (size set));
    e ← vget (order set) i;
    Ok (e.1, hy_set_drawn h (S (hy_rnd_drawn h)))
  else if bool_decide (hc_rcc_policy (hy_const h) = "MIN_COUNT") then Ok (min_tag (order set), h)
  else Err (Throw ("Hydra: Unknown RCC eviction policy: " +:+ hc_rcc_policy (hy_const h))).

(** An activation of a reserved row. *)
Definition count_rct_row (h : Hydra) (c : Ctrl) (req : Request) (flat_bank row : Z) : result (Hydra * Ctrl) :=
  t ← vget (m_rctct h) flat_bank;
  let n := default 0 (t !! row) + 1 in
  let h := hy_bump "hydra_rctct_check" h in
  if hc_tracking_threshold (hy_const h) <=? n then
    c ← send_vrr c req (hc_vrr_cmd_id (hy_const h));
    l ← vset (m_rctct h) flat_bank (delete row t);
    Ok (hy_set_rctct (hy_bump "hydra_num_vrr" (hy_bump "hydra_num_vrr_rct" h)) l, c)
  else
    l ← vset (m_rctct h) flat_bank (<[row := n]> t);
    Ok (hy_set_rctct h l, c).

(** Start the counters of a group at the group threshold and write them out. *)
Definition init_group (h : Hydra) (c : Ctrl) (req : Request) (flat_bank gct_index : Z) : result (Hydra * Ctrl) :=
  let k := hy_const h in
  gct ← vget (m_gct h) flat_bank;
  let e := default (mkGCT 0 false) (gct !! gct_index) in
  if gct_initialized e then Ok (h, c)
  else
    gcts ← vset (m_gct h) flat_bank (<[gct_index := mkGCT (group_count e) true]> gct);
    let h := hy_bump "hydra_num_initialization" (hy_set_gct h gcts) in
    let start := gct_index * hc_row_group_size k in
    t ← vget (m_rct h) flat_bank;
    l ← vset (m_rct h) flat_bank
          (foldl (fun t i => <[start + i := hc_group_threshold k]> t) t (seqZ 0 (hc_row_group_size k)));
    foldM (fun (s : Hydra * Ctrl) i => issue_rct_access true (start + i * hc_rct_per_cl k) (addr_vec req) s.1 s.2)
      (hy_set_rct h l, c) (seqZ 0 (hc_group_rct_cl_size k)).

(** Make room in a full set, writing the victim back. *)
Definition evict_if_full (h : Hydra) (c : Ctrl) (rank rcc_index : Z) (set : gmap Z RCCEntry)
  : result (gmap Z RCCEntry * Hydra * Ctrl) :=
  if Z.of_nat (size set) =? 16 then
    p ← get_tag_to_evict h set;
    match set !! p.1 with
    | Some e =>
        q ← issue_rct_access true (rcc_row_id e) (addr_template e) p.2 c;
        h ← hy_put_rcc q.1 rank rcc_index (delete p.1 set);
        Ok (delete p.1 set, hy_bump "hydra_num_eviction" h, q.2)
    | None => Ok (set, p.2, c)
    end
  else Ok (set, h, c).

(** Count the row in the cache, fetching its counter first when it is not there;
    the entry as it then stands. *)
Definition count_in_rcc (h : Hydra) (c : Ctrl) (req : Request) (flat_bank row rank rcc_index rcc_tag : Z)
  : result (RCCEntry * Hydra * Ctrl) :=
  let h := hy_bump "hydra_rcc_check" h in
  sets ← vget (m_rcc h) rank;
  set ← vget sets rcc_index;
  match set !! rcc_tag with
  | None =>
      p ← evict_if_full (hy_bump "hydra_num_rcc_miss" h) c rank rcc_index set;
      let '(set, h, c) := p in
      q ← issue_rct_access false row (addr_vec req) (hy_bump "hydra_rct_check" h) c;
      let '(h, c) := q in
      t ← vget (m_rct h) flat_bank;
      let n := default 0 (t !! row) + 1 in
      l ← vset (m_rct h) flat_bank (<[row := n]> t);
      let e := mkRCC row flat_bank n true (addr_vec req) in
      h ← hy_put_rcc (hy_set_rct h l) rank rcc_index (<[rcc_tag := e]> set);
      Ok (e, h, c)
  | Some e =>
      let e := mkRCC (rcc_row_id e) (rcc_flat_bank_id e) (rcc_count e + 1) true (addr_template e) in
      h ← hy_put_rcc h rank rcc_index (<[rcc_tag := e]> set);
      t ← vget (m_rct h) flat_bank;
      l ← vset (m_rct h) flat_bank (<[row := default 0 (t !! row) + 1]> t);
      Ok (e, hy_set_rct h l, c)
  end.

(** Refresh the victims of a row whose counter reached the threshold. *)
Definition mitigate_if_hot (h : Hydra) (c : Ctrl) (req : Request) (flat_bank row rank rcc_index rcc_tag : Z) (e : RCCEntry)
  : result (Hydra * Ctrl) :=
  if hc_tracking_threshold (hy_const h) <=? rcc_count e then
    c ← send_vrr c req (hc_vrr_cmd_id (hy_const h));
    let h := hy_bump "hydra_num_vrr" h in
    sets ← vget (m_rcc h) rank;
    set ← vget sets rcc_index;
    h ← hy_put_rcc h rank rcc_index (<[rcc_tag := mkRCC (rcc_row_id e) (rcc_flat_bank_id e) 0 true (addr_template e)]> set);
    t ← vget (m_rct h) flat_bank;
    l ← vset (m_rct h) flat_bank (<[row := 0]> t);
    Ok (hy_set_rct h l, c)
  else Ok (h, c).

Definition Hydra_on_issue (h : Hydra) (c : Ctrl) (req : Request) : result (Hydra * Ctrl) :=
  act ← is_single_act (m_device c) req;
  if negb act then Ok (h, c)
  else
    let k := hy_const h in
    row ← vget (addr_vec req) (hc_row_level k);
    flat_bank ← get_flat_bank_id (m_device c) (addr_vec req);
    rank ← vget (addr_vec req) (hc_rank_level k);
    bank ← rem_s flat_bank (hc_num_banks_per_rank k);
    gct_index ← shr_s row (hc_row_address_bits k - hc_gct_index_bits k);
    mask ← shl_s 1 (hc_rcc_index_bits k);
    let rcc_index := Z.land row (mask - 1) in
    tag_row ← shr_s row (hc_row_address_bits k - hc_rcc_tag_row_bits k);
    tag_bank ← shl_s bank (hc_rcc_tag_row_bits k);
    let rcc_tag := Z.lor tag_row tag_bank in
    if row <? hc_total_rct_row_size k then count_rct_row h c req flat_bank row
    else
      let h := hy_bump "hydra_gct_check" h in
      gct ← vget (m_gct h) flat_bank;
      let e := default (mkGCT 0 false) (gct !! gct_index) in
      if group_count e <? hc_group_threshold k then
        l ← vset (m_gct h) flat_bank (<[gct_index := mkGCT (group_count e + 1) (gct_initialized e)]> gct);
        Ok (hy_set_gct h l, c)
      else
        p ← init_group h c req flat_bank gct_index;
        q ← count_in_rcc p.1 p.2 req flat_bank row rank rcc_index rcc_tag;
        let '(e, h, c) := q in
        mitigate_if_hot h c req flat_bank row rank rcc_index rcc_tag e.
End hydra.

#[export] Instance Hydra_plugin order draw : ControllerPlugin Hydra := {|
  pl_pre_schedule := fun h c => h ← Hydra_pre_schedule h; Ok (h, c);
  pl_on_issue := Hydra_on_issue order draw;
  pl_post_schedule := fun h c => Ok (h, c)
|}.
