(* ===== verification/HydraProps.v ===== *)
(** * Hydra bounds unmitigated activations

    Whatever level of the hierarchy counts a row, the counters amount to one
    estimate per row that an activation raises by at least one, that only a
    victim-row refresh or the end of the period lowers, and that stays below the
    tracking threshold.  The estimate is the abstract view of the four tables. *)

From Stdlib Require Import ZArith Lia SpecFloat.
From S2P Require Import Prelude Base Spec Node Timing TimingSpec Commands Standards.
From S2P Require Import Device DeviceFacts BankFSM DeviceProps Controller.
From S2P Require Import Scheduler GenericDDR ControllerFacts ControllerInv Refresh ControllerProps.
From S2P Require Import Examples CtrlExamples Plugins GrapheneProps PluginInst TRR Hydra.

Local Open Scope Z_scope.

(** ** The plugin keeps the controller's laws *)
Lemma rct_access_sends (w : bool) (row : Z) (av : AddrVec_t) (h h' : Hydra) (c c' : Ctrl) :
  issue_rct_access w row av h c = Ok (h', c') -> sends any_request c c'.
Proof.
  unfold issue_rct_access. intros (rc & _ & H)%bind_Ok. do 2 apply bind_Ok in H as (? & _ & H).
  apply bind_Ok in H as ([ok1 c1] & H1 & H). apply bind_Ok in H as ([ok2 c2] & H2 & [= <- <-]).
  eapply (sends_cons any_request); [| |exact H1|eapply (sends_cons any_request); [| |exact H2|constructor]]; done.
Qed.

Lemma init_group_sends (h h' : Hydra) (c c' : Ctrl) (req : Request) (b g : Z) :
  init_group h c req b g = Ok (h', c') -> sends any_request c c'.
Proof.
  unfold init_group. intros (gct & _ & H)%bind_Ok. destruct (gct_initialized _); [injection H as <- <-; constructor|].
  do 3 apply bind_Ok in H as (? & _ & H). apply (foldM_sends any_request (fun s : Hydra * Ctrl => s.2)) in H; [done|].
  intros [h1 c1] [h2 c2] i. cbn [fst snd]. apply rct_access_sends.
Qed.

Lemma evict_sends order draw (h h' : Hydra) (c c' : Ctrl) (rank i : Z) (set set' : gmap Z RCCEntry) :
  evict_if_full order draw h c rank i set = Ok (set', h', c') -> sends any_request c c'.
Proof.
  unfold evict_if_full. destruct (_ =? _); [|intros [= <- <- <-]; constructor]. intros (p & _ & H)%bind_Ok.
  destruct (set !! p.1); [|injection H as <- <- <-; constructor]. apply bind_Ok in H as ([h1 c1] & Ha & H).
  apply bind_Ok in H as (h2 & _ & [= <- <- <-]). by eapply rct_access_sends.
Qed.

#[export] Instance Hydra_laws order draw : @PluginLaws any_request Hydra (Hydra_plugin order draw).
Proof.
  split; intros g g' c c'; [|intros r|]; intros H; simpl in H; [inv_res; constructor| |inv_res; constructor].
  unfold Hydra_on_issue in H. apply bind_Ok in H as (act & _ & H). destruct (negb act); [injection H as <- <-; constructor|].
  do 8 apply bind_Ok in H as (? & _ & H). destruct (_ <? _); [unfold count_rct_row in H; inv_res; solve_sends|].
  apply bind_Ok in H as (t & _ & H). destruct (_ <? _); [apply bind_Ok in H as (? & _ & [= <- <-]); constructor|].
  apply bind_Ok in H as ([h1 c1] & H1%init_group_sends & H). apply bind_Ok in H as ([[e h2] c2] & H2 & H). cbn [fst snd] in *.
  eapply sends_trans; [exact H1|]. apply (sends_trans _ _ c2); [|unfold mitigate_if_hot in H; solve_sends].
  unfold count_in_rcc in H2. do 2 apply bind_Ok in H2 as (? & _ & H2). destruct (_ !! _); [inv_res; simplify_eq; constructor|].
  apply bind_Ok in H2 as ([[st h3] c3] & H3%evict_sends & H2). apply bind_Ok in H2 as ([h4 c4] & H4%rct_access_sends & H2). inv_res. simplify_eq.
  by eapply sends_trans.
Qed.

(** ** Per-bank tables *)
Definition tab {A} (l : list (gmap Z A)) (b k : Z) : option A :=
  match vget l b with Ok t => t !! k | Err _ => None end.

Lemma tab_set {A} (l l' : list (gmap Z A)) (b : Z) (t : gmap Z A) :
  vset l b t = Ok l' -> forall b' k, tab l' b' k = if b' =? b then t !! k else tab l b' k.
Proof. intros Hs b' k. unfold tab. rewrite (vget_vset _ _ _ _ _ Hs). by destruct (b' =? b). Qed.

Lemma tab_get {A} (l : list (gmap Z A)) (b k : Z) (t : gmap Z A) : vget l b = Ok t -> tab l b k = t !! k.
Proof. unfold tab. by intros ->. Qed.

Lemma tab_clear {A B} (l : list (gmap Z B)) (b k : Z) : tab (map (fun _ => (∅ : gmap Z A)) l) b k = None.
Proof.
  unfold tab. destruct (vget _ b) as [t|] eqn:Ht; [|done]. apply vget_Ok in Ht as [_ Ht].
  apply list_lookup_fmap_Some in Ht as (? & -> & _). apply lookup_empty.
Qed.

Lemma tab_empty {A} (n : nat) (b k : Z) : tab (replicate n (∅ : gmap Z A)) b k = None.
Proof.
  unfold tab. destruct (vget _ b) as [t|] eqn:Ht; [|done]. apply vget_Ok in Ht as [_ [-> _]%lookup_replicate]. apply lookup_empty.
Qed.

(** The cache: rank, set, tag. *)
Definition rtab (l : list (list (gmap Z RCCEntry))) (rank index tag : Z) : option RCCEntry :=
  match vget l rank with Ok sets => tab sets index tag | Err _ => None end.

Lemma put_rcc_spec (h h' : Hydra) (rank index : Z) (set : gmap Z RCCEntry) :
  hy_put_rcc h rank index set = Ok h' ->
  exists l, h' = hy_set_rcc h l /\ forall r i t, rtab l r i t = if (r =? rank) && (i =? index) then set !! t else rtab (m_rcc h) r i t.
Proof.
  unfold hy_put_rcc. intros (sets & Hs & H)%bind_Ok. apply bind_Ok in H as (sets' & Hs' & H). apply bind_Ok in H as (l & Hl & [= <-]).
  exists l. split; [done|]. intros r i t. unfold rtab. rewrite (vget_vset _ _ _ _ _ Hl). destruct (Z.eqb_spec r rank) as [->|]; [|done].
  rewrite Hs, (tab_set _ _ _ _ Hs'). by destruct (i =? index).
Qed.

Lemma rtab_get (h : Hydra) (rank index tag : Z) (sets : list (gmap Z RCCEntry)) (set : gmap Z RCCEntry) :
  vget (m_rcc h) rank = Ok sets -> vget sets index = Ok set -> rtab (m_rcc h) rank index tag = set !! tag.
Proof. intros H1 H2. unfold rtab. rewrite H1. by apply tab_get. Qed.

(** ** Keys of the cache *)
Definition key_index (ib row : Z) : Z := Z.land row (Z.shiftl 1 ib - 1).
Definition key_tag (a ib bank row : Z) : Z := Z.lor (Z.shiftr row (a - (a - ib))) (Z.shiftl bank (a - ib)).

Lemma key_inj (a ib bank row bank' row' : Z) :
  0 <= ib <= a -> 0 <= row < 2 ^ a -> 0 <= row' < 2 ^ a -> key_index ib row = key_index ib row' ->
  key_tag a ib bank row = key_tag a ib bank' row' -> row = row' /\ bank = bank'.
Proof.
  intros Hib Hr Hr' Hi Ht. unfold key_index, key_tag in *. replace (a - (a - ib)) with ib in Ht by lia.
  assert (Z.shiftl 1 ib - 1 = Z.ones ib) as E by (rewrite Z.ones_equiv, Z.shiftl_1_l; lia). rewrite E, !Z.land_ones in Hi by lia.
  assert (Hp : forall r, 0 <= r < 2 ^ a -> 0 <= Z.shiftr r ib < 2 ^ (a - ib)).
  { intros r Hr0. rewrite Z.shiftr_div_pow2 by lia. split; [apply Z.div_pos; lia|]. apply Z.div_lt_upper_bound; [lia|].
    rewrite <- Z.pow_add_r by lia. replace (ib + (a - ib)) with a by lia. lia. }
  rewrite !lor_disjoint, !Z.shiftr_div_pow2 in Ht by (lia || by apply Hp).
  pose proof (Hp row Hr) as P. pose proof (Hp row' Hr') as P'. rewrite Z.shiftr_div_pow2 in P, P' by lia.
  assert (row / 2 ^ ib = row' / 2 ^ ib /\ bank = bank') as [D ->].
  { assert (0 < 2 ^ (a - ib)) by lia. split.
    - rewrite <- (Z.mod_small (row / 2 ^ ib) (2 ^ (a - ib))), <- (Z.mod_small (row' / 2 ^ ib) (2 ^ (a - ib))) by lia.
      rewrite <- (Z.mod_add (row / 2 ^ ib) bank), <- (Z.mod_add (row' / 2 ^ ib) bank') by lia. by rewrite Ht.
    - nia. }
  split; [|done]. rewrite (Z.div_mod row (2 ^ ib)), (Z.div_mod row' (2 ^ ib)) by lia. congruence.
Qed.

(** ** The abstract view *)
Definition entry (h : Hydra) (b g : Z) : GCTEntry := default (mkGCT 0 false) (tab (m_gct h) b g).
Definition rct_of (h : Hydra) (b row : Z) : Z := default 0 (tab (m_rct h) b row).
Definition group_of (k : HydraConst) (row : Z) : Z := Z.shiftr row (hc_row_address_bits k - hc_gct_index_bits k).

Definition est (h : Hydra) (b row : Z) : Z :=
  if row <? hc_total_rct_row_size (hy_const h) then default 0 (tab (m_rctct h) b row)
  else let e := entry h b (group_of (hy_const h) row) in if gct_initialized e then rct_of h b row else group_count e.

(** The sizes the counters are indexed with. *)
Record hydra_fits (k : HydraConst) : Prop := {
  hf_rows : hc_num_rows_per_bank k = 2 ^ hc_row_address_bits k;
  hf_shift : 0 <= hc_row_address_bits k - hc_gct_index_bits k;
  hf_group : hc_row_group_size k = 2 ^ (hc_row_address_bits k - hc_gct_index_bits k);
  hf_tag : hc_rcc_tag_row_bits k = hc_row_address_bits k - hc_rcc_index_bits k;
  hf_threshold : 0 <= hc_group_threshold k < hc_tracking_threshold k;
  hf_banks : 0 < hc_num_banks_per_rank k
}.

Record hydra_inv (k : HydraConst) (h : Hydra) : Prop := {
  hi_const : hy_const h = k;
  hi_group : forall b g, 0 <= group_count (entry h b g) <= hc_group_threshold k /\
    (gct_initialized (entry h b g) = true -> group_count (entry h b g) = hc_group_threshold k);
  hi_rcc : forall rank i t e, rtab (m_rcc h) rank i t = Some e ->
    0 <= rcc_row_id e < hc_num_rows_per_bank k /\ rank = rcc_flat_bank_id e / hc_num_banks_per_rank k /\
    i = key_index (hc_rcc_index_bits k) (rcc_row_id e) /\
    t = key_tag (hc_row_address_bits k) (hc_rcc_index_bits k) (rcc_flat_bank_id e mod hc_num_banks_per_rank k) (rcc_row_id e) /\
    gct_initialized (entry h (rcc_flat_bank_id e) (group_of k (rcc_row_id e))) = true /\
    rcc_count e = rct_of h (rcc_flat_bank_id e) (rcc_row_id e)
}.

(** Statistics and drawn numbers do not matter. *)
Definition same_tables (h h' : Hydra) : Prop :=
  hy_const h' = hy_const h /\ m_gct h' = m_gct h /\ m_rct h' = m_rct h /\ m_rctct h' = m_rctct h /\ m_rcc h' = m_rcc h.

Lemma same_tables_est (h h' : Hydra) (b row : Z) : same_tables h h' -> est h' b row = est h b row.
Proof. intros (E1 & E2 & E3 & E4 & _). unfold est, entry, rct_of. by rewrite E1, E2, E3, E4. Qed.

Lemma same_tables_inv (k : HydraConst) (h h' : Hydra) : same_tables h h' -> hydra_inv k h -> hydra_inv k h'.
Proof.
  intros (E1 & E2 & E3 & _ & E5) [C G R]. split; unfold entry, rct_of in *; [congruence|by rewrite E2|]. by rewrite E2, E3, E5.
Qed.

Lemma same_tables_refl (h : Hydra) : same_tables h h.
Proof. by split_and!. Qed.

Lemma same_tables_trans (h1 h2 h3 : Hydra) : same_tables h1 h2 -> same_tables h2 h3 -> same_tables h1 h3.
Proof. unfold same_tables. intuition congruence. Qed.

Lemma same_tables_bump (h : Hydra) (name : string) : same_tables h (hy_bump name h).
Proof. by split_and!. Qed.
#[local] Hint Resolve same_tables_refl same_tables_bump same_tables_trans : core.

(** ** What is sent *)
Definition access_of (k : HydraConst) (r : Request) : Prop :=
  exists av cmd, r = Request_cmd av cmd /\ (cmd = hc_act_cmd_id k \/ cmd = hc_rd_cmd_id k \/ cmd = hc_wr_cmd_id k).

Lemma rct_access_ok (w : bool) (row : Z) (av : AddrVec_t) (h h' : Hydra) (c c' : Ctrl) :
  issue_rct_access w row av h c = Ok (h', c') ->
  same_tables h h' /\ exists rs, send_all c rs = Ok c' /\ Forall (access_of (hy_const h)) rs.
Proof.
  unfold issue_rct_access. intros (rc & _ & H)%bind_Ok. apply bind_Ok in H as (av1 & _ & H). apply bind_Ok in H as (av2 & _ & H).
  apply bind_Ok in H as ([ok1 c1] & H1 & H). apply bind_Ok in H as ([ok2 c2] & H2 & [= <- <-]). split; [auto|].
  exists [Request_cmd av2 (hc_act_cmd_id (hy_const h)); Request_cmd av2 (if w then hc_wr_cmd_id (hy_const h) else hc_rd_cmd_id (hy_const h))].
  split; [eapply send_all_cons; [exact H1|eapply send_all_cons; [exact H2|reflexivity]]|].
  repeat constructor; eexists _, _; (split; [reflexivity|]); destruct w; auto.
Qed.

Lemma rct_accesses_ok {A} (w : bool) (row : A -> Z) (av : AddrVec_t) (l : list A) (h h' : Hydra) (c c' : Ctrl) :
  foldM (fun (s : Hydra * Ctrl) i => issue_rct_access w (row i) av s.1 s.2) (h, c) l = Ok (h', c') ->
  same_tables h h' /\ exists rs, send_all c rs = Ok c' /\ Forall (access_of (hy_const h)) rs.
Proof.
  revert h c. induction l as [|i l IH]; intros h c H; [injection H as <- <-; split; [auto|]; exists []; auto|].
  rewrite foldM_cons in H. apply bind_Ok in H as ([h1 c1] & H1 & H). cbn [fst snd] in H1.
  apply rct_access_ok in H1 as (S1 & rs1 & A1 & F1). apply IH in H as (S2 & rs2 & A2 & F2). split; [eauto|].
  exists (rs1 ++ rs2). split; [by eapply send_all_app|]. apply Forall_app. split; [done|]. by rewrite (proj1 S1) in F2.
Qed.

Lemma send_vrr_all (c c' : Ctrl) (req : Request) (vrr : Z) :
  send_vrr c req vrr = Ok c' -> send_all c [Request_cmd (addr_vec req) vrr] = Ok c'.
Proof. unfold send_vrr. intros ([ok c1] & H & [= <-])%bind_Ok. by eapply send_all_cons. Qed.

(** ** Steps *)
Section steps.
Context (order : gmap Z RCCEntry -> list (Z * RCCEntry)) (draw : nat -> Z) (k : HydraConst) (HF : hydra_fits k).

Definition in_range (row : Z) : Prop := 0 <= row < hc_num_rows_per_bank k.
Definition bounded (h : Hydra) : Prop := forall b row, in_range row -> est h b row < hc_tracking_threshold k.

(** An activation of [row] was counted, or mitigated. *)
Definition counted (h h' : Hydra) (b row : Z) (vrr : bool) : Prop :=
  (forall b' r, in_range r -> upd2 (est h) b row (if vrr then 0 else est h b row + 1) b' r <= est h' b' r) /\
  (bounded h -> bounded h').

Lemma counted_exact (h h' : Hydra) (b row : Z) (vrr : bool) :
  (forall b' r, in_range r -> est h' b' r = upd2 (est h) b row (if vrr then 0 else est h b row + 1) b' r) ->
  (vrr = false -> est h b row + 1 < hc_tracking_threshold k) -> counted h h' b row vrr.
Proof.
  intros He Hv. destruct (hf_threshold k HF). split; [intros b' r Hr; rewrite He by done; lia|]. intros Hb b' r Hr. rewrite He by done.
  unfold upd2, upd. destruct (b' =? b); [|by apply Hb]. destruct (r =? row); [|by apply Hb]. destruct vrr; [lia|by apply Hv].
Qed.

Definition vrr_of (req : Request) : Request := Request_cmd (addr_vec req) (hc_vrr_cmd_id k).
Definition vrr_if (vrr : bool) (req : Request) : list Request := if vrr then [vrr_of req] else [].

Lemma count_rct_row_ok (h h' : Hydra) (c c' : Ctrl) (req : Request) (b row : Z) :
  hydra_inv k h -> row < hc_total_rct_row_size k -> count_rct_row h c req b row = Ok (h', c') ->
  hydra_inv k h' /\ exists vrr, send_all c (vrr_if vrr req) = Ok c' /\ counted h h' b row vrr.
Proof.
  intros HI Hrow. pose proof (hi_const k h HI) as EC. unfold count_rct_row. cbn [hy_const hy_bump]. rewrite EC.
  intros (t & Ht & H)%bind_Ok.
  assert (Hest : est h b row = default 0 (t !! row)).
  { unfold est. rewrite EC. destruct (Z.ltb_spec row (hc_total_rct_row_size k)); [|lia]. by rewrite (tab_get _ _ _ _ Ht). }
  assert (Hset : forall h1 l t' v, same_tables h h1 -> vset (m_rctct h) b t' = Ok l -> default 0 (t' !! row) = v ->
    (forall r, r <> row -> t' !! r = t !! r) -> hydra_inv k (hy_set_rctct h1 l) /\
    forall b' r, est (hy_set_rctct h1 l) b' r = upd2 (est h) b row v b' r).
  { intros h1 l t' v (E1 & E2 & E3 & _ & E5) Hl Hv Hne. split.
    - destruct HI as [_ G R]. split; unfold entry, rct_of in *; cbn; [congruence|by rewrite E2|]. by rewrite E2, E3, E5.
    - intros b' r. unfold est, entry, rct_of, upd2, upd. cbn. rewrite E1, E2, E3, EC, (tab_set _ _ _ _ Hl).
      destruct (Z.eqb_spec b' b) as [->|]; [|done]. destruct (Z.eqb_spec r row) as [->|Hr].
      + destruct (Z.ltb_spec row (hc_total_rct_row_size k)); [done|lia].
      + by rewrite Hne, (tab_get _ _ _ _ Ht). }
  destruct (Z.leb_spec (hc_tracking_threshold k) (default 0 (t !! row) + 1)).
  - apply bind_Ok in H as (c1 & Hs & H). apply bind_Ok in H as (l & Hl & [= <- <-]). apply send_vrr_all in Hs.
    edestruct (Hset (hy_bump "hydra_num_vrr" (hy_bump "hydra_num_vrr_rct" (hy_bump "hydra_rctct_check" h))) l) as [HI' He];
      [eauto|exact Hl|by rewrite lookup_delete_eq|by intros; apply lookup_delete_ne|]. split; [exact HI'|].
    exists true. split; [exact Hs|]. by apply counted_exact; [intros; apply He|].
  - apply bind_Ok in H as (l & Hl & [= <- <-]).
    edestruct (Hset (hy_bump "hydra_rctct_check" h) l) as [HI' He];
      [eauto|exact Hl|by rewrite lookup_insert_eq|by intros; apply lookup_insert_ne|]. split; [exact HI'|].
    exists false. split; [done|]. apply counted_exact; [intros; rewrite Hest; apply He|lia].
Qed.

(** Counting the whole group. *)
Lemma count_group_ok (h : Hydra) (b row : Z) (t : gmap Z GCTEntry) (l : list (gmap Z GCTEntry)) :
  let e := entry h b (group_of k row) in
  hydra_inv k h -> in_range row -> hc_total_rct_row_size k <= row -> vget (m_gct h) b = Ok t ->
  group_count e < hc_group_threshold k ->
  vset (m_gct h) b (<[group_of k row := mkGCT (group_count e + 1) (gct_initialized e)]> t) = Ok l ->
  hydra_inv k (hy_set_gct h l) /\ counted h (hy_set_gct h l) b row false.
Proof.
  intros e HI Hr Hrow Ht Hlt Hl. pose proof (hi_const k h HI) as EC. destruct (hi_group k h HI b (group_of k row)) as [Hg Hi]. fold e in Hg, Hi.
  assert (gct_initialized e = false) as He by (destruct (gct_initialized e); [specialize (Hi eq_refl); lia|done]).
  assert (Hent : forall b' g, entry (hy_set_gct h l) b' g =
    if (b' =? b) && (g =? group_of k row) then mkGCT (group_count e + 1) false else entry h b' g).
  { intros b' g. unfold entry at 1. cbn. rewrite (tab_set _ _ _ _ Hl), He. destruct (Z.eqb_spec b' b) as [->|]; [|done].
    destruct (Z.eqb_spec g (group_of k row)) as [->|]; [by rewrite lookup_insert_eq|]. rewrite lookup_insert_ne by done.
    unfold entry. by rewrite (tab_get _ _ _ _ Ht). }
  split.
  - split; [done| |].
    + intros b' g. rewrite Hent. destruct (_ && _); [cbn; lia|apply HI].
    + intros rank i tg x Hx. destruct (hi_rcc k h HI rank i tg x Hx) as (R1 & R2 & R3 & R4 & R5 & R6).
      split; [exact R1|]. split_and!; try done.
      rewrite Hent. destruct (_ && _) eqn:Hb; [|done]. exfalso. rewrite andb_true_iff, !Z.eqb_eq in Hb. destruct Hb as [E1 E2].
      rewrite E1, E2 in R5. fold e in R5. congruence.
  - assert (Hest : forall b' r, in_range r -> est (hy_set_gct h l) b' r =
      if (b' =? b) && (hc_total_rct_row_size k <=? r) && (group_of k r =? group_of k row) then est h b row + 1 else est h b' r).
    { intros b' r _. unfold est. cbn. rewrite EC, Hent. fold e. rewrite He. destruct (Z.ltb_spec row (hc_total_rct_row_size k)); [lia|].
      destruct (Z.ltb_spec r (hc_total_rct_row_size k)), (Z.leb_spec (hc_total_rct_row_size k) r); try lia;
        rewrite ?andb_true_r, ?andb_false_r; [done|]. by destruct ((b' =? b) && _). }
    assert (Hgrp : forall r, hc_total_rct_row_size k <= r -> group_of k r = group_of k row -> est h b r = est h b row).
    { intros r Hr1 Hr2. unfold est. rewrite EC, Hr2. fold e. rewrite He.
      destruct (Z.ltb_spec row (hc_total_rct_row_size k)), (Z.ltb_spec r (hc_total_rct_row_size k)); lia. }
    assert (Hmine : est h b row = group_count e).
    { unfold est. rewrite EC. fold e. rewrite He. destruct (Z.ltb_spec row (hc_total_rct_row_size k)); lia. }
    pose proof (hf_threshold k HF) as Hth. split.
    + intros b' r Hr'. rewrite Hest by done. unfold upd2, upd. destruct (Z.eqb_spec b' b) as [->|]; [|done]. cbn [andb].
      destruct (Z.eqb_spec r row) as [->|].
      * rewrite Z.eqb_refl, andb_true_r. destruct (Z.leb_spec (hc_total_rct_row_size k) row); lia.
      * destruct (_ && _) eqn:Hg'; [|lia]. rewrite andb_true_iff, Z.leb_le, Z.eqb_eq in Hg'. rewrite (Hgrp r); [lia|tauto|tauto].
    + intros Hb b' r Hr'. rewrite Hest by done. destruct (_ && _); [lia|by apply Hb].
Qed.

(** ** Starting the counters of a group *)
Lemma fill_lookup (start v : Z) (l : list Z) (t : gmap Z Z) (r : Z) :
  foldl (fun t i => <[start + i := v]> t) t l !! r = if bool_decide (r - start ∈ l) then Some v else t !! r.
Proof.
  revert t. induction l as [|i l IH]; intros t; cbn [foldl].
  - by rewrite bool_decide_false by (by intros ?%elem_of_nil).
  - rewrite IH. destruct (decide (r - start = i)) as [<-|Hne].
    + rewrite (bool_decide_true (r - start ∈ r - start :: l)) by (by left). case_bool_decide; [done|].
      replace (start + (r - start)) with r by lia. by rewrite lookup_insert_eq.
    + assert (r - start ∈ i :: l <-> r - start ∈ l) as E by (rewrite elem_of_cons; naive_solver). rewrite (bool_decide_ext _ _ E).
      case_bool_decide; [done|]. rewrite lookup_insert_ne by lia. done.
Qed.

Lemma group_rows (g r : Z) : group_of k r = g <-> r - g * hc_row_group_size k ∈ seqZ 0 (hc_row_group_size k).
Proof.
  destruct HF as [_ Hs Hg _ _ _]. unfold group_of. rewrite Z.shiftr_div_pow2 by done. rewrite <- Hg, elem_of_seqZ.
  assert (0 < hc_row_group_size k) by (rewrite Hg; lia). pose proof (Z.div_mod r (hc_row_group_size k)).
  pose proof (Z.mod_pos_bound r (hc_row_group_size k)). split; [intros <-; lia|]. intros Hr. symmetry.
  apply (Z.div_unique_pos r _ g (r - g * hc_row_group_size k)); lia.
Qed.

Lemma start_group_ok (h : Hydra) (b row : Z) (gct : gmap Z GCTEntry) (gcts : list (gmap Z GCTEntry)) (t : gmap Z Z) (l : list (gmap Z Z)) :
  let g := group_of k row in let e := entry h b g in
  let h' := hy_set_rct (hy_bump "hydra_num_initialization" (hy_set_gct h gcts)) l in
  hydra_inv k h -> gct_initialized e = false -> hc_group_threshold k <= group_count e ->
  vget (m_gct h) b = Ok gct -> vset (m_gct h) b (<[g := mkGCT (group_count e) true]> gct) = Ok gcts ->
  vget (m_rct h) b = Ok t ->
  vset (m_rct h) b (foldl (fun t i => <[g * hc_row_group_size k + i := hc_group_threshold k]> t) t (seqZ 0 (hc_row_group_size k))) = Ok l ->
  hydra_inv k h' /\ gct_initialized (entry h' b g) = true /\ forall b' r, est h' b' r = est h b' r.
Proof.
  intros g e h' HI He Hge Hgct Hgs Ht Hl. pose proof (hi_const k h HI) as EC. destruct (hi_group k h HI b g) as [Hg _]. fold e in Hg.
  assert (Hent : forall b' x, entry h' b' x = if (b' =? b) && (x =? g) then mkGCT (hc_group_threshold k) true else entry h b' x).
  { intros b' x. unfold entry at 1. cbn. rewrite (tab_set _ _ _ _ Hgs). destruct (Z.eqb_spec b' b) as [->|]; [|done].
    destruct (Z.eqb_spec x g) as [->|]; [rewrite lookup_insert_eq; cbn; f_equal; lia|]. rewrite lookup_insert_ne by done.
    unfold entry. by rewrite (tab_get _ _ _ _ Hgct). }
  assert (Hrct : forall b' r, rct_of h' b' r = if (b' =? b) && (group_of k r =? g) then hc_group_threshold k else rct_of h b' r).
  { intros b' r. unfold rct_of at 1. cbn. rewrite (tab_set _ _ _ _ Hl). destruct (Z.eqb_spec b' b) as [->|]; [|done].
    rewrite fill_lookup. pose proof (group_rows g r) as Hgr. destruct (Z.eqb_spec (group_of k r) g) as [Eg|Eg].
    - by rewrite bool_decide_true by tauto.
    - rewrite bool_decide_false by tauto. unfold rct_of. by rewrite (tab_get _ _ _ _ Ht). }
  split; [|split].
  - split; [done| |].
    + intros b' x. rewrite Hent. destruct (_ && _); [|apply HI]. cbn. split; [|done]. destruct (hf_threshold k HF). lia.
    + intros rank i tg x Hx. destruct (hi_rcc k h HI rank i tg x Hx) as (R1 & R2 & R3 & R4 & R5 & R6).
      split; [exact R1|]. rewrite Hent, Hrct. destruct (_ && _) eqn:Hb; [|by split_and!]. exfalso.
      rewrite andb_true_iff, !Z.eqb_eq in Hb. destruct Hb as [E1 E2]. rewrite E1, E2 in R5. fold e in R5. congruence.
  - by rewrite Hent, !Z.eqb_refl.
  - intros b' r. unfold est. cbn [hy_const h' hy_set_rct hy_bump hy_set_gct m_rctct]. rewrite EC. destruct (_ <? _); [done|].
    fold h'. rewrite Hent, Hrct. destruct ((b' =? b) && _) eqn:Hb; [|done]. rewrite andb_true_iff, !Z.eqb_eq in Hb. destruct Hb as [-> ->].
    fold e. rewrite He. cbn. lia.
Qed.

Lemma init_group_ok (h h' : Hydra) (c c' : Ctrl) (req : Request) (b row : Z) :
  hydra_inv k h -> hc_group_threshold k <= group_count (entry h b (group_of k row)) ->
  init_group h c req b (group_of k row) = Ok (h', c') ->
  hydra_inv k h' /\ gct_initialized (entry h' b (group_of k row)) = true /\ (forall b' r, est h' b' r = est h b' r) /\
  exists rs, send_all c rs = Ok c' /\ Forall (access_of k) rs.
Proof.
  intros HI Hge. pose proof (hi_const k h HI) as EC. unfold init_group. rewrite EC. intros (gct & Hgct & H)%bind_Ok.
  assert (default (mkGCT 0 false) (gct !! group_of k row) = entry h b (group_of k row)) as Ee by (unfold entry; by rewrite (tab_get _ _ _ _ Hgct)).
  rewrite Ee in H. destruct (gct_initialized (entry h b (group_of k row))) eqn:He.
  - injection H as <- <-. split_and!; try done. by exists [].
  - apply bind_Ok in H as (gcts & Hgs & H). apply bind_Ok in H as (t & Ht & H). apply bind_Ok in H as (l & Hl & H).
    destruct (start_group_ok h b row gct gcts t l HI He Hge Hgct Hgs Ht Hl) as (HI' & Hin & Hest).
    apply rct_accesses_ok in H as (HS & rs & Hs & Hrs). pose proof (proj1 (proj2 HS)) as Eg.
    split_and!; [by eapply same_tables_inv| | |].
    + unfold entry in *. by rewrite Eg.
    + intros b' r. by rewrite (same_tables_est _ _ _ _ HS).
    + exists rs. split; [done|]. cbn [hy_const hy_set_rct hy_bump hy_set_gct] in Hrs. by rewrite EC in Hrs.
Qed.

(** ** Counting one row *)
Context (Hib : 0 <= hc_rcc_index_bits k <= hc_row_address_bits k).

Definition rank_of (b : Z) : Z := b / hc_num_banks_per_rank k.
Definition index_of (row : Z) : Z := key_index (hc_rcc_index_bits k) row.
Definition tag_of (b row : Z) : Z := key_tag (hc_row_address_bits k) (hc_rcc_index_bits k) (b mod hc_num_banks_per_rank k) row.

(** An entry of the cache under the key of a row is the entry of that row. *)
Lemma rcc_entry_of (h : Hydra) (b row : Z) (e : RCCEntry) :
  hydra_inv k h -> in_range row -> rtab (m_rcc h) (rank_of b) (index_of row) (tag_of b row) = Some e ->
  rcc_row_id e = row /\ rcc_flat_bank_id e = b /\ rcc_count e = rct_of h b row.
Proof.
  intros HI Hr He. destruct (hi_rcc k h HI _ _ _ _ He) as (R1 & R2 & R3 & R4 & _ & R6). unfold in_range in Hr. rewrite (hf_rows k HF) in Hr, R1.
  destruct (key_inj (hc_row_address_bits k) (hc_rcc_index_bits k) (b mod hc_num_banks_per_rank k) row
    (rcc_flat_bank_id e mod hc_num_banks_per_rank k) (rcc_row_id e)) as [E1 E2]; [done|done|done|done|done|].
  assert (rcc_flat_bank_id e = b) as E3.
  { pose proof (hf_banks k HF). rewrite (Z.div_mod (rcc_flat_bank_id e) (hc_num_banks_per_rank k)), (Z.div_mod b (hc_num_banks_per_rank k)) by lia.
    unfold rank_of in R2. congruence. }
  by rewrite E3, <- E1 in *.
Qed.

(** Setting the counter of a row in the table and in the cache. *)
Lemma put_counter_ok (h h' : Hydra) (b row v : Z) (e : RCCEntry) :
  hydra_inv k h -> gct_initialized (entry h b (group_of k row)) = true -> in_range row -> hc_total_rct_row_size k <= row ->
  hy_const h' = hy_const h -> m_gct h' = m_gct h -> m_rctct h' = m_rctct h ->
  (forall b' r, rct_of h' b' r = if (b' =? b) && (r =? row) then v else rct_of h b' r) ->
  (forall x i t, rtab (m_rcc h') x i t =
     if (x =? rank_of b) && (i =? index_of row) && (t =? tag_of b row) then Some e else rtab (m_rcc h) x i t) ->
  rcc_row_id e = row -> rcc_flat_bank_id e = b -> rcc_count e = v ->
  hydra_inv k h' /\ gct_initialized (entry h' b (group_of k row)) = true /\ forall b' r, est h' b' r = upd2 (est h) b row v b' r.
Proof.
  intros HI Hin Hr Hrow EC Eg Ect Hrct Hrcc E1 E2 E3. pose proof (hi_const k h HI) as EK.
  assert (Hent : forall b' g, entry h' b' g = entry h b' g) by (intros; unfold entry; by rewrite Eg).
  split; [|split].
  - split; [congruence|intros; rewrite Hent; apply HI|]. intros x i t f Hf. rewrite Hent, Hrct. rewrite Hrcc in Hf.
    destruct ((x =? _) && _ && _) eqn:Hk.
    + injection Hf as <-. rewrite !andb_true_iff, !Z.eqb_eq in Hk. destruct Hk as [[-> ->] ->].
      rewrite E1, E2, !Z.eqb_refl. by split_and!; try apply Hr.
    + destruct (hi_rcc k h HI x i t f Hf) as (R1 & R2 & R3 & R4 & R5 & R6). split; [exact R1|]. split_and!; try done.
      destruct ((rcc_flat_bank_id f =? b) && _) eqn:Hb; [|done]. exfalso. rewrite andb_true_iff, !Z.eqb_eq in Hb. destruct Hb as [F1 F2].
      rewrite F1, F2 in *. subst x i t. unfold rank_of, index_of, tag_of in Hk. by rewrite !Z.eqb_refl in Hk.
  - by rewrite Hent.
  - intros b' r. unfold est, upd2, upd. rewrite EC, EK, Ect, Hent, Hrct. destruct (Z.eqb_spec b' b) as [->|]; [|done].
    destruct (Z.eqb_spec r row) as [->|]; [|by rewrite andb_false_r]. destruct (Z.ltb_spec row (hc_total_rct_row_size k)); [lia|].
    by rewrite Hin.
Qed.

Lemma rct_of_set (h : Hydra) (b row v : Z) (t : gmap Z Z) (l : list (gmap Z Z)) :
  vget (m_rct h) b = Ok t -> vset (m_rct h) b (<[row := v]> t) = Ok l ->
  forall b' r, rct_of (hy_set_rct h l) b' r = if (b' =? b) && (r =? row) then v else rct_of h b' r.
Proof.
  intros Ht Hl b' r. unfold rct_of. cbn. rewrite (tab_set _ _ _ _ Hl). destruct (Z.eqb_spec b' b) as [->|]; [|done].
  destruct (Z.eqb_spec r row) as [->|]; [by rewrite lookup_insert_eq|]. rewrite lookup_insert_ne by done. by rewrite (tab_get _ _ _ _ Ht).
Qed.

(** The counters of the tables, whatever the cache holds. *)
Definition same_counters (h h' : Hydra) : Prop :=
  hy_const h' = hy_const h /\ m_gct h' = m_gct h /\ m_rct h' = m_rct h /\ m_rctct h' = m_rctct h.

Lemma evict_ok (h h' : Hydra) (c c' : Ctrl) (rank i : Z) (set set' : gmap Z RCCEntry) :
  (forall t, rtab (m_rcc h) rank i t = set !! t) -> evict_if_full order draw h c rank i set = Ok (set', h', c') ->
  same_counters h h' /\ (forall t, rtab (m_rcc h') rank i t = set' !! t) /\
  (forall r j t e, rtab (m_rcc h') r j t = Some e -> rtab (m_rcc h) r j t = Some e) /\
  exists rs, send_all c rs = Ok c' /\ Forall (access_of (hy_const h)) rs.
Proof.
  intros Hset. unfold evict_if_full. destruct (_ =? _); [|intros [= <- <- <-]; split_and!; try done; by exists []].
  intros ([tg h1] & Hp & H)%bind_Ok. cbn [fst snd] in H.
  assert (same_tables h h1) as S1.
  { unfold get_tag_to_evict in Hp. destruct (bool_decide _); [|destruct (bool_decide _); [by injection Hp as <- <-|done]].
    apply bind_Ok in Hp as (j & _ & Hp). apply bind_Ok in Hp as (x & _ & [= <- <-]). by split_and!. }
  destruct S1 as (E1 & E2 & E3 & E4 & E5). destruct (set !! tg) as [e|] eqn:He.
  - apply bind_Ok in H as ([h2 c2] & Ha & H). apply rct_access_ok in Ha as ((F1 & F2 & F3 & F4 & F5) & rs & Hs & Hrs). rewrite E1 in Hrs.
    apply bind_Ok in H as (h3 & Hput & [= <- <- <-]). apply put_rcc_spec in Hput as (l & -> & Hl). cbn [fst] in *.
    assert (m_rcc h2 = m_rcc h) as EM by congruence. rewrite EM in Hl. unfold same_counters. cbn.
    split_and!; try congruence; [| |by exists rs].
    + intros t. by rewrite Hl, !Z.eqb_refl.
    + intros r j t x. rewrite Hl. destruct (_ && _) eqn:Hb; [|done]. rewrite andb_true_iff, !Z.eqb_eq in Hb. destruct Hb as [-> ->].
      intros [_ Hx]%lookup_delete_Some. by rewrite Hset.
  - injection H as <- <- <-. unfold same_counters. rewrite E5. split_and!; try done. by exists [].
Qed.

Lemma evicted_inv (h h' : Hydra) :
  same_counters h h' -> (forall r j t e, rtab (m_rcc h') r j t = Some e -> rtab (m_rcc h) r j t = Some e) ->
  hydra_inv k h -> hydra_inv k h' /\ (forall b g, entry h' b g = entry h b g) /\ (forall b r, rct_of h' b r = rct_of h b r) /\
  forall b r, est h' b r = est h b r.
Proof.
  intros (E1 & E2 & E3 & E4) Hsub [C G R]. unfold est, entry, rct_of in *. rewrite E1, E2, E3, E4. split_and!; try done.
  split; unfold entry, rct_of; [congruence|by rewrite E2|]. rewrite E2, E3. intros. apply R. by apply Hsub.
Qed.

(** What counting and mitigating a row leave behind. *)
Definition counter_at (h h' : Hydra) (b row v : Z) (e : RCCEntry) : Prop :=
  hydra_inv k h' /\ gct_initialized (entry h' b (group_of k row)) = true /\
  rcc_row_id e = row /\ rcc_flat_bank_id e = b /\ rcc_count e = v /\
  forall b' r, est h' b' r = upd2 (est h) b row v b' r.

Lemma est_individual (h : Hydra) (b row : Z) :
  hydra_inv k h -> gct_initialized (entry h b (group_of k row)) = true -> hc_total_rct_row_size k <= row -> est h b row = rct_of h b row.
Proof.
  intros HI Hin Hrow. unfold est. rewrite (hi_const k h HI), Hin. by destruct (Z.ltb_spec row (hc_total_rct_row_size k)); [lia|].
Qed.

(** Writing the entry of a row into its set. *)
Lemma put_entry_rtab (h h' : Hydra) (b row : Z) (set : gmap Z RCCEntry) (e : RCCEntry) :
  (forall t, rtab (m_rcc h) (rank_of b) (index_of row) t = set !! t) ->
  hy_put_rcc h (rank_of b) (index_of row) (<[tag_of b row := e]> set) = Ok h' ->
  exists l, h' = hy_set_rcc h l /\ forall x i t, rtab l x i t =
     if (x =? rank_of b) && (i =? index_of row) && (t =? tag_of b row) then Some e else rtab (m_rcc h) x i t.
Proof.
  intros Hset (l & -> & Hl)%put_rcc_spec. exists l. split; [done|]. intros x i t. rewrite Hl.
  destruct (_ && (i =? _)) eqn:Hb; [|done]. rewrite andb_true_iff, !Z.eqb_eq in Hb. destruct Hb as [-> ->]. cbn [andb].
  destruct (Z.eqb_spec t (tag_of b row)) as [->|]; [by rewrite lookup_insert_eq|]. by rewrite lookup_insert_ne, Hset.
Qed.

Lemma count_in_rcc_ok (h h' : Hydra) (c c' : Ctrl) (req : Request) (b row : Z) (e : RCCEntry) :
  hydra_inv k h -> gct_initialized (entry h b (group_of k row)) = true -> in_range row -> hc_total_rct_row_size k <= row ->
  count_in_rcc order draw h c req b row (rank_of b) (index_of row) (tag_of b row) = Ok (e, h', c') ->
  counter_at h h' b row (est h b row + 1) e /\ exists rs, send_all c rs = Ok c' /\ Forall (access_of k) rs.
Proof.
  intros HI Hin Hr Hrow. rewrite est_individual by done. unfold count_in_rcc. cbn [m_rcc hy_bump]. pose proof (hi_const k h HI) as EC.
  intros (sets & Hsets & H)%bind_Ok. apply bind_Ok in H as (set & Hset & H).
  assert (Hrt : forall t, rtab (m_rcc h) (rank_of b) (index_of row) t = set !! t) by (intros; by eapply rtab_get).
  destruct (set !! tag_of b row) as [x|] eqn:Hx.
  - apply bind_Ok in H as (h1 & Hput & H). apply put_entry_rtab in Hput as (lr & -> & Hlr); [|exact Hrt].
    apply bind_Ok in H as (t & Ht & H). apply bind_Ok in H as (l & Hl & [= <- <- <-]). cbn [m_rct hy_set_rcc hy_bump] in Ht, Hl.
    rewrite <- Hrt in Hx. destruct (rcc_entry_of h b row x HI Hr Hx) as (E1 & E2 & E3).
    assert (Hd : default 0 (t !! row) = rct_of h b row) by (unfold rct_of; by rewrite (tab_get _ _ _ _ Ht)). rewrite Hd in Hl.
    set (e := mkRCC _ _ _ _ _) in *. split; [|by exists []].
    destruct (put_counter_ok h (hy_set_rct (hy_set_rcc (hy_bump "hydra_rcc_check" h) lr) l) b row (rct_of h b row + 1) e)
      as (HI' & Hin' & He); try done; [intros b' r; exact (rct_of_set h b row _ t l Ht Hl b' r)|cbn; lia|].
    split_and!; try done. cbn. lia.
  - apply bind_Ok in H as ([[set1 h1] c1] & Hev & H). apply evict_ok in Hev as (SC & Hrt1 & Hsub & rs1 & A1 & F1); [|exact Hrt].
    apply bind_Ok in H as ([h2 c2] & Ha & H). apply rct_access_ok in Ha as (ST & rs2 & A2 & F2).
    assert (SC2 : same_counters h h2) by (destruct SC as (?&?&?&?), ST as (?&?&?&?&?); split_and!; cbn in *; congruence).
    assert (m_rcc h2 = m_rcc h1) as ER by (apply ST).
    destruct (evicted_inv h h2 SC2) as (HI2 & Hent & Hrct & Hest); [rewrite ER; exact Hsub|exact HI|].
    apply bind_Ok in H as (t & Ht & H). apply bind_Ok in H as (l & Hl & H). apply bind_Ok in H as (h3 & Hput & [= <- <- <-]).
    apply put_entry_rtab in Hput as (lr & -> & Hlr); [|cbn; rewrite ER; exact Hrt1].
    assert (Hd : default 0 (t !! row) = rct_of h b row) by (rewrite <- Hrct; unfold rct_of; by rewrite (tab_get _ _ _ _ Ht)).
    rewrite Hd in Hl, Hlr |- *. set (e := mkRCC _ _ _ _ _) in *. split.
    + destruct (put_counter_ok h2 (hy_set_rcc (hy_set_rct h2 l) lr) b row (rct_of h b row + 1) e)
        as (HI' & Hin' & He); try done; [by rewrite Hent|intros b' r; exact (rct_of_set h2 b row _ t l Ht Hl b' r)|].
      split_and!; try done. intros b' r. rewrite He. unfold upd2, upd. destruct (b' =? b); [destruct (r =? row); [done|]|]; apply Hest.
    + exists (rs1 ++ rs2). split; [by eapply send_all_app|]. apply Forall_app. cbn in F1, F2. rewrite EC in F1. split; [done|].
      destruct SC as (E & _). cbn in E. by rewrite E, EC in F2.
Qed.

Lemma mitigate_ok (h h' : Hydra) (c c' : Ctrl) (req : Request) (b row : Z) (e : RCCEntry) :
  hydra_inv k h -> gct_initialized (entry h b (group_of k row)) = true -> in_range row -> hc_total_rct_row_size k <= row ->
  rcc_row_id e = row -> rcc_flat_bank_id e = b ->
  mitigate_if_hot h c req b row (rank_of b) (index_of row) (tag_of b row) e = Ok (h', c') ->
  hydra_inv k h' /\ exists vrr : bool, send_all c (vrr_if vrr req) = Ok c' /\
    (vrr = false -> rcc_count e < hc_tracking_threshold k) /\
    forall b' r, est h' b' r = if vrr then upd2 (est h) b row 0 b' r else est h b' r.
Proof.
  intros HI Hin Hr Hrow E1 E2. unfold mitigate_if_hot. rewrite (hi_const k h HI).
  destruct (Z.leb_spec (hc_tracking_threshold k) (rcc_count e)) as [_|Hcold]; [|intros [= <- <-]; split; [done|]; by exists false].
  intros (c1 & Hs%send_vrr_all & H)%bind_Ok. apply bind_Ok in H as (sets & Hsets & H). apply bind_Ok in H as (set & Hset & H).
  assert (Hrt : forall t, rtab (m_rcc h) (rank_of b) (index_of row) t = set !! t) by (intros; by eapply rtab_get).
  apply bind_Ok in H as (h1 & Hput & H). apply put_entry_rtab in Hput as (lr & -> & Hlr); [|exact Hrt].
  apply bind_Ok in H as (t & Ht & H). apply bind_Ok in H as (l & Hl & [= <- <-]). cbn [m_rct hy_set_rcc hy_bump] in Ht, Hl.
  set (e0 := mkRCC _ _ _ _ _) in *.
  destruct (put_counter_ok h (hy_set_rct (hy_set_rcc (hy_bump "hydra_num_vrr" h) lr) l) b row 0 e0) as (HI' & _ & He); try done.
  - intros b' r. exact (rct_of_set h b row _ t l Ht Hl b' r).
  - split; [exact HI'|]. by exists true.
Qed.
End steps.

Lemma shr_s_Ok (v n r : Z) : shr_s v n = Ok r -> r = Z.shiftr v n /\ 0 <= n.
Proof. unfold shr_s. destruct (_ && _) eqn:H; [|done]. intros [= <-]. split; [done|lia]. Qed.
Lemma shl_s_Ok (v n r : Z) : shl_s v n = Ok r -> r = Z.shiftl v n /\ 0 <= n.
Proof. unfold shl_s. destruct (_ && _) eqn:H; [|done]. intros [= <-]. split; [done|lia]. Qed.

(** One activation: the counters stand for one estimate per row, which is raised
    or, with a victim-row refresh, starts again. *)
Lemma Hydra_act_ok order draw (k : HydraConst) (h h' : Hydra) (c c' : Ctrl) (req : Request) (b row : Z) :
  hydra_fits k -> hydra_inv k h -> is_single_act (m_device c) req = Ok true ->
  get_flat_bank_id (m_device c) (addr_vec req) = Ok b -> 0 <= b -> vget (addr_vec req) (hc_row_level k) = Ok row -> in_range k row ->
  vget (addr_vec req) (hc_rank_level k) = Ok (rank_of k b) ->
  Hydra_on_issue order draw h c req = Ok (h', c') ->
  hydra_inv k h' /\ exists rs vrr, send_all c (rs ++ vrr_if k vrr req) = Ok c' /\ Forall (access_of k) rs /\ counted k h h' b row vrr.
Proof.
  intros HF HI Hact Hb Hb0 Hrow Hr Hrank H. pose proof (hi_const k h HI) as EC. unfold Hydra_on_issue in H. rewrite Hact, EC in H.
  cbn [mbind result_bind negb] in H. rewrite Hrow, Hb in H. cbn [mbind result_bind] in H. rewrite Hrank in H. cbn [mbind result_bind] in H.
  apply bind_Ok in H as (bank & Hbank & H). apply bind_Ok in H as (gi & [-> _]%shr_s_Ok & H). apply bind_Ok in H as (mask & [-> Hi0]%shl_s_Ok & H).
  apply bind_Ok in H as (tr & [-> _]%shr_s_Ok & H). apply bind_Ok in H as (tb & [-> Ht0]%shl_s_Ok & H). pose proof (hf_tag k HF) as Etag.
  assert (Hib : 0 <= hc_rcc_index_bits k <= hc_row_address_bits k) by lia.
  assert (bank = b mod hc_num_banks_per_rank k) as ->.
  { pose proof (hf_banks k HF). unfold rem_s in Hbank. destruct (_ =? 0); [done|]. injection Hbank as <-. apply Z.rem_mod_nonneg; lia. }
  rewrite Etag in H. change (Z.land row _) with (index_of k row) in H. change (Z.lor _ _) with (tag_of k b row) in H.
  destruct (Z.ltb_spec row (hc_total_rct_row_size k)) as [Hlt|Hge].
  { destruct (count_rct_row_ok k HF h h' c c' req b row HI Hlt H) as (HI' & vrr & Hs & Hc). split; [done|]. by exists [], vrr. }
  apply bind_Ok in H as (t & Ht & H). cbn [m_gct hy_bump] in Ht. fold (group_of k row) in H.
  assert (default (mkGCT 0 false) (t !! group_of k row) = entry h b (group_of k row)) as Ee by (unfold entry; by rewrite (tab_get _ _ _ _ Ht)).
  rewrite Ee in H. assert (HI0 : hydra_inv k (hy_bump "hydra_gct_check" h)) by (by eapply same_tables_inv; [apply same_tables_bump|]).
  destruct (Z.ltb_spec (group_count (entry h b (group_of k row))) (hc_group_threshold k)) as [Hlt|Hge2].
  - apply bind_Ok in H as (l & Hl & [= <- <-]).
    destruct (count_group_ok k HF _ b row t l HI0 Hr Hge Ht Hlt Hl) as [HI' Hc]. split; [done|]. by exists [], false.
  - apply bind_Ok in H as ([h1 c1] & Hinit & H). cbn [fst snd] in H.
    destruct (init_group_ok k HF _ h1 c c1 req b row HI0 Hge2 Hinit) as (HI1 & Hin1 & Hest1 & rs1 & A1 & F1).
    apply bind_Ok in H as ([[e h2] c2] & Hcnt & H).
    destruct (count_in_rcc_ok order draw k HF Hib h1 h2 c1 c2 req b row e HI1 Hin1 Hr Hge Hcnt)
      as ((HI2 & Hin2 & E1 & E2 & E3 & Hest2) & rs2 & A2 & F2).
    destruct (mitigate_ok k h2 h' c2 c' req b row e HI2 Hin2 Hr Hge E1 E2 H) as (HI3 & vrr & A3 & Hv & Hest3).
    split; [done|]. exists (rs1 ++ rs2), vrr. split_and!; [eapply send_all_app; [by eapply send_all_app|done]|by apply Forall_app|].
    rewrite Hest1 in E3. apply counted_exact; [done| |intros ->; specialize (Hv eq_refl); rewrite E3 in Hv; exact Hv].
    assert (Hest0 : forall b' r, est h1 b' r = est h b' r) by exact Hest1.
    intros b' r _. rewrite Hest3. destruct vrr; unfold upd2, upd in *.
    + destruct (b' =? b) eqn:Hb'; [destruct (r =? row) eqn:Hr'; [done|]|]; by rewrite Hest2, Hb', ?Hr', Hest0.
    + rewrite Hest2. by destruct (b' =? b); [destruct (r =? row)|]; rewrite Hest0.
Qed.

(** ** Ranks *)

(** A flat id is a mixed-radix number over the levels. *)
Lemma flat_radix (s : DRAMSpec) (av : AddrVec_t) (j : nat) (l : Z) :
  concrete s av l (l + Z.of_nat j) ->
  exists idx, 0 <= idx < Z.of_nat (bank_prod s j l) /\
    forall acc, foldM (flat_step s av) acc (seqZ (l + 1) (Z.of_nat j)) = Ok (acc * Z.of_nat (bank_prod s j l) + idx).
Proof.
  revert l. induction j as [|j IH]; intros l Hc.
  - exists 0. split; [cbn; lia|]. intros acc. rewrite seqZ_nil by done. cbn [foldM bank_prod]. f_equal. lia.
  - destruct (Hc (l + 1)) as (a & sz & Ha & Hsz & Hr); [lia|]. destruct (IH (l + 1)) as (idx & Hidx & Hf); [intros i Hi; apply Hc; lia|].
    assert (Z.of_nat (bank_prod s (S j) l) = sz * Z.of_nat (bank_prod s j (l + 1))) as ->.
    { cbn [bank_prod]. unfold size_at. rewrite Hsz. lia. }
    exists (a * Z.of_nat (bank_prod s j (l + 1)) + idx). set (P := Z.of_nat (bank_prod s j (l + 1))) in *.
    assert ((a + 1) * P <= sz * P) by (apply Z.mul_le_mono_nonneg_r; lia). assert (0 <= a * P) by (apply Z.mul_nonneg_nonneg; lia).
    split; [lia|]. intros acc. rewrite seqZ_cons by lia. rewrite foldM_cons. unfold flat_step at 2. rewrite Hsz, Ha. cbn [mbind result_bind].
    replace (Z.succ (l + 1)) with (l + 1 + 1) by lia. replace (Z.pred (Z.of_nat (S j))) with (Z.of_nat j) by lia. rewrite Hf.
    f_equal. nia.
Qed.

Definition on_spec (s : DRAMSpec) (d : DRAMDevice) : Prop :=
  dev_wf d /\ m_spec d = s /\ get_level_id s "Bank" = Ok (m_bank_level d).

(** The number of banks of a rank, whatever the state of the device. *)
Lemma bank_split (s : DRAMSpec) (d : DRAMDevice) :
  on_spec s d -> length (m_bank_nodes d) = (size_at s 1 * bank_prod s (Z.to_nat (m_bank_level d - 1)) 1)%nat.
Proof.
  intros (Hd & <- & _). destruct (dw_levels d Hd) as (r & _ & Hb & Hc). rewrite (dw_banks d Hd).
  rewrite (bank_count (m_spec d) r _ (Z.to_nat (m_bank_level d)) (m_root d) 0); [|lia|apply (dw_root d Hd)|lia|apply (dw_tree d Hd)|done].
  by replace (Z.to_nat (m_bank_level d)) with (S (Z.to_nat (m_bank_level d - 1))) by lia.
Qed.

Lemma flat_rank (s : DRAMSpec) (d d0 : DRAMDevice) (av : AddrVec_t) (b ranks per : Z) :
  on_spec s d0 -> on_spec s d -> concrete s av 0 (m_bank_level d) -> get_flat_bank_id d av = Ok b ->
  vget (level_sizes (organization s)) 1 = Ok ranks -> div_s (Z.of_nat (length (m_bank_nodes d0))) ranks = Ok per ->
  0 <= b < Z.of_nat (length (m_bank_nodes d0)) /\ 0 < per /\ vget av 1 = Ok (b / per).
Proof.
  intros H0 H Hc Hb Hs Hper. pose proof (bank_split s d0 H0) as N0. destruct H0 as (_ & _ & L0), H as (Hd & E & L).
  rewrite L in L0. injection L0 as L0. destruct (dw_levels d Hd) as (r & _ & Hbl & _).
  unfold size_at in N0. rewrite Hs, <- L0 in N0. set (j := Z.to_nat (m_bank_level d - 1)) in *.
  destruct (Hc 1) as (rank & sz & Hrank & Hsz & Hr); [lia|]. rewrite Hs in Hsz. injection Hsz as <-.
  destruct (flat_radix s av j 1) as (idx & Hidx & Hf); [intros i Hi; apply Hc; lia|].
  unfold get_flat_bank_id in Hb. rewrite E in Hb. rewrite seqZ_cons, foldM_cons, Hs, Hrank in Hb by lia. cbn [mbind result_bind] in Hb.
  replace (Z.pred (m_bank_level d)) with (Z.of_nat j) in Hb by lia.
  change (foldM (flat_step s av) (0 * ranks + rank) (seqZ (1 + 1) (Z.of_nat j)) = Ok b) in Hb. rewrite Hf in Hb. injection Hb as <-.
  unfold div_s in Hper. destruct (Z.eqb_spec ranks 0); [done|]. injection Hper as <-. rewrite N0.
  set (P := Z.of_nat (bank_prod s j 1)) in *. assert (Z.of_nat (Z.to_nat ranks * bank_prod s j 1) = ranks * P) as EN by (unfold P; lia).
  rewrite EN. assert (Z.quot (ranks * P) ranks = P) as -> by (rewrite Z.mul_comm; apply Z.quot_mul; lia).
  split_and!; [nia|nia|lia|]. rewrite Hrank. f_equal.
  apply (Z.div_unique_pos _ P rank idx); lia.
Qed.

(** ** What setup fixes *)
Definition std_hydra_okb (T : Standard) : bool :=
  let cs := set_names (Command T) in
  let lv := set_names (Level T) in
  let id name v := match cs !! name with
                   | Some x => negb (x =? v) && (0 <=? x) && (x <? Z.of_nat (length (Command T))) | None => true end in
  let level name := match lv !! name with Some l => (0 <=? l) && (l <? Z.of_nat (length (Level T))) | None => true end in
  match cs !! "VRR" with
  | None => true
  | Some v => bool_decide (lv !! "Rank" = Some 1) && id "ACT" v && id "RD" v && id "WR" v &&
              (0 <=? v) && (v <? Z.of_nat (length (Command T))) && level "Row" && level "Column"
  end.

Lemma registry_hydra_ok (T : Standard) : T ∈ registry -> std_hydra_okb T = true.
Proof.
  intros Hin. assert (forallb std_hydra_okb registry = true) as H by (vm_compute; reflexivity).
  rewrite forallb_forall in H. apply H. by apply list_elem_of_In.
Qed.

(** Command ids, levels and sizes on a device of the specification. *)
Record hydra_static (s : DRAMSpec) (k : HydraConst) : Prop := {
  hs_rank : hc_rank_level k = 1;
  hs_ids : forall cmd, cmd = hc_act_cmd_id k \/ cmd = hc_rd_cmd_id k \/ cmd = hc_wr_cmd_id k ->
    cmd <> hc_vrr_cmd_id k /\ 0 <= cmd < command_count s;
  hs_vrr : 0 <= hc_vrr_cmd_id k < command_count s;
  hs_levels : 0 <= hc_row_level k < level_count s /\ 0 <= hc_col_level k < level_count s;
  hs_banks : exists d ranks, on_spec s d /\ vget (level_sizes (organization s)) 1 = Ok ranks /\
    div_s (Z.of_nat (length (m_bank_nodes d))) ranks = Ok (hc_num_banks_per_rank k) /\ 0 < hc_num_banks_per_rank k;
  hs_bits : hc_row_address_bits k = Z.log2 (hc_num_rows_per_bank k) /\
    hc_gct_index_bits k = Z.log2 (Z.quot (hc_num_rows_per_bank k) (hc_row_group_size k)) /\
    hc_rcc_tag_row_bits k = hc_row_address_bits k - hc_rcc_index_bits k /\
    0 < hc_rcc_set_num k /\ hc_rcc_index_bits k = Z.log2 (hc_rcc_set_num k)
}.

Lemma Hydra_setup_static (T : Standard) (s : DRAMSpec) (c : Ctrl) (p : HydraParams) (h : Hydra) :
  T ∈ registry -> built_from T s -> on_spec s (m_device c) -> Hydra_setup c p = Ok h -> hydra_static s (hy_const h).
Proof.
  intros Hin HB Hon H. pose proof (registry_hydra_ok T Hin) as Hok. unfold std_hydra_okb in Hok. unfold Hydra_setup in H.
  pose proof Hon as (_ & Es & _). rewrite Es in H. unfold has_command, get_level_size, get_command_id, get_level_id in H.
  rewrite (bf_levels T _ HB), (bf_commands T _ HB) in H. set (lv := set_names (Level T)) in *. set (cs := set_names (Command T)) in *.
  destruct (cs !! "VRR") as [v|]; [|by rewrite bool_decide_false in H by (by intros [])].
  rewrite bool_decide_true in H by eauto. cbn [negb mbind result_bind] in H.
  destruct (cs !! "ACT") as [ia|]; [|done]. cbn [mbind result_bind] in H. destruct (cs !! "RD") as [ir|]; [|done].
  cbn [mbind result_bind] in H. destruct (cs !! "WR") as [iw|]; [|done]. cbn [mbind result_bind] in H.
  rewrite !andb_true_iff, bool_decide_eq_true in Hok. destruct Hok as (((((((E1 & I1) & I2) & I3) & V1) & V2) & L1) & L2). rewrite E1 in H.
  cbn [mbind result_bind] in H. destruct (lv !! "Bank") as [lb|]; [|done]. cbn [mbind result_bind] in H.
  destruct (lv !! "Row") as [lr|]; [|done]. cbn [mbind result_bind] in H. destruct (lv !! "Column") as [lc|]; [|done].
  cbn [mbind result_bind] in H. apply bind_Ok in H as (ranks & Hranks & H). apply bind_Ok in H as (per & Hper & H).
  apply bind_Ok in H as (rows & Hrows & H). apply bind_Ok in H as (cols & _ & H). apply bind_Ok in H as (period & _ & H).
  apply bind_Ok in H as (rb & Hrb & H). apply bind_Ok in H as (bb & Hbb & H). apply bind_Ok in H as (cb & _ & H).
  apply bind_Ok in H as (ge & Hge & H). apply bind_Ok in H as (gb & Hgb & H). apply bind_Ok in H as (rcb & Hrcb & H).
  apply bind_Ok in H as (tr & _ & H). apply bind_Ok in H as (pr & _ & H). apply bind_Ok in H as (pc & _ & [= <-]).
  unfold log2_s in Hrb, Hbb, Hgb, Hrcb. destruct (Z.leb_spec (Z.quot (hp_rcc_num_per_rank p) 16) 0); [done|]. injection Hrcb as <-.
  destruct (Z.leb_spec rows 0); [done|]. destruct (Z.leb_spec per 0); [done|]. destruct (Z.leb_spec ge 0); [done|].
  injection Hrb as <-. injection Hgb as <-. unfold div_s in Hge. destruct (_ =? 0); [done|]. injection Hge as <-.
  split; cbn; rewrite ?(bf_command_count T _ HB), ?(bf_level_count T _ HB); [done| |lia|lia| |done].
  - intros cmd [->|[->| ->]]; lia.
  - by exists (m_device c), ranks.
Qed.

Lemma Hydra_setup_empty (c : Ctrl) (p : HydraParams) (h : Hydra) :
  Hydra_setup c p = Ok h -> exists n r q, m_gct h = replicate n ∅ /\ m_rct h = replicate n ∅ /\ m_rctct h = replicate n ∅ /\
    m_rcc h = replicate r (replicate q ∅).
Proof. unfold Hydra_setup. intros H. case_match; [done|]. inv_res. subst. cbn. by do 3 eexists. Qed.

Lemma empty_tables_inv (k : HydraConst) (h : Hydra) :
  hy_const h = k -> 0 <= hc_group_threshold k -> (forall b g, tab (m_gct h) b g = None) -> (forall b r, tab (m_rctct h) b r = None) ->
  (forall r i t, rtab (m_rcc h) r i t = None) -> hydra_inv k h /\ forall b r, est h b r = 0.
Proof.
  intros EC Hg Ht Hc Hr. assert (He : forall b g, entry h b g = mkGCT 0 false) by (intros; unfold entry; by rewrite Ht). split.
  - split; [done|intros; rewrite He; cbn; split; [lia|done]|]. intros r i t e. by rewrite Hr.
  - intros b r. unfold est. rewrite He, Hc. by destruct (_ <? _).
Qed.

Lemma static_fits (s : DRAMSpec) (k : HydraConst) (a g : Z) :
  hydra_static s k -> hc_num_rows_per_bank k = 2 ^ a -> hc_row_group_size k = 2 ^ g -> 0 <= g <= a ->
  0 <= hc_group_threshold k < hc_tracking_threshold k -> hydra_fits k.
Proof.
  intros HS Ha Hg Hga Hth. destruct (hs_bits s k HS) as (B1 & B2 & B3 & _). destruct (hs_banks s k HS) as (_ & _ & _ & _ & _ & Hper).
  rewrite Ha, Z.log2_pow2 in B1 by lia. rewrite Ha, Hg, Z.quot_div_nonneg, <- Z.pow_sub_r, Z.log2_pow2 in B2 by lia.
  rewrite B1 in B3. split; rewrite ?B1, ?B2; try done; [lia|rewrite Hg; f_equal; lia].
Qed.

(** ** Runs

    [n b row] is the number of activations of a row of a bank since a victim-row
    refresh for it was queued, or since the period began.  Activations name rows
    that exist, hash tables may iterate in any order, and the priority queue has
    room for what an activation queues. *)
Definition hydra_period (h : Hydra) : bool := Z.rem (hy_clk h) (hc_reset_period_clk (hy_const h)) =? 0.

Record activates (s : DRAMSpec) order (draw : nat -> Z) (h : Hydra) (c : Ctrl) (req : Request) (b row : Z) : Prop := {
  ac_device : on_spec s (m_device c);
  ac_act : is_single_act (m_device c) req = Ok true;
  ac_concrete : concrete s (addr_vec req) 0 (m_bank_level (m_device c));
  ac_length : level_count s <= Z.of_nat (length (addr_vec req));
  ac_bank : get_flat_bank_id (m_device c) (addr_vec req) = Ok b;
  ac_row : vget (addr_vec req) (hc_row_level (hy_const h)) = Ok row;
  ac_range : in_range (hy_const h) row;
  ac_order : forall t : gmap Z RCCEntry, order t ≡ₚ map_to_list t;
  ac_draw : forall i, 0 <= draw i
}.

Inductive hydra_run (s : DRAMSpec) : Hydra -> (Z -> Z -> Z) -> Prop :=
| hr_setup c p h : on_spec s (m_device c) -> Hydra_setup c p = Ok h -> hydra_run s h (fun _ _ => 0)
| hr_cycle h h' n :
    hydra_run s h n -> Hydra_pre_schedule h = Ok h' -> hydra_run s h' (if hydra_period h' then fun _ _ => 0 else n)
| hr_other h h' n c c' req order draw :
    hydra_run s h n -> is_single_act (m_device c) req = Ok false -> Hydra_on_issue order draw h c req = Ok (h', c') -> hydra_run s h' n
| hr_act h h' n c c' req order draw b row rs (vrr : bool) :
    hydra_run s h n -> activates s order draw h c req b row -> Hydra_on_issue order draw h c req = Ok (h', c') ->
    buf_size (m_priority_buffer c') < max_size (m_priority_buffer c') -> prio c' = prio c ++ rs ->
    (vrr = true <-> Request_cmd (addr_vec req) (hc_vrr_cmd_id (hy_const h)) ∈ rs) ->
    hydra_run s h' (upd2 n b row (if vrr then 0 else n b row + 1)).

Lemma Hydra_pre_cases (h h' : Hydra) :
  Hydra_pre_schedule h = Ok h' ->
  hy_const h' = hy_const h /\
  if hydra_period h'
  then (forall b g, tab (m_gct h') b g = None) /\ (forall b r, tab (m_rctct h') b r = None) /\ (forall r i t, rtab (m_rcc h') r i t = None)
  else same_tables h h'.
Proof.
  unfold Hydra_pre_schedule. intros (clk & _ & H)%bind_Ok. apply bind_Ok in H as (e & He & H). unfold period_elapsed in He.
  destruct (_ =? 0) eqn:Hz in He; [done|]. injection He as He. unfold hydra_period.
  destruct e; injection H as <-; cbn; rewrite He; (split; [done|]); [|by split_and!].
  split_and!; intros; [apply tab_clear|apply tab_clear|]. unfold rtab. destruct (vget _ r) as [sets|] eqn:Hs; [|done].
  apply vget_Ok in Hs as [_ Hs]. apply list_lookup_fmap_Some in Hs as (? & -> & _). apply tab_clear.
Qed.

Definition est_inv (s : DRAMSpec) (h : Hydra) (n : Z -> Z -> Z) : Prop :=
  hydra_inv (hy_const h) h /\ bounded (hy_const h) h /\
  (forall b row, 0 <= n b row) /\ (forall b row, in_range (hy_const h) row -> n b row <= est h b row) /\
  forall b row, ~ in_range (hy_const h) row -> n b row = 0.

Lemma zero_est_inv (s : DRAMSpec) (h : Hydra) :
  0 <= hc_group_threshold (hy_const h) < hc_tracking_threshold (hy_const h) ->
  (forall b g, tab (m_gct h) b g = None) -> (forall b r, tab (m_rctct h) b r = None) -> (forall r i t, rtab (m_rcc h) r i t = None) ->
  est_inv s h (fun _ _ => 0).
Proof.
  intros Hth H1 H2 H3. destruct (empty_tables_inv (hy_const h) h eq_refl (proj1 Hth) H1 H2 H3) as [HI He].
  split_and!; try done; [intros b r _|intros b r _]; rewrite He; lia.
Qed.

Lemma act_est_inv order draw (s : DRAMSpec) (h h' : Hydra) (n : Z -> Z -> Z) (c c' : Ctrl) (req : Request) (b row : Z) (rs : list Request) (vrr : bool) :
  hydra_static s (hy_const h) -> hydra_fits (hy_const h) -> est_inv s h n -> activates s order draw h c req b row ->
  Hydra_on_issue order draw h c req = Ok (h', c') ->
  buf_size (m_priority_buffer c') < max_size (m_priority_buffer c') -> prio c' = prio c ++ rs ->
  (vrr = true <-> Request_cmd (addr_vec req) (hc_vrr_cmd_id (hy_const h)) ∈ rs) ->
  hy_const h' = hy_const h /\ est_inv s h' (upd2 n b row (if vrr then 0 else n b row + 1)).
Proof.
  intros HS HF (HI & HB & N0 & N1 & N2) [Hon Hact Hc _ Hb Hrow Hr _ _] H Hroom Hrs Hv. destruct (hs_banks s _ HS) as (d0 & ranks & Hon0 & Hsz & Hper & _).
  destruct (flat_rank s (m_device c) d0 (addr_vec req) b ranks _ Hon0 Hon Hc Hb Hsz Hper) as (Hb0 & _ & Hrank).
  rewrite <- (hs_rank s _ HS) in Hrank.
  destruct (Hydra_act_ok order draw (hy_const h) h h' c c' req b row HF HI Hact Hb (proj1 Hb0) Hrow Hr Hrank H)
    as (HI' & as_ & vrr' & Hs & Has & Hcnt & Hbd).
  pose proof (hi_const _ _ HI') as EC. split; [done|].
  assert (vrr' = vrr) as ->.
  { destruct (send_all_prio _ _ _ Hs) as (_ & _ & Hq). specialize (Hq Hroom). unfold prio in Hrs. rewrite Hrs in Hq. apply app_inv_head in Hq.
    subst rs. apply Bool.eq_iff_eq_true. rewrite Hv, elem_of_app. unfold vrr_if, vrr_of. destruct vrr'; [split; [|done]; right; by left|].
    split; [done|]. intros [Hin|?%elem_of_nil]; [|done]. rewrite Forall_forall in Has. destruct (Has _ Hin) as (av & cmd & E & Hcmd).
    injection E as _ E. by destruct (hs_ids s _ HS cmd Hcmd). }
  unfold est_inv. rewrite EC. split_and!; [done|by apply Hbd| | |].
  - intros b' r. unfold upd2, upd. destruct (b' =? b); [destruct (r =? row)|]; [|apply N0..]. pose proof (N0 b row). destruct vrr; lia.
  - intros b' r Hr'. etransitivity; [|by apply Hcnt]. unfold upd2, upd. destruct (b' =? b) eqn:Eb; [destruct (r =? row) eqn:Er|]; [|by apply N1..].
    pose proof (N1 b row Hr). destruct vrr; lia.
  - intros b' r Hr'. unfold upd2, upd. destruct (b' =? b); [|by apply N2]. destruct (Z.eqb_spec r row) as [->|]; [done|by apply N2].
Qed.

Lemma put_rcc_const (h h' : Hydra) (rank i : Z) (set : gmap Z RCCEntry) : hy_put_rcc h rank i set = Ok h' -> hy_const h' = hy_const h.
Proof. by intros (l & -> & _)%put_rcc_spec. Qed.

Lemma evict_const order draw (h h' : Hydra) (c c' : Ctrl) (rank i : Z) (set set' : gmap Z RCCEntry) :
  evict_if_full order draw h c rank i set = Ok (set', h', c') -> hy_const h' = hy_const h.
Proof.
  unfold evict_if_full. destruct (_ =? _); [|by intros [= <- <- <-]]. intros ([tg h1] & Hp & H)%bind_Ok. cbn [fst snd] in H.
  assert (hy_const h1 = hy_const h) as E.
  { unfold get_tag_to_evict in Hp. destruct (bool_decide _); [|destruct (bool_decide _); [by injection Hp as <- <-|done]].
    apply bind_Ok in Hp as (j & _ & Hp). by apply bind_Ok in Hp as (x & _ & [= <- <-]). }
  destruct (set !! tg); [|by injection H as <- <- <-]. apply bind_Ok in H as ([h2 c2] & Ha & H). apply rct_access_ok in Ha as ((F & _) & _).
  apply bind_Ok in H as (h3 & Hput & [= <- <- <-]). apply put_rcc_const in Hput. cbn in *. congruence.
Qed.

(** A handled activation changes no parameter. *)
Lemma on_issue_const order draw (h h' : Hydra) (c c' : Ctrl) (req : Request) :
  Hydra_on_issue order draw h c req = Ok (h', c') -> hy_const h' = hy_const h.
Proof.
  unfold Hydra_on_issue. intros (act & _ & H)%bind_Ok. destruct (negb act); [by injection H as <- <-|].
  do 8 apply bind_Ok in H as (? & _ & H). destruct (_ <? _).
  { unfold count_rct_row in H. apply bind_Ok in H as (t & _ & H). destruct (_ <=? _).
    - apply bind_Ok in H as (? & _ & H). by apply bind_Ok in H as (? & _ & [= <- <-]).
    - by apply bind_Ok in H as (? & _ & [= <- <-]). }
  apply bind_Ok in H as (t & _ & H). destruct (_ <? _); [by apply bind_Ok in H as (? & _ & [= <- <-])|].
  apply bind_Ok in H as ([h1 c1] & H1 & H). cbn [fst snd] in H. apply bind_Ok in H as ([[e h2] c2] & H2 & H).
  assert (hy_const h1 = hy_const h) as E1.
  { unfold init_group in H1. apply bind_Ok in H1 as (? & _ & H1). destruct (gct_initialized _); [by injection H1 as <- <-|].
    do 3 apply bind_Ok in H1 as (? & _ & H1). apply rct_accesses_ok in H1 as ((E & _) & _). by rewrite E. }
  assert (hy_const h2 = hy_const h1) as E2.
  { unfold count_in_rcc in H2. do 2 apply bind_Ok in H2 as (? & _ & H2). destruct (_ !! _).
    - apply bind_Ok in H2 as (h3 & Hp & H2). apply put_rcc_const in Hp. do 2 apply bind_Ok in H2 as (? & _ & H2).
      injection H2 as <- <- <-. cbn in *. congruence.
    - apply bind_Ok in H2 as ([[set3 h3] c3] & Hev & H2). apply evict_const in Hev. apply bind_Ok in H2 as ([h4 c4] & Ha & H2).
      apply rct_access_ok in Ha as ((E & _) & _). do 2 apply bind_Ok in H2 as (? & _ & H2). apply bind_Ok in H2 as (h5 & Hp & [= <- <- <-]).
      apply put_rcc_const in Hp. cbn in *. congruence. }
  unfold mitigate_if_hot in H. destruct (_ <=? _); [|injection H as <- <-; congruence].
  do 3 apply bind_Ok in H as (? & _ & H). apply bind_Ok in H as (h3 & Hp & H). apply put_rcc_const in Hp.
  do 2 apply bind_Ok in H as (? & _ & H). injection H as <- <-. cbn in *. congruence.
Qed.

(** The parameters are fixed at setup, and the estimate bounds the activations. *)
Lemma hydra_run_inv (T : Standard) (s : DRAMSpec) (h : Hydra) (n : Z -> Z -> Z) :
  T ∈ registry -> built_from T s -> hydra_run s h n ->
  hydra_static s (hy_const h) /\ (hydra_fits (hy_const h) -> est_inv s h n).
Proof.
  intros Hin HB. induction 1 as [c p h Hon H|h h' n Hrun [IH1 IH2] H|h h' n c c' req order draw Hrun [IH1 IH2] Hact H
    |h h' n c c' req order draw b row rs vrr Hrun [IH1 IH2] Hac H Hroom Hrs Hv].
  - split; [by eapply Hydra_setup_static|]. intros HF. destruct (Hydra_setup_empty _ _ _ H) as (m & r & q & E1 & _ & E3 & E4).
    apply zero_est_inv; [apply HF|intros; rewrite E1; apply tab_empty|intros; rewrite E3; apply tab_empty|]. intros x i t. rewrite E4.
    unfold rtab. destruct (vget _ x) as [sets|] eqn:Hs; [|done]. apply vget_Ok in Hs as [_ [-> _]%lookup_replicate]. apply tab_empty.
  - apply Hydra_pre_cases in H as [EC H]. rewrite EC. split; [done|]. intros HF. destruct (hydra_period h').
    + destruct H as (H1 & H2 & H3). apply zero_est_inv; try done. rewrite EC. apply HF.
    + destruct (IH2 HF) as (HI & Hbd & N0 & N1 & N2). unfold est_inv, bounded. rewrite EC. split_and!; try done; [by eapply same_tables_inv|..].
      * intros b r Hr. rewrite (same_tables_est _ _ _ _ H). by apply Hbd.
      * intros b r Hr. rewrite (same_tables_est _ _ _ _ H). by apply N1.
  - unfold Hydra_on_issue in H. rewrite Hact in H. by injection H as <- <-.
  - assert (hy_const h' = hy_const h) as EC by (by eapply on_issue_const).
    rewrite EC. split; [done|]. intros HF. by eapply act_est_inv; eauto.
Qed.

(** ** Activations are handled *)
Section progress.
Context (order : gmap Z RCCEntry -> list (Z * RCCEntry)) (draw : nat -> Z) (s : DRAMSpec) (k : HydraConst) (N : nat) (ranks : Z).
Context (HS : hydra_static s k) (Hord : forall t, order t ≡ₚ map_to_list t) (Hdraw : forall i, 0 <= draw i).
Context (Hpol : hc_rcc_policy k = "RANDOM" \/ hc_rcc_policy k = "MIN_COUNT") (Hper : hc_rct_per_row k <> 0).

(** Sizes of the tables, and addresses kept in the cache. *)
Record hydra_shape (h : Hydra) : Prop := {
  sh_const : hy_const h = k;
  sh_tables : length (m_gct h) = N /\ length (m_rct h) = N /\ length (m_rctct h) = N;
  sh_ranks : Z.of_nat (length (m_rcc h)) = ranks;
  sh_sets : forall r sets, vget (m_rcc h) r = Ok sets -> Z.of_nat (length sets) = hc_rcc_set_num k;
  sh_template : forall r i t e, rtab (m_rcc h) r i t = Some e -> level_count s <= Z.of_nat (length (addr_template e))
}.

Lemma same_tables_shape (h h' : Hydra) : same_tables h h' -> hydra_shape h -> hydra_shape h'.
Proof. intros (E1 & E2 & E3 & E4 & E5) [C T R S A]. split; rewrite ?E1, ?E2, ?E3, ?E4, ?E5; done. Qed.

Lemma send_known (c : Ctrl) (av : AddrVec_t) (cmd : Z) :
  m_spec (m_device c) = s -> 0 <= cmd < command_count s ->
  exists ok c', priority_send c (Request_cmd av cmd) = Ok (ok, c') /\ m_device c' = m_device c.
Proof.
  intros Es Hc. unfold priority_send. rewrite Es. cbn [final_command Request_cmd].
  assert ((cmd <? 0) || (command_count s <=? cmd) = false) as -> by lia.
  destruct (enqueue _ _) as [[|] q]; eexists _, _; (split; [done|]); [by destruct (_ =? _)|done].
Qed.

Lemma access_progress (w : bool) (row : Z) (av : AddrVec_t) (h : Hydra) (c : Ctrl) :
  hy_const h = k -> level_count s <= Z.of_nat (length av) -> m_spec (m_device c) = s ->
  exists h' c', issue_rct_access w row av h c = Ok (h', c') /\ same_tables h h' /\ m_device c' = m_device c.
Proof.
  intros EC Hav Es. unfold issue_rct_access, generate_row_col_id, div_s, rem_s. rewrite EC. destruct (Z.eqb_spec (hc_rct_per_row k) 0); [done|].
  cbn [mbind result_bind fst snd]. destruct (hs_levels s k HS) as [L1 L2].
  destruct (vset_total av (hc_row_level k) (Z.quot row (hc_rct_per_row k))) as [av1 E1]; [lia|]. rewrite E1. cbn [mbind result_bind].
  pose proof (vset_length _ _ _ _ E1). edestruct (vset_total av1 (hc_col_level k)) as [av2 E2]; [|rewrite E2]; [lia|]. cbn [mbind result_bind].
  destruct (send_known c av2 (hc_act_cmd_id k) Es) as (ok1 & c1 & S1 & D1); [apply (hs_ids s k HS); auto|]. rewrite S1. cbn [mbind result_bind snd].
  destruct (send_known c1 av2 (if w then hc_wr_cmd_id k else hc_rd_cmd_id k)) as (ok2 & c2 & S2 & D2);
    [by rewrite D1|destruct w; apply (hs_ids s k HS); auto|]. rewrite S2. cbn [mbind result_bind snd].
  do 2 eexists. split; [done|]. split; [apply same_tables_bump|congruence].
Qed.

Lemma accesses_progress {A} (w : bool) (row : A -> Z) (av : AddrVec_t) (l : list A) (h : Hydra) (c : Ctrl) :
  hy_const h = k -> level_count s <= Z.of_nat (length av) -> m_spec (m_device c) = s ->
  exists h' c', foldM (fun (s : Hydra * Ctrl) i => issue_rct_access w (row i) av s.1 s.2) (h, c) l = Ok (h', c') /\
    same_tables h h' /\ m_device c' = m_device c.
Proof.
  intros EC Hav Es. revert h c EC Es. induction l as [|i l IH]; intros h c EC Es; [exists h, c; split; [done|]; split; [apply same_tables_refl|done]|].
  destruct (access_progress w (row i) av h c EC Hav Es) as (h1 & c1 & H1 & S1 & D1).
  destruct (IH h1 c1) as (h2 & c2 & H2 & S2 & D2); [by rewrite (proj1 S1)|by rewrite D1|].
  exists h2, c2. rewrite foldM_cons. cbn [fst snd]. rewrite H1. split; [exact H2|]. split; [by eapply same_tables_trans|congruence].
Qed.

(** Writing a set whose entries have complete addresses. *)
Lemma put_progress (h : Hydra) (rank i : Z) (set : gmap Z RCCEntry) :
  hydra_shape h -> 0 <= rank < ranks -> 0 <= i < hc_rcc_set_num k ->
  (forall t e, set !! t = Some e -> level_count s <= Z.of_nat (length (addr_template e))) ->
  exists l, hy_put_rcc h rank i set = Ok (hy_set_rcc h l) /\ hydra_shape (hy_set_rcc h l).
Proof.
  intros [C T R S A] Hr Hi Hset. assert (exists h', hy_put_rcc h rank i set = Ok h') as [h' H].
  { unfold hy_put_rcc. destruct (vget_in_range (m_rcc h) rank) as [sets Hs]; [lia|]. rewrite Hs. cbn [mbind result_bind].
    destruct (vset_total sets i set) as [sets' E]; [rewrite (S _ _ Hs); lia|]. rewrite E. cbn [mbind result_bind].
    destruct (vset_total (m_rcc h) rank sets') as [l E']; [lia|]. rewrite E'. by eexists. }
  pose proof H as H'. unfold hy_put_rcc in H'. apply bind_Ok in H' as (sets & Hs & H'). apply bind_Ok in H' as (sets' & Hs' & H').
  apply bind_Ok in H' as (l & Hl & [= <-]). exists l. split; [done|]. split; cbn; [done|done|by rewrite (vset_length _ _ _ _ Hl)| |].
  - intros r x. rewrite (vget_vset _ _ _ _ _ Hl). destruct (_ =? _); [|apply S]. intros [= <-]. rewrite (vset_length _ _ _ _ Hs'). by eapply S.
  - apply put_rcc_spec in H as (l' & [= <-] & Hrt). intros r j t e. rewrite Hrt. destruct (_ && _); [apply Hset|apply A].
Qed.

Lemma set_rct_shape (h : Hydra) (b : Z) (t : gmap Z Z) (l : list (gmap Z Z)) :
  hydra_shape h -> vset (m_rct h) b t = Ok l -> hydra_shape (hy_set_rct h l).
Proof. intros [C T R S A] Hl. split; cbn; try done. by rewrite (vset_length _ _ _ _ Hl). Qed.
Lemma set_gct_shape (h : Hydra) (b : Z) (t : gmap Z GCTEntry) (l : list (gmap Z GCTEntry)) :
  hydra_shape h -> vset (m_gct h) b t = Ok l -> hydra_shape (hy_set_gct h l).
Proof. intros [C T R S A] Hl. split; cbn; try done. by rewrite (vset_length _ _ _ _ Hl). Qed.
Lemma set_rctct_shape (h : Hydra) (b : Z) (t : gmap Z Z) (l : list (gmap Z Z)) :
  hydra_shape h -> vset (m_rctct h) b t = Ok l -> hydra_shape (hy_set_rctct h l).
Proof. intros [C T R S A] Hl. split; cbn; try done. by rewrite (vset_length _ _ _ _ Hl). Qed.

Lemma bump_shape (name : string) (h : Hydra) : hydra_shape h -> hydra_shape (hy_bump name h).
Proof. apply same_tables_shape, same_tables_bump. Qed.

Lemma tag_progress (h : Hydra) (set : gmap Z RCCEntry) :
  hy_const h = k -> size set = 16%nat -> exists t h', get_tag_to_evict order draw h set = Ok (t, h') /\ same_tables h h'.
Proof.
  intros EC Hsz. unfold get_tag_to_evict. rewrite EC. destruct Hpol as [E|E].
  - rewrite bool_decide_true by done. unfold rem_s. rewrite Hsz. change (Z.of_nat 16) with 16. change (16 =? 0) with false.
    cbn [mbind result_bind].
    destruct (vget_in_range (order set) (Z.rem (draw (hy_rnd_drawn h)) 16)) as [e He].
    { rewrite (Permutation_length (Hord set)), length_map_to_list, Hsz. pose proof (Z.rem_bound_pos (draw (hy_rnd_drawn h)) 16 (Hdraw _)). lia. }
    rewrite He. do 2 eexists. split; [done|]. by split_and!.
  - rewrite E, bool_decide_false by done. rewrite bool_decide_true by done. do 2 eexists. split; [done|apply same_tables_refl].
Qed.

Lemma evict_progress (h : Hydra) (c : Ctrl) (rank i : Z) (set : gmap Z RCCEntry) :
  hydra_shape h -> m_spec (m_device c) = s -> 0 <= rank < ranks -> 0 <= i < hc_rcc_set_num k ->
  (forall t e, set !! t = Some e -> level_count s <= Z.of_nat (length (addr_template e))) ->
  exists set' h' c', evict_if_full order draw h c rank i set = Ok (set', h', c') /\ hydra_shape h' /\ m_device c' = m_device c /\
    (forall t e, set' !! t = Some e -> level_count s <= Z.of_nat (length (addr_template e))).
Proof.
  intros Hsh Es Hr Hi Hset. unfold evict_if_full. destruct (Z.eqb_spec (Z.of_nat (size set)) 16) as [Hz|]; [|by exists set, h, c].
  destruct (tag_progress h set) as (t & h1 & Ht & S1); [apply (sh_const h Hsh)|lia|]. rewrite Ht. cbn [mbind result_bind fst snd].
  pose proof (same_tables_shape _ _ S1 Hsh) as Hsh1. destruct (set !! t) as [e|] eqn:He; [|by exists set, h1, c].
  destruct (access_progress true (rcc_row_id e) (addr_template e) h1 c) as (h2 & c2 & H2 & S2 & D2);
    [apply (sh_const h1 Hsh1)|by eapply Hset|done|]. rewrite H2. cbn [mbind result_bind fst snd].
  assert (Hdel : forall t' e', delete t set !! t' = Some e' -> level_count s <= Z.of_nat (length (addr_template e'))).
  { intros t' e' [_ Hx]%lookup_delete_Some. by eapply Hset. }
  destruct (put_progress h2 rank i (delete t set) (same_tables_shape _ _ S2 Hsh1) Hr Hi Hdel) as (l & Hl & Hsh3).
  rewrite Hl. do 3 eexists. split; [done|]. split_and!; [by apply bump_shape|done|done].
Qed.

Lemma count_progress (h : Hydra) (c : Ctrl) (req : Request) (b row rank i t : Z) :
  hydra_shape h -> m_spec (m_device c) = s -> 0 <= rank < ranks -> 0 <= i < hc_rcc_set_num k -> 0 <= b < Z.of_nat N ->
  level_count s <= Z.of_nat (length (addr_vec req)) ->
  exists e h' c', count_in_rcc order draw h c req b row rank i t = Ok (e, h', c') /\ hydra_shape h' /\ m_device c' = m_device c /\
    level_count s <= Z.of_nat (length (addr_template e)).
Proof.
  intros Hsh Es Hr Hi Hb Hav. unfold count_in_rcc. cbn [m_rcc hy_bump]. pose proof (sh_ranks h Hsh) as Hrk.
  destruct (vget_in_range (m_rcc h) rank) as [sets Hs]; [lia|]. rewrite Hs. cbn [mbind result_bind].
  destruct (vget_in_range sets i) as [set Hset]; [rewrite (sh_sets h Hsh _ _ Hs); lia|]. rewrite Hset. cbn [mbind result_bind].
  assert (Ht : forall t e, set !! t = Some e -> level_count s <= Z.of_nat (length (addr_template e))).
  { intros t' e' He. apply (sh_template h Hsh rank i t'). by rewrite (rtab_get _ _ _ _ _ _ Hs Hset). }
  assert (Hins : forall (set' : gmap Z RCCEntry) e t', (forall t e, set' !! t = Some e -> level_count s <= Z.of_nat (length (addr_template e))) ->
    level_count s <= Z.of_nat (length (addr_template e)) ->
    forall t'' e'', <[t' := e]> set' !! t'' = Some e'' -> level_count s <= Z.of_nat (length (addr_template e''))).
  { intros set' e t' H1 H2 t'' e'' [[_ <-]|[_ Hx]]%lookup_insert_Some; [done|by eapply H1]. }
  destruct (set !! t) as [x|] eqn:Hx.
  - edestruct (put_progress (hy_bump "hydra_rcc_check" h) rank i) as (l & Hl & Hsh1); [by apply bump_shape|done|done| |rewrite Hl].
    { apply (Hins set _ t Ht). exact (Ht _ _ Hx). }
    cbn [mbind result_bind m_rct hy_set_rcc hy_bump]. destruct (sh_tables h Hsh) as (_ & L & _).
    destruct (vget_in_range (m_rct h) b) as [tb Htb]; [lia|]. rewrite Htb. cbn [mbind result_bind].
    edestruct (vset_total (m_rct h) b) as [l2 Hl2]; [|rewrite Hl2]; [lia|]. do 3 eexists. split; [done|].
    split_and!; [by eapply set_rct_shape|done|exact (Ht _ _ Hx)].
  - destruct (evict_progress (hy_bump "hydra_num_rcc_miss" (hy_bump "hydra_rcc_check" h)) c rank i set) as (set1 & h1 & c1 & H1 & Hsh1 & D1 & Ht1);
      [by do 2 apply bump_shape|done..|]. rewrite H1. cbn [mbind result_bind].
    destruct (access_progress false row (addr_vec req) (hy_bump "hydra_rct_check" h1) c1) as (h2 & c2 & H2 & S2 & D2);
      [apply (sh_const h1 Hsh1)|done|by rewrite D1|]. rewrite H2. cbn [mbind result_bind].
    pose proof (same_tables_shape _ _ S2 (bump_shape _ _ Hsh1)) as Hsh2. destruct (sh_tables h2 Hsh2) as (_ & L & _).
    destruct (vget_in_range (m_rct h2) b) as [tb Htb]; [lia|]. rewrite Htb. cbn [mbind result_bind].
    edestruct (vset_total (m_rct h2) b) as [l2 Hl2]; [|rewrite Hl2]; [lia|]. cbn [mbind result_bind].
    edestruct (put_progress (hy_set_rct h2 l2) rank i) as (l & Hl & Hsh3); [by eapply set_rct_shape|done|done| |rewrite Hl].
    { apply (Hins set1 _ t Ht1). exact Hav. }
    do 3 eexists. split; [done|]. split_and!; [exact Hsh3|congruence|exact Hav].
Qed.

Lemma mitigate_progress (h : Hydra) (c : Ctrl) (req : Request) (b row rank i t : Z) (e : RCCEntry) :
  hydra_shape h -> m_spec (m_device c) = s -> 0 <= rank < ranks -> 0 <= i < hc_rcc_set_num k -> 0 <= b < Z.of_nat N ->
  level_count s <= Z.of_nat (length (addr_template e)) ->
  exists h' c', mitigate_if_hot h c req b row rank i t e = Ok (h', c') /\ hydra_shape h'.
Proof.
  intros Hsh Es Hr Hi Hb He. unfold mitigate_if_hot. rewrite (sh_const h Hsh). destruct (_ <=? _); [|by exists h, c].
  unfold send_vrr. destruct (send_known c (addr_vec req) (hc_vrr_cmd_id k) Es (hs_vrr s k HS)) as (ok & c1 & S1 & _). rewrite S1.
  cbn [mbind result_bind snd m_rcc hy_bump]. pose proof (sh_ranks h Hsh) as Hrk.
  destruct (vget_in_range (m_rcc h) rank) as [sets Hs]; [lia|]. rewrite Hs. cbn [mbind result_bind].
  destruct (vget_in_range sets i) as [set Hset]; [rewrite (sh_sets h Hsh _ _ Hs); lia|]. rewrite Hset. cbn [mbind result_bind].
  edestruct (put_progress (hy_bump "hydra_num_vrr" h) rank i) as (l & Hl & Hsh1); [by apply bump_shape|done|done| |rewrite Hl].
  { intros t' e' [[_ <-]|[_ Hx]]%lookup_insert_Some; [exact He|]. apply (sh_template h Hsh rank i t'). by rewrite (rtab_get _ _ _ _ _ _ Hs Hset). }
  cbn [mbind result_bind m_rct hy_set_rcc hy_bump]. destruct (sh_tables h Hsh) as (_ & L & _).
  destruct (vget_in_range (m_rct h) b) as [tb Htb]; [lia|]. rewrite Htb. cbn [mbind result_bind].
  edestruct (vset_total (m_rct h) b) as [l2 Hl2]; [|rewrite Hl2]; [lia|]. do 2 eexists. split; [done|]. by eapply set_rct_shape.
Qed.

Lemma init_progress (h : Hydra) (c : Ctrl) (req : Request) (b g : Z) :
  hydra_shape h -> m_spec (m_device c) = s -> 0 <= b < Z.of_nat N -> level_count s <= Z.of_nat (length (addr_vec req)) ->
  exists h' c', init_group h c req b g = Ok (h', c') /\ hydra_shape h' /\ m_device c' = m_device c.
Proof.
  intros Hsh Es Hb Hav. unfold init_group. rewrite (sh_const h Hsh). destruct (sh_tables h Hsh) as (L1 & L2 & _).
  destruct (vget_in_range (m_gct h) b) as [t Ht]; [lia|]. rewrite Ht. cbn [mbind result_bind]. destruct (gct_initialized _); [by exists h, c|].
  edestruct (vset_total (m_gct h) b) as [l Hl]; [|rewrite Hl]; [lia|]. cbn [mbind result_bind m_rct hy_bump hy_set_gct].
  destruct (vget_in_range (m_rct h) b) as [tb Htb]; [lia|]. rewrite Htb. cbn [mbind result_bind].
  edestruct (vset_total (m_rct h) b) as [l2 Hl2]; [|rewrite Hl2]; [lia|]. cbn [mbind result_bind].
  assert (hydra_shape (hy_set_rct (hy_bump "hydra_num_initialization" (hy_set_gct h l)) l2)) as Hsh1.
  { eapply set_rct_shape; [|exact Hl2]. apply bump_shape. by eapply set_gct_shape. }
  edestruct (accesses_progress true (fun i => g * hc_row_group_size k + i * hc_rct_per_cl k) (addr_vec req)) as (h' & c' & H & S & D);
    [apply (sh_const _ Hsh1)|exact Hav|exact Es|]. exists h', c'. split; [exact H|]. split; [by eapply same_tables_shape|done].
Qed.

Lemma on_issue_progress (h : Hydra) (c : Ctrl) (req : Request) (b row rank : Z) :
  hydra_shape h -> m_spec (m_device c) = s -> is_single_act (m_device c) req = Ok true ->
  get_flat_bank_id (m_device c) (addr_vec req) = Ok b -> 0 <= b < Z.of_nat N -> level_count s <= Z.of_nat (length (addr_vec req)) ->
  vget (addr_vec req) (hc_row_level k) = Ok row -> vget (addr_vec req) (hc_rank_level k) = Ok rank -> 0 <= rank < ranks ->
  hydra_fits k -> hc_row_address_bits k < 32 -> hc_rcc_index_bits k <= hc_row_address_bits k ->
  exists h' c', Hydra_on_issue order draw h c req = Ok (h', c') /\ hydra_shape h'.
Proof.
  intros Hsh Es Hact Hb Hbr Hav Hrow Hrank Hr HF H32 Hib. unfold Hydra_on_issue. rewrite Hact, (sh_const h Hsh). cbn [mbind result_bind negb].
  rewrite Hrow, Hb. cbn [mbind result_bind]. rewrite Hrank. cbn [mbind result_bind]. unfold rem_s. pose proof (hf_banks k HF).
  destruct (Z.eqb_spec (hc_num_banks_per_rank k) 0); [lia|]. cbn [mbind result_bind]. destruct (hs_bits s k HS) as (_ & B2 & B3 & Hsn & Eib).
  pose proof (hf_shift k HF). pose proof (Z.log2_nonneg (Z.quot (hc_num_rows_per_bank k) (hc_row_group_size k))) as G0. rewrite <- B2 in G0.
  pose proof (Z.log2_nonneg (hc_rcc_set_num k)) as I0. rewrite <- Eib in I0. pose proof (proj1 (Z.log2_spec _ Hsn)) as Hlog. rewrite <- Eib in Hlog.
  unfold shr_s, shl_s. rewrite B3. assert (Hle : forall a x, 0 <= a -> a < 32 -> (if (0 <=? a) && (a <? 32) then Ok x else Err Undef) = @Ok Z x).
  { intros a x Ha1 Ha2. by assert ((0 <=? a) && (a <? 32) = true) as -> by lia. }
  rewrite !Hle by lia. cbn [mbind result_bind].
  assert (Hidx : 0 <= Z.land row (Z.shiftl 1 (hc_rcc_index_bits k) - 1) < hc_rcc_set_num k).
  { replace (Z.shiftl 1 (hc_rcc_index_bits k) - 1) with (Z.ones (hc_rcc_index_bits k)) by (rewrite Z.ones_equiv, Z.shiftl_1_l; lia).
    rewrite Z.land_ones by lia. pose proof (Z.mod_pos_bound row (2 ^ hc_rcc_index_bits k)). lia. }
  destruct (sh_tables h Hsh) as (L1 & L2 & L3). destruct (_ <? hc_total_rct_row_size k).
  - unfold count_rct_row. destruct (vget_in_range (m_rctct h) b) as [t Ht]; [lia|]. rewrite Ht. cbn [mbind result_bind hy_const hy_bump m_rctct].
    destruct (_ <=? _).
    + unfold send_vrr. rewrite (sh_const h Hsh).
      destruct (send_known c (addr_vec req) (hc_vrr_cmd_id k) Es (hs_vrr s k HS)) as (ok & c1 & S1 & _). rewrite S1. cbn [mbind result_bind].
      edestruct (vset_total (m_rctct h) b) as [l Hl]; [|rewrite Hl]; [lia|]. do 2 eexists. split; [done|].
      eapply set_rctct_shape; [|exact Hl]. by do 3 apply bump_shape.
    + edestruct (vset_total (m_rctct h) b) as [l Hl]; [|rewrite Hl]; [lia|]. do 2 eexists. split; [done|].
      eapply set_rctct_shape; [|exact Hl]. by apply bump_shape.
  - cbn [m_gct hy_bump]. destruct (vget_in_range (m_gct h) b) as [t Ht]; [lia|]. rewrite Ht. cbn [mbind result_bind]. destruct (_ <? _).
    + edestruct (vset_total (m_gct h) b) as [l Hl]; [|rewrite Hl]; [lia|]. do 2 eexists. split; [done|].
      eapply set_gct_shape; [|exact Hl]. by apply bump_shape.
    + edestruct (init_progress (hy_bump "hydra_gct_check" h) c req b) as (h1 & c1 & H1 & Sh1 & D1); [by apply bump_shape|done..|rewrite H1].
      cbn [mbind result_bind fst snd]. edestruct (count_progress h1 c1 req b row rank) as (e & h2 & c2 & H2 & Sh2 & D2 & He);
        [done|by rewrite D1|done|exact Hidx|done|done|rewrite H2]. cbn [mbind result_bind].
      apply mitigate_progress; try done. by rewrite D2, D1.
Qed.
End progress.

(** ** Configurations *)
Record hydra_config (k : HydraConst) (a g : Z) : Prop := {
  cg_rows : hc_num_rows_per_bank k = 2 ^ a;
  cg_group : hc_row_group_size k = 2 ^ g;
  cg_bits : 0 <= g <= a /\ a < 32;
  cg_threshold : 0 <= hc_group_threshold k < hc_tracking_threshold k;
  cg_policy : hc_rcc_policy k = "RANDOM" \/ hc_rcc_policy k = "MIN_COUNT";
  cg_sets : hc_rcc_set_num k <= hc_num_rows_per_bank k;
  cg_counters : hc_rct_per_row k <> 0
}.

Lemma config_fits (s : DRAMSpec) (k : HydraConst) (a g : Z) :
  hydra_static s k -> hydra_config k a g ->
  hydra_fits k /\ hc_row_address_bits k < 32 /\ hc_rcc_index_bits k <= hc_row_address_bits k.
Proof.
  intros HS [Hrows Hgroup [Hga H32] Hthr _ Hsets _]. split; [by apply (static_fits s k a g)|]. destruct (hs_bits s k HS) as (B1 & _ & _ & _ & B5).
  split; [rewrite B1, Hrows, Z.log2_pow2; lia|]. rewrite B1, B5. by apply Z.log2_le_mono.
Qed.

(** The tables have one entry per bank, or set of a rank. *)
Definition sized (s : DRAMSpec) (h : Hydra) : Prop :=
  exists d ranks, on_spec s d /\ vget (level_sizes (organization s)) 1 = Ok ranks /\
    div_s (Z.of_nat (length (m_bank_nodes d))) ranks = Ok (hc_num_banks_per_rank (hy_const h)) /\
    hydra_shape s (hy_const h) (length (m_bank_nodes d)) ranks h.

Lemma Hydra_setup_sized (T : Standard) (s : DRAMSpec) (c : Ctrl) (p : HydraParams) (h : Hydra) :
  T ∈ registry -> built_from T s -> on_spec s (m_device c) -> Hydra_setup c p = Ok h -> sized s h.
Proof.
  intros Hin HB Hon H. pose proof (registry_hydra_ok T Hin) as Hok. unfold std_hydra_okb in Hok. unfold Hydra_setup in H.
  pose proof Hon as (_ & Es & _). rewrite Es in H. unfold has_command, get_level_size, get_command_id, get_level_id in H.
  rewrite (bf_levels T _ HB), (bf_commands T _ HB) in H. destruct (set_names (Command T) !! "VRR") as [v|]; [|by rewrite bool_decide_false in H by (by intros [])].
  rewrite bool_decide_true in H by eauto. cbn [negb mbind result_bind] in H. do 3 apply bind_Ok in H as (? & _ & H).
  rewrite !andb_true_iff, bool_decide_eq_true in Hok. destruct Hok as (((((((E1 & _) & _) & _) & _) & _) & _) & _). rewrite E1 in H.
  cbn [mbind result_bind] in H. do 3 apply bind_Ok in H as (? & _ & H). apply bind_Ok in H as (ranks & Hranks & H).
  apply bind_Ok in H as (per & Hper & H). do 4 apply bind_Ok in H as (? & _ & H).
  apply bind_Ok in H as (bb & Hbb & H). do 3 apply bind_Ok in H as (? & _ & H). apply bind_Ok in H as (ib & Hib & H).
  do 3 apply bind_Ok in H as (? & _ & H). injection H as <-. exists (m_device c), ranks. cbn.
  split_and!; [done|done|done|]. unfold log2_s in Hib. destruct (Z.leb_spec (Z.quot (hp_rcc_num_per_rank p) 16) 0); [done|].
  split; cbn; rewrite ?length_replicate; [done|done| | |].
  - unfold div_s in Hper. destruct (Z.eqb_spec ranks 0); [done|]. injection Hper as <-.
    unfold log2_s in Hbb. destruct (Z.leb_spec (Z.quot (Z.of_nat (length (m_bank_nodes (m_device c)))) ranks) 0); [done|].
    destruct (Z.le_gt_cases 0 ranks); [lia|]. pose proof (Z.quot_opp_r (Z.of_nat (length (m_bank_nodes (m_device c)))) ranks).
    pose proof (Z.quot_pos (Z.of_nat (length (m_bank_nodes (m_device c)))) (- ranks)). lia.
  - intros r sets [_ [-> _]%lookup_replicate]%vget_Ok. rewrite length_replicate. lia.
  - intros r i t e. unfold rtab. destruct (vget _ r) as [sets|] eqn:Hs; [|done]. apply vget_Ok in Hs as [_ [-> _]%lookup_replicate].
    by rewrite tab_empty.
Qed.

Lemma pre_sized (s : DRAMSpec) (h h' : Hydra) : Hydra_pre_schedule h = Ok h' -> sized s h -> sized s h'.
Proof.
  intros H (d & ranks & Hon & Hr & Hp & Hsh). unfold Hydra_pre_schedule in H. apply bind_Ok in H as (clk & _ & H).
  apply bind_Ok in H as (e & _ & [= <-]). exists d, ranks. destruct e; cbn; split_and!; try done; destruct Hsh as [? HT HR HSets HE].
  - split; cbn; rewrite ?length_map; try done.
    + intros r sets [Hr0 (sets0 & -> & Hs)%list_lookup_fmap_Some]%vget_Ok. rewrite length_map. eapply (HSets r).
      by apply vget_Ok.
    + intros r i t e. unfold rtab. destruct (vget _ r) as [sets|] eqn:Hs; [|done]. apply vget_Ok in Hs as [_ (? & -> & _)%list_lookup_fmap_Some].
      by rewrite tab_clear.
  - by split.
Qed.

(** In a run on a sensible configuration an activation is handled, and leaves tables
    of the same size. *)
Lemma activation_progress (s : DRAMSpec) order draw (h : Hydra) (c : Ctrl) (req : Request) (a g b row : Z) :
  hydra_static s (hy_const h) -> hydra_config (hy_const h) a g -> sized s h -> activates s order draw h c req b row ->
  exists h' c', Hydra_on_issue order draw h c req = Ok (h', c') /\ sized s h'.
Proof.
  intros HS HC (d & ranks & Hon0 & Hr & Hp & Hsh) [Hon Hact Hc Hlen Hb Hrow Hrange Hord Hdraw].
  destruct (flat_rank s (m_device c) d (addr_vec req) b ranks _ Hon0 Hon Hc Hb Hr Hp) as (Hb0 & Hper0 & Hrank).
  destruct (config_fits s _ a g HS HC) as (HF & H32 & Hib). pose proof Hon as (_ & Es & _).
  destruct (Hc 1) as (rank & sz & Hrk & Hsz & Hrange1); [destruct (dw_levels _ (proj1 Hon)) as (? & _ & ? & _); lia|].
  rewrite Hr in Hsz. injection Hsz as <-.
  destruct (on_issue_progress order draw s (hy_const h) (length (m_bank_nodes d)) ranks HS Hord Hdraw (cg_policy _ a g HC) (cg_counters _ a g HC)
    h c req b row rank) as (h' & c' & H & Hsh'); try done; [by rewrite (hs_rank s _ HS)|].
  exists h', c'. split; [done|]. exists d, ranks. rewrite (sh_const _ _ _ _ _ Hsh'). done.
Qed.

Lemma hydra_run_sized (T : Standard) (s : DRAMSpec) (h : Hydra) (n : Z -> Z -> Z) (a g : Z) :
  T ∈ registry -> built_from T s -> hydra_run s h n -> hydra_config (hy_const h) a g -> sized s h.
Proof.
  intros Hin HB. induction 1 as [c p h Hon H|h h' n Hrun IH H|h h' n c c' req order draw Hrun IH Hact H
    |h h' n c c' req order draw b row rs vrr Hrun IH Hac H Hroom Hrs Hv]; intros HC.
  - by eapply Hydra_setup_sized.
  - pose proof (Hydra_pre_cases _ _ H) as [EC _]. rewrite EC in HC. eapply pre_sized; [done|by apply IH].
  - unfold Hydra_on_issue in H. rewrite Hact in H. injection H as <- <-. by apply IH.
  - rewrite (on_issue_const _ _ _ _ _ _ _ H) in HC. destruct (hydra_run_inv T s h n Hin HB Hrun) as [HS _].
    destruct (activation_progress s order draw h c req a g b row) as (h1 & c1 & H1 & Hsz); auto.
    rewrite H in H1. by injection H1 as <- <-.
Qed.

(** C22. Hydra never lets a row be activated as often as the tracking threshold
    within a reset period without a victim-row refresh for it being queued, where the
    count starts again at such a refresh and at the period boundary, and it handles
    every activation of an existing row, on every standard with a VRR command,
    provided that rows per bank and rows per group are powers of two, the group
    threshold is below the tracking threshold, the cache has at most as many sets
    as a bank has rows and replaces by RANDOM or MIN_COUNT, and that at every
    activation the priority queue has room for all that Hydra sends. *)
Theorem hydra_bounds_activations (T : Standard) (s : DRAMSpec) (h : Hydra) (n : Z -> Z -> Z) (a g : Z) :
  T ∈ registry -> built_from T s -> hydra_run s h n -> hydra_config (hy_const h) a g ->
  (forall b row, 0 <= n b row < hc_tracking_threshold (hy_const h)) /\
  (forall order draw c req b row, activates s order draw h c req b row -> exists h' c', Hydra_on_issue order draw h c req = Ok (h', c')).
Proof.
  intros Hin HB Hrun HC. destruct (hydra_run_inv T s h n Hin HB Hrun) as [HS HI].
  destruct (config_fits s _ a g HS HC) as (HF & _ & _). destruct (HI HF) as (_ & Hbd & N0 & N1 & N2). split.
  - intros b row. split; [apply N0|]. destruct (decide (0 <= row < hc_num_rows_per_bank (hy_const h))) as [Hr|Hr].
    + eapply Z.le_lt_trans; [by apply N1|by apply Hbd].
    + rewrite N2 by done. pose proof (cg_threshold _ a g HC). lia.
  - intros order draw c req b row Hac. pose proof (hydra_run_sized T s h n a g Hin HB Hrun HC) as Hsz.
    destruct (activation_progress s order draw h c req a g b row HS HC Hsz Hac) as (h' & c' & H & _). eauto.
Qed.

(** ** Example: 64 rows per bank, groups of 4, tracking threshold 3, group threshold 1 *)
Definition hydra_or (r : result (Hydra * Ctrl)) : Hydra * Ctrl :=
  match r with
  | Ok p => p
  | Err _ => (mkHydra (mkHydraConst 0 0 0 "" 0 0 0 0 0 0 0 0 0 0 0 0 0 0 0 0 0 0 0 0) 0 [] [] [] [] 0 ∅, empty_ctrl)
  end.
Definition hydra0 : Hydra * Ctrl :=
  hydra_or (h ← Hydra_setup vrr_ctrl_ready (mkHydraParams 3 1 4 64000 32 "MIN_COUNT"); Ok (h, vrr_ctrl_ready)).
Definition hydra_next (p : Hydra * Ctrl) (row : Z) : Hydra * Ctrl :=
  hydra_or (Hydra_on_issue map_to_list (fun _ => 0) p.1 p.2 (act_row row)).
Definition hydra1 := hydra_next hydra0 7.
Definition hydra2 := hydra_next hydra1 7.

Definition vrr_cfg : DramConfig :=
  mkConfig 64 None 8 [1; 2; 2; 2; 64; 1024] (cfg_timing small_cfg ++ [50]) None 14 [].
Definition vrr_spec : DRAMSpec := m_spec (m_device vrr_ctrl_ready).

Lemma vrr_spec_built : built_from DDR4_VRR vrr_spec.
Proof. apply (construct_built DDR4_VRR vrr_cfg). vm_compute. reflexivity. Qed.

Lemma vrr_on_spec (c : Ctrl) : m_device c = m_device vrr_ctrl_ready -> on_spec vrr_spec (m_device c).
Proof.
  intros ->. split_and!; [|done|vm_compute; reflexivity].
  refine (do_wf _ _ (proj1 (init_dev DDR4_VRR vrr_cfg vrr_spec (m_device vrr_ctrl_ready) _ _ _ _ _))); vm_compute; reflexivity.
Qed.

Lemma act_row_activates (p : Hydra * Ctrl) (row : Z) :
  m_device p.2 = m_device vrr_ctrl_ready -> hy_const p.1 = hy_const hydra0.1 -> 0 <= row < 64 ->
  activates vrr_spec map_to_list (fun _ => 0) p.1 p.2 (act_row row) 1 row.
Proof.
  intros ED EC Hr. split; [by apply vrr_on_spec|..]; rewrite ?ED, ?EC.
  - vm_compute. reflexivity.
  - intros j Hj. assert (0 < j <= 3) as Hj' by exact Hj. assert (j = 1 \/ j = 2 \/ j = 3) as [->|[->| ->]] by lia;
      do 2 eexists; (split_and!; [vm_compute; reflexivity..|lia|lia]).
  - vm_compute. congruence.
  - vm_compute. reflexivity.
  - vm_compute. reflexivity.
  - exact Hr.
  - done.
  - done.
Qed.

Lemma hydra2_run : exists n, hydra_run vrr_spec hydra2.1 n /\ n 1 7 = 2.
Proof.
  assert (hydra_run vrr_spec hydra0.1 (fun _ _ => 0)) as H0.
  { apply (hr_setup _ vrr_ctrl_ready (mkHydraParams 3 1 4 64000 32 "MIN_COUNT")); [by apply vrr_on_spec|vm_compute; reflexivity]. }
  pose proof (hr_act _ _ hydra1.1 _ hydra0.2 hydra1.2 _ _ _ 1 7 [] false H0 (act_row_activates hydra0 7 ltac:(vm_compute; reflexivity)
    ltac:(vm_compute; reflexivity) ltac:(lia))) as H1.
  do 3 specialize (H1 ltac:(vm_compute; reflexivity)). specialize (H1 ltac:(split; [done|by intros ?%elem_of_nil])).
  pose proof (hr_act _ _ hydra2.1 _ hydra1.2 hydra2.2 _ _ _ 1 7 (prio hydra2.2) false H1 (act_row_activates hydra1 7 ltac:(vm_compute; reflexivity)
    ltac:(vm_compute; reflexivity) ltac:(lia))) as H2.
  do 3 specialize (H2 ltac:(vm_compute; reflexivity)).
  specialize (H2 ltac:(split; [done|intros Hin; exfalso; revert Hin; apply (bool_decide_eq_false _); vm_compute; reflexivity])).
  eexists. split; [exact H2|]. vm_compute. reflexivity.
Qed.

Lemma hydra_bounds_activations_witness : exists n, n 1 7 = 2 /\ (forall b row, 0 <= n b row < 3).
Proof.
  destruct hydra2_run as (n & Hrun & Hn). exists n. split; [exact Hn|].
  refine (proj1 (hydra_bounds_activations DDR4_VRR vrr_spec hydra2.1 n 6 2 _ vrr_spec_built Hrun _)).
  - apply list_elem_of_In. do 2 right. left. reflexivity.
  - split; try (vm_compute; (reflexivity || congruence)).
    + split; [lia|vm_compute; reflexivity].
    + split; vm_compute; congruence.
    + right. vm_compute. reflexivity.
Defined.

(** Powers of two are needed: groups are found by a shift and initialised by a
    product.  With groups of 6 rows, row 7 belongs to group 0 but its counter is
    not started, and the third activation queues no refresh. *)
Definition hydra_odd : Hydra * Ctrl :=
  hydra_or (h ← Hydra_setup vrr_ctrl_ready (mkHydraParams 3 1 6 64000 32 "MIN_COUNT"); Ok (h, vrr_ctrl_ready)).

Lemma hydra_group_size_misses :
  let p := hydra_next (hydra_next (hydra_next hydra_odd 7) 7) 7 in
  hc_row_group_size (hy_const p.1) = 6 /\ group_of (hy_const p.1) 7 = 0 /\ est p.1 1 7 = 2 /\
  Forall (fun r => final_command r <> hc_vrr_cmd_id (hy_const p.1)) (prio p.2).
Proof. cbn zeta. split_and!; [vm_compute; reflexivity..|]. apply (bool_decide_eq_true_1 _). vm_compute. reflexivity. Qed.
