(* ===== verification/Prac.v ===== *)
(** * The PRAC controller

    [controller/impl/prac_controller.cpp]: per-row activation counters in every
    bank, and the alert back-off (ABO) protocol.  When a row reaches the threshold
    the device raises an alert; after a fixed window the controller enters
    recovery, issues refresh-management commands from a buffer of its own, and
    returns to normal operation after a number of activations.

    The debug printing is left out.  [order] is the iteration order of a hash
    table, as in [Plugins]. *)

From Stdlib Require Import ZArith Lia.
From S2P Require Import Prelude Base Spec Node Standards Device Controller Scheduler GenericDDR Plugins.

Local Open Scope Z_scope.

(** ** State *)
Inductive ABOState := NORMAL | PRE_RECOVERY | RECOVERY | DELAY.

#[export] Instance ABOState_eq_dec : EqDecision ABOState.
Proof. solve_decision. Defined.

(** [std::numeric_limits<Clk_t>::max()]. *)
Definition clk_max : Clk_t := 2 ^ 63 - 1.

(** What [init] reads. *)
Record PracParams := mkPracParams {
  abo_threshold : Z;
  abo_act_ns : Z;
  abo_recovery_refs : Z;
  abo_delay_acts : Z
}.

(** The members that are fixed once [setup] has run. *)
Record PracConst := mkPracConst {
  pc_params : PracParams;
  pc_abo_act_cycles : Z;
  pc_cmd_act : Z;
  pc_cmd_rfmab : Z;
  pc_cmd_rfmsb : Z;
  pc_cmd_preab : Z;
  pc_rank_level : Z;
  pc_bankgroup_level : Z;
  pc_bank_level : Z;
  pc_row_level : Z;
  pc_num_ranks : Z;
  pc_num_banks_per_rank : Z;
  pc_num_banks_per_bankgroup : Z;
  pc_cmd_to_min_cycles : gmap Z Z;
  pc_nRP : Z
}.

(** The run-time state of the protocol. *)
Record ABO := mkABO {
  m_abo_state : ABOState;
  m_abo_recovery_start : Clk_t;
  m_abo_recov_rem_refs : Z;
  m_abo_delay_rem_acts : Z;
  m_abo_needed : bool;
  m_bank_counters : list (gmap Z Z);
  m_critical_rows : list (gmap Z Z);
  m_recovery_setup : bool;
  s_num_recovery : Z
}.

Definition set_counters (a : ABO) (counters critical : list (gmap Z Z)) (needed : bool) : ABO :=
  mkABO (m_abo_state a) (m_abo_recovery_start a) (m_abo_recov_rem_refs a) (m_abo_delay_rem_acts a)
    needed counters critical (m_recovery_setup a) (s_num_recovery a).
Definition set_recovery_setup (a : ABO) (b : bool) : ABO :=
  mkABO (m_abo_state a) (m_abo_recovery_start a) (m_abo_recov_rem_refs a) (m_abo_delay_rem_acts a)
    (m_abo_needed a) (m_bank_counters a) (m_critical_rows a) b (s_num_recovery a).
Definition enter_pre_recovery (a : ABO) (start : Clk_t) : ABO :=
  mkABO PRE_RECOVERY start (m_abo_recov_rem_refs a) (m_abo_delay_rem_acts a)
    (m_abo_needed a) (m_bank_counters a) (m_critical_rows a) (m_recovery_setup a) (s_num_recovery a + 1).
Definition enter_recovery (a : ABO) (refs : Z) : ABO :=
  mkABO RECOVERY clk_max refs (m_abo_delay_rem_acts a)
    (m_abo_needed a) (m_bank_counters a) (m_critical_rows a) (m_recovery_setup a) (s_num_recovery a).
Definition set_rem_refs (a : ABO) (refs : Z) : ABO :=
  mkABO (m_abo_state a) (m_abo_recovery_start a) refs (m_abo_delay_rem_acts a)
    (m_abo_needed a) (m_bank_counters a) (m_critical_rows a) (m_recovery_setup a) (s_num_recovery a).
Definition enter_delay (a : ABO) (acts : Z) : ABO :=
  mkABO DELAY (m_abo_recovery_start a) (m_abo_recov_rem_refs a) acts
    (m_abo_needed a) (m_bank_counters a) (m_critical_rows a) (m_recovery_setup a) (s_num_recovery a).
Definition set_delay_acts (a : ABO) (acts : Z) : ABO :=
  mkABO (m_abo_state a) (m_abo_recovery_start a) (m_abo_recov_rem_refs a) acts
    (m_abo_needed a) (m_bank_counters a) (m_critical_rows a) (m_recovery_setup a) (s_num_recovery a).
Definition enter_normal (a : ABO) (needed : bool) : ABO :=
  mkABO NORMAL (m_abo_recovery_start a) (m_abo_recov_rem_refs a) (m_abo_delay_rem_acts a)
    needed (m_bank_counters a) (m_critical_rows a) false (s_num_recovery a).

(** ** Setup *)

(** The table of cycles a command needs before all banks can be precharged. *)
Definition min_cycles_table (spec : DRAMSpec) (act rfmab rfmsb nRP : Z) : result (gmap Z Z) :=
  nRAS ← get_timing_value spec "nRAS";
  nRTP ← get_timing_value spec "nRTP";
  nCWL ← get_timing_value spec "nCWL";
  nBL ← get_timing_value spec "nBL";
  nWR ← get_timing_value spec "nWR";
  let write_to_pre := nCWL + nBL + nWR in
  rd ← get_command_id spec "RD";
  wr ← get_command_id spec "WR";
  nRFM ← get_timing_value spec "nRFM";
  let t := <[rfmab := nRFM]> (<[wr := write_to_pre + nRP]> (<[rd := nRTP + nRP]>
             (<[act := nRAS + write_to_pre + nRP]> (∅ : gmap Z Z)))) in
  t ← (if 0 <=? rfmsb then n ← get_timing_value spec "nRFMsb"; Ok (<[rfmsb := n]> t) else Ok t);
  t ← (if has_command spec "RFMpb"
       then i ← get_command_id spec "RFMpb"; n ← get_timing_value spec "nRFMpb"; Ok (<[i := n]> t) else Ok t);
  (if has_command spec "REFab"
   then i ← get_command_id spec "REFab"; n ← get_timing_value spec "nRFC"; Ok (<[i := n]> t) else Ok t).

Definition prac_setup_const (d : DRAMDevice) (ps : PracParams) : result PracConst :=
  let spec := m_spec d in
  if negb (has_command spec "RFMab")
  then Err (Throw "PRACController requires a DRAM standard with RFMab command (e.g., DDR5)!")
  else
    act ← get_command_id spec "ACT";
    rfmab ← get_command_id spec "RFMab";
    preab ← get_command_id spec "PREab";
    rfmsb ← (if has_command spec "RFMsb" then get_command_id spec "RFMsb" else Ok (-1));
    rank ← get_level_id spec "Rank";
    bank ← get_level_id spec "Bank";
    row ← get_level_id spec "Row";
    bg ← (if has_level spec "BankGroup"
          then l ← get_level_id spec "BankGroup"; n ← get_level_size spec "Bank"; Ok (l, n)
          else Ok (-1, -1));
    cycles ← ns_to_clk spec (abo_act_ns ps);
    ranks ← get_level_size spec "Rank";
    if ranks =? 0 then Err Undef
    else
      nRP ← get_timing_value spec "nRP";
      table ← min_cycles_table spec act rfmab rfmsb nRP;
      Ok (mkPracConst ps cycles act rfmab rfmsb preab rank bg.1 bank row ranks
            (Z.quot (Z.of_nat (length (m_bank_nodes d))) ranks) bg.2 table nRP).

(** The initial protocol state, one table per bank. *)
Definition abo_init (banks : nat) : ABO :=
  mkABO NORMAL clk_max 0 0 false (replicate banks ∅) (replicate banks ∅) false 0.

(** ** Counters *)
Definition is_rfm (k : PracConst) (req : Request) : bool :=
  (command req =? pc_cmd_rfmab k) || ((0 <=? pc_cmd_rfmsb k) && (command req =? pc_cmd_rfmsb k)).

(** The loop that looks for the most activated row, from [begin()]. *)
Definition max_entry (e : Z * Z) (l : list (Z * Z)) : Z * Z :=
  fold_left (fun m e => if m.2 <? e.2 then e else m) l e.

Section prac.
Context (order : gmap Z Z -> list (Z * Z)).

Definition on_request_for_bank (k : PracConst) (req : Request) (a : ABO) (bank_id : Z) : result ABO :=
  if command req =? pc_cmd_act k then
    row ← vget (addr_vec req) (pc_row_level k);
    counters ← vget (m_bank_counters a) bank_id;
    let count := default 0 (counters !! row) + 1 in
    all ← vset (m_bank_counters a) bank_id (<[row := count]> counters);
    if abo_threshold (pc_params k) <=? count then
      critical ← vget (m_critical_rows a) bank_id;
      crit ← vset (m_critical_rows a) bank_id (<[row := count]> critical);
      Ok (set_counters a all crit true)
    else Ok (set_counters a all (m_critical_rows a) (m_abo_needed a))
  else if is_rfm k req then
    counters ← vget (m_bank_counters a) bank_id;
    match order counters with
    | [] => Ok a
    | e :: l =>
        let max_row := (max_entry e (e :: l)).1 in
        all ← vset (m_bank_counters a) bank_id (<[max_row := 0]> counters);
        critical ← vget (m_critical_rows a) bank_id;
        crit ← vset (m_critical_rows a) bank_id (base.delete max_row critical);
        Ok (set_counters a all crit (m_abo_needed a))
    end
  else Ok a.

(** The banks a request addresses, by its wildcards. *)
Definition update_counters (k : PracConst) (d : DRAMDevice) (req : Request) (a : ABO) : result ABO :=
  let av := addr_vec req in
  bank ← vget av (pc_bank_level k);
  bg_wild ← (if 0 <=? pc_bankgroup_level k
             then g ← vget av (pc_bankgroup_level k); Ok (g =? -1) else Ok false);
  if (bg_wild : bool) && (bank =? -1) then
    rank ← vget av (pc_rank_level k);
    foldM (fun a i => on_request_for_bank k req a (rank * pc_num_banks_per_rank k + i)) a
      (seqZ 0 (pc_num_banks_per_rank k))
  else if (bg_wild : bool) then
    rank ← vget av (pc_rank_level k);
    if pc_num_banks_per_bankgroup k =? 0 then Err Undef
    else
      foldM (fun a i => on_request_for_bank k req a
                          (rank * pc_num_banks_per_rank k + i * pc_num_banks_per_bankgroup k + bank)) a
        (seqZ 0 (Z.quot (pc_num_banks_per_rank k) (pc_num_banks_per_bankgroup k)))
  else if bank =? -1 then
    rank ← vget av (pc_rank_level k);
    g ← vget av (pc_bankgroup_level k);
    foldM (fun a i => on_request_for_bank k req a
                        (rank * pc_num_banks_per_rank k + g * pc_num_banks_per_bankgroup k + i)) a
      (seqZ 0 (pc_num_banks_per_bankgroup k))
  else
    id ← get_flat_bank_id d av;
    on_request_for_bank k req a id.

(** ** The state machine; [issued] is the command issued in this cycle, if any *)
Definition update_state_machine (k : PracConst) (clk : Clk_t) (issued : option Request) (a : ABO) : ABO :=
  match m_abo_state a with
  | NORMAL =>
      if m_abo_needed a then enter_pre_recovery a (clk + pc_abo_act_cycles k) else a
  | PRE_RECOVERY =>
      if clk =? m_abo_recovery_start a
      then enter_recovery a (abo_recovery_refs (pc_params k) * pc_num_ranks k) else a
  | RECOVERY =>
      match issued with
      | Some req =>
          if is_rfm k req then
            let a := set_rem_refs a (m_abo_recov_rem_refs a - 1) in
            if m_abo_recov_rem_refs a <=? 0 then enter_delay a (abo_delay_acts (pc_params k)) else a
          else a
      | None => a
      end
  | DELAY =>
      match issued with
      | Some req =>
          if command req =? pc_cmd_act k then
            let a := set_delay_acts a (m_abo_delay_rem_acts a - 1) in
            if m_abo_delay_rem_acts a <=? 0
            then enter_normal a (existsb (fun m => negb (bool_decide (m = ∅))) (m_critical_rows a)) else a
          else a
      | None => a
      end
  end.

Definition min_cycles_with_preall (k : PracConst) (req : Request) : Z :=
  default 0 (pc_cmd_to_min_cycles k !! command req).

(** A precharge-all per rank, then the recovery refreshes, round by round. *)
Definition inject_recovery_commands (k : PracConst) (spec : DRAMSpec) (channel : Z) (b : ReqBuffer)
  : result ReqBuffer :=
  av ← vset (replicate (Z.to_nat (level_count spec)) 0) 0 channel;
  av ← (if 0 <=? pc_bankgroup_level k then vset av (pc_bankgroup_level k) (-1) else Ok av);
  av ← vset av (pc_bank_level k) (-1);
  let inject cmd b r := av ← vset av (pc_rank_level k) r; Ok (enqueue b (Request_cmd av cmd)).2 in
  b ← foldM (inject (pc_cmd_preab k)) b (seqZ 0 (pc_num_ranks k));
  foldM (fun b _ => foldM (inject (pc_cmd_rfmab k)) b (seqZ 0 (pc_num_ranks k))) b
    (seqZ 0 (abo_recovery_refs (pc_params k))).

(** ** The controller *)
Context {R P G : Type} `{RefreshManager R} `{RowPolicy P} `{ControllerPlugin G} (sch : scheduler_t).

Record PRACController := mkPRAC {
  pr_base : GenericDDR R P G;
  pr_const : PracConst;
  pr_abo : ABO;
  m_prac_buffer : ReqBuffer
}.

Definition PRAC_setup (base : GenericDDR R P G) (ps : PracParams) : result PRACController :=
  k ← prac_setup_const (m_device (g_ctrl base)) ps;
  Ok (mkPRAC base k (abo_init (length (m_bank_nodes (m_device (g_ctrl base))))) (mkReqBuffer [] (2 ^ 31 - 1))).

(** A candidate is in a buffer of the base, or in the recovery buffer. *)
Inductive prac_loc := InBase (id : buf_id) (i : nat) | InPrac (i : nat).

(** [pick_best_ready_from(m_prac_buffer, filter)]. *)
Definition pick_prac (c : Ctrl) (b : ReqBuffer) (filter : filter_t) : result (ReqBuffer * option nat) :=
  p ← sch c b filter;
  match p.2 with
  | None => Ok (p.1, None)
  | Some i =>
      match buffer p.1 !! i with
      | None => Err Undef
      | Some r =>
          ok ← ctrl_check_timing c (command r) (addr_vec r);
          Ok (p.1, if (ok : bool) then Some i else None)
      end
  end.

Definition fits_filter (k : PracConst) (a : ABO) (clk : Clk_t) : filter_t :=
  fun req => Ok (clk + min_cycles_with_preall k req <? m_abo_recovery_start a).
Definition prac_buffer_filter (k : PracConst) (a : ABO) : filter_t :=
  fun req => Ok (negb ((command req =? pc_cmd_rfmab k) && bool_decide (m_abo_state a = PRE_RECOVERY))).

Definition base_cand (k : candidate) : option prac_loc := option_map (fun p => InBase p.1 p.2) k.

(** Active, recovery, priority, read/write; a recovery buffer with no ready
    command blocks the last two. *)
Definition prac_pick (k : PracConst) (a : ABO) (c : Ctrl) (b : ReqBuffer)
  : result (Ctrl * ReqBuffer * option prac_loc) :=
  let fits := fits_filter k a (m_clk c) in
  act ← pick_best_ready_from sch c BActive fits;
  match act.2 with
  | Some p => Ok (act.1, b, base_cand (Some p))
  | None =>
      if negb (buf_size b =? 0) then
        q ← pick_prac act.1 b (prac_buffer_filter k a);
        Ok (act.1, q.1, option_map InPrac q.2)
      else
        pri ← pick_priority_if act.1 fits;
        match pri.2 with
        | Some p => Ok (pri.1, b, base_cand (Some p))
        | None =>
            if buf_size (m_priority_buffer pri.1) =? 0
            then rw ← pick_rw_if sch pri.1 fits; Ok (rw.1, b, base_cand rw.2)
            else Ok (pri.1, b, None)
        end
  end.

(** [issue_candidate] and [advance_request] on the recovery buffer. *)
Definition issue_prac (p : P) (c : Ctrl) (b : ReqBuffer) (i : nat) : result (Ctrl * ReqBuffer * Request) :=
  match buffer b !! i with
  | None => Err Undef
  | Some r =>
      r ← rp_try_upgrade_command p c r;
      let b := set_at b i r in
      q ← (if negb (is_stat_updated r) then on_side_buffer update_request_stats c b i else Ok (c, b));
      match buffer q.2 !! i with
      | None => Err Undef
      | Some r =>
          d ← issue_command (m_device q.1) (command r) (addr_vec r) (m_clk q.1);
          Ok (set_device q.1 d, q.2, r)
      end
  end.

Definition issue_loc (p : P) (c : Ctrl) (b : ReqBuffer) (l : prac_loc) : result (Ctrl * ReqBuffer * Request) :=
  match l with
  | InBase id i => c ← issue_candidate p c id i; r ← req_at c id i; Ok (c, b, r)
  | InPrac i => issue_prac p c b i
  end.

Definition advance_loc (c : Ctrl) (b : ReqBuffer) (l : prac_loc) : result (Ctrl * ReqBuffer) :=
  match l with
  | InBase id i => c ← advance_request c id i; Ok (c, b)
  | InPrac i => on_side_buffer advance_request c b i
  end.

(** The branch of [tick] for a valid candidate; returns the issued request. *)
Definition prac_serve (g : PRACController) (l : prac_loc) : result (PRACController * Request) :=
  let base := pr_base g in
  q ← issue_loc (g_policy base) (g_ctrl base) (m_prac_buffer g) l;
  let r := q.2 in
  p ← rp_on_issue (g_policy base) q.1.1 r;
  pl ← each_plugin (fun g c => pl_on_issue g c r) (g_plugins base) q.1.1;
  a ← update_counters (pr_const g) (m_device pl.2) r (pr_abo g);
  cb ← advance_loc pl.2 q.1.2 l;
  Ok (mkPRAC (mkGDDR cb.1 (g_refresh base) p pl.1) (pr_const g) a cb.2, r).

(** The recovery commands, injected once per alert shortly before the window closes. *)
Definition prac_inject (g : PRACController) : result PRACController :=
  let a := pr_abo g in
  let c := g_ctrl (pr_base g) in
  if negb (m_abo_recovery_start a =? clk_max) && negb (m_recovery_setup a) &&
     (m_abo_recovery_start a <=? m_clk c + (pc_nRP (pr_const g) + 5))
  then
    b ← inject_recovery_commands (pr_const g) (m_spec (m_device c)) (m_channel_id c) (m_prac_buffer g);
    Ok (mkPRAC (pr_base g) (pr_const g) (set_recovery_setup a true) b)
  else Ok g.

Definition prac_schedule (g : PRACController) : result (PRACController * option Request) :=
  q ← prac_pick (pr_const g) (pr_abo g) (g_ctrl (pr_base g)) (m_prac_buffer g);
  let base := pr_base g in
  let g := mkPRAC (mkGDDR q.1.1 (g_refresh base) (g_policy base) (g_plugins base)) (pr_const g) (pr_abo g) q.1.2 in
  match q.2 with
  | None => Ok (g, None)
  | Some l => s ← prac_serve g l; Ok (s.1, Some s.2)
  end.

Definition PRAC_tick (g : PRACController) : result PRACController :=
  base ← pre_hooks (pr_base g);
  g ← prac_inject (mkPRAC base (pr_const g) (pr_abo g) (m_prac_buffer g));
  s ← prac_schedule g;
  let g := s.1 in
  let a := update_state_machine (pr_const g) (m_clk (g_ctrl (pr_base g))) s.2 (pr_abo g) in
  base ← post_hooks (pr_base g);
  Ok (mkPRAC base (pr_const g) a (m_prac_buffer g)).
End prac.
Arguments PRACController : clear implicits.
