(* ===== verification/PracProps.v ===== *)
(** * The alert back-off protocol of the PRAC controller: theorems *)

From Stdlib Require Import ZArith Lia SpecFloat.
From S2P Require Import Prelude Base Spec Node Commands Standards Device Controller Scheduler GenericDDR.
From S2P Require Import ControllerFacts ControllerInv ControllerProps Refresh RefreshProps.
From S2P Require Import ActiveInv Plugins Prac Examples CtrlExamples.

Local Open Scope Z_scope.

(** ** The counters *)

(** A row's activation count is in the table of critical rows from the threshold on. *)
Definition crit_exact (thr : Z) (a : ABO) : Prop :=
  length (m_critical_rows a) = length (m_bank_counters a) /\
  forall i m mc, m_bank_counters a !! i = Some m -> m_critical_rows a !! i = Some mc ->
    forall row v, mc !! row = Some v <-> m !! row = Some v /\ thr <= v.

Definition some_critical (a : ABO) : Prop :=
  exists i mc row v, m_critical_rows a !! i = Some mc /\ mc !! row = Some v.

Record counters_ok (thr : Z) (a : ABO) : Prop := mkCountersOk {
  co_exact : crit_exact thr a;
  co_needed : some_critical a -> m_abo_needed a = true
}.

(** What the counters do not touch. *)
Definition phase (a : ABO) : ABOState * Clk_t * Z * Z * bool :=
  (m_abo_state a, m_abo_recovery_start a, m_abo_recov_rem_refs a, m_abo_delay_rem_acts a, m_recovery_setup a).

(** Writing one row of one bank in both tables. *)
Lemma crit_exact_write (thr : Z) (a : ABO) (b : nat) (m mc mc' : gmap Z Z) (row v : Z) (needed : bool) :
  crit_exact thr a -> m_bank_counters a !! b = Some m -> m_critical_rows a !! b = Some mc ->
  (forall r w, mc' !! r = Some w <-> (if decide (r = row) then w = v /\ thr <= v else mc !! r = Some w)) ->
  crit_exact thr (set_counters a (<[b := <[row := v]> m]> (m_bank_counters a)) (<[b := mc']> (m_critical_rows a)) needed).
Proof.
  intros [Hl Hx] Hm Hmc Hmc'. split; simpl; [by rewrite !length_insert|]. intros i n nc Hn Hnc r w.
  destruct (decide (i = b)) as [->|Hne].
  - rewrite list_lookup_insert_eq in Hn by (by eapply lookup_lt_Some). injection Hn as <-.
    rewrite list_lookup_insert_eq in Hnc by (by eapply lookup_lt_Some). injection Hnc as <-.
    rewrite Hmc'. destruct (decide (r = row)) as [->|Hr].
    + rewrite lookup_insert_eq. naive_solver.
    + rewrite lookup_insert_ne by done. by apply (Hx b).
  - rewrite list_lookup_insert_ne in Hn, Hnc by done. by apply (Hx i).
Qed.

Section props.
Context (order : gmap Z Z -> list (Z * Z)).

Lemma on_request_ok (k : PracConst) (req : Request) (a a' : ABO) (bank : Z) :
  0 < abo_threshold (pc_params k) -> on_request_for_bank order k req a bank = Ok a' ->
  counters_ok (abo_threshold (pc_params k)) a -> counters_ok (abo_threshold (pc_params k)) a' /\ phase a' = phase a.
Proof.
  intros Ht H [Hx Hn]. unfold on_request_for_bank in H. destruct (command req =? pc_cmd_act k).
  - apply bind_Ok in H as (row & _ & H). apply bind_Ok in H as (m & [_ Hm]%vget_Ok & H).
    apply bind_Ok in H as (all & [Hr ->]%vset_Ok & H). set (n := default 0 (m !! row) + 1) in *.
    assert (Hlen := proj1 Hx). destruct (lookup_lt_is_Some_2 (m_critical_rows a) (Z.to_nat bank)) as [mc Hmc].
    { rewrite Hlen. by eapply lookup_lt_Some. }
    destruct (Z.leb_spec (abo_threshold (pc_params k)) n) as [Hge|Hlt].
    + apply bind_Ok in H as (mc0 & [_ Hmc0]%vget_Ok & H). apply bind_Ok in H as (crit & [_ ->]%vset_Ok & H).
      rewrite Hmc in Hmc0. injection Hmc0 as <-. injection H as <-. split; [|done]. constructor; [|done].
      apply (crit_exact_write _ _ _ m mc); try done. intros r w. destruct (decide (r = row)) as [->|Hne].
      * rewrite lookup_insert_eq. naive_solver.
      * by rewrite lookup_insert_ne.
    + injection H as <-. split; [|done]. constructor; [|exact Hn].
      rewrite <- (list_insert_id (m_critical_rows a) _ _ Hmc).
      apply (crit_exact_write _ _ _ m mc); try done. intros r w. destruct (decide (r = row)) as [->|Hne]; [|done].
      split; [|lia]. intros [Hv ?]%(proj2 Hx _ _ _ Hm Hmc). unfold n in Hlt. rewrite Hv in Hlt. simpl in Hlt. lia.
  - destruct (is_rfm k req); [|by injection H as <-]. apply bind_Ok in H as (m & [_ Hm]%vget_Ok & H).
    destruct (order m) as [|e l]; [by injection H as <-|]. set (row := (max_entry e (e :: l)).1) in *.
    apply bind_Ok in H as (all & [Hr ->]%vset_Ok & H). apply bind_Ok in H as (mc & [_ Hmc]%vget_Ok & H).
    apply bind_Ok in H as (crit & [_ ->]%vset_Ok & H). injection H as <-. split; [|done]. constructor.
    + apply (crit_exact_write _ _ _ m mc); try done. intros r w. destruct (decide (r = row)) as [->|Hne].
      * rewrite lookup_delete_eq. split; [done|lia].
      * by rewrite lookup_delete_ne.
    + intros (i & mi & r & v & Hi & Hv). simpl in *. apply Hn. destruct (decide (i = Z.to_nat bank)) as [->|Hne].
      * rewrite list_lookup_insert_eq in Hi by (by eapply lookup_lt_Some). injection Hi as <-.
        apply lookup_delete_Some in Hv as [_ Hv]. by exists (Z.to_nat bank), mc, r, v.
      * rewrite list_lookup_insert_ne in Hi by done. by exists i, mi, r, v.
Qed.

Lemma update_counters_ok (k : PracConst) (d : DRAMDevice) (req : Request) (a a' : ABO) :
  0 < abo_threshold (pc_params k) -> update_counters order k d req a = Ok a' ->
  counters_ok (abo_threshold (pc_params k)) a -> counters_ok (abo_threshold (pc_params k)) a' /\ phase a' = phase a.
Proof.
  intros Ht H Ha.
  assert (Hfold : forall (f : Z -> Z) l, foldM (fun a i => on_request_for_bank order k req a (f i)) a l = Ok a' ->
            counters_ok (abo_threshold (pc_params k)) a' /\ phase a' = phase a).
  { intros f l. apply (foldM_inv (fun b => counters_ok (abo_threshold (pc_params k)) b /\ phase b = phase a)); [done|].
    intros b b' x _ [Hb Hp] Hs. destruct (on_request_ok k req b b' _ Ht Hs Hb) as [? E]. split; [done|congruence]. }
  unfold update_counters in H. apply bind_Ok in H as (bank & _ & H). apply bind_Ok in H as (w & _ & H).
  destruct (w && (bank =? -1)).
  { apply bind_Ok in H as (rank & _ & H). by eapply Hfold. }
  destruct w.
  { apply bind_Ok in H as (rank & _ & H). destruct (_ =? 0); [done|]. by eapply (Hfold (fun i => _)). }
  destruct (bank =? -1).
  { apply bind_Ok in H as (rank & _ & H). apply bind_Ok in H as (g & _ & H). by eapply Hfold. }
  apply bind_Ok in H as (id & _ & H). by eapply on_request_ok.
Qed.

(** ** The controller *)
Context {R P G : Type} `{IR : RefreshManager R} `{IP : RowPolicy P} `{IG : ControllerPlugin G}.
Context (Q : Ctrl -> Request -> Prop).
Context `{!RefreshLaws Q R} `{!RowPolicyLaws Q P} `{!PluginLaws Q G}.
Context (apply : Request -> result Request) `{!AddrMapperLaws apply}.
Context (sch : scheduler_t) `{!SchedulerLaws sch}.

Implicit Types g : PRACController R P G.

Definition pr_clk (g : PRACController R P G) : Clk_t := m_clk (g_ctrl (pr_base g)).

(** The steps of [gstep], on the PRAC controller. *)
Definition with_ctrl (g : PRACController R P G) (c : Ctrl) : PRACController R P G :=
  mkPRAC (mkGDDR c (g_refresh (pr_base g)) (g_policy (pr_base g)) (g_plugins (pr_base g)))
    (pr_const g) (pr_abo g) (m_prac_buffer g).

Inductive pstep (g : PRACController R P G) : PRACController R P G -> Prop :=
| pstep_send r r' ok c' : send apply (g_ctrl (pr_base g)) r = Ok (ok, r', c') -> pstep g (with_ctrl g c')
| pstep_priority r ok c' :
    type_id r = -1 -> priority_send (g_ctrl (pr_base g)) r = Ok (ok, c') -> pstep g (with_ctrl g c')
| pstep_tick g' : PRAC_tick order sch g = Ok g' -> pstep g g'.

(** *** The clock *)
Lemma side_buffer_clk (f : Ctrl -> buf_id -> nat -> result Ctrl) (c c' : Ctrl) (b b' : ReqBuffer) (i : nat) :
  (forall c c' id i, f c id i = Ok c' -> m_clk c' = m_clk c) ->
  on_side_buffer f c b i = Ok (c', b') -> m_clk c' = m_clk c.
Proof. intros Hf H. unfold on_side_buffer in H. apply bind_Ok in H as (c1 & H1 & H). injection H as <- _. apply (Hf _ _ _ _ H1). Qed.

Lemma prac_pick_clk (k : PracConst) (a : ABO) (c c' : Ctrl) (b b' : ReqBuffer) (o : option prac_loc) :
  prac_pick sch k a c b = Ok (c', b', o) -> m_clk c' = m_clk c.
Proof.
  unfold prac_pick. intros ([c1 k1] & H1%(pick_best_same sch) & H)%bind_Ok. apply sb_clk in H1. simpl in *.
  destruct k1; [by injection H as <- _ _|]. destruct (negb _).
  { apply bind_Ok in H as (q & _ & H). by injection H as <- _ _. }
  apply bind_Ok in H as ([c2 k2] & H2%pick_priority_same & H). apply sb_clk in H2. simpl in *.
  destruct k2; [injection H as <- _ _; congruence|]. destruct (_ =? 0); [|injection H as <- _ _; congruence].
  apply bind_Ok in H as ([c3 k3] & H3 & H). injection H as <- _ _. simpl. unfold pick_rw_if in H3.
  apply (pick_best_same sch) in H3. apply sb_clk in H3. rewrite H3, (sb_clk _ _ (set_write_mode_same c2)). congruence.
Qed.

Lemma issue_loc_clk (p : P) (c c' : Ctrl) (b b' : ReqBuffer) (l : prac_loc) (r : Request) :
  issue_loc p c b l = Ok (c', b', r) -> m_clk c' = m_clk c.
Proof.
  destruct l as [id i|i]; simpl.
  - intros (c1 & H1%(issue_candidate_same Q) & H)%bind_Ok. apply bind_Ok in H as (r1 & _ & H).
    injection H as <- _ _. by apply sb_clk.
  - unfold issue_prac. destruct (buffer b !! i) as [r0|]; [|done]. intros (r1 & _ & H)%bind_Ok.
    apply bind_Ok in H as ([c1 b1] & H1 & H). simpl in *. destruct (buffer b1 !! i); [|done].
    apply bind_Ok in H as (d & _ & H). injection H as <- _ _. simpl.
    destruct (negb _); [|by injection H1 as <- _]. eapply side_buffer_clk; [|exact H1].
    intros. by eapply sb_clk, update_request_stats_same.
Qed.

Lemma advance_loc_clk (c c' : Ctrl) (b b' : ReqBuffer) (l : prac_loc) :
  advance_loc c b l = Ok (c', b') -> m_clk c' = m_clk c.
Proof.
  destruct l as [id i|i]; simpl.
  - intros (c1 & H1%advance_clk & H)%bind_Ok. by injection H as <- _.
  - apply side_buffer_clk. intros. by eapply advance_clk.
Qed.

(** *** One clock edge *)

(** What scheduling does to the protocol: the issued command is counted. *)
Lemma prac_schedule_ok g g' (o : option Request) :
  0 < abo_threshold (pc_params (pr_const g)) -> prac_schedule order sch g = Ok (g', o) ->
  counters_ok (abo_threshold (pc_params (pr_const g))) (pr_abo g) ->
  pr_const g' = pr_const g /\ pr_clk g' = pr_clk g /\ phase (pr_abo g') = phase (pr_abo g) /\
  counters_ok (abo_threshold (pc_params (pr_const g))) (pr_abo g').
Proof.
  intros Ht H Ha. unfold prac_schedule in H. apply bind_Ok in H as ([[c1 b1] l] & H1%prac_pick_clk & H). simpl in *.
  destruct l as [l|]; [|by injection H as <- <-]. apply bind_Ok in H as ([g2 r] & H2 & H). injection H as <- _. simpl.
  unfold prac_serve in H2. simpl in H2. apply bind_Ok in H2 as ([[c2 b2] r2] & H3%issue_loc_clk & H2). simpl in *.
  apply bind_Ok in H2 as (p & _ & H2). apply bind_Ok in H2 as ([gs c3] & H4 & H2).
  apply bind_Ok in H2 as (a & H5 & H2). apply bind_Ok in H2 as ([c4 b4] & H6%advance_loc_clk & H2).
  injection H2 as <- _. simpl in *. apply (each_plugin_sends Q) in H4; [|intros ? ? ? ?; apply plugin_issue_sends].
  apply sends_clk in H4. destruct (update_counters_ok _ _ _ _ _ Ht H5 Ha) as [? ?].
  split_and!; [done|unfold pr_clk; simpl; congruence|done|done].
Qed.

(** The protocol state machine's input in a clock edge: the state before it, with
    the commands injected and the issued command counted. *)
Lemma prac_tick_ok g g' :
  0 < abo_threshold (pc_params (pr_const g)) -> PRAC_tick order sch g = Ok g' ->
  counters_ok (abo_threshold (pc_params (pr_const g))) (pr_abo g) ->
  pr_const g' = pr_const g /\ pr_clk g' = pr_clk g + 1 /\
  exists a1 o s, pr_abo g' = update_state_machine (pr_const g) (pr_clk g') o a1 /\
    counters_ok (abo_threshold (pc_params (pr_const g))) a1 /\
    phase a1 = phase (set_recovery_setup (pr_abo g) s) /\
    (s = m_recovery_setup (pr_abo g) \/ s = true /\ m_abo_recovery_start (pr_abo g) <> clk_max) /\
    (m_abo_recovery_start (pr_abo g) <> clk_max ->
     m_abo_recovery_start (pr_abo g) <= pr_clk g' + (pc_nRP (pr_const g) + 5) -> s = true).
Proof.
  intros Ht H Ha. unfold PRAC_tick in H. apply bind_Ok in H as (base & H1 & H). apply bind_Ok in H as (g1 & H2 & H).
  apply bind_Ok in H as ([g2 o] & H3 & H). apply bind_Ok in H as (base' & H4 & H). injection H as <-.
  destruct (pre_hooks_clk Q _ _ H1) as [E1 _]. destruct (post_hooks_clk Q _ _ H4) as [E4 _]. simpl in *.
  assert (exists s, pr_const g1 = pr_const g /\ pr_base g1 = base /\ pr_abo g1 = set_recovery_setup (pr_abo g) s /\
    (s = m_recovery_setup (pr_abo g) \/ s = true /\ m_abo_recovery_start (pr_abo g) <> clk_max) /\
    (m_abo_recovery_start (pr_abo g) <> clk_max ->
     m_abo_recovery_start (pr_abo g) <= m_clk (g_ctrl base) + (pc_nRP (pr_const g) + 5) -> s = true))
    as (s & Ek & Eb & Ea & Hs1 & Hs2).
  { clear -H2. unfold prac_inject in H2. simpl in H2. destruct (_ && _) eqn:E.
    - apply bind_Ok in H2 as (b & _ & H2). injection H2 as <-. exists true. simpl. split_and!; try done. right. split; [done|lia].
    - injection H2 as <-. exists (m_recovery_setup (pr_abo g)). simpl. split_and!; [done|done|by destruct (pr_abo g)|by left|].
      destruct (m_recovery_setup (pr_abo g)); [done|]. lia. }
  destruct (prac_schedule_ok g1 g2 o) as (Ek2 & Ec2 & Hp & Hc); [by rewrite Ek|done| |].
  { rewrite Ek, Ea. destruct Ha as [[Hl Hx] Hn]. constructor; [split; [exact Hl|exact Hx]|exact Hn]. }
  rewrite Ek in *. unfold pr_clk in *. rewrite Eb in Ec2. simpl. split_and!; [congruence|congruence|].
  exists (pr_abo g2), o, s. rewrite E4, Ek2. split_and!; try done; [congruence|]. intros ? ?. apply Hs2; [done|lia].
Qed.

(** ** The invariant of the protocol *)
Record abo_ok (k : PracConst) (clk : Clk_t) (a : ABO) : Prop := mkAboOk {
  ao_counters : counters_ok (abo_threshold (pc_params k)) a;
  ao_state : match m_abo_state a with
    | NORMAL => m_abo_recovery_start a = clk_max /\ m_recovery_setup a = false
    | PRE_RECOVERY => clk < m_abo_recovery_start a <= clk + pc_abo_act_cycles k
    | RECOVERY => m_abo_recovery_start a = clk_max /\
        0 < m_abo_recov_rem_refs a <= abo_recovery_refs (pc_params k) * pc_num_ranks k /\
        (clk < clk_max -> m_recovery_setup a = true)
    | DELAY => m_abo_recovery_start a = clk_max
    end
}.

(** Configurations under which the protocol is live. *)
Record params_ok (k : PracConst) : Prop := mkParamsOk {
  po_threshold : 0 < abo_threshold (pc_params k);
  po_refs : 0 < abo_recovery_refs (pc_params k);
  po_act : 0 < pc_abo_act_cycles k;
  po_ranks : 0 < pc_num_ranks k;
  po_nRP : 0 <= pc_nRP k
}.

Lemma existsb_critical (a : ABO) :
  existsb (fun m : gmap Z Z => negb (bool_decide (m = ∅))) (m_critical_rows a) = false -> ~ some_critical a.
Proof.
  intros H (i & mc & row & v & Hi & Hv). apply not_true_iff_false in H. apply H, existsb_exists. exists mc. split.
  - apply list_elem_of_In. by eapply list_elem_of_lookup_2.
  - rewrite bool_decide_eq_false_2; [done|]. intros ->. done.
Qed.

Lemma state_machine_counters (k : PracConst) (clk : Clk_t) (o : option Request) (a : ABO) (thr : Z) :
  counters_ok thr a -> counters_ok thr (update_state_machine k clk o a).
Proof.
  intros Ha. unfold update_state_machine.
  assert (Hkeep : forall a', m_bank_counters a' = m_bank_counters a -> m_critical_rows a' = m_critical_rows a ->
            m_abo_needed a' = m_abo_needed a -> counters_ok thr a').
  { destruct Ha as [Hx Hn]. intros a' E1 E2 E3. constructor; unfold crit_exact, some_critical in *; by rewrite ?E1, ?E2, ?E3. }
  destruct (m_abo_state a).
  - by destruct (m_abo_needed a) eqn:E; [apply Hkeep|].
  - by destruct (_ =? _); [apply Hkeep|].
  - destruct o as [r|]; [|done]. by destruct (is_rfm k r); [destruct (_ <=? 0); apply Hkeep|].
  - destruct o as [r|]; [|done]. destruct (_ =? _); [|done]. destruct (_ <=? 0); [|by apply Hkeep].
    destruct Ha as [Hx Hn]. constructor; [exact Hx|]. intros Hs. simpl.
    destruct (existsb (fun m : gmap Z Z => negb (bool_decide (m = ∅))) (m_critical_rows a)) eqn:E; [done|].
    by destruct (existsb_critical _ E).
Qed.

(** The next phase, from the phase before the clock edge. *)
Lemma state_machine_ok (k : PracConst) (clk : Clk_t) (o : option Request) (a a1 : ABO) (s : bool) :
  params_ok k -> abo_ok k clk a -> counters_ok (abo_threshold (pc_params k)) a1 ->
  phase a1 = phase (set_recovery_setup a s) ->
  (s = m_recovery_setup a \/ s = true /\ m_abo_recovery_start a <> clk_max) ->
  (m_abo_recovery_start a <> clk_max -> m_abo_recovery_start a <= clk + 1 + (pc_nRP k + 5) -> s = true) ->
  abo_ok k (clk + 1) (update_state_machine k (clk + 1) o a1).
Proof.
  intros [Ht Hr Ha Hk Hp] [_ Hst] Hc Hph Hs1 Hs2. constructor; [by apply state_machine_counters|].
  injection Hph as E1 E2 E3 E4 E5. simpl in *. unfold update_state_machine. rewrite E1 in *.
  destruct (m_abo_state a) eqn:Es.
  - destruct (m_abo_needed a1); simpl; [lia|]. rewrite E1, E2, E5. destruct Hst as [Hst Hset]. split; [done|].
    by destruct Hs1 as [->|[_ Hne]]; [|destruct Hne].
  - rewrite E2. destruct (Z.eqb_spec (clk + 1) (m_abo_recovery_start a)) as [E|E]; simpl.
    + rewrite E5. split_and!; [done|nia|lia|]. intros Hm. apply Hs2; lia.
    + rewrite E1, E2. lia.
  - destruct Hst as (Hst & Hrem & Hset).
    assert (Hs : clk + 1 < clk_max -> s = true) by (intros; destruct Hs1 as [->|[-> _]]; [apply Hset; lia|done]).
    destruct o as [r|]; [|by rewrite E1, E2, E3, E5]. destruct (is_rfm k r); [|by rewrite E1, E2, E3, E5]. simpl.
    rewrite E3. destruct (Z.leb_spec (m_abo_recov_rem_refs a - 1) 0); simpl; [by rewrite E2|].
    rewrite E1, E2, E5. split_and!; [done|lia|lia|done].
  - destruct o as [r|]; [|by rewrite E1, E2]. destruct (_ =? _); [|by rewrite E1, E2]. simpl.
    destruct (_ <=? 0); simpl; [by rewrite E2|by rewrite E1, E2].
Qed.

(** ** Reachable controllers *)
Definition prac_ok (g : PRACController R P G) : Prop :=
  params_ok (pr_const g) /\ abo_ok (pr_const g) (pr_clk g) (pr_abo g).

(** A step is a clock edge or leaves the protocol and the clock alone. *)
Lemma pstep_cases g g' : pstep g g' ->
  PRAC_tick order sch g = Ok g' \/
  pr_const g' = pr_const g /\ pr_abo g' = pr_abo g /\ pr_clk g' = pr_clk g.
Proof.
  intros [r r' ok c' Hs|r ok c' Ht Hs|g1 Hs]; [right|right|by left].
  - split_and!; [done|done|]. by eapply send_clk.
  - split_and!; [done|done|]. by destruct (priority_send_frame _ _ _ _ Hs) as (_ & _ & ? & _).
Qed.

Lemma prac_tick_inv g g' : PRAC_tick order sch g = Ok g' -> prac_ok g -> prac_ok g'.
Proof.
  intros H [Hk Ha]. destruct (prac_tick_ok g g' (po_threshold _ Hk) H (ao_counters _ _ _ Ha))
    as (Ek & Ec & a1 & o & s & Ea & Hc & Hp & Hs1 & Hs2).
  unfold prac_ok. rewrite Ea, Ek, Ec in *. split; [done|]. by eapply state_machine_ok.
Qed.

Lemma prac_reach g g' : rtc pstep g g' -> prac_ok g -> prac_ok g' /\ pr_const g' = pr_const g.
Proof.
  induction 1 as [g|g1 g2 g3 Hs _ IH]; [done|]. intros Hg.
  assert (prac_ok g2 /\ pr_const g2 = pr_const g1) as [H2 E].
  { destruct (pstep_cases _ _ Hs) as [Ht|(E1 & E2 & E3)].
    - split; [by eapply prac_tick_inv|]. destruct Hg as [Hk Ha].
      by destruct (prac_tick_ok g1 g2 (po_threshold _ Hk) Ht (ao_counters _ _ _ Ha)).
    - unfold prac_ok. by rewrite E1, E2, E3. }
  destruct (IH H2) as [? ?]. split; [done|congruence].
Qed.

Lemma setup_ok (base : GenericDDR R P G) (ps : PracParams) g :
  PRAC_setup base ps = Ok g ->
  pc_params (pr_const g) = ps /\ (params_ok (pr_const g) -> prac_ok g).
Proof.
  unfold PRAC_setup. intros (k & Hk & H)%bind_Ok. injection H as <-. simpl. split.
  - unfold prac_setup_const in Hk. destruct (negb _); [done|]. by inv_res; repeat case_match; inv_res.
  - intros Hp. split; [done|]. simpl.
    assert (Hnc : forall i mc, replicate (length (m_bank_nodes (m_device (g_ctrl base)))) (∅ : gmap Z Z) !! i = Some mc -> mc = ∅).
    { intros i mc Hi. by apply lookup_replicate in Hi as [-> _]. }
    constructor; [constructor; [split; [done|]|]|done]; simpl.
    + intros i m mc ->%Hnc ->%Hnc row v. rewrite lookup_empty. naive_solver.
    + intros (i & mc & row & v & Hi%Hnc & Hv). by subst.
Qed.

(** Where the protocol is, relative to the clock the recovery was announced for. *)
Definition timeline (start : Clk_t) (g : PRACController R P G) : Prop :=
  pr_clk g < start /\ m_abo_state (pr_abo g) = PRE_RECOVERY /\ m_abo_recovery_start (pr_abo g) = start \/
  pr_clk g = start /\ m_abo_state (pr_abo g) = RECOVERY /\
    m_abo_recov_rem_refs (pr_abo g) = abo_recovery_refs (pc_params (pr_const g)) * pc_num_ranks (pr_const g) \/
  start < pr_clk g.

Lemma timeline_reach (start : Clk_t) g g' : rtc pstep g g' -> prac_ok g -> timeline start g -> timeline start g'.
Proof.
  induction 1 as [g|g1 g2 g3 Hs H IH]; [done|]. intros Hg Htl.
  apply IH; [by apply (prac_reach g1 g2 (rtc_once _ _ Hs))|]. clear IH H.
  destruct (pstep_cases _ _ Hs) as [Ht|(E1 & E2 & E3)]; [|unfold timeline; by rewrite E1, E2, E3].
  destruct Hg as [Hk Ha]. destruct (prac_tick_ok g1 g2 (po_threshold _ Hk) Ht (ao_counters _ _ _ Ha))
    as (Ek & Ec & a1 & o & s & Ea & _ & Hp & _).
  destruct Htl as [(Hlt & Hst & Hstart)|[(Hlt & _)|Hlt]]; [|right; right; lia|right; right; lia].
  injection Hp as E1 E2 _ _ _. simpl in *. unfold timeline. rewrite Ea. unfold update_state_machine.
  rewrite E1, Hst, E2, Hstart. destruct (Z.eqb_spec (pr_clk g2) start) as [E|E].
  - right. left. rewrite Ek. done.
  - left. rewrite E1, E2. split_and!; [lia|done|done].
Qed.

(** C40. The alert protocol of every reachable PRAC controller whose alert threshold,
    number of recovery refreshes, number of ranks and alert window in cycles are at
    least 1 and whose nRP is not negative, for any scheduler, refresh manager, row
    policy and plugins: the critical rows of a bank are exactly those whose activation
    count is at least the threshold, and while there is one an alert is due; a
    pending recovery lies at most one alert window ahead, and in recovery its
    commands have been injected and some are outstanding.  When a row is critical
    after a clock edge in normal operation, that edge raises the alert, and exactly
    the window's number of cycles later, and not before, the controller enters
    recovery with every rank's refreshes still to do. *)
Theorem prac_alert_protocol (base : GenericDDR R P G) (ps : PracParams) g0 g :
  PRAC_setup base ps = Ok g0 -> params_ok (pr_const g0) -> rtc pstep g0 g ->
  let a := pr_abo g in
  let window := pc_abo_act_cycles (pr_const g0) in
  crit_exact (abo_threshold ps) a /\ (some_critical a -> m_abo_needed a = true) /\
  (m_abo_state a = PRE_RECOVERY -> pr_clk g < m_abo_recovery_start a <= pr_clk g + window) /\
  (m_abo_state a = RECOVERY -> 0 < m_abo_recov_rem_refs a /\ (pr_clk g < clk_max -> m_recovery_setup a = true)) /\
  forall g1, PRAC_tick order sch g = Ok g1 -> m_abo_state a = NORMAL -> some_critical (pr_abo g1) ->
    m_abo_state (pr_abo g1) = PRE_RECOVERY /\
    forall g2, rtc pstep g1 g2 ->
      (pr_clk g2 < pr_clk g1 + window -> m_abo_state (pr_abo g2) = PRE_RECOVERY) /\
      (pr_clk g2 = pr_clk g1 + window -> m_abo_state (pr_abo g2) = RECOVERY /\
         m_abo_recov_rem_refs (pr_abo g2) = abo_recovery_refs ps * pc_num_ranks (pr_const g0)).
Proof.
  intros Hs Hp Hr. destruct (setup_ok _ _ _ Hs) as [Eps Hok]. specialize (Hok Hp).
  destruct (prac_reach _ _ Hr Hok) as [[Hk Ha] Ek]. rewrite <- Ek in *. simpl.
  pose proof Ha as [[Hx Hn] Hst]. rewrite Eps in Hx. split_and!; [done|done| | |].
  - intros E. by rewrite E in Hst.
  - intros E. rewrite E in Hst. destruct Hst as (_ & [? _] & ?). done.
  - intros g1 Ht HN Hc. pose proof (prac_tick_inv g g1 Ht (conj Hk Ha)) as Hg1.
    destruct (prac_tick_ok g g1 (po_threshold _ Hk) Ht (ao_counters _ _ _ Ha)) as (Ek1 & Ec & a1 & o & s & Ea & Hc1 & Hph & _).
    injection Hph as E1 _ _ _ _. simpl in E1. unfold update_state_machine in Ea. rewrite E1, HN in Ea.
    assert (m_abo_needed a1 = true) as Hneed.
    { destruct (m_abo_needed a1) eqn:E; [done|]. rewrite Ea in Hc. rewrite (co_needed _ _ Hc1 Hc) in E. done. }
    rewrite Hneed in Ea. split; [by rewrite Ea|]. intros g2 Hr2.
    pose proof (po_act _ Hk). destruct (timeline_reach (pr_clk g1 + pc_abo_act_cycles (pr_const g)) g1 g2 Hr2 Hg1) as [(H1 & H2 & _)|[(H1 & H2 & H3)|H1]].
    + left. rewrite Ea. simpl. split; [lia|done].
    + split; [done|lia].
    + split; [lia|]. intros _. split; [done|]. destruct (prac_reach _ _ Hr2 Hg1) as [_ Ek2]. by rewrite H3, Ek2, Ek1, Eps.
    + lia.
Qed.

(** A window that is already over is missed for good: the comparison with the
    recovery clock is for equality, so a configuration with an empty window
    ([abo_act_ns] below one clock) never leaves [PRE_RECOVERY]. *)
Lemma prac_window_missed g g' :
  rtc pstep g g' -> 0 < abo_threshold (pc_params (pr_const g)) ->
  counters_ok (abo_threshold (pc_params (pr_const g))) (pr_abo g) ->
  m_abo_state (pr_abo g) = PRE_RECOVERY -> m_abo_recovery_start (pr_abo g) <= pr_clk g ->
  m_abo_state (pr_abo g') = PRE_RECOVERY /\ m_abo_recovery_start (pr_abo g') <= pr_clk g'.
Proof.
  induction 1 as [g|g1 g2 g3 Hs _ IH]; [done|]. intros Ht Hc Hst Hle.
  destruct (pstep_cases _ _ Hs) as [Hk|(E1 & E2 & E3)]; [|apply IH; by rewrite ?E1, ?E2, ?E3].
  destruct (prac_tick_ok g1 g2 Ht Hk Hc) as (Ek & Ec & a1 & o & s & Ea & Hc1 & Hp & _).
  injection Hp as E1 E2 _ _ _. simpl in *.
  assert (pr_abo g2 = a1) as E.
  { rewrite Ea. unfold update_state_machine. rewrite E1, Hst, E2. by rewrite (proj2 (Z.eqb_neq _ _)) by lia. }
  rewrite E, Ek in IH. apply IH; [done|done|congruence|]. rewrite E2. lia.
Qed.
End props.

(** ** On a small DDR5 device: threshold 2, a window of 64 cycles, one refresh per rank *)
Definition prac_dram : DramConfig :=
  mkConfig 32 None 8 [1; 2; 2; 2; 64; 1024]
    [3200; 8; 10; 10; 10; 25; 35; 12; 6; 9; 2; 8; 8; 8; 8; 8; 8; 8; 8; 4; 6; 3; 9; 20; 100; 2000; 60; 2; 625; 50; 40; 10]
    None 18 (cfg_timing_constraints ddr4_cfg).
Definition prac_ctrl_cfg : CtrlConfig := mkCtrlConfig f32_0_2 f32_0_8 32 32 64 "DDR5" prac_dram.
Definition prac_base : GenericDDR NoRefresh OpenRowPolicy Empty_set :=
  mkGDDR (setup_base (match init_base prac_ctrl_cfg with Ok c => c | Err _ => empty_ctrl end) 1) mkNoRefresh mkOpen [].
Definition prac_params : PracParams := mkPracParams 2 40 1 1.

Definition small_prac : Type := PRACController NoRefresh OpenRowPolicy Empty_set.
Definition prac_or (r : result small_prac) : small_prac :=
  match r with
  | Ok g => g
  | Err _ => mkPRAC prac_base (mkPracConst prac_params 0 0 0 0 0 0 0 0 0 0 0 0 ∅ 0) (abo_init 0) (mkReqBuffer [] 0)
  end.
Definition prac0 : small_prac := prac_or (PRAC_setup prac_base prac_params).

Definition prac_drive (g : small_prac) (s : stimulus) : result small_prac :=
  match s with
  | Offer r => q ← send keep_vec (g_ctrl (pr_base g)) r; Ok (with_ctrl g q.2)
  | Edge => PRAC_tick map_to_list FRFCFS g
  end.

Lemma prac_drive_reaches (g g' : small_prac) (l : list stimulus) :
  foldM prac_drive g l = Ok g' -> rtc (pstep map_to_list keep_vec FRFCFS) g g'.
Proof.
  revert g. induction l as [|s l IH]; intros g H; simpl in H; [by injection H as <-|].
  apply bind_Ok in H as (g1 & H1 & H). econstructor; [|by apply IH]. destruct s as [r|]; simpl in H1.
  - apply bind_Ok in H1 as ([[ok r'] c'] & Hs & H1). injection H1 as <-. by eapply pstep_send.
  - by apply pstep_tick.
Qed.

(** Row 5, row 6 and row 5 again, in one bank. *)
Definition prac_stimuli : list stimulus :=
  [Offer (access Read 1 0 0 0 5 0)] ++ replicate 30 Edge ++ [Offer (access Read 2 0 0 0 6 0)] ++
  replicate 60 Edge ++ [Offer (access Read 3 0 0 0 5 0)] ++ replicate 10 Edge.
Definition prac_before : small_prac := prac_or (foldM prac_drive prac0 prac_stimuli).
Definition prac_alert : small_prac := prac_or (PRAC_tick map_to_list FRFCFS prac_before).
Definition prac_recovering : small_prac := prac_or (foldM prac_drive prac_alert (replicate 64 Edge)).

Lemma prac_alert_protocol_witness :
  m_abo_state (pr_abo prac_alert) = PRE_RECOVERY /\ pr_clk prac_alert = 101 /\
  m_abo_state (pr_abo prac_recovering) = RECOVERY /\ m_abo_recov_rem_refs (pr_abo prac_recovering) = 2.
Proof.
  assert (Hr : rtc (pstep map_to_list keep_vec FRFCFS) prac0 prac_before).
  { apply (prac_drive_reaches _ _ prac_stimuli). vm_compute. reflexivity. }
  assert (Hr2 : rtc (pstep map_to_list keep_vec FRFCFS) prac_alert prac_recovering).
  { apply (prac_drive_reaches _ _ (replicate 64 Edge)). vm_compute. reflexivity. }
  assert (Hs : some_critical (pr_abo prac_alert)).
  { exists O, {[5 := 2]}, 5, 2. split; vm_compute; reflexivity. }
  destruct (prac_alert_protocol map_to_list any_request keep_vec FRFCFS prac_base prac_params prac0 prac_before)
    as (_ & _ & _ & _ & H); [vm_compute; reflexivity|constructor; vm_compute; congruence|exact Hr|].
  destruct (H prac_alert) as (H1 & H2); [vm_compute; reflexivity|vm_compute; reflexivity|exact Hs|].
  destruct (H2 prac_recovering Hr2) as [_ H3].
  destruct H3 as [H3 H4]; [vm_compute; reflexivity|].
  split; [exact H1|]. split; [vm_compute; reflexivity|]. split; [exact H3|]. rewrite H4. vm_compute. reflexivity.
Defined.
