(* ===== verification/HBM.v ===== *)
(** * Controllers with split command buses

    [controller/impl/hbm_controller_base.h] and [.cpp] (a column and a row command
    per cycle), [hbm12_controller.cpp], [hbm34_controller.cpp] (the rules for clock
    edges and pseudo-channel pairing) and [gddr7_controller.cpp] (the read-clock
    modes).

    The virtual [slot_matches] is the parameter [slot_matches] of
    [try_issue_slot]; it reads the specification and the clock of the controller.
    A tick also returns the commands issued on the two buses.  The sub-components
    call [priority_send] of the base: the override of GDDR7 only adds checks on
    read-clock commands, which none of them sends. *)

From Stdlib Require Import ZArith Lia.
From S2P Require Import Prelude Base Spec Node Standards Device Controller Scheduler GenericDDR.

Local Open Scope Z_scope.

Inductive SlotType := ColumnBus | RowBus.

#[export] Instance SlotType_eq_dec : EqDecision SlotType.
Proof. solve_decision. Defined.

Record IssuedCommand := mkIssued {
  ic_slot : SlotType;
  ic_command : Z;
  ic_addr_vec : AddrVec_t;
  ic_clk : Clk_t
}.

(** A [slot_matches], given the specification and the clock. *)
Definition slot_filter : Type := DRAMSpec -> Clk_t -> SlotType -> Request -> result bool.

Definition base_slot_matches : slot_filter := fun spec clk slot req =>
  meta ← vget (command_meta spec) (command req);
  Ok (match slot with ColumnBus => is_column_command meta | RowBus => is_row_command meta end).

Section hbm_base.
Context {R P G : Type} `{RefreshManager R} `{RowPolicy P} `{ControllerPlugin G} (sch : scheduler_t).

(** The cascade of [try_issue_slot]; the row bus leaves the active buffer out. *)
Definition hbm_pick (f : filter_t) (slot : SlotType) (c : Ctrl) : result (Ctrl * candidate) :=
  a ← (match slot with ColumnBus => pick_best_ready_from sch c BActive f | RowBus => Ok (c, None) end);
  b ← (match a.2 with None => pick_priority_if a.1 f | Some _ => Ok a end);
  match b.2 with
  | None => if buf_size (m_priority_buffer b.1) =? 0 then pick_rw_if sch b.1 f else Ok b
  | Some _ => Ok b
  end.

(** The policy's upgrade, unless the upgraded command does not fit the slot. *)
Definition hbm_upgrade (p : P) (f : filter_t) (c : Ctrl) (r : Request) : result Request :=
  r' ← rp_try_upgrade_command p c r;
  if negb (command r' =? command r)
  then ok ← f r'; Ok (if (ok : bool) then r' else set_command r' (command r))
  else Ok r'.

Definition hbm_issue (p : P) (f : filter_t) (c : Ctrl) (id : buf_id) (i : nat) : result Ctrl :=
  r ← req_at c id i;
  r ← hbm_upgrade p f c r;
  let c := put_req c id i r in
  c ← (if negb (is_stat_updated r) then update_request_stats c id i else Ok c);
  r ← req_at c id i;
  d ← issue_command (m_device c) (command r) (addr_vec r) (m_clk c);
  Ok (set_device c d).

Definition try_issue_slot (slot_matches : slot_filter) (slot : SlotType) (g : GenericDDR R P G)
  : result (GenericDDR R P G * option IssuedCommand) :=
  let f := slot_matches (m_spec (m_device (g_ctrl g))) (m_clk (g_ctrl g)) slot in
  k ← hbm_pick f slot (g_ctrl g);
  match k.2 with
  | None => Ok (mkGDDR k.1 (g_refresh g) (g_policy g) (g_plugins g), None)
  | Some (id, i) =>
      c ← hbm_issue (g_policy g) f k.1 id i;
      r ← req_at c id i;
      let issued := mkIssued slot (command r) (addr_vec r) (m_clk c) in
      p ← rp_on_issue (g_policy g) c r;
      q ← each_plugin (fun g c => pl_on_issue g c r) (g_plugins g) c;
      c ← advance_request q.2 id i;
      Ok (mkGDDR c (g_refresh g) p q.1, Some issued)
  end.

(** ** HBM1 and HBM2: the base as it is *)
Definition HBM12_tick (g : GenericDDR R P G)
  : result (GenericDDR R P G * option IssuedCommand * option IssuedCommand) :=
  g ← pre_hooks g;
  col ← try_issue_slot base_slot_matches ColumnBus g;
  row ← try_issue_slot base_slot_matches RowBus col.1;
  g ← post_hooks row.1;
  Ok (g, col.2, row.2).

(** ** HBM3 and HBM4 *)
Record RisingEdgeCommandInfo := mkRising {
  ri_command : Z;
  ri_pc : Z;
  ri_bank_key : Z;
  ri_next_pairing_falling_edge : Clk_t
}.

Record HBM34Const := mkHBM34Const {
  hk_cmd_act : Z;
  hk_cmd_prepb : Z;
  hk_cmd_preab : Z;
  hk_cmd_refab : Z;
  hk_cmd_rfmab : Z;
  hk_level_pc : Z;
  hk_level_sid : Z;
  hk_level_bg : Z;
  hk_level_bank : Z;
  hk_bank_groups : Z;
  hk_banks_per_group : Z
}.

Record HBM34 := mkHBM34 {
  hb_base : GenericDDR R P G;
  hb_const : HBM34Const;
  hb_rising_column_pc : Z;
  hb_rising : RisingEdgeCommandInfo
}.

Definition HBM34_init (base : GenericDDR R P G) : result HBM34 :=
  let spec := m_spec (m_device (g_ctrl base)) in
  act ← get_command_id spec "ACT";
  prepb ← get_command_id spec "PREpb";
  preab ← get_command_id spec "PREab";
  refab ← get_command_id spec "REFab";
  rfmab ← (if has_command spec "RFMab" then get_command_id spec "RFMab" else Ok (-1));
  pc ← get_level_id spec "PseudoChannel";
  sid ← get_level_id spec "Sid";
  bg ← get_level_id spec "BankGroup";
  bank ← get_level_id spec "Bank";
  groups ← get_level_size spec "BankGroup";
  banks ← get_level_size spec "Bank";
  Ok (mkHBM34 base (mkHBM34Const act prepb preab refab rfmab pc sid bg bank groups banks) (-1)
        (mkRising (-1) (-1) (-1) (-1))).

Definition is_rising_edge (clk : Clk_t) : bool := Z.rem clk 2 =? 1.

Definition is_all_bank_row_command (k : HBM34Const) (cmd : Z) : bool :=
  (cmd =? hk_cmd_preab k) || (cmd =? hk_cmd_refab k) || (cmd =? hk_cmd_rfmab k).

Definition bank_key (k : HBM34Const) (av : AddrVec_t) : result Z :=
  sid ← vget av (hk_level_sid k);
  bg ← vget av (hk_level_bg k);
  bank ← vget av (hk_level_bank k);
  Ok ((sid * hk_bank_groups k + bg) * hk_banks_per_group k + bank).

Definition can_issue_falling_edge_pre (k : HBM34Const) (ri : RisingEdgeCommandInfo) (clk : Clk_t) (cand : Request)
  : result bool :=
  if negb (clk =? ri_next_pairing_falling_edge ri) then Ok true
  else
    pc ← vget (addr_vec cand) (hk_level_pc k);
    if negb (ri_pc ri =? pc) then Ok true
    else if is_all_bank_row_command k (ri_command ri) then Ok false
    else if command cand =? hk_cmd_prepb k then key ← bank_key k (addr_vec cand); Ok (negb (key =? ri_bank_key ri))
    else Ok false.

Definition hbm34_slot_matches (k : HBM34Const) (column_pc : Z) (ri : RisingEdgeCommandInfo) : slot_filter :=
  fun spec clk slot req =>
  if is_rising_edge clk then
    blocked ← (if bool_decide (slot = RowBus) && (0 <=? column_pc) && is_all_bank_row_command k (command req)
               then pc ← vget (addr_vec req) (hk_level_pc k); Ok ((pc <? 0) || (pc =? column_pc))
               else Ok false);
    if (blocked : bool) then Ok false else base_slot_matches spec clk slot req
  else if bool_decide (slot = ColumnBus) then Ok false
  else if negb (command req =? hk_cmd_prepb k) && negb (command req =? hk_cmd_preab k) then Ok false
  else can_issue_falling_edge_pre k ri clk req.

Definition record_rising_row_issued_command_info (k : HBM34Const) (ic : IssuedCommand) : result RisingEdgeCommandInfo :=
  pc ← vget (ic_addr_vec ic) (hk_level_pc k);
  key ← (if is_all_bank_row_command k (ic_command ic) then Ok (-1) else bank_key k (ic_addr_vec ic));
  Ok (mkRising (ic_command ic) pc key (ic_clk ic + (if ic_command ic =? hk_cmd_act k then 3 else 1))).

Definition HBM34_tick (g : HBM34) : result (HBM34 * option IssuedCommand * option IssuedCommand) :=
  base ← pre_hooks (hb_base g);
  let k := hb_const g in
  let rising_edge := is_rising_edge (m_clk (g_ctrl base)) in
  col ← (if rising_edge
         then try_issue_slot (hbm34_slot_matches k (-1) (hb_rising g)) ColumnBus base else Ok (base, None));
  column_pc ← (match col.2 with Some ic => vget (ic_addr_vec ic) (hk_level_pc k) | None => Ok (-1) end);
  row ← try_issue_slot (hbm34_slot_matches k column_pc (hb_rising g)) RowBus col.1;
  ri ← (match row.2 with
        | Some ic => if rising_edge then record_rising_row_issued_command_info k ic else Ok (hb_rising g)
        | None => Ok (hb_rising g)
        end);
  base ← post_hooks row.1;
  Ok (mkHBM34 base k column_pc ri, col.2, row.2).

(** ** GDDR7 *)
Inductive RCKMode := AlwaysOn | StartWithRead | StartWithRCKStrt.
Inductive RCKState := Stopped | Toggling.

#[export] Instance RCKMode_eq_dec : EqDecision RCKMode.
Proof. solve_decision. Defined.
#[export] Instance RCKState_eq_dec : EqDecision RCKState.
Proof. solve_decision. Defined.

Record GDDR7Const := mkGDDR7Const {
  gk_rck_mode : RCKMode;
  gk_rck_idle_threshold : Z;
  gk_cmd_rckstrt : Z;
  gk_cmd_rckstop : Z;
  gk_cmd_rd : Z;
  gk_cmd_rda : Z;
  gk_channel_level : Z
}.

Record GDDR7Controller := mkGDDR7 {
  gd_base : GenericDDR R P G;
  gd_const : GDDR7Const;
  gd_rck_state : RCKState;
  gd_last_read_clk : Clk_t
}.

Definition parse_rck_mode (s : string) : result RCKMode :=
  if bool_decide (s = "always_on") then Ok AlwaysOn
  else if bool_decide (s = "start_with_read") then Ok StartWithRead
  else if bool_decide (s = "start_with_rckstrt") then Ok StartWithRCKStrt
  else Err (Throw ("GDDR7: unsupported rck_mode '" +:+ s +:+
              "'; allowed values are 'always_on', 'start_with_read', and 'start_with_rckstrt'")).

Definition GDDR7_init (base : GenericDDR R P G) (mode : string) (idle_threshold : Z) : result GDDR7Controller :=
  mode ← parse_rck_mode mode;
  if idle_threshold <? 0 then Err (Throw "GDDR7: rck_idle_threshold must be non-negative")
  else
    let spec := m_spec (m_device (g_ctrl base)) in
    strt ← get_command_id spec "RCKSTRT";
    stop ← get_command_id spec "RCKSTOP";
    rd ← get_command_id spec "RD";
    rda ← get_command_id spec "RDA";
    channel ← get_level_id spec "Channel";
    Ok (mkGDDR7 base (mkGDDR7Const mode idle_threshold strt stop rd rda channel)
          (if bool_decide (mode = AlwaysOn) then Toggling else Stopped) (-1)).

Definition GDDR7_priority_send (g : GDDR7Controller) (req : Request) : result (bool * GDDR7Controller) :=
  let k := gd_const g in
  let is_rckstrt := final_command req =? gk_cmd_rckstrt k in
  let is_rckstop := final_command req =? gk_cmd_rckstop k in
  if bool_decide (gk_rck_mode k = AlwaysOn) && (is_rckstrt || is_rckstop)
  then Err (Throw "GDDR7: RCKSTRT/RCKSTOP are not legal when rck_mode='always_on'")
  else if bool_decide (gk_rck_mode k = StartWithRead) && is_rckstrt
  then Err (Throw "GDDR7: RCKSTRT is not legal when rck_mode='start_with_read'")
  else
    q ← priority_send (g_ctrl (gd_base g)) req;
    Ok (q.1, mkGDDR7 (with_base_ctrl (gd_base g) q.2) k (gd_rck_state g) (gd_last_read_clk g)).

Definition is_read_like (k : GDDR7Const) (cmd : Z) : bool := (cmd =? gk_cmd_rd k) || (cmd =? gk_cmd_rda k).

Definition gddr7_slot_matches (k : GDDR7Const) (st : RCKState) : slot_filter := fun spec clk slot req =>
  ok ← base_slot_matches spec clk slot req;
  Ok (ok && negb (bool_decide (gk_rck_mode k = StartWithRCKStrt) && bool_decide (st = Stopped) &&
                  is_read_like k (command req))).

Definition priority_buffer_contains (c : Ctrl) (cmd : Z) : bool :=
  existsb (fun r => final_command r =? cmd) (buffer (m_priority_buffer c)).

Definition reads_waiting (c : Ctrl) : bool :=
  (0 <? buf_size (m_read_buffer c)) || existsb (fun r => type_id r =? Read) (buffer (m_active_buffer c)).

Definition get_rck_cmd (g : GDDR7Controller) : Z :=
  let k := gd_const g in
  let c := g_ctrl (gd_base g) in
  if bool_decide (gk_rck_mode k = AlwaysOn) then -1
  else if bool_decide (gk_rck_mode k = StartWithRCKStrt) && bool_decide (gd_rck_state g = Stopped) &&
          reads_waiting c && negb (priority_buffer_contains c (gk_cmd_rckstrt k))
  then gk_cmd_rckstrt k
  else if bool_decide (gd_rck_state g = Toggling) && (0 <=? gd_last_read_clk g) && negb (reads_waiting c) &&
          (gk_rck_idle_threshold k <=? m_clk c - gd_last_read_clk g) &&
          negb (priority_buffer_contains c (gk_cmd_rckstop k))
  then gk_cmd_rckstop k
  else -1.

Definition try_issue_internal_rck (g : GDDR7Controller) : result (GenericDDR R P G * option IssuedCommand) :=
  let base := gd_base g in
  let c := g_ctrl base in
  let cmd := get_rck_cmd g in
  if cmd <? 0 then Ok (base, None)
  else
    av ← vset (replicate (Z.to_nat (level_count (m_spec (m_device c)))) (-1)) (gk_channel_level (gd_const g))
           (m_channel_id c);
    ok ← ctrl_check_timing c cmd av;
    if negb ok then Ok (base, None)
    else
      let req := set_command (Request_cmd av cmd) cmd in
      d ← issue_command (m_device c) cmd av (m_clk c);
      let c := set_device c d in
      let issued := mkIssued ColumnBus cmd av (m_clk c) in
      p ← rp_on_issue (g_policy base) c req;
      q ← each_plugin (fun g c => pl_on_issue g c req) (g_plugins base) c;
      Ok (mkGDDR q.2 (g_refresh base) p q.1, Some issued).

Definition update_rck_state_on_issue (issued : option IssuedCommand) (g : GDDR7Controller) : GDDR7Controller :=
  let k := gd_const g in
  let base := gd_base g in
  let c := g_ctrl base in
  match issued with
  | None => g
  | Some ic =>
      if ic_command ic =? gk_cmd_rckstrt k
      then mkGDDR7 (with_base_ctrl base (bump c "num_rckstrt_issued" 1)) k Toggling (gd_last_read_clk g)
      else if ic_command ic =? gk_cmd_rckstop k
      then mkGDDR7 (with_base_ctrl base (bump c "num_rckstop_issued" 1)) k Stopped (gd_last_read_clk g)
      else if is_read_like k (ic_command ic)
      then mkGDDR7 base k
             (if bool_decide (gk_rck_mode k = StartWithRead) && bool_decide (gd_rck_state g = Stopped)
              then Toggling else gd_rck_state g) (m_clk c)
      else g
  end.

Definition GDDR7_tick (g : GDDR7Controller) : result (GDDR7Controller * option IssuedCommand * option IssuedCommand) :=
  base ← pre_hooks (gd_base g);
  let g := mkGDDR7 base (gd_const g) (gd_rck_state g) (gd_last_read_clk g) in
  let f := gddr7_slot_matches (gd_const g) (gd_rck_state g) in
  rck ← try_issue_internal_rck g;
  col ← (match rck.2 with Some _ => Ok rck | None => try_issue_slot f ColumnBus rck.1 end);
  row ← try_issue_slot f RowBus col.1;
  let g := mkGDDR7 row.1 (gd_const g) (gd_rck_state g) (gd_last_read_clk g) in
  let g := update_rck_state_on_issue row.2 (update_rck_state_on_issue col.2 g) in
  base ← post_hooks (gd_base g);
  Ok (mkGDDR7 base (gd_const g) (gd_rck_state g) (gd_last_read_clk g), col.2, row.2).
End hbm_base.
Arguments HBM34 : clear implicits.
Arguments GDDR7Controller : clear implicits.
