(* ===== verification/HBMProps.v ===== *)
(** * Split command buses: theorems

    What a slot issues, and the edge and pairing rules of the HBM3/HBM4 buses over
    whole runs of the controller; and the starvation of a write under the closed-row
    policy. *)

From Stdlib Require Import ZArith Lia SpecFloat.
From S2P Require Import Prelude Base Spec Node Commands Standards Device Controller Scheduler GenericDDR.
From S2P Require Import ControllerFacts ControllerInv ControllerProps Refresh RefreshProps ActiveInv.
From S2P Require Import HBM Examples CtrlExamples.

Local Open Scope Z_scope.

(** ** The candidate passed the filter *)
Definition passed (f : filter_t) (c : Ctrl) (k : candidate) : Prop :=
  forall id i, k = Some (id, i) -> exists r, req_at c id i = Ok r /\ f r = Ok true.

(** A filter that reads the command and the address only. *)
Definition cmd_filter (f : filter_t) : Prop :=
  forall r r', command r' = command r -> addr_vec r' = addr_vec r -> f r' = f r.

Section slot.
Context {R P G : Type} `{IR : RefreshManager R} `{IP : RowPolicy P} `{IG : ControllerPlugin G}.
Context (Q : Ctrl -> Request -> Prop).
Context `{!RefreshLaws Q R} `{!RowPolicyLaws Q P} `{!PluginLaws Q G}.
Context (sch : scheduler_t) `{!SchedulerLaws sch}.

Lemma pick_best_passed (c c' : Ctrl) (id : buf_id) (f : filter_t) (k : candidate) :
  pick_best_ready_from sch c id f = Ok (c', k) -> passed f c' k.
Proof.
  unfold pick_best_ready_from. intros ([b o] & Hs & H)%bind_Ok id' i E. simpl in H.
  destruct o as [j|]; [|injection H as _ <-; done].
  apply bind_Ok in H as (r & Hr & H). apply bind_Ok in H as (ok & _ & H). injection H as <- <-.
  destruct ok; [|done]. injection E as <- <-. exists r. split; [done|].
  destruct (sched_choice _ _ _ _ _ Hs) as (r' & Hr' & Hf). apply req_at_lookup in Hr. rewrite get_set_buf, decide_True in Hr by done.
  by rewrite Hr in Hr'; injection Hr' as <-.
Qed.

Lemma pick_priority_passed (c c' : Ctrl) (f : filter_t) (k : candidate) :
  pick_priority_if c f = Ok (c', k) -> passed f c' k.
Proof.
  unfold pick_priority_if. intros H id i ->. destruct (_ =? 0); [done|].
  apply bind_Ok in H as (r & Hr & H). apply bind_Ok in H as (cmd & _ & H). apply bind_Ok in H as (ok & _ & H).
  destruct (negb ok); [done|]. apply bind_Ok in H as (w & _ & H). destruct w; [done|].
  apply bind_Ok in H as (e & He & H). injection H as <- E. destruct e; [|done]. injection E as <- <-.
  exists (set_command r cmd). split; [|done]. apply req_at_lookup in Hr. apply req_at_lookup.
  unfold put_req. rewrite get_set_buf, decide_True by done. apply list_lookup_insert_eq. by eapply lookup_lt_Some.
Qed.

Lemma pick_rw_passed (c c' : Ctrl) (f : filter_t) (k : candidate) :
  pick_rw_if sch c f = Ok (c', k) -> passed f c' k.
Proof.
  unfold pick_rw_if. intros H%pick_best_passed id i ->. destruct (H id i eq_refl) as (r & Hr & Hf).
  exists r. split; [done|]. apply bind_Ok in Hf as (w & _ & Hf). by destruct w.
Qed.

Lemma hbm_pick_spec (f : filter_t) (slot : SlotType) (c c' : Ctrl) (k : candidate) :
  hbm_pick sch f slot c = Ok (c', k) -> same_base c c' /\ passed f c' k.
Proof.
  unfold hbm_pick. intros ([c1 k1] & H1 & H)%bind_Ok. apply bind_Ok in H as ([c2 k2] & H2 & H). simpl in *.
  assert (same_base c c1 /\ passed f c1 k1) as [B1 P1].
  { destruct slot; [split; [by eapply pick_best_same|by eapply pick_best_passed]|]. by injection H1 as <- <-. }
  assert (same_base c c2 /\ passed f c2 k2) as [B2 P2].
  { destruct k1; [by injection H2 as <- <-|]. split; [etrans; [exact B1|by eapply pick_priority_same]|by eapply pick_priority_passed]. }
  destruct k2; [by injection H as <- <-|]. destruct (_ =? 0); [|by injection H as <- <-].
  split; [|by eapply pick_rw_passed]. etrans; [exact B2|]. unfold pick_rw_if in H.
  etrans; [apply set_write_mode_same|by eapply pick_best_same].
Qed.

Lemma hbm_upgrade_spec (p : P) (f : filter_t) (c : Ctrl) (r r' : Request) :
  cmd_filter f -> hbm_upgrade p f c r = Ok r' -> f r = Ok true -> same_req r r' /\ f r' = Ok true.
Proof.
  intros Hcf H Hf. unfold hbm_upgrade in H. apply bind_Ok in H as (r1 & Hu%upgrade_same & H).
  destruct (Z.eqb_spec (command r1) (command r)) as [E|E]; simpl in H.
  - injection H as <-. split; [done|]. rewrite <- Hf. apply Hcf; [done|]. by destruct Hu as (_ & _ & ? & _).
  - apply bind_Ok in H as (ok & Hok & H). injection H as <-. destruct ok; [done|].
    split; [etrans; [exact Hu|apply set_command_same]|]. rewrite <- Hf. apply Hcf; [done|]. by destruct Hu as (_ & _ & ? & _).
Qed.

Lemma hbm_issue_spec (p : P) (f : filter_t) (c c' : Ctrl) (id : buf_id) (i : nat) :
  cmd_filter f -> hbm_issue p f c id i = Ok c' -> passed f c (Some (id, i)) ->
  same_base c c' /\ exists r, req_at c' id i = Ok r /\ f r = Ok true.
Proof.
  intros Hcf H Hp. destruct (Hp id i eq_refl) as (r & Hr & Hf). unfold hbm_issue in H. rewrite Hr in H. simpl in H.
  apply bind_Ok in H as (r1 & Hu & H). destruct (hbm_upgrade_spec _ _ _ _ _ Hcf Hu Hf) as [Hs Hf1].
  assert (same_base c (put_req c id i r1)) as Hb by (by eapply put_req_same).
  assert (req_at (put_req c id i r1) id i = Ok r1) as Hr1.
  { apply req_at_lookup in Hr. apply req_at_lookup. unfold put_req. rewrite get_set_buf, decide_True by done.
    apply list_lookup_insert_eq. by eapply lookup_lt_Some. }
  apply bind_Ok in H as (c1 & Hc1 & H). apply bind_Ok in H as (r2 & Hr2 & H). apply bind_Ok in H as (d & Hd & H).
  injection H as <-.
  assert (same_base c c1 /\ f r2 = Ok true) as [Hb1 Hf2].
  { destruct (negb (is_stat_updated r1)).
    - split; [etrans; [exact Hb|by eapply update_request_stats_same]|].
      destruct (update_stats_fin _ _ _ _ _ Hr1 Hc1) as [_ E]. rewrite Hr2 in E. injection E as ->.
      rewrite <- Hf1. by apply Hcf.
    - injection Hc1 as <-. rewrite Hr1 in Hr2. by injection Hr2 as <-. }
  split; [etrans; [exact Hb1|]; apply set_device_same; by eapply issue_command_frame|].
  exists r2. split; [|done]. by destruct id.
Qed.

(** One slot: at most one command, which fits the slot at the current clock. *)
Lemma try_issue_slot_spec (sm : slot_filter) (slot : SlotType) (g g' : GenericDDR R P G) (o : option IssuedCommand) :
  (forall spec clk, cmd_filter (sm spec clk slot)) -> try_issue_slot sch sm slot g = Ok (g', o) ->
  m_clk (g_ctrl g') = m_clk (g_ctrl g) /\ m_spec (m_device (g_ctrl g')) = m_spec (m_device (g_ctrl g)) /\
  (1 <= read_latency (m_spec (m_device (g_ctrl g))) -> base_inv (g_ctrl g) -> base_inv (g_ctrl g')) /\
  forall ic, o = Some ic -> ic_slot ic = slot /\ ic_clk ic = m_clk (g_ctrl g) /\
    exists r, command r = ic_command ic /\ addr_vec r = ic_addr_vec ic /\
      sm (m_spec (m_device (g_ctrl g))) (m_clk (g_ctrl g)) slot r = Ok true.
Proof.
  intros Hcf H. unfold try_issue_slot in H. apply bind_Ok in H as ([c1 k] & H1 & H). simpl in H.
  destruct (hbm_pick_spec _ _ _ _ _ H1) as [Hb1 Hp1]. pose proof (sb_clk _ _ Hb1) as E1. pose proof (sb_spec _ _ Hb1) as S1.
  destruct k as [[id i]|].
  2: { injection H as <- <-. simpl. split_and!; [done|done| |done]. intros _. by apply same_base_inv. }
  apply bind_Ok in H as (c2 & H2 & H). destruct (hbm_issue_spec _ _ _ _ _ _ (Hcf _ _) H2 Hp1) as [Hb2 (r & Hr & Hf)].
  pose proof (sb_clk _ _ Hb2) as E2. pose proof (sb_spec _ _ Hb2) as S2.
  rewrite Hr in H. simpl in H. apply bind_Ok in H as (p & _ & H). apply bind_Ok in H as ([gs c3] & H3 & H).
  apply bind_Ok in H as (c4 & H4 & H). injection H as <- <-. simpl in *.
  apply (each_plugin_sends Q) in H3; [|intros ? ? ? ?; apply plugin_issue_sends].
  pose proof (sends_clk Q _ _ H3) as E3. destruct (sends_inv Q _ _ H3) as [D3 I3].
  pose proof (advance_clk _ _ _ _ H4) as E4. pose proof (advance_device _ _ _ _ H4) as D4.
  assert (S3 : m_spec (m_device c3) = m_spec (m_device (g_ctrl g))) by congruence.
  split_and!; [congruence|congruence| |].
  - intros Hl Hb. eapply advance_inv; [by rewrite S3|exact H4|]. by apply I3, (same_base_inv _ _ Hb2), (same_base_inv _ _ Hb1).
  - intros ic [= <-]. simpl. split_and!; [done|congruence|]. by exists r.
Qed.
End slot.

(** ** The bus rules of HBM3 and HBM4 *)

(** The latest row command of a rising edge; a log starts with the newest command. *)
Definition rising_row (e : IssuedCommand) : bool := bool_decide (ic_slot e = RowBus) && is_rising_edge (ic_clk e).
Definition last_rising (log : list IssuedCommand) : option IssuedCommand := List.find rising_row log.

(** What may follow on a bus after [log]. *)
Definition column_ok (e : IssuedCommand) : Prop := is_rising_edge (ic_clk e) = true.

(** An all-bank row command next to a column command of the same edge addresses
    another pseudo-channel. *)
Definition rising_ok (k : HBM34Const) (e : IssuedCommand) (log : list IssuedCommand) : Prop :=
  is_all_bank_row_command k (ic_command e) = true ->
  forall e' pc', e' ∈ log -> ic_slot e' = ColumnBus -> ic_clk e' = ic_clk e ->
    vget (ic_addr_vec e') (hk_level_pc k) = Ok pc' -> 0 <= pc' ->
    exists pc, vget (ic_addr_vec e) (hk_level_pc k) = Ok pc /\ 0 <= pc /\ pc <> pc'.

(** A falling edge carries precharges only; on the edge that pairs with the last
    rising row command it goes to another pseudo-channel, or is a single-bank
    precharge of another bank than a single-bank command. *)
Definition falling_ok (k : HBM34Const) (e : IssuedCommand) (log : list IssuedCommand) : Prop :=
  (ic_command e = hk_cmd_prepb k \/ ic_command e = hk_cmd_preab k) /\
  forall e0, last_rising log = Some e0 ->
    ic_clk e = ic_clk e0 + (if ic_command e0 =? hk_cmd_act k then 3 else 1) ->
    exists pc pc0, vget (ic_addr_vec e) (hk_level_pc k) = Ok pc /\ vget (ic_addr_vec e0) (hk_level_pc k) = Ok pc0 /\
      (pc <> pc0 \/
       is_all_bank_row_command k (ic_command e0) = false /\ ic_command e = hk_cmd_prepb k /\
       exists b b0, bank_key k (ic_addr_vec e) = Ok b /\ bank_key k (ic_addr_vec e0) = Ok b0 /\ b <> b0).

Definition entry_ok (k : HBM34Const) (e : IssuedCommand) (log : list IssuedCommand) : Prop :=
  (forall e', e' ∈ log -> ic_clk e' < ic_clk e \/ ic_clk e' = ic_clk e /\ ic_slot e' <> ic_slot e) /\
  match ic_slot e with
  | ColumnBus => column_ok e
  | RowBus => if is_rising_edge (ic_clk e) then rising_ok k e log else falling_ok k e log
  end.

Fixpoint bus_ok (k : HBM34Const) (log : list IssuedCommand) : Prop :=
  match log with [] => True | e :: log => entry_ok k e log /\ bus_ok k log end.

Lemma slot_matches_cmd (k : HBM34Const) (pc : Z) (ri : RisingEdgeCommandInfo) (slot : SlotType) (spec : DRAMSpec) (clk : Clk_t) :
  cmd_filter (hbm34_slot_matches k pc ri spec clk slot).
Proof.
  intros r r' E1 E2. unfold hbm34_slot_matches, base_slot_matches, can_issue_falling_edge_pre. by rewrite E1, E2.
Qed.

(** The filter says what the rules ask for. *)
Lemma slot_matches_falling (k : HBM34Const) (pc : Z) (ri : RisingEdgeCommandInfo) (spec : DRAMSpec) (clk : Clk_t)
  (slot : SlotType) (r : Request) :
  hbm34_slot_matches k pc ri spec clk slot r = Ok true -> is_rising_edge clk = false ->
  slot = RowBus /\ (command r = hk_cmd_prepb k \/ command r = hk_cmd_preab k) /\
  can_issue_falling_edge_pre k ri clk r = Ok true.
Proof.
  unfold hbm34_slot_matches. intros H E. rewrite E in H. destruct slot; [done|]. simpl in H. clear E.
  destruct (_ && _) eqn:E; [done|]. split_and!; [done|lia|done].
Qed.

Lemma slot_matches_rising (k : HBM34Const) (pc : Z) (ri : RisingEdgeCommandInfo) (spec : DRAMSpec) (clk : Clk_t) (r : Request) :
  hbm34_slot_matches k pc ri spec clk RowBus r = Ok true -> is_rising_edge clk = true -> 0 <= pc ->
  is_all_bank_row_command k (command r) = true ->
  exists p, vget (addr_vec r) (hk_level_pc k) = Ok p /\ 0 <= p /\ p <> pc.
Proof.
  unfold hbm34_slot_matches. intros H E Hpc Hall. rewrite E, Hall in H. simpl in H. clear E.
  rewrite (proj2 (Z.leb_le 0 pc)) in H by done. simpl in H. apply bind_Ok in H as (b & H1 & H).
  apply bind_Ok in H1 as (p & Hp & H1). injection H1 as <-. exists p. split; [done|].
  destruct ((p <? 0) || (p =? pc)) eqn:E; [done|]. lia.
Qed.

Lemma can_issue_paired (k : HBM34Const) (e0 : IssuedCommand) (ri : RisingEdgeCommandInfo) (clk : Clk_t) (r : Request) :
  record_rising_row_issued_command_info k e0 = Ok ri -> can_issue_falling_edge_pre k ri clk r = Ok true ->
  clk = ic_clk e0 + (if ic_command e0 =? hk_cmd_act k then 3 else 1) ->
  exists pc pc0, vget (addr_vec r) (hk_level_pc k) = Ok pc /\ vget (ic_addr_vec e0) (hk_level_pc k) = Ok pc0 /\
    (pc <> pc0 \/
     is_all_bank_row_command k (ic_command e0) = false /\ command r = hk_cmd_prepb k /\
     exists b b0, bank_key k (addr_vec r) = Ok b /\ bank_key k (ic_addr_vec e0) = Ok b0 /\ b <> b0).
Proof.
  unfold record_rising_row_issued_command_info. intros (pc0 & Hpc0 & H)%bind_Ok Hc Hclk.
  apply bind_Ok in H as (b0 & Hb0 & H). injection H as <-. unfold can_issue_falling_edge_pre in Hc. simpl in Hc.
  rewrite (proj2 (Z.eqb_eq _ _) Hclk) in Hc. simpl in Hc. apply bind_Ok in Hc as (pc & Hpc & Hc).
  exists pc, pc0. split_and!; [done|done|]. destruct (Z.eqb_spec pc0 pc) as [E|E]; [|by left; apply not_eq_sym].
  simpl in Hc. right. destruct (is_all_bank_row_command k (ic_command e0)); [done|]. split; [done|].
  destruct (Z.eqb_spec (command r) (hk_cmd_prepb k)) as [Ec|Ec]; [|done]. split; [done|].
  apply bind_Ok in Hc as (b & Hb & Hc). injection Hc as Hne. exists b, b0. split_and!; [done|done|lia].
Qed.

Section run34.
Context {R P G : Type} `{IR : RefreshManager R} `{IP : RowPolicy P} `{IG : ControllerPlugin G}.
Context (Q : Ctrl -> Request -> Prop).
Context `{!RefreshLaws Q R} `{!RowPolicyLaws Q P} `{!PluginLaws Q G}.
Context (apply : Request -> result Request) `{!AddrMapperLaws apply}.
Context (sch : scheduler_t) `{!SchedulerLaws sch}.

Definition h34_clk (g : HBM34 R P G) : Clk_t := m_clk (g_ctrl (hb_base g)).
Definition h34_ctrl (g : HBM34 R P G) (c : Ctrl) : HBM34 R P G :=
  mkHBM34 (with_base_ctrl (hb_base g) c) (hb_const g) (hb_rising_column_pc g) (hb_rising g).

(** The runs of the controller, with the commands issued so far. *)
Inductive h34_run : list IssuedCommand -> HBM34 R P G -> Prop :=
| h34_init base g : HBM34_init base = Ok g -> h34_run [] g
| h34_send log g r r' ok c' :
    h34_run log g -> send apply (g_ctrl (hb_base g)) r = Ok (ok, r', c') -> h34_run log (h34_ctrl g c')
| h34_priority log g r ok c' :
    h34_run log g -> type_id r = -1 -> priority_send (g_ctrl (hb_base g)) r = Ok (ok, c') -> h34_run log (h34_ctrl g c')
| h34_tick log g g' col row :
    h34_run log g -> HBM34_tick sch g = Ok (g', col, row) ->
    h34_run (option_list row ++ option_list col ++ log) g'.

(** The state of the controller describes the log. *)
Record h34_inv (log : list IssuedCommand) (g : HBM34 R P G) : Prop := mkH34 {
  hi_rising : forall e, last_rising log = Some e ->
    record_rising_row_issued_command_info (hb_const g) e = Ok (hb_rising g);
  hi_clk : forall e, e ∈ log -> ic_clk e <= h34_clk g;
  hi_rules : bus_ok (hb_const g) log
}.

Lemma last_rising_skip (e : IssuedCommand) (log : list IssuedCommand) :
  ic_slot e = ColumnBus \/ is_rising_edge (ic_clk e) = false -> last_rising (e :: log) = last_rising log.
Proof. unfold last_rising, rising_row. simpl. intros [->| ->]; [done|]. by rewrite andb_false_r. Qed.

(** The column command of an edge. *)
Lemma column_step (g : HBM34 R P G) (base base' : GenericDDR R P G) (log : list IssuedCommand) (col : option IssuedCommand) :
  h34_inv log g -> m_clk (g_ctrl base) = h34_clk g + 1 ->
  (if is_rising_edge (m_clk (g_ctrl base))
   then try_issue_slot sch (hbm34_slot_matches (hb_const g) (-1) (hb_rising g)) ColumnBus base
   else Ok (base, None)) = Ok (base', col) ->
  m_clk (g_ctrl base') = m_clk (g_ctrl base) /\ bus_ok (hb_const g) (option_list col ++ log) /\
  last_rising (option_list col ++ log) = last_rising log /\
  forall e, e ∈ option_list col -> ic_slot e = ColumnBus /\ ic_clk e = m_clk (g_ctrl base).
Proof.
  intros [Hr Hc Hb] Eclk H. destruct (is_rising_edge (m_clk (g_ctrl base))) eqn:Er.
  2: { injection H as <- <-. simpl. split_and!; try done. by intros e ?%elem_of_nil. }
  destruct (try_issue_slot_spec Q sch _ _ _ _ _ (fun spec clk => slot_matches_cmd _ _ _ _ spec clk) H) as (E & _ & _ & Hic).
  split; [done|]. destruct col as [ic|]; simpl; [|split_and!; try done; by intros e ?%elem_of_nil].
  destruct (Hic ic eq_refl) as (Hs & Hk & _). split_and!.
  - split.
    + intros e He. specialize (Hc e He). lia.
    + rewrite Hs. unfold column_ok. by rewrite Hk.
  - done.
  - apply last_rising_skip. by left.
  - intros e ->%list_elem_of_singleton. done.
Qed.

(** The row command of an edge, after its column command. *)
Lemma row_entry (g : HBM34 R P G) (clk : Clk_t) (spec : DRAMSpec) (log : list IssuedCommand) (col : option IssuedCommand)
  (pc : Z) (ic : IssuedCommand) (r : Request) :
  h34_inv log g -> clk = h34_clk g + 1 -> last_rising (option_list col ++ log) = last_rising log ->
  (forall e, e ∈ option_list col -> ic_slot e = ColumnBus /\ ic_clk e = clk) ->
  (match col with Some e => vget (ic_addr_vec e) (hk_level_pc (hb_const g)) | None => Ok (-1) end) = Ok pc ->
  ic_slot ic = RowBus -> ic_clk ic = clk -> command r = ic_command ic -> addr_vec r = ic_addr_vec ic ->
  hbm34_slot_matches (hb_const g) pc (hb_rising g) spec clk RowBus r = Ok true ->
  entry_ok (hb_const g) ic (option_list col ++ log).
Proof.
  intros [Hr Hc Hb] Eclk Hlast Hcol Hpc Hs Hk Ec Ea Hm. split.
  { intros e [He|He]%elem_of_app; [destruct (Hcol e He) as [-> ->]; right; by rewrite Hs, Hk|].
    specialize (Hc e He). lia. }
  rewrite Hs, Hk. destruct (is_rising_edge clk) eqn:Er.
  - intros Hall e' pc' [He|He]%elem_of_app Hs' Hk' Hpc' H0; [|specialize (Hc e' He); lia].
    destruct col as [e|]; simpl in He; [|by apply elem_of_nil in He]. apply list_elem_of_singleton in He as ->.
    rewrite Hpc in Hpc'. injection Hpc' as <-. rewrite <- Ea, <- Ec in *. by eapply slot_matches_rising.
  - destruct (slot_matches_falling _ _ _ _ _ _ _ Hm Er) as (_ & Hpre & Hcan). rewrite Ec in Hpre.
    split; [done|]. intros e0 He0 Hp. rewrite Hlast in He0. rewrite Hk in Hp. rewrite <- Ea, <- Ec.
    eapply can_issue_paired; [by apply Hr|exact Hcan|done].
Qed.

Lemma tick_inv34 (log : list IssuedCommand) (g g' : HBM34 R P G) (col row : option IssuedCommand) :
  h34_inv log g -> HBM34_tick sch g = Ok (g', col, row) -> h34_inv (option_list row ++ option_list col ++ log) g'.
Proof.
  intros Hinv H. unfold HBM34_tick in H. apply bind_Ok in H as (base & H1 & H). destruct (pre_hooks_clk Q _ _ H1) as [E1 _].
  apply bind_Ok in H as ([base2 col'] & H2 & H). apply bind_Ok in H as (pc & H3 & H).
  apply bind_Ok in H as ([base4 row'] & H4 & H). apply bind_Ok in H as (ri & H5 & H). apply bind_Ok in H as (base6 & H6 & H).
  injection H as <- <- <-. simpl in *. destruct (post_hooks_clk Q _ _ H6) as [E6 _].
  destruct (column_step g base base2 log col' Hinv E1 H2) as (E2 & Hb2 & Hl2 & Hcol).
  destruct (try_issue_slot_spec Q sch _ _ _ _ _ (fun spec clk => slot_matches_cmd _ _ _ _ spec clk) H4) as (E4 & _ & _ & Hic).
  rewrite E2 in Hic. destruct row' as [ic|]; simpl in *.
  - destruct (Hic ic eq_refl) as (Hs & Hk & r & Ec & Ea & Hm).
    pose proof (row_entry g _ _ log col' pc ic r Hinv E1 Hl2 Hcol H3 Hs Hk Ec Ea Hm) as Hent.
    destruct Hinv as [Hr Hc Hb]. constructor; cbn [hb_const hb_rising app]; [| |done].
    + intros e He. destruct (is_rising_edge (m_clk (g_ctrl base))) eqn:Er.
      * unfold last_rising, rising_row in He. simpl in He. rewrite Hs, Hk, Er in He. by injection He as <-.
      * rewrite last_rising_skip in He by (right; by rewrite Hk). rewrite Hl2 in He. injection H5 as <-. by apply Hr.
    + unfold h34_clk in *. simpl. intros e [->|[He|He]%elem_of_app]%elem_of_cons; [lia|destruct (Hcol e He); lia|].
      specialize (Hc e He). lia.
  - injection H5 as <-. destruct Hinv as [Hr Hc Hb]. constructor; simpl; [|  |done].
    + intros e He. rewrite Hl2 in He. by apply Hr.
    + unfold h34_clk in *. simpl. intros e [He|He]%elem_of_app; [destruct (Hcol e He); lia|]. specialize (Hc e He). lia.
Qed.

(** C20. In every run of the HBM3/HBM4 controller, whatever is sent and however its
    sub-components behave, the two command buses obey the edge rules: each bus
    carries at most one command per edge, column commands go out on rising edges
    only, falling edges carry precharges only, an all-bank row command never shares
    a rising edge with a column command of its pseudo-channel, and a precharge on
    the falling edge that pairs with the last rising row command (one cycle later,
    three edges after an activation) addresses another pseudo-channel or, after a
    single-bank command, precharges one other bank. *)
Theorem hbm34_bus_rules (log : list IssuedCommand) (g : HBM34 R P G) :
  h34_run log g -> bus_ok (hb_const g) log.
Proof.
  enough (h34_run log g -> h34_inv log g) as H by (intros Hr; apply H in Hr; apply Hr).
  induction 1 as [base g H|log g r r' ok c' _ IH H|log g r ok c' _ IH _ H|log g g' col row _ IH H].
  - constructor; simpl; [done| |done]. by intros e ?%elem_of_nil.
  - destruct IH as [H1 H2 H3]. constructor; [done| |done]. unfold h34_clk in *. simpl. by rewrite (send_clk apply _ _ _ _ _ H).
  - destruct IH as [H1 H2 H3]. constructor; [done| |done]. unfold h34_clk in *. simpl.
    by destruct (priority_send_frame _ _ _ _ H) as (_ & _ & -> & _).
  - by eapply tick_inv34.
Qed.
End run34.

(** ** On a small HBM3 device *)
Definition hbm3_dram : DramConfig :=
  mkConfig 64 None 8 [1; 2; 1; 2; 2; 64; 64]
    [4800; 4; 10; 10; 8; 10; 20; 30; 12; 6; 8; 2; 4; 4; 4; 6; 4; 6; 6; 16; 2; 100; 60; 100; 60; 8; 2000; 200; 833]
    None 14
    [ mkRow 1 [0] [0] 4 None None None;
      mkRow 3 [3; 4; 5; 6] [3; 4; 5; 6] 4 None None None;
      mkRow 4 [0] [3; 4; 5; 6] 10 None None None;
      mkRow 4 [0] [1] 20 None None None;
      mkRow 4 [1] [0] 10 None None None;
      mkRow 4 [3] [1] 6 None None None ].
Definition hbm3_base : GenericDDR NoRefresh OpenRowPolicy Empty_set :=
  mkGDDR (match init_base (mkCtrlConfig f32_0_2 f32_0_8 32 32 64 "HBM3" hbm3_dram) with
          | Ok c => ctrl_set_channel_id (setup_base c 1) 0
          | Err _ => empty_ctrl
          end) mkNoRefresh mkOpen [].

Definition small_h34 : Type := HBM34 NoRefresh OpenRowPolicy Empty_set.
Definition h34_or (r : result (list IssuedCommand * small_h34)) : list IssuedCommand * small_h34 :=
  match r with
  | Ok p => p
  | Err _ => ([], mkHBM34 hbm3_base (mkHBM34Const 0 0 0 0 0 0 0 0 0 0 0) 0 (mkRising 0 0 0 0))
  end.
Definition hbm3_start : list IssuedCommand * small_h34 := h34_or (g ← HBM34_init hbm3_base; Ok ([], g)).

Definition h34_drive (p : list IssuedCommand * small_h34) (s : stimulus) : result (list IssuedCommand * small_h34) :=
  match s with
  | Offer r => q ← send keep_vec (g_ctrl (hb_base p.2)) r; Ok (p.1, h34_ctrl p.2 q.2)
  | Edge => q ← HBM34_tick FRFCFS p.2; Ok (option_list q.2 ++ option_list q.1.2 ++ p.1, q.1.1)
  end.

Lemma h34_drive_runs (p p' : list IssuedCommand * small_h34) (l : list stimulus) :
  h34_run keep_vec FRFCFS p.1 p.2 -> foldM h34_drive p l = Ok p' -> h34_run keep_vec FRFCFS p'.1 p'.2.
Proof.
  revert p. induction l as [|s l IH]; intros p Hp H; simpl in H; [by injection H as <-|].
  apply bind_Ok in H as (p1 & H1 & H). apply (IH p1); [|done]. destruct s as [r|]; simpl in H1.
  - apply bind_Ok in H1 as ([[ok r'] c'] & Hs & H1). injection H1 as <-. by eapply h34_send.
  - apply bind_Ok in H1 as ([[g2 col] row] & Ht & H1). injection H1 as <-. by eapply h34_tick.
Qed.

(** Two rows of one bank and a row of another group: activations, a precharge on a
    falling edge, and a row command beside a column command. *)
Definition hbm3_access (a bg row : Z) : Request := set_addr_vec (Request_src a Read 0 (Some a)) [0; 0; 0; bg; 0; row; 0].
Definition hbm3_stimuli : list stimulus :=
  [Offer (hbm3_access 1 0 5)] ++ replicate 31 Edge ++ [Offer (hbm3_access 2 1 5); Offer (hbm3_access 3 0 6)] ++
  replicate 30 Edge.
Definition hbm3_after : list IssuedCommand * small_h34 := h34_or (foldM h34_drive hbm3_start hbm3_stimuli).

Lemma hbm34_bus_rules_witness :
  map (fun e => (ic_command e, ic_clk e)) hbm3_after.1 = [(3, 53); (0, 43); (3, 43); (0, 33); (1, 32); (3, 11); (0, 1)] /\
  bus_ok (hb_const hbm3_after.2) hbm3_after.1.
Proof.
  split; [vm_compute; reflexivity|].
  apply (hbm34_bus_rules any_request keep_vec FRFCFS).
  apply (h34_drive_runs hbm3_start _ hbm3_stimuli); [|vm_compute; reflexivity].
  apply (h34_init keep_vec FRFCFS hbm3_base). vm_compute. reflexivity.
Defined.

(** ** Split command buses under the closed-row policy

    The row bus never looks at the active buffer.  An active request keeps its row
    under the open-row policy; under the closed-row policy another access can close
    it, and the request is then never served. *)
(** The two-slot controller with its log of commands, as a driver sees it. *)
Definition capped : Type := GenericDDR NoRefresh ClosedCAP Empty_set.

Inductive h12_step (g : capped) : capped -> Prop :=
| h12_send r r' ok c' : send keep_vec (g_ctrl g) r = Ok (ok, r', c') -> h12_step g (with_base_ctrl g c')
| h12_tick g' col row : HBM12_tick FRFCFS g = Ok (g', col, row) -> h12_step g g'.

Lemma get_buf_write_mode (c : Ctrl) (id : buf_id) : get_buf (set_write_mode c) id = get_buf c id.
Proof. unfold set_write_mode. by repeat case_match; destruct id. Qed.

Lemma device_write_mode (c : Ctrl) : m_device (set_write_mode c) = m_device c.
Proof. unfold set_write_mode. by repeat case_match. Qed.

(** ** A request no slot looks at *)
Section stuck.
Context (d : DRAMDevice) (p : ClosedCAP) (w : Request).
Context (Hpre : forall c, m_device c = d -> cap_pre_schedule p c = Ok (p, c)).
Context (Hcmd : forall clk, get_preq_command d (final_command w) (addr_vec w) clk = Ok (command w)).
Context (Hrow : forall clk, base_slot_matches (m_spec d) clk ColumnBus w = Ok false).

(** Only [w] is in the controller, and its next command is not a column command. *)
Record stuck (c : Ctrl) : Prop := mkStuck {
  st_device : m_device c = d;
  st_active : buffer (m_active_buffer c) = [w];
  st_empty : forall id, id <> BActive -> buffer (get_buf c id) = []
}.

Lemma stuck_frame (c c' : Ctrl) :
  m_device c' = m_device c -> (forall id, buffer (get_buf c' id) = buffer (get_buf c id)) -> stuck c -> stuck c'.
Proof.
  intros E1 E2 [H1 H2 H3]. constructor; [congruence|by rewrite <- H2; apply (E2 BActive)|].
  intros id Hid. rewrite E2. by apply H3.
Qed.

Lemma frfcfs_nil (c : Ctrl) (b : ReqBuffer) (f : filter_t) :
  buffer b = [] -> FRFCFS c b f = Ok (mkReqBuffer [] (max_size b), None).
Proof. intros E. unfold FRFCFS. by rewrite E. Qed.

Lemma pick_empty (c : Ctrl) (id : buf_id) (f : filter_t) :
  stuck c -> id <> BActive -> exists c', pick_best_ready_from FRFCFS c id f = Ok (c', None) /\ stuck c'.
Proof.
  intros Hs Hid. unfold pick_best_ready_from. rewrite frfcfs_nil by (by apply (st_empty c Hs)). simpl.
  eexists. split; [done|]. apply (stuck_frame c); [done| |done]. intros id'. rewrite get_set_buf.
  destruct (decide (id = id')) as [<-|]; [|done]. simpl. by rewrite (st_empty c Hs).
Qed.

Lemma pick_stuck (c : Ctrl) :
  stuck c -> exists c', pick_best_ready_from FRFCFS c BActive (base_slot_matches (m_spec d) (m_clk c) ColumnBus) = Ok (c', None) /\
    stuck c'.
Proof.
  intros Hs. unfold pick_best_ready_from, FRFCFS. simpl. rewrite (st_active c Hs). simpl.
  unfold derive_command, ctrl_get_preq_command. rewrite (st_device c Hs), Hcmd. simpl.
  replace (set_command w (command w)) with w by (by destruct w). rewrite Hrow. simpl.
  eexists. split; [done|]. apply (stuck_frame c); [done| |done]. intros id'. rewrite get_set_buf.
  destruct (decide (BActive = id')) as [<-|]; [|done]. simpl. by rewrite (st_active c Hs).
Qed.

(** After the active buffer, the other buffers are empty. *)
Lemma rest_stuck (c : Ctrl) (f : filter_t) :
  stuck c -> exists c', (b ← pick_priority_if c f;
    match b.2 with
    | None => if buf_size (m_priority_buffer b.1) =? 0 then pick_rw_if FRFCFS b.1 f else Ok b
    | Some _ => Ok b
    end) = Ok (c', None) /\ stuck c'.
Proof.
  intros Hs. assert (Hp : (buf_size (m_priority_buffer c) =? 0) = true).
  { unfold buf_size. pose proof (st_empty c Hs BPriority) as E. simpl in E. by rewrite E. }
  unfold pick_priority_if. rewrite Hp. simpl. rewrite Hp. unfold pick_rw_if. apply pick_empty.
  - apply (stuck_frame c); [apply device_write_mode| |done]. intros id. by rewrite get_buf_write_mode.
  - by destruct (m_is_write_mode _).
Qed.

(** A slot finds nothing to issue. *)
Lemma hbm_pick_stuck (c : Ctrl) (slot : SlotType) :
  stuck c -> exists c', hbm_pick FRFCFS (base_slot_matches (m_spec d) (m_clk c) slot) slot c = Ok (c', None) /\ stuck c'.
Proof.
  intros Hs. unfold hbm_pick. destruct slot.
  - destruct (pick_stuck _ Hs) as (c1 & -> & Hs1).
    exact (rest_stuck c1 (base_slot_matches (m_spec d) (m_clk c) ColumnBus) Hs1).
  - exact (rest_stuck c (base_slot_matches (m_spec d) (m_clk c) RowBus) Hs).
Qed.

Lemma slot_stuck (g : capped) (slot : SlotType) :
  stuck (g_ctrl g) -> exists c', try_issue_slot FRFCFS base_slot_matches slot g = Ok (with_base_ctrl g c', None) /\ stuck c'.
Proof.
  intros Hs. unfold try_issue_slot. rewrite (st_device _ Hs). destruct (hbm_pick_stuck _ slot Hs) as (c1 & -> & Hs1).
  by exists c1.
Qed.

Definition stuck_g (g : capped) : Prop := stuck (g_ctrl g) /\ g_policy g = p.

Lemma pre_hooks_stuck (g : capped) : stuck_g g -> exists g', pre_hooks g = Ok g' /\ stuck_g g'.
Proof.
  intros [Hs Ep]. assert (Hs1 : stuck (tick_prologue (g_ctrl g))).
  { apply (stuck_frame (g_ctrl g)); [apply tick_prologue_device| |done]. intros id. by rewrite get_buf_prologue. }
  unfold pre_hooks. generalize dependent (tick_prologue (g_ctrl g)). intros c1 Hs1.
  unfold refresh_tick, NoRefresh_tick. cbn [mbind result_bind fst snd rp_pre_schedule ClosedCAP_hooks].
  rewrite Ep, Hpre by apply (st_device _ Hs1). destruct (g_plugins g) as [|[] ?]. eexists. split; [reflexivity|done].
Qed.

Lemma tick_stuck (g : capped) : stuck_g g -> exists g', HBM12_tick FRFCFS g = Ok (g', None, None) /\ stuck_g g'.
Proof.
  intros Hs. unfold HBM12_tick. destruct (pre_hooks_stuck g Hs) as (g1 & -> & Hs1 & Ep).
  cbn [mbind result_bind]. destruct (slot_stuck g1 ColumnBus Hs1) as (c2 & -> & Hs2). cbn [mbind result_bind fst snd].
  destruct (slot_stuck (with_base_ctrl g1 c2) RowBus Hs2) as (c3 & -> & Hs3). cbn [mbind result_bind fst snd].
  unfold post_hooks. cbn [mbind result_bind fst snd rp_post_schedule ClosedCAP_hooks]. 
  destruct g1 as [c1 r1 p1 [|[] ?]]. eexists. split; [reflexivity|done].
Qed.
End stuck.

(** Clock edges with nothing sent. *)
Fixpoint edges (n : nat) (g : capped) : result capped :=
  match n with O => Ok g | S n => q ← HBM12_tick FRFCFS g; edges n q.1.1 end.

Lemma edges_stuck (d : DRAMDevice) (p : ClosedCAP) (w : Request) (n : nat) (g : capped) :
  (forall c, m_device c = d -> cap_pre_schedule p c = Ok (p, c)) ->
  (forall clk, get_preq_command d (final_command w) (addr_vec w) clk = Ok (command w)) ->
  (forall clk, base_slot_matches (m_spec d) clk ColumnBus w = Ok false) ->
  stuck_g d p w g -> exists g', edges n g = Ok g' /\ buffer (m_active_buffer (g_ctrl g')) = [w].
Proof.
  intros Hpre Hcmd Hrow. revert g. induction n as [|n IH]; intros g Hs; simpl; [exists g; split; [done|apply Hs]|].
  destruct (tick_stuck d p w Hpre Hcmd Hrow g Hs) as (g1 & -> & Hs1). apply (IH g1 Hs1).
Qed.

(** ** On a small HBM2 device with a cap of one column access *)
Definition hbm2_dram : DramConfig :=
  mkConfig 64 None 8 [1; 2; 1; 2; 2; 64; 64]
    [2000; 2; 10; 10; 8; 10; 20; 30; 12; 6; 8; 2; 4; 4; 4; 6; 4; 6; 12; 16; 100; 60; 8; 2000; 200; 1000]
    None 14
    [ mkRow 1 [0] [0] 4 None None None;
      mkRow 1 [3; 5] [4; 6] 12 None None None;
      mkRow 3 [3; 4; 5; 6] [3; 4; 5; 6] 6 None None None;
      mkRow 4 [0] [3; 4; 5; 6] 10 None None None;
      mkRow 4 [0] [1] 20 None None None;
      mkRow 4 [1] [0] 10 None None None;
      mkRow 4 [3] [1] 6 None None None;
      mkRow 4 [5] [0] 16 None None None ].

Definition capped_ctrl : Ctrl :=
  match init_base (mkCtrlConfig f32_0_2 f32_0_8 32 32 64 "HBM2" hbm2_dram) with
  | Ok c => ctrl_set_channel_id (setup_base c 1) 0
  | Err _ => empty_ctrl
  end.
Definition capped_start : capped :=
  mkGDDR capped_ctrl mkNoRefresh
    (match ClosedCAP_init capped_ctrl 1 with Ok p => p | Err _ => mkCAP 0 0 0 0 0 0 false [] [] end) [].

Definition hbm_access (type a pc bg bank row col : Z) : Request :=
  set_addr_vec (Request_src a type 0 (Some a)) [0; pc; 0; bg; bank; row; col].

Definition h12_drive (g : capped) (s : stimulus) : result capped :=
  match s with
  | Offer r => q ← send keep_vec (g_ctrl g) r; Ok (with_base_ctrl g q.2)
  | Edge => q ← HBM12_tick FRFCFS g; Ok q.1.1
  end.

Lemma h12_drive_reaches (g g' : capped) (l : list stimulus) : foldM h12_drive g l = Ok g' -> rtc h12_step g g'.
Proof.
  revert g. induction l as [|s l IH]; intros g H; simpl in H; [by injection H as <-|].
  apply bind_Ok in H as (g1 & H1 & H). econstructor; [|by apply IH]. destruct s as [r|]; simpl in H1.
  - apply bind_Ok in H1 as ([[ok r'] c'] & Hs & H1). injection H1 as <-. by eapply h12_send.
  - apply bind_Ok in H1 as ([[g2 col] row] & Ht & H1). injection H1 as <-. by eapply h12_tick.
Qed.

(** A read of another bank, a write whose row is opened, then two reads of that
    row; the second is upgraded to an auto-precharging read and closes it. *)
Definition starve_stimuli : list stimulus :=
  [Offer (hbm_access Read 1 0 1 0 9 0); Edge; Offer (hbm_access Write 2 0 0 0 5 0)] ++ replicate 4 Edge ++
  [Offer (hbm_access Read 3 0 0 0 5 1); Offer (hbm_access Read 4 0 0 0 5 2)] ++ replicate 30 Edge.
Definition starving : capped := match foldM h12_drive capped_start starve_stimuli with Ok g => g | Err _ => capped_start end.
Definition starved : Request := default Request_default (buffer (m_active_buffer (g_ctrl starving)) !! O).

Lemma starving_stuck : stuck_g (m_device (g_ctrl starving)) (g_policy starving) starved starving.
Proof.
  split; [constructor; [reflexivity|vm_compute; reflexivity|]|reflexivity].
  intros [] Hid; [done|vm_compute; reflexivity..].
Qed.

(** C25. The split-bus controllers and the closed-row policy do not work together:
    in a reachable state an accepted write sits alone in the active buffer with its
    row closed by an upgraded read; every further clock edge succeeds and issues
    nothing, so the write is never served, however long the controller runs. *)
Theorem hbm_closed_cap_starves :
  exists g w, rtc h12_step capped_start g /\ type_id w = Write /\
    forall n, exists g', edges n g = Ok g' /\ buffer (m_active_buffer (g_ctrl g')) = [w].
Proof.
  exists starving, starved. split_and!.
  - apply (h12_drive_reaches _ _ starve_stimuli). vm_compute. reflexivity.
  - vm_compute. reflexivity.
  - intros n. apply (edges_stuck (m_device (g_ctrl starving)) (g_policy starving) starved n); [| | |exact starving_stuck].
    + intros c _. vm_compute. reflexivity.
    + intros clk. vm_compute. reflexivity.
    + intros clk. vm_compute. reflexivity.
Qed.
