(* ===== verification/LPDDR.v ===== *)
(** * The LPDDR controllers

    [controller/impl/lpddr_controller_base.h] and [.cpp], [lpddr5_controller.cpp] and
    [lpddr6_controller.cpp]: split activation (ACT1, then ACT2 within nAAD cycles)
    and the synchronisation of the data clock WCK by CAS commands.

    The model is that of the default build type, Release, in which [NDEBUG] removes
    every [assert] and the controller goes on.  The pending access of a CAS ([m_cas_issued], [m_cas_req_it],
    [m_cas_buffer]) is the position of the request: nothing is removed from a buffer
    while it is pending.  A tick also returns the command it issued. *)

From Stdlib Require Import ZArith Lia.
From S2P Require Import Prelude Base Spec Node Standards Device Controller Scheduler GenericDDR.

Local Open Scope Z_scope.

(** ** State *)
Inductive Act2IssueKind := Urgent | Deferred.
Inductive WCKSyncMode := NeedSync | WCKAlwaysOn.

#[export] Instance WCKSyncMode_eq_dec : EqDecision WCKSyncMode.
Proof. solve_decision. Defined.

(** Fixed by [init]; a command the standard lacks is -1. *)
Record LPConst := mkLPConst {
  lk_cmd_act1 : Z;
  lk_cmd_act2 : Z;
  lk_nAAD : Z;
  lk_cmd_cas : Z;
  lk_cmd_cas_rd : Z;
  lk_cmd_cas_wr : Z;
  lk_cmd_rd : Z;
  lk_cmd_wr : Z;
  lk_cmd_rda : Z;
  lk_cmd_wra : Z;
  lk_cmd_rd_l : Z;
  lk_cmd_wr_l : Z;
  lk_cmd_rda_l : Z;
  lk_cmd_wra_l : Z;
  lk_read_latency : Z;
  lk_write_latency : Z;
  lk_burst_cycles : Z;
  lk_burst_cycles_long : Z;
  lk_nWCKPST : Z;
  lk_cas_deadline_guard : Z;
  lk_wck_sync_mode : WCKSyncMode
}.

(** The split-activate and WCK state. *)
Record LPState := mkLPState {
  m_activating_buffer : ReqBuffer;
  m_act2_owner_valid : list bool;
  m_act2_deadline : list Clk_t;
  m_wck_expiry : Clk_t;
  m_cas_pending : option (buf_id * nat)
}.

Definition set_activating (s : LPState) (b : ReqBuffer) : LPState :=
  mkLPState b (m_act2_owner_valid s) (m_act2_deadline s) (m_wck_expiry s) (m_cas_pending s).
Definition set_owner (s : LPState) (owners : list bool) (deadlines : list Clk_t) : LPState :=
  mkLPState (m_activating_buffer s) owners deadlines (m_wck_expiry s) (m_cas_pending s).
Definition set_wck_expiry (s : LPState) (e : Clk_t) : LPState :=
  mkLPState (m_activating_buffer s) (m_act2_owner_valid s) (m_act2_deadline s) e (m_cas_pending s).
Definition set_cas_pending (s : LPState) (p : option (buf_id * nat)) : LPState :=
  mkLPState (m_activating_buffer s) (m_act2_owner_valid s) (m_act2_deadline s) (m_wck_expiry s) p.

(** ** Initialisation *)
Definition parse_wck_sync_mode (mode : string) : result WCKSyncMode :=
  if bool_decide (mode = "need_sync") then Ok NeedSync
  else if bool_decide (mode = "always_on") then Ok WCKAlwaysOn
  else Err (Throw ("LPDDRControllerBase: invalid wck_sync_mode '" +:+ mode +:+
              "'. Expected 'need_sync' or 'always_on'.")).

Definition lp_state_init (banks : nat) : LPState :=
  mkLPState (mkReqBuffer [] (Z.of_nat banks)) (replicate banks false) (replicate banks (-1)) 0 None.

Definition LPDDR5_const (spec : DRAMSpec) (mode : WCKSyncMode) : result LPConst :=
  act1 ← get_command_id spec "ACT1"; act2 ← get_command_id spec "ACT2";
  cas_rd ← get_command_id spec "CAS_RD"; cas_wr ← get_command_id spec "CAS_WR";
  rd ← get_command_id spec "RD"; wr ← get_command_id spec "WR";
  rda ← get_command_id spec "RDA"; wra ← get_command_id spec "WRA";
  nAAD ← get_timing_value spec "nAAD"; rl ← get_timing_value spec "nCL"; wl ← get_timing_value spec "nCWL";
  burst ← get_timing_value spec "nBL_max"; pst ← get_timing_value spec "nWCKPST";
  Ok (mkLPConst act1 act2 nAAD (-1) cas_rd cas_wr rd wr rda wra (-1) (-1) (-1) (-1) rl wl burst 0 pst 1 mode).

Definition LPDDR6_const (spec : DRAMSpec) (mode : WCKSyncMode) : result LPConst :=
  act1 ← get_command_id spec "ACT1"; act2 ← get_command_id spec "ACT2"; cas ← get_command_id spec "CAS";
  rd ← get_command_id spec "RD_S"; wr ← get_command_id spec "WR_S";
  rda ← get_command_id spec "RDA_S"; wra ← get_command_id spec "WRA_S";
  rdl ← get_command_id spec "RD_L"; wrl ← get_command_id spec "WR_L";
  rdal ← get_command_id spec "RDA_L"; wral ← get_command_id spec "WRA_L";
  nAAD ← get_timing_value spec "nAAD"; rl ← get_timing_value spec "nRL"; wl ← get_timing_value spec "nWL";
  burst ← get_timing_value spec "nBL_min"; long ← get_timing_value spec "nBL_min_L";
  pst ← get_timing_value spec "nWCKPST"; nCAS ← get_timing_value spec "nCAS";
  Ok (mkLPConst act1 act2 nAAD cas (-1) (-1) rd wr rda wra rdl wrl rdal wral rl wl burst long pst (Z.max 2 nCAS) mode).

(** ** Predicates *)
Definition is_access_cmd (k : LPConst) (cmd : Z) : bool :=
  (cmd =? lk_cmd_rd k) || (cmd =? lk_cmd_wr k) || (cmd =? lk_cmd_rda k) || (cmd =? lk_cmd_wra k) ||
  (cmd =? lk_cmd_rd_l k) || (cmd =? lk_cmd_wr_l k) || (cmd =? lk_cmd_rda_l k) || (cmd =? lk_cmd_wra_l k).

Definition is_read_cmd (k : LPConst) (cmd : Z) : bool :=
  (cmd =? lk_cmd_rd k) || (cmd =? lk_cmd_rda k) || (cmd =? lk_cmd_rd_l k) || (cmd =? lk_cmd_rda_l k).

Definition burst_cycles_for_cmd (k : LPConst) (cmd : Z) : Z :=
  if (cmd =? lk_cmd_rd_l k) || (cmd =? lk_cmd_wr_l k) || (cmd =? lk_cmd_rda_l k) || (cmd =? lk_cmd_wra_l k)
  then if 0 <? lk_burst_cycles_long k then lk_burst_cycles_long k else lk_burst_cycles k
  else lk_burst_cycles k.

Definition is_cas_cmd (k : LPConst) (cmd : Z) : bool :=
  (cmd =? lk_cmd_cas k) || (cmd =? lk_cmd_cas_rd k) || (cmd =? lk_cmd_cas_wr k).

(** The CAS that synchronises WCK for an access. *)
Definition cas_for (k : LPConst) (cmd : Z) : Z :=
  if 0 <=? lk_cmd_cas k then lk_cmd_cas k else if is_read_cmd k cmd then lk_cmd_cas_rd k else lk_cmd_cas_wr k.

Definition needs_wck_sync (k : LPConst) (s : LPState) (clk : Clk_t) (cmd : Z) : bool :=
  is_access_cmd k cmd && negb (bool_decide (lk_wck_sync_mode k = WCKAlwaysOn)) && (m_wck_expiry s <=? clk).

Definition wck_span (k : LPConst) (cmd : Z) : Z :=
  (if is_read_cmd k cmd then lk_read_latency k else lk_write_latency k) + burst_cycles_for_cmd k cmd + lk_nWCKPST k.

Definition extend_wck_expiry (k : LPConst) (clk : Clk_t) (cmd : Z) (s : LPState) : LPState :=
  let exp := clk + wck_span k cmd in
  if m_wck_expiry s <? exp then set_wck_expiry s exp else s.

Definition has_pending_act2 (s : LPState) : bool := existsb (fun v => v) (m_act2_owner_valid s).

Definition cas_would_block_deadline (k : LPConst) (s : LPState) (clk : Clk_t) : bool :=
  existsb (fun p : bool * Clk_t => p.1 && (p.2 <=? clk + lk_cas_deadline_guard k))
    (zip (m_act2_owner_valid s) (m_act2_deadline s)).

Definition would_block_activating (s : LPState) (d : DRAMDevice) (cmd : Z) (av : AddrVec_t) : result bool :=
  meta ← vget (command_meta (m_spec d)) cmd;
  if negb (is_closing meta) && negb (is_refreshing meta) then Ok false
  else
    r ← for_each_target_bank_while d cmd av
          (fun _ id => v ← vget (m_act2_owner_valid s) id; Ok (if (v : bool) then (true, false) else (false, true))) false;
    Ok r.1.

Definition is_allowed_during_pending_act2 (k : LPConst) (s : LPState) (d : DRAMDevice) (cmd : Z) (av : AddrVec_t)
  : result bool :=
  if negb (has_pending_act2 s) then Ok true
  else if cmd =? lk_cmd_act1 k then Ok false
  else if is_cas_cmd k cmd || is_access_cmd k cmd then Ok true
  else
    meta ← vget (command_meta (m_spec d)) cmd;
    if is_refreshing meta then Ok false
    else if is_closing meta then b ← would_block_activating s d cmd av; Ok (negb b)
    else Ok false.

Definition can_start_act1 (k : LPConst) (c : Ctrl) (req : Request) : result bool :=
  if negb (command req =? lk_cmd_act1 k) then Ok true
  else
    cycles ← vget (command_cycles (m_spec (m_device c))) (lk_cmd_act1 k);
    device_check_timing (m_device c) (lk_cmd_act2 k) (addr_vec req) (m_clk c + cycles).

Definition is_owned_act2_candidate (k : LPConst) (d : DRAMDevice) (req : Request) : result bool :=
  if negb (command req =? lk_cmd_act2 k) then Ok true
  else
    _ ← get_flat_bank_id d (addr_vec req);
    Ok false.

(** The filters of [select_normal_candidate]. *)
Definition active_filter (k : LPConst) (s : LPState) (c : Ctrl) : filter_t := fun req =>
  a ← is_allowed_during_pending_act2 k s (m_device c) (command req) (addr_vec req);
  if (a : bool) then can_start_act1 k c req else Ok false.
Definition queue_filter (k : LPConst) (s : LPState) (c : Ctrl) : filter_t := fun req =>
  o ← is_owned_act2_candidate k (m_device c) req;
  if (o : bool) then active_filter k s c req else Ok false.

(** The filter of [pick_cas_lookahead_candidate]. *)
Definition lookahead_filter (k : LPConst) (s : LPState) (c : Ctrl) : filter_t := fun req =>
  let cmd := command req in
  if negb (is_access_cmd k cmd) || negb (needs_wck_sync k s (m_clk c) cmd) then Ok false
  else
    a ← is_allowed_during_pending_act2 k s (m_device c) cmd (addr_vec req);
    if negb a then Ok false
    else
      ok ← ctrl_check_timing c (cas_for k cmd) (addr_vec req);
      if (ok : bool)
      then device_check_timing (m_device c) cmd (addr_vec req) (m_clk c + lk_cas_deadline_guard k)
      else Ok false.

(** ** Picking the owner of a pending ACT2 *)
Record Act2Cand := mkAct2Cand { a2_pos : nat; a2_deadline : Clk_t; a2_arrive : Clk_t }.

(** The body shared by [pick_urgent_act2] and [pick_deferred_act2]: the urgent
    search skips owners whose deadline is still ahead. *)
Definition scan_act2_one (urgent : bool) (k : LPConst) (s : LPState) (c : Ctrl)
  (acc : list Request * option Act2Cand) (r : Request) : result (list Request * option Act2Cand) :=
  bank ← get_flat_bank_id (m_device c) (addr_vec r);
  deadline ← vget (m_act2_deadline s) bank;
  let r := set_command r (lk_cmd_act2 k) in
  ok ← ctrl_check_timing c (command r) (addr_vec r);
  let late := negb (m_clk c <? deadline) in
  let best := acc.2 in
  let better := match best with
    | None => true
    | Some b => (deadline <? a2_deadline b) || ((deadline =? a2_deadline b) && (arrive r <? a2_arrive b))
    end in
  Ok (acc.1 ++ [r],
      if ok && (negb urgent || late) && better then Some (mkAct2Cand (length acc.1) deadline (arrive r)) else best).

Definition pick_act2 (urgent : bool) (k : LPConst) (s : LPState) (c : Ctrl) : result (LPState * option nat) :=
  p ← foldM (scan_act2_one urgent k s c) ([], None) (buffer (m_activating_buffer s));
  Ok (set_activating s (mkReqBuffer p.1 (max_size (m_activating_buffer s))), option_map a2_pos p.2).

Section lpddr.
Context {R P G : Type} `{RefreshManager R} `{RowPolicy P} `{ControllerPlugin G} (sch : scheduler_t).

Record LPDDR := mkLPDDR {
  lp_base : GenericDDR R P G;
  lp_const : LPConst;
  lp_state : LPState
}.

Definition LPDDR_init (consts : DRAMSpec -> WCKSyncMode -> result LPConst) (base : GenericDDR R P G) (mode : string)
  : result LPDDR :=
  mode ← parse_wck_sync_mode mode;
  let d := m_device (g_ctrl base) in
  k ← consts (m_spec d) mode;
  Ok (mkLPDDR base k (lp_state_init (length (m_bank_nodes d)))).

(** [m_rowpolicy->on_issue] and the plugins, after a command was issued for [r]. *)
Definition issue_hooks (g : GenericDDR R P G) (c : Ctrl) (r : Request) : result (GenericDDR R P G) :=
  p ← rp_on_issue (g_policy g) c r;
  q ← each_plugin (fun g c => pl_on_issue g c r) (g_plugins g) c;
  Ok (mkGDDR q.2 (g_refresh g) p q.1).

(** The command issued in a tick, with its address. *)
Record LPIssue := mkLPIssue { li_clk : Clk_t; li_command : Z; li_addr_vec : AddrVec_t }.

(** ** Selection *)
Definition select_normal_candidate (k : LPConst) (s : LPState) (c : Ctrl) : result (Ctrl * candidate) :=
  a ← pick_best_ready_from sch c BActive (active_filter k s c);
  b ← (match a.2 with None => pick_priority_if a.1 (queue_filter k s a.1) | Some _ => Ok a end);
  match b.2 with
  | None => if buf_size (m_priority_buffer b.1) =? 0 then pick_rw_if sch b.1 (queue_filter k s b.1) else Ok b
  | Some _ => Ok b
  end.

Definition pick_cas_lookahead_candidate (k : LPConst) (s : LPState) (c : Ctrl) : result (Ctrl * candidate) :=
  if cas_would_block_deadline k s (m_clk c) then Ok (c, None)
  else
    p ← sch c (m_active_buffer c) (lookahead_filter k s c);
    Ok (set_buf c BActive p.1, option_map (fun i => (BActive, i)) p.2).

(** ** Issuing *)

(** [promote_from_activating]. *)
Definition promote_from_activating (s : LPState) (c : Ctrl) (i : nat) : result (LPState * Ctrl) :=
  match buffer (m_activating_buffer s) !! i with
  | None => Err Undef
  | Some r =>
      bank ← get_flat_bank_id (m_device c) (addr_vec r);
      q ← on_side_buffer promote_to_active c (m_activating_buffer s) i;
      owners ← vset (m_act2_owner_valid s) bank false;
      deadlines ← vset (m_act2_deadline s) bank (-1);
      Ok (set_owner (set_activating s q.2) owners deadlines, q.1)
  end.

Definition issue_owned_act2 (g : LPDDR) (i : nat) (kind : Act2IssueKind) : result (LPDDR * LPIssue) :=
  let base := lp_base g in
  let c := g_ctrl base in
  let k := lp_const g in
  let s := lp_state g in
  match buffer (m_activating_buffer s) !! i with
  | None => Err Undef
  | Some r =>
      _ ← get_flat_bank_id (m_device c) (addr_vec r);
      q ← (if negb (is_stat_updated r) then on_side_buffer update_request_stats c (m_activating_buffer s) i
           else Ok (c, m_activating_buffer s));
      let s := set_activating s q.2 in
      match buffer (m_activating_buffer s) !! i with
      | None => Err Undef
      | Some r =>
          d ← issue_command (m_device q.1) (lk_cmd_act2 k) (addr_vec r) (m_clk q.1);
          base ← issue_hooks base (set_device q.1 d) r;
          p ← promote_from_activating s (g_ctrl base) i;
          let c := bump p.2 (match kind with Urgent => "act2_deadline_forced" | Deferred => "act2_deferred" end) 1 in
          Ok (mkLPDDR (with_base_ctrl base c) k p.1, mkLPIssue (m_clk q.1) (lk_cmd_act2 k) (addr_vec r))
      end
  end.

(** [pick_deferred_act2], then [issue_owned_act2] when it finds an owner. *)
Definition issue_deferred (g : LPDDR) : result (LPDDR * option LPIssue) :=
  p ← pick_act2 false (lp_const g) (lp_state g) (g_ctrl (lp_base g));
  let g := mkLPDDR (lp_base g) (lp_const g) p.1 in
  match p.2 with
  | None => Ok (g, None)
  | Some i => q ← issue_owned_act2 g i Deferred; Ok (q.1, Some q.2)
  end.

(** [try_issue_cas_sync]: [None] stands for [false].  With no ACT2 ready it would
    go through the iterator of an invalid candidate. *)
Definition try_issue_cas_sync (g : LPDDR) (id : buf_id) (i : nat) : result (option (LPDDR * option LPIssue)) :=
  let base := lp_base g in
  let c := g_ctrl base in
  let k := lp_const g in
  let s := lp_state g in
  r ← req_at c id i;
  if negb (needs_wck_sync k s (m_clk c) (command r)) then Ok None
  else if cas_would_block_deadline k s (m_clk c) then
    q ← issue_deferred g;
    match q.2 with None => Err Undef | Some _ => Ok (Some q) end
  else
    let cas := cas_for k (command r) in
    ok ← ctrl_check_timing c cas (addr_vec r);
    if negb ok then Ok (Some (g, None))
    else
      let c := put_req c id i (set_command r cas) in
      d ← issue_command (m_device c) cas (addr_vec r) (m_clk c);
      base ← issue_hooks base (set_device c d) (set_command r cas);
      r' ← req_at (g_ctrl base) id i;
      let c := put_req (g_ctrl base) id i (set_command r' (command r)) in
      Ok (Some (mkLPDDR (with_base_ctrl base c) k (set_cas_pending s (Some (id, i))),
                Some (mkLPIssue (m_clk c) cas (addr_vec r)))).

(** [move_to_activating]; a full buffer loses the request. *)
Definition move_to_activating (k : LPConst) (s : LPState) (c : Ctrl) (id : buf_id) (i : nat) : result (LPState * Ctrl) :=
  r ← req_at c id i;
  bank ← get_flat_bank_id (m_device c) (addr_vec r);
  let b := (enqueue (m_activating_buffer s) r).2 in
  let c := if decide (id = BWrite) then set_write_addrs c (m_buffered_write_addrs c ∖ {[addr r]}) else c in
  let c := set_buf c id (remove_at (get_buf c id) i) in
  owners ← vset (m_act2_owner_valid s) bank true;
  deadlines ← vset (m_act2_deadline s) bank (m_clk c + lk_nAAD k);
  Ok (set_owner (set_activating s b) owners deadlines, c).

Definition issue_standard_candidate (g : LPDDR) (id : buf_id) (i : nat) : result (LPDDR * LPIssue) :=
  let base := lp_base g in
  let c := g_ctrl base in
  let k := lp_const g in
  let s := lp_state g in
  r ← req_at c id i;
  r ← rp_try_upgrade_command (g_policy base) c r;
  let c := put_req c id i r in
  let cmd := command r in
  _ ← get_flat_bank_id (m_device c) (addr_vec r);
  let s := if is_access_cmd k cmd && bool_decide (lk_wck_sync_mode k = NeedSync)
           then extend_wck_expiry k (m_clk c) cmd s else s in
  let c := if is_access_cmd k cmd then bump c "cas_skipped" 1 else c in
  c ← (if negb (is_stat_updated r) then update_request_stats c id i else Ok c);
  r ← req_at c id i;
  d ← issue_command (m_device c) cmd (addr_vec r) (m_clk c);
  base ← issue_hooks base (set_device c d) r;
  let issued := mkLPIssue (m_clk c) cmd (addr_vec r) in
  let c := g_ctrl base in
  if cmd =? lk_cmd_act1 k then
    p ← move_to_activating k s c id i; Ok (mkLPDDR (with_base_ctrl base p.2) k p.1, issued)
  else
    c ← advance_request c id i; Ok (mkLPDDR (with_base_ctrl base c) k s, issued).

(** The RD or WR that follows a CAS. *)
Definition cas_continuation (g : LPDDR) (id : buf_id) (i : nat) : result (LPDDR * option LPIssue) :=
  let base := lp_base g in
  let c := g_ctrl base in
  let k := lp_const g in
  r ← req_at c id i;
  ok ← ctrl_check_timing c (command r) (addr_vec r);
  if negb ok then Ok (g, None)
  else
    let s := set_cas_pending (lp_state g) None in
    let s := if bool_decide (lk_wck_sync_mode k = NeedSync) then extend_wck_expiry k (m_clk c) (command r) s else s in
    let c := bump c "cas_issued" 1 in
    c ← (if negb (is_stat_updated r) then update_request_stats c id i else Ok c);
    r ← req_at c id i;
    d ← issue_command (m_device c) (command r) (addr_vec r) (m_clk c);
    base ← issue_hooks base (set_device c d) r;
    r ← req_at (g_ctrl base) id i;
    c' ← (if command r =? final_command r then retire_request (g_ctrl base) id i else Ok (g_ctrl base));
    Ok (mkLPDDR (with_base_ctrl base c') k s, Some (mkLPIssue (m_clk c) (command r) (addr_vec r))).

(** Everything [tick] does between the hooks. *)
Definition lp_schedule (g : LPDDR) : result (LPDDR * option LPIssue) :=
  let k := lp_const g in
  u ← pick_act2 true k (lp_state g) (g_ctrl (lp_base g));
  let g := mkLPDDR (lp_base g) k u.1 in
  match m_cas_pending (lp_state g) with
  | Some (id, i) => cas_continuation g id i
  | None =>
      match u.2 with
      | Some i => q ← issue_owned_act2 g i Urgent; Ok (q.1, Some q.2)
      | None =>
          n ← select_normal_candidate k (lp_state g) (g_ctrl (lp_base g));
          m ← (match n.2 with None => pick_cas_lookahead_candidate k (lp_state g) n.1 | Some _ => Ok n end);
          let g := mkLPDDR (with_base_ctrl (lp_base g) m.1) k (lp_state g) in
          match m.2 with
          | None => issue_deferred g
          | Some (id, i) =>
              t ← try_issue_cas_sync g id i;
              match t with
              | Some q => Ok q
              | None => q ← issue_standard_candidate g id i; Ok (q.1, Some q.2)
              end
          end
      end
  end.

Definition LPDDR_tick (g : LPDDR) : result (LPDDR * option LPIssue) :=
  base ← pre_hooks (lp_base g);
  q ← lp_schedule (mkLPDDR base (lp_const g) (lp_state g));
  base ← post_hooks (lp_base q.1);
  Ok (mkLPDDR base (lp_const q.1) (lp_state q.1), q.2).
End lpddr.
Arguments LPDDR : clear implicits.
