(* ===== verification/LPDDRProps.v ===== *)
(** * The LPDDR command protocol: theorems

    Rules on the sequence of issued commands: split activations and WCK
    synchronisation, over whole runs of the controller. *)

From Stdlib Require Import ZArith Lia SpecFloat.
From S2P Require Import Prelude Base Spec Node Commands Standards Device Controller Scheduler GenericDDR.
From S2P Require Import ControllerFacts ControllerInv ControllerProps Refresh RefreshProps.
From S2P Require Import ActiveInv HBM HBMProps LPDDR Examples CtrlExamples.

Local Open Scope Z_scope.

(** ** The rules; a log starts with the newest command *)

Definition is_split (k : LPConst) (e : LPIssue) : bool :=
  (li_command e =? lk_cmd_act1 k) || (li_command e =? lk_cmd_act2 k).

(** The ACT1 whose ACT2 is still to come. *)
Definition pending_act1 (k : LPConst) (log : list LPIssue) : option LPIssue :=
  match List.find (is_split k) log with
  | Some e => if li_command e =? lk_cmd_act1 k then Some e else None
  | None => None
  end.

(** The device after the commands of a log. *)
Definition device_after (d : DRAMDevice) (log : list LPIssue) : result DRAMDevice :=
  foldr (fun e q => d ← q; issue_command d (li_command e) (li_addr_vec e) (li_clk e)) (Ok d) log.

(** While a bank is being activated: synchronisation, accesses, and precharges, of
    which the bank is no target. *)
Definition during_act_ok (k : LPConst) (d : DRAMDevice) (e0 e : LPIssue) (log : list LPIssue) : Prop :=
  is_cas_cmd k (li_command e) = true \/ is_access_cmd k (li_command e) = true \/
  exists m d' banks bank,
    vget (command_meta (m_spec d)) (li_command e) = Ok m /\ is_closing m = true /\ is_refreshing m = false /\
    device_after d log = Ok d' /\ get_target_banks d' (li_command e) (li_addr_vec e) = Ok banks /\
    get_flat_bank_id d (li_addr_vec e0) = Ok bank /\ bank ∉ banks.

Definition act2_due (k : LPConst) (e0 : LPIssue) : Clk_t := li_clk e0 + lk_nAAD k.
Definition before (t : Clk_t) (log : list LPIssue) : list LPIssue := List.filter (fun e => li_clk e <? t) log.

(** What keeps an ACT2 from going out at its deadline: the device refuses it there,
    or a CAS, which left the guard free before the deadline, is still waiting for
    an access that the device has refused in every cycle since. *)
Definition excused (k : LPConst) (d : DRAMDevice) (e0 : LPIssue) (log : list LPIssue) : Prop :=
  exists d', device_after d (before (act2_due k e0) log) = Ok d' /\
  (device_check_timing d' (lk_cmd_act2 k) (li_addr_vec e0) (act2_due k e0) = Ok false \/
   exists cas l cmd, before (act2_due k e0) log = cas :: l /\ is_cas_cmd k (li_command cas) = true /\
     is_access_cmd k cmd = true /\ li_clk cas + lk_cas_deadline_guard k < act2_due k e0 /\
     forall t, li_clk cas < t < act2_due k e0 -> device_check_timing d' cmd (li_addr_vec cas) t = Ok false).

Definition split_rule (k : LPConst) (d : DRAMDevice) (e : LPIssue) (log : list LPIssue) : Prop :=
  (li_command e = lk_cmd_act1 k -> pending_act1 k log = None) /\
  forall e0, pending_act1 k log = Some e0 ->
    if li_command e =? lk_cmd_act2 k
    then li_addr_vec e = li_addr_vec e0 /\ (li_clk e <= act2_due k e0 \/ excused k d e0 log)
    else during_act_ok k d e0 e log.

(** An access finds WCK running, or follows its CAS at once. *)
Definition wck_rule (k : LPConst) (e : LPIssue) (log : list LPIssue) : Prop :=
  lk_wck_sync_mode k = NeedSync -> is_access_cmd k (li_command e) = true ->
  (exists cas log', log = cas :: log' /\ is_cas_cmd k (li_command cas) = true /\ li_addr_vec cas = li_addr_vec e) \/
  exists e', e' ∈ log /\ is_access_cmd k (li_command e') = true /\ li_clk e < li_clk e' + wck_span k (li_command e').

Definition lp_entry_ok (k : LPConst) (d : DRAMDevice) (e : LPIssue) (log : list LPIssue) : Prop :=
  (forall e', e' ∈ log -> li_clk e' < li_clk e) /\ split_rule k d e log /\ wck_rule k e log.

Fixpoint lp_log_ok (k : LPConst) (d : DRAMDevice) (log : list LPIssue) : Prop :=
  match log with [] => True | e :: log => lp_entry_ok k d e log /\ lp_log_ok k d log end.

(** ** Configurations *)

(** The commands are told apart by their ids, and ACT2 closes nothing. *)
Definition lp_ids_okb (k : LPConst) (spec : DRAMSpec) : bool :=
  negb (lk_cmd_act1 k =? lk_cmd_act2 k) &&
  negb (is_access_cmd k (lk_cmd_act1 k)) && negb (is_access_cmd k (lk_cmd_act2 k)) &&
  negb (is_cas_cmd k (lk_cmd_act1 k)) && negb (is_cas_cmd k (lk_cmd_act2 k)) &&
  negb (is_access_cmd k (if 0 <=? lk_cmd_cas k then lk_cmd_cas k else lk_cmd_cas_rd k)) &&
  negb (is_access_cmd k (if 0 <=? lk_cmd_cas k then lk_cmd_cas k else lk_cmd_cas_wr k)) &&
  match vget (command_meta spec) (lk_cmd_act2 k) with Ok m => negb (is_closing m) | Err _ => false end &&
  (0 <? lk_nAAD k).

Record lp_ids_ok (k : LPConst) (spec : DRAMSpec) : Prop := mkLpIds {
  ids_split : lk_cmd_act1 k <> lk_cmd_act2 k;
  ids_act1 : is_access_cmd k (lk_cmd_act1 k) = false;
  ids_act2 : is_access_cmd k (lk_cmd_act2 k) = false;
  ids_act1_cas : is_cas_cmd k (lk_cmd_act1 k) = false;
  ids_act2_cas : is_cas_cmd k (lk_cmd_act2 k) = false;
  ids_cas : forall cmd, is_access_cmd k (cas_for k cmd) = false;
  ids_meta : exists m, vget (command_meta spec) (lk_cmd_act2 k) = Ok m /\ is_closing m = false;
  ids_nAAD : 0 < lk_nAAD k
}.

Lemma cas_for_is_cas (k : LPConst) (cmd : Z) : is_cas_cmd k (cas_for k cmd) = true.
Proof.
  unfold is_cas_cmd, cas_for. destruct (0 <=? _); [by rewrite Z.eqb_refl|].
  destruct (is_read_cmd k cmd); rewrite Z.eqb_refl, ?orb_true_r; done.
Qed.

Lemma lp_ids_okb_sound (k : LPConst) (spec : DRAMSpec) : lp_ids_okb k spec = true -> lp_ids_ok k spec.
Proof.
  unfold lp_ids_okb. rewrite !andb_true_iff, !negb_true_iff. intros [[[[[[[[H1 H2] H3] H4] H5] H6] H6'] H7] H8].
  constructor; try done; [lia| | |lia].
  - intros cmd. unfold cas_for. destruct (0 <=? lk_cmd_cas k); [done|]. by destruct (is_read_cmd k cmd).
  - revert H7. destruct (vget (command_meta spec) (lk_cmd_act2 k)) as [m|]; [|done]. intros H7. exists m. split; [done|]. by destruct (is_closing m).
Qed.

(** ** Small facts *)
Lemma pending_skip (k : LPConst) (e : LPIssue) (log : list LPIssue) :
  is_split k e = false -> pending_act1 k (e :: log) = pending_act1 k log.
Proof. unfold pending_act1. simpl. by intros ->. Qed.

Lemma pending_after_act1 (k : LPConst) (e : LPIssue) (log : list LPIssue) :
  li_command e = lk_cmd_act1 k -> pending_act1 k (e :: log) = Some e.
Proof. unfold pending_act1, is_split. simpl. intros E. rewrite E, Z.eqb_refl. simpl. by rewrite E, Z.eqb_refl. Qed.

Lemma pending_after_act2 (k : LPConst) (e : LPIssue) (log : list LPIssue) :
  lk_cmd_act1 k <> lk_cmd_act2 k -> li_command e = lk_cmd_act2 k -> pending_act1 k (e :: log) = None.
Proof.
  unfold pending_act1, is_split. simpl. intros Hne E. rewrite E, Z.eqb_refl, orb_true_r.
  destruct (Z.eqb_spec (li_command e) (lk_cmd_act1 k)); [congruence|done].
Qed.

Lemma has_pending_true (s : LPState) (b : nat) :
  m_act2_owner_valid s !! b = Some true -> has_pending_act2 s = true.
Proof.
  intros H. apply existsb_exists. exists true. split; [|done]. apply list_elem_of_In. by eapply list_elem_of_lookup_2.
Qed.

Lemma has_pending_false (s : LPState) :
  has_pending_act2 s = false <-> forall b, m_act2_owner_valid s !! b <> Some true.
Proof.
  split.
  - intros H b Hb. apply has_pending_true in Hb. congruence.
  - intros H. apply not_true_iff_false. intros (v & Hv & E)%existsb_exists. destruct v; [|done].
    apply list_elem_of_In, list_elem_of_lookup in Hv as (b & Hb). by eapply H.
Qed.

Lemma before_all (t : Clk_t) (log : list LPIssue) : (forall e, e ∈ log -> li_clk e < t) -> before t log = log.
Proof.
  unfold before. induction log as [|e log IH]; intros H; [done|]. cbn [List.filter].
  rewrite (proj2 (Z.ltb_lt _ _) (H e ltac:(by left))). f_equal. apply IH. intros e' He'. apply H. by right.
Qed.

Lemma before_skip (t : Clk_t) (e : LPIssue) (log : list LPIssue) : t <= li_clk e -> before t (e :: log) = before t log.
Proof. unfold before. cbn [List.filter]. intros H. by rewrite (proj2 (Z.ltb_ge _ _) H). Qed.

Lemma excused_cons (k : LPConst) (d : DRAMDevice) (e0 e : LPIssue) (log : list LPIssue) :
  act2_due k e0 <= li_clk e -> excused k d e0 log -> excused k d e0 (e :: log).
Proof. unfold excused. intros H. by rewrite (before_skip _ _ _ H). Qed.

(** ** A scan of the target banks that stops at a marked one *)
Lemma visit_unmarked (sel : node_ptr -> result bool) (mark : Z -> result bool) (l : list node_ptr) (i : Z) (ids : list Z) (x : bool) :
  visit_banks sel (fun _ id => v ← mark id; Ok (if (v : bool) then (true, false) else (false, true))) false i l = Ok (false, x) ->
  exists new, visit_banks sel (fun ids id => Ok (ids ++ [id], true)) ids i l = Ok (ids ++ new, true) /\
    Forall (fun id => mark id = Ok false) new.
Proof.
  revert i ids. induction l as [|p l IH]; intros i ids H; cbn [visit_banks] in *; [exists []; by rewrite app_nil_r|].
  apply bind_Ok in H as (b & Hb & H). rewrite Hb. cbn [mbind result_bind]. destruct b; [|by apply IH].
  apply bind_Ok in H as (r & Hr & H). apply bind_Ok in Hr as (v & Hv & [= <-]). destruct v; [done|].
  destruct (IH _ (ids ++ [i]) H) as (new & Hn & Hf). exists (i :: new). cbn [mbind result_bind].
  rewrite Hn, <- app_assoc. split; [done|by constructor].
Qed.

Lemma targets_unmarked (d : DRAMDevice) (cmd : Z) (av : AddrVec_t) (mark : Z -> result bool) (x : bool) :
  for_each_target_bank_while d cmd av (fun _ id => v ← mark id; Ok (if (v : bool) then (true, false) else (false, true))) false
    = Ok (false, x) ->
  exists banks, get_target_banks d cmd av = Ok banks /\ Forall (fun id => mark id = Ok false) banks.
Proof.
  unfold get_target_banks, for_each_target_bank, for_each_target_bank_while. intros (t & -> & H)%bind_Ok. cbn [mbind result_bind].
  destruct t.
  - apply bind_Ok in H as (id & -> & H). apply bind_Ok in H as (v & Hv & H). destruct v; [done|]. exists [id]. split; [done|by constructor].
  - destruct (visit_unmarked _ _ _ _ [] _ H) as (new & -> & Hf). by exists new.
  - apply bind_Ok in H as (b & -> & H). cbn [mbind result_bind]. destruct (visit_unmarked _ _ _ _ [] _ H) as (new & -> & Hf). by exists new.
Qed.

(** The bank of an address depends on the organisation only. *)
Lemma flat_bank_frame (d d' : DRAMDevice) (av : AddrVec_t) :
  m_spec d' = m_spec d -> m_bank_level d' = m_bank_level d -> get_flat_bank_id d' av = get_flat_bank_id d av.
Proof. unfold get_flat_bank_id. by intros -> ->. Qed.

(** ** Selection *)

(** A step that only rewrites buffers. *)
Definition quiet (c c' : Ctrl) : Prop := m_clk c' = m_clk c /\ m_device c' = m_device c.

(** The active buffer has a free slot. *)
Definition room (c : Ctrl) : Prop := buf_size (m_active_buffer c) < max_size (m_active_buffer c).

Lemma same_room (c c' : Ctrl) : same_base c c' -> room c -> room c'.
Proof.
  intros [_ _ _ _ Hb _ _]. destruct (Hb BActive) as [E F]. cbn in E, F. unfold room, buf_size. rewrite E.
  by rewrite (Forall2_length _ _ _ F).
Qed.

Lemma sends_room (Q : Ctrl -> Request -> Prop) (c c' : Ctrl) : sends Q c c' -> room c -> room c'.
Proof.
  induction 1 as [|c c1 c2 r ok _ _ Hp _ IH]; [done|]. intros Hr. apply IH. unfold priority_send in Hp.
  destruct (_ || _); [done|]. destruct (enqueue _ _) as [[|] b]; [|by injection Hp as _ <-].
  injection Hp as _ <-. by destruct (_ =? _).
Qed.

Section select.
Context (sch : scheduler_t) `{!SchedulerLaws sch}.

Lemma pick_best_quiet (c c' : Ctrl) (id : buf_id) (f : filter_t) (o : candidate) :
  pick_best_ready_from sch c id f = Ok (c', o) -> quiet c c'.
Proof.
  unfold pick_best_ready_from. intros ([b [i|]] & _ & H)%bind_Ok; simpl in H; [|by injection H as <- _].
  apply bind_Ok in H as (r & _ & H). apply bind_Ok in H as (ok & _ & H). by injection H as <- _.
Qed.

Lemma pick_priority_quiet (c c' : Ctrl) (f : filter_t) (o : candidate) : pick_priority_if c f = Ok (c', o) -> quiet c c'.
Proof.
  unfold pick_priority_if. destruct (_ =? 0); [by intros [= <- _]|]. intros (r & _ & H)%bind_Ok.
  apply bind_Ok in H as (cmd & _ & H). apply bind_Ok in H as (ok & _ & H). destruct (negb ok); [by injection H as <- _|].
  apply bind_Ok in H as (w & _ & H). destruct w; [by injection H as <- _|]. apply bind_Ok in H as (e & _ & H). by injection H as <- _.
Qed.

Lemma pick_rw_quiet (c c' : Ctrl) (f : filter_t) (o : candidate) : pick_rw_if sch c f = Ok (c', o) -> quiet c c'.
Proof.
  unfold pick_rw_if. intros [E1 E2]%pick_best_quiet. unfold quiet. rewrite E1, E2.
  unfold set_write_mode. by repeat case_match.
Qed.

(** Every candidate may be issued while an activation is pending. *)
Definition allowed (k : LPConst) (s : LPState) (d : DRAMDevice) : filter_t :=
  fun r => is_allowed_during_pending_act2 k s d (command r) (addr_vec r).

Lemma passed_weaken (f f' : filter_t) (c : Ctrl) (o : candidate) :
  (forall r, f r = Ok true -> f' r = Ok true) -> passed f c o -> passed f' c o.
Proof. intros Hf Hp id i E. destruct (Hp id i E) as (r & ? & ?). eauto. Qed.

Lemma active_allowed (k : LPConst) (s : LPState) (c : Ctrl) (r : Request) :
  active_filter k s c r = Ok true -> allowed k s (m_device c) r = Ok true.
Proof. unfold active_filter, allowed. intros (a & -> & H)%bind_Ok. by destruct a. Qed.

Lemma queue_allowed (k : LPConst) (s : LPState) (c : Ctrl) (r : Request) :
  queue_filter k s c r = Ok true -> allowed k s (m_device c) r = Ok true.
Proof. unfold queue_filter. intros (o & _ & H)%bind_Ok. destruct o; [|done]. by apply active_allowed. Qed.

Lemma pick_rw_same (c c' : Ctrl) (f : filter_t) (o : candidate) : pick_rw_if sch c f = Ok (c', o) -> same_base c c'.
Proof. unfold pick_rw_if. intros H%(pick_best_same sch). etrans; [apply set_write_mode_same|exact H]. Qed.

Lemma select_room (k : LPConst) (s : LPState) (c c' : Ctrl) (o : candidate) :
  select_normal_candidate sch k s c = Ok (c', o) -> room c -> room c'.
Proof.
  unfold select_normal_candidate. intros ([c1 o1] & H1 & H)%bind_Ok Hr. apply bind_Ok in H as ([c2 o2] & H2 & H). simpl in *.
  apply (pick_best_same sch) in H1. assert (room c2) as Hr2.
  { apply (same_room _ _ H1) in Hr. destruct o1; [by injection H2 as <- <-|]. by eapply same_room, Hr; eapply pick_priority_same. }
  destruct o2; [by injection H as <- <-|]. destruct (_ =? 0); [|by injection H as <- <-].
  eapply same_room; [by eapply pick_rw_same|done].
Qed.

Lemma lookahead_room (k : LPConst) (s : LPState) (c c' : Ctrl) (o : candidate) :
  pick_cas_lookahead_candidate sch k s c = Ok (c', o) -> room c -> room c'.
Proof.
  unfold pick_cas_lookahead_candidate. destruct (cas_would_block_deadline _ _ _); [by intros [= <- <-]|].
  intros ([b i] & Hs & H)%bind_Ok. injection H as <- <-. destruct (sched_refresh _ _ _ _ _ Hs) as [E HF].
  apply same_room. by apply (set_buf_same c BActive), (derive_same c).
Qed.

Lemma select_spec (k : LPConst) (s : LPState) (c c' : Ctrl) (o : candidate) :
  select_normal_candidate sch k s c = Ok (c', o) -> quiet c c' /\ passed (allowed k s (m_device c)) c' o.
Proof.
  unfold select_normal_candidate. intros ([c1 o1] & H1 & H)%bind_Ok. apply bind_Ok in H as ([c2 o2] & H2 & H). simpl in *.
  assert (quiet c c1 /\ passed (allowed k s (m_device c)) c1 o1) as [[Q1 D1] P1].
  { split; [by eapply pick_best_quiet|]. eapply passed_weaken; [apply active_allowed|by eapply (pick_best_passed sch)]. }
  assert (quiet c c2 /\ passed (allowed k s (m_device c)) c2 o2) as [[Q2 D2] P2].
  { destruct o1; [by injection H2 as <- <-|]. destruct (pick_priority_quiet _ _ _ _ H2) as [E1 E2].
    split; [split; congruence|]. rewrite <- D1. eapply passed_weaken; [apply queue_allowed|by eapply pick_priority_passed]. }
  destruct o2; [by injection H as <- <-|]. destruct (_ =? 0); [|by injection H as <- <-].
  destruct (pick_rw_quiet _ _ _ _ H) as [E1 E2]. split; [split; congruence|]. rewrite <- D2.
  eapply passed_weaken; [apply queue_allowed|by eapply (pick_rw_passed sch)].
Qed.

Lemma lookahead_spec (k : LPConst) (s : LPState) (c c' : Ctrl) (o : candidate) :
  pick_cas_lookahead_candidate sch k s c = Ok (c', o) -> quiet c c' /\ passed (allowed k s (m_device c)) c' o.
Proof.
  unfold pick_cas_lookahead_candidate. destruct (cas_would_block_deadline _ _ _); [by intros [= <- <-]|].
  intros ([b [i|]] & Hs & H)%bind_Ok; injection H as <- <-; [|done]. split; [done|]. intros id j [= <- <-]. simpl.
  destruct (sched_choice _ _ _ _ _ Hs) as (r & Hr & Hf). exists r. split.
  - apply req_at_lookup. rewrite get_set_buf, decide_True by done. done.
  - unfold lookahead_filter in Hf. destruct (_ || _); [done|]. apply bind_Ok in Hf as (a & Ha & Hf).
    unfold allowed. rewrite Ha. by destruct a.
Qed.
End select.

(** ** The state of the controller against its log *)
Section protocol.
Context (k : LPConst) (d0 : DRAMDevice) (Hids : lp_ids_ok k (m_spec d0)).

Definition split_inv (s : LPState) (log : list LPIssue) : Prop :=
  max_size (m_activating_buffer s) = Z.of_nat (length (m_act2_owner_valid s)) /\
  match pending_act1 k log with
  | None => buffer (m_activating_buffer s) = [] /\ has_pending_act2 s = false
  | Some e0 => exists r bank,
      buffer (m_activating_buffer s) = [r] /\ addr_vec r = li_addr_vec e0 /\
      get_flat_bank_id d0 (li_addr_vec e0) = Ok bank /\ 0 <= bank /\
      m_act2_owner_valid s !! Z.to_nat bank = Some true /\
      (forall j, m_act2_owner_valid s !! j = Some true -> j = Z.to_nat bank) /\
      m_act2_deadline s !! Z.to_nat bank = Some (act2_due k e0)
  end.

Definition wck_inv (s : LPState) (log : list LPIssue) : Prop :=
  m_wck_expiry s = 0 \/
  exists e, e ∈ log /\ is_access_cmd k (li_command e) = true /\ m_wck_expiry s = li_clk e + wck_span k (li_command e).

(** A pending CAS left the guard to the deadline, and its access has been refused
    up to cycle [t]. *)
Definition cas_inv (t : Clk_t) (c : Ctrl) (s : LPState) (log : list LPIssue) : Prop :=
  forall id i, m_cas_pending s = Some (id, i) -> exists r e l,
    req_at c id i = Ok r /\ is_access_cmd k (command r) = true /\
    log = e :: l /\ is_cas_cmd k (li_command e) = true /\ li_addr_vec e = addr_vec r /\
    (forall e0, pending_act1 k log = Some e0 -> li_clk e + lk_cas_deadline_guard k < act2_due k e0) /\
    forall u, li_clk e < u <= t -> device_check_timing (m_device c) (command r) (addr_vec r) u = Ok false.

(** An ACT2 that is overdue at cycle [t] is excused. *)
Definition late_inv (t : Clk_t) (log : list LPIssue) : Prop :=
  forall e0, pending_act1 k log = Some e0 -> act2_due k e0 <= t -> excused k d0 e0 log.

(** The invariant, after cycle [t]. *)
Record lp_inv (t : Clk_t) (log : list LPIssue) (c : Ctrl) (s : LPState) : Prop := mkLpInv {
  lv_pos : 0 <= m_clk c;
  lv_clk : forall e, e ∈ log -> li_clk e <= m_clk c;
  lv_dev : device_after d0 log = Ok (m_device c);
  lv_late : late_inv t log;
  lv_spec : m_spec (m_device c) = m_spec d0;
  lv_level : m_bank_level (m_device c) = m_bank_level d0;
  lv_split : split_inv s log;
  lv_wck : wck_inv s log;
  lv_cas : cas_inv t c s log;
  lv_rules : lp_log_ok k d0 log
}.

(** Nothing was issued in the current cycle. *)
Definition fresh (log : list LPIssue) (c : Ctrl) : Prop := forall e, e ∈ log -> li_clk e < m_clk c.

Lemma flat_now (t : Clk_t) (c : Ctrl) (s : LPState) (log : list LPIssue) (av : AddrVec_t) :
  lp_inv t log c s -> get_flat_bank_id (m_device c) av = get_flat_bank_id d0 av.
Proof. intros Hi. apply flat_bank_frame; [apply (lv_spec _ _ _ _ Hi)|apply (lv_level _ _ _ _ Hi)]. Qed.

Lemma late_cons (t : Clk_t) (e : LPIssue) (log : list LPIssue) :
  pending_act1 k (e :: log) = pending_act1 k log -> t <= li_clk e -> late_inv t log -> late_inv t (e :: log).
Proof. intros E Hle H e0 He0 Hd. rewrite E in He0. apply excused_cons; [lia|by apply H]. Qed.

Lemma late_none (t : Clk_t) (log : list LPIssue) : pending_act1 k log = None -> late_inv t log.
Proof. intros E e0 He0. congruence. Qed.

(** A deadline that comes in this cycle is missed with an excuse only. *)
Lemma late_step (t : Clk_t) (log : list LPIssue) (c : Ctrl) (s : LPState) :
  lp_inv t log c s -> fresh log c -> m_clk c = t + 1 ->
  (forall e0, pending_act1 k log = Some e0 -> act2_due k e0 = m_clk c ->
     device_check_timing (m_device c) (lk_cmd_act2 k) (li_addr_vec e0) (m_clk c) = Ok false \/ m_cas_pending s <> None) ->
  late_inv (m_clk c) log.
Proof.
  intros Hi Hfr Ht H e0 He0 Hd. destruct (Z.eq_dec (act2_due k e0) (m_clk c)) as [E|Hne];
    [|apply (lv_late _ _ _ _ Hi); [done|lia]].
  unfold excused. rewrite E, (before_all _ _ Hfr). exists (m_device c). split; [apply (lv_dev _ _ _ _ Hi)|].
  destruct (H e0 He0 E) as [Hf|Hc]; [by left|right]. destruct (m_cas_pending s) as [[id i]|] eqn:Hp; [|done].
  destruct (lv_cas _ _ _ _ Hi id i Hp) as (r & e & l & _ & Ha & -> & Hce & Hav & Hg & Hw). exists e, l, (command r).
  rewrite <- E. split_and!; [done|done|done|by apply Hg|]. intros u Hu. rewrite Hav. apply Hw. lia.
Qed.

(** *** Picking the owner *)
Lemma pick_act2_spec (urgent : bool) (t : Clk_t) (log : list LPIssue) (c : Ctrl) (s s' : LPState) (o : option nat) :
  lp_inv t log c s -> pick_act2 urgent k s c = Ok (s', o) ->
  lp_inv t log c s' /\ m_cas_pending s' = m_cas_pending s /\
  (forall i, o = Some i -> i = O /\ exists e0, pending_act1 k log = Some e0) /\
  (urgent = true -> o = None -> forall e0, pending_act1 k log = Some e0 -> act2_due k e0 = m_clk c ->
     device_check_timing (m_device c) (lk_cmd_act2 k) (li_addr_vec e0) (m_clk c) = Ok false).
Proof.
  intros Hi H. pose proof Hi as [Hp Hc Hdv Hlt Hs Hl Hsp Hw Hcas Hr]. unfold pick_act2 in H. destruct Hsp as [Hmax Hsp].
  destruct (pending_act1 k log) as [e0|] eqn:Epend.
  - destruct Hsp as (r & bank & Hb & Hav & Hbank & H0 & Hown & Huniq & Hdl).
    rewrite Hb in H. apply bind_Ok in H as ([l best] & Hf & H). injection H as <- <-. simpl in Hf.
    apply bind_Ok in Hf as ([l1 best1] & Hone & Hf). injection Hf as <- <-. unfold scan_act2_one in Hone.
    rewrite (flat_now t c s log _ Hi), Hav, Hbank in Hone. simpl in Hone.
    rewrite (proj2 (vget_Ok _ _ _) (conj H0 Hdl)) in Hone. simpl in Hone.
    apply bind_Ok in Hone as (ok & Hok & Hone). injection Hone as <- <-. simpl. split_and!; [|done| |].
    + constructor; try done. split; [done|]. rewrite Epend. by exists (set_command r (lk_cmd_act2 k)), bank.
    + intros i Ho. destruct (_ && _); [|done]. injection Ho as <-. split; [done|by exists e0].
    + intros -> Ho e1 [= <-] E. simpl in Ho. rewrite E, Z.ltb_irrefl in Ho. simpl in Ho. rewrite Hav in Hok. by destruct ok.
  - destruct Hsp as [Hb Hn]. rewrite Hb in H. injection H as <- <-. simpl. split_and!; [|done|done|done].
    constructor; try done. split; [done|]. rewrite Epend. by rewrite <- Hb.
Qed.

(** *** The activating buffer as a further buffer of the base *)
Lemma side_stats (c c' : Ctrl) (b b' : ReqBuffer) (r : Request) :
  buffer b = [r] -> on_side_buffer update_request_stats c b 0 = Ok (c', b') ->
  quiet c c' /\ (room c -> room c') /\ exists r', buffer b' = [r'] /\ addr_vec r' = addr_vec r.
Proof.
  intros Hb H. unfold on_side_buffer in H. apply bind_Ok in H as (c1 & H1 & H). injection H as <- <-.
  pose proof (same_room _ _ (update_request_stats_same _ _ _ _ H1)) as Hroom.
  assert (req_at (set_buf c BPriority b) BPriority 0 = Ok r) as Hr by (apply req_at_lookup; simpl; by rewrite Hb).
  destruct (update_stats_fin _ _ _ _ _ Hr H1) as [[F1 F2 _ F4] _]. specialize (F4 BPriority). simpl in *.
  split; [split; simpl; by rewrite ?F1, ?F2|]. split; [exact Hroom|]. rewrite Hb in F4. inversion F4 as [|x y l l' [E _] Hl]; subst.
  inversion Hl; subst. eauto.
Qed.

Lemma side_promote (c c' : Ctrl) (b b' : ReqBuffer) (r : Request) :
  buffer b = [r] -> on_side_buffer promote_to_active c b 0 = Ok (c', b') -> room c ->
  quiet c c' /\ buffer b' = [] /\ max_size b' = max_size b.
Proof.
  intros Hb H Hroom. unfold on_side_buffer in H. apply bind_Ok in H as (c1 & H1 & H). injection H as <- <-.
  unfold promote_to_active in H1. apply bind_Ok in H1 as (x & _ & H1).
  destruct (enqueue _ x) as [[|] a] eqn:Hq; [|unfold enqueue in Hq; simpl in Hq; unfold room in Hroom; case_match; [done|lia]].
  apply bind_Ok in H1 as (c2 & (l & ->)%bump_active_frame & H1). injection H1 as <-. simpl. by rewrite Hb.
Qed.

Lemma side_max (c c' : Ctrl) (b b' : ReqBuffer) (i : nat) :
  on_side_buffer update_request_stats c b i = Ok (c', b') -> max_size b' = max_size b.
Proof.
  unfold on_side_buffer. intros (c1 & H1 & H)%bind_Ok. injection H as <- <-.
  destruct (update_request_stats_same _ _ _ _ H1) as [_ _ _ _ Hb _ _]. apply (Hb BPriority).
Qed.

Section hooks.
Context {R P G : Type} `{IR : RefreshManager R} `{IP : RowPolicy P} `{IG : ControllerPlugin G}.
Context (Q : Ctrl -> Request -> Prop).
Context `{!RefreshLaws Q R} `{!RowPolicyLaws Q P} `{!PluginLaws Q G}.

Lemma issue_hooks_spec (g g' : GenericDDR R P G) (c : Ctrl) (r : Request) :
  issue_hooks g c r = Ok g' -> quiet c (g_ctrl g') /\ (room c -> room (g_ctrl g')) /\
  forall id i x, req_at c id i = Ok x -> req_at (g_ctrl g') id i = Ok x.
Proof.
  unfold issue_hooks. intros (p & _ & H)%bind_Ok. apply bind_Ok in H as ([gs c'] & H1 & H). injection H as <-. simpl.
  apply (each_plugin_sends Q) in H1; [|intros ? ? ? ?; apply plugin_issue_sends].
  split; [split; [by eapply sends_clk|by apply (sends_inv Q _ _ H1)]|]. split; [by eapply sends_room|].
  intros id i x. by eapply sends_req_at.
Qed.

Lemma issue_shape (d d' : DRAMDevice) (cmd : Z) (av : AddrVec_t) (clk : Clk_t) :
  issue_command d cmd av clk = Ok d' -> m_spec d' = m_spec d /\ m_bank_level d' = m_bank_level d.
Proof.
  unfold issue_command, apply_action. intros (root & _ & H)%bind_Ok. apply bind_Ok in H as (fn & _ & H).
  destruct fn as [f|]; [|by injection H as <-]. apply bind_Ok in H as (root' & _ & H). by injection H as <-.
Qed.

(** What an issued command must satisfy, and what it leaves. *)
Record lp_done (log : list LPIssue) (o : option LPIssue) (c : Ctrl) (g : LPDDR R P G) : Prop := mkLpDone {
  ld_const : lp_const g = k;
  ld_clk : m_clk (g_ctrl (lp_base g)) = m_clk c;
  ld_inv : lp_inv (m_clk c) (option_list o ++ log) (g_ctrl (lp_base g)) (lp_state g)
}.

(** An ACT2 ends the pending activation. *)
Lemma owner_released (s : LPState) (bank : Z) (owners : list bool) (deadlines : list Clk_t) :
  0 <= bank -> (forall j, m_act2_owner_valid s !! j = Some true -> j = Z.to_nat bank) ->
  vset (m_act2_owner_valid s) bank false = Ok owners -> has_pending_act2 (set_owner s owners deadlines) = false.
Proof.
  intros H0 Hu [Hr ->]%vset_Ok. apply has_pending_false. simpl. intros j Hj.
  destruct (decide (j = Z.to_nat bank)) as [->|Hne].
  - rewrite list_lookup_insert_eq in Hj by lia. done.
  - rewrite list_lookup_insert_ne in Hj by done. by apply Hne, Hu.
Qed.

Lemma promote_from_spec (log : list LPIssue) (c c' : Ctrl) (s s' : LPState) (r : Request) (bank : Z) :
  buffer (m_activating_buffer s) = [r] -> get_flat_bank_id (m_device c) (addr_vec r) = Ok bank -> 0 <= bank ->
  (forall j, m_act2_owner_valid s !! j = Some true -> j = Z.to_nat bank) ->
  room c -> promote_from_activating s c 0 = Ok (s', c') ->
  quiet c c' /\ buffer (m_activating_buffer s') = [] /\ has_pending_act2 s' = false /\
  max_size (m_activating_buffer s') = max_size (m_activating_buffer s) /\
  length (m_act2_owner_valid s') = length (m_act2_owner_valid s) /\
  m_wck_expiry s' = m_wck_expiry s /\ m_cas_pending s' = m_cas_pending s.
Proof.
  intros Hb Hbank H0 Hu Hroom H. unfold promote_from_activating in H. rewrite Hb in H. simpl in H.
  apply bind_Ok in H as (bk & Hbk & H). rewrite Hbank in Hbk. injection Hbk as <-.
  apply bind_Ok in H as ([c1 b1] & H1 & H). simpl in H. apply bind_Ok in H as (owners & Ho & H).
  apply bind_Ok in H as (dls & _ & H). injection H as <- <-.
  destruct (side_promote _ _ _ _ _ Hb H1 Hroom) as (Hq & He & Hm). split_and!; try done; [|by apply (vset_length _ _ _ _ Ho)].
  by apply (owner_released (set_activating s b1) bank).
Qed.

(** *** WCK bookkeeping *)
Lemma wck_cons (s s' : LPState) (log : list LPIssue) (e : LPIssue) :
  m_wck_expiry s' = m_wck_expiry s -> wck_inv s log -> wck_inv s' (e :: log).
Proof.
  intros E [H|(e' & He & Ha & H)]; [left; congruence|]. right. exists e'. rewrite E. split_and!; [by right|done|done].
Qed.

Lemma wck_extend (s : LPState) (log : list LPIssue) (e : LPIssue) (clk : Clk_t) :
  is_access_cmd k (li_command e) = true -> li_clk e = clk -> wck_inv s log ->
  wck_inv (extend_wck_expiry k clk (li_command e) s) (e :: log).
Proof.
  intros Ha <- Hw. unfold extend_wck_expiry. destruct (_ <? _); [|by eapply wck_cons].
  right. exists e. split_and!; [by left|done|done].
Qed.

Lemma extend_frame (clk : Clk_t) (cmd : Z) (s : LPState) :
  m_activating_buffer (extend_wck_expiry k clk cmd s) = m_activating_buffer s /\
  m_act2_owner_valid (extend_wck_expiry k clk cmd s) = m_act2_owner_valid s /\
  m_act2_deadline (extend_wck_expiry k clk cmd s) = m_act2_deadline s /\
  m_cas_pending (extend_wck_expiry k clk cmd s) = m_cas_pending s.
Proof. unfold extend_wck_expiry. by destruct (_ <? _). Qed.

(** The split-activation state reads three members of the state. *)
Lemma split_frame (s s' : LPState) (log log' : list LPIssue) :
  pending_act1 k log' = pending_act1 k log -> m_activating_buffer s' = m_activating_buffer s ->
  m_act2_owner_valid s' = m_act2_owner_valid s -> m_act2_deadline s' = m_act2_deadline s ->
  split_inv s log -> split_inv s' log'.
Proof. unfold split_inv, has_pending_act2. intros -> -> -> ->. done. Qed.

(** Nothing issued. *)
Lemma done_none (g : LPDDR R P G) (log : list LPIssue) (c : Ctrl) :
  lp_const g = k -> m_clk (g_ctrl (lp_base g)) = m_clk c -> lp_inv (m_clk c) log (g_ctrl (lp_base g)) (lp_state g) ->
  lp_done log None c g.
Proof. by constructor. Qed.

Lemma device_after_cons (log : list LPIssue) (e : LPIssue) (d d' : DRAMDevice) :
  device_after d0 log = Ok d -> issue_command d (li_command e) (li_addr_vec e) (li_clk e) = Ok d' -> device_after d0 (e :: log) = Ok d'.
Proof. unfold device_after. cbn [foldr]. intros H. by rewrite H. Qed.

(** *** ACT2 of the owner *)
Lemma owned_act2_spec (g g' : LPDDR R P G) (kind : Act2IssueKind) (t : Clk_t) (log : list LPIssue) (e e0 : LPIssue) :
  let c := g_ctrl (lp_base g) in
  lp_const g = k -> lp_inv t log c (lp_state g) -> fresh log c -> room c -> m_cas_pending (lp_state g) = None ->
  pending_act1 k log = Some e0 -> m_clk c <= act2_due k e0 \/ excused k d0 e0 log ->
  issue_owned_act2 g 0 kind = Ok (g', e) -> lp_done log (Some e) c g'.
Proof.
  intros c Ek Hi Hfr Hroom Hcas Hpend Htime H. pose proof Hi as [Hp Hc Hdv _ Hs Hl [Hmax Hsp] Hw _ Hr]. rewrite Hpend in Hsp.
  destruct Hsp as (r & bank & Hb & Hav & Hbank & H0 & Hown & Huniq & Hdl).
  unfold issue_owned_act2 in H. rewrite Hb, Ek in H. simpl in H. apply bind_Ok in H as (u0 & _ & H).
  apply bind_Ok in H as ([c1 b1] & H1 & H). simpl in H.
  assert (quiet c c1 /\ (room c -> room c1) /\ max_size b1 = max_size (m_activating_buffer (lp_state g)) /\
    exists r', buffer b1 = [r'] /\ addr_vec r' = addr_vec r) as ([Q1 D1] & R1 & M1 & r' & Hb1 & Hav1).
  { destruct (negb _); [|injection H1 as <- <-; split_and!; [done..|by exists r]].
    destruct (side_stats _ _ _ _ _ Hb H1) as (? & ? & ?). split_and!; try done. by eapply side_max. }
  rewrite Hb1 in H. simpl in H. apply bind_Ok in H as (d & Hd & H). apply bind_Ok in H as (base & Hh & H).
  destruct (issue_shape _ _ _ _ _ Hd) as [S1 S2]. destruct (issue_hooks_spec _ _ _ _ Hh) as ([Q2 D2] & R2 & _). simpl in Q2, D2.
  apply bind_Ok in H as ([s' c'] & Hpr & H). injection H as <- <-. simpl.
  apply (promote_from_spec log) with (r := r') (bank := bank) in Hpr as ([Q3 D3] & Hb' & Hn' & Hm' & Hl' & Hw' & Hcas');
    try done; [|rewrite D2, (flat_bank_frame (m_device c)); [by rewrite Hav1, Hav, (flat_now t c _ log _ Hi)| |]; congruence|by apply R2, R1].
  set (e := mkLPIssue _ _ _). assert (Hnone : pending_act1 k (e :: log) = None) by (by apply pending_after_act2; [apply Hids|]).
  assert (Eclk : m_clk c' = m_clk c) by congruence.
  constructor; simpl; [done|done|]. constructor; simpl.
  - by rewrite Eclk.
  - rewrite Eclk. intros e1 [->|He1]%elem_of_cons; [simpl; by rewrite Q1|by apply Hc].
  - apply (device_after_cons log e (m_device c)); [done|]. simpl. rewrite <- D1. by rewrite D3, D2.
  - by apply late_none.
  - congruence.
  - congruence.
  - split; [simpl in *; congruence|]. by rewrite Hnone.
  - by eapply wck_cons.
  - intros id i E. simpl in *. congruence.
  - split; [|done]. split_and!.
    + intros e1 He1. simpl. rewrite Q1. by apply Hfr.
    + split; [intros E; simpl in E; by destruct (ids_split _ _ Hids)|]. intros e1 E1. rewrite Hpend in E1. injection E1 as <-.
      simpl. rewrite Z.eqb_refl. split; [congruence|]. by rewrite Q1.
    + intros _ Ha. simpl in Ha. by rewrite (ids_act2 _ _ Hids) in Ha.
Qed.

(** An ACT2 is in time, or excused. *)
Lemma late_or_due (t clk : Clk_t) (log : list LPIssue) (e0 : LPIssue) :
  late_inv t log -> clk <= t + 1 -> pending_act1 k log = Some e0 -> clk <= act2_due k e0 \/ excused k d0 e0 log.
Proof. intros Hl Hle He0. destruct (Z.le_gt_cases (act2_due k e0) t); [right; by apply Hl|left; lia]. Qed.

Lemma deferred_spec (g g' : LPDDR R P G) (log : list LPIssue) (o : option LPIssue) :
  let c := g_ctrl (lp_base g) in
  lp_const g = k -> lp_inv (m_clk c) log c (lp_state g) -> fresh log c -> room c -> m_cas_pending (lp_state g) = None ->
  issue_deferred g = Ok (g', o) -> lp_done log o c g'.
Proof.
  intros c Ek Hi Hfr Hroom Hcas H. unfold issue_deferred in H. rewrite Ek in H. apply bind_Ok in H as ([s1 o1] & H1 & H).
  destruct (pick_act2_spec _ _ _ _ _ _ _ Hi H1) as (Hi1 & Ec & Hpos & _). simpl in H. destruct o1 as [i|].
  - destruct (Hpos i eq_refl) as (-> & e0 & He0). apply bind_Ok in H as ([g2 e] & H2 & H). injection H as <- <-. simpl.
    eapply (owned_act2_spec (mkLPDDR (lp_base g) k s1)); try done; [simpl; congruence|].
    simpl. apply (late_or_due (m_clk c)); [apply (lv_late _ _ _ _ Hi)|fold c; lia|done].
  - injection H as <- <-. by apply done_none.
Qed.

(** *** CAS *)
Lemma req_at_put (c : Ctrl) (id : buf_id) (i : nat) (r r' : Request) :
  req_at c id i = Ok r -> req_at (put_req c id i r') id i = Ok r'.
Proof.
  intros Hr%req_at_lookup. apply req_at_lookup. unfold put_req. rewrite get_set_buf, decide_True by done.
  apply list_lookup_insert_eq. by eapply lookup_lt_Some.
Qed.

Lemma req_at_device (c : Ctrl) (d : DRAMDevice) (id : buf_id) (i : nat) : req_at (set_device c d) id i = req_at c id i.
Proof. by destruct id. Qed.

Lemma cas_not_split (e : LPIssue) : is_cas_cmd k (li_command e) = true -> is_split k e = false.
Proof.
  intros H. unfold is_split. apply orb_false_iff. split; apply Z.eqb_neq; intros E; rewrite E in H.
  - by rewrite (ids_act1_cas _ _ Hids) in H.
  - by rewrite (ids_act2_cas _ _ Hids) in H.
Qed.

Lemma access_not_split (e : LPIssue) : is_access_cmd k (li_command e) = true -> is_split k e = false.
Proof.
  intros H. unfold is_split. apply orb_false_iff. split; apply Z.eqb_neq; intros E; rewrite E in H.
  - by rewrite (ids_act1 _ _ Hids) in H.
  - by rewrite (ids_act2 _ _ Hids) in H.
Qed.

(** A command that is neither ACT1 nor ACT2. *)
Lemma split_rule_other (e : LPIssue) (log : list LPIssue) :
  is_split k e = false -> (forall e0, pending_act1 k log = Some e0 -> during_act_ok k d0 e0 e log) -> split_rule k d0 e log.
Proof.
  unfold is_split. intros [E1 E2]%orb_false_iff Hd. split; [lia|]. intros e0 He0. rewrite E2. by apply Hd.
Qed.

(** Such a command, once issued, only has to keep WCK and CAS in order. *)
Lemma done_other (g' : LPDDR R P G) (e : LPIssue) (t : Clk_t) (log : list LPIssue) (c : Ctrl) (s : LPState) :
  let c' := g_ctrl (lp_base g') in
  let s' := lp_state g' in
  lp_inv t log c s -> fresh log c -> late_inv (m_clk c) log -> lp_const g' = k -> m_clk c' = m_clk c ->
  issue_command (m_device c) (li_command e) (li_addr_vec e) (li_clk e) = Ok (m_device c') ->
  li_clk e = m_clk c -> is_split k e = false ->
  (forall e0, pending_act1 k log = Some e0 -> during_act_ok k d0 e0 e log) -> wck_rule k e log ->
  m_activating_buffer s' = m_activating_buffer s ->
  m_act2_owner_valid s' = m_act2_owner_valid s -> m_act2_deadline s' = m_act2_deadline s ->
  wck_inv s' (e :: log) -> cas_inv (m_clk c) c' s' (e :: log) -> lp_done log (Some e) c g'.
Proof.
  intros c' s' [Hp Hc Hdv _ Hs Hl Hsp _ _ Hrl] Hfr Hlate Ek Eclk Hiss Ee Hns Hd Hw F1 F2 F3 Hwi Hci.
  pose proof (pending_skip k e log Hns) as Hpe. destruct (issue_shape _ _ _ _ _ Hiss) as [Es El].
  constructor; simpl; [done|done|]. constructor; fold c' s'.
  - by rewrite Eclk.
  - rewrite Eclk. intros e1 [->|He1]%elem_of_cons; [by rewrite Ee|by apply Hc].
  - by eapply device_after_cons.
  - apply late_cons; [done|lia|done].
  - congruence.
  - congruence.
  - by apply (split_frame s _ log).
  - done.
  - done.
  - split; [|done]. split_and!; [|by apply split_rule_other|done]. intros e1 He1. rewrite Ee. by apply Hfr.
Qed.

(** The guard of a CAS. *)
Lemma guard_free (s : LPState) (log : list LPIssue) (clk : Clk_t) (e0 : LPIssue) :
  split_inv s log -> cas_would_block_deadline k s clk = false -> pending_act1 k log = Some e0 ->
  clk + lk_cas_deadline_guard k < act2_due k e0.
Proof.
  intros [_ Hsp] Hg He0. rewrite He0 in Hsp. destruct Hsp as (r & bank & _ & _ & _ & _ & Ho & _ & Hdl).
  apply Z.nle_gt. intros Hle. apply not_true_iff_false in Hg. apply Hg, existsb_exists. exists (true, act2_due k e0). split.
  - apply list_elem_of_In, list_elem_of_lookup. exists (Z.to_nat bank). apply lookup_zip_with_Some. by exists true, (act2_due k e0).
  - simpl. by apply Z.leb_le.
Qed.

Lemma cas_sync_spec (g : LPDDR R P G) (id : buf_id) (i : nat) (log : list LPIssue) (r : Request)
  (t : option (LPDDR R P G * option LPIssue)) :
  let c := g_ctrl (lp_base g) in
  lp_const g = k -> lp_inv (m_clk c) log c (lp_state g) -> fresh log c -> room c -> m_cas_pending (lp_state g) = None ->
  req_at c id i = Ok r -> try_issue_cas_sync g id i = Ok t ->
  match t with
  | None => needs_wck_sync k (lp_state g) (m_clk c) (command r) = false
  | Some q => lp_done log q.2 c q.1
  end.
Proof.
  intros c Ek Hi Hfr Hroom Hcas Hr H. unfold try_issue_cas_sync in H. fold c in H. rewrite Hr, Ek in H. simpl in H.
  destruct (needs_wck_sync _ _ _ _) eqn:Hneed; simpl in H; [|by injection H as <-].
  destruct (cas_would_block_deadline _ _ _) eqn:Hguard.
  { apply bind_Ok in H as ([g1 o1] & H1 & H). simpl in H. destruct o1 as [e|]; [|done]. injection H as <-.
    by apply (deferred_spec g). }
  apply bind_Ok in H as (ok & _ & H). destruct ok; simpl in H; [|injection H as <-; by apply done_none].
  apply bind_Ok in H as (d & Hd & H). apply bind_Ok in H as (base & Hh & H). apply bind_Ok in H as (r' & Hr' & H).
  injection H as <-. simpl. destruct (issue_shape _ _ _ _ _ Hd) as [S1 S2].
  destruct (issue_hooks_spec _ _ _ _ Hh) as ([Q2 D2] & _ & Hat). simpl in *.
  pose proof (Hat id i (set_command r (cas_for k (command r)))) as Er. rewrite req_at_device in Er.
  rewrite (req_at_put _ _ _ _ _ Hr) in Er. specialize (Er eq_refl). rewrite Hr' in Er. injection Er as ->.
  set (e := mkLPIssue _ _ _). assert (Hce : is_cas_cmd k (li_command e) = true) by apply cas_for_is_cas.
  pose proof (lv_wck _ _ _ _ Hi) as Hw. apply (done_other _ e (m_clk c) log c (lp_state g)); simpl; try done;
    [apply (lv_late _ _ _ _ Hi)|by rewrite D2, Q2|by apply cas_not_split| | | |].
  - intros e0 _. by left.
  - intros _ Ha. simpl in Ha. by rewrite (ids_cas _ _ Hids) in Ha.
  - by apply (wck_cons (lp_state g)).
  - intros id' i' [= <- <-]. eexists _, e, log. split; [by eapply req_at_put|]. split_and!; try done.
    + unfold needs_wck_sync in Hneed. simpl. by destruct (is_access_cmd k (command r)).
    + intros e0 He0. rewrite (pending_skip k e log (cas_not_split e Hce)) in He0. simpl. rewrite Q2.
      by apply (guard_free (lp_state g) log); [apply (lv_split _ _ _ _ Hi)| |].
    + simpl. intros u Hu. lia.
Qed.

(** *** The access after a CAS *)
Lemma retire_quiet (c c' : Ctrl) (id : buf_id) (i : nat) : retire_request c id i = Ok c' -> quiet c c'.
Proof.
  intros (r & l & _ & ->)%retire_spec. unfold retire_effect, run_callback, quiet. by repeat case_match.
Qed.

(** [update_request_stats], when it is due, keeps the command and the address. *)
Lemma stats_step (c c' : Ctrl) (id : buf_id) (i : nat) (r r' : Request) :
  req_at c id i = Ok r -> (if negb (is_stat_updated r) then update_request_stats c id i else Ok c) = Ok c' ->
  req_at c' id i = Ok r' -> quiet c c' /\ command r' = command r /\ addr_vec r' = addr_vec r.
Proof.
  intros Hr H Hr'. destruct (negb _).
  - destruct (update_stats_fin _ _ _ _ _ Hr H) as [[F1 F2 _ _] E]. rewrite Hr' in E. by injection E as ->.
  - injection H as <-. rewrite Hr in Hr'. by injection Hr' as <-.
Qed.

(** One more cycle in which the access of a CAS is refused. *)
Lemma inv_refused (t : Clk_t) (log : list LPIssue) (c : Ctrl) (s : LPState) (id : buf_id) (i : nat) (r : Request) :
  lp_inv t log c s -> m_clk c = t + 1 -> late_inv (m_clk c) log -> m_cas_pending s = Some (id, i) -> req_at c id i = Ok r ->
  ctrl_check_timing c (command r) (addr_vec r) = Ok false -> lp_inv (m_clk c) log c s.
Proof.
  intros [Hp Hc Hdv _ Hs Hl Hsp Hw Hci Hrl] Ht Hlate Hcas Hr Hno. constructor; try done. intros id' i' E. rewrite Hcas in E.
  injection E as <- <-. destruct (Hci id i Hcas) as (r1 & e & l & Hr1 & Ha & Hlog & Hce & Hav & Hg & Hwait).
  rewrite Hr in Hr1. injection Hr1 as <-. exists r, e, l. split_and!; try done. intros u Hu.
  destruct (Z.eq_dec u (m_clk c)) as [->|Hne]; [exact Hno|apply Hwait; lia].
Qed.

Lemma continuation_spec (g g' : LPDDR R P G) (id : buf_id) (i : nat) (t : Clk_t) (log : list LPIssue) (o : option LPIssue) :
  let c := g_ctrl (lp_base g) in
  lp_const g = k -> lp_inv t log c (lp_state g) -> m_clk c = t + 1 -> fresh log c -> late_inv (m_clk c) log ->
  m_cas_pending (lp_state g) = Some (id, i) -> cas_continuation g id i = Ok (g', o) -> lp_done log o c g'.
Proof.
  intros c Ek Hi Ht Hfr Hlate Hcas H. pose proof Hi as [_ _ _ _ _ _ _ Hw Hci _].
  destruct (Hci id i Hcas) as (r & ce & l & Hr & Ha & Hlog & Hce & Hav & _). unfold cas_continuation in H. fold c in H.
  rewrite Hr, Ek in H. simpl in H. apply bind_Ok in H as (ok & Hok & H).
  destruct ok; simpl in H; [|injection H as <- <-; apply done_none; [done|done|by eapply inv_refused]].
  apply bind_Ok in H as (c1 & H1 & H). apply bind_Ok in H as (r1 & Hr1 & H).
  assert (Hrb : req_at (bump c "cas_issued" 1) id i = Ok r) by (by destruct id).
  destruct (stats_step _ _ _ _ _ _ Hrb H1 Hr1) as ([Q1 D1] & Ec1 & Ea1). simpl in Q1, D1.
  apply bind_Ok in H as (d & Hd & H). apply bind_Ok in H as (base & Hh & H). apply bind_Ok in H as (r2 & Hr2 & H).
  destruct (issue_hooks_spec _ _ _ _ Hh) as ([Q2 D2] & _ & Hat). simpl in Q2, D2.
  pose proof (Hat id i r1) as Er. rewrite req_at_device in Er. specialize (Er Hr1). rewrite Hr2 in Er. injection Er as ->.
  apply bind_Ok in H as (c' & H2 & H). injection H as <- <-. simpl.
  assert (quiet (g_ctrl base) c') as [Q3 D3] by (destruct (_ =? _); [by eapply retire_quiet|by injection H2 as <-]).
  set (e := mkLPIssue _ _ _). assert (Hae : is_access_cmd k (li_command e) = true) by (simpl; by rewrite Ec1).
  set (s1 := set_cas_pending (lp_state g) None).
  set (s2 := if bool_decide _ then _ else s1).
  assert (Hs2 : m_activating_buffer s2 = m_activating_buffer s1 /\ m_act2_owner_valid s2 = m_act2_owner_valid s1 /\
    m_act2_deadline s2 = m_act2_deadline s1 /\ m_cas_pending s2 = None /\ wck_inv s2 (e :: log)).
  { unfold s2. destruct (bool_decide _).
    - destruct (extend_frame (m_clk c) (command r) s1) as (-> & -> & -> & ->). split_and!; try done.
      rewrite <- Ec1. apply (wck_extend s1 log e); [done|simpl; by rewrite Q1|exact Hw].
    - split_and!; try done. by apply (wck_cons (lp_state g)). }
  destruct Hs2 as (F1 & F2 & F3 & F4 & F5).
  apply (done_other _ e t log c (lp_state g)); simpl; try done;
    [congruence|by rewrite D3, D2, <- D1|by apply access_not_split| | |].
  - intros e0 _. right. by left.
  - intros _ _. left. exists ce, l. split_and!; [done|done|]. simpl. congruence.
  - intros id' i' E. congruence.
Qed.

(** *** The other commands *)
Lemma pending_owner (log : list LPIssue) (s : LPState) (e0 : LPIssue) :
  split_inv s log -> pending_act1 k log = Some e0 ->
  has_pending_act2 s = true /\ exists bank, get_flat_bank_id d0 (li_addr_vec e0) = Ok bank /\ 0 <= bank /\
    m_act2_owner_valid s !! Z.to_nat bank = Some true.
Proof.
  intros [_ H] E. rewrite E in H. destruct H as (r & bank & _ & _ & Hb & H0 & Ho & _).
  split; [by eapply has_pending_true|]. by exists bank.
Qed.

Lemma allowed_during (t : Clk_t) (log : list LPIssue) (c : Ctrl) (s : LPState) (r : Request) (e0 : LPIssue) :
  lp_inv t log c s -> allowed k s (m_device c) r = Ok true -> pending_act1 k log = Some e0 ->
  command r <> lk_cmd_act1 k /\ command r <> lk_cmd_act2 k /\
  forall e, li_command e = command r -> li_addr_vec e = addr_vec r -> during_act_ok k d0 e0 e log.
Proof.
  intros Hi Ha Hpe. destruct (pending_owner _ _ _ (lv_split _ _ _ _ Hi) Hpe) as (Hn & bank & Hb & H0 & Ho).
  unfold allowed, is_allowed_during_pending_act2 in Ha. rewrite Hn in Ha. simpl in Ha.
  destruct (Z.eqb_spec (command r) (lk_cmd_act1 k)) as [E|E1]; [done|].
  destruct (is_cas_cmd k (command r) || is_access_cmd k (command r)) eqn:Ec.
  { assert (command r <> lk_cmd_act2 k) as Hne2.
    { intros E. rewrite E, (ids_act2 _ _ Hids), (ids_act2_cas _ _ Hids) in Ec. done. }
    split_and!; [done|done|]. intros e E Eav. unfold during_act_ok. rewrite E. apply orb_true_iff in Ec as [->| ->]; auto. }
  rewrite (lv_spec _ _ _ _ Hi) in Ha. apply bind_Ok in Ha as (m & Hm & Ha). destruct (is_refreshing m) eqn:Er; [done|].
  destruct (is_closing m) eqn:Ecl; [|done]. split_and!; [done| |].
  { intros E. destruct (ids_meta _ _ Hids) as (m' & Hm' & Hc'). rewrite E, Hm' in Hm. injection Hm as <-. congruence. }
  intros e E Eav. right. right. apply bind_Ok in Ha as (w & Hw & Ha). injection Ha as Ha. unfold would_block_activating in Hw.
  rewrite (lv_spec _ _ _ _ Hi), Hm in Hw. simpl in Hw. rewrite Ecl in Hw. simpl in Hw.
  apply bind_Ok in Hw as ([w1 x] & Hw & E1'). injection E1' as <-. destruct w1; [done|].
  destruct (targets_unmarked _ _ _ _ _ Hw) as (banks & Hbanks & Hfree). exists m, (m_device c), banks, bank. rewrite E, Eav.
  split_and!; try done; [apply (lv_dev _ _ _ _ Hi)|]. intros Hin. rewrite Forall_forall in Hfree. specialize (Hfree bank Hin).
  rewrite (proj2 (vget_Ok _ _ _) (conj H0 Ho)) in Hfree. done.
Qed.

Lemma allowed_act1 (t : Clk_t) (log : list LPIssue) (c : Ctrl) (s : LPState) (r : Request) :
  lp_inv t log c s -> allowed k s (m_device c) r = Ok true -> command r = lk_cmd_act1 k -> pending_act1 k log = None.
Proof.
  intros Hi Ha E. destruct (pending_act1 k log) as [e0|] eqn:Hpe; [|done].
  by destruct (allowed_during _ _ _ _ _ _ Hi Ha Hpe) as (? & _).
Qed.

(** ACT1 makes its request the owner of the bank. *)
Lemma move_spec (c c' : Ctrl) (s s' : LPState) (id : buf_id) (i : nat) (r : Request) (e : LPIssue) (log : list LPIssue) :
  req_at c id i = Ok r -> max_size (m_activating_buffer s) = Z.of_nat (length (m_act2_owner_valid s)) ->
  buffer (m_activating_buffer s) = [] -> has_pending_act2 s = false ->
  (forall av, get_flat_bank_id (m_device c) av = get_flat_bank_id d0 av) ->
  li_command e = lk_cmd_act1 k -> li_addr_vec e = addr_vec r -> li_clk e = m_clk c ->
  move_to_activating k s c id i = Ok (s', c') ->
  quiet c c' /\ split_inv s' (e :: log) /\ m_wck_expiry s' = m_wck_expiry s /\ m_cas_pending s' = m_cas_pending s.
Proof.
  intros Hr Hmax Hb Hn Hflat Ec Ea Eclk H. unfold move_to_activating in H. rewrite Hr in H. simpl in H.
  apply bind_Ok in H as (bank & Hbank & H). apply bind_Ok in H as (owners & Ho & H).
  apply bind_Ok in H as (dls & Hdl & H). injection H as <- <-. apply vset_Ok in Ho as [Hro ->]. apply vset_Ok in Hdl as [Hrd ->].
  assert (enqueue (m_activating_buffer s) r = (true, mkReqBuffer [r] (max_size (m_activating_buffer s)))) as ->.
  { unfold enqueue, buf_size. rewrite Hmax, Hb. simpl. by rewrite (proj2 (Z.ltb_lt 0 _)) by lia. }
  split; [destruct (decide (id = BWrite)); by destruct id|]. split; [|done].
  split; [simpl; by rewrite length_insert|]. rewrite (pending_after_act1 k e log Ec). exists r, bank. simpl.
  rewrite Ea, <- (Hflat (addr_vec r)). split_and!; try done; [lia| | |].
  - apply list_lookup_insert_eq. lia.
  - intros j Hj. destruct (decide (j = Z.to_nat bank)) as [->|Hne]; [done|].
    rewrite list_lookup_insert_ne in Hj by done. by apply (proj1 (has_pending_false s) Hn) in Hj.
  - rewrite list_lookup_insert_eq by lia. f_equal. unfold act2_due. rewrite Eclk. f_equal. by destruct (decide (id = BWrite)).
Qed.

(** The policy may replace an access by another access, nothing else. *)
Definition access_upgrade : Prop := forall (p : P) c r r', rp_try_upgrade_command p c r = Ok r' ->
  command r' = command r \/ is_access_cmd k (command r) = true /\ is_access_cmd k (command r') = true.
Context (Hup : access_upgrade).

(** The bookkeeping of an ordinary command. *)
Definition after_standard (cmd : Z) (clk : Clk_t) (s : LPState) : LPState :=
  if is_access_cmd k cmd && bool_decide (lk_wck_sync_mode k = NeedSync) then extend_wck_expiry k clk cmd s else s.

Lemma after_standard_frame (s : LPState) (log : list LPIssue) (e : LPIssue) :
  let s' := after_standard (li_command e) (li_clk e) s in
  m_activating_buffer s' = m_activating_buffer s /\ m_act2_owner_valid s' = m_act2_owner_valid s /\
  m_act2_deadline s' = m_act2_deadline s /\ m_cas_pending s' = m_cas_pending s /\
  (wck_inv s log -> wck_inv s' (e :: log)).
Proof.
  unfold after_standard. destruct (is_access_cmd k (li_command e)) eqn:Ha; simpl.
  - destruct (bool_decide _); [|split_and!; try done; by apply wck_cons].
    destruct (extend_frame (li_clk e) (li_command e) s) as (-> & -> & -> & ->). split_and!; try done. by apply wck_extend.
  - split_and!; try done. by apply wck_cons.
Qed.

(** Issuing, up to the hooks: the request keeps its place, its address and its command. *)
Lemma standard_issue (g g' : LPDDR R P G) (id : buf_id) (i : nat) (r : Request) (e : LPIssue) :
  let c := g_ctrl (lp_base g) in
  lp_const g = k -> req_at c id i = Ok r -> issue_standard_candidate g id i = Ok (g', e) ->
  (li_command e = command r \/ is_access_cmd k (command r) = true /\ is_access_cmd k (li_command e) = true) /\
  li_addr_vec e = addr_vec r /\ li_clk e = m_clk c /\
  exists base r3, let c3 := g_ctrl base in
    req_at c3 id i = Ok r3 /\ addr_vec r3 = addr_vec r /\ m_clk c3 = m_clk c /\
    issue_command (m_device c) (li_command e) (li_addr_vec e) (li_clk e) = Ok (m_device c3) /\
    let s := after_standard (li_command e) (li_clk e) (lp_state g) in
    (if li_command e =? lk_cmd_act1 k
     then p ← move_to_activating k s c3 id i; Ok (mkLPDDR (with_base_ctrl base p.2) k p.1)
     else c4 ← advance_request c3 id i; Ok (mkLPDDR (with_base_ctrl base c4) k s)) = Ok g'.
Proof.
  intros c Ek Hr H. unfold issue_standard_candidate in H. fold c in H. rewrite Hr, Ek in H. simpl in H.
  apply bind_Ok in H as (r1 & Hr1 & H). pose proof (Hup _ _ _ _ Hr1) as Hcmd.
  destruct (upgrade_same _ _ _ _ Hr1) as (_ & _ & Eav & _). apply bind_Ok in H as (bank & _ & H).
  apply bind_Ok in H as (c2 & H2 & H). apply bind_Ok in H as (r2 & Hr2 & H).
  set (c1 := if is_access_cmd k (command r1) then _ else _) in H2.
  assert (Hc1 : quiet c c1 /\ req_at c1 id i = Ok r1).
  { unfold c1. destruct (is_access_cmd _ _); (split; [done|]); pose proof (req_at_put c id i r r1 Hr); by destruct id. }
  destruct Hc1 as [[Q1 D1] Hrc1]. destruct (stats_step _ _ _ _ _ _ Hrc1 H2 Hr2) as ([Q2 D2] & Ec2 & Ea2).
  apply bind_Ok in H as (d & Hd & H). apply bind_Ok in H as (base & Hh & H).
  destruct (issue_hooks_spec _ _ _ _ Hh) as ([Q3 D3] & _ & Hat). simpl in Q3, D3.
  assert (Hr3 : req_at (g_ctrl base) id i = Ok r2) by (apply Hat; by rewrite req_at_device).
  assert (Eclk : m_clk c2 = m_clk c) by congruence. change (m_clk (put_req c id i r1)) with (m_clk c) in H. rewrite Eclk in H.
  assert (He : e = mkLPIssue (m_clk c) (command r1) (addr_vec r2)).
  { destruct (command r1 =? lk_cmd_act1 k); apply bind_Ok in H as (x & _ & H); by injection H as _ <-. }
  subst e. simpl. split_and!; [done|congruence|done|]. exists base, r2.
  split_and!; [done|congruence|congruence|by rewrite D3, <- Hd, D2, D1, Eclk|].
  unfold after_standard. destruct (command r1 =? lk_cmd_act1 k);
    apply bind_Ok in H as (x & Hx & H); injection H as <-; by rewrite Hx.
Qed.

Lemma wck_same (s s' : LPState) (log : list LPIssue) : m_wck_expiry s' = m_wck_expiry s -> wck_inv s log -> wck_inv s' log.
Proof. unfold wck_inv. by intros ->. Qed.

(** A split command once issued: the invariant, given the new split state. *)
Lemma done_split (g' : LPDDR R P G) (e : LPIssue) (t : Clk_t) (log : list LPIssue) (c : Ctrl) (s : LPState) :
  let c' := g_ctrl (lp_base g') in
  let s' := lp_state g' in
  lp_inv t log c s -> fresh log c -> pending_act1 k log = None -> lp_const g' = k -> m_clk c' = m_clk c ->
  issue_command (m_device c) (li_command e) (li_addr_vec e) (li_clk e) = Ok (m_device c') ->
  li_clk e = m_clk c -> wck_rule k e log -> split_inv s' (e :: log) -> wck_inv s' (e :: log) ->
  m_cas_pending s' = None -> lp_done log (Some e) c g'.
Proof.
  intros c' s' [Hp Hc Hdv _ Hs Hl _ _ _ Hrl] Hfr Hnone Ek Eclk Hiss Ee Hw Hsp Hwi Hcas.
  destruct (issue_shape _ _ _ _ _ Hiss) as [Es El]. constructor; simpl; [done|done|].
  constructor; fold c' s'; [by rewrite Eclk| |by eapply device_after_cons| |congruence|congruence|done|done|intros id i E; congruence|].
  - rewrite Eclk. intros e1 [->|He1]%elem_of_cons; [by rewrite Ee|by apply Hc].
  - intros e0 He0. unfold pending_act1 in He0, Hnone. simpl in He0. destruct (is_split k e); [|congruence].
    destruct (_ =? _); [|done]. injection He0 as <-. unfold act2_due. rewrite Ee. pose proof (ids_nAAD _ _ Hids). lia.
  - split; [|done]. split_and!; [|split; [done|]|done]; [intros e1 He1; rewrite Ee; by apply Hfr|].
    intros e0 He0. congruence.
Qed.

Section standard.
Context (g g' : LPDDR R P G) (id : buf_id) (i : nat) (log : list LPIssue) (r : Request) (e : LPIssue).
Let c := g_ctrl (lp_base g).
Context (Ek : lp_const g = k) (Hi : lp_inv (m_clk c) log c (lp_state g)) (Hfr : fresh log c).
Context (Hcas : m_cas_pending (lp_state g) = None) (Hr : req_at c id i = Ok r).
Context (Hal : allowed k (lp_state g) (m_device c) r = Ok true).
Context (Hcmd : li_command e = command r \/ is_access_cmd k (command r) = true /\ is_access_cmd k (li_command e) = true).
Context (Eav : li_addr_vec e = addr_vec r) (Eclk : li_clk e = m_clk c).

Lemma standard_wck : needs_wck_sync k (lp_state g) (m_clk c) (command r) = false -> wck_rule k e log.
Proof.
  intros Hneed Hm Ha. right. assert (is_access_cmd k (command r) = true) as Har.
  { destruct Hcmd as [E|[? _]]; [by rewrite <- E|done]. }
  unfold needs_wck_sync in Hneed. rewrite Har, Hm in Hneed. simpl in Hneed. apply Z.leb_gt in Hneed.
  destruct (lv_wck _ _ _ _ Hi) as [E|(e' & He' & Ha' & E)]; [pose proof (lv_pos _ _ _ _ Hi); lia|].
  exists e'. split_and!; [done|done|lia].
Qed.

Lemma standard_during (e0 : LPIssue) :
  pending_act1 k log = Some e0 -> is_split k e = false /\ during_act_ok k d0 e0 e log.
Proof.
  intros He0. destruct (allowed_during _ _ _ _ _ _ Hi Hal He0) as (Hn1 & Hn2 & Hd). destruct Hcmd as [E|[_ Ha]].
  - split; [unfold is_split; rewrite E; lia|by apply Hd].
  - split; [by apply access_not_split|]. right. by left.
Qed.

Lemma standard_act1 (base : GenericDDR R P G) (c' : Ctrl) (s' : LPState) (r3 : Request) :
  let c3 := g_ctrl base in
  li_command e = lk_cmd_act1 k -> wck_rule k e log -> req_at c3 id i = Ok r3 -> addr_vec r3 = addr_vec r ->
  m_clk c3 = m_clk c -> issue_command (m_device c) (li_command e) (li_addr_vec e) (li_clk e) = Ok (m_device c3) ->
  move_to_activating k (after_standard (li_command e) (li_clk e) (lp_state g)) c3 id i = Ok (s', c') ->
  lp_done log (Some e) c (mkLPDDR (with_base_ctrl base c') k s').
Proof.
  intros c3 E1 Hwck Hr3 Ea3 Q3 Hiss Hmv. destruct (issue_shape _ _ _ _ _ Hiss) as [S1 S2].
  destruct (after_standard_frame (lp_state g) log e) as (F1 & F2 & F3 & F4 & F5). specialize (F5 (lv_wck _ _ _ _ Hi)).
  assert (command r = lk_cmd_act1 k) as Er1.
  { destruct Hcmd as [<-|[_ Ha]]; [done|]. by rewrite E1, (ids_act1 _ _ Hids) in Ha. }
  pose proof (allowed_act1 _ _ _ _ _ Hi Hal Er1) as Hnone.
  pose proof (lv_split _ _ _ _ Hi) as [Hmax Hsp]. rewrite Hnone in Hsp. destruct Hsp as [Hb Hn].
  set (s := after_standard (li_command e) (li_clk e) (lp_state g)) in *.
  assert (A0 : max_size (m_activating_buffer s) = Z.of_nat (length (m_act2_owner_valid s))) by (by rewrite F1, F2).
  assert (A1 : buffer (m_activating_buffer s) = []) by (by rewrite F1).
  assert (A2 : has_pending_act2 s = false) by (unfold has_pending_act2 in *; by rewrite F2).
  assert (A3 : forall av, get_flat_bank_id (m_device c3) av = get_flat_bank_id d0 av).
  { intros av. rewrite <- (flat_now _ c _ log av Hi). by apply flat_bank_frame. }
  assert (A4 : li_addr_vec e = addr_vec r3) by congruence. assert (A5 : li_clk e = m_clk c3) by congruence.
  destruct (move_spec c3 c' s s' id i r3 e log Hr3 A0 A1 A2 A3 E1 A4 A5 Hmv) as ([Q4 D4] & Hsp' & Ew & Ecp).
  apply (done_split _ e (m_clk c) log c (lp_state g)); simpl; try done; [congruence|by rewrite D4| |congruence]. by eapply wck_same.
Qed.

Lemma standard_other (base : GenericDDR R P G) (c4 : Ctrl) :
  let c3 := g_ctrl base in
  li_command e <> lk_cmd_act1 k -> wck_rule k e log ->
  m_clk c3 = m_clk c -> issue_command (m_device c) (li_command e) (li_addr_vec e) (li_clk e) = Ok (m_device c3) ->
  advance_request c3 id i = Ok c4 ->
  lp_done log (Some e) c (mkLPDDR (with_base_ctrl base c4) k (after_standard (li_command e) (li_clk e) (lp_state g))).
Proof.
  intros c3 E1 Hwck Q3 Hiss Hadv.
  destruct (after_standard_frame (lp_state g) log e) as (F1 & F2 & F3 & F4 & F5). specialize (F5 (lv_wck _ _ _ _ Hi)).
  pose proof (advance_clk _ _ _ _ Hadv) as Q4. pose proof (advance_device _ _ _ _ Hadv) as D4.
  destruct (is_split k e) eqn:Hns.
  - assert (pending_act1 k log = None) as Hnone.
    { destruct (pending_act1 k log) as [e0|] eqn:He0; [|done]. destruct (standard_during e0 He0). congruence. }
    apply (done_split _ e (m_clk c) log c (lp_state g)); simpl; try done; [congruence|by rewrite D4| |congruence].
    pose proof (lv_split _ _ _ _ Hi) as Hsp. unfold split_inv in *. rewrite Hnone in Hsp.
    rewrite (pending_after_act2 k e log); [|apply Hids|unfold is_split in Hns; lia].
    unfold has_pending_act2 in *. by rewrite F1, F2.
  - apply (done_other _ e (m_clk c) log c (lp_state g)); simpl; try done;
      [apply (lv_late _ _ _ _ Hi)|congruence|by rewrite D4| |intros id' i' E; congruence].
    intros e0 He0. by apply standard_during.
Qed.
End standard.

Lemma standard_spec (g g' : LPDDR R P G) (id : buf_id) (i : nat) (log : list LPIssue) (r : Request) (e : LPIssue) :
  let c := g_ctrl (lp_base g) in
  lp_const g = k -> lp_inv (m_clk c) log c (lp_state g) -> fresh log c -> m_cas_pending (lp_state g) = None ->
  req_at c id i = Ok r -> allowed k (lp_state g) (m_device c) r = Ok true ->
  needs_wck_sync k (lp_state g) (m_clk c) (command r) = false ->
  issue_standard_candidate g id i = Ok (g', e) -> lp_done log (Some e) c g'.
Proof.
  intros c Ek Hi Hfr Hcas Hr Hal Hneed H.
  destruct (standard_issue g g' id i r e Ek Hr H) as (Hcmd & Eav & Eclk & base & r3 & Hr3 & Ea3 & Q3 & Hiss & Hfin).
  assert (Hwck : wck_rule k e log) by (by eapply standard_wck).
  destruct (Z.eqb_spec (li_command e) (lk_cmd_act1 k)) as [E1|E1].
  - apply bind_Ok in Hfin as ([s' c'] & Hmv & Hfin). injection Hfin as <-. by eapply standard_act1.
  - apply bind_Ok in Hfin as (c4 & Hadv & Hfin). injection Hfin as <-. by eapply standard_other.
Qed.

(** *** A clock edge *)
Lemma inv_quiet (t : Clk_t) (log : list LPIssue) (c c' : Ctrl) (s : LPState) :
  quiet c c' -> m_cas_pending s = None -> late_inv (m_clk c) log -> lp_inv t log c s -> lp_inv (m_clk c') log c' s.
Proof.
  intros [E1 E2] Hcas Hlate [Hp Hc Hdv _ Hs Hl Hsp Hw _ Hr]. constructor; rewrite ?E1, ?E2; try done. intros id i E. congruence.
Qed.

Context (sch : scheduler_t) `{!SchedulerLaws sch}.

(** A cycle in which no ACT2 is urgent and no CAS pending. *)
Lemma normal_spec (g g' : LPDDR R P G) (t : Clk_t) (log : list LPIssue) (o : option LPIssue) (n m : Ctrl * candidate) :
  let c := g_ctrl (lp_base g) in
  let s := lp_state g in
  lp_const g = k -> lp_inv t log c s -> fresh log c -> room c -> m_cas_pending s = None -> late_inv (m_clk c) log ->
  select_normal_candidate sch k s c = Ok n ->
  (match n.2 with None => pick_cas_lookahead_candidate sch k s n.1 | Some _ => Ok n end) = Ok m ->
  let g2 := mkLPDDR (with_base_ctrl (lp_base g) m.1) k s in
  match m.2 with
  | None => issue_deferred g2
  | Some (id, i) =>
      t ← try_issue_cas_sync g2 id i;
      match t with Some q => Ok q | None => q ← issue_standard_candidate g2 id i; Ok (q.1, Some q.2) end
  end = Ok (g', o) -> lp_done log o c g'.
Proof.
  destruct n as [c1 o1], m as [c2 o2]. intros c s Ek Hi Hfr Hroom Hcas Hlate Hn Hm g2 H. simpl in *.
  assert (quiet c c2 /\ room c2 /\ passed (allowed k s (m_device c)) c2 o2) as (Hq & Hroom2 & Hpass).
  { destruct (select_spec sch _ _ _ _ _ Hn) as [[Q1 D1] P1]. pose proof (select_room sch _ _ _ _ _ Hn Hroom) as R1.
    destruct o1; [by injection Hm as <- <-|]. destruct (lookahead_spec sch _ _ _ _ _ Hm) as [[Q2 D2] P2]. rewrite D1 in P2.
    split; [split; [by rewrite Q2, Q1|by rewrite D2, D1]|]. split; [by eapply (lookahead_room sch)|done]. }
  pose proof (inv_quiet _ _ _ _ _ Hq Hcas Hlate Hi) as Hi2. destruct Hq as [Qc Dc].
  assert (Hfr2 : fresh log c2) by (intros e He; rewrite Qc; by apply Hfr).
  enough (lp_done log o c2 g') as [L1 L2 L3] by (constructor; [done|congruence|by rewrite <- Qc]).
  destruct o2 as [[id i]|]; [|by apply (deferred_spec g2)].
  destruct (Hpass id i eq_refl) as (r & Hr & Hal). apply bind_Ok in H as (q & Ht & H).
  pose proof (cas_sync_spec g2 id i log r q eq_refl Hi2 Hfr2 Hroom2 Hcas Hr Ht) as Hcs.
  destruct q as [q|]; [by injection H as ->|]. apply bind_Ok in H as ([g3 e] & H3 & H). injection H as <- <-. simpl.
  eapply (standard_spec g2); try done. simpl. by rewrite Dc.
Qed.

Lemma schedule_spec (g g' : LPDDR R P G) (t : Clk_t) (log : list LPIssue) (o : option LPIssue) :
  let c := g_ctrl (lp_base g) in
  lp_const g = k -> lp_inv t log c (lp_state g) -> m_clk c = t + 1 -> fresh log c -> room c ->
  lp_schedule sch g = Ok (g', o) -> lp_done log o c g'.
Proof.
  intros c Ek Hi Ht Hfr Hroom H. unfold lp_schedule in H. rewrite Ek in H. fold c in H. apply bind_Ok in H as ([s1 u] & H1 & H).
  destruct (pick_act2_spec _ _ _ _ _ _ _ Hi H1) as (Hi1 & Ecas & Hpos & Hno). simpl in H.
  destruct (m_cas_pending s1) as [[id i]|] eqn:Hcas.
  { apply (continuation_spec (mkLPDDR (lp_base g) k s1) g' id i t); try done. apply (late_step t _ _ s1); try done.
    intros e0 _ _. right. by rewrite Hcas. }
  destruct u as [i|].
  { destruct (Hpos i eq_refl) as (-> & e0 & He0). apply bind_Ok in H as ([g2 e] & H2 & H). injection H as <- <-. simpl.
    eapply (owned_act2_spec (mkLPDDR (lp_base g) k s1)); try done. simpl. apply (late_or_due t); [apply (lv_late _ _ _ _ Hi)|fold c; lia|done]. }
  apply bind_Ok in H as (n & Hn & H). apply bind_Ok in H as (m & Hm & H).
  eapply (normal_spec (mkLPDDR (lp_base g) k s1) g' t log o n m); try done. apply (late_step t _ _ s1); try done.
  intros e0 He0 E. left. by apply Hno.
Qed.

Lemma pre_hooks_frame (g g' : GenericDDR R P G) :
  pre_hooks g = Ok g' -> m_clk (g_ctrl g') = m_clk (g_ctrl g) + 1 /\ m_device (g_ctrl g') = m_device (g_ctrl g) /\
  (room (g_ctrl g) -> room (g_ctrl g')) /\ forall id i x, req_at (g_ctrl g) id i = Ok x -> req_at (g_ctrl g') id i = Ok x.
Proof.
  intros H. split; [by destruct (pre_hooks_clk Q _ _ H)|]. unfold pre_hooks in H.
  apply bind_Ok in H as ([r1 ca] & Ha & H). apply bind_Ok in H as ([p1 cb] & Hb & H).
  apply bind_Ok in H as ([gs cc] & Hc & H). injection H as <-. simpl in *.
  apply refresh_sends in Ha. apply pre_schedule_sends in Hb. apply (each_plugin_sends Q) in Hc; [|apply plugin_pre_sends].
  pose proof (sends_trans _ _ _ _ (sends_trans _ _ _ _ Ha Hb) Hc) as Hs. split_and!.
  - rewrite (proj1 (sends_inv Q _ _ Hs)). apply tick_prologue_device.
  - intros Hr. apply (sends_room Q _ _ Hs). unfold room. change (m_active_buffer (tick_prologue (g_ctrl g))) with (get_buf (tick_prologue (g_ctrl g)) BActive).
    by rewrite get_buf_prologue.
  - intros id i x Hx. apply (sends_req_at Q _ _ _ _ _ Hs). apply req_at_lookup. apply req_at_lookup in Hx. by rewrite get_buf_prologue.
Qed.

Lemma post_hooks_frame (g g' : GenericDDR R P G) :
  post_hooks g = Ok g' -> quiet (g_ctrl g) (g_ctrl g') /\
  forall id i x, req_at (g_ctrl g) id i = Ok x -> req_at (g_ctrl g') id i = Ok x.
Proof.
  unfold post_hooks. intros ([p4 cp] & Hp & H)%bind_Ok. apply bind_Ok in H as ([gs cq] & Hq & H). injection H as <-. simpl in *.
  apply post_schedule_sends in Hp. apply (each_plugin_sends Q) in Hq; [|apply plugin_post_sends].
  pose proof (sends_trans _ _ _ _ Hp Hq) as Hs. split; [split; [by eapply sends_clk|by apply (sends_inv Q _ _ Hs)]|].
  intros id i x. by eapply sends_req_at.
Qed.

(** Moving the invariant along a step that keeps the places of requests. *)
Lemma inv_frame (t : Clk_t) (log : list LPIssue) (c c' : Ctrl) (s : LPState) :
  m_clk c <= m_clk c' -> m_device c' = m_device c ->
  (forall id i x, req_at c id i = Ok x -> req_at c' id i = Ok x) -> lp_inv t log c s -> lp_inv t log c' s.
Proof.
  intros E1 E2 Hat [Hp Hc Hdv Hlt Hs Hl Hsp Hw Hcas Hr]. constructor; rewrite ?E2; try done; [lia| |].
  - intros e He. specialize (Hc e He). lia.
  - intros id i E. destruct (Hcas id i E) as (r & e & l & H1 & H2). exists r, e, l. split; [by apply Hat|by rewrite E2].
Qed.

Lemma lp_tick_spec (g g' : LPDDR R P G) (log : list LPIssue) (o : option LPIssue) :
  let c := g_ctrl (lp_base g) in
  lp_const g = k -> lp_inv (m_clk c) log c (lp_state g) -> room c -> LPDDR_tick sch g = Ok (g', o) ->
  lp_const g' = k /\ lp_inv (m_clk (g_ctrl (lp_base g'))) (option_list o ++ log) (g_ctrl (lp_base g')) (lp_state g').
Proof.
  intros c Ek Hi Hroom H. unfold LPDDR_tick in H. apply bind_Ok in H as (base & H1 & H). apply bind_Ok in H as ([g2 o2] & H2 & H).
  apply bind_Ok in H as (base3 & H3 & H). injection H as <- <-. simpl in *.
  destruct (pre_hooks_frame _ _ H1) as (E1 & D1 & M1 & R1). destruct (post_hooks_frame _ _ H3) as [[E3 D3] R3].
  set (g1 := mkLPDDR base (lp_const g) (lp_state g)) in *.
  assert (Hi1 : lp_inv (m_clk c) log (g_ctrl (lp_base g1)) (lp_state g1)) by (apply (inv_frame _ log c); simpl; [unfold c; lia|done..]).
  assert (Hfr : fresh log (g_ctrl (lp_base g1))).
  { intros e He. simpl. pose proof (lv_clk _ _ _ _ Hi e He). unfold c in *. lia. }
  destruct (schedule_spec g1 g2 (m_clk c) log o2 Ek Hi1 E1 Hfr (M1 Hroom) H2) as [L1 L2 L3]. split; [done|].
  rewrite E3, L2. apply (inv_frame _ _ (g_ctrl (lp_base g2))); [lia|done|done|done].
Qed.

(** ** Runs *)
Context (apply : Request -> result Request) `{!AddrMapperLaws apply}.

(** A run: requests come in and the clock ticks, the active buffer, which has a
    slot per bank, having a free one at each tick. *)
Inductive lp_run (g0 : LPDDR R P G) : list LPIssue -> LPDDR R P G -> Prop :=
| lp_start : lp_run g0 [] g0
| lp_send log g r r' ok c' :
    lp_run g0 log g -> send apply (g_ctrl (lp_base g)) r = Ok (ok, r', c') ->
    lp_run g0 log (mkLPDDR (with_base_ctrl (lp_base g) c') (lp_const g) (lp_state g))
| lp_priority log g r ok c' :
    lp_run g0 log g -> type_id r = -1 -> priority_send (g_ctrl (lp_base g)) r = Ok (ok, c') ->
    lp_run g0 log (mkLPDDR (with_base_ctrl (lp_base g) c') (lp_const g) (lp_state g))
| lp_tick log g g' o :
    lp_run g0 log g -> room (g_ctrl (lp_base g)) -> LPDDR_tick sch g = Ok (g', o) -> lp_run g0 (option_list o ++ log) g'.

Lemma send_req_at (c c' : Ctrl) (r r' x : Request) (ok : bool) (id : buf_id) (i : nat) :
  send apply c r = Ok (ok, r', c') -> req_at c id i = Ok x -> req_at c' id i = Ok x.
Proof.
  intros H%send_cases Hx; [|done]. rewrite req_at_lookup in Hx |- *.
  destruct H as [|? b _ _ _ _ Hq|r1 e|? b _ _ _ _ Hq|]; [by destruct id|..|done].
  - destruct id; simpl in *; try done. by eapply enqueue_lookup.
  - destruct (run_callback_cases (log_event c e) r1) as [->|(e' & ->)]; by destruct id.
  - destruct id; simpl in *; try done. by eapply enqueue_lookup.
Qed.

Lemma lp_run_inv (g0 g : LPDDR R P G) (log : list LPIssue) :
  lp_run g0 log g -> lp_const g0 = k -> lp_inv (m_clk (g_ctrl (lp_base g0))) [] (g_ctrl (lp_base g0)) (lp_state g0) ->
  lp_const g = k /\ lp_inv (m_clk (g_ctrl (lp_base g))) log (g_ctrl (lp_base g)) (lp_state g).
Proof.
  induction 1 as [|log g r r' ok c' _ IH H|log g r ok c' _ IH _ H|log g g' o _ IH Hroom H]; intros Ek H0; [done|..];
    destruct (IH Ek H0) as [Ek1 Hi].
  - split; [done|]. simpl. rewrite (send_clk apply _ _ _ _ _ H). apply (inv_frame _ log (g_ctrl (lp_base g))); simpl; [|by eapply send_device| |done].
    + by rewrite (send_clk apply _ _ _ _ _ H).
    + intros id i x. by eapply send_req_at.
  - split; [done|]. destruct (priority_send_frame _ _ _ _ H) as (E1 & _ & E2 & _). simpl. rewrite E2.
    apply (inv_frame _ log (g_ctrl (lp_base g))); simpl; [by rewrite E2|done| |done]. intros id i x. by eapply priority_send_req_at.
  - by eapply lp_tick_spec.
Qed.
End hooks.
End protocol.

Section theorem.
Context {R P G : Type} `{IR : RefreshManager R} `{IP : RowPolicy P} `{IG : ControllerPlugin G}.
Context (Q : Ctrl -> Request -> Prop).
Context `{!RefreshLaws Q R} `{!RowPolicyLaws Q P} `{!PluginLaws Q G}.
Context (apply : Request -> result Request) `{!AddrMapperLaws apply}.
Context (sch : scheduler_t) `{!SchedulerLaws sch}.

Lemma init_inv (consts : DRAMSpec -> WCKSyncMode -> result LPConst) (base : GenericDDR R P G) (mode : string)
  (g0 : LPDDR R P G) :
  LPDDR_init consts base mode = Ok g0 -> 0 <= m_clk (g_ctrl base) ->
  lp_inv (lp_const g0) (m_device (g_ctrl base)) (m_clk (g_ctrl (lp_base g0))) [] (g_ctrl (lp_base g0)) (lp_state g0).
Proof.
  unfold LPDDR_init. intros (m & _ & H)%bind_Ok H0. apply bind_Ok in H as (k & _ & H). injection H as <-.
  constructor; simpl; try done.
  - by intros e ?%elem_of_nil.
  - split; [simpl; by rewrite length_replicate|]. split; [done|]. apply has_pending_false. simpl. intros b Hb. by apply lookup_replicate in Hb as [? _].
  - by left.
Qed.

(** C24. In every run of an LPDDR controller, whatever is sent and however its
    sub-components behave, as long as the active buffer has a free slot at each tick
    and the row policy replaces accesses by accesses only, the issued commands obey
    the LPDDR protocol: at most one command per cycle; an ACT1 is issued only when no
    other activation is pending; while one is pending only its own ACT2, at the same
    address, CAS commands, accesses, and precharges none of whose target banks is the
    one being activated are issued, no refresh and no second ACT1; the ACT2 has gone
    out by nAAD cycles after its ACT1 unless, at that deadline, the device's timing
    refuses it or a CAS, issued more than the guard before the deadline, is still
    waiting for an access whose timing the device has refused in every cycle since
    (also at the end of the run, for an ACT2 not issued yet); and, in the mode that synchronises WCK, an access goes out either directly after
    a CAS for the same address or while the WCK of an earlier access is still
    running. *)
Theorem lpddr_command_protocol (consts : DRAMSpec -> WCKSyncMode -> result LPConst) (base : GenericDDR R P G)
  (mode : string) (g0 g : LPDDR R P G) (log : list LPIssue) :
  LPDDR_init consts base mode = Ok g0 -> 0 <= m_clk (g_ctrl base) ->
  lp_ids_okb (lp_const g0) (m_spec (m_device (g_ctrl base))) = true -> access_upgrade (P := P) (lp_const g0) ->
  lp_run sch apply g0 log g ->
  lp_log_ok (lp_const g0) (m_device (g_ctrl base)) log /\
  late_inv (lp_const g0) (m_device (g_ctrl base)) (m_clk (g_ctrl (lp_base g))) log.
Proof.
  intros Hin H0 Hids%lp_ids_okb_sound Hup Hrun.
  destruct (lp_run_inv (lp_const g0) (m_device (g_ctrl base)) Hids Q Hup sch apply g0 g log Hrun eq_refl
              (init_inv _ _ _ _ Hin H0)) as [_ Hi].
  split; [apply (lv_rules _ _ _ _ _ _ Hi)|apply (lv_late _ _ _ _ _ _ Hi)].
Qed.
End theorem.

Lemma open_row_upgrade (k : LPConst) : access_upgrade (P := OpenRowPolicy) k.
Proof. intros p c r r' [= <-]. by left. Qed.

(** ** On a small LPDDR5 device *)
Definition lp5_dram : DramConfig :=
  mkConfig 16 None 16 [1; 1; 2; 2; 64; 64]
    [6400; 2; 4; 10; 10; 10; 12; 20; 30; 12; 4; 8; 2; 2; 4; 2; 4; 4; 4; 6; 6; 16; 100; 60; 2000; 200; 2; 1; 8; 2; 1250; 40; 8]
    None 14
    [ mkRow 1 [0] [0] 4 None None None;
      mkRow 1 [4; 5] [6; 7; 8; 9] 1 None None None;
      mkRow 2 [6; 7; 8; 9] [6; 7; 8; 9] 4 None None None;
      mkRow 3 [0] [1] 2 None None None;
      mkRow 3 [1] [6; 7; 8; 9] 10 None None None;
      mkRow 3 [1] [2] 20 None None None;
      mkRow 3 [2] [0] 10 None None None;
      mkRow 3 [6] [2] 6 None None None ].
Definition lp5_base : GenericDDR NoRefresh OpenRowPolicy Empty_set :=
  mkGDDR (match init_base (mkCtrlConfig f32_0_2 f32_0_8 32 32 64 "LPDDR5" lp5_dram) with
          | Ok c => ctrl_set_channel_id (setup_base c 1) 0
          | Err _ => empty_ctrl
          end) mkNoRefresh mkOpen [].

Definition small_lp : Type := LPDDR NoRefresh OpenRowPolicy Empty_set.
Definition lp_or (r : result (list LPIssue * small_lp)) : list LPIssue * small_lp :=
  match r with
  | Ok p => p
  | Err _ => ([], mkLPDDR lp5_base (mkLPConst 0 0 0 0 0 0 0 0 0 0 0 0 0 0 0 0 0 0 0 0 NeedSync) (lp_state_init 0))
  end.
Definition lp5_start : list LPIssue * small_lp := lp_or (g ← LPDDR_init LPDDR5_const lp5_base "need_sync"; Ok ([], g)).

Definition lp_drive (p : list LPIssue * small_lp) (s : stimulus) : result (list LPIssue * small_lp) :=
  match s with
  | Offer r => q ← send keep_vec (g_ctrl (lp_base p.2)) r;
               Ok (p.1, mkLPDDR (with_base_ctrl (lp_base p.2) q.2) (lp_const p.2) (lp_state p.2))
  | Edge => let b := m_active_buffer (g_ctrl (lp_base p.2)) in
            if buf_size b <? max_size b then q ← LPDDR_tick FRFCFS p.2; Ok (option_list q.2 ++ p.1, q.1) else Err Undef
  end.

Lemma lp_drive_runs (g0 : small_lp) (p p' : list LPIssue * small_lp) (l : list stimulus) :
  lp_run FRFCFS keep_vec g0 p.1 p.2 -> foldM lp_drive p l = Ok p' -> lp_run FRFCFS keep_vec g0 p'.1 p'.2.
Proof.
  revert p. induction l as [|s l IH]; intros p Hp H; simpl in H; [by injection H as <-|].
  apply bind_Ok in H as (p1 & H1 & H). apply (IH p1); [|done]. destruct s as [r|]; simpl in H1.
  - apply bind_Ok in H1 as ([[ok r'] c'] & Hs & H1). injection H1 as <-. by eapply lp_send.
  - destruct (Z.ltb_spec (buf_size (m_active_buffer (g_ctrl (lp_base p.2)))) (max_size (m_active_buffer (g_ctrl (lp_base p.2)))));
      [|done]. apply bind_Ok in H1 as ([g2 o] & Ht & H1). injection H1 as <-. by eapply lp_tick.
Qed.

(** Two rows of one bank and a row of another group. *)
Definition lp5_access (a bg row : Z) : Request := set_addr_vec (Request_src a Read 0 (Some a)) [0; 0; bg; 0; row; 0].
Definition lp5_stimuli : list stimulus :=
  [Offer (lp5_access 1 0 5); Offer (lp5_access 2 1 5); Offer (lp5_access 3 0 6)] ++ replicate 60 Edge.
Definition lp5_after : list LPIssue * small_lp := lp_or (foldM lp_drive lp5_start lp5_stimuli).

Lemma lpddr_command_protocol_witness :
  map (fun e => (li_command e, li_clk e)) lp5_after.1 =
    [(6, 45); (4, 44); (1, 35); (0, 33); (2, 23); (6, 17); (6, 13); (4, 12); (1, 7); (0, 5); (1, 3); (0, 1)] /\
  lp_log_ok (lp_const lp5_start.2) (m_device (g_ctrl lp5_base)) lp5_after.1.
Proof.
  split; [vm_compute; reflexivity|].
  eapply proj1, (lpddr_command_protocol any_request keep_vec FRFCFS LPDDR5_const lp5_base "need_sync" lp5_start.2 lp5_after.2).
  - vm_compute. reflexivity.
  - vm_compute. congruence.
  - vm_compute. reflexivity.
  - apply open_row_upgrade.
  - apply (lp_drive_runs lp5_start.2 lp5_start _ lp5_stimuli); [apply lp_start|vm_compute; reflexivity].
Defined.
