(* ===== verification/Latency.v ===== *)
(** * Controllers that predict a latency

    [controller/impl/atomic_controller_base.h] with the controllers derived from
    it ([atomic_controller.cpp], [atomic_model_controller.cpp]),
    [fixed_lat_controller.cpp], [md1_controller.cpp], [wmg1_controller.cpp] with the
    queue of [ext/sniper_wmg1], [mess_controller.cpp] and the probe they share,
    [zoo_probe.h].  They admit a request, fix its departure and complete it when
    the clock reaches it.  Callbacks that were run are appended to a log. *)

From Stdlib Require Import ZArith Lia SpecFloat.
From stdpp Require Import pretty.
From S2P Require Import Prelude Base Spec Node Standards Device Controller MemSystem.

Local Open Scope Z_scope.

(** [std::numeric_limits<Clk_t>::max()]. *)
Definition clk_max : Clk_t := 2 ^ 63 - 1.

(** ** The atomic controllers *)
Section atomic.
(** The model that predicts departures: [predict_departure] reads the latency
    parameter and the clock, and may change the model. *)
Context {Md : Type} (predict_departure : Md -> Z -> Request -> Clk_t -> result (Clk_t * Md)).
Context (init_model : DRAMSpec -> Z -> result Md) (apply : Request -> result Request).

Record Atomic := mkAtomic {
  at_channel_id : Z;
  at_clk : Clk_t;
  at_device : DRAMDevice;
  at_latency : Z;
  at_read_buffer_size : Z;
  at_write_buffer_size : Z;
  at_model : Md;
  at_pending : list PendingRead;
  at_next_sequence : Z;
  at_inflight_reads : Z;
  at_inflight_writes : Z;
  at_measured_clk : Clk_t;
  at_num_read_reqs : Z;
  at_num_write_reqs : Z;
  at_num_read_reqs_served : Z;
  at_num_write_reqs_served : Z;
  at_read_latency : Z;
  at_send_rejects : Z;
  at_peak_inflight_reads : Z;
  at_peak_inflight_writes : Z;
  at_log : list Request
}.

Record AtomicConfig := mkAtomicConfig {
  ac_latency : Z;
  ac_read_buffer_size : Z;
  ac_write_buffer_size : Z;
  ac_wr_low_watermark : spec_float;
  ac_wr_high_watermark : spec_float;
  ac_refresh : string;
  ac_dram_impl : string;
  ac_dram_config : DramConfig
}.

(** [init], without [model_parameters] (an empty list by default). *)
Definition Atomic_init (cfg : AtomicConfig) : result Atomic :=
  spec ← create (ac_dram_impl cfg) (ac_dram_config cfg);
  device ← init spec;
  _ ← get_timing_value spec "tCK_ps";
  let latency := if ac_latency cfg =? -1 then wrap_s 32 (read_latency spec) else ac_latency cfg in
  if latency <=? 0 then Err (Throw "Atomic latency must be positive")
  else if (ac_read_buffer_size cfg <=? 0) || (ac_write_buffer_size cfg <=? 0)
  then Err (Throw "Atomic buffer sizes must be positive")
  else if negb (f32_isfinite (ac_wr_low_watermark cfg)) || negb (f32_isfinite (ac_wr_high_watermark cfg)) ||
          f32_lt (ac_wr_low_watermark cfg) (f32_of_Z 0) || f32_lt (f32_of_Z 1) (ac_wr_high_watermark cfg) ||
          f32_lt (ac_wr_high_watermark cfg) (ac_wr_low_watermark cfg)
  then Err (Throw "Atomic requires 0 <= low <= high <= 1 write watermarks")
  else if negb (bool_decide (ac_refresh cfg = "none"%string))
  then Err (Throw "Atomic skeleton supports refresh='none' only; refresh behavior is intentionally unspecified")
  else
    model ← init_model spec latency;
    Ok (mkAtomic (-1) 0 device latency (ac_read_buffer_size cfg) (ac_write_buffer_size cfg) model [] 0 0 0
          0 0 0 0 0 0 0 0 0 []).

Definition Atomic_set_channel_id (a : Atomic) (channel_id : Z) : Atomic :=
  mkAtomic channel_id (at_clk a) (set_channel_id (at_device a) channel_id) (at_latency a)
    (at_read_buffer_size a) (at_write_buffer_size a) (at_model a) (at_pending a) (at_next_sequence a)
    (at_inflight_reads a) (at_inflight_writes a) (at_measured_clk a) (at_num_read_reqs a) (at_num_write_reqs a)
    (at_num_read_reqs_served a) (at_num_write_reqs_served a) (at_read_latency a) (at_send_rejects a)
    (at_peak_inflight_reads a) (at_peak_inflight_writes a) (at_log a).

(** [s_send_rejects++]. *)
Definition at_reject (a : Atomic) : Atomic :=
  mkAtomic (at_channel_id a) (at_clk a) (at_device a) (at_latency a) (at_read_buffer_size a)
    (at_write_buffer_size a) (at_model a) (at_pending a) (at_next_sequence a)
    (at_inflight_reads a) (at_inflight_writes a) (at_measured_clk a) (at_num_read_reqs a) (at_num_write_reqs a)
    (at_num_read_reqs_served a) (at_num_write_reqs_served a) (at_read_latency a) (at_send_rejects a + 1)
    (at_peak_inflight_reads a) (at_peak_inflight_writes a) (at_log a).

(** Admission: the counters of one kind of request, and the pending queue. *)
Definition at_admit (a : Atomic) (model : Md) (r : Request) : Atomic :=
  let rd := if type_id r =? Read then 1 else 0 in
  let inr := at_inflight_reads a + rd in
  let inw := at_inflight_writes a + (1 - rd) in
  mkAtomic (at_channel_id a) (at_clk a) (at_device a) (at_latency a) (at_read_buffer_size a)
    (at_write_buffer_size a) model
    (pq_push (mkPending (depart r) (at_next_sequence a) r) (at_pending a)) (at_next_sequence a + 1)
    inr inw (at_measured_clk a) (at_num_read_reqs a + rd) (at_num_write_reqs a + (1 - rd))
    (at_num_read_reqs_served a) (at_num_write_reqs_served a) (at_read_latency a) (at_send_rejects a)
    (if type_id r =? Read then Z.max (at_peak_inflight_reads a) inr else at_peak_inflight_reads a)
    (if type_id r =? Read then at_peak_inflight_writes a else Z.max (at_peak_inflight_writes a) inw)
    (at_log a).

Definition Atomic_send (a : Atomic) (req : Request) : result (bool * Request * Atomic) :=
  if negb (type_id req =? Read) && negb (type_id req =? Write)
  then Err (Throw ("Atomic skeleton supports only Read/Write requests, got type_id " +:+ pretty (type_id req)))
  else
    let is_read := type_id req =? Read in
    let inflight := if is_read then at_inflight_reads a else at_inflight_writes a in
    let capacity := if is_read then at_read_buffer_size a else at_write_buffer_size a in
    if capacity <=? inflight then Ok (false, req, at_reject a)
    else
      req ← apply req;
      av ← vset (addr_vec req) 0 (at_channel_id a);
      let req := set_arrive (set_addr_vec req av) (at_clk a) in
      p ← predict_departure (at_model a) (at_latency a) req (at_clk a);
      let req := set_depart req p.1 in
      if p.1 <=? at_clk a then Err (Throw "Atomic must commit a strictly future departure")
      else Ok (true, req, at_admit a p.2 req).

(** One completion of [serve_completed]; [q] is the queue after [pop]. *)
Definition at_complete (a : Atomic) (q : list PendingRead) (r : Request) : Atomic :=
  let rd := if type_id r =? Read then 1 else 0 in
  mkAtomic (at_channel_id a) (at_clk a) (at_device a) (at_latency a) (at_read_buffer_size a)
    (at_write_buffer_size a) (at_model a) q (at_next_sequence a)
    (at_inflight_reads a - rd) (at_inflight_writes a - (1 - rd)) (at_measured_clk a)
    (at_num_read_reqs a) (at_num_write_reqs a)
    (at_num_read_reqs_served a + rd) (at_num_write_reqs_served a + (1 - rd))
    (at_read_latency a + (if type_id r =? Read then depart r - arrive r else 0)) (at_send_rejects a)
    (at_peak_inflight_reads a) (at_peak_inflight_writes a)
    (at_log a ++ match callback r with Some _ => [r] | None => [] end).

Fixpoint at_serve (q : list PendingRead) (a : Atomic) : Atomic :=
  match q with
  | [] => a
  | p :: q' => if p_depart p <=? at_clk a then at_serve q' (at_complete a q' (p_req p)) else a
  end.
Definition serve_completed (a : Atomic) : Atomic := at_serve (at_pending a) a.

(** [m_clk += ticks; m_measured_clk += ticks]. *)
Definition Atomic_fast_forward (a : Atomic) (ticks : Clk_t) : Atomic :=
  mkAtomic (at_channel_id a) (at_clk a + ticks) (at_device a) (at_latency a) (at_read_buffer_size a)
    (at_write_buffer_size a) (at_model a) (at_pending a) (at_next_sequence a)
    (at_inflight_reads a) (at_inflight_writes a) (at_measured_clk a + ticks) (at_num_read_reqs a)
    (at_num_write_reqs a)
    (at_num_read_reqs_served a) (at_num_write_reqs_served a) (at_read_latency a) (at_send_rejects a)
    (at_peak_inflight_reads a) (at_peak_inflight_writes a) (at_log a).

Definition Atomic_tick (a : Atomic) : Atomic := serve_completed (Atomic_fast_forward a 1).

Definition Atomic_idle_ticks (a : Atomic) : Clk_t :=
  match at_pending a with
  | [] => clk_max
  | p :: _ => if at_clk a + 1 <? p_depart p then p_depart p - at_clk a - 1 else 0
  end.

Definition Atomic_reset_stats (a : Atomic) : Atomic :=
  mkAtomic (at_channel_id a) (at_clk a) (at_device a) (at_latency a) (at_read_buffer_size a)
    (at_write_buffer_size a) (at_model a) (at_pending a) (at_next_sequence a)
    (at_inflight_reads a) (at_inflight_writes a) 0 0 0 0 0 0 0
    (at_inflight_reads a) (at_inflight_writes a) (at_log a).
End atomic.
Arguments Atomic : clear implicits.

(** [AtomicController]: no model state, [m_clk + m_latency]. *)
Definition AtomicController_predict (m : unit) (latency : Z) (r : Request) (clk : Clk_t) : result (Clk_t * unit) :=
  Ok (clk + latency, m).

(** [AtomicModelController] passes an [AtomicModel::Access] to a model that is
    loaded from a library. *)
Record Access := mkAccess { ax_address : Addr_t; ax_is_read : bool; ax_addr_vec : AddrVec_t; ax_size_bytes : Z }.

Definition AtomicModelController_predict {Md} (model_predict : Md -> Access -> Clk_t -> result (Clk_t * Md))
  (m : Md) (latency : Z) (r : Request) (clk : Clk_t) : result (Clk_t * Md) :=
  model_predict m (mkAccess (addr r) (type_id r =? Read) (addr_vec r) (size_bytes r)) clk.

(** ** The probe for the data-burst gap *)

(** The inner loop of [zoo_probe_burst_gap]: issue prerequisites of the read, each
    as early as the device allows, until the read itself is next.  The source
    loops without a bound. *)
Fixpoint probe_open (fuel : nat) (d : DRAMDevice) (rd : Z) (av : AddrVec_t) (t : Clk_t) : result DRAMDevice :=
  match fuel with
  | O => Err OutOfFuel
  | S fuel =>
      cmd ← get_preq_command d rd av t;
      if cmd =? rd then Ok d
      else
        r ← device_earliest_ready d cmd av;
        let e := Z.max t r in
        d ← issue_command d cmd av e;
        probe_open fuel d rd av (e + 1)
  end.

Definition zoo_probe_burst_gap (fuel : nat) (d : DRAMDevice) : result (Clk_t * DRAMDevice) :=
  let spec := m_spec d in
  rd ← vget (supported_requests spec) Read;
  let av_a := replicate (Z.to_nat (level_count spec)) 0 in
  far_level ← (if has_level spec "BankGroup" then get_level_id spec "BankGroup" else get_level_id spec "Bank");
  av_b ← vset av_a far_level 1;
  d ← probe_open fuel d rd av_a 1000;
  d ← probe_open fuel d rd av_b 1000;
  r ← device_earliest_ready d rd av_a;
  let t := Z.max 2000 r in
  d ← issue_command d rd av_a t;
  r ← device_earliest_ready d rd av_b;
  Ok (Z.max (r - t) 1, d).

(** ** Controllers around a predictor: FixedLat, MD1, WMG1 and Mess

    The classes share their text but for [init] and the departure computed by
    [send]. *)

(** [std::priority_queue] with [operator>] on departures: [top] is an entry with
    the least departure; which of several is not specified. *)
Record PendingDep := mkDep { d_depart : Clk_t; d_req : Request }.

Class PriorityQueue (Q : Type) := {
  q_empty : Q;
  q_push : PendingDep -> Q -> Q;
  q_top : Q -> option PendingDep;
  q_pop : Q -> Q;
  q_elems : Q -> list PendingDep
}.

Class PriorityQueueLaws (Q : Type) `{PriorityQueue Q} := {
  q_empty_elems : q_elems q_empty = [];
  q_push_elems p q : q_elems (q_push p q) ≡ₚ p :: q_elems q;
  q_top_none q : q_top q = None -> q_elems q = [];
  q_top_some q p : q_top q = Some p -> q_elems q ≡ₚ p :: q_elems (q_pop q);
  q_top_least q p x : q_top q = Some p -> x ∈ q_elems q -> d_depart p <= d_depart x
}.

Record Zoo (Q P : Type) := mkZoo {
  z_channel_id : Z;
  z_device : DRAMDevice;
  z_clk : Clk_t;
  z_pred : P;
  z_pending : Q;
  z_measured_clk : Clk_t;
  z_num_read_reqs : Z;
  z_num_write_reqs : Z;
  z_num_read_reqs_served : Z;
  z_num_write_reqs_served : Z;
  z_read_latency : Z;
  z_log : list Request
}.
Arguments mkZoo {Q P}. Arguments z_channel_id {Q P}. Arguments z_device {Q P}. Arguments z_clk {Q P}.
Arguments z_pred {Q P}. Arguments z_pending {Q P}. Arguments z_measured_clk {Q P}.
Arguments z_num_read_reqs {Q P}. Arguments z_num_write_reqs {Q P}. Arguments z_num_read_reqs_served {Q P}.
Arguments z_num_write_reqs_served {Q P}. Arguments z_read_latency {Q P}. Arguments z_log {Q P}.

Section zoo.
Context {Q P : Type} `{PriorityQueue Q}.
(** The departure of a write or read that reaches the model at a clock. *)
Context (name : string) (depart_of : P -> bool -> Clk_t -> result (Clk_t * P)).

Definition Zoo_set_channel_id (z : Zoo Q P) (channel_id : Z) : Zoo Q P :=
  mkZoo channel_id (set_channel_id (z_device z) channel_id) (z_clk z) (z_pred z) (z_pending z) (z_measured_clk z)
    (z_num_read_reqs z) (z_num_write_reqs z) (z_num_read_reqs_served z) (z_num_write_reqs_served z)
    (z_read_latency z) (z_log z).

Definition log_callback (r : Request) : list Request :=
  match callback r with Some _ => [r] | None => [] end.

Definition Zoo_send (z : Zoo Q P) (req : Request) : result (bool * Request * Zoo Q P) :=
  if negb (type_id req =? Read) && negb (type_id req =? Write)
  then Err (Throw (name +:+ " only supports Read/Write"))
  else
    p ← depart_of (z_pred z) (type_id req =? Write) (z_clk z + 1);
    let '(dep, pred) := p in
    if type_id req =? Read then
      let req := set_depart (set_arrive req (z_clk z)) dep in
      Ok (true, req,
          mkZoo (z_channel_id z) (z_device z) (z_clk z) pred (q_push (mkDep dep req) (z_pending z))
            (z_measured_clk z) (z_num_read_reqs z + 1) (z_num_write_reqs z) (z_num_read_reqs_served z)
            (z_num_write_reqs_served z) (z_read_latency z) (z_log z))
    else
      Ok (true, req,
          mkZoo (z_channel_id z) (z_device z) (z_clk z) pred (z_pending z)
            (z_measured_clk z) (z_num_read_reqs z) (z_num_write_reqs z + 1) (z_num_read_reqs_served z)
            (z_num_write_reqs_served z + 1) (z_read_latency z) (z_log z ++ log_callback req)).

Definition zoo_complete (z : Zoo Q P) (r : Request) : Zoo Q P :=
  mkZoo (z_channel_id z) (z_device z) (z_clk z) (z_pred z) (q_pop (z_pending z))
    (z_measured_clk z) (z_num_read_reqs z) (z_num_write_reqs z) (z_num_read_reqs_served z + 1)
    (z_num_write_reqs_served z) (z_read_latency z + (depart r - arrive r)) (z_log z ++ log_callback r).

(** The loop of [tick]: every round pops an entry. *)
Fixpoint zoo_serve (fuel : nat) (z : Zoo Q P) : result (Zoo Q P) :=
  match q_top (z_pending z) with
  | None => Ok z
  | Some p =>
      if d_depart p <=? z_clk z then
        match fuel with O => Err OutOfFuel | S fuel => zoo_serve fuel (zoo_complete z (d_req p)) end
      else Ok z
  end.

Definition Zoo_fast_forward (z : Zoo Q P) (ticks : Clk_t) : Zoo Q P :=
  mkZoo (z_channel_id z) (z_device z) (z_clk z + ticks) (z_pred z) (z_pending z) (z_measured_clk z + ticks)
    (z_num_read_reqs z) (z_num_write_reqs z) (z_num_read_reqs_served z) (z_num_write_reqs_served z)
    (z_read_latency z) (z_log z).

Definition Zoo_tick (z : Zoo Q P) : result (Zoo Q P) :=
  zoo_serve (length (q_elems (z_pending z))) (Zoo_fast_forward z 1).

Definition Zoo_idle_ticks (z : Zoo Q P) : Clk_t :=
  match q_top (z_pending z) with
  | None => clk_max
  | Some p => if z_clk z + 1 <? d_depart p then d_depart p - z_clk z - 1 else 0
  end.

Definition Zoo_reset_stats (reset_pred : P -> P) (z : Zoo Q P) : Zoo Q P :=
  mkZoo (z_channel_id z) (z_device z) (z_clk z) (reset_pred (z_pred z)) (z_pending z) 0 0 0 0 0 0 (z_log z).
End zoo.

(** [FixedLat]: a constant latency behind a bandwidth pipe. *)
Record FixedLat := mkFixedLat { fl_latency : Z; fl_pipe : Z; fl_burst : Clk_t; fl_pipe_free : Clk_t }.

Definition FixedLat_depart (f : FixedLat) (is_write : bool) (t : Clk_t) : result (Clk_t * FixedLat) :=
  if negb (fl_pipe f =? 0) then
    let start := Z.max t (fl_pipe_free f) in
    Ok (start + fl_latency f, mkFixedLat (fl_latency f) (fl_pipe f) (fl_burst f) (start + fl_burst f))
  else Ok (t + fl_latency f, f).

Definition FixedLat_init {Q} `{PriorityQueue Q} (fuel : nat) (latency pipe : Z) (dram_impl : string) (cfg : DramConfig)
  : result (Zoo Q FixedLat) :=
  spec ← create dram_impl cfg;
  device ← init spec;
  _ ← get_timing_value spec "tCK_ps";
  let latency := if latency <? 0 then wrap_s 32 (read_latency spec) else latency in
  p ← zoo_probe_burst_gap fuel device;
  Ok (mkZoo (-1) p.2 0 (mkFixedLat latency pipe p.1 0) q_empty 0 0 0 0 0 0 []).

(** ** MD1: an M/D/1 queueing formula in binary64 *)
Definition f64_of_Z (z : Z) : spec_float := binary_normalize 53 1024 z 0 false.
Definition f64_add (x y : spec_float) : spec_float := SFadd 53 1024 x y.
Definition f64_sub (x y : spec_float) : spec_float := SFsub 53 1024 x y.
Definition f64_mul (x y : spec_float) : spec_float := SFmul 53 1024 x y.
Definition f64_div (x y : spec_float) : spec_float := SFdiv 53 1024 x y.

(** [static_cast<Clk_t>]: truncation; a value that does not fit is undefined. *)
Definition f64_to_s64 (x : spec_float) : result Z :=
  match x with
  | S754_zero _ => Ok 0
  | S754_finite s m e =>
      let v := Z.shiftl (Zpos m) e in
      let v := if (s : bool) then - v else v in
      if in_s64 v then Ok v else Err Undef
  | _ => Err Undef
  end.

(** The constants 0.5 and 0.95. *)
Definition f64_half : spec_float := S754_finite false 4503599627370496 (-53).
Definition f64_095 : spec_float := S754_finite false 8556839292003942 (-53).

Record MD1 := mkMD1 {
  md_rl : Clk_t;
  md_burst : Clk_t;
  md_phase_ticks : Z;
  md_smoothing : spec_float;
  md_last_phase : Clk_t;
  md_latency : Clk_t;
  md_phase_accesses : Z;
  md_smoothed_accesses : spec_float;
  md_clamped_loads : Z
}.

Definition roll_phase (m : MD1) (t : Clk_t) : result MD1 :=
  let phase := Z.quot t (md_phase_ticks m) in
  let elapsed := (phase - md_last_phase m) * md_phase_ticks m in
  if elapsed <? 10000 then Ok m
  else
    let one := f64_of_Z 1 in
    let smoothed := f64_add (f64_mul (md_smoothing m) (f64_of_Z (md_phase_accesses m)))
                            (f64_mul (f64_sub one (md_smoothing m)) (md_smoothed_accesses m)) in
    let rho := f64_mul (f64_div smoothed (f64_of_Z elapsed)) (f64_of_Z (md_burst m)) in
    let clamp := SFltb f64_095 rho in
    let rho := if clamp then f64_095 else rho in
    latency ← f64_to_s64 (f64_mul (f64_add one (f64_div (f64_mul f64_half rho) (f64_sub one rho))) (f64_of_Z (md_rl m)));
    Ok (mkMD1 (md_rl m) (md_burst m) (md_phase_ticks m) (md_smoothing m) phase latency 0 smoothed
          (md_clamped_loads m + (if clamp then 1 else 0))).

Definition MD1_depart (m : MD1) (is_write : bool) (t : Clk_t) : result (Clk_t * MD1) :=
  m ← roll_phase m t;
  Ok (t + md_latency m,
      mkMD1 (md_rl m) (md_burst m) (md_phase_ticks m) (md_smoothing m) (md_last_phase m) (md_latency m)
        (md_phase_accesses m + 1) (md_smoothed_accesses m) (md_clamped_loads m)).

Definition MD1_init {Q} `{PriorityQueue Q} (fuel : nat) (phase_ticks : Z) (smoothing : spec_float) (dram_impl : string)
  (cfg : DramConfig) : result (Zoo Q MD1) :=
  spec ← create dram_impl cfg;
  device ← init spec;
  _ ← get_timing_value spec "tCK_ps";
  p ← zoo_probe_burst_gap fuel device;
  if (phase_ticks <=? 0) || negb (SFltb (f64_of_Z 0) smoothing && SFleb smoothing (f64_of_Z 1))
  then Err (Throw "MD1: phase_ticks and smoothing must be positive; smoothing <= 1")
  else Ok (mkZoo (-1) p.2 0
             (mkMD1 (read_latency spec) p.1 phase_ticks smoothing 0 (read_latency spec) 0 (f64_of_Z 0) 0)
             q_empty 0 0 0 0 0 0 []).

(** [s_clamped_loads = 0] of [reset_stats]. *)
Definition MD1_reset (m : MD1) : MD1 :=
  mkMD1 (md_rl m) (md_burst m) (md_phase_ticks m) (md_smoothing m) (md_last_phase m) (md_latency m)
    (md_phase_accesses m) (md_smoothed_accesses m) 0.

(** ** WMG1: the windowed M/G/1 queue of Sniper

    [ext/sniper_wmg1]: a window of recent arrivals with their service times, in
    picoseconds, and the moments of the service time. *)
Record WindowedMG1 := mkWMG1Queue {
  qw_window_size : Z;
  qw_total_requests : Z;
  qw_total_utilized_time : Z;
  qw_total_queue_delay : Z;
  qw_window : list (Z * Z);
  qw_num_arrivals : Z;
  qw_service_time_sum : Z;
  qw_service_time_sum2 : Z
}.

Definition WindowedMG1_init (window : Z) : result WindowedMG1 :=
  if window <=? 0 then Err (Throw "WMG1 requires a positive window") else Ok (mkWMG1Queue window 0 0 0 [] 0 0 0).

(** [std::multimap::insert]: after the entries with the same key. *)
Fixpoint multimap_insert (k v : Z) (l : list (Z * Z)) : list (Z * Z) :=
  match l with
  | [] => [(k, v)]
  | e :: l' => if k <? e.1 then (k, v) :: l else e :: multimap_insert k v l'
  end.

Definition ps_u64 (ps : Z) : Z := wrap_u 64 ps.

Definition addItem (q : WindowedMG1) (pkt_time service_time : Z) : WindowedMG1 :=
  let s := ps_u64 service_time in
  mkWMG1Queue (qw_window_size q) (qw_total_requests q) (qw_total_utilized_time q) (qw_total_queue_delay q)
    (multimap_insert pkt_time service_time (qw_window q)) (wrap_u 64 (qw_num_arrivals q + 1))
    (wrap_u 64 (qw_service_time_sum q + s)) (wrap_u 64 (qw_service_time_sum2 q + s * s)).

(** The loop of [removeItems] over the window. *)
Fixpoint remove_loop (l : list (Z * Z)) (earliest n sum sum2 : Z) : list (Z * Z) * Z * Z * Z :=
  match l with
  | e :: l' =>
      if e.1 <? earliest then
        let s := ps_u64 e.2 in
        remove_loop l' earliest (wrap_u 64 (n - 1)) (wrap_u 64 (sum - s)) (wrap_u 64 (sum2 - s * s))
      else (l, n, sum, sum2)
  | [] => ([], n, sum, sum2)
  end.

Definition removeItems (q : WindowedMG1) (earliest_time : Z) : WindowedMG1 :=
  let '(w, n, sum, sum2) :=
    remove_loop (qw_window q) earliest_time (qw_num_arrivals q) (qw_service_time_sum q) (qw_service_time_sum2 q) in
  mkWMG1Queue (qw_window_size q) (qw_total_requests q) (qw_total_utilized_time q) (qw_total_queue_delay q) w n sum sum2.

(** The constant 0.99. *)
Definition f64_099 : spec_float := S754_finite false 8917127262193582 (-53).

(** The waiting time of the formula, limited to the window. *)
Definition queue_delay (q : WindowedMG1) : result Z :=
  if 1 <? qw_num_arrivals q then
    let size := f64_of_Z (ps_u64 (qw_window_size q)) in
    let utilization := f64_div (f64_of_Z (qw_service_time_sum q)) size in
    let arrival_rate := f64_div (f64_of_Z (qw_num_arrivals q)) size in
    let es2 := f64_of_Z (qw_service_time_sum2 q / qw_num_arrivals q) in
    let utilization := if SFltb f64_099 utilization then f64_099 else utilization in
    t ← f64_to_s64 (f64_div (f64_mul arrival_rate es2) (f64_mul (f64_of_Z 2) (f64_sub (f64_of_Z 1) utilization)));
    Ok (if qw_window_size q <? t then qw_window_size q else t)
  else Ok 0.

Definition computeQueueDelay (q : WindowedMG1) (pkt_time processing_time : Z) : result (Z * WindowedMG1) :=
  let q := removeItems q (pkt_time - qw_window_size q) in
  t ← queue_delay q;
  let q := addItem q pkt_time processing_time in
  Ok (t, mkWMG1Queue (qw_window_size q) (wrap_u 64 (qw_total_requests q + 1)) (qw_total_utilized_time q + processing_time)
           (qw_total_queue_delay q + t) (qw_window q) (qw_num_arrivals q) (qw_service_time_sum q) (qw_service_time_sum2 q)).

Record WMG1 := mkWMG1 { wm_tCK_ps : Z; wm_rl : Clk_t; wm_burst : Clk_t; wm_queue : WindowedMG1 }.

Definition WMG1_depart (m : WMG1) (is_write : bool) (t : Clk_t) : result (Clk_t * WMG1) :=
  d ← computeQueueDelay (wm_queue m) (t * wm_tCK_ps m) (wm_burst m * wm_tCK_ps m);
  wait ← quot_u (ps_u64 d.1) (wrap_u 64 (wm_tCK_ps m));
  Ok (t + wm_rl m + wrap_s 64 wait, mkWMG1 (wm_tCK_ps m) (wm_rl m) (wm_burst m) d.2).

Definition WMG1_init {Q} `{PriorityQueue Q} (fuel : nat) (window_ns : Z) (dram_impl : string) (cfg : DramConfig)
  : result (Zoo Q WMG1) :=
  spec ← create dram_impl cfg;
  device ← init spec;
  tck ← get_timing_value spec "tCK_ps";
  p ← zoo_probe_burst_gap fuel device;
  if (window_ns <=? 0) || (tck <=? 0) then Err (Throw "WMG1: window_ns and DRAM clock must be positive")
  else
    w ← f64_to_s64 (f64_div (f64_mul (f64_of_Z window_ns) (f64_of_Z 1000)) (f64_of_Z tck));
    q ← WindowedMG1_init (Z.max w 1 * tck);
    Ok (mkZoo (-1) p.2 0 (mkWMG1 tck (read_latency spec) p.1 q) q_empty 0 0 0 0 0 0 []).

(** ** Mess, around a predictor (the one it uses is in [Mess]) *)
Section mess.
Context {MessMemCtrl : Type} (access : MessMemCtrl -> Clk_t -> bool -> result (Z * MessMemCtrl)).
Context (make_model : string -> Z -> spec_float -> Z -> result MessMemCtrl).

Definition Mess_depart (m : MessMemCtrl) (is_write : bool) (t : Clk_t) : result (Clk_t * MessMemCtrl) :=
  a ← access m t is_write;
  Ok (t + a.1, a.2).

(** The constant 0.05. *)
Definition f64_005 : spec_float := S754_finite false 7205759403792794 (-57).

Definition Mess_init {Q} `{PriorityQueue Q} (curve_path : string) (window_accesses : Z) (converge : spec_float)
  (dram_impl : string) (cfg : DramConfig) : result (Zoo Q MessMemCtrl) :=
  spec ← create dram_impl cfg;
  device ← init spec;
  tck ← get_timing_value spec "tCK_ps";
  if (window_accesses <=? 0) || negb (SFeqb converge f64_005)
  then Err (Throw "Mess: window_accesses must be positive; upstream fixes converge=0.05")
  else if negb (get_tx_bytes spec =? 64) || (tck <=? 0)
  then Err (Throw "Mess: upstream requires 64-byte transactions and a positive DRAM clock")
  else
    m ← make_model curve_path window_accesses (f64_div (f64_of_Z 1000) (f64_of_Z tck)) 1;
    Ok (mkZoo (-1) device 0 m q_empty 0 0 0 0 0 0 []).
End mess.

(** ** The window of WMG1 is summed up exactly *)
Definition window_sum (f : Z -> Z) (l : list (Z * Z)) : Z := foldr (fun e a => f (ps_u64 e.2) + a) 0 l.

Definition moments_exact (q : WindowedMG1) : Prop :=
  qw_num_arrivals q = wrap_u 64 (Z.of_nat (length (qw_window q))) /\
  qw_service_time_sum q = wrap_u 64 (window_sum id (qw_window q)) /\
  qw_service_time_sum2 q = wrap_u 64 (window_sum (fun s => s * s) (qw_window q)).

Lemma window_sum_insert f k v l : window_sum f (multimap_insert k v l) = f (ps_u64 v) + window_sum f l.
Proof. induction l as [|e l IH]; cbn; [done|]. case_match; cbn; [done|]. unfold window_sum in *. lia. Qed.

Lemma length_multimap_insert k v l : length (multimap_insert k v l) = S (length l).
Proof. induction l as [|e l IH]; cbn; [done|]. case_match; cbn; [done|by rewrite IH]. Qed.

Lemma wrap_sub a b : wrap_u 64 (wrap_u 64 (b + a) - b) = wrap_u 64 a.
Proof. unfold wrap_u. rewrite Zminus_mod_idemp_l. f_equal. lia. Qed.

Lemma wrap_add a b : wrap_u 64 (wrap_u 64 a + b) = wrap_u 64 (b + a).
Proof. unfold wrap_u. rewrite Z.add_mod_idemp_l by lia. f_equal. lia. Qed.

Lemma remove_loop_exact l earliest w n sum sum2 :
  remove_loop l earliest (wrap_u 64 (Z.of_nat (length l))) (wrap_u 64 (window_sum id l))
    (wrap_u 64 (window_sum (fun s => s * s) l)) = (w, n, sum, sum2) ->
  n = wrap_u 64 (Z.of_nat (length w)) /\ sum = wrap_u 64 (window_sum id w) /\ sum2 = wrap_u 64 (window_sum (fun s => s * s) w) /\
  w = drop (length l - length w) l.
Proof.
  induction l as [|e l IH]; cbn [remove_loop]; intros E; [by simplify_eq|].
  destruct (e.1 <? earliest) eqn:Ee; [|simplify_eq; rewrite Nat.sub_diag; done].
  cbn [length window_sum foldr] in E. rewrite !wrap_sub in E. replace (Z.of_nat (S (length l))) with (1 + Z.of_nat (length l)) in E by lia.
  rewrite wrap_sub in E. destruct (IH E) as (H1 & H2 & H3 & H4). split_and!; try done. rewrite H4 at 1.
  assert (length w <= length l)%nat by (rewrite H4, length_drop; lia).
  cbn [length]. replace (S (length l) - length w)%nat with (S (length l - length w)) by lia. done.
Qed.

(** Whatever arrives, count and moments are those of the window, and the delay is
    limited by the size of the window. *)
Lemma computeQueueDelay_exact q pkt service t q' :
  moments_exact q -> 0 <= qw_window_size q -> computeQueueDelay q pkt service = Ok (t, q') ->
  moments_exact q' /\ t <= qw_window_size q.
Proof.
  intros (H1 & H2 & H3) Hw Hc. unfold computeQueueDelay, removeItems in Hc.
  destruct (remove_loop (qw_window q) (pkt - qw_window_size q) (qw_num_arrivals q) (qw_service_time_sum q) (qw_service_time_sum2 q))
    as [[[w n] sum] sum2] eqn:E. rewrite H1, H2, H3 in E. apply remove_loop_exact in E as (E1 & E2 & E3 & _).
  apply bind_Ok in Hc as (d & Hd & [= <- <-]). unfold moments_exact. cbn -[window_sum wrap_u].
  rewrite !window_sum_insert, length_multimap_insert, E1, E2, E3.
  split_and!; try apply wrap_add.
  - rewrite wrap_add. f_equal. lia.
  - unfold queue_delay in Hd. cbn [qw_window_size] in Hd. destruct (1 <? _); [|injection Hd as <-; lia].
    apply bind_Ok in Hd as (x & _ & [= <-]). destruct (Z.ltb_spec (qw_window_size q) x); lia.
Qed.
