(* ===== verification/Elision.v ===== *)
(** * Tick elision below the simulation loop

    [idle_ticks] and [fast_forward] of [controller/i_controller.h]: the contract
    between a component and the loop that skips its idle ticks, and its proof for
    the latency-predicting controllers, the cycle-level controller and the memory
    system that combines them. *)

From Stdlib Require Import ZArith Lia.
From S2P Require Import Prelude Base Spec Node Device Controller Scheduler GenericDDR Mapping MemSystem Latency.

Local Open Scope Z_scope.

(** [k] rounds of a fallible step. *)
Fixpoint iterM {A} (k : nat) (f : A -> result A) (a : A) : result A :=
  match k with O => Ok a | S k => b ← f a; iterM k f b end.

Lemma iterM_add {A} (k1 k2 : nat) (f : A -> result A) (a : A) :
  iterM (k1 + k2) f a = (b ← iterM k1 f a; iterM k2 f b).
Proof.
  revert a. induction k1 as [|k1 IH]; intros a; simpl; [done|]. destruct (f a); simpl; [apply IH|done].
Qed.

(** Two prefixes of the same run differ by one step. *)
Lemma iterM_last {A} (k : nat) (f : A -> result A) (a b c : A) :
  iterM k f a = Ok b -> iterM (S k) f a = Ok c -> f b = Ok c.
Proof.
  intros Hb. replace (S k) with (k + 1)%nat by lia. rewrite iterM_add, Hb. simpl.
  destruct (f b); [by intros [= <-]|done].
Qed.

Lemma iterM_mapM {A} (f : A -> result A) (k : nat) (l r : list A) :
  Forall2 (fun x y => iterM (S k) f x = Ok y) l r ->
  exists ms, mapM f l = Ok ms /\ Forall2 (fun x y => iterM k f x = Ok y) ms r.
Proof.
  induction 1 as [|x y l r Hx Hl IH]; [by exists []|]. destruct IH as (ms & Hms & Hr).
  simpl in Hx. apply bind_Ok in Hx as (m & Hm & Hy). exists (m :: ms). split; [|by constructor].
  apply mapM_Ok. apply mapM_Ok in Hms. by constructor.
Qed.

(** The callbacks a component has run since they were last taken, in order. *)
Class Callbacks (C : Type) := take_callbacks : C -> list Request * C.

Definition drained {C} `{Callbacks C} (c : C) : Prop := take_callbacks c = ([], c).

(** ** The contract of a controller *)
Class ControllerElision (C : Type) `{IController C} `{Callbacks C} := {
  c_idle_total c : exists n, c_idle_ticks c = Ok n /\ 0 <= n;
  c_idle_sound c n k :
    c_idle_ticks c = Ok n -> 0 <= k <= n ->
    exists c', c_fast_forward c k = Ok c' /\ iterM (Z.to_nat k) c_tick c = Ok c' /\ (drained c -> drained c');
  c_take_drained c l c' : take_callbacks c = (l, c') -> drained c'
}.

(** Skipping by [ff] is exact when it is additive, agrees with one idle tick and
    uses up the idle ticks it skips. *)
Lemma iter_fast_forward {C} (tick : C -> result C) (idle : C -> Z) (ff : C -> Z -> C) :
  (forall c, ff c 0 = c) -> (forall c i j, ff (ff c i) j = ff c (i + j)) ->
  (forall c, 0 < idle c -> tick c = Ok (ff c 1)) -> (forall c k, 0 <= k -> idle c - k <= idle (ff c k)) ->
  forall c k, 0 <= k <= idle c -> iterM (Z.to_nat k) tick c = Ok (ff c k).
Proof.
  intros H0 Hadd Htick Hidle c k Hk. rewrite <- (Z2Nat.id k) at 2 by lia. assert (Z.of_nat (Z.to_nat k) <= idle c) as Hi by lia.
  clear Hk. induction (Z.to_nat k) as [|i IH]; [by rewrite H0|].
  replace (S i) with (i + 1)%nat at 1 by lia. rewrite iterM_add, IH by lia. simpl.
  rewrite Htick; [|pose proof (Hidle c (Z.of_nat i)); lia]. simpl. rewrite Hadd. do 2 f_equal. lia.
Qed.

(** ** Atomic controllers *)
Section atomic.
Context {Md : Type} (predict : Md -> Z -> Request -> Clk_t -> result (Clk_t * Md)) (apply : Request -> result Request).

#[export] Instance Atomic_controller : IController (Atomic Md) := {|
  c_send := Atomic_send predict apply;
  c_tick := fun a => Ok (Atomic_tick a);
  c_set_channel_id := Atomic_set_channel_id;
  c_get_tx_bytes := fun a => get_tx_bytes (m_spec (at_device a));
  c_idle_ticks := fun a => Ok (Atomic_idle_ticks a);
  c_fast_forward := fun a k => Ok (Atomic_fast_forward a k)
|}.

Definition at_clear_log (a : Atomic Md) : Atomic Md :=
  mkAtomic (at_channel_id a) (at_clk a) (at_device a) (at_latency a) (at_read_buffer_size a)
    (at_write_buffer_size a) (at_model a) (at_pending a) (at_next_sequence a)
    (at_inflight_reads a) (at_inflight_writes a) (at_measured_clk a) (at_num_read_reqs a) (at_num_write_reqs a)
    (at_num_read_reqs_served a) (at_num_write_reqs_served a) (at_read_latency a) (at_send_rejects a)
    (at_peak_inflight_reads a) (at_peak_inflight_writes a) [].

#[export] Instance Atomic_callbacks : Callbacks (Atomic Md) := fun a => (at_log a, at_clear_log a).

Lemma Atomic_ff_add (a : Atomic Md) (i j : Z) :
  Atomic_fast_forward (Atomic_fast_forward a i) j = Atomic_fast_forward a (i + j).
Proof. unfold Atomic_fast_forward. simpl. f_equal; lia. Qed.

Lemma Atomic_ff_0 (a : Atomic Md) : Atomic_fast_forward a 0 = a.
Proof. destruct a. unfold Atomic_fast_forward. simpl. by rewrite !Z.add_0_r. Qed.

(** A tick of an idle controller only advances the clock. *)
Lemma Atomic_tick_idle (a : Atomic Md) : 0 < Atomic_idle_ticks a -> Atomic_tick a = Atomic_fast_forward a 1.
Proof.
  unfold Atomic_idle_ticks, Atomic_tick, serve_completed. simpl. destruct (at_pending a) as [|p q]; [done|].
  simpl. destruct (Z.ltb_spec (at_clk a + 1) (p_depart p)); [|lia]. intros _.
  destruct (Z.leb_spec (p_depart p) (at_clk a + 1)); [lia|done].
Qed.

Lemma Atomic_idle_ff (a : Atomic Md) (k : Z) :
  0 <= k -> Atomic_idle_ticks a - k <= Atomic_idle_ticks (Atomic_fast_forward a k).
Proof.
  intros Hk. unfold Atomic_idle_ticks. simpl. destruct (at_pending a) as [|p q]; [lia|].
  destruct (Z.ltb_spec (at_clk a + 1) (p_depart p)), (Z.ltb_spec (at_clk a + k + 1) (p_depart p)); lia.
Qed.

#[export] Instance Atomic_elision : ControllerElision (Atomic Md).
Proof.
  split.
  - intros a. eexists. split; [done|]. unfold Atomic_idle_ticks, clk_max. repeat case_match; lia.
  - intros a n k [= <-] Hk. exists (Atomic_fast_forward a k). split_and!; [done| |].
    + apply (iter_fast_forward _ Atomic_idle_ticks Atomic_fast_forward); try done;
        [apply Atomic_ff_0|apply Atomic_ff_add| |apply Atomic_idle_ff].
      intros. simpl. by rewrite Atomic_tick_idle.
    + destruct a. unfold drained, take_callbacks, Atomic_callbacks, Atomic_fast_forward, at_clear_log. simpl. congruence.
  - intros a l c' [= <- <-]. done.
Qed.
End atomic.

(** ** Controllers around a predictor *)
Section zoo.
Context {Q P : Type} `{PriorityQueue Q} (name : string) (depart_of : P -> bool -> Clk_t -> result (Clk_t * P)).

#[export] Instance Zoo_controller : IController (Zoo Q P) := {|
  c_send := Zoo_send name depart_of;
  c_tick := Zoo_tick;
  c_set_channel_id := Zoo_set_channel_id;
  c_get_tx_bytes := fun z => get_tx_bytes (m_spec (z_device z));
  c_idle_ticks := fun z => Ok (Zoo_idle_ticks z);
  c_fast_forward := fun z k => Ok (Zoo_fast_forward z k)
|}.

Definition z_clear_log (z : Zoo Q P) : Zoo Q P :=
  mkZoo (z_channel_id z) (z_device z) (z_clk z) (z_pred z) (z_pending z) (z_measured_clk z)
    (z_num_read_reqs z) (z_num_write_reqs z) (z_num_read_reqs_served z) (z_num_write_reqs_served z)
    (z_read_latency z) [].

#[export] Instance Zoo_callbacks : Callbacks (Zoo Q P) := fun z => (z_log z, z_clear_log z).

Lemma Zoo_tick_idle (z : Zoo Q P) : 0 < Zoo_idle_ticks z -> Zoo_tick z = Ok (Zoo_fast_forward z 1).
Proof.
  unfold Zoo_idle_ticks, Zoo_tick. intros Hi.
  destruct (length _); simpl; (destruct (q_top (z_pending z)) as [p|]; [|done]);
    (destruct (Z.ltb_spec (z_clk z + 1) (d_depart p)); [|lia]);
    (destruct (Z.leb_spec (d_depart p) (z_clk z + 1)); [lia|done]).
Qed.

Lemma Zoo_idle_ff (z : Zoo Q P) (k : Z) :
  0 <= k -> Zoo_idle_ticks z - k <= Zoo_idle_ticks (Zoo_fast_forward z k).
Proof.
  intros Hk. unfold Zoo_idle_ticks. simpl. destruct (q_top (z_pending z)) as [p|]; [|lia].
  destruct (Z.ltb_spec (z_clk z + 1) (d_depart p)), (Z.ltb_spec (z_clk z + k + 1) (d_depart p)); lia.
Qed.

#[export] Instance Zoo_elision : ControllerElision (Zoo Q P).
Proof.
  split.
  - intros z. eexists. split; [done|]. unfold Zoo_idle_ticks, clk_max. repeat case_match; lia.
  - intros z n k [= <-] Hk. exists (Zoo_fast_forward z k). split_and!; [done| |].
    + apply (iter_fast_forward _ Zoo_idle_ticks Zoo_fast_forward); [..|done].
      * intros []. unfold Zoo_fast_forward. simpl. by rewrite !Z.add_0_r.
      * intros []. unfold Zoo_fast_forward. simpl. intros. f_equal; lia.
      * intros. by apply Zoo_tick_idle.
      * apply Zoo_idle_ff.
    + destruct z. unfold drained, take_callbacks, Zoo_callbacks, Zoo_fast_forward, z_clear_log. simpl. congruence.
  - intros z l c' [= <- <-]. done.
Qed.
End zoo.

(** ** The cycle-level controller is never idle *)
Section generic_ddr.
Context {R P G : Type} `{RefreshManager R} `{RowPolicy P} `{ControllerPlugin G}.
Context (apply : Request -> result Request) (sch : scheduler_t).

Definition set_log (c : Ctrl) (l : list Event) : Ctrl := mkCtrl (m_channel_id c) (m_clk c) (m_device c) (m_pending c)
  (m_pending_sequence c) (m_active_buffer c) (m_priority_buffer c) (m_read_buffer c) (m_write_buffer c)
  (m_buffered_write_addrs c) (m_wr_low_watermark c) (m_wr_high_watermark c) (m_is_write_mode c)
  (m_active_per_bank c) (m_num_cores c) (m_stats c) l.

Definition callbacks_of (l : list Event) : list Request :=
  omap (fun e => match e with EvCallback r => Some r | EvDeparture _ => None end) l.

#[export] Instance GenericDDR_callbacks : Callbacks (GenericDDR R P G) := fun g =>
  (callbacks_of (m_log (g_ctrl g)),
   mkGDDR (set_log (g_ctrl g) []) (g_refresh g) (g_policy g) (g_plugins g)).

#[export] Instance GenericDDR_elision :
  @ControllerElision (GenericDDR R P G) (GenericDDR_controller apply sch) GenericDDR_callbacks.
Proof.
  split.
  - intros g. by exists 0.
  - intros g n k [= <-] Hk. assert (k = 0) as -> by lia. by exists g.
  - intros g l c' [= <- <-]. done.
Qed.
End generic_ddr.

(** ** The memory system *)
Section system.
Context {C M : Type} `{HC : IController C} `{HB : Callbacks C} `{HE : !ControllerElision C}.

(** A tick runs the controllers one after the other, so their callbacks come in
    channel order. *)
#[export] Instance system_callbacks : Callbacks (GenericDRAMSystem C M) := fun s =>
  (s.(m_controllers) ≫= (fun c => (take_callbacks c).1),
   mkSystem (s_mapper s) ((fun c => (take_callbacks c).2) <$> m_controllers s) (m_next_admission_ordinal s)
     (m_tx_bytes s) (s_num_read_requests s) (s_num_write_requests s)).

Lemma system_idle_total (s : GenericDRAMSystem C M) : exists n, system_idle_ticks s = Ok n /\ 0 <= n.
Proof.
  unfold system_idle_ticks. assert (0 <= 2 ^ 63 - 1) as Hz by lia. revert Hz. generalize (2 ^ 63 - 1).
  induction (m_controllers s) as [|c l IH]; intros z Hz; [by exists z|].
  simpl. destruct (c_idle_total c) as (n & -> & Hn). apply IH. lia.
Qed.

Lemma system_idle_each (s : GenericDRAMSystem C M) (n : Z) :
  system_idle_ticks s = Ok n -> Forall (fun c => exists i, c_idle_ticks c = Ok i /\ n <= i) (m_controllers s).
Proof.
  unfold system_idle_ticks. generalize (2 ^ 63 - 1).
  assert (forall l z, foldM (fun idle c => i ← c_idle_ticks c; Ok (Z.min idle i)) z l = Ok n ->
    n <= z /\ Forall (fun c => exists i, c_idle_ticks c = Ok i /\ n <= i) l) as Hf.
  { induction l as [|c l IH]; intros z Hz; simpl in Hz; [simplify_eq; split; [lia|constructor]|].
    apply bind_Ok in Hz as (z1 & (i & Hi & [= <-])%bind_Ok & Hz). apply IH in Hz as [Hle Hl].
    split; [lia|]. constructor; [|done]. exists i. split; [done|lia]. }
  intros z Hz. apply (Hf _ _ Hz).
Qed.

(** Rounds over the controllers are rounds of each controller. *)
Lemma system_iter (k : nat) (s : GenericDRAMSystem C M) (cs : list C) :
  Forall2 (fun c c' => iterM k c_tick c = Ok c') (m_controllers s) cs ->
  iterM k system_tick s = Ok (mkSystem (s_mapper s) cs (m_next_admission_ordinal s) (m_tx_bytes s)
    (s_num_read_requests s) (s_num_write_requests s)).
Proof.
  revert s. induction k as [|k IH]; intros s Hcs; cbn [iterM].
  - assert (cs = m_controllers s) as ->; [|by destruct s].
    induction Hcs as [|x y l l' Hx _ IHl]; [done|]. simpl in Hx. congruence.
  - destruct (iterM_mapM c_tick k _ _ Hcs) as (ms & Hms & Hk).
    assert (system_tick s = Ok (mkSystem (s_mapper s) ms (m_next_admission_ordinal s) (m_tx_bytes s)
      (s_num_read_requests s) (s_num_write_requests s))) as -> by (unfold system_tick; by rewrite Hms).
    simpl. by rewrite IH.
Qed.

Lemma take_all_drained (cs : list C) :
  cs ≫= (fun c => (take_callbacks c).1) = [] /\ (fun c => (take_callbacks c).2) <$> cs = cs <-> Forall drained cs.
Proof.
  induction cs as [|c cs IH]; [done|]. rewrite bind_cons, fmap_cons, Forall_cons, <- IH. unfold drained.
  destruct (take_callbacks c) as [l c'] eqn:E. cbn [fst snd]. split.
  - intros [[-> Hl]%app_nil [= -> Hf]]. done.
  - intros [[= -> ->] [Hl Hf]]. by rewrite Hl, Hf.
Qed.

Lemma system_drained (s : GenericDRAMSystem C M) : drained s <-> Forall drained (m_controllers s).
Proof.
  rewrite <- take_all_drained. unfold drained at 1, take_callbacks at 1, system_callbacks. destruct s as [mp cs od tx nr nw].
  cbn [m_controllers s_mapper m_next_admission_ordinal m_tx_bytes s_num_read_requests s_num_write_requests].
  split; [by intros [= -> ->]|]. by intros [-> ->].
Qed.

Lemma system_take_drained (s s' : GenericDRAMSystem C M) (l : list Request) :
  take_callbacks s = (l, s') -> drained s'.
Proof.
  intros [= _ <-]. apply system_drained. simpl. induction (m_controllers s) as [|c cs IH]; [constructor|].
  simpl. constructor; [|done]. destruct (take_callbacks c) as [lc c'] eqn:E. exact (c_take_drained _ _ _ E).
Qed.

(** Skipping up to [idle_ticks] ticks of the whole memory system is exact. *)
Lemma system_idle_sound (s : GenericDRAMSystem C M) (n k : Z) :
  system_idle_ticks s = Ok n -> 0 <= k <= n ->
  exists s', system_fast_forward s k = Ok s' /\ iterM (Z.to_nat k) system_tick s = Ok s' /\
    (drained s -> drained s').
Proof.
  intros Hn Hk. pose proof (system_idle_each s n Hn) as Hall.
  assert (exists cs, mapM (fun c => c_fast_forward c k) (m_controllers s) = Ok cs /\
    Forall2 (fun c c' => iterM (Z.to_nat k) c_tick c = Ok c') (m_controllers s) cs /\
    (Forall drained (m_controllers s) -> Forall drained cs)) as (cs & Hff & Hit & Hdr).
  { clear Hn. induction Hall as [|c l (i & Hi & Hle) Hl IH]; [by exists []|].
    destruct IH as (cs & H1%mapM_Ok & H2 & H3). destruct (c_idle_sound c i k Hi ltac:(lia)) as (c' & Hf & Ht & Hd). exists (c' :: cs).
    split_and!; [apply mapM_Ok; by constructor|by constructor|]. intros [??]%Forall_cons. constructor; auto. }
  exists (mkSystem (s_mapper s) cs (m_next_admission_ordinal s) (m_tx_bytes s) (s_num_read_requests s) (s_num_write_requests s)).
  unfold system_fast_forward. rewrite Hff. split_and!; [done|by apply system_iter|].
  rewrite !system_drained. exact Hdr.
Qed.
End system.
