(* ===== verification/Simulation.v ===== *)
(** * The simulation loop

    [base/simulation.cpp]: [run_simulation] interleaves the ticks of a frontend
    and a memory system in the ratio of their clocks and skips stretches that
    both declare idle.  [base/batch_simulation.cpp] is in [Batch]. *)

From Stdlib Require Import ZArith Lia.
From S2P Require Import Prelude Base Latency Elision.

Local Open Scope Z_scope.

(** What the loop and the frontends call on a memory system ([IMemorySystem]). *)
Class IMemorySystem (M : Type) := {
  ms_send : M -> Request -> result (bool * Request * M);
  ms_tick : M -> result M;
  ms_idle_ticks : M -> result Clk_t;
  ms_fast_forward : M -> Clk_t -> result M;
  ms_get_tx_bytes : M -> Z
}.

(** What the loop calls on a frontend ([IFrontEnd]); [f_tick] sends to the memory
    system, [f_receive] is a completion callback. *)
Class IFrontEnd (F M : Type) := {
  f_tick : F -> M -> result (F * M);
  f_receive : F -> Request -> result F;
  f_is_finished : F -> result bool;
  f_idle_ticks : F -> Clk_t -> result Clk_t;
  f_fast_forward : F -> Clk_t -> result F
}.

Section simulation.
Context {F M : Type} `{IMemorySystem M} `{Callbacks M} `{IFrontEnd F M}.
(** The clock ratios; the frontend ticks every [mem_ratio] rounds. *)
Context (fe_ratio mem_ratio : Z).

Record Sim := mkSim { fe_count : Z; mem_count : Z; frontend : F; memory : M }.

(** A memory tick with the callbacks it runs. *)
Definition memory_tick (f : F) (m : M) : result (F * M) :=
  m ← ms_tick m;
  let '(done, m) := take_callbacks m in
  f ← foldM f_receive f done;
  Ok (f, m).

(** One round up to the elision; [true] when the frontend has finished. *)
Definition sim_round (s : Sim) : result (bool * Sim) :=
  let fc := fe_count s + 1 in
  t ← (if mem_ratio <=? fc
       then fm ← f_tick (frontend s) (memory s); Ok (0, fm)
       else Ok (fc, (frontend s, memory s)));
  let '(fc, (f, m)) := t in
  fin ← f_is_finished f;
  if (fin : bool) then Ok (true, mkSim fc (mem_count s) f m)
  else
    let mc := mem_count s + 1 in
    t ← (if fe_ratio <=? mc
         then fm ← memory_tick f m; Ok (0, fm)
         else Ok (mc, (f, m)));
    let '(mc, (f, m)) := t in
    Ok (false, mkSim fc mc f m).

Definition MAX_JUMP : Clk_t := 1000000000.

(** The jump of [j] rounds. *)
Definition jump (j : Z) (s : Sim) : result Sim :=
  let fe_ff := (fe_count s + j) / mem_ratio in
  let mem_ff := (mem_count s + j) / fe_ratio in
  f ← (if 0 <? fe_ff then f_fast_forward (frontend s) fe_ff else Ok (frontend s));
  m ← (if 0 <? mem_ff then ms_fast_forward (memory s) mem_ff else Ok (memory s));
  Ok (mkSim ((fe_count s + j) mod mem_ratio) ((mem_count s + j) mod fe_ratio) f m).

(** The elision at the end of a round, in 64-bit unsigned arithmetic. *)
Definition elide (s : Sim) : result Sim :=
  mem_idle ← ms_idle_ticks (memory s);
  if 0 <? mem_idle then
    fin ← f_is_finished (frontend s);
    if (fin : bool) then Ok s
    else
      let mem_idle := Z.min mem_idle MAX_JUMP in
      let j_mem := wrap_u 64 (fe_ratio - mem_count s + mem_idle * fe_ratio - 1) in
      let max_fe := wrap_u 64 (fe_count s + j_mem) / mem_ratio in
      if 0 <? max_fe then
        fe_idle ← f_idle_ticks (frontend s) (Z.min max_fe MAX_JUMP);
        if 0 <? fe_idle then
          let j_fe := wrap_u 64 (mem_ratio - fe_count s + fe_idle * mem_ratio - 1) in
          let j := Z.min j_fe j_mem in
          if 2 <=? j then jump j s else Ok s
        else Ok s
      else Ok s
  else Ok s.

Fixpoint sim_loop (elision : bool) (fuel : nat) (s : Sim) : result Sim :=
  match fuel with
  | O => Err OutOfFuel
  | S fuel =>
      r ← sim_round s;
      match r with
      | (true, s) => Ok s
      | (false, s) => s ← (if elision then elide s else Ok s); sim_loop elision fuel s
      end
  end.

Definition run_simulation (elision : bool) (fuel : nat) (f : F) (m : M) : result Sim :=
  if (fe_ratio <=? 0) || (mem_ratio <=? 0)
  then Err (Throw "clock_ratio must be > 0 for both frontend and memory system")
  else sim_loop elision fuel (mkSim (mem_ratio - 1) (fe_ratio - 1) f m).
End simulation.
Arguments Sim : clear implicits.

(** ** The contracts *)

Class MemoryElision (M : Type) `{IMemorySystem M} `{Callbacks M} := {
  ms_idle_total m : exists n, ms_idle_ticks m = Ok n /\ 0 <= n;
  ms_idle_sound m n k :
    ms_idle_ticks m = Ok n -> 0 <= k <= n ->
    exists m', ms_fast_forward m k = Ok m' /\ iterM (Z.to_nat k) ms_tick m = Ok m' /\ (drained m -> drained m');
  ms_take_drained m l m' : take_callbacks m = (l, m') -> drained m'
}.

(** A frontend delivers the callbacks of the requests it sends, and its idle
    ticks send nothing. *)
Class FrontEndElision (F M : Type) `{IMemorySystem M} `{Callbacks M} `{IFrontEnd F M} := {
  f_inv : F -> Prop;
  f_tick_inv f m f' m' : f_inv f -> drained m -> f_tick f m = Ok (f', m') -> f_inv f' /\ drained m';
  f_receive_inv f r f' : f_inv f -> f_receive f r = Ok f' -> f_inv f';
  f_finished_total f : f_inv f -> is_ok (f_is_finished f);
  f_idle_total f u : f_inv f -> is_ok (f_idle_ticks f u);
  f_idle_sound f m u n k :
    f_inv f -> f_idle_ticks f u = Ok n -> 0 <= k <= n ->
    exists f', (if 0 <? k then f_fast_forward f k else Ok f) = Ok f' /\ f_inv f' /\
      f_is_finished f' = f_is_finished f /\
      iterM (Z.to_nat k) (fun fm => f_tick fm.1 fm.2) (f, m) = Ok (f', m)
}.
