(* ===== verification/SimProps.v ===== *)
(** * The elided simulation loop computes what the plain loop computes *)

From Stdlib Require Import ZArith Lia.
From S2P Require Import Prelude Base Latency Elision Simulation.

Local Open Scope Z_scope.

(** Counting one more round of period [p]. *)
Lemma round_wraps (p x : Z) :
  0 < p -> p <= x mod p + 1 -> (x + 1) mod p = 0 /\ (x + 1) / p = x / p + 1.
Proof.
  intros Hp Hw. pose proof (Z.mod_pos_bound x p Hp). pose proof (Z.div_mod x p ltac:(lia)).
  assert (x + 1 = (x / p + 1) * p) as -> by nia. by rewrite Z.mod_mul, Z.div_mul by lia.
Qed.

Lemma round_steps (p x : Z) :
  0 < p -> x mod p + 1 < p -> (x + 1) mod p = x mod p + 1 /\ (x + 1) / p = x / p.
Proof.
  intros Hp Hw. pose proof (Z.mod_pos_bound x p Hp). pose proof (Z.div_mod x p ltac:(lia)).
  split; [symmetry; apply (Z.mod_unique _ _ (x / p))|symmetry; apply (Z.div_unique _ _ _ (x mod p + 1))]; lia.
Qed.

Lemma wrap_u_le (w x : Z) : 0 <= x -> 0 <= w -> 0 <= wrap_u w x <= x.
Proof.
  intros Hx Hw. unfold wrap_u. assert (0 < 2 ^ w) by (apply Z.pow_pos_nonneg; lia).
  split; [apply Z.mod_pos_bound; lia|apply Z.mod_le; lia].
Qed.

Section sim.
Context {F M : Type} `{HM : IMemorySystem M} `{HC : Callbacks M} `{HF : IFrontEnd F M}.
Context `{LM : !MemoryElision M} `{LF : !FrontEndElision F M}.
Context (fr mr : Z) (Hfr : 0 < fr) (Hmr : 0 < mr).

Definition sim_ok (s : Sim F M) : Prop :=
  0 <= fe_count s < mr /\ 0 <= mem_count s < fr /\ f_inv (frontend s) /\ drained (memory s).

(** [j] rounds that do not finish. *)
Inductive rounds : nat -> Sim F M -> Sim F M -> Prop :=
| rounds_O s : rounds 0 s s
| rounds_S j s s1 s2 : rounds j s s1 -> sim_round fr mr s1 = Ok (false, s2) -> rounds (S j) s s2.

Lemma receive_all_inv (l : list Request) (f f' : F) :
  f_inv f -> foldM f_receive f l = Ok f' -> f_inv f'.
Proof.
  intros Hf. apply (foldM_inv f_inv); [done|]. intros a b x _ Ha Hb. exact (f_receive_inv a x b Ha Hb).
Qed.

Lemma sim_round_ok (s s' : Sim F M) : sim_ok s -> sim_round fr mr s = Ok (false, s') -> sim_ok s'.
Proof.
  intros (Hfc & Hmc & Hf & Hm) H. unfold sim_round, memory_tick in H.
  apply bind_Ok in H as ([fc [f m]] & H1 & H).
  assert (0 <= fc < mr /\ f_inv f /\ drained m) as (Hfc' & Hf' & Hm').
  { destruct (Z.leb_spec mr (fe_count s + 1)).
    - apply bind_Ok in H1 as ([f0 m0] & Ht & [= <- <- <-]). split; [lia|]. eapply f_tick_inv; eauto.
    - injection H1 as <- <- <-. split; [lia|done]. }
  apply bind_Ok in H as ([] & _ & H); [done|]. apply bind_Ok in H as ([mc [f1 m1]] & H2 & [= <-]).
  assert (0 <= mc < fr /\ f_inv f1 /\ drained m1) as (? & ? & ?); [|done].
  destruct (Z.leb_spec fr (mem_count s + 1)).
  - apply bind_Ok in H2 as (fm & H2 & [= <- ->]). apply bind_Ok in H2 as (m2 & _ & H2).
    destruct (take_callbacks m2) as [l m3] eqn:El. apply bind_Ok in H2 as (f2 & Hr & [= <- <-]).
    split_and!; [lia..|by eapply receive_all_inv|exact (ms_take_drained _ _ _ El)].
  - injection H2 as <- <- <-. split; [lia|done].
Qed.

(** ** A jump is that many idle rounds *)
Section idle.
Context (s : Sim F M) (u n k : Z) (Hok : sim_ok s).
Context (Hn : f_idle_ticks (frontend s) u = Ok n) (Hk : ms_idle_ticks (memory s) = Ok k).
Context (Hfin : f_is_finished (frontend s) = Ok false).

Definition at_round (j : Z) (t : Sim F M) : Prop :=
  let i := (fe_count s + j) / mr in let l := (mem_count s + j) / fr in
  fe_count t = (fe_count s + j) mod mr /\ mem_count t = (mem_count s + j) mod fr /\
  (if 0 <? i then f_fast_forward (frontend s) i else Ok (frontend s)) = Ok (frontend t) /\ ms_fast_forward (memory s) l = Ok (memory t).

Lemma idle_round (j : Z) (t : Sim F M) :
  0 <= j -> (fe_count s + (j + 1)) / mr <= n -> (mem_count s + (j + 1)) / fr <= k -> at_round j t ->
  exists t', sim_round fr mr t = Ok (false, t') /\ at_round (j + 1) t'.
Proof.
  intros Hj Hjn Hjk (Efc & Emc & Ef & Em). destruct Hok as (Hfc & Hmc & Hi & Hd).
  assert (0 <= (fe_count s + j) / mr <= (fe_count s + (j + 1)) / mr) as Hle1
    by (split; [apply Z.div_pos; lia|apply Z.div_le_mono; lia]).
  assert (0 <= (mem_count s + j) / fr <= (mem_count s + (j + 1)) / fr) as Hle2
    by (split; [apply Z.div_pos; lia|apply Z.div_le_mono; lia]).
  destruct (ms_idle_sound _ k _ Hk (conj (proj1 Hle2) (Z.le_trans _ _ _ (proj2 Hle2) Hjk))) as (m1 & Em1 & It1 & Hd1).
  destruct (ms_idle_sound _ k ((mem_count s + (j + 1)) / fr) Hk ltac:(lia)) as (m2 & Em2 & It2 & Hd2).
  rewrite Em in Em1. injection Em1 as <-. specialize (Hd1 Hd). specialize (Hd2 Hd).
  destruct (f_idle_sound _ (memory t) u n ((fe_count s + j) / mr) Hi Hn ltac:(lia)) as (f1 & Ef1 & _ & Fin1 & Jt1).
  destruct (f_idle_sound _ (memory t) u n ((fe_count s + (j + 1)) / mr) Hi Hn ltac:(lia)) as (f2 & Ef2 & _ & Fin2 & Jt2).
  rewrite Ef in Ef1. injection Ef1 as <-. rewrite Hfin in Fin2.
  exists (mkSim ((fe_count s + (j + 1)) mod mr) ((mem_count s + (j + 1)) mod fr) f2 m2). split; [|by split].
  unfold sim_round. rewrite Efc, Emc. rewrite !Z.add_assoc in *.
  assert ((if mr <=? (fe_count s + j) mod mr + 1
           then fm ← f_tick (frontend t) (memory t); Ok (0, fm)
           else Ok ((fe_count s + j) mod mr + 1, (frontend t, memory t))) =
          Ok ((fe_count s + j + 1) mod mr, (f2, memory t))) as ->.
  { destruct (Z.leb_spec mr ((fe_count s + j) mod mr + 1)) as [Hw|Hw].
    - destruct (round_wraps mr (fe_count s + j) Hmr Hw) as [-> E]. rewrite E, Z2Nat.inj_add, Nat.add_1_r in Jt2 by lia.
      pose proof (iterM_last _ _ _ _ _ Jt1 Jt2) as Ht. simpl in Ht. by rewrite Ht.
    - destruct (round_steps mr (fe_count s + j) Hmr Hw) as [-> E]. rewrite E, Jt1 in Jt2. by injection Jt2 as ->. }
  simpl. rewrite Fin2. simpl.
  destruct (Z.leb_spec fr ((mem_count s + j) mod fr + 1)) as [Hw|Hw].
  - destruct (round_wraps fr (mem_count s + j) Hfr Hw) as [-> E]. rewrite E, Z2Nat.inj_add, Nat.add_1_r in It2 by lia.
    pose proof (iterM_last _ _ _ _ _ It1 It2) as Ht. unfold memory_tick. rewrite Ht. simpl. by rewrite Hd2.
  - destruct (round_steps fr (mem_count s + j) Hfr Hw) as [-> E]. rewrite E, It1 in It2. by injection It2 as ->.
Qed.

Lemma idle_rounds (j : nat) :
  (fe_count s + Z.of_nat j) / mr <= n -> (mem_count s + Z.of_nat j) / fr <= k ->
  exists t, rounds j s t /\ at_round (Z.of_nat j) t.
Proof.
  induction j as [|j IH]; intros Hjn Hjk.
  - exists s. split; [constructor|]. destruct Hok as (Hfc & Hmc & Hi & Hd). unfold at_round.
    rewrite !Z.add_0_r, !Z.div_small, !Z.mod_small by lia. rewrite !Z.add_0_r, !Z.div_small in Hjn, Hjk by lia.
    destruct (f_idle_sound _ (memory s) u n 0 Hi Hn ltac:(lia)) as (f1 & -> & _ & _ & Jt). injection Jt as ->.
    destruct (ms_idle_sound _ k 0 Hk ltac:(lia)) as (m1 & -> & It & _). by injection It as ->.
  - rewrite Nat2Z.inj_succ, <- Z.add_1_r in *.
    assert ((fe_count s + Z.of_nat j) / mr <= (fe_count s + (Z.of_nat j + 1)) / mr) by (apply Z.div_le_mono; lia).
    assert ((mem_count s + Z.of_nat j) / fr <= (mem_count s + (Z.of_nat j + 1)) / fr) by (apply Z.div_le_mono; lia).
    destruct IH as (t & Ht & Ha); [lia..|].
    destruct (idle_round (Z.of_nat j) t ltac:(lia) Hjn Hjk Ha) as (t' & Hr & Ha'). exists t'. split; [by econstructor|done].
Qed.

Lemma jump_rounds (j : Z) :
  0 <= j -> (fe_count s + j) / mr <= n -> (mem_count s + j) / fr <= k ->
  exists t, jump fr mr j s = Ok t /\ rounds (Z.to_nat j) s t.
Proof.
  intros Hj Hjn Hjk. destruct Hok as (Hfc & Hmc & Hi & Hd).
  destruct (idle_rounds (Z.to_nat j)) as (t & Ht & E1 & E2 & E3 & E4); rewrite ?Z2Nat.id by lia; [done..|].
  rewrite Z2Nat.id in E1, E2, E3, E4 by lia. exists t. split; [|done]. unfold jump. destruct t as [fc mc f m]. simpl in *. subst fc mc.
  rewrite E3.
  simpl. destruct (Z.ltb_spec 0 ((mem_count s + j) / fr)) as [|Hle]; [by rewrite E4|].
  assert ((mem_count s + j) / fr = 0) as E0 by (apply Z.le_antisymm; [done|apply Z.div_pos; lia]). rewrite E0 in E4.
  destruct (ms_idle_sound _ k 0 Hk ltac:(lia)) as (m1 & Em & It & _). simpl in *. congruence.
Qed.
End idle.

(** What skipping [i] idle ticks of period [p] from counter [c] spans at most. *)
Lemma span_ticks (p c i j : Z) :
  0 < p -> 0 <= c < p -> 0 < i -> j <= wrap_u 64 (p - c + i * p - 1) -> (c + j) / p <= i.
Proof.
  intros Hp Hc Hi Hj. pose proof (wrap_u_le 64 (p - c + i * p - 1) ltac:(nia) ltac:(lia)).
  apply Z.lt_succ_r, Z.div_lt_upper_bound; nia.
Qed.

Lemma elide_rounds (s : Sim F M) :
  sim_ok s -> exists j t, elide fr mr s = Ok t /\ rounds j s t.
Proof.
  intros Hok. pose proof Hok as (Hfc & Hmc & Hi & Hd).
  assert (forall e, e = Ok s -> exists j t, e = Ok t /\ rounds j s t) as Hstay
    by (intros e ->; exists O, s; split; [done|constructor]).
  unfold elide. destruct (ms_idle_total (memory s)) as (k & Hk & _). rewrite Hk. simpl.
  destruct (Z.ltb_spec 0 k) as [Hk0|]; [|by apply Hstay].
  destruct (f_finished_total _ Hi) as [fin Hfin]. rewrite Hfin. simpl. destruct fin; [by apply Hstay|].
  set (jm := wrap_u 64 (fr - _ + _ - 1)). destruct (Z.ltb_spec 0 (wrap_u 64 (fe_count s + jm) / mr)); [|by apply Hstay].
  set (u := Z.min _ MAX_JUMP). destruct (f_idle_total _ u Hi) as [n Hn]. rewrite Hn. simpl.
  destruct (Z.ltb_spec 0 n) as [Hn0|]; [|by apply Hstay].
  destruct (Z.leb_spec 2 (Z.min (wrap_u 64 (mr - fe_count s + n * mr - 1)) jm)) as [Hj|]; [|by apply Hstay].
  assert ((mem_count s + Z.min (wrap_u 64 (mr - fe_count s + n * mr - 1)) jm) / fr <= Z.min k MAX_JUMP) as Hjm.
  { apply span_ticks; [done..|unfold MAX_JUMP; lia|]. unfold jm. lia. }
  destruct (jump_rounds s u n k Hok Hn Hk Hfin (Z.min (wrap_u 64 (mr - fe_count s + n * mr - 1)) jm)) as (t & Ht & Hr);
    [lia|apply span_ticks; lia|lia|eauto].
Qed.

(** ** The two loops *)
Lemma rounds_ok (j : nat) (s t : Sim F M) : sim_ok s -> rounds j s t -> sim_ok t.
Proof. intros Hs Hj. induction Hj as [|j s s1 s2 _ IH Hr]; [done|]. exact (sim_round_ok _ _ (IH Hs) Hr). Qed.

Lemma sim_loop_more (e : bool) (a b : nat) (s r : Sim F M) :
  sim_loop fr mr e a s = Ok r -> (a <= b)%nat -> sim_loop fr mr e b s = Ok r.
Proof.
  revert b s. induction a as [|a IH]; intros b s Ha Hb; [done|]. destruct b as [|b]; [lia|]. simpl in *.
  apply bind_Ok in Ha as ([[] s1] & Hr & Ha); rewrite Hr; simpl; [done|].
  apply bind_Ok in Ha as (s2 & He & Ha). rewrite He. simpl. apply IH; [done|lia].
Qed.

Lemma rounds_plain (j : nat) (s t : Sim F M) (n : nat) :
  rounds j s t -> sim_loop fr mr false (j + n) s = sim_loop fr mr false n t.
Proof.
  intros Hr. revert n. induction Hr as [|j s s1 s2 _ IH Hr]; intros n; [done|].
  replace (S j + n)%nat with (j + S n)%nat by lia. rewrite IH. simpl. by rewrite Hr.
Qed.

Lemma rounds_unfinished (j : nat) (s t r : Sim F M) (n : nat) :
  rounds j s t -> sim_loop fr mr false n s = Ok r ->
  exists n', (n = j + n')%nat /\ sim_loop fr mr false n' t = Ok r.
Proof.
  intros Hr Hn. destruct (decide (j <= n)%nat) as [Hle|Hgt].
  - exists (n - j)%nat. split; [lia|]. rewrite <- (rounds_plain j s t (n - j) Hr). by replace (j + (n - j))%nat with n by lia.
  - exfalso. revert n Hn Hgt. induction Hr as [|j s s1 s2 Hs1 IH Hr]; intros n Hn Hgt; [lia|].
    destruct (decide (n = j)) as [->|]; [|apply (IH n); [done|lia]].
    rewrite <- (Nat.add_0_r j), (rounds_plain j s s1 0 Hs1) in Hn. done.
Qed.

Lemma plain_of_elided (n : nat) (s r : Sim F M) :
  sim_ok s -> sim_loop fr mr true n s = Ok r -> exists n', sim_loop fr mr false n' s = Ok r.
Proof.
  revert s. induction n as [|n IH]; intros s Hok H; [done|]. simpl in H.
  apply bind_Ok in H as ([fin s1] & Hr & H). destruct fin.
  - exists 1%nat. simpl. by rewrite Hr.
  - pose proof (sim_round_ok s s1 Hok Hr) as Hok1. destruct (elide_rounds s1 Hok1) as (j & t & He & Hj).
    rewrite He in H. simpl in H. apply IH in H as (n' & Hn'); [|by eapply rounds_ok].
    exists (S (j + n')). simpl. rewrite Hr. simpl. by rewrite (rounds_plain j s1 t).
Qed.

Lemma elided_of_plain (n : nat) (s r : Sim F M) :
  sim_ok s -> sim_loop fr mr false n s = Ok r -> sim_loop fr mr true n s = Ok r.
Proof.
  revert s. induction (lt_wf n) as [n _ IH]. intros s Hok H. destruct n as [|n]; [done|]. simpl in *.
  apply bind_Ok in H as ([fin s1] & Hr & H). rewrite Hr. simpl. destruct fin; [done|].
  pose proof (sim_round_ok s s1 Hok Hr) as Hok1. destruct (elide_rounds s1 Hok1) as (j & t & He & Hj).
  rewrite He. simpl. simpl in H. destruct (rounds_unfinished j s1 t r n Hj H) as (n' & -> & Hn').
  apply (sim_loop_more true n'); [|lia]. apply IH; [lia|by eapply rounds_ok|done].
Qed.
End sim.

(** C36: skipping idle stretches does not change a simulation.  For every
    frontend and memory system that keep the elision contract and all positive
    clock ratios, the loop with elision ends in exactly the state in which the
    loop that executes every tick ends, in no more rounds; and one ends if and
    only if the other does. *)
Theorem run_simulation_elision_exact {F M : Type} `{HM : IMemorySystem M} `{HC : Callbacks M} `{HF : IFrontEnd F M}
  `{LM : !MemoryElision M} `{LF : !FrontEndElision F M} (fe_ratio mem_ratio : Z) (f : F) (m : M) (r : Sim F M) :
  f_inv f -> drained m ->
  (forall n, run_simulation fe_ratio mem_ratio false n f m = Ok r -> run_simulation fe_ratio mem_ratio true n f m = Ok r) /\
  (forall n, run_simulation fe_ratio mem_ratio true n f m = Ok r ->
     exists n', run_simulation fe_ratio mem_ratio false n' f m = Ok r).
Proof.
  intros Hf Hm. unfold run_simulation.
  destruct (Z.leb_spec fe_ratio 0), (Z.leb_spec mem_ratio 0); simpl; try (split; by intros).
  assert (sim_ok fe_ratio mem_ratio (mkSim (mem_ratio - 1) (fe_ratio - 1) f m)) as Hok by (split_and!; simpl; [lia..|done|done]).
  split; intros n; [by apply elided_of_plain|by apply plain_of_elided].
Qed.
