(* ===== verification/Batch.v ===== *)
(** * Batch replay

    [base/batch_simulation.cpp]: [run_batch] replays a list of timed requests on a
    memory system without a frontend.  The closure of a request is the index of
    its input entry; wall-clock measurements are left out. *)

From Stdlib Require Import ZArith Lia.
From S2P Require Import Prelude Base Latency Elision Simulation.

Local Open Scope Z_scope.

Record BatchRequest := mkBatchRequest { br_address : Addr_t; br_type : Z; br_arrival : Clk_t; br_source : Z }.

Record BatchOptions := mkBatchOptions {
  bo_drain_writes : bool;
  bo_record_requests : bool;
  bo_skip_idle_retries : bool;
  bo_tick_only : bool;
  bo_warmup_requests : Z
}.

Record BatchResult := mkBatchResult {
  bs_admitted : list Clk_t;
  bs_departed : list Clk_t;
  bs_elapsed : Clk_t;
  bs_completed_reads : Z;
  bs_completed_writes : Z;
  bs_measured_reads : Z;
  bs_measured_writes : Z;
  bs_measured_reads_completed : Z;
  bs_measured_writes_completed : Z;
  bs_warmup_reads_outstanding : Z;
  bs_warmup_writes_outstanding : Z;
  bs_measurement_start_cycle : Clk_t;
  bs_final_admission_cycle : Clk_t;
  bs_admission_wait_sum : Z;
  bs_admission_wait_max : Clk_t;
  bs_admission_digest : Z;
  bs_completion_digest : Z
}.

(** The hash of an identity and an event time, in 64-bit unsigned arithmetic. *)
Definition digest (v : Z) : Z :=
  let v := Z.lxor v (Z.shiftr v 30) in
  let v := wrap_u 64 (v * 0xbf58476d1ce4e5b9) in
  let v := Z.lxor v (Z.shiftr v 27) in
  let v := wrap_u 64 (v * 0x94d049bb133111eb) in
  Z.lxor v (Z.shiftr v 31).
Definition digest_at (i : Z) (clk : Clk_t) : Z := digest (Z.lxor i (wrap_u 64 (Z.shiftl (wrap_u 64 clk) 24))).

(** The checks on the input: known types, non-negative ordered arrivals. *)
Fixpoint valid_input (previous : Clk_t) (input : list BatchRequest) : bool :=
  match input with
  | [] => true
  | e :: input =>
      negb ((br_address e <? 0) || (br_arrival e <? 0) || (br_arrival e <? previous) || (br_source e <? -1) ||
            (negb (br_type e =? Read) && negb (br_type e =? Write))) &&
      valid_input (br_arrival e) input
  end.

Section batch.
Context {M : Type} `{IMemorySystem M} `{Callbacks M}.
Context (input : list BatchRequest) (options : BatchOptions).

Record Batch := mkBatch {
  b_memory : M;
  b_clock : Clk_t;
  b_next_frontend_id : Z;
  b_expected_reads : Z;
  b_expected_writes : Z;
  b_result : BatchResult
}.

Definition set_memory (b : Batch) (m : M) : Batch :=
  mkBatch m (b_clock b) (b_next_frontend_id b) (b_expected_reads b) (b_expected_writes b) (b_result b).
Definition set_clock (b : Batch) (c : Clk_t) : Batch :=
  mkBatch (b_memory b) c (b_next_frontend_id b) (b_expected_reads b) (b_expected_writes b) (b_result b).
Definition set_result (b : Batch) (r : BatchResult) : Batch :=
  mkBatch (b_memory b) (b_clock b) (b_next_frontend_id b) (b_expected_reads b) (b_expected_writes b) r.

(** The completion callback of entry [i] at clock [clk]: a read records the
    departure of the request, a write the clock at which it was acknowledged. *)
Definition on_complete (clk : Clk_t) (r : BatchResult) (done : Request) : result BatchResult :=
  match callback done with
  | None => Ok r
  | Some i =>
      entry ← vget input i;
      let is_read := br_type entry =? Read in
      let t := if is_read then depart done else clk in
      departed ← (if bo_record_requests options then vset (bs_departed r) i t else Ok (bs_departed r));
      let one (b : bool) := if b then 1 else 0 in
      let measured := bo_warmup_requests options <=? i in
      Ok (mkBatchResult (bs_admitted r) departed (bs_elapsed r)
            (bs_completed_reads r + one is_read) (bs_completed_writes r + one (negb is_read))
            (bs_measured_reads r) (bs_measured_writes r)
            (bs_measured_reads_completed r + one (is_read && measured))
            (bs_measured_writes_completed r + one (negb is_read && measured))
            (bs_warmup_reads_outstanding r) (bs_warmup_writes_outstanding r) (bs_measurement_start_cycle r)
            (bs_final_admission_cycle r) (bs_admission_wait_sum r) (bs_admission_wait_max r)
            (bs_admission_digest r) (wrap_u 64 (bs_completion_digest r + digest_at i t)))
  end.

(** Run the callbacks the memory has fired. *)
Definition deliver (b : Batch) : result Batch :=
  let '(done, m) := take_callbacks (b_memory b) in
  r ← foldM (on_complete (b_clock b)) (b_result b) done;
  Ok (set_result (set_memory b m) r).

Definition b_tick (b : Batch) : result Batch :=
  if b_clock b =? clk_max then Err (Throw "batch clock exhausted")
  else
    m ← ms_tick (b_memory b);
    deliver (set_memory (set_clock b (b_clock b + 1)) m).

Definition b_jump (b : Batch) (ticks : Clk_t) : result Batch :=
  if (ticks <? 0) || (clk_max - b_clock b <? ticks) then Err (Throw "invalid batch idle interval")
  else
    m ← ms_fast_forward (b_memory b) ticks;
    Ok (set_clock (set_memory b m) (b_clock b + ticks)).

Definition batch_idle (tick_only : bool) (b : Batch) : result Clk_t :=
  if tick_only then Ok 0 else ms_idle_ticks (b_memory b).

(** [advance]: every round uses up at least one of [ticks]. *)
Fixpoint advance (fuel : nat) (b : Batch) (ticks : Clk_t) : result Batch :=
  if ticks <=? 0 then Ok b
  else
    match fuel with
    | O => Err OutOfFuel
    | S fuel =>
        idle ← batch_idle (bo_tick_only options) b;
        if idle <? 0 then Err (Throw "memory returned a negative idle interval")
        else
          let skipped := Z.min idle (ticks - 1) in
          if 0 <? skipped then b ← b_jump b skipped; advance fuel b (ticks - skipped)
          else b ← b_tick b; advance fuel b (ticks - 1)
    end.

(** [while (!memory.send(request))]. *)
Fixpoint send_retry (fuel : nat) (b : Batch) (req : Request) : result Batch :=
  match fuel with
  | O => Err OutOfFuel
  | S fuel =>
      q ← ms_send (b_memory b) req;
      let '(is_success, req, m) := q in
      b ← deliver (set_memory b m);
      if (is_success : bool) then Ok b
      else
        idle ← (if bo_skip_idle_retries options && negb (bo_tick_only options)
                then ms_idle_ticks (b_memory b) else Ok 0);
        if (idle <? 0) || (idle =? clk_max)
        then Err (Throw "rejected batch request has no finite next service event")
        else
          b ← (if 0 <? idle then b_jump b idle else Ok b);
          b ← b_tick b;
          send_retry fuel b req
  end.

(** [boundary]: the end of the warm-up. *)
Definition boundary (b : Batch) : Batch :=
  let r := b_result b in
  set_result b (mkBatchResult (bs_admitted r) (bs_departed r) (bs_elapsed r) (bs_completed_reads r)
    (bs_completed_writes r) (bs_measured_reads r) (bs_measured_writes r) (bs_measured_reads_completed r)
    (bs_measured_writes_completed r) (b_expected_reads b - bs_completed_reads r)
    (b_expected_writes b - bs_completed_writes r) (b_clock b) (bs_final_admission_cycle r)
    (bs_admission_wait_sum r) (bs_admission_wait_max r) (bs_admission_digest r) (bs_completion_digest r)).

(** The counters updated when entry [i] has been admitted. *)
Definition record_admission (b : Batch) (i : Z) (entry : BatchRequest) : result Batch :=
  let r := b_result b in
  admitted ← (if bo_record_requests options then vset (bs_admitted r) i (b_clock b) else Ok (bs_admitted r));
  let measured := bo_warmup_requests options <=? i in
  let is_read := br_type entry =? Read in
  let wait := b_clock b - br_arrival entry in
  let one (b : bool) := if b then 1 else 0 in
  Ok (set_result b (mkBatchResult admitted (bs_departed r) (bs_elapsed r) (bs_completed_reads r)
    (bs_completed_writes r) (bs_measured_reads r + one (measured && is_read))
    (bs_measured_writes r + one (measured && negb is_read)) (bs_measured_reads_completed r)
    (bs_measured_writes_completed r) (bs_warmup_reads_outstanding r) (bs_warmup_writes_outstanding r)
    (bs_measurement_start_cycle r) (bs_final_admission_cycle r)
    (if measured then wrap_u 64 (bs_admission_wait_sum r + wrap_u 64 wait) else bs_admission_wait_sum r)
    (if measured then Z.max (bs_admission_wait_max r) wait else bs_admission_wait_max r)
    (wrap_u 64 (bs_admission_digest r + digest_at i (b_clock b))) (bs_completion_digest r))).

(** The request of entry [i]; writes carry a callback only when they are drained. *)
Definition make_request (b : Batch) (tx_bytes i : Z) (entry : BatchRequest) : Request :=
  let cb := if (br_type entry =? Read) || bo_drain_writes options then Some i else None in
  mkRequest (br_address entry) (-1) [] (br_type entry) (br_source entry) (-1) (b_next_frontend_id b) 0 (-1) tx_bytes
    (-1) (-1) false (-1) (-1) cb.

(** One round of the loop over the input. *)
Definition replay (fuel : nat) (tx_bytes : Z) (b : Batch) (ie : nat * BatchRequest) : result Batch :=
  let '(n, entry) := ie in
  let i := Z.of_nat n in
  let b := if i =? bo_warmup_requests options then boundary b else b in
  b ← (if b_clock b <? br_arrival entry
       then advance (Z.to_nat (br_arrival entry - b_clock b)) b (br_arrival entry - b_clock b) else Ok b);
  let request := make_request b tx_bytes i entry in
  let is_read := br_type entry =? Read in
  let b := mkBatch (b_memory b) (b_clock b) (b_next_frontend_id b + 1)
             (b_expected_reads b + (if is_read then 1 else 0))
             (b_expected_writes b + (if negb is_read && bo_drain_writes options then 1 else 0)) (b_result b) in
  b ← send_retry fuel b request;
  record_admission b i entry.

Definition outstanding (b : Batch) : bool :=
  (bs_completed_reads (b_result b) <? b_expected_reads b) || (bs_completed_writes (b_result b) <? b_expected_writes b).

(** The loop that waits for outstanding callbacks. *)
Fixpoint drain (fuel : nat) (b : Batch) : result Batch :=
  if outstanding b then
    match fuel with
    | O => Err OutOfFuel
    | S fuel =>
        idle ← batch_idle (bo_tick_only options) b;
        if idle =? clk_max then Err (Throw "batch has outstanding callbacks but memory reports no events")
        else if idle <? 0 then Err (Throw "memory returned a negative idle interval")
        else
          b ← (if 0 <? idle then b_jump b idle else Ok b);
          b ← b_tick b;
          drain fuel b
    end
  else Ok b.

Definition set_final (b : Batch) (final_admission elapsed : Clk_t) : Batch :=
  let r := b_result b in
  set_result b (mkBatchResult (bs_admitted r) (bs_departed r) elapsed (bs_completed_reads r) (bs_completed_writes r)
    (bs_measured_reads r) (bs_measured_writes r) (bs_measured_reads_completed r) (bs_measured_writes_completed r)
    (bs_warmup_reads_outstanding r) (bs_warmup_writes_outstanding r) (bs_measurement_start_cycle r) final_admission
    (bs_admission_wait_sum r) (bs_admission_wait_max r) (bs_admission_digest r) (bs_completion_digest r)).

Definition run_batch (fuel : nat) (m : M) (clock next_frontend_id : Z) : result Batch :=
  let n := Z.of_nat (length input) in
  if n <? bo_warmup_requests options then Err (Throw "batch warmup exceeds input population")
  else if negb (valid_input (-1) input)
  then Err (Throw "batch requests need valid types/addresses and ordered arrivals")
  else if (clock <? 0) || (next_frontend_id <? 0) || (2 ^ 63 - 1 - next_frontend_id <? n)
  then Err (Throw "invalid or exhausted batch state")
  else
    let recorded := if bo_record_requests options then replicate (length input) (-1) else [] in
    let b := mkBatch m clock next_frontend_id 0 0
               (mkBatchResult recorded recorded 0 0 0 0 0 0 0 0 0 0 0 0 0 0 0) in
    b ← foldM (replay fuel (ms_get_tx_bytes m)) b (imap pair input);
    let b := if bo_warmup_requests options =? n then boundary b else b in
    let final_admission := b_clock b in
    b ← drain fuel (set_final b final_admission 0);
    Ok (set_final b final_admission (b_clock b)).
End batch.
Arguments Batch : clear implicits.
