(* ===== verification/BatchProps.v ===== *)
(** * The elided batch replay computes what the tick-by-tick replay computes *)

From Stdlib Require Import ZArith Lia.
From S2P Require Import Prelude Base Latency Elision Simulation Batch.

Local Open Scope Z_scope.

Definition with_tick_only (o : BatchOptions) (t : bool) : BatchOptions :=
  mkBatchOptions (bo_drain_writes o) (bo_record_requests o) (bo_skip_idle_retries o) t (bo_warmup_requests o).

Section batch.
Context {M : Type} `{HM : IMemorySystem M} `{HC : Callbacks M} `{LM : !MemoryElision M}.
Context (input : list BatchRequest) (o : BatchOptions) (Hskip : bo_skip_idle_retries o = false).

Local Abbreviation plain := (with_tick_only o true).
Local Abbreviation fast := (with_tick_only o false).
Local Abbreviation tick := (b_tick input plain).

Definition batch_ok (b : Batch M) : Prop := drained (b_memory b) /\ 0 <= b_clock b <= clk_max.

Lemma deliver_ok (b b' : Batch M) : deliver input plain b = Ok b' -> drained (b_memory b') /\ b_clock b' = b_clock b.
Proof.
  unfold deliver. destruct (take_callbacks (b_memory b)) as [l m] eqn:E. intros (r & _ & [= <-])%bind_Ok.
  split; [exact (ms_take_drained _ _ _ E)|done].
Qed.

Lemma tick_ok (b b' : Batch M) : batch_ok b -> tick b = Ok b' -> batch_ok b' /\ b_clock b' = b_clock b + 1.
Proof.
  intros [Hd Hc]. unfold b_tick. destruct (Z.eqb_spec (b_clock b) clk_max); [done|].
  intros (m & _ & Hb)%bind_Ok. apply deliver_ok in Hb as [Hd' Ec]. cbn in Ec. split; [split; [done|lia]|done].
Qed.

Lemma ticks_ok (k : nat) (b b' : Batch M) :
  batch_ok b -> iterM k tick b = Ok b' -> batch_ok b' /\ b_clock b' = b_clock b + Z.of_nat k.
Proof.
  revert b. induction k as [|k IH]; intros b Hb H; simpl in H; [injection H as <-; split; [done|lia]|].
  apply bind_Ok in H as (b1 & H1 & H). destruct (tick_ok b b1 Hb H1) as [Hb1 E1].
  destruct (IH b1 Hb1 H) as [Hb' E']. split; [done|lia].
Qed.

(** Idle ticks and the jump over them. *)
Lemma idle_ticks_jump (b : Batch M) (n k : Z) :
  batch_ok b -> ms_idle_ticks (b_memory b) = Ok n -> 0 <= k <= n -> b_clock b + k <= clk_max ->
  exists b', b_jump b k = Ok b' /\ iterM (Z.to_nat k) tick b = Ok b' /\ batch_ok b' /\ b_result b' = b_result b /\
    outstanding b' = outstanding b /\ b_clock b' = b_clock b + k.
Proof.
  intros [Hd Hc] Hn Hk Hmax.
  destruct (ms_idle_sound _ n k Hn Hk) as (m' & Hff & _ & _).
  exists (set_clock (set_memory b m') (b_clock b + k)). unfold b_jump.
  replace ((k <? 0) || (clk_max - b_clock b <? k)) with false by lia. rewrite Hff. split; [done|].
  assert (forall i : nat, Z.of_nat i <= k -> exists mi, ms_fast_forward (b_memory b) (Z.of_nat i) = Ok mi /\ drained mi /\
    iterM i ms_tick (b_memory b) = Ok mi /\
    iterM i tick b = Ok (set_clock (set_memory b mi) (b_clock b + Z.of_nat i))) as Hall.
  { induction i as [|i IH]; intros Hi.
    - destruct (ms_idle_sound _ n 0 Hn ltac:(lia)) as (m0 & Hf0 & It0 & Hd0). exists m0. simpl in It0. injection It0 as <-.
      split_and!; try done. rewrite Z.add_0_r. by destruct b.
    - destruct (ms_idle_sound _ n (Z.of_nat (S i)) Hn ltac:(lia)) as (m1 & Hf1 & It1 & Hd1). rewrite Nat2Z.id in It1.
      destruct IH as (m0 & Hf0 & Hd0 & It0 & Ib0); [lia|]. exists m1. split_and!; [done|by apply Hd1|done|].
      pose proof (iterM_last _ _ _ _ _ It0 It1) as Ht. replace (S i) with (i + 1)%nat at 1 by lia.
      rewrite iterM_add, Ib0. simpl. unfold b_tick, deliver. simpl.
      destruct (Z.eqb_spec (b_clock b + Z.of_nat i) clk_max); [lia|]. rewrite Ht. simpl.
      rewrite (Hd1 Hd). simpl. unfold set_result, set_memory, set_clock. simpl. do 2 f_equal. lia. }
  destruct (Hall (Z.to_nat k) ltac:(lia)) as (mk & Hfk & Hdk & _ & Itk). rewrite Z2Nat.id in Hfk, Itk by lia.
  rewrite Hff in Hfk. injection Hfk as <-. split_and!; try done. split; simpl; [done|lia].
Qed.

(** ** Advancing to an arrival *)
Lemma advance_plain (fuel : nat) (b : Batch M) (t : Z) :
  0 <= t <= Z.of_nat fuel -> advance input plain fuel b t = iterM (Z.to_nat t) tick b.
Proof.
  revert b t. induction fuel as [|fuel IH]; intros b t Ht; simpl.
  - assert (t = 0) as -> by lia. done.
  - destruct (Z.leb_spec t 0) as [Hle|Hgt]; [by assert (t = 0) as -> by lia|].
    replace (0 <? Z.min 0 (t - 1)) with false by lia. replace (Z.to_nat t) with (S (Z.to_nat (t - 1))) by lia. simpl.
    destruct (tick b); simpl; [|done]. apply IH. lia.
Qed.

Lemma advance_fast (fuel : nat) (b b' : Batch M) (t : Z) :
  batch_ok b -> 0 <= t <= Z.of_nat fuel ->
  advance input fast fuel b t = Ok b' <-> iterM (Z.to_nat t) tick b = Ok b'.
Proof.
  revert b t. induction fuel as [|fuel IH]; intros b t Hb Ht; simpl.
  - assert (t = 0) as -> by lia. done.
  - destruct (Z.leb_spec t 0) as [Hle|Hgt]; [by assert (t = 0) as -> by lia|].
    destruct (ms_idle_total (b_memory b)) as (n & Hn & Hn0). rewrite Hn. simpl.
    destruct (Z.ltb_spec n 0); [lia|]. destruct (Z.ltb_spec 0 (Z.min n (t - 1))) as [Hs|Hs].
    + set (k := Z.min n (t - 1)) in *. replace (Z.to_nat t) with (Z.to_nat k + Z.to_nat (t - k))%nat by lia.
      rewrite iterM_add. destruct (Z.le_gt_cases (b_clock b + k) clk_max) as [Hm|Hm].
      * destruct (idle_ticks_jump b n k Hb Hn ltac:(lia) Hm) as (b1 & -> & -> & Hb1 & _). simpl. apply IH; [done|lia].
      * unfold b_jump. replace ((k <? 0) || (clk_max - b_clock b <? k)) with true by lia. simpl. split; [done|].
        intros (b1 & H1 & _)%bind_Ok. destruct (ticks_ok _ _ _ Hb H1) as [[_ Hc] E]. lia.
    + replace (Z.to_nat t) with (S (Z.to_nat (t - 1))) by lia. simpl. change (b_tick input fast b) with (tick b).
      destruct (tick b) as [b1|e] eqn:Et; simpl; [|done]. apply IH; [|lia]. apply (tick_ok b b1 Hb Et).
Qed.

(** ** Retries *)
Lemma send_retry_same (fuel : nat) (b : Batch M) (r : Request) :
  send_retry input fast fuel b r = send_retry input plain fuel b r.
Proof.
  revert b r. induction fuel as [|fuel IH]; intros b r; [done|]. cbn [send_retry bo_skip_idle_retries with_tick_only].
  rewrite Hskip. cbn [andb]. destruct (ms_send (b_memory b) r) as [[[[] r1] m1]|]; cbn; [done| |done].
  change (deliver input fast) with (@deliver M HC input plain).
  destruct (deliver input plain (set_memory b m1)) as [b1|]; [|done]. cbn.
  change (b_tick input fast) with (@b_tick M HM HC input plain). destruct (tick b1); [|done]. apply IH.
Qed.

Lemma send_retry_ok (fuel : nat) (b b' : Batch M) (r : Request) :
  batch_ok b -> send_retry input plain fuel b r = Ok b' -> batch_ok b'.
Proof.
  revert b r. induction fuel as [|fuel IH]; intros b r Hb H; [done|].
  cbn [send_retry bo_skip_idle_retries with_tick_only] in H. rewrite Hskip in H. cbn [andb] in H.
  apply bind_Ok in H as ([[ok r1] m1] & _ & H). apply bind_Ok in H as (b1 & Hd & H).
  assert (batch_ok b1) as Hb1.
  { apply deliver_ok in Hd as [Hd Ec]. split; [done|]. rewrite Ec. apply Hb. }
  destruct ok; [by injection H as <-|]. cbn in H. apply bind_Ok in H as (b2 & Ht & H).
  apply (IH b2 r1); [apply (tick_ok b1 b2 Hb1 Ht)|done].
Qed.

Lemma send_retry_more (a c : nat) (b b' : Batch M) (r : Request) :
  (a <= c)%nat -> send_retry input plain a b r = Ok b' -> send_retry input plain c b r = Ok b'.
Proof.
  revert c b r. induction a as [|a IH]; intros c b r Hle H; [done|]. destruct c as [|c]; [lia|].
  cbn [send_retry bo_skip_idle_retries with_tick_only] in *. rewrite Hskip in *. cbn [andb] in *.
  apply bind_Ok in H as ([[ok r1] m1] & -> & H). apply bind_Ok in H as (b1 & Hd & H). cbn. rewrite Hd. cbn.
  destruct ok; [done|]. cbn in H. apply bind_Ok in H as (b2 & Ht & H). rewrite Ht. cbn. apply IH; [lia|done].
Qed.

(** ** Waiting for the callbacks *)
Lemma drain_iter (i f : nat) (b b' : Batch M) :
  (forall j bj, (j < i)%nat -> iterM j tick b = Ok bj -> outstanding bj = true) -> iterM i tick b = Ok b' ->
  drain input plain (i + f) b = drain input plain f b'.
Proof.
  revert b. induction i as [|i IH]; intros b Hout Hit; simpl in *; [by injection Hit as <-|].
  rewrite (Hout O b ltac:(lia) eq_refl). cbn. apply bind_Ok in Hit as (b1 & Hb1 & Hit).
  rewrite Hb1. cbn. apply IH; [|done]. intros j bj Hj Hbj. apply (Hout (S j)); [lia|]. simpl. by rewrite Hb1.
Qed.

Lemma drain_idle (b : Batch M) (n i : Z) :
  batch_ok b -> outstanding b = true -> ms_idle_ticks (b_memory b) = Ok n -> 0 <= i <= n -> b_clock b + i <= clk_max ->
  exists b', b_jump b i = Ok b' /\ iterM (Z.to_nat i) tick b = Ok b' /\ batch_ok b' /\ outstanding b' = true /\
    b_clock b' = b_clock b + i /\ forall f, drain input plain (Z.to_nat i + f) b = drain input plain f b'.
Proof.
  intros Hb Hout Hn Hi Hmax.
  destruct (idle_ticks_jump b n i Hb Hn Hi Hmax) as (b' & Hj & Hit & Hb' & _ & Ho & Hc).
  exists b'. split_and!; [done..|by rewrite Ho|done|]. intros f. apply drain_iter; [|done].
  intros j bj Hjn Hbj. destruct (idle_ticks_jump b n (Z.of_nat j) Hb Hn ltac:(lia) ltac:(lia)) as (b2 & _ & Hit2 & _ & _ & Ho2 & _).
  rewrite Nat2Z.id in Hit2. rewrite Hbj in Hit2. injection Hit2 as <-. by rewrite Ho2.
Qed.

(** A successful tick-by-tick drain passes through the end of an idle stretch. *)
Lemma drain_through (fuel : nat) (b r : Batch M) (n : Z) :
  batch_ok b -> outstanding b = true -> ms_idle_ticks (b_memory b) = Ok n -> 0 <= n ->
  drain input plain fuel b = Ok r ->
  n <> clk_max /\ exists b1 b2 f, b_jump b n = Ok b1 /\ iterM (Z.to_nat n) tick b = Ok b1 /\ batch_ok b1 /\
    (f < fuel)%nat /\ tick b1 = Ok b2 /\ drain input plain f b2 = Ok r.
Proof.
  intros Hb Hout Hn Hn0 Hr. pose proof Hb as [_ Hc].
  assert (forall i, 0 <= i <= n -> b_clock b + i <= clk_max -> exists b1 b2 f, b_jump b i = Ok b1 /\
    iterM (Z.to_nat i) tick b = Ok b1 /\ batch_ok b1 /\ b_clock b1 = b_clock b + i /\
    (f < fuel)%nat /\ tick b1 = Ok b2 /\ drain input plain f b2 = Ok r) as Hgo.
  { intros i Hi Hm. destruct (drain_idle b n i Hb Hout Hn Hi Hm) as (b1 & Hj & Hit & Hb1 & Ho1 & Hc1 & Heq).
    destruct (decide (Z.to_nat i <= fuel)%nat) as [Hle|Hgt].
    - replace fuel with (Z.to_nat i + (fuel - Z.to_nat i))%nat in Hr by lia. rewrite Heq in Hr.
      destruct (fuel - Z.to_nat i)%nat as [|f] eqn:Ef; cbn in Hr; rewrite Ho1 in Hr; [done|]. cbn in Hr.
      apply bind_Ok in Hr as (b2 & Ht & Hr). exists b1, b2, f. split_and!; try done. lia.
    - destruct (drain_idle b n (Z.of_nat fuel) Hb Hout Hn ltac:(lia) ltac:(lia)) as (b2 & _ & _ & _ & Ho2 & _ & Heq2).
      specialize (Heq2 O). rewrite Nat2Z.id, Nat.add_0_r, Hr in Heq2. cbn in Heq2. by rewrite Ho2 in Heq2. }
  assert (b_clock b + n < clk_max) as Hlt.
  { destruct (Z.lt_ge_cases (b_clock b + n) clk_max) as [|Hge]; [done|]. exfalso.
    destruct (Hgo (clk_max - b_clock b) ltac:(lia) ltac:(lia)) as (b1 & b2 & f & _ & _ & _ & Ec & _ & Ht & _).
    unfold b_tick in Ht. rewrite Ec in Ht. by replace (b_clock b + (clk_max - b_clock b) =? clk_max) with true in Ht by lia. }
  split; [lia|]. destruct (Hgo n ltac:(lia) ltac:(lia)) as (b1 & b2 & f & ? & ? & ? & _ & ? & ? & ?). by exists b1, b2, f.
Qed.

Lemma drain_more (p : BatchOptions) (a c : nat) (b r : Batch M) :
  (a <= c)%nat -> drain input p a b = Ok r -> drain input p c b = Ok r.
Proof.
  revert c b. induction a as [|a IH]; intros c b Hle H; destruct c as [|c]; try done; try lia; cbn in *.
  - by destruct (outstanding b).
  - destruct (outstanding b); [|done]. apply bind_Ok in H as (i & -> & H). cbn. destruct (i =? clk_max); [done|].
    destruct (i <? 0); [done|]. apply bind_Ok in H as (b1 & -> & H). cbn. apply bind_Ok in H as (b2 & Ht & H).
    rewrite Ht. cbn. apply IH; [lia|done].
Qed.

Lemma drain_fast_of_plain (fuel : nat) (b r : Batch M) :
  batch_ok b -> drain input plain fuel b = Ok r -> drain input fast fuel b = Ok r.
Proof.
  revert b. induction (lt_wf fuel) as [fuel _ IH]. intros b Hb H.
  destruct (outstanding b) eqn:Ho; [|by destruct fuel; cbn in *; rewrite Ho in *].
  destruct fuel as [|fuel]; [by cbn in H; rewrite Ho in H|].
  destruct (ms_idle_total (b_memory b)) as (n & Hn & Hn0).
  destruct (drain_through _ b r n Hb Ho Hn Hn0 H) as (Hne & b1 & b2 & f & Hj & Hit & Hb1 & Hf & Ht & Hr).
  cbn. rewrite Ho, Hn. cbn. destruct (Z.eqb_spec n clk_max); [done|]. destruct (Z.ltb_spec n 0); [lia|].
  assert ((if 0 <? n then b_jump b n else Ok b) = Ok b1) as ->.
  { destruct (Z.ltb_spec 0 n); [done|]. assert (n = 0) as -> by lia. simpl in Hit. by injection Hit as ->. }
  cbn. change (b_tick input fast b1) with (tick b1). rewrite Ht. cbn.
  apply (drain_more _ f); [lia|]. apply IH; [lia| |done]. apply (tick_ok b1 b2 Hb1 Ht).
Qed.

Lemma drain_plain_of_fast (fuel : nat) (b r : Batch M) :
  batch_ok b -> drain input fast fuel b = Ok r -> exists fuel', drain input plain fuel' b = Ok r.
Proof.
  revert b. induction fuel as [|fuel IH]; intros b Hb H; cbn in H;
    (destruct (outstanding b) eqn:Ho; [|exists O; cbn; by rewrite Ho]); [done|].
  destruct (ms_idle_total (b_memory b)) as (n & Hn & Hn0). rewrite Hn in H. cbn in H.
  destruct (Z.eqb_spec n clk_max); [done|]. destruct (Z.ltb_spec n 0); [done|].
  apply bind_Ok in H as (b1 & Hj & H). apply bind_Ok in H as (b2 & Ht & H).
  change (b_tick input fast b1) with (tick b1) in Ht.
  assert (b_clock b + n <= clk_max) as Hm.
  { destruct (Z.ltb_spec 0 n); [|destruct Hb; lia]. unfold b_jump in Hj.
    destruct (Z.ltb_spec (clk_max - b_clock b) n); [by rewrite orb_true_r in Hj|lia]. }
  destruct (drain_idle b n n Hb Ho Hn ltac:(lia) Hm) as (b1' & Hj' & Hit & Hb1 & Ho1 & _ & Heq).
  assert (b1' = b1) as ->.
  { destruct (Z.ltb_spec 0 n); [congruence|]. assert (n = 0) as E by lia. rewrite E in Hit. simpl in Hit. congruence. }
  destruct (IH b2 (proj1 (tick_ok b1 b2 Hb1 Ht)) H) as (f & Hf). exists (Z.to_nat n + S f)%nat. rewrite Heq. cbn.
  rewrite Ho1. cbn. by rewrite Ht.
Qed.

(** ** The whole replay *)
Lemma replay_fast (n : nat) (tx : Z) (b b' : Batch M) (ie : nat * BatchRequest) :
  batch_ok b -> replay input fast n tx b ie = Ok b' <-> replay input plain n tx b ie = Ok b'.
Proof.
  intros Hb. destruct ie as [i e]. unfold replay. cbn [bo_warmup_requests with_tick_only].
  set (b0 := if Z.of_nat i =? bo_warmup_requests o then boundary b else b). assert (batch_ok b0) as Hb0 by (unfold b0; by destruct (_ =? _)).
  assert (forall b1, (if b_clock b0 <? br_arrival e
     then advance input fast (Z.to_nat (br_arrival e - b_clock b0)) b0 (br_arrival e - b_clock b0) else Ok b0) = Ok b1 <->
    (if b_clock b0 <? br_arrival e
     then advance input plain (Z.to_nat (br_arrival e - b_clock b0)) b0 (br_arrival e - b_clock b0) else Ok b0) = Ok b1) as Hadv.
  { intros b1. destruct (Z.ltb_spec (b_clock b0) (br_arrival e)); [|done].
    rewrite advance_fast, advance_plain by (try done; lia). done. }
  rewrite !bind_Ok. setoid_rewrite Hadv. setoid_rewrite send_retry_same. done.
Qed.

Lemma replay_ok (n : nat) (tx : Z) (b b' : Batch M) (ie : nat * BatchRequest) :
  batch_ok b -> replay input plain n tx b ie = Ok b' -> batch_ok b'.
Proof.
  intros Hb H. destruct ie as [i e]. unfold replay in H. cbn [bo_warmup_requests with_tick_only] in H.
  set (b0 := if Z.of_nat i =? bo_warmup_requests o then boundary b else b) in H. assert (batch_ok b0) as Hb0 by (unfold b0; by destruct (_ =? _)).
  apply bind_Ok in H as (b1 & Ha & H). apply bind_Ok in H as (b2 & Hs & H). unfold record_admission in H.
  apply bind_Ok in H as (l & _ & [= <-]). apply (send_retry_ok _ _ _ _) in Hs; [done|].
  destruct (Z.ltb_spec (b_clock b0) (br_arrival e)); [|by injection Ha as <-].
  rewrite advance_plain in Ha by lia. apply (ticks_ok _ _ _ Hb0 Ha).
Qed.

Lemma replay_more (a c : nat) (tx : Z) (b b' : Batch M) (ie : nat * BatchRequest) :
  (a <= c)%nat -> replay input plain a tx b ie = Ok b' -> replay input plain c tx b ie = Ok b'.
Proof.
  intros Hle H. destruct ie as [i e]. unfold replay in *. apply bind_Ok in H as (b1 & -> & H).
  apply bind_Ok in H as (b2 & Hs & H). cbn [mbind result_bind]. by rewrite (send_retry_more a c _ _ _ Hle Hs).
Qed.

Lemma replay_all (n : nat) (tx : Z) (l : list (nat * BatchRequest)) (b b' : Batch M) :
  batch_ok b ->
  (foldM (replay input fast n tx) b l = Ok b' <-> foldM (replay input plain n tx) b l = Ok b') /\
  (foldM (replay input plain n tx) b l = Ok b' -> batch_ok b').
Proof.
  revert b. induction l as [|ie l IH]; intros b Hb; cbn [foldM]; [split; [done|by intros [= <-]]|].
  rewrite !bind_Ok. split.
  - split; intros (b1 & H1 & H2); exists b1.
    + apply (replay_fast n tx b b1 ie Hb) in H1. split; [done|]. by apply (IH b1 (replay_ok _ _ _ _ _ Hb H1)).
    + split; [by apply replay_fast|]. by apply (IH b1 (replay_ok _ _ _ _ _ Hb H1)).
  - intros (b1 & H1 & H2). exact (proj2 (IH b1 (replay_ok _ _ _ _ _ Hb H1)) H2).
Qed.

Lemma replay_all_more (a c : nat) (tx : Z) (l : list (nat * BatchRequest)) (b b' : Batch M) :
  (a <= c)%nat -> foldM (replay input plain a tx) b l = Ok b' -> foldM (replay input plain c tx) b l = Ok b'.
Proof.
  intros Hle. revert b. induction l as [|ie l IH]; intros b; cbn [foldM]; [done|].
  intros (b1 & H1 & H2)%bind_Ok. apply bind_Ok. exists b1. split; [by eapply replay_more|by apply IH].
Qed.
End batch.

(** C37: with [skip_idle_retries] off, a batch replay that skips idle stretches
    computes exactly what the reference replay that executes every tick computes (the
    same admission and departure times, counters, digests, final clock and memory
    system), for every memory system that keeps the elision contract and starts
    without callbacks to deliver; one succeeds if and only if the other does.  With
    [skip_idle_retries] on, the retries of a rejected request that are skipped are not
    counted by the memory system; that mode is not covered. *)
Theorem batch_elision_exact {M : Type} `{HM : IMemorySystem M} `{HC : Callbacks M} `{LM : !MemoryElision M}
  (input : list BatchRequest) (o : BatchOptions) (m : M) (clock next_id : Z) (r : Batch M) :
  bo_skip_idle_retries o = false -> drained m -> clock <= clk_max ->
  (forall n, run_batch input (with_tick_only o true) n m clock next_id = Ok r ->
             run_batch input (with_tick_only o false) n m clock next_id = Ok r) /\
  (forall n, run_batch input (with_tick_only o false) n m clock next_id = Ok r ->
     exists n', run_batch input (with_tick_only o true) n' m clock next_id = Ok r).
Proof.
  intros Hskip Hm Hclk. unfold run_batch. cbn [bo_warmup_requests bo_record_requests with_tick_only].
  destruct (_ <? bo_warmup_requests o); [split; by intros|]. destruct (negb _); [split; by intros|].
  destruct (Z.ltb_spec clock 0); [split; by intros|]. destruct (_ || _ || _); [split; by intros|].
  set (b0 := mkBatch m _ _ _ _ _). assert (batch_ok b0) as Hb0 by (split; [done|cbn; lia]).
  assert (forall b, batch_ok b -> batch_ok (set_final (if bo_warmup_requests o =? Z.of_nat (length input) then boundary b else b)
    (b_clock (if bo_warmup_requests o =? Z.of_nat (length input) then boundary b else b)) 0)) as Hend
    by (intros b Hb; by destruct (_ =? _)).
  split; intros n (b1 & H1 & H2)%bind_Ok; apply bind_Ok in H2 as (b2 & H2 & H3).
  - destruct (replay_all input o Hskip n (ms_get_tx_bytes m) (imap pair input) b0 b1 Hb0) as [Heq Hok].
    apply bind_Ok. exists b1. split; [by apply Heq|]. apply bind_Ok. exists b2. split; [|done].
    apply drain_fast_of_plain; [by apply Hend, Hok|done].
  - destruct (replay_all input o Hskip n (ms_get_tx_bytes m) (imap pair input) b0 b1 Hb0) as [Heq Hok].
    apply Heq in H1. specialize (Hok H1).
    destruct (drain_plain_of_fast input o n _ _ (Hend b1 Hok) H2) as (n' & Hn').
    exists (n + n')%nat. apply bind_Ok. exists b1. split; [apply (replay_all_more input o Hskip n); [lia|done]|].
    apply bind_Ok. exists b2. split; [|done]. apply (drain_more _ _ n'); [lia|done].
Qed.
