(* ===== verification/LLC.v ===== *)
(** * The last-level cache of the SimpleO3 frontend

    [frontend/impl/processor/simpleO3/llc.h] and [llc.cpp].  The clock is a
    reference to the frontend's and is passed to the operations.  A cache line has
    an identity, so that an iterator held by an MSHR is the set and the identity of
    the line it points to; dereferencing an erased line is undefined.

    Closures: the completion callback of the frontend, the accounting callback of
    an internal writeback, and the counting callback shared by the transactions of
    a split line, which holds its remaining count in a cell. *)

From Stdlib Require Import ZArith Lia.
From S2P Require Import Prelude Base.

Local Open Scope Z_scope.

Inductive LogicalPath := Hit | MSHRMerge | MissOwner.

#[export] Instance LogicalPath_eq_dec : EqDecision LogicalPath.
Proof. solve_decision. Defined.

Abbreviation LogicalKey := (Z * Z * Z)%type (only parsing).

Record LogicalRequest := mkLogical {
  lr_req : Request;
  lr_arrive : Clk_t;
  lr_original_type : Z;
  lr_admission_ordinal : Z;
  lr_path : LogicalPath
}.

Record Line := mkLine {
  ln_id : Z;
  ln_addr : Addr_t;
  ln_tag : Addr_t;
  ln_dirty : bool;
  ln_ready : bool
}.

(** An MSHR: the address of the miss and an iterator. *)
Record MSHREntry := mkMSHR { mshr_addr : Addr_t; mshr_set : Z; mshr_line : Z }.

(** Closure identities. *)
Definition cb_frontend : Z := 0.
Definition cb_writeback : Z := 1.

Record LLC := mkLLC {
  l_latency : Z;
  l_linesize_bytes : Z;
  l_associativity : Z;
  l_num_mshrs : Z;
  l_index_mask : Z;
  l_index_offset : Z;
  l_tag_offset : Z;
  l_cache_sets : gmap Z (list Line);
  l_next_line : Z;
  l_mshrs : list MSHREntry;
  l_receive_requests : gmap Z (list LogicalRequest);
  l_live_logical_ids : gset LogicalKey;
  l_miss_list : list (Clk_t * Request);
  l_hit_list : list (Clk_t * LogicalRequest);
  l_next_ordinal : Z;
  l_splits : gmap Z (Z * Request);
  l_next_split : Z;
  l_stats : gmap string Z
}.

Definition lstat (l : LLC) (name : string) : Z := default 0 (l_stats l !! name).

(** Member updates. *)
Definition set_lines (l : LLC) (sets : gmap Z (list Line)) (next : Z) : LLC :=
  mkLLC (l_latency l) (l_linesize_bytes l) (l_associativity l) (l_num_mshrs l) (l_index_mask l) (l_index_offset l)
    (l_tag_offset l) sets next (l_mshrs l) (l_receive_requests l) (l_live_logical_ids l) (l_miss_list l)
    (l_hit_list l) (l_next_ordinal l) (l_splits l) (l_next_split l) (l_stats l).
Definition set_mshrs (l : LLC) (ms : list MSHREntry) (rr : gmap Z (list LogicalRequest)) : LLC :=
  mkLLC (l_latency l) (l_linesize_bytes l) (l_associativity l) (l_num_mshrs l) (l_index_mask l) (l_index_offset l)
    (l_tag_offset l) (l_cache_sets l) (l_next_line l) ms rr (l_live_logical_ids l) (l_miss_list l)
    (l_hit_list l) (l_next_ordinal l) (l_splits l) (l_next_split l) (l_stats l).
Definition set_live (l : LLC) (ids : gset LogicalKey) (ordinal : Z) (stats : gmap string Z) : LLC :=
  mkLLC (l_latency l) (l_linesize_bytes l) (l_associativity l) (l_num_mshrs l) (l_index_mask l) (l_index_offset l)
    (l_tag_offset l) (l_cache_sets l) (l_next_line l) (l_mshrs l) (l_receive_requests l) ids (l_miss_list l)
    (l_hit_list l) ordinal (l_splits l) (l_next_split l) stats.
Definition set_miss (l : LLC) (q : list (Clk_t * Request)) : LLC :=
  mkLLC (l_latency l) (l_linesize_bytes l) (l_associativity l) (l_num_mshrs l) (l_index_mask l) (l_index_offset l)
    (l_tag_offset l) (l_cache_sets l) (l_next_line l) (l_mshrs l) (l_receive_requests l) (l_live_logical_ids l) q
    (l_hit_list l) (l_next_ordinal l) (l_splits l) (l_next_split l) (l_stats l).
Definition set_hit (l : LLC) (q : list (Clk_t * LogicalRequest)) : LLC :=
  mkLLC (l_latency l) (l_linesize_bytes l) (l_associativity l) (l_num_mshrs l) (l_index_mask l) (l_index_offset l)
    (l_tag_offset l) (l_cache_sets l) (l_next_line l) (l_mshrs l) (l_receive_requests l) (l_live_logical_ids l)
    (l_miss_list l) q (l_next_ordinal l) (l_splits l) (l_next_split l) (l_stats l).
Definition set_splits (l : LLC) (sp : gmap Z (Z * Request)) (next : Z) : LLC :=
  mkLLC (l_latency l) (l_linesize_bytes l) (l_associativity l) (l_num_mshrs l) (l_index_mask l) (l_index_offset l)
    (l_tag_offset l) (l_cache_sets l) (l_next_line l) (l_mshrs l) (l_receive_requests l) (l_live_logical_ids l)
    (l_miss_list l) (l_hit_list l) (l_next_ordinal l) sp next (l_stats l).
Definition lbump (l : LLC) (name : string) (n : Z) : LLC :=
  set_live l (l_live_logical_ids l) (l_next_ordinal l) (<[name := lstat l name + n]> (l_stats l)).

(** ** Construction *)
Definition LLC_init (latency size_bytes linesize_bytes associativity num_mshrs : Z) : result LLC :=
  if latency <? 0 then Err (Throw "SimpleO3 LLC latency must be non-negative")
  else if (size_bytes <=? 0) || (linesize_bytes <=? 0) || (associativity <=? 0)
  then Err (Throw "SimpleO3 LLC size, line size, and associativity must be positive")
  else if not_pow2 linesize_bytes then Err (Throw "SimpleO3 LLC line size must be a power of two")
  else
    let bytes_per_set := linesize_bytes * associativity in
    if (size_bytes <? bytes_per_set) || negb (Z.rem size_bytes bytes_per_set =? 0)
    then Err (Throw "SimpleO3 LLC capacity must contain an integral number of complete sets")
    else
      let num_sets := Z.quot size_bytes bytes_per_set in
      if not_pow2 num_sets then Err (Throw "SimpleO3 LLC set count must be a power of two")
      else if num_mshrs <=? 0 then Err (Throw "SimpleO3 LLC MSHR count must be positive")
      else
        index_offset ← calc_log2 linesize_bytes;
        index_bits ← calc_log2 num_sets;
        Ok (mkLLC latency linesize_bytes associativity num_mshrs (num_sets - 1) index_offset
              (index_bits + index_offset) ∅ 0 [] ∅ ∅ [] [] 0 ∅ 2 ∅).

Definition get_index (l : LLC) (a : Addr_t) : Z := Z.land (Z.shiftr a (l_index_offset l)) (l_index_mask l).
Definition get_tag (l : LLC) (a : Addr_t) : Addr_t := Z.shiftr a (l_tag_offset l).
Definition align (l : LLC) (a : Addr_t) : Addr_t := Z.land a (Z.lnot (l_linesize_bytes l - 1)).

(** ** Logical requests *)
Definition logical_key (r : Request) : LogicalKey := (source_id r, frontend_id r, frontend_sub_id r).

Definition validate_logical_identity (l : LLC) (r : Request) : result unit :=
  if (source_id r <? 0) || (frontend_id r <? 0) || (frontend_sub_id r <? 0)
  then Err (Throw "SimpleO3 LLC request is missing a valid stable frontend identity")
  else if negb (type_id r =? Read) && negb (type_id r =? Write)
  then Err (Throw "SimpleO3 LLC received an unsupported logical request type")
  else if bool_decide (logical_key r ∈ l_live_logical_ids l)
  then Err (Throw "SimpleO3 LLC received a duplicate live stable frontend identity")
  else Ok ().

Definition path_stat (p : LogicalPath) : string :=
  match p with
  | Hit => "logical_requests_hit"
  | MSHRMerge => "logical_requests_mshr_merge"
  | MissOwner => "logical_requests_miss_owner"
  end.

Definition begin_logical_request (clk : Clk_t) (l : LLC) (r : Request) (original_type : Z) (path : LogicalPath)
  : result (LogicalRequest * LLC) :=
  if bool_decide (logical_key r ∈ l_live_logical_ids l)
  then Err (Throw "SimpleO3 LLC failed to register a unique live frontend identity")
  else
    let live := lstat l "logical_requests_live" + 1 in
    let stats := <["logical_requests_live" := live]> (l_stats l) in
    let stats := <["logical_requests_peak" := Z.max (lstat l "logical_requests_peak") live]> stats in
    let stats := <[path_stat path := lstat l (path_stat path) + 1]> stats in
    Ok (mkLogical r clk original_type (l_next_ordinal l) path,
        set_live l ({[logical_key r]} ∪ l_live_logical_ids l) (l_next_ordinal l + 1) stats).

Definition complete_logical_request (l : LLC) (q : LogicalRequest) (depart : Clk_t) : result LLC :=
  if depart <? lr_arrive q then Err (Throw "SimpleO3 logical request completed before it arrived at the LLC")
  else if negb (bool_decide (logical_key (lr_req q) ∈ l_live_logical_ids l))
  then Err (Throw "SimpleO3 logical request completion has no unique live identity")
  else if lstat l "logical_requests_live" <=? 0 then Err (Throw "SimpleO3 logical live-request count underflow")
  else
    let l := set_live l (l_live_logical_ids l ∖ {[logical_key (lr_req q)]}) (l_next_ordinal l) (l_stats l) in
    Ok (lbump (lbump l "logical_requests_live" (-1)) "logical_requests_completed" 1).

Definition take_receive_requests (l : LLC) (a : Addr_t) : result (list LogicalRequest * LLC) :=
  match l_receive_requests l !! a with
  | None | Some [] => Err (Throw "SimpleO3 LLC completion has no logical request bucket")
  | Some requests => Ok (requests, set_mshrs l (l_mshrs l) (delete a (l_receive_requests l)))
  end.

(** ** Lines and sets *)
Definition get_set (l : LLC) (a : Addr_t) : list Line := default [] (l_cache_sets l !! get_index l a).

(** [find_if]. *)
Definition find_line (p : Line -> bool) (s : list Line) : option Line := snd <$> list_find p s.
Definition find_mshr (p : MSHREntry -> bool) (s : list MSHREntry) : option (nat * MSHREntry) := list_find p s.

Definition erase_line (s : list Line) (id : Z) : list Line := filter (fun x => ln_id x <> id) s.

(** Writing through an iterator. *)
Definition update_line (l : LLC) (set id : Z) (f : Line -> Line) : result LLC :=
  let s := default [] (l_cache_sets l !! set) in
  if bool_decide (id ∈ ln_id <$> s)
  then Ok (set_lines l (<[set := (fun x => if ln_id x =? id then f x else x) <$> s]> (l_cache_sets l)) (l_next_line l))
  else Err Undef.

Definition check_set_hit (l : LLC) (s : list Line) (a : Addr_t) : option Line :=
  match find_line (fun x => ln_tag x =? get_tag l a) s with
  | Some x => if ln_ready x then Some x else None
  | None => None
  end.

Definition check_mshr_hit (l : LLC) (a : Addr_t) : option (nat * MSHREntry) :=
  find_mshr (fun e => align l (mshr_addr e) =? align l a) (l_mshrs l).

(** [enqueue_miss]: one transaction, or one for each part of the line. *)
Definition enqueue_miss (clk : Clk_t) (tx_bytes : Z) (l : LLC) (r : Request) : result LLC :=
  let due := clk + l_latency l in
  if l_linesize_bytes l <=? wrap_u 64 tx_bytes then Ok (set_miss l (l_miss_list l ++ [(due, r)]))
  else if tx_bytes =? 0 then Err Undef
  else
    let n := wrap_s 32 (l_linesize_bytes l / wrap_u 64 tx_bytes) in
    let base := align l r.(addr) in
    let '(cb, l) :=
      match callback r with
      | Some _ => (Some (l_next_split l), set_splits l (<[l_next_split l := (n, r)]> (l_splits l)) (l_next_split l + 1))
      | None => (None, l)
      end in
    let sub i := mkRequest (base + i * tx_bytes) (intra_channel_addr r) (addr_vec r) (type_id r) (source_id r)
                   (ingress_id r) (frontend_id r) i (admission_ordinal r) tx_bytes (command r) (final_command r)
                   (is_stat_updated r) (arrive r) (depart r) cb in
    Ok (set_miss l (l_miss_list l ++ ((fun i => (due, sub i)) <$> seqZ 0 n))).

Definition evict_line (clk : Clk_t) (tx_bytes : Z) (l : LLC) (set : Z) (victim : Line) : result LLC :=
  let l := lbump l "llc_eviction" 1 in
  l ← (if ln_dirty victim then
         let l := lbump (lbump l "internal_writebacks_generated" 1) "internal_writebacks_live" 1 in
         enqueue_miss clk tx_bytes l
           (mkRequest (ln_addr victim) (-1) [] Write (-1) (-1) (-1) 0 (-1) (wrap_s 32 (l_linesize_bytes l)) (-1) (-1)
              false (-1) (-1) (Some cb_writeback))
       else Ok l);
  Ok (set_lines l (<[set := erase_line (default [] (l_cache_sets l !! set)) (ln_id victim)]> (l_cache_sets l))
        (l_next_line l)).

(** [need_eviction]: the assertion on a duplicate tag aborts. *)
Definition need_eviction (l : LLC) (s : list Line) (a : Addr_t) : result bool :=
  match find_line (fun x => get_tag l a =? ln_tag x) s with
  | Some _ => Err (Throw "assert(false)")
  | None => Ok (l_associativity l <=? Z.of_nat (length s))
  end.

(** [allocate_line]: the new line, or [None] when no victim is ready. *)
Definition allocate_line (clk : Clk_t) (tx_bytes : Z) (l : LLC) (a : Addr_t) : result (option Line * LLC) :=
  let set := get_index l a in
  evict ← need_eviction l (get_set l a) a;
  r ← (if (evict : bool) then
         match find_line ln_ready (get_set l a) with
         | None => Ok None
         | Some victim => l ← evict_line clk tx_bytes l set victim; Ok (Some l)
         end
       else Ok (Some l));
  match r with
  | None => Ok (None, l)
  | Some l =>
      let x := mkLine (l_next_line l) a (get_tag l a) false false in
      Ok (Some x, set_lines l (<[set := get_set l a ++ [x]]> (l_cache_sets l)) (l_next_line l + 1))
  end.

(** ** [send] *)
Definition llc_hit (clk : Clk_t) (l : LLC) (r : Request) (x : Line) : result LLC :=
  let set := get_index l (addr r) in
  let x' := mkLine (l_next_line l) (addr r) (get_tag l (addr r)) (ln_dirty x || (type_id r =? Write)) true in
  let l := set_lines l (<[set := erase_line (get_set l (addr r) ++ [x']) (ln_id x)]> (l_cache_sets l))
             (l_next_line l + 1) in
  q ← begin_logical_request clk l r (type_id r) Hit;
  Ok (set_hit q.2 (l_hit_list q.2 ++ [(clk + l_latency l, q.1)])).

Definition llc_merge (clk : Clk_t) (l : LLC) (r : Request) (original_type : Z) (dirty : bool) (e : MSHREntry)
  : result LLC :=
  match l_receive_requests l !! mshr_addr e with
  | None => Err (Throw "SimpleO3 MSHR has no logical owner bucket")
  | Some bucket =>
      q ← begin_logical_request clk l r original_type MSHRMerge;
      let l := set_mshrs q.2 (l_mshrs q.2) (<[mshr_addr e := bucket ++ [q.1]]> (l_receive_requests q.2)) in
      update_line l (mshr_set e) (mshr_line e)
        (fun x => mkLine (ln_id x) (ln_addr x) (ln_tag x) (dirty || ln_dirty x) (ln_ready x))
  end.

Definition llc_new_miss (clk : Clk_t) (tx_bytes : Z) (l : LLC) (r : Request) (original_type : Z) (dirty : bool)
  : result (Request * LLC) :=
  a ← allocate_line clk tx_bytes l (addr r);
  match a with
  | (None, _) => Err (Throw "Failed to allocate new line when there is available entry.")
  | (Some x, l) =>
      l ← update_line l (get_index l (addr r)) (ln_id x)
            (fun x => mkLine (ln_id x) (ln_addr x) (ln_tag x) dirty (ln_ready x));
      let l := set_mshrs l (l_mshrs l ++ [mkMSHR (addr r) (get_index l (addr r)) (ln_id x)]) (l_receive_requests l) in
      match l_receive_requests l !! addr r with
      | Some _ => Err (Throw "SimpleO3 new miss collided with a live completion bucket")
      | None =>
          q ← begin_logical_request clk l r original_type MissOwner;
          let l := set_mshrs q.2 (l_mshrs q.2) (<[addr r := [q.1]]> (l_receive_requests q.2)) in
          let r := mkRequest (addr r) (intra_channel_addr r) (addr_vec r) (type_id r) (source_id r) (ingress_id r)
                     (frontend_id r) (frontend_sub_id r) (admission_ordinal r) (wrap_s 32 (l_linesize_bytes l))
                     (command r) (final_command r) (is_stat_updated r) (arrive r) (depart r) (callback r) in
          l ← enqueue_miss clk tx_bytes l r;
          Ok (r, l)
      end
  end.

Definition set_type (r : Request) (t : Z) : Request :=
  mkRequest (addr r) (intra_channel_addr r) (addr_vec r) t (source_id r) (ingress_id r)
    (frontend_id r) (frontend_sub_id r) (admission_ordinal r) (size_bytes r) (command r) (final_command r)
    (is_stat_updated r) (arrive r) (depart r) (callback r).

Definition LLC_send (clk : Clk_t) (tx_bytes : Z) (l : LLC) (r : Request) : result (bool * Request * LLC) :=
  _ ← validate_logical_identity l r;
  let is_read := type_id r =? Read in
  let l := lbump l (if is_read then "llc_read_access" else "llc_write_access") 1 in
  match check_set_hit l (get_set l (addr r)) (addr r) with
  | Some x => l ← llc_hit clk l r x; Ok (true, r, l)
  | None =>
      let l := lbump l (if is_read then "llc_read_misses" else "llc_write_misses") 1 in
      let original_type := type_id r in
      let dirty := type_id r =? Write in
      let r := set_type r Read in
      match check_mshr_hit l (addr r) with
      | Some (_, e) => l ← llc_merge clk l r original_type dirty e; Ok (true, r, l)
      | None =>
          if Z.of_nat (length (l_mshrs l)) =? l_num_mshrs l then Ok (false, r, lbump l "llc_mshr_unavailable" 1)
          else if negb ((Z.of_nat (length (get_set l (addr r))) <? l_associativity l) ||
                        existsb ln_ready (get_set l (addr r)))
          then Ok (false, r, l)
          else q ← llc_new_miss clk tx_bytes l r original_type dirty; Ok (true, q.1, q.2)
      end
  end.

(** ** Completions *)
Definition LLC_receive (l : LLC) (r : Request) : result LLC :=
  match find_mshr (fun e => align l (mshr_addr e) =? align l (addr r)) (l_mshrs l) with
  | None => Err (Throw "SimpleO3 memory completion has no matching live MSHR")
  | Some (i, e) =>
      l ← update_line l (mshr_set e) (mshr_line e)
            (fun x => mkLine (ln_id x) (ln_addr x) (ln_tag x) (ln_dirty x) true);
      Ok (set_mshrs l (delete i (l_mshrs l)) (l_receive_requests l))
  end.

(** The callback of an internal writeback. *)
Definition writeback_done (l : LLC) : result LLC :=
  if lstat l "internal_writebacks_live" <=? 0
  then Err (Throw "SimpleO3 LLC internal-writeback completion underflow")
  else Ok (lbump (lbump l "internal_writebacks_live" (-1)) "internal_writebacks_completed" 1).

(** ** Quiescence and the next event *)
Definition is_quiescent (l : LLC) : result bool :=
  let live := lstat l "internal_writebacks_live" in
  let generated := lstat l "internal_writebacks_generated" in
  let completed := lstat l "internal_writebacks_completed" in
  if negb (lstat l "logical_requests_live" =? Z.of_nat (size (l_live_logical_ids l)))
  then Err (Throw "SimpleO3 LLC live-request accounting is inconsistent")
  else if bool_decide (l_receive_requests l = ∅) && bool_decide (l_hit_list l = []) &&
          negb (bool_decide (l_live_logical_ids l = ∅))
  then Err (Throw "SimpleO3 LLC lost a live logical request")
  else if (live <? 0) || (generated <? completed) || negb (live + completed =? generated)
  then Err (Throw "SimpleO3 LLC internal-writeback accounting is inconsistent")
  else Ok (bool_decide (l_miss_list l = []) && bool_decide (l_hit_list l = []) && bool_decide (l_mshrs l = []) &&
           bool_decide (l_receive_requests l = ∅) && bool_decide (l_live_logical_ids l = ∅) && (live =? 0)).

Definition next_due {A} (clk : Clk_t) (q : list (Clk_t * A)) (next : Clk_t) : option Clk_t :=
  foldl (fun acc e => n ← acc; if e.1 <=? clk then None else Some (Z.min n e.1)) (Some next) q.

(** 0 when an entry is due already. *)
Definition next_event (clk : Clk_t) (l : LLC) : Clk_t :=
  default 0 (n ← next_due clk (l_miss_list l) (2 ^ 63 - 1); next_due clk (l_hit_list l) n).
