(* ===== verification/LLCProps.v ===== *)
(** * Invariants of the last-level cache

    Lines and MSHRs: sets stay within the associativity with unique tags, a line
    that is not ready has an MSHR and an MSHR has such a line.  Accounting: the live
    identities are exactly those of the hits in flight and of the requests waiting
    for a line.  Each operation of the cache keeps both, and succeeds. *)

From Stdlib Require Import ZArith Lia.
From S2P Require Import Prelude Base LLC.

Local Open Scope Z_scope.

(** ** Addresses *)
Definition l_index_bits (l : LLC) : Z := l_tag_offset l - l_index_offset l.

Record llc_cfg (l : LLC) : Prop := {
  cfg_off : 0 <= l_index_offset l;
  cfg_bits : 0 <= l_index_bits l;
  cfg_linesize : l_linesize_bytes l = 2 ^ l_index_offset l;
  cfg_mask : l_index_mask l = 2 ^ l_index_bits l - 1;
  cfg_fits : l_linesize_bytes l < 2 ^ 31;
  cfg_assoc : 0 < l_associativity l;
  cfg_mshrs : 0 < l_num_mshrs l;
  cfg_latency : 0 <= l_latency l
}.

(** The number of the memory block of an address. *)
Definition block (l : LLC) (a : Addr_t) : Z := a / 2 ^ l_index_offset l.

Section addresses.
Context (l : LLC) (Hc : llc_cfg l).

Lemma get_index_block (a : Addr_t) : get_index l a = block l a mod 2 ^ l_index_bits l.
Proof.
  unfold get_index, block. rewrite (cfg_mask l Hc). pose proof (cfg_off l Hc). pose proof (cfg_bits l Hc).
  replace (2 ^ l_index_bits l - 1) with (Z.ones (l_index_bits l)) by (rewrite Z.ones_equiv; lia).
  by rewrite Z.land_ones, Z.shiftr_div_pow2 by lia.
Qed.

Lemma get_tag_block (a : Addr_t) : get_tag l a = block l a / 2 ^ l_index_bits l.
Proof.
  unfold get_tag, block, l_index_bits. pose proof (cfg_off l Hc). pose proof (cfg_bits l Hc) as Hb. unfold l_index_bits in Hb.
  rewrite Z.shiftr_div_pow2, Z.div_div, <- Z.pow_add_r by (try apply Z.pow_pos_nonneg; lia). do 2 f_equal. lia.
Qed.

Lemma align_block (a : Addr_t) : align l a = block l a * 2 ^ l_index_offset l.
Proof.
  unfold align, block. rewrite (cfg_linesize l Hc). pose proof (cfg_off l Hc).
  replace (2 ^ l_index_offset l - 1) with (Z.ones (l_index_offset l)) by (rewrite Z.ones_equiv; lia).
  rewrite <- Z.ldiff_land, Z.ldiff_ones_r, Z.shiftl_mul_pow2, Z.shiftr_div_pow2 by lia. done.
Qed.

Lemma align_eq (a b : Addr_t) : align l a = align l b <-> block l a = block l b.
Proof.
  rewrite !align_block. assert (0 < 2 ^ l_index_offset l) by (apply Z.pow_pos_nonneg; [lia|apply Hc]).
  split; [apply Z.mul_reg_r; lia|congruence].
Qed.

(** A set and a tag name one block. *)
Lemma same_block (a b : Addr_t) :
  block l a = block l b <-> get_index l a = get_index l b /\ get_tag l a = get_tag l b.
Proof.
  rewrite !get_index_block, !get_tag_block. split; [by intros ->|]. intros [Hi Ht].
  assert (0 < 2 ^ l_index_bits l) by (apply Z.pow_pos_nonneg; [lia|apply Hc]).
  rewrite (Z.div_mod (block l a) (2 ^ l_index_bits l)), (Z.div_mod (block l b) (2 ^ l_index_bits l)) by lia. by rewrite Hi, Ht.
Qed.
End addresses.

(** ** Lines and MSHRs *)
Definition lset (l : LLC) (i : Z) : list Line := default [] (l_cache_sets l !! i).

Definition line_ok (l : LLC) (next i : Z) (x : Line) : Prop :=
  get_tag l (ln_addr x) = ln_tag x /\ get_index l (ln_addr x) = i /\ ln_id x < next.

(** The line an MSHR points to. *)
Definition fills (l : LLC) (e : MSHREntry) (x : Line) : Prop :=
  ln_id x = mshr_line e /\ ln_ready x = false /\ ln_tag x = get_tag l (mshr_addr e).

Record lines_wf (l : LLC) : Prop := {
  lw_len i : Z.of_nat (length (lset l i)) <= l_associativity l;
  lw_tags i : NoDup (ln_tag <$> lset l i);
  lw_ids i : NoDup (ln_id <$> lset l i);
  lw_line i x : x ∈ lset l i -> line_ok l (l_next_line l) i x;
  lw_mlen : Z.of_nat (length (l_mshrs l)) <= l_num_mshrs l;
  lw_mdup : NoDup (align l ∘ mshr_addr <$> l_mshrs l);
  lw_mshr e : e ∈ l_mshrs l ->
    mshr_set e = get_index l (mshr_addr e) /\ exists x, x ∈ lset l (mshr_set e) /\ fills l e x;
  lw_unready i x : x ∈ lset l i -> ln_ready x = false ->
    exists e, e ∈ l_mshrs l /\ mshr_set e = i /\ mshr_line e = ln_id x
}.

(** Replacing one set and the MSHRs. *)
Definition put_set (l : LLC) (i : Z) (s : list Line) (next : Z) (ms : list MSHREntry) : LLC :=
  set_mshrs (set_lines l (<[i := s]> (l_cache_sets l)) next) ms (l_receive_requests l).

Lemma lset_put (l : LLC) (i j : Z) (s : list Line) (next : Z) (ms : list MSHREntry) :
  lset (put_set l i s next ms) j = if decide (j = i) then s else lset l j.
Proof.
  unfold lset, put_set. simpl. destruct (decide (j = i)) as [->|]; [by rewrite lookup_insert_eq|].
  by rewrite lookup_insert_ne.
Qed.

Lemma put_set_wf (l : LLC) (i : Z) (s : list Line) (next : Z) (ms : list MSHREntry) :
  lines_wf l -> l_next_line l <= next ->
  Z.of_nat (length s) <= l_associativity l -> NoDup (ln_tag <$> s) -> NoDup (ln_id <$> s) ->
  (forall x, x ∈ s -> line_ok l next i x) ->
  Z.of_nat (length ms) <= l_num_mshrs l -> NoDup (align l ∘ mshr_addr <$> ms) ->
  (forall e, e ∈ ms -> mshr_set e <> i -> e ∈ l_mshrs l) ->
  (forall e, e ∈ ms -> mshr_set e = i -> i = get_index l (mshr_addr e) /\ exists x, x ∈ s /\ fills l e x) ->
  (forall e, e ∈ l_mshrs l -> mshr_set e <> i -> e ∈ ms) ->
  (forall x, x ∈ s -> ln_ready x = false -> exists e, e ∈ ms /\ mshr_set e = i /\ mshr_line e = ln_id x) ->
  lines_wf (put_set l i s next ms).
Proof.
  intros Hw Hn Hlen Htag Hid Hln Hml Hmd Hms Hme Hkeep Hun. split.
  - intros j. rewrite lset_put. case_decide; [done|apply Hw].
  - intros j. rewrite lset_put. case_decide; [done|apply Hw].
  - intros j. rewrite lset_put. case_decide; [done|apply Hw].
  - intros j x. rewrite lset_put. case_decide as E; [subst; apply Hln|]. intros Hx.
    destruct (lw_line l Hw j x Hx) as (? & ? & ?). split_and!; [done..|]. simpl. lia.
  - done.
  - done.
  - intros e He. rewrite lset_put. simpl in He. destruct (decide (mshr_set e = i)) as [E|E].
    + destruct (Hme e He E) as [? ?]. by rewrite E.
    + exact (lw_mshr l Hw e (Hms e He E)).
  - intros j x. rewrite lset_put. case_decide as E; [subst; by apply Hun|]. intros Hx Hr.
    destruct (lw_unready l Hw j x Hx Hr) as (e & He & <- & ?). exists e. split; [|done]. by apply Hkeep.
Qed.

(** Lines of a set with equal identity or equal tag are equal. *)
Lemma fmap_inj_elem {A B} (f : A -> B) (s : list A) (x y : A) :
  NoDup (f <$> s) -> x ∈ s -> y ∈ s -> f x = f y -> x = y.
Proof.
  intros Hd Hx Hy E. induction s as [|z s IH]; [by apply elem_of_nil in Hx|].
  rewrite fmap_cons, NoDup_cons in Hd. destruct Hd as [Hz Hd].
  apply elem_of_cons in Hx as [->|Hx]; apply elem_of_cons in Hy as [->|Hy]; [done| | |by apply IH].
  - destruct Hz. apply list_elem_of_fmap. by exists y.
  - destruct Hz. apply list_elem_of_fmap. by exists x.
Qed.

Lemma find_line_some (p : Line -> bool) (s : list Line) (x : Line) :
  find_line p s = Some x -> x ∈ s /\ p x = true.
Proof.
  unfold find_line. intros ([i y] & Hf & ->)%fmap_Some_1. apply list_find_Some in Hf as (Hi & Hp & _).
  split; [by eapply list_elem_of_lookup_2|]. simpl in *. by destruct (p y).
Qed.

Lemma find_line_none (p : Line -> bool) (s : list Line) (x : Line) : find_line p s = None -> x ∈ s -> p x = false.
Proof.
  unfold find_line. intros Hf%fmap_None Hx. apply list_find_None in Hf. rewrite Forall_forall in Hf.
  specialize (Hf x). destruct (p x); [|done]. exfalso. by apply Hf.
Qed.

Lemma find_mshr_some (p : MSHREntry -> bool) (s : list MSHREntry) (i : nat) (e : MSHREntry) :
  find_mshr p s = Some (i, e) -> s !! i = Some e /\ e ∈ s /\ p e = true.
Proof.
  unfold find_mshr. intros (Hi & Hp & _)%list_find_Some.
  split_and!; [done|by eapply list_elem_of_lookup_2|by destruct (p e)].
Qed.

Lemma find_mshr_none (p : MSHREntry -> bool) (s : list MSHREntry) (e : MSHREntry) :
  find_mshr p s = None -> e ∈ s -> p e = false.
Proof.
  unfold find_mshr. intros Hf He. apply list_find_None in Hf. rewrite Forall_forall in Hf.
  specialize (Hf e). destruct (p e); [|done]. exfalso. by apply Hf.
Qed.

(** Erasing a line. *)
Lemma elem_of_erase (s : list Line) (id : Z) (y : Line) : y ∈ erase_line s id <-> ln_id y <> id /\ y ∈ s.
Proof. unfold erase_line. rewrite list_elem_of_filter. done. Qed.

Lemma NoDup_fmap_filter {A B} (f : A -> B) (P : A -> Prop) `{!forall x, Decision (P x)} (s : list A) :
  NoDup (f <$> s) -> NoDup (f <$> filter P s).
Proof.
  induction s as [|x s IH]; [done|]. rewrite fmap_cons, NoDup_cons. intros [Hx Hd]. rewrite filter_cons.
  case_decide; [|by apply IH]. rewrite fmap_cons, NoDup_cons. split; [|by apply IH].
  intros (y & E & Hy)%list_elem_of_fmap. apply list_elem_of_filter in Hy as [_ Hy]. apply Hx, list_elem_of_fmap. by exists y.
Qed.

Lemma erase_shorter (s : list Line) (x : Line) : x ∈ s -> (length (erase_line s (ln_id x)) < length s)%nat.
Proof.
  unfold erase_line. induction s as [|y s IH]; [by intros ?%elem_of_nil|].
  rewrite filter_cons. intros [->|Hx]%elem_of_cons; simpl.
  - rewrite decide_False by (intros E; by apply E). pose proof (length_filter (fun z => ln_id z <> ln_id y) s). lia.
  - specialize (IH Hx). case_decide; simpl; lia.
Qed.

Lemma erase_snoc (s : list Line) (x y : Line) : ln_id y <> ln_id x -> erase_line (s ++ [y]) (ln_id x) = erase_line s (ln_id x) ++ [y].
Proof. intros Hne. unfold erase_line. rewrite filter_app. f_equal. by rewrite filter_cons_True. Qed.

(** Writing to one line. *)
Definition map_line (id : Z) (f : Line -> Line) (s : list Line) : list Line :=
  (fun x => if ln_id x =? id then f x else x) <$> s.

Lemma fmap_map_line {B} (g : Line -> B) (id : Z) (f : Line -> Line) (s : list Line) :
  (forall x, g (f x) = g x) -> g <$> map_line id f s = g <$> s.
Proof.
  intros Hg. unfold map_line. rewrite <- list_fmap_compose. apply list_fmap_ext. intros ? x _. simpl. by destruct (_ =? _).
Qed.

Lemma elem_of_map_line (id : Z) (f : Line -> Line) (s : list Line) (y : Line) :
  y ∈ map_line id f s <-> exists x, x ∈ s /\ y = if ln_id x =? id then f x else x.
Proof. unfold map_line. rewrite list_elem_of_fmap. naive_solver. Qed.

Section ops.
Context (l : LLC) (Hc : llc_cfg l) (Hw : lines_wf l).

(** A hit moves its line to the back under a new identity. *)
Lemma touch_wf (a : Addr_t) (x : Line) (dirty : bool) :
  let i := get_index l a in
  x ∈ lset l i -> ln_ready x = true -> ln_tag x = get_tag l a ->
  lines_wf (put_set l i (erase_line (lset l i ++ [mkLine (l_next_line l) a (get_tag l a) dirty true]) (ln_id x))
    (l_next_line l + 1) (l_mshrs l)).
Proof.
  intros i Hx Hr Ht. set (y := mkLine _ _ _ _ _). pose proof (lw_line l Hw i x Hx) as (_ & _ & Hid).
  rewrite erase_snoc by (simpl; lia).
  assert (forall z, z ∈ erase_line (lset l i) (ln_id x) -> ln_tag z <> get_tag l a) as Hother.
  { intros z [Hz Hzi]%elem_of_erase E. apply Hz. f_equal. apply (fmap_inj_elem ln_tag (lset l i)); [apply Hw|done..|congruence]. }
  apply put_set_wf; try done; try apply Hw; try lia.
  - rewrite length_app. pose proof (erase_shorter _ x Hx). pose proof (lw_len l Hw i). simpl. lia.
  - rewrite fmap_app. apply NoDup_app. split_and!; [apply NoDup_fmap_filter, Hw| |apply NoDup_singleton].
    intros t (z & -> & Hz)%list_elem_of_fmap. simpl. intros E%list_elem_of_singleton. by apply (Hother z).
  - rewrite fmap_app. apply NoDup_app. split_and!; [apply NoDup_fmap_filter, Hw| |apply NoDup_singleton].
    intros t (z & -> & Hz)%list_elem_of_fmap. apply elem_of_erase in Hz as [_ Hz]. simpl. intros E%list_elem_of_singleton.
    pose proof (lw_line l Hw i z Hz) as (_ & _ & ?). lia.
  - intros z [[_ Hz]%elem_of_erase| ->%list_elem_of_singleton]%elem_of_app.
    + destruct (lw_line l Hw i z Hz) as (? & ? & ?). split_and!; [done..|lia].
    + split_and!; simpl; [done..|lia].
  - intros e He E. destruct (lw_mshr l Hw e He) as [Es (z & Hz & Hf)]. rewrite E in Es, Hz. split; [done|].
    exists z. split; [|done]. apply elem_of_app. left. apply elem_of_erase. split; [|done]. intros Ei.
    assert (z = x) as -> by (apply (fmap_inj_elem ln_id (lset l i)); [apply Hw|done..]). destruct Hf as (_ & ? & _). congruence.
  - intros z [[_ Hz]%elem_of_erase| ->%list_elem_of_singleton]%elem_of_app Hzr; [|done]. by apply Hw.
Qed.

(** Writing to a line without touching its identity, address or tag, nor the
    readiness of a line; the MSHRs stay. *)
Lemma write_line_wf (i id : Z) (f : Line -> Line) :
  (forall x, ln_id (f x) = ln_id x /\ ln_addr (f x) = ln_addr x /\ ln_tag (f x) = ln_tag x /\ ln_ready (f x) = ln_ready x) ->
  lines_wf (put_set l i (map_line id f (lset l i)) (l_next_line l) (l_mshrs l)).
Proof.
  intros Hf. apply put_set_wf; try done; try apply Hw; try lia.
  - unfold map_line. rewrite length_fmap. apply Hw.
  - rewrite fmap_map_line by apply Hf. apply Hw.
  - rewrite fmap_map_line by apply Hf. apply Hw.
  - intros y (x & Hx & ->)%elem_of_map_line. destruct (lw_line l Hw i x Hx) as (? & ? & ?).
    destruct (_ =? id); [|done]. destruct (Hf x) as (E1 & E2 & E3 & _). unfold line_ok. by rewrite E1, E2, E3.
  - intros e He E. destruct (lw_mshr l Hw e He) as [Es (z & Hz & H1 & H2 & H3)]. rewrite E in Es, Hz. split; [done|].
    exists (if ln_id z =? id then f z else z). split; [apply elem_of_map_line; by exists z|].
    destruct (_ =? id); [|done]. destruct (Hf z) as (E1 & E2 & E3 & E4). unfold fills. by rewrite E1, E3, E4.
  - intros y (x & Hx & ->)%elem_of_map_line Hr. destruct (Hf x) as (E1 & E2 & E3 & E4).
    destruct (lw_unready l Hw i x Hx) as (e & ? & ? & ?); [destruct (_ =? id); congruence|].
    exists e. split_and!; [done..|]. destruct (_ =? id); congruence.
Qed.

(** Evicting a ready line. *)
Lemma evict_wf (i : Z) (x : Line) :
  x ∈ lset l i -> ln_ready x = true ->
  lines_wf (put_set l i (erase_line (lset l i) (ln_id x)) (l_next_line l) (l_mshrs l)).
Proof.
  intros Hx Hr. apply put_set_wf; try done; try apply Hw; try lia.
  - pose proof (erase_shorter _ x Hx). pose proof (lw_len l Hw i). lia.
  - apply NoDup_fmap_filter, Hw.
  - apply NoDup_fmap_filter, Hw.
  - intros z [_ Hz]%elem_of_erase. by apply Hw.
  - intros e He E. destruct (lw_mshr l Hw e He) as [Es (z & Hz & Hf)]. rewrite E in Es, Hz. split; [done|].
    exists z. split; [|done]. apply elem_of_erase. split; [|done]. intros Ei.
    assert (z = x) as -> by (apply (fmap_inj_elem ln_id (lset l i)); [apply Hw|done..]). destruct Hf as (_ & ? & _). congruence.
  - intros z [_ Hz]%elem_of_erase Hzr. by apply Hw.
Qed.

(** A new line that waits for memory, with its MSHR. *)
Lemma fill_wf (a : Addr_t) (dirty : bool) :
  let i := get_index l a in
  Z.of_nat (length (lset l i)) < l_associativity l -> Z.of_nat (length (l_mshrs l)) < l_num_mshrs l ->
  (forall x, x ∈ lset l i -> ln_tag x <> get_tag l a) ->
  (forall e, e ∈ l_mshrs l -> align l (mshr_addr e) <> align l a) ->
  lines_wf (put_set l i (lset l i ++ [mkLine (l_next_line l) a (get_tag l a) dirty false]) (l_next_line l + 1)
    (l_mshrs l ++ [mkMSHR a i (l_next_line l)])).
Proof.
  intros i Hlen Hm Htag Hal. apply put_set_wf; try done; try lia.
  - rewrite length_app. simpl. lia.
  - rewrite fmap_app. apply NoDup_app. split_and!; [apply Hw| |apply NoDup_singleton].
    intros t (z & -> & Hz)%list_elem_of_fmap. simpl. intros E%list_elem_of_singleton. by apply (Htag z).
  - rewrite fmap_app. apply NoDup_app. split_and!; [apply Hw| |apply NoDup_singleton].
    intros t (z & -> & Hz)%list_elem_of_fmap. simpl. intros E%list_elem_of_singleton.
    pose proof (lw_line l Hw i z Hz) as (_ & _ & ?). lia.
  - intros z [Hz| ->%list_elem_of_singleton]%elem_of_app; [|split_and!; simpl; [done..|lia]].
    destruct (lw_line l Hw i z Hz) as (? & ? & ?). split_and!; [done..|lia].
  - rewrite length_app. simpl. lia.
  - rewrite fmap_app. apply NoDup_app. split_and!; [apply Hw| |apply NoDup_singleton].
    intros t (z & -> & Hz)%list_elem_of_fmap. simpl. intros E%list_elem_of_singleton. by apply (Hal z).
  - intros e [He| ->%list_elem_of_singleton]%elem_of_app E; [done|]. by destruct E.
  - intros e [He| ->%list_elem_of_singleton]%elem_of_app E.
    + destruct (lw_mshr l Hw e He) as [Es (z & Hz & Hf)]. rewrite E in Es, Hz. split; [done|]. exists z. set_solver.
    + split; [done|]. eexists. split; [apply elem_of_app; right; by apply list_elem_of_singleton|done].
  - set_solver.
  - intros z [Hz| ->%list_elem_of_singleton]%elem_of_app Hr.
    + destruct (lw_unready l Hw i z Hz Hr) as (e & ? & ? & ?). exists e. set_solver.
    + eexists. split; [apply elem_of_app; right; by apply list_elem_of_singleton|done].
Qed.

(** The memory returns: the line of an MSHR becomes ready and the MSHR is freed. *)
Lemma return_wf (k : nat) (e : MSHREntry) (f : Line -> Line) :
  l_mshrs l !! k = Some e ->
  (forall x, ln_id (f x) = ln_id x /\ ln_addr (f x) = ln_addr x /\ ln_tag (f x) = ln_tag x /\ ln_ready (f x) = true) ->
  lines_wf (put_set l (mshr_set e) (map_line (mshr_line e) f (lset l (mshr_set e))) (l_next_line l) (delete k (l_mshrs l))).
Proof.
  intros Hk Hf. assert (l_mshrs l ≡ₚ e :: delete k (l_mshrs l)) as Hp by (by apply delete_Permutation).
  pose proof (lw_mdup l Hw) as Hd. rewrite Hp, fmap_cons, NoDup_cons in Hd. destruct Hd as [Hne Hd].
  assert (forall e', e' ∈ delete k (l_mshrs l) -> e' ∈ l_mshrs l) as Hsub by (intros e' He'; rewrite Hp; set_solver).
  destruct (lw_mshr l Hw e ltac:(rewrite Hp; set_solver)) as [Ese (x0 & Hx0 & Hid0 & _ & Ht0)].
  assert (forall e', e' ∈ delete k (l_mshrs l) -> mshr_set e' = mshr_set e -> mshr_line e' <> mshr_line e) as Hdiff.
  { intros e' He' Es El. destruct (lw_mshr l Hw e' (Hsub e' He')) as [Es' (x' & Hx' & Hid' & _ & Ht')].
    rewrite Es in Hx'. assert (x' = x0) as -> by (apply (fmap_inj_elem ln_id (lset l (mshr_set e))); [apply Hw|done..|congruence]).
    apply Hne, list_elem_of_fmap. exists e'. split; [|done]. simpl. apply align_eq; [done|]. apply same_block; [done|].
    split; congruence. }
  apply put_set_wf; try done; try apply Hw; try lia.
  - unfold map_line. rewrite length_fmap. apply Hw.
  - rewrite fmap_map_line by apply Hf. apply Hw.
  - rewrite fmap_map_line by apply Hf. apply Hw.
  - intros y (x & Hx & ->)%elem_of_map_line. destruct (lw_line l Hw _ x Hx) as (? & ? & ?).
    destruct (_ =? _); [|done]. destruct (Hf x) as (E1 & E2 & E3 & _). unfold line_ok. by rewrite E1, E2, E3.
  - rewrite length_delete by (by eexists). pose proof (lw_mlen l Hw). lia.
  - intros e' He' _. by apply Hsub.
  - intros e' He' E. destruct (lw_mshr l Hw e' (Hsub e' He')) as [Es' (z & Hz & H1 & H2 & H3)]. rewrite E in Es', Hz. split; [done|].
    exists z. split; [|done]. apply elem_of_map_line. exists z. split; [done|].
    destruct (Z.eqb_spec (ln_id z) (mshr_line e)) as [Ez|]; [|done]. exfalso. apply (Hdiff e' He' E). congruence.
  - intros e' He' E. rewrite Hp in He'. apply elem_of_cons in He' as [->|?]; [by destruct E|done].
  - intros y (x & Hx & ->)%elem_of_map_line. destruct (Z.eqb_spec (ln_id x) (mshr_line e)) as [Ex|Ex].
    + destruct (Hf x) as (_ & _ & _ & ->). done.
    + intros Hr. destruct (lw_unready l Hw _ x Hx Hr) as (e' & He' & E1 & E2). exists e'. split; [|done].
      rewrite Hp in He'. apply elem_of_cons in He' as [->|?]; [by destruct Ex|done].
Qed.
End ops.

(** ** Accounting *)
Definition lkey (q : LogicalRequest) : LogicalKey := logical_key (lr_req q).
Definition waiting (m : gmap Z (list LogicalRequest)) : list LogicalRequest := map_to_list m ≫= snd.

Lemma waiting_insert (m : gmap Z (list LogicalRequest)) (a : Z) (b : list LogicalRequest) :
  m !! a = None -> waiting (<[a := b]> m) ≡ₚ b ++ waiting m.
Proof. intros Hm. unfold waiting. by rewrite map_to_list_insert. Qed.

Lemma waiting_delete (m : gmap Z (list LogicalRequest)) (a : Z) (b : list LogicalRequest) :
  m !! a = Some b -> waiting m ≡ₚ b ++ waiting (delete a m).
Proof.
  intros Hm. rewrite <- (insert_delete_id m a b) at 1 by done. apply waiting_insert. apply lookup_delete_eq.
Qed.

Lemma waiting_extend (m : gmap Z (list LogicalRequest)) (a : Z) (b : list LogicalRequest) (q : LogicalRequest) :
  m !! a = Some b -> waiting (<[a := b ++ [q]]> m) ≡ₚ q :: waiting m.
Proof.
  intros Hm. rewrite <- insert_delete_eq, waiting_insert, (waiting_delete m a b Hm) by apply lookup_delete_eq.
  rewrite <- app_assoc. simpl. symmetry. apply Permutation_middle.
Qed.

Lemma elem_of_waiting (m : gmap Z (list LogicalRequest)) (q : LogicalRequest) :
  q ∈ waiting m <-> exists a b, m !! a = Some b /\ q ∈ b.
Proof.
  unfold waiting. rewrite list_elem_of_bind. split.
  - intros ([a b] & Hq & Hab%elem_of_map_to_list). by exists a, b.
  - intros (a & b & Hab & Hq). exists (a, b). split; [done|by apply elem_of_map_to_list].
Qed.

(** The requests the cache has accepted and not completed; [extra] are those of a
    line whose completion is under way. *)
Definition in_flight (l : LLC) : list LogicalRequest := (snd <$> l_hit_list l) ++ waiting (l_receive_requests l).

Record acct_wf (clk : Clk_t) (l : LLC) (extra : list LogicalRequest) : Prop := {
  ac_keys : lkey <$> (in_flight l ++ extra) ≡ₚ elements (l_live_logical_ids l);
  ac_live : lstat l "logical_requests_live" = Z.of_nat (size (l_live_logical_ids l));
  ac_wb : 0 <= lstat l "internal_writebacks_live" /\
    lstat l "internal_writebacks_live" + lstat l "internal_writebacks_completed" = lstat l "internal_writebacks_generated";
  ac_nonempty a b : l_receive_requests l !! a = Some b -> b <> [];
  ac_arrive q : q ∈ in_flight l ++ extra -> lr_arrive q <= clk;
  ac_hits q : q ∈ snd <$> l_hit_list l -> lr_path q = Hit;
  ac_waits q : q ∈ waiting (l_receive_requests l) -> lr_path q <> Hit
}.

Lemma lstat_lbump (l : LLC) (a b : string) (n : Z) :
  lstat (lbump l a n) b = if decide (a = b) then lstat l b + n else lstat l b.
Proof.
  unfold lbump, lstat. simpl. case_decide as E; [subst; by rewrite lookup_insert_eq|by rewrite lookup_insert_ne].
Qed.

(** Reading a counter after updates of others. *)
Ltac lstats :=
  rewrite ?lstat_lbump; repeat first [rewrite decide_True by done|rewrite decide_False by done].

(** Counters that no accounting rule mentions. *)
Definition plain_stat (name : string) : Prop :=
  name <> "logical_requests_live" /\ name <> "internal_writebacks_live" /\
  name <> "internal_writebacks_completed" /\ name <> "internal_writebacks_generated".

Lemma lbump_acct (clk : Clk_t) (l : LLC) (extra : list LogicalRequest) (name : string) (n : Z) :
  plain_stat name -> acct_wf clk l extra -> acct_wf clk (lbump l name n) extra.
Proof.
  intros (H1 & H2 & H3 & H4) [A1 A2 A3 A4 A5 A6 A7].
  split; try done; rewrite !lstat_lbump; repeat rewrite decide_False by done; done.
Qed.

(** [begin_logical_request] makes its request live. *)
Lemma begin_ok (clk : Clk_t) (l : LLC) (r : Request) (t : Z) (p : LogicalPath) :
  logical_key r ∉ l_live_logical_ids l ->
  exists q l', begin_logical_request clk l r t p = Ok (q, l') /\ lkey q = logical_key r /\ lr_path q = p /\
    lr_arrive q = clk /\ lr_req q = r /\ lr_original_type q = t /\
    l_live_logical_ids l' = {[logical_key r]} ∪ l_live_logical_ids l /\
    lstat l' "logical_requests_live" = lstat l "logical_requests_live" + 1 /\
    (forall s, s ∈ ["internal_writebacks_live"; "internal_writebacks_completed"; "internal_writebacks_generated"] ->
       lstat l' s = lstat l s) /\
    exists st n, l' = set_live l (l_live_logical_ids l') n st.
Proof.
  intros Hk. unfold begin_logical_request. rewrite bool_decide_eq_false_2 by done. eexists _, _. split; [done|].
  split_and!; try done; [unfold lstat at 1; simpl..|by eexists _, _].
  - by destruct p; rewrite !lookup_insert_ne, lookup_insert_eq by done.
  - intros s Hs. unfold lstat at 1. simpl. do 2 f_equal.
    repeat (apply elem_of_cons in Hs as [->|Hs]; [destruct p; by rewrite !lookup_insert_ne by done|]). by apply elem_of_nil in Hs.
Qed.

(** A new live request joins the hits or the waiting requests. *)
Lemma join_acct (clk : Clk_t) (l l' : LLC) (q : LogicalRequest) :
  acct_wf clk l [] -> lkey q ∉ l_live_logical_ids l -> lr_arrive q <= clk ->
  in_flight l' ≡ₚ q :: in_flight l -> l_live_logical_ids l' = {[lkey q]} ∪ l_live_logical_ids l ->
  lstat l' "logical_requests_live" = lstat l "logical_requests_live" + 1 ->
  (forall s, s ∈ ["internal_writebacks_live"; "internal_writebacks_completed"; "internal_writebacks_generated"] ->
     lstat l' s = lstat l s) ->
  (forall a b, l_receive_requests l' !! a = Some b -> b <> []) ->
  (forall x, x ∈ snd <$> l_hit_list l' -> lr_path x = Hit) ->
  (forall x, x ∈ waiting (l_receive_requests l') -> lr_path x <> Hit) ->
  acct_wf clk l' [].
Proof.
  intros [A1 A2 A3 A4 A5 A6 A7] Hk Ha Hf Hids Hlive Hwb Hb Hh Hwt. rewrite app_nil_r in A1, A5. split; try done.
  - rewrite app_nil_r, Hf, fmap_cons, Hids, elements_union_singleton by done. by rewrite A1.
  - rewrite Hlive, A2, Hids, size_union, size_singleton by set_solver. lia.
  - rewrite !Hwb by set_solver. done.
  - intros x. rewrite app_nil_r, Hf. intros [->|Hx]%elem_of_cons; [done|by apply A5].
Qed.

(** Completing one request. *)
Lemma complete_ok (clk : Clk_t) (l : LLC) (q : LogicalRequest) (extra : list LogicalRequest) :
  acct_wf clk l (q :: extra) ->
  exists l', complete_logical_request l q clk = Ok l' /\ acct_wf clk l' extra /\
    exists st n, l' = set_live l (l_live_logical_ids l') n st.
Proof.
  intros [A1 A2 A3 A4 A5 A6 A7]. unfold complete_logical_request.
  assert (lr_arrive q <= clk) by (apply A5; set_solver).
  assert (lkey q ∈ l_live_logical_ids l) as Hin.
  { apply elem_of_elements. rewrite <- A1. apply list_elem_of_fmap. exists q. set_solver. }
  destruct (Z.ltb_spec clk (lr_arrive q)); [lia|]. rewrite bool_decide_eq_true_2 by done. cbn [negb].
  assert (size (l_live_logical_ids l) <> 0%nat) as Hs by (intros E%size_empty_inv; set_solver).
  rewrite A2. destruct (Z.leb_spec (Z.of_nat (size (l_live_logical_ids l))) 0); [lia|].
  eexists. split; [done|]. split; [|by eexists _, _].
  assert (elements (l_live_logical_ids l) ≡ₚ lkey q :: elements (l_live_logical_ids l ∖ {[lkey q]})) as Hp.
  { rewrite <- elements_union_singleton by set_solver. by rewrite <- union_difference_singleton_L. }
  split; try done.
  - change (lkey <$> in_flight l ++ extra ≡ₚ elements (l_live_logical_ids l ∖ {[lkey q]})).
    apply (Permutation_cons_inv (a := lkey q)). rewrite <- Hp, <- A1. generalize (in_flight l). intros fl.
    rewrite !fmap_app. apply Permutation_middle.
  - rewrite !lstat_lbump. cbn. rewrite decide_False, decide_True by done. unfold lstat at 1. cbn. unfold lstat in A2. rewrite A2.
    rewrite size_difference, size_singleton by set_solver. lia.
  - rewrite !lstat_lbump. repeat rewrite decide_False by done. done.
  - intros x Hx. apply A5. set_solver.
Qed.

(** ** The cache keeps its invariant, and no request can make it fail

    [outcome tx m P]: the computation returns a value that satisfies [P]; only a
    memory system with empty transactions can make it fail. *)
Definition outcome {A} (tx : Z) (m : result A) (P : A -> Prop) : Prop :=
  match m with Ok a => P a | Err _ => tx = 0 end.

Lemma outcome_bind {A B} (tx : Z) (m : result A) (f : A -> result B) (P : A -> Prop) (Q : B -> Prop) :
  outcome tx m P -> (forall a, P a -> outcome tx (f a) Q) -> outcome tx (m ≫= f) Q.
Proof. destruct m; simpl; auto. Qed.

Lemma outcome_mono {A} (tx : Z) (m : result A) (P Q : A -> Prop) :
  outcome tx m P -> (forall a, P a -> Q a) -> outcome tx m Q.
Proof. destruct m; simpl; auto. Qed.

(** The MSHRs own the buckets. *)
Definition linked (l : LLC) : Prop :=
  forall a, is_Some (l_receive_requests l !! a) <-> a ∈ mshr_addr <$> l_mshrs l.

Record llc_wf (clk : Clk_t) (l : LLC) : Prop := {
  wf_cfg : llc_cfg l;
  wf_lines : lines_wf l;
  wf_acct : acct_wf clk l [];
  wf_link : linked l
}.

(** ** Frames *)

(** What [lines_wf] reads. *)
Definition lines_of (l : LLC) :=
  (l_associativity l, l_num_mshrs l, (l_index_mask l, l_index_offset l, l_tag_offset l, l_linesize_bytes l),
   l_cache_sets l, l_next_line l, l_mshrs l).

Lemma lines_wf_ext (l l' : LLC) : lines_of l' = lines_of l -> lines_wf l -> lines_wf l'.
Proof.
  unfold lines_of. destruct l, l'. cbn. intros [= -> -> -> -> -> -> -> -> ->] [H1 H2 H3 H4 H5 H6 H7 H8].
  split; [exact H1|exact H2|exact H3|exact H4|exact H5|exact H6|exact H7|exact H8].
Qed.

Definition cfg_of (l : LLC) :=
  (l_latency l, l_linesize_bytes l, l_associativity l, l_num_mshrs l, l_index_mask l, l_index_offset l, l_tag_offset l).

Lemma llc_cfg_ext (l l' : LLC) : cfg_of l' = cfg_of l -> llc_cfg l -> llc_cfg l'.
Proof.
  unfold cfg_of. destruct l, l'. cbn. intros [= -> -> -> -> -> -> ->] [H1 H2 H3 H4 H5 H6 H7 H8]. by split.
Qed.

(** What the accounting reads. *)
Definition acct_of (l : LLC) := (l_receive_requests l, l_live_logical_ids l, l_hit_list l, l_stats l).

Lemma acct_wf_ext (clk : Clk_t) (l l' : LLC) (extra : list LogicalRequest) :
  acct_of l' = acct_of l -> acct_wf clk l extra -> acct_wf clk l' extra.
Proof.
  unfold acct_of. destruct l, l'. cbn. intros [= -> -> -> ->] [H1 H2 H3 H4 H5 H6 H7]. by split.
Qed.

Lemma acct_wf_later (clk clk' : Clk_t) (l : LLC) (extra : list LogicalRequest) :
  clk <= clk' -> acct_wf clk l extra -> acct_wf clk' l extra.
Proof. intros Hle [H1 H2 H3 H4 H5 H6 H7]. split; try done. intros q Hq. specialize (H5 q Hq). lia. Qed.

Lemma llc_wf_later (clk clk' : Clk_t) (l : LLC) : clk <= clk' -> llc_wf clk l -> llc_wf clk' l.
Proof. intros Hle [H1 H2 H3 H4]. split; try done. by eapply acct_wf_later. Qed.

(** ** Misses *)
Lemma enqueue_miss_spec (clk tx : Z) (l : LLC) (r : Request) :
  outcome tx (enqueue_miss clk tx l r) (fun l' => exists q sp n, l' = set_miss (set_splits l sp n) q).
Proof.
  unfold enqueue_miss. destruct (_ <=? _); cbn.
  - exists (l_miss_list l ++ [(clk + l_latency l, r)]), (l_splits l), (l_next_split l). by destruct l.
  - destruct (Z.eqb_spec tx 0) as [->|]; [done|]. destruct (callback r); cbn; [by eexists _, _, _|].
    eexists _, (l_splits l), (l_next_split l). by destruct l.
Qed.

(** An eviction takes one ready line out of its set. *)
Lemma evict_line_spec (clk tx i : Z) (l : LLC) (x : Line) :
  lines_wf l -> acct_wf clk l [] -> x ∈ lset l i -> ln_ready x = true ->
  outcome tx (evict_line clk tx l i x) (fun l' =>
    lines_wf l' /\ acct_wf clk l' [] /\ cfg_of l' = cfg_of l /\ l_mshrs l' = l_mshrs l /\
    l_next_line l' = l_next_line l /\ l_receive_requests l' = l_receive_requests l /\
    l_live_logical_ids l' = l_live_logical_ids l /\ lset l' i = erase_line (lset l i) (ln_id x)).
Proof.
  intros Hw Ha Hx Hr. unfold evict_line.
  set (l0 := lbump l "llc_eviction" 1). assert (acct_wf clk l0 []) as Ha0 by (by apply lbump_acct).
  apply (outcome_bind _ _ _ (fun l1 => acct_wf clk l1 [] /\ lines_of l1 = lines_of l /\ cfg_of l1 = cfg_of l /\
    l_receive_requests l1 = l_receive_requests l /\ l_live_logical_ids l1 = l_live_logical_ids l)).
  - destruct (ln_dirty x); [|done]. eapply outcome_mono; [apply enqueue_miss_spec|].
    intros l1 (q & sp & n & ->). split_and!; try done.
    apply (acct_wf_ext _ (lbump (lbump l0 "internal_writebacks_generated" 1) "internal_writebacks_live" 1)); [done|].
    destruct Ha0 as [A1 A2 A3 A4 A5 A6 A7]. split; try done; lstats; [done|lia].
  - intros l1 (Ha1 & El & Ec & Er & Ei). cbn. destruct l1, l. cbn in *. unfold lines_of, cfg_of in *. cbn in *. simplify_eq.
    split_and!; try done; [|by eapply acct_wf_ext; [|exact Ha1]|by unfold lset; cbn; rewrite lookup_insert_eq].
    eapply lines_wf_ext; [|exact (evict_wf _ Hw i x Hx Hr)]. done.
Qed.

(** ** The cases of [send] *)

(** A miss in the set and in the MSHRs is a miss of the block. *)
Lemma no_match_lines (l : LLC) (a : Addr_t) :
  llc_cfg l -> lines_wf l -> check_set_hit l (get_set l a) a = None -> check_mshr_hit l a = None ->
  (forall x, x ∈ lset l (get_index l a) -> ln_tag x <> get_tag l a) /\
  (forall e, e ∈ l_mshrs l -> align l (mshr_addr e) <> align l a).
Proof.
  intros Hc Hw Hs Hm.
  assert (forall e, e ∈ l_mshrs l -> align l (mshr_addr e) <> align l a) as Hal.
  { intros e He. apply (find_mshr_none _ _ e) in Hm; [|done]. cbv beta in Hm. lia. }
  split; [|done]. intros x Hx Ht. unfold check_set_hit in Hs.
  change (get_set l a) with (lset l (get_index l a)) in Hs.
  destruct (find_line _ (lset l (get_index l a))) as [y|] eqn:Ey.
  - apply find_line_some in Ey as [Hy Hty]. cbv beta in Hty. destruct (ln_ready y) eqn:Hr; [done|].
    destruct (lw_unready l Hw _ y Hy Hr) as (e & He & Es & Ei).
    destruct (lw_mshr l Hw e He) as [Eg (z & Hz & Hzi & _ & Hzt)]. rewrite Es in Hz.
    assert (z = y) as -> by (apply (fmap_inj_elem ln_id (lset l (get_index l a))); [apply Hw|done..|congruence]).
    apply (Hal e He). apply align_eq, same_block; [done..|]. split; [congruence|]. rewrite <- Hzt. lia.
  - pose proof (find_line_none _ _ _ Ey Hx) as Hn. cbv beta in Hn. lia.
Qed.

Section send.
Context (clk tx : Z) (l : LLC) (Hwf : llc_wf clk l).

Lemma llc_hit_spec (r : Request) (x : Line) :
  check_set_hit l (get_set l (addr r)) (addr r) = Some x -> logical_key r ∉ l_live_logical_ids l ->
  outcome tx (llc_hit clk l r x) (fun l' =>
    llc_wf clk l' /\ l_live_logical_ids l' = {[logical_key r]} ∪ l_live_logical_ids l).
Proof.
  intros Hx Hk. destruct Hwf as [Hc Hw Ha Hl]. unfold llc_hit.
  assert (x ∈ lset l (get_index l (addr r)) /\ ln_ready x = true /\ ln_tag x = get_tag l (addr r)) as (Hin & Hr & Ht).
  { unfold check_set_hit in Hx. destruct (find_line _ _) as [y|] eqn:Ey; [|done]. destruct (ln_ready y) eqn:Hr; [|done].
    injection Hx as ->. apply find_line_some in Ey as [? Hty]. cbv beta in Hty. split_and!; [done..|lia]. }
  pose proof (touch_wf l Hw (addr r) x (ln_dirty x || (type_id r =? Write)) Hin Hr Ht) as Ht'.
  set (l1 := set_lines l _ _). destruct (begin_ok clk l1 r (type_id r) Hit Hk) as
    (q & l2 & -> & Ek & Ep & Ea & _ & _ & Ei & Elv & Ewb & st & n & El2). cbn [mbind result_bind outcome fst snd].
  split; [|by rewrite El2; cbn; rewrite Ei]. split.
  - eapply llc_cfg_ext; [|exact Hc]. by rewrite El2.
  - eapply lines_wf_ext; [|exact Ht']. by rewrite El2.
  - eapply (join_acct clk l _ q); [done|by rewrite Ek|lia| | | | | | |].
    + rewrite El2. unfold in_flight. cbn. rewrite fmap_app. cbn. rewrite <- app_assoc. symmetry. apply Permutation_middle.
    + cbn. by rewrite Ek, Ei.
    + exact Elv.
    + exact Ewb.
    + intros a b. rewrite El2. apply Ha.
    + intros y. rewrite El2. cbn. rewrite fmap_app. intros [?|E]%elem_of_app; [by apply Ha|].
      apply list_elem_of_singleton in E as ->. done.
    + intros y. rewrite El2. apply Ha.
  - intros a. rewrite El2. apply Hl.
Qed.

Lemma llc_merge_spec (r : Request) (t : Z) (dirty : bool) (i : nat) (e : MSHREntry) :
  check_mshr_hit l (addr r) = Some (i, e) -> logical_key r ∉ l_live_logical_ids l ->
  outcome tx (llc_merge clk l r t dirty e) (fun l' =>
    llc_wf clk l' /\ l_live_logical_ids l' = {[logical_key r]} ∪ l_live_logical_ids l).
Proof.
  intros (_ & He & _)%find_mshr_some Hk. destruct Hwf as [Hc Hw Ha Hl]. unfold llc_merge.
  destruct (proj2 (Hl (mshr_addr e))) as [bucket Hb]; [apply list_elem_of_fmap; by exists e|]. rewrite Hb.
  destruct (begin_ok clk l r t MSHRMerge Hk) as
    (q & l2 & -> & Ek & Ep & Ea & _ & _ & Ei & Elv & Ewb & st & n & El2). cbn [mbind result_bind fst snd].
  destruct (lw_mshr l Hw e He) as [_ (x & Hx & Hid & _)]. unfold update_line.
  assert (mshr_line e ∈ ln_id <$> default [] (l_cache_sets l !! mshr_set e)) as Hin
    by (apply list_elem_of_fmap; exists x; split; [congruence|exact Hx]).
  rewrite bool_decide_eq_true_2 by (rewrite El2; exact Hin). cbn [outcome].
  split; [|by rewrite El2; cbn; rewrite Ei]. split.
  - eapply llc_cfg_ext; [|exact Hc]. by rewrite El2.
  - eapply lines_wf_ext; [|apply (write_line_wf l Hw (mshr_set e) (mshr_line e)
      (fun x => mkLine (ln_id x) (ln_addr x) (ln_tag x) (dirty || ln_dirty x) (ln_ready x))); done]. by rewrite El2.
  - assert (waiting (<[mshr_addr e := bucket ++ [q]]> (l_receive_requests l)) ≡ₚ q :: waiting (l_receive_requests l)) as Hwt
      by (by apply waiting_extend).
    eapply (join_acct clk l _ q); [done|by rewrite Ek|lia| | | | | | |]; cbn.
    + rewrite El2. unfold in_flight. cbn. rewrite Hwt. symmetry. apply Permutation_middle.
    + by rewrite Ek, Ei.
    + exact Elv.
    + exact Ewb.
    + intros a b. rewrite El2. cbn. intros [[<- <-]|[_ Hb']]%lookup_insert_Some; [by destruct bucket|by apply (ac_nonempty _ _ _ Ha a)].
    + intros y. rewrite El2. apply Ha.
    + intros y. rewrite El2. cbn. rewrite Hwt. intros [->|?]%elem_of_cons; [congruence|by apply Ha].
  - intros a. rewrite El2. cbn. specialize (Hl a). destruct (decide (mshr_addr e = a)) as [<-|Hne].
    + rewrite lookup_insert_eq. rewrite Hb in Hl. split; intros _; [by apply Hl|by eexists].
    + by rewrite lookup_insert_ne.
Qed.
End send.

Lemma cfg_funs (l l' : LLC) (a : Addr_t) :
  cfg_of l' = cfg_of l -> get_tag l' a = get_tag l a /\ get_index l' a = get_index l a /\ align l' a = align l a.
Proof. unfold cfg_of, get_tag, get_index, align. destruct l, l'. cbn. by intros [= -> -> -> -> -> -> ->]. Qed.

(** The cache after making room in the set of [a]. *)
Record room (clk : Clk_t) (l : LLC) (a : Addr_t) (l1 : LLC) : Prop := {
  rm_lines : lines_wf l1;
  rm_acct : acct_wf clk l1 [];
  rm_cfg : cfg_of l1 = cfg_of l;
  rm_mshrs : l_mshrs l1 = l_mshrs l;
  rm_next : l_next_line l1 = l_next_line l;
  rm_receive : l_receive_requests l1 = l_receive_requests l;
  rm_ids : l_live_logical_ids l1 = l_live_logical_ids l;
  rm_len : Z.of_nat (length (lset l1 (get_index l a))) < l_associativity l;
  rm_sub x : x ∈ lset l1 (get_index l a) -> x ∈ lset l (get_index l a)
}.

Definition new_line (l : LLC) (a : Addr_t) : Line := mkLine (l_next_line l) a (get_tag l a) false false.

Lemma allocate_line_spec (clk tx : Z) (l : LLC) (a : Addr_t) :
  lines_wf l -> acct_wf clk l [] -> (forall x, x ∈ lset l (get_index l a) -> ln_tag x <> get_tag l a) ->
  Z.of_nat (length (lset l (get_index l a))) < l_associativity l \/ existsb ln_ready (lset l (get_index l a)) = true ->
  outcome tx (allocate_line clk tx l a) (fun q => exists l1, room clk l a l1 /\
    q = (Some (new_line l a),
         set_lines l1 (<[get_index l a := lset l1 (get_index l a) ++ [new_line l a]]> (l_cache_sets l1)) (l_next_line l + 1))).
Proof.
  intros Hw Ha Htag Hroom. unfold allocate_line, need_eviction. change (get_set l a) with (lset l (get_index l a)).
  destruct (find_line (fun x => get_tag l a =? ln_tag x) (lset l (get_index l a))) as [y|] eqn:Ey.
  { apply find_line_some in Ey as [Hy Hty]. cbv beta in Hty. exfalso. apply (Htag y Hy). lia. }
  cbn [mbind result_bind].
  apply (outcome_bind _ _ _ (fun o => exists l1, o = Some l1 /\ room clk l a l1)).
  - destruct (Z.leb_spec (l_associativity l) (Z.of_nat (length (lset l (get_index l a))))) as [Hfull|Hfree].
    + destruct (find_line ln_ready (lset l (get_index l a))) as [v|] eqn:Ev.
      * apply find_line_some in Ev as [Hv Hvr]. eapply outcome_bind; [by apply (evict_line_spec clk tx _ l v)|].
        intros l1 (? & ? & ? & ? & ? & ? & ? & Es). exists l1. split; [done|]. split; try done; rewrite Es.
        -- pose proof (erase_shorter _ v Hv). pose proof (lw_len l Hw (get_index l a)). lia.
        -- by intros x [_ ?]%elem_of_erase.
      * exfalso. destruct Hroom as [?|(v & Hv & Hr)%existsb_exists]; [lia|]. apply list_elem_of_In in Hv.
        pose proof (find_line_none _ _ _ Ev Hv). congruence.
    + exists l. split; [done|]. by split.
  - intros o (l1 & -> & Hr). exists l1. split; [done|]. pose proof (rm_next _ _ _ _ Hr) as En.
    destruct (cfg_funs l l1 a (rm_cfg _ _ _ _ Hr)) as (Et & Ei & _).
    unfold new_line. change (get_set l1 a) with (lset l1 (get_index l1 a)). by rewrite En, Et, Ei.
Qed.

(** Writing to the line just appended. *)
Lemma map_line_fresh (s : list Line) (x : Line) (f : Line -> Line) :
  (forall y, y ∈ s -> ln_id y <> ln_id x) -> map_line (ln_id x) f (s ++ [x]) = s ++ [f x].
Proof.
  intros Hs. unfold map_line. rewrite fmap_app. cbn. rewrite Z.eqb_refl. f_equal.
  rewrite <- (list_fmap_id s) at 2. apply list_fmap_ext. intros i y Hy%list_elem_of_lookup_2.
  specialize (Hs y Hy). by destruct (Z.eqb_spec (ln_id y) (ln_id x)).
Qed.

(** The line and the MSHR of a new miss, once there is room. *)
Lemma room_fill (clk : Z) (l l1 : LLC) (a : Addr_t) (dirty : bool) :
  llc_cfg l -> lines_wf l -> room clk l a l1 -> (forall x, x ∈ lset l (get_index l a) -> ln_tag x <> get_tag l a) ->
  (forall e, e ∈ l_mshrs l -> align l (mshr_addr e) <> align l a) -> Z.of_nat (length (l_mshrs l)) <> l_num_mshrs l ->
  lines_wf (put_set l1 (get_index l a) (lset l1 (get_index l a) ++ [mkLine (l_next_line l) a (get_tag l a) dirty false])
    (l_next_line l + 1) (l_mshrs l ++ [mkMSHR a (get_index l a) (l_next_line l)])).
Proof.
  intros Hc Hw Hr Htag Hal Hnm. pose proof (rm_cfg _ _ _ _ Hr) as Ecfg. destruct (cfg_funs l l1 a Ecfg) as (Et & Ei & _).
  pose proof (fill_wf l1 (llc_cfg_ext l l1 Ecfg Hc) (rm_lines _ _ _ _ Hr) a dirty) as Hfill. cbv zeta in Hfill. rewrite Ei, Et in Hfill.
  rewrite (rm_next _ _ _ _ Hr), (rm_mshrs _ _ _ _ Hr) in Hfill. pose proof (lw_mlen l Hw) as Hml.
  assert (l_associativity l1 = l_associativity l /\ l_num_mshrs l1 = l_num_mshrs l) as [Eas Enm] by (unfold cfg_of in Ecfg; by simplify_eq).
  apply Hfill.
  - rewrite Eas. exact (rm_len _ _ _ _ Hr).
  - lia.
  - intros y Hy. by apply Htag, (rm_sub _ _ _ _ Hr).
  - intros e He. destruct (cfg_funs l l1 (mshr_addr e) Ecfg) as (_ & _ & ->). destruct (cfg_funs l l1 a Ecfg) as (_ & _ & ->). by apply Hal.
Qed.

Lemma llc_new_miss_spec (clk tx : Z) (l : LLC) (r : Request) (t : Z) (dirty : bool) :
  llc_wf clk l -> check_set_hit l (get_set l (addr r)) (addr r) = None -> check_mshr_hit l (addr r) = None ->
  Z.of_nat (length (l_mshrs l)) <> l_num_mshrs l ->
  (Z.of_nat (length (get_set l (addr r))) <? l_associativity l) || existsb ln_ready (get_set l (addr r)) = true ->
  logical_key r ∉ l_live_logical_ids l ->
  outcome tx (llc_new_miss clk tx l r t dirty) (fun q =>
    llc_wf clk q.2 /\ l_live_logical_ids q.2 = {[logical_key r]} ∪ l_live_logical_ids l).
Proof.
  intros Hwf Hs Hm Hnm Hroom Hk. destruct (no_match_lines l (addr r) (wf_cfg _ _ Hwf) (wf_lines _ _ Hwf) Hs Hm) as [Htag Hal].
  pose proof Hwf as [Hc Hw Ha Hl]. unfold llc_new_miss. set (i := get_index l (addr r)) in *.
  eapply outcome_bind; [apply (allocate_line_spec clk tx l (addr r) Hw Ha Htag); apply orb_true_iff in Hroom as [?|?];
    [left; unfold lset, get_set in *; lia|by right]|].
  intros q (l1 & Hr & ->). destruct (cfg_funs l l1 (addr r) (rm_cfg _ _ _ _ Hr)) as (Et & Ei & _).
  fold i in Ei |- *. set (x := new_line l (addr r)). set (s := lset l1 i).
  assert (forall y, y ∈ s -> ln_id y <> ln_id x) as Hfresh.
  { intros y Hy. pose proof (lw_line l Hw i y (rm_sub _ _ _ _ Hr y Hy)) as (_ & _ & ?). cbn. lia. }
  unfold update_line. cbn [l_cache_sets set_lines].
  change (get_index (set_lines l1 (<[i:=s ++ [x]]> (l_cache_sets l1)) (l_next_line l + 1)) (addr r)) with (get_index l1 (addr r)).
  rewrite Ei, lookup_insert_eq. cbn [from_option]. change (id (s ++ [x])) with (s ++ [x]).
  rewrite bool_decide_eq_true_2 by (rewrite fmap_app; apply elem_of_app; right; by apply list_elem_of_singleton).
  cbn [mbind result_bind].
  match goal with |- context [?f <$> s ++ [x]] => change (f <$> s ++ [x]) with
    (map_line (ln_id x) (fun x => mkLine (ln_id x) (ln_addr x) (ln_tag x) dirty (ln_ready x)) (s ++ [x])) end.
  rewrite map_line_fresh by done. rewrite insert_insert_eq.
  set (x' := mkLine (ln_id x) (ln_addr x) (ln_tag x) dirty (ln_ready x)).
  set (l3 := set_mshrs _ _ _).
  assert (l_receive_requests l3 = l_receive_requests l) as Erec by exact (rm_receive _ _ _ _ Hr).
  assert (addr r ∉ mshr_addr <$> l_mshrs l) as Hna.
  { intros (e & E & He)%list_elem_of_fmap. apply (Hal e He). by rewrite E. }
  assert (l_receive_requests l !! addr r = None) as Hnb by (apply eq_None_not_Some; by rewrite (Hl (addr r))).
  rewrite Erec, Hnb.
  assert (lines_wf l3) as Hw3.
  { eapply lines_wf_ext; [|by apply (room_fill clk l l1 (addr r) dirty)]. unfold l3.
    repeat change (get_index (set_lines ?a ?b ?c) ?d) with (get_index a d). rewrite Ei. unfold lines_of, put_set. cbn. by rewrite (rm_mshrs _ _ _ _ Hr). }
  assert (logical_key r ∉ l_live_logical_ids l3) as Hk3 by (unfold l3; cbn; by rewrite (rm_ids _ _ _ _ Hr)).
  destruct (begin_ok clk l3 r t MissOwner Hk3) as
    (q & l4 & -> & Ek & Ep & Ea & _ & _ & Eid & Elv & Ewb & st & n & El4). cbn [mbind result_bind fst snd].
  eapply outcome_bind; [apply enqueue_miss_spec|]. intros l5 (mq & sp & ns & ->). cbn [outcome fst snd].
  assert (acct_wf clk l3 []) as Ha3 by exact (acct_wf_ext clk l1 l3 [] eq_refl (rm_acct _ _ _ _ Hr)).
  assert (waiting (<[addr r := [q]]> (l_receive_requests l)) ≡ₚ q :: waiting (l_receive_requests l)) as Hwt by (by apply waiting_insert).
  split; [|by cbn; rewrite Eid; unfold l3; cbn; rewrite (rm_ids _ _ _ _ Hr)]. split.
  - eapply llc_cfg_ext; [|exact Hc]. rewrite El4. exact (rm_cfg _ _ _ _ Hr).
  - eapply lines_wf_ext; [|exact Hw3]. by rewrite El4.
  - eapply (join_acct clk l3 _ q); [done|by rewrite Ek|lia| | | | | | |]; cbn.
    + rewrite El4. unfold in_flight. cbn. rewrite (rm_receive _ _ _ _ Hr), Hwt. symmetry. apply Permutation_middle.
    + by rewrite Ek, Eid.
    + exact Elv.
    + exact Ewb.
    + intros a b. rewrite El4. cbn. intros [[<- <-]|[_ Hb']]%lookup_insert_Some; [done|by apply (ac_nonempty _ _ _ Ha3 a)].
    + intros y. rewrite El4. apply Ha3.
    + intros y. rewrite El4. cbn. rewrite (rm_receive _ _ _ _ Hr), Hwt. intros [->|Hy]%elem_of_cons; [congruence|by apply Ha].
  - intros a. rewrite El4. cbn. rewrite (rm_receive _ _ _ _ Hr), (rm_mshrs _ _ _ _ Hr), fmap_app.
    destruct (decide (addr r = a)) as [<-|Hne].
    + rewrite lookup_insert_eq. split; intros _; [|by eexists]. apply elem_of_app. right. by apply list_elem_of_singleton.
    + rewrite lookup_insert_ne by done. rewrite (Hl a), elem_of_app. cbn. rewrite list_elem_of_singleton. naive_solver.
Qed.

(** ** [send] *)
Lemma llc_wf_bump (clk : Clk_t) (l : LLC) (name : string) (n : Z) :
  plain_stat name -> llc_wf clk l -> llc_wf clk (lbump l name n).
Proof.
  intros Hp [H1 H2 H3 H4]. split; [by eapply llc_cfg_ext; [|exact H1]|by eapply lines_wf_ext; [|exact H2]
    |by apply lbump_acct|exact H4].
Qed.

Definition valid_request (l : LLC) (r : Request) : Prop := validate_logical_identity l r = Ok ().

Lemma valid_fresh (l : LLC) (r : Request) : valid_request l r -> logical_key r ∉ l_live_logical_ids l.
Proof.
  unfold valid_request, validate_logical_identity. destruct (_ || _); [done|]. destruct (_ && _); [done|].
  case_bool_decide; done.
Qed.

Lemma LLC_send_spec (clk tx : Z) (l : LLC) (r : Request) :
  llc_wf clk l -> valid_request l r ->
  outcome tx (LLC_send clk tx l r) (fun q => let '(ok, _, l') := q in
    llc_wf clk l' /\
    l_live_logical_ids l' = if (ok : bool) then {[logical_key r]} ∪ l_live_logical_ids l else l_live_logical_ids l).
Proof.
  intros Hwf Hv. unfold LLC_send. rewrite Hv. cbn [mbind result_bind]. pose proof (valid_fresh l r Hv) as Hk.
  set (l0 := lbump l _ 1). assert (llc_wf clk l0) as Hwf0 by (apply llc_wf_bump; [by destruct (type_id r =? Read)|done]).
  destruct (check_set_hit l0 (get_set l0 (addr r)) (addr r)) as [x|] eqn:Ex.
  { eapply outcome_bind; [by apply llc_hit_spec|]. intros l' [? ?]. done. }
  set (l1 := lbump l0 _ 1). assert (llc_wf clk l1) as Hwf1 by (apply llc_wf_bump; [by destruct (type_id r =? Read)|done]).
  set (r1 := set_type r Read). change (addr r1) with (addr r).
  assert (check_set_hit l1 (get_set l1 (addr r)) (addr r) = None) as Ex1 by exact Ex.
  destruct (check_mshr_hit l1 (addr r)) as [[i e]|] eqn:Em.
  { eapply outcome_bind; [by apply (llc_merge_spec clk tx l1 Hwf1 r1 _ _ i e)|]. intros l' [? ?]. done. }
  destruct (Z.eqb_spec (Z.of_nat (length (l_mshrs l1))) (l_num_mshrs l1)) as [|Hne].
  { split; [by apply llc_wf_bump|done]. }
  destruct (_ || _) eqn:Eroom; [|done]. cbn [negb].
  eapply outcome_bind; [by apply (llc_new_miss_spec clk tx l1 r1)|]. intros [r2 l2] [? ?]. done.
Qed.

(** ** Completions *)
Lemma take_spec (clk : Clk_t) (l l1 : LLC) (a : Addr_t) (b : list LogicalRequest) :
  acct_wf clk l [] -> take_receive_requests l a = Ok (b, l1) ->
  l_receive_requests l !! a = Some b /\ l1 = set_mshrs l (l_mshrs l) (delete a (l_receive_requests l)) /\
  acct_wf clk l1 b /\ Forall (fun q => lr_path q <> Hit) b.
Proof.
  intros [A1 A2 A3 A4 A5 A6 A7] H. unfold take_receive_requests in H.
  destruct (l_receive_requests l !! a) as [[|q0 b0]|] eqn:Eb; [done| |done]. injection H as <- <-.
  assert (waiting (l_receive_requests l) ≡ₚ (q0 :: b0) ++ waiting (delete a (l_receive_requests l))) as Hp by (by apply waiting_delete).
  assert (in_flight l ≡ₚ ((snd <$> l_hit_list l) ++ waiting (delete a (l_receive_requests l))) ++ q0 :: b0) as Hf.
  { unfold in_flight. rewrite Hp, (Permutation_app_comm (q0 :: b0)). by rewrite app_assoc. }
  rewrite app_nil_r in A1, A5. split_and!; [done..| |].
  - split; try done.
    + rewrite <- A1. unfold in_flight at 1. cbn. by rewrite Hf.
    + intros a' b'. cbn. intros [_ Hb']%lookup_delete_Some. by apply (A4 a').
    + intros q Hq. apply A5. rewrite Hf. exact Hq.
    + intros q Hq. apply A7. rewrite Hp. cbn in Hq. apply elem_of_app. by right.
  - apply Forall_forall. intros q Hq. apply A7. rewrite Hp. apply elem_of_app. by left.
Qed.

Lemma fill_spec (clk : Clk_t) (l l1 : LLC) (r : Request) (b : list LogicalRequest) :
  llc_wf clk l -> take_receive_requests l (addr r) = Ok (b, l1) ->
  exists l2, LLC_receive l1 r = Ok l2 /\ llc_cfg l2 /\ lines_wf l2 /\ linked l2 /\ acct_wf clk l2 b /\
    Forall (fun q => lr_path q <> Hit) b.
Proof.
  intros [Hc Hw Ha Hl] Ht. destruct (take_spec clk l l1 (addr r) b Ha Ht) as (Hb & -> & Ha1 & Hp).
  assert (addr r ∈ mshr_addr <$> l_mshrs l) as (e0 & E0 & He0)%list_elem_of_fmap by (apply Hl; by eexists).
  unfold LLC_receive. cbn [l_mshrs set_mshrs].
  change (align (set_mshrs l (l_mshrs l) (delete (addr r) (l_receive_requests l)))) with (align l).
  destruct (find_mshr _ (l_mshrs l)) as [[k e]|] eqn:Ef.
  2:{ pose proof (find_mshr_none _ _ _ Ef He0) as Hn. cbv beta in Hn. rewrite <- E0, Z.eqb_refl in Hn. done. }
  apply find_mshr_some in Ef as (Hk & He & Hal). cbv beta in Hal. apply Z.eqb_eq in Hal.
  assert (e = e0) as <-.
  { apply (fmap_inj_elem (align l ∘ mshr_addr) (l_mshrs l)); [apply Hw|done..|]. cbn. by rewrite Hal, E0. }
  destruct (lw_mshr l Hw e He) as [_ (x & Hx & Hid & _)]. unfold update_line. cbn [l_cache_sets set_mshrs].
  rewrite bool_decide_eq_true_2 by (apply list_elem_of_fmap; exists x; split; [congruence|exact Hx]).
  cbn [mbind result_bind]. eexists. split; [done|]. cbn [l_mshrs set_lines set_mshrs l_receive_requests].
  split_and!; [by eapply llc_cfg_ext; [|exact Hc]| | |by eapply acct_wf_ext; [|exact Ha1]|done].
  - eapply lines_wf_ext; [|apply (return_wf l Hc Hw k e
      (fun x => mkLine (ln_id x) (ln_addr x) (ln_tag x) (ln_dirty x) true) Hk); done]. done.
  - intros a. cbn. assert (l_mshrs l ≡ₚ e :: delete k (l_mshrs l)) as Hperm by (by apply delete_Permutation).
    pose proof (lw_mdup l Hw) as Hd. rewrite Hperm, fmap_cons, NoDup_cons in Hd. destruct Hd as [Hne _].
    assert (mshr_addr e ∉ mshr_addr <$> delete k (l_mshrs l)) as Hne'.
    { intros (e' & E' & He')%list_elem_of_fmap. apply Hne, list_elem_of_fmap. exists e'. cbn. by rewrite E'. }
    specialize (Hl a). rewrite Hperm, fmap_cons, elem_of_cons in Hl. rewrite E0. destruct (decide (mshr_addr e = a)) as [<-|Hna].
    + rewrite lookup_delete_eq. split; [by intros [? ?]|done].
    + rewrite lookup_delete_ne by done. rewrite Hl. naive_solver.
Qed.

(** The requests of the line complete one after the other. *)
Lemma complete_all_spec (clk : Clk_t) (b : list LogicalRequest) (l : LLC) :
  llc_cfg l -> lines_wf l -> linked l -> acct_wf clk l b ->
  exists l', foldM (fun l q => complete_logical_request l q clk) l b = Ok l' /\ llc_wf clk l'.
Proof.
  revert l. induction b as [|q b IH]; intros l Hc Hw Hl Ha; [by exists l|]. cbn [foldM].
  destruct (complete_ok clk l q b Ha) as (l1 & -> & Ha1 & st & n & E1). cbn [mbind result_bind].
  apply IH; [by eapply llc_cfg_ext; [|exact Hc]; rewrite E1|by eapply lines_wf_ext; [|exact Hw]; rewrite E1
    |rewrite E1; exact Hl|done].
Qed.

(** A hit in flight completes and leaves the list. *)
Lemma hit_done_spec (clk : Clk_t) (l : LLC) (q1 q2 : list (Clk_t * LogicalRequest)) (due : Clk_t) (q : LogicalRequest) :
  llc_wf clk l -> l_hit_list l = q1 ++ (due, q) :: q2 ->
  lr_path q = Hit /\ exists l', complete_logical_request l q clk = Ok l' /\ llc_wf clk (set_hit l' (q1 ++ q2)) /\
    exists st n, l' = set_live l (l_live_logical_ids l') n st.
Proof.
  intros [Hc Hw Ha Hl] Eq. split; [apply (ac_hits _ _ _ Ha); rewrite Eq, fmap_app; set_solver|].
  set (l0 := set_hit l (q1 ++ q2)).
  assert (acct_wf clk l0 [q]) as Ha0.
  { destruct Ha as [A1 A2 A3 A4 A5 A6 A7]. rewrite app_nil_r in A1, A5.
    assert (in_flight l ≡ₚ in_flight l0 ++ [q]) as Hp.
    { unfold in_flight. rewrite Eq. cbn. rewrite !fmap_app, fmap_cons. cbn. rewrite <- !app_assoc. cbn.
      rewrite (Permutation_app_comm _ [q]). cbn. by rewrite Permutation_middle. }
    split; try done.
    - change (l_live_logical_ids l0) with (l_live_logical_ids l). by rewrite <- A1, Hp.
    - intros x Hx. apply A5. by rewrite Hp.
    - intros x Hx. apply A6. rewrite Eq. cbn in Hx. rewrite !fmap_app, ?fmap_cons in *. set_solver. }
  destruct (complete_ok clk l0 q [] Ha0) as (l1 & H1 & Ha1 & st & n & E1).
  assert (complete_logical_request l q clk = Ok (set_hit l1 (l_hit_list l))) as H2.
  { unfold complete_logical_request in *. cbn in H1. change (lstat l0) with (lstat l) in H1.
    repeat case_match; try done. injection H1 as <-. by destruct l. }
  eexists. split; [exact H2|]. split; [|by exists st, n; rewrite E1; destruct l].
  assert (set_hit (set_hit l1 (l_hit_list l)) (q1 ++ q2) = l1) as -> by (rewrite E1; by destruct l).
  split; [by eapply llc_cfg_ext; [|exact Hc]; rewrite E1|by eapply lines_wf_ext; [|exact Hw]; rewrite E1|done|].
  rewrite E1. exact Hl.
Qed.

(** ** Theorems on the last-level cache *)
Lemma LLC_init_wf (clk latency size linesize assoc mshrs : Z) (l : LLC) :
  size < 2 ^ 31 -> LLC_init latency size linesize assoc mshrs = Ok l -> llc_wf clk l.
Proof.
  intros Hsize H. unfold LLC_init in H.
  destruct (Z.ltb_spec latency 0); [done|]. destruct (Z.leb_spec size 0); [done|]. destruct (Z.leb_spec linesize 0); [done|].
  destruct (Z.leb_spec assoc 0); [done|]. cbn [orb] in H. destruct (not_pow2 linesize) eqn:Hp; [done|].
  destruct (Z.ltb_spec size (linesize * assoc)); [done|]. destruct (_ || _); [done|].
  set (sets := Z.quot size (linesize * assoc)) in H. destruct (not_pow2 sets) eqn:Hs; [done|].
  destruct (Z.leb_spec mshrs 0); [done|].
  assert (0 < linesize * assoc) by nia.
  assert (0 < sets <= size) as Hsets.
  { unfold sets. rewrite Z.quot_div_nonneg by lia.
    split; [apply Z.div_str_pos; lia|apply Z.div_le_upper_bound; nia]. }
  rewrite !calc_log2_spec in H by nia. injection H as <-. pose proof (Z.log2_nonneg sets). pose proof (Z.log2_nonneg linesize).
  split.
  - split; unfold l_index_bits; cbn; try lia; try nia.
    + apply not_pow2_false; [lia|done].
    + replace (Z.log2 sets + Z.log2 linesize - Z.log2 linesize) with (Z.log2 sets) by lia.
      pose proof (not_pow2_false sets ltac:(lia) Hs). lia.
  - match goal with |- lines_wf ?l => assert (forall i, lset l i = []) as E by done end.
    split; intros; rewrite ?E in *; cbn in *; try lia; try apply NoDup_nil_2; set_solver.
  - split; cbn; try done; set_solver.
  - intros a. cbn. rewrite lookup_empty. split; [by intros [? ?]|set_solver].
Qed.

(** ** Reachable caches: any interleaving of requests, memory and hit completions *)
Inductive llc_reachable : Clk_t -> LLC -> Prop :=
| llc_start latency size linesize assoc mshrs l :
    size < 2 ^ 31 -> LLC_init latency size linesize assoc mshrs = Ok l -> llc_reachable 0 l
| llc_clock clk clk' l : llc_reachable clk l -> clk <= clk' -> llc_reachable clk' l
| llc_sends clk tx l r ok r' l' : llc_reachable clk l -> LLC_send clk tx l r = Ok (ok, r', l') -> llc_reachable clk l'
| llc_fills clk l r b l1 l2 l' :
    llc_reachable clk l -> take_receive_requests l (addr r) = Ok (b, l1) -> LLC_receive l1 r = Ok l2 ->
    foldM (fun l q => complete_logical_request l q clk) l2 b = Ok l' -> llc_reachable clk l'
| llc_hits clk l q1 due q q2 l' :
    llc_reachable clk l -> l_hit_list l = q1 ++ (due, q) :: q2 -> complete_logical_request l q clk = Ok l' ->
    llc_reachable clk (set_hit l' (q1 ++ q2))
| llc_misses clk l q sp n : llc_reachable clk l -> llc_reachable clk (set_miss (set_splits l sp n) q)
| llc_writebacks clk l l' : llc_reachable clk l -> writeback_done l = Ok l' -> llc_reachable clk l'.

Lemma send_valid (clk tx : Z) (l : LLC) (r : Request) (q : bool * Request * LLC) :
  LLC_send clk tx l r = Ok q -> valid_request l r.
Proof. unfold LLC_send, valid_request. destruct (validate_logical_identity l r) as [[]|]; done. Qed.

Lemma send_wf (clk tx : Z) (l l' : LLC) (r r' : Request) (ok : bool) :
  llc_wf clk l -> LLC_send clk tx l r = Ok (ok, r', l') -> llc_wf clk l'.
Proof.
  intros Hwf H. pose proof (LLC_send_spec clk tx l r Hwf (send_valid _ _ _ _ _ H)) as Ho. rewrite H in Ho. apply Ho.
Qed.

Lemma writeback_done_wf (clk : Clk_t) (l l' : LLC) : llc_wf clk l -> writeback_done l = Ok l' -> llc_wf clk l'.
Proof.
  intros [Hc Hw [A1 A2 A3 A4 A5 A6 A7] Hl] H. unfold writeback_done in H. destruct (Z.leb_spec (lstat l "internal_writebacks_live") 0); [done|].
  injection H as <-. split; [by eapply llc_cfg_ext; [|exact Hc]|by eapply lines_wf_ext; [|exact Hw]| |exact Hl].
  split; try done; lstats; [done|lia].
Qed.

Lemma llc_reachable_wf (clk : Clk_t) (l : LLC) : llc_reachable clk l -> llc_wf clk l.
Proof.
  induction 1 as [? ? ? ? ? l Hs Hi|clk clk' l _ IH Hle|clk tx l r ok r' l' _ IH H|clk l r b l1 l2 l' _ IH H1 H2 H3
    |clk l q1 due q q2 l' _ IH E H|clk l q sp n _ [H1 H2 H3 H4]|clk l l' _ IH H].
  - by eapply LLC_init_wf.
  - by eapply llc_wf_later.
  - by eapply send_wf.
  - destruct (fill_spec clk l l1 r b IH H1) as (l2' & H2' & Hc & Hw & Hl & Ha & _). rewrite H2 in H2'. injection H2' as <-.
    destruct (complete_all_spec clk b l2 Hc Hw Hl Ha) as (l3 & H3' & Hwf). rewrite H3 in H3'. by injection H3' as <-.
  - destruct (hit_done_spec clk l q1 q2 due q IH E) as (_ & l1 & H' & Hwf & _). rewrite H in H'. by injection H' as <-.
  - split; [by eapply llc_cfg_ext; [|exact H1]|by eapply lines_wf_ext; [|exact H2]|by eapply acct_wf_ext; [|exact H3]|exact H4].
  - by eapply writeback_done_wf.
Qed.

(** Completions do not touch the buckets. *)
Lemma complete_all_buckets (clk : Clk_t) (b : list LogicalRequest) (l l' : LLC) :
  foldM (fun l q => complete_logical_request l q clk) l b = Ok l' -> l_receive_requests l' = l_receive_requests l.
Proof.
  revert l. induction b as [|q b IH]; intros l H; cbn [foldM] in H; [by injection H as <-|].
  apply bind_Ok in H as (l1 & H1 & H). rewrite (IH l1 H). unfold complete_logical_request in H1.
  repeat (case_match; try done). by injection H1 as <-.
Qed.

Lemma receive_buckets (l l' : LLC) (r : Request) : LLC_receive l r = Ok l' -> l_receive_requests l' = l_receive_requests l.
Proof.
  unfold LLC_receive, update_line. destruct (find_mshr _ _) as [[k e]|]; [|done]. intros (l1 & H1 & [= <-])%bind_Ok.
  case_bool_decide; [|done]. by injection H1 as <-.
Qed.

(** The quiescence test answers. *)
Lemma quiescent_total (clk : Clk_t) (l : LLC) :
  llc_wf clk l -> exists b, is_quiescent l = Ok b /\ (b = true -> l_mshrs l = [] /\ l_live_logical_ids l = ∅).
Proof.
  intros [Hc Hw [A1 A2 [A3 A3'] A4 A5 A6 A7] Hl]. unfold is_quiescent. rewrite A2, Z.eqb_refl. cbn [negb].
    assert (bool_decide (l_receive_requests l = ∅) && bool_decide (l_hit_list l = []) &&
      negb (bool_decide (l_live_logical_ids l = ∅)) = false) as ->.
    { apply not_true_iff_false. rewrite !andb_true_iff, negb_true_iff. intros [[E1%bool_decide_eq_true E2%bool_decide_eq_true] E3%bool_decide_eq_false].
      apply E3, leibniz_equiv, elements_empty_iff, Permutation_nil_r. rewrite <- A1. unfold in_flight. rewrite E1, E2. done. }
    match goal with |- context [if ?c then Err (Throw "SimpleO3 LLC internal-writeback accounting is inconsistent") else _] =>
      replace c with false by lia end.
    eexists. split; [done|]. rewrite !andb_true_iff, !bool_decide_eq_true. by intros [[[[[_ _] ?] _] ?] _].
Qed.

(** C38: whatever requests arrive and complete in whatever order, no set of the
    cache holds more lines than its associativity or two lines of one tag, there are
    never more MSHRs than configured or two for one block, the lines in flight are
    exactly the lines of the MSHRs, and the counter of live requests is the number of
    hits in flight and requests waiting for a line. *)
Theorem llc_bounds (clk : Clk_t) (l : LLC) :
  llc_reachable clk l ->
  (forall i, Z.of_nat (length (lset l i)) <= l_associativity l /\ NoDup (ln_tag <$> lset l i)) /\
  Z.of_nat (length (l_mshrs l)) <= l_num_mshrs l /\ NoDup (align l ∘ mshr_addr <$> l_mshrs l) /\
  (forall i x, x ∈ lset l i ->
     (ln_ready x = false <-> exists e, e ∈ l_mshrs l /\ mshr_set e = i /\ mshr_line e = ln_id x)) /\
  (forall e, e ∈ l_mshrs l -> exists x, x ∈ lset l (get_index l (mshr_addr e)) /\ fills l e x) /\
  lstat l "logical_requests_live" = Z.of_nat (length (l_hit_list l) + length (waiting (l_receive_requests l))).
Proof.
  intros [Hc Hw Ha Hl]%llc_reachable_wf. split_and!.
  - intros i. split; apply Hw.
  - apply Hw.
  - apply Hw.
  - intros i x Hx. split; [by apply Hw|]. intros (e & He & Es & El).
    destruct (lw_mshr l Hw e He) as [_ (y & Hy & Hid & Hr & _)]. rewrite Es in Hy.
    assert (x = y) as -> by (apply (fmap_inj_elem ln_id (lset l i)); [apply Hw|done..|congruence]). done.
  - intros e He. destruct (lw_mshr l Hw e He) as [<- ?]. done.
  - rewrite (ac_live _ _ _ Ha). f_equal. unfold size, set_size. cbn. pose proof (ac_keys _ _ _ Ha) as Hp.
    apply Permutation_length in Hp. rewrite <- Hp, app_nil_r, length_fmap. unfold in_flight. by rewrite length_app, length_fmap.
Qed.

(** C39: the internal checks of the cache never fire.  Offering a request with a
    fresh identity returns (no assertion, no lost bucket, no dangling iterator), the
    completion of any outstanding line succeeds with all its waiting requests, and
    the quiescence test answers instead of throwing. *)
Theorem llc_never_fails (clk tx : Z) (l : LLC) (r : Request) :
  llc_reachable clk l -> tx <> 0 ->
  (valid_request l r -> exists ok r' l', LLC_send clk tx l r = Ok (ok, r', l') /\
     (ok = true -> logical_key r ∈ l_live_logical_ids l')) /\
  (addr r ∈ mshr_addr <$> l_mshrs l -> exists b l1 l2 l', take_receive_requests l (addr r) = Ok (b, l1) /\
     LLC_receive l1 r = Ok l2 /\ foldM (fun l q => complete_logical_request l q clk) l2 b = Ok l' /\
     addr r ∉ mshr_addr <$> l_mshrs l') /\
  exists b, is_quiescent l = Ok b /\ (b = true -> l_mshrs l = [] /\ l_live_logical_ids l = ∅).
Proof.
  intros Hr Htx. pose proof (llc_reachable_wf _ _ Hr) as Hwf. split_and!.
  - intros Hv. pose proof (LLC_send_spec clk tx l r Hwf Hv) as Ho.
    destruct (LLC_send clk tx l r) as [[[ok r'] l']|]; [|done]. exists ok, r', l'. destruct Ho as [_ E]. split; [done|].
    intros ->. rewrite E. set_solver.
  - intros Hin. pose proof Hwf as [Hc Hw Ha Hl]. destruct (proj2 (Hl (addr r)) Hin) as [b Hb].
    assert (exists l1, take_receive_requests l (addr r) = Ok (b, l1)) as [l1 H1].
    { unfold take_receive_requests. rewrite Hb. pose proof (ac_nonempty _ _ _ Ha _ _ Hb). destruct b; [done|by eexists]. }
    destruct (fill_spec clk l l1 r b Hwf H1) as (l2 & H2 & Hc2 & Hw2 & Hl2 & Ha2 & _).
    destruct (complete_all_spec clk b l2 Hc2 Hw2 Hl2 Ha2) as (l3 & H3 & Hwf3). exists b, l1, l2, l3. split_and!; [done..|].
    rewrite <- (wf_link _ _ Hwf3 (addr r)). intros [b' Hb'].
    destruct (take_spec clk l l1 (addr r) b Ha H1) as (_ & -> & _).
    rewrite (complete_all_buckets clk b l2 l3 H3), (receive_buckets _ _ _ H2) in Hb'. cbn in Hb'.
    by rewrite lookup_delete_eq in Hb'.
  - by apply quiescent_total with clk.
Qed.
