(* ===== verification/Core.v ===== *)
(** * The core of the SimpleO3 frontend

    [frontend/impl/processor/simpleO3/core.h] and [core.cpp]: the trace, the
    instruction window and the core that issues its operations to the last-level
    cache.  [Trace_init] takes the records of a trace; [TraceReaders] has
    the text they are loaded from. *)

From Stdlib Require Import ZArith Lia.
From stdpp Require Import pretty.
From S2P Require Import Prelude Base LLC.

Local Open Scope Z_scope.

(** ** Trace *)
Record Inst := mkInst { bubble_count : Z; load_addr : Addr_t; store_addr : Addr_t }.

Record Trace := mkTrace {
  t_trace : list Inst;
  t_curr_trace_idx : Z;
  t_instruction_count : Z;
  t_allow_wrap : bool
}.

(** The checks on one line; [size_t] arithmetic for the instruction count. *)
Definition check_inst (path : string) (count : Z) (ni : nat * Inst) : result Z :=
  let '(n, i) := ni in
  let where_ := "Trace " +:+ path +:+ ":" +:+ pretty (Z.of_nat (S n)) in
  if bubble_count i <? 0 then Err (Throw (where_ +:+ " has a negative instruction bubble count"))
  else if load_addr i <? -1 then Err (Throw (where_ +:+ " has an invalid load address"))
  else if store_addr i <? -1 then Err (Throw (where_ +:+ " has an invalid store address"))
  else if (bubble_count i =? 0) && (load_addr i =? -1)
  then Err (Throw (where_ +:+ " contributes no instruction to the fixed ROI"))
  else
    let instructions := bubble_count i + (if load_addr i =? -1 then 0 else 1) in
    if 2 ^ 64 - 1 - instructions <? count then Err (Throw ("Trace " +:+ path +:+ " instruction count overflows"))
    else Ok (count + instructions).

Definition Trace_init (path : string) (insts : list Inst) (allow_wrap : bool) : result Trace :=
  count ← foldM (check_inst path) 0 (imap pair insts);
  if (length insts =? 0)%nat then Err (Throw ("Trace " +:+ path +:+ " contains no instruction records"))
  else Ok (mkTrace insts 0 count allow_wrap).

Definition get_next_inst (t : Trace) : result (Inst * Trace) :=
  let wraps := t_curr_trace_idx t =? Z.of_nat (length (t_trace t)) in
  if wraps && negb (t_allow_wrap t) then Err (Throw "SimpleO3 attempted to wrap a no-wrap input trace")
  else
    let idx := if wraps then 0 else t_curr_trace_idx t in
    inst ← vget (t_trace t) idx;
    Ok (inst, mkTrace (t_trace t) (idx + 1) (t_instruction_count t) (t_allow_wrap t)).

(** ** Instruction window: a ring buffer *)
Record InstWindow := mkWindow {
  w_ipc : Z;
  w_depth : Z;
  w_load : Z;
  w_head_idx : Z;
  w_tail_idx : Z;
  w_ready_list : list bool;
  w_addr_list : list Addr_t;
  w_frontend_id_list : list Z
}.

Definition InstWindow_init (ipc depth : Z) : InstWindow :=
  mkWindow ipc depth 0 0 0 (replicate (Z.to_nat depth) false) (replicate (Z.to_nat depth) (-1))
    (replicate (Z.to_nat depth) (-1)).

Definition is_full (w : InstWindow) : bool := w_load w =? w_depth w.

Definition tail_ready (w : InstWindow) : result bool :=
  if 0 <? w_load w then vget (w_ready_list w) (w_tail_idx w) else Ok false.

(** The load the commit head is blocked on, -1 if none. *)
Definition blocked_addr (w : InstWindow) : result Addr_t :=
  if 0 <? w_load w then
    ready ← vget (w_ready_list w) (w_tail_idx w);
    if (ready : bool) then Ok (-1) else vget (w_addr_list w) (w_tail_idx w)
  else Ok (-1).

(** [at] throws where [operator[]] is undefined. *)
Definition vset_at {A} (l : list A) (i : Z) (x : A) : result (list A) :=
  match vset l i x with Ok l => Ok l | Err _ => Err (Throw "std::out_of_range") end.
Definition vget_at {A} (l : list A) (i : Z) : result A :=
  match vget l i with Ok x => Ok x | Err _ => Err (Throw "std::out_of_range") end.

Definition insert_inst (w : InstWindow) (ready : bool) (a : Addr_t) (frontend_id : Z) : result InstWindow :=
  rl ← vset_at (w_ready_list w) (w_head_idx w) ready;
  al ← vset_at (w_addr_list w) (w_head_idx w) a;
  fl ← vset_at (w_frontend_id_list w) (w_head_idx w) frontend_id;
  if w_depth w =? 0 then Err Undef
  else Ok (mkWindow (w_ipc w) (w_depth w) (w_load w + 1) (Z.rem (w_head_idx w + 1) (w_depth w)) (w_tail_idx w) rl al fl).

(** [retire]: at most [ipc] rounds. *)
Fixpoint retire_loop (fuel : nat) (w : InstWindow) (num_retired : Z) : result (Z * InstWindow) :=
  if (0 <? w_load w) && (num_retired <? w_ipc w) then
    match fuel with
    | O => Err OutOfFuel
    | S fuel =>
        ready ← vget_at (w_ready_list w) (w_tail_idx w);
        if negb ready then Ok (num_retired, w)
        else if w_depth w =? 0 then Err Undef
        else retire_loop fuel
               (mkWindow (w_ipc w) (w_depth w) (w_load w - 1) (w_head_idx w) (Z.rem (w_tail_idx w + 1) (w_depth w))
                  (w_ready_list w) (w_addr_list w) (w_frontend_id_list w)) (num_retired + 1)
    end
  else Ok (num_retired, w).
Definition retire (w : InstWindow) : result (Z * InstWindow) := retire_loop (Z.to_nat (w_ipc w)) w 0.

(** The search of [set_ready] from the tail: the index found, if any. *)
Fixpoint find_slot (rounds : nat) (w : InstWindow) (frontend_id index : Z) : result (option Z) :=
  match rounds with
  | O => Ok None
  | S rounds =>
      f ← vget (w_frontend_id_list w) index;
      if f =? frontend_id then Ok (Some index)
      else find_slot rounds w frontend_id (if index + 1 =? w_depth w then 0 else index + 1)
  end.

Definition set_ready (w : InstWindow) (frontend_id : Z) : result (bool * InstWindow) :=
  if frontend_id <? 0 then Err (Throw "SimpleO3 completion is missing its stable frontend identity")
  else
    slot ← find_slot (Z.to_nat (w_load w)) w frontend_id (w_tail_idx w);
    match slot with
    | None => Ok (false, w)
    | Some i =>
        rl ← vset (w_ready_list w) i true;
        Ok (true, mkWindow (w_ipc w) (w_depth w) (w_load w) (w_head_idx w) (w_tail_idx w) rl (w_addr_list w)
                    (w_frontend_id_list w))
    end.

(** ** Core *)

(** The operations of the current trace record still to be issued. *)
Record Ops := mkOps {
  o_num_bubbles : Z;
  o_load_addr : Addr_t;
  o_writeback_addr : Addr_t;
  o_load_frontend_id : Z;
  o_writeback_frontend_id : Z
}.

Record Core := mkCore {
  co_id : Z;
  co_trace : Trace;
  co_window : InstWindow;
  co_crit : option (gmap Z Z);
  co_ops : Ops;
  co_next_frontend_id : Z;
  co_roi_issue_complete : bool;
  co_writeback_after_roi : bool;
  co_num_expected_insts : Z;
  co_last_mem_cycle : Clk_t;
  co_reached : bool;
  co_insts_issued : Z;
  co_insts_retired : Z;
  co_cycles_recorded : Z;
  co_mem_access_cycles : Clk_t
}.

Definition set_window (c : Core) (w : InstWindow) : Core :=
  mkCore (co_id c) (co_trace c) w (co_crit c) (co_ops c) (co_next_frontend_id c) (co_roi_issue_complete c)
    (co_writeback_after_roi c) (co_num_expected_insts c) (co_last_mem_cycle c) (co_reached c) (co_insts_issued c)
    (co_insts_retired c) (co_cycles_recorded c) (co_mem_access_cycles c).
Definition set_crit (c : Core) (m : option (gmap Z Z)) : Core :=
  mkCore (co_id c) (co_trace c) (co_window c) m (co_ops c) (co_next_frontend_id c) (co_roi_issue_complete c)
    (co_writeback_after_roi c) (co_num_expected_insts c) (co_last_mem_cycle c) (co_reached c) (co_insts_issued c)
    (co_insts_retired c) (co_cycles_recorded c) (co_mem_access_cycles c).
Definition set_ops (c : Core) (o : Ops) : Core :=
  mkCore (co_id c) (co_trace c) (co_window c) (co_crit c) o (co_next_frontend_id c) (co_roi_issue_complete c)
    (co_writeback_after_roi c) (co_num_expected_insts c) (co_last_mem_cycle c) (co_reached c) (co_insts_issued c)
    (co_insts_retired c) (co_cycles_recorded c) (co_mem_access_cycles c).
Definition set_issued (c : Core) (n : Z) : Core :=
  mkCore (co_id c) (co_trace c) (co_window c) (co_crit c) (co_ops c) (co_next_frontend_id c) (co_roi_issue_complete c)
    (co_writeback_after_roi c) (co_num_expected_insts c) (co_last_mem_cycle c) (co_reached c) n
    (co_insts_retired c) (co_cycles_recorded c) (co_mem_access_cycles c).
Definition set_retired (c : Core) (n : Z) (reached : bool) (cycles : Z) : Core :=
  mkCore (co_id c) (co_trace c) (co_window c) (co_crit c) (co_ops c) (co_next_frontend_id c) (co_roi_issue_complete c)
    (co_writeback_after_roi c) (co_num_expected_insts c) (co_last_mem_cycle c) reached (co_insts_issued c)
    n cycles (co_mem_access_cycles c).
Definition set_roi (c : Core) (complete writeback : bool) : Core :=
  mkCore (co_id c) (co_trace c) (co_window c) (co_crit c) (co_ops c) (co_next_frontend_id c) complete
    writeback (co_num_expected_insts c) (co_last_mem_cycle c) (co_reached c) (co_insts_issued c)
    (co_insts_retired c) (co_cycles_recorded c) (co_mem_access_cycles c).

Definition fetch_next_trace_inst (c : Core) : result Core :=
  if co_roi_issue_complete c then Err (Throw "SimpleO3 attempted to fetch beyond its fixed instruction ROI")
  else
    q ← get_next_inst (co_trace c);
    let '(inst, t) := q in
    let n := co_next_frontend_id c in
    let '(lid, n) := if negb (load_addr inst =? -1) then (n, n + 1) else (-1, n) in
    let '(wid, n) := if negb (store_addr inst =? -1) then (n, n + 1) else (-1, n) in
    Ok (mkCore (co_id c) t (co_window c) (co_crit c)
          (mkOps (bubble_count inst) (load_addr inst) (store_addr inst) lid wid) n
          (co_roi_issue_complete c) (co_writeback_after_roi c) (co_num_expected_insts c) (co_last_mem_cycle c)
          (co_reached c) (co_insts_issued c) (co_insts_retired c) (co_cycles_recorded c) (co_mem_access_cycles c)).

(** The constructor; [crit] is set when a criticality trace is written. *)
Definition Core_init (id ipc depth num_expected_insts : Z) (path : string) (insts : list Inst) (allow_wrap crit : bool)
  : result Core :=
  t ← Trace_init path insts allow_wrap;
  if negb allow_wrap && (t_instruction_count t <? num_expected_insts)
  then Err (Throw ("Trace " +:+ path +:+ " supplies " +:+ pretty (t_instruction_count t) +:+
               " instructions; fixed ROI needs " +:+ pretty num_expected_insts +:+ " with trace wrapping disabled"))
  else fetch_next_trace_inst
         (mkCore id t (InstWindow_init ipc depth) (if crit then Some ∅ else None) (mkOps 0 (-1) (-1) (-1) (-1)) 0
            false false num_expected_insts 0 false 0 0 0 0).

Definition finish_issue_roi (c : Core) (keep_current_writeback : bool) : result Core :=
  if negb (co_insts_issued c =? co_num_expected_insts c)
  then Err (Throw "SimpleO3 fixed issue ROI ended at an inconsistent instruction count")
  else
    let o := co_ops c in
    let wb := keep_current_writeback && negb (o_writeback_addr o =? -1) in
    Ok (set_ops (set_roi c true wb)
          (mkOps 0 (-1) (if wb then o_writeback_addr o else -1) (o_load_frontend_id o) (o_writeback_frontend_id o))).

(** [m_blocked_cycles[b] += ticks] when the criticality trace is open. *)
Definition count_blocked (c : Core) (ticks : Clk_t) : result Core :=
  match co_crit c with
  | None => Ok c
  | Some m =>
      b ← blocked_addr (co_window c);
      if b =? -1 then Ok c else Ok (set_crit c (Some (<[b := default 0 (m !! b) + ticks]> m)))
  end.

(** The bubbles of [tick]: the instructions inserted, or [None] when the tick is
    over. *)
Fixpoint issue_bubbles (fuel : nat) (c : Core) (num_inserted : Z) : result (Core * option Z) :=
  let o := co_ops c in
  if 0 <? o_num_bubbles o then
    match fuel with
    | O => Err OutOfFuel
    | S fuel =>
        if num_inserted =? w_ipc (co_window c) then Ok (c, None)
        else if is_full (co_window c) then Ok (c, None)
        else
          w ← insert_inst (co_window c) true (-1) (-1);
          let c := set_issued (set_window c w) (co_insts_issued c + 1) in
          let c := set_ops c (mkOps (o_num_bubbles o - 1) (o_load_addr o) (o_writeback_addr o) (o_load_frontend_id o)
                                (o_writeback_frontend_id o)) in
          if co_insts_issued c =? co_num_expected_insts c then c ← finish_issue_roi c false; Ok (c, None)
          else issue_bubbles fuel c (num_inserted + 1)
    end
  else Ok (c, Some num_inserted).

Section tick.
Context {T : Type} (translate : T -> Request -> result (bool * Request * T)).

(** Translate a request and offer it to the cache; [None] when it must be retried. *)
Definition offer (clk : Clk_t) (tx_bytes : Z) (l : LLC) (t : T) (r : Request) : result (option Request * LLC * T) :=
  q ← translate t r;
  let '(ok, r, t) := q in
  if negb ok then Ok (None, l, t)
  else
    s ← LLC_send clk tx_bytes l r;
    let '(ok, r, l) := s in
    Ok ((if (ok : bool) then Some r else None), l, t).

Definition core_request (c : Core) (a : Addr_t) (type frontend_id : Z) : Request :=
  mkRequest a (-1) [] type (co_id c) (-1) frontend_id 0 (-1) (-1) (-1) (-1) false (-1) (-1) (Some cb_frontend).

(** Send the pending writeback; [true] when it was accepted. *)
Definition issue_writeback (clk : Clk_t) (tx_bytes : Z) (c : Core) (l : LLC) (t : T) : result (bool * Core * LLC * T) :=
  let o := co_ops c in
  q ← offer clk tx_bytes l t (core_request c (o_writeback_addr o) Write (o_writeback_frontend_id o));
  let '(sent, l, t) := q in
  match sent with
  | None => Ok (false, c, l, t)
  | Some _ =>
      Ok (true, set_ops c (mkOps (o_num_bubbles o) (o_load_addr o) (-1) (o_load_frontend_id o)
                             (o_writeback_frontend_id o)), l, t)
  end.

(** The retirement and accounting at the start of a tick. *)
Definition core_commit (clk : Clk_t) (c : Core) : result Core :=
  q ← retire (co_window c);
  let '(n, w) := q in
  let c := set_retired (set_window c w) (co_insts_retired c + n) (co_reached c) (co_cycles_recorded c) in
  c ← count_blocked c 1;
  Ok (if negb (co_reached c) && (co_num_expected_insts c <=? co_insts_retired c)
      then set_retired c (co_insts_retired c) true clk else c).

(** The load of the current record: [Some c] when the tick goes on. *)
Definition issue_load (clk : Clk_t) (tx_bytes num_inserted : Z) (c : Core) (l : LLC) (t : T)
  : result (bool * Core * LLC * T) :=
  let o := co_ops c in
  if o_load_addr o =? -1 then Ok (true, c, l, t)
  else if num_inserted =? w_ipc (co_window c) then Ok (false, c, l, t)
  else if is_full (co_window c) then Ok (false, c, l, t)
  else
    q ← offer clk tx_bytes l t (core_request c (o_load_addr o) Read (o_load_frontend_id o));
    let '(sent, l, t) := q in
    match sent with
    | None => Ok (false, c, l, t)
    | Some r =>
        w ← insert_inst (co_window c) false (addr r) (frontend_id r);
        let c := set_issued (set_window c w) (co_insts_issued c + 1) in
        let c := set_ops c (mkOps (o_num_bubbles o) (-1) (o_writeback_addr o) (o_load_frontend_id o)
                              (o_writeback_frontend_id o)) in
        if co_insts_issued c =? co_num_expected_insts c
        then c ← finish_issue_roi c true; Ok (false, c, l, t)
        else Ok (o_writeback_addr o =? -1, c, l, t)
    end.

Definition Core_tick (clk : Clk_t) (tx_bytes : Z) (c : Core) (l : LLC) (t : T) : result (Core * LLC * T) :=
  c ← core_commit clk c;
  if co_roi_issue_complete c then
    if negb (co_writeback_after_roi c) then Ok (c, l, t)
    else
      q ← issue_writeback clk tx_bytes c l t;
      let '(sent, c, l, t) := q in
      Ok ((if (sent : bool) then set_roi c true false else c), l, t)
  else
    b ← issue_bubbles (S (Z.to_nat (o_num_bubbles (co_ops c)))) c 0;
    match b with
    | (c, None) => Ok (c, l, t)
    | (c, Some n) =>
        q ← issue_load clk tx_bytes n c l t;
        let '(go, c, l, t) := q in
        if negb go then Ok (c, l, t)
        else
          q ← (if negb (o_writeback_addr (co_ops c) =? -1) then issue_writeback clk tx_bytes c l t else Ok (true, c, l, t));
          let '(sent, c, l, t) := q in
          if negb sent then Ok (c, l, t) else c ← fetch_next_trace_inst c; Ok (c, l, t)
    end.
End tick.

(** [receive]: a logical request of this core has completed. *)
Definition Core_receive (c : Core) (r : Request) : result Core :=
  if negb (type_id r =? Read) && negb (type_id r =? Write)
  then Err (Throw "SimpleO3 core received an unsupported logical request type")
  else if negb (type_id r =? Read) then Ok c
  else
    let c := match co_crit c with None => c | Some m => set_crit c (Some (delete (addr r) m)) end in
    q ← set_ready (co_window c) (frontend_id r);
    let '(found, w) := q in
    if negb found then Err (Throw "SimpleO3 read completion does not match an in-flight ROB identity")
    else
      let c := set_window c w in
      Ok (if negb (arrive r =? -1) && (co_last_mem_cycle c <? depart r) && negb (co_reached c) then
            mkCore (co_id c) (co_trace c) (co_window c) (co_crit c) (co_ops c) (co_next_frontend_id c)
              (co_roi_issue_complete c) (co_writeback_after_roi c) (co_num_expected_insts c) (depart r) (co_reached c)
              (co_insts_issued c) (co_insts_retired c) (co_cycles_recorded c)
              (co_mem_access_cycles c + (depart r - Z.max (co_last_mem_cycle c) (arrive r)))
          else c).

(** ** Elision *)
Definition is_stalled (c : Core) : result bool :=
  if co_roi_issue_complete c then
    if co_writeback_after_roi c then Ok false
    else ready ← tail_ready (co_window c); Ok (negb ready)
  else if negb (is_full (co_window c)) then Ok false
  else
    ready ← tail_ready (co_window c);
    if (ready : bool) then Ok false
    else
      let o := co_ops c in
      Ok (negb ((o_num_bubbles o =? 0) && (o_load_addr o =? -1) && negb (o_writeback_addr o =? -1))).

Definition Core_fast_forward (c : Core) (ticks : Clk_t) : result Core := count_blocked c ticks.

Definition issue_roi_quiescent (c : Core) : bool := co_roi_issue_complete c && negb (co_writeback_after_roi c).
