(* ===== verification/SimpleO3.v ===== *)
(** * The SimpleO3 frontend

    [frontend/impl/processor/simpleO3/simpleO3.cpp] with [SimpleO3LLC::tick] of
    [llc.cpp], which sends to the memory system and completes hits through the
    frontend.  Callbacks that a memory operation fires are run right after it. *)

From Stdlib Require Import ZArith Lia.
From S2P Require Import Prelude Base Latency Elision Simulation LLC Core.

Local Open Scope Z_scope.

Record O3Config := mkO3Config {
  oc_num_expected_insts : Z;
  oc_allow_trace_wrap : bool;
  oc_traces : list (string * list Inst);
  oc_ipc : Z;
  oc_depth : Z;
  oc_llc_latency : Z;
  oc_llc_linesize_bytes : Z;
  oc_llc_associativity : Z;
  oc_llc_num_mshr_per_core : Z;
  oc_llc_capacity_per_core : Z;
  oc_crit_trace : bool
}.

Section simpleO3.
Context {T M : Type} (translate : T -> Request -> result (bool * Request * T)).
Context `{IMemorySystem M} `{Callbacks M}.

Record SimpleO3 := mkO3 {
  o3_clk : Clk_t;
  o3_llc : LLC;
  o3_cores : list Core;
  o3_translation : T
}.

Definition set_llc (f : SimpleO3) (l : LLC) : SimpleO3 := mkO3 (o3_clk f) l (o3_cores f) (o3_translation f).
Definition set_cores (f : SimpleO3) (cs : list Core) : SimpleO3 := mkO3 (o3_clk f) (o3_llc f) cs (o3_translation f).

(** [init]; capacities are the parsed values. *)
Definition O3_init (cfg : O3Config) (t : T) : result SimpleO3 :=
  let n := Z.of_nat (length (oc_traces cfg)) in
  let int_max := 2 ^ 31 - 1 in
  if oc_num_expected_insts cfg <=? 0 then Err (Throw "SimpleO3 num_expected_insts must be positive")
  else if n =? 0 then Err (Throw "SimpleO3 requires at least one core trace")
  else if int_max <? n then Err (Throw "SimpleO3 core count exceeds the supported range")
  else if (oc_ipc cfg <=? 0) || (oc_depth cfg <=? 0)
  then Err (Throw "SimpleO3 IPC and instruction-window depth must be positive")
  else if oc_llc_num_mshr_per_core cfg <=? 0 then Err (Throw "SimpleO3 LLC MSHRs per core must be positive")
  else if (oc_llc_capacity_per_core cfg =? 0) || (int_max / n <? oc_llc_capacity_per_core cfg)
  then Err (Throw "SimpleO3 aggregate LLC capacity exceeds the supported range")
  else if int_max / n <? oc_llc_num_mshr_per_core cfg
  then Err (Throw "SimpleO3 aggregate LLC MSHR count exceeds the supported range")
  else
    llc ← LLC_init (oc_llc_latency cfg) (oc_llc_capacity_per_core cfg * n) (oc_llc_linesize_bytes cfg)
            (oc_llc_associativity cfg) (oc_llc_num_mshr_per_core cfg * n);
    cores ← mapM (fun it : nat * (string * list Inst) =>
                    Core_init (Z.of_nat it.1) (oc_ipc cfg) (oc_depth cfg) (oc_num_expected_insts cfg) it.2.1 it.2.2
                      (oc_allow_trace_wrap cfg) (oc_crit_trace cfg)) (imap pair (oc_traces cfg));
    Ok (mkO3 0 llc cores t).

(** Hand a completed logical request back to its core. *)
Definition return_to_core (f : SimpleO3) (r : Request) (msg : string) : result SimpleO3 :=
  if (source_id r <? 0) || (Z.of_nat (length (o3_cores f)) <=? source_id r) then Err (Throw msg)
  else
    c ← vget (o3_cores f) (source_id r);
    c ← Core_receive c r;
    cs ← vset (o3_cores f) (source_id r) c;
    Ok (set_cores f cs).

(** The loop of [receive] over the requests that waited for the line. *)
Definition complete_one (req : Request) (f : SimpleO3) (q : LogicalRequest) : result SimpleO3 :=
  l ← complete_logical_request (o3_llc f) q (o3_clk f);
  let r := set_depart (set_arrive (set_type (lr_req q) (lr_original_type q)) (arrive req)) (depart req) in
  return_to_core (set_llc f l) r "SimpleO3 logical completion has an invalid source id".

Definition O3_receive (f : SimpleO3) (req : Request) : result SimpleO3 :=
  t ← take_receive_requests (o3_llc f) (addr req);
  let '(logical, l) := t in
  if existsb (fun q => bool_decide (lr_path q = Hit)) logical
  then Err (Throw "SimpleO3 memory completion contains an LLC-hit request")
  else
    l ← LLC_receive l req;
    foldM (complete_one req) (set_llc f l) logical.

Definition O3_receive_hit (f : SimpleO3) (q : LogicalRequest) : result SimpleO3 :=
  if negb (bool_decide (lr_path q = Hit)) then Err (Throw "SimpleO3 hit completion has a non-hit logical path")
  else
    l ← complete_logical_request (o3_llc f) q (o3_clk f);
    return_to_core (set_llc f l) (set_type (lr_req q) (lr_original_type q))
      "SimpleO3 logical hit completion has an invalid source id".

(** Running a closure: the frontend's, the writeback's, or the counter of a split
    line, which runs the closure of the original request when it reaches zero. *)
Definition run_closure (f : SimpleO3) (id : Z) (done : Request) : result SimpleO3 :=
  if id =? cb_frontend then O3_receive f done
  else if id =? cb_writeback then l ← writeback_done (o3_llc f); Ok (set_llc f l)
  else Err Undef.

Definition on_callback (f : SimpleO3) (done : Request) : result SimpleO3 :=
  match callback done with
  | None => Ok f
  | Some id =>
      match l_splits (o3_llc f) !! id with
      | Some (remaining, original) =>
          let l := o3_llc f in
          let f := set_llc f (set_splits l (<[id := (remaining - 1, original)]> (l_splits l)) (l_next_split l)) in
          if remaining - 1 =? 0 then
            match callback original with Some id => run_closure f id original | None => Err Undef end
          else Ok f
      | None => run_closure f id done
      end
  end.

(** Send to the memory system and run the callbacks it fires. *)
Definition send_memory (f : SimpleO3) (m : M) (r : Request) : result (bool * Request * SimpleO3 * M) :=
  q ← ms_send m r;
  let '(ok, r, m) := q in
  let '(done, m) := take_callbacks m in
  f ← foldM on_callback f done;
  Ok (ok, r, f, m).

(** The two loops of [SimpleO3LLC::tick]; [kept] are the entries that stay. *)
Fixpoint tick_misses (q kept : list (Clk_t * Request)) (f : SimpleO3) (m : M) : result (SimpleO3 * M) :=
  match q with
  | [] => Ok (f, m)
  | (due, r) :: q =>
      if due <=? o3_clk f then
        s ← send_memory f m r;
        let '(ok, r, f, m) := s in
        let kept := if (ok : bool) then kept else kept ++ [(due, r)] in
        tick_misses q kept (set_llc f (set_miss (o3_llc f) (kept ++ q))) m
      else tick_misses q (kept ++ [(due, r)]) f m
  end.

Fixpoint tick_hits (q kept : list (Clk_t * LogicalRequest)) (f : SimpleO3) : result SimpleO3 :=
  match q with
  | [] => Ok f
  | (due, x) :: q =>
      if due <=? o3_clk f then
        f ← O3_receive_hit f x;
        tick_hits q kept (set_llc f (set_hit (o3_llc f) (kept ++ q)))
      else tick_hits q (kept ++ [(due, x)]) f
  end.

Definition LLC_tick (f : SimpleO3) (m : M) : result (SimpleO3 * M) :=
  q ← tick_misses (l_miss_list (o3_llc f)) [] f m;
  let '(f, m) := q in
  f ← tick_hits (l_hit_list (o3_llc f)) [] f;
  Ok (f, m).

(** The cores tick in order, sharing the cache and the translation. *)
Definition tick_core (tx_bytes : Z) (f : SimpleO3) (i : nat) : result SimpleO3 :=
  c ← vget (o3_cores f) (Z.of_nat i);
  q ← Core_tick translate (o3_clk f) tx_bytes c (o3_llc f) (o3_translation f);
  let '(c, l, t) := q in
  cs ← vset (o3_cores f) (Z.of_nat i) c;
  Ok (mkO3 (o3_clk f) l cs t).

Definition O3_tick (f : SimpleO3) (m : M) : result (SimpleO3 * M) :=
  let f := mkO3 (o3_clk f + 1) (o3_llc f) (o3_cores f) (o3_translation f) in
  q ← LLC_tick f m;
  let '(f, m) := q in
  f ← foldM (tick_core (ms_get_tx_bytes m)) f (seq 0 (length (o3_cores f)));
  Ok (f, m).

(** ** Elision and termination *)
Definition O3_idle_ticks (f : SimpleO3) (max_useful : Clk_t) : result Clk_t :=
  stalled ← foldM (fun ok c => if (ok : bool) then is_stalled c else Ok false) true (o3_cores f);
  if negb stalled then Ok 0
  else
    let next := next_event (o3_clk f) (o3_llc f) in
    if next <=? o3_clk f + 1 then Ok 0 else Ok (Z.min max_useful (next - o3_clk f - 1)).

Definition O3_fast_forward (f : SimpleO3) (ticks : Clk_t) : result SimpleO3 :=
  cs ← mapM (fun c => Core_fast_forward c ticks) (o3_cores f);
  Ok (mkO3 (o3_clk f + ticks) (o3_llc f) cs (o3_translation f)).

Definition O3_is_finished (f : SimpleO3) : result bool :=
  if forallb (fun c => co_reached c && issue_roi_quiescent c) (o3_cores f) then is_quiescent (o3_llc f)
  else Ok false.

#[export] Instance O3_frontend : IFrontEnd SimpleO3 M := {|
  f_tick := O3_tick;
  f_receive := on_callback;
  f_is_finished := O3_is_finished;
  f_idle_ticks := O3_idle_ticks;
  f_fast_forward := O3_fast_forward
|}.
End simpleO3.
Arguments SimpleO3 : clear implicits.
