(* ===== verification/O3Facts.v ===== *)
(** * Invariants of the core and of the SimpleO3 frontend

    The instruction window and the core keep their bounds and count their stalls
    exactly; the frontend of cores and cache then keeps the elision contract of the
    simulation loop. *)

From Stdlib Require Import ZArith Lia.
From S2P Require Import Prelude Base LLC Core Latency Elision Simulation LLCProps SimpleO3.

Local Open Scope Z_scope.

Record window_wf (w : InstWindow) : Prop := {
  ww_ipc : 0 < w_ipc w;
  ww_depth : 0 < w_depth w;
  ww_load : 0 <= w_load w <= w_depth w;
  ww_tail : 0 <= w_tail_idx w < w_depth w;
  ww_head : w_head_idx w = (w_tail_idx w + w_load w) mod w_depth w;
  ww_ready : Z.of_nat (length (w_ready_list w)) = w_depth w;
  ww_addr : Z.of_nat (length (w_addr_list w)) = w_depth w;
  ww_fid : Z.of_nat (length (w_frontend_id_list w)) = w_depth w
}.

Definition inst_ok (i : Inst) : Prop := 0 <= bubble_count i /\ (0 < bubble_count i \/ load_addr i <> -1).

(** There is an operation to issue. *)
Definition has_ops (o : Ops) : Prop := 0 < o_num_bubbles o \/ o_load_addr o <> -1 \/ o_writeback_addr o <> -1.

Record core_wf (c : Core) : Prop := {
  cw_window : window_wf (co_window c);
  cw_trace : Forall inst_ok (t_trace (co_trace c));
  cw_bubbles : 0 <= o_num_bubbles (co_ops c);
  cw_ops : co_roi_issue_complete c = false -> has_ops (co_ops c);
  cw_reached : co_reached c = true \/ co_insts_retired c < co_num_expected_insts c
}.

(** ** The window *)
Lemma InstWindow_init_wf (ipc depth : Z) : 0 < ipc -> 0 < depth -> window_wf (InstWindow_init ipc depth).
Proof. intros Hi Hd. split; cbn; rewrite ?length_replicate, ?Z.mod_0_l; lia. Qed.

Lemma insert_inst_wf (w w' : InstWindow) (ready : bool) (a fid : Z) :
  window_wf w -> is_full w = false -> insert_inst w ready a fid = Ok w' -> window_wf w' /\ w_ipc w' = w_ipc w.
Proof.
  intros [H1 H2 H3 H4 H5 H6 H7 H8] Hf H. unfold is_full in Hf. unfold insert_inst, vset_at in H.
  pose proof (Z.mod_pos_bound (w_tail_idx w + w_load w) (w_depth w) H2) as Hb. rewrite <- H5 in Hb.
  apply bind_Ok in H as (rl & Hr & H). apply bind_Ok in H as (al & Ha & H). apply bind_Ok in H as (fl & Hl & H).
  destruct (vset (w_ready_list w) _ _) as [rl'|] eqn:Er; [|done]. injection Hr as ->.
  destruct (vset (w_addr_list w) _ _) as [al'|] eqn:Ea; [|done]. injection Ha as ->.
  destruct (vset (w_frontend_id_list w) _ _) as [fl'|] eqn:Ef; [|done]. injection Hl as ->.
  apply vset_length in Er, Ea, Ef. destruct (_ =? 0); [done|]. injection H as <-. split; [|done].
  split; cbn; try lia. rewrite Z.rem_mod_nonneg, H5, Zplus_mod_idemp_l by lia. f_equal. lia.
Qed.

(** The tail not being ready stops retirement at once. *)
Lemma retire_stalled (w : InstWindow) :
  window_wf w -> tail_ready w = Ok false -> retire w = Ok (0, w).
Proof.
  intros [H1 H2 H3 H4 H5 H6 H7 H8] Ht. unfold retire, tail_ready in *.
  destruct (Z.to_nat (w_ipc w)) as [|n] eqn:En; [lia|]. cbn [retire_loop].
  destruct (Z.ltb_spec 0 (w_load w)); [|done]. destruct (Z.ltb_spec 0 (w_ipc w)); [|lia]. cbn [andb].
  unfold vget_at. rewrite Ht. done.
Qed.

Lemma retire_loop_wf (fuel : nat) (w w' : InstWindow) (n k : Z) :
  window_wf w -> retire_loop fuel w n = Ok (k, w') -> window_wf w' /\ w_ipc w' = w_ipc w /\ w_depth w' = w_depth w.
Proof.
  revert w n. induction fuel as [|fuel IH]; intros w n Hw H; cbn [retire_loop] in H.
  - destruct (_ && _); [done|]. by injection H as <- <-.
  - destruct (_ && _) eqn:E; [|by injection H as <- <-]. apply bind_Ok in H as (ready & _ & H).
    destruct (negb ready); [by injection H as <- <-|]. destruct (_ =? 0); [done|].
    apply IH in H as (? & ? & ?); [done|]. destruct Hw as [H1 H2 H3 H4 H5 H6 H7 H8]. split; cbn; try lia.
    + rewrite Z.rem_mod_nonneg by lia. apply Z.mod_pos_bound. lia.
    + rewrite Z.rem_mod_nonneg, H5, Zplus_mod_idemp_l by lia. f_equal. lia.
Qed.

Lemma set_ready_wf (w w' : InstWindow) (fid : Z) (b : bool) :
  window_wf w -> set_ready w fid = Ok (b, w') -> window_wf w'.
Proof.
  intros Hw H. unfold set_ready in H. destruct (_ <? 0); [done|]. apply bind_Ok in H as ([i|] & _ & H); [|by injection H as <- <-].
  apply bind_Ok in H as (rl & Hr%vset_length & [= <- <-]). destruct Hw. split; cbn; try done. lia.
Qed.

Lemma blocked_addr_total (w : InstWindow) : window_wf w -> is_ok (blocked_addr w).
Proof.
  intros [H1 H2 H3 H4 H5 H6 H7 H8]. unfold blocked_addr. destruct (_ <? _); [|by eexists].
  destruct (vget_in_range (w_ready_list w) (w_tail_idx w)) as [[] ->]; [lia|by eexists|].
  cbn. apply vget_in_range. lia.
Qed.

Lemma tail_ready_total (w : InstWindow) : window_wf w -> is_ok (tail_ready w).
Proof.
  intros [H1 H2 H3 H4 H5 H6 H7 H8]. unfold tail_ready. destruct (_ <? _); [|by eexists]. apply vget_in_range. lia.
Qed.

(** ** Initialisation and fetch *)
Lemma Trace_init_ok (path : string) (insts : list Inst) (w : bool) (t : Trace) :
  Trace_init path insts w = Ok t -> Forall inst_ok (t_trace t).
Proof.
  unfold Trace_init. intros (count & Hf & H)%bind_Ok. destruct (_ =? 0)%nat; [done|]. injection H as <-. cbn.
  assert (forall l a c, foldM (check_inst path) a l = Ok c -> Forall (fun ni => inst_ok ni.2) l) as Hall.
  { induction l as [|[n i] l IH]; intros a c H; [constructor|]. cbn [foldM] in H. apply bind_Ok in H as (a1 & H1 & H).
    constructor; [|by eapply IH]. unfold check_inst in H1. unfold inst_ok. cbn.
    destruct (Z.ltb_spec (bubble_count i) 0); [done|]. destruct (load_addr i <? -1); [done|].
    destruct (store_addr i <? -1); [done|]. destruct (_ && _) eqn:E; [done|]. lia. }
  specialize (Hall _ _ _ Hf). apply Forall_forall. intros i Hi. apply list_elem_of_lookup in Hi as [k Hk].
  rewrite Forall_forall in Hall. apply (Hall (k, i)). apply list_elem_of_lookup. exists k.
  rewrite list_lookup_imap, Hk. done.
Qed.

Lemma fetch_wf (c c' : Core) :
  window_wf (co_window c) -> Forall inst_ok (t_trace (co_trace c)) ->
  co_reached c = true \/ co_insts_retired c < co_num_expected_insts c ->
  fetch_next_trace_inst c = Ok c' -> core_wf c' /\ co_roi_issue_complete c' = false.
Proof.
  intros Hw Ht Hr H. unfold fetch_next_trace_inst in H. destruct (co_roi_issue_complete c) eqn:Eroi; [done|].
  apply bind_Ok in H as ([inst t] & Hi & H). unfold get_next_inst in Hi. destruct (_ && _); [done|].
  apply bind_Ok in Hi as (i0 & Hv & [= <- <-]).
  assert (inst_ok i0) as [Hb Ho].
  { apply vget_Ok in Hv as [_ Hv]. by eapply Forall_lookup_1. }
  destruct (negb (load_addr i0 =? -1)) eqn:El; destruct (negb (store_addr i0 =? -1)); injection H as <-;
    (split; [split; cbn; try done; intros _; unfold has_ops; cbn; lia|done]).
Qed.

Lemma Core_init_wf (id ipc depth expected : Z) (path : string) (insts : list Inst) (wrap crit : bool) (c : Core) :
  0 < ipc -> 0 < depth -> 0 < expected -> Core_init id ipc depth expected path insts wrap crit = Ok c -> core_wf c.
Proof.
  intros Hi Hd He H. unfold Core_init in H. apply bind_Ok in H as (t & Ht%Trace_init_ok & H).
  destruct (_ && _); [done|]. apply fetch_wf in H as [? _]; cbn; [done|by apply InstWindow_init_wf|done|by right].
Qed.

(** ** Ticks *)
Lemma finish_issue_roi_wf (c c' : Core) (k : bool) :
  window_wf (co_window c) -> Forall inst_ok (t_trace (co_trace c)) ->
  co_reached c = true \/ co_insts_retired c < co_num_expected_insts c ->
  finish_issue_roi c k = Ok c' -> core_wf c'.
Proof.
  intros Hw Ht Hr H. unfold finish_issue_roi in H. destruct (negb _); [done|]. injection H as <-. by split; cbn.
Qed.

(** Counting a blocked cycle only touches the criticality table. *)
Lemma count_blocked_frame (c c' : Core) (n : Z) :
  count_blocked c n = Ok c' -> exists m, c' = set_crit c m.
Proof.
  unfold count_blocked. destruct (co_crit c) as [m|] eqn:Ec; [|intros [= <-]; exists None; destruct c; cbn in *; by subst].
  intros (b & _ & H)%bind_Ok. destruct (_ =? _); injection H as <-; [exists (Some m); destruct c; cbn in *; by subst|by eexists].
Qed.

Lemma set_crit_wf (c : Core) (m : option (gmap Z Z)) : core_wf c -> core_wf (set_crit c m).
Proof. by intros [H1 H2 H3 H4 H5]; split. Qed.

Lemma core_commit_wf (clk : Clk_t) (c c' : Core) :
  core_wf c -> core_commit clk c = Ok c' -> core_wf c' /\ co_roi_issue_complete c' = co_roi_issue_complete c.
Proof.
  intros [H1 H2 H3 H4 H5] H. unfold core_commit in H. apply bind_Ok in H as ([n w] & Hr & H).
  destruct (retire_loop_wf _ _ _ _ _ H1 Hr) as (Hw & _). apply bind_Ok in H as (c1 & Hb & H).
  apply count_blocked_frame in Hb as [m ->]. injection H as <-. destruct (_ && _) eqn:E; cbn in E; (split; [|done]).
  - split; cbn; try done. by left.
  - split; cbn; try done. destruct (co_reached c); [by left|]. right. cbn in E. lia.
Qed.

Lemma issue_bubbles_wf (fuel : nat) (c c' : Core) (n : Z) (o : option Z) :
  core_wf c -> co_roi_issue_complete c = false -> issue_bubbles fuel c n = Ok (c', o) ->
  match o with
  | None => core_wf c'
  | Some _ => window_wf (co_window c') /\ Forall inst_ok (t_trace (co_trace c')) /\ o_num_bubbles (co_ops c') = 0 /\
      (co_reached c' = true \/ co_insts_retired c' < co_num_expected_insts c') /\
      co_roi_issue_complete c' = false
  end.
Proof.
  intros Hc Hroi H.
  assert (forall fuel c n, window_wf (co_window c) -> Forall inst_ok (t_trace (co_trace c)) -> 0 <= o_num_bubbles (co_ops c) ->
    (co_reached c = true \/ co_insts_retired c < co_num_expected_insts c) -> co_roi_issue_complete c = false ->
    issue_bubbles fuel c n = Ok (c', o) ->
    match o with None => core_wf c' | Some _ => window_wf (co_window c') /\ Forall inst_ok (t_trace (co_trace c')) /\
      o_num_bubbles (co_ops c') = 0 /\ (co_reached c' = true \/ co_insts_retired c' < co_num_expected_insts c') /\
      co_roi_issue_complete c' = false end) as Hgen; [|by destruct Hc; eapply Hgen].
  clear Hc Hroi H. induction fuel0 as [|f IH]; intros c0 n0 Hw Ht Hb Hr Hroi H; cbn [issue_bubbles] in H;
    (destruct (Z.ltb_spec 0 (o_num_bubbles (co_ops c0))); [|injection H as <- <-; split_and!; try done; lia]); [done|].
  assert (has_ops (co_ops c0)) as Hops by (by left).
  destruct (_ =? w_ipc _); [injection H as <- <-; by split|]. destruct (is_full _) eqn:Ef; [injection H as <- <-; by split|].
  apply bind_Ok in H as (w & Hi & H). destruct (insert_inst_wf _ _ _ _ _ Hw Ef Hi) as [Hw' _].
  destruct (_ =? _).
  - apply bind_Ok in H as (c2 & Hf & [= <- <-]). by eapply finish_issue_roi_wf; [..|exact Hf].
  - eapply IH; [..|exact H]; cbn; try done. lia.
Qed.

Section tick.
Context {T : Type} (translate : T -> Request -> result (bool * Request * T)).

Lemma offer_llc (P : LLC -> Prop) (clk tx : Z) (l l' : LLC) (t t' : T) (r : Request) (o : option Request) :
  (forall r ok r' l', LLC_send clk tx l r = Ok (ok, r', l') -> P l') -> P l ->
  offer translate clk tx l t r = Ok (o, l', t') -> P l'.
Proof.
  intros Hs Hl H. unfold offer in H. apply bind_Ok in H as ([[ok r1] t1] & _ & H). destruct (negb ok); [by injection H as <- <- <-|].
  apply bind_Ok in H as ([[ok2 r2] l2] & H2 & [= <- <- <-]). by eapply Hs.
Qed.

Lemma issue_load_wf (clk tx n : Z) (c c' : Core) (l l' : LLC) (t t' : T) (go : bool) :
  window_wf (co_window c) -> Forall inst_ok (t_trace (co_trace c)) -> o_num_bubbles (co_ops c) = 0 ->
  (co_reached c = true \/ co_insts_retired c < co_num_expected_insts c) -> co_roi_issue_complete c = false ->
  issue_load translate clk tx n c l t = Ok (go, c', l', t') ->
  (if go then window_wf (co_window c') /\ Forall inst_ok (t_trace (co_trace c')) /\ o_num_bubbles (co_ops c') = 0 /\
     (co_reached c' = true \/ co_insts_retired c' < co_num_expected_insts c') /\ co_roi_issue_complete c' = false
   else core_wf c') /\
  (forall P : LLC -> Prop, (forall r ok r' l', LLC_send clk tx l r = Ok (ok, r', l') -> P l') -> P l -> P l').
Proof.
  intros Hw Ht Hb Hr Hroi H. unfold issue_load in H.
  destruct (Z.eqb_spec (o_load_addr (co_ops c)) (-1)) as [|Hla]; [injection H as <- <- <- <-; split; [done|auto]|].
  assert (core_wf c) as Hc by (split; try done; [lia|intros _; right; by left]).
  destruct (_ =? w_ipc _); [injection H as <- <- <- <-; split; [done|auto]|].
  destruct (is_full _) eqn:Ef; [injection H as <- <- <- <-; split; [done|auto]|].
  apply bind_Ok in H as ([[sent l1] t1] & Ho & H).
  assert (forall P : LLC -> Prop, (forall r ok r' l', LLC_send clk tx l r = Ok (ok, r', l') -> P l') -> P l -> P l1) as HP
    by (intros P HP1 HP2; by eapply offer_llc).
  destruct sent as [r|]; [|injection H as <- <- <- <-; split; [done|auto]].
  apply bind_Ok in H as (w & Hi & H). destruct (insert_inst_wf _ _ _ _ _ Hw Ef Hi) as [Hw' _].
  destruct (_ =? co_num_expected_insts _).
  - apply bind_Ok in H as (c2 & Hf & [= <- <- <- <-]). split; [|done]. by eapply finish_issue_roi_wf; [..|exact Hf].
  - injection H as <- <- <- <-. split; [|done].
    destruct (Z.eqb_spec (o_writeback_addr (co_ops c)) (-1)); cbn; [done|]. split; cbn; try done; [lia|].
    intros _. right. right. done.
Qed.

Lemma issue_writeback_frame (clk tx : Z) (c c' : Core) (l l' : LLC) (t t' : T) (sent : bool) :
  issue_writeback translate clk tx c l t = Ok (sent, c', l', t') ->
  (if sent then exists a b d e, c' = set_ops c (mkOps (o_num_bubbles (co_ops c)) a b d e) else c' = c) /\
  (forall P : LLC -> Prop, (forall r ok r' l', LLC_send clk tx l r = Ok (ok, r', l') -> P l') -> P l -> P l').
Proof.
  intros H. unfold issue_writeback in H. apply bind_Ok in H as ([[o l1] t1] & Ho & H).
  assert (forall P : LLC -> Prop, (forall r ok r' l', LLC_send clk tx l r = Ok (ok, r', l') -> P l') -> P l -> P l1) as HP
    by (intros P HP1 HP2; by eapply offer_llc).
  destruct o; injection H as <- <- <- <-; (split; [|done]); [by eexists _, _, _, _|done].
Qed.

(** A tick keeps the core and whatever property of the cache its [send] keeps. *)
Lemma Core_tick_wf (P : LLC -> Prop) (clk tx : Z) (c c' : Core) (l l' : LLC) (t t' : T) :
  (forall l r ok r' l', P l -> LLC_send clk tx l r = Ok (ok, r', l') -> P l') ->
  core_wf c -> P l -> Core_tick translate clk tx c l t = Ok (c', l', t') -> core_wf c' /\ P l'.
Proof.
  intros HP Hc Hl H. unfold Core_tick in H. apply bind_Ok in H as (c1 & Hcm & H).
  destruct (core_commit_wf clk c c1 Hc Hcm) as [Hc1 _]. destruct (co_roi_issue_complete c1) eqn:Eroi.
  - destruct (negb _); [by injection H as <- <- <-|]. apply bind_Ok in H as ([[[sent c2] l2] t2] & Hw & [= <- <- <-]).
    destruct (issue_writeback_frame _ _ _ _ _ _ _ _ _ Hw) as [Hf HP2]. split; [|by apply HP2; [intros *; by apply HP|]].
    destruct sent; [|by subst]. destruct Hf as (a & b & d & e & ->). destruct Hc1. by split.
  - apply bind_Ok in H as ([c2 [n|]] & Hb & H); [|injection H as <- <- <-; split; [|done];
      exact (issue_bubbles_wf _ _ _ _ _ Hc1 Eroi Hb)].
    destruct (issue_bubbles_wf _ _ _ _ _ Hc1 Eroi Hb) as (W1 & W2 & W3 & W4 & W5).
    apply bind_Ok in H as ([[[go c3] l3] t3] & Hi & H).
    destruct (issue_load_wf _ _ _ _ _ _ _ _ _ _ W1 W2 W3 W4 W5 Hi) as [Hgo HP3].
    assert (P l3) as Hl3 by (apply HP3; [intros *; by apply HP|done]).
    destruct go; [|by injection H as <- <- <-]. cbn [negb] in H. destruct Hgo as (V1 & V2 & V3 & V4 & V5).
    apply bind_Ok in H as ([[[sent c4] l4] t4] & Hw & H).
    assert ((if sent then exists o, c4 = set_ops c3 o else core_wf c4) /\ P l4) as [Hs Hl4].
    { destruct (Z.eqb_spec (o_writeback_addr (co_ops c3)) (-1)) as [|Hwb]; cbn [negb] in Hw.
      - injection Hw as <- <- <- <-. split; [|done]. exists (co_ops c3). by destruct c3.
      - destruct (issue_writeback_frame _ _ _ _ _ _ _ _ _ Hw) as [Hf HP4]. split; [|by apply HP4; [intros *; by apply HP|]].
        destruct sent; [destruct Hf as (a & b & d & e & ->); by eexists|]. subst c4. split; try done; [lia|]. intros _. by right; right. }
    destruct sent; [|by injection H as <- <- <-]. destruct Hs as [o ->]. apply bind_Ok in H as (c5 & Hf & [= <- <- <-]).
    split; [|done]. by apply (fetch_wf _ _ V1 V2 V4 Hf).
Qed.

(** ** Stalled cores *)
Lemma is_stalled_total (c : Core) : core_wf c -> is_ok (is_stalled c).
Proof.
  intros [Hw _ _ _ _]. unfold is_stalled. destruct (tail_ready_total _ Hw) as [b ->].
  repeat (case_match; cbn; try by eexists).
Qed.

Lemma is_stalled_tail (c : Core) : is_stalled c = Ok true -> tail_ready (co_window c) = Ok false.
Proof.
  unfold is_stalled. destruct (co_roi_issue_complete c).
  - destruct (co_writeback_after_roi c); [done|]. destruct (tail_ready _) as [[]|]; done.
  - destruct (negb _); [done|]. destruct (tail_ready _) as [[]|]; done.
Qed.

(** The tick of a stalled core only counts a blocked cycle. *)
Lemma stalled_tick (clk tx : Z) (c : Core) (l : LLC) (t : T) :
  core_wf c -> is_stalled c = Ok true ->
  Core_tick translate clk tx c l t = (c' ← Core_fast_forward c 1; Ok (c', l, t)).
Proof.
  intros [Hw Ht Hb Ho Hr] Hs. unfold Core_tick, core_commit, Core_fast_forward.
  rewrite (retire_stalled _ Hw (is_stalled_tail c Hs)). cbn [mbind result_bind].
  assert (set_retired (set_window c (co_window c)) (co_insts_retired c + 0) (co_reached c) (co_cycles_recorded c) = c) as ->
    by (destruct c; unfold set_retired, set_window; cbn; f_equal; lia).
  destruct (count_blocked c 1) as [c1|] eqn:E1; [|done]. apply count_blocked_frame in E1 as [m ->]. cbn [mbind result_bind].
  replace (negb (co_reached (set_crit c m)) && (co_num_expected_insts (set_crit c m) <=? co_insts_retired (set_crit c m))) with false
    by (cbn; destruct Hr as [->|]; [done|destruct (co_reached c); cbn; lia]).
  unfold is_stalled in Hs. cbn [co_roi_issue_complete co_writeback_after_roi set_crit].
  destruct (co_roi_issue_complete c).
  - destruct (co_writeback_after_roi c); done.
  - specialize (Ho eq_refl). destruct (is_full (co_window c)) eqn:Ef; [|done]. cbn [negb] in Hs.
    destruct (tail_ready (co_window c)) as [[]|]; [done| |done]. cbn in Hs. injection Hs as Hs.
    cbn [issue_bubbles co_ops set_crit co_window].
    destruct (Z.ltb_spec 0 (o_num_bubbles (co_ops c))) as [Hp|Hp].
    + rewrite Ef. pose proof (ww_ipc _ Hw). destruct (Z.eqb_spec 0 (w_ipc (co_window c))); [lia|]. done.
    + cbn [mbind result_bind]. unfold issue_load. cbn [co_ops set_crit co_window].
      assert (o_num_bubbles (co_ops c) = 0) as E0 by lia. rewrite E0 in Hs. cbn in Hs.
      destruct (Z.eqb_spec (o_load_addr (co_ops c)) (-1)) as [El|El].
      * destruct (Z.eqb_spec (o_writeback_addr (co_ops c)) (-1)) as [Ewb|]; [|done]. exfalso. unfold has_ops in Ho. lia.
      * pose proof (ww_ipc _ Hw). destruct (Z.eqb_spec 0 (w_ipc (co_window c))); [lia|]. by rewrite Ef.
Qed.
End tick.

(** ** Completions and fast-forward *)
Lemma Core_receive_wf (c c' : Core) (r : Request) : core_wf c -> Core_receive c r = Ok c' -> core_wf c'.
Proof.
  intros [H1 H2 H3 H4 H5] H. unfold Core_receive in H. destruct (_ && _); [done|]. destruct (negb _); [by injection H as <-|].
  set (c0 := match co_crit c with None => c | Some m => _ end) in H.
  assert (co_window c0 = co_window c /\ co_trace c0 = co_trace c /\ co_ops c0 = co_ops c /\
    co_roi_issue_complete c0 = co_roi_issue_complete c /\ co_reached c0 = co_reached c /\
    co_insts_retired c0 = co_insts_retired c /\ co_num_expected_insts c0 = co_num_expected_insts c)
    as (E1 & E2 & E3 & E4 & E5 & E6 & E7) by (unfold c0; by destruct (co_crit c)).
  apply bind_Ok in H as ([found w] & Hs & H). rewrite E1 in Hs. apply set_ready_wf in Hs; [|done].
  destruct (negb found); [done|]. injection H as <-.
  destruct (_ && _); split; cbn; rewrite ?E2, ?E3, ?E4, ?E5, ?E6, ?E7; done.
Qed.

Lemma count_blocked_total (c : Core) (n : Z) : core_wf c -> is_ok (count_blocked c n).
Proof.
  intros [Hw _ _ _ _]. unfold count_blocked. destruct (co_crit c); [|by eexists].
  destruct (blocked_addr_total _ Hw) as [b ->]. cbn. destruct (_ =? _); by eexists.
Qed.

(** Skipping [i] and then [j] blocked cycles. *)
Lemma count_blocked_add (c c' : Core) (i j : Z) :
  count_blocked c i = Ok c' -> count_blocked c' j = count_blocked c (i + j).
Proof.
  unfold count_blocked at 1 3. destruct (co_crit c) as [m|] eqn:Ec.
  - intros (b & Hb & H)%bind_Ok. rewrite Hb. cbn. destruct (Z.eqb_spec b (-1)) as [->|Hne]; injection H as <-.
    + unfold count_blocked. rewrite Ec, Hb. done.
    + unfold count_blocked. cbn [co_crit set_crit co_window]. rewrite Hb. cbn. destruct (Z.eqb_spec b (-1)); [done|].
      unfold set_crit. cbn. rewrite lookup_insert_eq, insert_insert_eq. cbn. do 4 f_equal. lia.
  - intros [= <-]. unfold count_blocked. by rewrite Ec.
Qed.

Lemma is_stalled_crit (c : Core) (m : option (gmap Z Z)) : is_stalled (set_crit c m) = is_stalled c.
Proof. done. Qed.

(** ** The SimpleO3 frontend keeps the elision contract *)
(** ** The next event of the cache *)
Lemma next_due_spec {A} (clk : Clk_t) (q : list (Clk_t * A)) (n r : Clk_t) :
  next_due clk q n = Some r -> r <= n /\ Forall (fun e => r <= e.1) q.
Proof.
  unfold next_due. revert n. induction q as [|e q IH]; intros n H; cbn in H; [injection H as <-; split; [lia|constructor]|].
  destruct (Z.leb_spec e.1 clk).
  - exfalso. clear IH. induction q as [|e' q IH]; cbn in H; [done|by apply IH].
  - apply IH in H as [Hle Hall]. split; [lia|]. constructor; [lia|done].
Qed.

Lemma next_due_later {A} (clk clk' : Clk_t) (q : list (Clk_t * A)) (n r : Clk_t) :
  next_due clk q n = Some r -> clk' < r -> next_due clk' q n = Some r.
Proof.
  intros H Hlt. pose proof (next_due_spec clk q n r H) as [_ Hall]. unfold next_due in *. revert n H.
  induction q as [|e q IH]; intros n H; cbn in *; [done|]. apply Forall_cons in Hall as [He Hall].
  destruct (Z.leb_spec e.1 clk').
  - lia.
  - destruct (Z.leb_spec e.1 clk); [|by apply IH]. exfalso. clear -H. induction q as [|e' q IH]; cbn in H; [done|by apply IH].
Qed.

Lemma next_event_spec (clk : Clk_t) (l : LLC) :
  0 < next_event clk l -> Forall (fun e => next_event clk l <= e.1) (l_miss_list l) /\
    Forall (fun e => next_event clk l <= e.1) (l_hit_list l) /\
    forall clk', clk' < next_event clk l -> next_event clk' l = next_event clk l.
Proof.
  unfold next_event. destruct (next_due clk (l_miss_list l) (2 ^ 63 - 1)) as [n|] eqn:E1; cbn [mbind option_bind]; [|cbn; lia].
  destruct (next_due clk (l_hit_list l) n) as [r|] eqn:E2; [|cbn; lia]. cbn. intros _.
  destruct (next_due_spec _ _ _ _ E1) as [_ H1]. destruct (next_due_spec _ _ _ _ E2) as [Hle H2]. split_and!.
  - eapply Forall_impl; [exact H1|]. intros e He. cbn in *. change (id r) with r. lia.
  - exact H2.
  - intros clk' Hlt. change (id r) with r in Hlt. rewrite (next_due_later _ clk' _ _ _ E1) by lia. cbn. by rewrite (next_due_later _ clk' _ _ _ E2).
Qed.

Lemma mapM_cons {A B} (f : A -> result B) (x : A) (l : list A) :
  mapM f (x :: l) = (y ← f x; k ← mapM f l; Ok (y :: k)).
Proof. done. Qed.

Section o3.
Context {T M : Type} (translate : T -> Request -> result (bool * Request * T)).
Context `{HM : IMemorySystem M} `{HC : Callbacks M} `{LM : !MemoryElision M}.

Record o3_inv (f : SimpleO3 T) : Prop := {
  oi_llc : llc_wf (o3_clk f) (o3_llc f);
  oi_cores : Forall core_wf (o3_cores f);
  oi_clk : 0 <= o3_clk f
}.

(** ** Completions *)
Lemma return_to_core_wf (f f' : SimpleO3 T) (r : Request) (msg : string) :
  Forall core_wf (o3_cores f) -> return_to_core f r msg = Ok f' ->
  Forall core_wf (o3_cores f') /\ o3_llc f' = o3_llc f /\ o3_clk f' = o3_clk f.
Proof.
  intros Hc H. unfold return_to_core in H. destruct (_ || _); [done|].
  apply bind_Ok in H as (c & Hg & H). apply bind_Ok in H as (c1 & Hr & H). apply bind_Ok in H as (cs & Hs & [= <-]).
  apply vget_Ok in Hg as [_ Hg]. apply vset_Ok in Hs as [_ ->]. split; [|done]. cbn.
  apply Forall_insert; [done|]. eapply Core_receive_wf; [|exact Hr]. by eapply Forall_lookup_1.
Qed.

Lemma complete_list_inv (req : Request) (b : list LogicalRequest) (f f' : SimpleO3 T) :
  llc_cfg (o3_llc f) -> lines_wf (o3_llc f) -> linked (o3_llc f) -> acct_wf (o3_clk f) (o3_llc f) b ->
  Forall core_wf (o3_cores f) -> 0 <= o3_clk f -> foldM (complete_one req) f b = Ok f' -> o3_inv f'.
Proof.
  revert f. induction b as [|q b IH]; intros f H1 H2 H3 H4 H5 H6 H; cbn [foldM] in H; [by injection H as <-|].
  apply bind_Ok in H as (f1 & Hf & H). unfold complete_one in Hf. apply bind_Ok in Hf as (l1 & Hl & Hf).
  destruct (complete_ok _ _ _ _ H4) as (l1' & Hl' & Ha & st & n & E). rewrite Hl in Hl'. injection Hl' as <-.
  apply return_to_core_wf in Hf as (Hc & El & Ek); [|done]. cbn in El, Ek.
  apply (IH f1); rewrite ?El, ?Ek; try done.
  - by eapply llc_cfg_ext; [|exact H1]; rewrite E.
  - by eapply lines_wf_ext; [|exact H2]; rewrite E.
  - rewrite E. exact H3.
Qed.

Lemma O3_receive_inv (f f' : SimpleO3 T) (r : Request) : o3_inv f -> O3_receive f r = Ok f' -> o3_inv f'.
Proof.
  intros [Hl Hc Hk] H. unfold O3_receive in H. apply bind_Ok in H as ([b l1] & Ht & H).
  destruct (fill_spec _ _ _ _ _ Hl Ht) as (l2 & Hr & H1 & H2 & H3 & H4 & _). destruct (existsb _ _); [done|].
  rewrite Hr in H. by eapply complete_list_inv; [..|exact H].
Qed.

Lemma run_closure_inv (f f' : SimpleO3 T) (id : Z) (r : Request) : o3_inv f -> run_closure f id r = Ok f' -> o3_inv f'.
Proof.
  intros Hf H. unfold run_closure in H. destruct (_ =? _); [by eapply O3_receive_inv|]. destruct (_ =? _); [|done].
  destruct Hf as [Hl Hc Hk]. apply bind_Ok in H as (l & Hw & [= <-]). split; [by eapply writeback_done_wf|done..].
Qed.

Lemma llc_wf_queues (clk : Clk_t) (l l' : LLC) :
  lines_of l' = lines_of l -> cfg_of l' = cfg_of l -> acct_of l' = acct_of l -> llc_wf clk l -> llc_wf clk l'.
Proof.
  intros E1 E2 E3 [H1 H2 H3 H4]. split; [by eapply llc_cfg_ext|by eapply lines_wf_ext|by eapply acct_wf_ext|].
  intros a. specialize (H4 a). unfold lines_of in E1. unfold acct_of in E3. injection E1 as _ _ _ _ _ _ _ _ ->.
  injection E3 as -> _ _ _. done.
Qed.

Lemma on_callback_inv (f f' : SimpleO3 T) (r : Request) : o3_inv f -> on_callback f r = Ok f' -> o3_inv f'.
Proof.
  intros Hf H. unfold on_callback in H. destruct (callback r) as [id|]; [|by injection H as <-].
  destruct (l_splits (o3_llc f) !! id) as [[n orig]|]; [|by eapply run_closure_inv].
  assert (o3_inv (set_llc f (set_splits (o3_llc f) (<[id:=(n - 1, orig)]> (l_splits (o3_llc f))) (l_next_split (o3_llc f))))) as Hf'.
  { destruct Hf as [Hl Hc Hk]. split; [|done..]. by eapply llc_wf_queues; [..|exact Hl]. }
  destruct (_ =? 0); [|by injection H as <-]. destruct (callback orig); [by eapply run_closure_inv|done].
Qed.

(** ** Ticks *)
Lemma callbacks_inv (l : list Request) (f f' : SimpleO3 T) : o3_inv f -> foldM on_callback f l = Ok f' -> o3_inv f'.
Proof. intros Hf. apply (foldM_inv o3_inv); [done|]. intros a b x _ Ha Hb. by eapply on_callback_inv. Qed.

Lemma tick_misses_inv (q kept : list (Clk_t * Request)) (f f' : SimpleO3 T) (m m' : M) :
  o3_inv f -> drained m -> tick_misses q kept f m = Ok (f', m') -> o3_inv f' /\ drained m'.
Proof.
  revert kept f m. induction q as [|[due r] q IH]; intros kept f m Hf Hd H; cbn [tick_misses] in H; [by injection H as <- <-|].
  destruct (due <=? o3_clk f); [|by eapply IH].
  apply bind_Ok in H as ([[[ok r1] f1] m1] & Hs & H). unfold send_memory in Hs.
  apply bind_Ok in Hs as ([[ok' r'] m2] & _ & Hs). destruct (take_callbacks m2) as [done m3] eqn:Et.
  apply bind_Ok in Hs as (f2 & Hcb & [= <- <- <- <-]). apply callbacks_inv in Hcb as [Hl Hc Hk]; [|done].
  eapply IH; [|exact (ms_take_drained _ _ _ Et)|exact H]. split; [|done..]. by eapply llc_wf_queues; [..|exact Hl].
Qed.

Lemma tick_hits_inv (q kept : list (Clk_t * LogicalRequest)) (f f' : SimpleO3 T) :
  o3_inv f -> l_hit_list (o3_llc f) = kept ++ q -> tick_hits q kept f = Ok f' -> o3_inv f'.
Proof.
  revert kept f. induction q as [|[due x] q IH]; intros kept f Hf El H; cbn [tick_hits] in H; [by injection H as <-|].
  destruct (due <=? o3_clk f); [|eapply IH; [..|exact H]; [done|by rewrite El, <- app_assoc]].
  destruct Hf as [Hl Hc Hk]. apply bind_Ok in H as (f1 & Hh & H). unfold O3_receive_hit in Hh. destruct (negb _); [done|].
  apply bind_Ok in Hh as (l1 & Hcl & Hh). destruct (hit_done_spec _ _ _ _ _ _ Hl El) as (_ & l1' & Hcl' & Hwf & _).
  rewrite Hcl in Hcl'. injection Hcl' as <-. apply return_to_core_wf in Hh as (Hc1 & El1 & Ek1); [|done]. cbn in El1, Ek1.
  eapply IH; [..|exact H]; [|done]. split; cbn; [by rewrite El1, Ek1|done|by rewrite Ek1].
Qed.

Lemma tick_core_inv (tx : Z) (f f' : SimpleO3 T) (i : nat) : o3_inv f -> tick_core translate tx f i = Ok f' -> o3_inv f'.
Proof.
  intros [Hl Hc Hk] H. unfold tick_core in H. apply bind_Ok in H as (c & Hg & H). apply bind_Ok in H as ([[c1 l1] t1] & Ht & H).
  apply bind_Ok in H as (cs & Hs & [= <-]). apply vget_Ok in Hg as [_ Hg]. apply vset_Ok in Hs as [_ ->].
  destruct (Core_tick_wf translate (llc_wf (o3_clk f)) _ _ _ _ _ _ _ _ ltac:(intros *; apply send_wf)
    (Forall_lookup_1 _ _ _ _ Hc Hg) Hl Ht) as [Hc1 Hl1].
  split; [done| |done]. cbn. by apply Forall_insert.
Qed.

Lemma O3_tick_inv (f f' : SimpleO3 T) (m m' : M) :
  o3_inv f -> drained m -> O3_tick translate f m = Ok (f', m') -> o3_inv f' /\ drained m'.
Proof.
  intros [Hl Hc Hk] Hd H. unfold O3_tick in H. apply bind_Ok in H as ([f1 m1] & Ht & H).
  apply bind_Ok in H as (f2 & Hcs & [= <- <-]). unfold LLC_tick in Ht. apply bind_Ok in Ht as ([f3 m3] & Hm & Ht).
  apply bind_Ok in Ht as (f4 & Hh & [= <- <-]).
  apply tick_misses_inv in Hm as [Hf3 Hd3]; [|split; [|done|]|done]; [|cbn; eapply llc_wf_later; [|exact Hl]; lia|cbn; lia].
  apply tick_hits_inv in Hh; [|done|done]. split; [|done].
  eapply (foldM_inv o3_inv); [exact Hh| |exact Hcs]. intros a b x _ Ha Hb. by eapply tick_core_inv.
Qed.

(** ** Idle stretches *)
Definition stalled (f : SimpleO3 T) : Prop := Forall (fun c => is_stalled c = Ok true) (o3_cores f).

(** Nothing in the cache is due before [next]. *)
Definition quiet (next : Clk_t) (f : SimpleO3 T) : Prop :=
  Forall (fun e => next <= e.1) (l_miss_list (o3_llc f)) /\ Forall (fun e => next <= e.1) (l_hit_list (o3_llc f)).

Lemma stalled_fold (cs : list Core) :
  Forall core_wf cs ->
  exists b, foldM (fun ok c => if (ok : bool) then is_stalled c else Ok false) true cs = Ok b /\
    (b = true -> Forall (fun c => is_stalled c = Ok true) cs).
Proof.
  assert (forall cs, foldM (fun ok c => if (ok : bool) then is_stalled c else Ok false) false cs = Ok false) as Hf
    by (intros l; induction l as [|c l IH]; [done|exact IH]).
  induction 1 as [|c cs Hc Hcs (b & Hb & IH)]; [by exists true|]. cbn [foldM].
  destruct (is_stalled_total c Hc) as [[] Es]; rewrite Es; cbn [mbind result_bind].
  - exists b. split; [done|]. intros ->. constructor; [done|by apply IH].
  - exists false. split; [apply Hf|done].
Qed.

Lemma tick_misses_quiet (q kept : list (Clk_t * Request)) (f : SimpleO3 T) (m : M) :
  Forall (fun e => o3_clk f < e.1) q -> tick_misses q kept f m = Ok (f, m).
Proof.
  intros Hq. revert kept. induction Hq as [|[due r] q Hd Hq IH]; intros kept; [done|]. cbn [tick_misses]. cbn in Hd.
  destruct (Z.leb_spec due (o3_clk f)); [lia|apply IH].
Qed.

Lemma tick_hits_quiet (q kept : list (Clk_t * LogicalRequest)) (f : SimpleO3 T) :
  Forall (fun e => o3_clk f < e.1) q -> tick_hits q kept f = Ok f.
Proof.
  intros Hq. revert kept. induction Hq as [|[due r] q Hd Hq IH]; intros kept; [done|]. cbn [tick_hits]. cbn in Hd.
  destruct (Z.leb_spec due (o3_clk f)); [lia|apply IH].
Qed.

Lemma tick_cores_stalled (tx : Z) (cs cs' : list Core) (before : list Core) (f : SimpleO3 T) :
  Forall core_wf cs -> Forall (fun c => is_stalled c = Ok true) cs -> o3_cores f = before ++ cs ->
  mapM (fun c => Core_fast_forward c 1) cs = Ok cs' ->
  foldM (tick_core translate tx) f (seq (length before) (length cs)) = Ok (set_cores f (before ++ cs')).
Proof.
  intros Hw Hs. revert before f cs'. induction cs as [|c cs IH]; intros before f cs' E Hm.
  - apply mapM_Ok in Hm. inversion Hm; subst. cbn. rewrite <- E. by destruct f.
  - apply mapM_Ok in Hm. inversion Hm as [|? c' ? cs1 Hc Hcs]; subst. apply mapM_Ok in Hcs.
    apply Forall_cons in Hw as [Hwc Hw]. apply Forall_cons in Hs as [Hsc Hs]. cbn [foldM seq length].
    assert (tick_core translate tx f (length before) = Ok (set_cores f (before ++ c' :: cs))) as ->.
    { unfold tick_core. assert (vget (o3_cores f) (Z.of_nat (length before)) = Ok c) as ->.
      { apply vget_Ok. split; [lia|]. rewrite Nat2Z.id, E. by apply list_lookup_middle. }
      cbn [mbind result_bind]. rewrite (stalled_tick translate _ _ _ _ _ Hwc Hsc), Hc. cbn [mbind result_bind].
      assert (vset (o3_cores f) (Z.of_nat (length before)) c' = Ok (before ++ c' :: cs)) as ->; [|done].
      apply vset_Ok. rewrite Nat2Z.id, E, length_app. cbn. split; [lia|]. by rewrite insert_app_r_alt, Nat.sub_diag by lia. }
    cbn [mbind result_bind]. specialize (IH Hw Hs (before ++ [c']) (set_cores f (before ++ c' :: cs)) cs1).
    rewrite length_app, Nat.add_1_r, <- !app_assoc in IH. cbn in IH. rewrite IH; [done|done|done].
Qed.

Lemma fast_forward_cores (cs : list Core) (k : Z) :
  Forall core_wf cs -> exists cs', mapM (fun c => Core_fast_forward c k) cs = Ok cs' /\
    Forall2 (fun c c' => exists m, c' = set_crit c m) cs cs'.
Proof.
  induction 1 as [|c cs Hc Hcs (cs' & Hm & Hf)]; [by exists []|].
  destruct (count_blocked_total c k Hc) as [c' Ec]. exists (c' :: cs'). split.
  - apply mapM_Ok. constructor; [done|by apply mapM_Ok].
  - constructor; [by eapply count_blocked_frame|done].
Qed.

(** What skipping keeps. *)
Lemma crit_frame (cs cs' : list Core) :
  Forall2 (fun c c' => exists m, c' = set_crit c m) cs cs' ->
  (Forall core_wf cs -> Forall core_wf cs') /\
  (Forall (fun c => is_stalled c = Ok true) cs -> Forall (fun c => is_stalled c = Ok true) cs') /\
  forallb (fun c => co_reached c && issue_roi_quiescent c) cs' = forallb (fun c => co_reached c && issue_roi_quiescent c) cs.
Proof.
  induction 1 as [|c c' cs cs' [m ->] _ (IH1 & IH2 & IH3)]; [done|]. split_and!.
  - intros [??]%Forall_cons. constructor; [by apply set_crit_wf|auto].
  - intros [??]%Forall_cons. constructor; [done|auto].
  - cbn [forallb]. by rewrite IH3.
Qed.

(** One tick of a quiet frontend. *)
Lemma O3_tick_quiet (f : SimpleO3 T) (m : M) (next : Clk_t) :
  o3_inv f -> stalled f -> quiet next f -> o3_clk f + 1 < next ->
  exists f', O3_fast_forward f 1 = Ok f' /\ O3_tick translate f m = Ok (f', m) /\ o3_inv f' /\ stalled f' /\
    o3_llc f' = o3_llc f /\ o3_clk f' = o3_clk f + 1 /\ O3_is_finished f' = O3_is_finished f.
Proof.
  intros [Hl Hc Hk] Hs [Hm Hh] Hn. destruct (fast_forward_cores (o3_cores f) 1 Hc) as (cs' & Hcs & Hfr).
  destruct (crit_frame _ _ Hfr) as (F1 & F2 & F3).
  exists (mkO3 (o3_clk f + 1) (o3_llc f) cs' (o3_translation f)). unfold O3_fast_forward. rewrite Hcs. split; [done|].
  split_and!; [|split; cbn; [eapply llc_wf_later; [|exact Hl]; lia|auto|lia]|by apply F2|done|done|unfold O3_is_finished; cbn; by rewrite F3].
  unfold O3_tick, LLC_tick. rewrite tick_misses_quiet by (eapply Forall_impl; [exact Hm|]; cbn; lia).
  cbn [mbind result_bind]. rewrite tick_hits_quiet by (eapply Forall_impl; [exact Hh|]; cbn; lia). cbn [mbind result_bind].
  set (f0 := mkO3 _ _ _ _). rewrite (tick_cores_stalled _ (o3_cores f) cs' [] f0 Hc Hs eq_refl Hcs). done.
Qed.

Lemma O3_ff_add (f f' : SimpleO3 T) (i j : Z) :
  O3_fast_forward f i = Ok f' -> O3_fast_forward f' j = O3_fast_forward f (i + j).
Proof.
  unfold O3_fast_forward. intros (cs & Hcs & [= <-])%bind_Ok. cbn.
  assert (mapM (fun c => Core_fast_forward c j) cs = mapM (fun c => Core_fast_forward c (i + j)) (o3_cores f)) as ->.
  { apply mapM_Ok in Hcs. induction Hcs as [|c c' l l' Hc _ IH]; [done|]. rewrite !mapM_cons.
    unfold Core_fast_forward in *. by rewrite (count_blocked_add _ _ _ j Hc), IH. }
  destruct (mapM _ _); cbn; [|done]. by rewrite Z.add_assoc.
Qed.

Lemma O3_idle_sound (f : SimpleO3 T) (m : M) (u n k : Z) :
  o3_inv f -> O3_idle_ticks f u = Ok n -> 0 <= k <= n ->
  exists f', (if 0 <? k then O3_fast_forward f k else Ok f) = Ok f' /\ o3_inv f' /\
    O3_is_finished f' = O3_is_finished f /\
    iterM (Z.to_nat k) (fun fm => O3_tick translate fm.1 fm.2) (f, m) = Ok (f', m).
Proof.
  intros Hf Hn Hk. destruct (Z.eq_dec k 0) as [->|Hk0]; [by exists f|].
  pose proof Hf as [_ Hc Hclk]. unfold O3_idle_ticks in Hn. destruct (stalled_fold _ Hc) as (b & Hb & Hst). rewrite Hb in Hn. cbn in Hn.
  destruct b; [|injection Hn as <-; lia]. specialize (Hst eq_refl). cbn in Hn.
  destruct (Z.leb_spec (next_event (o3_clk f) (o3_llc f)) (o3_clk f + 1)) as [|Hlt]; [injection Hn as <-; lia|].
  injection Hn as <-. destruct (next_event_spec (o3_clk f) (o3_llc f) ltac:(lia)) as (Hm & Hh & _).
  set (next := next_event (o3_clk f) (o3_llc f)) in *.
  assert (forall i : nat, (0 < i)%nat -> Z.of_nat i <= k -> exists f', O3_fast_forward f (Z.of_nat i) = Ok f' /\ o3_inv f' /\ stalled f' /\
    o3_llc f' = o3_llc f /\ o3_clk f' = o3_clk f + Z.of_nat i /\ O3_is_finished f' = O3_is_finished f /\
    iterM i (fun fm => O3_tick translate fm.1 fm.2) (f, m) = Ok (f', m)) as Hall.
  { induction i as [|i IH]; intros Hi0 Hi; [lia|]. destruct (decide (i = 0%nat)) as [->|Hi1].
    - destruct (O3_tick_quiet f m next Hf Hst (conj Hm Hh) ltac:(lia)) as (f' & E1 & E2 & ? & ? & ? & ? & ?).
      exists f'. split_and!; try done. cbn. by rewrite E2.
    - destruct IH as (f1 & E1 & Hf1 & Hs1 & El1 & Ec1 & Ef1 & It1); [lia..|].
      assert (quiet next f1) as Hq1 by (unfold quiet; by rewrite El1).
      destruct (O3_tick_quiet f1 m next Hf1 Hs1 Hq1 ltac:(lia)) as (f' & E2 & E3 & Hf' & Hs' & El2 & Ec2 & Ef2).
      exists f'. rewrite (O3_ff_add _ _ _ 1 E1) in E2. replace (Z.of_nat (S i)) with (Z.of_nat i + 1) by lia.
      split_and!; try done; [congruence|lia|congruence|].
      replace (S i) with (i + 1)%nat by lia. rewrite iterM_add, It1. cbn. by rewrite E3. }
  destruct (Hall (Z.to_nat k) ltac:(lia) ltac:(lia)) as (f' & E & ? & _ & _ & _ & ? & It). rewrite Z2Nat.id in E by lia.
  exists f'. destruct (Z.ltb_spec 0 k); [done|lia].
Qed.

Lemma O3_finished_total (f : SimpleO3 T) : o3_inv f -> is_ok (O3_is_finished f).
Proof.
  intros [Hl _ _]. unfold O3_is_finished. destruct (forallb _ _); [|by eexists].
  destruct (quiescent_total _ _ Hl) as (b & Hb & _). by exists b.
Qed.

#[export] Instance O3_elision : @FrontEndElision (SimpleO3 T) M HM HC (O3_frontend translate).
Proof.
  refine {| f_inv := o3_inv |}.
  - intros f m f' m'. apply O3_tick_inv.
  - intros f r f'. apply on_callback_inv.
  - apply O3_finished_total.
  - intros f u [_ Hc _]. cbn. unfold O3_idle_ticks. destruct (stalled_fold _ Hc) as (b & -> & _). cbn.
    repeat (case_match; try by eexists).
  - apply O3_idle_sound.
Defined.
End o3.
