(* ===== verification/SimExamples.v ===== *)
(** * Elision on concrete systems

    The memory system keeps the elision contract over any controllers that do, and
    the theorems applied to a SimpleO3 frontend and to a batch over atomic
    controllers. *)

From Stdlib Require Import ZArith Lia SpecFloat.
From S2P Require Import Prelude Base Spec Node Standards Device Controller Mapping MemSystem CtrlExamples.
From S2P Require Import Latency Elision Simulation SimProps Batch BatchProps LLC LLCProps.
From S2P Require Import Core O3Facts SimpleO3.

Local Open Scope Z_scope.

Section system.
Context {C Mp : Type} `{HC : IController C} `{HB : Callbacks C} `{HE : !ControllerElision C}.
Context (map_apply : Mp -> Request -> result Request).

#[export] Instance system_memory : IMemorySystem (GenericDRAMSystem C Mp) := {|
  ms_send := system_send map_apply;
  ms_tick := system_tick;
  ms_idle_ticks := system_idle_ticks;
  ms_fast_forward := system_fast_forward;
  ms_get_tx_bytes := m_tx_bytes
|}.

#[export] Instance system_elision : MemoryElision (GenericDRAMSystem C Mp).
Proof. split; [apply system_idle_total|apply system_idle_sound|intros m l m'; apply system_take_drained]. Qed.
End system.

(** ** An atomic controller behind one channel *)
Definition atomic_cfg : AtomicConfig := mkAtomicConfig 20 2 2 f32_0_2 f32_0_8 "none" "DDR4" small_cfg.

#[export] Instance atomic_ic : IController (Atomic unit) := Atomic_controller AtomicController_predict PassThrough_apply.

Definition atomic0 : Atomic unit :=
  match Atomic_init (fun _ _ => Ok ()) atomic_cfg with
  | Ok a => a
  | Err _ => mkAtomic 0 0 (m_device empty_ctrl) 0 0 0 () [] 0 0 0 0 0 0 0 0 0 0 0 0 []
  end.

Definition one_channel : Interleave := mkInterleave 1 6 0.

Definition atomic_memory : GenericDRAMSystem (Atomic unit) Interleave :=
  match system_init (fun _ _ => Ok one_channel) [atomic0] with
  | Ok s => s
  | Err _ => mkSystem one_channel [] [] 0 0 0
  end.

#[export] Instance atomic_mem : IMemorySystem (GenericDRAMSystem (Atomic unit) Interleave) :=
  system_memory CacheLineInterleave_apply.
#[export] Instance atomic_mem_elision : MemoryElision (GenericDRAMSystem (Atomic unit) Interleave) :=
  system_elision CacheLineInterleave_apply.

Lemma atomic_memory_drained : drained atomic_memory.
Proof. apply system_drained. vm_compute. repeat constructor. Qed.

(** Three reads and a write, the third read rejected until the first departs. *)
Definition batch_input : list BatchRequest :=
  [mkBatchRequest 0 Read 5 0; mkBatchRequest 64 Read 5 0; mkBatchRequest 128 Read 6 0; mkBatchRequest 192 Write 200 0].
Definition batch_options (tick_only : bool) : BatchOptions := mkBatchOptions true true false tick_only 1.

Definition batch_after (tick_only : bool) (n : nat) : result (Batch (GenericDRAMSystem (Atomic unit) Interleave)) :=
  run_batch batch_input (batch_options tick_only) n atomic_memory 0 0.

Lemma batch_elision_exact_witness :
  exists r, batch_after true 60 = Ok r /\ batch_after false 60 = Ok r /\ b_clock r = 220.
Proof.
  assert (exists r, batch_after true 60 = Ok r /\ b_clock r = 220) as (r & Hr & Hc)
    by (eexists; split; vm_compute; reflexivity).
  exists r. split; [exact Hr|]. split; [|exact Hc].
  apply (batch_elision_exact batch_input (batch_options false) atomic_memory 0 0 r eq_refl atomic_memory_drained
    ltac:(vm_compute; congruence)). exact Hr.
Defined.

(** ** One out-of-order core over the same memory *)
Definition no_translation (t : unit) (r : Request) : result (bool * Request * unit) :=
  r ← NoTranslation_translate 65536 r; Ok (true, r, t).

Definition o3_cfg : O3Config :=
  mkO3Config 9 true [("core0"%string, [mkInst 1 0 (-1); mkInst 2 4096 64; mkInst 0 8 (-1)])] 2 4 3 64 2 2 512 true.

Definition o3 : SimpleO3 unit :=
  match O3_init o3_cfg () with
  | Ok f => f
  | Err _ => mkO3 0 (mkLLC 0 0 0 0 0 0 0 ∅ 0 [] ∅ ∅ [] [] 0 ∅ 0 ∅) [] ()
  end.

#[export] Instance o3_frontend : IFrontEnd (SimpleO3 unit) (GenericDRAMSystem (Atomic unit) Interleave) :=
  O3_frontend no_translation.
#[export] Instance o3_elision : FrontEndElision (SimpleO3 unit) (GenericDRAMSystem (Atomic unit) Interleave) :=
  O3_elision no_translation.

Lemma o3_init_inv {T : Type} (cfg : O3Config) (t : T) (f : SimpleO3 T) : O3_init cfg t = Ok f -> o3_inv f.
Proof.
  unfold O3_init. intros H. set (n := Z.of_nat (length (oc_traces cfg))) in H.
  destruct (Z.leb_spec (oc_num_expected_insts cfg) 0); [done|]. destruct (Z.eqb_spec n 0); [done|].
  destruct (_ <? n); [done|]. destruct (Z.leb_spec (oc_ipc cfg) 0); [done|]. destruct (Z.leb_spec (oc_depth cfg) 0); [done|].
  cbn [orb] in H. destruct (_ <=? 0); [done|]. destruct (_ =? 0); [done|]. cbn [orb] in H.
  destruct (Z.ltb_spec ((2 ^ 31 - 1) / n) (oc_llc_capacity_per_core cfg)) as [|Hcap]; [done|]. destruct (_ <? _); [done|].
  apply bind_Ok in H as (l & Hl & H). apply bind_Ok in H as (cs & Hcs & [= <-]). split; [| |done]; cbn.
  - eapply LLC_init_wf; [|exact Hl]. assert (0 < n) by lia.
    pose proof (Z.mul_div_le (2 ^ 31 - 1) n ltac:(lia)). nia.
  - apply mapM_Ok in Hcs. eapply Forall2_Forall_r; [exact Hcs|]. apply Forall_forall. intros x _ c Hc. by eapply Core_init_wf; [..|exact Hc].
Qed.

Definition o3_run (elision : bool) (n : nat) : result (Sim (SimpleO3 unit) (GenericDRAMSystem (Atomic unit) Interleave)) :=
  run_simulation 3 2 elision n o3 atomic_memory.

Lemma run_simulation_elision_exact_witness :
  exists r, o3_run false 200 = Ok r /\ o3_run true 200 = Ok r /\ o3_clk (frontend r) = 66.
Proof.
  assert (exists r, o3_run false 200 = Ok r /\ o3_clk (frontend r) = 66) as (r & Hr & Hc)
    by (eexists; split; vm_compute; reflexivity).
  exists r. split; [exact Hr|]. split; [|exact Hc].
  apply (run_simulation_elision_exact (LF := o3_elision) 3 2 o3 atomic_memory r); [|apply atomic_memory_drained|exact Hr].
  apply (o3_init_inv o3_cfg ()). vm_compute. reflexivity.
Defined.

(** ** A cache with a miss in flight *)
Definition llc0 : LLC :=
  match LLC_init 3 512 64 2 2 with Ok l => l | Err _ => mkLLC 0 0 0 0 0 0 0 ∅ 0 [] ∅ ∅ [] [] 0 ∅ 0 ∅ end.
Definition llc_read (a id : Z) : Request :=
  mkRequest a (-1) [] Read 0 (-1) id 0 (-1) (-1) (-1) (-1) false (-1) (-1) (Some cb_frontend).
Definition llc_offer (l : LLC) (a id : Z) : LLC :=
  match LLC_send 10 64 l (llc_read a id) with Ok (_, _, l) => l | Err _ => l end.
Definition llc1 : LLC := llc_offer (llc_offer llc0 0 0) 8 1.

Lemma llc1_reachable : llc_reachable 10 llc1.
Proof.
  apply (llc_sends 10 64 (llc_offer llc0 0 0) (llc_read 8 1) true (set_type (llc_read 8 1) Read)); [|vm_compute; reflexivity].
  eapply (llc_sends 10 64 llc0 (llc_read 0 0) true); [|vm_compute; reflexivity].
  apply (llc_clock 0 10); [|lia]. apply (llc_start 3 512 64 2 2); [lia|vm_compute; reflexivity].
Qed.

Lemma llc_bounds_witness :
  length (l_mshrs llc1) = 1%nat /\
  (forall i x, x ∈ lset llc1 i ->
     (ln_ready x = false <-> exists e, e ∈ l_mshrs llc1 /\ mshr_set e = i /\ mshr_line e = ln_id x)) /\
  lstat llc1 "logical_requests_live" = Z.of_nat (length (l_hit_list llc1) + length (waiting (l_receive_requests llc1))).
Proof.
  split; [vm_compute; reflexivity|]. destruct (llc_bounds 10 llc1 llc1_reachable) as (_ & _ & _ & H & _ & E). split; [exact H|exact E].
Defined.

Lemma llc_never_fails_witness :
  exists ok r' l', LLC_send 10 64 llc1 (llc_read 4096 2) = Ok (ok, r', l') /\
    (ok = true -> logical_key (llc_read 4096 2) ∈ l_live_logical_ids l').
Proof.
  apply (llc_never_fails 10 64 llc1 (llc_read 4096 2) llc1_reachable); [lia|]. vm_compute. reflexivity.
Defined.
