(* ===== verification/BlockHammer.v ===== *)
(** * The BlockHammer controller

    [controller/impl/blockhammer_controller.cpp]: counting Bloom filters per bank
    decide whether a row is hot, a history buffer per rank whether it was activated
    recently, and an activation that is both is deferred.  A throttler counts the
    activations of hot rows by source and limits the outstanding misses of that
    source in the last-level cache, which is reached through [BlacklistLLC].

    The hash functions are the list the filters refer to.  The constructor of a
    filter copies [m_saturate] to itself and ignores its argument, so the flag is
    whatever the memory held: it is an argument of the model.  Debug output is left
    out. *)

From Stdlib Require Import ZArith Lia SpecFloat.
From S2P Require Import Prelude Base Spec Node Standards Device Controller Scheduler GenericDDR Plugins TRR.

Local Open Scope Z_scope.

(** ** Counting Bloom filter *)
(** A hash function is a closure: the variables it captures are the size of the
    filter and its index. *)
Definition bloom_hash_fn : Type := Z * Z.

Definition bloom_hash (f : bloom_hash_fn) (key : Z) : result Z :=
  let '(size, i) := f in
  let hash1 := wrap_u 32 (key * 2654435761) in
  r ← rem_u (wrap_u 32 (key * 2246822519)) (wrap_u 32 (size - 1));
  Ok (wrap_u 32 (hash1 + wrap_u 32 i * (r + 1))).

Record CountingBloomFilter := mkCBF {
  cb_num_counters : Z;
  cb_ctr_thresh : Z;
  cb_saturate : bool;
  cb_counters : list Z
}.

Definition CBF_init (num_counters ctr_thresh : Z) (saturate : bool) : result CountingBloomFilter :=
  counters ← vec_make num_counters 0;
  Ok (mkCBF num_counters ctr_thresh saturate counters).

Definition cb_set (f : CountingBloomFilter) (counters : list Z) : CountingBloomFilter :=
  mkCBF (cb_num_counters f) (cb_ctr_thresh f) (cb_saturate f) counters.

(** The counter of an element under one hash function. *)
Definition cb_index (f : CountingBloomFilter) (hash : bloom_hash_fn) (elem : Z) : result Z :=
  h ← bloom_hash hash (wrap_u 32 elem);
  rem_u h (wrap_u 32 (cb_num_counters f)).

Definition cb_insert (hashes : list bloom_hash_fn) (f : CountingBloomFilter) (elem : Z) : result CountingBloomFilter :=
  foldM (fun f hash =>
    idx ← cb_index f hash elem;
    n ← vget (cb_counters f) idx;
    if negb (cb_saturate f) || (n <? wrap_u 32 (cb_ctr_thresh f))
    then l ← vset (cb_counters f) idx (wrap_u 32 (n + 1)); Ok (cb_set f l)
    else Ok f) f hashes.

Definition cb_test (hashes : list bloom_hash_fn) (f : CountingBloomFilter) (elem : Z) : result bool :=
  foldM (fun (pass : bool) hash =>
    idx ← cb_index f hash elem;
    n ← vget (cb_counters f) idx;
    Ok (pass && (wrap_u 32 (cb_ctr_thresh f) <=? n))) true hashes.

Definition cb_reset (f : CountingBloomFilter) : CountingBloomFilter := cb_set f (map (fun _ => 0) (cb_counters f)).

(** ** Unified Bloom filter *)
Record UnifiedBloomFilter := mkUBF {
  ub_len_epoch : Z;
  ub_filters : list CountingBloomFilter;
  ub_tick : Z;
  ub_test_idx : Z
}.

Definition UBF_init (num_counters ctr_thresh num_filters : Z) (saturate : bool) (len_epoch_clk : Z) : result UnifiedBloomFilter :=
  if num_filters <? 0 then Err (Throw "vector::reserve")
  else
    filters ← foldM (fun l _ => f ← CBF_init num_counters ctr_thresh saturate; Ok (l ++ [f])) [] (seqZ 0 num_filters);
    Ok (mkUBF len_epoch_clk filters 0 0).

Definition ub_update (u : UnifiedBloomFilter) : result UnifiedBloomFilter :=
  let tick := wrap_u 64 (ub_tick u + 1) in
  if wrap_u 64 (ub_len_epoch u) <=? tick then
    f ← vget (ub_filters u) (ub_test_idx u);
    l ← vset (ub_filters u) (ub_test_idx u) (cb_reset f);
    idx ← rem_u (wrap_u 32 (ub_test_idx u + 1)) (Z.of_nat (length l));
    Ok (mkUBF (ub_len_epoch u) l 0 idx)
  else Ok (mkUBF (ub_len_epoch u) (ub_filters u) tick (ub_test_idx u)).

Definition ub_insert (hashes : list bloom_hash_fn) (u : UnifiedBloomFilter) (elem : Z) : result UnifiedBloomFilter :=
  l ← foldM (fun l f => f ← cb_insert hashes f elem; Ok (l ++ [f])) [] (ub_filters u);
  Ok (mkUBF (ub_len_epoch u) l (ub_tick u) (ub_test_idx u)).

Definition ub_test (hashes : list bloom_hash_fn) (u : UnifiedBloomFilter) (elem : Z) : result bool :=
  f ← vget (ub_filters u) (ub_test_idx u);
  cb_test hashes f elem.

Definition ub_reset (u : UnifiedBloomFilter) : UnifiedBloomFilter :=
  mkUBF (ub_len_epoch u) (map cb_reset (ub_filters u)) 0 0.

(** ** History buffer *)
Record HistoryEntry := mkHist { he_entry : Z; he_timestamp : Z }.

Record HistoryBuffer := mkHB {
  hb_tick : Z;
  hb_size : Z;
  hb_max_freq : Z;
  hb_history : list HistoryEntry;
  hb_elem_counter : gmap Z Z
}.

Definition HB_init (size max_freq : Z) : HistoryBuffer :=
  mkHB 0 size max_freq (replicate (Z.to_nat size) (mkHist (-1) (2 ^ 64 - 1))) ∅.

Definition hb_exists (h : HistoryBuffer) (elem : Z) : bool := bool_decide (is_Some (hb_elem_counter h !! elem)).
Definition hb_exceeds (h : HistoryBuffer) (elem : Z) : bool := hb_max_freq h <=? default 0 (hb_elem_counter h !! elem).
Definition hb_search (h : HistoryBuffer) (elem : Z) : bool := hb_exists h elem && hb_exceeds h elem.

Definition hb_insert (h : HistoryBuffer) (elem : Z) : result HistoryBuffer :=
  slot ← rem_u (hb_tick h) (hb_size h);
  l ← vset (hb_history h) slot (mkHist elem (hb_tick h));
  Ok (mkHB (hb_tick h) (hb_size h) (hb_max_freq h) l
        (<[elem := wrap_u 32 (default 0 (hb_elem_counter h !! elem) + 1)]> (hb_elem_counter h))).

Definition hb_update (h : HistoryBuffer) : result HistoryBuffer :=
  let tick := wrap_u 64 (hb_tick h + 1) in
  slot ← rem_u tick (hb_size h);
  e ← vget (hb_history h) slot;
  Ok (mkHB tick (hb_size h) (hb_max_freq h) (hb_history h)
        (match hb_elem_counter h !! he_entry e with
         | None => hb_elem_counter h
         | Some n =>
             let n := wrap_u 32 (n - 1) in
             if n =? 0 then delete (he_entry e) (hb_elem_counter h) else <[he_entry e := n]> (hb_elem_counter h)
         end)).

(** ** Attack throttler *)
Record AttackThrottler := mkThrottler {
  at_clk : Z;
  at_n_rh : Z;
  at_n_bl : Z;
  at_t_cbf : Z;
  at_t_refw : Z;
  at_n_ctrs : Z;
  at_active_idx : Z;
  at_act_counters : list (gmap Z Z)
}.

Definition Throttler_init (n_rh n_bl t_cbf t_refw n_ctrs : Z) : result AttackThrottler :=
  counters ← vec_make n_ctrs ∅;
  Ok (mkThrottler (-1) n_rh n_bl t_cbf t_refw n_ctrs 0 counters).

Definition at_set (t : AttackThrottler) (clk idx : Z) (counters : list (gmap Z Z)) : AttackThrottler :=
  mkThrottler clk (at_n_rh t) (at_n_bl t) (at_t_cbf t) (at_t_refw t) (at_n_ctrs t) idx counters.

Definition at_update (t : AttackThrottler) : result AttackThrottler :=
  clk ← inc_s32 (at_clk t);
  if at_t_cbf t <=? clk then
    l ← vset (at_act_counters t) (at_active_idx t) ∅;
    idx ← rem_s (at_active_idx t + 1) (at_n_ctrs t);
    Ok (at_set t 0 idx l)
  else Ok (at_set t clk (at_active_idx t) (at_act_counters t)).

Definition at_hash (thread_id bank_id : Z) : result Z := k ← s32 (thread_id * 100000); s32 (k + bank_id).

Definition at_insert (t : AttackThrottler) (thread_id bank_id : Z) : result AttackThrottler :=
  key ← at_hash thread_id bank_id;
  l ← foldM (fun l i =>
        m ← vget l i;
        n ← s32 (default 0 (m !! key) + 1);
        vset l i (<[key := n]> m)) (at_act_counters t) (seqZ 0 (at_n_ctrs t));
  Ok (at_set t (at_clk t) (at_active_idx t) l).

Definition rhli_denom (t : AttackThrottler) : spec_float :=
  SFsub 24 128
    (SFdiv 24 128 (f32_mul (f32_of_Z (at_n_rh t)) (f32_of_Z (at_t_cbf t))) (f32_of_Z (at_t_refw t)))
    (f32_of_Z (at_n_bl t)).

Definition get_rhli (t : AttackThrottler) (thread_id bank_id : Z) : result spec_float :=
  if thread_id <? 0 then Ok (f32_of_Z 0)
  else
    m ← vget (at_act_counters t) (at_active_idx t);
    key ← at_hash thread_id bank_id;
    match m !! key with
    | None => Ok (f32_of_Z 0)
    | Some n =>
        if SFleb (rhli_denom t) (f32_of_Z 0) then Ok (f32_of_Z 0)
        else Ok (SFdiv 24 128 (f32_of_Z n) (rhli_denom t))
    end.

(** ** The cache as the controller sees it *)
Class BlacklistLLC (L : Type) := {
  llc_mshrs_per_core : L -> Z;
  llc_add_blacklist : L -> Z -> L;
  llc_set_max_mshrs : L -> Z -> Z -> L
}.

(** ** Detection state *)
Record BHParams := mkBHParams {
  bf_num_filters : Z;
  bf_len_epoch : Z;
  bf_ctr_count : Z;
  bf_ctr_thresh : Z;
  bf_num_hashes : Z;
  bf_hist_max_freq : Z;
  bf_num_rh : Z;
  bf_trefw : Z;
  bf_trc : Z
}.

Record BHState := mkBHState {
  bh_rank_level : Z;
  bh_row_level : Z;
  bh_num_mshr_per_core : Z;
  bh_hash_functions : list bloom_hash_fn;
  bh_bank_filters : list UnifiedBloomFilter;
  bh_rank_history : list HistoryBuffer;
  bh_throttler : AttackThrottler
}.

Definition bh_set (s : BHState) (filters : list UnifiedBloomFilter) (history : list HistoryBuffer) (t : AttackThrottler)
  : BHState :=
  mkBHState (bh_rank_level s) (bh_row_level s) (bh_num_mshr_per_core s) (bh_hash_functions s) filters history t.

(** The size of the history buffers. *)
Definition derive_hist_size (spec : DRAMSpec) (p : BHParams) : result Z :=
  tck ← get_timing_value spec "tCK_ps";
  let ns_per_clk := SFdiv 24 128 (f32_of_Z tck) (f32_of_Z 1000) in
  acts_ns ← s32 (bf_ctr_thresh p * bf_trc p);
  numer ← s32 (bf_len_epoch p - acts_ns);
  windows ← div_s (bf_len_epoch p) (bf_trefw p);
  let denom_acts := SFsub 24 128 (f32_mul (f32_of_Z windows) (f32_of_Z (bf_num_rh p))) (f32_of_Z (bf_ctr_thresh p)) in
  if SFleb denom_acts (f32_of_Z 0) then
    Err (Throw "BlockHammerController: bf_hist_size denominator non-positive — check bf_len_epoch / bf_trefw / bf_num_rh / bf_ctr_thresh")
  else
    size ← f32_to_s32 (SFdiv 24 128 (SFdiv 24 128 (f32_of_Z numer) denom_acts) ns_per_clk);
    if size <=? 0 then Err (Throw "BlockHammerController: derived bf_hist_size must be positive") else Ok size.

(** [setup] after [setup_base]; [saturate] is the value the filters' flag happens to
    have. *)
Definition BlockHammer_setup {L} `{BlacklistLLC L} (c : Ctrl) (l : L) (p : BHParams) (saturate : bool) : result BHState :=
  let spec := m_spec (m_device c) in
  rank ← get_level_id spec "Rank";
  row ← get_level_id spec "Row";
  ranks ← get_level_size spec "Rank";
  let num_banks := Z.of_nat (length (m_bank_nodes (m_device c))) in
  epoch_clk ← ns_to_clk spec (bf_len_epoch p);
  hist_size ← derive_hist_size spec p;
  if bf_num_hashes p <? 0 then Err (Throw "vector::reserve")
  else
    let hashes := map (pair (bf_ctr_count p)) (seqZ 0 (bf_num_hashes p)) in
    filters ← foldM (fun fs _ => f ← UBF_init (bf_ctr_count p) (bf_ctr_thresh p) (bf_num_filters p) saturate epoch_clk; Ok (fs ++ [f]))
                [] (seqZ 0 num_banks);
    filters ← (if 0 <? num_banks then
                 f ← vget filters (num_banks - 1);
                 f ← ub_insert hashes f 0;
                 vset filters (num_banks - 1) (ub_reset f)
               else Ok filters);
    let history := map (fun _ => HB_init hist_size (wrap_u 32 (bf_hist_max_freq p))) (seqZ 0 ranks) in
    t ← Throttler_init (bf_num_rh p) (bf_ctr_thresh p) epoch_clk (bf_trefw p) (bf_num_filters p);
    Ok (mkBHState rank row (llc_mshrs_per_core l) hashes filters history t).

Definition bh_opening (d : DRAMDevice) (req : Request) : result bool :=
  meta ← vget (command_meta (m_spec d)) (command req); Ok (is_opening meta).

Definition is_act_safe (s : BHState) (d : DRAMDevice) (req : Request) : result bool :=
  opening ← bh_opening d req;
  if negb opening then Ok true
  else
    bank ← get_flat_bank_id d (addr_vec req);
    rank ← vget (addr_vec req) (bh_rank_level s);
    row ← vget (addr_vec req) (bh_row_level s);
    f ← vget (bh_bank_filters s) bank;
    filter_test ← ub_test (bh_hash_functions s) f row;
    h ← vget (bh_rank_history s) rank;
    Ok (negb filter_test || negb (hb_search h row)).

(** Record an activation in the history of its rank and the filters of its bank. *)
Definition bh_record (s : BHState) (bank rank row : Z) : result (bool * BHState) :=
  h ← vget (bh_rank_history s) rank;
  h ← hb_insert h row;
  hs ← vset (bh_rank_history s) rank h;
  f ← vget (bh_bank_filters s) bank;
  f ← ub_insert (bh_hash_functions s) f row;
  fs ← vset (bh_bank_filters s) bank f;
  hot ← ub_test (bh_hash_functions s) f row;
  Ok (hot, bh_set s fs hs (bh_throttler s)).

(** The limit for a source: [(int)(m_num_mshr_per_core * (1.0f - rhli))]. *)
Definition mshr_cap (mshrs : Z) (rhli : spec_float) : result Z :=
  f32_to_s32 (f32_mul (f32_of_Z mshrs) (SFsub 24 128 (f32_of_Z 1) rhli)).

Section llc.
Context {L : Type} `{BlacklistLLC L}.

Definition bh_throttle (s : BHState) (l : L) (source bank : Z) : result (BHState * L) :=
  t ← at_insert (bh_throttler s) source bank;
  rhli ← get_rhli t source bank;
  let l := llc_add_blacklist l source in
  cap ← mshr_cap (bh_num_mshr_per_core s) rhli;
  Ok (bh_set s (bh_bank_filters s) (bh_rank_history s) t, llc_set_max_mshrs l source cap).

Definition observe_act (s : BHState) (l : L) (d : DRAMDevice) (req : Request) : result (BHState * L) :=
  opening ← bh_opening d req;
  if negb opening then Ok (s, l)
  else
    bank ← get_flat_bank_id d (addr_vec req);
    rank ← vget (addr_vec req) (bh_rank_level s);
    row ← vget (addr_vec req) (bh_row_level s);
    q ← bh_record s bank rank row;
    if q.1 && (0 <=? source_id req) then bh_throttle q.2 l (source_id req) bank else Ok (q.2, l).
End llc.

Definition bh_update (s : BHState) : result BHState :=
  fs ← foldM (fun fs f => f ← ub_update f; Ok (fs ++ [f])) [] (bh_bank_filters s);
  hs ← foldM (fun hs h => h ← hb_update h; Ok (hs ++ [h])) [] (bh_rank_history s);
  t ← at_update (bh_throttler s);
  Ok (bh_set s fs hs t).

(** ** The controller *)
Section blockhammer.
Context {R P G L : Type} `{RefreshManager R} `{RowPolicy P} `{ControllerPlugin G} `{BlacklistLLC L} (sch : scheduler_t).

Record BlockHammerController := mkBH { bh_base : GenericDDR R P G; bh_state : BHState }.

(** The cascade active > priority > read/write, the last one filtered. *)
Definition bh_pick (s : BHState) (c : Ctrl) : result (Ctrl * candidate) :=
  a ← pick_best_ready_from sch c BActive no_filter;
  b ← (match a.2 with None => pick_priority_if a.1 no_filter | Some _ => Ok a end);
  match b.2 with
  | None =>
      if buf_size (m_priority_buffer b.1) =? 0 then pick_rw_if sch b.1 (is_act_safe s (m_device b.1)) else Ok b
  | Some _ => Ok b
  end.

(** Issue the command of a candidate and tell the row policy and the plugins. *)
Definition bh_issue (base : GenericDDR R P G) (id : buf_id) (i : nat) : result (GenericDDR R P G * Request) :=
  c ← issue_candidate (g_policy base) (g_ctrl base) id i;
  r ← req_at c id i;
  p ← rp_on_issue (g_policy base) c r;
  q ← each_plugin (fun g c => pl_on_issue g c r) (g_plugins base) c;
  Ok (mkGDDR q.2 (g_refresh base) p q.1, r).

Definition bh_serve (g : BlockHammerController) (l : L) (id : buf_id) (i : nat) : result (BlockHammerController * L) :=
  q ← bh_issue (bh_base g) id i;
  let '(base, r) := q in
  o ← observe_act (bh_state g) l (m_device (g_ctrl base)) r;
  c ← advance_request (g_ctrl base) id i;
  Ok (mkBH (with_base_ctrl base c) o.1, o.2).

Definition BlockHammer_tick (g : BlockHammerController) (l : L) : result (BlockHammerController * L) :=
  base ← pre_hooks (bh_base g);
  s ← bh_update (bh_state g);
  k ← bh_pick s (g_ctrl base);
  let g := mkBH (with_base_ctrl base k.1) s in
  q ← (match k.2 with None => Ok (g, l) | Some (id, i) => bh_serve g l id i end);
  base ← post_hooks (bh_base q.1);
  Ok (mkBH base (bh_state q.1), q.2).
End blockhammer.
Arguments BlockHammerController : clear implicits.
