(* ===== verification/BHLLC.v ===== *)
(** * The last-level cache of the BHO3 frontend

    [frontend/impl/processor/bhO3/bhllc.h] and [bhllc.cpp]: the cache with the
    blacklist through which the BlockHammer controller limits the outstanding misses
    of a source.  Lines, miss entries and iterators are represented as in [LLC]: an
    iterator is the set and the identity of its line, and dereferencing an erased
    line is undefined.  [tick], which calls the memory system and the frontend, is in
    [BHO3]. *)

From Stdlib Require Import ZArith Lia.
From S2P Require Import Prelude Base LLC Controller Scheduler GenericDDR BlockHammer.

Local Open Scope Z_scope.

Record BHO3LLC := mkBHLLC {
  bl_latency : Z;
  bl_linesize_bytes : Z;
  bl_associativity : Z;
  bl_num_mshrs : Z;
  bl_num_cores : Z;
  bl_index_mask : Z;
  bl_index_offset : Z;
  bl_tag_offset : Z;
  bl_mshr_per_core : Z;
  bl_cache_sets : gmap Z (list Line);
  bl_next_line : Z;
  bl_mshrs : list MSHREntry;
  bl_receive_requests : gmap Z (list Request);
  bl_miss_list : list (Clk_t * Request);
  bl_hit_list : list (Clk_t * Request);
  bl_allocated_mshrs : list Z;
  bl_blacklist_max_mshrs : list Z;
  bl_blacklist_status : list bool;
  bl_stats : gmap string Z
}.

(** Member updates. *)
Definition bl_set_lines (l : BHO3LLC) (sets : gmap Z (list Line)) (next : Z) : BHO3LLC :=
  mkBHLLC (bl_latency l) (bl_linesize_bytes l) (bl_associativity l) (bl_num_mshrs l) (bl_num_cores l) (bl_index_mask l)
    (bl_index_offset l) (bl_tag_offset l) (bl_mshr_per_core l) sets next (bl_mshrs l) (bl_receive_requests l)
    (bl_miss_list l) (bl_hit_list l) (bl_allocated_mshrs l) (bl_blacklist_max_mshrs l) (bl_blacklist_status l) (bl_stats l).
Definition bl_set_mshrs (l : BHO3LLC) (ms : list MSHREntry) (rr : gmap Z (list Request)) : BHO3LLC :=
  mkBHLLC (bl_latency l) (bl_linesize_bytes l) (bl_associativity l) (bl_num_mshrs l) (bl_num_cores l) (bl_index_mask l)
    (bl_index_offset l) (bl_tag_offset l) (bl_mshr_per_core l) (bl_cache_sets l) (bl_next_line l) ms rr
    (bl_miss_list l) (bl_hit_list l) (bl_allocated_mshrs l) (bl_blacklist_max_mshrs l) (bl_blacklist_status l) (bl_stats l).
Definition bl_set_queues (l : BHO3LLC) (miss hit : list (Clk_t * Request)) : BHO3LLC :=
  mkBHLLC (bl_latency l) (bl_linesize_bytes l) (bl_associativity l) (bl_num_mshrs l) (bl_num_cores l) (bl_index_mask l)
    (bl_index_offset l) (bl_tag_offset l) (bl_mshr_per_core l) (bl_cache_sets l) (bl_next_line l) (bl_mshrs l)
    (bl_receive_requests l) miss hit (bl_allocated_mshrs l) (bl_blacklist_max_mshrs l) (bl_blacklist_status l) (bl_stats l).
Definition bl_set_blacklist (l : BHO3LLC) (allocated max : list Z) (status : list bool) : BHO3LLC :=
  mkBHLLC (bl_latency l) (bl_linesize_bytes l) (bl_associativity l) (bl_num_mshrs l) (bl_num_cores l) (bl_index_mask l)
    (bl_index_offset l) (bl_tag_offset l) (bl_mshr_per_core l) (bl_cache_sets l) (bl_next_line l) (bl_mshrs l)
    (bl_receive_requests l) (bl_miss_list l) (bl_hit_list l) allocated max status (bl_stats l).
Definition bl_bump (l : BHO3LLC) (name : string) : BHO3LLC :=
  mkBHLLC (bl_latency l) (bl_linesize_bytes l) (bl_associativity l) (bl_num_mshrs l) (bl_num_cores l) (bl_index_mask l)
    (bl_index_offset l) (bl_tag_offset l) (bl_mshr_per_core l) (bl_cache_sets l) (bl_next_line l) (bl_mshrs l)
    (bl_receive_requests l) (bl_miss_list l) (bl_hit_list l) (bl_allocated_mshrs l) (bl_blacklist_max_mshrs l)
    (bl_blacklist_status l) (<[name := default 0 (bl_stats l !! name) + 1]> (bl_stats l)).

(** ** Construction: nothing is validated; sizes are [size_t], the number of sets an [int]. *)
Definition BHLLC_init (latency size_bytes linesize_bytes associativity num_mshrs num_cores : Z) : result BHO3LLC :=
  let size := wrap_u 64 size_bytes in
  let linesize := wrap_u 64 linesize_bytes in
  let per_set := wrap_u 64 (linesize * wrap_u 64 associativity) in
  if per_set =? 0 then Err Undef
  else
    let set_size := wrap_s 32 (size / per_set) in
    index_offset ← calc_log2 linesize;
    index_bits ← calc_log2 set_size;
    let per_core := if 0 <? num_cores then Z.quot num_mshrs num_cores else num_mshrs in
    allocated ← vec_make num_cores 0;
    max ← vec_make num_cores 0;
    status ← vec_make num_cores false;
    Ok (mkBHLLC latency linesize associativity num_mshrs num_cores (set_size - 1) index_offset (index_bits + index_offset)
          per_core ∅ 0 [] ∅ [] [] allocated max status ∅).

Definition bl_get_index (l : BHO3LLC) (a : Addr_t) : Z :=
  wrap_s 32 (Z.land (Z.shiftr a (bl_index_offset l)) (bl_index_mask l)).
Definition bl_get_tag (l : BHO3LLC) (a : Addr_t) : Addr_t := Z.shiftr a (bl_tag_offset l).
Definition bl_align (l : BHO3LLC) (a : Addr_t) : Addr_t := Z.land a (Z.lnot (bl_linesize_bytes l - 1)).

(** ** Lines and sets *)
Definition bl_set_at (l : BHO3LLC) (set : Z) : list Line := default [] (bl_cache_sets l !! set).
Definition bl_get_set (l : BHO3LLC) (a : Addr_t) : list Line := bl_set_at l (bl_get_index l a).

(** Writing through an iterator. *)
Definition bl_update_line (l : BHO3LLC) (set id : Z) (f : Line -> Line) : result BHO3LLC :=
  let s := bl_set_at l set in
  if bool_decide (id ∈ ln_id <$> s)
  then Ok (bl_set_lines l (<[set := (fun x => if ln_id x =? id then f x else x) <$> s]> (bl_cache_sets l)) (bl_next_line l))
  else Err Undef.

Definition bl_check_set_hit (l : BHO3LLC) (s : list Line) (a : Addr_t) : option Line :=
  match find_line (fun x => ln_tag x =? bl_get_tag l a) s with
  | Some x => if ln_ready x then Some x else None
  | None => None
  end.

Definition bl_check_mshr_hit (l : BHO3LLC) (a : Addr_t) : option (nat * MSHREntry) :=
  find_mshr (fun e => bl_align l (mshr_addr e) =? bl_align l a) (bl_mshrs l).

Definition bl_evict_line (clk : Clk_t) (l : BHO3LLC) (set : Z) (victim : Line) : BHO3LLC :=
  let l := bl_bump l "llc_eviction" in
  let l := if ln_dirty victim
           then bl_set_queues l (bl_miss_list l ++ [(clk + bl_latency l,
                  mkRequest (ln_addr victim) (-1) [] Write (-1) (-1) (-1) 0 (-1) (wrap_s 32 (bl_linesize_bytes l)) (-1) (-1)
                    false (-1) (-1) None)]) (bl_hit_list l)
           else l in
  bl_set_lines l (<[set := erase_line (bl_set_at l set) (ln_id victim)]> (bl_cache_sets l)) (bl_next_line l).

(** The assertion on a duplicate tag aborts. *)
Definition bl_need_eviction (l : BHO3LLC) (s : list Line) (a : Addr_t) : result bool :=
  match find_line (fun x => bl_get_tag l a =? ln_tag x) s with
  | Some _ => Err (Throw "assert(false)")
  | None => Ok (bl_associativity l <=? Z.of_nat (length s))
  end.

(** The new line, or [None] when no victim is ready. *)
Definition bl_allocate_line (clk : Clk_t) (l : BHO3LLC) (a : Addr_t) : result (option Line * BHO3LLC) :=
  let set := bl_get_index l a in
  evict ← bl_need_eviction l (bl_get_set l a) a;
  let room := if (evict : bool)
              then match find_line ln_ready (bl_get_set l a) with
                   | None => None
                   | Some victim => Some (bl_evict_line clk l set victim)
                   end
              else Some l in
  match room with
  | None => Ok (None, l)
  | Some l =>
      let x := mkLine (bl_next_line l) a (bl_get_tag l a) false false in
      Ok (Some x, bl_set_lines l (<[set := bl_get_set l a ++ [x]]> (bl_cache_sets l)) (bl_next_line l + 1))
  end.

(** ** Sources *)
Definition is_core (l : BHO3LLC) (source : Z) : bool := (0 <=? source) && (source <? bl_num_cores l).

Definition bl_charge (l : BHO3LLC) (source n : Z) : result BHO3LLC :=
  k ← vget (bl_allocated_mshrs l) source;
  a ← vset (bl_allocated_mshrs l) source (k + n);
  Ok (bl_set_blacklist l a (bl_blacklist_max_mshrs l) (bl_blacklist_status l)).

Definition add_blacklist (l : BHO3LLC) (source : Z) : BHO3LLC :=
  if negb (is_core l source) then l
  else match vset (bl_blacklist_status l) source true with
       | Ok st => bl_set_blacklist l (bl_allocated_mshrs l) (bl_blacklist_max_mshrs l) st
       | Err _ => l
       end.

Definition erase_blacklist (l : BHO3LLC) (source : Z) : BHO3LLC :=
  if negb (is_core l source) then l
  else match vset (bl_blacklist_status l) source false with
       | Ok st => bl_set_blacklist l (bl_allocated_mshrs l) (bl_blacklist_max_mshrs l) st
       | Err _ => l
       end.

Definition set_blacklist_max_mshrs (l : BHO3LLC) (source max_mshr : Z) : BHO3LLC :=
  if negb (is_core l source) then l
  else match vset (bl_blacklist_max_mshrs l) source max_mshr with
       | Ok m => bl_set_blacklist l (bl_allocated_mshrs l) m (bl_blacklist_status l)
       | Err _ => l
       end.

Definition get_blacklist_max_mshrs (l : BHO3LLC) (source : Z) : Z :=
  if negb (is_core l source) then 0
  else match vget (bl_blacklist_max_mshrs l) source with Ok m => m | Err _ => 0 end.

(** Is a new miss of this source to be turned away? *)
Definition over_cap (l : BHO3LLC) (source : Z) : result bool :=
  if is_core l source then
    listed ← vget (bl_blacklist_status l) source;
    if negb listed then Ok false
    else
      cap ← vget (bl_blacklist_max_mshrs l) source;
      n ← vget (bl_allocated_mshrs l) source;
      Ok ((0 <? cap) && (cap <=? n))
  else Ok false.

(** ** [send] *)
Definition bl_hit (clk : Clk_t) (l : BHO3LLC) (r : Request) (x : Line) : BHO3LLC :=
  let set := bl_get_index l (addr r) in
  let x' := mkLine (bl_next_line l) (addr r) (bl_get_tag l (addr r)) (ln_dirty x || (type_id r =? Write)) true in
  let l := bl_set_lines l (<[set := erase_line (bl_get_set l (addr r) ++ [x']) (ln_id x)]> (bl_cache_sets l)) (bl_next_line l + 1) in
  bl_set_queues l (bl_miss_list l) (bl_hit_list l ++ [(clk + bl_latency l, r)]).

Definition bl_merge (l : BHO3LLC) (r : Request) (dirty : bool) (e : MSHREntry) : result BHO3LLC :=
  let bucket := default [] (bl_receive_requests l !! mshr_addr e) in
  let l := bl_set_mshrs l (bl_mshrs l) (<[mshr_addr e := bucket ++ [r]]> (bl_receive_requests l)) in
  bl_update_line l (mshr_set e) (mshr_line e)
    (fun x => mkLine (ln_id x) (ln_addr x) (ln_tag x) (dirty || ln_dirty x) (ln_ready x)).

Definition set_size_bytes (r : Request) (n : Z) : Request :=
  mkRequest (addr r) (intra_channel_addr r) (addr_vec r) (type_id r) (source_id r) (ingress_id r) (frontend_id r)
    (frontend_sub_id r) (admission_ordinal r) n (command r) (final_command r) (is_stat_updated r) (arrive r) (depart r)
    (callback r).

Definition bl_new_miss (clk : Clk_t) (l : BHO3LLC) (r : Request) (dirty : bool) : result (Request * BHO3LLC) :=
  a ← bl_allocate_line clk l (addr r);
  match a with
  | (None, _) => Err (Throw "BHO3LLC: failed to allocate line when entry was available.")
  | (Some x, l) =>
      let set := bl_get_index l (addr r) in
      l ← bl_update_line l set (ln_id x) (fun x => mkLine (ln_id x) (ln_addr x) (ln_tag x) dirty (ln_ready x));
      let l := bl_set_mshrs l (bl_mshrs l ++ [mkMSHR (addr r) set (ln_id x)]) (<[addr r := [r]]> (bl_receive_requests l)) in
      let r := set_size_bytes r (wrap_s 32 (bl_linesize_bytes l)) in
      let l := bl_set_queues l (bl_miss_list l ++ [(clk + bl_latency l, r)]) (bl_hit_list l) in
      l ← (if is_core l (source_id r) then bl_charge l (source_id r) 1 else Ok l);
      Ok (r, l)
  end.

Definition BHLLC_send (clk : Clk_t) (l : BHO3LLC) (r : Request) : result (bool * Request * BHO3LLC) :=
  let count (l : BHO3LLC) (rd wr : string) :=
    if type_id r =? Read then bl_bump l rd else if type_id r =? Write then bl_bump l wr else l in
  let l := count l "llc_read_access" "llc_write_access" in
  match bl_check_set_hit l (bl_get_set l (addr r)) (addr r) with
  | Some x => Ok (true, r, bl_hit clk l r x)
  | None =>
      let l := count l "llc_read_misses" "llc_write_misses" in
      let dirty := type_id r =? Write in
      let r := if dirty then set_type r Read else r in
      match bl_check_mshr_hit l (addr r) with
      | Some (_, e) => l ← bl_merge l r dirty e; Ok (true, r, l)
      | None =>
          over ← over_cap l (source_id r);
          if (over : bool) then Ok (false, r, bl_bump l "llc_mshr_blacklisted")
          else if Z.of_nat (length (bl_mshrs l)) =? bl_num_mshrs l then Ok (false, r, bl_bump l "llc_mshr_unavailable")
          else if negb ((Z.of_nat (length (bl_get_set l (addr r))) <? bl_associativity l) ||
                        existsb ln_ready (bl_get_set l (addr r)))
          then Ok (false, r, l)
          else q ← bl_new_miss clk l r dirty; Ok (true, q.1, q.2)
      end
  end.

(** ** Completions and flushes *)
Definition BHLLC_receive (l : BHO3LLC) (r : Request) : result BHO3LLC :=
  match bl_check_mshr_hit l (addr r) with
  | None => Ok l
  | Some (i, e) =>
      l ← bl_update_line l (mshr_set e) (mshr_line e)
            (fun x => mkLine (ln_id x) (ln_addr x) (ln_tag x) (ln_dirty x) true);
      let l := bl_set_mshrs l (delete i (bl_mshrs l)) (bl_receive_requests l) in
      if is_core l (source_id r) then
        n ← vget (bl_allocated_mshrs l) (source_id r);
        if 0 <? n then bl_charge l (source_id r) (-1) else Ok l
      else Ok l
  end.

Definition clflush (clk : Clk_t) (l : BHO3LLC) (a : Addr_t) : bool * BHO3LLC :=
  match find_line (fun x => ln_tag x =? bl_get_tag l a) (bl_get_set l a) with
  | None => (false, l)
  | Some x => (true, bl_evict_line clk l (bl_get_index l a) x)
  end.

#[export] Instance BHO3LLC_blacklist : BlacklistLLC BHO3LLC := {|
  llc_mshrs_per_core := bl_mshr_per_core;
  llc_add_blacklist := add_blacklist;
  llc_set_max_mshrs := set_blacklist_max_mshrs
|}.
