(* ===== verification/BlockHammerProps.v ===== *)
(** * BlockHammer defers exactly the hot and recent activations

    The filters and the history buffers are related to the log of activations of a
    run, most recent first: the tested filter counts at least the activations of
    the last epochs (no hot row is missed), and the history buffer never counts
    more than the activations of its window (a deferred row is released), exactly
    as many when the row has no older activation.  Older ones are the exception:
    a slot of the history keeps its entry after it expired. *)

From Stdlib Require Import ZArith Lia SpecFloat.
From S2P Require Import Prelude Base Spec Node Standards Device Controller Scheduler GenericDDR ControllerFacts ControllerInv Plugins TRR BlockHammer.

Local Open Scope Z_scope.

(** ** Logs *)
Fixpoint cnt (e : Z) (log : list (option Z)) : Z :=
  match log with
  | [] => 0
  | o :: log => (if bool_decide (o = Some e) then 1 else 0) + cnt e log
  end.

Lemma cnt_nonneg (e : Z) (log : list (option Z)) : 0 <= cnt e log.
Proof. induction log as [|o log IH]; cbn; [done|]. case_bool_decide; lia. Qed.

Lemma bh_cnt_app (e : Z) (l1 l2 : list (option Z)) : cnt e (l1 ++ l2) = cnt e l1 + cnt e l2.
Proof. induction l1 as [|o l1 IH]; cbn; [done|]. lia. Qed.

Lemma cnt_le (e : Z) (log : list (option Z)) : cnt e log <= Z.of_nat (length log).
Proof. induction log as [|o log IH]; cbn; [done|]. case_bool_decide; lia. Qed.

Lemma cnt_take_mono (e : Z) (m n : nat) (log : list (option Z)) : (m <= n)%nat -> cnt e (take m log) <= cnt e (take n log).
Proof.
  intros Hmn. rewrite <- (take_drop m (take n log)), take_take, Nat.min_l, bh_cnt_app by done. pose proof (cnt_nonneg e (drop m (take n log))). lia.
Qed.

Lemma cnt_take_S (e : Z) (n : nat) (log : list (option Z)) :
  cnt e (take (S n) log) = cnt e (take n log) + (if bool_decide (log !! n = Some (Some e)) then 1 else 0).
Proof.
  destruct (log !! n) as [o|] eqn:Ho.
  - rewrite (take_S_r _ _ o) by done. rewrite bh_cnt_app. cbn [cnt].
    rewrite (bool_decide_ext (Some o = Some (Some e)) (o = Some e)) by (split; congruence). lia.
  - rewrite !take_ge by (apply lookup_ge_None in Ho; lia). rewrite bool_decide_false by done. lia.
Qed.

Lemma cnt_zero (e : Z) (log : list (option Z)) (k : nat) : cnt e log = 0 -> log !! k <> Some (Some e).
Proof.
  intros H0 Hk. rewrite <- (take_drop_middle log k (Some e) Hk), bh_cnt_app in H0. cbn in H0. rewrite bool_decide_true in H0 by done.
  pose proof (cnt_nonneg e (take k log)). pose proof (cnt_nonneg e (drop (S k) log)). lia.
Qed.

(** Collecting the results of a function. *)
Lemma collect_ok {A B} (f : A -> result B) (Q : nat -> B -> Prop) (l : list A) :
  (forall i a, l !! i = Some a -> exists b, f a = Ok b /\ Q i b) ->
  exists bs, foldM (fun bs a => b ← f a; Ok (bs ++ [b])) [] l = Ok bs /\ length bs = length l /\ forall i b, bs !! i = Some b -> Q i b.
Proof.
  enough (forall pre, (forall i b, pre !! i = Some b -> Q i b) -> (forall i a, l !! i = Some a -> exists b, f a = Ok b /\ Q (length pre + i)%nat b) ->
    exists bs, foldM (fun bs a => b ← f a; Ok (bs ++ [b])) pre l = Ok bs /\ length bs = (length pre + length l)%nat /\
      forall i b, bs !! i = Some b -> Q i b) as Hgen.
  { intros H. apply (Hgen []); [done|exact H]. }
  induction l as [|a l IH]; intros pre Hpre Hl; [exists pre; cbn; rewrite Nat.add_0_r; done|].
  destruct (Hl O a eq_refl) as (b & Hb & Qb). rewrite Nat.add_0_r in Qb. rewrite foldM_cons, Hb. cbn [mbind result_bind].
  destruct (IH (pre ++ [b])) as (bs & E & L & HQ).
  - intros i x [Hx|[Hx Hx']]%lookup_app_Some; [by apply Hpre|]. apply list_lookup_singleton_Some in Hx' as [E <-].
    by replace i with (length pre) by lia.
  - intros i x Hx. destruct (Hl (S i) x Hx) as (y & Hy & Qy). exists y. split; [done|]. rewrite length_app. cbn.
    by replace (length pre + 1 + i)%nat with (length pre + S i)%nat by lia.
  - exists bs. split; [exact E|]. split; [rewrite L, length_app; cbn; lia|done].
Qed.

(** ** History buffer

    After [T] cycles [log !! k] is the activation of cycle [T - k]. *)
Definition slot_of (size T : Z) (k : nat) : Z := (T - Z.of_nat k) mod size.

Record hb_inv (size freq : Z) (log : list (option Z)) (h : HistoryBuffer) : Prop := {
  hv_tick : hb_tick h = Z.of_nat (length log);
  hv_size : hb_size h = size;
  hv_freq : hb_max_freq h = freq;
  hv_length : Z.of_nat (length (hb_history h)) = size;
  hv_slot : forall k e, log !! k = Some (Some e) -> Z.of_nat k < size ->
    exists x, vget (hb_history h) (slot_of size (Z.of_nat (length log)) k) = Ok x /\ he_entry x = e;
  hv_stale : forall i x, vget (hb_history h) i = Ok x -> he_entry x <> -1 ->
    exists k, log !! k = Some (Some (he_entry x)) /\ slot_of size (Z.of_nat (length log)) k = i;
  hv_upper : forall e n, hb_elem_counter h !! e = Some n -> 1 <= n <= cnt e (take (Z.to_nat size) log);
  hv_exact : forall e, e <> -1 -> cnt e (drop (Z.to_nat size) log) = 0 ->
    default 0 (hb_elem_counter h !! e) = cnt e (take (Z.to_nat size) log)
}.

Lemma HB_init_inv (size freq : Z) : 0 < size -> hb_inv size freq [] (HB_init size freq).
Proof.
  intros Hs. split; cbn; try done.
  - rewrite length_replicate. lia.
  - intros i x [_ [-> _]%lookup_replicate]%vget_Ok. done.
  - intros e _ _. by rewrite take_nil, lookup_empty.
Qed.

Section history.
Context (size freq : Z) (Hsize : 0 < size < 2 ^ 32).

Lemma slot_bound (T : Z) (k : nat) : 0 <= slot_of size T k < size.
Proof. unfold slot_of. apply Z.mod_pos_bound. lia. Qed.

(** The slot of the next cycle is the one that leaves the window. *)
Lemma slot_next (T : Z) (k : nat) : slot_of size T k = (T + 1) mod size <-> (Z.of_nat k + 1) mod size = 0.
Proof.
  unfold slot_of. split; intros H.
  - replace (Z.of_nat k + 1) with ((T + 1) - (T - Z.of_nat k)) by lia. rewrite Zminus_mod, H, Z.sub_diag. apply Z.mod_0_l. lia.
  - replace (T + 1) with ((T - Z.of_nat k) + (Z.of_nat k + 1)) by lia. rewrite Zplus_mod, H, Z.add_0_r, Zmod_mod. done.
Qed.

Lemma slot_shift (T : Z) (k : nat) : slot_of size (T + 1) (S k) = slot_of size T k.
Proof. unfold slot_of. f_equal. lia. Qed.

Lemma hb_update_ok (log : list (option Z)) (h : HistoryBuffer) :
  hb_inv size freq log h -> Z.of_nat (length log) + 1 < 2 ^ 64 -> exists h', hb_update h = Ok h' /\ hb_inv size freq (None :: log) h'.
Proof.
  intros [HT HS HF HL Hslot Hstale Hup Hex] H64. unfold hb_update. cbn zeta. rewrite HT.
  set (T := Z.of_nat (length log)) in *. assert (wrap_u 64 (T + 1) = T + 1) as -> by (unfold wrap_u; rewrite Z.mod_small; lia). unfold rem_u. rewrite HS. destruct (Z.eqb_spec size 0) as [?|_]; [lia|]. cbn [mbind result_bind].
  destruct (vget_in_range (hb_history h) ((T + 1) mod size)) as [x Hx]; [rewrite HL; apply Z.mod_pos_bound; lia|]. rewrite Hx. cbn [mbind result_bind].
  eexists. split; [done|]. destruct (Z.to_nat size) as [|w] eqn:Ew; [lia|].
  assert (Hlast : forall e, log !! w = Some (Some e) -> he_entry x = e).
  { intros e He. destruct (Hslot w e He) as (y & Hy & <-); [lia|]. rewrite (proj2 (slot_next T w)) in Hy; [congruence|].
    replace (Z.of_nat w + 1) with size by lia. apply Z.mod_same. lia. }
  assert (Hcnt : forall e n, hb_elem_counter h !! e = Some n -> 1 <= n < 2 ^ 32).
  { intros e n Hn. specialize (Hup e n Hn). pose proof (cnt_le e (take (S w) log)). rewrite length_take in *. lia. }
  split; cbn; try done.
  - lia.
  - intros [|k] e He Hk; [done|]. replace (Z.of_nat (S (length log))) with (T + 1) by lia. rewrite slot_shift. apply (Hslot k e He). lia.
  - intros i y Hy Hne. destruct (Hstale i y Hy Hne) as (k & Hk & <-). exists (S k). split; [done|].
    replace (Z.of_nat (S (length log))) with (T + 1) by lia. apply slot_shift.
  - intros e n Hn. rewrite Ew. cbn [take cnt]. rewrite bool_decide_false by done. rewrite Z.add_0_l.
    destruct (hb_elem_counter h !! he_entry x) as [m|] eqn:Hm.
    + pose proof (Hcnt _ _ Hm). unfold wrap_u in Hn. rewrite Z.mod_small in Hn by lia. destruct (decide (e = he_entry x)) as [->|Hne].
      * specialize (Hup _ _ Hm). rewrite cnt_take_S in Hup. destruct (Z.eqb_spec (m - 1) 0); [by rewrite lookup_delete_eq in Hn|].
        rewrite lookup_insert_eq in Hn. injection Hn as <-. case_bool_decide; lia.
      * assert (hb_elem_counter h !! e = Some n) as Hn' by (destruct (_ =? 0); [by rewrite lookup_delete_ne in Hn|by rewrite lookup_insert_ne in Hn]).
        specialize (Hup _ _ Hn'). rewrite cnt_take_S, bool_decide_false in Hup; [lia|]. intros He. by apply Hne, eq_sym, Hlast.
    + specialize (Hup _ _ Hn). rewrite cnt_take_S, bool_decide_false in Hup; [lia|]. intros He. apply Hlast in He. congruence.
  - intros e Hne He. rewrite Ew in *. cbn [take drop cnt] in *. rewrite bool_decide_false by done.
    assert (cnt e (drop (S w) log) = 0 /\ log !! w <> Some (Some e)) as [He1 He2].
    { destruct (log !! w) as [o|] eqn:Ho; [|by rewrite drop_ge in * by (apply lookup_ge_None in Ho; lia)].
      rewrite (drop_S _ o) in He by done. cbn in He. pose proof (cnt_nonneg e (drop (S w) log)). case_bool_decide; [lia|]. split; [lia|congruence]. }
    assert (he_entry x <> e) as Hxe.
    { intros <-. destruct (Hstale _ _ Hx Hne) as (k & Hk & Hs). apply slot_next in Hs. apply (cnt_zero _ _ (k - S w) He1).
      rewrite lookup_drop. apply Z.mod_divide in Hs as [q Hq]; [|lia].
      assert (w <= k)%nat by (destruct (Z.le_gt_cases q 0); nia). destruct (decide (k = w)) as [->|]; [done|]. by replace (S w + (k - S w))%nat with k by lia. }
    specialize (Hex e Hne He1). rewrite cnt_take_S, bool_decide_false in Hex by done.
    rewrite Z.add_0_l, <- (Z.add_0_r (cnt _ _)), <- Hex. f_equal. destruct (hb_elem_counter h !! he_entry x); [|done].
    destruct (_ =? 0); [by rewrite lookup_delete_ne|by rewrite lookup_insert_ne].
Qed.

Lemma hb_insert_ok (log : list (option Z)) (h : HistoryBuffer) (e : Z) :
  hb_inv size freq (None :: log) h -> exists h', hb_insert h e = Ok h' /\ hb_inv size freq (Some e :: log) h'.
Proof.
  intros [HT HS HF HL Hslot Hstale Hup Hex]. unfold hb_insert. rewrite HT, HS. set (T := Z.of_nat (length (None :: log))) in *.
  unfold rem_u. destruct (Z.eqb_spec size 0) as [?|_]; [lia|]. cbn [mbind result_bind].
  destruct (vset_total (hb_history h) (T mod size) (mkHist e T)) as [l Hl]; [rewrite HL; apply Z.mod_pos_bound; lia|]. rewrite Hl. cbn [mbind result_bind].
  eexists. split; [done|]. destruct (Z.to_nat size) as [|w] eqn:Ew; [lia|]. cbn [take drop cnt] in *.
  assert (Hup' : forall e' n, hb_elem_counter h !! e' = Some n -> 1 <= n <= cnt e' (take w log)) by (intros e' n Hn; specialize (Hup e' n Hn); by rewrite bool_decide_false in Hup by done).
  assert (Hcnt : default 0 (hb_elem_counter h !! e) + 1 < 2 ^ 32 /\ 0 <= default 0 (hb_elem_counter h !! e)).
  { pose proof (cnt_le e (take w log)). rewrite length_take in *. destruct (hb_elem_counter h !! e) as [n|] eqn:Hn; cbn; [specialize (Hup' e n Hn)|]; lia. }
  assert (E0 : slot_of size T 0 = T mod size) by (unfold slot_of; f_equal; lia).
  split; cbn; try done.
  - by rewrite (vset_length _ _ _ _ Hl).
  - intros k e' Hk Hk'. change (Z.of_nat (S (length log))) with T. rewrite (vget_vset _ _ _ _ _ Hl). destruct k as [|k].
    + injection Hk as <-. rewrite E0, Z.eqb_refl. by eexists.
    + destruct (Z.eqb_spec (slot_of size T (S k)) (T mod size)) as [E|_]; [|by apply (Hslot (S k))]. exfalso.
      rewrite <- E0 in E. replace T with (T - 1 + 1) in E at 1 by lia. rewrite slot_shift in E.
      rewrite E0 in E. replace T with (T - 1 + 1) in E at 2 by lia. apply slot_next in E. rewrite Z.mod_small in E by lia. lia.
  - intros i y. rewrite (vget_vset _ _ _ _ _ Hl). destruct (Z.eqb_spec i (T mod size)) as [->|_].
    + intros [= <-] _. by exists O.
    + intros Hy Hy'. destruct (Hstale i y Hy Hy') as ([|k] & Hk & <-); [done|]. by exists (S k).
  - intros e' n. rewrite Ew. cbn [take cnt]. unfold wrap_u. rewrite Z.mod_small by lia. destruct (decide (e' = e)) as [->|Hd].
    + rewrite lookup_insert_eq, bool_decide_true by done. intros [= <-]. destruct (hb_elem_counter h !! e) as [n|] eqn:Hn; cbn; [specialize (Hup' e n Hn); lia|].
      pose proof (cnt_nonneg e (take w log)). lia.
    + rewrite lookup_insert_ne by done. intros Hn. rewrite bool_decide_false by congruence. by apply Hup'.
  - intros e' Hne' He'. rewrite Ew in *. cbn [take drop cnt] in *. unfold wrap_u. rewrite Z.mod_small by lia. specialize (Hex e' Hne' He'). rewrite bool_decide_false in Hex by done.
    destruct (decide (e' = e)) as [->|Hd].
    + rewrite lookup_insert_eq, bool_decide_true by done. cbn. lia.
    + rewrite lookup_insert_ne by done. rewrite bool_decide_false by congruence. done.
Qed.

Lemma hb_search_upper (log : list (option Z)) (h : HistoryBuffer) (e : Z) :
  hb_inv size freq log h -> hb_search h e = true -> Z.max 1 freq <= cnt e (take (Z.to_nat size) log).
Proof.
  intros [_ _ HF _ _ _ Hup _]. unfold hb_search, hb_exists, hb_exceeds. rewrite HF. intros [[n Hn]%bool_decide_eq_true Hle]%andb_true_iff.
  rewrite Hn in Hle. cbn in Hle. specialize (Hup e n Hn). lia.
Qed.

Lemma hb_search_exact (log : list (option Z)) (h : HistoryBuffer) (e : Z) :
  hb_inv size freq log h -> e <> -1 -> cnt e (drop (Z.to_nat size) log) = 0 ->
  hb_search h e = (Z.max 1 freq <=? cnt e (take (Z.to_nat size) log)).
Proof.
  intros [_ _ HF _ _ _ Hup Hex] Hne He. specialize (Hex e Hne He). unfold hb_search, hb_exists, hb_exceeds. rewrite HF.
  destruct (hb_elem_counter h !! e) as [n|] eqn:Hn; cbn in *.
  - specialize (Hup e n Hn). lia.
  - lia.
Qed.
End history.

(** ** Counting Bloom filter *)
Section bloom.
Context (hashes : list bloom_hash_fn) (size thresh : Z) (Hsize : 0 < size < 2 ^ 31) (Hthr : 0 <= thresh < 2 ^ 31).
Context (Htotal : forall hash key, hash ∈ hashes -> 0 <= key < 2 ^ 32 -> exists v, bloom_hash hash key = Ok v /\ 0 <= v).

Let K : Z := Z.of_nat (length hashes).

(** The counter of an element under a hash function. *)
Definition index_of (hash : bloom_hash_fn) (e : Z) : Z := match bloom_hash hash (wrap_u 32 e) with Ok v => v mod size | Err _ => 0 end.

Record cb_ok (bound : Z) (f : CountingBloomFilter) : Prop := {
  cv_num : cb_num_counters f = size;
  cv_thresh : cb_ctr_thresh f = thresh;
  cv_length : Z.of_nat (length (cb_counters f)) = size;
  cv_range : forall j x, vget (cb_counters f) j = Ok x -> 0 <= x <= bound
}.

Lemma cb_ok_weaken (b b' : Z) (f : CountingBloomFilter) : cb_ok b f -> b <= b' -> cb_ok b' f.
Proof. intros [E1 E2 E3 E4] Hb. split; try done. intros j x Hx. specialize (E4 j x Hx). lia. Qed.

Lemma index_bound (hash : bloom_hash_fn) (e : Z) : hash ∈ hashes -> 0 <= index_of hash e < size.
Proof.
  intros Hin. unfold index_of. destruct (Htotal hash (wrap_u 32 e) Hin) as (v & -> & Hv); [apply Z.mod_pos_bound; lia|].
  apply Z.mod_pos_bound. lia.
Qed.

Lemma cb_index_eq (b : Z) (f : CountingBloomFilter) (hash : bloom_hash_fn) (e : Z) :
  cb_ok b f -> hash ∈ hashes -> cb_index f hash e = Ok (index_of hash e).
Proof.
  intros [E1 _ _ _] Hin. unfold cb_index, index_of. destruct (Htotal hash (wrap_u 32 e) Hin) as (v & -> & Hv); [apply Z.mod_pos_bound; lia|].
  cbn [mbind result_bind]. unfold rem_u. rewrite E1. unfold wrap_u. rewrite Z.mod_small by lia. by destruct (Z.eqb_spec size 0); [lia|].
Qed.

(** What inserting an element does to the counters. *)
Definition raised (hs : list bloom_hash_fn) (e : Z) (f f' : CountingBloomFilter) : Prop :=
  forall j x, vget (cb_counters f) j = Ok x ->
    exists x', vget (cb_counters f') j = Ok x' /\ x <= x' /\ forall hash, hash ∈ hs -> index_of hash e = j -> Z.min thresh (x + 1) <= x'.

Lemma cb_insert_fold (hs : list bloom_hash_fn) (e b : Z) (f : CountingBloomFilter) :
  (forall hash, hash ∈ hs -> hash ∈ hashes) -> cb_ok b f -> b + Z.of_nat (length hs) < 2 ^ 32 ->
  exists f', cb_insert hs f e = Ok f' /\ cb_ok (b + Z.of_nat (length hs)) f' /\ raised hs e f f'.
Proof.
  unfold cb_insert. revert b f. induction hs as [|hash hs IH]; intros b f Hsub Hf Hb.
  { exists f. split; [done|]. split; [by apply (cb_ok_weaken b); [|cbn; lia]|]. intros j x Hx. exists x. split_and!; [done|lia|]. by intros hash Hin%elem_of_nil. }
  assert (Hin : hash ∈ hashes) by (apply Hsub; by left). rewrite foldM_cons, (cb_index_eq b) by done. cbn [mbind result_bind].
  pose proof (index_bound hash e Hin) as Hidx. destruct (vget_in_range (cb_counters f) (index_of hash e)) as [n Hn]; [rewrite (cv_length b f Hf); lia|].
  rewrite Hn. cbn [mbind result_bind]. rewrite (cv_thresh b f Hf). assert (wrap_u 32 thresh = thresh) as -> by (unfold wrap_u; rewrite Z.mod_small; lia). cbn [length] in Hb.
  pose proof (cv_range b f Hf _ _ Hn) as Hr.
  assert (Hstep : exists f1, (if negb (cb_saturate f) || (n <? thresh) then l ← vset (cb_counters f) (index_of hash e) (wrap_u 32 (n + 1)); Ok (cb_set f l) else Ok f) = Ok f1 /\
    cb_ok (b + 1) f1 /\ raised [hash] e f f1).
  { destruct (_ || _) eqn:Hc.
    - destruct (vset_total (cb_counters f) (index_of hash e) (wrap_u 32 (n + 1))) as [l Hl]; [rewrite (cv_length b f Hf); lia|].
      unfold wrap_u in *. rewrite Z.mod_small in Hl by lia. rewrite Z.mod_small by lia. rewrite Hl. eexists. split; [done|]. split.
      + destruct Hf as [E1 E2 E3 E4]. split; cbn; try done; [by rewrite (vset_length _ _ _ _ Hl)|]. intros j x. rewrite (vget_vset _ _ _ _ _ Hl).
        destruct (_ =? _); [intros [= <-]; lia|]. intros Hx. specialize (E4 j x Hx). lia.
      + intros j x Hx. cbn. rewrite (vget_vset _ _ _ _ _ Hl). destruct (Z.eqb_spec j (index_of hash e)) as [->|Hne].
        * rewrite Hn in Hx. injection Hx as <-. exists (n + 1). split_and!; [done|lia|]. intros; lia.
        * exists x. split_and!; [done|lia|]. by intros h' ->%list_elem_of_singleton ?.
    - apply orb_false_iff in Hc as [_ Hc]. exists f. split; [done|]. split; [by apply (cb_ok_weaken b); [|lia]|].
      intros j x Hx. exists x. split_and!; [done|lia|]. intros h' ->%list_elem_of_singleton <-. rewrite Hn in Hx. injection Hx as <-. lia. }
  destruct Hstep as (f1 & -> & Hf1 & R1). destruct (IH (b + 1) f1) as (f' & Hf' & Hok & R2); [intros; apply Hsub; by right|done|lia|].
  exists f'. split; [exact Hf'|]. split; [eapply cb_ok_weaken; [exact Hok|cbn [length]; lia]|]. intros j x Hx.
  destruct (R1 j x Hx) as (x1 & Hx1 & Hle1 & H1). destruct (R2 j x1 Hx1) as (x2 & Hx2 & Hle2 & H2). exists x2. split_and!; [done|lia|].
  intros h' [->|Hh]%elem_of_cons Hi; [|specialize (H2 h' Hh Hi); lia].
  specialize (H1 hash ltac:(by left) Hi). lia.
Qed.

(** The filter has seen [n] cycles since it was reset; [b] is 1 between the start of
    a cycle and its activation. *)
Record cb_inv (b : Z) (n : nat) (log : list (option Z)) (f : CountingBloomFilter) : Prop := {
  ci_ok : cb_ok (K * (Z.of_nat n - b)) f;
  ci_lower : forall e hash x, hash ∈ hashes -> vget (cb_counters f) (index_of hash e) = Ok x -> Z.min thresh (cnt e (take n log)) <= x
}.

Lemma cb_tick_inv (n : nat) (log : list (option Z)) (f : CountingBloomFilter) : cb_inv 0 n log f -> cb_inv 1 (S n) (None :: log) f.
Proof.
  intros [H1 H2]. split; [by replace (Z.of_nat (S n) - 1) with (Z.of_nat n - 0) by lia|]. intros e hash x Hin Hx. cbn [take cnt].
  rewrite bool_decide_false by done. by apply (H2 e hash).
Qed.

Lemma cb_reset_inv (bound : Z) (log : list (option Z)) (f : CountingBloomFilter) : cb_ok bound f -> cb_inv 1 1 (None :: log) (cb_reset f).
Proof.
  intros [E1 E2 E3 E4]. assert (Hz : forall j x, vget (cb_counters (cb_reset f)) j = Ok x -> x = 0).
  { intros j x [_ Hx]%vget_Ok. by apply list_lookup_fmap_Some in Hx as (? & -> & _). }
  split; [split; cbn; rewrite ?length_map; try done; intros j x ->%Hz; rewrite (Z.mul_0_r K : K * (Z.of_nat 1 - 1) = 0); done|]. intros e hash x _ ->%Hz. cbn [take cnt].
  rewrite bool_decide_false by done. destruct log; cbn; lia.
Qed.

Lemma cb_idle_inv (n : nat) (log : list (option Z)) (f : CountingBloomFilter) : cb_inv 1 n log f -> cb_inv 0 n log f.
Proof. intros [H1 H2]. split; [|done]. eapply cb_ok_weaken; [exact H1|]. lia. Qed.

Lemma cb_insert_inv (n : nat) (log : list (option Z)) (f : CountingBloomFilter) (e : Z) :
  cb_inv 1 n (None :: log) f -> (1 <= n)%nat -> K * Z.of_nat n < 2 ^ 32 ->
  exists f', cb_insert hashes f e = Ok f' /\ cb_inv 0 n (Some e :: log) f'.
Proof.
  intros [H1 H2] Hn Hb. destruct (cb_insert_fold hashes e (K * (Z.of_nat n - 1)) f) as (f' & Hf & Hok & HR); [done|done|fold K; lia|].
  exists f'. split; [done|]. split; [eapply cb_ok_weaken; [exact Hok|fold K; lia]|]. intros e' hash x Hin Hx.
  destruct (vget_in_range (cb_counters f) (index_of hash e')) as [x0 Hx0]; [rewrite (cv_length _ f H1); by apply index_bound|].
  destruct (HR _ _ Hx0) as (x' & Hx' & Hle & Hinc). rewrite Hx in Hx'. injection Hx' as <-. specialize (H2 e' hash x0 Hin Hx0).
  destruct n as [|n]; [lia|]. cbn [take cnt] in *. rewrite bool_decide_false in H2 by done. case_bool_decide as He; [|lia]. injection He as <-.
  specialize (Hinc hash Hin eq_refl). lia.
Qed.

Lemma cb_test_ok (b : Z) (n : nat) (log : list (option Z)) (f : CountingBloomFilter) (e : Z) :
  cb_inv b n log f -> exists v, cb_test hashes f e = Ok v /\ (thresh <= cnt e (take n log) -> v = true).
Proof.
  intros [H1 H2]. unfold cb_test.
  enough (forall hs (acc : bool), (forall hash, hash ∈ hs -> hash ∈ hashes) -> exists v, foldM (fun (pass : bool) hash => idx ← cb_index f hash e;
    n ← vget (cb_counters f) idx; Ok (pass && (wrap_u 32 (cb_ctr_thresh f) <=? n))) acc hs = Ok v /\
    (thresh <= cnt e (take n log) -> acc = true -> v = true)) as Hgen.
  { destruct (Hgen hashes true) as (v & Hv & Ht); [done|]. exists v. auto. }
  induction hs as [|hash hs IH]; intros acc Hsub; [by exists acc|]. assert (Hin : hash ∈ hashes) by (apply Hsub; by left).
  rewrite foldM_cons, (cb_index_eq _ f hash e H1 Hin). cbn [mbind result_bind].
  destruct (vget_in_range (cb_counters f) (index_of hash e)) as [x Hx]; [rewrite (cv_length _ f H1); by apply index_bound|].
  rewrite Hx. cbn [mbind result_bind]. specialize (H2 e hash x Hin Hx).
  destruct (IH (acc && (wrap_u 32 (cb_ctr_thresh f) <=? x))) as (v & Hv & Ht); [intros; apply Hsub; by right|]. exists v. split; [exact Hv|].
  intros Hc Hacc. apply Ht; [done|]. rewrite Hacc, (cv_thresh _ f H1). unfold wrap_u. rewrite Z.mod_small by lia. apply Z.leb_le. lia.
Qed.

(** ** Unified Bloom filter *)
Context (N len : Z) (HN : 0 < N < 2 ^ 32) (Hlen : 0 < len < 2 ^ 64) (Hcap : K * (N * len) < 2 ^ 32).

(** Cycles since the [i]-th filter was reset, when filter [t] is tested. *)
Definition age (T tick t i : Z) : Z := Z.min T (tick + 1 + (N - 1 - (i - t) mod N) * len).

Record ub_inv (b : Z) (log : list (option Z)) (u : UnifiedBloomFilter) : Prop := {
  uv_len : ub_len_epoch u = len;
  uv_num : Z.of_nat (length (ub_filters u)) = N;
  uv_idx : 0 <= ub_test_idx u < N;
  uv_tick : 0 <= ub_tick u < len /\ ub_tick u <= Z.of_nat (length log);
  uv_filters : forall i f, ub_filters u !! i = Some f ->
    cb_inv b (Z.to_nat (age (Z.of_nat (length log)) (ub_tick u) (ub_test_idx u) (Z.of_nat i))) log f
}.

Lemma age_bounds (T tick t i : Z) : 0 <= tick < len -> tick <= T -> Z.min T 1 <= age T tick t i <= N * len.
Proof. intros Ht HT. unfold age. pose proof (Z.mod_pos_bound (i - t) N). nia. Qed.

Lemma age_tested (T tick t : Z) : 0 <= tick -> Z.min T ((N - 1) * len + 1) <= age T tick t t.
Proof. intros Ht. unfold age. rewrite Z.sub_diag, Z.mod_0_l by lia. lia. Qed.

Lemma age_next (T tick t i : Z) : age (T + 1) (tick + 1) t i = age T tick t i + 1.
Proof. unfold age. lia. Qed.

Lemma age_rotate (T t i : Z) : 0 <= i < N -> 0 <= t < N -> i <> t -> age (T + 1) 0 ((t + 1) mod N) i = age T (len - 1) t i + 1.
Proof.
  intros Hi Ht Hne. unfold age. replace ((i - (t + 1) mod N) mod N) with ((i - t) mod N - 1); [lia|].
  rewrite Zminus_mod_idemp_r. pose proof (Z.mod_pos_bound (i - t) N).
  assert ((i - t) mod N <> 0) as Hnz.
  { intros H0. apply Z.mod_divide in H0 as [q Hq]; [|lia]. destruct (Z.lt_trichotomy q 0) as [?|[->|?]]; nia. }
  replace (i - (t + 1)) with (i - t - 1) by lia. rewrite <- (Zminus_mod_idemp_l (i - t) 1 N). symmetry. apply Z.mod_small. lia.
Qed.

Lemma age_reset (T t : Z) : 0 <= T -> 0 <= t < N -> age (T + 1) 0 ((t + 1) mod N) t = 1.
Proof.
  intros HT Ht. unfold age. rewrite Zminus_mod_idemp_r. replace (t - (t + 1)) with (- 1) by lia.
  replace ((-1) mod N) with (N - 1); [lia|]. apply (Z.mod_unique_pos _ _ (-1)); lia.
Qed.

Lemma ub_update_ok (log : list (option Z)) (u : UnifiedBloomFilter) :
  ub_inv 0 log u -> exists u', ub_update u = Ok u' /\ ub_inv 1 (None :: log) u'.
Proof.
  intros [E1 E2 E3 E4 E5]. unfold ub_update. rewrite E1. cbn zeta. set (T := Z.of_nat (length log)) in *.
  assert (wrap_u 64 len = len) as -> by (unfold wrap_u; apply Z.mod_small; lia).
  assert (wrap_u 64 (ub_tick u + 1) = ub_tick u + 1) as -> by (unfold wrap_u; apply Z.mod_small; lia).
  assert (ET : Z.of_nat (length (None :: log)) = T + 1) by (cbn [length]; lia).
  destruct (Z.leb_spec len (ub_tick u + 1)) as [Hrot|Hstay].
  - destruct (vget_in_range (ub_filters u) (ub_test_idx u)) as [f Hf]; [lia|]. rewrite Hf. cbn [mbind result_bind].
    destruct (vset_total (ub_filters u) (ub_test_idx u) (cb_reset f)) as [l Hl]; [lia|]. rewrite Hl. cbn [mbind result_bind].
    unfold rem_u. rewrite (vset_length _ _ _ _ Hl), E2. destruct (Z.eqb_spec N 0) as [?|_]; [lia|]. cbn [mbind result_bind].
    assert (wrap_u 32 (ub_test_idx u + 1) mod N = (ub_test_idx u + 1) mod N) as ->.
    { unfold wrap_u. destruct (decide (ub_test_idx u + 1 < 2 ^ 32)); [by rewrite (Z.mod_small _ (2 ^ 32)) by lia|]. lia. }
    eexists. split; [done|]. split; cbn [ub_len_epoch ub_filters ub_tick ub_test_idx]; try done.
    + by rewrite (vset_length _ _ _ _ Hl).
    + apply Z.mod_pos_bound. lia.
    + rewrite ET. lia.
    + intros i g Hg. rewrite ET. assert (Hi : 0 <= Z.of_nat i < N) by (apply lookup_lt_Some in Hg; rewrite (vset_length _ _ _ _ Hl) in Hg; lia).
      assert (Hg' : vget l (Z.of_nat i) = Ok g) by (apply vget_Ok; split; [lia|by rewrite Nat2Z.id]). rewrite (vget_vset _ _ _ _ _ Hl) in Hg'.
      assert (ub_tick u = len - 1) as Etk by lia. destruct (Z.eqb_spec (Z.of_nat i) (ub_test_idx u)) as [Ei|Hne].
      * injection Hg' as <-. rewrite Ei, age_reset by lia. apply vget_Ok in Hf as [_ Hf]. eapply cb_reset_inv. exact (ci_ok _ _ _ _ (E5 _ _ Hf)).
      * apply vget_Ok in Hg' as [_ Hg']. rewrite Nat2Z.id in Hg'. rewrite age_rotate by lia. rewrite <- Etk.
        pose proof (age_bounds T (ub_tick u) (ub_test_idx u) (Z.of_nat i)). rewrite Z2Nat.inj_add, Nat.add_1_r by lia. apply cb_tick_inv. by apply E5.
  - eexists. split; [done|]. split; cbn [ub_len_epoch ub_filters ub_tick ub_test_idx]; try done; [rewrite ET; lia|].
    intros i g Hg. rewrite ET, age_next. pose proof (age_bounds T (ub_tick u) (ub_test_idx u) (Z.of_nat i)).
    rewrite Z2Nat.inj_add, Nat.add_1_r by lia. apply cb_tick_inv. by apply E5.
Qed.

Lemma ub_idle_inv (log : list (option Z)) (u : UnifiedBloomFilter) : ub_inv 1 log u -> ub_inv 0 log u.
Proof. intros [E1 E2 E3 E4 E5]. split; try done. intros i f Hf. by apply cb_idle_inv, E5. Qed.

Lemma ub_insert_ok (log : list (option Z)) (u : UnifiedBloomFilter) (e : Z) :
  ub_inv 1 (None :: log) u -> exists u', ub_insert hashes u e = Ok u' /\ ub_inv 0 (Some e :: log) u'.
Proof.
  intros [E1 E2 E3 E4 E5]. unfold ub_insert.
  destruct (collect_ok (fun f => cb_insert hashes f e) (fun i f => cb_inv 0 (Z.to_nat (age (Z.of_nat (length (None :: log))) (ub_tick u) (ub_test_idx u) (Z.of_nat i)))
    (Some e :: log) f) (ub_filters u)) as (l & Hl & Elen & HQ).
  - intros i f Hf. pose proof (age_bounds (Z.of_nat (length (None :: log))) (ub_tick u) (ub_test_idx u) (Z.of_nat i)) as Hb. cbn [length] in *.
    apply cb_insert_inv; [by apply E5|lia|]. rewrite Z2Nat.id by lia. assert (0 <= K) by (unfold K; lia). nia.
  - rewrite Hl. cbn [mbind result_bind]. eexists. split; [done|]. split; cbn [ub_len_epoch ub_filters ub_tick ub_test_idx]; try done. by rewrite Elen.
Qed.

Lemma ub_test_ok (b : Z) (log : list (option Z)) (u : UnifiedBloomFilter) (e : Z) :
  ub_inv b log u -> exists v, ub_test hashes u e = Ok v /\ (thresh <= cnt e (take (Z.to_nat ((N - 1) * len + 1)) log) -> v = true).
Proof.
  intros [E1 E2 E3 E4 E5]. unfold ub_test. destruct (vget_in_range (ub_filters u) (ub_test_idx u)) as [f Hf]; [lia|]. rewrite Hf. cbn [mbind result_bind].
  apply vget_Ok in Hf as [_ Hf]. specialize (E5 _ _ Hf). rewrite Z2Nat.id in E5 by lia. destruct (cb_test_ok b _ log f e E5) as (v & Hv & Ht).
  exists v. split; [done|]. intros Hc. apply Ht. pose proof (age_tested (Z.of_nat (length log)) (ub_tick u) (ub_test_idx u) ltac:(lia)) as Ha.
  destruct (Z.le_gt_cases ((N - 1) * len + 1) (age (Z.of_nat (length log)) (ub_tick u) (ub_test_idx u) (ub_test_idx u))).
  - etransitivity; [exact Hc|]. apply cnt_take_mono. lia.
  - rewrite take_ge in Hc by lia. rewrite take_ge by lia. done.
Qed.
End bloom.

(** ** The detection state *)
Record act := mkAct { a_bank : Z; a_rank : Z; a_row : Z }.

(** The rows activated in a bank, or in a rank. *)
Definition log_of (f : act -> Z) (i : Z) (log : list (option act)) : list (option Z) :=
  map (fun o => match o with Some a => if f a =? i then Some (a_row a) else None | None => None end) log.
Abbreviation bank_log := (log_of a_bank).
Abbreviation rank_log := (log_of a_rank).

(** Sizes for which the filters work, with an epoch of [len] cycles. *)
Record bh_config (p : BHParams) (len : Z) : Prop := {
  bc_filters : 0 < bf_num_filters p < 2 ^ 31;
  bc_count : 1 < bf_ctr_count p < 2 ^ 31;
  bc_thresh : 0 <= bf_ctr_thresh p < 2 ^ 31;
  bc_epoch : 0 < len < 2 ^ 31;
  bc_counts : Z.of_nat (length (seqZ 0 (bf_num_hashes p))) * (bf_num_filters p * len) < 2 ^ 32
}.

Section detection.
Context (p : BHParams) (len hist : Z) (HC : bh_config p len) (Hhist : 0 < hist < 2 ^ 32).

Definition the_hashes : list bloom_hash_fn := map (pair (bf_ctr_count p)) (seqZ 0 (bf_num_hashes p)).
Definition bh_freq : Z := wrap_u 32 (bf_hist_max_freq p).
Definition filter_inv (b : Z) (log : list (option Z)) (u : UnifiedBloomFilter) : Prop :=
  ub_inv the_hashes (bf_ctr_count p) (bf_ctr_thresh p) (bf_num_filters p) len b log u.

Lemma hashes_total hash key : hash ∈ the_hashes -> 0 <= key < 2 ^ 32 -> exists v, bloom_hash hash key = Ok v /\ 0 <= v.
Proof.
  intros (i & -> & _)%list_elem_of_fmap Hk. unfold bloom_hash, rem_u. pose proof (bc_count p len HC).
  assert (wrap_u 32 (bf_ctr_count p - 1) = bf_ctr_count p - 1) as -> by (unfold wrap_u; apply Z.mod_small; lia).
  destruct (Z.eqb_spec (bf_ctr_count p - 1) 0) as [?|_]; [lia|]. cbn [mbind result_bind]. eexists. split; [done|].
  apply Z.mod_pos_bound. lia.
Qed.

Lemma hashes_capacity : Z.of_nat (length the_hashes) * (bf_num_filters p * len) < 2 ^ 32.
Proof. unfold the_hashes. rewrite length_map. apply (bc_counts p len HC). Qed.

Record throttler_ok (t : AttackThrottler) : Prop := {
  to_epoch : at_t_cbf t = len;
  to_num : at_n_ctrs t = bf_num_filters p /\ Z.of_nat (length (at_act_counters t)) = bf_num_filters p;
  to_idx : 0 <= at_active_idx t < bf_num_filters p;
  to_clk : -1 <= at_clk t < len
}.

Record bh_inv (b : Z) (log : list (option act)) (s : BHState) : Prop := {
  bi_hashes : bh_hash_functions s = the_hashes;
  bi_filters : forall i u, bh_bank_filters s !! i = Some u -> filter_inv b (bank_log (Z.of_nat i) log) u;
  bi_history : forall i h, bh_rank_history s !! i = Some h -> hb_inv hist bh_freq (rank_log (Z.of_nat i) log) h;
  bi_throttler : throttler_ok (bh_throttler s)
}.

Lemma log_length f i log : length (log_of f i log) = length log.
Proof. apply length_map. Qed.

Lemma at_update_ok (t : AttackThrottler) : throttler_ok t -> exists t', at_update t = Ok t' /\ throttler_ok t'.
Proof.
  intros [E1 [E2 E3] E4 E5]. unfold at_update, inc_s32. pose proof (bc_epoch p len HC). destruct (Z.ltb_spec (at_clk t) (2 ^ 31 - 1)); [|lia].
  cbn [mbind result_bind]. rewrite E1, E2. destruct (Z.leb_spec len (at_clk t + 1)).
  - destruct (vset_total (at_act_counters t) (at_active_idx t) ∅) as [l Hl]; [lia|]. rewrite Hl. cbn [mbind result_bind]. unfold rem_s.
    destruct (Z.eqb_spec (bf_num_filters p) 0) as [?|_]; [lia|]. cbn [mbind result_bind]. eexists. split; [done|].
    split; cbn; rewrite ?(vset_length _ _ _ _ Hl); try done; [|lia]. apply Z.rem_bound_pos; lia.
  - eexists. split; [done|]. split; cbn; try done. lia.
Qed.

Lemma at_insert_throttler (t t' : AttackThrottler) (thread bank : Z) : at_insert t thread bank = Ok t' -> throttler_ok t -> throttler_ok t'.
Proof.
  unfold at_insert. intros (key & _ & H)%bind_Ok [E1 [E2 E3] E4 E5]. apply bind_Ok in H as (l & Hl & [= <-]).
  assert (length l = length (at_act_counters t)) as EL.
  { refine (foldM_inv (fun l => length l = length (at_act_counters t)) _ _ _ _ _ _ Hl); [done|]. intros l1 l2 i _ E H.
    apply bind_Ok in H as (m & _ & H). apply bind_Ok in H as (n & _ & H). by rewrite (vset_length _ _ _ _ H). }
  split; cbn; rewrite ?EL; done.
Qed.

(** The update at the start of a cycle. *)
Lemma bh_update_ok (log : list (option act)) (s : BHState) :
  bh_inv 0 log s -> Z.of_nat (length log) + 1 < 2 ^ 64 -> exists s', bh_update s = Ok s' /\ bh_inv 1 (None :: log) s' /\
    bh_rank_level s' = bh_rank_level s /\ bh_row_level s' = bh_row_level s /\
    length (bh_bank_filters s') = length (bh_bank_filters s) /\ length (bh_rank_history s') = length (bh_rank_history s).
Proof.
  intros [H1 H2 H3 H4] H64. unfold bh_update. pose proof (bc_filters p len HC). pose proof (bc_epoch p len HC).
  destruct (collect_ok ub_update (fun i => filter_inv 1 (None :: bank_log (Z.of_nat i) log)) (bh_bank_filters s)) as (fs & Hfs & Lf & Qf).
  { intros i u Hu. apply ub_update_ok; [apply (bc_thresh p len HC)|lia|lia|]. by apply H2. }
  destruct (collect_ok hb_update (fun i => hb_inv hist bh_freq (None :: rank_log (Z.of_nat i) log)) (bh_rank_history s)) as (hs & Hhs & Lh & Qh).
  { intros i h Hh. apply hb_update_ok; [lia|by apply H3|]. by rewrite log_length. }
  destruct (at_update_ok _ H4) as (t & Ht & Hok). rewrite Hfs. cbn [mbind result_bind]. rewrite Hhs. cbn [mbind result_bind]. rewrite Ht.
  eexists. split; [done|]. split; [|done]. split; done.
Qed.

Lemma bh_idle_inv (log : list (option act)) (s : BHState) : bh_inv 1 log s -> bh_inv 0 log s.
Proof. intros [H1 H2 H3 H4]. split; try done. intros i u Hu. by apply ub_idle_inv, H2. Qed.

Lemma log_here f i a log : f a = i -> log_of f i (Some a :: log) = Some (a_row a) :: log_of f i log.
Proof. intros <-. cbn. by rewrite Z.eqb_refl. Qed.

Lemma log_elsewhere f i a log : f a <> i -> log_of f i (Some a :: log) = log_of f i (None :: log).
Proof. intros Hne. cbn. by rewrite (proj2 (Z.eqb_neq _ _) Hne). Qed.

(** Recording an activation. *)
Lemma bh_record_ok (log : list (option act)) (s s' : BHState) (bank rank row : Z) (hot : bool) :
  bh_inv 1 (None :: log) s -> bh_record s bank rank row = Ok (hot, s') -> bh_inv 0 (Some (mkAct bank rank row) :: log) s'.
Proof.
  intros [H1 H2 H3 H4] H. unfold bh_record in H. rewrite H1 in H. apply bind_Ok in H as (h & Hh & H). apply bind_Ok in H as (h' & Hi & H).
  apply bind_Ok in H as (hs & Hhs & H). apply bind_Ok in H as (u & Hu & H). apply bind_Ok in H as (u' & Hui & H).
  apply bind_Ok in H as (us & Hus & H). apply bind_Ok in H as (hot' & _ & [= <- <-]).
  pose proof (vget_bound _ _ _ Hh) as Br. pose proof (vget_bound _ _ _ Hu) as Bb. apply vget_Ok in Hh as [_ Hh], Hu as [_ Hu].
  pose proof (bc_filters p len HC). pose proof (bc_epoch p len HC). pose proof (bc_count p len HC). pose proof (bc_thresh p len HC).
  destruct (hb_insert_ok hist bh_freq Hhist (rank_log rank log) h row) as (h1 & E1 & I1).
  { specialize (H3 _ _ Hh). by rewrite Z2Nat.id in H3 by lia. }
  destruct (ub_insert_ok the_hashes (bf_ctr_count p) (bf_ctr_thresh p) ltac:(lia) ltac:(lia) hashes_total (bf_num_filters p) len ltac:(lia) ltac:(lia)
    hashes_capacity (bank_log bank log) u row) as (u1 & E2 & I2).
  { specialize (H2 _ _ Hu). by rewrite Z2Nat.id in H2 by lia. }
  rewrite E1 in Hi. injection Hi as <-. rewrite E2 in Hui. injection Hui as <-. split; cbn [bh_hash_functions bh_bank_filters bh_rank_history bh_throttler bh_set]; try done.
  - intros i x Hx. assert (Hx' : vget us (Z.of_nat i) = Ok x) by (apply vget_Ok; split; [lia|by rewrite Nat2Z.id]).
    rewrite (vget_vset _ _ _ _ _ Hus) in Hx'. destruct (Z.eqb_spec (Z.of_nat i) bank) as [->|Hne].
    + injection Hx' as <-. rewrite log_here by done. exact I2.
    + rewrite log_elsewhere by (cbn; congruence). apply vget_Ok in Hx' as [_ Hx']. rewrite Nat2Z.id in Hx'. apply ub_idle_inv. by apply H2.
  - intros i x Hx. assert (Hx' : vget hs (Z.of_nat i) = Ok x) by (apply vget_Ok; split; [lia|by rewrite Nat2Z.id]).
    rewrite (vget_vset _ _ _ _ _ Hhs) in Hx'. destruct (Z.eqb_spec (Z.of_nat i) rank) as [->|Hne].
    + injection Hx' as <-. rewrite log_here by done. exact I1.
    + rewrite log_elsewhere by (cbn; congruence). apply vget_Ok in Hx' as [_ Hx']. rewrite Nat2Z.id in Hx'. by apply H3.
Qed.

(** ** Setup *)
Definition sized_filter (bound : Z) (u : UnifiedBloomFilter) : Prop :=
  ub_len_epoch u = len /\ Z.of_nat (length (ub_filters u)) = bf_num_filters p /\
  forall i f, ub_filters u !! i = Some f -> cb_ok (bf_ctr_count p) (bf_ctr_thresh p) bound f.

Lemma fresh_filter_inv (u : UnifiedBloomFilter) : sized_filter 0 u -> ub_tick u = 0 -> ub_test_idx u = 0 -> filter_inv 0 [] u.
Proof.
  intros (E1 & E2 & E3) Et Ei. pose proof (bc_filters p len HC). pose proof (bc_epoch p len HC). split; rewrite ?Et, ?Ei; try done; [lia|cbn; lia|].
  intros i f Hf. assert (E0 : Z.to_nat (age (bf_num_filters p) len (Z.of_nat (length (@nil (option Z)))) 0 0 (Z.of_nat i)) = O).
  { unfold age. cbn [length]. pose proof (Z.mod_pos_bound (Z.of_nat i - 0) (bf_num_filters p)). nia. }
  rewrite E0. specialize (E3 i f Hf). split; [by rewrite Z.mul_0_r|]. intros e hash x _ Hx. cbn. pose proof (cv_range _ _ _ _ E3 _ _ Hx). lia.
Qed.

Lemma UBF_init_ok (sat : bool) (u : UnifiedBloomFilter) :
  UBF_init (bf_ctr_count p) (bf_ctr_thresh p) (bf_num_filters p) sat len = Ok u ->
  sized_filter 0 u /\ ub_tick u = 0 /\ ub_test_idx u = 0.
Proof.
  pose proof (bc_filters p len HC). pose proof (bc_count p len HC). unfold UBF_init. destruct (Z.ltb_spec (bf_num_filters p) 0); [lia|].
  destruct (collect_ok (fun _ : Z => CBF_init (bf_ctr_count p) (bf_ctr_thresh p) sat) (fun _ => cb_ok (bf_ctr_count p) (bf_ctr_thresh p) 0)
    (seqZ 0 (bf_num_filters p))) as (l & -> & Ll & Ql).
  { intros i a _. unfold CBF_init, vec_make. destruct (Z.ltb_spec (bf_ctr_count p) 0); [lia|]. cbn [mbind result_bind]. eexists. split; [done|].
    split; cbn; [done|done|rewrite length_replicate; lia|]. by intros j x [_ [-> _]%lookup_replicate]%vget_Ok. }
  intros [= <-]. split_and!; try done. split_and!; cbn; [done|rewrite Ll, length_seqZ; lia|done].
Qed.

(** The warm-up insertion and reset of the last filter. *)
Lemma warm_up_ok (u u' : UnifiedBloomFilter) : sized_filter 0 u -> ub_insert the_hashes u 0 = Ok u' -> filter_inv 0 [] (ub_reset u').
Proof.
  intros (E1 & E2 & E3) H. pose proof (bc_filters p len HC). pose proof (bc_epoch p len HC). pose proof (bc_count p len HC).
  pose proof (bc_thresh p len HC). pose proof hashes_capacity. unfold ub_insert in H.
  destruct (collect_ok (fun f => cb_insert the_hashes f 0) (fun _ => cb_ok (bf_ctr_count p) (bf_ctr_thresh p) (Z.of_nat (length the_hashes))) (ub_filters u))
    as (l & Hl & Ll & Ql).
  { intros i f Hf. destruct (cb_insert_fold the_hashes (bf_ctr_count p) (bf_ctr_thresh p)) with (hs := the_hashes) (e := 0) (b := 0) (f := f)
      as (f' & Hf' & Hok & _); [lia|lia|apply hashes_total|done|by eapply E3|nia|]. exists f'. by rewrite Z.add_0_l in Hok. }
  rewrite Hl in H. injection H as <-. apply fresh_filter_inv; [|done..]. split_and!; cbn; [done|by rewrite length_map, Ll|].
  intros i f Hf. apply list_lookup_fmap_Some in Hf as (f0 & -> & Hf0). destruct (Ql i f0 Hf0) as [F1 F2 F3 F4].
  split; cbn; rewrite ?length_map; try done. intros j x [_ Hx]%vget_Ok. by apply list_lookup_fmap_Some in Hx as (? & -> & _).
Qed.
End detection.

(** What [setup] leaves. *)
Lemma BlockHammer_setup_ok {L} `{BlacklistLLC L} (c : Ctrl) (l : L) (p : BHParams) (sat : bool) (s : BHState) (len hist : Z) :
  BlockHammer_setup c l p sat = Ok s -> ns_to_clk (m_spec (m_device c)) (bf_len_epoch p) = Ok len ->
  derive_hist_size (m_spec (m_device c)) p = Ok hist -> bh_config p len -> 0 < hist -> bh_inv p len hist 0 [] s.
Proof.
  intros Hs Hlen Hh HC Hpos. unfold BlockHammer_setup in Hs. do 3 apply bind_Ok in Hs as (? & _ & Hs). rewrite Hlen, Hh in Hs. cbn [mbind result_bind] in Hs.
  destruct (_ <? 0); [done|]. fold (the_hashes p) in Hs. apply bind_Ok in Hs as (fs & Hfs & Hs). apply bind_Ok in Hs as (fs' & Hfs' & Hs).
  apply bind_Ok in Hs as (t & Ht & [= <-]).
  assert (Hall : forall i u, fs !! i = Some u -> sized_filter p len 0 u /\ ub_tick u = 0 /\ ub_test_idx u = 0).
  { refine (foldM_inv (fun fs => forall i u, fs !! i = Some u -> sized_filter p len 0 u /\ ub_tick u = 0 /\ ub_test_idx u = 0) _ _ _ _ _ _ Hfs); [done|].
    intros a b _ _ Ha (u & Hu & [= <-])%bind_Ok i v [Hv|[_ Hv]]%lookup_app_Some; [by eapply Ha|]. apply list_lookup_singleton_Some in Hv as [_ <-].
    by eapply UBF_init_ok. }
  split; cbn; [done| | |].
  - intros i u Hu. destruct (_ <? _) eqn:Hn in Hfs'.
    + apply bind_Ok in Hfs' as (f & Hf & Hfs'). apply bind_Ok in Hfs' as (f' & Hi & Hset). assert (Hu' : vget fs' (Z.of_nat i) = Ok u) by (apply vget_Ok; split; [lia|by rewrite Nat2Z.id]).
      rewrite (vget_vset _ _ _ _ _ Hset) in Hu'. destruct (_ =? _).
      * injection Hu' as <-. apply vget_Ok in Hf as [_ Hf]. eapply warm_up_ok; [done|apply (Hall _ _ Hf)|exact Hi].
      * apply vget_Ok in Hu' as [_ Hu']. rewrite Nat2Z.id in Hu'. destruct (Hall _ _ Hu') as (? & ? & ?). by apply fresh_filter_inv.
    + injection Hfs' as <-. destruct (Hall _ _ Hu) as (? & ? & ?). by apply fresh_filter_inv.
  - intros i h Hh'. apply list_lookup_fmap_Some in Hh' as (? & -> & _). by apply HB_init_inv.
  - pose proof (bc_filters p len HC). pose proof (bc_epoch p len HC). unfold Throttler_init, vec_make in Ht.
    destruct (Z.ltb_spec (bf_num_filters p) 0); [lia|]. injection Ht as <-. split; cbn; [done|rewrite length_replicate; lia|lia|lia].
Qed.

(** ** Runs of the controller *)
Section runs.
Context {R P G L : Type} `{RefreshManager R} `{RowPolicy P} `{ControllerPlugin G} `{BlacklistLLC L} (sch : scheduler_t).

(** The activation the detection state is told of in the next cycle, if any. *)
Definition observed (g : BlockHammerController R P G) : result (option act) :=
  base ← pre_hooks (bh_base g);
  s ← bh_update (bh_state g);
  k ← bh_pick sch s (g_ctrl base);
  match k.2 with
  | None => Ok None
  | Some (id, i) =>
      q ← bh_issue (with_base_ctrl base k.1) id i;
      let d := m_device (g_ctrl q.1) in
      opening ← bh_opening d q.2;
      if negb opening then Ok None
      else
        bank ← get_flat_bank_id d (addr_vec q.2);
        rank ← vget (addr_vec q.2) (bh_rank_level s);
        row ← vget (addr_vec q.2) (bh_row_level s);
        Ok (Some (mkAct bank rank row))
  end.

(** A run from [setup] with its log, most recent cycle first.  Between two cycles the
    rest of the system may do anything to the queues, the device and the cache. *)
Inductive bh_run (spec : DRAMSpec) (p : BHParams) : BlockHammerController R P G -> L -> list (option act) -> Prop :=
| bhr_setup base l sat s :
    m_spec (m_device (g_ctrl base)) = spec -> BlockHammer_setup (g_ctrl base) l p sat = Ok s -> bh_run spec p (mkBH base s) l []
| bhr_environment g l log base' l' : bh_run spec p g l log -> bh_run spec p (mkBH base' (bh_state g)) l' log
| bhr_cycle g l log g' l' o :
    bh_run spec p g l log -> BlockHammer_tick sch g l = Ok (g', l') -> observed g = Ok o -> bh_run spec p g' l' (o :: log).

(** A cycle updates the detection state and records what was observed. *)
Lemma tick_records (g g' : BlockHammerController R P G) (l l' : L) (o : option act) (p : BHParams) (len hist : Z) (log : list (option act)) :
  bh_config p len -> 0 < hist < 2 ^ 32 -> bh_inv p len hist 0 log (bh_state g) -> Z.of_nat (length log) + 1 < 2 ^ 64 ->
  BlockHammer_tick sch g l = Ok (g', l') -> observed g = Ok o -> bh_inv p len hist 0 (o :: log) (bh_state g').
Proof.
  intros HC Hhist HI H64 Ht Ho. destruct (bh_update_ok p len hist HC Hhist log _ HI H64) as (s & Hs & HI1 & _).
  unfold BlockHammer_tick in Ht. unfold observed in Ho. apply bind_Ok in Ht as (base & Hb & Ht). rewrite Hb, Hs in Ho. rewrite Hs in Ht.
  cbn [mbind result_bind] in Ht, Ho. apply bind_Ok in Ht as ([c1 k] & Hk & Ht). rewrite Hk in Ho. cbn [mbind result_bind fst snd] in Ht, Ho.
  apply bind_Ok in Ht as ([g1 l1] & Hg1 & Ht). apply bind_Ok in Ht as (base' & _ & [= <- <-]). cbn [fst snd bh_state].
  destruct k as [[id i]|]; [|injection Hg1 as <- <-; injection Ho as <-; by apply bh_idle_inv].
  unfold bh_serve in Hg1. cbn [bh_base bh_state] in Hg1. apply bind_Ok in Hg1 as ([b1 r] & Hi & Hg1). rewrite Hi in Ho. cbn [mbind result_bind fst snd] in Ho.
  apply bind_Ok in Hg1 as ([s1 l2] & Hob & Hg1). apply bind_Ok in Hg1 as (c2 & _ & [= <- <-]). cbn [bh_state fst].
  unfold observe_act in Hob. apply bind_Ok in Hob as (op & Hop & Hob). rewrite Hop in Ho. cbn [mbind result_bind] in Ho.
  destruct (negb op); [injection Hob as <- <-; injection Ho as <-; by apply bh_idle_inv|].
  apply bind_Ok in Hob as (bank & Hbank & Hob). rewrite Hbank in Ho. apply bind_Ok in Hob as (rank & Hrank & Hob).
  apply bind_Ok in Hob as (row & Hrow & Hob). cbn [mbind result_bind] in Ho. rewrite Hrank in Ho. cbn [mbind result_bind] in Ho.
  rewrite Hrow in Ho. injection Ho as <-. apply bind_Ok in Hob as ([hot s2] & Hrec & Hob). cbn [fst snd] in Hob.
  pose proof (bh_record_ok p len hist HC Hhist log s s2 bank rank row hot HI1 Hrec) as HI2. destruct (_ && _); [|by injection Hob as <- <-].
  unfold bh_throttle in Hob. apply bind_Ok in Hob as (t & Hat & Hob). apply bind_Ok in Hob as (rh & _ & Hob). apply bind_Ok in Hob as (cap & _ & [= <- <-]).
  destruct HI2 as [I1 I2 I3 I4]. split; try done. by eapply at_insert_throttler.
Qed.

Lemma bh_run_inv (spec : DRAMSpec) (p : BHParams) (g : BlockHammerController R P G) (l : L) (log : list (option act)) (len hist : Z) :
  bh_run spec p g l log -> ns_to_clk spec (bf_len_epoch p) = Ok len -> derive_hist_size spec p = Ok hist -> bh_config p len ->
  0 < hist < 2 ^ 32 -> Z.of_nat (length log) < 2 ^ 64 -> bh_inv p len hist 0 log (bh_state g).
Proof.
  intros Hrun Hlen Hh HC Hpos. induction Hrun as [base l sat s <- Hs|g l log base' l' Hrun IH|g l log g' l' o Hrun IH Ht Ho]; intros H64.
  - eapply BlockHammer_setup_ok; try done. lia.
  - by apply IH.
  - cbn [length] in H64. eapply tick_records; try done; [apply IH|]; lia.
Qed.

(** What is taken from the read and write queues passed the filter. *)
Lemma queued_pick_safe `{!SchedulerLaws sch} (s : BHState) (c c' : Ctrl) (id : buf_id) (i : nat) :
  bh_pick sch s c = Ok (c', Some (id, i)) -> id = BRead \/ id = BWrite ->
  exists r, req_at c' id i = Ok r /\ is_act_safe s (m_device c') r = Ok true.
Proof.
  unfold bh_pick. intros ([c1 k1] & Ha & Hp)%bind_Ok Hid. apply bind_Ok in Hp as ([c2 k2] & Hpr & Hp). cbn [fst snd] in *.
  assert (Hk2 : forall j n, k2 = Some (j, n) -> j = BActive \/ j = BPriority).
  { intros j n ->. destruct k1 as [[j1 n1]|].
    - injection Hpr as <- <- <-. unfold pick_best_ready_from in Ha. apply bind_Ok in Ha as ([b o] & _ & Ha). cbn [snd] in Ha. destruct o; [|done].
      apply bind_Ok in Ha as (r & _ & Ha). apply bind_Ok in Ha as (ok & _ & Ha). destruct ok; [|done]. injection Ha as _ <- _. by left.
    - unfold pick_priority_if in Hpr. destruct (_ =? 0); [done|]. apply bind_Ok in Hpr as (r & _ & Hpr). apply bind_Ok in Hpr as (cmd & _ & Hpr).
      apply bind_Ok in Hpr as (ok & _ & Hpr). destruct (negb ok); [done|]. apply bind_Ok in Hpr as (w & _ & Hpr). destruct w; [done|].
      apply bind_Ok in Hpr as (f & _ & Hpr). destruct f; [|done]. injection Hpr as _ <- _. by right. }
  destruct k2 as [[j n]|]; [injection Hp as <- <- <-; destruct (Hk2 j n eq_refl) as [->| ->], Hid; done|].
  destruct (_ =? 0); [|done]. unfold pick_rw_if, pick_best_ready_from in Hp. apply bind_Ok in Hp as ([b o] & Hsch & Hp). cbn [fst snd] in Hp.
  destruct o as [n|]; [|done]. apply bind_Ok in Hp as (r & Hr & Hp). apply bind_Ok in Hp as (ok & _ & Hp). destruct ok; [|done]. injection Hp as <- <- <-.
  exists r. split; [done|]. apply sched_choice in Hsch as (r' & Hr' & Hf). apply bind_Ok in Hf as (w & _ & Hf). destruct w; [done|].
  assert (r' = r) as ->. { apply req_at_lookup in Hr. rewrite get_set_buf, decide_True in Hr by done. congruence. }
  replace (m_device (set_buf _ _ b)) with (m_device c2); [done|]. unfold set_write_mode. by repeat case_match.
Qed.
End runs.

Lemma f32_to_s32_bound (x : spec_float) (v : Z) : f32_to_s32 x = Ok v -> - 2 ^ 31 <= v < 2 ^ 31.
Proof.
  unfold f32_to_s32. destruct x as [s|s| |s m e]; try done; [intros [= <-]; lia|]. cbn zeta.
  destruct (_ && _) eqn:Hb; [|done]. intros [= <-]. lia.
Qed.

Lemma derive_hist_bound (spec : DRAMSpec) (p : BHParams) (hist : Z) : derive_hist_size spec p = Ok hist -> 0 < hist < 2 ^ 32.
Proof.
  unfold derive_hist_size. intros (? & _ & Hh)%bind_Ok. cbn zeta in Hh. do 3 apply bind_Ok in Hh as (? & _ & Hh). destruct (SFleb _ _); [done|].
  apply bind_Ok in Hh as (v & Hv%f32_to_s32_bound & Hh). destruct (Z.leb_spec v 0); [done|]. injection Hh as <-. lia.
Qed.

(** C12. BlockHammer: in every state a run reaches, the update at the start of the
    next cycle returns, and then an activation is judged as follows.  It is safe
    whenever its row has been activated less than the permitted number of times
    within the window of the history, so no activation is deferred for longer than
    the window.  If the row's bank activated it at least threshold times during the
    last (filters - 1) epochs, and it has no activation older than the window, it is
    deferred exactly when it reached the permitted number within the window: hot rows
    are never missed.  Whatever the scheduler takes from the read and write queues
    was judged safe. *)
Theorem blockhammer_defers_hot_rows {R P G L : Type} `{RefreshManager R} `{RowPolicy P} `{ControllerPlugin G} `{BlacklistLLC L}
  (sch : scheduler_t) `{!SchedulerLaws sch} (spec : DRAMSpec) (p : BHParams) (g : BlockHammerController R P G) (l : L)
  (log : list (option act)) (len hist : Z) :
  bh_run sch spec p g l log -> ns_to_clk spec (bf_len_epoch p) = Ok len -> derive_hist_size spec p = Ok hist -> bh_config p len ->
  Z.of_nat (length log) + 1 < 2 ^ 64 ->
  exists s, bh_update (bh_state g) = Ok s /\
    (forall d req bank rank row, bh_opening d req = Ok true -> get_flat_bank_id d (addr_vec req) = Ok bank ->
       0 <= bank < Z.of_nat (length (bh_bank_filters s)) -> vget (addr_vec req) (bh_rank_level s) = Ok rank ->
       0 <= rank < Z.of_nat (length (bh_rank_history s)) -> vget (addr_vec req) (bh_row_level s) = Ok row ->
       let recent := cnt row (take (Z.to_nat hist) (rank_log rank (None :: log))) in
       let older := cnt row (drop (Z.to_nat hist) (rank_log rank (None :: log))) in
       let hot := cnt row (take (Z.to_nat ((bf_num_filters p - 1) * len + 1)) (bank_log bank (None :: log))) in
       exists safe, is_act_safe s d req = Ok safe /\
         (recent < Z.max 1 (bh_freq p) -> safe = true) /\
         (row <> -1 -> older = 0 -> bf_ctr_thresh p <= hot -> safe = (recent <? Z.max 1 (bh_freq p)))) /\
    (forall c c' id i, bh_pick sch s c = Ok (c', Some (id, i)) -> id = BRead \/ id = BWrite ->
       exists r, req_at c' id i = Ok r /\ is_act_safe s (m_device c') r = Ok true).
Proof.
  intros Hrun Hlen Hh HC H64.
  pose proof (derive_hist_bound spec p hist Hh) as Hhist.
  pose proof (bh_run_inv sch spec p g l log len hist Hrun Hlen Hh HC Hhist ltac:(lia)) as HI.
  destruct (bh_update_ok p len hist HC Hhist log _ HI H64) as (s & Hs & [I1 I2 I3 _] & _). exists s. split; [done|].
  split; [|by intros c c' id i; apply queued_pick_safe].
  intros d req bank rank row Hop Hbank Bb Hrank Br Hrow. cbn zeta. unfold is_act_safe. rewrite Hop, Hbank. cbn [mbind result_bind negb].
  rewrite Hrank. cbn [mbind result_bind]. rewrite Hrow. cbn [mbind result_bind].
  destruct (vget_in_range _ _ Bb) as [u Hu], (vget_in_range _ _ Br) as [h Hhb]. rewrite Hu, I1. cbn [mbind result_bind].
  apply vget_Ok in Hu as [_ Hu]. specialize (I2 _ _ Hu). rewrite Z2Nat.id in I2 by lia.
  pose proof (bc_filters p len HC). pose proof (bc_count p len HC). pose proof (bc_thresh p len HC).
  destruct (ub_test_ok (the_hashes p) (bf_ctr_count p) (bf_ctr_thresh p) ltac:(lia) ltac:(lia) (hashes_total p len HC) (bf_num_filters p) len ltac:(lia) _ _ u row I2)
    as (v & Hv & Hhot). rewrite Hv. cbn [mbind result_bind]. rewrite Hhb. cbn [mbind result_bind]. apply vget_Ok in Hhb as [_ Hhb].
  specialize (I3 _ _ Hhb). rewrite Z2Nat.id in I3 by lia. eexists. split; [done|]. split.
  - intros Hr. destruct (hb_search h row) eqn:Hse; [|by rewrite orb_true_r]. pose proof (hb_search_upper hist (bh_freq p) _ h row I3 Hse). lia.
  - intros Hne Hold Hth. rewrite (Hhot Hth), (hb_search_exact hist (bh_freq p) _ h row I3 Hne Hold). cbn [negb orb]. by rewrite Z.ltb_antisym.
Qed.
