(* ===== verification/BHO3.v ===== *)
(** * The BHO3 frontend

    [frontend/impl/processor/bhO3/bhcore.cpp] and [bhO3.cpp], with [BHO3LLC::tick]
    of [bhllc.cpp]: trace-driven cores over the cache with the blacklist.  Unlike in
    SimpleO3, completions are matched by address, a hit completes through the same
    path as a miss, and cores can stop at a cycle limit.  The text of a trace
    is loaded in [TraceReaders]; the latency histogram is kept but not written to a file. *)

From Stdlib Require Import ZArith Lia.
From S2P Require Import Prelude Base Latency Elision Simulation LLC Core BlockHammer BHLLC.

Local Open Scope Z_scope.

(** ** Trace and instruction window *)
Record BHTrace := mkBHTrace { bt_trace : list Inst; bt_curr_trace_idx : Z }.

Definition bh_get_next_inst (t : BHTrace) : result (Inst * BHTrace) :=
  inst ← vget (bt_trace t) (bt_curr_trace_idx t);
  idx ← rem_u (bt_curr_trace_idx t + 1) (Z.of_nat (length (bt_trace t)));
  Ok (inst, mkBHTrace (bt_trace t) idx).

Record BHWindow := mkBHWindow {
  bw_ipc : Z;
  bw_depth : Z;
  bw_load : Z;
  bw_head_idx : Z;
  bw_tail_idx : Z;
  bw_ready_list : list bool;
  bw_addr_list : list Addr_t
}.

Definition BHWindow_init (ipc depth : Z) : result BHWindow :=
  r ← vec_make depth false;
  a ← vec_make depth (-1);
  Ok (mkBHWindow ipc depth 0 0 0 r a).

Definition bw_is_full (w : BHWindow) : bool := bw_load w =? bw_depth w.

Definition bw_insert (w : BHWindow) (ready : bool) (a : Addr_t) : result BHWindow :=
  rl ← vset_at (bw_ready_list w) (bw_head_idx w) ready;
  al ← vset_at (bw_addr_list w) (bw_head_idx w) a;
  if bw_depth w =? 0 then Err Undef
  else Ok (mkBHWindow (bw_ipc w) (bw_depth w) (bw_load w + 1) (Z.rem (bw_head_idx w + 1) (bw_depth w)) (bw_tail_idx w) rl al).

(** [retire]: at most [ipc] rounds. *)
Fixpoint bw_retire_loop (fuel : nat) (w : BHWindow) (num_retired : Z) : result (Z * BHWindow) :=
  if (0 <? bw_load w) && (num_retired <? bw_ipc w) then
    match fuel with
    | O => Err OutOfFuel
    | S fuel =>
        ready ← vget_at (bw_ready_list w) (bw_tail_idx w);
        if negb ready then Ok (num_retired, w)
        else if bw_depth w =? 0 then Err Undef
        else bw_retire_loop fuel
               (mkBHWindow (bw_ipc w) (bw_depth w) (bw_load w - 1) (bw_head_idx w) (Z.rem (bw_tail_idx w + 1) (bw_depth w))
                  (bw_ready_list w) (bw_addr_list w)) (num_retired + 1)
    end
  else Ok (num_retired, w).
Definition bw_retire (w : BHWindow) : result (Z * BHWindow) := bw_retire_loop (Z.to_nat (bw_ipc w)) w 0.

(** [set_ready]: every entry of the window that waits for the address. *)
Fixpoint bw_mark (rounds : nat) (w : BHWindow) (a : Addr_t) (index : Z) (ready : list bool) : result (list bool) :=
  match rounds with
  | O => Ok ready
  | S rounds =>
      x ← vget (bw_addr_list w) index;
      ready ← (if x =? a then vset ready index true else Ok ready);
      bw_mark rounds w a (if index + 1 =? bw_depth w then 0 else index + 1) ready
  end.

Definition bw_set_ready (w : BHWindow) (a : Addr_t) : result BHWindow :=
  r ← bw_mark (Z.to_nat (bw_load w)) w a (bw_tail_idx w) (bw_ready_list w);
  Ok (mkBHWindow (bw_ipc w) (bw_depth w) (bw_load w) (bw_head_idx w) (bw_tail_idx w) r (bw_addr_list w)).

(** ** Core *)
Record BHOps := mkBHOps { bo_num_bubbles : Z; bo_load_addr : Addr_t; bo_writeback_addr : Addr_t }.

Record BHCore := mkBHCore {
  bc_id : Z;
  bc_trace : BHTrace;
  bc_window : BHWindow;
  bc_ops : BHOps;
  bc_num_expected_insts : Z;
  bc_num_max_cycles : Z;
  bc_last_mem_cycle : Clk_t;
  bc_is_attacker : bool;
  bc_lat_hist_sens : Z;
  bc_lat_histogram : gmap Z Z;
  bc_reached_expected : bool;
  bc_reached_max : bool;
  bc_insts_retired : Z;
  bc_insts_recorded : Z;
  bc_mem_requests_issued : Z;
  bc_cycles_recorded : Z;
  bc_mem_access_cycles : Clk_t
}.

Definition bc_set_window (c : BHCore) (w : BHWindow) : BHCore :=
  mkBHCore (bc_id c) (bc_trace c) w (bc_ops c) (bc_num_expected_insts c) (bc_num_max_cycles c) (bc_last_mem_cycle c)
    (bc_is_attacker c) (bc_lat_hist_sens c) (bc_lat_histogram c) (bc_reached_expected c) (bc_reached_max c)
    (bc_insts_retired c) (bc_insts_recorded c) (bc_mem_requests_issued c) (bc_cycles_recorded c) (bc_mem_access_cycles c).
Definition bc_set_ops (c : BHCore) (o : BHOps) (issued : Z) : BHCore :=
  mkBHCore (bc_id c) (bc_trace c) (bc_window c) o (bc_num_expected_insts c) (bc_num_max_cycles c) (bc_last_mem_cycle c)
    (bc_is_attacker c) (bc_lat_hist_sens c) (bc_lat_histogram c) (bc_reached_expected c) (bc_reached_max c)
    (bc_insts_retired c) (bc_insts_recorded c) (bc_mem_requests_issued c + issued) (bc_cycles_recorded c) (bc_mem_access_cycles c).
Definition bc_set_progress (c : BHCore) (expected max : bool) (retired recorded cycles : Z) : BHCore :=
  mkBHCore (bc_id c) (bc_trace c) (bc_window c) (bc_ops c) (bc_num_expected_insts c) (bc_num_max_cycles c) (bc_last_mem_cycle c)
    (bc_is_attacker c) (bc_lat_hist_sens c) (bc_lat_histogram c) expected max
    retired recorded (bc_mem_requests_issued c) cycles (bc_mem_access_cycles c).
Definition bc_set_latency (c : BHCore) (last : Clk_t) (hist : gmap Z Z) (cycles : Clk_t) : BHCore :=
  mkBHCore (bc_id c) (bc_trace c) (bc_window c) (bc_ops c) (bc_num_expected_insts c) (bc_num_max_cycles c) last
    (bc_is_attacker c) (bc_lat_hist_sens c) hist (bc_reached_expected c) (bc_reached_max c)
    (bc_insts_retired c) (bc_insts_recorded c) (bc_mem_requests_issued c) (bc_cycles_recorded c) cycles.

(** Load the next record of the trace. *)
Definition bc_fetch (c : BHCore) : result BHCore :=
  q ← bh_get_next_inst (bc_trace c);
  let '(inst, t) := q in
  Ok (mkBHCore (bc_id c) t (bc_window c) (mkBHOps (bubble_count inst) (load_addr inst) (store_addr inst))
        (bc_num_expected_insts c) (bc_num_max_cycles c) (bc_last_mem_cycle c) (bc_is_attacker c) (bc_lat_hist_sens c)
        (bc_lat_histogram c) (bc_reached_expected c) (bc_reached_max c) (bc_insts_retired c) (bc_insts_recorded c)
        (bc_mem_requests_issued c) (bc_cycles_recorded c) (bc_mem_access_cycles c)).

Definition BHCore_init (id ipc depth num_expected_insts num_max_cycles : Z) (insts : list Inst) (lat_hist_sens : Z)
  (is_attacker : bool) : result BHCore :=
  w ← BHWindow_init ipc depth;
  bc_fetch (mkBHCore id (mkBHTrace insts 0) w (mkBHOps 0 (-1) (-1)) num_expected_insts num_max_cycles 0 is_attacker
              lat_hist_sens ∅ false false 0 0 0 0 0).

(** Retirement and the two limits at the start of a tick. *)
Definition bc_commit (clk : Clk_t) (c : BHCore) : result BHCore :=
  q ← bw_retire (bc_window c);
  let '(n, w) := q in
  let c := bc_set_window c w in
  let retired := bc_insts_retired c + n in
  let reached := bc_num_expected_insts c <=? retired in
  let c := if negb (bc_reached_expected c)
           then bc_set_progress c reached (bc_reached_max c) retired (bc_insts_recorded c + n)
                  (if reached then clk else bc_cycles_recorded c)
           else bc_set_progress c true (bc_reached_max c) retired (bc_insts_recorded c) (bc_cycles_recorded c) in
  Ok (if negb (bc_reached_max c) && (0 <? bc_num_max_cycles c) && (bc_num_max_cycles c <=? wrap_u 64 clk)
      then bc_set_progress c (bc_reached_expected c) true (bc_insts_retired c) (bc_insts_recorded c) (bc_cycles_recorded c)
      else c).

(** The bubbles: the instructions inserted, or [None] when the tick is over. *)
Fixpoint bc_issue_bubbles (fuel : nat) (c : BHCore) (num_inserted : Z) : result (BHCore * option Z) :=
  let o := bc_ops c in
  if 0 <? bo_num_bubbles o then
    match fuel with
    | O => Err OutOfFuel
    | S fuel =>
        if num_inserted =? bw_ipc (bc_window c) then Ok (c, None)
        else if bw_is_full (bc_window c) then Ok (c, None)
        else
          w ← bw_insert (bc_window c) true (-1);
          let c := bc_set_ops (bc_set_window c w) (mkBHOps (bo_num_bubbles o - 1) (bo_load_addr o) (bo_writeback_addr o)) 0 in
          bc_issue_bubbles fuel c (num_inserted + 1)
    end
  else Ok (c, Some num_inserted).

Section tick.
Context {T : Type} (translate : T -> Request -> result (bool * Request * T)).

(** Translate a request and offer it to the cache; [None] when it must be retried. *)
Definition bh_offer (clk : Clk_t) (l : BHO3LLC) (t : T) (r : Request) : result (option Request * BHO3LLC * T) :=
  q ← translate t r;
  let '(ok, r, t) := q in
  if negb ok then Ok (None, l, t)
  else
    s ← BHLLC_send clk l r;
    let '(ok, r, l) := s in
    Ok ((if (ok : bool) then Some r else None), l, t).

Definition bh_request (c : BHCore) (a : Addr_t) (type : Z) : Request :=
  mkRequest a (-1) [] type (bc_id c) (-1) (-1) 0 (-1) (-1) (-1) (-1) false (-1) (-1) (Some cb_frontend).

(** The load of the current record; [true] when the tick goes on. *)
Definition bc_issue_load (clk : Clk_t) (num_inserted : Z) (c : BHCore) (l : BHO3LLC) (t : T) : result (bool * BHCore * BHO3LLC * T) :=
  let o := bc_ops c in
  if bo_load_addr o =? -1 then Ok (true, c, l, t)
  else if num_inserted =? bw_ipc (bc_window c) then Ok (false, c, l, t)
  else if bw_is_full (bc_window c) then Ok (false, c, l, t)
  else
    q ← bh_offer clk l t (bh_request c (bo_load_addr o) Read);
    let '(sent, l, t) := q in
    match sent with
    | None => Ok (false, c, l, t)
    | Some r =>
        w ← bw_insert (bc_window c) false (addr r);
        let c := bc_set_ops (bc_set_window c w) (mkBHOps (bo_num_bubbles o) (-1) (bo_writeback_addr o)) 1 in
        Ok (bo_writeback_addr o =? -1, c, l, t)
    end.

(** The store of the current record; [true] when it was accepted. *)
Definition bc_issue_store (clk : Clk_t) (c : BHCore) (l : BHO3LLC) (t : T) : result (bool * BHCore * BHO3LLC * T) :=
  if bo_writeback_addr (bc_ops c) =? -1 then Ok (true, c, l, t)
  else
    q ← bh_offer clk l t (bh_request c (bo_writeback_addr (bc_ops c)) Write);
    let '(sent, l, t) := q in
    match sent with
    | None => Ok (false, c, l, t)
    | Some _ => Ok (true, bc_set_ops c (bc_ops c) 1, l, t)
    end.

Definition BHCore_tick (clk : Clk_t) (c : BHCore) (l : BHO3LLC) (t : T) : result (BHCore * BHO3LLC * T) :=
  c ← bc_commit clk c;
  if bc_reached_max c then Ok (c, l, t)
  else
    b ← bc_issue_bubbles (S (Z.to_nat (bo_num_bubbles (bc_ops c)))) c 0;
    match b with
    | (c, None) => Ok (c, l, t)
    | (c, Some n) =>
        q ← bc_issue_load clk n c l t;
        let '(go, c, l, t) := q in
        if negb go then Ok (c, l, t)
        else
          q ← bc_issue_store clk c l t;
          let '(go, c, l, t) := q in
          if negb go then Ok (c, l, t) else c ← bc_fetch c; Ok (c, l, t)
    end.
End tick.

Definition BHCore_receive (c : BHCore) (r : Request) : result BHCore :=
  w ← bw_set_ready (bc_window c) (addr r);
  let c := bc_set_window c w in
  if negb (arrive r =? -1) && (bc_last_mem_cycle c <? depart r) then
    let '(last, cycles) :=
      if negb (bc_reached_expected c)
      then (depart r, bc_mem_access_cycles c + (depart r - Z.max (bc_last_mem_cycle c) (arrive r)))
      else (bc_last_mem_cycle c, bc_mem_access_cycles c) in
    let hist :=
      if 0 <? bc_lat_hist_sens c
      then let bucket := Z.quot (wrap_s 32 (depart r - arrive r)) (bc_lat_hist_sens c) in
           <[bucket := default 0 (bc_lat_histogram c !! bucket) + 1]> (bc_lat_histogram c)
      else bc_lat_histogram c in
    Ok (bc_set_latency c last hist cycles)
  else Ok c.

Definition bc_is_finished (c : BHCore) : bool := bc_reached_expected c || bc_reached_max c.

(** ** The frontend *)
Record BHO3Config := mkBHO3Config {
  bo_num_expected_insts : Z;
  bo_num_max_cycles : Z;
  bo_traces : list (list Inst);
  bo_ipc : Z;
  bo_depth : Z;
  bo_llc_latency : Z;
  bo_llc_linesize_bytes : Z;
  bo_llc_associativity : Z;
  bo_llc_capacity_per_core : Z;
  bo_llc_num_mshr_per_core : Z;
  bo_lat_hist_sens : Z;
  bo_attacker_core_ids : list Z
}.

Section bho3.
Context {T M : Type} (translate : T -> Request -> result (bool * Request * T)).
Context `{IMemorySystem M} `{Callbacks M}.

Record BHO3 := mkBHO3 { bh_clk : Clk_t; bh_llc : BHO3LLC; bh_cores : list BHCore; bh_translation : T }.

Definition bh_set_llc (f : BHO3) (l : BHO3LLC) : BHO3 := mkBHO3 (bh_clk f) l (bh_cores f) (bh_translation f).

Definition BHO3_init (cfg : BHO3Config) (t : T) : result BHO3 :=
  let n := Z.of_nat (length (bo_traces cfg)) in
  let is_attacker (id : nat) := bool_decide (Z.of_nat id ∈ bo_attacker_core_ids cfg) in
  llc ← BHLLC_init (bo_llc_latency cfg) (bo_llc_capacity_per_core cfg * n) (bo_llc_linesize_bytes cfg) (bo_llc_associativity cfg)
          (bo_llc_num_mshr_per_core cfg * n) n;
  cores ← mapM (fun it : nat * list Inst =>
                  BHCore_init (Z.of_nat it.1) (bo_ipc cfg) (bo_depth cfg) (bo_num_expected_insts cfg) (bo_num_max_cycles cfg) it.2
                    (bo_lat_hist_sens cfg) (is_attacker it.1)) (imap pair (bo_traces cfg));
  Ok (mkBHO3 0 llc cores t).

(** One waiting request of a completed line. *)
Definition bh_wake (req : Request) (f : BHO3) (r : Request) : result BHO3 :=
  let r := set_depart (set_arrive r (arrive req)) (depart req) in
  c ← vget (bh_cores f) (source_id r);
  c ← BHCore_receive c r;
  cs ← vset (bh_cores f) (source_id r) c;
  Ok (mkBHO3 (bh_clk f) (bh_llc f) cs (bh_translation f)).

Definition BHO3_receive (f : BHO3) (req : Request) : result BHO3 :=
  l ← BHLLC_receive (bh_llc f) req;
  f ← foldM (bh_wake req) (bh_set_llc f l) (default [] (bl_receive_requests l !! addr req));
  let l := bh_llc f in
  Ok (bh_set_llc f (bl_set_mshrs l (bl_mshrs l) (<[addr req := []]> (bl_receive_requests l)))).

(** A completion of the memory system; writebacks have no callback. *)
Definition bh_on_callback (f : BHO3) (done : Request) : result BHO3 :=
  match callback done with None => Ok f | Some _ => BHO3_receive f done end.

Definition bh_send_memory (f : BHO3) (m : M) (r : Request) : result (bool * Request * BHO3 * M) :=
  q ← ms_send m r;
  let '(ok, r, m) := q in
  let '(done, m) := take_callbacks m in
  f ← foldM bh_on_callback f done;
  Ok (ok, r, f, m).

(** The two loops of [BHO3LLC::tick]; [kept] are the entries that stay. *)
Fixpoint bh_tick_misses (q kept : list (Clk_t * Request)) (f : BHO3) (m : M) : result (BHO3 * M) :=
  match q with
  | [] => Ok (f, m)
  | (due, r) :: q =>
      if due <=? bh_clk f then
        s ← bh_send_memory f m r;
        let '(ok, r, f, m) := s in
        let kept := if (ok : bool) then kept else kept ++ [(due, r)] in
        bh_tick_misses q kept (bh_set_llc f (bl_set_queues (bh_llc f) (kept ++ q) (bl_hit_list (bh_llc f)))) m
      else bh_tick_misses q (kept ++ [(due, r)]) f m
  end.

Fixpoint bh_tick_hits (q kept : list (Clk_t * Request)) (f : BHO3) : result BHO3 :=
  match q with
  | [] => Ok f
  | (due, r) :: q =>
      if due <=? bh_clk f then
        let l := bh_llc f in
        let f := bh_set_llc f (bl_set_mshrs l (bl_mshrs l) (<[addr r := [r]]> (bl_receive_requests l))) in
        f ← (match callback r with None => Err (Throw "std::bad_function_call") | Some _ => BHO3_receive f r end);
        bh_tick_hits q kept (bh_set_llc f (bl_set_queues (bh_llc f) (bl_miss_list (bh_llc f)) (kept ++ q)))
      else bh_tick_hits q (kept ++ [(due, r)]) f
  end.

Definition BHLLC_tick (f : BHO3) (m : M) : result (BHO3 * M) :=
  q ← bh_tick_misses (bl_miss_list (bh_llc f)) [] f m;
  let '(f, m) := q in
  f ← bh_tick_hits (bl_hit_list (bh_llc f)) [] f;
  Ok (f, m).

Definition bh_tick_core (f : BHO3) (i : nat) : result BHO3 :=
  c ← vget (bh_cores f) (Z.of_nat i);
  q ← BHCore_tick translate (bh_clk f) c (bh_llc f) (bh_translation f);
  let '(c, l, t) := q in
  cs ← vset (bh_cores f) (Z.of_nat i) c;
  Ok (mkBHO3 (bh_clk f) l cs t).

Definition BHO3_tick (f : BHO3) (m : M) : result (BHO3 * M) :=
  let f := mkBHO3 (bh_clk f + 1) (bh_llc f) (bh_cores f) (bh_translation f) in
  q ← BHLLC_tick f m;
  let '(f, m) := q in
  f ← foldM bh_tick_core f (seq 0 (length (bh_cores f)));
  Ok (f, m).

Definition BHO3_is_finished (f : BHO3) : bool := forallb bc_is_finished (bh_cores f).

(** [idle_ticks] and [fast_forward] are the defaults of [IFrontEnd]: every cycle is
    executed. *)
#[export] Instance BHO3_frontend : IFrontEnd BHO3 M := {|
  f_tick := BHO3_tick;
  f_receive := bh_on_callback;
  f_is_finished := fun f => Ok (BHO3_is_finished f);
  f_idle_ticks := fun _ _ => Ok 0;
  f_fast_forward := fun f _ => Ok f
|}.
End bho3.
Arguments BHO3 : clear implicits.
