(* ===== verification/BHLLCProps.v ===== *)
(** * The cache limits the misses of a blacklisted source

    The line and miss-entry part of the cache is that of SimpleO3 ([as_llc]), so its
    invariant carries over.  On top of it the owners of the outstanding misses are
    followed: the counters the blacklist compares with its limits are exact.  The last part runs the
    controller and the cache on concrete inputs. *)

From Stdlib Require Import ZArith Lia SpecFloat.
From S2P Require Import Prelude Base LLC LLCProps Controller Scheduler GenericDDR BlockHammer BHLLC Spec.
From S2P Require Import Node Standards Device Examples Refresh ControllerProps CtrlExamples Plugins TRR.
From S2P Require Import Core Latency Elision Simulation BlockHammerProps BHO3.

Local Open Scope Z_scope.

(** ** The part shared with SimpleO3 *)
Definition as_llc (l : BHO3LLC) : LLC :=
  mkLLC (bl_latency l) (bl_linesize_bytes l) (bl_associativity l) (bl_num_mshrs l) (bl_index_mask l) (bl_index_offset l)
    (bl_tag_offset l) (bl_cache_sets l) (bl_next_line l) (bl_mshrs l) ∅ ∅ [] [] 0 ∅ 2 ∅.

Definition bh_cfg (l : BHO3LLC) : Prop := llc_cfg (as_llc l) /\ bl_index_mask l < 2 ^ 31.

Lemma bl_get_index_eq (l : BHO3LLC) (a : Addr_t) : bh_cfg l -> bl_get_index l a = get_index (as_llc l) a.
Proof.
  intros [Hc Hm]. unfold bl_get_index. change (Z.land (Z.shiftr a (bl_index_offset l)) (bl_index_mask l)) with (get_index (as_llc l) a).
  rewrite (get_index_block _ Hc). pose proof (cfg_mask _ Hc) as E. cbn [l_index_mask as_llc] in E. pose proof (cfg_bits _ Hc).
  pose proof (Z.mod_pos_bound (block (as_llc l) a) (2 ^ l_index_bits (as_llc l)) ltac:(apply Z.pow_pos_nonneg; lia)).
  unfold wrap_s. change (32 - 1) with 31. rewrite Z.mod_small by lia. lia.
Qed.

(** What the operations never change. *)
Definition same_cfg (l l' : BHO3LLC) : Prop :=
  bl_latency l' = bl_latency l /\ bl_linesize_bytes l' = bl_linesize_bytes l /\ bl_associativity l' = bl_associativity l /\
  bl_num_mshrs l' = bl_num_mshrs l /\ bl_num_cores l' = bl_num_cores l /\ bl_index_mask l' = bl_index_mask l /\
  bl_index_offset l' = bl_index_offset l /\ bl_tag_offset l' = bl_tag_offset l.

Lemma same_cfg_cfg (l l' : BHO3LLC) : same_cfg l l' -> bh_cfg l -> bh_cfg l'.
Proof.
  intros (E1 & E2 & E3 & E4 & _ & E6 & E7 & E8) [Hc Hm]. split; [|by rewrite E6]. eapply llc_cfg_ext; [|exact Hc].
  unfold cfg_of. cbn. by rewrite E1, E2, E3, E4, E6, E7, E8.
Qed.

(** ** Owners of the outstanding misses *)
Definition owned (c : Z) (owners : list Z) : Z := Z.of_nat (count_occ Z.eq_dec owners c).

Lemma owned_snoc (c d : Z) (owners : list Z) : owned c (owners ++ [d]) = owned c owners + (if Z.eq_dec d c then 1 else 0).
Proof. unfold owned. rewrite count_occ_app. cbn. destruct (Z.eq_dec d c); lia. Qed.

Lemma owned_delete (c d : Z) (owners : list Z) (i : nat) :
  owners !! i = Some d -> owned c owners = owned c (delete i owners) + (if Z.eq_dec d c then 1 else 0).
Proof.
  intros Hi. unfold owned. pose proof (delete_Permutation _ _ _ Hi) as Hp.
  rewrite (proj1 (Permutation_count_occ Z.eq_dec owners (d :: delete i owners)) Hp c). cbn. destruct (Z.eq_dec d c); lia.
Qed.

Record bhl_inv (l : BHO3LLC) (owners : list Z) : Prop := {
  bv_cfg : bh_cfg l;
  bv_lines : lines_wf (as_llc l);
  bv_owners : length owners = length (bl_mshrs l);
  bv_cores : Z.of_nat (length (bl_allocated_mshrs l)) = bl_num_cores l /\
    Z.of_nat (length (bl_blacklist_max_mshrs l)) = bl_num_cores l /\ Z.of_nat (length (bl_blacklist_status l)) = bl_num_cores l;
  bv_allocated : forall c n, vget (bl_allocated_mshrs l) c = Ok n -> n = owned c owners
}.

(** Operations that leave lines, misses and counters alone. *)
Lemma bhl_inv_ext (l l' : BHO3LLC) (owners : list Z) :
  bhl_inv l owners -> same_cfg l l' -> lines_of (as_llc l') = lines_of (as_llc l) -> bl_allocated_mshrs l' = bl_allocated_mshrs l ->
  length (bl_blacklist_max_mshrs l') = length (bl_blacklist_max_mshrs l) ->
  length (bl_blacklist_status l') = length (bl_blacklist_status l) -> bhl_inv l' owners.
Proof.
  intros [H1 H2 H3 H4 H5] Hs Hl Ha Hm Hst. pose proof Hs as (_ & _ & _ & _ & En & _). split.
  - by eapply same_cfg_cfg.
  - by eapply lines_wf_ext.
  - unfold lines_of in Hl. cbn in Hl. injection Hl as _ _ _ _ _ _ _ _ E. by rewrite E.
  - by rewrite Ha, Hm, Hst, En.
  - intros c n. rewrite Ha. apply H5.
Qed.

(** Operations that change lines but no miss entry. *)
Lemma bhl_inv_lines (l l' : BHO3LLC) (owners : list Z) :
  bhl_inv l owners -> same_cfg l l' -> lines_wf (as_llc l') -> bl_mshrs l' = bl_mshrs l -> bl_allocated_mshrs l' = bl_allocated_mshrs l ->
  bl_blacklist_max_mshrs l' = bl_blacklist_max_mshrs l -> bl_blacklist_status l' = bl_blacklist_status l -> bhl_inv l' owners.
Proof.
  intros [H1 H2 H3 H4 H5] Hs Hl Hms Ha Hm Hst. pose proof Hs as (_ & _ & _ & _ & En & _). split; [by eapply same_cfg_cfg|done|by rewrite Hms|by rewrite Ha, Hm, Hst, En|].
  intros c n. rewrite Ha. apply H5.
Qed.

(** ** The cases of [send] *)
Lemma bl_update_line_ok (l : BHO3LLC) (set id : Z) (f : Line -> Line) :
  id ∈ ln_id <$> bl_set_at l set ->
  bl_update_line l set id f = Ok (bl_set_lines l (<[set := map_line id f (bl_set_at l set)]> (bl_cache_sets l)) (bl_next_line l)).
Proof. intros Hin. unfold bl_update_line. by rewrite bool_decide_eq_true_2. Qed.

(** The line of a miss entry is there. *)
Lemma mshr_line_there (l : BHO3LLC) (e : MSHREntry) : lines_wf (as_llc l) -> e ∈ bl_mshrs l -> mshr_line e ∈ ln_id <$> bl_set_at l (mshr_set e).
Proof. intros Hw He. destruct (lw_mshr _ Hw e He) as [_ (x & Hx & Hid & _)]. apply list_elem_of_fmap. exists x. split; [congruence|exact Hx]. Qed.

Lemma bl_check_hit_eq (l : BHO3LLC) (a : Addr_t) :
  bh_cfg l -> bl_check_set_hit l (bl_get_set l a) a = check_set_hit (as_llc l) (get_set (as_llc l) a) a /\
  bl_check_mshr_hit l a = check_mshr_hit (as_llc l) a.
Proof. intros Hc. unfold bl_get_set, bl_set_at, get_set. by rewrite (bl_get_index_eq l a Hc). Qed.

Lemma hit_inv (clk : Clk_t) (l : BHO3LLC) (owners : list Z) (r : Request) (x : Line) :
  bhl_inv l owners -> bl_check_set_hit l (bl_get_set l (addr r)) (addr r) = Some x -> bhl_inv (bl_hit clk l r x) owners.
Proof.
  intros HI Hx. pose proof (bv_cfg _ _ HI) as Hc. rewrite (proj1 (bl_check_hit_eq l (addr r) Hc)) in Hx.
  eapply bhl_inv_lines; [exact HI|by split_and!| |done..]. unfold check_set_hit in Hx. destruct (find_line _ _) as [y|] eqn:Ey; [|done].
  destruct (ln_ready y) eqn:Hr; [|done]. injection Hx as ->. apply find_line_some in Ey as [Hin Ht]. cbv beta in Ht.
  eapply lines_wf_ext; [|apply (touch_wf (as_llc l) (bv_lines _ _ HI) (addr r) x (ln_dirty x || (type_id r =? Write)) Hin Hr); lia].
  unfold bl_hit, bl_get_set, bl_set_at. by rewrite (bl_get_index_eq l (addr r) Hc).
Qed.

Lemma merge_ok (l : BHO3LLC) (owners : list Z) (r : Request) (dirty : bool) (i : nat) (e : MSHREntry) :
  bhl_inv l owners -> bl_check_mshr_hit l (addr r) = Some (i, e) -> exists l', bl_merge l r dirty e = Ok l' /\ bhl_inv l' owners /\ bl_mshrs l' = bl_mshrs l.
Proof.
  intros HI (_ & He & _)%find_mshr_some. pose proof (bv_lines _ _ HI) as Hw. unfold bl_merge.
  rewrite bl_update_line_ok by (by apply mshr_line_there). eexists. split; [done|]. split; [|done].
  eapply bhl_inv_lines; [exact HI|by split_and!| |done..].
  eapply lines_wf_ext; [|apply (write_line_wf (as_llc l) Hw (mshr_set e) (mshr_line e)
    (fun x => mkLine (ln_id x) (ln_addr x) (ln_tag x) (dirty || ln_dirty x) (ln_ready x))); done]. done.
Qed.

Lemma evict_inv (clk : Clk_t) (l : BHO3LLC) (owners : list Z) (i : Z) (x : Line) :
  bhl_inv l owners -> x ∈ bl_set_at l i -> ln_ready x = true -> bhl_inv (bl_evict_line clk l i x) owners /\
    bl_mshrs (bl_evict_line clk l i x) = bl_mshrs l /\ bl_next_line (bl_evict_line clk l i x) = bl_next_line l /\
    same_cfg l (bl_evict_line clk l i x) /\ bl_set_at (bl_evict_line clk l i x) i = erase_line (bl_set_at l i) (ln_id x) /\
    bl_allocated_mshrs (bl_evict_line clk l i x) = bl_allocated_mshrs l /\
    bl_blacklist_max_mshrs (bl_evict_line clk l i x) = bl_blacklist_max_mshrs l /\
    bl_blacklist_status (bl_evict_line clk l i x) = bl_blacklist_status l.
Proof.
  intros HI Hx Hr. unfold bl_evict_line. split_and!; try (by destruct (ln_dirty x)).
  - eapply bhl_inv_lines; [exact HI| | | | | |]; try (by destruct (ln_dirty x)).
    eapply lines_wf_ext; [|exact (evict_wf (as_llc l) (bv_lines _ _ HI) i x Hx Hr)]. by destruct (ln_dirty x).
  - unfold bl_set_at at 1. destruct (ln_dirty x); cbn; by rewrite lookup_insert_eq.
Qed.

(** Room in the set of an address that is not there. *)
Lemma room_ok (clk : Clk_t) (l : BHO3LLC) (owners : list Z) (a : Addr_t) :
  bhl_inv l owners -> (forall x, x ∈ bl_get_set l a -> ln_tag x <> bl_get_tag l a) ->
  (Z.of_nat (length (bl_get_set l a)) <? bl_associativity l) || existsb ln_ready (bl_get_set l a) = true ->
  exists l1, bl_allocate_line clk l a = Ok (Some (mkLine (bl_next_line l) a (bl_get_tag l a) false false),
      bl_set_lines l1 (<[bl_get_index l a := bl_get_set l1 a ++ [mkLine (bl_next_line l) a (bl_get_tag l a) false false]]> (bl_cache_sets l1)) (bl_next_line l + 1)) /\
    bhl_inv l1 owners /\ same_cfg l l1 /\ bl_mshrs l1 = bl_mshrs l /\ bl_next_line l1 = bl_next_line l /\
    bl_allocated_mshrs l1 = bl_allocated_mshrs l /\
    length (bl_blacklist_max_mshrs l1) = length (bl_blacklist_max_mshrs l) /\ length (bl_blacklist_status l1) = length (bl_blacklist_status l) /\
    Z.of_nat (length (bl_get_set l1 a)) < bl_associativity l /\ (forall x, x ∈ bl_get_set l1 a -> x ∈ bl_get_set l a).
Proof.
  intros HI Htag Hroom. unfold bl_allocate_line, bl_need_eviction.
  destruct (find_line (fun x => bl_get_tag l a =? ln_tag x) (bl_get_set l a)) as [y|] eqn:Ey.
  { apply find_line_some in Ey as [Hy Hty]. cbv beta in Hty. exfalso. apply (Htag y Hy). lia. }
  cbn [mbind result_bind]. destruct (Z.leb_spec (bl_associativity l) (Z.of_nat (length (bl_get_set l a)))) as [Hfull|Hfree].
  - destruct (find_line ln_ready (bl_get_set l a)) as [v|] eqn:Ev.
    + apply find_line_some in Ev as [Hv Hvr]. destruct (evict_inv clk l owners (bl_get_index l a) v HI Hv Hvr) as (HI1 & E1 & E2 & E3 & E4 & E5 & E6 & E7).
      set (l1 := bl_evict_line clk l (bl_get_index l a) v) in *. exists l1. pose proof E3 as (_ & _ & _ & _ & _ & F1 & F2 & F3).
      assert (bl_get_index l1 a = bl_get_index l a) as Ei by (unfold bl_get_index; by rewrite F1, F2).
      assert (bl_get_tag l1 a = bl_get_tag l a) as Et by (unfold bl_get_tag; by rewrite F3).
      assert (bl_get_set l1 a = erase_line (bl_get_set l a) (ln_id v)) as Es by (unfold bl_get_set; by rewrite Ei).
      rewrite E2, Et, Es, E6, E7. split_and!; try done; [|by intros x [_ ?]%elem_of_erase].
      pose proof (erase_shorter _ v Hv). pose proof (lw_len _ (bv_lines _ _ HI) (bl_get_index l a)) as Hle.
      change (Z.of_nat (length (bl_get_set l a)) <= bl_associativity l) in Hle. lia.
    + exfalso. apply orb_true_iff in Hroom as [?|(v & Hv & Hr)%existsb_exists]; [lia|]. apply list_elem_of_In in Hv.
      pose proof (find_line_none _ _ _ Ev Hv). congruence.
  - exists l. split_and!; try done.
Qed.

(** Charging a new miss to its source. *)
Lemma charge_ok (l l3 : BHO3LLC) (owners : list Z) (e : MSHREntry) (source : Z) :
  bhl_inv l owners -> same_cfg l l3 -> lines_wf (as_llc l3) -> bl_mshrs l3 = bl_mshrs l ++ [e] -> bl_allocated_mshrs l3 = bl_allocated_mshrs l ->
  length (bl_blacklist_max_mshrs l3) = length (bl_blacklist_max_mshrs l) -> length (bl_blacklist_status l3) = length (bl_blacklist_status l) ->
  exists l', (if is_core l3 source then bl_charge l3 source 1 else Ok l3) = Ok l' /\ bhl_inv l' (owners ++ [source]) /\
    bl_mshrs l' = bl_mshrs l ++ [e].
Proof.
  intros HI Hcf Hw3 Hms Hal Hmx Hst. pose proof Hcf as (_ & _ & _ & _ & F5 & _). destruct (bv_cores _ _ HI) as (L1 & L2 & L3).
  assert (Howners : length (owners ++ [source]) = length (bl_mshrs l ++ [e])) by (rewrite !length_app, (bv_owners _ _ HI); done).
  pose proof (same_cfg_cfg _ _ Hcf (bv_cfg _ _ HI)) as Hc3. destruct (is_core l3 source) eqn:Hcore; unfold is_core in Hcore; rewrite F5 in Hcore.
  - unfold bl_charge. destruct (vget_in_range (bl_allocated_mshrs l3) source) as [n Hn]; [rewrite Hal; lia|]. rewrite Hn. cbn [mbind result_bind].
    destruct (vset_total (bl_allocated_mshrs l3) source (n + 1)) as [al Hset]; [rewrite Hal; lia|]. rewrite Hset. cbn [mbind result_bind].
    eexists. split; [done|]. split; [|done]. split; cbn.
    + exact Hc3.
    + eapply lines_wf_ext; [|exact Hw3]. done.
    + by rewrite Hms.
    + rewrite (vset_length _ _ _ _ Hset), Hal, Hmx, Hst, F5. done.
    + intros c m. rewrite (vget_vset _ _ _ _ _ Hset), owned_snoc, Hal. rewrite Hal in Hn. destruct (Z.eqb_spec c source) as [->|Hne]; intros Hv.
      * injection Hv as <-. rewrite (bv_allocated _ _ HI _ _ Hn). destruct (Z.eq_dec _ _); [lia|done].
      * rewrite (bv_allocated _ _ HI _ _ Hv). destruct (Z.eq_dec _ _); [congruence|lia].
  - exists l3. split; [done|]. split; [|done]. split; [exact Hc3|exact Hw3|by rewrite Hms|by rewrite Hal, Hmx, Hst, F5|].
    intros c m. rewrite Hal, owned_snoc. intros Hv. rewrite (bv_allocated _ _ HI _ _ Hv). pose proof (vget_bound _ _ _ Hv).
    destruct (Z.eq_dec _ _) as [->|]; lia.
Qed.

Lemma new_miss_ok (clk : Clk_t) (l : BHO3LLC) (owners : list Z) (r : Request) (dirty : bool) :
  bhl_inv l owners -> (forall x, x ∈ bl_get_set l (addr r) -> ln_tag x <> bl_get_tag l (addr r)) ->
  (forall e, e ∈ bl_mshrs l -> bl_align l (mshr_addr e) <> bl_align l (addr r)) -> Z.of_nat (length (bl_mshrs l)) < bl_num_mshrs l ->
  (Z.of_nat (length (bl_get_set l (addr r))) <? bl_associativity l) || existsb ln_ready (bl_get_set l (addr r)) = true ->
  exists r' l', bl_new_miss clk l r dirty = Ok (r', l') /\ bhl_inv l' (owners ++ [source_id r]) /\ length (bl_mshrs l') = S (length (bl_mshrs l)).
Proof.
  intros HI Htag Hal Hm Hroom. destruct (room_ok clk l owners (addr r) HI Htag Hroom) as (l1 & Ha & HI1 & Hcf & E1 & E2 & E3 & E4 & E5 & Hlen & Hsub).
  unfold bl_new_miss. rewrite Ha. cbn [mbind result_bind]. set (x := mkLine (bl_next_line l) (addr r) (bl_get_tag l (addr r)) false false) in *.
  set (i := bl_get_index l (addr r)). pose proof Hcf as (F1 & F2 & F3 & F4 & F5 & F6 & F7 & F8).
  assert (Ei : bl_get_index l1 (addr r) = i) by (unfold i, bl_get_index; by rewrite F6, F7).
  assert (Et : bl_get_tag l1 (addr r) = bl_get_tag l (addr r)) by (unfold bl_get_tag; by rewrite F8).
  assert (Hgi : get_index (as_llc l1) (addr r) = i) by (rewrite <- bl_get_index_eq; [done|exact (bv_cfg _ _ HI1)]).
  set (l2 := bl_set_lines l1 _ _). assert (bl_get_index l2 (addr r) = i) as Ei2 by exact Ei.
  assert (bl_set_at l2 i = bl_get_set l1 (addr r) ++ [x]) as Es2 by (unfold bl_set_at; cbn; by rewrite lookup_insert_eq).
  rewrite Ei2, bl_update_line_ok by (rewrite Es2, fmap_app; set_solver). cbn [mbind result_bind]. rewrite Es2, map_line_fresh.
  2: { intros y Hy. unfold bl_get_set in Hy. rewrite Ei in Hy. destruct (lw_line _ (bv_lines _ _ HI1) i y Hy) as (_ & _ & Hid). cbn in Hid |- *. lia. }
  pose proof (fill_wf (as_llc l1) (proj1 (bv_cfg _ _ HI1)) (bv_lines _ _ HI1) (addr r) dirty) as Hfill. cbn zeta in Hfill. rewrite Hgi in Hfill.
  assert (El : lset (as_llc l1) i = bl_get_set l1 (addr r)) by (unfold bl_get_set; by rewrite Ei). rewrite El in Hfill.
  specialize (Hfill ltac:(cbn; by rewrite F3)). cbn [l_mshrs l_num_mshrs as_llc] in Hfill. rewrite E1, F4 in Hfill. specialize (Hfill Hm).
  specialize (Hfill ltac:(intros y Hy; change (get_tag (as_llc l1) (addr r)) with (bl_get_tag l1 (addr r)); rewrite Et; by apply Htag, Hsub)).
  specialize (Hfill ltac:(intros e He; unfold align; cbn; rewrite F2; by apply Hal)).
  match goal with |- context [if is_core ?a (source_id ?b) then _ else _] => set (l3 := a); set (r3 := b) end.
  assert (Hw3 : lines_wf (as_llc l3)).
  { eapply lines_wf_ext; [|exact Hfill]. unfold l3, lines_of. cbn. rewrite E1, E2, insert_insert_eq. change (get_tag (as_llc l1) (addr r)) with (bl_get_tag l1 (addr r)).
    by rewrite Et. }
  destruct (charge_ok l l3 owners (mkMSHR (addr r) i (ln_id x)) (source_id r3)) as (l' & Hl' & HI' & Hms');
    [exact HI|exact Hcf|exact Hw3|unfold l3; cbn; by rewrite E1|exact E3|exact E4|exact E5|].
  rewrite Hl'. do 2 eexists. split; [done|]. split; [exact HI'|]. rewrite Hms', length_app. cbn. lia.
Qed.

Lemma bump_inv (l : BHO3LLC) (owners : list Z) (name : string) : bhl_inv l owners -> bhl_inv (bl_bump l name) owners.
Proof. intros HI. by eapply bhl_inv_ext; [exact HI|by split_and!|..]. Qed.

Lemma over_cap_ok (l : BHO3LLC) (owners : list Z) (c : Z) :
  bhl_inv l owners -> exists b, over_cap l c = Ok b /\
    (is_core l c = true -> vget (bl_blacklist_status l) c = Ok true -> 0 < get_blacklist_max_mshrs l c <= owned c owners -> b = true).
Proof.
  intros HI. destruct (bv_cores _ _ HI) as (L1 & L2 & L3). unfold over_cap, get_blacklist_max_mshrs. destruct (is_core l c) eqn:Hc; [|by exists false].
  unfold is_core in Hc. destruct (vget_in_range (bl_blacklist_status l) c) as [st Hst]; [lia|]. rewrite Hst. cbn [mbind result_bind].
  destruct st; cbn [negb]; [|exists false; split; [done|]; intros _ [=]].
  destruct (vget_in_range (bl_blacklist_max_mshrs l) c) as [cap Hcap]; [lia|]. rewrite Hcap. cbn [mbind result_bind].
  destruct (vget_in_range (bl_allocated_mshrs l) c) as [n Hn]; [lia|]. rewrite Hn. cbn [mbind result_bind]. eexists. split; [done|].
  intros _ _ Hle. rewrite (bv_allocated _ _ HI _ _ Hn). lia.
Qed.

(** [send] returns; a source at its limit gets no new miss. *)
Lemma send_ok (clk : Clk_t) (l : BHO3LLC) (owners : list Z) (r : Request) :
  bhl_inv l owners -> exists ok r' l', BHLLC_send clk l r = Ok (ok, r', l') /\
    ((length (bl_mshrs l') = length (bl_mshrs l) /\ bhl_inv l' owners) \/
     (length (bl_mshrs l') = S (length (bl_mshrs l)) /\ bhl_inv l' (owners ++ [source_id r]) /\ over_cap l (source_id r) = Ok false)).
Proof.
  intros HI. unfold BHLLC_send. cbn zeta.
  set (l1 := if type_id r =? Read then _ else _). assert (bhl_inv l1 owners) as HI1 by (unfold l1; repeat case_match; auto using bump_inv).
  assert (E1 : bl_mshrs l1 = bl_mshrs l) by (unfold l1; by repeat case_match).
  destruct (bl_check_set_hit l1 (bl_get_set l1 (addr r)) (addr r)) as [x|] eqn:Hx.
  { do 3 eexists. split; [done|]. left. split; [cbn; by rewrite E1|]. by apply hit_inv. }
  set (l2 := if type_id r =? Read then _ else _). assert (bhl_inv l2 owners) as HI2 by (unfold l2; repeat case_match; auto using bump_inv).
  assert (E2 : bl_mshrs l2 = bl_mshrs l) by (unfold l2; by repeat case_match).
  assert (Hx2 : bl_check_set_hit l2 (bl_get_set l2 (addr r)) (addr r) = None) by (rewrite <- Hx; unfold l2; by repeat case_match).
  assert (Eo : over_cap l2 (source_id r) = over_cap l (source_id r)) by (unfold l2, l1; by repeat case_match).
  set (dirty := type_id r =? Write). set (r1 := if dirty then set_type r Read else r).
  assert (addr r1 = addr r) as Ea by (unfold r1; by destruct dirty). assert (source_id r1 = source_id r) as Es by (unfold r1; by destruct dirty). rewrite Ea, Es.
  destruct (bl_check_mshr_hit l2 (addr r)) as [[i e]|] eqn:Hm.
  { rewrite <- Ea in Hm. destruct (merge_ok l2 owners r1 dirty i e HI2 Hm) as (l' & -> & HI' & E'). do 3 eexists. split; [done|]. left. by rewrite E', E2. }
  destruct (over_cap_ok l2 owners (source_id r) HI2) as (b & Hb & _). rewrite Hb. cbn [mbind result_bind]. destruct b.
  { do 3 eexists. split; [done|]. left. split; [cbn; by rewrite E2|by apply bump_inv]. }
  destruct (Z.eqb_spec (Z.of_nat (length (bl_mshrs l2))) (bl_num_mshrs l2)) as [|Hne].
  { do 3 eexists. split; [done|]. left. split; [cbn; by rewrite E2|by apply bump_inv]. }
  destruct (negb _) eqn:Hroom; [do 3 eexists; split; [done|]; left; by rewrite E2|]. apply negb_false_iff in Hroom.
  pose proof (bv_cfg _ _ HI2) as Hc2. destruct (bl_check_hit_eq l2 (addr r) Hc2) as [Q1 Q2]. rewrite Q1 in Hx2. rewrite Q2 in Hm.
  destruct (no_match_lines (as_llc l2) (addr r) (proj1 Hc2) (bv_lines _ _ HI2) Hx2 Hm) as [Htag Hal].
  pose proof (lw_mlen _ (bv_lines _ _ HI2)) as Hml. cbn in Hml.
  destruct (new_miss_ok clk l2 owners r1 dirty) as (r' & l' & Hn & HI' & Hl'); rewrite ?Ea; try done; [|lia|].
  { intros x Hin. apply Htag. unfold bl_get_set in Hin. by rewrite (bl_get_index_eq l2 (addr r) Hc2) in Hin. }
  rewrite Hn. do 3 eexists. split; [done|]. right. cbn [fst snd]. rewrite Es in HI'. rewrite Hl', E2. split_and!; [done|done|congruence].
Qed.

(** A completion returns; when it is the owner's, its miss is no longer counted. *)
Lemma receive_ok (l : BHO3LLC) (owners : list Z) (r : Request) :
  bhl_inv l owners -> exists l', BHLLC_receive l r = Ok l' /\
    ((forall i e, bl_check_mshr_hit l (addr r) = Some (i, e) -> owners !! i = Some (source_id r)) ->
     bhl_inv l' (match bl_check_mshr_hit l (addr r) with Some (i, _) => delete i owners | None => owners end)).
Proof.
  intros HI. unfold BHLLC_receive. destruct (bl_check_mshr_hit l (addr r)) as [[i e]|] eqn:Hm; [|by exists l].
  pose proof Hm as (Hi & He & _)%find_mshr_some. rewrite bl_update_line_ok by (by apply mshr_line_there, He; apply (bv_lines _ _ HI)). cbn [mbind result_bind].
  set (l2 := bl_set_mshrs _ _ _). destruct HI as [H1 H2 H3 H4 H5].
  assert (Hw : lines_wf (as_llc l2)).
  { eapply lines_wf_ext; [|apply (return_wf (as_llc l) (proj1 H1) H2 i e (fun x => mkLine (ln_id x) (ln_addr x) (ln_tag x) (ln_dirty x) true)); done]. done. }
  assert (Hlen : forall d, owners !! i = Some d -> length (delete i owners) = length (delete i (bl_mshrs l))).
  { intros d Hd. rewrite !length_delete; [lia|by eexists|by eexists]. }
  destruct (is_core l2 (source_id r)) eqn:Hcore.
  - unfold is_core in Hcore. destruct (vget_in_range (bl_allocated_mshrs l2) (source_id r)) as [n Hn]; [cbn in *; lia|]. rewrite Hn. cbn [mbind result_bind].
    destruct (Z.ltb_spec 0 n) as [Hpos|Hz].
    + unfold bl_charge. rewrite Hn. cbn [mbind result_bind]. destruct (vset_total (bl_allocated_mshrs l2) (source_id r) (n + -1)) as [al Hset]; [cbn in *; lia|].
      rewrite Hset. eexists. split; [done|]. intros Hown. specialize (Hown i e eq_refl). split; cbn; [eapply (same_cfg_cfg l); [by split_and!|exact H1]|eapply lines_wf_ext; [|exact Hw]; done|by eapply Hlen| |].
      * by rewrite (vset_length _ _ _ _ Hset).
      * intros c m. rewrite (vget_vset _ _ _ _ _ Hset). pose proof (owned_delete c _ _ _ Hown). destruct (Z.eqb_spec c (source_id r)) as [->|Hne]; intros Hv.
        -- injection Hv as <-. specialize (H5 _ _ Hn). destruct (Z.eq_dec _ _); [lia|done].
        -- specialize (H5 _ _ Hv). destruct (Z.eq_dec _ _); [congruence|lia].
    + exists l2. split; [done|]. intros Hown. specialize (Hown i e eq_refl). exfalso. specialize (H5 _ _ Hn).
      pose proof (owned_delete (source_id r) _ _ _ Hown). unfold owned in *. destruct (Z.eq_dec _ _); [lia|done].
  - exists l2. split; [done|]. intros Hown. specialize (Hown i e eq_refl). split; cbn; [eapply (same_cfg_cfg l); [by split_and!|exact H1]|eapply lines_wf_ext; [|exact Hw]; done|by eapply Hlen|done|].
    intros c m Hv. specialize (H5 _ _ Hv). pose proof (owned_delete c _ _ _ Hown). pose proof (vget_bound _ _ _ Hv).
    destruct (Z.eq_dec _ _) as [<-|]; [|lia]. unfold is_core in Hcore. cbn in *. lia.
Qed.

Lemma blacklist_inv (l l' : BHO3LLC) (owners : list Z) (mx : list Z) (st : list bool) :
  bhl_inv l owners -> l' = bl_set_blacklist l (bl_allocated_mshrs l) mx st -> length mx = length (bl_blacklist_max_mshrs l) ->
  length st = length (bl_blacklist_status l) -> bhl_inv l' owners.
Proof. intros HI -> Hm Hs. eapply bhl_inv_ext; [exact HI|by split_and!|done..]. Qed.

(** ** Reachable caches

    Any interleaving of requests, completions, flushes and blacklist updates from a
    cache whose sizes are powers of two; queues and waiting lists are the frontend's
    business.  A completion is the one of the request that owns the miss, and a
    flush does not hit a line that waits for memory. *)
Inductive bhl_reach : BHO3LLC -> list Z -> Prop :=
| bl_start latency a b linesize assoc mshrs cores l :
    0 <= latency -> 0 <= a < 31 -> 0 <= b -> linesize = 2 ^ a -> 0 < assoc < 2 ^ 31 -> 2 ^ (a + b) * assoc < 2 ^ 31 -> 0 < mshrs -> 0 <= cores ->
    BHLLC_init latency (2 ^ (a + b) * assoc) linesize assoc mshrs cores = Ok l -> bhl_reach l []
| bl_sends clk l owners r ok r' l' :
    bhl_reach l owners -> BHLLC_send clk l r = Ok (ok, r', l') ->
    bhl_reach l' (if (length (bl_mshrs l') =? length (bl_mshrs l))%nat then owners else owners ++ [source_id r])
| bl_receives l owners r l' :
    bhl_reach l owners -> (forall i e, bl_check_mshr_hit l (addr r) = Some (i, e) -> owners !! i = Some (source_id r)) ->
    BHLLC_receive l r = Ok l' ->
    bhl_reach l' (match bl_check_mshr_hit l (addr r) with Some (i, _) => delete i owners | None => owners end)
| bl_flushes clk l owners a :
    bhl_reach l owners ->
    (forall x, find_line (fun x => ln_tag x =? bl_get_tag l a) (bl_get_set l a) = Some x -> ln_ready x = true) ->
    bhl_reach (clflush clk l a).2 owners
| bl_lists l owners c : bhl_reach l owners -> bhl_reach (add_blacklist l c) owners
| bl_unlists l owners c : bhl_reach l owners -> bhl_reach (erase_blacklist l c) owners
| bl_limits l owners c n : bhl_reach l owners -> bhl_reach (set_blacklist_max_mshrs l c n) owners
| bl_queues l owners rr miss hit : bhl_reach l owners -> bhl_reach (bl_set_queues (bl_set_mshrs l (bl_mshrs l) rr) miss hit) owners.

Lemma BHLLC_init_inv (latency a b assoc mshrs cores : Z) (l : BHO3LLC) :
  0 <= latency -> 0 <= a < 31 -> 0 <= b -> 0 < assoc < 2 ^ 31 -> 2 ^ (a + b) * assoc < 2 ^ 31 -> 0 < mshrs -> 0 <= cores ->
  BHLLC_init latency (2 ^ (a + b) * assoc) (2 ^ a) assoc mshrs cores = Ok l -> bhl_inv l [].
Proof.
  intros Hlat Ha Hb Has Hsz Hm Hcores H. unfold BHLLC_init in H. rewrite Z.pow_add_r in * by lia.
  assert (0 < 2 ^ a) by (apply Z.pow_pos_nonneg; lia). assert (0 < 2 ^ b) by (apply Z.pow_pos_nonneg; lia).
  assert (2 ^ a * assoc <= 2 ^ a * 2 ^ b * assoc) by nia. assert (2 ^ a <= 2 ^ a * 2 ^ b * assoc) by nia. assert (2 ^ b <= 2 ^ a * 2 ^ b * assoc) by nia.
  assert (W : forall x, 0 <= x < 2 ^ 31 -> wrap_u 64 x = x) by (intros; unfold wrap_u; apply Z.mod_small; lia).
  rewrite (W (2 ^ a * 2 ^ b * assoc)), (W (2 ^ a)), (W assoc), (W (2 ^ a * assoc)) in H by nia. cbn zeta in H.
  destruct (Z.eqb_spec (2 ^ a * assoc) 0) as [?|_]; [nia|].
  assert (2 ^ a * 2 ^ b * assoc / (2 ^ a * assoc) = 2 ^ b) as Hq by (symmetry; apply Z.div_unique_exact; nia). rewrite Hq in H.
  assert (wrap_s 32 (2 ^ b) = 2 ^ b) as Hws by (unfold wrap_s; change (32 - 1) with 31; rewrite Z.mod_small; lia).
  rewrite Hws in H. rewrite !calc_log2_spec, !Z.log2_pow2 in H by lia. cbn [mbind result_bind] in H. unfold vec_make in H.
  destruct (Z.ltb_spec cores 0); [lia|]. cbn [mbind result_bind] in H. injection H as <-. split.
  - split; [|cbn; lia]. split; unfold l_index_bits; cbn; try lia. replace (b + a - a) with b by lia. lia.
  - match goal with |- lines_wf ?l => assert (forall i, lset l i = []) as E by done end.
    split; intros; rewrite ?E in *; cbn in *; try lia; try apply NoDup_nil_2; set_solver.
  - done.
  - cbn. rewrite !length_replicate. lia.
  - cbn. by intros c n [_ [-> _]%lookup_replicate]%vget_Ok.
Qed.

Lemma bh_reach_inv (l : BHO3LLC) (owners : list Z) : bhl_reach l owners -> bhl_inv l owners.
Proof.
  induction 1 as [latency a b linesize assoc mshrs cores l H1 H2 H3 -> H4 H5 H6 H7 Hi|clk l owners r ok r' l' _ IH Hs|l owners r l' _ IH Hown Hr
    |clk l owners a _ IH Hf|l owners c _ IH|l owners c _ IH|l owners c n _ IH|l owners rr miss hit _ IH].
  - apply (BHLLC_init_inv latency a b assoc mshrs cores); assumption.
  - destruct (send_ok clk l owners r IH) as (ok1 & r1 & l1 & Hs1 & Hc). rewrite Hs in Hs1. injection Hs1 as <- <- <-.
    destruct Hc as [[E HI]|(E & HI & _)]; rewrite E; [by rewrite Nat.eqb_refl|]. by destruct (Nat.eqb_spec (S (length (bl_mshrs l))) (length (bl_mshrs l))); [lia|].
  - destruct (receive_ok l owners r IH) as (l1 & Hr1 & HI). rewrite Hr in Hr1. injection Hr1 as <-. by apply HI.
  - unfold clflush. destruct (find_line _ _) as [x|] eqn:Ef; [|done]. cbn [snd]. apply evict_inv; [done| |by apply Hf].
    by apply find_line_some in Ef as [Hin _].
  - unfold add_blacklist. destruct (negb _); [done|]. destruct (vset _ _ _) as [st|] eqn:Hv; [|done]. by eapply blacklist_inv; [exact IH|done|done|apply (vset_length _ _ _ _ Hv)].
  - unfold erase_blacklist. destruct (negb _); [done|]. destruct (vset _ _ _) as [st|] eqn:Hv; [|done]. by eapply blacklist_inv; [exact IH|done|done|apply (vset_length _ _ _ _ Hv)].
  - unfold set_blacklist_max_mshrs. destruct (negb _); [done|]. destruct (vset _ _ _) as [st|] eqn:Hv; [|done]. by eapply blacklist_inv; [exact IH|done|apply (vset_length _ _ _ _ Hv)|done].
  - by eapply bhl_inv_ext; [exact IH|by split_and!|..].
Qed.

(** C14. In every run of the cache in which a completion of an outstanding miss comes
    from the core that owns the miss, and no flush hits a line that is waiting for
    memory: the counter of each core is exactly the number of outstanding misses it
    owns, and there are never more misses than entries; every request and every
    completion is handled; and a request of a blacklisted core whose outstanding
    misses reached a positive limit allocates no new miss.  Sizes are powers of two. *)
Theorem bh_llc_limits_sources (l : BHO3LLC) (owners : list Z) :
  bhl_reach l owners ->
  length owners = length (bl_mshrs l) /\ Z.of_nat (length owners) <= bl_num_mshrs l /\
  (forall c, 0 <= c < bl_num_cores l -> vget (bl_allocated_mshrs l) c = Ok (owned c owners)) /\
  (forall r, exists l', BHLLC_receive l r = Ok l') /\
  (forall clk r, exists ok r' l', BHLLC_send clk l r = Ok (ok, r', l') /\
     (0 <= source_id r < bl_num_cores l -> vget (bl_blacklist_status l) (source_id r) = Ok true ->
      0 < get_blacklist_max_mshrs l (source_id r) <= owned (source_id r) owners -> length (bl_mshrs l') = length (bl_mshrs l))).
Proof.
  intros HI%bh_reach_inv. pose proof (bv_owners _ _ HI) as Ho. pose proof (lw_mlen _ (bv_lines _ _ HI)) as Hm. cbn in Hm. split_and!; [done|by rewrite Ho| | |].
  - intros c Hc. destruct (bv_cores _ _ HI) as (L1 & _). destruct (vget_in_range (bl_allocated_mshrs l) c) as [n Hn]; [lia|].
    by rewrite Hn, (bv_allocated _ _ HI _ _ Hn).
  - intros r. destruct (receive_ok l owners r HI) as (l' & Hr & _). by exists l'.
  - intros clk r. destruct (send_ok clk l owners r HI) as (ok & r' & l' & Hs & Hc). exists ok, r', l'. split; [done|]. intros Hsrc Hst Hcap.
    destruct Hc as [[E _]|(_ & _ & Hov)]; [done|]. destruct (over_cap_ok l owners (source_id r) HI) as (b & Hb & Ht).
    rewrite Hb in Hov. injection Hov as ->. discriminate Ht; [|done|done]. unfold is_core. lia.
Qed.

(** ** BlockHammer on concrete inputs

    A controller and a cache on which the witnesses evaluate, and the cases in which
    the throttling does not do what it is meant to do. *)
(** ** The controller: one activation makes a row hot *)
Definition bh_params : BHParams := mkBHParams 2 100 16 1 2 1 4 100 10.

Definition empty_bhllc : BHO3LLC := mkBHLLC 0 0 0 0 0 0 0 0 0 ∅ 0 [] ∅ [] [] [] [] [] ∅.
Definition bhllc_or (r : result BHO3LLC) : BHO3LLC := match r with Ok l => l | Err _ => empty_bhllc end.

(** Two cores, one set of two lines, two miss entries. *)
Definition bhl0 : BHO3LLC := bhllc_or (BHLLC_init 10 128 64 2 2 2).

Definition empty_bh : BHState := mkBHState 0 0 0 [] [] [] (mkThrottler 0 0 0 0 0 0 0 []).
Definition bh_ctrl0 : BlockHammerController NoRefresh OpenRowPolicy Empty_set :=
  mkBH small_gddr (match BlockHammer_setup (g_ctrl small_gddr) bhl0 bh_params false with Ok s => s | Err _ => empty_bh end).

(** The same controller with a read of row 5 in its queue. *)
Definition bh_base1 : GenericDDR NoRefresh OpenRowPolicy Empty_set :=
  match send keep_vec (g_ctrl small_gddr) (access Read 5 0 0 0 5 0) with
  | Ok q => with_base_ctrl small_gddr q.2
  | Err _ => small_gddr
  end.
Definition bh_ctrl1 : BlockHammerController NoRefresh OpenRowPolicy Empty_set := mkBH bh_base1 (bh_state bh_ctrl0).

Definition bh_next (q : BlockHammerController NoRefresh OpenRowPolicy Empty_set * BHO3LLC) :=
  match BlockHammer_tick FRFCFS q.1 q.2 with Ok q => q | Err _ => q end.

Definition bh_ctrl2 := bh_next (bh_ctrl1, bhl0).

Definition act5 : Request := set_command (access Read 5 0 0 0 5 0) 0.

Lemma bh_ctrl2_run : bh_run FRFCFS (m_spec (m_device small_ctrl)) bh_params bh_ctrl2.1 bh_ctrl2.2 [Some (mkAct 0 0 5)].
Proof.
  apply (bhr_cycle FRFCFS _ _ bh_ctrl1 bhl0); [|vm_compute; reflexivity..].
  apply (bhr_environment FRFCFS _ _ bh_ctrl0 bhl0).
  apply (bhr_setup FRFCFS _ _ small_gddr bhl0 false); vm_compute; reflexivity.
Qed.

(** The row just activated is hot, and deferred. *)
Lemma blockhammer_defers_hot_rows_witness :
  exists s, bh_update (bh_state bh_ctrl2.1) = Ok s /\ is_act_safe s (m_device small_ctrl) act5 = Ok false.
Proof.
  destruct (blockhammer_defers_hot_rows FRFCFS _ bh_params bh_ctrl2.1 bh_ctrl2.2 _ 120 36 bh_ctrl2_run) as (s & Hs & Hj & _);
    [vm_compute; reflexivity..|split; vm_compute; try split; congruence|vm_compute; reflexivity|].
  exists s. split; [exact Hs|]. vm_compute in Hs. injection Hs as <-.
  destruct (Hj (m_device small_ctrl) act5 0 0 5) as (v & Hv & _ & He); [vm_compute; try split; (reflexivity || congruence)..|].
  rewrite Hv, He; [vm_compute; reflexivity|lia|vm_compute; reflexivity|vm_compute; congruence].
Defined.

(** ** The history forgets a recent activation

    With four slots: an activation in cycle 1 leaves the history in cycle 5, but its
    entry stays in the slot; an activation of the same row in cycle 7 is still in the
    window in cycle 9, when the stale entry is decremented a second time. *)
Definition hb_steps (h : HistoryBuffer) (log : list (option Z)) : result HistoryBuffer :=
  foldM (fun h o => h ← hb_update h; match o with None => Ok h | Some e => hb_insert h e end) h log.

Lemma history_forgets_recent :
  let log := [Some 7; None; None; None; None; None; Some 7; None; None] in
  exists h, hb_steps (HB_init 4 1) log = Ok h /\ hb_search h 7 = false /\ cnt 7 (take 4 (rev log)) = 1.
Proof. cbn zeta. eexists. split_and!; vm_compute; reflexivity. Qed.

(** ** The cache *)
Definition read_of (core a : Z) : Request :=
  mkRequest a (-1) [] Read core (-1) (-1) 0 (-1) (-1) (-1) (-1) false (-1) (-1) (Some cb_frontend).

Definition after_send (clk : Clk_t) (l : BHO3LLC) (r : Request) : BHO3LLC :=
  match BHLLC_send clk l r with Ok (_, _, l) => l | Err _ => l end.

(** Core 0 has one outstanding miss and may have one. *)
Definition bhl1 : BHO3LLC := after_send 1 bhl0 (read_of 0 0).
Definition bhl2 : BHO3LLC := set_blacklist_max_mshrs (add_blacklist bhl1 0) 0 1.

Lemma bhl2_reach : bhl_reach bhl2 [0].
Proof.
  apply bl_limits, bl_lists. change [0] with (if (length (bl_mshrs bhl1) =? length (bl_mshrs bhl0))%nat then [] else [] ++ [source_id (read_of 0 0)]).
  apply (bl_sends 1 bhl0 [] (read_of 0 0) true (match BHLLC_send 1 bhl0 (read_of 0 0) with Ok (_, r, _) => r | Err _ => read_of 0 0 end)).
  - apply (bl_start 10 6 0 64 2 2 2); try (vm_compute; reflexivity || split; congruence); lia.
  - vm_compute. reflexivity.
Qed.

(** Its next miss is turned away. *)
Lemma bh_llc_limits_sources_witness :
  exists ok r' l', BHLLC_send 2 bhl2 (read_of 0 4096) = Ok (ok, r', l') /\ length (bl_mshrs l') = 1%nat.
Proof.
  destruct (bh_llc_limits_sources bhl2 [0] bhl2_reach) as (_ & _ & _ & _ & Hs). destruct (Hs 2 (read_of 0 4096)) as (ok & r' & l' & Hsend & Hn).
  exists ok, r', l'. split; [exact Hsend|]. rewrite Hn; vm_compute; (reflexivity || split; congruence).
Defined.

(** A limit of zero is no limit: the controller computes it for a source whose
    likelihood index reached one, and the cache accepts its misses again. *)
Lemma worst_source_unlimited :
  mshr_cap 16 (f32_of_Z 1) = Ok 0 /\
  exists r' l', BHLLC_send 2 (set_blacklist_max_mshrs bhl2 0 0) (read_of 0 4096) = Ok (true, r', l') /\ length (bl_mshrs l') = 2%nat.
Proof. split; [vm_compute; reflexivity|]. do 2 eexists. split; vm_compute; reflexivity. Qed.

(** Flushing a line that waits for memory leaves its miss entry pointing nowhere: the
    completion is undefined. *)
Lemma flush_in_flight_undefined :
  (clflush 2 bhl1 0).1 = true /\ BHLLC_receive (clflush 2 bhl1 0).2 (read_of 0 0) = Err Undef.
Proof. split; vm_compute; reflexivity. Qed.

(** ** A hit completes a miss of another core

    One line.  Core 0 hits address 0; while that hit waits for the cache latency, core
    1 reads address 64, which evicts the line, and then address 0 again, which misses.
    When the hit of core 0 is delivered, it takes the miss entry and the waiting
    list of address 0: core 1 is not woken, neither then nor when memory answers. *)
Definition no_translation (t : unit) (r : Request) : result (bool * Request * unit) := Ok (true, r, t).

Definition bho3_0 : BHO3 unit :=
  match BHO3_init (mkBHO3Config 10 0 [[mkInst 0 0 (-1)]; [mkInst 0 64 (-1); mkInst 0 0 (-1)]] 1 4 5 64 1 32 2 0 []) tt with
  | Ok f => f | Err _ => mkBHO3 0 empty_bhllc [] tt end.

(** A tick of one core, then the memory's answers. *)
Definition core_step (clk : Clk_t) (i : nat) (answers : list Request) (f : BHO3 unit) : result (BHO3 unit) :=
  f ← bh_tick_core no_translation (mkBHO3 clk (bh_llc f) (bh_cores f) (bh_translation f)) i;
  foldM BHO3_receive f answers.

Definition lost_wakeup : result (BHO3 unit) :=
  f ← core_step 1 0 [read_of 0 0] bho3_0;
  f ← core_step 2 0 [] f;
  f ← core_step 3 1 [read_of 1 64] f;
  f ← core_step 4 1 [] f;
  f ← bh_tick_hits (bl_hit_list (bh_llc f)) [] (mkBHO3 10 (bh_llc f) (bh_cores f) (bh_translation f));
  BHO3_receive f (read_of 1 0).

Lemma hit_steals_miss :
  exists f c, lost_wakeup = Ok f /\ bl_mshrs (bh_llc f) = [] /\ bl_hit_list (bh_llc f) = [] /\ bl_receive_requests (bh_llc f) !! 0 = Some [] /\
    bh_cores f !! 1%nat = Some c /\ bw_load (bc_window c) = 1 /\ vget (bw_addr_list (bc_window c)) (bw_tail_idx (bc_window c)) = Ok 0 /\
    vget (bw_ready_list (bc_window c)) (bw_tail_idx (bc_window c)) = Ok false /\ bl_allocated_mshrs (bh_llc f) = [0; 1].
Proof. do 2 eexists. split_and!; vm_compute; reflexivity. Qed.
