(* ===== verification/Recipe.v ===== *)
(** * Address recipes of the traffic generators

    [frontend/lat_tp_addresses.h] and the address arithmetic the generators share:
    a request is aimed at device coordinates, obtained from a flat bank number, a
    row and a burst slot.  The geometry comes from the configuration; the random
    generator with its distributions is a parameter. *)

From Stdlib Require Import ZArith Lia.
From S2P Require Import Prelude Base.

Local Open Scope Z_scope.

(** The address generation recipe of the configuration. *)
Record Recipe := mkRecipe {
  rc_addr_vec_size : Z;
  rc_bank_positions : list Z;
  rc_bank_counts : list Z;
  rc_total_bank_units : Z;
  rc_row_pos : Z;
  rc_col_pos : Z;
  rc_num_rows : Z;
  rc_num_cols : Z;
  rc_internal_prefetch_size : Z;
  rc_num_cls : Z
}.

(** A random engine, drawn from through [uniform_int_distribution<int>(lo, hi)]. *)
Class RandomEngine (G : Type) := draw_int : G -> Z -> Z -> Z * G.

(** What the standard guarantees of a draw. *)
Class RandomEngineLaws (G : Type) `{RandomEngine G} :=
  draw_in_range g lo hi : lo <= hi -> lo <= (draw_int g lo hi).1 <= hi.

(** A distribution whose bounds are the wrong way round is undefined. *)
Definition uniform_int {G} `{RandomEngine G} (g : G) (lo hi : Z) : result (Z * G) :=
  if hi <? lo then Err Undef else Ok (draw_int g lo hi).

(** Mixed-radix decomposition: the last position cycles fastest. *)
Definition put_digit (positions counts : list Z) (st : AddrVec_t * Z) (i : Z) : result (AddrVec_t * Z) :=
  c ← vget counts i;
  d ← rem_s st.2 c;
  p ← vget positions i;
  av ← vset st.1 p d;
  flat ← quot_s st.2 c;
  Ok (av, flat).

Definition decompose_bank (positions counts : list Z) (flat : Z) (av : AddrVec_t) : result AddrVec_t :=
  st ← foldM (put_digit positions counts) (av, flat) (reverse (seqZ 0 (Z.of_nat (length positions))));
  Ok st.1.

(** Its inverse, in [int]. *)
Definition add_digit (positions counts : list Z) (av : AddrVec_t) (bank i : Z) : result Z :=
  c ← vget counts i;
  t ← s32 (bank * c);
  p ← vget positions i;
  x ← vget av p;
  s32 (t + x).

Definition bank_flat (positions counts : list Z) (av : AddrVec_t) : result Z :=
  foldM (add_digit positions counts av) 0 (seqZ 0 (Z.of_nat (length positions))).

(** By how much [stagger] moves a bank within its rows. *)
Definition stagger_offset (units stream_cls flat : Z) : result Z :=
  let u := wrap_u 64 units in
  let c := wrap_u 64 stream_cls in
  banks_per_phase ← quot_u (wrap_u 64 (u + c - 1)) c;
  if units <=? stream_cls then quot_u (wrap_u 64 (wrap_u 64 flat * c)) u
  else ph ← quot_u (wrap_u 64 flat) banks_per_phase; rem_u ph c.

Definition streaming (idx size : Z) (positions counts : list Z) (units row_pos col_pos rows prefetch stream_cls : Z)
  (stagger : bool) : result AddrVec_t :=
  av ← vec_make size 0;
  let u := wrap_u 64 units in
  let c := wrap_u 64 stream_cls in
  f ← rem_u idx u;
  let flat := wrap_s 32 f in
  loc ← quot_u idx u;
  loc ← (if stagger && (0 <? stream_cls) then off ← stagger_offset units stream_cls flat; Ok (wrap_u 64 (loc + off))
         else Ok loc);
  av ← decompose_bank positions counts flat av;
  r ← quot_u loc c;
  row ← rem_u r (wrap_u 64 rows);
  av ← vset av row_pos (wrap_s 32 row);
  k ← rem_u loc c;
  col ← s32 (wrap_s 32 k * prefetch);
  vset av col_pos col.

Definition draw_digit {G} `{RandomEngine G} (positions counts : list Z) (st : AddrVec_t * G) (i : Z) : result (AddrVec_t * G) :=
  c ← vget counts i;
  d ← uniform_int st.2 0 (c - 1);
  p ← vget positions i;
  av ← vset st.1 p d.1;
  Ok (av, d.2).

Definition random {G} `{RandomEngine G} (rng : G) (size : Z) (positions counts : list Z)
  (row_pos col_pos rows cls prefetch : Z) : result (AddrVec_t * G) :=
  av ← vec_make size 0;
  st ← foldM (draw_digit positions counts) (av, rng) (seqZ 0 (Z.of_nat (length positions)));
  row ← uniform_int st.2 0 (rows - 1);
  av ← vset st.1 row_pos row.1;
  k ← uniform_int row.2 0 (cls - 1);
  col ← s32 (k.1 * prefetch);
  av ← vset av col_pos col;
  Ok (av, k.2).

(** [append]: one more digit of a physical address, in 64-bit unsigned arithmetic
    and within [Addr_t]. *)
Definition addr_max : Z := 2 ^ 63 - 1.

Definition append (line count value : Z) : result Z :=
  let count := wrap_u 64 count in
  let value := wrap_u 64 value in
  if (count =? 0) || (count <=? value) || (wrap_u 64 (addr_max - value) / count <? line)
  then Err (Throw "Lat-Tp: physical address exceeds its geometry")
  else Ok (wrap_u 64 (line * count + value)).

Definition physical_byte_address (av : AddrVec_t) (levels : list Z) (row_pos col_pos rows cls prefetch tx_bytes : Z)
  : result Addr_t :=
  row ← vget av row_pos;
  a0 ← vget av 0;
  col ← vget av col_pos;
  bad ← (if negb (a0 =? 0) || (row <? 0) || (rows <=? row) || (col <? 0) then Ok true
         else q ← rem_s col prefetch; Ok (negb (q =? 0)));
  if (bad : bool) then Err (Throw "Lat-Tp: invalid single-channel physical address")
  else
    line ← foldM (fun line position =>
                    n ← vget levels position;
                    x ← vget av position;
                    append line n x) (wrap_u 64 row) (reverse (seqZ 1 (row_pos - 1)));
    slot ← quot_s col prefetch;
    line ← append line cls slot;
    if (tx_bytes <=? 0) || not_pow2 tx_bytes then Err (Throw "Lat-Tp: unsupported transaction size")
    else
      line ← append line tx_bytes 0;
      Ok (wrap_s 64 line).
