(* ===== verification/LatTp.v ===== *)
(** * The latency-throughput frontend

    [frontend/impl/memory_trace/latency_throughput_trace.cpp]: a stream of requests at
    an adjustable rate, alternating with dependent probe reads whose latency is
    measured.  The closures of the requests are [cb_probe] and [cb_stream]; callbacks
    fired by a memory operation run right after it.  [draw_int] is the random engine
    with its distributions, [ms_reset_stats] the statistics reset of the memory
    system. *)

From Stdlib Require Import ZArith Lia SpecFloat.
From S2P Require Import Prelude Base Controller MemSystem Latency Elision Simulation Recipe.

Local Open Scope Z_scope.

(** [IMemorySystem::reset_stats_recursive]. *)
Class MemoryStats (M : Type) := ms_reset_stats : M -> M.

(** The system resets its own statistics, then each component its own. *)
Definition reset_stats_recursive {C Mp} (reset_stats : C -> C) (s : GenericDRAMSystem C Mp) : GenericDRAMSystem C Mp :=
  let s := system_reset_stats s in
  mkSystem (s_mapper s) (reset_stats <$> m_controllers s) (m_next_admission_ordinal s) (m_tx_bytes s)
    (s_num_read_requests s) (s_num_write_requests s).

Inductive LatencyMeasureMode := RandomProbe | StreamOnly.
#[export] Instance LatencyMeasureMode_eq_dec : EqDecision LatencyMeasureMode.
Proof. solve_decision. Defined.

(** The parameters [init] reads. *)
Record LTParams := mkLTParams {
  lp_nop_counter : Z;
  lp_num_probe_requests : Z;
  lp_latency_measure_mode : string;
  lp_latency_sample_count : Z;
  lp_streaming_only : bool;
  lp_num_streaming_requests : Z;
  lp_stream_cls : Z;
  lp_stagger_stream_rows : bool;
  lp_warmup_cycles : Z;
  lp_read_ratio : Z;
  lp_address_encoding : string;
  lp_recipe : Recipe
}.

(** What [init] fixes. *)
Record LTConfig := mkLTConfig {
  lt_recipe : Recipe;
  lt_stream_cls : Z;
  lt_stagger_stream_rows : bool;
  lt_physical_byte_addresses : bool;
  lt_physical_level_counts : list Z;
  lt_nop_counter : Z;
  lt_read_ratio : Z;
  lt_streaming_only : bool;
  lt_num_streaming_requests : Z;
  lt_num_probe_requests : Z;
  lt_mode : LatencyMeasureMode;
  lt_latency_sample_count : Z;
  lt_warmup_cycles : Z;
  lt_warmup_enabled : bool
}.

Record LTStats := mkLTStats {
  s_streaming_sent : Z;
  s_latency_samples_completed : Z;
  s_probes_completed : Z;
  s_total_probe_latency : Z;
  s_avg_probe_latency : spec_float;
  s_stream_latency_samples_completed : Z;
  s_total_stream_latency : Z;
  s_avg_stream_latency : spec_float
}.

(** Rate control and probe turns. *)
Record LTTurn := mkLTTurn { lt_curr_nop : Z; lt_issue_probe : bool }.

Section lattp.
Context {G M : Type} `{RandomEngine G} `{IMemorySystem M} `{Callbacks M} `{MemoryStats M}.

Record LatTp := mkLatTp {
  lt_cfg : LTConfig;
  lt_clk : Clk_t;
  lt_turn : LTTurn;
  lt_streaming_idx : Z;
  lt_warmup_reset_done : bool;
  lt_probe_inflight : bool;
  lt_stream_latency_samples_inflight : Z;
  lt_retry_stream_req_tracks_latency : bool;
  lt_retry_stream_req : option Request;
  lt_retry_probe_req : option Request;
  lt_rng : G;
  lt_stats : LTStats
}.

Definition lt_set_turn (f : LatTp) (t : LTTurn) : LatTp :=
  mkLatTp (lt_cfg f) (lt_clk f) t (lt_streaming_idx f) (lt_warmup_reset_done f) (lt_probe_inflight f)
    (lt_stream_latency_samples_inflight f) (lt_retry_stream_req_tracks_latency f) (lt_retry_stream_req f)
    (lt_retry_probe_req f) (lt_rng f) (lt_stats f).
Definition lt_set_clk (f : LatTp) (clk : Clk_t) : LatTp :=
  mkLatTp (lt_cfg f) clk (lt_turn f) (lt_streaming_idx f) (lt_warmup_reset_done f) (lt_probe_inflight f)
    (lt_stream_latency_samples_inflight f) (lt_retry_stream_req_tracks_latency f) (lt_retry_stream_req f)
    (lt_retry_probe_req f) (lt_rng f) (lt_stats f).
Definition lt_set_probe (f : LatTp) (inflight : bool) (retry : option Request) (rng : G) : LatTp :=
  mkLatTp (lt_cfg f) (lt_clk f) (lt_turn f) (lt_streaming_idx f) (lt_warmup_reset_done f) inflight
    (lt_stream_latency_samples_inflight f) (lt_retry_stream_req_tracks_latency f) (lt_retry_stream_req f)
    retry rng (lt_stats f).
Definition lt_set_stream (f : LatTp) (idx inflight : Z) (tracks : bool) (retry : option Request) (rng : G) : LatTp :=
  mkLatTp (lt_cfg f) (lt_clk f) (lt_turn f) idx (lt_warmup_reset_done f) (lt_probe_inflight f)
    inflight tracks retry (lt_retry_probe_req f) rng (lt_stats f).
Definition lt_set_stats (f : LatTp) (reset_done : bool) (s : LTStats) : LatTp :=
  mkLatTp (lt_cfg f) (lt_clk f) (lt_turn f) (lt_streaming_idx f) reset_done (lt_probe_inflight f)
    (lt_stream_latency_samples_inflight f) (lt_retry_stream_req_tracks_latency f) (lt_retry_stream_req f)
    (lt_retry_probe_req f) (lt_rng f) s.
Definition set_issue_probe (f : LatTp) (b : bool) : LatTp := lt_set_turn f (mkLTTurn (lt_curr_nop (lt_turn f)) b).

(** ** Configuration *)
Definition power_of_two (value : Z) : bool := (0 <? value) && negb (not_pow2 value).

Definition bad_geometry (r : Recipe) : bool :=
  (rc_row_pos r <? 1) || negb (rc_col_pos r =? rc_row_pos r + 1) || negb (rc_addr_vec_size r =? rc_col_pos r + 1) ||
  negb (Nat.eqb (length (rc_bank_positions r)) (length (rc_bank_counts r))) ||
  negb (power_of_two (rc_num_rows r)) || negb (power_of_two (rc_num_cols r)) ||
  negb (power_of_two (rc_internal_prefetch_size r)) || (rc_num_cols r <? rc_internal_prefetch_size r) ||
  negb (rc_num_cls r =? Z.quot (rc_num_cols r) (rc_internal_prefetch_size r)).

(** One entry of the bank recipe. *)
Definition level_step (r : Recipe) (levels : list Z) (i : Z) : result (list Z) :=
  position ← vget (rc_bank_positions r) i;
  bad ← (if (position <=? 0) || (rc_row_pos r <=? position) then Ok true
         else
           n ← vget levels position;
           c ← vget (rc_bank_counts r) i;
           Ok (negb (n =? 0) || negb (power_of_two c)));
  if (bad : bool) then Err (Throw "LatencyThroughputTrace: invalid physical-address bank recipe")
  else
    c ← vget (rc_bank_counts r) i;
    vset levels position c.

(** The bank levels with their sizes; [None] is the legacy encoding. *)
Definition configure_address_encoding (encoding : string) (r : Recipe) : result (option (list Z)) :=
  if bool_decide (encoding = "bank-major-line"%string) then Ok None
  else if negb (bool_decide (encoding = "ro-ba-ra-co-ch-byte"%string))
  then Err (Throw "LatencyThroughputTrace: unsupported address_encoding")
  else if bad_geometry r then Err (Throw "LatencyThroughputTrace: invalid physical-address geometry")
  else
    levels ← vec_make (rc_row_pos r) 0;
    levels ← foldM (level_step r) levels (seqZ 0 (Z.of_nat (length (rc_bank_positions r))));
    _ ← foldM (fun _ position =>
                 n ← vget levels position;
                 if n =? 0 then Err (Throw "LatencyThroughputTrace: incomplete physical-address bank recipe") else Ok ())
          () (seqZ 1 (rc_row_pos r - 1));
    Ok (Some levels).

(** Mode, sample count and number of probes. *)
Definition configure_latency_measurement (p : LTParams) : result (LatencyMeasureMode * Z * Z) :=
  mode ← (if bool_decide (lp_latency_measure_mode p = "random-probe"%string) then Ok RandomProbe
          else if bool_decide (lp_latency_measure_mode p = "stream-only"%string) then Ok StreamOnly
          else Err (Throw ("LatencyThroughputTrace: invalid latency_measure_mode '" +:+ lp_latency_measure_mode p +:+
                     "'; expected 'random-probe' or 'stream-only'")));
  if lp_streaming_only p then
    if bool_decide (mode = StreamOnly)
    then Err (Throw "LatencyThroughputTrace: latency_measure_mode='stream-only' cannot be combined with streaming_only=true")
    else Ok (mode, lp_latency_sample_count p, lp_num_probe_requests p)
  else
    let samples := if bool_decide (mode = RandomProbe) && (lp_latency_sample_count p <=? 0) && (0 <? lp_num_probe_requests p)
                   then lp_num_probe_requests p else lp_latency_sample_count p in
    if samples <=? 0
    then Err (Throw "LatencyThroughputTrace: latency_sample_count must be positive for latency-throughput sweeps")
    else if bool_decide (mode = StreamOnly) && (lp_read_ratio p <=? 0)
    then Err (Throw "LatencyThroughputTrace: latency_measure_mode='stream-only' requires read_ratio > 0")
    else Ok (mode, samples, if bool_decide (mode = RandomProbe) then samples else lp_num_probe_requests p).

Definition zero_stats : LTStats := mkLTStats 0 0 0 0 (S754_zero false) 0 0 (S754_zero false).

(** [init], with the engine seeded. *)
Definition LT_init (p : LTParams) (rng : G) : result LatTp :=
  enc ← configure_address_encoding (lp_address_encoding p) (lp_recipe p);
  q ← configure_latency_measurement p;
  let '(mode, samples, probes) := q in
  if lp_streaming_only p && (lp_num_streaming_requests p <=? 0)
  then Err (Throw "LatencyThroughputTrace: num_streaming_requests must be set when streaming_only=true")
  else
    Ok (mkLatTp
          (mkLTConfig (lp_recipe p) (lp_stream_cls p) (lp_stagger_stream_rows p)
             (bool_decide (is_Some enc)) (default [] enc) (lp_nop_counter p) (lp_read_ratio p) (lp_streaming_only p)
             (lp_num_streaming_requests p) probes mode samples (lp_warmup_cycles p) (0 <? lp_warmup_cycles p))
          0 (mkLTTurn 0 false) 0 false false 0 false None None rng zero_stats).

(** ** Requests *)
Definition cb_probe : Z := 1.
Definition cb_stream : Z := 2.

Definition make_request (c : LTConfig) (tx_bytes : Z) (av : AddrVec_t) (type source : Z) (cb : option Z) : result Request :=
  let r := lt_recipe c in
  b ← bank_flat (rc_bank_positions r) (rc_bank_counts r) av;
  col ← vget av (rc_col_pos r);
  cls ← quot_s col (rc_internal_prefetch_size r);
  t ← s32 (b * rc_num_rows r);
  t ← s32 (t * rc_num_cls r);
  row ← vget av (rc_row_pos r);
  u ← s32 (row * rc_num_cls r);
  t ← s32 (t + u);
  line ← s32 (t + cls);
  a ← (if lt_physical_byte_addresses c
       then physical_byte_address av (lt_physical_level_counts c) (rc_row_pos r) (rc_col_pos r) (rc_num_rows r)
              (rc_num_cls r) (rc_internal_prefetch_size r) tx_bytes
       else Ok line);
  Ok (mkRequest a (-1) av type source (-1) (-1) 0 (-1) tx_bytes (-1) (-1) false (-1) (-1) cb).

Definition streaming_addr_vec (f : LatTp) : result AddrVec_t :=
  let c := lt_cfg f in
  let r := lt_recipe c in
  streaming (lt_streaming_idx f) (rc_addr_vec_size r) (rc_bank_positions r) (rc_bank_counts r) (rc_total_bank_units r)
    (rc_row_pos r) (rc_col_pos r) (rc_num_rows r) (rc_internal_prefetch_size r) (lt_stream_cls c) (lt_stagger_stream_rows c).

Definition random_addr_vec (f : LatTp) : result (AddrVec_t * G) :=
  let r := lt_recipe (lt_cfg f) in
  random (lt_rng f) (rc_addr_vec_size r) (rc_bank_positions r) (rc_bank_counts r)
    (rc_row_pos r) (rc_col_pos r) (rc_num_rows r) (rc_num_cls r) (rc_internal_prefetch_size r).

(** The type of the next request of the stream. *)
Definition stream_type (f : LatTp) : result (Z * G) :=
  if lt_read_ratio (lt_cfg f) <? 100 then
    d ← uniform_int (lt_rng f) 0 99;
    Ok (if d.1 <? lt_read_ratio (lt_cfg f) then Read else Write, d.2)
  else Ok (Read, lt_rng f).

(** ** Statistics and callbacks *)
Definition record_probe_latency (s : LTStats) (done : Request) : LTStats :=
  mkLTStats (s_streaming_sent s) (s_latency_samples_completed s + 1) (s_probes_completed s + 1)
    (s_total_probe_latency s + (depart done - arrive done)) (s_avg_probe_latency s)
    (s_stream_latency_samples_completed s) (s_total_stream_latency s) (s_avg_stream_latency s).

Definition record_stream_latency (s : LTStats) (done : Request) : LTStats :=
  mkLTStats (s_streaming_sent s) (s_latency_samples_completed s + 1) (s_probes_completed s)
    (s_total_probe_latency s) (s_avg_probe_latency s) (s_stream_latency_samples_completed s + 1)
    (s_total_stream_latency s + (depart done - arrive done)) (s_avg_stream_latency s).

Definition count_sent (s : LTStats) : LTStats :=
  mkLTStats (s_streaming_sent s + 1) (s_latency_samples_completed s) (s_probes_completed s)
    (s_total_probe_latency s) (s_avg_probe_latency s) (s_stream_latency_samples_completed s)
    (s_total_stream_latency s) (s_avg_stream_latency s).

Definition f32_div (x y : spec_float) : spec_float := SFdiv 24 128 x y.

Definition LT_update_stats (s : LTStats) : LTStats :=
  mkLTStats (s_streaming_sent s) (s_latency_samples_completed s) (s_probes_completed s) (s_total_probe_latency s)
    (if 0 <? s_probes_completed s then f32_div (f32_of_Z (s_total_probe_latency s)) (f32_of_Z (s_probes_completed s))
     else s_avg_probe_latency s)
    (s_stream_latency_samples_completed s) (s_total_stream_latency s)
    (if 0 <? s_stream_latency_samples_completed s
     then f32_div (f32_of_Z (s_total_stream_latency s)) (f32_of_Z (s_stream_latency_samples_completed s))
     else s_avg_stream_latency s).

Definition LT_callback (f : LatTp) (done : Request) : result LatTp :=
  match callback done with
  | None => Ok f
  | Some id =>
      if id =? cb_probe then
        Ok (lt_set_probe (lt_set_stats f (lt_warmup_reset_done f) (record_probe_latency (lt_stats f) done))
              false (lt_retry_probe_req f) (lt_rng f))
      else if id =? cb_stream then
        Ok (lt_set_stats (lt_set_stream f (lt_streaming_idx f) (lt_stream_latency_samples_inflight f - 1)
                            (lt_retry_stream_req_tracks_latency f) (lt_retry_stream_req f) (lt_rng f))
              (lt_warmup_reset_done f) (record_stream_latency (lt_stats f) done))
      else Err Undef
  end.

(** Send to the memory system and run the callbacks it fires. *)
Definition lt_send (f : LatTp) (m : M) (r : Request) : result (bool * Request * LatTp * M) :=
  q ← ms_send m r;
  let '(ok, r, m) := q in
  let '(done, m) := take_callbacks m in
  f ← foldM LT_callback f done;
  Ok (ok, r, f, m).

(** ** The tick *)
Definition warmup_due (f : LatTp) (clk : Clk_t) : bool :=
  lt_warmup_enabled (lt_cfg f) && negb (lt_warmup_reset_done f) && (lt_warmup_cycles (lt_cfg f) <? clk).

Definition maybe_reset_warmup_stats (f : LatTp) (m : M) : LatTp * M :=
  if warmup_due f (lt_clk f) then (lt_set_stats f true zero_stats, ms_reset_stats m) else (f, m).

(** [tick_nop]: is this turn skipped? *)
Definition tick_nop (f : LatTp) : result (bool * LatTp) :=
  let c := lt_cfg f in
  let t := lt_turn f in
  if lt_issue_probe t then Ok (false, f)
  else
    let is_nop := (1 <? lt_nop_counter c) && negb (lt_curr_nop t =? 0) in
    n ← rem_s (lt_curr_nop t + 1) (lt_nop_counter c);
    Ok (is_nop, lt_set_turn f (mkLTTurn n (if is_nop && bool_decide (lt_mode c = RandomProbe)
                                           then negb (lt_issue_probe t) else lt_issue_probe t))).

Definition warmed_up (f : LatTp) : bool := negb (lt_warmup_enabled (lt_cfg f)) || lt_warmup_reset_done f.
Definition want_probe (f : LatTp) : bool :=
  warmed_up f && (s_probes_completed (lt_stats f) <? lt_latency_sample_count (lt_cfg f)).

Definition tick_probe (f : LatTp) (m : M) : result (LatTp * M) :=
  if negb (want_probe f) then Ok (set_issue_probe f false, m)
  else
    t ← (match lt_retry_probe_req f with
         | Some r => Ok (r, f)
         | None =>
             v ← random_addr_vec f;
             r ← make_request (lt_cfg f) (ms_get_tx_bytes m) v.1 Read 1 (Some cb_probe);
             Ok (r, lt_set_probe f (lt_probe_inflight f) (Some r) v.2)
         end);
    let '(r, f) := t in
    s ← lt_send f m r;
    let '(ok, r, f, m) := s in
    if (ok : bool) then Ok (set_issue_probe (lt_set_probe f true None (lt_rng f)) false, m)
    else Ok (lt_set_probe f (lt_probe_inflight f) (Some r) (lt_rng f), m).

Definition should_sample_stream_latency (f : LatTp) : bool :=
  bool_decide (lt_mode (lt_cfg f) = StreamOnly) && warmed_up f &&
  (s_stream_latency_samples_completed (lt_stats f) + lt_stream_latency_samples_inflight f <?
   lt_latency_sample_count (lt_cfg f)).

(** The next request of the stream, unless one waits; [sample] says whether reads
    may be sampled. *)
Definition next_stream_req (sample : bool) (f : LatTp) (m : M) : result (Request * LatTp) :=
  match lt_retry_stream_req f with
  | Some r => Ok (r, f)
  | None =>
      t ← stream_type f;
      let '(type, g) := t in
      av ← streaming_addr_vec f;
      let tracks := sample && (type =? Read) && should_sample_stream_latency f in
      r ← make_request (lt_cfg f) (ms_get_tx_bytes m) av type 0 (if tracks then Some cb_stream else None);
      Ok (r, lt_set_stream f (lt_streaming_idx f) (lt_stream_latency_samples_inflight f)
               (if sample then tracks else lt_retry_stream_req_tracks_latency f) (Some r) g)
  end.

Definition tick_stream_only (f : LatTp) (m : M) : result (LatTp * M) :=
  t ← next_stream_req false f m;
  let '(r, f) := t in
  s ← lt_send f m r;
  let '(ok, r, f, m) := s in
  if (ok : bool) then
    Ok (lt_set_stats (lt_set_stream f (lt_streaming_idx f + 1) (lt_stream_latency_samples_inflight f)
                        (lt_retry_stream_req_tracks_latency f) None (lt_rng f))
          (lt_warmup_reset_done f) (count_sent (lt_stats f)), m)
  else Ok (lt_set_stream f (lt_streaming_idx f) (lt_stream_latency_samples_inflight f)
             (lt_retry_stream_req_tracks_latency f) (Some r) (lt_rng f), m).

Definition tick_stream (f : LatTp) (m : M) : result (LatTp * M) :=
  t ← next_stream_req true f m;
  let '(r, f) := t in
  s ← lt_send f m r;
  let '(ok, r, f, m) := s in
  if (ok : bool) then
    let inflight := lt_stream_latency_samples_inflight f + (if lt_retry_stream_req_tracks_latency f then 1 else 0) in
    let f := lt_set_stats (lt_set_stream f (lt_streaming_idx f + 1) inflight false None (lt_rng f))
               (lt_warmup_reset_done f) (count_sent (lt_stats f)) in
    Ok (if bool_decide (lt_mode (lt_cfg f) = RandomProbe) then set_issue_probe f true else f, m)
  else Ok (lt_set_stream f (lt_streaming_idx f) (lt_stream_latency_samples_inflight f)
             (lt_retry_stream_req_tracks_latency f) (Some r) (lt_rng f), m).

Definition LT_tick (f : LatTp) (m : M) : result (LatTp * M) :=
  let f := lt_set_clk f (lt_clk f + 1) in
  let '(f, m) := maybe_reset_warmup_stats f m in
  if lt_streaming_only (lt_cfg f) then tick_stream_only f m
  else
    t ← tick_nop f;
    let '(nop, f) := t in
    if (nop : bool) then Ok (f, m)
    else
      match lt_mode (lt_cfg f) with
      | StreamOnly => tick_stream f m
      | RandomProbe =>
          if lt_issue_probe (lt_turn f) && lt_probe_inflight f then Ok (set_issue_probe f false, m)
          else if lt_issue_probe (lt_turn f) then tick_probe f m
          else tick_stream f m
      end.

(** ** Elision and termination *)

(** [idle_step]: the turn after a tick at [clk], and whether it is idle. *)
Definition idle_step (f : LatTp) (clk : Clk_t) (t : LTTurn) : result (bool * LTTurn) :=
  let c := lt_cfg f in
  if warmup_due f clk then Ok (false, t)
  else if negb (lt_issue_probe t) then
    let is_nop := (1 <? lt_nop_counter c) && negb (lt_curr_nop t =? 0) in
    n ← rem_s (lt_curr_nop t + 1) (lt_nop_counter c);
    if is_nop then Ok (true, mkLTTurn n true) else Ok (false, mkLTTurn n false)
  else if lt_probe_inflight f then Ok (true, mkLTTurn (lt_curr_nop t) false)
  else if negb (want_probe f) then Ok (true, mkLTTurn (lt_curr_nop t) false)
  else Ok (false, t).

(** The loop of [idle_ticks]; each turn of the rate control passes at most twice. *)
Fixpoint idle_loop (fuel : nat) (f : LatTp) (max_useful k : Clk_t) (t : LTTurn) : result Clk_t :=
  match fuel with
  | O => Err OutOfFuel
  | S fuel =>
      if k <? max_useful then
        s ← idle_step f (lt_clk f + k + 1) t;
        let '(idle, t) := s in
        if (idle : bool) then idle_loop fuel f max_useful (k + 1) t else Ok k
      else Ok k
  end.

Definition idle_fuel (f : LatTp) : nat := Z.to_nat (2 * Z.abs (lt_nop_counter (lt_cfg f)) + 4).

Definition LT_idle_ticks (f : LatTp) (max_useful : Clk_t) : result Clk_t :=
  if lt_streaming_only (lt_cfg f) || negb (bool_decide (lt_mode (lt_cfg f) = RandomProbe)) then Ok 0
  else if bool_decide (is_Some (lt_retry_stream_req f)) || bool_decide (is_Some (lt_retry_probe_req f)) then Ok 0
  else idle_loop (idle_fuel f) f max_useful 0 (lt_turn f).

Definition ff_step (f : LatTp) : result LatTp :=
  let f := lt_set_clk f (lt_clk f + 1) in
  s ← idle_step f (lt_clk f) (lt_turn f);
  Ok (lt_set_turn f s.2).

Definition LT_fast_forward (f : LatTp) (ticks : Clk_t) : result LatTp := iterM (Z.to_nat ticks) ff_step f.

Definition LT_is_finished (f : LatTp) : result bool :=
  let c := lt_cfg f in
  if lt_warmup_enabled c && negb (lt_warmup_reset_done f) then Ok false
  else if lt_streaming_only c then Ok (lt_num_streaming_requests c <=? wrap_s 32 (s_streaming_sent (lt_stats f)))
  else Ok (lt_latency_sample_count c <=? s_latency_samples_completed (lt_stats f)).

#[export] Instance LT_frontend : IFrontEnd LatTp M := {|
  f_tick := LT_tick;
  f_receive := LT_callback;
  f_is_finished := LT_is_finished;
  f_idle_ticks := LT_idle_ticks;
  f_fast_forward := LT_fast_forward
|}.
End lattp.
Arguments LatTp : clear implicits.
