(* ===== verification/LatTpProps.v ===== *)
(** * Properties of the latency-throughput frontend

    The shadow machine of [idle_ticks] and [fast_forward] against the tick it
    mirrors: the frontend keeps the elision contract, so that the theorems on the
    simulation loop apply to it. *)

From Stdlib Require Import ZArith Lia SpecFloat.
From S2P Require Import Prelude Base Controller MemSystem Latency Elision Simulation Recipe LatTp.

Local Open Scope Z_scope.

(** The statistics of a memory system do not hold callbacks back. *)
Class MemoryStatsLaws (M : Type) `{Callbacks M} `{MemoryStats M} :=
  reset_stats_drained (m : M) : drained m -> drained (ms_reset_stats m).

Lemma rem_s_nonneg (a b : Z) : 0 <= a < 2 ^ 31 -> b <> 0 -> rem_s a b = Ok (Z.rem a b).
Proof.
  intros Ha Hb. unfold rem_s, s32. rewrite (proj2 (Z.eqb_neq b 0)) by done.
  assert (Z.abs (Z.quot a b) <= a) as Hq.
  { rewrite <- Z.quot_abs by done. rewrite (Z.abs_eq a) by lia. rewrite Z.quot_div_nonneg by lia. apply Z.div_le_upper_bound; nia. }
  by replace ((- 2 ^ 31 <=? Z.quot a b) && (Z.quot a b <? 2 ^ 31)) with true by lia.
Qed.

Section elision.
Context {G M : Type} `{RandomEngine G} `{HM : IMemorySystem M} `{HC : Callbacks M} `{HS : MemoryStats M}.
Implicit Types (f : LatTp G) (m : M) (t : LTTurn).

(** ** The invariant: the rate counter stays within its period. *)
Definition turn_ok (N : Z) (t : LTTurn) : Prop := 0 <= lt_curr_nop t < Z.abs N.

Definition lt_inv (f : LatTp G) : Prop :=
  Z.abs (lt_nop_counter (lt_cfg f)) < 2 ^ 31 /\ turn_ok (lt_nop_counter (lt_cfg f)) (lt_turn f).

Lemma next_nop (N : Z) (t : LTTurn) :
  Z.abs N < 2 ^ 31 -> turn_ok N t ->
  rem_s (lt_curr_nop t + 1) N = Ok (Z.rem (lt_curr_nop t + 1) N) /\ 0 <= Z.rem (lt_curr_nop t + 1) N < Z.abs N.
Proof.
  intros HN Ht. unfold turn_ok in Ht. split; [apply rem_s_nonneg; lia|].
  pose proof (Z.rem_bound_abs (lt_curr_nop t + 1) N ltac:(lia)). pose proof (Z.rem_nonneg (lt_curr_nop t + 1) N). lia.
Qed.

Lemma callback_frame f f' (r : Request) :
  LT_callback f r = Ok f' -> lt_cfg f' = lt_cfg f /\ lt_turn f' = lt_turn f.
Proof. unfold LT_callback. repeat case_match; intros [= <-]; done. Qed.

Lemma callbacks_frame f f' (l : list Request) :
  foldM LT_callback f l = Ok f' -> lt_cfg f' = lt_cfg f /\ lt_turn f' = lt_turn f.
Proof.
  revert f. induction l as [|r l IH]; intros f Hl; [by injection Hl as <-|].
  apply bind_Ok in Hl as (f1 & H1 & Hl). apply callback_frame in H1 as [E1 E2]. apply IH in Hl as [E3 E4]. split; congruence.
Qed.

Lemma lattp_inv_frame f f' : lt_cfg f' = lt_cfg f -> lt_turn f' = lt_turn f -> lt_inv f -> lt_inv f'.
Proof. unfold lt_inv. by intros -> ->. Qed.

(** A probe turn changes the flag only. *)
Lemma inv_issue_probe f (b : bool) : lt_inv f -> lt_inv (set_issue_probe f b).
Proof. done. Qed.

Lemma lattp_init_inv (p : LTParams) (g : G) f :
  0 < Z.abs (lp_nop_counter p) < 2 ^ 31 -> LT_init p g = Ok f -> lt_inv f.
Proof.
  intros HN (enc & _ & (q & _ & Hi)%bind_Ok)%bind_Ok. destruct q as [[mode samples] probes].
  destruct (_ && _); [done|]. injection Hi as <-. split; cbn; [lia|]. unfold turn_ok. cbn. lia.
Qed.

Section ticks.
Context `{LM : !MemoryElision M} `{LS : !MemoryStatsLaws M}.

Lemma lt_send_frame f m (r : Request) (q : bool * Request * LatTp G * M) :
  lt_send f m r = Ok q -> lt_cfg q.1.2 = lt_cfg f /\ lt_turn q.1.2 = lt_turn f /\ drained q.2.
Proof.
  unfold lt_send. intros (s & _ & Hq)%bind_Ok. destruct s as [[ok r'] m1]. destruct (take_callbacks m1) as [l m2] eqn:Et.
  apply bind_Ok in Hq as (f1 & Hf & [= <-]). cbn. apply callbacks_frame in Hf as [E1 E2]. split_and!; [done|done|].
  by eapply ms_take_drained.
Qed.

Lemma next_stream_frame (sample : bool) f m (q : Request * LatTp G) :
  next_stream_req sample f m = Ok q -> lt_cfg q.2 = lt_cfg f /\ lt_turn q.2 = lt_turn f.
Proof.
  unfold next_stream_req. destruct (lt_retry_stream_req f); [by intros [= <-]|].
  intros ([type g] & _ & Hq)%bind_Ok. apply bind_Ok in Hq as (av & _ & Hq). apply bind_Ok in Hq as (r & _ & [= <-]). done.
Qed.

Lemma tick_stream_inv f f' m m' : lt_inv f -> tick_stream f m = Ok (f', m') -> lt_inv f' /\ drained m'.
Proof.
  intros HI ([r f1] & H1 & Hs)%bind_Ok. apply next_stream_frame in H1 as [E1 E2]. cbn in E1, E2.
  apply bind_Ok in Hs as (s & H2 & Hs). apply lt_send_frame in H2 as (E3 & E4 & Hd). destruct s as [[[ok r2] f2] m2]. cbn in *.
  assert (lt_inv f2) as HI2 by (eapply lattp_inv_frame; [| |exact HI]; congruence).
  destruct ok; [destruct (bool_decide _)|]; injection Hs as <- <-; done.
Qed.

Lemma tick_stream_only_inv f f' m m' : lt_inv f -> tick_stream_only f m = Ok (f', m') -> lt_inv f' /\ drained m'.
Proof.
  intros HI ([r f1] & H1 & Hs)%bind_Ok. apply next_stream_frame in H1 as [E1 E2]. cbn in E1, E2.
  apply bind_Ok in Hs as (s & H2 & Hs). apply lt_send_frame in H2 as (E3 & E4 & Hd). destruct s as [[[ok r2] f2] m2]. cbn in *.
  assert (lt_inv f2) as HI2 by (eapply lattp_inv_frame; [| |exact HI]; congruence).
  destruct ok; injection Hs as <- <-; done.
Qed.

Lemma tick_probe_inv f f' m m' : lt_inv f -> drained m -> tick_probe f m = Ok (f', m') -> lt_inv f' /\ drained m'.
Proof.
  intros HI Hm. unfold tick_probe. destruct (negb _); [by intros [= <- <-]|].
  intros ([r f1] & H1 & Hs)%bind_Ok. assert (lt_cfg f1 = lt_cfg f /\ lt_turn f1 = lt_turn f) as [E1 E2].
  { destruct (lt_retry_probe_req f); [by injection H1 as <- <-|]. apply bind_Ok in H1 as (v & _ & H1).
    by apply bind_Ok in H1 as (r1 & _ & [= <- <-]). }
  apply bind_Ok in Hs as (s & H2 & Hs). apply lt_send_frame in H2 as (E3 & E4 & Hd). destruct s as [[[ok r2] f2] m2]. cbn in *.
  assert (lt_inv f2) as HI2 by (eapply lattp_inv_frame; [| |exact HI]; congruence).
  destruct ok; injection Hs as <- <-; done.
Qed.

Lemma tick_nop_inv f (nop : bool) f' : lt_inv f -> tick_nop f = Ok (nop, f') -> lt_inv f'.
Proof.
  intros [HN Ht]. unfold tick_nop. destruct (lt_issue_probe _); [by intros [= <- <-]|].
  destruct (next_nop _ _ HN Ht) as [-> Hn]. cbn [mbind result_bind]. intros [= <- <-]. done.
Qed.

Lemma LT_tick_inv f f' m m' : lt_inv f -> drained m -> LT_tick f m = Ok (f', m') -> lt_inv f' /\ drained m'.
Proof.
  intros HI Hm. unfold LT_tick. set (f0 := lt_set_clk f _). destruct (maybe_reset_warmup_stats f0 m) as [f1 m1] eqn:E1.
  assert (lt_inv f1 /\ drained m1) as [HI1 Hm1].
  { unfold maybe_reset_warmup_stats in E1. destruct (warmup_due _ _); injection E1 as <- <-; split; try done. by apply LS. }
  destruct (lt_streaming_only _); [by apply tick_stream_only_inv|].
  intros ([nop f2] & H2 & Ht)%bind_Ok. apply tick_nop_inv in H2 as HI2; [|done]. destruct nop; [by injection Ht as <- <-|].
  destruct (lt_mode _); [|by eapply tick_stream_inv].
  destruct (lt_issue_probe _); cbn [andb] in Ht; [|by eapply tick_stream_inv].
  destruct (lt_probe_inflight _); [by injection Ht as <- <-|by eapply tick_probe_inv].
Qed.
End ticks.

(** ** Idle stretches *)

(** [j] idle ticks of the shadow machine after clock [clk]. *)
Fixpoint idle_run (f : LatTp G) (clk : Clk_t) (t : LTTurn) (j : nat) : option LTTurn :=
  match j with
  | O => Some t
  | S j => match idle_step f (clk + 1) t with Ok (true, t) => idle_run f (clk + 1) t j | _ => None end
  end.

(** What a tick skips to. *)
Definition skip_to (f : LatTp G) (clk : Clk_t) (t : LTTurn) : LatTp G := lt_set_turn (lt_set_clk f clk) t.

(** Idle turns left before the next attempt to send. *)
Definition turns_left (N : Z) (t : LTTurn) : Z :=
  (if (1 <? N) && negb (lt_curr_nop t =? 0) then 2 * (N - lt_curr_nop t) else 0) + (if lt_issue_probe t then 1 else 0).

Lemma idle_step_total f (clk : Clk_t) t :
  Z.abs (lt_nop_counter (lt_cfg f)) < 2 ^ 31 -> turn_ok (lt_nop_counter (lt_cfg f)) t ->
  exists b t', idle_step f clk t = Ok (b, t') /\ turn_ok (lt_nop_counter (lt_cfg f)) t' /\
    (b = true -> turns_left (lt_nop_counter (lt_cfg f)) t' < turns_left (lt_nop_counter (lt_cfg f)) t).
Proof.
  intros HN Ht. unfold idle_step. destruct (warmup_due f clk); [by exists false, t|].
  set (N := lt_nop_counter (lt_cfg f)) in *. destruct t as [n pr]. unfold turn_ok, turns_left in *. cbn in *. destruct pr; cbn [negb].
  - destruct (lt_probe_inflight f), (want_probe f); cbn [negb]; eexists _, _; (split; [reflexivity|]); cbn; (split; [lia|]);
      intros; try discriminate; lia.
  - destruct (next_nop N (mkLTTurn n false) HN Ht) as [E Hn]. cbn in E, Hn. rewrite E. cbn [mbind result_bind].
    destruct ((1 <? N) && negb (n =? 0)) eqn:En; eexists _, _; (split; [reflexivity|]); cbn; (split; [lia|]); [|done]. intros _.
    rewrite Z.rem_mod_nonneg in * by lia. destruct (Z.eq_dec (n + 1) N) as [E1|].
    + rewrite E1, Z.mod_same, andb_false_r by lia. lia.
    + rewrite Z.mod_small by lia. destruct ((1 <? N) && negb (n + 1 =? 0)); lia.
Qed.

Lemma idle_loop_ok (fuel : nat) f (u k : Clk_t) t :
  Z.abs (lt_nop_counter (lt_cfg f)) < 2 ^ 31 -> turn_ok (lt_nop_counter (lt_cfg f)) t ->
  turns_left (lt_nop_counter (lt_cfg f)) t + 1 < Z.of_nat fuel ->
  exists n, idle_loop fuel f u k t = Ok n /\ k <= n <= Z.max k u /\
    (forall j : nat, Z.of_nat j <= n - k -> is_Some (idle_run f (lt_clk f + k) t j)) /\
    (n < u -> forall t', idle_run f (lt_clk f + k) t (Z.to_nat (n - k)) = Some t' ->
       exists t'', idle_step f (lt_clk f + n + 1) t' = Ok (false, t'')).
Proof.
  intros HN. revert k t. induction fuel as [|fuel IH]; intros k t Ht Hf.
  { exfalso. unfold turns_left, turn_ok in *. repeat case_match; lia. }
  cbn [idle_loop]. destruct (Z.ltb_spec k u) as [Hu|Hu].
  2:{ exists k. split_and!; [done|lia|lia| |lia]. intros j Hj. by replace j with 0%nat by lia. }
  destruct (idle_step_total f (lt_clk f + k + 1) t HN Ht) as (b & t' & Es & Ht' & Hlt). rewrite Es. cbn [mbind result_bind].
  destruct b.
  - specialize (Hlt eq_refl). destruct (IH (k + 1) t' Ht' ltac:(lia)) as (n & En & Hn & Hr & Hs). exists n.
    split_and!; [done|lia|lia| |].
    + intros [|j] Hj; [done|]. cbn [idle_run]. rewrite Es. rewrite <- Z.add_assoc. apply Hr. lia.
    + intros Hnu t1. replace (Z.to_nat (n - k)) with (S (Z.to_nat (n - (k + 1)))) by lia. cbn [idle_run]. rewrite Es.
      rewrite <- Z.add_assoc. by apply Hs.
  - exists k. split_and!; [done|lia|lia| |].
    + intros j Hj. by replace j with 0%nat by lia.
    + intros _ t1. replace (Z.to_nat (k - k)) with 0%nat by lia. cbn. intros [= <-]. by exists t'.
Qed.

(** One idle tick lands where the shadow machine says, without touching the memory
    system. *)
Lemma idle_tick f m t :
  lt_streaming_only (lt_cfg f) = false -> lt_mode (lt_cfg f) = RandomProbe ->
  idle_step f (lt_clk f + 1) (lt_turn f) = Ok (true, t) -> LT_tick f m = Ok (skip_to f (lt_clk f + 1) t, m).
Proof.
  intros Hso Hmo Hi.
  unfold LT_tick. set (f0 := lt_set_clk f (lt_clk f + 1)). unfold maybe_reset_warmup_stats.
  change (warmup_due f0 (lt_clk f0)) with (warmup_due f (lt_clk f + 1)). unfold idle_step in Hi.
  destruct (warmup_due f (lt_clk f + 1)) eqn:Ew; [done|]. cbn [lt_cfg f0]. change (lt_cfg f0) with (lt_cfg f). rewrite Hso.
  unfold tick_nop. change (lt_cfg f0) with (lt_cfg f). change (lt_turn f0) with (lt_turn f). rewrite Hmo.
  destruct (lt_issue_probe (lt_turn f)) eqn:Ep; cbn [negb] in Hi.
  - cbn [mbind result_bind]. change (lt_cfg f0) with (lt_cfg f). change (lt_turn f0) with (lt_turn f).
    change (lt_probe_inflight f0) with (lt_probe_inflight f). rewrite Hmo, Ep. cbn [andb].
    destruct (lt_probe_inflight f); [by injection Hi as <-|]. unfold tick_probe. change (want_probe f0) with (want_probe f).
    destruct (want_probe f); [done|]. by injection Hi as <-.
  - apply bind_Ok in Hi as (n & -> & Hi). cbn [mbind result_bind]. destruct (_ && _); [|done]. by injection Hi as <-.
Qed.

(** The shadow machine does not look at the clock and turn of the frontend. *)
Lemma idle_run_skip f (c0 c : Clk_t) (t0 t : LTTurn) (j : nat) : idle_run (skip_to f c0 t0) c t j = idle_run f c t j.
Proof.
  revert c t. induction j as [|j IH]; intros c t; [done|]. cbn [idle_run].
  change (idle_step (skip_to f c0 t0) (c + 1) t) with (idle_step f (c + 1) t).
  destruct (idle_step f (c + 1) t) as [[[] t1]|]; [apply IH|done|done].
Qed.

Lemma idle_run_ticks f m (j : nat) t :
  lt_streaming_only (lt_cfg f) = false -> lt_mode (lt_cfg f) = RandomProbe ->
  idle_run f (lt_clk f) (lt_turn f) j = Some t ->
  iterM j (fun fm => LT_tick fm.1 fm.2) (f, m) = Ok (skip_to f (lt_clk f + Z.of_nat j) t, m).
Proof.
  revert f. induction j as [|j IH]; intros f Hso Hmo Hr.
  - cbn in Hr. injection Hr as <-. rewrite Z.add_0_r. by destruct f.
  - cbn [idle_run] in Hr. destruct (idle_step f (lt_clk f + 1) (lt_turn f)) as [[[] t1]|] eqn:Es; try done.
    cbn [iterM fst snd]. rewrite (idle_tick f m t1 Hso Hmo Es). cbn [mbind result_bind].
    replace (Z.of_nat (S j)) with (1 + Z.of_nat j) by lia. rewrite Z.add_assoc.
    rewrite (IH (skip_to f (lt_clk f + 1) t1) Hso Hmo); [done|]. cbn [lt_clk lt_turn skip_to lt_set_turn lt_set_clk].
    by rewrite idle_run_skip.
Qed.

Lemma idle_run_ff f (j : nat) t :
  idle_run f (lt_clk f) (lt_turn f) j = Some t -> iterM j ff_step f = Ok (skip_to f (lt_clk f + Z.of_nat j) t).
Proof.
  revert f. induction j as [|j IH]; intros f Hr.
  - cbn in Hr. injection Hr as <-. rewrite Z.add_0_r. by destruct f.
  - cbn [idle_run] in Hr. destruct (idle_step f (lt_clk f + 1) (lt_turn f)) as [[[] t1]|] eqn:Es; try done.
    assert (ff_step f = Ok (skip_to f (lt_clk f + 1) t1)) as E1.
    { unfold ff_step. set (f0 := lt_set_clk f (lt_clk f + 1)). change (idle_step f0 (lt_clk f0) (lt_turn f0)) with
        (idle_step f (lt_clk f + 1) (lt_turn f)). by rewrite Es. }
    cbn [iterM]. rewrite E1. cbn [mbind result_bind]. replace (Z.of_nat (S j)) with (1 + Z.of_nat j) by lia. rewrite Z.add_assoc.
    rewrite (IH (skip_to f (lt_clk f + 1) t1)); [done|]. cbn [lt_clk lt_turn skip_to lt_set_turn lt_set_clk]. by rewrite idle_run_skip.
Qed.

Lemma idle_run_ok f (j : nat) (c : Clk_t) t t' :
  Z.abs (lt_nop_counter (lt_cfg f)) < 2 ^ 31 -> turn_ok (lt_nop_counter (lt_cfg f)) t ->
  idle_run f c t j = Some t' -> turn_ok (lt_nop_counter (lt_cfg f)) t'.
Proof.
  intros HN. revert c t. induction j as [|j IH]; intros c t Ht; cbn [idle_run]; [by intros [= <-]|].
  destruct (idle_step_total f (c + 1) t HN Ht) as (b & t1 & -> & Ht1 & _). destruct b; [by apply IH|done].
Qed.

(** The modes in which the shadow machine runs. *)
Definition elides (f : LatTp G) : Prop :=
  lt_streaming_only (lt_cfg f) = false /\ lt_mode (lt_cfg f) = RandomProbe /\
  lt_retry_stream_req f = None /\ lt_retry_probe_req f = None.

Lemma elides_dec f :
  elides f \/ (forall u, LT_idle_ticks f u = Ok 0).
Proof.
  unfold elides, LT_idle_ticks. destruct (lt_streaming_only (lt_cfg f)); [by right|]. destruct (lt_mode (lt_cfg f)); [|by right].
  destruct (lt_retry_stream_req f); [by right|]. destruct (lt_retry_probe_req f); [by right|]. by left.
Qed.

Lemma elides_idle f (u : Clk_t) : elides f -> LT_idle_ticks f u = idle_loop (idle_fuel f) f u 0 (lt_turn f).
Proof. intros (E1 & E2 & E3 & E4). unfold LT_idle_ticks. by rewrite E1, E2, E3, E4. Qed.

Lemma idle_ticks_ok f (u : Clk_t) :
  lt_inv f -> exists n, LT_idle_ticks f u = Ok n /\ 0 <= n <= Z.max 0 u /\
    forall k, 0 <= k <= n -> exists t, turn_ok (lt_nop_counter (lt_cfg f)) t /\
      LT_fast_forward f k = Ok (skip_to f (lt_clk f + k) t) /\
      forall m, iterM (Z.to_nat k) (fun fm => LT_tick fm.1 fm.2) (f, m) = Ok (skip_to f (lt_clk f + k) t, m).
Proof.
  intros [HN Ht]. destruct (elides_dec f) as [He|Hn].
  - rewrite (elides_idle _ _ He). destruct (idle_loop_ok (idle_fuel f) f u 0 (lt_turn f) HN Ht) as (n & En & Hb & Hr & _).
    { unfold idle_fuel, turns_left, turn_ok in *. repeat case_match; lia. }
    exists n. split_and!; [done|lia|lia|]. intros k Hk. destruct (Hr (Z.to_nat k) ltac:(lia)) as [t Hrt]. rewrite Z.add_0_r in Hrt.
    destruct He as (E1 & E2 & _). exists t. split; [by eapply idle_run_ok|].
    pose proof (idle_run_ff f _ t Hrt) as If. rewrite Z2Nat.id in If by lia. split; [exact If|]. intros m.
    pose proof (idle_run_ticks f m _ t E1 E2 Hrt) as It. by rewrite Z2Nat.id in It by lia.
  - exists 0. rewrite Hn. split_and!; [done|lia|lia|]. intros k Hk. replace k with 0 by lia. exists (lt_turn f).
    rewrite Z.add_0_r. by destruct f.
Qed.

(** The next tick has work: it resets the statistics or attempts to send. *)
Definition busy_tick (f : LatTp G) (m : M) : Prop :=
  warmup_due f (lt_clk f + 1) = true \/
  (exists f', LT_tick f m = tick_stream f' m) \/
  (exists f', want_probe f' = true /\ LT_tick f m = tick_probe f' m).

Lemma not_idle_busy f m t :
  lt_streaming_only (lt_cfg f) = false -> lt_mode (lt_cfg f) = RandomProbe ->
  idle_step f (lt_clk f + 1) (lt_turn f) = Ok (false, t) -> busy_tick f m.
Proof.
  intros Hso Hmo Hi. unfold busy_tick, LT_tick. set (f0 := lt_set_clk f (lt_clk f + 1)). unfold maybe_reset_warmup_stats.
  change (warmup_due f0 (lt_clk f0)) with (warmup_due f (lt_clk f + 1)). unfold idle_step in Hi.
  destruct (warmup_due f (lt_clk f + 1)) eqn:Ew; [by left|]. right. change (lt_cfg f0) with (lt_cfg f). rewrite Hso.
  unfold tick_nop. change (lt_cfg f0) with (lt_cfg f). change (lt_turn f0) with (lt_turn f). rewrite Hmo.
  destruct (lt_issue_probe (lt_turn f)) eqn:Ep; cbn [negb] in Hi.
  - right. exists f0. cbn [mbind result_bind]. change (lt_cfg f0) with (lt_cfg f). change (lt_turn f0) with (lt_turn f).
    change (lt_probe_inflight f0) with (lt_probe_inflight f). rewrite Hmo, Ep. cbn [andb]. change (want_probe f0) with (want_probe f).
    destruct (lt_probe_inflight f); [done|]. by destruct (want_probe f).
  - left. apply bind_Ok in Hi as (n & -> & Hi). cbn [mbind result_bind].
    destruct (_ && _); [done|]. cbn [andb]. eexists (lt_set_turn f0 _). cbn. by rewrite Hmo.
Qed.

(** ** The contract *)
#[export] Instance LT_elision `{LM : !MemoryElision M} `{LS : !MemoryStatsLaws M} : FrontEndElision (LatTp G) M.
Proof.
  refine {| f_inv := lt_inv |}.
  - intros f m f' m'. apply LT_tick_inv.
  - intros f r f' HI Hr. apply callback_frame in Hr as [E1 E2]. by eapply lattp_inv_frame.
  - intros f _. cbn. unfold LT_is_finished. repeat case_match; by eexists.
  - intros f u HI. destruct (idle_ticks_ok f u HI) as (n & En & _). by exists n.
  - intros f m u n k HI Hn Hk. destruct (idle_ticks_ok f u HI) as (n' & En & _ & Hall). cbn in Hn. rewrite En in Hn. injection Hn as <-.
    destruct (Hall k Hk) as (t & Ht & Hf & Hit). exists (skip_to f (lt_clk f + k) t). split_and!; [|split; [apply HI|done]|done|done].
    destruct (Z.ltb_spec 0 k); [done|]. replace k with 0 in * by lia. exact Hf.
Defined.
End elision.

(** ** The memory system *)
Lemma reset_recursive_drained {C Mp : Type} `{Callbacks C} (reset : C -> C) (s : GenericDRAMSystem C Mp) :
  (forall c, drained c -> drained (reset c)) -> drained s -> drained (reset_stats_recursive reset s).
Proof.
  intros Hr. rewrite !system_drained. cbn. intros Hs. apply Forall_fmap. eapply Forall_impl; [exact Hs|]. apply Hr.
Qed.

(** ** The theorem *)
Section reachable.
Context {G M : Type} `{RandomEngine G} `{IMemorySystem M} `{Callbacks M} `{MemoryStats M}.

(** The frontend runs: it ticks, receives completions, and is fast-forwarded by no
    more than it declared idle. *)
Inductive lt_reach : LatTp G -> Prop :=
| lt_start p g f : 0 < Z.abs (lp_nop_counter p) < 2 ^ 31 -> LT_init p g = Ok f -> lt_reach f
| lt_ticked f m f' m' : lt_reach f -> drained m -> LT_tick f m = Ok (f', m') -> lt_reach f'
| lt_received f r f' : lt_reach f -> LT_callback f r = Ok f' -> lt_reach f'
| lt_skipped f u n k f' : lt_reach f -> LT_idle_ticks f u = Ok n -> 0 <= k <= n -> LT_fast_forward f k = Ok f' -> lt_reach f'.

Lemma lt_reach_inv `{!MemoryElision M} `{!MemoryStatsLaws M} (f : LatTp G) : lt_reach f -> lt_inv f.
Proof.
  induction 1 as [p g f HN Hi|f m f' m' _ IH Hm Ht|f r f' _ IH Hr|f u n k f' _ IH Hn Hk Hf].
  - by eapply lattp_init_inv.
  - by destruct (LT_tick_inv f f' m m' IH Hm Ht).
  - apply callback_frame in Hr as [E1 E2]. by eapply lattp_inv_frame.
  - destruct (idle_ticks_ok f u IH) as (n' & En & _ & Hall). rewrite En in Hn. injection Hn as ->.
    destruct (Hall k Hk) as (t & Ht & Hf' & _). rewrite Hf' in Hf. injection Hf as <-. split; [apply IH|done].
Qed.

(** C6. In every run of the latency-throughput frontend [idle_ticks] returns, and
    skipping any number of the declared ticks with [fast_forward] gives exactly the
    frontend that ticking gives, with the memory system untouched and no change in
    whether the run is over.  In the random-probe mode of a frontend that also
    probes, with no retry pending, the count is also the largest possible below the
    bound: the next tick resets the statistics or attempts to send.  In the other
    modes and with a retry pending the count is 0 and nothing is said about it. *)
Theorem lattp_idle_exact `{!MemoryElision M} `{!MemoryStatsLaws M} (f : LatTp G) (u : Clk_t) :
  lt_reach f -> 0 <= u ->
  exists n, LT_idle_ticks f u = Ok n /\ 0 <= n <= u /\
    (forall k m, 0 <= k <= n -> exists f', LT_fast_forward f k = Ok f' /\
       iterM (Z.to_nat k) (fun fm => LT_tick fm.1 fm.2) (f, m) = Ok (f', m) /\ LT_is_finished f' = LT_is_finished f) /\
    (elides f -> n < u -> forall f' m, LT_fast_forward f n = Ok f' -> busy_tick f' m).
Proof.
  intros HI%lt_reach_inv Hu. destruct (idle_ticks_ok f u HI) as (n & En & Hn & Hall). exists n. split_and!; [done|lia|lia| |].
  - intros k m Hk. destruct (Hall k Hk) as (t & _ & Hf & Hit). by exists (skip_to f (lt_clk f + k) t).
  - intros He Hlt f' m Hf. destruct HI as [HN Ht]. rewrite (elides_idle _ _ He) in En.
    destruct (idle_loop_ok (idle_fuel f) f u 0 (lt_turn f) HN Ht) as (n' & En' & _ & Hr & Hs).
    { unfold idle_fuel, turns_left, turn_ok in *. repeat case_match; lia. }
    rewrite En in En'. injection En' as <-. rewrite Z.sub_0_r, Z.add_0_r in *. destruct (Hr (Z.to_nat n) ltac:(lia)) as [t Hrt].
    destruct (Hs Hlt t Hrt) as [t' Hbusy]. pose proof (idle_run_ff f _ t Hrt) as E. rewrite Z2Nat.id in E by lia.
    unfold LT_fast_forward in Hf. rewrite E in Hf. injection Hf as <-. destruct He as (E1 & E2 & _).
    by apply (not_idle_busy (skip_to f (lt_clk f + n) t) m t' E1 E2).
Qed.
End reachable.
