(* ===== verification/RecipeProps.v ===== *)
(** * Address recipes against the address mapper

    The coordinates a traffic generator aims at are within the device, and the
    physical byte address it computes from them is decoded back to the same
    coordinates by the RoBaRaCoCh mapper.  The last part runs the frontend on a concrete
    system. *)

From Stdlib Require Import ZArith Lia SpecFloat.
From S2P Require Import Prelude Base Spec Node Device Standards Commands Examples Mapping MappingProps.
From S2P Require Import Controller MemSystem Latency Elision Simulation Recipe LatTp CtrlExamples.
From S2P Require Import SimExamples LatTpProps.

Local Open Scope Z_scope.

(** ** [int] arithmetic in range *)
Lemma s32_ok (v : Z) : - 2 ^ 31 <= v < 2 ^ 31 -> s32 v = Ok v.
Proof. intros Hv. unfold s32. by replace ((- 2 ^ 31 <=? v) && (v <? 2 ^ 31)) with true by lia. Qed.

Lemma divmod_s_ok (a b : Z) : 0 <= a < 2 ^ 31 -> 0 < b -> rem_s a b = Ok (a mod b) /\ quot_s a b = Ok (a / b).
Proof.
  intros Ha Hb. pose proof (Z.div_pos a b ltac:(lia) Hb). pose proof (Z.div_le_upper_bound a b a Hb ltac:(nia)).
  unfold rem_s, quot_s. rewrite (proj2 (Z.eqb_neq b 0)) by lia. rewrite Z.quot_div_nonneg, Z.rem_mod_nonneg, s32_ok by lia. done.
Qed.

(** ** Flat bank numbers *)
Section banks.
Context (positions counts : list Z).
Context (Hlen : length counts = length positions) (Hnd : NoDup positions) (Hc : Forall (fun c => 0 < c) counts).

(** A coordinate of each bank level. *)
Definition bank_digits (av : AddrVec_t) (ls : list Z) : Prop :=
  forall i p c, i ∈ ls -> vget positions i = Ok p -> vget counts i = Ok c -> exists x, vget av p = Ok x /\ 0 <= x < c.

Lemma bank_slot (i : Z) :
  0 <= i < Z.of_nat (length positions) -> exists p c, vget positions i = Ok p /\ vget counts i = Ok c /\ 0 < c.
Proof.
  intros Hi. destruct (vget_in_range positions i Hi) as [p Hp]. destruct (vget_in_range counts i ltac:(lia)) as [c Hcx].
  exists p, c. split_and!; [done|done|]. apply vget_Ok in Hcx as [_ Hcx]. by apply (Forall_lookup_1 _ _ _ _ Hc Hcx).
Qed.

Lemma position_inj (i j p : Z) : vget positions i = Ok p -> vget positions j = Ok p -> i = j.
Proof.
  intros [Hi Li]%vget_Ok [Hj Lj]%vget_Ok. pose proof (NoDup_lookup _ _ _ _ Hnd Li Lj). lia.
Qed.

Lemma put_digits_ok (ls : list Z) (av : AddrVec_t) (flat : Z) :
  NoDup ls -> (forall i, i ∈ ls -> 0 <= i < Z.of_nat (length positions)) ->
  Forall (fun p => 0 <= p < Z.of_nat (length av)) positions -> 0 <= flat < 2 ^ 31 ->
  exists av' flat', foldM (put_digit positions counts) (av, flat) ls = Ok (av', flat') /\ length av' = length av /\
    bank_digits av' ls /\ forall l, (forall j, j ∈ ls -> vget positions j <> Ok l) -> vget av' l = vget av l.
Proof.
  intros Hls. revert av flat. induction Hls as [|i ls Hi Hls IH]; intros av flat Hr Hp Hf.
  { exists av, flat. split_and!; try done. intros i p c Hin. by apply elem_of_nil in Hin. }
  destruct (bank_slot i) as (p & c & Ep & Ec & Hc0); [by apply Hr; left|].
  destruct (divmod_s_ok flat c Hf Hc0) as [Em Ed]. pose proof (Z.mod_pos_bound flat c Hc0) as Hm.
  pose proof (Z.div_pos flat c ltac:(lia) Hc0). pose proof (Z.div_le_upper_bound flat c flat Hc0 ltac:(nia)).
  assert (0 <= p < Z.of_nat (length av)) as Hpr.
  { apply vget_Ok in Ep as [_ Lp]. by apply (Forall_lookup_1 _ _ _ _ Hp Lp). }
  destruct (vset_total av p (flat mod c) Hpr) as [av1 H1]. destruct (vset_coord _ _ _ _ H1) as (El & Hx & Hfr).
  destruct (IH av1 (flat / c)) as (av' & flat' & Hfold & El' & Hd & Hfr'); [intros j Hj; apply Hr; by right|by rewrite El|lia|].
  exists av', flat'. split_and!.
  - assert (put_digit positions counts (av, flat) i = Ok (av1, flat / c)) as Es; [|by rewrite foldM_cons, Es].
    unfold put_digit. rewrite Ec. cbn [mbind result_bind fst snd]. rewrite Em, Ep. cbn [mbind result_bind].
    rewrite H1. cbn [mbind result_bind]. by rewrite Ed.
  - congruence.
  - intros j q d [->|Hj]%elem_of_cons Hq Hdc; [|by eapply Hd]. rewrite Ep in Hq. rewrite Ec in Hdc. injection Hq as <-. injection Hdc as <-.
    exists (flat mod c). split; [|lia]. rewrite Hfr'; [done|]. intros k Hk Hkp. apply Hi. by rewrite (position_inj i k p).
  - intros l Hl. rewrite Hfr'; [|intros j Hj; apply Hl; by right]. apply Hfr. intros ->. by apply (Hl i); [left|].
Qed.

Lemma decompose_ok (av : AddrVec_t) (flat : Z) :
  Forall (fun p => 0 <= p < Z.of_nat (length av)) positions -> 0 <= flat < 2 ^ 31 ->
  exists av', decompose_bank positions counts flat av = Ok av' /\ length av' = length av /\
    bank_digits av' (seqZ 0 (Z.of_nat (length positions))) /\ forall l, l ∉ positions -> vget av' l = vget av l.
Proof.
  intros Hp Hf. destruct (put_digits_ok (reverse (seqZ 0 (Z.of_nat (length positions)))) av flat) as (av' & flat' & Hfold & El & Hd & Hfr);
    [rewrite reverse_Permutation; apply NoDup_seqZ|intros i; rewrite elem_of_reverse, elem_of_seqZ; lia|done|done|].
  exists av'. unfold decompose_bank. rewrite Hfold. split_and!; [done|done| |].
  - intros i p c Hi. apply Hd. by rewrite elem_of_reverse.
  - intros l Hl. apply Hfr. intros j _ [_ Hj]%vget_Ok. apply Hl. by eapply list_elem_of_lookup_2.
Qed.

Lemma draw_digits_ok {G} `{RandomEngine G} `{!RandomEngineLaws G} (ls : list Z) (av : AddrVec_t) (g : G) :
  NoDup ls -> (forall i, i ∈ ls -> 0 <= i < Z.of_nat (length positions)) ->
  Forall (fun p => 0 <= p < Z.of_nat (length av)) positions ->
  exists av' g', foldM (draw_digit positions counts) (av, g) ls = Ok (av', g') /\ length av' = length av /\
    bank_digits av' ls /\ forall l, (forall j, j ∈ ls -> vget positions j <> Ok l) -> vget av' l = vget av l.
Proof.
  intros Hls. revert av g. induction Hls as [|i ls Hi Hls IH]; intros av g Hr Hp.
  { exists av, g. split_and!; try done. intros i p c Hin. by apply elem_of_nil in Hin. }
  destruct (bank_slot i) as (p & c & Ep & Ec & Hc0); [by apply Hr; left|].
  pose proof (draw_in_range g 0 (c - 1) ltac:(lia)) as Hd0. destruct (draw_int g 0 (c - 1)) as [d g1] eqn:Edr. cbn [fst] in Hd0.
  assert (0 <= p < Z.of_nat (length av)) as Hpr.
  { apply vget_Ok in Ep as [_ Lp]. by apply (Forall_lookup_1 _ _ _ _ Hp Lp). }
  destruct (vset_total av p d Hpr) as [av1 H1]. destruct (vset_coord _ _ _ _ H1) as (El & Hx & Hfr).
  destruct (IH av1 g1) as (av' & g' & Hfold & El' & Hd & Hfr'); [intros j Hj; apply Hr; by right|by rewrite El|].
  exists av', g'. split_and!.
  - assert (draw_digit positions counts (av, g) i = Ok (av1, g1)) as Es; [|by rewrite foldM_cons, Es].
    unfold draw_digit, uniform_int. rewrite Ec. cbn [mbind result_bind fst snd]. rewrite (proj2 (Z.ltb_ge (c - 1) 0)), Edr by lia.
    cbn [mbind result_bind fst snd]. rewrite Ep. cbn [mbind result_bind]. by rewrite H1.
  - congruence.
  - intros j q e [->|Hj]%elem_of_cons Hq Hdc; [|by eapply Hd]. rewrite Ep in Hq. rewrite Ec in Hdc. injection Hq as <-. injection Hdc as <-.
    exists d. split; [|lia]. rewrite Hfr'; [done|]. intros k Hk Hkp. apply Hi. by rewrite (position_inj i k p).
  - intros l Hl. rewrite Hfr'; [|intros j Hj; apply Hl; by right]. apply Hfr. intros ->. by apply (Hl i); [left|].
Qed.

(** The number of banks. *)
Definition bank_units : Z := foldr Z.mul 1 counts.

Lemma prod_take (k : nat) : 0 < foldr Z.mul 1 (take k counts) <= bank_units.
Proof.
  unfold bank_units. clear Hlen. revert k. induction Hc as [|c l Hc0 Hl IH]; intros k; [rewrite take_nil; cbn; lia|].
  destruct k as [|k]; cbn [take foldr].
  - specialize (IH Hl 0%nat). cbn [take foldr] in IH. nia.
  - specialize (IH Hl k). nia.
Qed.

Lemma prod_snoc (k : nat) (c : Z) :
  counts !! k = Some c -> foldr Z.mul 1 (take (S k) counts) = foldr Z.mul 1 (take k counts) * c.
Proof.
  intros Hk. rewrite (take_S_r _ _ _ Hk), foldr_app. cbn [foldr]. rewrite Z.mul_1_r. clear Hk.
  induction (take k counts) as [|x l IH]; cbn [foldr]; [lia|]. rewrite IH. lia.
Qed.

Lemma bank_flat_ok (av : AddrVec_t) :
  bank_digits av (seqZ 0 (Z.of_nat (length positions))) -> bank_units <= 2 ^ 31 ->
  exists b, bank_flat positions counts av = Ok b /\ 0 <= b < bank_units.
Proof.
  intros Hd Hu. unfold bank_flat.
  assert (forall k, (k <= length positions)%nat -> exists b,
    foldM (add_digit positions counts av) 0 (seqZ 0 (Z.of_nat k)) = Ok b /\ 0 <= b < foldr Z.mul 1 (take k counts)) as Hk.
  { induction k as [|k IH]; intros Hk; [exists 0; rewrite take_0; split; [done|cbn [foldr]; lia]|]. destruct IH as (b & Hb & Hbr); [lia|].
    replace (Z.of_nat (S k)) with (Z.of_nat k + 1) by lia. rewrite seqZ_app, foldM_app, Hb by lia. cbn [mbind result_bind].
    rewrite Z.add_0_l. assert (seqZ (Z.of_nat k) 1 = [Z.of_nat k]) as -> by (rewrite seqZ_cons by lia; done).
    destruct (bank_slot (Z.of_nat k)) as (p & c & Ep & Ec & Hc0); [lia|].
    destruct (Hd (Z.of_nat k) p c) as (x & Hx & Hxr); [apply elem_of_seqZ; lia|done|done|].
    pose proof (prod_take (S k)) as Hps. rewrite (prod_snoc k c) in Hps by (apply vget_Ok in Ec as [_ Ec]; by rewrite Nat2Z.id in Ec).
    exists (b * c + x). rewrite (prod_snoc k c) by (apply vget_Ok in Ec as [_ Ec]; by rewrite Nat2Z.id in Ec). split; [|nia].
    cbn [foldM]. unfold add_digit. rewrite Ec. cbn [mbind result_bind]. rewrite s32_ok by nia. cbn [mbind result_bind].
    rewrite Ep. cbn [mbind result_bind]. rewrite Hx. cbn [mbind result_bind]. rewrite s32_ok by nia. done. }
  destruct (Hk (length positions)) as (b & Hb & Hbr); [done|]. exists b. split; [done|].
  unfold bank_units. by rewrite <- Hlen, firstn_all in Hbr.
Qed.
End banks.

(** ** The bank recipe of the physical encoding *)

Lemma power_of_two_spec (v : Z) : power_of_two v = true -> 0 < v /\ v = 2 ^ Z.log2 v.
Proof.
  unfold power_of_two. intros [Hv%Z.ltb_lt Hp%negb_true_iff]%andb_true_iff. split; [done|]. by apply not_pow2_false.
Qed.

Section configure.
Context (r : Recipe).

(** After the first [k] entries of the recipe. *)
Record levels_inv (k : Z) (lv : list Z) : Prop := mkLevelsInv {
  li_len : Z.of_nat (length lv) = rc_row_pos r;
  li_set i p : 0 <= i < k -> vget (rc_bank_positions r) i = Ok p ->
    0 < p < rc_row_pos r /\ exists c, vget (rc_bank_counts r) i = Ok c /\ vget lv p = Ok c /\ power_of_two c = true;
  li_from l x : vget lv l = Ok x -> x <> 0 -> exists i, 0 <= i < k /\ vget (rc_bank_positions r) i = Ok l;
  li_inj i j p : 0 <= i < k -> 0 <= j < k -> vget (rc_bank_positions r) i = Ok p -> vget (rc_bank_positions r) j = Ok p -> i = j
}.

Lemma level_step_inv (k : Z) (lv lv' : list Z) :
  0 <= k -> levels_inv k lv -> level_step r lv k = Ok lv' -> levels_inv (k + 1) lv'.
Proof.
  intros Hk [H1 H2 H3 H4] Hs. apply bind_Ok in Hs as (p & Hp & Hs). apply bind_Ok in Hs as (bad & Hb & Hs). destruct bad; [done|].
  apply bind_Ok in Hs as (c & Hc & Hs). destruct ((p <=? 0) || (rc_row_pos r <=? p)) eqn:Epr; [done|].
  apply bind_Ok in Hb as (n & Hn & Hb). rewrite Hc in Hb. cbn in Hb. injection Hb as Hb.
  apply orb_false_iff in Hb as [Hn0%negb_false_iff%Z.eqb_eq Hpc%negb_false_iff]. subst n.
  destruct (vset_coord _ _ _ _ Hs) as (El & Hx & Hfr).
  assert (forall i q, 0 <= i < k -> vget (rc_bank_positions r) i = Ok q -> q <> p) as Hnew.
  { intros i q Hi Hq ->. destruct (H2 i p Hi Hq) as (_ & c' & _ & Hl & Hc'). rewrite Hn in Hl. injection Hl as <-. done. }
  split.
  - by rewrite El.
  - intros i q Hi Hq. destruct (decide (i = k)) as [->|].
    + rewrite Hp in Hq. injection Hq as <-. split; [lia|]. by exists c.
    + destruct (H2 i q ltac:(lia) Hq) as (Hr & c' & Hc' & Hl & Hp'). split; [done|]. exists c'. split_and!; [done| |done].
      rewrite Hfr; [done|]. by apply (Hnew i); [lia|].
  - intros l x Hl Hx0. destruct (decide (l = p)) as [->|Hne]; [exists k; split; [lia|done]|]. rewrite Hfr in Hl by done.
    destruct (H3 l x Hl Hx0) as (i & Hi & Hq). exists i. split; [lia|done].
  - intros i j q Hi Hj Hqi Hqj. destruct (decide (i = k)) as [->|], (decide (j = k)) as [->|]; [done| | |by apply (H4 i j q); [lia..| |]].
    + rewrite Hp in Hqi. injection Hqi as <-. by destruct (Hnew j p ltac:(lia) Hqj).
    + rewrite Hp in Hqj. injection Hqj as <-. by destruct (Hnew i p ltac:(lia) Hqi).
Qed.

Lemma level_steps_inv (k : nat) (lv0 lv : list Z) :
  levels_inv 0 lv0 -> foldM (level_step r) lv0 (seqZ 0 (Z.of_nat k)) = Ok lv -> levels_inv (Z.of_nat k) lv.
Proof.
  intros H0. revert lv. induction k as [|k IH]; intros lv; [by intros [= <-]|].
  replace (Z.of_nat (S k)) with (Z.of_nat k + 1) by lia. rewrite seqZ_app, foldM_app by lia. intros (lv1 & Hl1 & Hs)%bind_Ok.
  assert (seqZ (0 + Z.of_nat k) 1 = [Z.of_nat k]) as E by (rewrite seqZ_cons by lia; done). rewrite E in Hs. cbn [foldM] in Hs.
  apply bind_Ok in Hs as (lv2 & Hs & [= <-]). eapply level_step_inv; [lia|by apply IH|done].
Qed.

Lemma configure_ok (enc : string) (lv : list Z) :
  configure_address_encoding enc r = Ok (Some lv) ->
  bad_geometry r = false /\ levels_inv (Z.of_nat (length (rc_bank_positions r))) lv /\
  forall l, 1 <= l < rc_row_pos r -> exists c, vget lv l = Ok c /\ c <> 0.
Proof.
  unfold configure_address_encoding. destruct (bool_decide _); [done|]. destruct (negb _); [done|].
  destruct (bad_geometry r) eqn:Eg; [done|]. intros (l0 & H0 & H)%bind_Ok. apply bind_Ok in H as (l1 & H1 & H).
  apply bind_Ok in H as (u & H2 & [= <-]). split; [done|]. split.
  - eapply (level_steps_inv _ l0); [|exact H1]. unfold vec_make in H0. destruct (Z.ltb_spec (rc_row_pos r) 0); [done|].
    injection H0 as <-. split; [rewrite length_replicate; lia|lia| |lia].
    intros l x [_ [-> _]%lookup_replicate]%vget_Ok. done.
  - intros l Hl. assert (Hin : l ∈ seqZ 1 (rc_row_pos r - 1)) by (apply elem_of_seqZ; lia). revert u H2.
    induction (seqZ 1 (rc_row_pos r - 1)) as [|x ls IH]; [by apply elem_of_nil in Hin|].
    intros u Hf. cbn [foldM] in Hf. apply bind_Ok in Hf as ([] & Hx & Hf). apply elem_of_cons in Hin as [<-|Hin]; [|by eapply (IH Hin); exact Hf].
    apply bind_Ok in Hx as (n & Hn & Hx). destruct (Z.eqb_spec n 0); [done|]. by exists n.
Qed.
End configure.

(** ** Physical addresses *)

Lemma append_ok (line count value : Z) :
  0 <= line -> 0 <= value < count -> line * count + value < 2 ^ 63 -> count <= 2 ^ 63 ->
  append line count value = Ok (line * count + value).
Proof.
  intros Hl Hv Hb Hc. unfold append, wrap_u, addr_max. rewrite !(Z.mod_small count), !(Z.mod_small value), (Z.mod_small (2 ^ 63 - 1 - value)) by lia.
  rewrite Z.mod_small by nia. pose proof (Z.div_le_lower_bound (2 ^ 63 - 1 - value) count line ltac:(lia) ltac:(nia)).
  by replace ((count =? 0) || (count <=? value) || ((2 ^ 63 - 1 - value) / count <? line)) with false by lia.
Qed.

(** Numbers with equal digits are equal, and conversely. *)
Lemma join_inj (m : AddrMapperBase) (ls : list Z) (av av' : AddrVec_t) :
  Forall (digit_ok m av) ls -> Forall (digit_ok m av') ls -> join m ls av = join m ls av' ->
  forall i, i ∈ ls -> vget av (i + 1) = vget av' (i + 1).
Proof.
  induction 1 as [|i ls [[x Hx] Hr] Hd IH]; intros Hd' E j Hj; [by apply elem_of_nil in Hj|].
  apply Forall_cons in Hd' as [[[x' Hx'] Hr'] Hd']. cbn [join] in E.
  assert (coord av (i + 1) = coord av' (i + 1) /\ join m ls av = join m ls av') as [E1 E2].
  { destruct (Z.div_mod_unique (2 ^ bit m i) (join m ls av) (join m ls av') (coord av (i + 1)) (coord av' (i + 1))); [lia..|]. done. }
  apply elem_of_cons in Hj as [->|Hj]; [|by apply IH]. unfold coord in E1. rewrite Hx, Hx' in *. congruence.
Qed.

Section physical.
Context (s : DRAMSpec) (m : AddrMapperBase) (Hm : mapper_wf s m).
Abbreviation R := (level_count s - 2).
Abbreviation C := (level_count s - 1).
Abbreviation prefetch := (internal_prefetch_size s).

(** Levels below the column are as large as their bits say. *)
Lemma level_size (l : Z) : 1 <= l <= R -> vget (level_sizes (organization s)) l = Ok (2 ^ bit m (l - 1)) /\ 0 <= bit m (l - 1) <= 30.
Proof.
  intros Hl. destruct (mw_count s m Hm) as [En H3]. destruct (mw_levels s m Hm (l - 1)) as (b & sz & Hb & Hbr & Hsz & E); [lia|].
  rewrite (mw_col s m Hm) in E. rewrite (proj2 (Z.eqb_neq (l - 1) (level_count s - 2))) in E by lia.
  replace (l - 1 + 1) with l in Hsz by lia. unfold bit. rewrite Hb, Hsz, E. split; [f_equal; lia|done].
Qed.

Context (levels : list Z) (av : AddrVec_t) (slot tx_bits : Z).
Context (Hlv : forall l, 1 <= l < R -> vget levels l = vget (level_sizes (organization s)) l).
Context (Hlen : Z.of_nat (length av) = level_count s) (H0 : vget av 0 = Ok 0).
Context (Hd : forall l, 1 <= l <= R -> exists x sz, vget av l = Ok x /\ vget (level_sizes (organization s)) l = Ok sz /\ 0 <= x < sz).
Context (Hcol : vget av C = Ok (slot * prefetch)) (Hslot : 0 <= slot < 2 ^ bit m (m_col_idx m)).
Context (Htx : 0 <= tx_bits) (Hcap : capacity m * 2 ^ tx_bits <= 2 ^ 63).

Lemma level_digit (l : Z) : 1 <= l <= R -> vget av l = Ok (coord av l) /\ 0 <= coord av l < 2 ^ bit m (l - 1).
Proof.
  intros Hl. destruct (Hd l Hl) as (x & sz & Hx & Hsz & Hr). destruct (level_size l Hl) as [E _]. rewrite E in Hsz. injection Hsz as <-.
  unfold coord. by rewrite Hx.
Qed.

(** The number of the levels from [j] up to the row. *)
Definition upper (j : Z) : Z := join m (seqZ (j - 1) (R - j + 1)) av.

Lemma upper_step (j : Z) : 1 <= j < R -> upper j = coord av j + 2 ^ bit m (j - 1) * upper (j + 1).
Proof.
  intros Hj. unfold upper. rewrite seqZ_cons by lia. cbn [join]. replace (j - 1 + 1) with j by lia.
  replace (Z.succ (j - 1)) with (j + 1 - 1) by lia. replace (Z.pred (R - j + 1)) with (R - (j + 1) + 1) by lia. done.
Qed.

Lemma upper_bound (j : Z) : 1 <= j <= R -> 0 <= upper j < capacity m.
Proof.
  intros Hj. destruct (mw_count s m Hm) as [En H3].
  assert (forall a n, 0 <= a -> 0 <= n -> a + n <= m_num_mapped_levels m -> Forall (slot_ok m (length av)) (seqZ a n)) as Hs.
  { intros a n Ha Hn Hle. apply (slots_ok s m Hm); [done|]. intros i Hi%elem_of_seqZ. lia. }
  pose proof (join_bound m (length av) (seqZ (j - 1) (R - j + 1)) av (Hs (j - 1) (R - j + 1) ltac:(lia) ltac:(lia) ltac:(lia))) as Hb.
  assert (0 <= upper j < 2 ^ width m (seqZ (j - 1) (R - j + 1))) as Hu.
  { apply Hb. apply Forall_forall. intros i Hi%elem_of_seqZ. destruct (level_digit (i + 1)) as [E Hx]; [lia|].
    replace (i + 1 - 1) with i in Hx by lia. split; [by eexists|done]. }
  split; [lia|]. eapply Z.lt_le_trans; [apply Hu|]. unfold capacity. apply Z.pow_le_mono_r; [lia|].
  replace (m_num_mapped_levels m) with ((j - 1) + ((R - j + 1) + 1)) by lia.
  rewrite (seqZ_app 0 (j - 1)), (seqZ_app _ (R - j + 1) 1), !width_app by lia.
  pose proof (width_nonneg m _ _ (Hs 0 (j - 1) ltac:(lia) ltac:(lia) ltac:(lia))).
  rewrite Z.add_0_l. pose proof (width_nonneg m _ _ (Hs ((j - 1) + (R - j + 1)) 1 ltac:(lia) ltac:(lia) ltac:(lia))). lia.
Qed.

Definition line_step (line position : Z) : result Z :=
  n ← vget levels position;
  x ← vget av position;
  append line n x.

Lemma line_fold (k : nat) :
  Z.of_nat k <= R - 1 -> foldM line_step (upper R) (reverse (seqZ (R - Z.of_nat k) (Z.of_nat k))) = Ok (upper (R - Z.of_nat k)).
Proof.
  induction k as [|k IH]; intros Hk; [by rewrite Z.sub_0_r|].
  replace (Z.of_nat (S k)) with (Z.of_nat k + 1) in * by lia. set (j := R - (Z.of_nat k + 1)).
  rewrite seqZ_cons by lia. replace (Z.succ j) with (R - Z.of_nat k) by lia. replace (Z.pred (Z.of_nat k + 1)) with (Z.of_nat k) by lia.
  rewrite reverse_cons, foldM_app, IH by lia. cbn [mbind result_bind foldM].
  assert (line_step (upper (R - Z.of_nat k)) j = Ok (upper j)) as ->; [|done]. unfold line_step.
  destruct (level_size j ltac:(lia)) as [Es Eb]. destruct (level_digit j ltac:(lia)) as [Ex Hx].
  rewrite Hlv, Es by lia. cbn [mbind result_bind]. rewrite Ex. cbn [mbind result_bind].
  pose proof (upper_step j ltac:(lia)) as Hu. replace (j + 1) with (R - Z.of_nat k) in Hu by lia.
  pose proof (upper_bound j ltac:(lia)) as Hb. pose proof (upper_bound (R - Z.of_nat k) ltac:(lia)) as Hb'.
  pose proof (Z.pow_le_mono_r 2 (bit m (j - 1)) 30 ltac:(lia) ltac:(lia)). pose proof (pow2_pos tx_bits Htx).
  rewrite append_ok; [f_equal; lia|lia|done|nia|]. change (2 ^ 30) with 1073741824 in *. lia.
Qed.

(** The vector as the mapper writes it: the column counts transactions. *)
Definition slots_vec : AddrVec_t := <[Z.to_nat C := slot]> av.

Lemma slots_vec_get (l : Z) : 0 <= l -> vget slots_vec l = if l =? C then Ok slot else vget av l.
Proof.
  intros Hl. destruct (mw_count s m Hm) as [_ H3]. apply (vget_vset av). apply vset_Ok. split; [lia|done].
Qed.

Lemma slots_digits : Forall (digit_ok m slots_vec) (linear_order RoBaRaCoCh m).
Proof.
  destruct (mw_count s m Hm) as [_ H3]. cbn [linear_order]. constructor.
  - rewrite (mw_col s m Hm). unfold digit_ok, coord. rewrite slots_vec_get by lia.
    replace (level_count s - 2 + 1 =? C) with true by lia. split; [by eexists|]. by rewrite <- (mw_col s m Hm).
  - rewrite (mw_row s m Hm). apply Forall_forall. intros i Hi%elem_of_seqZ. unfold digit_ok, coord. rewrite slots_vec_get by lia.
    replace (i + 1 =? C) with false by lia. destruct (level_digit (i + 1)) as [Ex Hx]; [lia|].
    replace (i + 1 - 1) with i in Hx by lia. rewrite Ex. split; [by eexists|done].
Qed.

Lemma slots_join : join m (linear_order RoBaRaCoCh m) slots_vec = slot + 2 ^ bit m (m_col_idx m) * upper 1.
Proof.
  destruct (mw_count s m Hm) as [_ H3]. cbn [linear_order join]. unfold coord. rewrite slots_vec_get by (rewrite (mw_col s m Hm); lia).
  replace (m_col_idx m + 1 =? C) with true by (rewrite (mw_col s m Hm); lia). do 2 f_equal. unfold upper.
  rewrite (mw_row s m Hm). replace (level_count s - 3 + 1) with (R - 1 + 1) by lia. apply join_ext.
  intros i Hi%elem_of_seqZ. rewrite slots_vec_get by lia. by replace (i + 1 =? C) with false by lia.
Qed.

Lemma slots_bound : 0 <= slot + 2 ^ bit m (m_col_idx m) * upper 1 < capacity m.
Proof.
  rewrite <- slots_join. destruct (mw_count s m Hm) as [En H3].
  assert (Forall (slot_ok m (length slots_vec)) (linear_order RoBaRaCoCh m)) as Hs.
  { apply (slots_ok s m Hm); [unfold slots_vec; by rewrite length_insert|]. intros i. rewrite (order_perm s m Hm), elem_of_seqZ. lia. }
  pose proof (join_bound m _ _ _ Hs slots_digits) as Hb. unfold capacity. by rewrite <- (width_perm m _ _ (order_perm s m Hm RoBaRaCoCh)).
Qed.

Lemma not_pow2_pow2 (k : Z) : 0 <= k -> not_pow2 (2 ^ k) = false.
Proof.
  intros Hk. unfold not_pow2. replace (2 ^ k - 1) with (Z.ones k) by (rewrite Z.ones_equiv; lia).
  by rewrite Z.land_ones, Z.mod_same by (pose proof (pow2_pos k Hk); lia).
Qed.

Definition phys_addr : Addr_t := (slot + 2 ^ bit m (m_col_idx m) * upper 1) * 2 ^ tx_bits.

Lemma physical_ok :
  2 ^ bit m (m_col_idx m) * prefetch < 2 ^ 31 ->
  physical_byte_address av levels R C (2 ^ bit m (R - 1)) (2 ^ bit m (m_col_idx m)) prefetch (2 ^ tx_bits) = Ok phys_addr.
Proof.
  intros Hcs. destruct (mw_count s m Hm) as [_ H3]. pose proof (mw_prefetch s m Hm) as Hpf. unfold physical_byte_address.
  destruct (level_digit R ltac:(lia)) as [Er Hr]. rewrite Er. cbn [mbind result_bind]. rewrite H0. cbn [mbind result_bind].
  rewrite Hcol. cbn [mbind result_bind]. destruct (divmod_s_ok (slot * prefetch) prefetch) as [Em Ed]; [nia|lia|].
  rewrite Z.mod_mul in Em by lia. rewrite Z.div_mul in Ed by lia. rewrite Em. cbn [mbind result_bind].
  rewrite (proj2 (Z.ltb_ge (coord av R) 0)), (proj2 (Z.leb_gt (2 ^ bit m (R - 1)) (coord av R))), (proj2 (Z.ltb_ge (slot * prefetch) 0)) by nia.
  cbn [negb Z.eqb orb].
  cbn [mbind result_bind negb Z.eqb].
  assert (wrap_u 64 (coord av R) = upper R) as ->.
  { destruct (level_size R ltac:(lia)) as [_ Hb]. pose proof (Z.pow_le_mono_r 2 (bit m (R - 1)) 30 ltac:(lia) ltac:(lia)).
    change (2 ^ 30) with 1073741824 in *. unfold wrap_u. rewrite Z.mod_small by lia. unfold upper.
    replace (R - R + 1) with 1 by lia. assert (seqZ (R - 1) 1 = [R - 1]) as -> by (rewrite seqZ_cons by lia; done).
    cbn [join]. replace (R - 1 + 1) with R by lia. lia. }
  pose proof (line_fold (Z.to_nat (R - 1)) ltac:(lia)) as Hf. rewrite Z2Nat.id in Hf by lia. replace (R - (R - 1)) with 1 in Hf by lia.
  fold line_step. rewrite Hf. cbn [mbind result_bind]. rewrite Ed. cbn [mbind result_bind].
  pose proof slots_bound as Hb. pose proof (upper_bound 1 ltac:(lia)) as Hu. pose proof (pow2_pos tx_bits Htx) as Ht.
  assert (2 ^ bit m (m_col_idx m) < 2 ^ 31) as Hcb by nia. assert (capacity m <= 2 ^ 63) as Hc by nia.
  assert (2 ^ tx_bits <= 2 ^ 63) as Ht63 by nia.
  rewrite append_ok; [|lia|lia|lia|lia]. cbn [mbind result_bind]. rewrite (not_pow2_pow2 _ Htx).
  replace (2 ^ tx_bits <=? 0) with false by lia. cbn [orb]. rewrite append_ok; [|lia|lia|nia|lia].
  cbn [mbind result_bind]. unfold phys_addr. f_equal. unfold wrap_s. rewrite Z.mod_small by nia. lia.
Qed.

(** RoBaRaCoCh reads the same coordinates back. *)
Lemma physical_decodes (r : Request) :
  m_tx_offset m = tx_bits -> intra_channel_addr r = phys_addr ->
  exists av', RoBaRaCoCh_apply m r = Ok (set_addr_vec r av') /\
    (forall l, 1 <= l <= R -> vget av' l = vget av l) /\ vget av' C = Ok slot.
Proof.
  intros Eo Ea. destruct (mw_count s m Hm) as [_ H3].
  destruct (linear_decodes s m Hm RoBaRaCoCh r) as (av' & Hap & _ & Hd' & Hj & _). exists av'. split; [done|].
  assert (tx_number m r = slot + 2 ^ bit m (m_col_idx m) * upper 1) as Et.
  { unfold tx_number. rewrite Eo, Ea, Z.shiftr_div_pow2 by done. unfold phys_addr. apply Z.div_mul.
    pose proof (pow2_pos tx_bits Htx). lia. }
  rewrite Et, Z.mod_small, <- slots_join in Hj by apply slots_bound.
  pose proof (join_inj m _ _ _ Hd' slots_digits Hj) as He. split.
  - intros l Hl. specialize (He (l - 1)). replace (l - 1 + 1) with l in He by lia. rewrite He, slots_vec_get by
      (try lia; cbn [linear_order]; right; rewrite (mw_row s m Hm); apply elem_of_seqZ; lia). by replace (l =? C) with false by lia.
  - specialize (He (m_col_idx m)). rewrite (mw_col s m Hm) in He. replace (level_count s - 2 + 1) with C in He by lia.
    rewrite He, slots_vec_get, Z.eqb_refl by (try lia; cbn [linear_order]; rewrite (mw_col s m Hm); left). done.
Qed.
End physical.

(** ** The generated coordinates *)

(** Within the geometry of the recipe. *)
Record coords_ok (r : Recipe) (av : AddrVec_t) : Prop := mkCoordsOk {
  co_len : Z.of_nat (length av) = rc_addr_vec_size r;
  co_channel : vget av 0 = Ok 0;
  co_banks : bank_digits (rc_bank_positions r) (rc_bank_counts r) av (seqZ 0 (Z.of_nat (length (rc_bank_positions r))));
  co_row : exists row, vget av (rc_row_pos r) = Ok row /\ 0 <= row < rc_num_rows r;
  co_slot : exists slot, vget av (rc_col_pos r) = Ok (slot * rc_internal_prefetch_size r) /\ 0 <= slot < rc_num_cls r
}.

Lemma wrap_u64_small (x : Z) : 0 <= x < 2 ^ 64 -> wrap_u 64 x = x.
Proof. intros. unfold wrap_u. by apply Z.mod_small. Qed.

Section generators.
Context (r : Recipe) (lv : list Z) (enc : string) (Hconf : configure_address_encoding enc r = Ok (Some lv)).
Context (Hcols : rc_num_cols r < 2 ^ 31) (Hrows : rc_num_rows r < 2 ^ 31).

Lemma geometry :
  1 <= rc_row_pos r /\ rc_col_pos r = rc_row_pos r + 1 /\ rc_addr_vec_size r = rc_col_pos r + 1 /\
  length (rc_bank_positions r) = length (rc_bank_counts r) /\ 0 < rc_num_rows r /\ 0 < rc_num_cols r /\
  0 < rc_internal_prefetch_size r /\ rc_internal_prefetch_size r <= rc_num_cols r /\
  rc_num_cls r = rc_num_cols r / rc_internal_prefetch_size r.
Proof.
  destruct (configure_ok r enc lv Hconf) as (Hg & _). unfold bad_geometry in Hg. rewrite !orb_false_iff, !negb_false_iff in Hg.
  destruct Hg as ((((((((G1 & G2) & G3) & G4) & G5) & G6) & G7) & G8) & G9).
  apply power_of_two_spec in G5 as [G5 _], G6 as [G6 _], G7 as [G7 _]. apply Nat.eqb_eq in G4. apply Z.eqb_eq in G9.
  rewrite Z.quot_div_nonneg in G9 by lia. split_and!; try lia; done.
Qed.

Lemma bank_recipe :
  length (rc_bank_counts r) = length (rc_bank_positions r) /\ NoDup (rc_bank_positions r) /\
  Forall (fun c => 0 < c) (rc_bank_counts r) /\ Forall (fun p => 0 < p < rc_row_pos r) (rc_bank_positions r).
Proof.
  destruct geometry as (_ & _ & _ & El & _). destruct (configure_ok r enc lv Hconf) as (_ & [_ H2 _ H4] & _). split_and!.
  - done.
  - apply NoDup_alt. intros i j p Hi Hj. pose proof (lookup_lt_Some _ _ _ Hi). pose proof (lookup_lt_Some _ _ _ Hj).
    assert (Z.of_nat i = Z.of_nat j); [|lia]. apply (H4 _ _ p); [lia|lia|apply vget_Ok; split; [lia|by rewrite Nat2Z.id]..].
  - apply Forall_lookup. intros i c Hc. pose proof (lookup_lt_Some _ _ _ Hc). destruct (vget_in_range (rc_bank_positions r) (Z.of_nat i)) as [p Hp]; [lia|].
    destruct (H2 (Z.of_nat i) p) as (_ & c' & Hc' & _ & Hpw); [lia|done|]. apply vget_Ok in Hc' as [_ Hc']. rewrite Nat2Z.id, Hc in Hc'.
    injection Hc' as <-. by apply power_of_two_spec in Hpw as [? _].
  - apply Forall_lookup. intros i p Hp. pose proof (lookup_lt_Some _ _ _ Hp).
    destruct (H2 (Z.of_nat i) p) as (Hr & _); [lia|apply vget_Ok; split; [lia|by rewrite Nat2Z.id]|done].
Qed.

(** Writing the row and the column of a vector of bank coordinates. *)
Lemma coords_build (av : AddrVec_t) (row slot : Z) :
  Z.of_nat (length av) = rc_addr_vec_size r -> vget av 0 = Ok 0 ->
  bank_digits (rc_bank_positions r) (rc_bank_counts r) av (seqZ 0 (Z.of_nat (length (rc_bank_positions r)))) ->
  0 <= row < rc_num_rows r -> 0 <= slot < rc_num_cls r ->
  exists av1 av2, vset av (rc_row_pos r) row = Ok av1 /\ vset av1 (rc_col_pos r) (slot * rc_internal_prefetch_size r) = Ok av2 /\
    coords_ok r av2.
Proof.
  intros Hl H0 Hd Hr Hs. destruct geometry as (G1 & G2 & G3 & _). destruct bank_recipe as (_ & _ & _ & Hp).
  destruct (vset_total av (rc_row_pos r) row) as [av1 E1]; [lia|]. destruct (vset_coord _ _ _ _ E1) as (L1 & X1 & F1).
  destruct (vset_total av1 (rc_col_pos r) (slot * rc_internal_prefetch_size r)) as [av2 E2]; [lia|].
  destruct (vset_coord _ _ _ _ E2) as (L2 & X2 & F2). exists av1, av2. split_and!; [done|done|]. split.
  - by rewrite L2, L1.
  - rewrite F2, F1 by lia. done.
  - intros i p c Hi Hpi Hc. destruct (Hd i p c Hi Hpi Hc) as (x & Hx & Hxr). exists x. split; [|done].
    apply vget_Ok in Hpi as [_ Hpi]. pose proof (Forall_lookup_1 _ _ _ _ Hp Hpi) as Hpr. cbn in Hpr. by rewrite F2, F1 by lia.
  - exists row. rewrite F2 by lia. done.
  - by exists slot.
Qed.

Lemma zeros_vec : exists av, vec_make (rc_addr_vec_size r) 0 = Ok av /\ Z.of_nat (length av) = rc_addr_vec_size r /\ vget av 0 = Ok 0 /\
  Forall (fun p => 0 <= p < Z.of_nat (length av)) (rc_bank_positions r).
Proof.
  destruct geometry as (G1 & G2 & G3 & _). destruct bank_recipe as (_ & _ & _ & Hp). unfold vec_make.
  destruct (Z.ltb_spec (rc_addr_vec_size r) 0); [lia|]. eexists. split_and!; [done|rewrite length_replicate; lia| |].
  - apply vget_Ok. split; [lia|]. apply lookup_replicate. split; [done|lia].
  - rewrite length_replicate. eapply Forall_impl; [exact Hp|]. cbn. lia.
Qed.

Lemma slot_column (slot : Z) : 0 <= slot < rc_num_cls r -> s32 (slot * rc_internal_prefetch_size r) = Ok (slot * rc_internal_prefetch_size r).
Proof.
  intros Hs. destruct geometry as (_ & _ & _ & _ & _ & _ & G7 & _ & G9). apply s32_ok.
  pose proof (Z.mul_div_le (rc_num_cols r) (rc_internal_prefetch_size r) G7). nia.
Qed.

Lemma stagger_total (u c flat : Z) : 0 < u < 2 ^ 31 -> 0 < c < 2 ^ 31 -> is_ok (stagger_offset u c flat).
Proof.
  intros Hu Hc. unfold stagger_offset, quot_u, rem_u. rewrite (wrap_u64_small u), (wrap_u64_small c), (wrap_u64_small (u + c - 1)) by lia.
  rewrite (proj2 (Z.eqb_neq u 0)), (proj2 (Z.eqb_neq c 0)) by lia. cbn [mbind result_bind].
  destruct (Z.leb_spec u c); [by eexists|]. destruct (Z.eqb_spec ((u + c - 1) / c) 0) as [Ez|_]; [|by eexists].
  apply Z.div_small_iff in Ez; lia.
Qed.

Lemma streaming_ok (idx stream_cls : Z) (stagger : bool) :
  0 <= idx < 2 ^ 64 -> 0 < rc_total_bank_units r < 2 ^ 31 -> 0 < stream_cls <= rc_num_cls r ->
  exists av, streaming idx (rc_addr_vec_size r) (rc_bank_positions r) (rc_bank_counts r) (rc_total_bank_units r) (rc_row_pos r)
    (rc_col_pos r) (rc_num_rows r) (rc_internal_prefetch_size r) stream_cls stagger = Ok av /\ coords_ok r av.
Proof.
  intros Hi Hu Hc. destruct geometry as (G1 & G2 & G3 & G4 & G5 & G6 & G7 & G8 & G9). destruct bank_recipe as (B1 & B2 & B3 & B4).
  set (u := rc_total_bank_units r) in *. assert (rc_num_cls r <= rc_num_cols r) as Hcl by (rewrite G9; apply Z.div_le_upper_bound; nia).
  destruct zeros_vec as (av0 & E0 & L0 & C0 & P0). unfold streaming. rewrite E0. cbn [mbind result_bind].
  rewrite (wrap_u64_small u), (wrap_u64_small stream_cls), (wrap_u64_small (rc_num_rows r)) by lia. unfold rem_u, quot_u.
  rewrite (proj2 (Z.eqb_neq u 0)), (proj2 (Z.eqb_neq stream_cls 0)), (proj2 (Z.eqb_neq (rc_num_rows r) 0)) by lia. cbn [mbind result_bind].
  pose proof (Z.mod_pos_bound idx u ltac:(lia)) as Hm. rewrite (wrap_s_small (idx mod u)) by lia.
  assert (exists loc, 0 <= loc /\ (if stagger && (0 <? stream_cls)
    then off ← stagger_offset u stream_cls (idx mod u); Ok (wrap_u 64 (idx / u + off)) else Ok (idx / u)) = Ok loc) as (loc & Hloc & ->).
  { destruct (stagger_total u stream_cls (idx mod u)) as [off ->]; [lia..|]. cbn [mbind result_bind].
    destruct (_ && _); eexists; (split; [|done]); [apply Z.mod_pos_bound; lia|apply Z.div_pos; lia]. }
  cbn [mbind result_bind]. destruct (decompose_ok _ _ B1 B2 B3 av0 (idx mod u) P0 ltac:(lia)) as (av1 & E1 & L1 & D1 & F1).
  rewrite E1. cbn [mbind result_bind].
  pose proof (Z.mod_pos_bound (loc / stream_cls) (rc_num_rows r) ltac:(lia)) as Hr. pose proof (Z.mod_pos_bound loc stream_cls ltac:(lia)) as Hk.
  rewrite !wrap_s_small by lia.
  destruct (coords_build av1 ((loc / stream_cls) mod rc_num_rows r) (loc mod stream_cls)) as (av2 & av3 & E2 & E3 & HO);
    [lia| |done|done|lia|].
  { rewrite F1; [done|]. intros Hin. rewrite Forall_forall in B4. specialize (B4 0 Hin). lia. }
  rewrite E2. cbn [mbind result_bind]. rewrite slot_column by lia. cbn [mbind result_bind]. by exists av3.
Qed.

Lemma random_ok {G} `{RandomEngine G} `{!RandomEngineLaws G} (g : G) :
  exists av g', random g (rc_addr_vec_size r) (rc_bank_positions r) (rc_bank_counts r) (rc_row_pos r) (rc_col_pos r) (rc_num_rows r)
    (rc_num_cls r) (rc_internal_prefetch_size r) = Ok (av, g') /\ coords_ok r av.
Proof.
  destruct geometry as (G1 & G2 & G3 & G4 & G5 & G6 & G7 & G8 & G9). destruct bank_recipe as (B1 & B2 & B3 & B4).
  assert (0 < rc_num_cls r) as Hcl by (rewrite G9; apply Z.div_str_pos; lia).
  destruct zeros_vec as (av0 & E0 & L0 & C0 & P0). unfold random. rewrite E0. cbn [mbind result_bind].
  destruct (draw_digits_ok _ _ B1 B2 B3 (seqZ 0 (Z.of_nat (length (rc_bank_positions r)))) av0 g) as (av1 & g1 & E1 & L1 & D1 & F1);
    [apply NoDup_seqZ|intros i Hi%elem_of_seqZ; lia|done|].
  rewrite E1. cbn [mbind result_bind fst snd]. unfold uniform_int. rewrite (proj2 (Z.ltb_ge (rc_num_rows r - 1) 0)) by lia.
  pose proof (draw_in_range g1 0 (rc_num_rows r - 1) ltac:(lia)) as Hr. destruct (draw_int g1 0 (rc_num_rows r - 1)) as [row g2].
  cbn [mbind result_bind fst snd] in *. rewrite (proj2 (Z.ltb_ge (rc_num_cls r - 1) 0)) by lia.
  pose proof (draw_in_range g2 0 (rc_num_cls r - 1) ltac:(lia)) as Hk. destruct (draw_int g2 0 (rc_num_cls r - 1)) as [k g3].
  cbn [fst snd] in *. destruct (coords_build av1 row k) as (av2 & av3 & E2 & E3 & HO); [lia| |done|lia|lia|].
  { rewrite F1; [done|]. intros j _ [_ Hj]%vget_Ok. pose proof (Forall_lookup_1 _ _ _ _ B4 Hj) as Hp. cbn in Hp. lia. }
  rewrite E2. cbn [mbind result_bind fst snd]. rewrite slot_column by lia. cbn [mbind result_bind]. rewrite E3. cbn [mbind result_bind].
  by exists av3, g3.
Qed.
End generators.

(** ** The theorem *)

(** The recipe that describes a device: positions are levels, counts their sizes. *)
Record recipe_of (s : DRAMSpec) (r : Recipe) : Prop := mkRecipeOf {
  ro_row : rc_row_pos r = level_count s - 2;
  ro_prefetch : rc_internal_prefetch_size r = internal_prefetch_size s;
  ro_rows : vget (level_sizes (organization s)) (level_count s - 2) = Ok (rc_num_rows r);
  ro_cols : vget (level_sizes (organization s)) (level_count s - 1) = Ok (rc_num_cols r);
  ro_banks : Forall2 (fun p c => vget (level_sizes (organization s)) p = Ok c) (rc_bank_positions r) (rc_bank_counts r)
}.

Lemma init_tx_offset (name : string) (s : DRAMSpec) (m : AddrMapperBase) :
  AddrMapperBase_init name s = Ok m -> calc_log2 (get_tx_bytes s) = Ok (m_tx_offset m).
Proof.
  intros (bits & _ & H)%bind_Ok. cbn zeta in H. destruct (_ || _); [done|]. apply bind_Ok in H as (cc & _ & H). destruct (_ || _); [done|].
  apply bind_Ok in H as (lp & _ & H). apply bind_Ok in H as (la & _ & H). apply bind_Ok in H as (b2 & _ & H).
  apply bind_Ok in H as (tx & Htx & H). by apply bind_Ok in H as (row & _ & [= <-]).
Qed.

Section roundtrip.
Context (s : DRAMSpec) (m : AddrMapperBase) (name : string) (Hs : mappable s = true) (Hi : AddrMapperBase_init name s = Ok m).
Context (r : Recipe) (lv : list Z) (Hr : recipe_of s r) (Hconf : configure_address_encoding "ro-ba-ra-co-ch-byte" r = Ok (Some lv)).
Context (Htx : power_of_two (get_tx_bytes s) = true) (Hcap : capacity m * get_tx_bytes s <= 2 ^ 63).
Context (Hint : bank_units (rc_bank_counts r) * rc_num_rows r * rc_num_cls r <= 2 ^ 31).

Lemma sizes_s32 (l n : Z) : vget (level_sizes (organization s)) l = Ok n -> n < 2 ^ 31.
Proof.
  intros [_ Hl]%vget_Ok. unfold mappable in Hs. rewrite !andb_true_iff, forallb_forall in Hs. destruct Hs as ((((H & _) & _) & _) & _).
  apply list_elem_of_lookup_2, list_elem_of_In in Hl. specialize (H n Hl). lia.
Qed.

Lemma bank_level (l : Z) : 1 <= l < rc_row_pos r -> exists i c, 0 <= i < Z.of_nat (length (rc_bank_positions r)) /\
  vget (rc_bank_positions r) i = Ok l /\ vget (rc_bank_counts r) i = Ok c /\ vget lv l = Ok c /\
  vget (level_sizes (organization s)) l = Ok c.
Proof.
  intros Hl. destruct (configure_ok r _ lv Hconf) as (_ & [_ H2 H3 _] & Hall). destruct (Hall l Hl) as (c & Hc & Hc0).
  destruct (H3 l c Hc Hc0) as (i & Hir & Hp). destruct (H2 i l Hir Hp) as (_ & c' & Hc' & Hl' & _). rewrite Hc in Hl'. injection Hl' as <-.
  exists i, c. split_and!; try done; try lia. pose proof Hp as [_ Lp]%vget_Ok. pose proof Hc' as [_ Lc]%vget_Ok.
  exact (Forall2_lookup_lr _ _ _ _ _ _ (ro_banks s r Hr) Lp Lc).
Qed.

(** Slots of a row are what the mapper slices the column into. *)
Lemma num_cls_bits : rc_num_cls r = 2 ^ bit m (m_col_idx m) /\ 2 ^ bit m (m_col_idx m) * internal_prefetch_size s < 2 ^ 31.
Proof.
  pose proof (init_mapper_wf name s m Hs Hi) as Hm. destruct (mw_count s m Hm) as [En H3]. pose proof (mw_prefetch s m Hm) as Hp.
  destruct (mw_levels s m Hm (m_col_idx m)) as (b & sz & Hb & Hbr & Hsz & E); [rewrite (mw_col s m Hm); lia|].
  rewrite Z.eqb_refl in E. rewrite (mw_col s m Hm) in Hsz. replace (level_count s - 2 + 1) with (level_count s - 1) in Hsz by lia.
  pose proof (sizes_s32 _ _ Hsz) as H31. rewrite (ro_cols s r Hr) in Hsz. injection Hsz as Hsz.
  unfold bit. rewrite Hb, <- E. split; [|done].
  destruct (configure_ok r _ lv Hconf) as (Hg & _). unfold bad_geometry in Hg. rewrite !orb_false_iff, !negb_false_iff in Hg.
  destruct Hg as (_ & G9%Z.eqb_eq). rewrite G9, Hsz, E, (ro_prefetch s r Hr).
  pose proof (pow2_pos b ltac:(lia)). rewrite Z.quot_mul by lia. done.
Qed.

Lemma tx_offset : m_tx_offset m = Z.log2 (get_tx_bytes s) /\ get_tx_bytes s = 2 ^ Z.log2 (get_tx_bytes s).
Proof.
  pose proof (init_mapper_wf name s m Hs Hi) as Hm. destruct (mw_count s m Hm) as [En H3].
  apply power_of_two_spec in Htx as [Ht0 Ht]. split; [|done]. pose proof (init_tx_offset _ _ _ Hi) as H.
  assert (0 < capacity m) as Hc.
  { apply pow2_pos. apply (width_nonneg m (Z.to_nat (level_count s))). apply Forall_forall. intros i Hir%elem_of_seqZ.
    destruct (mw_levels s m Hm i ltac:(lia)) as (b & sz & Hb & Hbr & _). split; [lia|]. split; [lia|]. by exists b. }
  rewrite calc_log2_spec in H by nia. by injection H.
Qed.

(** The line number of the legacy encoding does not overflow. *)
Lemma legacy_line (av : AddrVec_t) (slot : Z) :
  coords_ok r av -> vget av (rc_col_pos r) = Ok (slot * rc_internal_prefetch_size r) -> 0 <= slot < rc_num_cls r ->
  exists b row, bank_flat (rc_bank_positions r) (rc_bank_counts r) av = Ok b /\
    quot_s (slot * rc_internal_prefetch_size r) (rc_internal_prefetch_size r) = Ok slot /\
    s32 (b * rc_num_rows r) = Ok (b * rc_num_rows r) /\
    s32 (b * rc_num_rows r * rc_num_cls r) = Ok (b * rc_num_rows r * rc_num_cls r) /\
    vget av (rc_row_pos r) = Ok row /\ s32 (row * rc_num_cls r) = Ok (row * rc_num_cls r) /\
    s32 (b * rc_num_rows r * rc_num_cls r + row * rc_num_cls r) = Ok (b * rc_num_rows r * rc_num_cls r + row * rc_num_cls r) /\
    is_ok (s32 (b * rc_num_rows r * rc_num_cls r + row * rc_num_cls r + slot)).
Proof.
  intros [Hlen H0 Hbd (row & Hrow & Hrr) _] Hcol Hsl.
  destruct (geometry r lv _ Hconf) as (_ & _ & _ & _ & G5 & _ & G7 & _ & G9). destruct (bank_recipe r lv _ Hconf) as (B1 & B2 & B3 & B4).
  pose proof (prod_take _ B3 0) as Hpos. assert (0 < rc_num_rows r * rc_num_cls r) as Hrc by nia.
  destruct (bank_flat_ok _ _ B1 B3 av Hbd) as (b & Hb & Hbr); [nia|]. exists b, row. pose proof (ro_prefetch s r Hr) as EP.
  destruct num_cls_bits as [Ecls Hcs]. rewrite <- Ecls, <- EP in Hcs.
  destruct (divmod_s_ok (slot * rc_internal_prefetch_size r) (rc_internal_prefetch_size r)) as [_ Ed]; [nia|lia|]. rewrite Z.div_mul in Ed by lia.
  assert (b * rc_num_rows r * rc_num_cls r + row * rc_num_cls r + slot < 2 ^ 31).
  { assert ((b + 1) * (rc_num_rows r * rc_num_cls r) <= 2 ^ 31) by nia. nia. }
  assert (0 <= row * rc_num_cls r) by nia. assert (0 <= b * rc_num_rows r) by nia.
  assert (b * rc_num_rows r <= b * rc_num_rows r * rc_num_cls r) by nia.
  split_and!; try done; [apply s32_ok; lia..|]. eexists. apply s32_ok. lia.
Qed.

Lemma make_request_ok (c : LTConfig) (av : AddrVec_t) (type source : Z) (cb : option Z) :
  lt_recipe c = r -> lt_physical_byte_addresses c = true -> lt_physical_level_counts c = lv -> coords_ok r av ->
  exists a, make_request c (get_tx_bytes s) av type source cb =
      Ok (mkRequest a (-1) av type source (-1) (-1) 0 (-1) (get_tx_bytes s) (-1) (-1) false (-1) (-1) cb) /\
    forall q, intra_channel_addr q = a -> exists av', RoBaRaCoCh_apply m q = Ok (set_addr_vec q av') /\
      (forall l, 1 <= l <= rc_row_pos r -> vget av' l = vget av l) /\
      exists slot, vget av' (rc_col_pos r) = Ok slot /\ vget av (rc_col_pos r) = Ok (slot * rc_internal_prefetch_size r).
Proof.
  intros Er Ep El HO. pose proof (init_mapper_wf name s m Hs Hi) as Hm. destruct (mw_count s m Hm) as [_ H3].
  destruct (geometry r lv _ Hconf) as (G1 & G2 & G3 & _). destruct num_cls_bits as [Ecls Hcs]. destruct tx_offset as [Eo Et].
  pose proof (ro_row s r Hr) as ER. pose proof (ro_prefetch s r Hr) as EP. pose proof HO as [Hlen H0 Hbd (row & Hrow & Hrr) (slot & Hcol & Hsl)].
  assert (rc_num_rows r = 2 ^ bit m (level_count s - 2 - 1)) as Erow.
  { destruct (level_size s m Hm (level_count s - 2) ltac:(lia)) as [E _]. rewrite (ro_rows s r Hr) in E. by injection E. }
  assert (forall l, 1 <= l < level_count s - 2 -> vget lv l = vget (level_sizes (organization s)) l) as Hlv.
  { intros l Hl. destruct (bank_level l ltac:(lia)) as (i & cnt & _ & _ & _ & E1 & E2). by rewrite E1, E2. }
  assert (forall l, 1 <= l <= level_count s - 2 -> exists x sz, vget av l = Ok x /\ vget (level_sizes (organization s)) l = Ok sz /\ 0 <= x < sz) as Hd.
  { intros l Hl. destruct (decide (l = level_count s - 2)) as [->|].
    - exists row, (rc_num_rows r). rewrite <- ER at 1. by rewrite (ro_rows s r Hr).
    - destruct (bank_level l ltac:(lia)) as (i & cnt & Hir & E1 & E2 & _ & E4). destruct (Hbd i l cnt) as (x & Hx & Hxr); [apply elem_of_seqZ; lia|done|done|].
      by exists x, cnt. }
  assert (vget av (level_count s - 1) = Ok (slot * internal_prefetch_size s)) as Hcol'.
  { rewrite <- EP, <- Hcol. f_equal. lia. }
  rewrite Ecls in Hsl. rewrite Et in Hcap. exists (phys_addr s m av slot (Z.log2 (get_tx_bytes s))).
  split.
  - destruct (legacy_line av slot HO Hcol ltac:(lia)) as (b & row' & E1 & E2 & E3 & E4 & E5 & E6 & E7 & [line E8]).
    unfold make_request. rewrite Er, Ep, El, E1. cbn [mbind result_bind]. rewrite Hcol. cbn [mbind result_bind]. rewrite E2. cbn [mbind result_bind].
    rewrite E3. cbn [mbind result_bind]. rewrite E4. cbn [mbind result_bind]. rewrite E5. cbn [mbind result_bind]. rewrite E6. cbn [mbind result_bind].
    rewrite E7. cbn [mbind result_bind]. rewrite E8. cbn [mbind result_bind].
    replace (rc_col_pos r) with (level_count s - 1) by lia. rewrite ER, EP, Erow, Ecls. rewrite Et at 1.
    by rewrite (physical_ok s m Hm lv av slot _ Hlv ltac:(lia) H0 Hd Hcol' Hsl (Z.log2_nonneg _) Hcap Hcs).
  - intros q Hq. destruct (physical_decodes s m Hm av slot (Z.log2 (get_tx_bytes s)) ltac:(lia) Hd Hsl (Z.log2_nonneg _) q Eo Hq) as (av' & Ha & Hf & Hc').
    exists av'. split_and!; [done|by rewrite ER|]. exists slot. split; [|done]. rewrite <- Hc'. f_equal. lia.
Qed.
End roundtrip.

Lemma init_physical {G} (p : LTParams) (g : G) (f : LatTp G) :
  lp_address_encoding p = "ro-ba-ra-co-ch-byte"%string -> LT_init p g = Ok f ->
  exists lv, configure_address_encoding "ro-ba-ra-co-ch-byte" (lp_recipe p) = Ok (Some lv) /\ lt_recipe (lt_cfg f) = lp_recipe p /\
    lt_physical_byte_addresses (lt_cfg f) = true /\ lt_physical_level_counts (lt_cfg f) = lv /\
    lt_stream_cls (lt_cfg f) = lp_stream_cls p.
Proof.
  intros Ee (enc & Henc & Hi)%bind_Ok. rewrite Ee in Henc. apply bind_Ok in Hi as ([[mode samples] probes] & _ & Hi).
  destruct (_ && _); [done|]. injection Hi as <-. cbn. destruct enc as [lv|].
  - by exists lv.
  - exfalso. unfold configure_address_encoding in Henc. rewrite bool_decide_false, bool_decide_true in Henc by done. cbn [negb] in Henc.
    destruct (bad_geometry _); [done|]. apply bind_Ok in Henc as (l0 & _ & H). apply bind_Ok in H as (l1 & _ & H).
    by apply bind_Ok in H as (u & _ & H).
Qed.

(** C28. With physical byte addresses, the latency-throughput frontend always finds the
    next stream address and the next probe address, can build the request, and the
    address of that request is decoded by the RoBaRaCoCh mapper to exactly the
    coordinates the frontend aimed at, the column in bursts instead of columns.  The
    recipe describes the mapped device, a stream covers at most the columns of a row,
    sizes are powers of two, the device holds at most 2^63 bytes and 2^31 lines, and
    the stream index has not passed 64 bits. *)
Theorem lattp_address_roundtrip {G} `{RandomEngine G} `{!RandomEngineLaws G}
  (s : DRAMSpec) (m : AddrMapperBase) (name : string) (p : LTParams) (g : G) (f0 f : LatTp G) :
  mappable s = true -> AddrMapperBase_init name s = Ok m -> recipe_of s (lp_recipe p) ->
  lp_address_encoding p = "ro-ba-ra-co-ch-byte"%string -> LT_init p g = Ok f0 -> lt_cfg f = lt_cfg f0 ->
  0 <= lt_streaming_idx f < 2 ^ 64 -> 0 < rc_total_bank_units (lp_recipe p) < 2 ^ 31 ->
  0 < lp_stream_cls p <= rc_num_cls (lp_recipe p) ->
  power_of_two (get_tx_bytes s) = true -> capacity m * get_tx_bytes s <= 2 ^ 63 ->
  bank_units (rc_bank_counts (lp_recipe p)) * rc_num_rows (lp_recipe p) * rc_num_cls (lp_recipe p) <= 2 ^ 31 ->
  exists av_stream av_probe g', streaming_addr_vec f = Ok av_stream /\ random_addr_vec f = Ok (av_probe, g') /\
    forall av type source cb, av = av_stream \/ av = av_probe ->
      exists r w, make_request (lt_cfg f) (get_tx_bytes s) av type source cb = Ok r /\ addr_vec r = av /\
        RoBaRaCoCh_apply m (set_intra_channel_addr r (addr r)) = Ok (set_addr_vec (set_intra_channel_addr r (addr r)) w) /\
        (forall l, 1 <= l <= rc_row_pos (lp_recipe p) -> vget w l = vget av l) /\
        exists slot, vget w (rc_col_pos (lp_recipe p)) = Ok slot /\
          vget av (rc_col_pos (lp_recipe p)) = Ok (slot * rc_internal_prefetch_size (lp_recipe p)).
Proof.
  intros Hs Hi Hr Henc Hf Ec Hidx Hu Hsc Htx Hcap Hint. destruct (init_physical p g f0 Henc Hf) as (lv & Hconf & E1 & E2 & E3 & E4).
  assert (rc_num_cols (lp_recipe p) < 2 ^ 31) as Hcols by (eapply sizes_s32; [done|apply (ro_cols s _ Hr)]).
  assert (rc_num_rows (lp_recipe p) < 2 ^ 31) as Hrows by (eapply sizes_s32; [done|apply (ro_rows s _ Hr)]).
  destruct (streaming_ok (lp_recipe p) lv _ Hconf Hcols Hrows (lt_streaming_idx f) (lp_stream_cls p) (lt_stagger_stream_rows (lt_cfg f)))
    as (av1 & Ha1 & HO1); [done..|].
  destruct (random_ok (lp_recipe p) lv _ Hconf Hcols (lt_rng f)) as (av2 & g' & Ha2 & HO2).
  exists av1, av2, g'. unfold streaming_addr_vec, random_addr_vec. rewrite Ec, E1, E4. rewrite Ec in Ha1. split_and!; [done|done|].
  intros av type source cb Hav. assert (coords_ok (lp_recipe p) av) as HO by (by destruct Hav as [-> | ->]).
  destruct (make_request_ok s m name Hs Hi (lp_recipe p) lv Hr Hconf Htx Hcap Hint (lt_cfg f0) av type source cb E1 E2 E3 HO) as (a & Hmk & Hdec).
  eexists. destruct (Hdec (set_intra_channel_addr (mkRequest a (-1) av type source (-1) (-1) 0 (-1) (get_tx_bytes s) (-1) (-1) false (-1) (-1) cb) a)
    eq_refl) as (w & Hw & Hl & Hc). exists w. split; [exact Hmk|]. done.
Qed.

(** ** The latency-throughput frontend on a concrete system

    A linear congruential engine, a recipe for a small DDR4 device and the
    frontend over an atomic controller: witnesses of the theorems, and the line
    number that overflows. *)
#[export] Instance lcg : RandomEngine Z := fun g lo hi => (lo + g mod (hi - lo + 1), (g * 25173 + 13849) mod 65536).
#[export] Instance lcg_laws : RandomEngineLaws Z.
Proof. intros g lo hi Hle. cbn. pose proof (Z.mod_pos_bound g (hi - lo + 1)). lia. Qed.

#[export] Instance atomic_stats : MemoryStats (GenericDRAMSystem (Atomic unit) Interleave) := reset_stats_recursive Atomic_reset_stats.
#[export] Instance atomic_stats_laws : MemoryStatsLaws (GenericDRAMSystem (Atomic unit) Interleave).
Proof.
  intros m. apply reset_recursive_drained. intros c. unfold drained, take_callbacks, Atomic_callbacks. intros [= El _].
  unfold Atomic_reset_stats, at_clear_log. cbn. by rewrite El.
Qed.

Definition small_recipe : Recipe := mkRecipe 6 [2; 3; 1] [2; 2; 2] 8 4 5 64 1024 8 128.
Definition lt_params : LTParams :=
  mkLTParams 4 0 "random-probe" 3 false 0 2 true 0 60 "ro-ba-ra-co-ch-byte" small_recipe.

Definition lt_fail : LatTp Z :=
  mkLatTp (mkLTConfig small_recipe 0 false false [] 0 0 false 0 0 RandomProbe 0 0 false) 0 (mkLTTurn 0 false) 0 false false 0 false
    None None 0 zero_stats.
Definition lt0 : LatTp Z := match LT_init lt_params 7 with Ok f => f | Err _ => lt_fail end.

(** Two ticks: a stream request and a probe are in flight. *)
Definition lt_after (k : nat) : LatTp Z * GenericDRAMSystem (Atomic unit) Interleave :=
  match iterM k (fun fm => LT_tick fm.1 fm.2) (lt0, atomic_memory) with Ok fm => fm | Err _ => (lt_fail, atomic_memory) end.

Lemma lt_after_reach : lt_reach (M := GenericDRAMSystem (Atomic unit) Interleave) (lt_after 2).1.
Proof.
  assert (lt_reach (M := GenericDRAMSystem (Atomic unit) Interleave) lt0) as H0
    by (apply (lt_start lt_params 7); [cbn; lia|vm_compute; reflexivity]).
  assert (lt_inv lt0) as HI by (split; vm_compute; done).
  assert (H1 : LT_tick lt0 atomic_memory = Ok (lt_after 1)) by (vm_compute; reflexivity). rewrite (surjective_pairing (lt_after 1)) in H1.
  destruct (LT_tick_inv _ _ _ _ HI atomic_memory_drained H1) as [_ Hd].
  assert (H2 : LT_tick (lt_after 1).1 (lt_after 1).2 = Ok (lt_after 2)) by (vm_compute; reflexivity).
  rewrite (surjective_pairing (lt_after 2)) in H2.
  eapply lt_ticked; [eapply lt_ticked; [exact H0|apply atomic_memory_drained|exact H1]|exact Hd|exact H2].
Qed.

Lemma lt_after_elides : elides (lt_after 2).1.
Proof. split_and!; vm_compute; reflexivity. Qed.

Lemma lattp_idle_exact_witness :
  exists f', LT_idle_ticks (lt_after 2).1 100 = Ok 6 /\ LT_fast_forward (lt_after 2).1 6 = Ok f' /\
    iterM 6 (fun fm => LT_tick fm.1 fm.2) ((lt_after 2).1, (lt_after 2).2) = Ok (f', (lt_after 2).2) /\
    busy_tick f' (lt_after 2).2.
Proof.
  destruct (lattp_idle_exact (M := GenericDRAMSystem (Atomic unit) Interleave) (lt_after 2).1 100 lt_after_reach ltac:(lia))
    as (n & Hn & Hb & Hall & Hmax).
  assert (LT_idle_ticks (lt_after 2).1 100 = Ok 6) as E by (vm_compute; reflexivity). rewrite E in Hn. injection Hn as <-.
  destruct (Hall 6 (lt_after 2).2 ltac:(lia)) as (f' & Hf & Hit & _). exists f'. split; [exact E|]. split; [exact Hf|].
  split; [exact Hit|]. exact (Hmax lt_after_elides (eq_refl : 6 < 100) f' (lt_after 2).2 Hf).
Defined.

Definition robaracoch : AddrMapperBase :=
  match AddrMapperBase_init "RoBaRaCoCh" ddr4 with Ok m => m | Err _ => mkMapper 0 [] 0 0 0 end.

Lemma lattp_address_roundtrip_witness :
  exists av_stream av_probe g', streaming_addr_vec (lt_after 2).1 = Ok av_stream /\ random_addr_vec (lt_after 2).1 = Ok (av_probe, g') /\
    forall av type source cb, av = av_stream \/ av = av_probe ->
      exists r w, make_request (lt_cfg (lt_after 2).1) (get_tx_bytes ddr4) av type source cb = Ok r /\ addr_vec r = av /\
        RoBaRaCoCh_apply robaracoch (set_intra_channel_addr r (addr r)) = Ok (set_addr_vec (set_intra_channel_addr r (addr r)) w) /\
        (forall l, 1 <= l <= 4 -> vget w l = vget av l) /\
        exists slot, vget w 5 = Ok slot /\ vget av 5 = Ok (slot * 8).
Proof.
  apply (lattp_address_roundtrip ddr4 robaracoch "RoBaRaCoCh" lt_params 7 lt0 (lt_after 2).1).
  - vm_compute. reflexivity.
  - vm_compute. reflexivity.
  - split; [vm_compute; reflexivity..|]. repeat constructor.
  - reflexivity.
  - vm_compute. reflexivity.
  - vm_compute. reflexivity.
  - vm_compute. split; congruence.
  - vm_compute. split; congruence.
  - vm_compute. split; congruence.
  - vm_compute. reflexivity.
  - vm_compute. congruence.
  - vm_compute. congruence.
Defined.

(** The line number of the last bank of a large device does not fit an [int], although
    its physical address does. *)
Definition large_recipe : Recipe := mkRecipe 6 [1; 2; 3] [8; 8; 4] 256 4 5 131072 2048 16 128.

Lemma line_number_overflows :
  make_request (mkLTConfig large_recipe 8 false false [] 1 100 false 0 1 RandomProbe 1 0 false) 64 [0; 7; 7; 3; 131071; 0] Read 0 None = Err Undef /\
  physical_byte_address [0; 7; 7; 3; 131071; 0] [0; 8; 8; 4] 4 5 131072 128 16 64 = Ok 274877898752.
Proof. split; vm_compute; reflexivity. Qed.
