(* ===== verification/Recorders.v ===== *)
(** * Trace recorders

    [plugin/impl/bin_trace_recorder.cpp], [cmd_trace_recorder.cpp],
    [req_trace_recorder.cpp] and [live_trace_streamer.cpp]: plugins that write every
    issued command, or every departing request, to a file or to a socket.  A binary file is its list of bytes with a write
    position, a text file its string.  Opening a file succeeds or fails as the caller
    says. *)

From Stdlib Require Import ZArith Lia SpecFloat Ascii.
From stdpp Require Import pretty.
From S2P Require Import Prelude Base Spec Node Device Controller.

Local Open Scope Z_scope.

(** ** Bytes *)

(** The object representation of an integer of [n] bytes, little-endian. *)
Fixpoint le_bytes (n : nat) (v : Z) : list Z :=
  match n with O => [] | S n => v mod 256 :: le_bytes n (v / 256) end.

Fixpoint str_bytes (s : string) : list Z :=
  match s with EmptyString => [] | String c s => Z.of_N (N_of_ascii c) :: str_bytes s end.

(** [std::ofstream] in binary mode. *)
Record OutFile := mkOut { o_bytes : list Z; o_pos : nat }.

Definition o_write (f : OutFile) (bs : list Z) : OutFile :=
  mkOut (take (o_pos f) (o_bytes f) ++ bs ++ drop (o_pos f + length bs) (o_bytes f)) (o_pos f + length bs).

Definition seekp (f : OutFile) (pos : nat) : OutFile := mkOut (o_bytes f) pos.

Definition write_cstr (f : OutFile) (s : string) : OutFile := o_write f (str_bytes s ++ [0]).
Definition write_val (n : nat) (f : OutFile) (v : Z) : OutFile := o_write f (le_bytes n v).
Definition write_array (n : nat) (f : OutFile) (l : list Z) : OutFile :=
  match l with [] => f | _ => o_write f (l ≫= le_bytes n) end.

Definition pad_to_8 (f : OutFile) : OutFile :=
  let rem := Z.land (Z.of_nat (o_pos f)) 7 in
  if rem =? 0 then f else o_write f (replicate (Z.to_nat (8 - rem)) 0).

(** ** [BinTraceRecorder] *)
Record BinTrace := mkBin {
  bin_dram_type : string;
  bin_level_count : Z;
  bin_file : OutFile;
  bin_open : bool;
  bin_data_offset : Z;
  m_clk_buf : list Z;
  m_arrive_buf : list Z;
  m_cmd_buf : list Z;
  m_type_buf : list Z;
  m_source_buf : list Z;
  m_addr_bufs : list (list Z)
}.

Record Header := mkHeader {
  h_magic : list Z;
  h_version : list Z;
  h_flags : Z;
  h_level_count : Z;
  h_command_count : Z;
  h_timing_count : Z;
  h_channel_width : Z;
  h_prefetch_size : Z;
  h_dq : Z;
  h_channel_id : Z;
  h_read_latency : Z;
  h_num_entries : Z;
  h_data_offset : Z;
  h_dram_type : list Z
}.

(** The packed structure in memory. *)
Definition header_bytes (h : Header) : list Z :=
  h_magic h ++ h_version h ++ le_bytes 2 (h_flags h) ++ le_bytes 2 (h_level_count h) ++ le_bytes 2 (h_command_count h) ++
  le_bytes 2 (h_timing_count h) ++ le_bytes 2 (h_channel_width h) ++ le_bytes 2 (h_prefetch_size h) ++ le_bytes 2 (h_dq h) ++
  le_bytes 4 (h_channel_id h) ++ le_bytes 4 (h_read_latency h) ++ le_bytes 8 (h_num_entries h) ++ le_bytes 8 (h_data_offset h) ++
  h_dram_type h.

(** [memcpy] of at most 15 characters into 16 zeroed ones. *)
Definition dram_type_field (dram_type : string) : list Z :=
  let bs := take 15 (str_bytes dram_type) in bs ++ replicate (16 - length bs) 0.

Definition make_header (s : DRAMSpec) (channel_id : Z) (dram_type : string) : Header :=
  mkHeader (str_bytes "RAM2BIN" ++ [0]) [1; 1] 0 (level_count s) (command_count s) (timing_count s) (channel_width s)
    (internal_prefetch_size s) (dq (organization s)) channel_id (read_latency s) 0 0 (dram_type_field dram_type).

Definition write_header (f : OutFile) (s : DRAMSpec) (channel_id : Z) (dram_type : string) : OutFile :=
  o_write f (header_bytes (make_header s channel_id dram_type)).

Definition meta_bits (m : DRAMCommandMeta) : Z :=
  let b (x : bool) (i : Z) := if x then Z.shiftl 1 i else 0 in
  Z.lor (Z.lor (Z.lor (Z.lor (Z.lor (b (is_opening m) 0) (b (is_closing m) 1)) (b (is_accessing m) 2)) (b (is_refreshing m) 3))
    (b (is_row_command m) 4)) (b (is_column_command m) 5).

Definition write_spec_section (f : OutFile) (s : DRAMSpec) : OutFile :=
  let f := foldl write_cstr f (level_names s) in
  let f := foldl (write_val 4) f (level_sizes (organization s)) in
  let f := foldl write_cstr f (command_names s) in
  let f := foldl (fun f m => write_val 1 f (meta_bits m)) f (command_meta s) in
  let f := foldl (write_val 1) f (command_cycles s) in
  let f := foldl write_cstr f (timing_names s) in
  foldl (write_val 4) f (timing_vals s).

(** [setup]; [opened] says whether the file could be opened. *)
Definition Bin_setup (s : DRAMSpec) (channel_id : Z) (path dram_type : string) (opened : bool) : result BinTrace :=
  if negb opened
  then Err (Throw ("BinTraceRecorder: failed to open " +:+ path +:+ ".ch" +:+ pretty channel_id +:+ ".ram2bin"))
  else
    let f := write_header (mkOut [] 0) s channel_id dram_type in
    let f := pad_to_8 (write_spec_section f s) in
    Ok (mkBin dram_type (level_count s) f true (Z.of_nat (o_pos f)) [] [] [] [] [] (replicate (Z.to_nat (level_count s)) [])).

(** [m_addr_bufs[k].push_back(req.addr_vec[k])]. *)
Definition push_addr (v : AddrVec_t) (bufs : list (list Z)) (k : Z) : result (list (list Z)) :=
  b ← vget bufs k;
  x ← vget v k;
  vset bufs k (b ++ [wrap_s 32 x]).

Definition Bin_on_issue (b : BinTrace) (clk : Clk_t) (r : Request) : result BinTrace :=
  bufs ← foldM (push_addr (addr_vec r)) (m_addr_bufs b) (seqZ 0 (bin_level_count b));
  Ok (mkBin (bin_dram_type b) (bin_level_count b) (bin_file b) (bin_open b) (bin_data_offset b)
        (m_clk_buf b ++ [clk]) (m_arrive_buf b ++ [arrive r]) (m_cmd_buf b ++ [wrap_u 8 (command r)])
        (m_type_buf b ++ [wrap_s 8 (type_id r)]) (m_source_buf b ++ [wrap_s 16 (source_id r)]) bufs).

Definition flush_arrays (b : BinTrace) : OutFile :=
  let f := write_array 8 (bin_file b) (m_clk_buf b) in
  let f := write_array 8 f (m_arrive_buf b) in
  let f := write_array 1 f (m_cmd_buf b) in
  let f := write_array 1 f (m_type_buf b) in
  let f := write_array 2 f (m_source_buf b) in
  foldl (write_array 4) f (m_addr_bufs b).

Definition patch_header (b : BinTrace) (f : OutFile) : OutFile :=
  let f := seekp f 32 in
  let f := write_val 8 f (Z.of_nat (length (m_clk_buf b))) in
  write_val 8 f (bin_data_offset b).

Definition Bin_finalize (b : BinTrace) : BinTrace :=
  if negb (bin_open b) then b
  else mkBin (bin_dram_type b) (bin_level_count b) (patch_header b (flush_arrays b)) false (bin_data_offset b) [] [] [] [] [] [].

(** ** [CmdTraceRecorder], binary mode *)
Record CmdBin := mkCmdBin { cb_level_count : Z; cb_bytes : list Z }.

Definition write_binary_header (s : DRAMSpec) : list Z :=
  le_bytes 4 (level_count s) ++ le_bytes 4 (command_count s) ++
  (level_names s ≫= (fun n => str_bytes n ++ [0])) ++ (command_names s ≫= (fun n => str_bytes n ++ [0])).

(** [level_count] coordinates are read from the vector, whatever its size. *)
Definition write_binary_record (levels : Z) (clk : Clk_t) (r : Request) : result (list Z) :=
  if Z.of_nat (length (addr_vec r)) <? levels then Err Undef
  else Ok (le_bytes 8 clk ++ le_bytes 4 (command r) ++ le_bytes 4 (type_id r) ++ le_bytes 4 (source_id r) ++
           (take (Z.to_nat levels) (addr_vec r) ≫= le_bytes 4)).

Definition CmdBin_setup (s : DRAMSpec) : CmdBin := mkCmdBin (level_count s) (write_binary_header s).
Definition CmdBin_on_issue (c : CmdBin) (clk : Clk_t) (r : Request) : result CmdBin :=
  bs ← write_binary_record (cb_level_count c) clk r;
  Ok (mkCmdBin (cb_level_count c) (cb_bytes c ++ bs)).

(** ** Text modes *)
Definition nl : string := String (ascii_of_nat 10) EmptyString.
Definition joined (l : list string) : string := foldr (fun s acc => "," +:+ s +:+ acc) "" l.

Definition coordinates (levels : Z) (v : AddrVec_t) : result (list string) :=
  mapM (fun i => x ← vget v i; Ok (pretty x)) (seqZ 0 levels).

Definition write_text_header (s : DRAMSpec) : string := "clock,command" +:+ joined (level_names s) +:+ ",type,source" +:+ nl.

Definition write_text_record (s : DRAMSpec) (clk : Clk_t) (r : Request) : result string :=
  name ← vget (command_names s) (command r);
  av ← coordinates (level_count s) (addr_vec r);
  Ok (pretty clk +:+ "," +:+ name +:+ joined av +:+ "," +:+ pretty (type_id r) +:+ "," +:+ pretty (source_id r) +:+ nl).

Definition ReqTrace_setup (s : DRAMSpec) : string :=
  "arrive,depart,type,source,addr,frontend_id,frontend_sub_id,admission_ordinal" +:+ joined (level_names s) +:+ nl.

(** [on_request_departure_scheduled]: what is appended to the file. *)
Definition ReqTrace_departure (s : DRAMSpec) (r : Request) : result string :=
  if type_id r <? 0 then Ok ""
  else
    av ← coordinates (level_count s) (addr_vec r);
    Ok (pretty (arrive r) +:+ joined [pretty (depart r); pretty (type_id r); pretty (source_id r); pretty (addr r);
          pretty (frontend_id r); pretty (frontend_sub_id r); pretty (admission_ordinal r)] +:+ joined av +:+ nl).

(** ** [LiveTraceStreamer]

    Bodies of HTTP requests in the order they are sent; whether the visualizer is
    there does not matter to the plugin but for the answer to its status request,
    which is an argument, as is the real time. *)
Record Streamer := mkStreamer {
  ls_tick_interval : Z;
  ls_update_interval_s : spec_float;
  ls_level_count : Z;
  ls_interrupted : bool;
  ls_clk_buf : list Z;
  ls_arrive_buf : list Z;
  ls_cmd_buf : list Z;
  ls_type_buf : list Z;
  ls_source_buf : list Z;
  ls_addr_bufs : list (list Z);
  ls_last_flush_time : Z;
  ls_last_flush_tick : Clk_t;
  ls_posts : list string
}.

Definition dquote : string := String (ascii_of_nat 34) EmptyString.
Definition jstr (s : string) : string := dquote +:+ s +:+ dquote.
(** A member of an object, and of an array after the first. *)
Definition jfield (name value : string) : string := jstr name +:+ ":" +:+ value.
Definition jlist (l : list string) : string := "[" +:+ String.concat "," l +:+ "]".
Definition jobject (l : list string) : string := "{" +:+ String.concat "," l +:+ "}".
Definition jbool (b : bool) : string := if b then "true" else "false".

Definition json_str_array (v : list string) : string := jlist (map jstr v).
Definition json_int_array (v : list Z) : string := jlist (map pretty v).
Definition json_cmd_meta (l : list DRAMCommandMeta) : string :=
  jlist (map (fun m => jobject [jfield "isOpening" (jbool (is_opening m)); jfield "isClosing" (jbool (is_closing m));
                                jfield "isAccessing" (jbool (is_accessing m)); jfield "isRefreshing" (jbool (is_refreshing m));
                                jfield "isRowCommand" (jbool (is_row_command m)); jfield "isColumnCommand" (jbool (is_column_command m))]) l).

Definition init_body (s : DRAMSpec) (channel_id : Z) (dram_type : string) : string :=
  jobject [jfield "type" (jstr "init");
    jfield "header" (jobject [jfield "version" "[1,1]"; jfield "levelCount" (pretty (level_count s));
      jfield "commandCount" (pretty (command_count s)); jfield "timingCount" (pretty (timing_count s));
      jfield "channelWidth" (pretty (channel_width s)); jfield "prefetchSize" (pretty (internal_prefetch_size s));
      jfield "dq" (pretty (dq (organization s))); jfield "channelId" (pretty channel_id);
      jfield "readLatency" (pretty (read_latency s)); jfield "dramType" (jstr dram_type)]);
    jfield "spec" (jobject [jfield "levelNames" (json_str_array (level_names s));
      jfield "levelSizes" (json_int_array (level_sizes (organization s)));
      jfield "commandNames" (json_str_array (command_names s)); jfield "commandMeta" (json_cmd_meta (command_meta s));
      jfield "commandCycles" (json_int_array (command_cycles s)); jfield "timingNames" (json_str_array (timing_names s));
      jfield "timingValues" (json_int_array (timing_vals s))])].

Definition status_body : string := jobject [jfield "type" (jstr "status")].
Definition done_body : string := jobject [jfield "type" (jstr "done")].
Definition events_body (events : list string) : string := jobject [jfield "type" (jstr "events"); jfield "events" (jlist events)].

Definition event_json (clk arrive cmd type source : Z) (coords : list Z) : string :=
  jobject [jfield "clk" (pretty clk); jfield "arrive" (pretty arrive); jfield "cmdId" (pretty cmd); jfield "typeId" (pretty type);
           jfield "sourceId" (pretty source); jfield "addr" (json_int_array coords)].

Definition http_post (st : Streamer) (body : string) : Streamer :=
  mkStreamer (ls_tick_interval st) (ls_update_interval_s st) (ls_level_count st) (ls_interrupted st) (ls_clk_buf st)
    (ls_arrive_buf st) (ls_cmd_buf st) (ls_type_buf st) (ls_source_buf st) (ls_addr_bufs st) (ls_last_flush_time st)
    (ls_last_flush_tick st) (ls_posts st ++ [body]).

Definition clear_buffers (st : Streamer) : Streamer :=
  mkStreamer (ls_tick_interval st) (ls_update_interval_s st) (ls_level_count st) (ls_interrupted st) [] [] [] [] []
    (map (fun _ => []) (ls_addr_bufs st)) (ls_last_flush_time st) (ls_last_flush_tick st) (ls_posts st).

Definition Streamer_setup (s : DRAMSpec) (channel_id : Z) (tick_interval : Z) (update_interval_s : spec_float) (dram_type : string)
  (now : Z) (clk : Clk_t) : Streamer :=
  mkStreamer tick_interval update_interval_s (level_count s) false [] [] [] [] [] (replicate (Z.to_nat (level_count s)) []) now clk
    [init_body s channel_id dram_type].

Definition Streamer_on_issue (st : Streamer) (clk : Clk_t) (r : Request) : result Streamer :=
  if ls_interrupted st then Ok st
  else
    bufs ← foldM (push_addr (addr_vec r)) (ls_addr_bufs st) (seqZ 0 (ls_level_count st));
    Ok (mkStreamer (ls_tick_interval st) (ls_update_interval_s st) (ls_level_count st) (ls_interrupted st)
          (ls_clk_buf st ++ [clk]) (ls_arrive_buf st ++ [arrive r]) (ls_cmd_buf st ++ [wrap_u 8 (command r)])
          (ls_type_buf st ++ [wrap_s 8 (type_id r)]) (ls_source_buf st ++ [wrap_s 16 (source_id r)]) bufs
          (ls_last_flush_time st) (ls_last_flush_tick st) (ls_posts st)).

(** The event at a position of the buffers. *)
Definition event_at (st : Streamer) (i : Z) : result string :=
  clk ← vget (ls_clk_buf st) i;
  arr ← vget (ls_arrive_buf st) i;
  cmd ← vget (ls_cmd_buf st) i;
  type ← vget (ls_type_buf st) i;
  source ← vget (ls_source_buf st) i;
  coords ← mapM (fun k => b ← vget (ls_addr_bufs st) k; vget b i) (seqZ 0 (ls_level_count st));
  Ok (event_json clk arr cmd type source coords).

Definition flush_events (st : Streamer) : result Streamer :=
  if (length (ls_clk_buf st) =? 0)%nat then Ok st
  else
    events ← mapM (event_at st) (seqZ 0 (Z.of_nat (length (ls_clk_buf st))));
    Ok (clear_buffers (http_post st (events_body events))).

(** [response.find] of the member that says so. *)
Definition check_interrupted (response : string) : bool :=
  match String.index 0 (jfield "interrupted" "true") response with Some _ => true | None => false end.

(** Seconds between two readings of a clock in nanoseconds. *)
Definition elapsed_s (now last : Z) : spec_float :=
  SFdiv 53 1024 (binary_normalize 53 1024 (now - last) 0 false) (binary_normalize 53 1024 1000000000 0 false).

Definition Streamer_post_schedule (st : Streamer) (clk : Clk_t) (now : Z) (response : string) : result Streamer :=
  if (length (ls_clk_buf st) =? 0)%nat then Ok st
  else if (ls_tick_interval st <=? clk - ls_last_flush_tick st) ||
          SFleb (ls_update_interval_s st) (elapsed_s now (ls_last_flush_time st))
  then
    let st := http_post st status_body in
    if check_interrupted response
    then Ok (clear_buffers (mkStreamer (ls_tick_interval st) (ls_update_interval_s st) (ls_level_count st) true (ls_clk_buf st)
               (ls_arrive_buf st) (ls_cmd_buf st) (ls_type_buf st) (ls_source_buf st) (ls_addr_bufs st) (ls_last_flush_time st)
               (ls_last_flush_tick st) (ls_posts st)))
    else
      st ← flush_events st;
      Ok (mkStreamer (ls_tick_interval st) (ls_update_interval_s st) (ls_level_count st) (ls_interrupted st) (ls_clk_buf st)
            (ls_arrive_buf st) (ls_cmd_buf st) (ls_type_buf st) (ls_source_buf st) (ls_addr_bufs st) now clk (ls_posts st))
  else Ok st.

Definition Streamer_finalize (st : Streamer) : result Streamer :=
  st ← (if ls_interrupted st then Ok st else st ← flush_events st; Ok (http_post st done_body));
  let st := clear_buffers st in
  Ok (mkStreamer (ls_tick_interval st) (ls_update_interval_s st) (ls_level_count st) (ls_interrupted st) [] [] [] [] [] []
        (ls_last_flush_time st) (ls_last_flush_tick st) (ls_posts st)).
