(* ===== verification/RecordersProps.v ===== *)
(** * Properties of the trace recorders

    A reader written from the documented layout of a RAM2BIN file gets back from a
    recorded file exactly the tables of the specification and the commands issued. *)

From Stdlib Require Import ZArith Arith Lia Ascii.
From S2P Require Import Prelude Base Spec Node Device Standards Commands Examples Controller CtrlExamples Recorders.

Local Open Scope Z_scope.

(** ** The reader *)
Definition le_value (bs : list Z) : Z := foldr (fun b acc => b + 256 * acc) 0 bs.

Definition slice (n off : nat) (bs : list Z) : list Z := take n (drop off bs).
Definition get_u (n off : nat) (bs : list Z) : Z := le_value (slice n off bs).
Definition get_s (n off : nat) (bs : list Z) : Z := wrap_s (8 * Z.of_nat n) (get_u n off bs).

Definition of_bytes (bs : list Z) : string := foldr (fun b s => String (ascii_of_N (Z.to_N b)) s) EmptyString bs.

(** Sequential readers return the rest of the input. *)
Definition reader (A : Type) : Type := list Z -> option (A * list Z).

Fixpoint read_cstr (bs : list Z) : option (string * list Z) :=
  match bs with
  | [] => None
  | b :: bs => if b =? 0 then Some (EmptyString, bs)
               else match read_cstr bs with Some (s, r) => Some (String (ascii_of_N (Z.to_N b)) s, r) | None => None end
  end.

Definition read_int (signed : bool) (n : nat) : reader Z := fun bs =>
  if (length bs <? n)%nat then None else Some ((if signed then get_s n 0 bs else get_u n 0 bs), drop n bs).

Fixpoint read_many {A} (p : reader A) (k : nat) (bs : list Z) : option (list A * list Z) :=
  match k with
  | O => Some ([], bs)
  | S k => '(a, bs) ← p bs; '(l, bs) ← read_many p k bs; Some (a :: l, bs)
  end.

Record TraceTables := mkTables {
  tt_level_names : list string;
  tt_level_sizes : list Z;
  tt_command_names : list string;
  tt_command_meta : list Z;
  tt_command_cycles : list Z;
  tt_timing_names : list string;
  tt_timing_vals : list Z
}.

Definition read_tables (levels cmds timings : nat) (bs : list Z) : option TraceTables :=
  '(ln, bs) ← read_many read_cstr levels bs;
  '(ls, bs) ← read_many (read_int false 4) levels bs;
  '(cn, bs) ← read_many read_cstr cmds bs;
  '(cm, bs) ← read_many (read_int false 1) cmds bs;
  '(cc, bs) ← read_many (read_int false 1) cmds bs;
  '(tn, bs) ← read_many read_cstr timings bs;
  '(tv, bs) ← read_many (read_int true 4) timings bs;
  Some (mkTables ln ls cn cm cc tn tv).

Record TraceEntry := mkEntry {
  e_clk : Z;
  e_arrive : Z;
  e_cmd : Z;
  e_type : Z;
  e_source : Z;
  e_addr : list Z
}.

(** Entry [i] of [N], at the byte ranges of the documentation. *)
Definition entry_at (D N levels : nat) (bs : list Z) (i : nat) : TraceEntry :=
  mkEntry (get_s 8 (D + 8 * i) bs) (get_s 8 (D + 8 * N + 8 * i) bs) (get_u 1 (D + 16 * N + i) bs) (get_s 1 (D + 17 * N + i) bs)
    (get_s 2 (D + 18 * N + 2 * i) bs) ((fun k => get_s 4 (D + (20 + 4 * k) * N + 4 * i) bs) <$> seq 0 levels).

Record TraceFile := mkTraceFile {
  tf_channel_width : Z;
  tf_prefetch_size : Z;
  tf_dq : Z;
  tf_channel_id : Z;
  tf_read_latency : Z;
  tf_tables : TraceTables;
  tf_entries : list TraceEntry
}.

Definition read_trace (bs : list Z) : option TraceFile :=
  let levels := Z.to_nat (get_u 2 12 bs) in
  let N := Z.to_nat (get_u 8 32 bs) in
  let D := Z.to_nat (get_u 8 40 bs) in
  if bool_decide (slice 10 0 bs = str_bytes "RAM2BIN" ++ [0; 1; 1]) && Nat.eqb (D mod 8) 0 &&
     Nat.eqb (length bs) (D + N * (20 + 4 * levels))
  then
    t ← read_tables levels (Z.to_nat (get_u 2 14 bs)) (Z.to_nat (get_u 2 16 bs)) (drop 64 bs);
    Some (mkTraceFile (get_u 2 18 bs) (get_u 2 20 bs) (get_u 2 22 bs) (get_u 4 24 bs) (get_s 4 28 bs) t
            (entry_at D N levels bs <$> seq 0 N))
  else None.

(** ** Integers *)
Lemma le_bytes_length (n : nat) (v : Z) : length (le_bytes n v) = n.
Proof. revert v. induction n as [|n IH]; intros v; cbn; [done|by rewrite IH]. Qed.

Lemma le_value_bytes (n : nat) (v : Z) : le_value (le_bytes n v) = v mod 2 ^ (8 * Z.of_nat n).
Proof.
  revert v. induction n as [|n IH]; intros v; [by rewrite Z.mod_1_r|].
  replace (8 * Z.of_nat (S n)) with (8 + 8 * Z.of_nat n) by lia. rewrite Z.pow_add_r by lia. change (2 ^ 8) with 256.
  cbn [le_bytes]. unfold le_value in *. cbn [foldr]. rewrite IH. rewrite Z.rem_mul_r by (try lia; pose proof (pow2_pos (8 * Z.of_nat n)); lia). done.
Qed.

Lemma unsigned_roundtrip (n : nat) (v : Z) : 0 <= v < 2 ^ (8 * Z.of_nat n) -> le_value (le_bytes n v) = v.
Proof. intros Hv. rewrite le_value_bytes. by apply Z.mod_small. Qed.

Lemma wrap_s_mod (w v : Z) : 0 < w -> - 2 ^ (w - 1) <= v < 2 ^ (w - 1) -> wrap_s w (v mod 2 ^ w) = v.
Proof.
  intros Hw Hv. unfold wrap_s. rewrite Z.add_mod_idemp_l by (pose proof (pow2_pos w); lia).
  assert (2 ^ w = 2 * 2 ^ (w - 1)) as E by (rewrite <- Z.pow_succ_r by lia; f_equal; lia). rewrite Z.mod_small by lia. lia.
Qed.

Lemma signed_roundtrip (n : nat) (v : Z) :
  (0 < n)%nat -> - 2 ^ (8 * Z.of_nat n - 1) <= v < 2 ^ (8 * Z.of_nat n - 1) ->
  wrap_s (8 * Z.of_nat n) (le_value (le_bytes n v)) = v.
Proof. intros Hn Hv. rewrite le_value_bytes. apply wrap_s_mod; [lia|done]. Qed.

(** ** Slices *)
Lemma slice_skip (n p k : nat) (pre rest : list Z) : length pre = p -> slice n (p + k) (pre ++ rest) = slice n k rest.
Proof. intros <-. unfold slice. by rewrite drop_app_add. Qed.

Lemma slice_elem (n i : nat) (l : list Z) (x : Z) (rest : list Z) :
  l !! i = Some x -> slice n (n * i) ((l ≫= le_bytes n) ++ rest) = le_bytes n x.
Proof.
  revert i. induction l as [|y l IH]; intros i Hi; [done|]. destruct i as [|i]; cbn in Hi.
  - injection Hi as ->. rewrite Nat.mul_0_r. unfold slice. cbn [mbind list_bind]. rewrite drop_0, <- app_assoc.
    by rewrite take_app_length' by (by rewrite le_bytes_length).
  - replace (n * S i)%nat with (n + n * i)%nat by lia. cbn [mbind list_bind]. rewrite <- app_assoc.
    rewrite slice_skip by apply le_bytes_length. by apply IH.
Qed.

Lemma bind_le_length (n : nat) (l : list Z) : length (l ≫= le_bytes n) = (n * length l)%nat.
Proof. induction l as [|x l IH]; cbn; [lia|]. rewrite length_app, le_bytes_length. cbn in IH. rewrite IH. lia. Qed.

(** ** Strings and tables *)

(** No NUL inside a name. *)
Fixpoint no_nul (s : string) : bool :=
  match s with EmptyString => true | String c s => negb (N.eqb (N_of_ascii c) 0) && no_nul s end.

Lemma read_cstr_ok (s : string) (rest : list Z) : no_nul s = true -> read_cstr ((str_bytes s ++ [0]) ++ rest) = Some (s, rest).
Proof.
  induction s as [|c s IH]; [done|]. cbn [no_nul]. intros [Hc%negb_true_iff%N.eqb_neq Hs]%andb_true_iff.
  cbn [str_bytes app read_cstr]. rewrite (proj2 (Z.eqb_neq _ 0)) by lia. rewrite IH by done.
  by rewrite N2Z.id, ascii_N_embedding.
Qed.

Lemma read_int_u (n : nat) (v : Z) (rest : list Z) :
  0 <= v < 2 ^ (8 * Z.of_nat n) -> read_int false n (le_bytes n v ++ rest) = Some (v, rest).
Proof.
  intros Hv. unfold read_int. rewrite length_app, le_bytes_length. destruct (Nat.ltb_spec (n + length rest) n); [lia|].
  unfold get_u, slice. rewrite drop_0, take_app_length' by (by rewrite le_bytes_length).
  by rewrite unsigned_roundtrip, drop_app_length' by (done || by rewrite le_bytes_length).
Qed.

Lemma read_int_s (n : nat) (v : Z) (rest : list Z) :
  (0 < n)%nat -> - 2 ^ (8 * Z.of_nat n - 1) <= v < 2 ^ (8 * Z.of_nat n - 1) ->
  read_int true n (le_bytes n v ++ rest) = Some (v, rest).
Proof.
  intros Hn Hv. unfold read_int. rewrite length_app, le_bytes_length. destruct (Nat.ltb_spec (n + length rest) n); [lia|].
  unfold get_s, get_u, slice. rewrite drop_0, take_app_length' by (by rewrite le_bytes_length).
  by rewrite signed_roundtrip, drop_app_length' by (done || by rewrite le_bytes_length).
Qed.

(** What a reader does on one encoded element it does on a list of them. *)
Lemma read_many_ok {A B} (p : reader B) (enc : A -> list Z) (dec : A -> B) (l : list A) (k : nat) (rest : list Z) :
  k = length l -> Forall (fun a => forall rest, p (enc a ++ rest) = Some (dec a, rest)) l ->
  read_many p k ((l ≫= enc) ++ rest) = Some (dec <$> l, rest).
Proof.
  intros -> Hl. revert rest. induction Hl as [|a l Ha Hl IH]; intros rest; [done|].
  cbn [length read_many mbind list_bind]. rewrite <- app_assoc, Ha. cbn [mbind option_bind]. by rewrite IH.
Qed.

(** ** The writer appends *)
Definition appended (f : OutFile) (bs : list Z) : OutFile := mkOut (o_bytes f ++ bs) (length (o_bytes f ++ bs)).
Definition at_end (f : OutFile) : Prop := o_pos f = length (o_bytes f).

Lemma o_write_end (f : OutFile) (bs : list Z) : at_end f -> o_write f bs = appended f bs.
Proof.
  intros E. unfold o_write, appended. rewrite E, take_ge, drop_ge, app_nil_r, length_app by lia. done.
Qed.

Lemma appended_end (f : OutFile) (bs : list Z) : at_end (appended f bs).
Proof. done. Qed.

Lemma appended_app (f : OutFile) (a b : list Z) : appended (appended f a) b = appended f (a ++ b).
Proof. unfold appended. cbn. by rewrite app_assoc. Qed.

Lemma appended_nil (f : OutFile) : at_end f -> appended f [] = f.
Proof. intros E. unfold appended. rewrite app_nil_r, <- E. by destruct f. Qed.

Lemma foldl_write {A} (w : OutFile -> A -> OutFile) (enc : A -> list Z) (l : list A) (f : OutFile) :
  (forall f a, at_end f -> w f a = appended f (enc a)) -> at_end f -> foldl w f l = appended f (l ≫= enc).
Proof.
  intros Hw. revert f. induction l as [|a l IH]; intros f Hf; cbn [foldl mbind list_bind]; [by rewrite appended_nil|].
  rewrite (Hw f a Hf), IH by done. by rewrite appended_app.
Qed.

Definition cstr (s : string) : list Z := str_bytes s ++ [0].

(** The bytes of the tables. *)
Definition tables_bytes (s : DRAMSpec) : list Z :=
  (level_names s ≫= cstr) ++ (level_sizes (organization s) ≫= le_bytes 4) ++ (command_names s ≫= cstr) ++
  (command_meta s ≫= (fun m => le_bytes 1 (meta_bits m))) ++ (command_cycles s ≫= le_bytes 1) ++
  (timing_names s ≫= cstr) ++ (timing_vals s ≫= le_bytes 4).

Lemma write_tables (f : OutFile) (s : DRAMSpec) : at_end f -> write_spec_section f s = appended f (tables_bytes s).
Proof.
  intros Hf. unfold write_spec_section, tables_bytes.
  assert (forall g n, at_end g -> write_cstr g n = appended g (cstr n)) as Hc by (intros; by apply o_write_end).
  assert (forall n g v, at_end g -> write_val n g v = appended g (le_bytes n v)) as Hv by (intros; by apply o_write_end).
  assert (forall g (m : DRAMCommandMeta), at_end g -> write_val 1 g (meta_bits m) = appended g (le_bytes 1 (meta_bits m))) as Hm
    by (intros; by apply o_write_end).
  rewrite (foldl_write _ _ (level_names s) f Hc Hf), (foldl_write _ _ (level_sizes (organization s)) _ (Hv 4%nat) (appended_end _ _)).
  rewrite (foldl_write _ _ (command_names s) _ Hc (appended_end _ _)), (foldl_write _ _ (command_meta s) _ Hm (appended_end _ _)).
  rewrite (foldl_write _ _ (command_cycles s) _ (Hv 1%nat) (appended_end _ _)), (foldl_write _ _ (timing_names s) _ Hc (appended_end _ _)).
  rewrite (foldl_write _ _ (timing_vals s) _ (Hv 4%nat) (appended_end _ _)). by rewrite !appended_app, <- ?app_assoc.
Qed.

Lemma write_array_end (n : nat) (f : OutFile) (l : list Z) : at_end f -> write_array n f l = appended f (l ≫= le_bytes n).
Proof. intros Hf. destruct l as [|x l]; [by rewrite appended_nil|]. by apply o_write_end. Qed.

Lemma write_array_appended (n : nat) (f : OutFile) (a l : list Z) :
  write_array n (appended f a) l = appended f (a ++ (l ≫= le_bytes n)).
Proof. by rewrite write_array_end, appended_app. Qed.

(** Zero to seven bytes align the data. *)
Lemma pad_ok (f : OutFile) : at_end f -> exists bs, pad_to_8 f = appended f bs /\ (length bs < 8)%nat /\ (length (o_bytes f ++ bs) mod 8 = 0)%nat.
Proof.
  intros Hf. unfold pad_to_8. change 7 with (Z.ones 3). rewrite Z.land_ones by lia. change (2 ^ 3) with 8.
  assert (Z.of_nat (o_pos f) mod 8 = Z.of_nat (o_pos f mod 8)) as -> by (by rewrite Nat2Z.inj_mod).
  pose proof (Nat.mod_upper_bound (o_pos f) 8 ltac:(lia)) as Hlt. destruct (Z.eqb_spec (Z.of_nat (o_pos f mod 8)) 0) as [E|E].
  - exists []. rewrite appended_nil, app_nil_r, <- Hf by done. split_and!; [done|cbn; lia|lia].
  - eexists. split; [by apply o_write_end|]. rewrite length_app, !length_replicate, <- Hf. split; [lia|].
    replace (Z.to_nat (8 - Z.of_nat (o_pos f mod 8))) with (8 - o_pos f mod 8)%nat by lia.
    rewrite (Nat.div_mod_eq (o_pos f) 8) at 1. replace (8 * (o_pos f / 8) + o_pos f mod 8 + (8 - o_pos f mod 8))%nat
      with ((o_pos f / 8 + 1) * 8)%nat by lia. by apply Nat.Div0.mod_mul.
Qed.

(** ** What fits the format *)
Definition in_u (w v : Z) : bool := (0 <=? v) && (v <? 2 ^ w).
Definition in_s (w v : Z) : bool := (- 2 ^ (w - 1) <=? v) && (v <? 2 ^ (w - 1)).

Definition recordable (s : DRAMSpec) : bool :=
  (level_count s =? Z.of_nat (length (level_names s))) && (level_count s =? Z.of_nat (length (level_sizes (organization s)))) &&
  (command_count s =? Z.of_nat (length (command_names s))) && (command_count s =? Z.of_nat (length (command_meta s))) &&
  (command_count s =? Z.of_nat (length (command_cycles s))) && (timing_count s =? Z.of_nat (length (timing_names s))) &&
  (timing_count s =? Z.of_nat (length (timing_vals s))) &&
  in_u 16 (level_count s) && in_u 16 (command_count s) && in_u 16 (timing_count s) && in_u 16 (channel_width s) &&
  in_u 16 (internal_prefetch_size s) && in_u 16 (dq (organization s)) && in_s 32 (read_latency s) &&
  forallb no_nul (level_names s) && forallb no_nul (command_names s) && forallb no_nul (timing_names s) &&
  forallb (in_u 32) (level_sizes (organization s)) && forallb (in_u 8) (command_cycles s) && forallb (in_s 32) (timing_vals s).

(** An issued command with the clock of its issue. *)
Definition issue : Type := Clk_t * Request.

Definition fits (s : DRAMSpec) (q : issue) : bool :=
  in_s 64 q.1 && in_s 64 (arrive q.2) && in_u 8 (command q.2) && in_s 8 (type_id q.2) && in_s 16 (source_id q.2) &&
  (level_count s <=? Z.of_nat (length (addr_vec q.2))) && forallb (in_s 32) (addr_vec q.2).

Definition tables_of (s : DRAMSpec) : TraceTables :=
  mkTables (level_names s) (level_sizes (organization s)) (command_names s) (meta_bits <$> command_meta s) (command_cycles s)
    (timing_names s) (timing_vals s).

Definition entry_of (s : DRAMSpec) (q : issue) : TraceEntry :=
  mkEntry q.1 (arrive q.2) (command q.2) (type_id q.2) (source_id q.2) (take (Z.to_nat (level_count s)) (addr_vec q.2)).

Definition trace_of (s : DRAMSpec) (channel_id : Z) (l : list issue) : TraceFile :=
  mkTraceFile (channel_width s) (internal_prefetch_size s) (dq (organization s)) channel_id (read_latency s) (tables_of s) (entry_of s <$> l).

Lemma in_u_spec (w v : Z) : in_u w v = true -> 0 <= v < 2 ^ w.
Proof. unfold in_u. lia. Qed.
Lemma in_s_spec (w v : Z) : in_s w v = true -> - 2 ^ (w - 1) <= v < 2 ^ (w - 1).
Proof. unfold in_s. lia. Qed.

Lemma meta_bits_u8 (m : DRAMCommandMeta) : 0 <= meta_bits m < 2 ^ 8.
Proof. destruct m as [[] [] [] [] [] []]; vm_compute; split; congruence. Qed.

Lemma read_tables_ok (s : DRAMSpec) (rest : list Z) :
  recordable s = true ->
  read_tables (Z.to_nat (level_count s)) (Z.to_nat (command_count s)) (Z.to_nat (timing_count s)) (tables_bytes s ++ rest) =
    Some (tables_of s).
Proof.
  unfold recordable. rewrite !andb_true_iff, !forallb_forall, !Z.eqb_eq. intros H. decompose [and] H. clear H.
  assert (forall l, (forall x, In x l -> no_nul x = true) -> Forall (fun a => forall rest, read_cstr (cstr a ++ rest) = Some (id a, rest)) l) as Hs.
  { intros l Hl. apply Forall_forall. intros x Hx%list_elem_of_In r. by apply read_cstr_ok, Hl. }
  unfold read_tables, tables_bytes. rewrite <- !app_assoc.
  rewrite (read_many_ok read_cstr cstr id) by (try lia; by apply Hs). cbn [mbind option_bind].
  rewrite (read_many_ok (read_int false 4) (le_bytes 4) id) by (try lia; apply Forall_forall; intros x Hx%list_elem_of_In r; apply read_int_u, in_u_spec; auto).
  cbn [mbind option_bind]. rewrite (read_many_ok read_cstr cstr id) by (try lia; by apply Hs). cbn [mbind option_bind].
  rewrite (read_many_ok (read_int false 1) (fun m => le_bytes 1 (meta_bits m)) meta_bits)
    by (try lia; apply Forall_forall; intros x Hx r; apply read_int_u, meta_bits_u8). cbn [mbind option_bind].
  rewrite (read_many_ok (read_int false 1) (le_bytes 1) id) by (try lia; apply Forall_forall; intros x Hx%list_elem_of_In r; apply read_int_u, in_u_spec; auto).
  cbn [mbind option_bind]. rewrite (read_many_ok read_cstr cstr id) by (try lia; by apply Hs). cbn [mbind option_bind].
  rewrite (read_many_ok (read_int true 4) (le_bytes 4) id) by (try lia; apply Forall_forall; intros x Hx%list_elem_of_In r; (apply read_int_s; [lia|apply in_s_spec; auto])).
  cbn [mbind option_bind]. by rewrite !list_fmap_id.
Qed.

(** ** Recording *)
Definition coord_at (k : nat) (q : issue) : Z := default 0 (addr_vec q.2 !! k).

Lemma push_addrs (v : AddrVec_t) (bufs : list (list Z)) (n : nat) :
  (n <= length bufs)%nat -> (n <= length v)%nat -> Forall (fun x => in_s 32 x = true) v ->
  exists bufs', foldM (push_addr v) bufs (seqZ 0 (Z.of_nat n)) = Ok bufs' /\ length bufs' = length bufs /\
    forall k b, bufs !! k = Some b -> bufs' !! k = Some (if decide (k < n)%nat then b ++ [default 0 (v !! k)] else b).
Proof.
  intros Hb Hv Hs. induction n as [|n IH]; [by exists bufs|]. destruct IH as (bufs1 & Hf & Hl & Hk); [lia..|].
  replace (Z.of_nat (S n)) with (Z.of_nat n + 1) by lia. rewrite seqZ_app, foldM_app, Hf by lia. cbn [mbind result_bind].
  assert (seqZ (0 + Z.of_nat n) 1 = [Z.of_nat n]) as -> by (rewrite seqZ_cons by lia; done). cbn [foldM].
  destruct (lookup_lt_is_Some_2 bufs n ltac:(lia)) as [b Eb]. destruct (lookup_lt_is_Some_2 v n ltac:(lia)) as [x Ex].
  pose proof (Hk n b Eb) as Eb1. rewrite decide_False in Eb1 by lia.
  assert (push_addr v bufs1 (Z.of_nat n) = Ok (<[n := b ++ [x]]> bufs1)) as ->.
  { unfold push_addr. rewrite (proj2 (vget_Ok bufs1 (Z.of_nat n) b)) by (split; [lia|by rewrite Nat2Z.id]). cbn [mbind result_bind].
    rewrite (proj2 (vget_Ok v (Z.of_nat n) x)) by (split; [lia|by rewrite Nat2Z.id]). cbn [mbind result_bind].
    pose proof (Forall_lookup_1 _ _ _ _ Hs Ex) as Hx%in_s_spec. change (2 ^ (32 - 1)) with (2 ^ 31) in Hx.
    apply vset_Ok. rewrite Nat2Z.id. split; [lia|]. do 3 f_equal. unfold wrap_s. change (2 ^ (32 - 1)) with (2 ^ 31).
    rewrite Z.mod_small by lia. lia. }
  eexists. split; [done|]. rewrite length_insert. split; [done|]. intros k b' Ek. destruct (decide (k = n)) as [->|Hne].
  - rewrite list_lookup_insert_eq by lia. rewrite decide_True by lia. rewrite Eb in Ek. injection Ek as <-. by rewrite Ex.
  - rewrite list_lookup_insert_ne by lia. rewrite (Hk k b' Ek). destruct (decide (k < n)%nat), (decide (k < S n)%nat); try lia; done.
Qed.

(** The buffers after the commands of [l]. *)
Record bin_inv (s : DRAMSpec) (f : OutFile) (l : list issue) (b : BinTrace) : Prop := mkBinInv {
  bi_level : bin_level_count b = level_count s;
  bi_file : bin_file b = f;
  bi_open : bin_open b = true;
  bi_offset : bin_data_offset b = Z.of_nat (o_pos f);
  bi_clk : m_clk_buf b = fst <$> l;
  bi_arrive : m_arrive_buf b = (fun q : issue => arrive q.2) <$> l;
  bi_cmd : m_cmd_buf b = (fun q : issue => command q.2) <$> l;
  bi_type : m_type_buf b = (fun q : issue => type_id q.2) <$> l;
  bi_source : m_source_buf b = (fun q : issue => source_id q.2) <$> l;
  bi_addr : m_addr_bufs b = (fun k => coord_at k <$> l) <$> seq 0 (Z.to_nat (level_count s))
}.

Lemma on_issue_inv (s : DRAMSpec) (f : OutFile) (l : list issue) (b : BinTrace) (q : issue) :
  0 <= level_count s -> bin_inv s f l b -> fits s q = true -> exists b', Bin_on_issue b q.1 q.2 = Ok b' /\ bin_inv s f (l ++ [q]) b'.
Proof.
  intros HL [E1 E2 E3 E4 E5 E6 E7 E8 E9 E10] Hq. unfold fits in Hq. rewrite !andb_true_iff, forallb_forall in Hq.
  destruct Hq as ((((((_ & _) & Hc) & Ht) & Hs) & Hlen) & Hav).
  destruct (push_addrs (addr_vec q.2) (m_addr_bufs b) (Z.to_nat (level_count s))) as (bufs & Hf & Hl & Hk).
  { rewrite E10, length_fmap, length_seq. done. }
  { lia. }
  { apply Forall_forall. intros x Hx%list_elem_of_In. by apply Hav. }
  rewrite Z2Nat.id in Hf by done. unfold Bin_on_issue. rewrite E1, Hf. cbn [mbind result_bind]. eexists. split; [done|].
  apply in_u_spec in Hc. apply in_s_spec in Ht, Hs.
  assert (wrap_u 8 (command q.2) = command q.2) as Wc by (by apply Z.mod_small).
  assert (wrap_s 8 (type_id q.2) = type_id q.2) as Wt by (unfold wrap_s; rewrite Z.mod_small by lia; lia).
  assert (wrap_s 16 (source_id q.2) = source_id q.2) as Ws by (unfold wrap_s; rewrite Z.mod_small by lia; lia).
  split; cbn; rewrite ?fmap_app, ?E5, ?E6, ?E7, ?E8, ?E9, ?Wc, ?Wt, ?Ws; try done.
  apply list_eq. intros k. destruct (decide (k < Z.to_nat (level_count s))%nat) as [Hlt|Hge].
  - rewrite (Hk k (coord_at k <$> l)), decide_True by (try done; rewrite E10, list_lookup_fmap, lookup_seq_lt by lia; done).
    rewrite list_lookup_fmap, lookup_seq_lt by lia. cbn. by rewrite fmap_app.
  - rewrite !lookup_ge_None_2; [done|rewrite length_fmap, length_seq; lia|rewrite Hl, E10, length_fmap, length_seq; lia].
Qed.

Lemma issues_inv (s : DRAMSpec) (f : OutFile) (l l0 : list issue) (b : BinTrace) :
  0 <= level_count s -> bin_inv s f l0 b -> Forall (fun q => fits s q = true) l ->
  exists b', foldM (fun b q => Bin_on_issue b q.1 q.2) b l = Ok b' /\ bin_inv s f (l0 ++ l) b'.
Proof.
  intros HL HI Hl. revert l0 b HI. induction Hl as [|q l Hq Hl IH]; intros l0 b HI.
  - exists b. by rewrite app_nil_r.
  - destruct (on_issue_inv s f l0 b q HL HI Hq) as (b1 & E & HI1). destruct (IH _ _ HI1) as (b' & Hb & HI'). exists b'.
    cbn [foldM]. rewrite E. cbn [mbind result_bind]. split; [done|]. by rewrite <- app_assoc in HI'.
Qed.

(** The arrays that follow the tables. *)
Definition arrays_bytes (s : DRAMSpec) (l : list issue) : list Z :=
  ((fst <$> l) ≫= le_bytes 8) ++ (((fun q : issue => arrive q.2) <$> l) ≫= le_bytes 8) ++
  (((fun q : issue => command q.2) <$> l) ≫= le_bytes 1) ++ (((fun q : issue => type_id q.2) <$> l) ≫= le_bytes 1) ++
  (((fun q : issue => source_id q.2) <$> l) ≫= le_bytes 2) ++
  (((fun k => coord_at k <$> l) <$> seq 0 (Z.to_nat (level_count s))) ≫= (fun buf => buf ≫= le_bytes 4)).

Lemma flush_ok (s : DRAMSpec) (f : OutFile) (l : list issue) (b : BinTrace) :
  at_end f -> bin_inv s f l b -> flush_arrays b = appended f (arrays_bytes s l).
Proof.
  intros Hf [E1 E2 E3 E4 E5 E6 E7 E8 E9 E10]. unfold flush_arrays, arrays_bytes. rewrite E2, E5, E6, E7, E8, E9, E10.
  rewrite (write_array_end 8 f), !write_array_appended by done.
  rewrite (foldl_write _ (fun buf => buf ≫= le_bytes 4)) by (try apply appended_end; intros; by apply write_array_end).
  by rewrite !appended_app, <- ?app_assoc.
Qed.

(** ** The header *)
Lemma dram_type_length (t : string) : length (dram_type_field t) = 16%nat.
Proof. unfold dram_type_field. rewrite length_app, length_replicate, length_take. lia. Qed.

Section header.
Context (s : DRAMSpec) (channel_id : Z) (dram_type : string).

(** The first 32 bytes, and the header with its two late fields. *)
Definition header_front : list Z :=
  str_bytes "RAM2BIN" ++ [0; 1; 1] ++ le_bytes 2 0 ++ le_bytes 2 (level_count s) ++ le_bytes 2 (command_count s) ++
  le_bytes 2 (timing_count s) ++ le_bytes 2 (channel_width s) ++ le_bytes 2 (internal_prefetch_size s) ++
  le_bytes 2 (dq (organization s)) ++ le_bytes 4 channel_id ++ le_bytes 4 (read_latency s).
Definition header_with (N D : Z) : list Z := header_front ++ le_bytes 8 N ++ le_bytes 8 D ++ dram_type_field dram_type.

Lemma header_initial : header_bytes (make_header s channel_id dram_type) = header_with 0 0.
Proof. reflexivity. Qed.

Lemma header_length (N D : Z) : length (header_with N D) = 64%nat.
Proof. unfold header_with. rewrite !length_app, dram_type_length. reflexivity. Qed.

Lemma o_write_at (pre mid suf bs : list Z) :
  length mid = length bs -> o_write (mkOut (pre ++ mid ++ suf) (length pre)) bs = mkOut (pre ++ bs ++ suf) (length pre + length bs).
Proof.
  intros E. unfold o_write. cbn [o_bytes o_pos]. rewrite take_app_length, <- E, drop_app_add, drop_app_length. done.
Qed.

Lemma patch_ok (b : BinTrace) (rest : list Z) (pos : nat) (N : nat) :
  length (m_clk_buf b) = N ->
  o_bytes (patch_header b (mkOut (header_with 0 0 ++ rest) pos)) = header_with (Z.of_nat N) (bin_data_offset b) ++ rest.
Proof.
  intros EN. unfold patch_header, seekp, write_val. cbn [o_bytes]. rewrite EN. unfold header_with. rewrite <- !app_assoc.
  change 32%nat with (length header_front). rewrite o_write_at by (by rewrite !le_bytes_length).
  assert (length header_front + length (le_bytes 8 (Z.of_nat N)) = length (header_front ++ le_bytes 8 (Z.of_nat N)))%nat as ->
    by (by rewrite length_app).
  rewrite (app_assoc header_front (le_bytes 8 (Z.of_nat N))). rewrite o_write_at by (by rewrite !le_bytes_length). cbn [o_bytes].
  by rewrite <- !app_assoc.
Qed.

Context (N D : Z) (rest : list Z).
Lemma header_magic : slice 10 0 (header_with N D ++ rest) = str_bytes "RAM2BIN" ++ [0; 1; 1]. Proof. reflexivity. Qed.
Lemma header_levels : get_u 2 12 (header_with N D ++ rest) = le_value (le_bytes 2 (level_count s)). Proof. reflexivity. Qed.
Lemma header_commands : get_u 2 14 (header_with N D ++ rest) = le_value (le_bytes 2 (command_count s)). Proof. reflexivity. Qed.
Lemma header_timings : get_u 2 16 (header_with N D ++ rest) = le_value (le_bytes 2 (timing_count s)). Proof. reflexivity. Qed.
Lemma header_width : get_u 2 18 (header_with N D ++ rest) = le_value (le_bytes 2 (channel_width s)). Proof. reflexivity. Qed.
Lemma header_prefetch : get_u 2 20 (header_with N D ++ rest) = le_value (le_bytes 2 (internal_prefetch_size s)). Proof. reflexivity. Qed.
Lemma header_dq : get_u 2 22 (header_with N D ++ rest) = le_value (le_bytes 2 (dq (organization s))). Proof. reflexivity. Qed.
Lemma header_channel : get_u 4 24 (header_with N D ++ rest) = le_value (le_bytes 4 channel_id). Proof. reflexivity. Qed.
Lemma header_latency : get_u 4 28 (header_with N D ++ rest) = le_value (le_bytes 4 (read_latency s)). Proof. reflexivity. Qed.
Lemma header_entries : get_u 8 32 (header_with N D ++ rest) = le_value (le_bytes 8 N). Proof. reflexivity. Qed.
Lemma header_offset : get_u 8 40 (header_with N D ++ rest) = le_value (le_bytes 8 D). Proof. reflexivity. Qed.
End header.

(** ** The arrays *)
Lemma arrays_length (s : DRAMSpec) (l : list issue) :
  length (arrays_bytes s l) = (length l * (20 + 4 * Z.to_nat (level_count s)))%nat.
Proof.
  assert (forall bufs : list (list Z), Forall (fun b => length b = length l) bufs ->
    length (bufs ≫= (fun buf => buf ≫= le_bytes 4)) = (4 * length l * length bufs)%nat) as Hb.
  { induction 1 as [|b bufs Eb _ IH]; [cbn; lia|]. rewrite bind_cons, length_app, bind_le_length, Eb, IH, length_cons, Nat.mul_succ_r. apply Nat.add_comm. }
  unfold arrays_bytes. rewrite !length_app, !bind_le_length, !length_fmap, Hb, length_fmap, length_seq; [unfold issue in *; ring|].
  apply Forall_fmap, Forall_forall. intros k _. cbn. by rewrite length_fmap.
Qed.

Lemma addr_slice (l : list issue) (i k levels : nat) (q : issue) (rest : list Z) :
  l !! i = Some q -> (k < levels)%nat ->
  slice 4 (4 * k * length l + 4 * i) ((((fun k => coord_at k <$> l) <$> seq 0 levels) ≫= (fun buf => buf ≫= le_bytes 4)) ++ rest) =
    le_bytes 4 (coord_at k q).
Proof.
  intros Hi Hk.
  assert (forall (bufs : list (list Z)) j buf, bufs !! j = Some buf -> Forall (fun b => length b = length l) bufs ->
    buf !! i = Some (coord_at k q) -> slice 4 (4 * j * length l + 4 * i) ((bufs ≫= (fun buf => buf ≫= le_bytes 4)) ++ rest) = le_bytes 4 (coord_at k q)) as H.
  { induction bufs as [|b bufs IH]; intros j buf Hj Hb Hx; [done|]. apply Forall_cons in Hb as [Eb Hb].
    cbn [mbind list_bind]. rewrite <- app_assoc. destruct j as [|j]; cbn in Hj.
    - injection Hj as ->. rewrite Nat.mul_0_r, Nat.mul_0_l, Nat.add_0_l. by apply slice_elem.
    - replace (4 * S j * length l + 4 * i)%nat with (4 * length l + (4 * j * length l + 4 * i))%nat by ring.
      rewrite slice_skip by (by rewrite bind_le_length, Eb). by eapply IH. }
  apply (H _ k (coord_at k <$> l)).
  - by rewrite list_lookup_fmap, lookup_seq_lt.
  - apply Forall_fmap, Forall_forall. intros j _. cbn. by rewrite length_fmap.
  - by rewrite list_lookup_fmap, Hi.
Qed.

Lemma entry_ok (s : DRAMSpec) (l : list issue) (i : nat) (q : issue) (pre : list Z) :
  0 <= level_count s -> l !! i = Some q -> fits s q = true ->
  entry_at (length pre) (length l) (Z.to_nat (level_count s)) (pre ++ arrays_bytes s l) i = entry_of s q.
Proof.
  intros HL Hi Hq. unfold fits in Hq. rewrite !andb_true_iff, forallb_forall in Hq.
  destruct Hq as ((((((H1 & H2) & H3) & H4) & H5) & Hlen) & Hav). apply in_s_spec in H1, H2, H4, H5. apply in_u_spec in H3.
  assert (forall (A : Type) (f : issue -> A), (f <$> l) !! i = Some (f q)) as Hf by (intros A f; by rewrite list_lookup_fmap, Hi).
  set (n := length l). assert (forall (m : nat) (f : issue -> Z), length ((f <$> l) ≫= le_bytes m) = (m * n)%nat) as Hm
    by (intros; by rewrite bind_le_length, length_fmap).
  unfold entry_at, entry_of, get_s, get_u, arrays_bytes. f_equal.
  - rewrite slice_skip, (slice_elem 8 i _ q.1), signed_roundtrip by (done || lia || apply Hf). done.
  - rewrite <- Nat.add_assoc, slice_skip, slice_skip, (slice_elem 8 i _ (arrive q.2)), signed_roundtrip by (done || lia || apply Hf || apply Hm). done.
  - replace (length pre + 16 * n + i)%nat with (length pre + (8 * n + (8 * n + 1 * i)))%nat by lia.
    rewrite !slice_skip, (slice_elem 1 i _ (command q.2)), unsigned_roundtrip by (done || lia || apply Hf || apply Hm). done.
  - replace (length pre + 17 * n + i)%nat with (length pre + (8 * n + (8 * n + (1 * n + 1 * i))))%nat by lia.
    rewrite !slice_skip, (slice_elem 1 i _ (type_id q.2)), signed_roundtrip by (done || lia || apply Hf || apply Hm). done.
  - replace (length pre + 18 * n + 2 * i)%nat with (length pre + (8 * n + (8 * n + (1 * n + (1 * n + 2 * i)))))%nat by lia.
    rewrite !slice_skip, (slice_elem 2 i _ (source_id q.2)), signed_roundtrip by (done || lia || apply Hf || apply Hm). done.
  - apply list_eq. intros k. destruct (decide (k < Z.to_nat (level_count s))%nat) as [Hk|Hk].
    + rewrite list_lookup_fmap, lookup_seq_lt, lookup_take_lt by done. cbn [fmap option_fmap option_map].
      destruct (lookup_lt_is_Some_2 (addr_vec q.2) k ltac:(lia)) as [x Hx]. rewrite Hx. f_equal. rewrite Nat.add_0_l.
      replace (length pre + (20 + 4 * k) * n + 4 * i)%nat
        with (length pre + (8 * n + (8 * n + (1 * n + (1 * n + (2 * n + (4 * k * n + 4 * i)))))))%nat by ring.
      rewrite !slice_skip by (done || apply Hm). rewrite <- (app_nil_r (_ ≫= (fun buf => buf ≫= le_bytes 4))).
      rewrite (addr_slice l i k _ q) by done. unfold coord_at. rewrite Hx. cbn [default].
      apply signed_roundtrip; [lia|]. apply in_s_spec, Hav, list_elem_of_In. by eapply list_elem_of_lookup_2.
    + rewrite !lookup_ge_None_2; [done|rewrite length_take; lia|rewrite length_fmap, length_seq; lia].
Qed.

Lemma entries_ok (s : DRAMSpec) (l : list issue) (pre : list Z) :
  0 <= level_count s -> Forall (fun q => fits s q = true) l ->
  entry_at (length pre) (length l) (Z.to_nat (level_count s)) (pre ++ arrays_bytes s l) <$> seq 0 (length l) = entry_of s <$> l.
Proof.
  intros HL Hl. apply list_eq. intros i. rewrite !list_lookup_fmap. destruct (l !! i) as [q|] eqn:Hi.
  - pose proof (lookup_lt_Some _ _ _ Hi). rewrite lookup_seq_lt by done. cbn. f_equal. apply entry_ok; [done|done|].
    exact (Forall_lookup_1 _ _ _ _ Hl Hi).
  - apply lookup_ge_None_1 in Hi. rewrite lookup_seq_ge by done. done.
Qed.

(** ** The theorem *)
Lemma bin_setup_ok (s : DRAMSpec) (channel_id : Z) (path dram_type : string) :
  exists pad b, Bin_setup s channel_id path dram_type true = Ok b /\
    bin_inv s (mkOut (header_with s channel_id dram_type 0 0 ++ tables_bytes s ++ pad)
                 (length (header_with s channel_id dram_type 0 0 ++ tables_bytes s ++ pad))) [] b /\
    (length pad < 8)%nat /\ (length (header_with s channel_id dram_type 0 0 ++ tables_bytes s ++ pad) mod 8 = 0)%nat.
Proof.
  unfold Bin_setup, write_header. cbn [negb]. rewrite o_write_end, header_initial, write_tables by done.
  set (H := header_with s channel_id dram_type 0 0). assert (appended (mkOut [] 0) H = mkOut H (length H)) as -> by done.
  destruct (pad_ok (appended (mkOut H (length H)) (tables_bytes s))) as (pad & Ep & H8 & Hl); [done|].
  exists pad. rewrite Ep, appended_app. eexists. split; [done|]. cbn [appended o_bytes] in Hl. rewrite <- app_assoc in Hl. split; [|done]. split; try done.
  cbn. generalize 0%nat as a. induction (Z.to_nat (level_count s)) as [|n IH]; intros a; cbn; [done|by rewrite <- IH].
Qed.

(** Reading a finished file. *)
Lemma read_file (s : DRAMSpec) (channel_id : Z) (dram_type : string) (l : list issue) (pad : list Z) (D : nat) :
  recordable s = true -> in_u 32 channel_id = true -> Forall (fun q => fits s q = true) l -> Z.of_nat (length l) < 2 ^ 32 ->
  D = (64 + length (tables_bytes s ++ pad))%nat -> (D mod 8 = 0)%nat -> Z.of_nat D < 2 ^ 33 ->
  read_trace (header_with s channel_id dram_type (Z.of_nat (length l)) (Z.of_nat D) ++ (tables_bytes s ++ pad) ++ arrays_bytes s l) =
    Some (trace_of s channel_id l).
Proof.
  intros Hs Hch Hl HN ED H8 HD. pose proof Hs as Hr. unfold recordable in Hr. rewrite !andb_true_iff in Hr. decompose [and] Hr. clear Hr.
  assert (forall n v, in_u (8 * Z.of_nat n) v = true -> le_value (le_bytes n v) = v) as Hu by (intros; by apply unsigned_roundtrip, in_u_spec).
  unfold read_trace, get_s.
  rewrite header_magic, header_levels, header_entries, header_offset, header_commands, header_timings, header_width,
    header_prefetch, header_dq, header_channel, header_latency.
  rewrite !(Hu 2%nat), (Hu 4%nat), (signed_roundtrip 4), !(unsigned_roundtrip 8), !Nat2Z.id
    by (done || (cbn; lia) || (apply in_s_spec; done)).
  pose proof (header_length s channel_id dram_type (Z.of_nat (length l)) (Z.of_nat D)) as Hh.
  set (hd := header_with s channel_id dram_type (Z.of_nat (length l)) (Z.of_nat D)) in *.
  rewrite (drop_app_length' hd) by done. assert (length (hd ++ tables_bytes s ++ pad) = D) as HDl by (by rewrite length_app, Hh).
  rewrite (app_assoc hd), (length_app (hd ++ tables_bytes s ++ pad)), HDl, arrays_length.
  rewrite <- (app_assoc (tables_bytes s) pad), (read_tables_ok s) by done.
  rewrite bool_decide_true, H8, !Nat.eqb_refl by done. cbn [andb mbind option_bind]. unfold trace_of. do 2 f_equal.
  pose proof (entries_ok s l (hd ++ tables_bytes s ++ pad) (proj1 (in_u_spec 16 (level_count s) ltac:(done))) Hl) as He.
  rewrite HDl in He. exact He.
Qed.

(** C30. The binary trace recorder writes what its format promises: for every
    specification and every sequence of issued commands whose values fit the fields,
    recording succeeds, and a reader that follows the documented layout gets back
    from the finished file the tables of the specification and the commands in order. *)
Theorem bin_trace_roundtrip (s : DRAMSpec) (channel_id : Z) (path dram_type : string) (l : list issue) :
  recordable s = true -> in_u 32 channel_id = true -> Forall (fun q => fits s q = true) l ->
  Z.of_nat (length (tables_bytes s)) < 2 ^ 32 -> Z.of_nat (length l) < 2 ^ 32 ->
  exists b0 b, Bin_setup s channel_id path dram_type true = Ok b0 /\ foldM (fun b q => Bin_on_issue b q.1 q.2) b0 l = Ok b /\
    read_trace (o_bytes (bin_file (Bin_finalize b))) = Some (trace_of s channel_id l).
Proof.
  intros Hs Hch Hl Ht HN. destruct (bin_setup_ok s channel_id path dram_type) as (pad & b0 & E0 & HI0 & Hpad & H8).
  assert (HL : 0 <= level_count s < 2 ^ 16) by (unfold recordable in Hs; rewrite !andb_true_iff in Hs; apply in_u_spec; tauto).
  destruct (issues_inv s _ l [] b0 ltac:(lia) HI0 Hl) as (b & Eb & HI). exists b0, b. split; [done|]. split; [done|].
  set (pre := tables_bytes s ++ pad) in *. unfold Bin_finalize. rewrite (bi_open _ _ _ _ HI). cbn [negb bin_file].
  rewrite (flush_ok s (mkOut (header_with s channel_id dram_type 0 0 ++ pre) (length (header_with s channel_id dram_type 0 0 ++ pre))) l b) by done.
  unfold appended. cbn [o_bytes]. rewrite <- app_assoc.
  rewrite (patch_ok s channel_id dram_type b _ _ (length l)) by (by rewrite (bi_clk _ _ _ _ HI), length_fmap).
  rewrite (bi_offset _ _ _ _ HI). cbn [o_pos]. rewrite length_app, header_length in *.
  set (D := (64 + length pre)%nat) in *. assert (Z.of_nat D < 2 ^ 33) as HD by (unfold D, pre; rewrite length_app; lia).
  by apply read_file.
Qed.

(** An activation for a read, and a refresh. *)
Definition rec_issues : list issue :=
  [(10, mkRequest 4096 4096 [0; 1; 0; 1; 7; 0] Read 3 (-1) 0 0 0 64 0 3 false 8 (-1) None);
   (250, mkRequest (-1) (-1) [0; 1; -1; -1; -1; -1] (-1) (-1) (-1) (-1) 0 (-1) (-1) 7 7 false (-1) (-1) None)].

Definition rec_spec : DRAMSpec := match create "DDR4" small_cfg with Ok s => s | Err _ => ddr4 end.

Lemma bin_trace_roundtrip_witness :
  exists b0 b, Bin_setup rec_spec 0 "trace" "DDR4" true = Ok b0 /\ foldM (fun b q => Bin_on_issue b q.1 q.2) b0 rec_issues = Ok b /\
    read_trace (o_bytes (bin_file (Bin_finalize b))) = Some (trace_of rec_spec 0 rec_issues).
Proof.
  apply (bin_trace_roundtrip rec_spec 0 "trace" "DDR4" rec_issues);
    [vm_compute; reflexivity|vm_compute; reflexivity|repeat constructor|vm_compute; reflexivity|vm_compute; reflexivity].
Defined.

(** A source beyond 16 bits is recorded as another one. *)
Lemma source_truncated (b : BinTrace) (clk : Clk_t) (r : Request) :
  bin_level_count b = 0 -> source_id r = 65536 ->
  exists b', Bin_on_issue b clk r = Ok b' /\ m_source_buf b' = m_source_buf b ++ [0].
Proof. intros E1 E2. unfold Bin_on_issue. rewrite E1. eexists. split; [done|]. cbn. by rewrite E2. Qed.

(** ** The live stream loses no command *)
Definition stream_event (levels : nat) (q : issue) : string :=
  event_json q.1 (arrive q.2) (wrap_u 8 (command q.2)) (wrap_s 8 (type_id q.2)) (wrap_s 16 (source_id q.2))
    ((fun k => coord_at k q) <$> seq 0 levels).

(** The buffers hold the commands [l]. *)
Record stream_inv (levels : nat) (l : list issue) (st : Streamer) : Prop := mkStreamInv {
  si_level : ls_level_count st = Z.of_nat levels;
  si_run : ls_interrupted st = false;
  si_clk : ls_clk_buf st = fst <$> l;
  si_arrive : ls_arrive_buf st = (fun q => arrive q.2) <$> l;
  si_cmd : ls_cmd_buf st = (fun q => wrap_u 8 (command q.2)) <$> l;
  si_type : ls_type_buf st = (fun q => wrap_s 8 (type_id q.2)) <$> l;
  si_source : ls_source_buf st = (fun q => wrap_s 16 (source_id q.2)) <$> l;
  si_addr : ls_addr_bufs st = (fun k => coord_at k <$> l) <$> seq 0 levels
}.

Definition stream_fits (levels : nat) (q : issue) : Prop :=
  (levels <= length (addr_vec q.2))%nat /\ Forall (fun x => in_s 32 x = true) (addr_vec q.2).

Lemma stream_issue levels l st q :
  stream_inv levels l st -> stream_fits levels q ->
  exists st', Streamer_on_issue st q.1 q.2 = Ok st' /\ stream_inv levels (l ++ [q]) st' /\ ls_posts st' = ls_posts st.
Proof.
  intros [H1 H2 H3 H4 H5 H6 H7 H8] [Hl Hs]. unfold Streamer_on_issue. rewrite H1, H2.
  destruct (push_addrs (addr_vec q.2) (ls_addr_bufs st) levels) as (bufs & Hf & Hlen & Hk); [rewrite H8, length_fmap, length_seq; done|done|done|].
  rewrite Hf. cbn [mbind result_bind]. eexists. split; [done|]. split; [|done]. split; cbn; rewrite ?fmap_app, ?H3, ?H4, ?H5, ?H6, ?H7; try done.
  apply list_eq. intros k. destruct (decide (k < levels)%nat) as [Hlt|Hge].
  - rewrite (Hk k (coord_at k <$> l)), decide_True by (try done; rewrite H8, list_lookup_fmap, lookup_seq_lt by lia; done).
    rewrite list_lookup_fmap, lookup_seq_lt by lia. cbn. by rewrite fmap_app.
  - rewrite !lookup_ge_None_2; [done|rewrite length_fmap, length_seq; lia|rewrite Hlen, H8, length_fmap, length_seq; lia].
Qed.

Lemma vget_fmap {A B} (f : A -> B) (l : list A) i x : l !! i = Some x -> vget (f <$> l) (Z.of_nat i) = Ok (f x).
Proof. intros H. apply vget_Ok. split; [lia|]. by rewrite Nat2Z.id, list_lookup_fmap, H. Qed.

Lemma mapM_seqZ {A} (f : Z -> result A) (g : nat -> A) n : (forall k, (k < n)%nat -> f (Z.of_nat k) = Ok (g k)) -> mapM f (seqZ 0 (Z.of_nat n)) = Ok (g <$> seq 0 n).
Proof.
  intros H. apply mapM_Ok. apply Forall2_same_length_lookup. split; [by rewrite length_seqZ, Nat2Z.id, length_fmap, length_seq|].
  intros i x y Hx Hy. apply lookup_seqZ in Hx as [-> Hi]. rewrite list_lookup_fmap, lookup_seq_lt in Hy by lia. injection Hy as <-. apply (H i). lia.
Qed.

Lemma event_at_ok levels l st i q : stream_inv levels l st -> l !! i = Some q -> event_at st (Z.of_nat i) = Ok (stream_event levels q).
Proof.
  intros [H1 H2 H3 H4 H5 H6 H7 H8] Hi. unfold event_at. rewrite H1, H3, H4, H5, H6, H7, H8.
  rewrite !(vget_fmap _ _ _ _ Hi). cbn [mbind result_bind].
  rewrite (mapM_seqZ _ (fun k => coord_at k q)); [done|]. intros k Hk.
  rewrite (vget_fmap _ _ k k) by (by rewrite lookup_seq_lt). cbn [mbind result_bind]. by rewrite (vget_fmap _ _ _ _ Hi).
Qed.

Lemma stream_flush levels l st :
  stream_inv levels l st ->
  exists st', flush_events st = Ok st' /\ stream_inv levels [] st' /\
    ls_posts st' = ls_posts st ++ (if l is [] then [] else [events_body (stream_event levels <$> l)]).
Proof.
  intros H. unfold flush_events. pose proof (si_clk _ _ _ H) as Hc. rewrite Hc, length_fmap. destruct l as [|q l]; cbn [length Nat.eqb].
  - exists st. rewrite app_nil_r. done.
  - change (@length (Clk_t * Request) l) with (@length issue l).
    assert (mapM (event_at st) (seqZ 0 (Z.of_nat (S (length l)))) = Ok (stream_event levels <$> q :: l)) as ->.
    { rewrite (mapM_seqZ _ (fun k => default EmptyString (stream_event levels <$> (q :: l) !! k))).
      - f_equal. apply list_eq. intros k. rewrite !list_lookup_fmap. destruct (decide (k < S (length l))%nat) as [Hk|Hk].
        + rewrite lookup_seq_lt by lia. destruct (lookup_lt_is_Some_2 (q :: l) k) as [x Hx]; [cbn; lia|]. rewrite Hx. cbn [fmap option_fmap option_map].
          by rewrite Nat.add_0_l, Hx.
        + rewrite !lookup_ge_None_2; [done|cbn; lia|rewrite length_seq; lia].
      - intros k Hk. destruct (lookup_lt_is_Some_2 (q :: l) k) as [x Hx]; [cbn; lia|]. rewrite (event_at_ok _ _ _ _ _ H Hx), Hx. done. }
    cbn [mbind result_bind]. eexists. split; [done|]. split; [|done]. destruct H as [H1 H2 _ _ _ _ _ H8].
    split; cbn; try done. rewrite H8. clear. induction (seq 0 levels) as [|x xs IH]; [done|]. cbn. f_equal. apply IH.
Qed.

(** Commands and polls of a run, the answers to the polls included. *)
Inductive stream_step := Issued (q : issue) | Polled (clk : Clk_t) (now : Z) (response : string).

Definition stream_next (st : Streamer) (s : stream_step) : result Streamer :=
  match s with
  | Issued q => Streamer_on_issue st q.1 q.2
  | Polled clk now response => Streamer_post_schedule st clk now response
  end.

Definition step_ok (levels : nat) (s : stream_step) : Prop :=
  match s with Issued q => stream_fits levels q | Polled _ _ response => check_interrupted response = false end.
Definition issued (s : stream_step) : list issue := match s with Issued q => [q] | Polled _ _ _ => [] end.

(** What is posted for groups of commands, each after a status request. *)
Definition chunk_posts (levels : nat) (chunks : list (list issue)) : list string :=
  chunks ≫= (fun c => [status_body; events_body (stream_event levels <$> c)]).

Lemma stream_steps levels st steps l :
  stream_inv levels l st -> Forall (step_ok levels) steps ->
  exists st' chunks rest, foldM stream_next st steps = Ok st' /\ stream_inv levels rest st' /\ Forall (fun c => c <> []) chunks /\
    concat chunks ++ rest = l ++ (steps ≫= issued) /\ ls_posts st' = ls_posts st ++ chunk_posts levels chunks.
Proof.
  intros H Hs. revert st l H. induction Hs as [|s steps Hs _ IH]; intros st l H.
  { exists st, [], l. rewrite !app_nil_r. done. }
  destruct s as [q|clk now response]; cbn [foldM stream_next] in *.
  - destruct (stream_issue _ _ _ _ H Hs) as (st1 & -> & H1 & E1). cbn [mbind result_bind].
    destruct (IH _ _ H1) as (st' & chunks & rest & E & Hi & Hc & El & Ep). exists st', chunks, rest. split_and!; try done; [|congruence].
    rewrite El. cbn. by rewrite <- app_assoc.
  - unfold Streamer_post_schedule. rewrite (si_clk _ _ _ H), length_fmap. cbn [step_ok] in Hs.
    change (@length (Clk_t * Request) l) with (@length issue l). destruct (length l =? 0)%nat eqn:El0; [exact (IH _ _ H)|].
    destruct (_ || _); [|exact (IH _ _ H)]. rewrite Hs.
    assert (stream_inv levels l (http_post st status_body)) as H1 by (by destruct H).
    destruct (stream_flush _ _ _ H1) as (st1 & -> & H2 & Ep1). cbn [mbind result_bind].
    match goal with |- context [foldM stream_next ?x steps] => assert (stream_inv levels [] x) as H3 by (by destruct H2) end.
    destruct (IH _ _ H3) as (st' & chunks & rest & E & Hi & Hc & El & Ep). destruct l as [|q l]; [done|].
    exists st', ((q :: l) :: chunks), rest. split_and!; [done|done|by constructor| |].
    + cbn [concat]. rewrite <- app_assoc, El. done.
    + rewrite Ep. cbn [ls_posts]. rewrite Ep1. cbn. by rewrite <- !app_assoc.
Qed.

(** Unless the visualizer asks to stop, every issued command is posted exactly once, in
    order, however polls and commands interleave. *)
Lemma stream_complete s channel_id interval seconds dram_type now clk steps :
  0 <= level_count s -> Forall (step_ok (Z.to_nat (level_count s))) steps ->
  exists st st' chunks rest, foldM stream_next (Streamer_setup s channel_id interval seconds dram_type now clk) steps = Ok st /\
    Streamer_finalize st = Ok st' /\ Forall (fun c => c <> []) chunks /\ concat chunks ++ rest = (steps ≫= issued) /\
    ls_posts st' = [init_body s channel_id dram_type] ++ chunk_posts (Z.to_nat (level_count s)) chunks ++
                   (if rest is [] then [] else [events_body (stream_event (Z.to_nat (level_count s)) <$> rest)]) ++ [done_body].
Proof.
  intros Hl Hs. assert (stream_inv (Z.to_nat (level_count s)) [] (Streamer_setup s channel_id interval seconds dram_type now clk)) as H0.
  { split; cbn; try done; [lia|]. clear. generalize 0%nat. induction (Z.to_nat (level_count s)) as [|n IH]; intros k; cbn; [done|]. f_equal. apply IH. }
  destruct (stream_steps _ _ _ _ H0 Hs) as (st & chunks & rest & E & Hi & Hc & El & Ep).
  unfold Streamer_finalize. destruct (stream_flush _ _ _ Hi) as (st1 & Hf & H1 & Ep1).
  exists st, (mkStreamer (ls_tick_interval st1) (ls_update_interval_s st1) (ls_level_count st1) (ls_interrupted st1) [] [] [] [] [] []
        (ls_last_flush_time st1) (ls_last_flush_tick st1) (ls_posts st1 ++ [done_body])), chunks, rest.
  rewrite (si_run _ _ _ Hi), Hf. cbn [mbind result_bind]. split_and!; try done. cbn [ls_posts]. rewrite Ep1, Ep. cbn. by rewrite <- !app_assoc.
Qed.
