(* ===== verification/Text.v ===== *)
(** * Text helpers

    [tokenize] and [parse_capacity_str] of [base/utils.cpp] and the conversions of the
    standard library that the frontends use: [std::stoll] (base 10 and 16),
    [std::stoi], [std::stoull], [std::getline], integers read from and written to a stream.  Then the
    configuration tree ([base/config_node.h], [base/config.cpp]) and the parameters
    read from it ([base/param.h]). *)

From Stdlib Require Import ZArith Lia Ascii String.
From S2P Require Import Prelude Base.

Local Open Scope Z_scope.

(** ** [tokenize]

    The loop looks for the delimiter from [last_pos]; it moves on by at least one
    character per round. *)
Fixpoint tokenize_loop (fuel : nat) (line delim : string) (last_pos : nat) : result (list string) :=
  match fuel with
  | O => Err OutOfFuel
  | S fuel =>
      match String.index last_pos delim line with
      | Some pos => r ← tokenize_loop fuel line delim (pos + 1); Ok (substring last_pos (pos - last_pos) line :: r)
      | None => if (String.length line <? last_pos)%nat then Err (Throw "basic_string::substr")
                else Ok [substring last_pos (String.length line - last_pos) line]
      end
  end.

Definition tokenize (line delim : string) : result (list string) := tokenize_loop (S (String.length line)) line delim 0.

(** ** Integers *)

(** [isspace] in the C locale. *)
Definition is_space (c : ascii) : bool :=
  let n := N_of_ascii c in (N.eqb n 32 || (9 <=? n)%N && (n <=? 13)%N).

Definition digit_value (c : ascii) : option Z :=
  let n := Z.of_N (N_of_ascii c) in
  if (48 <=? n) && (n <=? 57) then Some (n - 48)
  else if (65 <=? n) && (n <=? 90) then Some (n - 55)
  else if (97 <=? n) && (n <=? 122) then Some (n - 87)
  else None.

Fixpoint skip_spaces (s : string) : string :=
  match s with String c s' => if is_space c then skip_spaces s' else s | EmptyString => EmptyString end.

(** The digits at the front of a string, with the value before them; [None] if
    there is no digit. *)
Fixpoint digits (base : Z) (s : string) (acc : option Z) : option Z :=
  match s with
  | EmptyString => acc
  | String c s =>
      match digit_value c with
      | Some d => if d <? base then digits base s (Some (default 0 acc * base + d)) else acc
      | None => acc
      end
  end.

(** [strtoll]: optional spaces and sign, an optional [0x] in base 16, digits.  What
    follows the number is ignored. *)
Definition strip_0x (base : Z) (s : string) : string :=
  match s with
  | String "0" (String x (String c r)) =>
      if (base =? 16) && (bool_decide (x = "x"%char) || bool_decide (x = "X"%char)) &&
         match digit_value c with Some d => d <? 16 | None => false end
      then String c r else s
  | _ => s
  end.

Definition strip_sign (s : string) : bool * string :=
  match s with
  | String "-" s => (true, s)
  | String "+" s => (false, s)
  | _ => (false, s)
  end.

Definition strto (name : string) (base lo hi : Z) (s : string) : result Z :=
  let '(neg, s) := strip_sign (skip_spaces s) in
  match digits base (strip_0x base s) None with
  | None => Err (Throw name)
  | Some n =>
      let v := if (neg : bool) then - n else n in
      if (lo <=? v) && (v <=? hi) then Ok v else Err (Throw name)
  end.

(** What a successful conversion leaves of the text: the position it reports is the
    end exactly if nothing is left. *)
Fixpoint skip_digits (base : Z) (s : string) : string :=
  match s with
  | EmptyString => EmptyString
  | String c s' => match digit_value c with Some d => if d <? base then skip_digits base s' else s | None => s end
  end.
Definition strto_rest (base : Z) (s : string) : string := skip_digits base (strip_0x base (strip_sign (skip_spaces s)).2).

Definition stoll (base : Z) (s : string) : result Z := strto "stoll" base (- 2 ^ 63) (2 ^ 63 - 1) s.
Definition stoi (s : string) : result Z := strto "stoi" 10 (- 2 ^ 31) (2 ^ 31 - 1) s.

(** [std::stoull]: a negative number is accepted and wraps. *)
Definition stoull (s : string) : result Z :=
  v ← strto "stoull" 10 (- (2 ^ 64 - 1)) (2 ^ 64 - 1) s;
  Ok (wrap_u 64 v).

(** [parse_capacity_str]: the first of the suffixes that occurs in the text. *)
Definition parse_capacity_str (size_str : string) : result Z :=
  let has suffix := match String.index 0 suffix size_str with Some _ => true | None => false end in
  let scaled n := size ← stoull size_str; Ok (wrap_u 64 (Z.shiftl size n)) in
  if has "KB"%string then scaled 10
  else if has "MB"%string then scaled 20
  else if has "GB"%string then scaled 30
  else Ok 0.

(** [operator>>] of an integer type with the given range: white space, a sign and
    digits; nothing if there is no digit or the value does not fit. *)
Definition extract_range (lo hi : Z) (s : string) : option (Z * string) :=
  let '(neg, t) := strip_sign (skip_spaces s) in
  match digits 10 t None with
  | Some n =>
      let v := if (neg : bool) then - n else n in
      if (lo <=? v) && (v <=? hi) then Some (v, skip_digits 10 t) else None
  | None => None
  end.

(** ** Printing integers *)
Definition digit_char (d : Z) : ascii := ascii_of_N (Z.to_N (if d <? 10 then d + 48 else d + 87)).

Fixpoint show_digits (fuel : nat) (base n : Z) (s : string) : string :=
  match fuel with
  | O => s
  | S fuel =>
      let s := String (digit_char (n mod base)) s in
      if n / base =? 0 then s else show_digits fuel base (n / base) s
  end.
(** Sixty-four digits are enough for every address. *)
Definition show_nat (base n : Z) : string := show_digits 64 base n EmptyString.
Definition show_int (n : Z) : string := if n <? 0 then String "-" (show_nat 10 (- n)) else show_nat 10 n.

(** ** Lines *)

(** [std::getline] until the end of the file: the text after the last newline is a
    line only if it is not empty. *)
Fixpoint lines_from (s cur : string) : list string :=
  match s with
  | EmptyString => match cur with EmptyString => [] | _ => [cur] end
  | String c s => if bool_decide (c = ascii_of_nat 10) then cur :: lines_from s EmptyString
                  else lines_from s (cur ++ String c EmptyString)
  end.
Definition getlines (s : string) : list string := lines_from s EmptyString.

(** ** The configuration tree

    [base/config_node.h]; a map is sorted by its keys.  A conversion throws a
    [std::runtime_error] of its own or one of the exceptions of [std::stoi] and the
    like, which are [std::logic_error]s. *)
Inductive ConfigNode :=
| CNull
| CScalar (s : string)
| CMap (m : list (string * ConfigNode))
| CSeq (l : list ConfigNode).

Inductive thrown := RuntimeError (msg : string) | LogicError (msg : string).

Definition ConfigNode_int (v : Z) : ConfigNode := CScalar (show_int v).
Definition ConfigNode_bool (b : bool) : ConfigNode := CScalar (if b then "true" else "false").

Fixpoint map_find (key : string) (m : list (string * ConfigNode)) : option ConfigNode :=
  match m with
  | [] => None
  | e :: m => if bool_decide (e.1 = key) then Some e.2 else map_find key m
  end.

(** [operator[]]. *)
Definition config_get (n : ConfigNode) (key : string) : ConfigNode :=
  match n with CMap m => default CNull (map_find key m) | _ => CNull end.

Definition config_true (n : ConfigNode) : bool := match n with CNull => false | _ => true end.

Definition config_map (n : ConfigNode) : list (string * ConfigNode) + thrown :=
  match n with CMap m => inl m | _ => inr (RuntimeError "ConfigNode is not a map") end.
Definition config_seq (n : ConfigNode) : list ConfigNode + thrown :=
  match n with CSeq l => inl l | _ => inr (RuntimeError "ConfigNode is not a sequence") end.
Definition config_scalar (n : ConfigNode) : string + thrown :=
  match n with CScalar s => inl s | _ => inr (RuntimeError "ConfigNode is not a scalar") end.
Definition config_size (n : ConfigNode) : nat := match n with CMap m => length m | CSeq l => length l | _ => 0 end.

(** A conversion of the standard library. *)
Definition of_std {A} (r : result A) : A + thrown :=
  match r with Ok a => inl a | Err (Throw msg) => inr (LogicError msg) | Err _ => inr (LogicError EmptyString) end.

Definition convert_with {A} (f : string -> result A) (n : ConfigNode) : A + thrown :=
  match config_scalar n with inl s => of_std (f s) | inr e => inr e end.

Definition stoul (s : string) : result Z :=
  v ← strto "stoul" 10 (- (2 ^ 64 - 1)) (2 ^ 64 - 1) s;
  Ok (wrap_u 64 v).

Definition convert_string (n : ConfigNode) : string + thrown := config_scalar n.
Definition convert_int : ConfigNode -> Z + thrown := convert_with stoi.
Definition convert_unsigned : ConfigNode -> Z + thrown := convert_with (fun s => v ← stoul s; Ok (wrap_u 32 v)).
Definition convert_long : ConfigNode -> Z + thrown := convert_with (strto "stol" 10 (- 2 ^ 63) (2 ^ 63 - 1)).
Definition convert_ulong : ConfigNode -> Z + thrown := convert_with stoul.
Definition convert_llong : ConfigNode -> Z + thrown := convert_with (stoll 10).
Definition convert_ullong : ConfigNode -> Z + thrown := convert_with stoull.

Definition convert_bool (n : ConfigNode) : bool + thrown :=
  match config_scalar n with
  | inl s =>
      if bool_decide (s ∈ ["true"; "1"; "yes"]%string) then inl true
      else if bool_decide (s ∈ ["false"; "0"; "no"]%string) then inl false
      else inr (RuntimeError ("ConfigNode: cannot convert '" ++ s ++ "' to bool"))
  | inr e => inr e
  end.

(** [as<T>()], without and with a fallback. *)
Definition config_as {A} (convert : ConfigNode -> A + thrown) (n : ConfigNode) : A + thrown :=
  match n with CNull => inr (RuntimeError "ConfigNode: cannot convert null node") | _ => convert n end.
Definition config_as_or {A} (convert : ConfigNode -> A + thrown) (fallback : A) (n : ConfigNode) : A + thrown :=
  match n with CNull => inl fallback | _ => convert n end.

Fixpoint convert_items {A} (convert : ConfigNode -> A + thrown) (l : list ConfigNode) : list A + thrown :=
  match l with
  | [] => inl []
  | n :: l =>
      match config_as convert n with
      | inl a => match convert_items convert l with inl r => inl (a :: r) | inr e => inr e end
      | inr e => inr e
      end
  end.
(** A vector of strings or of integers; a scalar is a vector of one. *)
Definition convert_vector {A} (convert : ConfigNode -> A + thrown) (n : ConfigNode) : list A + thrown :=
  match n with
  | CSeq l => convert_items convert l
  | _ => match convert n with inl a => inl [a] | inr e => inr e end
  end.

Fixpoint map_assign (key : string) (v : ConfigNode) (m : list (string * ConfigNode)) : list (string * ConfigNode) :=
  match m with
  | [] => [(key, v)]
  | e :: m' =>
      match String.compare key e.1 with
      | Lt => (key, v) :: m
      | Eq => (key, v) :: m'
      | Gt => e :: map_assign key v m'
      end
  end.

Definition config_set (n : ConfigNode) (key : string) (v : ConfigNode) : ConfigNode + thrown :=
  match n with
  | CNull => inl (CMap [(key, v)])
  | CMap m => inl (CMap (map_assign key v m))
  | _ => inr (RuntimeError "ConfigNode: cannot set key on non-map node")
  end.
Definition config_push_back (n v : ConfigNode) : ConfigNode + thrown :=
  match n with
  | CNull => inl (CSeq [v])
  | CSeq l => inl (CSeq (l ++ [v]))
  | _ => inr (RuntimeError "ConfigNode: cannot push_back on non-sequence node")
  end.

(** *** From YAML

    What [base/config.cpp] sees of a parsed document. *)
Inductive Yaml := YNull | YScalar (s : string) | YSequence (l : list Yaml) | YMap (m : list (string * Yaml)).

Definition yaml_push (acc v : ConfigNode + thrown) : ConfigNode + thrown :=
  match acc, v with inl n, inl v => config_push_back n v | inr e, _ => inr e | _, inr e => inr e end.
Definition yaml_set (acc : ConfigNode + thrown) (key : string) (v : ConfigNode + thrown) : ConfigNode + thrown :=
  match acc, v with inl n, inl v => config_set n key v | inr e, _ => inr e | _, inr e => inr e end.

Fixpoint yaml_to_confignode (y : Yaml) : ConfigNode + thrown :=
  match y with
  | YNull => inl CNull
  | YScalar s => inl (CScalar s)
  | YSequence l => foldl (fun acc v => yaml_push acc v) (inl CNull) (map yaml_to_confignode l)
  | YMap m => foldl (fun acc e => yaml_set acc e.1 e.2) (inl (CMap [])) (map (fun e => (e.1, yaml_to_confignode e.2)) m)
  end.

(** ** Parameters

    [base/param.h]. *)
Section param.
Context {A : Type} (convert : ConfigNode -> A + thrown) (config : ConfigNode) (name impl_name : string).

Definition param_quoted (s : string) : string := String (ascii_of_nat 34) (s ++ String (ascii_of_nat 34) EmptyString).

(** Only [std::runtime_error] is caught. *)
Definition param_parse : A + thrown :=
  match config_as convert (config_get config name) with
  | inr (RuntimeError msg) =>
      inr (RuntimeError ("Failed to parse param " ++ param_quoted name ++ " for " ++ param_quoted impl_name ++ ": " ++ msg))
  | r => r
  end.

Definition param_required : A + thrown :=
  if config_true (config_get config name) then param_parse
  else inr (RuntimeError ("Param " ++ param_quoted name ++ " for " ++ param_quoted impl_name ++ " is required but not given.")).
Definition param_default (d : A) : A + thrown := if config_true (config_get config name) then param_parse else inl d.
Definition param_optional : option A + thrown :=
  if config_true (config_get config name) then match param_parse with inl a => inl (Some a) | inr e => inr e end else inl None.
End param.
