(* ===== verification/TraceReaders.v ===== *)
(** * Trace-driven frontends

    [frontend/impl/memory_trace/readwrite_trace.cpp], [loadstore_trace.cpp] and
    [frontend/impl/external.cpp], the trace files of the processor frontends
    ([simpleO3/core.cpp], [bhO3/bhcore.cpp]) and the snapshots of the cache of
    [simpleO3/llc.cpp], and the batch files of [base/batch_simulation.cpp].  A file is
    its text or its bytes; whether it exists and can be opened is an argument. *)

From Stdlib Require Import ZArith Lia Ascii String.
From stdpp Require Import pretty.
From S2P Require Import Prelude Base Latency Elision Simulation LLC Core BHLLC BHO3 Batch Text.

Local Open Scope Z_scope.
Local Open Scope string_scope.

(** A trace of accesses and the position of the replay. *)
Record TraceReader (A : Type) := mkReader {
  tr_trace : list (bool * A);
  tr_trace_length : Z;
  tr_curr_trace_idx : Z;
  tr_trace_count : Z
}.
Arguments mkReader {A} _ _ _ _.
Arguments tr_trace {A} _.
Arguments tr_trace_length {A} _.
Arguments tr_curr_trace_idx {A} _.
Arguments tr_trace_count {A} _.

(** The two tokens of a line. *)
Definition two_tokens (path : string) (line_num : Z) (line : string) : result (string * string) :=
  tokens ← tokenize line " ";
  match tokens with
  | [a; b] => Ok (a, b)
  | _ => Err (Throw ("Trace " ++ path ++ " line " ++ pretty line_num ++ ": expected 2 tokens, got " ++
           pretty (Z.of_nat (length tokens))))
  end.

Definition unknown_type (path : string) (line_num : Z) (token expected : string) : error :=
  Throw ("Trace " ++ path ++ " line " ++ pretty line_num ++ ": unknown type '" ++ token ++ "' (expected " ++ expected ++ ")").

(** *** [ReadWriteTrace] *)
Definition parse_readwrite (path : string) (line_num : Z) (line : string) : result (bool * AddrVec_t) :=
  t ← two_tokens path line_num line;
  is_write ← (if bool_decide (t.1 = "R") then Ok false
              else if bool_decide (t.1 = "W") then Ok true
              else Err (unknown_type path line_num t.1 "R or W"));
  tokens ← tokenize t.2 ",";
  addr_vec ← mapM (fun token => x ← stoll 10 token; Ok (wrap_s 32 x)) tokens;
  Ok (is_write, addr_vec).

(** *** [LoadStoreTrace] *)
Definition has_prefix (p s : string) : bool := bool_decide (substring 0 (String.length p) s = p).

Definition parse_loadstore (path : string) (line_num : Z) (line : string) : result (bool * Addr_t) :=
  t ← two_tokens path line_num line;
  is_write ← (if bool_decide (t.1 = "LD") then Ok false
              else if bool_decide (t.1 = "ST") then Ok true
              else Err (unknown_type path line_num t.1 "LD or ST"));
  addr ← (if has_prefix "0x" t.2 || has_prefix "0X" t.2
          then stoll 16 (substring 2 (String.length t.2 - 2) t.2)
          else stoll 10 t.2);
  Ok (is_write, addr).

(** [init_trace]: lines are numbered from one. *)
Definition init_trace {A} (parse : string -> Z -> string -> result (bool * A)) (path : string) (exists_ opened : bool) (text : string)
  : result (TraceReader A) :=
  if negb exists_ then Err (Throw ("Trace " ++ path ++ " does not exist!"))
  else if negb opened then Err (Throw ("Trace " ++ path ++ " cannot be opened!"))
  else
    trace ← mapM (fun it : nat * string => parse path (Z.of_nat it.1 + 1)%Z it.2) (imap pair (getlines text));
    Ok (mkReader trace (Z.of_nat (length trace)) 0 0).

Definition ReadWrite_init : string -> bool -> bool -> string -> result (TraceReader AddrVec_t) := init_trace parse_readwrite.
Definition LoadStore_init : string -> bool -> bool -> string -> result (TraceReader Addr_t) := init_trace parse_loadstore.

Section readers.
Context {A M : Type} `{IMemorySystem M} `{Callbacks M}.
(** The constructor of a request from a trace entry. *)
Context (request_of : A -> Z -> Request).

Definition entry_request (tx_bytes : Z) (t : bool * A) : Request :=
  let r := request_of t.2 (if t.1 then Write else Read) in
  mkRequest (addr r) (intra_channel_addr r) (addr_vec r) (type_id r) (source_id r) (ingress_id r) (frontend_id r)
    (frontend_sub_id r) (admission_ordinal r) tx_bytes (command r) (final_command r) (is_stat_updated r) (arrive r) (depart r)
    (callback r).

(** The requests of a trace have no callback. *)
Definition Reader_tick (f : TraceReader A) (m : M) : result (TraceReader A * M) :=
  t ← vget (tr_trace f) (tr_curr_trace_idx f);
  q ← ms_send m (entry_request (ms_get_tx_bytes m) t);
  let '(sent, _, m) := q in
  if (sent : bool) then
    idx ← rem_u (tr_curr_trace_idx f + 1)%Z (tr_trace_length f);
    Ok (mkReader (tr_trace f) (tr_trace_length f) idx (tr_trace_count f + 1)%Z, m)
  else Ok (f, m).

Definition Reader_is_finished (f : TraceReader A) : result bool := Ok (tr_trace_length f <=? tr_trace_count f)%Z.

(** Every tick attempts to send, so the defaults of [IFrontEnd] apply: no tick is
    idle. *)
#[export] Instance Reader_frontend : IFrontEnd (TraceReader A) M := {|
  f_tick := fun f m => q ← Reader_tick f m; Ok (q.1, (take_callbacks q.2).2);
  f_receive := fun f _ => Ok f;
  f_is_finished := Reader_is_finished;
  f_idle_ticks := fun _ _ => Ok 0;
  f_fast_forward := fun f _ => Ok f
|}.
End readers.

Definition ReadWrite_tick {M} `{IMemorySystem M} : TraceReader AddrVec_t -> M -> result (TraceReader AddrVec_t * M) :=
  Reader_tick Request_vec.
Definition LoadStore_tick {M} `{IMemorySystem M} : TraceReader Addr_t -> M -> result (TraceReader Addr_t * M) :=
  Reader_tick Request_addr.

(** *** [ExternalFrontEnd] *)
Record ExternalFrontEnd := mkExternal { ex_num_cores : Z }.

Definition External_init (num_cores : Z) : result ExternalFrontEnd :=
  if (num_cores <=? 0)%Z then Err (Throw "External frontend num_cores must be positive") else Ok (mkExternal num_cores).

Definition receive_external_requests {M} `{IMemorySystem M} (m : M) (req_type_id : Z) (a : Addr_t) (source ingress fid fsub : Z)
  (cb : option Z) (size : Z) : result (bool * M) :=
  let r := Request_src a req_type_id source cb in
  q ← ms_send m (mkRequest (addr r) (intra_channel_addr r) (addr_vec r) (type_id r) (source_id r) ingress fid fsub
                   (admission_ordinal r) size (command r) (final_command r) (is_stat_updated r) (arrive r) (depart r) (callback r));
  Ok (q.1.1, q.2).

(** The overloads with defaults. *)
Definition receive_external_ingress {M} `{IMemorySystem M} (m : M) (req_type_id : Z) (a : Addr_t) (source ingress : Z)
  (cb : option Z) (size : Z) : result (bool * M) :=
  receive_external_requests m req_type_id a source ingress (-1) 0 cb size.
Definition receive_external_plain {M} `{IMemorySystem M} (m : M) (req_type_id : Z) (a : Addr_t) (source : Z)
  (cb : option Z) (size : Z) : result (bool * M) :=
  receive_external_ingress m req_type_id a source (-1) cb size.

(** The wrapper drives the memory system itself. *)
#[export] Instance External_frontend {M} : IFrontEnd ExternalFrontEnd M := {|
  f_tick := fun f m => Ok (f, m);
  f_receive := fun f _ => Ok f;
  f_is_finished := fun _ => Ok false;
  f_idle_ticks := fun _ _ => Ok 0;
  f_fast_forward := fun f _ => Ok f
|}.

(** *** Traces of the SimpleO3 cores *)

(** [catch] around a conversion. *)
Definition catch {A} (m : result A) (e : error) : result A :=
  match m with Ok a => Ok a | Err (Throw _) => Err e | Err e => Err e end.

(** A conversion that must use up its text. *)
Definition full (base : Z) (conv : string -> result Z) (s : string) : result Z :=
  v ← conv s;
  if bool_decide (strto_rest base s = EmptyString) then Ok v else Err (Throw "trailing characters").

Definition addr_base (s : string) : Z :=
  match s with
  | String "0" (String x (String _ _)) => if bool_decide (x = "x"%char) || bool_decide (x = "X"%char) then 16 else 10
  | _ => 10
  end.
Definition full_addr (s : string) : result Z := full (addr_base s) (stoll (addr_base s)) s.

(** One line, up to the checks that follow the conversions. *)
Definition parse_inst (path : string) (line_number : Z) (line : string) : result Inst :=
  let where_ := "Trace " ++ path ++ ":" ++ pretty line_number in
  tokens ← tokenize line " ";
  match tokens with
  | b :: l :: rest =>
      if (1 <? length rest)%nat then Err (Throw ("Trace " ++ path ++ " format invalid!"))
      else
        bubble ← catch (full 10 stoi b) (Throw (where_ ++ " has an invalid instruction bubble count"));
        load ← catch (full_addr l) (Throw (where_ ++ " has an invalid load address"));
        if (bubble <? 0)%Z then Err (Throw (where_ ++ " has a negative instruction bubble count"))
        else if (load <? -1)%Z then Err (Throw (where_ ++ " has an invalid load address"))
        else
          store ← (match rest with
                   | [] => Ok (-1)%Z
                   | s :: _ => catch (full_addr s) (Throw (where_ ++ " has an invalid store address"))
                   end);
          Ok (mkInst bubble load store)
  | _ => Err (Throw ("Trace " ++ path ++ " format invalid!"))
  end.

(** A line with its checks, onto the records and the instruction count so far. *)
Definition trace_line (path : string) (acc : list Inst * Z) (it : nat * string) : result (list Inst * Z) :=
  i ← parse_inst path (Z.of_nat (S it.1)) it.2;
  count ← check_inst path acc.2 (it.1, i);
  Ok ((acc.1 ++ [i])%list, count).

(** The constructor of a trace; [bad] is a read error reported at the end. *)
Definition Trace_load (path : string) (exists_ opened bad : bool) (text : string) (allow_wrap : bool) : result Trace :=
  if negb exists_ then Err (Throw ("Trace " ++ path ++ " does not exist!"))
  else if negb opened then Err (Throw ("Trace " ++ path ++ " cannot be opened!"))
  else
    acc ← foldM (trace_line path) ([], 0%Z) (imap pair (getlines text));
    if bad then Err (Throw ("Trace " ++ path ++ " could not be read completely"))
    else if (length acc.1 =? 0)%nat then Err (Throw ("Trace " ++ path ++ " contains no instruction records"))
    else Ok (mkTrace acc.1 0 acc.2 allow_wrap).

(** *** Traces of the BHO3 cores *)
Definition bh_parse_inst (path line : string) : result Inst :=
  tokens ← tokenize line " ";
  match tokens with
  | [b; l] => bubble ← stoi b; load ← stoll 10 l; Ok (mkInst bubble load (-1))
  | [b; l; s] => bubble ← stoi b; load ← stoll 10 l; store ← stoll 10 s; Ok (mkInst bubble load store)
  | _ => Err (Throw ("Trace " ++ path ++ " format invalid!"))
  end.

Definition BHTrace_load (path : string) (exists_ opened : bool) (text : string) : result BHTrace :=
  if negb exists_ then Err (Throw ("Trace " ++ path ++ " does not exist!"))
  else if negb opened then Err (Throw ("Trace " ++ path ++ " cannot be opened!"))
  else insts ← mapM (bh_parse_inst path) (getlines text); Ok (mkBHTrace insts 0).

(** ** Snapshots of the SimpleO3 cache

    [serialize] writes the lines set by set, in the iteration order of the table of
    sets, which is an argument; [deserialize] appends the lines it reads, all ready.
    A file that does not open has no lines. *)
Definition comma (s t : string) : string := s ++ String "," t.

Definition snapshot_line (index : Z) (ln : Line) : string :=
  comma (show_int index) (comma (show_int (ln_addr ln)) (comma (show_int (ln_tag ln)) (show_int (if ln_dirty ln then 1 else 0)))).

(** [<< std::endl] before what follows. *)
Definition put_line (s t : string) : string := s ++ String (ascii_of_nat 10) t.

Definition serialize (sets : list (Z * list Line)) : string :=
  foldr put_line EmptyString ("index,addr,tag,dirty" :: concat (map (fun e => map (snapshot_line e.1) e.2) sets)).

(** [substr(0, find)] and [substr(find + 1)]: without a comma both are the text. *)
Definition cut_comma (s : string) : string * string :=
  match String.index 0 (String "," EmptyString) s with
  | Some p => (substring 0 p s, substring (p + 1) (String.length s - (p + 1)) s)
  | None => (s, s)
  end.

Definition deserialize_line (l : LLC) (line : string) : result LLC :=
  let '(index_str, r) := cut_comma line in
  let '(addr_str, r) := cut_comma r in
  let '(tag_str, r) := cut_comma r in
  let dirty_str := (cut_comma r).1 in
  index ← stoi index_str;
  a ← stoll 10 addr_str;
  tag ← stoll 10 tag_str;
  dirty ← stoi dirty_str;
  let ln := mkLine (l_next_line l) a tag (negb (dirty =? 0)%Z) true in
  Ok (set_lines l (<[index := (default [] (l_cache_sets l !! index) ++ [ln])%list]> (l_cache_sets l)) (l_next_line l + 1)%Z).

Definition deserialize (l : LLC) (text : string) : result LLC := foldM deserialize_line l (tail (getlines text)).

(** ** Batch files

    The inputs and outputs of [base/batch_simulation.cpp]. *)
Definition extract_char (s : string) : option (ascii * string) :=
  match skip_spaces s with String c r => Some (c, r) | EmptyString => None end.

Definition s64_field (s : string) : option (Z * string) := extract_range (- 2 ^ 63)%Z (2 ^ 63 - 1)%Z s.
Definition s32_field (s : string) : option (Z * string) := extract_range (- 2 ^ 31)%Z (2 ^ 31 - 1)%Z s.

(** [row >> arrival >> a >> address >> b >> type >> c >> source]. *)
Definition batch_row (line : string) : result BatchRequest :=
  match
    '(arrival, r) ← s64_field line; '(a, r) ← extract_char r; '(address, r) ← s64_field r; '(b, r) ← extract_char r;
    '(type, r) ← s32_field r; '(c, r) ← extract_char r; '(source, r) ← s32_field r;
    Some (mkBatchRequest address type arrival source, [a; b; c], r)
  with
  | Some (entry, seps, r) =>
      if bool_decide (seps = [","; ","; ","]%char) && bool_decide (skip_spaces r = EmptyString) then Ok entry
      else Err (Throw "malformed numeric batch input row")
  | None => Err (Throw "malformed numeric batch input row")
  end.

(** [bad] is a read error that ends the input. *)
Definition read_batch (text : string) (bad : bool) : result (list BatchRequest) :=
  match getlines text with
  | header :: rows =>
      if bool_decide (header = "arrive,addr,type,source") then
        entries ← mapM batch_row rows;
        if bad then Err (Throw "batch input read failed") else Ok entries
      else Err (Throw "batch input requires arrive,addr,type,source header")
  | [] => Err (Throw "batch input requires arrive,addr,type,source header")
  end.

(** Eight bytes, the least significant first. *)
Definition u64_at (data : list Z) (off : Z) : result Z :=
  foldM (fun v i => b ← vget data (off + i)%Z; Ok (Z.lor v (Z.shiftl b (8 * i)%Z))) 0%Z (seqZ 0 8).

Definition speed_entry (interval : Clk_t) (bytes : list Z) (i : Z) : result BatchRequest :=
  address ← u64_at bytes (i * 9)%Z;
  type ← vget bytes (i * 9 + 8)%Z;
  if ((2 ^ 33 <=? address) || negb (address mod 64 =? 0) || (1 <? type))%Z
  then Err (Throw "compact speed input exceeds frozen 8-GiB/64-byte geometry")
  else Ok (mkBatchRequest address type (i * interval)%Z 0%Z).

Definition ascii_bytes (s : string) : list Z := map (fun c => Z.of_N (N_of_ascii c)) (list_ascii_of_string s).

Definition read_speed_batch (file : list Z) (interval : Clk_t) : result (list BatchRequest) :=
  let header := take 16 file in
  if (length header <? 16)%nat || negb (bool_decide (take 8 header = ascii_bytes "RMSPD001")) || (interval <=? 0)%Z
  then Err (Throw "invalid compact speed input header/interval")
  else
    count ← u64_at header 8;
    if (count =? 0)%Z || (100000000 <? count)%Z || ((2 ^ 63 - 1) ÷ interval <? count - 1)%Z
    then Err (Throw "invalid compact speed input population")
    else
      let bytes := drop 16 file in
      if negb (Z.of_nat (length bytes) =? count * 9)%Z then Err (Throw "truncated or trailing compact speed input")
      else mapM (speed_entry interval bytes) (seqZ 0 count).

Definition write_row (first_frontend_id : Z) (it : nat * (BatchRequest * (Clk_t * Clk_t))) : string :=
  let '(i, (e, (admitted, departed))) := it in
  comma (show_int (br_arrival e)) (comma (show_int admitted) (comma (show_int departed) (comma (show_int (br_type e))
    (comma (show_int (br_source e)) (comma (show_int (br_address e)) (comma (show_int ((first_frontend_id + Z.of_nat i)%Z)) "0")))))).

Definition write_batch (input : list BatchRequest) (r : BatchResult) (first_frontend_id : Z) (bad : bool) : result string :=
  if negb (length input =? length (bs_admitted r))%nat || negb (length input =? length (bs_departed r))%nat
  then Err (Throw "batch output population differs from its input")
  else if bad then Err (Throw "batch output write failed")
  else Ok (foldr put_line EmptyString ("arrive,admit,depart,type,source,addr,frontend_id,frontend_sub_id" ::
             map (write_row first_frontend_id) (imap pair (zip input (zip (bs_admitted r) (bs_departed r)))))).
