(* ===== verification/TraceReadersProps.v ===== *)
(** * Files are read back as they were written

    [tokenize] is splitting at a character; numbers printed in base 10 or 16 are
    parsed back; a file in the documented format of a trace reader is loaded to
    exactly the accesses it lists, as are cache snapshots and batch files.  Then
    what the configuration tree keeps. *)

From Stdlib Require Import ZArith Lia Ascii String.
From stdpp Require Import pretty.
From S2P Require Import Prelude Base Controller MemSystem Latency Elision Simulation LLC Core BHLLC BHO3 Batch Recorders Text TraceReaders.

Local Open Scope string_scope.
Local Open Scope list_scope.
Local Open Scope Z_scope.

(** ** Strings *)
Fixpoint sdrop (n : nat) (s : string) : string :=
  match n, s with
  | O, _ => s
  | S n, String _ s => sdrop n s
  | S _, EmptyString => EmptyString
  end.

(** No character of a string is [d]. *)
Fixpoint lacks (d : ascii) (s : string) : bool :=
  match s with EmptyString => true | String c s => negb (bool_decide (c = d)) && lacks d s end.

Definition one (d : ascii) : string := String d EmptyString.

Lemma append_nil t : EmptyString +:+ t = t.
Proof. done. Qed.
Lemma append_cons c s t : String c s +:+ t = String c (s +:+ t).
Proof. done. Qed.

Lemma substring_all s : substring 0 (String.length s) s = s.
Proof. induction s as [|c s IH]; cbn; [done|by rewrite IH]. Qed.

Lemma substring_sdrop n k s : substring n k s = substring 0 k (sdrop n s).
Proof. revert n. induction s as [|c s IH]; intros [|n]; [done| |done|exact (IH n)]. by destruct k. Qed.

Lemma sdrop_length n s : String.length (sdrop n s) = (String.length s - n)%nat.
Proof. revert n. induction s as [|c s IH]; intros [|n]; cbn; [done|done|done|apply IH]. Qed.

Lemma sdrop_add n k s : sdrop (n + k) s = sdrop k (sdrop n s).
Proof. revert n. induction s as [|c s IH]; intros [|n]; [done|by destruct k|done|exact (IH n)]. Qed.

Lemma index_sdrop n d s : (n <= String.length s)%nat -> String.index n (one d) s = (Nat.add n) <$> String.index 0 (one d) (sdrop n s).
Proof.
  revert n. induction s as [|c s IH]; intros [|n] Hn; cbn in *; [done|lia| |].
  - repeat case_match; done.
  - rewrite IH by lia. by destruct (String.index 0 (one d) (sdrop n s)).
Qed.

Lemma find_bound d s p : String.index 0 (one d) s = Some p -> (p < String.length s)%nat.
Proof.
  revert p. induction s as [|c s IH]; intros p Hp; [done|]. cbn [String.index] in Hp. case_match; [simplify_eq; cbn; lia|].
  destruct (String.index 0 (one d) s) as [k|]; [|done]. simplify_eq. specialize (IH _ eq_refl). cbn. lia.
Qed.

(** ** [tokenize] *)

(** Splitting at a character. *)
Fixpoint split_at (d : ascii) (s : string) : list string :=
  match s with
  | EmptyString => [EmptyString]
  | String c s =>
      if bool_decide (c = d) then EmptyString :: split_at d s
      else match split_at d s with t :: ts => String c t :: ts | [] => [] end
  end.

Lemma split_at_index d s :
  split_at d s = match String.index 0 (one d) s with
                 | Some p => substring 0 p s :: split_at d (sdrop (p + 1) s)
                 | None => [s]
                 end.
Proof.
  induction s as [|c s IH]; [done|]. cbn [split_at String.index String.prefix one]. unfold one in IH |- *.
  destruct (ascii_dec d c) as [<-|Hne].
  - rewrite bool_decide_eq_true_2 by done. assert (String.prefix EmptyString s = true) as -> by (by destruct s). done.
  - rewrite bool_decide_eq_false_2 by congruence. rewrite IH.
    destruct (String.index 0 (String d EmptyString) s) as [p|]; done.
Qed.

Lemma tokenize_loop_split fuel d line last :
  (last <= String.length line < last + fuel)%nat -> tokenize_loop fuel line (one d) last = Ok (split_at d (sdrop last line)).
Proof.
  revert last. induction fuel as [|fuel IH]; intros last Hl; [lia|]. cbn [tokenize_loop]. rewrite index_sdrop by lia.
  rewrite split_at_index. destruct (String.index 0 (one d) (sdrop last line)) as [p|] eqn:E; cbn [fmap option_fmap option_map].
  - apply find_bound in E. rewrite sdrop_length in E. rewrite IH by lia. cbn. f_equal. f_equal.
    + rewrite substring_sdrop. by replace (last + p - last)%nat with p by lia.
    + by rewrite <- sdrop_add, Nat.add_assoc.
  - destruct (Nat.ltb_spec (String.length line) last); [lia|]. f_equal. f_equal.
    by rewrite substring_sdrop, <- sdrop_length, substring_all.
Qed.

Lemma tokenize_split d line : tokenize line (one d) = Ok (split_at d line).
Proof. unfold tokenize. apply tokenize_loop_split. lia. Qed.

Lemma split_at_lacks d s : lacks d s = true -> split_at d s = [s].
Proof. induction s as [|c s IH]; cbn; [done|]. intros [Hc Hs]%andb_prop. rewrite IH by done. by case_bool_decide. Qed.

Lemma split_at_app d s t : lacks d s = true -> split_at d (s +:+ String d t) = s :: split_at d t.
Proof.
  induction s as [|c s IH]; rewrite ?append_nil, ?append_cons; cbn [split_at lacks]; [by rewrite bool_decide_eq_true_2|].
  intros [Hc Hs]%andb_prop. rewrite IH by done. by case_bool_decide.
Qed.

(** The pieces joined by a character are the pieces. *)
Lemma split_at_concat d s ss :
  Forall (fun s => lacks d s = true) (s :: ss) -> split_at d (String.concat (one d) (s :: ss)) = s :: ss.
Proof.
  revert s. induction ss as [|t ss IH]; intros s Hs; apply Forall_cons in Hs as [H1 H2]; [by apply split_at_lacks|].
  change (String.concat (one d) (s :: t :: ss)) with (s +:+ String d (String.concat (one d) (t :: ss))).
  rewrite split_at_app by done. by rewrite IH.
Qed.

Lemma lacks_app d s t : lacks d (s +:+ t) = lacks d s && lacks d t.
Proof. induction s as [|c s IH]; [done|]. rewrite append_cons. cbn [lacks]. by rewrite IH, andb_assoc. Qed.

(** Lines *)
Definition newline : ascii := ascii_of_nat 10.

Lemma append_assoc s t u : s +:+ (t +:+ u) = (s +:+ t) +:+ u.
Proof. induction s as [|c s IH]; [done|]. by rewrite !append_cons, IH. Qed.
Lemma append_empty s : s +:+ EmptyString = s.
Proof. induction s as [|c s IH]; [done|]. by rewrite append_cons, IH. Qed.

Lemma lines_from_line s t cur : lacks newline s = true -> lines_from (s +:+ String newline t) cur = (cur +:+ s) :: lines_from t EmptyString.
Proof.
  revert cur. induction s as [|c s IH]; intros cur Hs; rewrite ?append_nil, ?append_cons; cbn [lines_from].
  - rewrite bool_decide_eq_true_2 by done. by rewrite append_empty.
  - cbn [lacks] in Hs. apply andb_prop in Hs as [Hc Hs]. rewrite bool_decide_eq_false_2 by (by case_bool_decide).
    rewrite IH by done. change (cur ++ one c)%string with (cur +:+ one c). by rewrite <- append_assoc.
Qed.

Definition file_of (ls : list string) : string := foldr (fun l t => l +:+ String newline t) EmptyString ls.

Lemma getlines_file ls : Forall (fun l => lacks newline l = true) ls -> getlines (file_of ls) = ls.
Proof.
  induction 1 as [|l ls Hl _ IH]; [done|]. unfold getlines in *. change (file_of (l :: ls)) with (l +:+ String newline (file_of ls)).
  rewrite lines_from_line by done. by rewrite IH.
Qed.

(** ** Numbers *)
Definition is_digit_char (c : ascii) : bool := match digit_value c with Some d => d <? 16 | None => false end.
Definition all_digits (s : string) : bool := forallb is_digit_char (list_ascii_of_string s).

Lemma digit_value_char d : 0 <= d < 16 -> digit_value (digit_char d) = Some d.
Proof.
  intros Hd. assert (Forall (fun d => digit_value (digit_char d) = Some d) (seqZ 0 16)) as H
    by (vm_compute; repeat constructor).
  rewrite Forall_forall in H. apply H. apply elem_of_seqZ. lia.
Qed.

Section base.
Context (base : Z) (Hbase : 2 <= base <= 16).

Lemma digits_char d s acc : 0 <= d < base ->
  digits base (String (digit_char d) s) acc = digits base s (Some (default 0 acc * base + d)).
Proof. intros Hd. cbn [digits]. rewrite digit_value_char by lia. by destruct (Z.ltb_spec d base); [|lia]. Qed.

Lemma show_digits_S fuel n s :
  show_digits (S fuel) base n s =
  if n / base =? 0 then String (digit_char (n mod base)) s else show_digits fuel base (n / base) (String (digit_char (n mod base)) s).
Proof. done. Qed.

Lemma digits_show fuel n s : 0 <= n < base ^ Z.of_nat (S fuel) -> digits base (show_digits (S fuel) base n s) None = digits base s (Some n).
Proof.
  revert n s. induction fuel as [|fuel IH]; intros n s Hn; rewrite show_digits_S; pose proof (Z.mod_pos_bound n base ltac:(lia)) as Hm;
    pose proof (Z.div_mod n base ltac:(lia)) as Hd.
  - replace (base ^ Z.of_nat 1) with base in Hn by (cbn; lia). rewrite Z.div_small by lia. rewrite Z.eqb_refl.
    rewrite digits_char by lia. cbn [from_option id]. by rewrite Z.mod_small by lia.
  - destruct (Z.eqb_spec (n / base) 0) as [E|E].
    + rewrite digits_char by lia. cbn [from_option id]. do 2 f_equal. lia.
    + rewrite IH; [rewrite digits_char by lia; cbn [from_option id]; do 2 f_equal; lia|]. split; [apply Z.div_pos; lia|].
      apply Z.div_lt_upper_bound; [lia|]. rewrite <- Z.pow_succ_r, <- Nat2Z.inj_succ by lia. apply Hn.
Qed.

Lemma show_digits_all fuel n s : 0 <= n -> all_digits s = true -> all_digits (show_digits fuel base n s) = true.
Proof.
  revert n s. induction fuel as [|fuel IH]; intros n s Hn Hs; cbn [show_digits]; [done|].
  assert (all_digits (String (digit_char (n mod base)) s) = true) as H1.
  { pose proof (Z.mod_pos_bound n base ltac:(lia)). unfold all_digits, is_digit_char. cbn. rewrite digit_value_char by lia.
    destruct (Z.ltb_spec (n mod base) 16); [exact Hs|lia]. }
  case_match; [done|]. apply IH; [apply Z.div_pos; lia|done].
Qed.
End base.

(** ** The printed numbers are parsed back *)
Lemma digit_cases c : is_digit_char c = true ->
  (is_space c = false /\ c <> "-"%char /\ c <> "+"%char) /\ (c <> " " /\ c <> "," /\ c <> newline)%char.
Proof.
  assert (forall n, (n < 256)%nat -> is_digit_char (ascii_of_nat n) = true ->
    (is_space (ascii_of_nat n) || bool_decide (ascii_of_nat n = "-"%char) || bool_decide (ascii_of_nat n = "+"%char) ||
     bool_decide (ascii_of_nat n = " "%char) || bool_decide (ascii_of_nat n = ","%char) || bool_decide (ascii_of_nat n = newline)) = false) as H.
  { assert (forallb (fun n => negb (is_digit_char (ascii_of_nat n)) || negb
      (is_space (ascii_of_nat n) || bool_decide (ascii_of_nat n = "-"%char) || bool_decide (ascii_of_nat n = "+"%char) ||
       bool_decide (ascii_of_nat n = " "%char) || bool_decide (ascii_of_nat n = ","%char) || bool_decide (ascii_of_nat n = newline)))
      (seq 0 256) = true) as Hall by (vm_compute; reflexivity).
    intros n Hn Hd. rewrite forallb_forall in Hall. specialize (Hall n ltac:(apply in_seq; lia)). rewrite Hd in Hall. cbn in Hall.
    by apply negb_true_iff. }
  intros Hc. specialize (H (nat_of_ascii c) (nat_ascii_bounded c)). rewrite ascii_nat_embedding in H. specialize (H Hc).
  do 5 (apply orb_false_elim in H as [H ?]). repeat match goal with H : bool_decide _ = false |- _ => apply bool_decide_eq_false in H end.
  by split_and!.
Qed.

Lemma all_digits_cons c s : all_digits (String c s) = true -> is_digit_char c = true /\ all_digits s = true.
Proof. intros H. by apply andb_prop in H. Qed.

Lemma digits_lack d s : all_digits s = true -> (d = " " \/ d = "," \/ d = newline)%char -> lacks d s = true.
Proof.
  induction s as [|c s IH]; [done|]. intros [Hc Hs]%all_digits_cons Hd. cbn [lacks]. rewrite IH by done.
  apply digit_cases in Hc as [_ (H1 & H2 & H3)]. rewrite bool_decide_eq_false_2; [done|]. naive_solver.
Qed.

Lemma show_nat_digits base n : 2 <= base <= 16 -> 0 <= n -> all_digits (show_nat base n) = true.
Proof. intros Hb Hn. by apply show_digits_all. Qed.

Lemma show_nat_head base n : 2 <= base <= 16 -> 0 <= n < 2 ^ 64 ->
  exists c s, show_nat base n = String c s /\ is_digit_char c = true /\ digits base (String c s) None = Some n.
Proof.
  intros Hb Hn. assert (digits base (show_nat base n) None = Some n) as Hd.
  { unfold show_nat. rewrite digits_show; [done|done|]. split; [lia|]. apply Z.lt_le_trans with (2 ^ 64); [lia|].
    apply Z.pow_le_mono_l. lia. }
  pose proof (show_nat_digits base n Hb (proj1 Hn)) as Ha. destruct (show_nat base n) as [|c s]; [done|].
  apply all_digits_cons in Ha as [Hc _]. by exists c, s.
Qed.

(** A number without prefix. *)
Lemma strip_digits base s : all_digits s = true -> strip_0x base s = s.
Proof.
  intros Hs. unfold strip_0x. destruct s as [|c [|x [|c' r]]]; try (repeat case_match; done).
  apply all_digits_cons in Hs as [_ [Hx _]%all_digits_cons].
  assert (x <> "x"%char /\ x <> "X"%char) as [H1 H2] by (split; intros ->; discriminate Hx).
  rewrite (bool_decide_eq_false_2 (x = "x"%char)), (bool_decide_eq_false_2 (x = "X"%char)) by done. rewrite andb_false_r. cbn.
  by repeat case_match.
Qed.

Lemma strto_digits name base lo hi c s :
  is_digit_char c = true ->
  strto name base lo hi (String c s) =
  match digits base (strip_0x base (String c s)) None with
  | None => Err (Throw name)
  | Some n => if (lo <=? n) && (n <=? hi) then Ok n else Err (Throw name)
  end.
Proof.
  intros Hc. unfold strto. cbn [skip_spaces]. rewrite (proj1 (proj1 (digit_cases c Hc))).
  destruct c as [[] [] [] [] [] [] [] []]; try discriminate Hc; reflexivity.
Qed.

Lemma stoll_nat base n : 2 <= base <= 16 -> 0 <= n < 2 ^ 63 -> stoll base (show_nat base n) = Ok n.
Proof.
  intros Hb Hn. pose proof (show_nat_digits base n Hb (proj1 Hn)) as Ha.
  destruct (show_nat_head base n Hb ltac:(lia)) as (c & s & E & Hc & Hd). rewrite E in *. unfold stoll.
  rewrite strto_digits, strip_digits, Hd by done. destruct (Z.leb_spec (- 2 ^ 63) n); [|lia].
  by destruct (Z.leb_spec n (2 ^ 63 - 1)); [|lia].
Qed.

Lemma strto_int name lo hi n : - 2 ^ 63 <= n < 2 ^ 63 -> lo <= n <= hi -> strto name 10 lo hi (show_int n) = Ok n.
Proof.
  intros Hn Hr. assert ((lo <=? n) && (n <=? hi) = true) as Hb by (apply andb_true_intro; lia). unfold show_int.
  destruct (Z.ltb_spec n 0).
  - pose proof (show_nat_digits 10 (- n) ltac:(lia) ltac:(lia)) as Ha.
    destruct (show_nat_head 10 (- n) ltac:(lia) ltac:(lia)) as (c & s & E & Hc & Hd). rewrite E in *.
    change (strto name 10 lo hi (String "-" (String c s)))
      with (match digits 10 (strip_0x 10 (String c s)) None with
            | None => Err (Throw name)
            | Some k => if (lo <=? - k) && (- k <=? hi) then Ok (- k) else Err (Throw name)
            end).
    by rewrite strip_digits, Hd, Z.opp_involutive, Hb.
  - pose proof (show_nat_digits 10 n ltac:(lia) ltac:(lia)) as Ha.
    destruct (show_nat_head 10 n ltac:(lia) ltac:(lia)) as (c & s & E & Hc & Hd). rewrite E in *.
    by rewrite strto_digits, strip_digits, Hd, Hb.
Qed.

Lemma stoll_int n : - 2 ^ 63 <= n < 2 ^ 63 -> stoll 10 (show_int n) = Ok n.
Proof. intros Hn. apply strto_int; lia. Qed.

Lemma stoi_int n : - 2 ^ 31 <= n < 2 ^ 31 -> stoi (show_int n) = Ok n.
Proof. intros Hn. apply strto_int; lia. Qed.

(** A printed number is used up. *)
Lemma skip_show base fuel n s : 2 <= base <= 16 -> 0 <= n -> skip_digits base (show_digits fuel base n s) = skip_digits base s.
Proof.
  intros Hb. revert n s. induction fuel as [|fuel IH]; intros n s Hn; [done|]. rewrite show_digits_S.
  assert (skip_digits base (String (digit_char (n mod base)) s) = skip_digits base s) as E.
  { pose proof (Z.mod_pos_bound n base ltac:(lia)). cbn [skip_digits]. rewrite digit_value_char by lia.
    by destruct (Z.ltb_spec (n mod base) base); [|lia]. }
  case_match; [done|]. rewrite IH; [done|apply Z.div_pos; lia].
Qed.

Lemma show_nat_rest base n : 2 <= base <= 16 -> 0 <= n < 2 ^ 64 -> strto_rest base (show_nat base n) = EmptyString.
Proof.
  intros Hb Hn. pose proof (show_nat_digits base n Hb (proj1 Hn)) as Ha.
  assert (skip_digits base (show_nat base n) = EmptyString) as Hs by (unfold show_nat; by rewrite skip_show by lia).
  destruct (show_nat_head base n Hb Hn) as (c & s & E & Hc & _). rewrite E in *. unfold strto_rest. cbn [skip_spaces].
  rewrite (proj1 (proj1 (digit_cases c Hc))).
  assert (strip_sign (String c s) = (false, String c s)) as -> by (destruct c as [[] [] [] [] [] [] [] []]; try discriminate Hc; reflexivity).
  cbn [snd]. by rewrite strip_digits.
Qed.

Lemma show_int_rest n : - 2 ^ 63 <= n < 2 ^ 63 -> strto_rest 10 (show_int n) = EmptyString.
Proof.
  intros Hn. unfold show_int. destruct (Z.ltb_spec n 0); [|apply show_nat_rest; lia].
  change (strto_rest 10 (String "-" (show_nat 10 (- n)))) with (skip_digits 10 (strip_0x 10 (show_nat 10 (- n)))).
  rewrite strip_digits by (apply show_nat_digits; lia). unfold show_nat. by rewrite skip_show by lia.
Qed.

Lemma show_int_lacks d n : (d = " " \/ d = "," \/ d = newline)%char -> lacks d (show_int n) = true.
Proof.
  intros Hd. unfold show_int. case_match.
  - cbn [lacks]. rewrite (digits_lack d) by (done || apply show_nat_digits; lia). by destruct Hd as [->|[->| ->]].
  - apply digits_lack; [apply show_nat_digits; lia|done].
Qed.

(** ** Files in the documented formats *)
Definition show_addr (hex : bool) (a : Addr_t) : string :=
  if hex && (0 <=? a) then String "0" (String "x" (show_nat 16 a)) else show_int a.
Definition loadstore_line (e : bool * (bool * Addr_t)) : string :=
  (if e.2.1 then "ST" else "LD") +:+ String " " (show_addr e.1 e.2.2).
Definition readwrite_line (e : bool * AddrVec_t) : string :=
  (if e.1 then "W" else "R") +:+ String " " (String.concat (one ",") (show_int <$> e.2)).

Lemma show_addr_lacks d hex a : (d = " " \/ d = "," \/ d = newline)%char -> lacks d (show_addr hex a) = true.
Proof.
  intros Hd. unfold show_addr. case_match eqn:E; [|by apply show_int_lacks]. cbn [lacks].
  rewrite (digits_lack d) by (done || apply show_nat_digits; lia). by destruct Hd as [->|[->| ->]].
Qed.

Lemma concat_lacks d ss : d <> ","%char -> Forall (fun s => lacks d s = true) ss -> lacks d (String.concat (one ",") ss) = true.
Proof.
  intros Hd. induction 1 as [|s [|t ss] Hs Hss IH]; [done|done|].
  change (String.concat (one ",") (s :: t :: ss)) with (s +:+ String "," (String.concat (one ",") (t :: ss))).
  rewrite lacks_app, Hs. cbn [lacks]. rewrite IH. by rewrite bool_decide_eq_false_2.
Qed.

Lemma two_tokens_line path k a b : lacks " " a = true -> lacks " " b = true -> two_tokens path k (a +:+ String " " b) = Ok (a, b).
Proof.
  intros Ha Hb. unfold two_tokens. change " " with (one " "). rewrite tokenize_split. cbn [mbind result_bind].
  by rewrite split_at_app, split_at_lacks.
Qed.

Lemma show_addr_parsed hex a : - 2 ^ 63 <= a < 2 ^ 63 ->
  (if has_prefix "0x" (show_addr hex a) || has_prefix "0X" (show_addr hex a)
   then stoll 16 (substring 2 (String.length (show_addr hex a) - 2) (show_addr hex a))
   else stoll 10 (show_addr hex a)) = Ok a.
Proof.
  intros Ha. unfold show_addr. destruct (hex && (0 <=? a)) eqn:E.
  - apply andb_prop in E as [_ E%Z.leb_le]. cbn [has_prefix orb]. rewrite substring_sdrop. cbn [sdrop String.length].
    replace (S (S (String.length (show_nat 16 a))) - 2)%nat with (String.length (show_nat 16 a)) by lia.
    rewrite substring_all.
    assert (has_prefix "0x" (String "0" (String "x" (show_nat 16 a))) = true) as ->.
    { unfold has_prefix. apply bool_decide_eq_true_2. by destruct (show_nat 16 a). }
    cbn [orb]. apply stoll_nat; lia.
  - assert (forall p, p = "0x" \/ p = "0X" -> has_prefix p (show_int a) = false) as Hp.
    { intros p Hp. unfold has_prefix. apply bool_decide_eq_false_2. unfold show_int. destruct (a <? 0) eqn:En.
      - by destruct Hp as [->| ->].
      - pose proof (show_nat_digits 10 a ltac:(lia) ltac:(lia)) as Hd.
        destruct (show_nat 10 a) as [|c [|x r]]; [by destruct Hp as [->| ->]|by destruct Hp as [->| ->]|].
        apply all_digits_cons in Hd as [_ [Hx _]%all_digits_cons].
        destruct Hp as [->| ->]; cbn; intros [= _ ->]; discriminate Hx. }
    rewrite !Hp by auto. by apply stoll_int.
Qed.

Lemma loadstore_line_parsed path k e : - 2 ^ 63 <= e.2.2 < 2 ^ 63 -> parse_loadstore path k (loadstore_line e) = Ok e.2.
Proof.
  destruct e as [hex [w a]]. cbn [fst snd]. intros Ha. unfold parse_loadstore, loadstore_line. cbn [fst snd].
  rewrite two_tokens_line by (apply show_addr_lacks || destruct w; auto). cbn [mbind result_bind fst snd].
  destruct w; rewrite show_addr_parsed by done; done.
Qed.

Lemma ints_parsed av : Forall (fun x => - 2 ^ 31 <= x < 2 ^ 31) av ->
  mapM (fun token => x ← stoll 10 token; Ok (wrap_s 32 x)) (show_int <$> av) = Ok av.
Proof.
  intros Hav. apply mapM_Ok. apply Forall2_fmap_l, Forall_Forall2_diag. eapply Forall_impl; [exact Hav|]. intros x Hx. unfold compose. cbv beta in Hx |- *.
  rewrite stoll_int by lia. cbn [mbind result_bind]. f_equal. unfold wrap_s. rewrite Z.mod_small; lia.
Qed.

Lemma readwrite_line_parsed path k e :
  e.2 <> [] -> Forall (fun x => - 2 ^ 31 <= x < 2 ^ 31) e.2 -> parse_readwrite path k (readwrite_line e) = Ok e.
Proof.
  destruct e as [w av]. cbn [fst snd]. intros Hne Hav. unfold parse_readwrite, readwrite_line. cbn [fst snd].
  assert (Forall (fun s => lacks " " s = true /\ lacks "," s = true) (show_int <$> av)) as Hl.
  { apply Forall_fmap, Forall_forall. intros x _. split; apply show_int_lacks; auto. }
  rewrite two_tokens_line by ((apply concat_lacks; [done|]; by eapply Forall_impl; [exact Hl|]; intros ? []) || by destruct w).
  cbn [mbind result_bind fst snd].
  assert (tokenize (String.concat (one ",") (show_int <$> av)) "," = Ok (show_int <$> av)) as Ht.
  { change "," with (one ","). rewrite tokenize_split. destruct av as [|x av]; [done|]. f_equal. rewrite !fmap_cons. apply split_at_concat.
    rewrite <- fmap_cons. eapply Forall_impl; [exact Hl|]. by intros ? []. }
  destruct w; cbn [bool_decide mbind result_bind]; rewrite Ht; cbn [mbind result_bind]; by rewrite ints_parsed.
Qed.

(** *** Lines of the processor traces *)
Definition inst_line (hex store : bool) (i : Inst) : string :=
  show_int (bubble_count i) +:+ String " "
    (show_addr hex (load_addr i) +:+ if store then String " " (show_addr hex (store_addr i)) else EmptyString).

Definition inst_fits (store : bool) (i : Inst) : Prop :=
  - 2 ^ 31 <= bubble_count i < 2 ^ 31 /\ - 2 ^ 63 <= load_addr i < 2 ^ 63 /\ - 2 ^ 63 <= store_addr i < 2 ^ 63 /\
  (store = false -> store_addr i = -1).

Lemma full_addr_show hex a : - 2 ^ 63 <= a < 2 ^ 63 -> full_addr (show_addr hex a) = Ok a.
Proof.
  intros Ha. unfold full_addr, show_addr. destruct (hex && (0 <=? a)) eqn:E.
  - apply andb_prop in E as [_ E%Z.leb_le]. destruct (show_nat_head 16 a ltac:(lia) ltac:(lia)) as (c & s & Es & Hc & Hd).
    assert (skip_digits 16 (show_nat 16 a) = EmptyString) as Hs by (unfold show_nat; by rewrite skip_show by lia).
    rewrite Es in *. change (addr_base (String "0" (String "x" (String c s)))) with 16.
    assert (strip_0x 16 (String "0" (String "x" (String c s))) = String c s) as Ep.
    { unfold strip_0x. cbn. unfold is_digit_char in Hc. destruct (digit_value c); [|done]. by rewrite Hc. }
    unfold full, stoll, strto, strto_rest. change (strip_sign (skip_spaces (String "0" (String "x" (String c s)))))
      with (false, String "0" (String "x" (String c s))). cbn [fst snd]. rewrite Ep, Hd, Hs.
    destruct (Z.leb_spec (- 2 ^ 63) a); [|lia]. by destruct (Z.leb_spec a (2 ^ 63 - 1)); [|lia].
  - assert (addr_base (show_int a) = 10) as ->.
    { unfold addr_base, show_int. destruct (a <? 0) eqn:En; [done|]. pose proof (show_nat_digits 10 a ltac:(lia) ltac:(lia)) as Hd.
      destruct (show_nat 10 a) as [|c [|x [|y r]]]; try (repeat case_match; done).
      apply all_digits_cons in Hd as [_ [Hx _]%all_digits_cons].
      rewrite (bool_decide_eq_false_2 (x = "x"%char)), (bool_decide_eq_false_2 (x = "X"%char)) by (intros ->; discriminate Hx).
      by repeat case_match. }
    unfold full. rewrite stoll_int by done. cbn. by rewrite show_int_rest.
Qed.

Lemma full_stoi_show n : - 2 ^ 31 <= n < 2 ^ 31 -> full 10 stoi (show_int n) = Ok n.
Proof. intros Hn. unfold full. rewrite stoi_int by done. cbn. by rewrite show_int_rest by lia. Qed.

Lemma inst_line_tokens hex store i :
  tokenize (inst_line hex store i) " " =
  Ok (show_int (bubble_count i) :: show_addr hex (load_addr i) :: if store then [show_addr hex (store_addr i)] else []).
Proof.
  change " " with (one " "). rewrite tokenize_split. unfold inst_line. rewrite split_at_app by (apply show_int_lacks; auto).
  do 2 f_equal. destruct store; [|rewrite append_empty, split_at_lacks by (apply show_addr_lacks; auto); done].
  rewrite split_at_app, split_at_lacks by (apply show_addr_lacks; auto). done.
Qed.

Lemma inst_line_newline hex store i : lacks newline (inst_line hex store i) = true.
Proof.
  unfold inst_line. rewrite lacks_app, show_int_lacks by auto. cbn [lacks]. rewrite lacks_app, show_addr_lacks by auto.
  destruct store; cbn [lacks]; [|done]. by rewrite show_addr_lacks by auto.
Qed.

(** A line is read to its record; its checks are those of the record. *)
Lemma trace_line_show path acc n hex store i :
  inst_fits store i ->
  trace_line path acc (n, inst_line hex store i) = (c ← check_inst path acc.2 (n, i); Ok (acc.1 ++ [i], c)).
Proof.
  intros (Hb & Hl & Hs & Hno). unfold trace_line, parse_inst. cbn [fst snd]. rewrite inst_line_tokens. cbn [mbind result_bind].
  rewrite full_stoi_show, full_addr_show by done. cbn [catch mbind result_bind].
  destruct i as [b l w]. cbn in *. destruct (b <? 0) eqn:Eb; [destruct store; done|]. destruct (l <? -1) eqn:El; [destruct store; done|].
  destruct store; cbn.
  - rewrite full_addr_show by done. cbn. by rewrite Eb, El.
  - rewrite Hno by done. cbn. by rewrite Eb, El.
Qed.

Lemma trace_lines_show path (l : list (nat * (bool * bool * Inst))) acc :
  Forall (fun e => inst_fits e.2.1.2 e.2.2) l ->
  foldM (trace_line path) acc ((fun e => (e.1, inst_line e.2.1.1 e.2.1.2 e.2.2)) <$> l) =
  (c ← foldM (check_inst path) acc.2 ((fun e => (e.1, e.2.2)) <$> l); Ok (acc.1 ++ ((fun e => e.2.2) <$> l), c)).
Proof.
  intros Hl. revert acc. induction Hl as [|[n [[hex store] i]] l Hi Hl IH]; intros acc; cbn [fmap list_fmap foldM fst snd].
  - rewrite app_nil_r. by destruct acc.
  - rewrite trace_line_show by done. destruct (check_inst path acc.2 (n, i)) as [c|]; [|done]. cbn [mbind result_bind].
    rewrite IH. cbn [fst snd]. destruct (foldM _ c _); [|done]. cbn. by rewrite <- app_assoc.
Qed.

Lemma init_lines {A B} (parse : string -> Z -> string -> result (bool * A)) (print : B -> string) (val : B -> bool * A) path (l : list B) :
  Forall (fun e => lacks newline (print e) = true /\ forall k, parse path k (print e) = Ok (val e)) l ->
  init_trace parse path true true (file_of (print <$> l)) = Ok (mkReader (val <$> l) (Z.of_nat (length l)) 0 0).
Proof.
  intros Hl. unfold init_trace. cbn [negb].
  rewrite getlines_file by (apply Forall_fmap; eapply Forall_impl; [exact Hl|]; by intros ? []).
  assert (mapM (fun it : nat * string => parse path (Z.of_nat it.1 + 1)%Z it.2) (imap pair (print <$> l)) = Ok (val <$> l)) as ->.
  { apply mapM_Ok. apply Forall2_same_length_lookup. split; [by rewrite length_imap, !length_fmap|].
    intros i it y Hi Hy. rewrite list_lookup_imap, list_lookup_fmap in Hi. rewrite list_lookup_fmap in Hy.
    destruct (l !! i) as [e|] eqn:E; cbn in *; [|done]. simplify_eq. cbn. by apply (Forall_lookup_1 _ _ _ _ Hl E). }
  cbn. by rewrite length_fmap.
Qed.

(** The file of a processor trace. *)
Definition inst_file (l : list (bool * bool * Inst)) : string := file_of ((fun e => inst_line e.1.1 e.1.2 e.2) <$> l).

Lemma getlines_inst_file l : getlines (inst_file l) = (fun e => inst_line e.1.1 e.1.2 e.2) <$> l.
Proof. apply getlines_file, Forall_fmap, Forall_forall. intros e _. apply inst_line_newline. Qed.

Lemma trace_load_show path w l : Forall (fun e => inst_fits e.1.2 e.2) l ->
  Trace_load path true true false (inst_file l) w = Trace_init path (snd <$> l) w.
Proof.
  intros Hl. unfold Trace_load, Trace_init. cbn [negb]. rewrite getlines_inst_file.
  assert (imap pair ((fun e : bool * bool * Inst => inst_line e.1.1 e.1.2 e.2) <$> l) =
          (fun e => (e.1, inst_line e.2.1.1 e.2.1.2 e.2.2)) <$> imap pair l) as ->.
  { rewrite imap_fmap, fmap_imap. done. }
  rewrite trace_lines_show.
  - cbn [fst snd]. assert ((fun e : nat * (bool * bool * Inst) => (e.1, e.2.2)) <$> imap pair l = imap pair (snd <$> l)) as ->.
    { rewrite imap_fmap, fmap_imap. done. }
    assert ((fun e : nat * (bool * bool * Inst) => e.2.2) <$> imap pair l = snd <$> l) as ->.
    { rewrite fmap_imap. rewrite <- (imap_const (snd : bool * bool * Inst -> Inst)). done. }
    destruct (foldM (check_inst path) 0 (imap pair (snd <$> l))) as [c|]; [|done]. done.
  - apply Forall_lookup. intros i [n e] He. rewrite list_lookup_imap in He. destruct (l !! i) as [e'|] eqn:E; cbn in He; [|done].
    simplify_eq. cbn. by apply (Forall_lookup_1 _ _ _ _ Hl E).
Qed.

Lemma bh_trace_show path (l : list (bool * Inst)) : Forall (fun e => inst_fits e.1 e.2) l ->
  BHTrace_load path true true (inst_file ((fun e => (false, e.1, e.2)) <$> l)) = Ok (mkBHTrace (snd <$> l) 0).
Proof.
  intros Hl. unfold BHTrace_load. cbn [negb]. rewrite getlines_inst_file, <- list_fmap_compose.
  assert (mapM (bh_parse_inst path) ((fun e : bool * Inst => inst_line false e.1 e.2) <$> l) = Ok (snd <$> l)) as Hm.
  { apply mapM_Ok, Forall2_fmap_2, Forall_Forall2_diag. eapply Forall_impl; [exact Hl|]. intros [store [b a w]] (Hb & Ha & Hw & Hno).
    cbn [fst snd] in *. unfold bh_parse_inst. rewrite inst_line_tokens. cbn [bubble_count load_addr store_addr] in *.
    cbn [mbind result_bind show_addr andb]. destruct store; cbn [mbind result_bind].
    - by rewrite stoi_int, !stoll_int.
    - rewrite stoi_int, stoll_int by done. cbn. by rewrite Hno. }
  unfold compose. cbn [fst snd]. by rewrite Hm.
Qed.

(** C5.  A trace file in the documented format is loaded to exactly the accesses it
    lists, in order.  LoadStoreTrace accepts every address of 64 bits, written in decimal
    or, if it is not negative, in hexadecimal; ReadWriteTrace every non-empty vector of
    [int] coordinates.  Loading the text of a SimpleO3 trace, whose addresses may be
    hexadecimal and whose stores may be absent, is initialising the trace with its
    records, errors included; a BHO3 trace is loaded to its records. *)
Theorem trace_files_roundtrip (path : string) :
  (forall l : list (bool * (bool * Addr_t)), Forall (fun e => - 2 ^ 63 <= e.2.2 < 2 ^ 63) l ->
     LoadStore_init path true true (file_of (loadstore_line <$> l)) = Ok (mkReader (snd <$> l) (Z.of_nat (length l)) 0 0)) /\
  (forall l : list (bool * AddrVec_t), Forall (fun e => e.2 <> [] /\ Forall (fun x => - 2 ^ 31 <= x < 2 ^ 31) e.2) l ->
     ReadWrite_init path true true (file_of (readwrite_line <$> l)) = Ok (mkReader l (Z.of_nat (length l)) 0 0)) /\
  (forall (l : list (bool * bool * Inst)) w, Forall (fun e => inst_fits e.1.2 e.2) l ->
     Trace_load path true true false (inst_file l) w = Trace_init path (snd <$> l) w) /\
  (forall l : list (bool * Inst), Forall (fun e => inst_fits e.1 e.2) l ->
     BHTrace_load path true true (inst_file ((fun e => (false, e.1, e.2)) <$> l)) = Ok (mkBHTrace (snd <$> l) 0)).
Proof.
  split_and!; [intros l Hl..|intros l w Hl; by apply trace_load_show|intros l Hl; by apply bh_trace_show].
  - apply init_lines. eapply Forall_impl; [exact Hl|]. intros e He. split; [|intros k; by apply loadstore_line_parsed].
    unfold loadstore_line. rewrite lacks_app. cbn [lacks]. rewrite show_addr_lacks by auto. by destruct e.2.1.
  - rewrite <- (list_fmap_id l) at 2. apply init_lines. eapply Forall_impl; [exact Hl|]. intros e [Hne He].
    split; [|intros k; by apply readwrite_line_parsed]. unfold readwrite_line. rewrite lacks_app. cbn [lacks].
    rewrite concat_lacks; [by destruct e.1|done|]. apply Forall_fmap, Forall_forall. intros x _. apply show_int_lacks; auto.
Qed.

Lemma trace_files_roundtrip_witness :
  let l := [(true, (true, 74565)); (false, (false, -8)); (true, (false, 0))] in
  let v := [(true, [0; 1; 2; 100; 32]); (false, [-1])] in
  let i := [(true, true, mkInst 3 64 128); (false, false, mkInst 0 20 (-1))] in
  file_of (loadstore_line <$> l) = ("ST 0x12345" +:+ String newline ("LD -8" +:+ String newline ("LD 0x0" +:+ String newline EmptyString))) /\
  LoadStore_init "t" true true (file_of (loadstore_line <$> l)) = Ok (mkReader (snd <$> l) 3 0 0) /\
  ReadWrite_init "t" true true (file_of (readwrite_line <$> v)) = Ok (mkReader v 2 0 0) /\
  Trace_load "t" true true false (inst_file i) true = Ok (mkTrace (snd <$> i) 0 5 true).
Proof.
  intros l v i. destruct (trace_files_roundtrip "t") as (H1 & H2 & H3 & _). split_and!.
  - vm_compute; reflexivity.
  - apply (H1 l). repeat constructor; cbn; lia.
  - apply (H2 v). repeat (constructor || split || discriminate); cbn; lia.
  - rewrite (H3 i true); [vm_compute; reflexivity|]. repeat constructor; cbn; lia || done.
Defined.

(** ** Replay *)

(** An empty trace is accepted, and its first tick reads outside it. *)
Lemma empty_trace_undefined {M} `{IMemorySystem M} (m : M) :
  LoadStore_init "t" true true EmptyString = Ok (mkReader [] 0 0 0) /\ LoadStore_tick (mkReader [] 0 0 0) m = Err Undef.
Proof. done. Qed.

(** The requests of ReadWriteTrace have no address: while one of its writes is
    buffered, the controller completes every read in the next cycle and absorbs every
    write, whatever their coordinates, and neither reaches a buffer. *)
Lemma readwrite_writes_collide apply c tx t ok q c' :
  (forall q q', apply q = Ok q' -> addr q' = addr q /\ type_id q' = type_id q) -> -1 ∈ m_buffered_write_addrs c ->
  send apply c (entry_request Request_vec tx t) = Ok (ok, q, c') ->
  ok = true /\ m_read_buffer c' = m_read_buffer c /\ m_write_buffer c' = m_write_buffer c /\
  (t.1 = false -> depart q = m_clk c + 1).
Proof.
  intros Hk Hb Hs. unfold send in Hs. destruct (negb _ && _); [done|]. apply bind_Ok in Hs as (q1 & Hq1 & Hs).
  apply Hk in Hq1 as [Ea Et]. apply bind_Ok in Hs as (av & _ & Hs). apply bind_Ok in Hs as (fc & _ & Hs).
  cbn -[bool_decide] in Hs, Ea, Et. rewrite Ea, (bool_decide_eq_true_2 _ Hb), andb_true_r in Hs.
  destruct t as [[] v]; cbn in Et; rewrite Et in Hs; cbn in Hs; simplify_eq; cbn; [|done].
  unfold run_callback. by repeat case_match.
Qed.

(** ** Snapshots of the cache *)
Lemma index_app d s t : lacks d s = true -> String.index 0 (one d) (s +:+ String d t) = Some (String.length s).
Proof.
  induction s as [|c s IH]; intros Hs.
  - rewrite append_nil. unfold one. cbn [String.index String.prefix]. destruct (ascii_dec d d); [|done]. by destruct t.
  - cbn [lacks] in Hs. apply andb_prop in Hs as [Hc Hs]. rewrite append_cons. unfold one in *. cbn [String.index String.prefix].
    destruct (ascii_dec d c) as [->|]; [by rewrite bool_decide_eq_true_2 in Hc|]. by rewrite IH.
Qed.

Lemma substring_app s t : substring 0 (String.length s) (s +:+ t) = s.
Proof. induction s as [|c s IH]; [by destruct t|]. rewrite append_cons. cbn. by rewrite IH. Qed.

Lemma sdrop_app s d t : sdrop (String.length s + 1) (s +:+ String d t) = t.
Proof. induction s as [|c s IH]; [done|]. rewrite append_cons. cbn. apply IH. Qed.

Lemma cut_comma_app s t : lacks "," s = true -> cut_comma (comma s t) = (s, t).
Proof.
  intros Hs. unfold cut_comma, comma. pose proof (index_app "," s t Hs) as E. unfold one in E. rewrite E. rewrite substring_app. f_equal.
  by rewrite substring_sdrop, <- sdrop_length, substring_all, sdrop_app.
Qed.

Lemma cut_comma_last s : lacks "," s = true -> (cut_comma s).1 = s.
Proof.
  intros Hs. unfold cut_comma. pose proof (split_at_index "," s) as E. rewrite split_at_lacks in E by done. unfold one in E.
  destruct (String.index 0 _ s) as [p|]; [|done]. by injection E as <-.
Qed.

Definition line_fits (e : Z * Line) : Prop :=
  - 2 ^ 31 <= e.1 < 2 ^ 31 /\ - 2 ^ 63 <= ln_addr e.2 < 2 ^ 63 /\ - 2 ^ 63 <= ln_tag e.2 < 2 ^ 63.

Definition snapshot_add (l : LLC) (e : Z * Line) : LLC :=
  set_lines l (<[e.1 := default [] (l_cache_sets l !! e.1) ++ [mkLine (l_next_line l) (ln_addr e.2) (ln_tag e.2) (ln_dirty e.2) true]]>
    (l_cache_sets l)) (l_next_line l + 1).

Lemma snapshot_line_parsed l e : line_fits e -> deserialize_line l (snapshot_line e.1 e.2) = Ok (snapshot_add l e).
Proof.
  intros (H1 & H2 & H3). unfold deserialize_line, snapshot_line. rewrite !cut_comma_app by (apply show_int_lacks; auto).
  rewrite cut_comma_last by (apply show_int_lacks; auto). rewrite (stoi_int e.1) by lia. cbn [mbind result_bind].
  rewrite !stoll_int by lia. cbn [mbind result_bind]. rewrite stoi_int by (destruct (ln_dirty e.2); lia). cbn [mbind result_bind].
  unfold snapshot_add. do 4 f_equal. by destruct (ln_dirty e.2).
Qed.

Definition flat_lines (sets : list (Z * list Line)) : list (Z * Line) := concat (map (fun e => pair e.1 <$> e.2) sets).

Lemma snapshot_newline e : lacks newline (snapshot_line e.1 e.2) = true.
Proof. unfold snapshot_line, comma. rewrite !lacks_app. cbn [lacks]. rewrite !lacks_app. cbn [lacks]. rewrite !lacks_app. cbn [lacks]. by rewrite !show_int_lacks by auto. Qed.

Lemma serialize_lines sets :
  getlines (serialize sets) = "index,addr,tag,dirty"%string :: ((fun e => snapshot_line e.1 e.2) <$> flat_lines sets).
Proof.
  assert (concat (map (fun e : Z * list Line => map (snapshot_line e.1) e.2) sets) = (fun e => snapshot_line e.1 e.2) <$> flat_lines sets) as E.
  { unfold flat_lines. induction sets as [|[i ls] sets IH]; [done|]. cbn [map concat]. rewrite IH, fmap_app. f_equal. cbn [fst snd].
    by induction ls as [|x ls IHl]; cbn; [done|rewrite IHl]. }
  unfold serialize. rewrite E. apply (getlines_file (_ :: _)). constructor; [done|]. apply Forall_fmap, Forall_forall. intros e _. apply snapshot_newline.
Qed.

Lemma deserialize_lines l L : Forall line_fits L -> foldM deserialize_line l ((fun e => snapshot_line e.1 e.2) <$> L) = Ok (foldl snapshot_add l L).
Proof.
  intros HL. revert l. induction HL as [|e L He HL IH]; intros l; [done|]. cbn [fmap list_fmap foldM]. rewrite snapshot_line_parsed by done. apply IH.
Qed.

(** What a snapshot keeps of a line. *)
Definition line_view (ln : Line) : Addr_t * Addr_t * bool := (ln_addr ln, ln_tag ln, ln_dirty ln).
Definition set_view (l : LLC) (i : Z) : list (Addr_t * Addr_t * bool) := line_view <$> default [] (l_cache_sets l !! i).
Definition all_ready (l : LLC) : Prop := forall i, Forall (fun ln => ln_ready ln = true) (default [] (l_cache_sets l !! i)).

Lemma snapshot_added l L i : all_ready l ->
  set_view (foldl snapshot_add l L) i = set_view l i ++ (line_view ∘ snd <$> filter (fun e => e.1 = i) L) /\ all_ready (foldl snapshot_add l L).
Proof.
  revert l. induction L as [|e L IH]; intros l Hr; cbn [foldl]; [cbn; by rewrite app_nil_r|].
  assert (all_ready (snapshot_add l e)) as Hr'.
  { intros j. cbn. destruct (decide (e.1 = j)) as [<-|]; [|rewrite lookup_insert_ne by done; apply Hr]. rewrite lookup_insert_eq. cbn.
    apply Forall_app. split; [apply Hr|]. by constructor. }
  destruct (IH _ Hr') as [-> Hr2]. split; [|done]. unfold set_view, snapshot_add. cbn [l_cache_sets set_lines]. rewrite filter_cons. case_decide as Hi.
  - subst. rewrite lookup_insert_eq. cbn [from_option id]. rewrite fmap_app, <- app_assoc. done.
  - rewrite lookup_insert_ne by done. done.
Qed.

Lemma flat_lines_of sets i : NoDup sets.*1 ->
  snd <$> filter (fun e => e.1 = i) (flat_lines sets) = default [] ((list_to_map sets : gmap Z (list Line)) !! i).
Proof.
  induction sets as [|[k ls] sets IH]; intros Hn; [done|]. cbn [fmap list_fmap fst] in Hn. apply NoDup_cons in Hn as [Hk Hn].
  unfold flat_lines in *. cbn [map concat fst snd list_to_map foldr curry]. rewrite filter_app, fmap_app, IH by done.
  destruct (decide (k = i)) as [->|Hne].
  - rewrite lookup_insert_eq, (not_elem_of_list_to_map_1 (M := gmap Z) sets i Hk). cbn. rewrite app_nil_r. clear. 
    induction ls as [|x ls IHl]; [done|]. rewrite fmap_cons, filter_cons_True by done. rewrite fmap_cons. by rewrite IHl.
  - rewrite lookup_insert_ne by done. replace (filter _ (pair k <$> ls)) with (@nil (Z * Line)); [done|]. clear -Hne.
    induction ls as [|x ls IHl]; [done|]. by rewrite fmap_cons, filter_cons_False.
Qed.

(** A snapshot written in any order of the sets and read into an empty cache has in
    each set the same lines in the same order, and every line is ready. *)
Lemma llc_snapshot_roundtrip (l l0 : LLC) (sets : list (Z * list Line)) :
  sets ≡ₚ map_to_list (l_cache_sets l) -> Forall line_fits (flat_lines sets) -> l_cache_sets l0 = ∅ ->
  exists l1, deserialize l0 (serialize sets) = Ok l1 /\ (forall i, set_view l1 i = set_view l i) /\ all_ready l1.
Proof.
  intros Hp Hf He. exists (foldl snapshot_add l0 (flat_lines sets)). unfold deserialize. rewrite serialize_lines. cbn [tail].
  rewrite deserialize_lines by done. assert (all_ready l0) as Hr by (intros i; by rewrite He, lookup_empty).
  split_and!; [done| |apply (snapshot_added _ _ 0 Hr)]. intros i. destruct (snapshot_added l0 (flat_lines sets) i Hr) as [-> _].
  unfold set_view at 1. rewrite He, lookup_empty. cbn [default fmap list_fmap app]. rewrite list_fmap_compose.
  assert (NoDup sets.*1) as Hn by (rewrite Hp; apply NoDup_fst_map_to_list). rewrite flat_lines_of by done. unfold set_view. do 2 f_equal.
  rewrite (list_to_map_proper sets (map_to_list (l_cache_sets l))) by done. by rewrite list_to_map_to_list.
Qed.

(** ** Batch files *)

(** Text that does not go on with a digit. *)
Definition ends_number (t : string) : Prop := skip_digits 10 t = t /\ forall n, digits 10 t (Some n) = Some n.

Lemma show_digits_app fuel base n s t : show_digits fuel base n s +:+ t = show_digits fuel base n (s +:+ t).
Proof. revert n s. induction fuel as [|fuel IH]; intros n s; [done|]. rewrite !show_digits_S. case_match; [done|]. by rewrite IH. Qed.

Lemma show_nat_app n t : 0 <= n < 2 ^ 64 -> ends_number t ->
  digits 10 (show_nat 10 n +:+ t) None = Some n /\ skip_digits 10 (show_nat 10 n +:+ t) = t.
Proof.
  intros Hn [H1 H2]. unfold show_nat. rewrite show_digits_app, append_nil. split; [|by rewrite skip_show by lia].
  rewrite digits_show; [apply H2|lia|]. split; [lia|]. apply Z.lt_le_trans with (2 ^ 64); [lia|]. apply Z.pow_le_mono_l. lia.
Qed.

Lemma extract_show lo hi n t : - 2 ^ 63 <= n < 2 ^ 63 -> lo <= n <= hi -> ends_number t -> extract_range lo hi (show_int n +:+ t) = Some (n, t).
Proof.
  intros Hn Hr Ht. assert ((lo <=? n) && (n <=? hi) = true) as Hb by (apply andb_true_intro; lia). unfold show_int, extract_range.
  destruct (Z.ltb_spec n 0).
  - rewrite append_cons. destruct (show_nat_app (- n) t ltac:(lia) Ht) as [E1 E2].
    change (strip_sign (skip_spaces (String "-" (show_nat 10 (- n) +:+ t)))) with (true, show_nat 10 (- n) +:+ t).
    lazy beta iota. by rewrite E1, E2, Z.opp_involutive, Hb.
  - destruct (show_nat_app n t ltac:(lia) Ht) as [E1 E2]. destruct (show_nat_head 10 n ltac:(lia) ltac:(lia)) as (c & s & E & Hc & _).
    assert (strip_sign (skip_spaces (show_nat 10 n +:+ t)) = (false, show_nat 10 n +:+ t)) as ->.
    { rewrite E, append_cons. cbn [skip_spaces]. rewrite (proj1 (proj1 (digit_cases c Hc))).
      destruct c as [[] [] [] [] [] [] [] []]; try discriminate Hc; reflexivity. }
    lazy beta iota. by rewrite E1, E2, Hb.
Qed.

Lemma ends_comma t : ends_number (String "," t).
Proof. done. Qed.

Lemma ends_empty : ends_number EmptyString.
Proof. done. Qed.

Lemma extract_comma t : extract_char (String "," t) = Some (","%char, t).
Proof. done. Qed.

Definition show_batch (e : BatchRequest) : string :=
  comma (show_int (br_arrival e)) (comma (show_int (br_address e)) (comma (show_int (br_type e)) (show_int (br_source e)))).

Definition batch_fits (e : BatchRequest) : Prop :=
  - 2 ^ 63 <= br_arrival e < 2 ^ 63 /\ - 2 ^ 63 <= br_address e < 2 ^ 63 /\ - 2 ^ 31 <= br_type e < 2 ^ 31 /\ - 2 ^ 31 <= br_source e < 2 ^ 31.

Lemma batch_row_show e : batch_fits e -> batch_row (show_batch e) = Ok e.
Proof.
  intros (H1 & H2 & H3 & H4). unfold batch_row, show_batch, comma, s64_field, s32_field.
  rewrite (extract_show _ _ (br_arrival e)) by (lia || apply ends_comma). cbn [mbind option_bind]. rewrite extract_comma. cbn [mbind option_bind].
  rewrite (extract_show _ _ (br_address e)) by (lia || apply ends_comma). cbn [mbind option_bind]. rewrite extract_comma. cbn [mbind option_bind].
  rewrite (extract_show _ _ (br_type e)) by (lia || apply ends_comma). cbn [mbind option_bind]. rewrite extract_comma. cbn [mbind option_bind].
  rewrite <- (append_empty (show_int (br_source e))).
  rewrite (extract_show _ _ (br_source e)) by (lia || apply ends_empty). cbn [mbind option_bind].
  rewrite !bool_decide_eq_true_2 by done. by destruct e.
Qed.

(** A batch input in the documented format is read to exactly its entries. *)
Lemma read_batch_show l : Forall batch_fits l ->
  read_batch (file_of ("arrive,addr,type,source"%string :: (show_batch <$> l))) false = Ok l.
Proof.
  intros Hl. unfold read_batch. rewrite getlines_file.
  - rewrite bool_decide_eq_true_2 by done. assert (mapM batch_row (show_batch <$> l) = Ok l) as ->; [|done].
    apply mapM_Ok. induction Hl as [|e l He Hl IH]; [constructor|]. constructor; [by apply batch_row_show|done].
  - constructor; [done|]. apply Forall_fmap, Forall_forall. intros e _. unfold show_batch, comma. cbn [compose].
    rewrite !lacks_app. cbn [lacks]. rewrite !lacks_app. cbn [lacks]. rewrite !lacks_app. cbn [lacks]. by rewrite !show_int_lacks by auto.
Qed.

(** The compact format: a header, the number of entries, nine bytes per entry. *)
Definition speed_bytes (l : list (Z * Z)) : list Z :=
  ascii_bytes "RMSPD001" ++ le_bytes 8 (Z.of_nat (length l)) ++ (l ≫= (fun e => le_bytes 8 e.1 ++ [e.2])).

Lemma le_bytes_lookup n v k : (k < n)%nat -> le_bytes n v !! k = Some (v / 256 ^ Z.of_nat k mod 256).
Proof.
  revert v k. induction n as [|n IH]; intros v k Hk; [lia|]. cbn [le_bytes]. destruct k as [|k]; cbn [lookup list_lookup]; [by rewrite Z.div_1_r|].
  rewrite IH by lia. do 2 f_equal. rewrite Z.div_div by lia. f_equal. rewrite Nat2Z.inj_succ, Z.pow_succ_r by lia. lia.
Qed.

Lemma u64_at_bytes v pre rest off :
  0 <= v < 2 ^ 64 -> off = Z.of_nat (length pre) -> u64_at (pre ++ le_bytes 8 v ++ rest) off = Ok v.
Proof.
  intros Hv ->. unfold u64_at.
  assert (forall n, (n <= 8)%nat -> foldM (fun a i => b ← vget (pre ++ le_bytes 8 v ++ rest) (Z.of_nat (length pre) + i); Ok (Z.lor a (Z.shiftl b (8 * i))))
    0 (seqZ 0 (Z.of_nat n)) = Ok (v mod 256 ^ Z.of_nat n)) as H.
  { induction n as [|n IH]; intros Hn; [cbn; by rewrite Z.mod_1_r|].
    replace (Z.of_nat (S n)) with (Z.of_nat n + 1) by lia. rewrite seqZ_app, foldM_app, IH by lia. cbn [mbind result_bind].
    assert (seqZ (0 + Z.of_nat n) 1 = [Z.of_nat n]) as -> by (rewrite seqZ_cons by lia; done). cbn [foldM].
    rewrite (proj2 (vget_Ok _ _ (v / 256 ^ Z.of_nat n mod 256))).
    - cbn [mbind result_bind]. f_equal. rewrite Z.pow_add_r, Z.rem_mul_r by lia.
      replace (256 ^ Z.of_nat n) with (2 ^ (8 * Z.of_nat n)) by (rewrite Z.pow_mul_r by lia; done).
      rewrite lor_disjoint by (try apply Z.mod_pos_bound; lia). change (256 ^ 1) with 256. lia.
    - split; [lia|]. replace (Z.to_nat (Z.of_nat (length pre) + Z.of_nat n)) with (length pre + n)%nat by lia.
      rewrite lookup_app_r, Nat.add_comm, Nat.add_sub by lia. rewrite lookup_app_l by (cbn; lia). apply le_bytes_lookup. lia. }
  transitivity (Ok (v mod 256 ^ Z.of_nat 8)); [apply (H 8%nat); lia|]. f_equal. apply Z.mod_small. exact Hv.
Qed.

Definition speed_fits (e : Z * Z) : Prop := 0 <= e.1 < 2 ^ 33 /\ e.1 mod 64 = 0 /\ 0 <= e.2 <= 1.
Definition speed_entries (interval : Z) (l : list (Z * Z)) : list BatchRequest :=
  imap (fun i e => mkBatchRequest e.1 e.2 (Z.of_nat i * interval) 0) l.

Lemma speed_block (l : list (Z * Z)) i e : l !! i = Some e ->
  exists pre rest, (l ≫= (fun e => le_bytes 8 e.1 ++ [e.2])) = pre ++ le_bytes 8 e.1 ++ (e.2 :: rest) /\ length pre = (i * 9)%nat.
Proof.
  revert i. induction l as [|x l IH]; intros i Hi; [done|]. destruct i as [|i]; cbn in Hi.
  - injection Hi as ->. exists [], (l ≫= (fun e => le_bytes 8 e.1 ++ [e.2])). done.
  - destruct (IH i Hi) as (pre & rest & E & Hl). exists ((le_bytes 8 x.1 ++ [x.2]) ++ pre), rest. split; [|rewrite !length_app; cbn; lia].
    rewrite <- app_assoc. cbn [mbind list_bind]. by rewrite E.
Qed.

Lemma speed_length (l : list (Z * Z)) : length (l ≫= (fun e => le_bytes 8 e.1 ++ [e.2])) = (length l * 9)%nat.
Proof. induction l as [|x l IH]; [done|]. cbn [mbind list_bind]. rewrite length_app, IH. cbn. lia. Qed.

(** A compact file is read to its entries, one every [interval] cycles. *)
Lemma read_speed_batch_show interval l :
  0 < interval -> 0 < Z.of_nat (length l) <= 100000000 -> Z.of_nat (length l) - 1 <= (2 ^ 63 - 1) ÷ interval -> Forall speed_fits l ->
  read_speed_batch (speed_bytes l) interval = Ok (speed_entries interval l).
Proof.
  intros Hi Hn Hc Hf. unfold read_speed_batch, speed_bytes.
  rewrite app_assoc, take_app_length' by done.
  rewrite drop_app_length' by done. set (body := l ≫= _).
  rewrite (bool_decide_eq_true_2 (take 8 _ = _)) by done. destruct (Z.leb_spec interval 0); [lia|]. cbn [length app Nat.ltb Nat.leb orb negb].
  pose proof (u64_at_bytes (Z.of_nat (length l)) (ascii_bytes "RMSPD001") [] 8 ltac:(lia) eq_refl) as Hu. rewrite app_nil_r in Hu. rewrite Hu.
  cbn [mbind result_bind]. destruct (Z.eqb_spec (Z.of_nat (length l)) 0); [lia|]. destruct (Z.ltb_spec 100000000 (Z.of_nat (length l))); [lia|].
  destruct (Z.ltb_spec ((2 ^ 63 - 1) ÷ interval) (Z.of_nat (length l) - 1)); [lia|]. cbn [orb].
  rewrite (proj2 (Z.eqb_eq _ _)) by (unfold body; rewrite speed_length; lia). cbn [negb].
  apply mapM_Ok. apply Forall2_same_length_lookup. split; [by rewrite length_seqZ, Nat2Z.id; unfold speed_entries; rewrite length_imap|].
  intros i k y Hk Hy. apply lookup_seqZ in Hk as [-> Hk]. unfold speed_entries in Hy. rewrite list_lookup_imap in Hy.
  destruct (l !! i) as [e|] eqn:He; [|done]. injection Hy as <-. destruct (Forall_lookup_1 _ _ _ _ Hf He) as (F1 & F2 & F3).
  destruct (speed_block l i e He) as (pre & rest & E & Hl). unfold speed_entry, body. rewrite E.
  rewrite (u64_at_bytes e.1 pre (e.2 :: rest)) by lia. cbn [mbind result_bind].
  rewrite (proj2 (vget_Ok _ _ e.2)).
  - cbn [mbind result_bind]. destruct (Z.leb_spec (2 ^ 33) e.1); [lia|]. rewrite F2. destruct (Z.ltb_spec 1 e.2); [lia|]. done.
  - split; [lia|]. replace (Z.to_nat ((0 + Z.of_nat i) * 9 + 8)) with (length pre + 8)%nat by lia.
    rewrite lookup_app_r, Nat.add_comm, Nat.add_sub by lia. done.
Qed.

(** ** Configuration *)
Lemma config_int_roundtrip v : - 2 ^ 31 <= v < 2 ^ 31 -> convert_int (ConfigNode_int v) = inl v.
Proof. intros Hv. unfold convert_int, ConfigNode_int, convert_with. cbn [config_scalar]. by rewrite stoi_int. Qed.

Lemma config_get_set n key v n' key' :
  config_set n key v = inl n' -> config_get n' key' = if bool_decide (key = key') then v else config_get n key'.
Proof.
  assert (forall m, default CNull (map_find key' (map_assign key v m)) = if bool_decide (key = key') then v else default CNull (map_find key' m)) as H.
  { induction m as [|e m IH]; cbn [map_assign map_find fst snd]; [by case_bool_decide|].
    destruct (String.compare key e.1) eqn:E; cbn [map_find fst snd].
    - apply String.compare_eq_iff in E as ->. by case_bool_decide.
    - by case_bool_decide.
    - destruct (decide (e.1 = key')) as [He|He]; [|by rewrite !(bool_decide_eq_false_2 (e.1 = key'))].
      rewrite !(bool_decide_eq_true_2 (e.1 = key')) by done. rewrite bool_decide_eq_false_2; [done|]. intros ->.
      rewrite He in E. pose proof (String.compare_antisym key' key') as Ha. by rewrite E in Ha. }
  destruct n; cbn [config_set]; intros [= <-]; cbn [config_get map_find fst snd]; [by case_bool_decide|apply H].
Qed.

(** A parameter whose text is no number makes the exception of the standard library
    escape: it is not a [std::runtime_error], so the name of the parameter is lost. *)
Lemma param_conversion_escapes config name impl_name s msg :
  config_get config name = CScalar s -> stoi s = Err (Throw msg) ->
  param_required convert_int config name impl_name = inr (LogicError msg).
Proof.
  intros Hg Hs. unfold param_required, param_parse. rewrite Hg. cbn [config_true config_as]. unfold convert_int, convert_with. cbn [config_scalar].
  by rewrite Hs.
Qed.

(** An empty sequence of a document is no node at all. *)
Lemma empty_sequence_null {A} (convert : ConfigNode -> A + thrown) (d : A) name impl_name :
  exists c, yaml_to_confignode (YMap [(name, YSequence [])]) = inl c /\ param_default convert c name impl_name d = inl d.
Proof. exists (CMap [(name, CNull)]). split; [done|]. unfold param_default. cbn [config_get map_find fst snd]. by rewrite bool_decide_eq_true_2. Qed.
