(* ===== verification/Synthetic.v ===== *)
(** * The synthetic-pattern frontend

    [frontend/impl/memory_trace/synthetic_pattern.cpp]: independent closed-loop
    streams, each with its own sequence of addresses, that share the memory system in
    turn.  A closure of a read is the index of its stream, the closure of a write is
    [cb_write]; callbacks fired by a memory operation run right after it.  [stof] is
    the conversion of text to [float]. *)

From Stdlib Require Import ZArith Lia Ascii String SpecFloat.
From S2P Require Import Prelude Base Controller Latency Elision Simulation Recipe Text.

Local Open Scope string_scope.
Local Open Scope list_scope.
Local Open Scope Z_scope.

(** ** Data *)
Record Axes := mkAxes {
  ax_mlp : Z;
  ax_think_time : Z;
  ax_jitter : Z;
  ax_row_run : Z;
  ax_bank_spread : Z;
  ax_bank_random : bool;
  ax_row_random : bool;
  ax_dep_frac : spec_float;
  ax_wfrac_pct : Z;
  ax_wb_mode : Z;
  ax_wb_batch : Z;
  ax_phase_on : Z;
  ax_phase_off : Z;
  ax_phase_off_random : Z;
  ax_pp_lead : Z
}.

(** What [init] fixes of a stream, and what changes while it runs. *)
Record StreamConfig := mkStreamConfig {
  sc_id : Z;
  sc_a : Axes;
  sc_b : Axes;
  sc_mode_switch : Z;
  sc_num_requests : Z;
  sc_seed : Z;
  sc_bank_base : Z;
  sc_row_base : Z
}.

Record Stream := mkStream {
  st_cfg : StreamConfig;
  st_reads_issued : Z;
  st_outstanding : Z;
  st_dep_wait : bool;
  st_retry_read : bool;
  st_retry_write : bool;
  st_pp_sent : bool;
  st_next_issue : Clk_t;
  st_phase_resume : Clk_t;
  st_wb_queue : list AddrVec_t;
  st_pending_read : Request;
  st_pending_write : Request;
  st_reads_done : Z;
  st_writes_sent : Z;
  st_total_lat : Z
}.

(** The regime of a stream after a number of reads. *)
Definition regime (c : StreamConfig) (reads_issued : Z) : result Axes :=
  if sc_mode_switch c <=? 0 then Ok (sc_a c)
  else
    q ← quot_s reads_issued (sc_mode_switch c);
    Ok (if Z.rem q 2 =? 0 then sc_a c else sc_b c).

Definition cur (st : Stream) : result Axes := regime (st_cfg st) (st_reads_issued st).

Definition finished (st : Stream) : bool :=
  (sc_num_requests (st_cfg st) <=? st_reads_issued st) && (st_outstanding st =? 0) &&
  bool_decide (st_wb_queue st = []) && negb (st_retry_write st).

(** The configuration. *)
Record SynParams := mkSynParams {
  sp_streams : Z;
  sp_num_requests : Z;
  sp_stream_params : string;
  sp_base : Axes;
  sp_mode_switch : Z;
  sp_mode_b : string;
  sp_seed : Z;
  sp_share_region : bool;
  sp_recipe : Recipe
}.

Record Synthetic := mkSynthetic {
  sy_recipe : Recipe;
  sy_rows_per_stream : Z;
  sy_clk : Clk_t;
  sy_s : list Stream;
  sy_rr : Z;
  s_reads_sent : Z;
  s_writes_sent : Z;
  s_total_read_latency : Z;
  s_avg_read_latency : spec_float;
  s_reads_done : Z;
  s_writes_done : Z
}.

(** ** Text of the overrides *)
Fixpoint split_loop (s : string) (sep : ascii) (cur : string) (out : list string) : list string * string :=
  match s with
  | EmptyString => (out, cur)
  | String c s => if bool_decide (c = sep) then split_loop s sep EmptyString (out ++ [cur])
                  else split_loop s sep (cur +:+ String c EmptyString) out
  end.

Definition split (s : string) (sep : ascii) : list string :=
  let '(out, cur) := split_loop s sep EmptyString [] in
  if negb (bool_decide (cur = EmptyString)) || negb (bool_decide (out = [])) then out ++ [cur] else out.

Section apply.
Context (stof : string -> result spec_float).

Definition set_axis (ax : Axes) (k v : string) : result Axes :=
  let '(mkAxes mlp think jit run spread brand rrand dep wf mode batch on off offr lead) := ax in
  if bool_decide (k = "mlp") then x ← stoi v; Ok (mkAxes x think jit run spread brand rrand dep wf mode batch on off offr lead)
  else if bool_decide (k = "think_time") then x ← stoi v; Ok (mkAxes mlp x jit run spread brand rrand dep wf mode batch on off offr lead)
  else if bool_decide (k = "jitter") then x ← stoi v; Ok (mkAxes mlp think x run spread brand rrand dep wf mode batch on off offr lead)
  else if bool_decide (k = "row_run") then x ← stoi v; Ok (mkAxes mlp think jit x spread brand rrand dep wf mode batch on off offr lead)
  else if bool_decide (k = "bank_spread") then x ← stoi v; Ok (mkAxes mlp think jit run x brand rrand dep wf mode batch on off offr lead)
  else if bool_decide (k = "bank_random") then x ← stoi v; Ok (mkAxes mlp think jit run spread (negb (x =? 0)) rrand dep wf mode batch on off offr lead)
  else if bool_decide (k = "row_random") then x ← stoi v; Ok (mkAxes mlp think jit run spread brand (negb (x =? 0)) dep wf mode batch on off offr lead)
  else if bool_decide (k = "dep_frac") then x ← stof v; Ok (mkAxes mlp think jit run spread brand rrand x wf mode batch on off offr lead)
  else if bool_decide (k = "wfrac_pct") then x ← stoi v; Ok (mkAxes mlp think jit run spread brand rrand dep x mode batch on off offr lead)
  else if bool_decide (k = "wb_mode") then x ← stoi v; Ok (mkAxes mlp think jit run spread brand rrand dep wf x batch on off offr lead)
  else if bool_decide (k = "wb_batch") then x ← stoi v; Ok (mkAxes mlp think jit run spread brand rrand dep wf mode x on off offr lead)
  else if bool_decide (k = "phase_on") then x ← stoi v; Ok (mkAxes mlp think jit run spread brand rrand dep wf mode batch x off offr lead)
  else if bool_decide (k = "phase_off") then x ← stoi v; Ok (mkAxes mlp think jit run spread brand rrand dep wf mode batch on x offr lead)
  else if bool_decide (k = "phase_off_random") then x ← stoi v; Ok (mkAxes mlp think jit run spread brand rrand dep wf mode batch on off x lead)
  else if bool_decide (k = "pp_lead") then x ← stoi v; Ok (mkAxes mlp think jit run spread brand rrand dep wf mode batch on off offr x)
  else Err (Throw ("SyntheticPattern: unknown axis '" +:+ k +:+ "'")).

Definition apply_item (ax : Axes) (item : string) : result Axes :=
  match String.index 0 "=" item with
  | None => Ok ax
  | Some eq => set_axis ax (substring 0 eq item) (substring (eq + 1) (String.length item - (eq + 1)) item)
  end.

Definition apply (ax : Axes) (kv : string) : result Axes := foldM apply_item ax (split kv ";").

(** ** Initialisation *)
Definition check_axes (banks_per_stream num_cls : Z) (ax : Axes) : result Axes :=
  let '(mkAxes mlp think jit run spread brand rrand dep wf mode batch on off offr lead) := ax in
  let spread := if (spread <=? 0) || (banks_per_stream <? spread) then banks_per_stream else spread in
  bad ← (if mode =? 3 then d ← s32 (spread * 2); Ok (banks_per_stream <? d) else Ok false);
  if (bad : bool) then Err (Throw "SyntheticPattern: wb_mode=3 needs bank_spread <= half the stream's banks")
  else if (run <=? 0) || (num_cls <? run) then Err (Throw "SyntheticPattern: row_run must be in [1, num_cls]")
  else Ok (mkAxes mlp think jit run spread brand rrand dep wf mode batch on off offr lead).

Definition no_request : Request := Request_vec [] 0.

Definition init_stream (p : SynParams) (segs : list string) (banks rows i : Z) : result Stream :=
  a ← (match segs !! Z.to_nat i with
       | Some seg => if bool_decide (seg = EmptyString) then Ok (sp_base p) else apply (sp_base p) seg
       | None => Ok (sp_base p)
       end);
  b ← (if bool_decide (sp_mode_b p = EmptyString) then Ok a else apply a (sp_mode_b p));
  bank_base ← (if sp_share_region p then Ok 0 else s32 (i * banks));
  row_base ← (if sp_share_region p then Ok 0 else s32 (i * rows));
  a ← check_axes banks (rc_num_cls (sp_recipe p)) a;
  b ← check_axes banks (rc_num_cls (sp_recipe p)) b;
  Ok (mkStream (mkStreamConfig i a b (sp_mode_switch p) (sp_num_requests p) (wrap_u 64 (sp_seed p + 7919 * i)) bank_base row_base)
        0 0 false false false false 0 0 [] no_request no_request 0 0 0).

Definition Synthetic_init (p : SynParams) : result Synthetic :=
  if sp_streams p <=? 0 then Err (Throw "SyntheticPattern: streams must be >= 1")
  else
    let r := sp_recipe p in
    let segs := split (sp_stream_params p) "|" in
    let banks := if sp_share_region p then rc_total_bank_units r
                 else Z.max (Z.quot (rc_total_bank_units r) (sp_streams p)) 1 in
    let rows := if sp_share_region p then Z.quot (rc_num_rows r) 2
                else Z.max (Z.quot (Z.quot (rc_num_rows r) 2) (sp_streams p)) 1 in
    s ← mapM (init_stream p segs banks rows) (seqZ 0 (sp_streams p));
    Ok (mkSynthetic r rows 0 s 0 0 0 0 (S754_zero false) 0 0).
End apply.

(** ** Stochastic choices, seeded by the index *)
Definition mul64 (a b : Z) : Z := wrap_u 64 (a * b).
Definition xorshift (x n : Z) : Z := Z.lxor x (Z.shiftr x n).

Definition hash_of (c : StreamConfig) (i salt : Z) : Z :=
  let x := wrap_u 64 (mul64 (sc_seed c) 0x9E3779B97F4A7C15 + mul64 salt 0xBF58476D1CE4E5B9 +
                      mul64 (wrap_u 64 i) 0x94D049BB133111EB) in
  let x := mul64 (xorshift x 30) 0xBF58476D1CE4E5B9 in
  let x := mul64 (xorshift x 27) 0x94D049BB133111EB in
  xorshift x 31.

(** [static_cast<uint64_t>] of a [float]. *)
Definition f32_to_u64 (x : spec_float) : result Z :=
  match x with
  | S754_zero _ => Ok 0
  | S754_finite s m e =>
      let v := Z.shiftl (Z.pos m) e in
      if s then if v =? 0 then Ok 0 else Err Undef
      else if v <? 2 ^ 64 then Ok v else Err Undef
  | _ => Err Undef
  end.

Definition is_dependent (c : StreamConfig) (ax : Axes) (i : Z) : result bool :=
  if f32_lt (S754_zero false) (ax_dep_frac ax)
  then n ← f32_to_u64 (f32_mul (ax_dep_frac ax) (f32_of_Z 10000)); Ok (hash_of c i 1 mod 10000 <? n)
  else Ok false.

Definition jitter_of (c : StreamConfig) (ax : Axes) (i : Z) : result Z :=
  if 0 <? ax_jitter ax then n ← s32 (ax_jitter ax + 1); Ok (wrap_s 32 (hash_of c i 2 mod n)) else Ok 0.

Definition want_writeback (c : StreamConfig) (ax : Axes) (i : Z) : bool :=
  (0 <? ax_wfrac_pct ax) && (hash_of c i 3 mod 100 <? ax_wfrac_pct ax).

(** ** Addresses *)
Section addresses.
Context (r : Recipe) (rows_per_stream : Z).

Definition compose (flat_bank row cl : Z) : result AddrVec_t :=
  av ← vec_make (rc_addr_vec_size r) 0;
  flat_bank ← rem_s flat_bank (rc_total_bank_units r);
  row ← rem_s row (rc_num_rows r);
  av ← decompose_bank (rc_bank_positions r) (rc_bank_counts r) flat_bank av;
  av ← vset av (rc_row_pos r) row;
  col ← s32 (cl * rc_internal_prefetch_size r);
  vset av (rc_col_pos r) col.

(** The bank within the window of the stream, and the position in it. *)
Definition bank_of (c : StreamConfig) (ax : Axes) (i : Z) : result Z :=
  if ax_bank_random ax then h ← rem_u (hash_of c i 4) (wrap_u 64 (ax_bank_spread ax)); Ok (wrap_s 32 h)
  else rem_s i (ax_bank_spread ax).

Definition region : Z := Z.max (Z.quot rows_per_stream 2) 1.

Definition read_addr_vec (c : StreamConfig) (ax : Axes) (i : Z) : result AddrVec_t :=
  bank ← bank_of c ax i;
  p ← quot_s i (ax_bank_spread ax);
  cl ← rem_s p (ax_row_run ax);
  run ← quot_s p (ax_row_run ax);
  row ← (if ax_row_random ax then
           t ← s32 (run * ax_bank_spread ax);
           t ← s32 (t + bank);
           h ← rem_u (hash_of c t 5) (wrap_u 64 region); Ok (wrap_s 32 h)
         else rem_s run region);
  b ← s32 (sc_bank_base c + bank);
  rw ← s32 (sc_row_base c + row);
  compose b rw cl.

Definition write_addr_vec (c : StreamConfig) (ax : Axes) (i : Z) : result AddrVec_t :=
  bank ← bank_of c ax i;
  bank ← (if ax_wb_mode ax =? 3 then s32 (bank + ax_bank_spread ax) else Ok bank);
  p ← quot_s i (ax_bank_spread ax);
  cl ← rem_s p (ax_row_run ax);
  run ← quot_s p (ax_row_run ax);
  row ← rem_s run region;
  row ← s32 (row + region);
  b ← s32 (sc_bank_base c + bank);
  rw ← s32 (sc_row_base c + row);
  compose b rw cl.
End addresses.

Definition s64 (v : Z) : result Z := if (- 2 ^ 63 <=? v) && (v <? 2 ^ 63) then Ok v else Err Undef.

Definition cb_write : Z := -1.

(** The number of a line in bank-major order, in [int64_t]. *)
Definition line_of (r : Recipe) (av : AddrVec_t) : result Addr_t :=
  b ← bank_flat (rc_bank_positions r) (rc_bank_counts r) av;
  col ← vget av (rc_col_pos r);
  cls ← quot_s col (rc_internal_prefetch_size r);
  t ← s64 (b * rc_num_rows r);
  t ← s64 (t * rc_num_cls r);
  row ← vget av (rc_row_pos r);
  u ← s64 (row * rc_num_cls r);
  t ← s64 (t + u);
  s64 (t + cls).

Definition make_request (r : Recipe) (tx_bytes : Z) (av : AddrVec_t) (type source : Z) : result Request :=
  a ← line_of r av;
  Ok (mkRequest a (-1) av type source (-1) (-1) 0 (-1) tx_bytes (-1) (-1) false (-1) (-1)
        (if type =? Write then Some cb_write else None)).

(** ** Updates of a stream *)
Definition upd_stream (f : Synthetic) (i : Z) (st : Stream) : result Synthetic :=
  s ← vset (sy_s f) i st;
  Ok (mkSynthetic (sy_recipe f) (sy_rows_per_stream f) (sy_clk f) s (sy_rr f) (s_reads_sent f) (s_writes_sent f)
        (s_total_read_latency f) (s_avg_read_latency f) (s_reads_done f) (s_writes_done f)).
Definition count_stats (f : Synthetic) (reads_sent writes_sent lat reads_done writes_done : Z) : Synthetic :=
  mkSynthetic (sy_recipe f) (sy_rows_per_stream f) (sy_clk f) (sy_s f) (sy_rr f) (s_reads_sent f + reads_sent)
    (s_writes_sent f + writes_sent) (s_total_read_latency f + lat) (s_avg_read_latency f) (s_reads_done f + reads_done)
    (s_writes_done f + writes_done).
Definition set_clk_rr (f : Synthetic) (clk : Clk_t) (rr : Z) : Synthetic :=
  mkSynthetic (sy_recipe f) (sy_rows_per_stream f) clk (sy_s f) rr (s_reads_sent f) (s_writes_sent f)
    (s_total_read_latency f) (s_avg_read_latency f) (s_reads_done f) (s_writes_done f).

(** A staged or resent write, and the queue it came from. *)
Definition stage_write (st : Stream) (w : Request) (queue : list AddrVec_t) : Stream :=
  mkStream (st_cfg st) (st_reads_issued st) (st_outstanding st) (st_dep_wait st) (st_retry_read st) true (st_pp_sent st)
    (st_next_issue st) (st_phase_resume st) queue (st_pending_read st) w (st_reads_done st) (st_writes_sent st) (st_total_lat st).
Definition write_accepted (st : Stream) : Stream :=
  mkStream (st_cfg st) (st_reads_issued st) (st_outstanding st) (st_dep_wait st) (st_retry_read st) false (st_pp_sent st)
    (st_next_issue st) (st_phase_resume st) (st_wb_queue st) (st_pending_read st) (st_pending_write st) (st_reads_done st)
    (st_writes_sent st + 1) (st_total_lat st).
Definition pp_accepted (st : Stream) (next_issue : Clk_t) : Stream :=
  mkStream (st_cfg st) (st_reads_issued st) (st_outstanding st) (st_dep_wait st) (st_retry_read st) (st_retry_write st) true
    next_issue (st_phase_resume st) (st_wb_queue st) (st_pending_read st) (st_pending_write st) (st_reads_done st)
    (st_writes_sent st + 1) (st_total_lat st).
Definition stage_read (st : Stream) (r : Request) : Stream :=
  mkStream (st_cfg st) (st_reads_issued st) (st_outstanding st) (st_dep_wait st) true (st_retry_write st) (st_pp_sent st)
    (st_next_issue st) (st_phase_resume st) (st_wb_queue st) r (st_pending_write st) (st_reads_done st) (st_writes_sent st)
    (st_total_lat st).
Definition clear_dep_wait (st : Stream) : Stream :=
  mkStream (st_cfg st) (st_reads_issued st) (st_outstanding st) false (st_retry_read st) (st_retry_write st) (st_pp_sent st)
    (st_next_issue st) (st_phase_resume st) (st_wb_queue st) (st_pending_read st) (st_pending_write st) (st_reads_done st)
    (st_writes_sent st) (st_total_lat st).
Definition read_accepted (st : Stream) (dep_wait : bool) (next_issue phase_resume : Clk_t) (queue : list AddrVec_t) : Stream :=
  mkStream (st_cfg st) (st_reads_issued st + 1) (st_outstanding st + 1) (st_dep_wait st || dep_wait) false (st_retry_write st) false
    next_issue phase_resume queue (st_pending_read st) (st_pending_write st) (st_reads_done st) (st_writes_sent st) (st_total_lat st).
Definition read_completed (st : Stream) (lat : Z) (queue : list AddrVec_t) : Stream :=
  mkStream (st_cfg st) (st_reads_issued st) (st_outstanding st - 1) (st_dep_wait st) (st_retry_read st) (st_retry_write st)
    (st_pp_sent st) (st_next_issue st) (st_phase_resume st) queue (st_pending_read st) (st_pending_write st)
    (st_reads_done st + 1) (st_writes_sent st) (st_total_lat st + lat).

(** ** Callbacks *)
Definition read_callback (f : Synthetic) (i : Z) (completed : Request) : result Synthetic :=
  st ← vget (sy_s f) i;
  let lat := depart completed - arrive completed in
  cx ← cur st;
  let queue := if (ax_wb_mode cx =? 1) && want_writeback (st_cfg st) cx (wrap_s 32 (st_reads_done st + 1))
               then st_wb_queue st ++ [addr_vec completed] else st_wb_queue st in
  f ← upd_stream f i (read_completed st lat queue);
  Ok (count_stats f 0 0 lat 1 0).

Definition Syn_callback (f : Synthetic) (completed : Request) : result Synthetic :=
  match callback completed with
  | None => Ok f
  | Some id => if id =? cb_write then Ok (count_stats f 0 0 0 0 1) else read_callback f id completed
  end.

Section synthetic.
Context {M : Type} `{IMemorySystem M} `{Callbacks M}.

Definition syn_send (f : Synthetic) (m : M) (r : Request) : result (bool * Request * Synthetic * M) :=
  q ← ms_send m r;
  let '(ok, r, m) := q in
  let '(done, m) := take_callbacks m in
  f ← foldM Syn_callback f done;
  Ok (ok, r, f, m).

(** ** [try_stream] on the stream of index [i] *)

(** The write at the head of the queue, unless one waits. *)
Definition try_write (f : Synthetic) (m : M) (i : Z) (st : Stream) : result (bool * Synthetic * M) :=
  st ← (if st_retry_write st then Ok st
        else match st_wb_queue st with
             | [] => Err Undef
             | av :: queue =>
                 w ← make_request (sy_recipe f) (ms_get_tx_bytes m) av Write (sc_id (st_cfg st));
                 Ok (stage_write st w queue)
             end);
  f ← upd_stream f i st;
  s ← syn_send f m (st_pending_write st);
  let '(ok, w, f, m) := s in
  st ← vget (sy_s f) i;
  let st := stage_write st w (st_wb_queue st) in
  if (ok : bool) then
    f ← upd_stream f i (write_accepted st);
    Ok (true, count_stats f 0 1 0 0 0, m)
  else
    f ← upd_stream f i st;
    Ok (true, f, m).

(** The write to the alternate row that leads a group of reads. *)
Definition try_ping_pong (f : Synthetic) (m : M) (i : Z) (ax : Axes) (st : Stream) : result (bool * Synthetic * M) :=
  av ← write_addr_vec (sy_recipe f) (sy_rows_per_stream f) (st_cfg st) ax (st_reads_issued st);
  w ← make_request (sy_recipe f) (ms_get_tx_bytes m) av Write (sc_id (st_cfg st));
  s ← syn_send f m w;
  let '(ok, _, f, m) := s in
  if (ok : bool) then
    st ← vget (sy_s f) i;
    f ← upd_stream f i (pp_accepted st (sy_clk f + ax_pp_lead ax));
    Ok (true, count_stats f 0 1 0 0 0, m)
  else Ok (true, f, m).

(** The end of the pause after read number [n], if it ends a phase. *)
Definition phase_end (clk : Clk_t) (c : StreamConfig) (ax : Axes) (n : Z) (resume : Clk_t) : result Clk_t :=
  if 0 <? ax_phase_on ax then
    k ← rem_s n (ax_phase_on ax);
    if k =? 0 then
      if 0 <? ax_phase_off_random ax then
        g ← quot_s n (ax_phase_on ax);
        u ← s32 (ax_phase_off_random ax + 1);
        Ok (clk + (ax_phase_off ax + hash_of c g 6 mod u))
      else Ok (clk + ax_phase_off ax)
    else Ok resume
  else Ok resume.

(** The write an accepted read brings with it. *)
Definition queue_after (r : Recipe) (rows_per_stream : Z) (c : StreamConfig) (ax : Axes) (n : Z) (queue : list AddrVec_t)
  : result (list AddrVec_t) :=
  if (2 <=? ax_wb_mode ax) && want_writeback c ax n
  then av ← write_addr_vec r rows_per_stream c ax n; Ok (queue ++ [av])
  else Ok queue.

(** The bookkeeping of an accepted read. *)
Definition after_read (f : Synthetic) (i : Z) (ax : Axes) : result Synthetic :=
  st ← vget (sy_s f) i;
  let c := st_cfg st in
  let n := st_reads_issued st in
  jit ← jitter_of c ax n;
  dep ← is_dependent c ax (n + 1);
  queue ← queue_after (sy_recipe f) (sy_rows_per_stream f) c ax n (st_wb_queue st);
  resume ← phase_end (sy_clk f) c ax (n + 1) (st_phase_resume st);
  f ← upd_stream f i (read_accepted st dep (sy_clk f + ax_think_time ax + jit) resume queue);
  Ok (count_stats f 1 0 0 0 0).

Definition try_read (f : Synthetic) (m : M) (i : Z) (ax : Axes) (st : Stream) : result (bool * Synthetic * M) :=
  st ← (if st_retry_read st then Ok st
        else
          av ← read_addr_vec (sy_recipe f) (sy_rows_per_stream f) (st_cfg st) ax (st_reads_issued st);
          r ← make_request (sy_recipe f) (ms_get_tx_bytes m) av Read (sc_id (st_cfg st));
          Ok (stage_read st (mkRequest (addr r) (intra_channel_addr r) (addr_vec r) (type_id r) (source_id r) (ingress_id r)
                               (frontend_id r) (frontend_sub_id r) (admission_ordinal r) (size_bytes r) (command r)
                               (final_command r) (is_stat_updated r) (arrive r) (depart r) (Some i))));
  f ← upd_stream f i st;
  s ← syn_send f m (st_pending_read st);
  let '(ok, r, f, m) := s in
  st ← vget (sy_s f) i;
  f ← upd_stream f i (stage_read st r);
  if (ok : bool) then f ← after_read f i ax; Ok (true, f, m)
  else Ok (true, f, m).

(** Is a write due? *)
Definition write_due (ax : Axes) (c : StreamConfig) (reads_issued : Z) (queue : list AddrVec_t) : bool :=
  (ax_wb_batch ax <=? wrap_s 32 (Z.of_nat (length queue))) ||
  ((sc_num_requests c <=? reads_issued) && negb (bool_decide (queue = []))).

(** Is a leading write due? *)
Definition ping_pong_due (ax : Axes) (c : StreamConfig) (reads_issued : Z) (pp_sent : bool) : result bool :=
  if (ax_wb_mode ax =? 4) && negb pp_sent then
    k ← rem_s reads_issued (ax_row_run ax);
    Ok ((k =? 0) && (reads_issued <? sc_num_requests c))
  else Ok false.

Definition try_stream (f : Synthetic) (m : M) (i : Z) : result (bool * Synthetic * M) :=
  st ← vget (sy_s f) i;
  if sy_clk f <? st_phase_resume st then Ok (false, f, m)
  else
    ax ← cur st;
    if st_retry_write st || write_due ax (st_cfg st) (st_reads_issued st) (st_wb_queue st) then try_write f m i st
    else if (sc_num_requests (st_cfg st) <=? st_reads_issued st) || (ax_mlp ax <=? st_outstanding st) ||
            (sy_clk f <? st_next_issue st) then Ok (false, f, m)
    else
      pp ← ping_pong_due ax (st_cfg st) (st_reads_issued st) (st_pp_sent st);
      if (pp : bool) then try_ping_pong f m i ax st
      else if st_dep_wait st && (0 <? st_outstanding st) then Ok (false, f, m)
      else try_read f m i ax (clear_dep_wait st).

(** ** The interface of the frontend *)
Fixpoint try_streams (ks : list Z) (f : Synthetic) (m : M) : result (Synthetic * M) :=
  match ks with
  | [] => Ok (f, m)
  | k :: ks =>
      i ← rem_u (sy_rr f + k) (Z.of_nat (length (sy_s f)));
      t ← try_stream f m i;
      let '(attempted, f, m) := t in
      if (attempted : bool) then
        rr ← rem_u (sy_rr f + k + 1) (Z.of_nat (length (sy_s f)));
        Ok (set_clk_rr f (sy_clk f) rr, m)
      else try_streams ks f m
  end.

Definition Syn_tick (f : Synthetic) (m : M) : result (Synthetic * M) :=
  let f := set_clk_rr f (sy_clk f + 1) (sy_rr f) in
  try_streams (seqZ 0 (Z.of_nat (length (sy_s f)))) f m.

Definition Syn_is_finished (f : Synthetic) : result bool :=
  Ok (forallb finished (sy_s f) && (s_writes_done f =? s_writes_sent f)).

Definition Syn_update_stats (f : Synthetic) : Synthetic :=
  mkSynthetic (sy_recipe f) (sy_rows_per_stream f) (sy_clk f) (sy_s f) (sy_rr f) (s_reads_sent f) (s_writes_sent f)
    (s_total_read_latency f)
    (if 0 <? s_reads_done f then SFdiv 24 128 (f32_of_Z (s_total_read_latency f)) (f32_of_Z (s_reads_done f))
     else s_avg_read_latency f)
    (s_reads_done f) (s_writes_done f).

#[export] Instance Syn_frontend : IFrontEnd Synthetic M := {|
  f_tick := Syn_tick;
  f_receive := Syn_callback;
  f_is_finished := Syn_is_finished;
  f_idle_ticks := fun _ _ => Ok 0;
  f_fast_forward := fun f _ => Ok f
|}.
End synthetic.
