(* ===== verification/SyntheticProps.v ===== *)
(** * Timing invariance of the synthetic patterns

    What a stream sends is fixed by its configuration: an abstract generator, which
    knows neither clock nor memory, produces the accesses of a stream one after the
    other, and every run of the frontend over every memory system follows it. *)

From Stdlib Require Import ZArith Lia SpecFloat.
From S2P Require Import Prelude Base Spec Controller GenericDDR Mapping MemSystem Latency Elision Simulation CtrlExamples.
From S2P Require Import SimExamples Recipe RecipeProps Text Synthetic.

Local Open Scope Z_scope.

(** ** A memory system that notes what it accepted *)
Record Logged (M : Type) := mkLogged { lg_memory : M; lg_sent : list Request }.
Arguments mkLogged {M} _ _.
Arguments lg_memory {M} _.
Arguments lg_sent {M} _.

#[export] Instance Logged_memory {M} `{IMemorySystem M} : IMemorySystem (Logged M) := {|
  ms_send := fun l r =>
    q ← ms_send (lg_memory l) r;
    let '(ok, r', m) := q in
    Ok (ok, r', mkLogged m (lg_sent l ++ if (ok : bool) then [r] else []));
  ms_tick := fun l => m ← ms_tick (lg_memory l); Ok (mkLogged m (lg_sent l));
  ms_idle_ticks := fun l => ms_idle_ticks (lg_memory l);
  ms_fast_forward := fun l k => m ← ms_fast_forward (lg_memory l) k; Ok (mkLogged m (lg_sent l));
  ms_get_tx_bytes := fun l => ms_get_tx_bytes (lg_memory l)
|}.
#[export] Instance Logged_callbacks {M} `{Callbacks M} : Callbacks (Logged M) :=
  fun l => let '(done, m) := take_callbacks (lg_memory l) in (done, mkLogged m (lg_sent l)).

(** A send leaves the identity of the request alone, whatever its verdict. *)
Definition same_access (r r' : Request) : Prop :=
  addr r' = addr r /\ type_id r' = type_id r /\ source_id r' = source_id r.

Class SendKeeps (M : Type) `{IMemorySystem M} :=
  send_keeps (m : M) r ok r' m' : ms_send m r = Ok (ok, r', m') -> same_access r r'.

(** ** Accesses of a stream *)
Definition access : Type := Z * Addr_t.
Definition sent_of (id : Z) (log : list Request) : list access :=
  (fun r => (type_id r, addr r)) <$> filter (fun r => source_id r = id) log.
Definition reads_in (l : list access) : list Addr_t := snd <$> filter (fun x => x.1 = Read) l.

Lemma sent_of_app (id : Z) (l k : list Request) : sent_of id (l ++ k) = sent_of id l ++ sent_of id k.
Proof. unfold sent_of. by rewrite filter_app, fmap_app. Qed.

Lemma sent_of_own (id : Z) (l : list Request) (r : Request) :
  source_id r = id -> sent_of id (l ++ [r]) = sent_of id l ++ [(type_id r, addr r)].
Proof. intros E. rewrite sent_of_app. unfold sent_of at 2. by rewrite filter_cons_True, filter_nil. Qed.

Lemma sent_of_other (id : Z) (l : list Request) (r : Request) : source_id r <> id -> sent_of id (l ++ [r]) = sent_of id l.
Proof. intros E. rewrite sent_of_app. unfold sent_of at 2. rewrite filter_cons_False by done. apply app_nil_r. Qed.

Lemma reads_in_app (l k : list access) : reads_in (l ++ k) = reads_in l ++ reads_in k.
Proof. unfold reads_in. by rewrite filter_app, fmap_app. Qed.

(** ** The generator *)
Section generator.
Context (r : Recipe) (rows : Z) (c : StreamConfig).

Record Gen := mkGen { g_reads : Z; g_queue : list AddrVec_t; g_pp : bool }.

Definition gen_next (g : Gen) : result (option (access * Gen)) :=
  ax ← regime c (g_reads g);
  if write_due ax c (g_reads g) (g_queue g) then
    match g_queue g with
    | [] => Err Undef
    | av :: queue => a ← line_of r av; Ok (Some ((Write, a), mkGen (g_reads g) queue (g_pp g)))
    end
  else if sc_num_requests c <=? g_reads g then Ok None
  else
    pp ← ping_pong_due ax c (g_reads g) (g_pp g);
    if (pp : bool) then
      av ← write_addr_vec r rows c ax (g_reads g);
      a ← line_of r av;
      Ok (Some ((Write, a), mkGen (g_reads g) (g_queue g) true))
    else
      av ← read_addr_vec r rows c ax (g_reads g);
      a ← line_of r av;
      queue ← queue_after r rows c ax (g_reads g) (g_queue g);
      Ok (Some ((Read, a), mkGen (g_reads g + 1) queue false)).

Inductive gens : Gen -> list access -> Gen -> Prop :=
| gens_nil g : gens g [] g
| gens_cons g x g' l g'' : gen_next g = Ok (Some (x, g')) -> gens g' l g'' -> gens g (x :: l) g''.

Definition stuck (g : Gen) : Prop := forall x g', gen_next g <> Ok (Some (x, g')).

Lemma gens_snoc g l g' x g'' : gens g l g' -> gen_next g' = Ok (Some (x, g'')) -> gens g (l ++ [x]) g''.
Proof. induction 1; intros E; simpl; econstructor; eauto. constructor. Qed.

(** Two runs of the generator differ in length only. *)
Lemma gens_comparable g l1 g1 l2 g2 : gens g l1 g1 -> gens g l2 g2 -> l1 `prefix_of` l2 \/ l2 `prefix_of` l1.
Proof.
  intros H. revert l2 g2. induction H as [g|g x g' l g'' E _ IH]; intros l2 g2 H2; [left; apply prefix_nil|].
  inversion H2 as [|? x2 g2' l2' ? E2 H2']; subst; [right; apply prefix_nil|].
  rewrite E in E2. injection E2 as <- <-. destruct (IH _ _ H2'); [left|right]; by apply prefix_cons.
Qed.

Lemma gens_stuck g l1 g1 l2 g2 : gens g l1 g1 -> gens g l2 g2 -> stuck g1 -> stuck g2 -> l1 = l2.
Proof.
  intros H. revert l2 g2. induction H as [g|g x g' l g'' E _ IH]; intros l2 g2 H2 S1 S2.
  - inversion H2 as [|? x2 g2' l2' ? E2 H2']; subst; [done|]. destruct (S1 _ _ E2).
  - inversion H2 as [|? x2 g2' l2' ? E2 H2']; subst; [destruct (S2 _ _ E)|].
    rewrite E in E2. injection E2 as <- <-. f_equal. eauto.
Qed.

(** The reads alone, for every kind of writeback. *)
Definition read_line (i : Z) : result Addr_t :=
  ax ← regime c i;
  av ← read_addr_vec r rows c ax i;
  line_of r av.
Definition read_seq (n : Z) : result (list Addr_t) := mapM read_line (seqZ 0 n).

Lemma read_seq_snoc n l a : 0 <= n -> read_seq n = Ok l -> read_line n = Ok a -> read_seq (n + 1) = Ok (l ++ [a]).
Proof.
  unfold read_seq. intros Hn Hl Ha. apply mapM_Ok. rewrite seqZ_app by lia. apply Forall2_app; [by apply mapM_Ok|].
  cbn. by constructor.
Qed.

Lemma read_seq_length n l : read_seq n = Ok l -> Z.of_nat (length l) = Z.max 0 n.
Proof. intros H%mapM_Ok%Forall2_length. rewrite length_seqZ in H. lia. Qed.

Lemma read_seq_prefix n k l1 l2 : 0 <= n <= k -> read_seq n = Ok l1 -> read_seq k = Ok l2 -> l1 `prefix_of` l2.
Proof.
  unfold read_seq. intros Hn H1 H2%mapM_Ok. replace k with (n + (k - n)) in H2 by lia. rewrite seqZ_app in H2 by lia.
  apply Forall2_app_inv_l in H2 as (a & b & Ha & _ & ->). apply mapM_Ok in Ha. rewrite H1 in Ha. injection Ha as ->.
  by exists b.
Qed.
End generator.

(** ** The invariant of a stream

    [l] is what the memory accepted of the stream. *)
Definition no_rmw (c : StreamConfig) : Prop := ax_wb_mode (sc_a c) <> 1 /\ ax_wb_mode (sc_b c) <> 1.
Definition staged (q : Request) (type id : Z) (a : Addr_t) : Prop := type_id q = type /\ source_id q = id /\ addr q = a.

Section invariant.
Context (r : Recipe) (rows : Z).

(** A write that waits to be sent again is still the next access. *)
Definition queue_view (st : Stream) (q : list AddrVec_t) : Prop :=
  if st_retry_write st then
    exists av ax, q = av :: st_wb_queue st /\ line_of r av = Ok (addr (st_pending_write st)) /\
      regime (st_cfg st) (st_reads_issued st) = Ok ax /\ write_due ax (st_cfg st) (st_reads_issued st) q = true
  else q = st_wb_queue st.

Definition gen_inv (st : Stream) (l : list access) : Prop :=
  exists q, queue_view st q /\
    gens r rows (st_cfg st) (mkGen 0 [] false) l (mkGen (st_reads_issued st) q (st_pp_sent st)).

Record stream_inv (c : StreamConfig) (st : Stream) (l : list access) : Prop := {
  si_cfg : st_cfg st = c;
  si_range : 0 <= st_reads_issued st <= Z.max 0 (sc_num_requests c);
  si_reads : read_seq r rows c (st_reads_issued st) = Ok (reads_in l);
  si_retry_read : st_retry_read st = true ->
    exists a, read_line r rows c (st_reads_issued st) = Ok a /\ staged (st_pending_read st) Read (sc_id c) a;
  si_retry_write : st_retry_write st = true ->
    type_id (st_pending_write st) = Write /\ source_id (st_pending_write st) = sc_id c;
  si_gen : no_rmw c -> gen_inv st l
}.

(** What completions leave alone. *)
Record same_view (st st' : Stream) : Prop := {
  sv_cfg : st_cfg st' = st_cfg st;
  sv_reads : st_reads_issued st' = st_reads_issued st;
  sv_retry_read : st_retry_read st' = st_retry_read st;
  sv_retry_write : st_retry_write st' = st_retry_write st;
  sv_pp : st_pp_sent st' = st_pp_sent st;
  sv_read : st_pending_read st' = st_pending_read st;
  sv_write : st_pending_write st' = st_pending_write st;
  sv_queue : no_rmw (st_cfg st) -> st_wb_queue st' = st_wb_queue st
}.

#[global] Instance same_view_preorder : PreOrder same_view.
Proof.
  split; [by split|]. intros x y z Hxy Hyz. destruct Hxy, Hyz. split; try congruence.
  intros Hn. rewrite sv_queue1, sv_queue0 by congruence. done.
Qed.

Lemma inv_view c st st' l : stream_inv c st l -> same_view st st' -> stream_inv c st' l.
Proof.
  intros [H1 H2 H3 H4 H5 H6] [E1 E2 E3 E4 E5 E6 E7 E8].
  split; rewrite ?E2, ?E3, ?E4, ?E6, ?E7; try congruence; try done.
  intros Hn. destruct (H6 Hn) as (q & Hq & Hg). exists q. rewrite E1, E2, E5. split; [|done].
  unfold queue_view in *. rewrite E1, E2, E4, E7, E8; [done|congruence].
Qed.

Definition sy_inv (cs : list StreamConfig) (f : Synthetic) (log : list Request) : Prop :=
  sy_recipe f = r /\ sy_rows_per_stream f = rows /\ st_cfg <$> sy_s f = cs /\
  (forall i c, cs !! i = Some c -> sc_id c = Z.of_nat i) /\
  forall i st, sy_s f !! i = Some st -> stream_inv (st_cfg st) st (sent_of (Z.of_nat i) log).

(** What completions leave alone of the frontend. *)
Definition frame (f f' : Synthetic) : Prop :=
  sy_recipe f' = sy_recipe f /\ sy_rows_per_stream f' = sy_rows_per_stream f /\ sy_clk f' = sy_clk f /\ sy_rr f' = sy_rr f /\
  Forall2 same_view (sy_s f) (sy_s f').

#[global] Instance frame_preorder : PreOrder frame.
Proof.
  split.
  - intros f. unfold frame. by split_and!.
  - intros f g h (A1 & A2 & A3 & A4 & A5) (B1 & B2 & B3 & B4 & B5). unfold frame. split_and!; try congruence.
    by etransitivity.
Qed.

Lemma regime_cases c n ax : regime c n = Ok ax -> ax = sc_a c \/ ax = sc_b c.
Proof. unfold regime. intros H. case_match; inv_res; [by left|]. case_match; auto. Qed.

Lemma vset_frame (s s' : list Stream) i st st' :
  vget s i = Ok st -> vset s i st' = Ok s' -> same_view st st' -> Forall2 same_view s s'.
Proof.
  intros [Hi Hl]%vget_Ok [_ ->]%vset_Ok Hv. apply Forall2_same_length_lookup. split; [by rewrite length_insert|].
  intros j x y Hx Hy. destruct (decide (j = Z.to_nat i)) as [->|Hne].
  - rewrite list_lookup_insert_eq in Hy by (by eapply lookup_lt_Some). by simplify_eq.
  - rewrite list_lookup_insert_ne in Hy by done. by simplify_eq.
Qed.

Lemma syn_callback_frame f q f' : Syn_callback f q = Ok f' -> frame f f'.
Proof.
  unfold Syn_callback. intros H. destruct (callback q) as [id|]; [|by simplify_eq].
  case_match; [simplify_eq; done|]. unfold read_callback, upd_stream in H. inv_res.
  unfold frame. cbn. split_and!; try done. eapply vset_frame; [eassumption|eassumption|].
  split; cbn; try done. intros [Ha Hb]. case_match eqn:E; [|done].
  apply andb_prop in E as [E _]. unfold cur in *.
  match goal with H : regime _ _ = Ok _ |- _ => apply regime_cases in H as [->| ->]; lia end.
Qed.

Lemma syn_callbacks_frame l f f' : foldM Syn_callback f l = Ok f' -> frame f f'.
Proof. apply (foldM_inv (frame f)); [done|]. intros a b x _ Ha Hb%syn_callback_frame. by etransitivity. Qed.

(** *** One stream *)
Section one.
Context (c : StreamConfig) (st : Stream) (l : list access).
Hypothesis HI : stream_inv c st l.

Lemma gen_queue : no_rmw c -> st_retry_write st = false ->
  gens r rows c (mkGen 0 [] false) l (mkGen (st_reads_issued st) (st_wb_queue st) (st_pp_sent st)).
Proof.
  intros Hn Hr. destruct (si_gen _ _ _ HI Hn) as (q & Hq & Hg). unfold queue_view in Hq. rewrite Hr in Hq. subst q.
  by rewrite (si_cfg _ _ _ HI) in Hg.
Qed.

Lemma stage_write_inv ax av queue w tx :
  st_retry_write st = false -> st_wb_queue st = av :: queue -> regime c (st_reads_issued st) = Ok ax ->
  write_due ax c (st_reads_issued st) (av :: queue) = true -> make_request r tx av Write (sc_id c) = Ok w ->
  stream_inv c (stage_write st w queue) l.
Proof.
  intros Hr Hq Hax Hd Hw. unfold make_request in Hw. inv_res. pose proof HI as [H1 H2 H3 H4 H5 H6].
  split; cbn; try done. intros Hn. exists (av :: queue). cbn. rewrite H1. split.
  - unfold queue_view. cbn. by exists av, ax.
  - rewrite <- Hq. by apply gen_queue.
Qed.

Lemma restage_inv w :
  st_retry_write st = true -> same_access (st_pending_write st) w -> stream_inv c (stage_write st w (st_wb_queue st)) l.
Proof.
  intros Hr (Ea & Et & Es). pose proof HI as [H1 H2 H3 H4 H5 H6]. split; cbn; try done.
  - intros _. rewrite Et, Es. by apply H5.
  - intros Hn. destruct (H6 Hn) as (q & Hq & Hg). exists q. split; [|done]. unfold queue_view in *. cbn. by rewrite Hr, <- Ea in Hq.
Qed.

Lemma write_accepted_inv :
  st_retry_write st = true -> stream_inv c (write_accepted st) (l ++ [(Write, addr (st_pending_write st))]).
Proof.
  intros Hr. pose proof HI as [H1 H2 H3 H4 H5 H6]. split; cbn; try done.
  - rewrite reads_in_app. cbn. by rewrite app_nil_r.
  - intros Hn. destruct (H6 Hn) as (q & Hq & Hg). unfold queue_view in Hq. rewrite Hr in Hq.
    destruct Hq as (av & ax & -> & Ha & Hax & Hd). exists (st_wb_queue st). split; [done|]. cbn.
    eapply gens_snoc; [exact Hg|]. unfold gen_next. cbn. rewrite Hax. cbn. rewrite Hd, Ha. done.
Qed.

(** The next access is not a queued write. *)
Definition at_head (ax : Axes) : Prop :=
  regime c (st_reads_issued st) = Ok ax /\ st_retry_write st = false /\ st_reads_issued st < sc_num_requests c /\
  (no_rmw c -> write_due ax c (st_reads_issued st) (st_wb_queue st) = false).

Lemma pp_accepted_inv ax av a next :
  at_head ax -> ping_pong_due ax c (st_reads_issued st) (st_pp_sent st) = Ok true ->
  write_addr_vec r rows c ax (st_reads_issued st) = Ok av -> line_of r av = Ok a ->
  stream_inv c (pp_accepted st next) (l ++ [(Write, a)]).
Proof.
  intros (Hax & Hr & Hlt & Hd) Hpp Hav Ha. pose proof HI as [H1 H2 H3 H4 H5 H6]. split; cbn; try done.
  - rewrite reads_in_app. cbn. by rewrite app_nil_r.
  - intros Hn. exists (st_wb_queue st). unfold queue_view. cbn. rewrite Hr. split; [done|].
    rewrite H1. eapply gens_snoc; [by apply gen_queue|]. unfold gen_next. cbn. rewrite Hax. cbn. rewrite Hd by done.
    destruct (Z.leb_spec (sc_num_requests c) (st_reads_issued st)); [lia|]. rewrite Hpp. cbn. rewrite Hav. cbn. by rewrite Ha.
Qed.

Lemma stage_read_inv q a :
  read_line r rows c (st_reads_issued st) = Ok a -> staged q Read (sc_id c) a -> stream_inv c (stage_read st q) l.
Proof.
  intros Ha Hs. pose proof HI as [H1 H2 H3 H4 H5 H6]. split; cbn; try done. by exists a.
Qed.

Lemma read_accepted_inv ax a dep next resume queue :
  at_head ax -> ping_pong_due ax c (st_reads_issued st) (st_pp_sent st) = Ok false ->
  read_line r rows c (st_reads_issued st) = Ok a ->
  queue_after r rows c ax (st_reads_issued st) (st_wb_queue st) = Ok queue ->
  stream_inv c (read_accepted st dep next resume queue) (l ++ [(Read, a)]).
Proof.
  intros (Hax & Hr & Hlt & Hd) Hpp Ha Hqueue. pose proof HI as [H1 H2 H3 H4 H5 H6]. split; cbn; try done.
  - lia.
  - rewrite reads_in_app. cbn. apply read_seq_snoc; [lia|done|done].
  - intros Hn. exists queue. unfold queue_view. cbn. rewrite Hr. split; [done|].
    rewrite H1. eapply gens_snoc; [by apply gen_queue|]. unfold gen_next. cbn. rewrite Hax. cbn. rewrite Hd by done.
    destruct (Z.leb_spec (sc_num_requests c) (st_reads_issued st)); [lia|]. rewrite Hpp. cbn.
    unfold read_line in Ha. rewrite Hax in Ha. cbn in Ha. destruct (read_addr_vec r rows c ax (st_reads_issued st)); [|done]. cbn in *.
    rewrite Ha. cbn. by rewrite Hqueue.
Qed.
End one.
End invariant.

(** ** The frontend *)
Section frontend.
Context {M : Type} `{IMemorySystem M} `{Callbacks M} `{!SendKeeps M}.
Context (r : Recipe) (rows : Z) (cs : list StreamConfig).

(** The invariant of every stream but one. *)
Definition others (i : Z) (f : Synthetic) (log : list Request) : Prop :=
  sy_recipe f = r /\ sy_rows_per_stream f = rows /\ st_cfg <$> sy_s f = cs /\
  (forall j c, cs !! j = Some c -> sc_id c = Z.of_nat j) /\
  forall j st, Z.of_nat j <> i -> sy_s f !! j = Some st -> stream_inv r rows (st_cfg st) st (sent_of (Z.of_nat j) log).

Lemma inv_others i f log : sy_inv r rows cs f log -> others i f log.
Proof. intros (H1 & H2 & H3 & H4 & H5). unfold others. split_and!; eauto. Qed.

Lemma inv_stream i f log st : sy_inv r rows cs f log -> vget (sy_s f) i = Ok st ->
  sc_id (st_cfg st) = i /\ stream_inv r rows (st_cfg st) st (sent_of i log).
Proof.
  intros (_ & _ & Hcs & Hid & Hall) [Hi Hl]%vget_Ok. pose proof (Hall _ _ Hl) as HS. rewrite Z2Nat.id in HS by done.
  split; [|done]. rewrite (Hid (Z.to_nat i)); [lia|]. by rewrite <- Hcs, list_lookup_fmap, Hl.
Qed.

Lemma others_frame i f f' log : others i f log -> frame f f' -> others i f' log.
Proof.
  intros (H1 & H2 & H3 & H4 & H5) (E1 & E2 & E3 & E4 & E5). unfold others. split_and!; try congruence; try done.
  - rewrite <- H3. symmetry. apply list_eq. intros j. rewrite !list_lookup_fmap.
    destruct (sy_s f !! j) as [x|] eqn:Ex.
    + destruct (Forall2_lookup_l _ _ _ _ _ E5 Ex) as (y & -> & Hv). cbn. by rewrite (sv_cfg _ _ Hv).
    + destruct (sy_s f' !! j) as [y|] eqn:Ey; [|done].
      destruct (Forall2_lookup_r _ _ _ _ _ E5 Ey) as (x & Hx & _). congruence.
  - intros j st' Hj Hst. destruct (Forall2_lookup_r _ _ _ _ _ E5 Hst) as (st & Hl & Hv).
    rewrite (sv_cfg _ _ Hv). eapply inv_view; [by apply H5|done].
Qed.

Lemma others_log i f log q : others i f log -> source_id q = i -> others i f (log ++ [q]).
Proof.
  intros (H1 & H2 & H3 & H4 & H5) Hs. unfold others. split_and!; try done. intros j st Hj Hl.
  rewrite sent_of_other by congruence. by apply H5.
Qed.

Lemma vget_frame f f' i st : frame f f' -> vget (sy_s f) i = Ok st -> exists st', vget (sy_s f') i = Ok st' /\ same_view st st'.
Proof.
  intros (_ & _ & _ & _ & E) [Hi Hl]%vget_Ok. destruct (Forall2_lookup_l _ _ _ _ _ E Hl) as (y & Hy & Hv).
  exists y. split; [by apply vget_Ok|done].
Qed.

Lemma vget_vset_same {A} (l l' : list A) i x : vset l i x = Ok l' -> vget l' i = Ok x.
Proof. intros Hs. rewrite (vget_vset _ _ _ _ _ Hs). by rewrite Z.eqb_refl. Qed.

Lemma upd_others i f f' log st st' :
  others i f log -> vget (sy_s f) i = Ok st -> upd_stream f i st' = Ok f' -> st_cfg st' = st_cfg st ->
  others i f' log /\ vget (sy_s f') i = Ok st' /\ sy_recipe f' = sy_recipe f /\ sy_rows_per_stream f' = sy_rows_per_stream f.
Proof.
  intros (H1 & H2 & H3 & H4 & H5) [Hi Hg]%vget_Ok Hu Hc. unfold upd_stream in Hu. inv_res. cbn.
  split; [|split; [by eapply vget_vset_same|done]].
  match goal with H : vset _ _ _ = Ok _ |- _ => apply vset_Ok in H as [? ->] end.
  unfold others. cbn. split_and!; try done.
  - rewrite list_fmap_insert, Hc, <- H3. apply list_insert_id. by rewrite list_lookup_fmap, Hg.
  - intros j x Hj Hx. rewrite list_lookup_insert_ne in Hx by lia. by apply H5.
Qed.

Lemma others_inv i f log st :
  others i f log -> vget (sy_s f) i = Ok st -> stream_inv r rows (st_cfg st) st (sent_of i log) -> sy_inv r rows cs f log.
Proof.
  intros (H1 & H2 & H3 & H4 & H5) [Hi Hg]%vget_Ok HI. unfold sy_inv. split_and!; try done. intros j x Hx.
  destruct (decide (Z.of_nat j = i)) as [<-|Hne]; [|by apply H5]. rewrite Nat2Z.id in Hg. by simplify_eq.
Qed.

Lemma inv_frame_same f f' log : sy_inv r rows cs f log -> frame f f' -> sy_inv r rows cs f' log.
Proof.
  intros Hf HF. destruct Hf as (H1 & H2 & H3 & H4 & H5).
  assert (others (-1) f' log) as (A1 & A2 & A3 & A4 & A5) by (eapply others_frame; [|exact HF]; unfold others; split_and!; eauto).
  unfold sy_inv. split_and!; try done. intros j st Hl. apply A5; [lia|done].
Qed.

(** A send: completions run, the request keeps its identity, and the log grows. *)
Lemma syn_send_spec f (m : Logged M) q ok q' f' m' :
  syn_send f m q = Ok (ok, q', f', m') ->
  frame f f' /\ same_access q q' /\ lg_sent m' = lg_sent m ++ if (ok : bool) then [q] else [].
Proof.
  unfold syn_send. intros Hs. cbn in Hs. apply bind_Ok in Hs as ([[ok1 q1] m1] & Hm & Hs).
  apply bind_Ok in Hm as ([[ok2 q2] m2] & Hm & [= <- <- <-]). unfold take_callbacks, Logged_callbacks in Hs. cbn in Hs.
  destruct (take_callbacks m2) as [done m3]. apply bind_Ok in Hs as (f1 & Hf & [= <- <- <- <-]). cbn.
  split_and!; [by eapply syn_callbacks_frame|by eapply send_keeps|done].
Qed.

(** The stream after a send of it, up to completions. *)
Lemma after_send i f (m : Logged M) q ok q' f' m' st :
  others i f (lg_sent m) -> vget (sy_s f) i = Ok st -> source_id q = i -> syn_send f m q = Ok (ok, q', f', m') ->
  others i f' (lg_sent m') /\ same_access q q' /\
  sent_of i (lg_sent m') = sent_of i (lg_sent m) ++ (if (ok : bool) then [(type_id q, addr q)] else []) /\
  exists st', vget (sy_s f') i = Ok st' /\ same_view st st'.
Proof.
  intros Ho Hg Hid Hs. apply syn_send_spec in Hs as (HF & Hk & Hlog). rewrite Hlog. split_and!.
  - destruct ok; [apply others_log; [|done]|rewrite app_nil_r]; by eapply others_frame.
  - done.
  - destruct ok; [by apply sent_of_own|by rewrite !app_nil_r].
  - by eapply vget_frame.
Qed.

(** Update the stream and close the invariant again. *)
Lemma upd_inv i f f' log st st' :
  others i f log -> vget (sy_s f) i = Ok st -> upd_stream f i st' = Ok f' -> st_cfg st' = st_cfg st ->
  stream_inv r rows (st_cfg st) st' (sent_of i log) -> sy_inv r rows cs f' log.
Proof.
  intros Ho Hg Hu Hc HI. destruct (upd_others _ _ _ _ _ _ Ho Hg Hu Hc) as (Ho' & Hg' & _).
  eapply others_inv; [done|done|by rewrite Hc].
Qed.

Lemma count_inv f log a b c d e : sy_inv r rows cs f log -> sy_inv r rows cs (count_stats f a b c d e) log.
Proof. done. Qed.

Lemma try_write_inv f (m : Logged M) i st ax b f' m' :
  sy_inv r rows cs f (lg_sent m) -> vget (sy_s f) i = Ok st -> cur st = Ok ax ->
  st_retry_write st || write_due ax (st_cfg st) (st_reads_issued st) (st_wb_queue st) = true ->
  try_write f m i st = Ok (b, f', m') -> sy_inv r rows cs f' (lg_sent m').
Proof.
  intros HI Hg Hax Hd Ht. destruct (inv_stream _ _ _ _ HI Hg) as [Hid HS]. pose proof (inv_others i _ _ HI) as Ho.
  unfold try_write in Ht. apply bind_Ok in Ht as (st1 & Hst1 & Ht).
  assert (stream_inv r rows (st_cfg st) st1 (sent_of i (lg_sent m)) /\ st_retry_write st1 = true) as [HS1 Hr1].
  { destruct (st_retry_write st) eqn:Er; [by simplify_eq|]. destruct (st_wb_queue st) as [|av queue] eqn:Eq; [done|].
    apply bind_Ok in Hst1 as (w & Hw & [= <-]). split; [|done]. rewrite (proj1 HI) in Hw.
    by eapply stage_write_inv. }
  apply bind_Ok in Ht as (f1 & Hf1 & Ht). apply bind_Ok in Ht as ([[[ok w] f2] m2] & Hsend & Ht).
  pose proof (si_cfg _ _ _ _ _ HS1) as Hc1.
  destruct (upd_others _ _ _ _ _ _ Ho Hg Hf1 Hc1) as (Ho1 & Hg1 & _).
  destruct (si_retry_write _ _ _ _ _ HS1 Hr1) as [Hty Hsrc]. rewrite Hid in Hsrc.
  destruct (after_send _ _ _ _ _ _ _ _ _ Ho1 Hg1 Hsrc Hsend) as (Ho2 & Hk & Hlog & st2 & Hg2 & Hv).
  apply bind_Ok in Ht as (st2' & Hg2' & Ht). rewrite Hg2 in Hg2'. injection Hg2' as <-.
  pose proof (inv_view _ _ _ _ _ _ HS1 Hv) as HS2. assert (Hr2 : st_retry_write st2 = true) by (by rewrite (sv_retry_write _ _ Hv)).
  rewrite <- (sv_write _ _ Hv) in Hk. pose proof (restage_inv _ _ _ _ _ HS2 w Hr2 Hk) as HS3. rewrite Hty in Hlog.
  assert (Hc2 : st_cfg st2 = st_cfg st) by (by rewrite (sv_cfg _ _ Hv)). rewrite <- Hc2 in HS3.
  destruct ok; inv_res; [apply count_inv|]; (eapply upd_inv; [exact Ho2|exact Hg2|eassumption|done|]).
  - rewrite Hlog, <- (sv_write _ _ Hv). destruct Hk as (Ea & _). rewrite <- Ea. by apply (write_accepted_inv _ _ _ _ _ HS3).
  - by rewrite Hlog, app_nil_r.
Qed.

Lemma at_head_view c st st' ax : st_cfg st = c -> at_head c st ax -> same_view st st' -> at_head c st' ax.
Proof.
  intros Hc (H1 & H2 & H3 & H4) Hv. unfold at_head. rewrite (sv_reads _ _ Hv), (sv_retry_write _ _ Hv). split_and!; try done.
  intros Hn. rewrite (sv_queue _ _ Hv) by congruence. auto.
Qed.

Lemma try_ping_pong_inv f (m : Logged M) i st ax b f' m' :
  sy_inv r rows cs f (lg_sent m) -> vget (sy_s f) i = Ok st -> at_head (st_cfg st) st ax ->
  ping_pong_due ax (st_cfg st) (st_reads_issued st) (st_pp_sent st) = Ok true ->
  try_ping_pong f m i ax st = Ok (b, f', m') -> sy_inv r rows cs f' (lg_sent m').
Proof.
  intros HI Hg Hh Hpp Ht. destruct (inv_stream _ _ _ _ HI Hg) as [Hid HS]. pose proof (inv_others i _ _ HI) as Ho.
  unfold try_ping_pong in Ht. apply bind_Ok in Ht as (av & Hav & Ht). apply bind_Ok in Ht as (w & Hw & Ht).
  unfold make_request in Hw. apply bind_Ok in Hw as (a & Ha & [= <-]). rewrite (proj1 HI) in Hav, Ha. rewrite (proj1 (proj2 HI)) in Hav.
  apply bind_Ok in Ht as ([[[ok w] f2] m2] & Hsend & Ht).
  destruct ((fun h => after_send _ _ _ _ _ _ _ _ _ Ho Hg h Hsend) Hid) as (Ho2 & Hk & Hlog & st2 & Hg2 & Hv).
  pose proof (inv_view _ _ _ _ _ _ HS Hv) as HS2. cbn in Hlog. pose proof (sv_cfg _ _ Hv) as Hc.
  destruct ok.
  - rewrite Hg2 in Ht. cbn in Ht. inv_res. apply count_inv. eapply upd_inv; [exact Ho2|exact Hg2|eassumption|done|].
    rewrite Hlog, Hc. eapply pp_accepted_inv; [exact HS2|exact (at_head_view _ _ _ _ eq_refl Hh Hv)| |by rewrite (sv_reads _ _ Hv)|done].
    by rewrite (sv_reads _ _ Hv), (sv_pp _ _ Hv).
  - inv_res. eapply others_inv; [exact Ho2|exact Hg2|]. by rewrite Hlog, app_nil_r, Hc.
Qed.

Lemma after_read_inv f log i st ax a f' :
  others i f log -> vget (sy_s f) i = Ok st -> at_head (st_cfg st) st ax ->
  ping_pong_due ax (st_cfg st) (st_reads_issued st) (st_pp_sent st) = Ok false ->
  (exists l, stream_inv r rows (st_cfg st) st l /\ sent_of i log = l ++ [(Read, a)]) ->
  read_line r rows (st_cfg st) (st_reads_issued st) = Ok a ->
  after_read f i ax = Ok f' -> sy_inv r rows cs f' log.
Proof.
  intros Ho Hg Hh Hpp (l & HS & Hl) Ha Ht. unfold after_read in Ht. rewrite Hg in Ht. cbn in Ht.
  apply bind_Ok in Ht as (jit & _ & Ht). apply bind_Ok in Ht as (dep & _ & Ht). apply bind_Ok in Ht as (queue & Hq & Ht).
  apply bind_Ok in Ht as (resume & _ & Ht). rewrite (proj1 Ho), (proj1 (proj2 Ho)) in Hq. inv_res. apply count_inv.
  eapply upd_inv; [exact Ho|exact Hg|eassumption|done|]. rewrite Hl. by eapply read_accepted_inv.
Qed.

(** The read a stream sends next. *)
Lemma read_staged f (m : Logged M) i st0 ax st1 :
  sy_inv r rows cs f (lg_sent m) -> vget (sy_s f) i = Ok st0 -> regime (st_cfg st0) (st_reads_issued st0) = Ok ax ->
  (if st_retry_read st0 then Ok (clear_dep_wait st0)
   else
     av ← read_addr_vec (sy_recipe f) (sy_rows_per_stream f) (st_cfg st0) ax (st_reads_issued st0);
     q ← make_request (sy_recipe f) (ms_get_tx_bytes m) av Read (sc_id (st_cfg st0));
     Ok (stage_read (clear_dep_wait st0)
           (mkRequest (addr q) (intra_channel_addr q) (addr_vec q) (type_id q) (source_id q) (ingress_id q)
              (frontend_id q) (frontend_sub_id q) (admission_ordinal q) (size_bytes q) (command q)
              (final_command q) (is_stat_updated q) (arrive q) (depart q) (Some i)))) = Ok st1 ->
  exists a, read_line r rows (st_cfg st0) (st_reads_issued st0) = Ok a /\ staged (st_pending_read st1) Read i a /\
    st1 = stage_read (clear_dep_wait st0) (st_pending_read st1).
Proof.
  intros HI Hg Hax Hst1. destruct (inv_stream _ _ _ _ HI Hg) as [Hid HS]. destruct (st_retry_read st0) eqn:Er.
  - injection Hst1 as <-. destruct (si_retry_read _ _ _ _ _ HS Er) as (a & Ha & Hs). exists a. rewrite Hid in Hs. split_and!; try done.
    unfold stage_read, clear_dep_wait. cbn. by rewrite Er.
  - apply bind_Ok in Hst1 as (av & Hav & Hst1). apply bind_Ok in Hst1 as (q & Hq & [= <-]). unfold make_request in Hq.
    apply bind_Ok in Hq as (a & Ha & [= <-]). exists a. rewrite (proj1 HI) in Hav, Ha. rewrite (proj1 (proj2 HI)) in Hav. split_and!; try done.
    unfold read_line. rewrite Hax. cbn. by rewrite Hav.
Qed.

Lemma try_read_inv f (m : Logged M) i st0 ax b f' m' :
  sy_inv r rows cs f (lg_sent m) -> vget (sy_s f) i = Ok st0 -> at_head (st_cfg st0) st0 ax ->
  ping_pong_due ax (st_cfg st0) (st_reads_issued st0) (st_pp_sent st0) = Ok false ->
  try_read f m i ax (clear_dep_wait st0) = Ok (b, f', m') -> sy_inv r rows cs f' (lg_sent m').
Proof.
  intros HI Hg Hh Hpp Ht. destruct (inv_stream _ _ _ _ HI Hg) as [Hid HS]. pose proof (inv_others i _ _ HI) as Ho.
  assert (stream_inv r rows (st_cfg st0) (clear_dep_wait st0) (sent_of i (lg_sent m))) as HS0 by (by eapply inv_view; [exact HS|]).
  unfold try_read in Ht. apply bind_Ok in Ht as (st1 & Hst1 & Ht).
  destruct (read_staged _ _ _ _ _ _ HI Hg (proj1 Hh) Hst1) as (a & Ha & Hs1 & Est1). clear Hst1.
  pose proof (stage_read_inv _ _ _ _ _ HS0 (st_pending_read st1) a Ha ltac:(by rewrite Hid)) as HS1. rewrite <- Est1 in HS1.
  apply bind_Ok in Ht as (f1 & Hf1 & Ht). apply bind_Ok in Ht as ([[[ok q] f2] m2] & Hsend & Ht).
  pose proof (si_cfg _ _ _ _ _ HS1) as Hc1. destruct (upd_others _ _ _ _ _ _ Ho Hg Hf1 Hc1) as (Ho1 & Hg1 & _).
  destruct (after_send _ _ _ _ _ _ _ _ _ Ho1 Hg1 (proj1 (proj2 Hs1)) Hsend) as (Ho2 & Hk & Hlog & st2 & Hg2 & Hv).
  apply bind_Ok in Ht as (st2' & Hg2' & Ht). rewrite Hg2 in Hg2'. injection Hg2' as <-. apply bind_Ok in Ht as (f3 & Hf3 & Ht).
  destruct (upd_others _ _ _ _ _ _ Ho2 Hg2 Hf3 eq_refl) as (Ho3 & Hg3 & _).
  assert (staged q Read i a) as Hsq by (destruct Hs1 as (A & B & C), Hk as (K1 & K2 & K3); unfold staged; split_and!; congruence).
  assert (at_head (st_cfg st0) st1 ax) as Hh1 by (by rewrite Est1). pose proof (at_head_view _ _ _ _ Hc1 Hh1 Hv) as Hh2.
  pose proof (sv_cfg _ _ Hv) as Hc2. rewrite Hc1 in Hc2.
  pose proof (sv_reads _ _ Hv) as Hn2. rewrite Est1 in Hn2. cbn in Hn2. pose proof (sv_pp _ _ Hv) as Hp2. rewrite Est1 in Hp2. cbn in Hp2.
  assert (stream_inv r rows (st_cfg st0) (stage_read st2 q) (sent_of i (lg_sent m))) as HS3.
  { eapply stage_read_inv; [by eapply inv_view|by rewrite Hn2|by rewrite Hid]. }
  destruct Hs1 as (Ety & _ & Ead). rewrite Ety, Ead in Hlog. destruct ok.
  - apply bind_Ok in Ht as (f4 & Hf4 & [= <- <- <-]).
    eapply (after_read_inv f3 _ i (stage_read st2 q) ax a); [exact Ho3|exact Hg3| | | | |eassumption]; cbn; rewrite ?Hc2, ?Hn2, ?Hp2; try done.
    by exists (sent_of i (lg_sent m)).
  - injection Ht as <- <- <-. eapply others_inv; [exact Ho3|exact Hg3|]. cbn. by rewrite Hlog, app_nil_r, Hc2.
Qed.

Lemma try_stream_inv f (m : Logged M) i b f' m' :
  sy_inv r rows cs f (lg_sent m) -> try_stream f m i = Ok (b, f', m') -> sy_inv r rows cs f' (lg_sent m').
Proof.
  intros HI Ht. unfold try_stream in Ht. apply bind_Ok in Ht as (st & Hg & Ht).
  destruct (inv_stream _ _ _ _ HI Hg) as [Hid HS].
  destruct (sy_clk f <? st_phase_resume st); [by simplify_eq|]. apply bind_Ok in Ht as (ax & Hax & Ht).
  destruct (st_retry_write st || _) eqn:Ew; [by eapply try_write_inv|].
  destruct ((sc_num_requests (st_cfg st) <=? st_reads_issued st) || _ || _) eqn:Ed; [by simplify_eq|].
  apply orb_false_elim in Ew as [Er Ew]. apply orb_false_elim in Ed as [[Ed%Z.leb_gt _]%orb_false_elim _].
  assert (at_head (st_cfg st) st ax) as Hh by done.
  apply bind_Ok in Ht as ([|] & Hpp & Ht); [by eapply try_ping_pong_inv|].
  destruct (st_dep_wait st && _); [by simplify_eq|]. by eapply try_read_inv.
Qed.

Lemma try_streams_inv ks f (m : Logged M) f' m' :
  sy_inv r rows cs f (lg_sent m) -> try_streams ks f m = Ok (f', m') -> sy_inv r rows cs f' (lg_sent m').
Proof.
  revert f m. induction ks as [|k ks IH]; intros f m HI Ht; cbn in Ht; [by simplify_eq|].
  apply bind_Ok in Ht as (i & _ & Ht). apply bind_Ok in Ht as ([[b f1] m1] & Hs & Ht).
  pose proof (try_stream_inv _ _ _ _ _ _ HI Hs) as HI1. destruct b; [|by eapply IH].
  apply bind_Ok in Ht as (rr & _ & [= <- <-]). exact HI1.
Qed.

Lemma Syn_tick_inv f (m : Logged M) f' m' :
  sy_inv r rows cs f (lg_sent m) -> Syn_tick f m = Ok (f', m') -> sy_inv r rows cs f' (lg_sent m').
Proof. intros HI. apply try_streams_inv. exact HI. Qed.

Lemma memory_tick_inv f (m : Logged M) f' m' :
  sy_inv r rows cs f (lg_sent m) -> memory_tick f m = Ok (f', m') -> sy_inv r rows cs f' (lg_sent m').
Proof.
  intros HI Ht. unfold memory_tick in Ht. apply bind_Ok in Ht as (m1 & Hm & Ht). cbn in Hm. apply bind_Ok in Hm as (m2 & _ & [= <-]).
  unfold take_callbacks, Logged_callbacks in Ht. cbn in Ht. destruct (take_callbacks m2) as [done m3].
  apply bind_Ok in Ht as (f1 & Hf & [= <- <-]). cbn. eapply inv_frame_same; [exact HI|]. by eapply syn_callbacks_frame.
Qed.
End frontend.

(** ** Runs *)
Section runs.
Context {M : Type} `{IMemorySystem M} `{Callbacks M} (stof : string -> result spec_float) (p : SynParams).

(** Frontend and memory take turns in any order. *)
Inductive syn_run : Synthetic -> Logged M -> Prop :=
| run_start f m : Synthetic_init stof p = Ok f -> syn_run f (mkLogged m [])
| run_tick f m f' m' : syn_run f m -> Syn_tick f m = Ok (f', m') -> syn_run f' m'
| run_memory f m f' m' : syn_run f m -> memory_tick f m = Ok (f', m') -> syn_run f' m'.

Lemma init_stream_fresh segs banks rows i st :
  init_stream stof p segs banks rows i = Ok st ->
  sc_id (st_cfg st) = i /\ sc_num_requests (st_cfg st) = sp_num_requests p /\
  forall r rows', stream_inv r rows' (st_cfg st) st [].
Proof.
  unfold init_stream. intros Hi. inv_res. cbn. split_and!; try done. intros r rows'. split; cbn; try done; [lia|].
  intros _. exists []. split; [done|constructor].
Qed.

Lemma init_sy_inv f : Synthetic_init stof p = Ok f ->
  sy_inv (sy_recipe f) (sy_rows_per_stream f) (st_cfg <$> sy_s f) f [] /\
  Forall (fun c => sc_num_requests c = sp_num_requests p) (st_cfg <$> sy_s f).
Proof.
  unfold Synthetic_init. intros Hf. case_match; [done|]. apply bind_Ok in Hf as (s & Hs%mapM_Ok & [= <-]). cbn.
  assert (forall i st, s !! i = Some st -> sc_id (st_cfg st) = Z.of_nat i /\ sc_num_requests (st_cfg st) = sp_num_requests p /\
            forall r rows', stream_inv r rows' (st_cfg st) st []) as Hall.
  { intros i st Hl. destruct (Forall2_lookup_r _ _ _ _ _ Hs Hl) as (z & Hz & Hi). apply lookup_seqZ in Hz as [-> _].
    apply init_stream_fresh in Hi. by rewrite Z.add_0_l in Hi. }
  split; [unfold sy_inv; cbn; split_and!; try done|].
  - intros i c Hc. apply list_lookup_fmap_Some in Hc as (st & -> & Hl). by apply Hall.
  - intros i st Hl. destruct (Hall _ _ Hl) as (_ & _ & HS). apply HS.
  - apply Forall_fmap, Forall_lookup. intros i st Hl. by destruct (Hall _ _ Hl) as (_ & ? & _).
Qed.

Lemma syn_run_inv `{!SendKeeps M} f m : syn_run f m ->
  exists f0, Synthetic_init stof p = Ok f0 /\ sy_inv (sy_recipe f0) (sy_rows_per_stream f0) (st_cfg <$> sy_s f0) f (lg_sent m).
Proof.
  induction 1 as [f m Hf|f m f' m' _ (f0 & E0 & IH) Ht|f m f' m' _ (f0 & E0 & IH) Ht].
  - exists f. split; [done|]. by apply init_sy_inv.
  - exists f0. split; [done|]. by eapply Syn_tick_inv.
  - exists f0. split; [done|]. by eapply memory_tick_inv.
Qed.
End runs.

(** ** The theorem *)
Definition comparable {A} (l k : list A) : Prop := l `prefix_of` k \/ k `prefix_of` l.

Section two.
Context (r : Recipe) (rows : Z) (c : StreamConfig) (st1 st2 : Stream) (l1 l2 : list access).
Hypothesis HI1 : stream_inv r rows c st1 l1.
Hypothesis HI2 : stream_inv r rows c st2 l2.

Lemma reads_comparable : comparable (reads_in l1) (reads_in l2).
Proof.
  pose proof HI1 as [_ R1 S1 _ _ _]. pose proof HI2 as [_ R2 S2 _ _ _].
  destruct (Z.le_ge_cases (st_reads_issued st1) (st_reads_issued st2)); 
    [left; apply (read_seq_prefix _ _ _ (st_reads_issued st1) (st_reads_issued st2) _ _ ltac:(lia) S1 S2)
    |right; apply (read_seq_prefix _ _ _ (st_reads_issued st2) (st_reads_issued st1) _ _ ltac:(lia) S2 S1)].
Qed.

Lemma finished_reads st l : stream_inv r rows c st l -> finished st = true -> st_reads_issued st = Z.max 0 (sc_num_requests c).
Proof.
  intros HI Hf. unfold finished in Hf. rewrite (si_cfg _ _ _ _ _ HI) in Hf.
  apply andb_prop in Hf as [[[Hf%Z.leb_le _]%andb_prop _]%andb_prop _]. pose proof (si_range _ _ _ _ _ HI). lia.
Qed.

Lemma reads_equal : finished st1 = true -> finished st2 = true ->
  reads_in l1 = reads_in l2 /\ Z.of_nat (length (reads_in l1)) = Z.max 0 (sc_num_requests c).
Proof.
  intros F1%(finished_reads _ _ HI1) F2%(finished_reads _ _ HI2). pose proof (si_reads _ _ _ _ _ HI1) as S1.
  pose proof (si_reads _ _ _ _ _ HI2) as S2. rewrite F1 in S1. rewrite F2 in S2. split; [congruence|].
  apply read_seq_length in S1. lia.
Qed.

Lemma accesses_comparable : no_rmw c -> comparable l1 l2.
Proof.
  intros Hn. destruct (si_gen _ _ _ _ _ HI1 Hn) as (q1 & _ & G1). destruct (si_gen _ _ _ _ _ HI2 Hn) as (q2 & _ & G2).
  rewrite (si_cfg _ _ _ _ _ HI1) in G1. rewrite (si_cfg _ _ _ _ _ HI2) in G2. by eapply gens_comparable.
Qed.

Lemma finished_stuck st l : stream_inv r rows c st l -> no_rmw c -> finished st = true ->
  exists g, gens r rows c (mkGen 0 [] false) l g /\ stuck r rows c g.
Proof.
  intros HI Hn Hf. unfold finished in Hf. rewrite (si_cfg _ _ _ _ _ HI) in Hf.
  apply andb_prop in Hf as [[[Hf _]%andb_prop Hq%bool_decide_eq_true]%andb_prop Hw%negb_true_iff].
  pose proof (gen_queue _ _ _ _ _ HI Hn Hw) as G. rewrite Hq in G. eexists. split; [exact G|].
  intros x g'. unfold gen_next. cbn. destruct (regime c (st_reads_issued st)) as [ax|]; [|done]. cbn.
  case_match; [done|]. by rewrite Hf.
Qed.

Lemma accesses_equal : no_rmw c -> finished st1 = true -> finished st2 = true -> l1 = l2.
Proof.
  intros Hn F1 F2. destruct (finished_stuck _ _ HI1 Hn F1) as (g1 & G1 & S1). destruct (finished_stuck _ _ HI2 Hn F2) as (g2 & G2 & S2).
  by eapply gens_stuck.
Qed.
End two.

(** C29.  What a stream of the synthetic-pattern frontend sends does not depend on the
    timing of the memory.  In any two runs of the same configuration, over any two
    memory systems that leave the identity of a request alone and with any
    interleaving of frontend and memory ticks, the reads accepted of a stream in one
    run are a prefix of those in the other, and once the stream has finished in both
    they are equal and as many as configured.  If no regime of the stream writes back
    lines it read, the same holds of all its accesses, reads and writes in order. *)
Theorem synthetic_timing_invariant {M1 M2} `{IMemorySystem M1} `{Callbacks M1} `{!SendKeeps M1}
  `{IMemorySystem M2} `{Callbacks M2} `{!SendKeeps M2} stof p f1 (m1 : Logged M1) f2 (m2 : Logged M2) i st1 st2 :
  syn_run stof p f1 m1 -> syn_run stof p f2 m2 -> vget (sy_s f1) i = Ok st1 -> vget (sy_s f2) i = Ok st2 ->
  let l1 := sent_of i (lg_sent m1) in
  let l2 := sent_of i (lg_sent m2) in
  comparable (reads_in l1) (reads_in l2) /\
  (finished st1 = true -> finished st2 = true ->
   reads_in l1 = reads_in l2 /\ Z.of_nat (length (reads_in l1)) = Z.max 0 (sp_num_requests p)) /\
  (no_rmw (st_cfg st1) ->
   comparable l1 l2 /\ (finished st1 = true -> finished st2 = true -> l1 = l2)).
Proof.
  intros R1 R2 G1 G2 l1 l2. destruct (syn_run_inv _ _ _ _ R1) as (f0 & E0 & I1). destruct (syn_run_inv _ _ _ _ R2) as (f0' & E0' & I2).
  rewrite E0 in E0'. injection E0' as <-. destruct (inv_stream _ _ _ _ _ _ _ I1 G1) as [_ S1]. destruct (inv_stream _ _ _ _ _ _ _ I2 G2) as [_ S2].
  destruct I1 as (_ & _ & C1 & _). destruct I2 as (_ & _ & C2 & _). destruct (init_sy_inv _ _ _ E0) as [_ Hn].
  apply vget_Ok in G1 as [_ G1]. apply vget_Ok in G2 as [_ G2].
  assert (st_cfg st2 = st_cfg st1 /\ sc_num_requests (st_cfg st1) = sp_num_requests p) as [Ec En].
  { assert ((st_cfg <$> sy_s f0) !! Z.to_nat i = Some (st_cfg st1)) as L1 by (by rewrite <- C1, list_lookup_fmap, G1).
    assert ((st_cfg <$> sy_s f0) !! Z.to_nat i = Some (st_cfg st2)) as L2 by (by rewrite <- C2, list_lookup_fmap, G2).
    split; [congruence|]. by eapply (Forall_lookup_1 _ _ _ _ Hn). }
  rewrite Ec in S2. split_and!.
  - by eapply reads_comparable.
  - intros F1 F2. rewrite <- En. by eapply reads_equal.
  - intros Hr. split; [by eapply accesses_comparable|]. intros F1 F2. by eapply accesses_equal.
Qed.

(** ** The memory systems keep the identity of a request *)
Definition keeps {A} (f : A -> Request -> result Request) : Prop := forall m q q', f m q = Ok q' -> same_access q q'.

Lemma interleave_keeps : keeps CacheLineInterleave_apply.
Proof. intros m q q' Hq. unfold CacheLineInterleave_apply, set_channel_coord in Hq. repeat case_match; inv_res; done. Qed.

(** [ControllerBase::send]. *)
Lemma controller_send_keeps apply c q ok q' c' :
  (forall q q', apply q = Ok q' -> same_access q q') -> send apply c q = Ok (ok, q', c') -> same_access q q'.
Proof.
  intros Ha Hs. unfold send in Hs. case_match; [done|]. apply bind_Ok in Hs as (q1 & Hq1 & Hs). apply Ha in Hq1 as (E1 & E2 & E3).
  inv_res. repeat case_match; inv_res; simplify_eq; done.
Qed.

Lemma atomic_send_keeps {Md} (predict : Md -> Z -> Request -> Clk_t -> result (Clk_t * Md)) apply a q ok q' a' :
  (forall q q', apply q = Ok q' -> same_access q q') -> Atomic_send predict apply a q = Ok (ok, q', a') -> same_access q q'.
Proof.
  intros Ha Hs. unfold Atomic_send in Hs. case_match; [done|]. case_match; [by simplify_eq|].
  apply bind_Ok in Hs as (q1 & Hq1 & Hs). apply Ha in Hq1 as (E1 & E2 & E3). inv_res. case_match; by inv_res.
Qed.

Lemma system_send_keeps {C Mp} `{IController C} (map_apply : Mp -> Request -> result Request) s q ok q' s' :
  keeps map_apply -> (forall c q ok q' c', c_send c q = Ok (ok, q', c') -> same_access q q') ->
  system_send map_apply s q = Ok (ok, q', s') -> same_access q q'.
Proof.
  intros Hm Hc Hs. unfold system_send in Hs. case_match; [done|]. apply bind_Ok in Hs as (q1 & Hq1 & Hs). apply Hm in Hq1 as (E1 & E2 & E3).
  do 4 (apply bind_Ok in Hs as (? & _ & Hs)). apply bind_Ok in Hs as ([[ok1 q2] c] & Hq2 & Hs). apply Hc in Hq2 as (F1 & F2 & F3). cbn in *.
  apply bind_Ok in Hs as (? & _ & [= <- <- <-]). unfold same_access. destruct ok1; cbn; split_and!; congruence.
Qed.

(** ** On concrete systems

    An atomic controller behind a channel, and a memory that answers after a fixed
    number of ticks. *)
#[export] Instance atomic_system_keeps : SendKeeps (GenericDRAMSystem (Atomic unit) Interleave).
Proof.
  intros m q ok q' m'. apply system_send_keeps; [exact interleave_keeps|]. intros c q1 ok1 q1' c'. apply atomic_send_keeps.
  intros q2 q2' [= ->]. done.
Qed.

Record Delay := mkDelay { dl_latency : Z; dl_now : Clk_t; dl_pending : list Request; dl_done : list Request }.

#[export] Instance Delay_memory : IMemorySystem Delay := {|
  ms_send := fun d q =>
    let q := set_depart (set_arrive q (dl_now d)) (dl_now d + dl_latency d) in
    Ok (true, q, mkDelay (dl_latency d) (dl_now d) (dl_pending d ++ [q]) (dl_done d));
  ms_tick := fun d =>
    let now := dl_now d + 1 in
    Ok (mkDelay (dl_latency d) now (filter (fun q => now < depart q) (dl_pending d))
          (dl_done d ++ filter (fun q => depart q <= now) (dl_pending d)));
  ms_idle_ticks := fun _ => Ok 0;
  ms_fast_forward := fun d _ => Ok d;
  ms_get_tx_bytes := fun _ => 64
|}.
#[export] Instance Delay_callbacks : Callbacks Delay :=
  fun d => (dl_done d, mkDelay (dl_latency d) (dl_now d) (dl_pending d) []).
#[export] Instance Delay_keeps : SendKeeps Delay.
Proof. by intros m q ok q' m' [= <- <- <-]. Qed.

(** Two streams of four reads; [overrides] is regime B, three of four reads bring a write. *)
Definition no_stof (_ : string) : result spec_float := Err (Throw "stof").
Definition syn_axes (mode batch : Z) : Axes := mkAxes 2 0 0 4 2 false false (S754_zero false) 75 mode batch 0 0 0 40.
Definition syn_params (mode batch switch : Z) (mode_b : string) : SynParams :=
  mkSynParams 2 4 EmptyString (syn_axes mode batch) switch mode_b 1 false small_recipe.

Definition syn_fail : Synthetic := mkSynthetic small_recipe 0 0 [] 0 0 0 0 (S754_zero false) 0 0.
Definition syn0 (p : SynParams) : Synthetic := match Synthetic_init no_stof p with Ok f => f | Err _ => syn_fail end.

(** [n] ticks of the frontend, each followed by one of the memory. *)
Fixpoint syn_drive {M} `{IMemorySystem M} `{Callbacks M} (n : nat) (f : Synthetic) (m : Logged M) : result (Synthetic * Logged M) :=
  match n with
  | O => Ok (f, m)
  | S n => fm ← Syn_tick f m; fm ← memory_tick fm.1 fm.2; syn_drive n fm.1 fm.2
  end.

Lemma syn_drive_run {M} `{IMemorySystem M} `{Callbacks M} p n f (m : Logged M) f' m' :
  syn_run no_stof p f m -> syn_drive n f m = Ok (f', m') -> syn_run no_stof p f' m'.
Proof.
  revert f m. induction n as [|n IH]; intros f m Hr Hd; cbn in Hd; [by simplify_eq|].
  apply bind_Ok in Hd as ([f1 m1] & H1 & Hd). apply bind_Ok in Hd as ([f2 m2] & H2 & Hd).
  eapply IH; [|exact Hd]. eapply run_memory; [|exact H2]. by eapply run_tick.
Qed.

Definition log_after {M} `{IMemorySystem M} `{Callbacks M} (p : SynParams) (n : nat) (m : M) (i : Z) : result (bool * list access) :=
  fm ← syn_drive n (syn0 p) (mkLogged m []);
  st ← vget (sy_s fm.1) i;
  Ok (finished st, sent_of i (lg_sent fm.2)).
Definition delay (n : Z) : Delay := mkDelay n 0 [] [].

Definition after {M} `{IMemorySystem M} `{Callbacks M} (p : SynParams) (n : nat) (m : M) : Synthetic * Logged M :=
  match syn_drive n (syn0 p) (mkLogged m []) with Ok fm => fm | Err _ => (syn_fail, mkLogged m []) end.

Lemma after_run {M} `{IMemorySystem M} `{Callbacks M} p n (m : M) f l :
  Synthetic_init no_stof p = Ok (syn0 p) -> syn_drive n (syn0 p) (mkLogged m []) = Ok (f, l) -> syn_run no_stof p f l.
Proof. intros Hi Hd. eapply syn_drive_run; [|exact Hd]. by constructor. Qed.

Lemma synthetic_timing_invariant_witness :
  let p := syn_params 2 1 0 EmptyString in
  let r1 := after p 300 atomic_memory in
  let r2 := after p 60 (delay 3) in
  sent_of 0 (lg_sent r1.2) = sent_of 0 (lg_sent r2.2) /\ (length (sent_of 0 (lg_sent r2.2)) = 6)%nat.
Proof.
  intros p r1 r2.
  assert (syn_run no_stof p r1.1 r1.2) as R1 by (eapply (after_run p 300 atomic_memory); vm_compute; reflexivity).
  assert (syn_run no_stof p r2.1 r2.2) as R2 by (eapply (after_run p 60 (delay 3)); vm_compute; reflexivity).
  assert (exists st, vget (sy_s r1.1) 0 = Ok st /\ finished st = true /\ no_rmw (st_cfg st)) as (st1 & G1 & F1 & N1)
    by (eexists; split; [vm_compute; reflexivity|]; split; [vm_compute; reflexivity|]; split; vm_compute; discriminate).
  assert (exists st, vget (sy_s r2.1) 0 = Ok st /\ finished st = true) as (st2 & G2 & F2)
    by (eexists; split; vm_compute; reflexivity).
  destruct (synthetic_timing_invariant no_stof p r1.1 r1.2 r2.1 r2.2 0 st1 st2 R1 R2 G1 G2) as (_ & _ & Hall).
  split; [exact (proj2 (Hall N1) F1 F2)|]. vm_compute. reflexivity.
Defined.

(** A line is written back according to the regime at the time its read completes:
    the writes depend on the latency of the memory. *)
Lemma rmw_writes_depend_on_timing :
  let p := syn_params 1 1 2 "wb_mode=0" in
  log_after p 60 (delay 1) 0 = Ok (true, [(Read, 0); (Write, 0); (Read, 8192); (Read, 1); (Read, 8193)]) /\
  log_after p 60 (delay 10) 0 = Ok (true, [(Read, 0); (Read, 8192); (Read, 1); (Read, 8193)]).
Proof. split; vm_compute; reflexivity. Qed.

(** A batch of zero writes takes the front of an empty queue. *)
Lemma empty_batch_undefined : Syn_tick (syn0 (syn_params 2 0 0 EmptyString)) (delay 1) = Err Undef.
Proof. vm_compute. reflexivity. Qed.
