(* ===== verification/Envelope.v ===== *)
(** * An atomic latency model behind the controller

    The model interface [controller/atomic_model/api.h], how
    [AtomicModelController::init_model] and [AtomicControllerBase] fill it in, and the
    model [ServiceEnvelope] of [results/models/astra_single_core/model.cpp], which
    predicts departures from fluid workloads of banks, bank groups, ranks and
    channels in binary64.  [stod] is the conversion of text to [double], with
    whether it used up the text. *)

From Stdlib Require Import ZArith Lia SpecFloat Ascii String.
From stdpp Require Import pretty.
From S2P Require Import Prelude Base Spec Node Standards Device Controller MemSystem Latency.

Local Open Scope string_scope.
Local Open Scope list_scope.
Local Open Scope Z_scope.

(** ** The interface *)
Record Hardware := mkHardware {
  hw_standard : string;
  hw_level_names : list string;
  hw_level_sizes : list Z;
  hw_timings : gmap string Z;
  hw_read_latency : Z;
  hw_tck_ps : Z;
  hw_transaction_bytes : Z;
  hw_channel_width : Z;
  hw_device_width : Z;
  hw_internal_prefetch_size : Z;
  hw_read_capacity : Z;
  hw_write_capacity : Z;
  hw_write_low_watermark : spec_float;
  hw_write_high_watermark : spec_float
}.

Fixpoint find_level (name : string) (l : list string) (i : Z) : option Z :=
  match l with
  | [] => None
  | x :: l => if bool_decide (x = name) then Some i else find_level name l (i + 1)
  end.

Definition level_index (h : Hardware) (name : string) : result Z :=
  match find_level name (hw_level_names h) 0 with
  | Some i => Ok i
  | None => Err (Throw ("Unknown DRAM level: " +:+ name))
  end.

(** Overrides in the order of their names, and the names that were asked for. *)
Record Parameters := mkParameters { pm_overrides : list (string * spec_float); pm_used : gset string }.

Definition f64_isfinite (x : spec_float) : bool := match x with S754_zero _ | S754_finite _ _ _ => true | _ => false end.
Definition is_digit (c : ascii) : bool := let n := Z.of_N (N_of_ascii c) in (48 <=? n) && (n <=? 57).
Definition is_name_char (c : ascii) : bool :=
  let n := Z.of_N (N_of_ascii c) in
  is_digit c || (97 <=? n) && (n <=? 122) || (65 <=? n) && (n <=? 90) || (n =? 95).
Definition bad_name (name : string) : bool :=
  match name with
  | EmptyString => true
  | String c _ => is_digit c || negb (forallb is_name_char (list_ascii_of_string name))
  end.

Definition override (p : Parameters) (name : string) : option spec_float :=
  snd <$> find (fun e => bool_decide (e.1 = name)) (pm_overrides p).

Definition number (p : Parameters) (name : string) (fallback minimum maximum : spec_float) : result (spec_float * Parameters) :=
  if bad_name name || negb (f64_isfinite fallback) || negb (f64_isfinite minimum) || negb (f64_isfinite maximum) ||
     SFltb maximum minimum || SFltb fallback minimum || SFltb maximum fallback
  then Err (Throw ("Invalid atomic model parameter declaration: " +:+ name))
  else
    let value := default fallback (override p name) in
    if negb (f64_isfinite value) || SFltb value minimum || SFltb maximum value
    then Err (Throw ("Atomic model parameter outside its declared range: " +:+ name))
    else Ok (value, mkParameters (pm_overrides p) ({[name]} ∪ pm_used p)).

Definition require_all_used (p : Parameters) : result unit :=
  foldM (fun _ e => if bool_decide (e.1 ∈ pm_used p) then Ok () else Err (Throw ("Unknown atomic model parameter: " +:+ e.1)))
    () (pm_overrides p).

(** ** The overrides of the configuration *)

(** [std::map::emplace] into the sorted list; [None] if the name is there. *)
Fixpoint map_emplace (name : string) (v : spec_float) (l : list (string * spec_float)) : option (list (string * spec_float)) :=
  match l with
  | [] => Some [(name, v)]
  | e :: l' =>
      match String.compare name e.1 with
      | Lt => Some ((name, v) :: l)
      | Eq => None
      | Gt => cons e <$> map_emplace name v l'
      end
  end.

Definition parse_model_parameter (stod : string -> result (spec_float * bool)) (ps : list (string * spec_float)) (entry : string)
  : result (list (string * spec_float)) :=
  match String.index 0 "=" entry with
  | None | Some O => Err (Throw "Atomic model_parameters entries must be name=value")
  | Some equal =>
      let name := substring 0 equal entry in
      v ← stod (substring (equal + 1) (String.length entry - (equal + 1)) entry);
      let bad := Err (Throw ("Invalid or duplicate Atomic model parameter: " +:+ name)) in
      if negb v.2 || negb (f64_isfinite v.1) then bad
      else match map_emplace name v.1 ps with Some ps => Ok ps | None => bad end
  end.

Definition parse_model_parameters (stod : string -> result (spec_float * bool)) (entries : list string)
  : result (list (string * spec_float)) := foldM (parse_model_parameter stod) [] entries.

(** ** The model *)
Record RecentRow := mkRecent { rr_row : Z; rr_seen : spec_float }.

Record EnvBank := mkEnvBank {
  eb_recent : list RecentRow;
  eb_row : Z;
  eb_class_row : Z * Z;
  eb_ready : spec_float;
  eb_read_run_work : spec_float;
  eb_last_arrival : spec_float;
  eb_last_row_cost : spec_float;
  eb_last_kind : Z
}.

Record EnvChannel := mkEnvChannel { ec_work : spec_float; ec_transfer_work : spec_float; ec_mixed : bool }.

(** What [initialize] computes. *)
Record EnvParams := mkEnvParams {
  ep_base : spec_float;
  ep_rcd : spec_float;
  ep_rp : spec_float;
  ep_rc : spec_float;
  ep_ccd : spec_float;
  ep_burst : spec_float;
  ep_rtp : spec_float;
  ep_write_recovery : spec_float;
  ep_write_to_read : spec_float;
  ep_bank_scale : spec_float;
  ep_bus_scale : spec_float;
  ep_overhead : spec_float;
  ep_write_tax : spec_float;
  ep_activation_service : spec_float;
  ep_group_activation_service : spec_float
}.

Record EnvLevels := mkEnvLevels {
  el_bank : Z;
  el_row : Z;
  el_channel : Z;
  el_rank : Z;
  el_ranks_per_channel : Z;
  el_banks_per_group : Z
}.

Record Envelope := mkEnvelope {
  en_hw : Hardware;
  en_levels : EnvLevels;
  en_params : EnvParams;
  en_banks : list EnvBank;
  en_channels : list EnvChannel;
  en_groups : list spec_float;
  en_activation_work : list spec_float;
  en_group_activation_work : list spec_float
}.

(** Arithmetic of [double]. *)
Definition f64_max (a b : spec_float) : spec_float := if SFltb a b then b else a.
Definition f64_min (a b : spec_float) : spec_float := if SFltb b a then b else a.
Definition f64_max3 (a b c : spec_float) : spec_float := f64_max (f64_max a b) c.
Definition f64_clamp (v lo hi : spec_float) : spec_float := if SFltb v lo then lo else if SFltb hi v then hi else v.
Definition f64_0 : spec_float := S754_zero false.
Definition f64_1 : spec_float := f64_of_Z 1.
Definition f64_neg_1e30 : spec_float := S754_finite true 7105427357601002 47.
Definition f64_08 : spec_float := S754_finite false 7205759403792794 (-53).
Definition f64_025 : spec_float := S754_finite false 4503599627370496 (-54).

(** [Cycle(std::ceil(x))]. *)
Definition f64_ceil_s64 (x : spec_float) : result Z :=
  match x with
  | S754_zero _ => Ok 0
  | S754_finite s m e =>
      let v := if (s : bool) then Z.neg m else Z.pos m in
      let v := - Z.shiftl (- v) e in
      if in_s64 v then Ok v else Err Undef
  | _ => Err Undef
  end.

Definition fresh_env_bank : EnvBank :=
  mkEnvBank (replicate 8 (mkRecent (-1) f64_neg_1e30)) (-1) (-1, -1) f64_neg_1e30 f64_0 f64_neg_1e30 f64_0 (-1).
Definition fresh_env_channel : EnvChannel := mkEnvChannel f64_0 f64_0 false.

Definition env_timing (h : Hardware) (key : string) (fallback : spec_float) : spec_float :=
  match hw_timings h !! key with Some v => f64_of_Z v | None => fallback end.

(** [std::vector::resize]: a negative [int] is a size beyond the limit. *)
Definition level_product (h : Hardware) (lo hi : Z) : result Z :=
  foldM (fun n i => k ← vget (hw_level_sizes h) i; s32 (n * k)) 1 (seqZ (lo + 1) (hi - lo)).

Definition env_params (h : Hardware) (p : Parameters) : result (EnvParams * Parameters) :=
  let t := env_timing h in
  let base := f64_of_Z (hw_read_latency h) in
  let rcd := t "nRCD" (f64_mul base f64_08) in
  let rp := t "nRP" rcd in
  let rc := t "nRC" (f64_add (f64_add rcd rp) rcd) in
  let ccd := t "nCCDL" (t "nCCD_L" (t "nBL" (f64_of_Z 8))) in
  let burst := t "nBL" (f64_of_Z 8) in
  let act := f64_max (t "nRRDS" (t "nRRD_S" burst)) (f64_div (t "nFAW" (f64_mul (f64_of_Z 4) burst)) (f64_of_Z 4)) in
  let gact := t "nRRDL" (t "nRRD_L" act) in
  let rtp := t "nRTP" ccd in
  let cwl := t "nCWL" (f64_sub base burst) in
  let write_recovery := f64_add (f64_add (f64_add (f64_add cwl burst) (t "nWR" (f64_mul rcd (f64_of_Z 2)))) rp) rcd in
  let write_to_read := f64_add (f64_add cwl burst) (t "nWTRL" (t "nWTR_L" ccd)) in
  q ← number p "bank_scale" f64_1 f64_025 (f64_of_Z 2);
  let '(bank_scale, p) := q in
  q ← number p "bus_scale" f64_1 f64_025 (f64_of_Z 3);
  let '(bus_scale, p) := q in
  q ← number p "admission_overhead" f64_1 f64_0 (f64_of_Z 8);
  let '(overhead, p) := q in
  q ← number p "write_batch" (f64_of_Z 12) f64_1 (f64_of_Z 128);
  let '(batch, p) := q in
  let write_tax := f64_div (f64_add (t "nRTW" base) (t "nWTRL" (t "nWTR_L" ccd))) batch in
  Ok (mkEnvParams base rcd rp rc ccd burst rtp write_recovery write_to_read bank_scale bus_scale overhead write_tax act gact, p).

Definition initialize (h : Hardware) (p : Parameters) : result (Envelope * Parameters) :=
  bank ← level_index h "Bank";
  row ← level_index h "Row";
  channel ← level_index h "Channel";
  _ ← level_index h "BankGroup";
  rank ← level_index h "Rank";
  ranks ← vget (hw_level_sizes h) rank;
  chs ← vget (hw_level_sizes h) channel;
  n ← s32 (chs * ranks);
  act ← vec_make n f64_0;
  per_group ← vget (hw_level_sizes h) bank;
  per_channel ← level_product h channel bank;
  groups ← quot_s per_channel per_group;
  n ← s32 (chs * per_channel);
  banks ← vec_make n fresh_env_bank;
  n ← s32 (chs * groups);
  gs ← vec_make n f64_0;
  channels ← vec_make chs fresh_env_channel;
  q ← env_params h p;
  Ok (mkEnvelope h (mkEnvLevels bank row channel rank ranks per_group) q.1 banks channels gs act gs, q.2).

(** ** Prediction *)

(** The slot of a row among the recent ones, or the one seen longest ago; [fresh]
    judges a row that is found. *)
Fixpoint scan_recent (fresh : spec_float -> bool) (row : Z) (l : list RecentRow) (i slot : nat) (oldest : spec_float) : bool * nat :=
  match l with
  | [] => (false, slot)
  | x :: l =>
      if rr_row x =? row then (fresh (rr_seen x), i)
      else if SFltb (rr_seen x) oldest then scan_recent fresh row l (S i) i (rr_seen x)
      else scan_recent fresh row l (S i) slot oldest
  end.

(** How the access relates to the rows of its bank. *)
Record Locality := mkLocality {
  lo_hit : bool;
  lo_row_cost : spec_float;
  lo_class_hit : bool;
  lo_backlog : spec_float;
  lo_batch_hit : bool;
  lo_slot : nat
}.

Definition locality (p : EnvParams) (b : EnvBank) (row : Z) (kind : bool) (now : spec_float) : Locality :=
  let cold := eb_row b <? 0 in
  let hit := eb_row b =? row in
  let row_cost := if hit then f64_0
                  else f64_add (ep_rcd p) (if cold then f64_0 else f64_max f64_0 (f64_sub (ep_rp p) (ep_overhead p))) in
  let class_hit := hit || ((if kind then (eb_class_row b).2 else (eb_class_row b).1) =? row) in
  let backlog := f64_max f64_0 (f64_sub (eb_ready b) now) in
  let fresh seen := SFltb (ep_ccd p) backlog && SFltb (f64_sub now seen) (f64_max (ep_rc p) backlog) in
  let '(batch_hit, slot) := scan_recent fresh row (eb_recent b) 0 0 (default f64_0 (rr_seen <$> head (eb_recent b))) in
  mkLocality hit row_cost class_hit backlog batch_hit slot.

(** The service demand on the bank. *)
Definition service_of (p : EnvParams) (b : EnvBank) (k : Locality) (kind : bool) (now : spec_float) : spec_float :=
  let row_service := if eb_last_kind b =? 0
                     then f64_max (f64_sub (ep_rc p) (eb_read_run_work b)) (f64_add (f64_add (ep_rtp p) (ep_rp p)) (ep_rcd p))
                     else ep_rc p in
  let service := if lo_class_hit k || lo_batch_hit k then (if kind then f64_mul (f64_of_Z 2) (ep_ccd p) else ep_ccd p)
                 else row_service in
  let excess := f64_max f64_0 (f64_sub (lo_backlog k) (lo_row_cost k)) in
  let service :=
    if (eb_last_kind b =? 1) && negb (lo_hit k) then
      let in_service := f64_div (ep_rc p) (f64_add (ep_rc p) excess) in
      let age := f64_sub now (eb_last_arrival b) in
      let ramp := f64_max f64_1 (if SFeqb (eb_last_row_cost b) f64_0 then f64_1 else ep_burst p) in
      let started := f64_clamp (f64_div (f64_sub age (f64_max f64_0 (f64_sub (eb_last_row_cost b) (ep_rcd p)))) ramp) f64_0 f64_1 in
      f64_max service (f64_mul (f64_mul in_service started) (ep_write_recovery p))
    else service in
  if negb kind && (eb_last_kind b =? 1) && lo_hit k && SFltb (eb_last_arrival b) now then
    let confidence := f64_clamp (f64_sub f64_1 (f64_div excess (ep_rc p))) f64_0 f64_1 in
    f64_max service (f64_mul confidence (ep_write_to_read p))
  else service.

(** The bank after the access but for [ready] and [row]. *)
Definition note_access (p : EnvParams) (b : EnvBank) (k : Locality) (row : Z) (kind : bool) (now : spec_float) : EnvBank :=
  let run := if negb kind && (eb_last_kind b =? 0) && lo_hit k
             then f64_min (ep_rc p) (f64_add (eb_read_run_work b) (f64_max (ep_ccd p) (f64_sub now (eb_ready b))))
             else f64_0 in
  mkEnvBank (<[lo_slot k := mkRecent row now]> (eb_recent b)) (eb_row b)
    (if kind then ((eb_class_row b).1, row) else (row, (eb_class_row b).2))
    (eb_ready b) run now (lo_row_cost k) (if kind then 1 else 0).

(** The end of the access: its service position, and the age of the row. *)
Definition finish_access (p : EnvParams) (b : EnvBank) (row : Z) (kind : bool) (now wait ready : spec_float) : EnvBank :=
  let run := if kind then eb_read_run_work b
             else f64_min (ep_rc p) (f64_add (eb_read_run_work b) (f64_max f64_0 (f64_sub (f64_add now wait) ready))) in
  mkEnvBank (eb_recent b) row (eb_class_row b) (f64_add now wait) run (eb_last_arrival b) (eb_last_row_cost b) (eb_last_kind b).

(** Rank and bank-group activation work of a new row. *)
Definition activation (en : Envelope) (ai gi : Z) (now : spec_float) : result (spec_float * Envelope) :=
  let p := en_params en in
  aw ← vget (en_activation_work en) ai;
  gaw ← vget (en_group_activation_work en) gi;
  let wait := f64_max3 f64_0 (f64_sub aw now) (f64_sub gaw now) in
  aws ← vset (en_activation_work en) ai (f64_add (f64_max now aw) (ep_activation_service p));
  gaws ← vset (en_group_activation_work en) gi (f64_add (f64_max now gaw) (ep_group_activation_service p));
  Ok (wait, mkEnvelope (en_hw en) (en_levels en) p (en_banks en) (en_channels en) (en_groups en) aws gaws).

(** The flat index of the bank. *)
Definition bank_index (en : Envelope) (levels : list Z) : result Z :=
  let l := en_levels en in
  ch ← vget levels (el_channel l);
  foldM (fun bi i =>
           n ← vget (hw_level_sizes (en_hw en)) i;
           t ← s32 (bi * n);
           x ← vget levels i;
           s32 (t + x))
    ch (seqZ (el_channel l + 1) (el_bank l - el_channel l)).

(** The wait of an access, and the workloads after it. *)
Definition env_wait (en : Envelope) (a : Access) (now : spec_float) : result (spec_float * Envelope) :=
  let l := en_levels en in
  let p := en_params en in
  ch ← vget (ax_addr_vec a) (el_channel l);
  bi ← bank_index en (ax_addr_vec a);
  gi ← quot_s bi (el_banks_per_group l);
  b ← vget (en_banks en) bi;
  c ← vget (en_channels en) ch;
  let mixed := if SFleb (ec_work c) now then false else ec_mixed c in
  row ← vget (ax_addr_vec a) (el_row l);
  let kind := negb (ax_is_read a) in
  let k := locality p b row kind now in
  let service := service_of p b k kind now in
  let b1 := note_access p b k row kind now in
  t ← (if lo_class_hit k || lo_batch_hit k then Ok (f64_0, en)
       else
         x ← vget (ax_addr_vec a) (el_rank l);
         ai ← s32 (ch * el_ranks_per_channel l);
         ai ← s32 (ai + x);
         activation en ai gi now);
  let '(activation_wait, en) := t in
  let ready := f64_max (f64_add (f64_add now (lo_row_cost k)) activation_wait)
                       (f64_add (eb_ready b1) (f64_mul service (ep_bank_scale p))) in
  let shared := if negb kind && lo_hit k && SFleb ready now && negb mixed then ec_transfer_work c else ec_work c in
  g ← vget (en_groups en) gi;
  let wait := f64_max3 (f64_sub ready now) (f64_max f64_0 (f64_sub shared now)) (f64_max f64_0 (f64_sub g now)) in
  let transfer := f64_mul (f64_add (ep_burst p) (if kind then ep_write_tax p else f64_0)) (ep_bus_scale p) in
  let c1 := mkEnvChannel (f64_add (f64_max (f64_add now (lo_row_cost k)) (ec_work c)) transfer)
              (f64_add (f64_max now (ec_transfer_work c)) transfer) (mixed || kind) in
  let g1 := f64_add (f64_max now g) (f64_mul (f64_mul (ep_ccd p) (if kind then f64_of_Z 2 else f64_1)) (ep_bus_scale p)) in
  chs ← vset (en_channels en) ch c1;
  gs ← vset (en_groups en) gi g1;
  bs ← vset (en_banks en) bi (finish_access p b1 row kind now wait ready);
  Ok (wait, mkEnvelope (en_hw en) l p bs chs gs (en_activation_work en) (en_group_activation_work en)).

Definition env_predict (en : Envelope) (a : Access) (now : Clk_t) : result (Clk_t * Envelope) :=
  t ← env_wait en a (f64_of_Z now);
  let '(wait, en) := t in
  let p := en_params en in
  d ← f64_ceil_s64 (f64_add (f64_add (ep_base p) (ep_overhead p)) wait);
  Ok (now + Z.max 1 d, en).

(** ** In the controller *)

(** [AtomicModelController::init_model] with the factory of this model. *)
Definition hardware_of (spec : DRAMSpec) (latency tck : Z) (cfg : AtomicConfig) : result Hardware :=
  ts ← mapM (fun it : string * Z =>
                match vget (timing_vals spec) it.2 with
                | Ok v => Ok (it.1, v)
                | Err _ => Err (Throw "vector::_M_range_check")
                end) (map_to_list (timings spec));
  Ok (mkHardware (standard_name spec) (level_names spec) (level_sizes (organization spec)) (list_to_map ts) latency tck
        (get_tx_bytes spec) (channel_width spec) (dq (organization spec)) (internal_prefetch_size spec)
        (ac_read_buffer_size cfg) (ac_write_buffer_size cfg) (ac_wr_low_watermark cfg) (ac_wr_high_watermark cfg)).

Definition Envelope_init_model (cfg : AtomicConfig) (overrides : list (string * spec_float)) (spec : DRAMSpec) (latency : Z)
  : result Envelope :=
  tck ← get_timing_value spec "tCK_ps";
  h ← hardware_of spec latency tck cfg;
  q ← initialize h (mkParameters overrides ∅);
  _ ← require_all_used q.2;
  Ok q.1.

(** A controller with this model. *)
Definition Envelope_controller_init (cfg : AtomicConfig) (overrides : list (string * spec_float)) : result (Atomic Envelope) :=
  Atomic_init (Envelope_init_model cfg overrides) cfg.

Definition Envelope_send (apply : Request -> result Request) : Atomic Envelope -> Request -> result (bool * Request * Atomic Envelope) :=
  Atomic_send (AtomicModelController_predict env_predict) apply.
