(* ===== verification/EnvelopeProps.v ===== *)
(** * The latency model stays within its workloads on channel 0 only

    Every array the model of [Envelope] indexes is in range for the accesses of
    channel 0, whatever was predicted before; on every other channel the first
    prediction is out of range, because the specification a controller hands to its
    model has a single channel while the access carries the number of the channel. *)

From Stdlib Require Import ZArith Lia SpecFloat.
From S2P Require Import Prelude Base Spec Node Commands Standards Device Controller MemSystem Latency Envelope.
From S2P Require Import ActiveProps CtrlExamples.

Local Open Scope Z_scope.

(** ** Shape of the model *)

(** [nr] ranks of [ng] bank groups of [nb] banks. *)
Record env_shape (nr ng nb : Z) (en : Envelope) : Prop := {
  es_pos : 0 < nr /\ 0 < ng /\ 0 < nb /\ nr * ng * nb < 2 ^ 31;
  es_levels : en_levels en = mkEnvLevels 3 4 0 1 nr nb;
  es_sizes : vget (hw_level_sizes (en_hw en)) 1 = Ok nr /\ vget (hw_level_sizes (en_hw en)) 2 = Ok ng /\
             vget (hw_level_sizes (en_hw en)) 3 = Ok nb;
  es_banks : Z.of_nat (length (en_banks en)) = nr * ng * nb;
  es_channels : length (en_channels en) = 1%nat;
  es_groups : Z.of_nat (length (en_groups en)) = nr * ng;
  es_group_activation : Z.of_nat (length (en_group_activation_work en)) = nr * ng;
  es_activation : Z.of_nat (length (en_activation_work en)) = nr
}.

(** An access on a channel, at a place of the device. *)
Definition placed (nr ng nb ch : Z) (levels : list Z) : Prop :=
  exists rank group bank row rest, levels = ch :: rank :: group :: bank :: row :: rest /\
    0 <= rank < nr /\ 0 <= group < ng /\ 0 <= bank < nb.

Section shape.
Context (nr ng nb : Z) (en : Envelope).
Hypothesis HS : env_shape nr ng nb en.

Lemma bank_index_eq ch rank group bank row rest :
  bank_index en (ch :: rank :: group :: bank :: row :: rest) =
  (t ← s32 (ch * nr); b ← s32 (t + rank); t ← s32 (b * ng); b ← s32 (t + group); t ← s32 (b * nb); s32 (t + bank)).
Proof.
  destruct HS as [_ Hl (H1 & H2 & H3) _ _ _ _ _]. unfold bank_index. rewrite Hl. cbn [el_channel el_bank].
  change (vget (ch :: rank :: group :: bank :: row :: rest) 0) with (Ok ch). cbn [mbind result_bind].
  change (seqZ (0 + 1) (3 - 0)) with [1; 2; 3]. cbn [foldM]. rewrite H1, H2, H3. cbn [mbind result_bind].
  change (vget (ch :: rank :: group :: bank :: row :: rest) 1) with (Ok rank).
  change (vget (ch :: rank :: group :: bank :: row :: rest) 2) with (Ok group).
  change (vget (ch :: rank :: group :: bank :: row :: rest) 3) with (Ok bank). cbn [mbind result_bind].
  destruct (s32 (ch * nr)) as [t|]; [|done]. cbn [mbind result_bind]. destruct (s32 (t + rank)) as [b|]; [|done]. cbn [mbind result_bind].
  destruct (s32 (b * ng)) as [t2|]; [|done]. cbn [mbind result_bind]. destruct (s32 (t2 + group)) as [b2|]; [|done]. cbn [mbind result_bind].
  destruct (s32 (b2 * nb)) as [t3|]; [|done]. cbn [mbind result_bind]. by destruct (s32 (t3 + bank)).
Qed.

Lemma s32_in v : - 2 ^ 31 <= v < 2 ^ 31 -> s32 v = Ok v.
Proof. intros Hv. unfold s32. destruct (Z.leb_spec (- 2 ^ 31) v); [|lia]. by destruct (Z.ltb_spec v (2 ^ 31)); [|lia]. Qed.

Lemma s32_cases v : s32 v = Ok v \/ s32 v = Err Undef.
Proof. unfold s32. case_match; auto. Qed.

Lemma bank_index_in rank group bank row rest :
  0 <= rank < nr -> 0 <= group < ng -> 0 <= bank < nb ->
  exists bi, bank_index en (0 :: rank :: group :: bank :: row :: rest) = Ok bi /\ 0 <= bi < nr * ng * nb /\ 0 <= Z.quot bi nb < nr * ng.
Proof.
  intros Hr Hg Hb. pose proof (es_pos _ _ _ _ HS) as (P1 & P2 & P3 & P4).
  assert (0 <= rank * ng + group < nr * ng) as B1 by nia. assert (0 <= (rank * ng + group) * nb + bank < nr * ng * nb) as B2 by nia.
  assert (nr * ng <= nr * ng * nb) by nia. assert (nr <= nr * ng) by nia.
  exists ((rank * ng + group) * nb + bank). split_and!; [|lia|lia| |].
  - rewrite bank_index_eq. rewrite (s32_in (0 * nr)) by lia. cbn [mbind result_bind]. rewrite (s32_in (0 * nr + rank)) by lia. cbn [mbind result_bind].
    replace (0 * nr + rank) with rank by lia. rewrite (s32_in (rank * ng)) by nia. cbn [mbind result_bind].
    rewrite (s32_in (rank * ng + group)) by lia. cbn [mbind result_bind]. rewrite (s32_in ((rank * ng + group) * nb)) by nia.
    cbn [mbind result_bind]. by rewrite s32_in by lia.
  - rewrite Z.quot_div_nonneg by lia. apply Z.div_pos; lia.
  - rewrite Z.quot_div_nonneg by lia. apply Z.div_lt_upper_bound; nia.
Qed.

(** Beyond channel 0 the index is past the end, or overflows. *)
Lemma bank_index_out ch rank group bank row rest bi :
  1 <= ch -> 0 <= rank -> 0 <= group -> 0 <= bank ->
  bank_index en (ch :: rank :: group :: bank :: row :: rest) = Ok bi -> nr * ng * nb <= bi.
Proof.
  intros Hc Hr Hg Hb. pose proof (es_pos _ _ _ _ HS) as (P1 & P2 & P3 & _). rewrite bank_index_eq. intros H.
  repeat match goal with
  | H : (s32 ?v ≫= _) = Ok _ |- _ => destruct (s32_cases v) as [E|E]; rewrite E in H; [cbn [mbind result_bind] in H|done]; clear E
  end.
  destruct (s32_cases (((ch * nr + rank) * ng + group) * nb + bank)) as [E|E]; rewrite E in H; [|done]. injection H as <-.
  assert (nr <= ch * nr + rank) by nia. assert (nr * ng <= (ch * nr + rank) * ng + group) by nia. nia.
Qed.

Lemma bank_index_undef ch rank group bank row rest e :
  bank_index en (ch :: rank :: group :: bank :: row :: rest) = Err e -> e = Undef.
Proof.
  rewrite bank_index_eq. intros H.
  repeat match goal with
  | H : (s32 ?v ≫= _) = Err _ |- _ => destruct (s32_cases v) as [E|E]; rewrite E in H; [cbn [mbind result_bind] in H|by injection H as <-]; clear E
  end.
  destruct (s32_cases (((ch * nr + rank) * ng + group) * nb + bank)) as [E|E]; rewrite E in H; [done|by injection H as <-].
Qed.

Lemma activation_ok ai gi now :
  0 <= ai < nr -> 0 <= gi < nr * ng ->
  exists w en', activation en ai gi now = Ok (w, en') /\ env_shape nr ng nb en' /\ en_params en' = en_params en /\
    en_banks en' = en_banks en /\ en_channels en' = en_channels en /\ en_groups en' = en_groups en /\ en_hw en' = en_hw en.
Proof.
  intros Ha Hg. destruct HS as [H1 H2 H3 H4 H5 H6 H7 H8]. unfold activation.
  destruct (vget_in_range (en_activation_work en) ai ltac:(lia)) as [aw ->]. cbn [mbind result_bind].
  destruct (vget_in_range (en_group_activation_work en) gi ltac:(lia)) as [gaw ->]. cbn [mbind result_bind].
  destruct (vset_total (en_activation_work en) ai (f64_add (f64_max now aw) (ep_activation_service (en_params en))) ltac:(lia)) as [aws Haw].
  rewrite Haw. cbn [mbind result_bind].
  destruct (vset_total (en_group_activation_work en) gi (f64_add (f64_max now gaw) (ep_group_activation_service (en_params en))) ltac:(lia))
    as [gaws Hgaw]. rewrite Hgaw. cbn [mbind result_bind].
  eexists _, _. split; [done|]. split; [|done]. apply vset_length in Haw, Hgaw. split; cbn; try done; lia.
Qed.

(** On channel 0 every index is in range. *)
Lemma env_wait_ok a now :
  placed nr ng nb 0 (ax_addr_vec a) ->
  exists w en', env_wait en a now = Ok (w, en') /\ env_shape nr ng nb en' /\ en_params en' = en_params en.
Proof.
  intros (rank & group & bank & row & rest & El & Hr & Hg & Hb). destruct (bank_index_in rank group bank row rest Hr Hg Hb) as (bi & Hbi & Bb & Bg).
  pose proof (es_pos _ _ _ _ HS) as (P1 & P2 & P3 & P4). unfold env_wait. rewrite El, (es_levels _ _ _ _ HS). cbn [el_channel el_row el_rank el_banks_per_group el_ranks_per_channel].
  change (vget (0 :: rank :: group :: bank :: row :: rest) 0) with (Ok 0). cbn [mbind result_bind]. rewrite Hbi. cbn [mbind result_bind].
  assert (quot_s bi nb = Ok (Z.quot bi nb)) as ->.
  { unfold quot_s. destruct (Z.eqb_spec nb 0); [lia|]. apply s32_in. nia. }
  cbn [mbind result_bind]. destruct (vget_in_range (en_banks en) bi) as [b ->]; [rewrite (es_banks _ _ _ _ HS); lia|]. cbn [mbind result_bind].
  destruct (vget_in_range (en_channels en) 0) as [c ->]; [rewrite (es_channels _ _ _ _ HS); lia|]. cbn [mbind result_bind].
  change (vget (0 :: rank :: group :: bank :: row :: rest) 4) with (Ok row).
  change (vget (0 :: rank :: group :: bank :: row :: rest) 1) with (Ok rank). cbn [mbind result_bind].
  set (k := locality (en_params en) b row (negb (ax_is_read a)) now).
  assert (exists w1 en1, (if lo_class_hit k || lo_batch_hit k then Ok (f64_0, en)
            else ai ← s32 (0 * nr); ai ← s32 (ai + rank); activation en ai (Z.quot bi nb) now) = Ok (w1, en1) /\
            env_shape nr ng nb en1 /\ en_params en1 = en_params en /\ en_banks en1 = en_banks en /\ en_channels en1 = en_channels en /\
            en_groups en1 = en_groups en /\ en_hw en1 = en_hw en) as (w1 & en1 & -> & HS1 & Ep & Eb & Ec & Eg & Eh).
  { destruct (lo_class_hit k || lo_batch_hit k); [by exists f64_0, en|]. rewrite (s32_in (0 * nr)) by lia. cbn [mbind result_bind].
    rewrite (s32_in (0 * nr + rank)) by nia. cbn [mbind result_bind]. apply activation_ok; lia. }
  cbn [mbind result_bind]. destruct HS1 as [A1 A2 A3 A4 A5 A6 A7 A8].
  destruct (vget_in_range (en_groups en1) (Z.quot bi nb)) as [g ->]; [lia|]. cbn [mbind result_bind].
  match goal with |- context [vset (en_channels en1) 0 ?x] => destruct (vset_total (en_channels en1) 0 x) as [chs Hchs]; [lia|]; rewrite Hchs end.
  cbn [mbind result_bind].
  match goal with |- context [vset (en_groups en1) ?i ?x] => destruct (vset_total (en_groups en1) i x) as [gs Hgs]; [lia|]; rewrite Hgs end.
  cbn [mbind result_bind].
  match goal with |- context [vset (en_banks en1) ?i ?x] => destruct (vset_total (en_banks en1) i x) as [bs Hbs]; [lia|]; rewrite Hbs end.
  cbn [mbind result_bind]. eexists _, _. split; [done|]. split; [|done]. apply vset_length in Hchs, Hgs, Hbs.
  split; cbn; try done; try lia. 
Qed.

Lemma activation_shape ai gi now w en' :
  activation en ai gi now = Ok (w, en') -> env_shape nr ng nb en'.
Proof.
  destruct HS as [H1 H2 H3 H4 H5 H6 H7 H8]. unfold activation. intros H.
  apply bind_Ok in H as (aw & _ & H). apply bind_Ok in H as (gaw & _ & H). apply bind_Ok in H as (aws & Ha%vset_length & H).
  apply bind_Ok in H as (gaws & Hg%vset_length & [= _ <-]). split; cbn; try done; lia.
Qed.

(** Whatever the access, a prediction that returns keeps the shape. *)
Lemma env_wait_shape a now w en' : env_wait en a now = Ok (w, en') -> env_shape nr ng nb en'.
Proof.
  unfold env_wait. intros H. apply bind_Ok in H as (ch & _ & H). apply bind_Ok in H as (bi & _ & H).
  apply bind_Ok in H as (gi & _ & H). apply bind_Ok in H as (b & _ & H). apply bind_Ok in H as (c & _ & H).
  apply bind_Ok in H as (row & _ & H). apply bind_Ok in H as ([w1 en1] & Ht & H).
  assert (env_shape nr ng nb en1 /\ en_levels en1 = en_levels en) as [[H1 H2 H3 H4 H5 H6 H7 H8] El].
  { destruct (lo_class_hit _ || lo_batch_hit _); [by injection Ht as <- <-|]. apply bind_Ok in Ht as (x & _ & Ht).
    apply bind_Ok in Ht as (ai & _ & Ht). apply bind_Ok in Ht as (ai' & _ & Ht). pose proof (activation_shape _ _ _ _ _ Ht) as HS1.
    split; [done|]. by rewrite (es_levels _ _ _ _ HS1), (es_levels _ _ _ _ HS). }
  apply bind_Ok in H as (g & _ & H). apply bind_Ok in H as (chs & Hc%vset_length & H). apply bind_Ok in H as (gs & Hg%vset_length & H).
  apply bind_Ok in H as (bs & Hb%vset_length & [= _ <-]). split; cbn; rewrite <- ?El; try done; lia.
Qed.

(** On another channel the bank is out of range. *)
Lemma env_wait_out ch a now : 1 <= ch -> placed nr ng nb ch (ax_addr_vec a) -> env_wait en a now = Err Undef.
Proof.
  intros Hc (rank & group & bank & row & rest & El & Hr & Hg & Hb). pose proof (es_pos _ _ _ _ HS) as (P1 & P2 & P3 & P4).
  unfold env_wait. rewrite El, (es_levels _ _ _ _ HS). cbn [el_channel el_row el_rank el_banks_per_group el_ranks_per_channel].
  change (vget (ch :: rank :: group :: bank :: row :: rest) 0) with (Ok ch). cbn [mbind result_bind].
  destruct (bank_index en (ch :: rank :: group :: bank :: row :: rest)) as [bi|e] eqn:E; cbn [mbind result_bind].
  - apply bank_index_out in E; [|lia..]. unfold quot_s. destruct (Z.eqb_spec nb 0); [lia|].
    destruct (s32_cases (Z.quot bi nb)) as [->| ->]; [|done]. cbn [mbind result_bind].
    destruct (vget (en_banks en) bi) as [b|e] eqn:Ev; [apply vget_bound in Ev; rewrite (es_banks _ _ _ _ HS) in Ev; lia|].
    unfold vget in Ev. cbn [mbind result_bind]. repeat case_match; congruence.
  - by rewrite (bank_index_undef _ _ _ _ _ _ _ E).
Qed.
End shape.

(** ** The model a controller starts with *)

(** The level names of a standard that has ranks and bank groups. *)
Definition six_levels : list string := ["Channel"; "Rank"; "BankGroup"; "Bank"; "Row"; "Column"]%string.

Definition ranked (names : list string) : bool :=
  match find_level "BankGroup" names 0, find_level "Rank" names 0 with Some _, Some _ => true | _, _ => false end.

Lemma registry_ranked : forallb (fun T => negb (ranked (Level T)) || bool_decide (Level T = six_levels)) registry = true.
Proof. by vm_compute. Qed.

Lemma create_fields (name : string) (cfg : DramConfig) (s : DRAMSpec) :
  create name cfg = Ok s ->
  level_sizes (organization s) = cfg_count cfg /\ vget (cfg_count cfg) 0 = Ok 1 /\ (ranked (level_names s) = true -> level_names s = six_levels).
Proof.
  intros (T & Hin & _ & Hc)%create_in. unfold construct, load_config in Hc. destruct (populate_commands _) as [[m t] f].
  apply bind_Ok in Hc as (ch & Hch & Hc). destruct (Z.eqb_spec ch 1) as [->|]; [|done]. cbn [negb] in Hc.
  apply bind_Ok in Hc as (tc & _ & [= <-]). cbn [level_sizes organization level_names]. split_and!; [done|done|].
  intros Hr. pose proof registry_ranked as H. rewrite forallb_forall in H. specialize (H T ltac:(by apply list_elem_of_In)).
  rewrite Hr in H. by apply bool_decide_eq_true in H.
Qed.

Lemma s32_Ok v w : s32 v = Ok w -> w = v /\ - 2 ^ 31 <= v < 2 ^ 31.
Proof.
  unfold s32. destruct (Z.leb_spec (- 2 ^ 31) v), (Z.ltb_spec v (2 ^ 31)); cbn [andb]; intros E; try done. injection E as <-. lia.
Qed.

Lemma vec_make_length {A} n (x : A) l : vec_make n x = Ok l -> Z.of_nat (length l) = n.
Proof. unfold vec_make. destruct (Z.ltb_spec n 0); intros E; [done|]. injection E as <-. rewrite length_replicate. lia. Qed.

Lemma level_index_ranked h i j : level_index h "BankGroup" = Ok i -> level_index h "Rank" = Ok j -> ranked (hw_level_names h) = true.
Proof. unfold level_index, ranked. by destruct (find_level "BankGroup" _ 0), (find_level "Rank" _ 0). Qed.

Lemma initialize_shape h p en p' nr ng nb :
  initialize h p = Ok (en, p') -> hw_level_names h = six_levels ->
  vget (hw_level_sizes h) 0 = Ok 1 -> vget (hw_level_sizes h) 1 = Ok nr -> vget (hw_level_sizes h) 2 = Ok ng ->
  vget (hw_level_sizes h) 3 = Ok nb -> 0 < nr -> 0 < ng -> 0 < nb -> env_shape nr ng nb en.
Proof.
  intros H En H0 H1 H2 H3 P1 P2 P3. unfold initialize, level_index in H. rewrite En in H.
  change (find_level "Bank" six_levels 0) with (Some 3) in H. change (find_level "Row" six_levels 0) with (Some 4) in H.
  change (find_level "Channel" six_levels 0) with (Some 0) in H. change (find_level "BankGroup" six_levels 0) with (Some 2) in H.
  change (find_level "Rank" six_levels 0) with (Some 1) in H. cbn [mbind result_bind] in H.
  rewrite H1, H0, H3 in H. cbn [mbind result_bind] in H. unfold level_product in H.
  change (seqZ (0 + 1) (3 - 0)) with [1; 2; 3] in H. cbn [foldM] in H. rewrite H1, H2, H3 in H. cbn [mbind result_bind] in H.
  apply bind_Ok in H as (n1 & [-> _]%s32_Ok & H). apply bind_Ok in H as (act & Ha%vec_make_length & H).
  apply bind_Ok in H as (pc & Hpc & H). apply bind_Ok in Hpc as (? & [-> _]%s32_Ok & Hpc).
  apply bind_Ok in Hpc as (? & [-> _]%s32_Ok & Hpc). apply bind_Ok in Hpc as (? & [-> B]%s32_Ok & Hpc). injection Hpc as <-.
  apply bind_Ok in H as (gr & Hg & H). unfold quot_s in Hg. destruct (Z.eqb_spec nb 0) as [|Hn]; [lia|].
  apply s32_Ok in Hg as [-> _]. rewrite Z.quot_mul in H by done.
  apply bind_Ok in H as (? & [-> _]%s32_Ok & H). apply bind_Ok in H as (banks & Hb%vec_make_length & H).
  apply bind_Ok in H as (? & [-> _]%s32_Ok & H). apply bind_Ok in H as (gs & Hgs%vec_make_length & H).
  apply bind_Ok in H as (chs & Hc%vec_make_length & H). apply bind_Ok in H as (q & _ & [= <- _]).
  split; cbn; try done; lia.
Qed.

Section controller.
Context (cfg : AtomicConfig) (ov : list (string * spec_float)) (nr ng nb : Z).
Hypothesis Hsizes : exists rest, cfg_count (ac_dram_config cfg) = 1 :: nr :: ng :: nb :: rest.
Hypothesis Hpos : 0 < nr /\ 0 < ng /\ 0 < nb.

Lemma controller_shape c : Envelope_controller_init cfg ov = Ok c -> env_shape nr ng nb (at_model c).
Proof.
  destruct Hsizes as [rest Er], Hpos as (P1 & P2 & P3). unfold Envelope_controller_init, Atomic_init. intros H.
  apply bind_Ok in H as (spec & Hs & H). apply create_fields in Hs as (Es & E1 & Hr). rewrite Er in Es.
  apply bind_Ok in H as (d & _ & H). apply bind_Ok in H as (tck & _ & H).
  repeat match goal with H : (if ?b then Err _ else _) = Ok _ |- _ => destruct b; [done|] end.
  apply bind_Ok in H as (m & Hm & [= <-]). cbn [at_model]. unfold Envelope_init_model in Hm.
  apply bind_Ok in Hm as (tck' & _ & Hm). apply bind_Ok in Hm as (h & Hh & Hm). apply bind_Ok in Hm as ([en p'] & Hi & Hm).
  apply bind_Ok in Hm as (? & _ & [= <-]). unfold hardware_of in Hh. apply bind_Ok in Hh as (ts & _ & [= <-]).
  assert (level_names spec = six_levels) as En.
  { apply Hr. pose proof Hi as H. unfold initialize in H. apply bind_Ok in H as (? & _ & H). apply bind_Ok in H as (? & _ & H).
    apply bind_Ok in H as (? & _ & H). apply bind_Ok in H as (? & Hbg & H). apply bind_Ok in H as (? & Hrk & _).
    by apply (level_index_ranked _ _ _ Hbg) in Hrk. }
  eapply initialize_shape; [exact Hi|done|..]; cbn [hw_level_sizes]; rewrite ?Es; done.
Qed.

(** ** Whole runs *)
Context (apply : Request -> result Request) (ch : Z).

(** The controller of channel [ch] after any interleaving of requests, ticks, skipped
    ticks and resets of the statistics. *)
Inductive env_reachable : Atomic Envelope -> Prop :=
| env_start c : Envelope_controller_init cfg ov = Ok c -> env_reachable (Atomic_set_channel_id c ch)
| env_sent a r ok r' a' : env_reachable a -> Envelope_send apply a r = Ok (ok, r', a') -> env_reachable a'
| env_ticked a : env_reachable a -> env_reachable (Atomic_tick a)
| env_skipped a n : env_reachable a -> env_reachable (Atomic_fast_forward a n)
| env_reset a : env_reachable a -> env_reachable (Atomic_reset_stats a).

Lemma at_serve_model {Md} q (a : Atomic Md) :
  at_model (at_serve q a) = at_model a /\ at_channel_id (at_serve q a) = at_channel_id a /\ at_clk (at_serve q a) = at_clk a.
Proof. revert a. induction q as [|p q IH]; intros a; cbn [at_serve]; [done|]. destruct (_ <=? _); [|done].
  by destruct (IH (at_complete a q (p_req p))) as (-> & -> & ->).
Qed.

(** A send changes the model by a prediction, and keeps the channel. *)
Lemma envelope_send_model a r ok r' a' :
  Envelope_send apply a r = Ok (ok, r', a') -> env_shape nr ng nb (at_model a) ->
  env_shape nr ng nb (at_model a') /\ at_channel_id a' = at_channel_id a.
Proof.
  unfold Envelope_send, Atomic_send. intros H HS. destruct (_ && _); [done|]. destruct (_ <=? _); [by injection H as <- <- <-|].
  apply bind_Ok in H as (r1 & _ & H). apply bind_Ok in H as (av & _ & H). apply bind_Ok in H as ([d m] & Hp & H).
  cbn [fst snd] in H. destruct (d <=? at_clk a); [done|]. injection H as <- <- <-. cbn [at_admit at_model at_channel_id]. split; [|done].
  unfold AtomicModelController_predict, env_predict in Hp. apply bind_Ok in Hp as ([w en] & Hw & Hp).
  apply bind_Ok in Hp as (x & _ & [= _ <-]). by eapply env_wait_shape.
Qed.

Lemma env_reachable_shape a : env_reachable a -> env_shape nr ng nb (at_model a) /\ at_channel_id a = ch.
Proof.
  induction 1 as [c Hc|a r ok r' a' _ [IH1 IH2] Hs|a _ IH|a n _ IH|a _ IH]; [|..|done|done].
  - split; [|done]. cbn [Atomic_set_channel_id at_model]. by apply controller_shape.
  - destruct (envelope_send_model _ _ _ _ _ Hs IH1) as [? ->]. done.
  - unfold Atomic_tick, serve_completed. destruct (at_serve_model (at_pending (Atomic_fast_forward a 1)) (Atomic_fast_forward a 1)) as (-> & -> & _).
    done.
Qed.

(** Room for a request. *)
Definition has_room (a : Atomic Envelope) (r : Request) : bool :=
  if type_id r =? Read then at_inflight_reads a <? at_read_buffer_size a else at_inflight_writes a <? at_write_buffer_size a.

(** The access a request becomes. *)
Definition access_of (r : Request) (levels : list Z) : Access := mkAccess (addr r) (type_id r =? Read) levels (size_bytes r).

(** What a send does with a request it has room for. *)
Lemma envelope_send_room a r r1 c rank group bank row rest :
  type_id r = Read \/ type_id r = Write -> has_room a r = true -> apply r = Ok r1 ->
  addr_vec r1 = c :: rank :: group :: bank :: row :: rest ->
  let av := at_channel_id a :: rank :: group :: bank :: row :: rest in
  Envelope_send apply a r =
    (p ← env_predict (at_model a) (access_of r1 av) (at_clk a);
     if p.1 <=? at_clk a then Err (Throw "Atomic must commit a strictly future departure")
     else Ok (true, set_depart (set_arrive (set_addr_vec r1 av) (at_clk a)) p.1,
              at_admit a p.2 (set_depart (set_arrive (set_addr_vec r1 av) (at_clk a)) p.1))).
Proof.
  intros Ht Hr Ha Hv av. unfold Envelope_send, Atomic_send, has_room in *.
  assert (negb (type_id r =? Read) && negb (type_id r =? Write) = false) as -> by (by destruct Ht as [-> | ->]).
  destruct (Z.leb_spec (if type_id r =? Read then at_read_buffer_size a else at_write_buffer_size a)
              (if type_id r =? Read then at_inflight_reads a else at_inflight_writes a)) as [Hl|_].
  { destruct (type_id r =? Read); apply Z.ltb_lt in Hr; lia. }
  rewrite Ha. cbn [mbind result_bind]. rewrite Hv.
  change (vset (c :: rank :: group :: bank :: row :: rest) 0 (at_channel_id a)) with (Ok av). cbn [mbind result_bind].
  unfold AtomicModelController_predict, access_of. done.
Qed.
End controller.

(** ** Theorem *)

(** C7.  Behind the controller of channel 0 the model never leaves its workloads: after
    any run, for every request the controller has room for and the mapper places on the
    device, the workloads and their wait are computed, and the request is admitted with
    a departure after the clock unless the sum is no cycle count.  Behind the
    controller of any other channel every such request reads outside a vector. *)
Theorem envelope_first_channel_only (cfg : AtomicConfig) (ov : list (string * spec_float)) (nr ng nb : Z)
  (apply : Request -> result Request) (ch c : Z) (a : Atomic Envelope) (r r1 : Request) :
  (exists rest, cfg_count (ac_dram_config cfg) = 1 :: nr :: ng :: nb :: rest) -> 0 < nr /\ 0 < ng /\ 0 < nb ->
  env_reachable cfg ov apply ch a -> type_id r = Read \/ type_id r = Write -> has_room a r = true ->
  apply r = Ok r1 -> placed nr ng nb c (addr_vec r1) ->
  (ch = 0 -> exists w en',
     env_wait (at_model a) (access_of r1 (<[0%nat := 0]> (addr_vec r1))) (f64_of_Z (at_clk a)) = Ok (w, en') /\
     match f64_ceil_s64 (f64_add (f64_add (ep_base (en_params (at_model a))) (ep_overhead (en_params (at_model a)))) w) with
     | Ok d => exists r' a', Envelope_send apply a r = Ok (true, r', a') /\ depart r' = at_clk a + Z.max 1 d /\ at_model a' = en'
     | Err e => Envelope_send apply a r = Err e
     end) /\
  (1 <= ch -> Envelope_send apply a r = Err Undef).
Proof.
  intros Hsz Hp Hreach Ht Hroom Ha (rank & group & bank & row & rest & El & Hr & Hg & Hb).
  destruct (env_reachable_shape cfg ov nr ng nb Hsz Hp apply ch a Hreach) as [HS Ech].
  rewrite (envelope_send_room apply a r r1 c rank group bank row rest Ht Hroom Ha El), Ech, El.
  assert (forall k, placed nr ng nb k (ax_addr_vec (access_of r1 (k :: rank :: group :: bank :: row :: rest)))) as Hpl
    by (intros k; by exists rank, group, bank, row, rest).
  split.
  - intros ->. destruct (env_wait_ok nr ng nb _ HS _ (f64_of_Z (at_clk a)) (Hpl 0)) as (w & en' & Hw & _ & Ep).
    exists w, en'. split; [done|]. unfold env_predict. rewrite Hw. cbn [mbind result_bind]. rewrite Ep.
    destruct (f64_ceil_s64 _) as [d|e]; cbn [mbind result_bind fst snd]; [|done].
    destruct (Z.leb_spec (at_clk a + Z.max 1 d) (at_clk a)); [lia|]. by eexists _, _.
  - intros Hc. unfold env_predict. by rewrite (env_wait_out nr ng nb _ HS ch _ _ Hc (Hpl ch)).
Qed.

(** ** Witness *)
Definition env_cfg : AtomicConfig := mkAtomicConfig (-1) 32 32 f32_0_2 f32_0_8 "none" "DDR4" small_cfg.
Definition env_map (r : Request) : result Request := Ok (set_addr_vec r [0; 1; 0; 1; 5; 3]).
Definition env_read : Request := Request_vec [0; 1; 0; 1; 5; 3] Read.

(** The first read on channels 0 and 1. *)
Definition env_test : bool :=
  match Envelope_controller_init env_cfg [] with
  | Ok c => has_room (Atomic_set_channel_id c 0) env_read && has_room (Atomic_set_channel_id c 1) env_read &&
            match Envelope_send env_map (Atomic_set_channel_id c 0) env_read with
            | Ok (ok, r, a) => ok && has_room a env_read
            | Err _ => false
            end
  | Err _ => false
  end.

Lemma env_test_true : env_test = true.
Proof. by vm_compute. Qed.

Lemma envelope_first_channel_only_witness :
  exists c r0 a0, Envelope_controller_init env_cfg [] = Ok c /\
    Envelope_send env_map (Atomic_set_channel_id c 0) env_read = Ok (true, r0, a0) /\
    (exists w en', env_wait (at_model a0) (access_of (set_addr_vec env_read [0; 1; 0; 1; 5; 3]) [0; 1; 0; 1; 5; 3]) (f64_of_Z (at_clk a0)) = Ok (w, en')) /\
    Envelope_send env_map (Atomic_set_channel_id c 1) env_read = Err Undef.
Proof.
  pose proof env_test_true as H. unfold env_test in H. destruct (Envelope_controller_init env_cfg []) as [c|] eqn:Ec; [|done].
  apply andb_prop in H as [[H0 H1]%andb_prop H]. destruct (Envelope_send env_map (Atomic_set_channel_id c 0) env_read) as [[[ok r0] a0]|] eqn:Es; [|done].
  apply andb_prop in H as [Eok H]. destruct ok; [|done].
  assert (placed 2 2 2 0 [0; 1; 0; 1; 5; 3]) as Hpl by (exists 1, 0, 1, 5, [3]; split_and!; (done || lia)).
  exists c, r0, a0. split_and!; [done|done| |].
  - assert (env_reachable env_cfg [] env_map 0 a0) as Hr by (eapply env_sent; [by apply env_start|exact Es]).
    destruct (envelope_first_channel_only env_cfg [] 2 2 2 env_map 0 0 a0 env_read _
                (ex_intro _ [64; 1024] eq_refl) ltac:(lia) Hr (or_introl eq_refl) H eq_refl Hpl) as [Hz _].
    destruct (Hz eq_refl) as (w & en' & Hw & _). by exists w, en'.
  - by apply (envelope_first_channel_only env_cfg [] 2 2 2 env_map 1 0 (Atomic_set_channel_id c 1) env_read _
                (ex_intro _ [64; 1024] eq_refl) ltac:(lia) (env_start _ _ _ 1 c Ec) (or_introl eq_refl) H1 eq_refl Hpl).
Defined.
