(* ===== verification/Mess.v ===== *)
(** * The predictor behind the Mess controller

    [ext/mess/mess_mem_ctrl.cpp]: the loader of bandwidth-latency curves (JSON, and the
    text format of Ramulator), the table of nearest curves and the feedback loop that
    turns the traffic of a window into a latency.  [strtod] is the conversion at the
    front of a text with what follows it, [extract] the one of [operator>>]; both
    yield nothing if there is no number.  Then: the table holds nearest curves, the
    loader reads every file to an end, and a prediction only indexes within the
    curves. *)

From Stdlib Require Import ZArith Lia SpecFloat Ascii String.
From S2P Require Import Prelude Base Spec Standards Device Controller MemSystem Latency Text Envelope.

Local Open Scope string_scope.
Local Open Scope list_scope.
Local Open Scope Z_scope.

(** ** Curve files *)
Record CurveEntry := mkCurveEntry { ce_readPercentage : Z; ce_points : list (spec_float * spec_float) }.
Record CurveFile := mkCurveFile { cf_measuredChannels : Z; cf_curves : list CurveEntry }.

Definition mess_error {A} (msg : string) : result A := Err (Throw msg).

(** The points of one curve, after the bandwidth of the point before. *)
Fixpoint validate_points (previous : spec_float) (l : list (spec_float * spec_float)) : result unit :=
  match l with
  | [] => Ok ()
  | (bw, lat) :: l =>
      if negb (f64_isfinite bw) || SFltb bw f64_0 || SFleb previous bw || negb (f64_isfinite lat) || SFleb lat f64_0
      then mess_error "MeSS: expected finite positive latency and strictly descending bandwidth"
      else validate_points bw l
  end.

Fixpoint validate_entries (seen : gset Z) (l : list CurveEntry) : result unit :=
  match l with
  | [] => Ok ()
  | c :: l =>
      let pct := ce_readPercentage c in
      if (pct <? 0) || (100 <? pct) || bool_decide (pct ∈ seen) || bool_decide (ce_points c = [])
      then mess_error "MeSS: invalid/duplicate read percentage or empty curve"
      else _ ← validate_points (S754_infinity false) (ce_points c); validate_entries ({[pct]} ∪ seen) l
  end.

Definition validateCurves (f : CurveFile) : result unit :=
  if (cf_measuredChannels f =? 0) || bool_decide (cf_curves f = [])
  then mess_error "MeSS: expected positive measuredChannels and nonempty curves"
  else validate_entries ∅ (cf_curves f).

Section loader.
Context (strtod extract : string -> option (spec_float * string)).

(** *** The text format of Ramulator *)

(** [operator>>] into an [int]. *)
Definition extract_int : string -> option (Z * string) := extract_range (- 2 ^ 31) (2 ^ 31 - 1).

(** [curves[pct]] with a point added, in the order of the percentages. *)
Fixpoint add_point (pct : Z) (pt : spec_float * spec_float) (l : list CurveEntry) : list CurveEntry :=
  match l with
  | [] => [mkCurveEntry pct [pt]]
  | c :: l' =>
      if pct <? ce_readPercentage c then mkCurveEntry pct [pt] :: l
      else if pct =? ce_readPercentage c then mkCurveEntry pct (ce_points c ++ [pt]) :: l'
      else c :: add_point pct pt l'
  end.

Definition legacy_curve_line (curves : list CurveEntry) (line : string) : result (list CurveEntry) :=
  let fields := skip_spaces line in
  if bool_decide (fields = EmptyString) then Ok curves
  else
    match extract_int fields with
    | None => mess_error "MeSS: expected read_pct bandwidth_GBps latency_ns"
    | Some (pct, r) =>
        match extract r with
        | None => mess_error "MeSS: expected read_pct bandwidth_GBps latency_ns"
        | Some (bw, r) =>
            match extract r with
            | None => mess_error "MeSS: expected read_pct bandwidth_GBps latency_ns"
            | Some (lat, r) =>
                if negb (bool_decide (skip_spaces r = EmptyString)) || (pct <? 0) || (100 <? pct) || negb (f64_isfinite bw) ||
                   SFltb bw f64_0 || negb (f64_isfinite lat) || SFleb lat f64_0
                then mess_error "MeSS: invalid legacy calibration point"
                else Ok (add_point pct (f64_mul bw (f64_of_Z 1000), lat) curves)
            end
        end
    end.

(** [std::sort] by descending bandwidth; equal bandwidths are refused afterwards. *)
Fixpoint insert_point (pt : spec_float * spec_float) (l : list (spec_float * spec_float)) : list (spec_float * spec_float) :=
  match l with
  | [] => [pt]
  | x :: l' => if SFltb x.1 pt.1 then pt :: l else x :: insert_point pt l'
  end.
Definition sort_points (l : list (spec_float * spec_float)) : list (spec_float * spec_float) := foldr insert_point [] l.

Definition loadLegacyCurves (data : string) : result CurveFile :=
  curves ← foldM legacy_curve_line [] (getlines data);
  let file := mkCurveFile 1 (map (fun c => mkCurveEntry (ce_readPercentage c) (sort_points (ce_points c))) curves) in
  _ ← validateCurves file;
  Ok file.

(** *** JSON

    The cursor is the text from it to the end. *)
Definition parseError {A} (msg : string) : result A := Err (Throw ("JSON parse error: " +:+ msg)).

Definition is_json_space (c : ascii) : bool := let n := N_of_ascii c in (N.eqb n 32 || N.eqb n 9 || N.eqb n 10 || N.eqb n 13).

Fixpoint skipWs (p : string) : string :=
  match p with String c p' => if is_json_space c then skipWs p' else p | EmptyString => EmptyString end.

Definition expectChar (c : ascii) (p : string) : result string :=
  match skipWs p with
  | String x p => if bool_decide (x = c) then Ok p else parseError "unexpected character"
  | EmptyString => parseError "unexpected character"
  end.

(** Whether the character is next, and the cursor after white space. *)
Definition peekChar (c : ascii) (p : string) : bool * string :=
  let p := skipWs p in
  (match p with String x _ => bool_decide (x = c) | EmptyString => false end, p).

Definition quote : ascii := ascii_of_nat 34.

(** The text up to the closing quote, and what follows the quote. *)
Fixpoint raw_string (p : string) : option (string * string) :=
  match p with
  | EmptyString => None
  | String c p => if bool_decide (c = quote) then Some (EmptyString, p)
                  else match raw_string p with Some (s, r) => Some (String c s, r) | None => None end
  end.

Definition readRawString (p : string) : result (string * string) :=
  p ← expectChar quote p;
  match raw_string p with Some x => Ok x | None => parseError "unterminated string" end.

Definition readNumber (p : string) : result (spec_float * string) :=
  let p := skipWs p in
  if bool_decide (p = EmptyString) then parseError "expected number"
  else match strtod p with Some x => Ok x | None => parseError "expected number" end.

(** [strtol] saturates. *)
Definition readQuotedInt (p : string) : result (Z * string) :=
  x ← readRawString p;
  let '(key, rest) := x in
  if bool_decide (key = EmptyString) then parseError "empty integer key"
  else
    let '(neg, t) := strip_sign (skip_spaces key) in
    match digits 10 t None with
    | Some n =>
        if bool_decide (skip_digits 10 t = EmptyString)
        then let v := if (neg : bool) then - n else n in Ok (wrap_s 32 (Z.max (- 2 ^ 63) (Z.min v (2 ^ 63 - 1))), rest)
        else parseError "invalid integer key"
    | None => parseError "invalid integer key"
    end.

(** A loop over the members up to a closing character: every member but the first
    follows a comma. *)
Fixpoint members {A} (fuel : nat) (close : ascii) (item : A -> string -> result (A * string)) (first : bool) (acc : A) (p : string)
  : result (A * string) :=
  match fuel with
  | O => Err OutOfFuel
  | S fuel =>
      let '(done, p) := peekChar close p in
      if (done : bool) then Ok (acc, p)
      else
        p ← (if first then Ok p else expectChar "," p);
        x ← item acc p;
        members fuel close item false x.1 x.2
  end.

Definition read_pair (acc : list (spec_float * spec_float)) (p : string) : result (list (spec_float * spec_float) * string) :=
  p ← expectChar "[" p;
  bw ← readNumber p;
  p ← expectChar "," bw.2;
  lat ← readNumber p;
  p ← expectChar "]" lat.2;
  Ok (acc ++ [(bw.1, lat.1)], p).

Definition read_curve (fuel : nat) (acc : list CurveEntry) (p : string) : result (list CurveEntry * string) :=
  k ← readQuotedInt p;
  p ← expectChar ":" k.2;
  p ← expectChar "[" p;
  if (k.1 <? 0) || (100 <? k.1) then parseError "read percentage out of range"
  else
    x ← members fuel "]" read_pair true [] p;
    p ← expectChar "]" x.2;
    Ok (acc ++ [mkCurveEntry k.1 x.1], p).

(** [std::floor] to an integer, and whether it is the value itself. *)
Definition f64_floor (x : spec_float) : option Z :=
  match x with
  | S754_zero _ => Some 0
  | S754_finite s m e => Some (Z.shiftl (if (s : bool) then Z.neg m else Z.pos m) e)
  | _ => None
  end.

Definition read_field (fuel : nat) (out : CurveFile) (p : string) : result (CurveFile * string) :=
  k ← readRawString p;
  p ← expectChar ":" k.2;
  if bool_decide (k.1 = "measuredChannels"%string) then
    v ← readNumber p;
    match f64_floor v.1 with
    | Some n =>
        if SFltb v.1 f64_1 || negb (SFeqb (f64_of_Z n) v.1) || (2 ^ 32 - 1 <? n)
        then parseError "measuredChannels must be a positive integer"
        else Ok (mkCurveFile n (cf_curves out), v.2)
    | None => parseError "measuredChannels must be a positive integer"
    end
  else if bool_decide (k.1 = "curves"%string) then
    p ← expectChar "{" p;
    x ← members fuel "}" (read_curve fuel) true (cf_curves out) p;
    p ← expectChar "}" x.2;
    Ok (mkCurveFile (cf_measuredChannels out) x.1, p)
  else parseError "unknown top-level key".

(** What opening and reading the file yields. *)
Inductive curve_source := NotOpened | NotSized | NotRead | Contents (text : string).

Definition loadCurveFile (path : string) (source : curve_source) : result CurveFile :=
  match source with
  | NotOpened => mess_error ("Failed to open curve file: " +:+ path)
  | NotSized => mess_error ("Failed to size curve file: " +:+ path)
  | NotRead => mess_error ("Failed to read curve file: " +:+ path)
  | Contents text =>
      let p := skipWs text in
      let fuel := S (String.length text) in
      match p with
      | EmptyString => mess_error "MeSS: empty calibration file"
      | String c _ =>
          if negb (bool_decide (c = "{"%char)) then loadLegacyCurves p
          else
            p ← expectChar "{" p;
            x ← members fuel "}" (read_field fuel) true (mkCurveFile 0 []) p;
            p ← expectChar "}" x.2;
            if negb (bool_decide (skipWs p = EmptyString)) then parseError "trailing data"
            else if cf_measuredChannels x.1 =? 0
            then mess_error ("Curve file is missing a positive 'measuredChannels' field: " +:+ path)
            else _ ← validateCurves x.1; Ok x.1
      end
  end.
End loader.

(** ** The predictor *)
Record MessMemCtrl := mkMess {
  mm_leadOffLatency : spec_float;
  mm_maxBandwidth : spec_float;
  mm_maxLatency : spec_float;
  mm_latency : Z;
  mm_lastEstimatedBandwidth : spec_float;
  mm_lastEstimatedLatency : spec_float;
  mm_overflowFactor : spec_float;
  mm_frequencyCPU : spec_float;
  mm_curves_data : list (list (spec_float * spec_float));
  mm_maxBandwidthPerRdRatio : list spec_float;
  mm_maxLatencyPerRdRatio : list Z;
  mm_pctToCurveIdx : list Z;
  mm_currentWindowAccessCount : Z;
  mm_currentWindowAccessCount_wr : Z;
  mm_currentWindowAccessCount_rd : Z;
  mm_currentWindowStartCycle : Z;
  mm_lastIntReadPercentage : Z;
  mm_curveWindowSize : Z
}.

Definition f64_to_u32 (x : spec_float) : result Z :=
  v ← f64_to_s64 x;
  if (0 <=? v) && (v <? 2 ^ 32) then Ok v else Err Undef.

(** *** Construction *)

(** Lead-off latency, greatest latency and greatest bandwidth so far. *)
Record Extremes := mkExtremes { x_lead : spec_float; x_lat : spec_float; x_bw : spec_float }.

(** One point in the units of the simulation. *)
Definition convert_point (bwScale freq : spec_float) (pt : spec_float * spec_float) : spec_float * spec_float :=
  (f64_div (f64_div (f64_mul pt.1 bwScale) (f64_of_Z 64)) (f64_mul freq (f64_of_Z 1000)), f64_mul pt.2 freq).

Definition greater (a x : spec_float) : spec_float := if SFltb a x then x else a.

Definition note_point (x : Extremes) (pt : spec_float * spec_float) : Extremes :=
  mkExtremes (if SFltb pt.2 (x_lead x) then pt.2 else x_lead x) (greater (x_lat x) pt.2) (greater (x_bw x) pt.1).

(** Curves in order: points, greatest bandwidth, greatest latency. *)
Fixpoint convert_curves (bwScale freq : spec_float) (x : Extremes) (l : list CurveEntry)
  : result (Extremes * list (list (spec_float * spec_float)) * list spec_float * list Z) :=
  match l with
  | [] => Ok (x, [], [], [])
  | c :: l =>
      let pts := map (convert_point bwScale freq) (ce_points c) in
      lat ← f64_to_u32 (foldl (fun m pt => greater m pt.2) f64_0 pts);
      q ← convert_curves bwScale freq (foldl note_point x pts) l;
      let '(x, cs, bws, lats) := q in
      Ok (x, pts :: cs, foldl (fun m pt => greater m pt.1) f64_0 pts :: bws, lat :: lats)
  end.

(** The curve that owns a percentage, or -1. *)
Fixpoint owner_by_pct (owner : list Z) (i : Z) (l : list CurveEntry) : result (list Z) :=
  match l with
  | [] => Ok owner
  | c :: l => owner ← vset owner (ce_readPercentage c) i; owner_by_pct owner (i + 1) l
  end.

(** One sweep: for each slot the last percentage met that has a curve. *)
Fixpoint sweep (p step last : Z) (owner : list Z) : list Z :=
  match owner with
  | [] => []
  | o :: owner => let last := if 0 <=? o then p else last in last :: sweep (p + step) step last owner
  end.

Definition nearestLeft (owner : list Z) : list Z := sweep 0 1 (-1) owner.
Definition nearestRight (owner : list Z) : list Z := reverse (sweep 100 (-1) (-1) (reverse owner)).

Definition choose (p lp rp : Z) : Z := if lp <? 0 then rp else if rp <? 0 then lp else if p - lp <=? rp - p then lp else rp.

Definition pct_to_curve (owner : list Z) : result (list Z) :=
  mapM (fun p => lp ← vget (nearestLeft owner) p;
                 rp ← vget (nearestRight owner) p;
                 o ← vget owner (choose p lp rp);
                 Ok (wrap_u 32 o)) (seqZ 0 101).

Definition MessMemCtrl_new (file : CurveFile) (path : string) (window : Z) (freq : spec_float) (channels : Z) : result MessMemCtrl :=
  if bool_decide (cf_curves file = []) then mess_error ("Curve file contains no curves: " +:+ path)
  else
    let bwScale := f64_div (f64_of_Z channels) (f64_of_Z (cf_measuredChannels file)) in
    q ← convert_curves bwScale freq (mkExtremes (f64_of_Z 100000) f64_0 f64_0) (cf_curves file);
    let '(x, cs, bws, lats) := q in
    lat ← f64_to_u32 (x_lead x);
    owner ← owner_by_pct (replicate 101 (-1)) 0 (cf_curves file);
    table ← pct_to_curve owner;
    Ok (mkMess (x_lead x) (x_bw x) (x_lat x) lat f64_0 (x_lead x) f64_0 freq cs bws lats table 0 0 0 0 0 (wrap_u 32 window)).

(** *** Prediction *)
Definition f64_002 : spec_float := S754_finite false 5764607523034235 (-58).
Definition f64_001 : spec_float := S754_finite false 5764607523034235 (-59).

(** [convergeSpeed * x + (1 - convergeSpeed) * last]. *)
Definition converge (x last : spec_float) : spec_float :=
  f64_add (f64_mul f64_005 x) (f64_mul (f64_sub f64_1 f64_005) last).

(** The loop over the points of a curve. *)
Fixpoint scan_curve (bandwidth : spec_float) (l : list (spec_float * spec_float)) (j : Z) (finalBW finalLatency : spec_float)
  : Z * spec_float * spec_float :=
  match l with
  | [] => (j, finalBW, finalLatency)
  | pt :: l =>
      let '(fb, fl) := if SFeqb finalBW f64_0 then pt else (finalBW, finalLatency) in
      if SFleb bandwidth pt.1 then scan_curve bandwidth l (j + 1) pt.1 pt.2 else (j, fb, fl)
  end.

(** The estimate of the latency: its value, the estimates of bandwidth and latency to
    keep, and the overflow factor. *)
Definition estimate (m : MessMemCtrl) (rp : Z) (bandwidth : spec_float) : result (spec_float * spec_float * spec_float * spec_float) :=
  idx ← vget (mm_pctToCurveIdx m) rp;
  let bandwidth := converge bandwidth (mm_lastEstimatedBandwidth m) in
  maxbw ← vget (mm_maxBandwidthPerRdRatio m) idx;
  if SFltb (f64_mul maxbw f64_099) bandwidth then
    let finalBW := converge maxbw (mm_lastEstimatedBandwidth m) in
    let overflow := f64_add (mm_overflowFactor m) f64_002 in
    maxlat ← vget (mm_maxLatencyPerRdRatio m) idx;
    let lat := converge (f64_mul (f64_add f64_1 overflow) (f64_of_Z maxlat)) (mm_lastEstimatedLatency m) in
    Ok (if SFltb lat (mm_leadOffLatency m) then mm_leadOffLatency m else lat, finalBW, lat, overflow)
  else
    curve ← vget (mm_curves_data m) idx;
    let n := Z.of_nat (length curve) in
    let '(j, _, fl) := scan_curve bandwidth curve 0 f64_0 (mm_leadOffLatency m) in
    let j := if j =? n then wrap_u 32 (j - 1) else j in
    t ← (if negb (j =? 0) then
           p1 ← vget curve j;
           p2 ← vget curve (j - 1);
           let fl := f64_add p1.2 (f64_mul (f64_div (f64_sub bandwidth p1.1) (f64_sub p2.1 p1.1)) (f64_sub p2.2 p1.2)) in
           Ok (fl, if SFltb f64_001 (mm_overflowFactor m) then f64_sub (mm_overflowFactor m) f64_001 else mm_overflowFactor m)
         else
           let o := if SFltb f64_001 (mm_overflowFactor m) then f64_sub (mm_overflowFactor m) f64_001 else mm_overflowFactor m in
           Ok (fl, if SFltb o f64_0 then f64_0 else o));
    let '(fl, overflow) := t in
    let lat := converge (f64_add fl (f64_mul (mm_overflowFactor m) fl)) (mm_lastEstimatedLatency m) in
    Ok (if SFleb lat (mm_leadOffLatency m) then mm_leadOffLatency m else lat, bandwidth, lat, overflow).

(** [static_cast<int>(roundDouble(d))]. *)
Definition round_s32 (d : spec_float) : result Z :=
  match f64_floor (f64_add d f64_half) with
  | Some v => s32 v
  | None => Err Undef
  end.

(** The assertions that the estimate is not below the lead-off latency can only fail
    for NaN, whose conversion is undefined. *)
Definition searchForLatencyOnCurve (m : MessMemCtrl) (bandwidth readPercentage : spec_float) : result (Z * MessMemCtrl) :=
  rp ← round_s32 (f64_mul (f64_of_Z 100) readPercentage);
  let rp := if rp <? 0 then 0 else if 100 <? rp then 100 else rp in
  e ← estimate m rp bandwidth;
  let '(lat, lbw, llat, overflow) := e in
  v ← f64_to_u32 lat;
  Ok (v, mkMess (mm_leadOffLatency m) (mm_maxBandwidth m) (mm_maxLatency m) (mm_latency m) lbw llat overflow (mm_frequencyCPU m)
           (mm_curves_data m) (mm_maxBandwidthPerRdRatio m) (mm_maxLatencyPerRdRatio m) (mm_pctToCurveIdx m)
           (mm_currentWindowAccessCount m) (mm_currentWindowAccessCount_wr m) (mm_currentWindowAccessCount_rd m)
           (mm_currentWindowStartCycle m) rp (mm_curveWindowSize m)).

(** The members a window changes. *)
Definition set_window (m : MessMemCtrl) (latency count wr rd start : Z) : MessMemCtrl :=
  mkMess (mm_leadOffLatency m) (mm_maxBandwidth m) (mm_maxLatency m) latency (mm_lastEstimatedBandwidth m)
    (mm_lastEstimatedLatency m) (mm_overflowFactor m) (mm_frequencyCPU m) (mm_curves_data m) (mm_maxBandwidthPerRdRatio m)
    (mm_maxLatencyPerRdRatio m) (mm_pctToCurveIdx m) count wr rd start (mm_lastIntReadPercentage m) (mm_curveWindowSize m).

Definition updateLatency (m : MessMemCtrl) (currentWindowEndCycle : Z) : result MessMemCtrl :=
  let cycles := wrap_u 64 (currentWindowEndCycle - mm_currentWindowStartCycle m) in
  let bandwidth := f64_div (f64_of_Z (mm_currentWindowAccessCount m)) (f64_of_Z cycles) in
  let total := wrap_u 32 (mm_currentWindowAccessCount_rd m + mm_currentWindowAccessCount_wr m) in
  let readPercentage := f64_div (f64_of_Z (mm_currentWindowAccessCount_rd m)) (f64_of_Z total) in
  q ← searchForLatencyOnCurve m bandwidth readPercentage;
  Ok (set_window q.2 q.1 (mm_currentWindowAccessCount m) (mm_currentWindowAccessCount_wr m) (mm_currentWindowAccessCount_rd m)
        (mm_currentWindowStartCycle m)).

Definition mess_access (m : MessMemCtrl) (accessCycle : Z) (isWrite : bool) : result (Z * MessMemCtrl) :=
  let start := if mm_currentWindowAccessCount m =? 0 then accessCycle else mm_currentWindowStartCycle m in
  let count := wrap_u 32 (mm_currentWindowAccessCount m + 1) in
  let wr := if isWrite then wrap_u 32 (mm_currentWindowAccessCount_wr m + 1) else mm_currentWindowAccessCount_wr m in
  let rd := if isWrite then mm_currentWindowAccessCount_rd m else wrap_u 32 (mm_currentWindowAccessCount_rd m + 1) in
  let m := set_window m (mm_latency m) count wr rd start in
  m ← (if count =? mm_curveWindowSize m
       then m ← updateLatency m accessCycle; Ok (set_window m (mm_latency m) 0 0 0 start)
       else Ok m);
  Ok (mm_latency m, m).

Definition getLeadOffLatency (m : MessMemCtrl) : result Z := f64_to_u32 (mm_leadOffLatency m).
Definition getPeakBandwidthGBs (m : MessMemCtrl) : spec_float :=
  f64_mul (f64_mul (mm_maxBandwidth m) (f64_of_Z 64)) (mm_frequencyCPU m).
Definition GetQsMemLoadCycleLimit (m : MessMemCtrl) : result Z :=
  idx ← vget (mm_pctToCurveIdx m) (mm_lastIntReadPercentage m);
  maxlat ← vget (mm_maxLatencyPerRdRatio m) idx;
  Ok (if maxlat <? mm_latency m then mm_latency m - maxlat else 0).

(** The predictor as the controller makes it. *)
Definition make_mess (strtod extract : string -> option (spec_float * string)) (files : string -> curve_source)
  (path : string) (window : Z) (freq : spec_float) (channels : Z) : result MessMemCtrl :=
  file ← loadCurveFile strtod extract path (files path);
  MessMemCtrl_new file path window freq channels.

Definition MessController_init {Q} `{PriorityQueue Q} (strtod extract : string -> option (spec_float * string))
  (files : string -> curve_source) (curve_path : string) (window_accesses : Z) (cv : spec_float)
  (dram_impl : string) (cfg : DramConfig) : result (Zoo Q MessMemCtrl) :=
  Mess_init (make_mess strtod extract files) curve_path window_accesses cv dram_impl cfg.

(** ** The table of nearest curves *)

(** A sweep leaves the last owned slot up to each position. *)
Lemma sweep_lookup p step last owner i v :
  sweep p step last owner !! i = Some v ->
  (exists k o, (k <= i)%nat /\ v = p + step * Z.of_nat k /\ owner !! k = Some o /\ 0 <= o /\
     forall m x, (k < m <= i)%nat -> owner !! m = Some x -> x < 0) \/
  (v = last /\ forall m x, (m <= i)%nat -> owner !! m = Some x -> x < 0).
Proof.
  revert p last i. induction owner as [|o owner IH]; intros p last i; cbn [sweep]; [by rewrite lookup_nil|].
  destruct i as [|i]; cbn [lookup list_lookup].
  - intros [= <-]. destruct (Z.leb_spec 0 o).
    + left. exists 0%nat, o. split_and!; [lia|lia|done|done|intros m x; lia].
    + right. split; [done|]. intros [|m] x Hm Hx; [by injection Hx as <-|lia].
  - intros H. apply IH in H as [(k & o' & Hk & -> & Ho & Hp & Hall)|[-> Hall]].
    + left. exists (S k), o'. split_and!; [lia|lia|done|done|]. intros [|m] x Hm Hx; [lia|]. apply (Hall m x); [lia|done].
    + destruct (Z.leb_spec 0 o).
      * left. exists 0%nat, o. split_and!; [lia|lia|done|done|]. intros [|m] x Hm Hx; [lia|]. apply (Hall m x); [lia|done].
      * right. split; [done|]. intros [|m] x Hm Hx; [by injection Hx as <-|]. apply (Hall m x); [lia|done].
Qed.

Lemma length_sweep p step last owner : length (sweep p step last owner) = length owner.
Proof. revert p last. induction owner as [|o owner IH]; intros p last; cbn; [done|]. by rewrite IH. Qed.

Section table.
Context (owner : list Z) (Hlen : length owner = 101%nat).

Lemma nearestLeft_spec p lp :
  0 <= p <= 100 -> vget (nearestLeft owner) p = Ok lp ->
  (0 <= lp <= p /\ (exists o, vget owner lp = Ok o /\ 0 <= o) /\ forall q x, lp < q <= p -> vget owner q = Ok x -> x < 0) \/
  (lp = -1 /\ forall q x, 0 <= q <= p -> vget owner q = Ok x -> x < 0).
Proof.
  intros Hp H. apply vget_Ok in H as [_ H]. apply sweep_lookup in H as [(k & o & Hk & -> & Ho & Hpos & Hall)|[-> Hall]].
  - left. split_and!; [lia|lia| |].
    + exists o. split; [|done]. apply vget_Ok. split; [lia|]. by replace (Z.to_nat (0 + 1 * Z.of_nat k)) with k by lia.
    + intros q x Hq [_ Hx]%vget_Ok. apply (Hall (Z.to_nat q) x); [lia|done].
  - right. split; [done|]. intros q x Hq [_ Hx]%vget_Ok. apply (Hall (Z.to_nat q) x); [lia|done].
Qed.

Lemma rev_owner_lookup k : (k <= 100)%nat -> reverse owner !! k = owner !! (100 - k)%nat.
Proof. intros Hk. rewrite reverse_lookup by lia. f_equal. lia. Qed.

Lemma nearestRight_spec p rp :
  0 <= p <= 100 -> vget (nearestRight owner) p = Ok rp ->
  (p <= rp <= 100 /\ (exists o, vget owner rp = Ok o /\ 0 <= o) /\ forall q x, p <= q < rp -> vget owner q = Ok x -> x < 0) \/
  (rp = -1 /\ forall q x, p <= q <= 100 -> vget owner q = Ok x -> x < 0).
Proof.
  intros Hp H. apply vget_Ok in H as [_ H]. unfold nearestRight in H.
  rewrite reverse_lookup in H by (rewrite length_sweep, length_reverse; lia). rewrite length_sweep, length_reverse, Hlen in H.
  apply sweep_lookup in H as [(k & o & Hk & -> & Ho & Hpos & Hall)|[-> Hall]].
  - left. rewrite rev_owner_lookup in Ho by lia. split_and!; [lia|lia| |].
    + exists o. split; [|done]. apply vget_Ok. split; [lia|]. by replace (Z.to_nat (100 + -1 * Z.of_nat k)) with (100 - k)%nat by lia.
    + intros q x Hq [_ Hx]%vget_Ok. apply (Hall (100 - Z.to_nat q)%nat x); [lia|]. rewrite rev_owner_lookup by lia.
      by replace (100 - (100 - Z.to_nat q))%nat with (Z.to_nat q) by lia.
  - right. split; [done|]. intros q x Hq [_ Hx]%vget_Ok. apply (Hall (100 - Z.to_nat q)%nat x); [lia|]. rewrite rev_owner_lookup by lia.
    by replace (100 - (100 - Z.to_nat q))%nat with (Z.to_nat q) by lia.
Qed.

(** The percentage chosen for a slot has a curve, and none is nearer; of two at the
    same distance the lower is taken. *)
Definition nearest (p q : Z) : Prop :=
  0 <= q <= 100 /\ (exists o, vget owner q = Ok o /\ 0 <= o) /\
  forall q' x, vget owner q' = Ok x -> 0 <= x -> Z.abs (p - q) <= Z.abs (p - q') /\ (Z.abs (p - q) = Z.abs (p - q') -> q <= q').

Lemma choose_nearest p lp rp :
  0 <= p <= 100 -> vget (nearestLeft owner) p = Ok lp -> vget (nearestRight owner) p = Ok rp ->
  (exists q o, vget owner q = Ok o /\ 0 <= o) -> nearest p (choose p lp rp).
Proof.
  intros Hp Hl Hr (q0 & o0 & Hq0 & Ho0). pose proof (vget_bound _ _ _ Hq0) as B0.
  apply nearestLeft_spec in Hl; [|done]. apply nearestRight_spec in Hr; [|done]. unfold choose.
  assert (forall q' x, vget owner q' = Ok x -> 0 <= x -> (lp < q' <= p -> False) /\ (p <= q' < rp -> False) /\
            (lp = -1 -> p < q') /\ (rp = -1 -> q' < p)) as Hout.
  { intros q' x Hx Hpos. pose proof (vget_bound _ _ _ Hx) as B. split_and!; intros Hq.
    - destruct Hl as [(_ & _ & A)|[-> A]]; specialize (A q' x ltac:(lia) Hx); lia.
    - destruct Hr as [(_ & _ & A)|[-> A]]; [specialize (A q' x ltac:(lia) Hx)|specialize (A q' x ltac:(lia) Hx)]; lia.
    - subst. destruct Hl as [(? & _)|[_ A]]; [lia|]. destruct (decide (p < q')); [done|]. specialize (A q' x ltac:(lia) Hx). lia.
    - subst. destruct Hr as [(? & _)|[_ A]]; [lia|]. destruct (decide (q' < p)); [done|]. specialize (A q' x ltac:(lia) Hx). lia. }
  destruct (Hout q0 o0 Hq0 Ho0) as (N1 & N2 & N3 & N4).
  destruct (Z.ltb_spec lp 0); [|destruct (Z.ltb_spec rp 0); [|destruct (Z.leb_spec (p - lp) (rp - p))]];
    destruct Hl as [(L1 & L2 & _)|[-> _]]; try lia; destruct Hr as [(R1 & R2 & _)|[-> _]]; try lia;
    (split; [lia|split; [done|]]); intros q' x Hx Hpos; destruct (Hout q' x Hx Hpos) as (M1 & M2 & M3 & M4); lia.
Qed.
End table.

(** The curve that owns a slot has the percentage of the slot, and every curve's
    percentage is owned. *)
Lemma owner_by_pct_spec owner i l owner' :
  owner_by_pct owner i l = Ok owner' ->
  length owner' = length owner /\
  (forall q o, vget owner' q = Ok o -> vget owner q = Ok o \/ exists k c, l !! k = Some c /\ ce_readPercentage c = q /\ o = i + Z.of_nat k) /\
  (forall c, c ∈ l -> exists k, vget owner' (ce_readPercentage c) = Ok (i + Z.of_nat k) /\ (k < length l)%nat).
Proof.
  revert owner i. induction l as [|c l IH]; intros owner i; cbn [owner_by_pct]; intros H.
  { injection H as <-. split_and!; [done|by left|by intros c Hc%elem_of_nil]. }
  apply bind_Ok in H as (o1 & Hs & H). destruct (IH _ _ H) as (L & A & B). pose proof (vset_length _ _ _ _ Hs) as Ls.
  split_and!; [congruence| |].
  - intros q o Ho. destruct (A q o Ho) as [Ho1|(k & c' & Hk & Hq & ->)].
    + rewrite (vget_vset _ _ _ _ _ Hs) in Ho1. destruct (Z.eqb_spec q (ce_readPercentage c)) as [->|]; [|by left].
      injection Ho1 as <-. right. exists 0%nat, c. split_and!; [done|done|lia].
    + right. exists (S k), c'. split_and!; [done|done|lia].
  - assert (forall c', c' ∈ l -> exists k, vget owner' (ce_readPercentage c') = Ok (i + Z.of_nat k) /\ (k < length (c :: l))%nat) as B'.
    { intros c' Hc'. destruct (B c' Hc') as (k & Hk & Hl). exists (S k). split; [|cbn; lia]. rewrite Hk. f_equal. lia. }
    intros c' [->|Hc']%elem_of_cons; [|by apply B'].
    destruct (vget_in_range owner' (ce_readPercentage c)) as [o Ho].
    { rewrite L, Ls. assert (vget o1 (ce_readPercentage c) = Ok i) as E.
      { rewrite (vget_vset _ _ _ _ _ Hs). by rewrite Z.eqb_refl. }
      apply vget_bound in E. lia. }
    destruct (A _ _ Ho) as [Ho1|(k & c' & Hk & _ & ->)].
    + rewrite (vget_vset _ _ _ _ _ Hs), Z.eqb_refl in Ho1. injection Ho1 as <-. exists 0%nat. split; [by rewrite Z.add_0_r|cbn; lia].
    + exists (S k). apply lookup_lt_Some in Hk. split; [|cbn; lia]. rewrite Ho. f_equal. lia.
Qed.

(** ** Predictions stay within the curves *)

(** The curve the table names for a percentage is a nearest one. *)
Definition nearest_curve (curves : list CurveEntry) (p i : Z) : Prop :=
  exists c, vget curves i = Ok c /\ forall c', c' ∈ curves ->
    let d := Z.abs (p - ce_readPercentage c) in
    let d' := Z.abs (p - ce_readPercentage c') in d <= d' /\ (d = d' -> ce_readPercentage c <= ce_readPercentage c').

Lemma mapM_lookup {A B} (f : A -> result B) (l : list A) l' i a :
  mapM f l = Ok l' -> l !! i = Some a -> exists b, l' !! i = Some b /\ f a = Ok b.
Proof.
  revert l' i. induction l as [|x l IH]; intros l' i H Hi; [done|]. cbn in H. apply bind_Ok in H as (y & Hy & H).
  apply bind_Ok in H as (l1 & Hl & [= <-]). destruct i as [|i]; cbn in *; [injection Hi as <-; by exists y|by apply IH].
Qed.

Lemma pct_to_curve_nearest owner curves table p :
  owner_by_pct (replicate 101 (-1)) 0 curves = Ok owner -> curves <> [] -> Z.of_nat (length curves) < 2 ^ 32 ->
  pct_to_curve owner = Ok table -> 0 <= p <= 100 -> exists i, vget table p = Ok i /\ nearest_curve curves p i.
Proof.
  intros Ho Hne Hsize Ht Hp. apply owner_by_pct_spec in Ho as (L & A & B). rewrite length_replicate in L.
  assert (forall q o, vget owner q = Ok o -> 0 <= o -> exists c, vget curves o = Ok c /\ ce_readPercentage c = q) as A'.
  { intros q o Hq Hpos. destruct (A q o Hq) as [[_ [-> _]%lookup_replicate]%vget_Ok|(k & c & Hk & Hc & ->)]; [lia|].
    exists c. split; [|done]. apply vget_Ok. split; [lia|]. by replace (Z.to_nat (0 + Z.of_nat k)) with k by lia. }
  destruct (mapM_lookup _ _ _ (Z.to_nat p) p Ht) as (i & Hi & Hf); [rewrite lookup_seqZ; lia|].
  apply bind_Ok in Hf as (lp & Hlp & Hf). apply bind_Ok in Hf as (rp & Hrp & Hf). apply bind_Ok in Hf as (o & Hq & [= <-]).
  assert (exists q o, vget owner q = Ok o /\ 0 <= o) as Hex.
  { destruct curves as [|c curves]; [done|]. destruct (B c ltac:(left)) as (k & Hk & _). exists (ce_readPercentage c), (0 + Z.of_nat k). split; [done|lia]. }
  destruct (choose_nearest owner L p lp rp Hp Hlp Hrp Hex) as (_ & (o' & Ho' & Hpos) & Hmin).
  assert (o' = o) as -> by congruence. destruct (A' _ _ Hq Hpos) as (c & Hc & Hpc). exists (wrap_u 32 o). split.
  { apply vget_Ok. split; [lia|done]. }
  pose proof (vget_bound _ _ _ Hc). unfold wrap_u. rewrite Z.mod_small by lia. exists c. split; [done|]. intros c' Hc'.
  destruct (B c' Hc') as (k & Hk & _). rewrite Hpc. apply (Hmin _ _ Hk). lia.
Qed.

(** Every index of the table is one of a nonempty curve with its greatest values. *)
Record mess_wf (m : MessMemCtrl) : Prop := {
  mw_table : forall p, 0 <= p <= 100 -> exists i, vget (mm_pctToCurveIdx m) p = Ok i /\ 0 <= i < Z.of_nat (length (mm_curves_data m));
  mw_bw : length (mm_maxBandwidthPerRdRatio m) = length (mm_curves_data m);
  mw_lat : length (mm_maxLatencyPerRdRatio m) = length (mm_curves_data m);
  mw_curves : Forall (fun c => c <> []) (mm_curves_data m)
}.

Lemma convert_curves_shape s f x l x' cs bws lats :
  convert_curves s f x l = Ok (x', cs, bws, lats) -> Forall (fun c => ce_points c <> []) l ->
  length cs = length l /\ length bws = length l /\ length lats = length l /\ Forall (fun c => c <> []) cs.
Proof.
  revert x x' cs bws lats. induction l as [|c l IH]; intros x x' cs bws lats H Hl; cbn [convert_curves] in H; [by simplify_eq|].
  apply Forall_cons in Hl as [Hc Hl]. apply bind_Ok in H as (lat & _ & H). apply bind_Ok in H as ([[[x1 cs1] bws1] lats1] & Hq & [= <- <- <- <-]).
  destruct (IH _ _ _ _ _ Hq Hl) as (E1 & E2 & E3 & Hf). cbn [length]. rewrite E1, E2, E3.
  split_and!; try done. apply Forall_cons. split; [|done]. by destruct (ce_points c).
Qed.

Lemma validate_nonempty seen l : validate_entries seen l = Ok () -> Forall (fun c => ce_points c <> []) l.
Proof.
  revert seen. induction l as [|c l IH]; intros seen H; [by constructor|]. cbn [validate_entries] in H.
  destruct ((_ || _) || _ || _) eqn:E; [done|]. apply orb_false_iff in E as [_ E%bool_decide_eq_false].
  apply bind_Ok in H as (? & _ & H). constructor; [done|by eapply IH].
Qed.

Lemma new_wf file path window freq channels m :
  validateCurves file = Ok () -> Z.of_nat (length (cf_curves file)) < 2 ^ 32 ->
  MessMemCtrl_new file path window freq channels = Ok m ->
  mess_wf m /\ forall p, 0 <= p <= 100 -> exists i, vget (mm_pctToCurveIdx m) p = Ok i /\ nearest_curve (cf_curves file) p i.
Proof.
  unfold validateCurves, MessMemCtrl_new. intros Hv Hsize H. destruct (_ || _) in Hv; [done|]. apply validate_nonempty in Hv.
  case_bool_decide as Hne; [done|]. apply bind_Ok in H as ([[[x cs] bws] lats] & Hc & H). apply bind_Ok in H as (lat & _ & H).
  apply bind_Ok in H as (owner & Ho & H). apply bind_Ok in H as (table & Ht & [= <-]). cbn.
  destruct (convert_curves_shape _ _ _ _ _ _ _ _ Hc Hv) as (L1 & L2 & L3 & Hf).
  assert (forall p, 0 <= p <= 100 -> exists i, vget table p = Ok i /\ nearest_curve (cf_curves file) p i) as Hn
    by (intros p Hp; by eapply pct_to_curve_nearest).
  split; [|done]. constructor; cbn; [|congruence|congruence|done].
  intros p Hp. destruct (Hn p Hp) as (i & Hi & c & Hci & _). exists i. split; [done|]. apply vget_bound in Hci. lia.
Qed.

Lemma scan_curve_range bw l j fb fl j' fb' fl' :
  scan_curve bw l j fb fl = (j', fb', fl') -> j <= j' <= j + Z.of_nat (length l).
Proof.
  revert j fb fl. induction l as [|pt l IH]; intros j fb fl H; cbn [scan_curve length] in *; [simplify_eq; lia|].
  destruct (if SFeqb fb f64_0 then pt else (fb, fl)) as [fb1 fl1]. destruct (SFleb bw pt.1); [apply IH in H; lia|simplify_eq; lia].
Qed.

Lemma SFltb_irrefl x : SFltb x x = false.
Proof.
  destruct x as [s|s| |s m e]; [done|by destruct s|done|]. unfold SFltb, SFcompare. rewrite Z.compare_refl, Pos.compare_cont_refl.
  by destruct s.
Qed.

Lemma SFleb_false_lt x y : SFleb x y = false -> SFltb x y = false.
Proof. unfold SFleb, SFltb. by destruct (SFcompare x y) as [[]|]. Qed.

(** Whatever is measured, the estimate is computed, and is not below the lead-off
    latency. *)
Lemma estimate_ok m rp bw :
  mess_wf m -> 0 <= rp <= 100 ->
  exists lat lbw llat o, estimate m rp bw = Ok (lat, lbw, llat, o) /\ SFltb lat (mm_leadOffLatency m) = false.
Proof.
  intros [Ht Hb Hl Hc] Hrp. unfold estimate. destruct (Ht rp Hrp) as (i & -> & Hi). cbn [mbind result_bind].
  destruct (vget_in_range (mm_maxBandwidthPerRdRatio m) i ltac:(lia)) as [mb ->]. cbn [mbind result_bind].
  destruct (SFltb _ _).
  - destruct (vget_in_range (mm_maxLatencyPerRdRatio m) i ltac:(lia)) as [ml ->]. cbn [mbind result_bind]. eexists _, _, _, _. split; [done|].
    match goal with |- context [if SFltb ?x ?y then _ else _] => destruct (SFltb x y) eqn:E; [apply SFltb_irrefl|done] end.
  - destruct (vget_in_range (mm_curves_data m) i ltac:(lia)) as [c Hcv]. rewrite Hcv. cbn [mbind result_bind].
    apply vget_Ok in Hcv as [_ Hcv]. assert (c <> []) as Hne by (by eapply Forall_lookup_1 in Hc).
    destruct (scan_curve _ c 0 _ _) as [[j fb] fl] eqn:Es. apply scan_curve_range in Es.
    set (j1 := if j =? Z.of_nat (length c) then wrap_u 32 (j - 1) else j).
    assert (0 <= j1 < Z.of_nat (length c)) as Hj.
    { unfold j1. destruct c as [|c0 c]; [done|]. cbn [length] in *. destruct (Z.eqb_spec j (Z.of_nat (S (length c)))) as [->|]; [|lia].
      unfold wrap_u. pose proof (Z.mod_pos_bound (Z.of_nat (S (length c)) - 1) (2 ^ 32) ltac:(lia)).
      pose proof (Z.mod_le (Z.of_nat (S (length c)) - 1) (2 ^ 32) ltac:(lia) ltac:(lia)). lia. }
    destruct (Z.eqb_spec j1 0) as [->|Hj0]; cbn [negb mbind result_bind].
    + eexists _, _, _, _. split; [done|].
      match goal with |- context [if SFleb ?x ?y then _ else _] => destruct (SFleb x y) eqn:E; [apply SFltb_irrefl|by apply SFleb_false_lt] end.
    + destruct (vget_in_range c j1 ltac:(lia)) as [p1 ->]. cbn [mbind result_bind].
      destruct (vget_in_range c (j1 - 1) ltac:(lia)) as [p2 ->]. cbn [mbind result_bind]. eexists _, _, _, _. split; [done|].
      match goal with |- context [if SFleb ?x ?y then _ else _] => destruct (SFleb x y) eqn:E; [apply SFltb_irrefl|by apply SFleb_false_lt] end.
Qed.

Lemma mess_access_wf m t w l m' : mess_access m t w = Ok (l, m') -> mess_wf m -> mess_wf m' /\ mm_pctToCurveIdx m' = mm_pctToCurveIdx m.
Proof.
  unfold mess_access. intros H [Ht Hb Hl Hc]. apply bind_Ok in H as (m1 & Hm & [= _ <-]).
  destruct (_ =? mm_curveWindowSize _) in Hm; [|injection Hm as <-; done].
  apply bind_Ok in Hm as (m2 & Hu & [= <-]). unfold updateLatency in Hu. apply bind_Ok in Hu as ([v m3] & Hs & [= <-]).
  unfold searchForLatencyOnCurve in Hs. apply bind_Ok in Hs as (rp & _ & Hs). apply bind_Ok in Hs as ([[[e1 e2] e3] e4] & _ & Hs).
  apply bind_Ok in Hs as (v' & _ & [= _ <-]). done.
Qed.

(** ** The loader *)
Section loaded.
Context (strtod extract : string -> option (spec_float * string)).
Hypothesis strtod_rest : forall s v r, strtod s = Some (v, r) -> (String.length r <= String.length s)%nat.

(** A parser that leaves less than [n] characters, or fails for a reason other than the
    bound on its loops. *)
Definition below {A} (n : nat) (m : result (A * string)) : Prop :=
  match m with Ok (_, r) => (String.length r < n)%nat | Err e => e <> OutOfFuel end.

Lemma skipWs_length p : (String.length (skipWs p) <= String.length p)%nat.
Proof. induction p as [|c p IH]; cbn [skipWs]; [done|]. destruct (is_json_space c); cbn; lia. Qed.

Lemma expect_below {B} c p n (f : string -> result (B * string)) :
  (forall r, (String.length r < String.length p)%nat -> below n (f r)) -> below n (expectChar c p ≫= f).
Proof.
  pose proof (skipWs_length p). intros Hf. unfold expectChar, parseError. destruct (skipWs p) as [|x q]; [done|].
  case_bool_decide; [|done]. apply Hf. cbn in *. lia.
Qed.

Lemma raw_string_length p s r : raw_string p = Some (s, r) -> (String.length r < String.length p)%nat.
Proof.
  revert s r. induction p as [|c p IH]; intros s r H; cbn in H; [done|]. case_bool_decide; [simplify_eq; cbn; lia|].
  destruct (raw_string p) as [[s' r']|] eqn:E; [|done]. injection H as <- <-. specialize (IH _ _ eq_refl). cbn. lia.
Qed.

Lemma bind_below {A B} k n (m : result (A * string)) (f : A * string -> result (B * string)) :
  below k m -> (forall a r, (String.length r < k)%nat -> below n (f (a, r))) -> below n (m ≫= f).
Proof. destruct m as [[a r]|e]; cbn; auto. Qed.

Lemma readRawString_below p : below (String.length p) (readRawString p).
Proof.
  unfold readRawString, parseError. apply expect_below. intros r Hr. destruct (raw_string r) as [[s q]|] eqn:E; [|done].
  apply raw_string_length in E. cbn. lia.
Qed.

Lemma readNumber_below p : below (S (String.length p)) (readNumber strtod p).
Proof.
  pose proof (skipWs_length p). unfold readNumber, parseError. case_bool_decide; [done|]. destruct (strtod (skipWs p)) as [[v r]|] eqn:E; [|done].
  apply strtod_rest in E. cbn. lia.
Qed.

Lemma readQuotedInt_below p : below (String.length p) (readQuotedInt p).
Proof.
  unfold readQuotedInt. eapply bind_below; [apply readRawString_below|]. intros key r Hr. unfold parseError. case_bool_decide; [done|].
  destruct (strip_sign (skip_spaces key)) as [neg t]. destruct (digits 10 t None); [|done]. by case_bool_decide.
Qed.

(** A loop over members that each use up a character reaches its end. *)
Lemma members_below {A} fuel close (item : A -> string -> result (A * string)) first acc p :
  (String.length p < fuel)%nat ->
  (forall acc q, (String.length q <= String.length p)%nat -> below (String.length q) (item acc q)) ->
  below (S (String.length p)) (members fuel close item first acc p).
Proof.
  revert first acc p. induction fuel as [|fuel IH]; intros first acc p Hf Hi; [lia|]. cbn [members].
  destruct (peekChar close p) as [d q] eqn:E. assert (String.length q <= String.length p)%nat as Hq.
  { unfold peekChar in E. injection E as _ <-. apply skipWs_length. }
  destruct d; [cbn; lia|].
  assert (forall r, (String.length r <= String.length q)%nat ->
    below (S (String.length p)) (x ← item acc r; members fuel close item false x.1 x.2)) as Hnext.
  { intros r Hr. eapply bind_below; [apply Hi; lia|]. intros a r' Hr'. cbn [fst snd].
    assert (below (S (String.length r')) (members fuel close item false a r')) as Hm.
    { apply IH; [lia|]. intros acc' q' Hq'. apply Hi. lia. }
    unfold below in *. destruct (members fuel close item false a r') as [[? ?]|]; [lia|done]. }
  destruct first; [by apply Hnext|]. apply expect_below. intros r Hr. apply Hnext. lia.
Qed.

Lemma read_pair_below acc p : below (String.length p) (read_pair strtod acc p).
Proof.
  unfold read_pair. apply expect_below. intros r1 H1. eapply bind_below; [apply readNumber_below|]. intros bw r2 H2. cbn [fst snd].
  apply expect_below. intros r3 H3. eapply bind_below; [apply readNumber_below|]. intros lat r4 H4. cbn [fst snd].
  apply expect_below. intros r5 H5. cbn. lia.
Qed.

Lemma read_curve_below fuel acc p : (String.length p < fuel)%nat -> below (String.length p) (read_curve strtod fuel acc p).
Proof.
  intros Hf. unfold read_curve. eapply bind_below; [apply readQuotedInt_below|]. intros k r1 H1. cbn [fst snd].
  apply expect_below. intros r2 H2. apply expect_below. intros r3 H3. destruct (_ || _); [done|].
  eapply bind_below; [apply members_below; [lia|intros; apply read_pair_below]|]. intros x r4 H4. cbn [fst snd].
  apply expect_below. intros r5 H5. cbn. lia.
Qed.

Lemma read_field_below fuel out p : (String.length p < fuel)%nat -> below (String.length p) (read_field strtod fuel out p).
Proof.
  intros Hf. unfold read_field. eapply bind_below; [apply readRawString_below|]. intros k r1 H1. cbn [fst snd].
  apply expect_below. intros r2 H2. unfold parseError. case_bool_decide.
  - eapply bind_below; [apply readNumber_below|]. intros v r3 H3. cbn [fst snd]. destruct (f64_floor v); [|done]. destruct (_ || _); [done|].
    cbn. lia.
  - case_bool_decide; [|done]. apply expect_below. intros r3 H3.
    eapply bind_below; [apply members_below; [lia|intros; apply read_curve_below; lia]|]. intros x r4 H4. cbn [fst snd].
    apply expect_below. intros r5 H5. cbn. lia.
Qed.

Lemma legacy_curve_line_fuel curves line : legacy_curve_line extract curves line <> Err OutOfFuel.
Proof. unfold legacy_curve_line, mess_error. repeat case_match; done. Qed.

Lemma validateCurves_fuel f : validateCurves f <> Err OutOfFuel.
Proof.
  unfold validateCurves, mess_error. destruct (_ || _); [done|]. generalize (∅ : gset Z). induction (cf_curves f) as [|c l IH]; intros seen; [done|].
  cbn [validate_entries]. unfold mess_error. destruct (_ || _); [done|]. 
  assert (forall prev, validate_points prev (ce_points c) <> Err OutOfFuel) as Hp.
  { induction (ce_points c) as [|[bw lat] q IHq]; intros prev; [done|]. cbn [validate_points]. unfold mess_error. by destruct (_ || _). }
  specialize (Hp (S754_infinity false)). destruct (validate_points _ _); cbn; [apply IH|congruence].
Qed.

(** Every text is read to an end, and what is accepted is validated. *)
Lemma loadCurveFile_total path source :
  match loadCurveFile strtod extract path source with Ok f => validateCurves f = Ok () | Err e => e <> OutOfFuel end.
Proof.
  unfold loadCurveFile, mess_error, parseError. destruct source as [| | |text]; [done..|]. pose proof (skipWs_length text) as Hs.
  destruct (skipWs text) as [|c p] eqn:E; [done|]. case_bool_decide; cbn [negb].
  - match goal with |- context [expectChar ?a ?b ≫= _] => pose proof (expect_below (B := unit) a b (String.length b) (fun r => Ok ((), r))) as He end.
    cbn [below] in He. specialize (He ltac:(done)). destruct (expectChar _ _) as [r|] in *; cbn [mbind result_bind] in *; [|done].
    pose proof (members_below (S (String.length text)) "}" (read_field strtod (S (String.length text))) true (mkCurveFile 0 []) r) as Hm.
    specialize (Hm ltac:(cbn in *; lia) ltac:(intros; apply read_field_below; cbn in *; lia)).
    destruct (members _ _ _ _ _ r) as [[f q]|]; cbn [mbind result_bind fst snd] in *; [|done].
    pose proof (expect_below (B := unit) "}" q (String.length q) (fun r => Ok ((), r)) ltac:(done)) as He2.
    destruct (expectChar "}" q) as [r2|]; cbn [mbind result_bind] in *; [|done]. case_bool_decide; cbn [negb]; [|done].
    destruct (_ =? 0); [done|]. pose proof (validateCurves_fuel f). destruct (validateCurves f) as [[]|] eqn:Ev; cbn; [done|congruence].
  - unfold loadLegacyCurves. destruct (foldM _ _ _) as [cs|e] eqn:Ef; cbn [mbind result_bind].
    + match goal with |- context [validateCurves ?f] => pose proof (validateCurves_fuel f); destruct (validateCurves f) as [[]|] eqn:Ev end; cbn; [done|congruence].
    + intros ->. revert Ef. generalize (@nil CurveEntry). induction (getlines (String c p)) as [|ln ls IH]; intros cs; cbn; [done|].
      destruct (legacy_curve_line extract cs ln) as [cs'|e] eqn:El; cbn; [apply IH|]. intros [= ->]. by eapply legacy_curve_line_fuel.
Qed.
End loaded.

Lemma validate_pcts seen l :
  validate_entries seen l = Ok () ->
  NoDup (ce_readPercentage <$> l) /\ forall c, c ∈ l -> 0 <= ce_readPercentage c <= 100 /\ ce_readPercentage c ∉ seen.
Proof.
  revert seen. induction l as [|c l IH]; intros seen H; [split; [constructor|by intros c Hc%elem_of_nil]|]. cbn [validate_entries] in H.
  destruct ((_ || _) || _ || _) eqn:E; [done|]. apply bind_Ok in H as (? & _ & H). apply IH in H as [Hn Hr].
  apply orb_false_iff in E as [[[E1%Z.ltb_ge E2%Z.ltb_ge]%orb_false_iff E3%bool_decide_eq_false]%orb_false_iff _]. split.
  - cbn. constructor; [|done]. intros (c' & Hc' & Hin)%list_elem_of_fmap. destruct (Hr c' Hin) as [_ Hs]. set_solver.
  - intros c' [->|Hc']%elem_of_cons; [done|]. destruct (Hr c' Hc') as [? Hs]. split; [done|set_solver].
Qed.

Lemma validate_length f : validateCurves f = Ok () -> (length (cf_curves f) <= 101)%nat.
Proof.
  unfold validateCurves. destruct (_ || _); [done|]. intros [Hn Hr]%validate_pcts. rewrite <- (length_fmap ce_readPercentage).
  change 101%nat with (length (seqZ 0 101)). apply submseteq_length, NoDup_submseteq; [done|].
  intros x (c & -> & Hc)%list_elem_of_fmap. apply elem_of_seqZ. destruct (Hr c Hc). lia.
Qed.

(** A predictor after any accesses. *)
Inductive mess_run (m0 : MessMemCtrl) : MessMemCtrl -> Prop :=
| mess_start : mess_run m0 m0
| mess_next m t w l m' : mess_run m0 m -> mess_access m t w = Ok (l, m') -> mess_run m0 m'.

(** In every run of a predictor made from a curve file each read percentage selects a
    nearest curve of the file, and whatever bandwidth is measured the estimate is
    computed within that curve and is not below the lead-off latency. *)
Theorem mess_estimates_within_curves strtod extract files path window freq channels m0 m rp bw :
  (forall s v r, strtod s = Some (v, r) -> (String.length r <= String.length s)%nat) ->
  make_mess strtod extract files path window freq channels = Ok m0 -> mess_run m0 m -> 0 <= rp <= 100 ->
  (exists file i, loadCurveFile strtod extract path (files path) = Ok file /\ vget (mm_pctToCurveIdx m) rp = Ok i /\
     nearest_curve (cf_curves file) rp i) /\
  exists lat lbw llat o, estimate m rp bw = Ok (lat, lbw, llat, o) /\ SFltb lat (mm_leadOffLatency m) = false.
Proof.
  intros Hs H Hr Hrp. apply bind_Ok in H as (file & Hf & H). pose proof (loadCurveFile_total strtod extract Hs path (files path)) as Hv.
  rewrite Hf in Hv. pose proof (validate_length _ Hv) as Hl. destruct (new_wf _ _ _ _ _ _ Hv ltac:(lia) H) as [Hwf Hn].
  assert (mess_wf m /\ mm_pctToCurveIdx m = mm_pctToCurveIdx m0) as [Hwf' Et].
  { clear -Hr Hwf. induction Hr as [|m t w l m' _ [IH1 IH2] Ha]; [done|]. destruct (mess_access_wf _ _ _ _ _ Ha IH1) as [? ->]. done. }
  split; [|by apply estimate_ok]. destruct (Hn rp Hrp) as (i & Hi & Hni). exists file, i. by rewrite Et.
Qed.

(** ** A run *)

(** Decimal integers only. *)
Definition toy_strtod (s : string) : option (spec_float * string) :=
  match digits 10 s None with Some n => Some (f64_of_Z n, skip_digits 10 s) | None => None end.

Definition quoted (s : string) : string := String quote (s +:+ String quote EmptyString).
Definition toy_json : string :=
  "{ " +:+ quoted "measuredChannels" +:+ ": 1, " +:+ quoted "curves" +:+ ": { " +:+ quoted "100" +:+ ": [[6400,80],[640,20]], " +:+
  quoted "50" +:+ ": [[3200,90]] } }".

(** A window of a read and a write, and a window of reads: latencies before and after. *)
Definition toy_run : result (Z * Z * Z * list Z) :=
  m ← make_mess toy_strtod toy_strtod (fun _ => Contents toy_json) "curves" 2 f64_1 1;
  i75 ← vget (mm_pctToCurveIdx m) 75;
  i76 ← vget (mm_pctToCurveIdx m) 76;
  a ← mess_access m 10 false;
  b ← mess_access a.2 11 true;
  c ← mess_access b.2 12 false;
  d ← mess_access c.2 13 false;
  Ok (mm_latency m, i75, i76, [a.1; b.1; c.1; d.1]).

Example toy_run_result : toy_run = Ok (20, 1, 0, [20; 23; 23; 26]).
Proof. vm_compute. reflexivity. Qed.
