(* ===== verification/Bridge.v ===== *)
(** * The ChampSim bridge

    [resources/champsim_bridge]: the memory backend behind ChampSim's
    [MEMORY_CONTROLLER].  The channels of ChampSim queue packets; [cycle] sends
    them to a memory system of any kind and returns the answers to the channel
    that asked.  A pointer to a channel is its index in the vector of queues, a
    callback the token it captures.  [bridge_responses_conserved]: no answer is
    lost, made up or misdelivered.  [bridge_windows_exact]: the reads reported for
    the measured window of a core are exactly those a reader of the request trace
    selects.  [bridge_tick_ratio]: the clock ratio over any run. *)

From Stdlib Require Import ZArith Lia.
From S2P Require Import Prelude Base Mapping MemSystem Latency Elision Simulation SimExamples SyntheticProps MemProps.
From S2P Require Import GenericDDR Refresh.

Local Open Scope Z_scope.

(** ** Packets and channels *)

(** [access_type]. *)
Inductive access_type := LOAD | RFO | PREFETCH | WRITE | TRANSLATION | NUM_TYPES.
#[export] Instance access_type_eq_dec : EqDecision access_type.
Proof. solve_decision. Defined.

(** [channel::request]; an address is its 64-bit value. *)
Record packet := mkPacket {
  pk_is_translated : bool;
  pk_response_requested : bool;
  pk_asid : Z * Z;
  pk_type : access_type;
  pk_pf_metadata : Z;
  pk_cpu : Z;
  pk_address : Z;
  pk_v_address : Z;
  pk_data : Z;
  pk_instr_id : Z;
  pk_ip : Z;
  pk_instr_depend_on_me : list Z
}.
#[export] Instance packet_eq_dec : EqDecision packet.
Proof. solve_decision. Defined.

(** [channel::response]. *)
Record response := mkResponse {
  rs_address : Z;
  rs_v_address : Z;
  rs_data : Z;
  rs_pf_metadata : Z;
  rs_instr_depend_on_me : list Z
}.
#[export] Instance response_eq_dec : EqDecision response.
Proof. solve_decision. Defined.

Definition response_of (p : packet) : response :=
  mkResponse (pk_address p) (pk_v_address p) (pk_data p) (pk_pf_metadata p) (pk_instr_depend_on_me p).

(** [cache_queue_stats]: accesses, accepted and rejected per queue. *)
Record queue_stats := mkQueueStats { qs_access : Z; qs_to_cache : Z; qs_full : Z }.

Record channel := mkChannel {
  RQ : list packet;
  PQ : list packet;
  WQ : list packet;
  returned : list response;
  RQ_SIZE : Z;
  PQ_SIZE : Z;
  WQ_SIZE : Z;
  rq_stats : queue_stats;
  pq_stats : queue_stats;
  wq_stats : queue_stats
}.

Definition set_RQ (c : channel) (q : list packet) : channel :=
  mkChannel q (PQ c) (WQ c) (returned c) (RQ_SIZE c) (PQ_SIZE c) (WQ_SIZE c) (rq_stats c) (pq_stats c) (wq_stats c).
Definition set_PQ (c : channel) (q : list packet) : channel :=
  mkChannel (RQ c) q (WQ c) (returned c) (RQ_SIZE c) (PQ_SIZE c) (WQ_SIZE c) (rq_stats c) (pq_stats c) (wq_stats c).
Definition set_WQ (c : channel) (q : list packet) : channel :=
  mkChannel (RQ c) (PQ c) q (returned c) (RQ_SIZE c) (PQ_SIZE c) (WQ_SIZE c) (rq_stats c) (pq_stats c) (wq_stats c).
Definition set_returned (c : channel) (l : list response) : channel :=
  mkChannel (RQ c) (PQ c) (WQ c) l (RQ_SIZE c) (PQ_SIZE c) (WQ_SIZE c) (rq_stats c) (pq_stats c) (wq_stats c).
Definition set_queue_stats (c : channel) (r p w : queue_stats) : channel :=
  mkChannel (RQ c) (PQ c) (WQ c) (returned c) (RQ_SIZE c) (PQ_SIZE c) (WQ_SIZE c) r p w.

Definition do_add_queue (queue : list packet) (queue_size : Z) (p : packet) : bool * list packet :=
  if queue_size <=? Z.of_nat (length queue) then (false, queue) else (true, queue ++ [p]).

(** The statistics of one attempt. *)
Definition count_add (s : queue_stats) (result : bool) : queue_stats :=
  mkQueueStats (qs_access s + 1) (qs_to_cache s + Z.b2z result) (qs_full s + Z.b2z (negb result)).

Definition add_rq (c : channel) (p : packet) : bool * channel :=
  let '(result, q) := do_add_queue (RQ c) (RQ_SIZE c) p in
  (result, set_queue_stats (set_RQ c q) (count_add (rq_stats c) result) (pq_stats c) (wq_stats c)).
Definition add_pq (c : channel) (p : packet) : bool * channel :=
  let '(result, q) := do_add_queue (PQ c) (PQ_SIZE c) p in
  (result, set_queue_stats (set_PQ c q) (rq_stats c) (count_add (pq_stats c) result) (wq_stats c)).
Definition add_wq (c : channel) (p : packet) : bool * channel :=
  let '(result, q) := do_add_queue (WQ c) (WQ_SIZE c) p in
  (result, set_queue_stats (set_WQ c q) (rq_stats c) (pq_stats c) (count_add (wq_stats c) result)).

(** ** The identity of a request *)
Record request_identity := mkIdentity { ri_source_id : Z; ri_frontend_id : Z; ri_frontend_sub_id : Z }.

Definition make_request_identity (cpu instr_id frontend_virtual_address physical_address : Z) (type : access_type)
  (tx_bytes : Z) : request_identity :=
  let source := if cpu <=? 2 ^ 31 - 1 then cpu else -1 in
  let result := mkIdentity source (-1) 0 in
  let is_load := bool_decide (type = LOAD) in
  let is_rfo := bool_decide (type = RFO) in
  if (source <? 0) || (negb is_load && negb is_rfo) || (tx_bytes <=? 0) || (2 ^ 63 - 1 <? instr_id) then result
  else
    let transaction := frontend_virtual_address / tx_bytes in
    if (2 ^ 63 - 1) / 2 <? transaction then result
    else mkIdentity source instr_id (transaction * 2 + (if is_rfo then 1 else 0)).

(** ** The bridge *)

(** [ul] is null for a packet that asked for no answer. *)
Record Pending := mkPending { pd_pkt : packet; pd_ul : option nat }.

Record Window := mkWindow {
  w_begin : Z;
  w_end : Z;
  w_reads : Z;
  w_begin_reads : Z;
  w_measured_reads : Z
}.
Definition Window_default : Window := mkWindow 0 (-1) 0 0 0.

(** A row of the request trace, in the order of its columns. *)
Record ReqRow := mkReqRow {
  row_cycle : Z;
  row_type : Z;
  row_source : Z;
  row_addr : Z;
  row_frontend_id : Z;
  row_frontend_sub_id : Z;
  row_admission_ordinal : Z
}.

(** The counters [m_next_token], [m_cycle] and those of the windows have 64 bits
    and count events of a run; they are unbounded here. *)
Record Bridge (M : Type) := mkBridge {
  br_ms : M;
  br_inflight : gmap Z Pending;
  br_done : list Pending;
  br_next_token : Z;
  br_tx_bytes : Z;
  br_reqtrace : option (list ReqRow);
  br_cycle : Z;
  br_windows : list Window;
  br_next_admission : Z;
  br_ticks_per_8 : Z;
  br_tick_acc : Z
}.
Arguments mkBridge {M}.
Arguments br_ms {M}.
Arguments br_inflight {M}.
Arguments br_done {M}.
Arguments br_next_token {M}.
Arguments br_tx_bytes {M}.
Arguments br_reqtrace {M}.
Arguments br_cycle {M}.
Arguments br_windows {M}.
Arguments br_next_admission {M}.
Arguments br_ticks_per_8 {M}.
Arguments br_tick_acc {M}.

Definition invalid_admission : error := Throw "invalid admission identity for measurement window".

Section bridge.
Context {M : Type} `{IMemorySystem M} `{Callbacks M}.

(** The constructor, on the memory system the factory made from the
    configuration; [reqtrace] when [RAMULATOR_REQTRACE] is set. *)
Definition Bridge_init (num_cpus : Z) (m : M) (reqtrace : bool) (ticks_per_8 : Z) : result (Bridge M) :=
  if (num_cpus =? 0) || (2 ^ 31 - 1 <? num_cpus) then
    Err (Throw "ChampSim NUM_CPUS does not fit Ramulator's source-id domain")
  else
    Ok (mkBridge m ∅ [] 0 (ms_get_tx_bytes m) (if reqtrace then Some [] else None) 0
          (replicate (Z.to_nat num_cpus) Window_default) 0 ticks_per_8 0).

Definition set_ms (b : Bridge M) (m : M) : Bridge M :=
  mkBridge m (br_inflight b) (br_done b) (br_next_token b) (br_tx_bytes b) (br_reqtrace b) (br_cycle b)
    (br_windows b) (br_next_admission b) (br_ticks_per_8 b) (br_tick_acc b).
Definition set_inflight (b : Bridge M) (i : gmap Z Pending) (done : list Pending) : Bridge M :=
  mkBridge (br_ms b) i done (br_next_token b) (br_tx_bytes b) (br_reqtrace b) (br_cycle b)
    (br_windows b) (br_next_admission b) (br_ticks_per_8 b) (br_tick_acc b).
Definition set_next_token (b : Bridge M) (t : Z) : Bridge M :=
  mkBridge (br_ms b) (br_inflight b) (br_done b) t (br_tx_bytes b) (br_reqtrace b) (br_cycle b)
    (br_windows b) (br_next_admission b) (br_ticks_per_8 b) (br_tick_acc b).
Definition set_windows (b : Bridge M) (ws : list Window) (next : Z) : Bridge M :=
  mkBridge (br_ms b) (br_inflight b) (br_done b) (br_next_token b) (br_tx_bytes b) (br_reqtrace b) (br_cycle b)
    ws next (br_ticks_per_8 b) (br_tick_acc b).
Definition set_cycle (b : Bridge M) (cycle acc : Z) : Bridge M :=
  mkBridge (br_ms b) (br_inflight b) (br_done b) (br_next_token b) (br_tx_bytes b) (br_reqtrace b) cycle
    (br_windows b) (br_next_admission b) (br_ticks_per_8 b) acc.
Definition write_reqtrace (b : Bridge M) (r : ReqRow) : Bridge M :=
  mkBridge (br_ms b) (br_inflight b) (br_done b) (br_next_token b) (br_tx_bytes b) ((.++ [r]) <$> br_reqtrace b) (br_cycle b)
    (br_windows b) (br_next_admission b) (br_ticks_per_8 b) (br_tick_acc b).

(** The callback of a read. *)
Definition complete_read (b : Bridge M) (r : Request) : Bridge M :=
  match callback r with
  | None => b
  | Some token =>
      match br_inflight b !! token with
      | Some p => set_inflight b (delete token (br_inflight b)) (br_done b ++ [p])
      | None => b
      end
  end.

(** The memory system has changed, and has run callbacks. *)
Definition with_callbacks (b : Bridge M) (m : M) : Bridge M :=
  let '(done, m) := take_callbacks m in foldl complete_read (set_ms b m) done.

Definition note_admission (b : Bridge M) (req : Request) : result (Bridge M) :=
  if (admission_ordinal req <? br_next_admission b) || (source_id req <? 0) ||
     (Z.of_nat (length (br_windows b)) <=? source_id req)
  then Err invalid_admission
  else
    let next := admission_ordinal req + 1 in
    if type_id req =? Read then
      w ← vget (br_windows b) (source_id req);
      ws ← vset (br_windows b) (source_id req)
             (mkWindow (w_begin w) (w_end w) (w_reads w + 1) (w_begin_reads w) (w_measured_reads w));
      Ok (set_windows b ws next)
    else Ok (set_windows b (br_windows b) next).

Definition measurement_begin (b : Bridge M) : Bridge M :=
  set_windows b
    ((fun w => mkWindow (br_next_admission b) (w_end w) (w_reads w) (w_reads w) (w_measured_reads w)) <$> br_windows b)
    (br_next_admission b).

Definition measurement_end (b : Bridge M) (cpu : nat) : result (Bridge M) :=
  match br_windows b !! cpu with
  | None => Err (Throw "vector::_M_range_check")
  | Some w =>
      if negb (w_end w =? -1) then Err (Throw "measurement window ended twice")
      else
        Ok (set_windows b
              (<[cpu := mkWindow (w_begin w) (br_next_admission b) (w_reads w) (w_begin_reads w)
                                   (w_reads w - w_begin_reads w)]> (br_windows b))
              (br_next_admission b))
  end.

(** The fields of the printed lines: core, begin, end, admitted reads, total. *)
Definition measurement_report (b : Bridge M) : list (Z * Z * Z * Z * Z) :=
  imap (fun i w => (Z.of_nat i, w_begin w, w_end w, w_measured_reads w, w_reads w)) (br_windows b).

(** The request of a packet; [Addr_t] is signed. *)
Definition packet_request (b : Bridge M) (p : packet) (type fid fsub : Z) (cb : option Z) (source : Z) : Request :=
  mkRequest (wrap_s 64 (pk_address p)) (-1) [] type source (-1) fid fsub (-1) (br_tx_bytes b) (-1) (-1) false (-1) (-1) cb.

Definition packet_identity (b : Bridge M) (p : packet) : request_identity :=
  make_request_identity (pk_cpu p) (pk_instr_id p) (pk_v_address p) (pk_address p) (pk_type p) (br_tx_bytes b).

Definition row_of (b : Bridge M) (p : packet) (type : Z) (req : Request) : ReqRow :=
  mkReqRow (br_cycle b) type (source_id req) (pk_address p) (frontend_id req) (frontend_sub_id req) (admission_ordinal req).

(** [unordered_map::emplace] keeps an element that is there. *)
Definition emplace (i : gmap Z Pending) (token : Z) (p : Pending) : gmap Z Pending :=
  match i !! token with Some _ => i | None => <[token := p]> i end.

Definition send_read (b : Bridge M) (p : packet) (ul : option nat) : result (bool * Bridge M) :=
  let id := packet_identity b p in
  let token := br_next_token b in
  let b := set_next_token b (token + 1) in
  q ← ms_send (br_ms b) (packet_request b p Read (ri_frontend_id id) (ri_frontend_sub_id id) (Some token) (ri_source_id id));
  let '(ok, req, m) := q in
  let b := with_callbacks b m in
  if negb ok then Ok (false, b)
  else
    b ← note_admission b req;
    let b := write_reqtrace b (row_of b p 0 req) in
    Ok (true, set_inflight b (emplace (br_inflight b) token (mkPending p ul)) (br_done b)).

Definition send_write (b : Bridge M) (p : packet) : result (bool * Bridge M) :=
  q ← ms_send (br_ms b) (packet_request b p Write (-1) 0 None (ri_source_id (packet_identity b p)));
  let '(ok, req, m) := q in
  let b := with_callbacks b m in
  if (ok : bool) then
    b ← note_admission b req;
    Ok (true, write_reqtrace b (row_of b p 1 req))
  else Ok (false, b).

(** [while (m_tick_acc >= 8)]: eight less in every round. *)
Fixpoint tick_memory (fuel : nat) (b : Bridge M) : result (Bridge M) :=
  match fuel with
  | O => Err OutOfFuel
  | S fuel =>
      if br_tick_acc b <? 8 then Ok b
      else
        let b := set_cycle b (br_cycle b) (br_tick_acc b - 8) in
        m ← ms_tick (br_ms b);
        tick_memory fuel (with_callbacks b m)
  end.

(** [while (!m_done.empty())]: the front goes to its channel. *)
Definition deliver_response (chs : list channel) (p : Pending) : result (list channel) :=
  match pd_ul p with
  | None => Ok chs
  | Some i =>
      c ← vget chs (Z.of_nat i);
      vset chs (Z.of_nat i) (set_returned c (returned c ++ [response_of (pd_pkt p)]))
  end.

Definition bridge_tick (chs : list channel) (b : Bridge M) : result (list channel * Bridge M) :=
  acc ← s32 (br_tick_acc b + br_ticks_per_8 b);
  let b := set_cycle b (br_cycle b + 1) acc in
  b ← tick_memory (S (Z.to_nat (acc / 8))) b;
  chs ← foldM deliver_response chs (br_done b);
  Ok (chs, set_inflight b (br_inflight b) []).

(** The [while] loops of [cycle]: the packets left, how many went out. *)
Fixpoint drain_queue (send : Bridge M -> packet -> result (bool * Bridge M)) (q : list packet) (b : Bridge M)
  : result (list packet * Z * Bridge M) :=
  match q with
  | [] => Ok ([], 0, b)
  | p :: q' =>
      r ← send b p;
      let '(ok, b) := r in
      if (ok : bool) then t ← drain_queue send q' b; Ok (t.1.1, t.1.2 + 1, t.2) else Ok (q, 0, b)
  end.

Definition serve_channel (s : list channel * Z * Bridge M) (i : nat) : result (list channel * Z * Bridge M) :=
  let '(chs, progress, b) := s in
  c ← vget chs (Z.of_nat i);
  let read b p := send_read b p (if pk_response_requested p then Some i else None) in
  r ← drain_queue read (RQ c) b;
  p ← drain_queue read (PQ c) r.2;
  w ← drain_queue send_write (WQ c) p.2;
  chs ← vset chs (Z.of_nat i) (set_WQ (set_PQ (set_RQ c r.1.1) p.1.1) w.1.1);
  Ok (chs, progress + r.1.2 + p.1.2 + w.1.2, w.2).

Definition cycle (chs : list channel) (b : Bridge M) : result (Z * list channel * Bridge M) :=
  s ← foldM serve_channel (chs, 0, b) (seq 0 (length chs));
  let '(chs, progress, b) := s in
  t ← bridge_tick chs b;
  Ok (progress + 1, t.1, t.2).
End bridge.

(** [warmup_cycle]: every read is answered at once, every write dropped. *)
Definition warmup_channel (c : channel) : channel :=
  let answers q := response_of <$> filter (fun p => pk_response_requested p = true) q in
  set_WQ (set_PQ (set_RQ (set_returned c (returned c ++ answers (RQ c) ++ answers (PQ c))) []) []) [].

Definition warmup_cycle (chs : list channel) : Z * list channel :=
  (foldl Z.add 0 ((fun c => Z.of_nat (length (RQ c) + length (PQ c) + length (WQ c))) <$> chs), warmup_channel <$> chs).

(** [MEMORY_CONTROLLER::operate] with the bridge active. *)
Definition operate {M} `{IMemorySystem M} `{Callbacks M} (warmup : bool) (chs : list channel) (b : Bridge M)
  : result (Z * list channel * Bridge M) :=
  if warmup then let '(progress, chs) := warmup_cycle chs in Ok (progress, chs, b) else cycle chs b.

(** ** Runs

    The caches above put packets into the queues of a channel and take answers
    from it, ChampSim operates the controller and opens and closes the measured
    windows, in any order.  [h_accepted] and [h_consumed] note the answers asked
    for and taken. *)
Inductive queue_name := ReadQueue | PrefetchQueue | WriteQueue.
Inductive host_input :=
| Arrive (i : nat) (k : queue_name) (p : packet)
| Consume (i n : nat)
| Operate (warmup : bool)
| MeasureBegin
| MeasureEnd (cpu : nat).

Record Host (M : Type) := mkHost {
  h_channels : list channel;
  h_bridge : Bridge M;
  h_accepted : list (nat * response);
  h_consumed : list (nat * response)
}.
Arguments mkHost {M}.
Arguments h_channels {M}.
Arguments h_bridge {M}.
Arguments h_accepted {M}.
Arguments h_consumed {M}.

Section host.
Context {M : Type} `{IMemorySystem M} `{Callbacks M}.

Definition host_event (h : Host M) (e : host_input) : result (Host M) :=
  match e with
  | Arrive i k p =>
      c ← vget (h_channels h) (Z.of_nat i);
      let '(ok, c) := match k with ReadQueue => add_rq c p | PrefetchQueue => add_pq c p | WriteQueue => add_wq c p end in
      chs ← vset (h_channels h) (Z.of_nat i) c;
      let answered := match k with WriteQueue => false | _ => ok && pk_response_requested p end in
      Ok (mkHost chs (h_bridge h) (h_accepted h ++ if answered then [(i, response_of p)] else []) (h_consumed h))
  | Consume i n =>
      c ← vget (h_channels h) (Z.of_nat i);
      chs ← vset (h_channels h) (Z.of_nat i) (set_returned c (drop n (returned c)));
      Ok (mkHost chs (h_bridge h) (h_accepted h) (h_consumed h ++ (pair i <$> take n (returned c))))
  | Operate w =>
      r ← operate w (h_channels h) (h_bridge h);
      Ok (mkHost r.1.2 r.2 (h_accepted h) (h_consumed h))
  | MeasureBegin => Ok (mkHost (h_channels h) (measurement_begin (h_bridge h)) (h_accepted h) (h_consumed h))
  | MeasureEnd cpu =>
      b ← measurement_end (h_bridge h) cpu;
      Ok (mkHost (h_channels h) b (h_accepted h) (h_consumed h))
  end.

Definition host_run (h : Host M) (evs : list host_input) : result (Host M) := foldM host_event h evs.
End host.

(** ** Identities *)

Definition eligible (r : request_identity) : Prop := ri_frontend_id r <> -1.

Lemma identity_eligible cpu i v p t tx :
  0 <= v -> eligible (make_request_identity cpu i v p t tx) ->
  (t = LOAD \/ t = RFO) /\ 0 <= v / tx < 2 ^ 62 /\
  make_request_identity cpu i v p t tx = mkIdentity cpu i (v / tx * 2 + (if bool_decide (t = RFO) then 1 else 0)).
Proof.
  intros Hv. unfold eligible, make_request_identity.
  destruct (Z.leb_spec cpu (2 ^ 31 - 1)); cbn [Z.ltb Z.compare orb ri_frontend_id]; [|done].
  destruct (Z.ltb_spec cpu 0); [done|]. destruct (Z.leb_spec tx 0); [by rewrite !orb_true_r|].
  destruct (Z.ltb_spec (2 ^ 63 - 1) i); [by rewrite !orb_true_r|].
  assert (0 <= v / tx) by (apply Z.div_pos; lia).
  destruct (Z.ltb_spec ((2 ^ 63 - 1) / 2) (v / tx)) as [|Hh]; [by case_match|].
  change ((2 ^ 63 - 1) / 2) with (2 ^ 62 - 1) in Hh.
  destruct t; cbn; (done || (intros _; split_and!; auto; lia)).
Qed.

(** Equal identities of eligible packets: the same core, instruction, kind of
    demand and virtual transaction, whatever their physical addresses. *)
Lemma identity_injective cpu1 i1 v1 p1 t1 cpu2 i2 v2 p2 t2 tx :
  0 <= v1 -> 0 <= v2 -> eligible (make_request_identity cpu1 i1 v1 p1 t1 tx) ->
  make_request_identity cpu1 i1 v1 p1 t1 tx = make_request_identity cpu2 i2 v2 p2 t2 tx ->
  cpu1 = cpu2 /\ i1 = i2 /\ v1 / tx = v2 / tx /\ t1 = t2.
Proof.
  intros Hv1 Hv2 H1 Heq. pose proof H1 as H2. rewrite Heq in H2.
  destruct (identity_eligible _ _ _ _ _ _ Hv1 H1) as (Ht1 & _ & E1), (identity_eligible _ _ _ _ _ _ Hv2 H2) as (Ht2 & _ & E2).
  rewrite E1, E2 in Heq. injection Heq as -> -> Hs.
  destruct Ht1 as [-> | ->], Ht2 as [-> | ->]; vm_compute bool_decide in Hs; cbv iota in Hs; split_and!; reflexivity || lia.
Qed.

(** ** Every answer reaches the channel that asked, once *)

(** Lists summed over the elements of a vector, and a store to one element. *)
Definition gather {A B} (f : nat -> A -> list B) (l : list A) : list B := concat (imap f l).

Lemma gather_app {A B} (f : nat -> A -> list B) l1 l2 :
  gather f (l1 ++ l2) = gather f l1 ++ gather (fun i => f (length l1 + i)%nat) l2.
Proof. unfold gather. by rewrite imap_app, concat_app. Qed.

Lemma gather_insert {A B} (f : nat -> A -> list B) l i x y :
  l !! i = Some x -> f i y ++ gather f l ≡ₚ f i x ++ gather f (<[i := y]> l).
Proof.
  intros Hx. assert (i < length l)%nat by (eapply lookup_lt_Some; eauto).
  rewrite <- (take_drop_middle _ _ _ Hx) at 1. rewrite insert_take_drop by done.
  rewrite !gather_app, length_take_le by lia. unfold gather. cbn [imap concat]. rewrite !Nat.add_0_r.
  rewrite !(Permutation_app_swap_app (concat (imap f (take i l)))). apply Permutation_app_swap_app.
Qed.

Lemma gather_nil {A B} (f : nat -> A -> list B) l : (forall i x, x ∈ l -> f i x = []) -> gather f l = [].
Proof.
  unfold gather. revert f. induction l as [|x l IH]; intros f Hf; cbn; [done|]. rewrite Hf by (left; done).
  apply (IH (f ∘ S)). intros i y Hy. apply Hf. by right.
Qed.

Lemma gather_balance {A B} (f g f' g' : nat -> A -> list B) l :
  (forall i x, f i x ++ g i x ≡ₚ f' i x ++ g' i x) -> gather f l ++ gather g l ≡ₚ gather f' l ++ gather g' l.
Proof.
  unfold gather. revert f g f' g'. induction l as [|x l IH]; intros f g f' g' Hb; cbn; [done|].
  specialize (IH (f ∘ S) (g ∘ S) (f' ∘ S) (g' ∘ S) (fun i x => Hb (S i) x)). specialize (Hb 0%nat x).
  rewrite (Permutation_app_swap_app (f 0%nat x ++ _)), (Permutation_app_swap_app (f' 0%nat x ++ _)).
  rewrite <- !app_assoc, IH. rewrite !(app_assoc (g _ _)), !(app_assoc (g' _ _)).
  by rewrite (Permutation_app_comm (g _ _)), (Permutation_app_comm (g' _ _)), Hb.
Qed.

(** What is owed for packets held by a channel or by the bridge, and what was
    given back, with the channel. *)
Definition answer_due (p : Pending) : list (nat * response) :=
  match pd_ul p with Some i => [(i, response_of (pd_pkt p))] | None => [] end.
Definition asked (i : nat) (p : packet) : Pending := mkPending p (if pk_response_requested p then Some i else None).
Definition channel_due (i : nat) (c : channel) : list (nat * response) :=
  (asked i <$> RQ c ++ PQ c) ≫= answer_due.
Lemma asked_due i q : (asked i <$> q) ≫= answer_due = pair i <$> (response_of <$> filter (fun p => pk_response_requested p = true) q).
Proof.
  induction q as [|p q IH]; [done|]. cbn [fmap list_fmap mbind list_bind]. change (list_fmap _ _ (asked i) q) with (asked i <$> q).
  rewrite IH, filter_cons. unfold asked, answer_due. by destruct (pk_response_requested p).
Qed.

Definition channel_returned (i : nat) (c : channel) : list (nat * response) := pair i <$> returned c.

Section held.
Context {M : Type} `{IMemorySystem M} `{Callbacks M}.
Implicit Types b : Bridge M.

Definition held b : list Pending := (map_to_list (br_inflight b)).*2 ++ br_done b.
Definition tokens_old b : Prop := forall t, is_Some (br_inflight b !! t) -> t < br_next_token b.

(** A change that keeps what is held. *)
Definition keeps_held b b' : Prop :=
  held b' ≡ₚ held b /\ br_next_token b' = br_next_token b /\ br_inflight b' ⊆ br_inflight b.

#[local] Instance keeps_held_refl : Reflexive keeps_held.
Proof. intros b. by split. Qed.
#[local] Instance keeps_held_trans : Transitive keeps_held.
Proof.
  intros b1 b2 b3 (P1 & N1 & S1) (P2 & N2 & S2). split_and!; [by rewrite P2|by rewrite N2|by transitivity (br_inflight b2)].
Qed.

Lemma keeps_held_same b b' :
  br_inflight b' = br_inflight b -> br_done b' = br_done b -> br_next_token b' = br_next_token b -> keeps_held b b'.
Proof. intros Hi Hd Hn. unfold keeps_held, held. rewrite Hi, Hd, Hn. by split_and!. Qed.

Lemma on_complete_keeps b r : keeps_held b (complete_read b r).
Proof.
  unfold complete_read. destruct (callback r) as [t|]; [|done]. destruct (br_inflight b !! t) as [p|] eqn:Ht; [|done].
  split_and!; [|done|apply delete_subseteq].
  unfold held. cbn. rewrite <- (map_to_list_delete (br_inflight b) t p Ht). cbn. by rewrite app_assoc, <- Permutation_cons_append.
Qed.

Lemma with_callbacks_keeps b m : keeps_held b (with_callbacks b m).
Proof.
  unfold with_callbacks. destruct (take_callbacks m) as [l m'].
  transitivity (set_ms b m'); [by apply keeps_held_same|]. generalize (set_ms b m'). clear.
  induction l as [|r l IH]; intros b; cbn; [done|]. etransitivity; [apply on_complete_keeps|apply IH].
Qed.

Lemma note_admission_keeps b r b' : note_admission b r = Ok b' -> keeps_held b b'.
Proof. unfold note_admission. intros Hn. repeat case_match; inv_res; try done; by apply keeps_held_same. Qed.

Lemma tick_memory_keeps fuel b b' : tick_memory fuel b = Ok b' -> keeps_held b b'.
Proof.
  revert b. induction fuel as [|fuel IH]; intros b Ht; cbn [tick_memory] in Ht; [done|].
  case_match; [by inv_res|]. apply bind_Ok in Ht as (m & _ & Ht).
  transitivity (set_cycle b (br_cycle b) (br_tick_acc b - 8)); [by apply keeps_held_same|].
  etransitivity; [apply with_callbacks_keeps|exact (IH _ Ht)].
Qed.

(** A send hands over its packet when it is accepted. *)
Definition takes_over (l : list Pending) b b' : Prop := tokens_old b -> held b' ≡ₚ l ++ held b /\ tokens_old b'.

Lemma keeps_takes b b' : keeps_held b b' -> takes_over [] b b'.
Proof.
  intros (Hp & Hn & Hs) Ho. split; [done|]. intros t [p Ht]. rewrite Hn. apply Ho. exists p. by eapply lookup_weaken.
Qed.

Lemma takes_app l1 l2 b1 b2 b3 : takes_over l1 b1 b2 -> takes_over l2 b2 b3 -> takes_over (l1 ++ l2) b1 b3.
Proof.
  intros T1 T2 Ho. destruct (T1 Ho) as [P1 O1], (T2 O1) as [P2 O2]. split; [|done].
  rewrite P2, P1. by rewrite Permutation_app_swap_app, app_assoc.
Qed.

Lemma send_read_takes b p ul ok b' :
  send_read b p ul = Ok (ok, b') -> takes_over (if ok then [mkPending p ul] else []) b b'.
Proof.
  intros Hs Ho. unfold send_read in Hs. apply bind_Ok in Hs as ([[ok1 req] m] & _ & Hs).
  set (b0 := set_next_token b (br_next_token b + 1)) in Hs.
  pose proof (with_callbacks_keeps b0 m) as K. set (b1 := with_callbacks b0 m) in *.
  assert (tokens_old b0) as Ho0 by (intros t Ht; specialize (Ho t Ht); cbn; lia).
  destruct ok1; cbn [negb] in Hs; [|injection Hs as <- <-; by apply (keeps_takes _ _ K)].
  apply bind_Ok in Hs as (b2 & Hn & Hs). injection Hs as <- <-.
  assert (keeps_held b0 b2) as K2 by (etransitivity; [exact K|by eapply note_admission_keeps]).
  destruct (keeps_takes _ _ K2 Ho0) as [P2 O2], K2 as (_ & N2 & S2).
  assert (br_inflight b2 !! br_next_token b = None) as Hf.
  { apply eq_None_not_Some. intros [q Hq]. eapply lookup_weaken in Hq; [|exact S2].
    pose proof (Ho _ (ex_intro _ q Hq)). lia. }
  unfold emplace. cbn [br_inflight write_reqtrace]. rewrite Hf. split.
  - unfold held. cbn. rewrite (map_to_list_insert _ _ _ Hf). cbn. by constructor.
  - intros t [q Hq]. cbn in Hq |- *. apply lookup_insert_Some in Hq as [[<- _]|[_ Hq]]; [|by apply O2; exists q].
    rewrite N2. cbn. lia.
Qed.

Lemma send_write_takes b p ok b' : send_write b p = Ok (ok, b') -> takes_over [] b b'.
Proof.
  intros Hs. unfold send_write in Hs. apply bind_Ok in Hs as ([[[] req] m] & _ & Hs); [|injection Hs as <- <-].
  - apply bind_Ok in Hs as (b2 & Hn & Hs). injection Hs as <- <-. apply keeps_takes.
    transitivity (with_callbacks b m); [apply with_callbacks_keeps|].
    transitivity b2; [by eapply note_admission_keeps|by apply keeps_held_same].
  - apply keeps_takes, with_callbacks_keeps.
Qed.

(** The loop over a queue sends a prefix of it. *)
Lemma drain_queue_takes (send : Bridge M -> packet -> result (bool * Bridge M)) (f : packet -> list Pending) q b q' n b' :
  (forall b p ok b', send b p = Ok (ok, b') -> takes_over (if ok then f p else []) b b') ->
  drain_queue send q b = Ok (q', n, b') ->
  exists sent, q = sent ++ q' /\ n = Z.of_nat (length sent) /\ takes_over (sent ≫= f) b b'.
Proof.
  intros Hsend. revert q' n b b'. induction q as [|p q IH]; intros q' n b b' Hs; cbn [drain_queue] in Hs.
  { injection Hs as <- <- <-. exists []. split_and!; [done|done|]. by apply keeps_takes. }
  apply bind_Ok in Hs as ([[] b1] & H1 & Hs); apply Hsend in H1.
  - apply bind_Ok in Hs as ([[q1 n1] b2] & H2 & Hs). injection Hs as <- <- <-.
    destruct (IH _ _ _ _ H2) as (sent & -> & -> & T). exists (p :: sent). split_and!; [done|cbn; lia|].
    cbn. by eapply takes_app.
  - injection Hs as <- <- <-. exists []. by split_and!.
Qed.

(** All answers: owed by the bridge, owed for queued packets, given back. *)
Definition answers (chs : list channel) b : list (nat * response) :=
  (held b ≫= answer_due) ++ gather channel_due chs ++ gather channel_returned chs.

Definition conserves (chs : list channel) b (chs' : list channel) b' : Prop :=
  tokens_old b -> answers chs' b' ≡ₚ answers chs b /\ tokens_old b' /\ length chs' = length chs.

Lemma conserves_trans chs1 b1 chs2 b2 chs3 b3 :
  conserves chs1 b1 chs2 b2 -> conserves chs2 b2 chs3 b3 -> conserves chs1 b1 chs3 b3.
Proof.
  intros C1 C2 Ho. destruct (C1 Ho) as (P1 & O1 & L1), (C2 O1) as (P2 & O2 & L2).
  split_and!; [by rewrite P2|done|by rewrite L2].
Qed.

Lemma bind_single {A B} (g : A -> B) l : (l ≫= fun x => [g x]) = g <$> l.
Proof. induction l as [|x l IH]; cbn; [done|]. by f_equal. Qed.
Lemma bind_nothing {A B} (l : list A) : (l ≫= fun _ => []) = @nil B.
Proof. by induction l. Qed.

(** Packets that leave the queues of a channel for the bridge. *)
Lemma queue_moves chs chs' i c c' sr sp b b' :
  chs !! i = Some c -> chs' = <[i := c']> chs -> RQ c = sr ++ RQ c' -> PQ c = sp ++ PQ c' -> returned c' = returned c ->
  held b' ≡ₚ (asked i <$> sr ++ sp) ++ held b -> answers chs' b' ≡ₚ answers chs b.
Proof.
  intros Hc -> Hr Hp Hret Hh. unfold answers. rewrite Hh, bind_app.
  pose proof (gather_insert channel_due _ _ _ c' Hc) as Gd. pose proof (gather_insert channel_returned _ _ _ c' Hc) as Gr.
  unfold channel_returned at 1 3 in Gr. rewrite Hret in Gr. apply Permutation_app_inv_l in Gr.
  assert (channel_due i c ≡ₚ channel_due i c' ++ ((asked i <$> sr ++ sp) ≫= answer_due)) as Hd.
  { unfold channel_due. rewrite <- bind_app, <- fmap_app. apply bind_Permutation, fmap_Permutation. rewrite Hr, Hp. solve_Permutation. }
  rewrite Hd, <- app_assoc in Gd. apply Permutation_app_inv_l in Gd. rewrite <- Gr, Gd.
  solve_Permutation.
Qed.

Lemma serve_channel_conserves chs n b i chs' n' b' :
  serve_channel (chs, n, b) i = Ok (chs', n', b') -> conserves chs b chs' b'.
Proof.
  intros Hs Ho. unfold serve_channel in Hs. apply bind_Ok in Hs as (c & Hc & Hs).
  apply bind_Ok in Hs as ([[rq rn] b1] & H1 & Hs). apply bind_Ok in Hs as ([[pq pn] b2] & H2 & Hs).
  apply bind_Ok in Hs as ([[wq wn] b3] & H3 & Hs). apply bind_Ok in Hs as (chs1 & Hv & Hs). injection Hs as <- <- <-.
  cbn [fst snd] in *.
  eapply (drain_queue_takes _ (fun p => [asked i p])) in H1 as (sr & Er & _ & T1);
    [|intros ? p ok ? Hp; apply send_read_takes in Hp; by destruct ok].
  eapply (drain_queue_takes _ (fun p => [asked i p])) in H2 as (sp & Ep & _ & T2);
    [|intros ? p ok ? Hp; apply send_read_takes in Hp; by destruct ok].
  eapply (drain_queue_takes _ (fun _ => [])) in H3 as (sw & _ & _ & T3);
    [|intros ? p ok ? Hp; apply send_write_takes in Hp; by destruct ok].
  apply vget_Ok in Hc as [Hi Hc]. apply vset_Ok in Hv as [_ ->]. rewrite Nat2Z.id in Hc |- *.
  destruct (takes_app _ _ _ _ _ (takes_app _ _ _ _ _ T1 T2) T3 Ho) as [P O]. rewrite bind_nothing, app_nil_r, !bind_single, <- fmap_app in P.
  split_and!; [|done|apply length_insert]. by eapply queue_moves.
Qed.
(** The answers in [m_done] go to their channels. *)
Lemma deliver_all chs done chs' :
  foldM deliver_response chs done = Ok chs' ->
  length chs' = length chs /\ gather channel_due chs' ≡ₚ gather channel_due chs /\
  gather channel_returned chs' ≡ₚ (done ≫= answer_due) ++ gather channel_returned chs.
Proof.
  revert chs. induction done as [|p done IH]; intros chs Hd; [by injection Hd as <-|].
  rewrite foldM_cons in Hd. apply bind_Ok in Hd as (chs1 & H1 & (L & D & R)%IH). cbn [mbind list_bind].
  unfold deliver_response in H1. destruct (pd_ul p) as [i|] eqn:Hu; [|injection H1 as <-; unfold answer_due at 1; by rewrite Hu].
  apply bind_Ok in H1 as (c & [_ Hc]%vget_Ok & [_ ->]%vset_Ok). rewrite Nat2Z.id in *.
  set (c' := set_returned c (returned c ++ [response_of (pd_pkt p)])) in *.
  pose proof (gather_insert channel_due _ _ _ c' Hc) as Gd. pose proof (gather_insert channel_returned _ _ _ c' Hc) as Gr.
  split_and!; [by rewrite L, length_insert|rewrite D; by apply Permutation_app_inv_l in Gd|].
  unfold channel_returned at 1 3 in Gr. subst c'. cbn [returned set_returned] in *.
  rewrite fmap_app, <- app_assoc in Gr. apply Permutation_app_inv_l in Gr.
  rewrite R, <- Gr. unfold answer_due at 2. rewrite Hu. cbn. solve_Permutation.
Qed.

Lemma bridge_tick_conserves chs b chs' b' :
  bridge_tick chs b = Ok (chs', b') -> conserves chs b chs' b' /\ br_done b' = [].
Proof.
  intros Ht. unfold bridge_tick in Ht. apply bind_Ok in Ht as (acc & _ & Ht). apply bind_Ok in Ht as (b1 & H1 & Ht).
  apply bind_Ok in Ht as (chs1 & H2 & Ht). injection Ht as <- <-. split; [|done]. intros Ho.
  apply deliver_all in H2 as (L & D & R). apply tick_memory_keeps in H1.
  assert (keeps_held b b1) as K by (etransitivity; [by eapply keeps_held_same|exact H1]). clear H1.
  destruct (keeps_takes _ _ K Ho) as [P O]. split_and!; [|done|done].
  unfold answers. rewrite D, R. rewrite <- (bind_Permutation answer_due _ _ P). unfold held. cbn. rewrite app_nil_r, !bind_app. solve_Permutation.
Qed.

Lemma cycle_conserves chs b n chs' b' :
  cycle chs b = Ok (n, chs', b') -> conserves chs b chs' b' /\ br_done b' = [].
Proof.
  intros Hc. unfold cycle in Hc. apply bind_Ok in Hc as ([[chs1 n1] b1] & H1 & Hc). apply bind_Ok in Hc as ([chs2 b2] & H2 & Hc).
  injection Hc as <- <- <-. apply bridge_tick_conserves in H2 as [C2 D2]. split; [|done].
  eapply conserves_trans; [|exact C2].
  apply (foldM_inv (fun s => conserves chs b s.1.1 s.2) serve_channel _ _ _) in H1; [exact H1| |].
  - intros Ho. by split_and!.
  - intros [[chs3 n3] b3] [[chs4 n4] b4] i _ C3 H4. apply serve_channel_conserves in H4. by eapply conserves_trans.
Qed.

Lemma warmup_conserves chs b : conserves chs b (warmup_cycle chs).2 b.
Proof.
  intros Ho. split_and!; [|done|apply length_fmap]. unfold answers. apply Permutation_app_head. cbn [warmup_cycle snd].
  unfold gather. rewrite !imap_fmap. apply (gather_balance (fun i c => channel_due i (warmup_channel c)) (fun i c => channel_returned i (warmup_channel c))).
  intros i c. unfold channel_due, channel_returned. rewrite !asked_due. unfold warmup_channel.
  cbn [RQ PQ returned set_WQ set_PQ set_RQ set_returned]. cbn [app]. rewrite filter_nil.
  rewrite filter_app, !fmap_app. solve_Permutation.
Qed.
Definition host_inv (h : Host M) : Prop :=
  tokens_old (h_bridge h) /\ h_consumed h ++ answers (h_channels h) (h_bridge h) ≡ₚ h_accepted h.

Lemma operate_conserves w chs b n chs' b' : operate w chs b = Ok (n, chs', b') -> conserves chs b chs' b'.
Proof.
  unfold operate. destruct w; [|apply cycle_conserves]. pose proof (warmup_conserves chs b) as C.
  destruct (warmup_cycle chs) as [n1 chs1]. by intros [= <- <- <-].
Qed.

(** A channel changes; what it owes and has given back is put into the balance. *)
Lemma channel_update chs i c c' l l' b :
  chs !! i = Some c ->
  l' ++ channel_due i c' ++ channel_returned i c' ≡ₚ l ++ channel_due i c ++ channel_returned i c ->
  l' ++ answers (<[i := c']> chs) b ≡ₚ l ++ answers chs b.
Proof.
  intros Hc Hb. unfold answers.
  pose proof (gather_insert channel_due _ _ _ c' Hc) as Gd. pose proof (gather_insert channel_returned _ _ _ c' Hc) as Gr.
  apply (Permutation_app_inv_l (channel_due i c ++ channel_returned i c)).
  transitivity (l' ++ (held b ≫= answer_due) ++ (channel_due i c ++ gather channel_due (<[i:=c']> chs)) ++
    (channel_returned i c ++ gather channel_returned (<[i:=c']> chs))); [solve_Permutation|].
  rewrite <- Gd, <- Gr.
  transitivity ((l' ++ channel_due i c' ++ channel_returned i c') ++ (held b ≫= answer_due) ++ gather channel_due chs ++ gather channel_returned chs);
    [solve_Permutation|]. rewrite Hb. solve_Permutation.
Qed.
Lemma arrive_balance i k c p ok c' :
  match k with ReadQueue => add_rq c p | PrefetchQueue => add_pq c p | WriteQueue => add_wq c p end = (ok, c') ->
  channel_due i c' ++ channel_returned i c' ≡ₚ
  (if match k with WriteQueue => false | _ => ok && pk_response_requested p end then [(i, response_of p)] else []) ++
  channel_due i c ++ channel_returned i c.
Proof.
  assert ((asked i <$> [p]) ≫= answer_due = if pk_response_requested p then [(i, response_of p)] else []) as Hp.
  { rewrite asked_due, filter_cons. by destruct (pk_response_requested p). }
  intros Ha. rewrite app_assoc. unfold add_rq, add_pq, add_wq, do_add_queue in Ha.
  destruct k; case_match; simplify_eq; try (case_match; simplify_eq); try done;
    (apply Permutation_app_tail; unfold channel_due; cbn [RQ PQ set_queue_stats set_RQ set_PQ andb];
     rewrite <- Hp; rewrite <- bind_app, <- fmap_app; apply bind_Permutation, fmap_Permutation; solve_Permutation).
Qed.

Lemma host_event_inv h e h' : host_inv h -> host_event h e = Ok h' -> host_inv h'.
Proof.
  intros [Ho Hb] He. destruct e as [i k p|i n|w| |cpu]; cbn [host_event] in He.
  - apply bind_Ok in He as (c & [_ Hc]%vget_Ok & He). rewrite Nat2Z.id in Hc.
    destruct (match k with ReadQueue => add_rq c p | PrefetchQueue => add_pq c p | WriteQueue => add_wq c p end) as [ok c'] eqn:Ha.
    apply bind_Ok in He as (chs & [_ ->]%vset_Ok & [= <-]). rewrite Nat2Z.id. split; [done|]. cbn [h_bridge h_channels h_consumed h_accepted].
    pose proof (arrive_balance i k c p ok c' Ha) as B. match type of B with _ ≡ₚ ?x ++ _ => set (new := x) in * end.
    rewrite <- Hb, (channel_update _ i c c' (h_consumed h ++ new) (h_consumed h) _ Hc); [solve_Permutation|].
    by rewrite B, app_assoc.
  - apply bind_Ok in He as (c & [_ Hc]%vget_Ok & He). rewrite Nat2Z.id in Hc.
    apply bind_Ok in He as (chs & [_ ->]%vset_Ok & [= <-]). rewrite Nat2Z.id. split; [done|]. cbn [h_bridge h_channels h_consumed h_accepted].
    rewrite <- Hb. apply (channel_update _ i c _ _ _ _ Hc). unfold channel_due, channel_returned. cbn [returned RQ PQ set_returned].
    rewrite <- (take_drop n (returned c)) at 3. rewrite (fmap_app (pair i)). solve_Permutation.
  - apply bind_Ok in He as ([[n chs] b] & Hw%operate_conserves & [= <-]). destruct (Hw Ho) as (P & O & _).
    split; [done|]. cbn. by rewrite P.
  - by injection He as <-.
  - apply bind_Ok in He as (b & Hm & [= <-]). unfold measurement_end in Hm. repeat case_match; simplify_eq. by split.
Qed.
End held.

Lemma drive_done {M} `{IMemorySystem M} `{Callbacks M} (h : Host M) evs h' :
  host_run h (evs ++ [Operate false]) = Ok h' -> br_done (h_bridge h') = [].
Proof.
  unfold host_run. rewrite foldM_app. intros Hd. apply bind_Ok in Hd as (h1 & _ & Hd). rewrite foldM_cons in Hd.
  apply bind_Ok in Hd as (h2 & H2 & [= <-]). cbn [host_event operate] in H2. apply bind_Ok in H2 as ([[n chs] b] & H2 & [= <-]).
  by apply cycle_conserves in H2 as [_ ?].
Qed.

Lemma gather_empty_channels chs :
  Forall (fun c => RQ c = [] /\ PQ c = [] /\ returned c = []) chs ->
  gather channel_due chs = [] /\ gather channel_returned chs = [].
Proof.
  rewrite Forall_forall. intros Hc. split; apply gather_nil; intros i c (Hr & Hp & Ht)%Hc.
  - unfold channel_due. by rewrite Hr, Hp.
  - unfold channel_returned. by rewrite Ht.
Qed.

(** C27: In every run of ChampSim over the bridge, whatever the memory system does
    and however arrivals, cycles and the measured windows interleave: the answers
    the channels have taken, those waiting in a channel, those the bridge owes for
    reads in flight and those owed for queued reads are together exactly one
    answer, with the fields of its packet and for its channel, for each accepted
    packet that asked for one; after a cycle every completed read has been handed
    to its channel. *)
Theorem bridge_responses_conserved {M} `{IMemorySystem M} `{Callbacks M} (num_cpus : Z) (m : M) (rt : bool) (r : Z) b chs evs h :
  Bridge_init num_cpus m rt r = Ok b -> Forall (fun c => RQ c = [] /\ PQ c = [] /\ returned c = []) chs ->
  host_run (mkHost chs b [] []) evs = Ok h ->
  h_consumed h ++ gather channel_returned (h_channels h) ++ (held (h_bridge h) ≫= answer_due) ++ gather channel_due (h_channels h)
  ≡ₚ h_accepted h /\
  (forall evs', evs = evs' ++ [Operate false] -> br_done (h_bridge h) = []).
Proof.
  intros Hi Hc Hd. split; [|intros evs' ->; by eapply drive_done].
  enough (host_inv h) as [_ <-] by (unfold answers; solve_Permutation).
  refine (foldM_inv host_inv host_event evs _ _ _ _ Hd); [|intros; by eapply host_event_inv].
  unfold Bridge_init in Hi. case_match; [done|]. injection Hi as <-. split; [by intros t [? ?]|]. unfold answers, held.
  cbn [h_bridge h_channels h_consumed h_accepted br_inflight br_done].
  rewrite map_to_list_empty. by apply gather_empty_channels in Hc as [-> ->].
Qed.

(** ** The measured windows *)

(** The rows of a core's reads, and those of a window of admission ordinals: what
    a reader of the trace selects. *)
Definition core_reads (cpu : Z) (rows : list ReqRow) : list ReqRow :=
  filter (fun r => row_type r = 0 /\ row_source r = cpu) rows.
Definition window_rows (lo hi : Z) (rows : list ReqRow) : list ReqRow :=
  filter (fun r => lo <= row_admission_ordinal r < hi) rows.

Definition window_inv (next : Z) (rows : list ReqRow) (cpu : nat) (w : Window) : Prop :=
  let mine := core_reads (Z.of_nat cpu) rows in
  let count lo hi := Z.of_nat (length (window_rows lo hi mine)) in
  w_reads w = count 0 next /\ 0 <= w_begin w <= next /\ w_begin_reads w = count 0 (w_begin w) /\
  (w_end w = -1 \/ w_begin w <= w_end w <= next /\ w_measured_reads w = count (w_begin w) (w_end w)).

Lemma window_rows_split lo mid hi rows :
  lo <= mid <= hi -> (length (window_rows lo hi rows) = length (window_rows lo mid rows) + length (window_rows mid hi rows))%nat.
Proof.
  intros Hm. unfold window_rows. induction rows as [|r rows IH]; [done|]. rewrite !filter_cons.
  repeat case_decide; cbn; lia.
Qed.

Lemma window_rows_app lo hi rows r :
  length (window_rows lo hi (rows ++ [r])) =
  (length (window_rows lo hi rows) + if decide (lo <= row_admission_ordinal r < hi)%Z then 1 else 0)%nat.
Proof. unfold window_rows. rewrite filter_app, filter_cons, filter_nil, length_app. by case_decide. Qed.

(** No row at or past the next ordinal yet. *)
Definition rows_inv {M} (b : Bridge M) (rows : list ReqRow) : Prop :=
  0 <= br_next_admission b /\ Forall (fun r => 0 <= row_admission_ordinal r < br_next_admission b) rows /\
  StronglySorted Z.lt (row_admission_ordinal <$> rows) /\
  forall cpu w, br_windows b !! cpu = Some w -> window_inv (br_next_admission b) rows cpu w.

Definition win_inv {M} (b : Bridge M) : Prop := exists rows, br_reqtrace b = Some rows /\ rows_inv b rows.

Lemma window_rows_none lo hi rows : Forall (fun r => ~ lo <= row_admission_ordinal r < hi) rows -> window_rows lo hi rows = [].
Proof. unfold window_rows. induction 1 as [|r rows Hr _ IH]; [done|]. by rewrite filter_cons_False. Qed.

Lemma core_reads_Forall (P : ReqRow -> Prop) cpu rows : Forall P rows -> Forall P (core_reads cpu rows).
Proof. rewrite !Forall_forall. intros Hf r [_ Hr]%list_elem_of_filter. auto. Qed.

(** A row is added and the next ordinal moves past it. *)
Lemma window_grow next next' rows cpu w w' r :
  Forall (fun r => 0 <= row_admission_ordinal r < next) rows -> 0 <= next <= row_admission_ordinal r -> row_admission_ordinal r < next' ->
  window_inv next rows cpu w ->
  w_begin w' = w_begin w -> w_end w' = w_end w -> w_begin_reads w' = w_begin_reads w -> w_measured_reads w' = w_measured_reads w ->
  w_reads w' = w_reads w + (if decide (row_type r = 0 /\ row_source r = Z.of_nat cpu) then 1 else 0) ->
  window_inv next' (rows ++ [r]) cpu w'.
Proof.
  intros Hf Hr Hr' (W1 & W2 & W3 & W4) E1 E2 E3 E4 E5.
  apply (core_reads_Forall _ (Z.of_nat cpu)) in Hf. unfold window_inv. rewrite E1, E3.
  assert (forall lo hi, lo <= hi <= next -> length (window_rows lo hi (core_reads (Z.of_nat cpu) (rows ++ [r]))) =
    length (window_rows lo hi (core_reads (Z.of_nat cpu) rows))) as Hold.
  { intros lo hi Hh. unfold core_reads. rewrite filter_app, filter_cons, filter_nil. case_decide; [|by rewrite app_nil_r].
    rewrite window_rows_app. rewrite decide_False by lia. lia. }
  split_and!.
  - rewrite E5, W1, (window_rows_split 0 next next') by lia. rewrite Hold by lia.
    unfold core_reads at 3. rewrite filter_app, filter_cons, filter_nil. fold (core_reads (Z.of_nat cpu) rows).
    case_decide; [rewrite window_rows_app, decide_True by lia|rewrite app_nil_r];
      rewrite (window_rows_none next next'); cbn; try lia; (eapply Forall_impl; [exact Hf|cbn; intros; lia]).
  - lia.
  - lia.
  - rewrite W3, Hold; lia.
  - rewrite E2, E4. destruct W4 as [->|[W4 W5]]; [by left|right]. rewrite Hold by lia. split; [lia|done].
Qed.

Section windows.
Context {M : Type} `{IMemorySystem M} `{Callbacks M} `{!SendKeeps M}.
Implicit Types b : Bridge M.

Definition same_windows b b' : Prop :=
  br_reqtrace b' = br_reqtrace b /\ br_windows b' = br_windows b /\ br_next_admission b' = br_next_admission b.

Lemma same_windows_inv b b' : same_windows b b' -> win_inv b -> win_inv b'.
Proof. intros (E1 & E2 & E3) (rows & Hr & Hi). exists rows. unfold rows_inv. by rewrite E1, E2, E3. Qed.

Lemma with_callbacks_same b m : same_windows b (with_callbacks b m).
Proof.
  unfold with_callbacks. destruct (take_callbacks m) as [l m']. generalize m'. clear m m'. intros m'.
  assert (forall b0, same_windows b b0 -> same_windows b (foldl complete_read b0 l)) as Hl; [|by apply Hl].
  induction l as [|r l IH]; intros b0 Hb; cbn; [done|]. apply IH. unfold complete_read. by repeat case_match.
Qed.

Lemma tick_memory_same fuel b b' : tick_memory fuel b = Ok b' -> same_windows b b'.
Proof.
  revert b. induction fuel as [|fuel IH]; intros b Ht; cbn [tick_memory] in Ht; [done|].
  case_match; [by injection Ht as <-|]. apply bind_Ok in Ht as (m & _ & (E1 & E2 & E3)%IH).
  destruct (with_callbacks_same (set_cycle b (br_cycle b) (br_tick_acc b - 8)) m) as (F1 & F2 & F3).
  unfold same_windows. by rewrite E1, E2, E3, F1, F2, F3.
Qed.

(** What an admission does to the windows. *)
Definition counts_read (read : Prop) `{!Decision read} (source : Z) (cpu : nat) (w w' : Window) : Prop :=
  w_begin w' = w_begin w /\ w_end w' = w_end w /\ w_begin_reads w' = w_begin_reads w /\ w_measured_reads w' = w_measured_reads w /\
  w_reads w' = w_reads w + (if decide (read /\ source = Z.of_nat cpu) then 1 else 0).

Lemma note_admission_spec b req b1 :
  note_admission b req = Ok b1 ->
  br_next_admission b <= admission_ordinal req /\ exists ws, b1 = set_windows b ws (admission_ordinal req + 1) /\
  forall cpu w', ws !! cpu = Some w' -> exists w, br_windows b !! cpu = Some w /\ counts_read (type_id req = 0) (source_id req) cpu w w'.
Proof.
  unfold note_admission. intros Ha. case_match eqn:Hg; [done|].
  apply orb_false_iff in Hg as [Hg Hg3]. apply orb_false_iff in Hg as [Hg1 Hg2]. split; [lia|].
  change Read with 0 in Ha. unfold counts_read. destruct (Z.eqb_spec (type_id req) 0) as [Er|Er].
  - apply bind_Ok in Ha as (w & [_ Hv]%vget_Ok & Ha). apply bind_Ok in Ha as (ws & [_ ->]%vset_Ok & [= <-]).
    eexists. split; [reflexivity|]. intros cpu w' Hc. apply list_lookup_insert_Some in Hc as [(<- & <- & _)|[Hne Hc]].
    + exists w. rewrite decide_True by (split; [done|lia]). by split_and!.
    + exists w'. rewrite decide_False by (intros [_ E]; apply Hne; lia). split_and!; done || lia.
  - injection Ha as <-. eexists. split; [reflexivity|]. intros cpu w' Hc. exists w'.
    rewrite decide_False by naive_solver. split_and!; done || lia.
Qed.

(** An admission and its row in the trace. *)
Lemma admission_row b req b1 row :
  win_inv b -> note_admission b req = Ok b1 -> row_type row = type_id req -> row_source row = source_id req ->
  row_admission_ordinal row = admission_ordinal req -> win_inv (write_reqtrace b1 row).
Proof.
  intros (rows & Hr & Hn & Hf & Hso & Hw) (Hge & ws & -> & Hws)%note_admission_spec Ht Hs Ho. exists (rows ++ [row]).
  split; [cbn; by rewrite Hr|]. split_and!; cbn.
  - lia.
  - apply Forall_app. split; [eapply Forall_impl; [exact Hf|cbn; intros; lia]|]. repeat constructor; lia.
  - rewrite fmap_app. apply StronglySorted_app_2; [|done|repeat constructor].
    intros x y (r & -> & Hx)%list_elem_of_fmap ->%list_elem_of_singleton. rewrite Forall_forall in Hf. specialize (Hf r Hx). lia.
  - intros cpu w' (w & Hc & E1 & E2 & E3 & E4 & E5)%Hws. rewrite <- Ht, <- Hs in E5.
    apply (window_grow (br_next_admission b) _ rows cpu w w' row); auto; lia.
Qed.

Lemma send_read_win b p ul ok b' : win_inv b -> send_read b p ul = Ok (ok, b') -> win_inv b'.
Proof.
  intros Hi Hs. unfold send_read in Hs. apply bind_Ok in Hs as ([[ok1 req] m] & Hm & Hs).
  apply send_keeps in Hm as (_ & Ht & _). set (b0 := set_next_token b _) in *.
  assert (win_inv (with_callbacks b0 m)) as Hi1 by (eapply same_windows_inv; [apply with_callbacks_same|exact Hi]).
  destruct ok1; cbn [negb] in Hs; [|by injection Hs as <- <-]. apply bind_Ok in Hs as (b2 & Hn & Hs).
  assert (win_inv (write_reqtrace b2 (row_of b2 p 0 req))) as Hi2 by (by eapply admission_row).
  injection Hs as <- <-. eapply same_windows_inv; [|exact Hi2]. by split_and!.
Qed.

Lemma send_write_win b p ok b' : win_inv b -> send_write b p = Ok (ok, b') -> win_inv b'.
Proof.
  intros Hi Hs. unfold send_write in Hs. apply bind_Ok in Hs as ([[ok1 req] m] & Hm & Hs). apply send_keeps in Hm as (_ & Ht & _).
  assert (win_inv (with_callbacks b m)) as Hi1 by (eapply same_windows_inv; [apply with_callbacks_same|exact Hi]).
  destruct ok1; [|by injection Hs as <- <-]. apply bind_Ok in Hs as (b2 & Hn & [= <- <-]). by eapply admission_row.
Qed.

Lemma drain_queue_inv (P : Bridge M -> Prop) (send : Bridge M -> packet -> result (bool * Bridge M)) q b q' n b' :
  (forall b p ok b', P b -> send b p = Ok (ok, b') -> P b') -> P b -> drain_queue send q b = Ok (q', n, b') -> P b'.
Proof.
  intros Hsend. revert q' n b. induction q as [|p q IH]; intros q' n b Hi Hs; cbn [drain_queue] in Hs; [by injection Hs as <- <- <-|].
  apply bind_Ok in Hs as ([ok b1] & H1 & Hs). apply Hsend in H1; [|done]. destruct ok; [|by injection Hs as <- <- <-].
  apply bind_Ok in Hs as ([[q1 n1] b2] & H2 & [= <- <- <-]). by eapply IH.
Qed.

(** What every send and every memory tick keeps, a cycle keeps. *)
Lemma cycle_inv (P : Bridge M -> Prop) chs b n chs' b' :
  (forall b p ul ok b', P b -> send_read b p ul = Ok (ok, b') -> P b') ->
  (forall b p ok b', P b -> send_write b p = Ok (ok, b') -> P b') ->
  (forall chs b chs' b', P b -> bridge_tick chs b = Ok (chs', b') -> P b') ->
  P b -> cycle chs b = Ok (n, chs', b') -> P b'.
Proof.
  intros Hr Hw Ht Hi Hc. unfold cycle in Hc. apply bind_Ok in Hc as ([[chs1 n1] b1] & H1 & Hc).
  apply bind_Ok in Hc as ([chs2 b2] & H2 & [= <- <- <-]). apply Ht in H2; [done|].
  apply (foldM_inv (fun s => P s.2)) in H1; [done|done|]. clear -Hr Hw.
  intros [[chs0 n0] b0] [[chs4 n4] b4] i _ Hi Hs. cbn in Hi |- *. unfold serve_channel in Hs. apply bind_Ok in Hs as (c & _ & Hs).
  apply bind_Ok in Hs as ([[rq rn] b1] & H1 & Hs). apply bind_Ok in Hs as ([[pq pn] b2] & H2 & Hs).
  apply bind_Ok in Hs as ([[wq wn] b3] & H3 & Hs). apply bind_Ok in Hs as (chs1 & _ & [= <- <- <-]).
  apply drain_queue_inv with (P := P) in H1; [|eauto|done]. apply drain_queue_inv with (P := P) in H2; [|eauto|done].
  by apply drain_queue_inv with (P := P) in H3; [|eauto|].
Qed.

Lemma bridge_tick_win chs b chs' b' : win_inv b -> bridge_tick chs b = Ok (chs', b') -> win_inv b'.
Proof.
  intros Hi Ht. unfold bridge_tick in Ht. apply bind_Ok in Ht as (acc & _ & Ht). apply bind_Ok in Ht as (b1 & H1 & Ht).
  apply bind_Ok in Ht as (chs1 & _ & [= <- <-]). apply tick_memory_same in H1. eapply same_windows_inv; [|exact Hi]. done.
Qed.

Lemma measurement_end_win b cpu b' : win_inv b -> measurement_end b cpu = Ok b' -> win_inv b'.
Proof.
  intros (rows & Hr & Hn & Hf & Hso & Hw) Hm. unfold measurement_end in Hm.
  destruct (br_windows b !! cpu) as [w|] eqn:Hc; [|done]. case_match; [done|]. injection Hm as <-.
  exists rows. split; [done|]. split_and!; [done|done|done|]. cbn. intros cpu' w' Hc'.
  apply list_lookup_insert_Some in Hc' as [(<- & <- & _)|[_ Hc']]; [|by apply Hw].
  destruct (Hw _ _ Hc) as (W1 & W2 & W3 & _). unfold window_inv. cbn. split_and!; [done|lia|lia|done|].
  right. split; [lia|]. rewrite W1, W3. rewrite (window_rows_split 0 (w_begin w)) by lia. lia.
Qed.

Lemma host_event_win h e h' :
  win_inv (h_bridge h) -> e <> MeasureBegin -> host_event h e = Ok h' -> win_inv (h_bridge h').
Proof.
  intros Hi Hne He. destruct e as [i k p|i n|w| |cpu]; cbn [host_event] in He.
  - apply bind_Ok in He as (c & _ & He). case_match. by apply bind_Ok in He as (chs & _ & [= <-]).
  - apply bind_Ok in He as (c & _ & He). by apply bind_Ok in He as (chs & _ & [= <-]).
  - apply bind_Ok in He as ([[n chs] b] & Hw & [= <-]). cbn. unfold operate in Hw. destruct w; [by case_match; simplify_eq|].
    eapply (cycle_inv win_inv); [..|exact Hi|exact Hw]; eauto using send_read_win, send_write_win, bridge_tick_win.
  - done.
  - apply bind_Ok in He as (b & Hm & [= <-]). cbn. by eapply measurement_end_win.
Qed.

(** [measurement_begin] while no window has ended, which also stays so. *)
Definition not_ended b : Prop := Forall (fun w => w_end w = -1) (br_windows b).

Lemma measurement_begin_win b : win_inv b -> not_ended b -> win_inv (measurement_begin b) /\ not_ended (measurement_begin b).
Proof.
  intros (rows & Hr & Hn & Hf & Hso & Hw) He. split.
  - exists rows. split; [done|]. split_and!; [done|done|done|]. intros cpu w' Hc. cbn in Hc |- *.
    apply list_lookup_fmap_Some in Hc as (w & -> & Hc). unfold not_ended in He. rewrite Forall_lookup in He. specialize (He _ _ Hc).
    destruct (Hw _ _ Hc) as (W1 & W2 & W3 & _). unfold window_inv. cbn. split_and!; [done|lia|lia|done|by left].
  - unfold not_ended. cbn. by apply Forall_fmap.
Qed.
Lemma same_not_ended b b' : same_windows b b' -> not_ended b -> not_ended b'.
Proof. intros (_ & E & _). unfold not_ended. by rewrite E. Qed.

Lemma admission_not_ended b req b1 : not_ended b -> note_admission b req = Ok b1 -> not_ended b1.
Proof.
  unfold not_ended. rewrite !Forall_lookup. intros He (_ & ws & -> & Hws)%note_admission_spec cpu w' Hc.
  apply Hws in Hc as (w & Hc & _ & -> & _). by eapply He.
Qed.

Lemma send_read_not_ended b p ul ok b' : not_ended b -> send_read b p ul = Ok (ok, b') -> not_ended b'.
Proof.
  intros Hi Hs. unfold send_read in Hs. apply bind_Ok in Hs as ([[ok1 req] m] & _ & Hs). set (b0 := set_next_token b _) in *.
  assert (not_ended (with_callbacks b0 m)) as Hi1 by (eapply same_not_ended; [apply with_callbacks_same|exact Hi]).
  destruct ok1; cbn [negb] in Hs; [|by injection Hs as <- <-]. apply bind_Ok in Hs as (b2 & Hn & [= <- <-]).
  exact (admission_not_ended _ _ _ Hi1 Hn).
Qed.

Lemma send_write_not_ended b p ok b' : not_ended b -> send_write b p = Ok (ok, b') -> not_ended b'.
Proof.
  intros Hi Hs. unfold send_write in Hs. apply bind_Ok in Hs as ([[ok1 req] m] & _ & Hs).
  assert (not_ended (with_callbacks b m)) as Hi1 by (eapply same_not_ended; [apply with_callbacks_same|exact Hi]).
  destruct ok1; [|by injection Hs as <- <-]. apply bind_Ok in Hs as (b2 & Hn & [= <- <-]). exact (admission_not_ended _ _ _ Hi1 Hn).
Qed.

Lemma bridge_tick_not_ended chs b chs' b' : not_ended b -> bridge_tick chs b = Ok (chs', b') -> not_ended b'.
Proof.
  intros Hi Ht. unfold bridge_tick in Ht. apply bind_Ok in Ht as (acc & _ & Ht). apply bind_Ok in Ht as (b1 & H1 & Ht).
  apply bind_Ok in Ht as (chs1 & _ & [= <- <-]). apply tick_memory_same in H1. by eapply same_not_ended.
Qed.

Lemma host_event_not_ended h e h' :
  (forall cpu, e <> MeasureEnd cpu) -> win_inv (h_bridge h) /\ not_ended (h_bridge h) -> host_event h e = Ok h' ->
  win_inv (h_bridge h') /\ not_ended (h_bridge h').
Proof.
  intros Hne [Hi He] Hh. assert (e = MeasureBegin \/ e <> MeasureBegin) as [->|Hb] by (destruct e; auto).
  { injection Hh as <-. by apply measurement_begin_win. }
  split; [by eapply host_event_win|]. destruct e as [i k p|i n|w| |cpu]; cbn [host_event] in Hh; [| | |done|by destruct (Hne cpu)].
  - apply bind_Ok in Hh as (c & _ & Hh). case_match. by apply bind_Ok in Hh as (chs & _ & [= <-]).
  - apply bind_Ok in Hh as (c & _ & Hh). by apply bind_Ok in Hh as (chs & _ & [= <-]).
  - apply bind_Ok in Hh as ([[n chs] b] & Hw & [= <-]). cbn. unfold operate in Hw. destruct w; [by case_match; simplify_eq|].
    eapply (cycle_inv not_ended); [..|exact He|exact Hw]; eauto using send_read_not_ended, send_write_not_ended, bridge_tick_not_ended.
Qed.

Lemma window_rows_all lo hi rows : Forall (fun r => lo <= row_admission_ordinal r < hi) rows -> window_rows lo hi rows = rows.
Proof. unfold window_rows. induction 1 as [|r rows Hr _ IH]; [done|]. rewrite filter_cons_True by done. by rewrite IH. Qed.

Lemma win_report b : win_inv b -> exists rows, br_reqtrace b = Some rows /\ StronglySorted Z.lt (row_admission_ordinal <$> rows) /\
  forall cpu lo hi measured total, (cpu, lo, hi, measured, total) ∈ measurement_report b ->
    total = Z.of_nat (length (core_reads cpu rows)) /\
    (hi <> -1 -> measured = Z.of_nat (length (window_rows lo hi (core_reads cpu rows)))).
Proof.
  intros (rows & Hr & Hn & Hf & Hso & Hw). exists rows. split_and!; [done|done|]. intros cpu lo hi measured total Hin.
  unfold measurement_report in Hin. apply elem_of_lookup_imap in Hin as (i & w & [= -> -> -> -> ->] & Hc).
  destruct (Hw _ _ Hc) as (W1 & _ & _ & W4). rewrite W1, window_rows_all by (by apply core_reads_Forall). split; [done|].
  intros Hhi. by destruct W4 as [?|[_ ->]].
Qed.
End windows.

(** C35: When the windows are opened before they are closed, as ChampSim does:
    in every run with the request trace enabled, the admission ordinals of the trace
    increase strictly, the total the bridge reports for a core is the number of its
    reads in the trace, and the reads reported for a closed window are exactly those
    a reader selects by [begin <= admission_ordinal < end]. *)
Theorem bridge_windows_exact {M} `{IMemorySystem M} `{Callbacks M} `{!SendKeeps M} (num_cpus : Z) (m : M) (r : Z) b chs pre post h :
  Bridge_init num_cpus m true r = Ok b -> Forall (fun e => forall cpu, e <> MeasureEnd cpu) pre -> Forall (fun e => e <> MeasureBegin) post ->
  host_run (mkHost chs b [] []) (pre ++ post) = Ok h ->
  exists rows, br_reqtrace (h_bridge h) = Some rows /\ StronglySorted Z.lt (row_admission_ordinal <$> rows) /\
  forall cpu lo hi measured total, (cpu, lo, hi, measured, total) ∈ measurement_report (h_bridge h) ->
    total = Z.of_nat (length (core_reads cpu rows)) /\
    (hi <> -1 -> measured = Z.of_nat (length (window_rows lo hi (core_reads cpu rows)))).
Proof.
  intros Hi Hpre Hpost Hd. apply win_report. unfold host_run in Hd. rewrite foldM_app in Hd. apply bind_Ok in Hd as (h1 & H1 & H2).
  rewrite Forall_forall in Hpre, Hpost.
  refine (foldM_inv (fun h => win_inv (h_bridge h)) host_event post h1 h _ _ H2); [|intros; eapply host_event_win; eauto].
  refine (proj1 (foldM_inv (fun h => win_inv (h_bridge h) /\ not_ended (h_bridge h)) host_event pre _ h1 _ _ H1));
    [|intros; eapply host_event_not_ended; eauto].
  unfold Bridge_init in Hi. case_match; [done|]. injection Hi as <-. split; cbn.
  - exists []. split; [done|]. split_and!; [done|done|constructor|]. cbn. intros cpu w [-> _]%lookup_replicate_1. by split_and!; [..|left].
  - apply Forall_replicate. done.
Qed.

(** ** The clock ratio *)

(** A memory system that counts its ticks. *)
Record Ticked (M : Type) := mkTicked { tk_memory : M; tk_ticks : Z }.
Arguments mkTicked {M}.
Arguments tk_memory {M}.
Arguments tk_ticks {M}.

#[export] Instance Ticked_memory {M} `{IMemorySystem M} : IMemorySystem (Ticked M) := {|
  ms_send := fun t r => q ← ms_send (tk_memory t) r; let '(ok, r, m) := q in Ok (ok, r, mkTicked m (tk_ticks t));
  ms_tick := fun t => m ← ms_tick (tk_memory t); Ok (mkTicked m (tk_ticks t + 1));
  ms_idle_ticks := fun t => ms_idle_ticks (tk_memory t);
  ms_fast_forward := fun t k => m ← ms_fast_forward (tk_memory t) k; Ok (mkTicked m (tk_ticks t + k));
  ms_get_tx_bytes := fun t => ms_get_tx_bytes (tk_memory t)
|}.
#[export] Instance Ticked_callbacks {M} `{Callbacks M} : Callbacks (Ticked M) :=
  fun t => let '(done, m) := take_callbacks (tk_memory t) in (done, mkTicked m (tk_ticks t)).

Definition same_clock {M} (b b' : Bridge M) : Prop :=
  br_cycle b' = br_cycle b /\ br_tick_acc b' = br_tick_acc b /\ br_ticks_per_8 b' = br_ticks_per_8 b.

Lemma with_callbacks_clock {M} `{Callbacks M} (b : Bridge M) (m : M) :
  same_clock b (with_callbacks b m) /\ br_ms (with_callbacks b m) = (take_callbacks m).2.
Proof.
  unfold with_callbacks. destruct (take_callbacks m) as [l m'].
  assert (forall b0, same_clock b b0 /\ br_ms b0 = m' -> same_clock b (foldl complete_read b0 l) /\ br_ms (foldl complete_read b0 l) = m') as Hl;
    [|by apply Hl].
  induction l as [|r l IH]; intros b0 Hb; cbn; [done|]. apply IH. unfold complete_read. by repeat case_match.
Qed.

(** The fuel of the tick loop is enough: more of it changes nothing. *)
Lemma tick_memory_fuel {M} `{IMemorySystem M} `{Callbacks M} fuel k (b : Bridge M) :
  br_tick_acc b < 8 * (Z.of_nat fuel + 1) -> tick_memory (S fuel + k) b = tick_memory (S fuel) b.
Proof.
  revert b. induction fuel as [|fuel IH]; intros b Hb; cbn [Nat.add tick_memory]; destruct (Z.ltb_spec (br_tick_acc b) 8); try done; [lia|].
  destruct (ms_tick _) as [m|]; [|done]. cbn [mbind result_bind]. apply IH.
  destruct (with_callbacks_clock (set_cycle b (br_cycle b) (br_tick_acc b - 8)) m) as [(_ & -> & _) _]. cbn. lia.
Qed.

Section ratio.
Context {M : Type} `{IMemorySystem M} `{Callbacks M}.
Implicit Types b : Bridge (Ticked M).

Definition ratio_inv (r : Z) b : Prop :=
  br_ticks_per_8 b = r /\ 0 <= br_tick_acc b < 8 /\ 8 * tk_ticks (br_ms b) + br_tick_acc b = br_cycle b * r.

Lemma take_ticks (t : Ticked M) : tk_ticks (take_callbacks t).2 = tk_ticks t.
Proof. unfold take_callbacks at 1, Ticked_callbacks. by destruct (take_callbacks (tk_memory t)). Qed.

Lemma send_ticks (t : Ticked M) q ok q' t' : ms_send t q = Ok (ok, q', t') -> tk_ticks t' = tk_ticks t.
Proof. cbn. intros Hs. apply bind_Ok in Hs as ([[ok1 q1] m] & _ & [= <- <- <-]). done. Qed.

Lemma note_admission_clock b req b' : note_admission b req = Ok b' -> same_clock b b' /\ br_ms b' = br_ms b.
Proof. by intros (_ & ws & -> & _)%note_admission_spec. Qed.

Lemma ratio_same r b b' : same_clock b b' -> tk_ticks (br_ms b') = tk_ticks (br_ms b) -> ratio_inv r b -> ratio_inv r b'.
Proof. intros (E1 & E2 & E3) E4. unfold ratio_inv. by rewrite E1, E2, E3, E4. Qed.

Lemma callbacks_ratio r b m : tk_ticks m = tk_ticks (br_ms b) -> ratio_inv r b -> ratio_inv r (with_callbacks b m).
Proof. intros Em. destruct (with_callbacks_clock b m) as [C E]. apply ratio_same; [done|]. by rewrite E, take_ticks. Qed.

Lemma send_read_ratio r b p ul ok b' : ratio_inv r b -> send_read b p ul = Ok (ok, b') -> ratio_inv r b'.
Proof.
  intros Hi Hs. unfold send_read in Hs. apply bind_Ok in Hs as ([[ok1 req] m] & Hm%send_ticks & Hs). set (b0 := set_next_token b _) in *.
  assert (ratio_inv r (with_callbacks b0 m)) as Hi1 by (by apply callbacks_ratio).
  destruct ok1; cbn [negb] in Hs; [|by injection Hs as <- <-]. apply bind_Ok in Hs as (b2 & Hn & [= <- <-]).
  apply note_admission_clock in Hn as [Hc Hn]. eapply ratio_same; [exact Hc| |exact Hi1]. cbn. by rewrite Hn.
Qed.

Lemma send_write_ratio r b p ok b' : ratio_inv r b -> send_write b p = Ok (ok, b') -> ratio_inv r b'.
Proof.
  intros Hi Hs. unfold send_write in Hs. apply bind_Ok in Hs as ([[ok1 req] m] & Hm%send_ticks & Hs).
  assert (ratio_inv r (with_callbacks b m)) as Hi1 by (by apply callbacks_ratio).
  destruct ok1; [|by injection Hs as <- <-]. apply bind_Ok in Hs as (b2 & Hn & [= <- <-]).
  apply note_admission_clock in Hn as [Hc Hn]. eapply ratio_same; [exact Hc| |exact Hi1]. cbn. by rewrite Hn.
Qed.

Lemma tick_memory_ratio fuel b b' :
  0 <= br_tick_acc b -> tick_memory fuel b = Ok b' ->
  br_cycle b' = br_cycle b /\ br_ticks_per_8 b' = br_ticks_per_8 b /\ 0 <= br_tick_acc b' < 8 /\
  8 * tk_ticks (br_ms b') + br_tick_acc b' = 8 * tk_ticks (br_ms b) + br_tick_acc b.
Proof.
  revert b. induction fuel as [|fuel IH]; intros b Ha Ht; cbn [tick_memory] in Ht; [done|].
  destruct (Z.ltb_spec (br_tick_acc b) 8); [injection Ht as <-; split_and!; done || lia|].
  apply bind_Ok in Ht as (m & Hm & Ht). cbn in Hm. apply bind_Ok in Hm as (m1 & _ & [= <-]).
  destruct (with_callbacks_clock (set_cycle b (br_cycle b) (br_tick_acc b - 8)) (mkTicked m1 (tk_ticks (br_ms b) + 1))) as [(E1 & E2 & E3) E4].
  apply IH in Ht as (F1 & F2 & F3 & F4); [|rewrite E2; cbn; lia]. rewrite E1 in F1. rewrite E3 in F2. rewrite E2, E4, take_ticks in F4. cbn in *.
  split_and!; done || lia.
Qed.

Lemma bridge_tick_ratio_step r chs b chs' b' : 0 <= r -> ratio_inv r b -> bridge_tick chs b = Ok (chs', b') -> ratio_inv r b'.
Proof.
  intros Hr (E & Ha & Hi) Ht. unfold bridge_tick in Ht. apply bind_Ok in Ht as (acc & Hacc & Ht).
  unfold s32 in Hacc. case_match; [|done]. injection Hacc as <-.
  apply bind_Ok in Ht as (b1 & Hb1 & Ht). apply bind_Ok in Ht as (chs1 & _ & [= <- <-]).
  apply tick_memory_ratio in Hb1 as (E1 & E2 & E3 & E4); [|cbn; lia]. unfold ratio_inv. cbn in *. rewrite E1, E2. split_and!; lia.
Qed.

(** In every run the memory has ticked [r] times for every eight cycles of the
    bridge, rounded down; cycles of warmup do not count. *)
Lemma bridge_tick_ratio (num_cpus : Z) (m : M) (rt : bool) (r : Z) b chs evs h :
  0 <= r -> Bridge_init num_cpus (mkTicked m 0) rt r = Ok b -> host_run (mkHost chs b [] []) evs = Ok h ->
  tk_ticks (br_ms (h_bridge h)) = br_cycle (h_bridge h) * r / 8.
Proof.
  intros Hr Hi Hd. enough (ratio_inv r (h_bridge h)) as (_ & Ha & Hm) by (apply (Z.div_unique_pos _ _ _ (br_tick_acc (h_bridge h))); lia).
  refine (foldM_inv (fun h => ratio_inv r (h_bridge h)) host_event evs _ _ _ _ Hd).
  - unfold Bridge_init in Hi. case_match; [done|]. injection Hi as <-. by split_and!.
  - clear -Hr. intros h1 h2 e _ Hi He. destruct e as [i k p|i n|w| |cpu]; cbn [host_event] in He.
    + apply bind_Ok in He as (c & _ & He). case_match. by apply bind_Ok in He as (chs & _ & [= <-]).
    + apply bind_Ok in He as (c & _ & He). by apply bind_Ok in He as (chs & _ & [= <-]).
    + apply bind_Ok in He as ([[n chs] b] & Hw & [= <-]). unfold operate in Hw. destruct w; [by case_match; simplify_eq|].
      eapply (cycle_inv (ratio_inv r)); [..|exact Hi|exact Hw]; eauto using send_read_ratio, send_write_ratio, bridge_tick_ratio_step.
    + by injection He as <-.
    + apply bind_Ok in He as (b & Hm & [= <-]). unfold measurement_end in Hm. by repeat case_match; simplify_eq.
Qed.
End ratio.

(** ** Admission ordinals and channels

    The bridge takes admission ordinals to increase from one admitted request to
    the next.  The memory system numbers the requests of each channel apart. *)
Section channels.
Context {C Mp : Type} `{IController C} `{!IControllerLaws C} `{Callbacks C} (map_apply : Mp -> Request -> result Request).
#[local] Instance sys_memory : IMemorySystem (GenericDRAMSystem C Mp) := system_memory map_apply.
Context `{!SendKeeps (GenericDRAMSystem C Mp)}.
Implicit Types b : Bridge (GenericDRAMSystem C Mp).

Definition one_channel_inv b : Prop :=
  exists o, m_next_admission_ordinal (br_ms b) = [o] /\ br_next_admission b <= o.

(** With one channel no admission is refused: a read of an existing core is sent
    whenever the memory system answers. *)
Lemma one_channel_admits b p ul q :
  one_channel_inv b -> 0 <= pk_cpu p < Z.of_nat (length (br_windows b)) -> pk_cpu p < 2 ^ 31 ->
  ms_send (br_ms b) (packet_request b p Read (ri_frontend_id (packet_identity b p)) (ri_frontend_sub_id (packet_identity b p))
    (Some (br_next_token b)) (ri_source_id (packet_identity b p))) = Ok q ->
  exists b', send_read b p ul = Ok (q.1.1, b') /\ one_channel_inv b' /\ length (br_windows b') = length (br_windows b).
Proof.
  intros (o & Ho & Hle) Hcpu Hc31 Hs. destruct q as [[ok req] m].
  assert (ri_source_id (packet_identity b p) = pk_cpu p) as Hsrc.
  { unfold packet_identity, make_request_identity. rewrite (proj2 (Z.leb_le _ _)) by lia. by repeat case_match. }
  unfold send_read. cbn [br_ms set_next_token]. rewrite Hsrc in Hs |- *.
  change (packet_identity (set_next_token b _) p) with (packet_identity b p). rewrite ?Hsrc.
  change (packet_request (set_next_token b _)) with (packet_request b). rewrite Hs. cbn [mbind result_bind].
  pose proof (send_keeps _ _ _ _ _ Hs) as (_ & Hty & Hreq). cbn in Hty, Hreq.
  apply (system_send_spec map_apply) in Hs as (m1 & ch & c & c' & o1 & _ & _ & Ho1 & Hos & _ & _ & _ & Hord).
  rewrite Ho in Ho1, Hos. apply vget_Ok in Ho1 as [Hch Ho1]. apply list_lookup_singleton_Some in Ho1 as [Hch0 <-].
  assert (ch = 0) as -> by lia. apply vset_Ok in Hos as [_ Hos]. cbn in Hos.
  set (b0 := set_next_token b (br_next_token b + 1)).
  destruct (with_callbacks_clock b0 m) as [_ Hms], (with_callbacks_same b0 m) as (_ & Hw & Hn).
  set (b1 := with_callbacks b0 m) in *. change (br_windows b0) with (br_windows b) in Hw. change (br_next_admission b0) with (br_next_admission b) in Hn.
  assert (m_next_admission_ordinal (br_ms b1) = [o + 1]) as Hb1 by (rewrite Hms; exact Hos).
  destruct ok; cbn [negb fst snd]; [|exists b1; split_and!; [done|exists (o + 1); split; [done|lia]|by rewrite Hw]].
  unfold note_admission. rewrite Hord, Hreq, Hn, Hw.
  rewrite (proj2 (Z.ltb_ge _ _)), (proj2 (Z.ltb_ge _ _)), (proj2 (Z.leb_gt _ _)) by lia. cbn [orb].
  rewrite Hty. change (Read =? Read) with true. cbv iota.
  destruct (vget_in_range (br_windows b) (pk_cpu p)) as [w ->]; [lia|]. cbn [mbind result_bind].
  match goal with |- context [vset ?l ?i ?x] => destruct (vset_total l i x) as [ws Hws]; [lia|]; rewrite Hws end. cbn [mbind result_bind].
  eexists. split; [reflexivity|]. split; [exists (o + 1); split; [exact Hb1|cbn; lia]|]. cbn. by eapply vset_length.
Qed.
End channels.

(** With two channels the second read of a channel that falls behind stops the
    run: lines 0 and 2 of channel 0, then line 1 of channel 1. *)
Definition read_packet (cpu line instr : Z) : packet :=
  mkPacket true true (255, 255) LOAD 0 cpu (line * 64) (line * 64) 0 instr 0 [].
Definition port (rq : list packet) : channel :=
  mkChannel rq [] [] [] 8 8 8 (mkQueueStats 0 0 0) (mkQueueStats 0 0 0) (mkQueueStats 0 0 0).

#[export] Instance two_channel_memory : IMemorySystem (GenericDRAMSystem (GenericDDR NoRefresh OpenRowPolicy Empty_set) Interleave) :=
  system_memory CacheLineInterleave_apply.

Lemma two_channels_refused :
  exists b, Bridge_init 1 small_system true 8 = Ok b /\
    cycle [port [read_packet 0 0 1; read_packet 0 2 2; read_packet 0 1 3]] b = Err invalid_admission /\
    is_ok (cycle [port [read_packet 0 0 1; read_packet 0 2 2; read_packet 0 4 3]] b).
Proof.
  eexists. split; [reflexivity|]. split; [vm_compute; reflexivity|]. eexists. vm_compute. reflexivity.
Qed.

(** ** A run on an atomic controller behind one channel

    Two cores, three memory ticks for eight cycles.  A read before the window,
    then two reads, a prefetch without an answer and a write; the window of core 0
    closes and its last read falls outside. *)
Definition bridge0 : Bridge (GenericDRAMSystem (Atomic unit) Interleave) :=
  match Bridge_init 2 atomic_memory true 3 with
  | Ok b => b
  | Err _ => mkBridge atomic_memory ∅ [] 0 0 None 0 [] 0 0 0
  end.
Definition silent (p : packet) : packet :=
  mkPacket (pk_is_translated p) false (pk_asid p) PREFETCH (pk_pf_metadata p) (pk_cpu p) (pk_address p) (pk_v_address p)
    (pk_data p) (pk_instr_id p) (pk_ip p) (pk_instr_depend_on_me p).
Definition before_window : list host_input :=
  [Arrive 0 ReadQueue (read_packet 0 0 1); Operate true; Arrive 0 ReadQueue (read_packet 0 1 2); Operate false; MeasureBegin].
Definition in_window : list host_input :=
  [Arrive 0 ReadQueue (read_packet 0 2 3); Arrive 1 ReadQueue (read_packet 1 3 1); Arrive 0 PrefetchQueue (silent (read_packet 0 4 0));
   Arrive 1 WriteQueue (read_packet 1 5 2)] ++ replicate 200 (Operate false) ++
  [MeasureEnd 0; Arrive 0 ReadQueue (read_packet 0 6 4); Operate false; Consume 0 2; MeasureEnd 1; Operate false].
Definition bridge_host : Host (GenericDRAMSystem (Atomic unit) Interleave) := mkHost [port []; port []] bridge0 [] [].

Lemma bridge_responses_conserved_witness :
  exists h, host_run bridge_host (before_window ++ in_window) = Ok h /\
    length (h_accepted h) = 5%nat /\ length (h_consumed h) = 2%nat /\ length (held (h_bridge h)) = 1%nat /\
    (h_consumed h ++ gather channel_returned (h_channels h) ++ (held (h_bridge h) ≫= answer_due) ++ gather channel_due (h_channels h)
     ≡ₚ h_accepted h) /\
    br_done (h_bridge h) = [].
Proof.
  assert (exists h, host_run bridge_host (before_window ++ in_window) = Ok h /\
    length (h_accepted h) = 5%nat /\ length (h_consumed h) = 2%nat /\ length (held (h_bridge h)) = 1%nat) as (h & Hh & H1 & H2 & H3)
    by (eexists; split; [vm_compute; reflexivity|vm_compute; auto]).
  exists h. split; [exact Hh|]. split; [exact H1|]. split; [exact H2|]. split; [exact H3|].
  destruct (bridge_responses_conserved 2 atomic_memory true 3 bridge0 [port []; port []] (before_window ++ in_window) h) as [Hc Hd];
    [vm_compute; reflexivity|repeat constructor|exact Hh|].
  split; [exact Hc|]. apply (Hd (before_window ++ removelast in_window)). reflexivity.
Defined.

Lemma bridge_windows_exact_witness :
  exists h rows, host_run bridge_host (before_window ++ in_window) = Ok h /\ br_reqtrace (h_bridge h) = Some rows /\
    length rows = 6%nat /\ measurement_report (h_bridge h) = [(0, 1, 111, 2, 4); (1, 1, 112, 1, 1)] /\
    length (window_rows 1 111 (core_reads 0 rows)) = 2%nat.
Proof.
  assert (exists h rows, host_run bridge_host (before_window ++ in_window) = Ok h /\ br_reqtrace (h_bridge h) = Some rows /\
    length rows = 6%nat /\ measurement_report (h_bridge h) = [(0, 1, 111, 2, 4); (1, 1, 112, 1, 1)]) as (h & rows & Hh & Hr & H1 & H2)
    by (do 2 eexists; split; [vm_compute; reflexivity|vm_compute; auto]).
  exists h, rows. split; [exact Hh|]. split; [exact Hr|]. split; [exact H1|]. split; [exact H2|].
  destruct (bridge_windows_exact 2 atomic_memory 3 bridge0 [port []; port []] before_window in_window h) as (rows' & Hr' & _ & Hw);
    [vm_compute; reflexivity|repeat constructor; discriminate|repeat constructor; discriminate|exact Hh|].
  rewrite Hr in Hr'. injection Hr' as <-. destruct (Hw 0 1 111 2 4) as [_ Hm]; [rewrite H2; left|].
  apply Nat2Z.inj. rewrite <- Hm; [reflexivity|discriminate].
Defined.
