(* ===== verification/Gem5.v ===== *)
(** * The gem5 wrapper

    [resources/gem5_wrappers/ramulator2_base.cc]: a memory system of any kind behind
    the ports of gem5.  gem5 itself is the environment: the current tick and the
    timing mode are arguments, an event is the tick it is scheduled for, a packet is
    the fields the wrapper reads, and the packets a peer sends in answer to a retry
    are an argument of the handler that asks for it.  The tokens that messages quote
    are left out.  [gem5_responses_conserved]: one
    response for each accepted packet that needs one, in the right port.
    [gem5_drain_signalled]: a drain that had to wait is signalled.
    [gem5_clock_exact]: whatever is skipped, the memory has been advanced once per
    DRAM edge at each request. *)

From Stdlib Require Import ZArith Lia.
From S2P Require Import Prelude Base Controller Mapping MemSystem Latency Elision Simulation LatTp SimExamples TraceReaders.
From S2P Require Import SyntheticProps MemProps Bridge.

Local Open Scope Z_scope.

(** ** Packets and identities *)

(** A [Packet] with its [Request]; [gp_id] stands for the pointer. *)
Record gpacket := mkGPacket {
  gp_id : Z;
  gp_is_read : bool;
  gp_is_write : bool;
  gp_cache_responding : bool;
  gp_addr : Z;
  gp_size : Z;
  gp_needs_response : bool;
  gp_context_id : option Z;
  gp_inst_seq : option Z;
  gp_is_inst_fetch : bool;
  gp_requestor_id : Z;
  gp_header_delay : Z;
  gp_payload_delay : Z
}.
#[export] Instance gpacket_eq_dec : EqDecision gpacket.
Proof. solve_decision. Defined.

(** The timing of a packet is reset before it is sent out. *)
Definition without_delay (p : gpacket) : gpacket :=
  mkGPacket (gp_id p) (gp_is_read p) (gp_is_write p) (gp_cache_responding p) (gp_addr p) (gp_size p) (gp_needs_response p)
    (gp_context_id p) (gp_inst_seq p) (gp_is_inst_fetch p) (gp_requestor_id p) 0 0.

Definition ramulator2SourceId (context_id : option Z) : Z :=
  match context_id with
  | Some c => if (0 <=? c) && (c <=? 2 ^ 31 - 1) then c else 0
  | None => 0
  end.

(** All the arithmetic is in 64 unsigned bits and stays within them. *)
Definition ramulator2RequestIdentity (source_id : Z) (inst_seq : option Z) (physical_address : Z) (is_write : bool)
  (requestor_id tx_bytes : Z) : request_identity :=
  let result := mkIdentity source_id (-1) 0 in
  match inst_seq with
  | None => result
  | Some seq =>
      if (source_id <? 0) || (2 ^ 63 - 1 <? seq) || (2 ^ 16 - 1 <? requestor_id) || (tx_bytes <=? 0) then result
      else
        let transaction := physical_address / tx_bytes in
        let discriminator := requestor_id * 2 + (if is_write then 1 else 0) in
        if (2 ^ 63 - 1 - discriminator) / (2 ^ 16 * 2) <? transaction then result
        else mkIdentity source_id seq (transaction * (2 ^ 16 * 2) + discriminator)
  end.

(** ** State *)
Record PortState := mkPortState {
  ps_retryReq : bool;
  ps_retryResp : bool;
  ps_responseQueue : list gpacket;
  ps_sendResponseEvent : option Z;
  ps_pendingDelete : option gpacket
}.
Definition PortState_default : PortState := mkPortState false false [] None None.

Definition ps_set_retryReq (p : PortState) (v : bool) : PortState :=
  mkPortState v (ps_retryResp p) (ps_responseQueue p) (ps_sendResponseEvent p) (ps_pendingDelete p).
Definition ps_set_retryResp (p : PortState) (v : bool) : PortState :=
  mkPortState (ps_retryReq p) v (ps_responseQueue p) (ps_sendResponseEvent p) (ps_pendingDelete p).
Definition ps_set_queue (p : PortState) (q : list gpacket) (ev : option Z) : PortState :=
  mkPortState (ps_retryReq p) (ps_retryResp p) q ev (ps_pendingDelete p).
Definition ps_set_delete (p : PortState) (d : gpacket) : PortState :=
  mkPortState (ps_retryReq p) (ps_retryResp p) (ps_responseQueue p) (ps_sendResponseEvent p) (Some d).

(** The configuration, constant after [startup]. *)
Record G5Config := mkG5Config {
  g5_eventDriven : bool;
  g5_clockEdgeFirst : bool;
  g5_dramPeriod : Z;
  g5_ingress : nat -> Z
}.

(** [g_accepted], [g_sent] and [g_drains] note what the peers and the drain manager
    saw: packets accepted, responses taken, signals.  The service clock is
    [g_nextTick] with the event [g_tickEvent]. *)
Record Gem5 (M : Type) := mkGem5 {
  g_ms : M;
  g_ports : list PortState;
  g_outstandingReads : gmap Z (gpacket * nat);
  g_outstandingWrites : gset Z;
  g_nextAdmissionToken : Z;
  g_admissionInProgress : bool;
  g_drainSignalDeferred : bool;
  g_serviceStarted : bool;
  g_inService : bool;
  g_nextTick : Z;
  g_tickEvent : option Z;
  g_serviceEvents : Z;
  g_accepted : list (nat * gpacket);
  g_sent : list (nat * gpacket);
  g_drains : Z
}.
Arguments mkGem5 {M}.
Arguments g_ms {M}.
Arguments g_ports {M}.
Arguments g_outstandingReads {M}.
Arguments g_outstandingWrites {M}.
Arguments g_nextAdmissionToken {M}.
Arguments g_admissionInProgress {M}.
Arguments g_drainSignalDeferred {M}.
Arguments g_serviceStarted {M}.
Arguments g_inService {M}.
Arguments g_nextTick {M}.
Arguments g_tickEvent {M}.
Arguments g_serviceEvents {M}.
Arguments g_accepted {M}.
Arguments g_sent {M}.
Arguments g_drains {M}.

Definition assert_failed {A} : result A := Err (Throw "assertion failed").
Definition panic {A} (msg : string) : result A := Err (Throw msg).
Definition panic_if (c : bool) (msg : string) : result () := if c then panic msg else Ok ().
Definition MaxTick : Z := 2 ^ 64 - 1.

(** What gem5 shows a handler. *)
Record Env := mkEnv { e_curTick : Z; e_timing : bool }.

Section wrapper.
Context {M : Type} `{IMemorySystem M} `{Callbacks M} (cfg : G5Config).
Implicit Types g : Gem5 M.

Definition g_set_ms g (m : M) : Gem5 M :=
  mkGem5 m (g_ports g) (g_outstandingReads g) (g_outstandingWrites g) (g_nextAdmissionToken g) (g_admissionInProgress g)
    (g_drainSignalDeferred g) (g_serviceStarted g) (g_inService g) (g_nextTick g) (g_tickEvent g) (g_serviceEvents g)
    (g_accepted g) (g_sent g) (g_drains g).
Definition g_set_ports g (ps : list PortState) : Gem5 M :=
  mkGem5 (g_ms g) ps (g_outstandingReads g) (g_outstandingWrites g) (g_nextAdmissionToken g) (g_admissionInProgress g)
    (g_drainSignalDeferred g) (g_serviceStarted g) (g_inService g) (g_nextTick g) (g_tickEvent g) (g_serviceEvents g)
    (g_accepted g) (g_sent g) (g_drains g).
Definition g_set_outstanding g (r : gmap Z (gpacket * nat)) (w : gset Z) (next : Z) : Gem5 M :=
  mkGem5 (g_ms g) (g_ports g) r w next (g_admissionInProgress g)
    (g_drainSignalDeferred g) (g_serviceStarted g) (g_inService g) (g_nextTick g) (g_tickEvent g) (g_serviceEvents g)
    (g_accepted g) (g_sent g) (g_drains g).
Definition g_set_admission g (in_progress deferred : bool) (drains : Z) : Gem5 M :=
  mkGem5 (g_ms g) (g_ports g) (g_outstandingReads g) (g_outstandingWrites g) (g_nextAdmissionToken g) in_progress
    deferred (g_serviceStarted g) (g_inService g) (g_nextTick g) (g_tickEvent g) (g_serviceEvents g)
    (g_accepted g) (g_sent g) drains.
Definition g_set_service g (started service : bool) (next : Z) (ev : option Z) (events : Z) : Gem5 M :=
  mkGem5 (g_ms g) (g_ports g) (g_outstandingReads g) (g_outstandingWrites g) (g_nextAdmissionToken g) (g_admissionInProgress g)
    (g_drainSignalDeferred g) started service next ev events (g_accepted g) (g_sent g) (g_drains g).
Definition g_note g (accepted sent : list (nat * gpacket)) : Gem5 M :=
  mkGem5 (g_ms g) (g_ports g) (g_outstandingReads g) (g_outstandingWrites g) (g_nextAdmissionToken g) (g_admissionInProgress g)
    (g_drainSignalDeferred g) (g_serviceStarted g) (g_inService g) (g_nextTick g) (g_tickEvent g) (g_serviceEvents g)
    (g_accepted g ++ accepted) (g_sent g ++ sent) (g_drains g).

(** ** Outstanding requests and draining *)
Definition outstanding_count g : Z :=
  Z.of_nat (size (g_outstandingReads g) + size (g_outstandingWrites g)) +
  foldr (fun p n => Z.of_nat (length (ps_responseQueue p)) + n) 0 (g_ports g).

Definition nbrOutstanding g : result Z :=
  _ ← panic_if (2 ^ 32 - 1 <? outstanding_count g) "Ramulator2 outstanding-request count overflow"; Ok (outstanding_count g).

(** [Drained] when true. *)
Definition g_drain g : result bool := n ← nbrOutstanding g; Ok (n =? 0).

Definition signalDrainDone g : Gem5 M := g_set_admission g (g_admissionInProgress g) (g_drainSignalDeferred g) (g_drains g + 1).

Definition maybeSignalDrainDone g : result (Gem5 M) :=
  n ← nbrOutstanding g;
  if negb (n =? 0) then Ok g
  else if g_admissionInProgress g then Ok (g_set_admission g true true (g_drains g))
  else Ok (signalDrainDone g).

Definition beginAdmission g : result (Gem5 M) :=
  _ ← panic_if (g_admissionInProgress g) "Ramulator2 does not support nested request admission";
  Ok (g_set_admission g true (g_drainSignalDeferred g) (g_drains g)).

Definition endAdmission g : result (Gem5 M) :=
  if negb (g_admissionInProgress g) then assert_failed
  else
    let deferred := g_drainSignalDeferred g in
    let g := g_set_admission g false false (g_drains g) in
    if deferred then n ← nbrOutstanding g; Ok (if n =? 0 then signalDrainDone g else g)
    else Ok g.

Definition allocateAdmissionToken g : result (Z * Gem5 M) :=
  _ ← panic_if (g_nextAdmissionToken g =? 2 ^ 64 - 1) "Ramulator2 admission-token space exhausted";
  Ok (g_nextAdmissionToken g,
      g_set_outstanding g (g_outstandingReads g) (g_outstandingWrites g) (g_nextAdmissionToken g + 1)).

(** ** Responses *)

(** [portStates.at(i)] and a store to it. *)
Definition with_port g (i : nat) (f : PortState -> result PortState) : result (Gem5 M) :=
  p ← vget (g_ports g) (Z.of_nat i);
  p ← f p;
  ps ← vset (g_ports g) (Z.of_nat i) p;
  Ok (g_set_ports g ps).

(** [access] is gem5's: it turns a packet that needs one into its response. *)
Definition accessAndRespond (env : Env) g (pkt : gpacket) (i : nat) : result (Gem5 M) :=
  with_port g i (fun p =>
    if gp_needs_response pkt then
      let time := e_curTick env + gp_header_delay pkt + gp_payload_delay pkt in
      let ev := if ps_retryResp p then ps_sendResponseEvent p
                else match ps_sendResponseEvent p with Some t => Some t | None => Some time end in
      Ok (ps_set_queue p (ps_responseQueue p ++ [without_delay pkt]) ev)
    else Ok (ps_set_delete p pkt)).

(** [success] is the answer of the peer to [sendTimingResp]. *)
Definition sendResponse (env : Env) g (i : nat) (success : bool) : result (Gem5 M) :=
  p ← vget (g_ports g) (Z.of_nat i);
  if ps_retryResp p then assert_failed
  else
    match ps_responseQueue p with
    | [] => assert_failed
    | pkt :: q =>
        if success then
          let ev := match q, ps_sendResponseEvent p with _ :: _, None => Some (e_curTick env) | _, e => e end in
          g ← with_port g i (fun p => Ok (ps_set_queue p q ev));
          maybeSignalDrainDone (g_note g [] [(i, pkt)])
        else
          match ps_sendResponseEvent p with
          | Some _ => assert_failed
          | None => with_port g i (fun p => Ok (ps_set_retryResp p true))
          end
    end.

(** The event fires: it is no longer scheduled. *)
Definition sendResponseEvent (env : Env) g (i : nat) (success : bool) : result (Gem5 M) :=
  g ← with_port g i (fun p => Ok (ps_set_queue p (ps_responseQueue p) None));
  sendResponse env g i success.

Definition recvRespRetry (env : Env) g (i : nat) (success : bool) : result (Gem5 M) :=
  p ← vget (g_ports g) (Z.of_nat i);
  if negb (ps_retryResp p) then assert_failed
  else
    g ← with_port g i (fun p => Ok (ps_set_retryResp p false));
    sendResponse env g i success.

(** ** Completions

    The callback of a read or a write is its token with its kind. *)
Definition read_cb (token : Z) : Z := 2 * token.
Definition write_cb (token : Z) : Z := 2 * token + 1.

Definition read_done (env : Env) g (token : Z) : result (Gem5 M) :=
  match g_outstandingReads g !! token with
  | None => panic "Ramulator2 completed unknown read token"
  | Some (pkt, i) =>
      let g := g_set_outstanding g (delete token (g_outstandingReads g)) (g_outstandingWrites g) (g_nextAdmissionToken g) in
      g ← accessAndRespond env g pkt i;
      maybeSignalDrainDone g
  end.

Definition write_done g (token : Z) : result (Gem5 M) :=
  if bool_decide (token ∈ g_outstandingWrites g) then
    maybeSignalDrainDone (g_set_outstanding g (g_outstandingReads g) (g_outstandingWrites g ∖ {[token]}) (g_nextAdmissionToken g))
  else panic "Ramulator2 completed unknown write token".

Definition completed (env : Env) g (r : Request) : result (Gem5 M) :=
  match callback r with
  | None => Ok g
  | Some cb => if Z.even cb then read_done env g (cb / 2) else write_done g (cb / 2)
  end.

(** The memory system has changed, and has run callbacks. *)
Definition after_memory (env : Env) g (m : M) : result (Gem5 M) :=
  let '(done, m) := take_callbacks m in foldM (completed env) (g_set_ms g m) done.

(** ** The service clock *)
Definition scheduleService (env : Env) g : result (Gem5 M) :=
  if negb (g_serviceStarted g) || g_inService g then Ok g
  else
    when ← (if e_timing env then
              idle ← ms_idle_ticks (g_ms g);
              _ ← panic_if (idle <? 0) "Ramulator2 returned a negative idle interval";
              if idle =? 2 ^ 63 - 1 then Ok None
              else
                _ ← panic_if ((MaxTick - g_nextTick g) / g5_dramPeriod cfg <? idle) "Ramulator2 next service time overflow";
                Ok (Some (g_nextTick g + idle * g5_dramPeriod cfg))
            else Ok (Some (g_nextTick g)));
    match when with
    | None => Ok (g_set_service g true (g_inService g) (g_nextTick g) None (g_serviceEvents g))
    | Some w =>
        _ ← panic_if (w <? e_curTick env) "Ramulator2 service would be in the past";
        Ok (g_set_service g true (g_inService g) (g_nextTick g) (Some w) (g_serviceEvents g))
    end.

Definition skipIdleCycles (env : Env) g : result (Gem5 M) :=
  if negb (g5_eventDriven cfg) || negb (g_serviceStarted g) || g_inService g || negb (e_timing env) || (e_curTick env <? g_nextTick g)
  then Ok g
  else
    idle ← ms_idle_ticks (g_ms g);
    _ ← panic_if (idle <? 0) "Ramulator2 returned a negative idle interval";
    let elapsed := (e_curTick env - g_nextTick g) / g5_dramPeriod cfg + 1 in
    let skipped := Z.min elapsed idle in
    if skipped =? 0 then Ok g
    else
      m ← ms_fast_forward (g_ms g) skipped;
      let g := g_set_ms g m in
      Ok (g_set_service g (g_serviceStarted g) (g_inService g) (g_nextTick g + skipped * g5_dramPeriod cfg) (g_tickEvent g) (g_serviceEvents g)).

(** ** Admission *)

(** The checks at the entry of [recvTimingReq]. *)
Definition check_packet (pkt : gpacket) : result () :=
  _ ← panic_if (gp_cache_responding pkt) "Should not see packets where cache is responding";
  panic_if (negb (gp_is_read pkt || gp_is_write pkt)) "Should only see read and writes at memory controller".

(** [receive_external_requests] with the callbacks it runs. *)
Definition external_send (env : Env) g (pkt : gpacket) (i : nat) (id : request_identity) (type cb : Z) : result (bool * Gem5 M) :=
  q ← receive_external_requests (g_ms g) type (gp_addr pkt) (ri_source_id id) (g5_ingress cfg i) (ri_frontend_id id)
        (ri_frontend_sub_id id) (Some cb) (gp_size pkt);
  g ← after_memory env g q.2;
  Ok (q.1, g).

(** The branch of a read in [recvTimingReq]. *)
Definition receive_read (env : Env) g (pkt : gpacket) (i : nat) (id : request_identity) : result (bool * Gem5 M) :=
  t ← allocateAdmissionToken g;
  let '(token, g) := t in
  _ ← panic_if (bool_decide (is_Some (g_outstandingReads g !! token))) "Ramulator2 reused read admission token";
  let g := g_set_outstanding g (<[token := (pkt, i)]> (g_outstandingReads g)) (g_outstandingWrites g) (g_nextAdmissionToken g) in
  q ← external_send env g pkt i id Read (read_cb token);
  let '(ok, g) := q in
  if (ok : bool) then Ok (true, g_note g [(i, pkt)] [])
  else
    match g_outstandingReads g !! token with
    | None => panic "Ramulator2 rejected read token after completion"
    | Some _ =>
        let g := g_set_outstanding g (delete token (g_outstandingReads g)) (g_outstandingWrites g) (g_nextAdmissionToken g) in
        g ← with_port g i (fun p => Ok (ps_set_retryReq p true));
        Ok (false, g)
    end.

(** The branch of a write. *)
Definition receive_write (env : Env) g (pkt : gpacket) (i : nat) (id : request_identity) : result (bool * Gem5 M) :=
  t ← allocateAdmissionToken g;
  let '(token, g) := t in
  _ ← panic_if (bool_decide (token ∈ g_outstandingWrites g)) "Ramulator2 reused write admission token";
  let g := g_set_outstanding g (g_outstandingReads g) ({[token]} ∪ g_outstandingWrites g) (g_nextAdmissionToken g) in
  q ← external_send env g pkt i id Write (write_cb token);
  let '(ok, g) := q in
  if (ok : bool) then
    g ← accessAndRespond env g pkt i;
    Ok (true, g_note g [(i, pkt)] [])
  else if bool_decide (token ∈ g_outstandingWrites g) then
    let g := g_set_outstanding g (g_outstandingReads g) (g_outstandingWrites g ∖ {[token]}) (g_nextAdmissionToken g) in
    g ← with_port g i (fun p => Ok (ps_set_retryReq p true));
    Ok (false, g)
  else panic "Ramulator2 rejected write token after completion".

(** [recvTimingReq] after the clock is synchronised; a packet is a read or a write
    after [check_packet]. *)
Definition take_packet (env : Env) g (pkt : gpacket) (i : nat) : result (bool * Gem5 M) :=
  p ← vget (g_ports g) (Z.of_nat i);
  if ps_retryReq p then Ok (false, g)
  else
    let source := ramulator2SourceId (gp_context_id pkt) in
    let seq := if gp_is_inst_fetch pkt then None else gp_inst_seq pkt in
    let id := ramulator2RequestIdentity source seq (gp_addr pkt) (negb (gp_is_read pkt)) (gp_requestor_id pkt)
                (ms_get_tx_bytes (g_ms g)) in
    g ← beginAdmission g;
    r ← (if gp_is_read pkt then receive_read env g pkt i id else receive_write env g pkt i id);
    let '(ok, g) := r in
    g ← endAdmission g;
    g ← (if g5_eventDriven cfg then scheduleService env g else Ok g);
    Ok (ok, g).

(** A peer answers a retry with packets, until one is rejected.  Inside a tick
    the clock is not synchronised again. *)
Fixpoint offer_packets (env : Env) g (i : nat) (pkts : list gpacket) : result (Gem5 M) :=
  match pkts with
  | [] => Ok g
  | pkt :: pkts =>
      _ ← check_packet pkt;
      q ← take_packet env g pkt i;
      let '(ok, g) := q in
      if (ok : bool) then offer_packets env g i pkts else Ok g
  end.

Definition retry_port (env : Env) (offers : nat -> list gpacket) g (i : nat) : result (Gem5 M) :=
  p ← vget (g_ports g) (Z.of_nat i);
  if ps_retryReq p then
    g ← with_port g i (fun p => Ok (ps_set_retryReq p false));
    offer_packets env g i (offers i)
  else Ok g.

Definition g_tick (env : Env) (offers : nat -> list gpacket) g : result (Gem5 M) :=
  let g := g_set_service g (g_serviceStarted g) (g_inService g) (g_nextTick g) (g_tickEvent g) (g_serviceEvents g + 1) in
  g ← (if g5_clockEdgeFirst cfg then
         g ← skipIdleCycles env g;
         Ok (g_set_service g (g_serviceStarted g) true (e_curTick env + g5_dramPeriod cfg) (g_tickEvent g) (g_serviceEvents g))
       else Ok g);
  g ← (if e_timing env then
         m ← ms_tick (g_ms g);
         g ← after_memory env g m;
         foldM (retry_port env offers) g (seq 0 (length (g_ports g)))
       else Ok g);
  let g := if g5_clockEdgeFirst cfg
           then g_set_service g (g_serviceStarted g) false (g_nextTick g) (g_tickEvent g) (g_serviceEvents g) else g in
  if g5_eventDriven cfg then scheduleService env g
  else Ok (g_set_service g (g_serviceStarted g) (g_inService g) (g_nextTick g) (Some (e_curTick env + g5_dramPeriod cfg)) (g_serviceEvents g)).

Definition unschedule g : Gem5 M :=
  g_set_service g (g_serviceStarted g) (g_inService g) (g_nextTick g) None (g_serviceEvents g).

(** [tickEvent] fires. *)
Definition tickEvent (env : Env) (offers : nat -> list gpacket) g : result (Gem5 M) := g_tick env offers (unschedule g).

Definition synchronizeClock (env : Env) (offers : nat -> list gpacket) g : result (Gem5 M) :=
  if negb (g5_clockEdgeFirst cfg) || negb (g_serviceStarted g) || g_inService g || negb (e_timing env) || (e_curTick env <? g_nextTick g)
  then Ok g
  else
    g ← skipIdleCycles env g;
    if g_nextTick g <=? e_curTick env then
      _ ← panic_if (negb (g_nextTick g =? e_curTick env)) "Ramulator2 missed a service edge";
      match g_tickEvent g with
      | None => g_tick env offers g
      | Some w =>
          _ ← panic_if (negb (w =? e_curTick env)) "Ramulator2 boundary service timestamp differs";
          g_tick env offers (unschedule g)
      end
    else Ok g.

Definition recvTimingReq (env : Env) (offers : nat -> list gpacket) g (pkt : gpacket) (i : nat) : result (bool * Gem5 M) :=
  _ ← check_packet pkt;
  g ← synchronizeClock env offers g;
  take_packet env g pkt i.

(** [startup]: [clock_edge] is gem5's [clockEdge()]. *)
Definition startup (env : Env) g (full_system : bool) (clock_edge : Z) : result (Gem5 M) :=
  if g5_dramPeriod cfg =? 0 then Err (Throw "Ramulator2 DRAM clock period rounds to zero")
  else
    let boot := 13121004000177 in
    let next := if full_system && (e_curTick env <? boot) then boot else clock_edge in
    let g := g_set_service g true (g_inService g) next (g_tickEvent g) (g_serviceEvents g) in
    if g5_eventDriven cfg then scheduleService env g
    else Ok (g_set_service g true (g_inService g) next (Some next) (g_serviceEvents g)).

(** [resetStats]; [preDumpStats] only synchronises the clock. *)
Definition g_resetStats `{MemoryStats M} (env : Env) (offers : nat -> list gpacket) g : result (Gem5 M) :=
  g ← synchronizeClock env offers g; Ok (g_set_ms g (ms_reset_stats (g_ms g))).
(** ** Runs: what gem5 may call, at a tick and in a mode. *)
Inductive g5_op :=
| Receive (i : nat) (pkt : gpacket) (offers : nat -> list gpacket)
| TickEvent (offers : nat -> list gpacket)
| SendResponse (i : nat) (success : bool)
| RespRetry (i : nat) (success : bool)
| Synchronize (offers : nat -> list gpacket).

Definition g5_step g (c : Env * g5_op) : result (Gem5 M) :=
  match c.2 with
  | Receive i pkt offers => q ← recvTimingReq c.1 offers g pkt i; Ok q.2
  | TickEvent offers => tickEvent c.1 offers g
  | SendResponse i success => sendResponseEvent c.1 g i success
  | RespRetry i success => recvRespRetry c.1 g i success
  | Synchronize offers => synchronizeClock c.1 offers g
  end.

Definition g5_run g (l : list (Env * g5_op)) : result (Gem5 M) := foldM g5_step g l.

Definition g5_init (m : M) (num_ports : nat) : Gem5 M :=
  mkGem5 m (replicate num_ports PortState_default) ∅ ∅ 1 false false false false 0 None 0 [] [] 0.
End wrapper.

(** ** Identities *)

Lemma gem5_identity_eligible source seq a w r tx :
  0 <= a -> 0 <= r -> eligible (ramulator2RequestIdentity source seq a w r tx) ->
  exists q, seq = Some q /\ 0 <= a / tx /\ r < 2 ^ 16 /\
    ramulator2RequestIdentity source seq a w r tx = mkIdentity source q (a / tx * 2 ^ 17 + (r * 2 + (if w then 1 else 0))).
Proof.
  intros Ha Hr. unfold eligible, ramulator2RequestIdentity. destruct seq as [q|]; [|done].
  destruct (Z.ltb_spec source 0); [done|]. destruct (Z.ltb_spec (2 ^ 63 - 1) q); [done|].
  destruct (Z.ltb_spec (2 ^ 16 - 1) r); [done|]. destruct (Z.leb_spec tx 0); [done|]. cbn [orb].
  case_match; [done|]. intros _. exists q. split_and!; [done|apply Z.div_pos; lia|lia|done].
Qed.

(** Equal identities of eligible packets: the same source, instruction,
    transaction, requestor and kind. *)
Lemma gem5_identity_injective s1 q1 a1 w1 r1 s2 q2 a2 w2 r2 tx :
  0 <= a1 -> 0 <= a2 -> 0 <= r1 -> 0 <= r2 -> eligible (ramulator2RequestIdentity s1 q1 a1 w1 r1 tx) ->
  ramulator2RequestIdentity s1 q1 a1 w1 r1 tx = ramulator2RequestIdentity s2 q2 a2 w2 r2 tx ->
  s1 = s2 /\ q1 = q2 /\ a1 / tx = a2 / tx /\ r1 = r2 /\ w1 = w2.
Proof.
  intros Ha1 Ha2 Hr1 Hr2 H1 Heq. pose proof H1 as H2. rewrite Heq in H2.
  destruct (gem5_identity_eligible _ _ _ _ _ _ Ha1 Hr1 H1) as (x1 & -> & P1 & L1 & E1).
  destruct (gem5_identity_eligible _ _ _ _ _ _ Ha2 Hr2 H2) as (x2 & -> & P2 & L2 & E2).
  rewrite E1, E2 in Heq. injection Heq as -> -> Hs. destruct w1, w2; split_and!; reflexivity || lia.
Qed.

(** ** One response for each accepted packet that needs one *)
Section responses.
Context {M : Type} `{IMemorySystem M} `{Callbacks M} (cfg : G5Config).
Implicit Types g : Gem5 M.

Definition needed (x : nat * gpacket) : list (nat * gpacket) :=
  if gp_needs_response x.2 then [(x.1, without_delay x.2)] else [].
Definition port_queue (i : nat) (p : PortState) : list (nat * gpacket) := pair i <$> ps_responseQueue p.
Definition reads_owed (r : gmap Z (gpacket * nat)) : list (nat * gpacket) :=
  ((map_to_list r).*2 ≫= fun x => needed (x.2, x.1)).

#[local] Arguments gather : simpl never.
#[local] Arguments reads_owed : simpl never.
#[local] Arguments mbind : simpl never.

(** Responses sent, queued and owed for reads in flight. *)
Definition responses g : list (nat * gpacket) :=
  g_sent g ++ reads_owed (g_outstandingReads g) ++ gather port_queue (g_ports g).

(** The responses stay, reads only leave the table, and nothing is accepted. *)
Definition settles g g' : Prop :=
  responses g' ≡ₚ responses g /\ g_outstandingReads g' ⊆ g_outstandingReads g /\ g_accepted g' = g_accepted g.

#[local] Instance settles_refl : Reflexive settles.
Proof. intros g. by split_and!. Qed.
#[local] Instance settles_trans : Transitive settles.
Proof.
  intros g1 g2 g3 (P1 & S1 & A1) (P2 & S2 & A2). split_and!; [by rewrite P2|by transitivity (g_outstandingReads g2)|by rewrite A2].
Qed.

Lemma settles_same g g' :
  g_sent g' = g_sent g -> g_outstandingReads g' = g_outstandingReads g -> g_ports g' = g_ports g -> g_accepted g' = g_accepted g ->
  settles g g'.
Proof. intros E1 E2 E3 E4. unfold settles, responses. by rewrite E1, E2, E3, E4. Qed.

Lemma with_port_spec g i f g' :
  with_port g i f = Ok g' -> exists p p', g_ports g !! i = Some p /\ f p = Ok p' /\ g' = g_set_ports g (<[i := p']> (g_ports g)).
Proof.
  unfold with_port. intros Hp. apply bind_Ok in Hp as (p & [_ Hp1]%vget_Ok & Hp). apply bind_Ok in Hp as (p' & Hf & Hp).
  apply bind_Ok in Hp as (ps & [_ ->]%vset_Ok & [= <-]). rewrite Nat2Z.id in *. eauto.
Qed.

(** A port changes; its queue is put into the balance. *)
Lemma port_balance g i p p' (d : list (nat * gpacket)) :
  g_ports g !! i = Some p -> port_queue i p' ≡ₚ d ++ port_queue i p ->
  gather port_queue (<[i := p']> (g_ports g)) ≡ₚ d ++ gather port_queue (g_ports g).
Proof.
  intros Hp Hq. pose proof (gather_insert port_queue _ _ _ p' Hp) as Hg. rewrite Hq in Hg.
  apply (Permutation_app_inv_l (port_queue i p)). rewrite <- Hg. solve_Permutation.
Qed.

Lemma with_port_settles g i f g' :
  (forall p p', f p = Ok p' -> ps_responseQueue p' = ps_responseQueue p) -> with_port g i f = Ok g' -> settles g g'.
Proof.
  intros Hf (p & p' & Hp & Hfp & ->)%with_port_spec. split_and!; [|done|done]. unfold responses. cbn.
  rewrite (port_balance g i p p' []); [done|done|]. unfold port_queue. by rewrite (Hf _ _ Hfp).
Qed.

Lemma accessAndRespond_adds env g pkt i g' :
  accessAndRespond env g pkt i = Ok g' ->
  responses g' ≡ₚ needed (i, pkt) ++ responses g /\ g_outstandingReads g' = g_outstandingReads g /\ g_accepted g' = g_accepted g.
Proof.
  intros (p & p' & Hp & Hf & ->)%with_port_spec. split_and!; [|done|done]. unfold responses, needed. cbn.
  destruct (gp_needs_response pkt); injection Hf as <-.
  - rewrite (port_balance g i p _ [(i, without_delay pkt)] Hp); [solve_Permutation|].
    unfold port_queue. cbn. rewrite fmap_app. by rewrite Permutation_app_comm.
  - by rewrite (port_balance g i p _ [] Hp).
Qed.

Lemma maybeSignal_settles g g' : maybeSignalDrainDone g = Ok g' -> settles g g'.
Proof. unfold maybeSignalDrainDone. intros Hm. apply bind_Ok in Hm as (n & _ & Hm). repeat case_match; simplify_eq; by apply settles_same. Qed.

Lemma reads_owed_delete r t pkt i :
  r !! t = Some (pkt, i) -> reads_owed r ≡ₚ needed (i, pkt) ++ reads_owed (delete t r).
Proof. intros Hl. unfold reads_owed. by rewrite <- (map_to_list_delete r t _ Hl). Qed.

Lemma completed_settles env g r g' : completed env g r = Ok g' -> settles g g'.
Proof.
  unfold completed. intros Hc. destruct (callback r) as [cb|]; [|by injection Hc as <-]. destruct (Z.even cb).
  - unfold read_done in Hc. destruct (g_outstandingReads g !! _) as [[pkt i]|] eqn:Hl; [|done].
    apply bind_Ok in Hc as (g1 & Ha & Hm%maybeSignal_settles). transitivity g1; [|done].
    apply accessAndRespond_adds in Ha as (P & S & A). split_and!; [|rewrite S; apply delete_subseteq|done].
    rewrite P. unfold responses. cbn. rewrite (reads_owed_delete _ _ _ _ Hl). solve_Permutation.
  - unfold write_done in Hc. case_match; [|done]. apply maybeSignal_settles in Hc. etransitivity; [|exact Hc]. by apply settles_same.
Qed.

Lemma after_memory_settles env g m g' : after_memory env g m = Ok g' -> settles g g'.
Proof.
  unfold after_memory. destruct (take_callbacks m) as [l m']. intros Hf.
  apply (foldM_inv (settles g)) in Hf; [done|by apply settles_same|].
  intros g1 g2 r _ S1 S2%completed_settles. by transitivity g1.
Qed.

(** A balanced wrapper has one response for each accepted packet that needs one. *)
Definition balanced g : Prop := responses g ≡ₚ g_accepted g ≫= needed.

Lemma settles_balanced g g' : settles g g' -> balanced g -> balanced g'.
Proof. intros (P & _ & A) B. unfold balanced. by rewrite P, A. Qed.

Lemma endAdmission_settles g g' : endAdmission g = Ok g' -> settles g g'.
Proof.
  unfold endAdmission. intros He. case_match; [done|]. case_match; [apply bind_Ok in He as (n & _ & He)|];
    repeat case_match; simplify_eq; by apply settles_same.
Qed.

Lemma scheduleService_settles env g g' : scheduleService cfg env g = Ok g' -> settles g g'.
Proof.
  unfold scheduleService. intros He. case_match; [by injection He as <-|]. apply bind_Ok in He as ([w|] & _ & He);
    [apply bind_Ok in He as (? & _ & He)|]; injection He as <-; by apply settles_same.
Qed.

Lemma skipIdleCycles_settles env g g' : skipIdleCycles cfg env g = Ok g' -> settles g g'.
Proof.
  unfold skipIdleCycles. intros He. case_match; [by injection He as <-|]. apply bind_Ok in He as (idle & _ & He).
  apply bind_Ok in He as (? & _ & He). case_match; [by injection He as <-|]. apply bind_Ok in He as (m & _ & [= <-]). by apply settles_same.
Qed.
Lemma external_send_settles env g pkt i id type cb ok g' : external_send cfg env g pkt i id type cb = Ok (ok, g') -> settles g g'.
Proof.
  unfold external_send. intros Hs. apply bind_Ok in Hs as (q & _ & Hs). apply bind_Ok in Hs as (g1 & Hg & [= _ <-]).
  by eapply after_memory_settles.
Qed.

Lemma allocate_settles g t g' : allocateAdmissionToken g = Ok (t, g') -> settles g g'.
Proof. unfold allocateAdmissionToken. intros Ha. apply bind_Ok in Ha as (? & _ & [= <- <-]). by apply settles_same. Qed.

Lemma retry_settles g i g' : with_port g i (fun p => Ok (ps_set_retryReq p true)) = Ok g' -> settles g g'.
Proof. apply with_port_settles. by intros p p' [= <-]. Qed.

Lemma receive_read_balanced env g pkt i id ok g' : receive_read cfg env g pkt i id = Ok (ok, g') -> balanced g -> balanced g'.
Proof.
  intros Hr B. unfold receive_read in Hr. apply bind_Ok in Hr as ([token g1] & Ha%allocate_settles & Hr).
  apply (settles_balanced _ _ Ha) in B. apply bind_Ok in Hr as ([] & Hn & Hr). unfold panic_if in Hn.
  apply bind_Ok in Hr as ([ok1 g3] & Hs%external_send_settles & Hr).
  set (g2 := g_set_outstanding g1 (<[token := (pkt, i)]> _) _ _) in Hs. destruct Hs as (P3 & S3 & A3).
  assert (g_outstandingReads g1 !! token = None) as Hnone by (apply eq_None_not_Some; intros Hsome; by rewrite bool_decide_eq_true_2 in Hn).
  assert (responses g2 ≡ₚ needed (i, pkt) ++ responses g1) as P2.
  { unfold responses, g2. cbn. rewrite (reads_owed_delete (<[token:=(pkt, i)]> _) token pkt i) by apply lookup_insert_eq.
    rewrite delete_insert_id by done. solve_Permutation. }
  change (g_accepted g2) with (g_accepted g1) in A3. destruct ok1.
  - injection Hr as <- <-. unfold balanced, responses. cbn. rewrite app_nil_r, bind_app. fold (responses g3).
    unfold balanced in B. rewrite P3, P2, A3, B, bind_singleton. apply Permutation_app_comm.
  - destruct (g_outstandingReads g3 !! token) as [x|] eqn:Hx; [|done]. apply bind_Ok in Hr as (g4 & Hp%retry_settles & [= <- <-]).
    apply (settles_balanced _ _ Hp). assert (x = (pkt, i)) as ->.
    { eapply lookup_weaken in Hx; [|exact S3]. cbn in Hx. rewrite lookup_insert_eq in Hx. by injection Hx. }
    apply (Permutation_app_inv_l (needed (i, pkt))). unfold balanced in B. cbn [g_accepted g_set_outstanding]. rewrite A3, <- B, <- P2, <- P3.
    unfold responses. cbn. rewrite (reads_owed_delete _ _ _ _ Hx). solve_Permutation.
Qed.

Lemma receive_write_balanced env g pkt i id ok g' : receive_write cfg env g pkt i id = Ok (ok, g') -> balanced g -> balanced g'.
Proof.
  intros Hr B. unfold receive_write in Hr. apply bind_Ok in Hr as ([token g1] & Ha%allocate_settles & Hr).
  apply (settles_balanced _ _ Ha) in B. apply bind_Ok in Hr as ([] & _ & Hr).
  apply bind_Ok in Hr as ([ok1 g3] & Hs%external_send_settles & Hr).
  apply (settles_balanced g1 g3) in B; [|etransitivity; [|exact Hs]; by apply settles_same]. destruct ok1.
  - apply bind_Ok in Hr as (g4 & (P & _ & A)%accessAndRespond_adds & [= <- <-]). unfold balanced, responses. cbn.
    rewrite app_nil_r, bind_app. fold (responses g4). unfold balanced in B. rewrite P, A, B, bind_singleton. apply Permutation_app_comm.
  - case_match; [|done]. apply bind_Ok in Hr as (g4 & Hp%retry_settles & [= <- <-]). apply (settles_balanced g3); [|done].
    etransitivity; [|exact Hp]. by apply settles_same.
Qed.

Lemma take_packet_balanced env g pkt i ok g' : take_packet cfg env g pkt i = Ok (ok, g') -> balanced g -> balanced g'.
Proof.
  intros Ht B. unfold take_packet in Ht. apply bind_Ok in Ht as (p & _ & Ht). case_match; [by injection Ht as <- <-|].
  apply bind_Ok in Ht as (g1 & Hb & Ht). unfold beginAdmission in Hb. apply bind_Ok in Hb as (? & _ & [= <-]).
  apply bind_Ok in Ht as ([ok1 g2] & Hr & Ht). apply bind_Ok in Ht as (g3 & He%endAdmission_settles & Ht).
  apply bind_Ok in Ht as (g4 & Hs & [= <- <-]).
  assert (balanced g2) as B2 by (destruct (gp_is_read pkt); [eapply receive_read_balanced|eapply receive_write_balanced]; [exact Hr|done|exact Hr|done]).
  apply (settles_balanced g2); [|done]. transitivity g3; [done|]. destruct (g5_eventDriven cfg); [by eapply scheduleService_settles|by injection Hs as <-].
Qed.
Lemma offer_balanced env g i pkts g' : offer_packets cfg env g i pkts = Ok g' -> balanced g -> balanced g'.
Proof.
  revert g. induction pkts as [|pkt pkts IH]; intros g Ho B; cbn [offer_packets] in Ho; [by injection Ho as <-|].
  apply bind_Ok in Ho as (? & _ & Ho). apply bind_Ok in Ho as ([ok g1] & Ht & Ho). apply take_packet_balanced in Ht; [|done].
  destruct ok; [by eapply IH|by injection Ho as <-].
Qed.

Lemma retry_port_balanced env offers g i g' : retry_port cfg env offers g i = Ok g' -> balanced g -> balanced g'.
Proof.
  unfold retry_port. intros Hr B. apply bind_Ok in Hr as (p & _ & Hr). case_match; [|by injection Hr as <-].
  apply bind_Ok in Hr as (g1 & Hp & Ho). apply offer_balanced in Ho; [done|]. apply (settles_balanced g); [|done].
  eapply with_port_settles; [|exact Hp]. by intros ? ? [= <-].
Qed.

Lemma g_tick_balanced env offers g g' : g_tick cfg env offers g = Ok g' -> balanced g -> balanced g'.
Proof.
  unfold g_tick. set (g0 := g_set_service g _ _ _ _ _). intros Ht B.
  assert (balanced g0) as B0 by (apply (settles_balanced g); [by apply settles_same|done]). clearbody g0.
  apply bind_Ok in Ht as (g1 & H1 & Ht). apply bind_Ok in Ht as (g2 & H2 & Ht).
  assert (balanced g1) as B1.
  { destruct (g5_clockEdgeFirst cfg); [|by injection H1 as <-]. apply bind_Ok in H1 as (g3 & H3%skipIdleCycles_settles & [= <-]).
    apply (settles_balanced g0); [|done]. etransitivity; [exact H3|]. by apply settles_same. }
  assert (balanced g2) as B2.
  { destruct (e_timing env); [|by injection H2 as <-]. apply bind_Ok in H2 as (m & _ & H2). apply bind_Ok in H2 as (g3 & H3%after_memory_settles & H2).
    apply (foldM_inv balanced) in H2; [done|by eapply settles_balanced|]. intros ga gb i _ Ba Hi. by eapply retry_port_balanced. }
  apply (settles_balanced g2); [|done]. etransitivity; [|destruct (g5_eventDriven cfg); [by eapply scheduleService_settles|]].
  - destruct (g5_clockEdgeFirst cfg); by apply settles_same.
  - injection Ht as <-. destruct (g5_clockEdgeFirst cfg); by apply settles_same.
Qed.

Lemma synchronizeClock_balanced env offers g g' : synchronizeClock cfg env offers g = Ok g' -> balanced g -> balanced g'.
Proof.
  unfold synchronizeClock. intros Hs B. case_match; [by injection Hs as <-|]. apply bind_Ok in Hs as (g1 & Hk%skipIdleCycles_settles & Hs).
  apply (settles_balanced _ _ Hk) in B. case_match; [|by injection Hs as <-]. apply bind_Ok in Hs as (? & _ & Hs).
  case_match; [apply bind_Ok in Hs as (? & _ & Hs)|]; eapply g_tick_balanced; [exact Hs| |exact Hs|done].
  apply (settles_balanced g1); [by apply settles_same|done].
Qed.

Lemma sendResponse_settles env g i success g' : sendResponse env g i success = Ok g' -> settles g g'.
Proof.
  unfold sendResponse. intros Hs. apply bind_Ok in Hs as (p & [_ Hp]%vget_Ok & Hs). rewrite Nat2Z.id in Hp. case_match; [done|].
  destruct (ps_responseQueue p) as [|pkt q] eqn:Hq; [done|]. destruct success.
  - apply bind_Ok in Hs as (g1 & (p1 & p2 & Hp1 & [= <-] & ->)%with_port_spec & Hs%maybeSignal_settles).
    etransitivity; [|exact Hs]. rewrite Hp in Hp1. injection Hp1 as <-. split_and!; [|done|by cbn; rewrite app_nil_r].
    unfold responses. cbn.
    set (p' := ps_set_queue _ _ _). pose proof (gather_insert port_queue _ _ _ p' Hp) as Hg.
    assert (port_queue i p = (i, pkt) :: port_queue i p') as E by (unfold port_queue; by rewrite Hq).
    rewrite E in Hg. apply (Permutation_app_inv_l (port_queue i p')).
    transitivity (g_sent g ++ reads_owed (g_outstandingReads g) ++ ((i, pkt) :: port_queue i p') ++ gather port_queue (<[i:=p']> (g_ports g)));
      [solve_Permutation|]. rewrite <- Hg. solve_Permutation.
  - case_match; [done|]. eapply with_port_settles; [|exact Hs]. by intros ? ? [= <-].
Qed.

Lemma g5_step_balanced g c g' : balanced g -> g5_step cfg g c = Ok g' -> balanced g'.
Proof.
  intros B Hs. destruct c as [env [i pkt offers|offers|i success|i success|offers]]; cbn [g5_step fst snd] in Hs.
  - apply bind_Ok in Hs as ([ok g1] & Hr & [= <-]). unfold recvTimingReq in Hr. apply bind_Ok in Hr as (? & _ & Hr).
    apply bind_Ok in Hr as (g2 & Hc & Ht). eapply take_packet_balanced; [exact Ht|]. by eapply synchronizeClock_balanced.
  - eapply g_tick_balanced; [exact Hs|]. apply (settles_balanced g); [by apply settles_same|done].
  - unfold sendResponseEvent in Hs. apply bind_Ok in Hs as (g1 & Hp & Hr%sendResponse_settles).
    apply (settles_balanced g); [|done]. etransitivity; [|exact Hr]. eapply with_port_settles; [|exact Hp]. by intros ? ? [= <-].
  - unfold recvRespRetry in Hs. apply bind_Ok in Hs as (p & _ & Hs). case_match; [done|]. apply bind_Ok in Hs as (g1 & Hp & Hr%sendResponse_settles).
    apply (settles_balanced g); [|done]. etransitivity; [|exact Hr]. eapply with_port_settles; [|exact Hp]. by intros ? ? [= <-].
  - by eapply synchronizeClock_balanced.
Qed.
End responses.

(** In every run of the wrapper, whatever the memory system and the peers do: the
    responses taken by the ports, those queued for a port and those owed for reads
    in flight are exactly one for each accepted packet that needs one, in the port
    it came from. *)
Theorem gem5_responses_conserved {M} `{IMemorySystem M} `{Callbacks M} (cfg : G5Config) (m : M) (n : nat) (env : Env)
  (full_system : bool) (edge : Z) g0 l g :
  startup cfg env (g5_init m n) full_system edge = Ok g0 -> g5_run cfg g0 l = Ok g ->
  g_sent g ++ reads_owed (g_outstandingReads g) ++ gather port_queue (g_ports g) ≡ₚ g_accepted g ≫= needed.
Proof.
  intros Hs Hr. apply (foldM_inv balanced) in Hr; [exact Hr| |intros; by eapply g5_step_balanced].
  unfold startup in Hs. case_match; [done|]. set (g1 := g_set_service _ _ _ _ _ _) in Hs.
  assert (balanced g1) as B.
  { unfold balanced, responses, reads_owed, g1. cbn [g_set_service g5_init g_sent g_outstandingReads g_ports g_accepted].
    rewrite map_to_list_empty, gather_nil; [done|].
    by intros i p [-> _]%elem_of_replicate. }
  apply (settles_balanced g1); [|done]. destruct (g5_eventDriven cfg); [by eapply scheduleService_settles|].
  injection Hs as <-. by apply settles_same.
Qed.

(** ** The service clock is exact *)

(** How idle intervals shrink: by what is skipped. *)
Class IdleShrinks (M : Type) `{IMemorySystem M} := {
  idle_bound (m : M) n : ms_idle_ticks m = Ok n -> n <= 2 ^ 63 - 1;
  idle_shrinks (m : M) n k m' :
    ms_idle_ticks m = Ok n -> 0 <= k <= n -> ms_fast_forward m k = Ok m' ->
    exists n', ms_idle_ticks m' = Ok n' /\ (n < 2 ^ 63 - 1 -> n' = n - k) /\ (n = 2 ^ 63 - 1 -> n - k <= n')
}.

Section clock.
Context {M : Type} `{IMemorySystem M} `{Callbacks M} `{!IdleShrinks M} (cfg : G5Config) (e0 : Z).
Implicit Types g : Gem5 (Ticked M).

Definition g_ticks g : Z := tk_ticks (g_ms g).

(** Everything but the memory's contents and the port side is as before. *)
Definition same_service g g' : Prop :=
  g_serviceStarted g' = g_serviceStarted g /\ g_inService g' = g_inService g /\ g_nextTick g' = g_nextTick g /\
  g_tickEvent g' = g_tickEvent g /\ g_ticks g' = g_ticks g.

#[local] Instance same_service_refl : Reflexive same_service.
Proof. by intros g. Qed.
#[local] Instance same_service_trans : Transitive same_service.
Proof. unfold same_service. intros g1 g2 g3. naive_solver congruence. Qed.

Lemma with_port_same g i f g' : with_port g i f = Ok g' -> same_service g g' /\ g_ms g' = g_ms g.
Proof. by intros (p & p' & _ & _ & ->)%with_port_spec. Qed.

Lemma maybeSignal_same g g' : maybeSignalDrainDone g = Ok g' -> same_service g g' /\ g_ms g' = g_ms g.
Proof. unfold maybeSignalDrainDone. intros Hm. apply bind_Ok in Hm as (n & _ & Hm). by repeat case_match; simplify_eq. Qed.

Lemma completed_same env g r g' : completed env g r = Ok g' -> same_service g g' /\ g_ms g' = g_ms g.
Proof.
  unfold completed, read_done, write_done. intros Hc. repeat case_match; simplify_eq; [| |done].
  - apply bind_Ok in Hc as (g1 & [S1 E1]%with_port_same & [S2 E2]%maybeSignal_same). rewrite E2, E1. split; [|done].
    etransitivity; [exact S1|exact S2].
  - by apply maybeSignal_same in Hc.
Qed.

Lemma after_memory_same env g m g' :
  after_memory env g m = Ok g' -> tk_ticks m = g_ticks g -> same_service g g' /\ g_ms g' = (take_callbacks m).2.
Proof.
  unfold after_memory. pose proof (take_ticks m) as Ht. destruct (take_callbacks m) as [l m']. cbn in Ht. intros Hf Hm.
  apply (foldM_inv (fun g' => same_service g g' /\ g_ms g' = m')) in Hf; [done| |].
  - split; [|done]. unfold same_service, g_ticks. cbn. split_and!; try done. by rewrite Ht.
  - intros g1 g2 r _ [S1 E1] [S2 E2]%completed_same. split; [by etransitivity|]. by rewrite E2.
Qed.

Lemma external_send_same env g pkt i id type cb ok g' : external_send cfg env g pkt i id type cb = Ok (ok, g') -> same_service g g'.
Proof.
  unfold external_send. intros Hs. apply bind_Ok in Hs as (q & Hq & Hs). apply bind_Ok in Hs as (g1 & Hg & [= _ <-]).
  apply after_memory_same in Hg as [Hg _]; [done|]. unfold receive_external_requests in Hq.
  apply bind_Ok in Hq as ([[ok1 r1] m1] & Hm%send_ticks & [= <-]). exact Hm.
Qed.

Lemma receive_same env g pkt i id ok g' :
  (if gp_is_read pkt then receive_read cfg env g pkt i id else receive_write cfg env g pkt i id) = Ok (ok, g') -> same_service g g'.
Proof.
  assert (forall g t g', allocateAdmissionToken g = Ok (t, g') -> same_service g g') as Ha
    by (intros g1 t g2 Ha; unfold allocateAdmissionToken in Ha; by apply bind_Ok in Ha as (? & _ & [= <- <-])).
  destruct (gp_is_read pkt); unfold receive_read, receive_write; intros Hr; apply bind_Ok in Hr as ([token g1] & Ht%Ha & Hr);
    apply bind_Ok in Hr as (? & _ & Hr); apply bind_Ok in Hr as ([ok1 g3] & Hs%external_send_same & Hr);
    (transitivity g1; [done|]); (etransitivity; [exact Hs|]); clear Hs Ht.
  - destruct ok1; [by injection Hr as <- <-|]. case_match; [|done]. by apply bind_Ok in Hr as (g4 & [Hp _]%with_port_same & [= <- <-]).
  - destruct ok1; [by apply bind_Ok in Hr as (g4 & [Hp _]%with_port_same & [= <- <-])|].
    case_match; [|done]. by apply bind_Ok in Hr as (g4 & [Hp _]%with_port_same & [= <- <-]).
Qed.

Lemma endAdmission_same g g' : endAdmission g = Ok g' -> same_service g g'.
Proof.
  unfold endAdmission. intros He. case_match; [done|]. case_match; [apply bind_Ok in He as (n & _ & He)|]; by repeat case_match; simplify_eq.
Qed.
Context (HE : g5_clockEdgeFirst cfg = true) (HP : 0 < g5_dramPeriod cfg).

(** The event stands at the next edge with work; without an event there is none
    within 2^63 ticks of the start. *)
Definition scheduled g : Prop :=
  if g5_eventDriven cfg then
    exists n, ms_idle_ticks (g_ms g) = Ok n /\ 0 <= n /\
      match g_tickEvent g with
      | Some w => n < 2 ^ 63 - 1 /\ w = g_nextTick g + n * g5_dramPeriod cfg
      | None => 2 ^ 63 - 1 <= g_ticks g + n
      end
  else g_tickEvent g = Some (g_nextTick g).

(** The edges are [e0], [e0 + P], ...: as many have been served as ticks made. *)
Definition on_edge g : Prop :=
  g_serviceStarted g = true /\ g_nextTick g = e0 + g5_dramPeriod cfg * g_ticks g /\ 0 <= g_ticks g.
Definition clock_inv g : Prop := on_edge g /\ g_inService g = false /\ scheduled g.

(** The edges up to a tick. *)
Definition edges_until (t : Z) : Z := Z.max 0 ((t - e0) / g5_dramPeriod cfg + 1).

Lemma same_on_edge g g' : same_service g g' -> on_edge g -> on_edge g'.
Proof. intros (E1 & E2 & E3 & E4 & E5). unfold on_edge. by rewrite E1, E3, E5. Qed.

Lemma idle_le g n : ms_idle_ticks (g_ms g) = Ok n -> n <= 2 ^ 63 - 1.
Proof. apply (idle_bound (tk_memory (g_ms g))). Qed.

Lemma scheduleService_ok env g g' :
  e_timing env = true -> on_edge g -> g_inService g = false -> g5_eventDriven cfg = true -> scheduleService cfg env g = Ok g' ->
  clock_inv g' /\ g_ticks g' = g_ticks g /\ g_nextTick g' = g_nextTick g.
Proof.
  intros Ht He Hi Hd Hs. unfold scheduleService in Hs. pose proof He as (Hst & Hn & Hpos). rewrite Hst, Hi, Ht in Hs. cbn [negb orb] in Hs.
  apply bind_Ok in Hs as (when & Hw & Hs). apply bind_Ok in Hw as (n & Hidle & Hw). apply bind_Ok in Hw as (? & Hneg & Hw).
  pose proof (idle_le _ _ Hidle) as Hle. unfold panic_if in Hneg. destruct (Z.ltb_spec n 0); [done|].
  destruct (Z.eqb_spec n (2 ^ 63 - 1)) as [Hx|Hx].
  - injection Hw as <-. injection Hs as <-. split_and!; [|done|done]. split_and!; [by split_and!|done|]. unfold scheduled. rewrite Hd.
    exists n. split_and!; [done|done|]. unfold g_ticks in *. cbn. lia.
  - apply bind_Ok in Hw as (? & Hov & [= <-]). apply bind_Ok in Hs as (? & Hpast & [= <-]).
    split_and!; [|done|done]. split_and!; [by split_and!|done|]. unfold scheduled. rewrite Hd. exists n. split_and!; [done|done|]. cbn. split; [lia|done].
Qed.

(** What skipping does when the clock is behind. *)
Lemma skipIdleCycles_ok env g g' :
  e_timing env = true -> on_edge g -> g_inService g = false -> g5_eventDriven cfg = true -> g_nextTick g <= e_curTick env ->
  skipIdleCycles cfg env g = Ok g' ->
  exists n k, ms_idle_ticks (g_ms g) = Ok n /\ 0 <= n <= 2 ^ 63 - 1 /\
    k = Z.min ((e_curTick env - g_nextTick g) / g5_dramPeriod cfg + 1) n /\
    on_edge g' /\ g_inService g' = false /\ g_tickEvent g' = g_tickEvent g /\ g_ticks g' = g_ticks g + k /\
    exists n', ms_idle_ticks (g_ms g') = Ok n' /\ (n < 2 ^ 63 - 1 -> n' = n - k) /\ (n = 2 ^ 63 - 1 -> n - k <= n').
Proof.
  intros Ht He Hi Hd Hb Hs. pose proof He as (Hst & Hn & Hpos). unfold skipIdleCycles in Hs. rewrite Hd, Hst, Hi, Ht in Hs. cbn [negb orb] in Hs.
  destruct (Z.ltb_spec (e_curTick env) (g_nextTick g)); [lia|]. apply bind_Ok in Hs as (n & Hidle & Hs). apply bind_Ok in Hs as (? & Hneg & Hs).
  pose proof (idle_le _ _ Hidle) as Hle. unfold panic_if in Hneg. destruct (Z.ltb_spec n 0); [done|].
  assert (0 <= (e_curTick env - g_nextTick g) / g5_dramPeriod cfg) by (apply Z.div_pos; lia).
  set (k := Z.min _ n) in Hs. exists n, k. split; [done|]. split; [lia|]. split; [done|]. destruct (Z.eqb_spec k 0) as [Hk|Hk].
  - injection Hs as <-. rewrite Hk. split; [done|]. split; [done|]. split; [done|]. split; [lia|]. exists n. split_and!; [done|lia|lia].
  - apply bind_Ok in Hs as (m & Hff & [= <-]). cbn in Hff. apply bind_Ok in Hff as (m1 & Hff & [= <-]).
    split; [|split; [done|split; [done|split; [done|]]]].
    + unfold on_edge, g_ticks in *. cbn in *. split_and!; [done|lia|lia].
    + cbn. apply (idle_shrinks (tk_memory (g_ms g)) n k m1); [done|lia|done].
Qed.
Lemma take_packet_service env g pkt i ok g' : g_inService g = true -> take_packet cfg env g pkt i = Ok (ok, g') -> same_service g g'.
Proof.
  intros Hi Ht. unfold take_packet in Ht. apply bind_Ok in Ht as (p & _ & Ht). case_match; [by injection Ht as <- <-|].
  apply bind_Ok in Ht as (g1 & Hb & Ht). unfold beginAdmission in Hb. apply bind_Ok in Hb as (? & _ & [= <-]).
  apply bind_Ok in Ht as ([ok1 g2] & Hr%receive_same & Ht). apply bind_Ok in Ht as (g3 & He%endAdmission_same & Ht).
  apply bind_Ok in Ht as (g4 & Hs & [= <- <-]). assert (same_service g g3) as S by (by transitivity g2).
  destruct (g5_eventDriven cfg); [|by injection Hs as <-]. unfold scheduleService in Hs. destruct S as (E1 & E2 & E3 & E4 & E5).
  rewrite E2, Hi, orb_true_r in Hs. by injection Hs as <-.
Qed.

Lemma take_packet_clock env g pkt i ok g' :
  e_timing env = true -> clock_inv g -> take_packet cfg env g pkt i = Ok (ok, g') -> clock_inv g' /\ g_ticks g' = g_ticks g.
Proof.
  intros Htm (He & Hi & Hsc) Ht. unfold take_packet in Ht. apply bind_Ok in Ht as (p & _ & Ht). case_match; [by injection Ht as <- <-|].
  apply bind_Ok in Ht as (g1 & Hb & Ht). unfold beginAdmission in Hb. apply bind_Ok in Hb as (? & _ & [= <-]).
  apply bind_Ok in Ht as ([ok1 g2] & Hr%receive_same & Ht). apply bind_Ok in Ht as (g3 & Hend%endAdmission_same & Ht).
  apply bind_Ok in Ht as (g4 & Hs & [= <- <-]). assert (same_service g g3) as S by (by transitivity g2).
  pose proof (same_on_edge _ _ S He) as He3. destruct S as (E1 & E2 & E3 & E4 & E5).
  unfold scheduled in Hsc. destruct (g5_eventDriven cfg) eqn:Hd.
  - apply scheduleService_ok in Hs as (C & T & _); [|done|done|by rewrite E2|done]. by rewrite T, E5.
  - injection Hs as <-. split; [|done]. split_and!; [done|by rewrite E2|]. unfold scheduled. by rewrite Hd, E4, E3.
Qed.

Lemma offer_service env g i pkts g' : g_inService g = true -> offer_packets cfg env g i pkts = Ok g' -> same_service g g'.
Proof.
  revert g. induction pkts as [|pkt pkts IH]; intros g Hi Ho; cbn [offer_packets] in Ho; [by injection Ho as <-|].
  apply bind_Ok in Ho as (? & _ & Ho). apply bind_Ok in Ho as ([ok g1] & Ht & Ho). apply take_packet_service in Ht; [|done].
  destruct ok; [|by injection Ho as <-]. transitivity g1; [done|]. apply (IH g1); [|done]. destruct Ht as (_ & -> & _). done.
Qed.

Lemma retry_port_service env offers g i g' : g_inService g = true -> retry_port cfg env offers g i = Ok g' -> same_service g g'.
Proof.
  intros Hi Hr. unfold retry_port in Hr. apply bind_Ok in Hr as (p & _ & Hr). case_match; [|by injection Hr as <-].
  apply bind_Ok in Hr as (g1 & [Hp _]%with_port_same & Ho). transitivity g1; [done|]. apply offer_service in Ho; [done|].
  destruct Hp as (_ & -> & _). done.
Qed.

(** The current tick is the next edge with work. *)
Definition due_now (now : Z) g : Prop :=
  if g5_eventDriven cfg then exists n, ms_idle_ticks (g_ms g) = Ok n /\ 0 <= n < 2 ^ 63 - 1 /\ now = g_nextTick g + n * g5_dramPeriod cfg
  else now = g_nextTick g.

Lemma tick_skip env g g' :
  e_timing env = true -> on_edge g -> g_inService g = false -> due_now (e_curTick env) g -> skipIdleCycles cfg env g = Ok g' ->
  on_edge g' /\ g_inService g' = false /\ g_nextTick g' = e_curTick env.
Proof.
  intros Ht He Hi Hd Hs. unfold due_now in Hd. destruct (g5_eventDriven cfg) eqn:Hed.
  - destruct Hd as (n & Hn & Hb & Hnow).
    apply skipIdleCycles_ok in Hs as (n1 & k & Hn1 & _ & Hk & He' & Hi' & _ & Htk & _); try done; [|nia].
    rewrite Hn in Hn1. injection Hn1 as <-. split; [done|]. split; [done|].
    assert ((e_curTick env - g_nextTick g) / g5_dramPeriod cfg = n) as Hq by (rewrite Hnow; replace (_ + _ - _) with (n * g5_dramPeriod cfg) by lia; apply Z.div_mul; lia).
    destruct He as (_ & En & _), He' as (_ & En' & _). rewrite En', Htk. rewrite Hq in Hk. replace k with n by lia. lia.
  - unfold skipIdleCycles in Hs. rewrite Hed in Hs. injection Hs as <-. done.
Qed.

Lemma g_tick_clock env offers g g' :
  e_timing env = true -> on_edge g -> g_inService g = false -> due_now (e_curTick env) g -> g_tick cfg env offers g = Ok g' ->
  clock_inv g' /\ g_nextTick g' = e_curTick env + g5_dramPeriod cfg.
Proof.
  intros Ht He Hi Hd Hs. unfold g_tick in Hs. set (g0 := g_set_service g _ _ _ _ _) in Hs. rewrite HE, Ht in Hs.
  apply bind_Ok in Hs as (g1 & H1 & Hs). apply bind_Ok in H1 as (ga & Ha & [= <-]). apply bind_Ok in Hs as (g2 & H2 & Hs).
  apply tick_skip in Ha as ((Hst & En & Hp) & Hia & Hna); [|done|done|done|done].
  apply bind_Ok in H2 as (m & Hm & H2). apply bind_Ok in H2 as (g3 & H3 & H2). cbn in Hm. apply bind_Ok in Hm as (m1 & _ & [= <-]).
  match type of H3 with after_memory _ ?x ?m = _ => change (after_memory env (g_set_ms x m) m = Ok g3) in H3; set (gs := g_set_ms x m) in H3 end.
  apply after_memory_same in H3 as [S3 _]; [|done].
  assert (same_service gs g2) as (E1 & E2 & E3 & E4 & E5).
  { apply (foldM_inv (same_service gs)) in H2; [done|done|]. intros gb gc i _ Sb Hc. transitivity gb; [done|].
    apply retry_port_service in Hc; [done|]. by destruct Sb as (_ & -> & _). }
  set (g4 := g_set_service g2 _ _ _ _ _) in Hs.
  assert (on_edge g4) as He4.
  { unfold on_edge, g_ticks in *. cbn in *. rewrite E1, E3, E5. split_and!; [done|lia|lia]. }
  destruct (g5_eventDriven cfg) eqn:Hed.
  - apply scheduleService_ok in Hs as (C & T & N); [|done|done|done|done]. split; [done|]. rewrite N. exact E3.
  - injection Hs as <-. split; [|exact E3]. split_and!; [done|done|]. unfold scheduled. rewrite Hed. cbn. by rewrite E3.
Qed.

Lemma edges_exact now k : 0 <= k -> e0 + g5_dramPeriod cfg * k <= now + g5_dramPeriod cfg -> now < e0 + g5_dramPeriod cfg * k -> edges_until now = k.
Proof.
  intros Hk H1 H2. unfold edges_until. assert ((now - e0) / g5_dramPeriod cfg = k - 1) as -> by (symmetry; apply (Z.div_unique_pos _ _ _ (now - e0 - g5_dramPeriod cfg * (k - 1))); lia).
  lia.
Qed.

(** gem5 does not pass a scheduled event. *)
Definition in_time (now : Z) g : Prop := match g_tickEvent g with Some w => now <= w | None => True end.

(** Skipping until the next edge is past, or has work and is now. *)
Lemma skip_until env g g' :
  e_timing env = true -> clock_inv g -> g5_eventDriven cfg = true -> in_time (e_curTick env) g -> edges_until (e_curTick env) < 2 ^ 63 - 1 ->
  g_nextTick g <= e_curTick env -> skipIdleCycles cfg env g = Ok g' ->
  clock_inv g' /\ g_tickEvent g' = g_tickEvent g /\
  (e_curTick env < g_nextTick g' <= e_curTick env + g5_dramPeriod cfg \/
   g_nextTick g' = e_curTick env /\ g_tickEvent g' = Some (e_curTick env) /\ ms_idle_ticks (g_ms g') = Ok 0).
Proof.
  intros Ht (He & Hi & Hsc) Hd Hin Hmax Hge Hs. pose proof He as (Hst & Hn & Hp). unfold scheduled in Hsc. rewrite Hd in Hsc.
  destruct Hsc as (n & Hidle & Hn0 & Hev).
  apply skipIdleCycles_ok in Hs as (n1 & k & Hn1 & Hb & Hk & He' & Hi' & Ev & Htk & n' & Hn' & L1 & L2); try done.
  rewrite Hidle in Hn1. injection Hn1 as <-. pose proof He' as (_ & En' & _).
  set (P := g5_dramPeriod cfg) in *. set (now := e_curTick env) in *. set (q := (now - g_nextTick g) / P) in *.
  assert (P * q <= now - g_nextTick g < P * q + P /\ 0 <= q) as [Hq Hq0].
  { pose proof (Z.div_mod (now - g_nextTick g) P). pose proof (Z.mod_pos_bound (now - g_nextTick g) P). split; [unfold q; lia|apply Z.div_pos; lia]. }
  rewrite Htk in En'. unfold in_time in Hin. split; [split; [done|split; [done|]]|split; [done|]].
  { unfold scheduled. rewrite Hd. exists n'. split; [done|]. rewrite Ev, Htk.
    destruct (g_tickEvent g); [split; [lia|]; split; [lia|]; rewrite En'; nia|]. split; lia. }
  destruct (g_tickEvent g) as [w|] eqn:Hw.
  - destruct Hev as [Hnm Hwe]. destruct (Z.le_gt_cases (q + 1) n); [left; split; nia|right].
    assert (k = n) as -> by lia. assert (q = n) as -> by nia. split_and!; [nia|rewrite Ev; f_equal; nia|rewrite Hn'; f_equal; lia].
  - left. assert (edges_until now = g_ticks g + q + 1) as Heq by (apply edges_exact; [lia|fold P; nia|fold P; nia]). split; nia.
Qed.

(** After the clock is synchronised the memory has made one tick per edge. *)
Lemma synchronizeClock_ok env offers g g' :
  e_timing env = true -> clock_inv g -> in_time (e_curTick env) g -> edges_until (e_curTick env) < 2 ^ 63 - 1 -> g_ticks g <= edges_until (e_curTick env) ->
  synchronizeClock cfg env offers g = Ok g' -> clock_inv g' /\ g_ticks g' = edges_until (e_curTick env).
Proof.
  intros Ht C Hin Hmax Hle Hs. pose proof C as (He & Hi & Hsc). pose proof He as (Hst & Hn & Hp).
  assert (forall g2, clock_inv g2 -> e_curTick env < g_nextTick g2 <= e_curTick env + g5_dramPeriod cfg ->
    clock_inv g2 /\ g_ticks g2 = edges_until (e_curTick env)) as Hdone.
  { intros g2 C2 Hb. split; [done|]. destruct C2 as ((_ & En & Hp2) & _). symmetry. apply edges_exact; lia. }
  unfold synchronizeClock in Hs. rewrite HE, Hst, Hi, Ht in Hs. cbn [negb orb] in Hs.
  destruct (Z.ltb_spec (e_curTick env) (g_nextTick g)) as [Hlt|Hge].
  { injection Hs as <-. split; [done|]. assert (edges_until (e_curTick env) <= g_ticks g); [|lia]. unfold edges_until.
    assert ((e_curTick env - e0) / g5_dramPeriod cfg < g_ticks g) by (apply Z.div_lt_upper_bound; lia). lia. }
  apply bind_Ok in Hs as (g1 & Hk & Hs).
  assert (clock_inv g1 /\ (e_curTick env < g_nextTick g1 <= e_curTick env + g5_dramPeriod cfg \/
    g_nextTick g1 = e_curTick env /\ g_tickEvent g1 = Some (e_curTick env) /\ due_now (e_curTick env) (unschedule g1))) as [C1 Hcase].
  { unfold due_now. destruct (g5_eventDriven cfg) eqn:Hd.
    - apply skip_until in Hk as (C1 & _ & [Hb|(En & Ev & Hz)]); try done; [by auto|]. split; [done|right]. split_and!; [done|done|].
      exists 0. cbn. split_and!; [done|lia|lia|lia].
    - unfold skipIdleCycles in Hk. rewrite Hd in Hk. injection Hk as <-. split; [done|right]. unfold scheduled in Hsc. rewrite Hd in Hsc.
      unfold in_time in Hin. rewrite Hsc in Hin |- *. cbn. split_and!; [lia|f_equal; lia|lia]. }
  destruct Hcase as [Hb|(En & Ev & Hdue)].
  - rewrite (proj2 (Z.leb_gt _ _)) in Hs by lia. injection Hs as <-. by apply Hdone.
  - rewrite (proj2 (Z.leb_le _ _)) in Hs by lia. apply bind_Ok in Hs as (? & _ & Hs). rewrite Ev in Hs. apply bind_Ok in Hs as (? & _ & Hs).
    destruct C1 as (He1 & Hi1 & _). apply g_tick_clock in Hs as [C2 N2]; [|done|done|done|done]. apply Hdone; [done|]. lia.
Qed.
(** A run in timing mode from [startup]: time does not go back, and a scheduled
    service is run at its time. *)
Inductive clock_run (m : M) (n : nat) : Z -> Gem5 (Ticked M) -> Prop :=
| run_start env full_system edge g :
    e_timing env = true -> startup cfg env (g5_init (mkTicked m 0) n) full_system edge = Ok g -> g_nextTick g = e0 ->
    clock_run m n (e_curTick env) g
| run_step t g env op g' :
    clock_run m n t g -> e_timing env = true -> t <= e_curTick env -> in_time (e_curTick env) g -> edges_until (e_curTick env) < 2 ^ 63 - 1 ->
    match op with TickEvent _ => g_tickEvent g = Some (e_curTick env) | _ => True end ->
    g5_step cfg g (env, op) = Ok g' -> clock_run m n (e_curTick env) g'.

Lemma edges_mono t t' : t <= t' -> edges_until t <= edges_until t'.
Proof. intros Hl. unfold edges_until. pose proof (Z.div_le_mono (t - e0) (t' - e0) (g5_dramPeriod cfg) HP). lia. Qed.

Lemma same_clock_inv g g' : same_service g g' -> g_ms g' = g_ms g -> clock_inv g -> clock_inv g' /\ g_ticks g' = g_ticks g.
Proof.
  intros S Em (He & Hi & Hsc). pose proof (same_on_edge _ _ S He). destruct S as (E1 & E2 & E3 & E4 & E5). split; [|done].
  split_and!; [done|by rewrite E2|]. unfold scheduled. by rewrite Em, E3, E4, E5.
Qed.

Lemma sendResponse_same env g i success g' : sendResponse env g i success = Ok g' -> same_service g g' /\ g_ms g' = g_ms g.
Proof.
  unfold sendResponse. intros Hs. apply bind_Ok in Hs as (p & _ & Hs). case_match; [done|]. case_match; [done|]. destruct success.
  - apply bind_Ok in Hs as (g1 & [S1 E1]%with_port_same & [S2 E2]%maybeSignal_same). split; [by etransitivity|]. rewrite E2. exact E1.
  - case_match; [done|]. by apply with_port_same in Hs.
Qed.

Lemma startup_clock env m n fs edge g :
  e_timing env = true -> startup cfg env (g5_init (mkTicked m 0) n) fs edge = Ok g -> g_nextTick g = e0 -> clock_inv g /\ g_ticks g = 0.
Proof.
  intros Ht Hs Hn. unfold startup in Hs. case_match; [done|]. set (g1 := g_set_service _ _ _ _ _ _) in Hs.
  destruct (g5_eventDriven cfg) eqn:Hd.
  - assert (g_nextTick g1 = e0) as Hn1.
    { rewrite <- Hn. clear Hn. unfold scheduleService in Hs. cbn [g_serviceStarted g_inService g1 g_set_service g5_init negb orb] in Hs.
      rewrite Ht in Hs. apply bind_Ok in Hs as ([w|] & _ & Hs); [apply bind_Ok in Hs as (? & _ & Hs)|]; by injection Hs as <-. }
    apply scheduleService_ok in Hs as (C & T & _); [by rewrite T|done| |done|done]. unfold on_edge. rewrite Hn1. unfold g_ticks. cbn.
    split_and!; [done|lia|done].
  - injection Hs as <-. cbn in Hn. split; [|done]. split_and!; [|done|unfold scheduled; by rewrite Hd]. unfold on_edge, g_ticks. cbn.
    split_and!; [done|lia|done].
Qed.

Lemma clock_run_inv m n t g : clock_run m n t g -> clock_inv g /\ g_ticks g <= edges_until t.
Proof.
  induction 1 as [env fs edge g Ht Hs Hn|t g env op g' _ [C Hle] Ht Hmono Hin Hmax Hop Hs].
  { destruct (startup_clock _ _ _ _ _ _ Ht Hs Hn) as [C T]. split; [done|]. unfold edges_until. lia. }
  assert (g_ticks g <= edges_until (e_curTick env)) as Hle' by (pose proof (edges_mono _ _ Hmono); lia).
  destruct op as [i pkt offers|offers|i success|i success|offers]; cbn [g5_step fst snd] in Hs.
  - apply bind_Ok in Hs as ([ok g1] & Hr & [= <-]). unfold recvTimingReq in Hr. apply bind_Ok in Hr as (? & _ & Hr).
    apply bind_Ok in Hr as (g2 & Hc & Htk). apply synchronizeClock_ok in Hc as [C2 T2]; [|done..].
    apply take_packet_clock in Htk as [C3 T3]; [|done|done]. split; [done|]. cbn. lia.
  - unfold tickEvent in Hs. destruct C as (He & Hi & Hsc). apply g_tick_clock in Hs as [C2 N2]; [|done|done|done|].
    + split; [done|]. destruct C2 as ((_ & En & Hp) & _). assert (edges_until (e_curTick env) = g_ticks g') as ->; [|lia]. apply edges_exact; lia.
    + unfold due_now, scheduled in *. rewrite Hop in Hsc. destruct (g5_eventDriven cfg); [|by injection Hsc].
      destruct Hsc as (k & Hk & Hk0 & Hkm & Hw). exists k. cbn. split_and!; done || lia.
  - unfold sendResponseEvent in Hs. apply bind_Ok in Hs as (g1 & [S1 E1]%with_port_same & [S2 E2]%sendResponse_same).
    destruct (same_clock_inv g g') as [C' T']; [by etransitivity|by rewrite E2|done|]. split; [done|lia].
  - unfold recvRespRetry in Hs. apply bind_Ok in Hs as (p & _ & Hs). case_match; [done|].
    apply bind_Ok in Hs as (g1 & [S1 E1]%with_port_same & [S2 E2]%sendResponse_same).
    destruct (same_clock_inv g g') as [C' T']; [by etransitivity|by rewrite E2|done|]. split; [done|lia].
  - apply synchronizeClock_ok in Hs as [C2 T2]; [|done..]. split; [done|lia].
Qed.
End clock.

(** C33: When a request arrives at a wrapper in timing mode that serves clock edges first, whether it
    ticks the memory at every edge or skips idle cycles: the memory system the
    request is sent to has been advanced exactly once for each DRAM edge up to the
    current tick, and the service for the edge itself has been run. *)
Theorem gem5_clock_exact {M} `{IMemorySystem M} `{Callbacks M} `{!IdleShrinks M} (cfg : G5Config) (e0 : Z) (m : M) (n : nat)
  (t : Z) (g : Gem5 (Ticked M)) (env : Env) (offers : nat -> list gpacket) (pkt : gpacket) (i : nat) ok g' :
  g5_clockEdgeFirst cfg = true -> 0 < g5_dramPeriod cfg -> clock_run cfg e0 m n t g ->
  e_timing env = true -> t <= e_curTick env -> in_time (e_curTick env) g -> edges_until cfg e0 (e_curTick env) < 2 ^ 63 - 1 ->
  recvTimingReq cfg env offers g pkt i = Ok (ok, g') ->
  exists g1, synchronizeClock cfg env offers g = Ok g1 /\ take_packet cfg env g1 pkt i = Ok (ok, g') /\
    tk_ticks (g_ms g1) = Z.max 0 ((e_curTick env - e0) / g5_dramPeriod cfg + 1) /\ tk_ticks (g_ms g') = tk_ticks (g_ms g1).
Proof.
  intros HE HP Hrun Ht Hmono Hin Hmax Hr. destruct (clock_run_inv cfg e0 HE HP _ _ _ _ Hrun) as [C Hle].
  unfold recvTimingReq in Hr. apply bind_Ok in Hr as (? & _ & Hr). apply bind_Ok in Hr as (g1 & Hc & Htk). exists g1. split; [done|]. split; [done|].
  apply (synchronizeClock_ok cfg e0 HE HP) in Hc as [C1 T1]; [|done..|].
  - apply (take_packet_clock cfg e0) in Htk as [_ T2]; [|done|done]. by split.
  - pose proof (edges_mono cfg e0 HP _ _ Hmono). lia.
Qed.

(** ** A drain that had to wait is signalled *)

(** A rejected request completes nothing. *)
Class RejectQuiet (M : Type) `{IMemorySystem M} `{Callbacks M} :=
  reject_quiet (m : M) r r' m' : drained m -> ms_send m r = Ok (false, r', m') -> drained m'.

Section drains.
Context {M : Type} `{IMemorySystem M} `{Callbacks M} `{!MemoryElision M} `{!RejectQuiet M} (cfg : G5Config).
Implicit Types g : Gem5 M.

Lemma outstanding_nonneg g : 0 <= outstanding_count g.
Proof. unfold outstanding_count. induction (g_ports g) as [|p ps IH]; cbn [foldr]; lia. Qed.

(** Along a handler: a count that reaches zero is signalled, or the signal is kept
    for the end of the admission. *)
Definition signals g g' : Prop :=
  g_drains g <= g_drains g' /\ g_admissionInProgress g' = g_admissionInProgress g /\
  (g_drainSignalDeferred g = true -> g_drainSignalDeferred g' = true) /\
  (g_admissionInProgress g = false -> g_drainSignalDeferred g' = g_drainSignalDeferred g) /\
  (outstanding_count g' = 0 -> outstanding_count g = 0 \/ g_drains g < g_drains g' \/ g_drainSignalDeferred g' = true).

#[local] Instance signals_refl : Reflexive signals.
Proof. intros g. split_and!; auto with lia. Qed.
#[local] Instance signals_trans : Transitive signals.
Proof.
  intros g1 g2 g3 (D1 & P1 & F1 & N1 & O1) (D2 & P2 & F2 & N2 & O2). split_and!; [lia|congruence|auto| |].
  - intros Hp. rewrite N2, N1; congruence.
  - intros Ho. destruct (O2 Ho) as [Ho2|[?|?]]; [|right; left; lia|auto]. destruct (O1 Ho2) as [?|[?|?]]; [auto|right; left; lia|auto].
Qed.

Lemma signals_same g g' :
  g_drains g' = g_drains g -> g_admissionInProgress g' = g_admissionInProgress g -> g_drainSignalDeferred g' = g_drainSignalDeferred g ->
  outstanding_count g <= outstanding_count g' -> signals g g'.
Proof. intros E1 E2 E3 Ho. pose proof (outstanding_nonneg g). split_and!; rewrite ?E1, ?E2, ?E3; auto with lia. Qed.

(** A change of the tables followed by [maybeSignalDrainDone]. *)
Lemma maybeSignal_signals g g1 g' :
  g_drains g1 = g_drains g -> g_admissionInProgress g1 = g_admissionInProgress g -> g_drainSignalDeferred g1 = g_drainSignalDeferred g ->
  maybeSignalDrainDone g1 = Ok g' -> signals g g' /\ g_ms g' = g_ms g1.
Proof.
  intros E1 E2 E3 Hm. unfold maybeSignalDrainDone in Hm. apply bind_Ok in Hm as (n & Hn & Hm).
  unfold nbrOutstanding in Hn. apply bind_Ok in Hn as (? & _ & [= <-]).
  destruct (Z.eqb_spec (outstanding_count g1) 0) as [Hz|Hz]; cbn [negb] in Hm.
  - destruct (g_admissionInProgress g1) eqn:Hp; injection Hm as <-; (split; [|done]); split_and!; cbn; rewrite <- ?E1, <- ?E2, <- ?E3, ?Hp; auto with lia; congruence.
  - injection Hm as <-. split; [|done]. split_and!; [lia|done|congruence|congruence|done].
Qed.

Lemma with_port_frame g i f g' :
  with_port g i f = Ok g' -> g_drains g' = g_drains g /\ g_admissionInProgress g' = g_admissionInProgress g /\
  g_drainSignalDeferred g' = g_drainSignalDeferred g /\ g_ms g' = g_ms g.
Proof. by intros (p & p' & _ & _ & ->)%with_port_spec. Qed.

Lemma completed_signals env g r g' : completed env g r = Ok g' -> signals g g' /\ g_ms g' = g_ms g.
Proof.
  unfold completed, read_done, write_done. intros Hc. repeat case_match; simplify_eq; [| |done].
  - apply bind_Ok in Hc as (g1 & (F1 & F2 & F3 & F4)%with_port_frame & Hm). apply (maybeSignal_signals g) in Hm as [S E]; [|done..].
    split; [done|]. by rewrite E, F4.
  - by apply (maybeSignal_signals g) in Hc.
Qed.

Lemma after_memory_signals env g m g' : after_memory env g m = Ok g' -> signals g g' /\ drained (g_ms g').
Proof.
  unfold after_memory. destruct (take_callbacks m) as [l m'] eqn:Hl. pose proof (ms_take_drained _ _ _ Hl) as Hd. intros Hf.
  apply (foldM_inv (fun g' => signals g g' /\ g_ms g' = m')) in Hf; [destruct Hf as [S ->]; by split| |].
  - split; [|done]. by apply signals_same.
  - intros g1 g2 r _ [S1 E1] [S2 E2]%completed_signals. split; [by etransitivity|]. by rewrite E2.
Qed.
Definition queued (ps : list PortState) : Z := foldr (fun p n => Z.of_nat (length (ps_responseQueue p)) + n) 0 ps.

Lemma queued_insert ps i p p' :
  ps !! i = Some p -> queued (<[i := p']> ps) + Z.of_nat (length (ps_responseQueue p)) = queued ps + Z.of_nat (length (ps_responseQueue p')).
Proof.
  unfold queued. revert i. induction ps as [|x ps IH]; intros [|i] Hp; simplify_eq/=; [lia|]. specialize (IH i Hp). lia.
Qed.

Lemma with_port_outstanding g i f g' :
  (forall p p', f p = Ok p' -> (length (ps_responseQueue p) <= length (ps_responseQueue p'))%nat) -> with_port g i f = Ok g' ->
  outstanding_count g <= outstanding_count g'.
Proof.
  intros Hf (p & p' & Hp & Hfp & ->)%with_port_spec. pose proof (queued_insert _ _ _ p' Hp) as Hq. specialize (Hf _ _ Hfp).
  unfold outstanding_count. cbn. fold (queued (g_ports g)). fold (queued (<[i:=p']> (g_ports g))). lia.
Qed.

Lemma retry_signals g i g' : with_port g i (fun p => Ok (ps_set_retryReq p true)) = Ok g' -> signals g g' /\ g_ms g' = g_ms g.
Proof.
  intros Hp. pose proof (with_port_frame _ _ _ _ Hp) as (F1 & F2 & F3 & F4). split; [|done]. apply signals_same; try done.
  eapply with_port_outstanding; [|exact Hp]. by intros p p' [= <-].
Qed.

Lemma respond_signals env g pkt i g' : accessAndRespond env g pkt i = Ok g' -> signals g g' /\ g_ms g' = g_ms g.
Proof.
  intros Hp. pose proof (with_port_frame _ _ _ _ Hp) as (F1 & F2 & F3 & F4). split; [|done]. apply signals_same; try done.
  eapply with_port_outstanding; [|exact Hp]. intros p p' Hf. case_match; injection Hf as <-; cbn; [rewrite length_app|]; lia.
Qed.

Lemma external_send_signals env g pkt i id type cb ok g' :
  drained (g_ms g) -> external_send cfg env g pkt i id type cb = Ok (ok, g') ->
  signals g g' /\ drained (g_ms g') /\ (ok = false -> exists m, g' = g_set_ms g m).
Proof.
  intros Hd Hs. unfold external_send in Hs. apply bind_Ok in Hs as (q & Hq & Hs). apply bind_Ok in Hs as (g1 & Hg & [= <- <-]).
  pose proof (after_memory_signals _ _ _ _ Hg) as [S Hd']. split; [done|]. split; [done|]. intros Hok.
  unfold receive_external_requests in Hq. apply bind_Ok in Hq as ([[ok1 r1] m1] & Hm & [= <-]). cbn [fst snd] in *. subst ok1.
  apply reject_quiet in Hm; [|done]. unfold after_memory in Hg. rewrite Hm in Hg. injection Hg as <-. by exists m1.
Qed.

Lemma receive_signals env g pkt i id ok g' :
  drained (g_ms g) ->
  (if gp_is_read pkt then receive_read cfg env g pkt i id else receive_write cfg env g pkt i id) = Ok (ok, g') ->
  signals g g' /\ drained (g_ms g').
Proof.
  intros Hd Hr. destruct (gp_is_read pkt).
  - unfold receive_read in Hr. apply bind_Ok in Hr as ([token g1] & Ha & Hr). apply bind_Ok in Hr as ([] & Hn & Hr). unfold panic_if in Hn.
    unfold allocateAdmissionToken in Ha. apply bind_Ok in Ha as (? & _ & [= <- <-]). cbn in Hn.
    apply bind_Ok in Hr as ([ok1 g3] & Hs & Hr). set (t := g_nextAdmissionToken g) in *. set (g2 := g_set_outstanding _ (<[t := _]> _) _ _) in Hs.
    assert (g_outstandingReads g !! t = None) as Hnone by (apply eq_None_not_Some; intros Hsome; by rewrite bool_decide_eq_true_2 in Hn). clear Hn.
    assert (signals g g2) as S2.
    { apply signals_same; try done. unfold outstanding_count. cbn. rewrite map_size_insert_None by done. lia. }
    apply external_send_signals in Hs as (S3 & Hd3 & Hrej); [|done]. destruct ok1.
    { injection Hr as <- <-. split; [|done]. transitivity g2; [done|]. etransitivity; [exact S3|]. by apply signals_same. }
    case_match; [|done]. apply bind_Ok in Hr as (g4 & [S4 E4]%retry_signals & [= <- <-]). destruct (Hrej eq_refl) as (m & ->).
    split; [|rewrite E4; exact Hd3]. etransitivity; [|exact S4]. apply signals_same; try done. unfold outstanding_count. cbn.
    rewrite delete_insert_id by done. lia.
  - unfold receive_write in Hr. apply bind_Ok in Hr as ([token g1] & Ha & Hr). apply bind_Ok in Hr as ([] & Hn & Hr). unfold panic_if in Hn.
    unfold allocateAdmissionToken in Ha. apply bind_Ok in Ha as (? & _ & [= <- <-]). cbn in Hn.
    apply bind_Ok in Hr as ([ok1 g3] & Hs & Hr). set (t := g_nextAdmissionToken g) in *. set (g2 := g_set_outstanding _ _ ({[t]} ∪ _) _) in Hs.
    assert (t ∉ g_outstandingWrites g) as Hnone by (intros Hsome; by rewrite bool_decide_eq_true_2 in Hn). clear Hn.
    assert (signals g g2) as S2.
    { apply signals_same; try done. unfold outstanding_count. cbn. rewrite size_union by set_solver. lia. }
    apply external_send_signals in Hs as (S3 & Hd3 & Hrej); [|done]. destruct ok1.
    { apply bind_Ok in Hr as (g4 & [S4 E4]%respond_signals & [= <- <-]). split; [|cbn; rewrite E4; exact Hd3].
      transitivity g2; [done|]. etransitivity; [exact S3|]. etransitivity; [exact S4|]. by apply signals_same. }
    case_match; [|done]. apply bind_Ok in Hr as (g4 & [S4 E4]%retry_signals & [= <- <-]). destruct (Hrej eq_refl) as (m & ->).
    split; [|rewrite E4; exact Hd3]. etransitivity; [|exact S4]. apply signals_same; try done. unfold outstanding_count. cbn.
    replace (({[t]} ∪ g_outstandingWrites g) ∖ {[t]}) with (g_outstandingWrites g) by set_solver. lia.
Qed.
(** Between handlers no admission is open and no signal is kept back. *)
Definition calm g : Prop := g_admissionInProgress g = false /\ g_drainSignalDeferred g = false /\ drained (g_ms g).
Definition tells g g' : Prop :=
  calm g -> calm g' /\ g_drains g <= g_drains g' /\ (outstanding_count g' = 0 -> outstanding_count g = 0 \/ g_drains g < g_drains g').

#[local] Instance tells_refl : Reflexive tells.
Proof. intros g C. split_and!; auto with lia. Qed.
#[local] Instance tells_trans : Transitive tells.
Proof.
  intros g1 g2 g3 T1 T2 C1. destruct (T1 C1) as (C2 & D1 & O1), (T2 C2) as (C3 & D2 & O2). split; [done|]. split; [lia|].
  intros Ho. destruct (O2 Ho) as [Ho2|?]; [|right; lia]. destruct (O1 Ho2); [auto|right; lia].
Qed.

Lemma signals_tells g g' : signals g g' -> (drained (g_ms g) -> drained (g_ms g')) -> tells g g'.
Proof.
  intros (D & P & _ & N & O) Hd (Hp & Hf & Hdr). specialize (N Hp). split; [split_and!; [congruence|congruence|auto]|]. split; [done|].
  intros Ho. destruct (O Ho) as [?|[?|?]]; [auto|auto|congruence].
Qed.

(** A change of the service clock only. *)
Lemma service_tells g g' :
  g_drains g' = g_drains g -> g_admissionInProgress g' = g_admissionInProgress g -> g_drainSignalDeferred g' = g_drainSignalDeferred g ->
  outstanding_count g' = outstanding_count g -> (drained (g_ms g) -> drained (g_ms g')) -> tells g g'.
Proof. intros E1 E2 E3 E4 Hd. apply signals_tells; [|done]. apply signals_same; try done. lia. Qed.

Lemma scheduleService_tells env g g' : scheduleService cfg env g = Ok g' -> tells g g'.
Proof.
  unfold scheduleService. intros He. case_match; [by injection He as <-|]. apply bind_Ok in He as ([w|] & _ & He);
    [apply bind_Ok in He as (? & _ & He)|]; injection He as <-; by apply service_tells.
Qed.

Context (HP : 0 < g5_dramPeriod cfg).

(** Skipping idle cycles is ticking them: it runs no callbacks. *)
Lemma skipIdleCycles_ticks env g g' :
  skipIdleCycles cfg env g = Ok g' -> exists k, iterM k ms_tick (g_ms g) = Ok (g_ms g') /\ (drained (g_ms g) -> drained (g_ms g')).
Proof.
  unfold skipIdleCycles. intros He. case_match eqn:Hg; [injection He as <-; by exists 0%nat|]. apply bind_Ok in He as (idle & Hi & He).
  apply bind_Ok in He as (? & Hneg & He). unfold panic_if in Hneg. destruct (Z.ltb_spec idle 0); [done|].
  set (k := Z.min _ idle) in He. destruct (Z.eqb_spec k 0) as [Hk|Hk]; [injection He as <-; by exists 0%nat|].
  apply bind_Ok in He as (m & Hf & [= <-]). apply orb_false_iff in Hg as [_ Hb].
  assert (0 <= (e_curTick env - g_nextTick g) / g5_dramPeriod cfg) by (apply Z.div_pos; lia).
  destruct (ms_idle_sound (g_ms g) idle k Hi) as (m' & Hm' & Hit & Hd); [lia|]. rewrite Hf in Hm'. injection Hm' as <-. by exists (Z.to_nat k).
Qed.

Lemma skipIdleCycles_tells env g g' : skipIdleCycles cfg env g = Ok g' -> tells g g'.
Proof.
  intros He. destruct (skipIdleCycles_ticks _ _ _ He) as (k & _ & Hd). unfold skipIdleCycles in He.
  case_match; [by injection He as <-|]. apply bind_Ok in He as (idle & _ & He). apply bind_Ok in He as (? & _ & He).
  case_match; [by injection He as <-|]. apply bind_Ok in He as (m & _ & [= <-]). by apply service_tells.
Qed.

Lemma endAdmission_tells g g' :
  endAdmission g = Ok g' -> g_drains g <= g_drains g' /\ g_admissionInProgress g' = false /\ g_drainSignalDeferred g' = false /\
  g_ms g' = g_ms g /\ outstanding_count g' = outstanding_count g /\ (g_drainSignalDeferred g = true -> outstanding_count g = 0 -> g_drains g < g_drains g').
Proof.
  unfold endAdmission. intros He. case_match; [done|]. destruct (g_drainSignalDeferred g).
  - apply bind_Ok in He as (n & Hn & [= <-]). unfold nbrOutstanding in Hn. apply bind_Ok in Hn as (? & _ & [= <-]).
    change (outstanding_count (g_set_admission g false false (g_drains g))) with (outstanding_count g).
    destruct (Z.eqb_spec (outstanding_count g) 0); cbn; split_and!; try done; lia.
  - injection He as <-. cbn. split_and!; try done; lia.
Qed.

Lemma take_packet_tells env g pkt i ok g' : take_packet cfg env g pkt i = Ok (ok, g') -> tells g g'.
Proof.
  intros Ht. unfold take_packet in Ht. apply bind_Ok in Ht as (p & _ & Ht). case_match; [by injection Ht as <- <-|].
  apply bind_Ok in Ht as (g1 & Hb & Ht). unfold beginAdmission in Hb. apply bind_Ok in Hb as (? & _ & [= <-]).
  apply bind_Ok in Ht as ([ok1 g2] & Hr & Ht). apply bind_Ok in Ht as (g3 & He%endAdmission_tells & Ht).
  apply bind_Ok in Ht as (g4 & Hs & [= <- <-]). transitivity g3.
  - intros (Hp & Hf & Hd). apply receive_signals in Hr as [(D & _ & _ & _ & O) Hd2]; [|done]. cbn in D, O.
    destruct He as (D3 & P3 & F3 & M3 & O3 & S3). split; [split_and!; [done|done|by rewrite M3]|]. split; [lia|].
    intros Ho. rewrite O3 in Ho. destruct (O Ho) as [?|[?|?]]; [by left|right; lia|right]. specialize (S3 ltac:(done) Ho). lia.
  - destruct (g5_eventDriven cfg); [by eapply scheduleService_tells|by injection Hs as <-].
Qed.

Lemma retry_port_tells env offers g i g' : retry_port cfg env offers g i = Ok g' -> tells g g'.
Proof.
  unfold retry_port. intros Hr. apply bind_Ok in Hr as (p & _ & Hr). case_match; [|by injection Hr as <-].
  apply bind_Ok in Hr as (g1 & Hp & Ho). transitivity g1.
  { pose proof (with_port_frame _ _ _ _ Hp) as (F1 & F2 & F3 & F4). apply signals_tells; [|by rewrite F4]. apply signals_same; try done.
    eapply with_port_outstanding; [|exact Hp]. by intros ? ? [= <-]. }
  clear Hp. revert g1 Ho. induction (offers i) as [|pkt pkts IH]; intros g1 Ho; cbn [offer_packets] in Ho; [by injection Ho as <-|].
  apply bind_Ok in Ho as (? & _ & Ho). apply bind_Ok in Ho as ([ok g2] & Ht%take_packet_tells & Ho). transitivity g2; [done|].
  destruct ok; [by apply IH|by injection Ho as <-].
Qed.

Lemma g_tick_tells env offers g g' : g_tick cfg env offers g = Ok g' -> tells g g'.
Proof.
  unfold g_tick. set (g0 := g_set_service g _ _ _ _ _). intros Ht. transitivity g0; [by apply service_tells|]. clearbody g0.
  apply bind_Ok in Ht as (g1 & H1 & Ht). apply bind_Ok in Ht as (g2 & H2 & Ht). transitivity g1; [|transitivity g2].
  - destruct (g5_clockEdgeFirst cfg); [|by injection H1 as <-]. apply bind_Ok in H1 as (g3 & H3%skipIdleCycles_tells & [= <-]).
    etransitivity; [exact H3|]. by apply service_tells.
  - destruct (e_timing env); [|by injection H2 as <-]. apply bind_Ok in H2 as (m & _ & H2).
    apply bind_Ok in H2 as (g3 & [S3 D3]%after_memory_signals & H2). transitivity g3; [by apply signals_tells|].
    apply (foldM_inv (tells g3)) in H2; [done|done|]. intros ga gb i _ Ta Hb%retry_port_tells. by transitivity ga.
  - etransitivity; [|destruct (g5_eventDriven cfg); [by eapply scheduleService_tells|]].
    + destruct (g5_clockEdgeFirst cfg); by apply service_tells.
    + injection Ht as <-. destruct (g5_clockEdgeFirst cfg); by apply service_tells.
Qed.

Lemma synchronizeClock_tells env offers g g' : synchronizeClock cfg env offers g = Ok g' -> tells g g'.
Proof.
  unfold synchronizeClock. intros Hs. case_match; [by injection Hs as <-|]. apply bind_Ok in Hs as (g1 & Hk%skipIdleCycles_tells & Hs).
  transitivity g1; [done|]. case_match; [|by injection Hs as <-]. apply bind_Ok in Hs as (? & _ & Hs).
  case_match; [apply bind_Ok in Hs as (? & _ & Hs)|]; apply g_tick_tells in Hs; [|done]. etransitivity; [|exact Hs]. by apply service_tells.
Qed.

Lemma sendResponse_tells env g i success g' : sendResponse env g i success = Ok g' -> tells g g'.
Proof.
  unfold sendResponse. intros Hs. apply bind_Ok in Hs as (p & _ & Hs). case_match; [done|]. case_match; [done|]. destruct success.
  - apply bind_Ok in Hs as (g1 & (F1 & F2 & F3 & F4)%with_port_frame & Hm).
    apply (maybeSignal_signals g) in Hm as [S E]; [|done..]. apply signals_tells; [done|]. rewrite E. cbn. by rewrite F4.
  - case_match; [done|]. pose proof (with_port_frame _ _ _ _ Hs) as (F1 & F2 & F3 & F4). apply signals_tells; [|by rewrite F4].
    apply signals_same; try done. eapply with_port_outstanding; [|exact Hs]. by intros ? ? [= <-].
Qed.

Lemma g5_step_tells g c g' : g5_step cfg g c = Ok g' -> tells g g'.
Proof.
  intros Hs. destruct c as [env [i pkt offers|offers|i success|i success|offers]]; cbn [g5_step fst snd] in Hs.
  - apply bind_Ok in Hs as ([ok g1] & Hr & [= <-]). unfold recvTimingReq in Hr. apply bind_Ok in Hr as (? & _ & Hr).
    apply bind_Ok in Hr as (g2 & Hc%synchronizeClock_tells & Ht%take_packet_tells). by transitivity g2.
  - unfold tickEvent in Hs. etransitivity; [|eapply g_tick_tells, Hs]. by apply service_tells.
  - unfold sendResponseEvent in Hs. apply bind_Ok in Hs as (g1 & Hp & Hr%sendResponse_tells). transitivity g1; [|done].
    pose proof (with_port_frame _ _ _ _ Hp) as (F1 & F2 & F3 & F4). apply signals_tells; [|by rewrite F4]. apply signals_same; try done.
    eapply with_port_outstanding; [|exact Hp]. by intros ? ? [= <-].
  - unfold recvRespRetry in Hs. apply bind_Ok in Hs as (p & _ & Hs). case_match; [done|].
    apply bind_Ok in Hs as (g1 & Hp & Hr%sendResponse_tells). transitivity g1; [|done].
    pose proof (with_port_frame _ _ _ _ Hp) as (F1 & F2 & F3 & F4). apply signals_tells; [|by rewrite F4]. apply signals_same; try done.
    eapply with_port_outstanding; [|exact Hp]. by intros ? ? [= <-].
  - by eapply synchronizeClock_tells.
Qed.

Lemma g5_run_tells g l g' : g5_run cfg g l = Ok g' -> tells g g'.
Proof.
  intros Hr. apply (foldM_inv (tells g)) in Hr; [done|done|]. intros g1 g2 c _ T1 T2%g5_step_tells. by transitivity g1.
Qed.
End drains.

(** When [drain] had to answer that requests are outstanding, the drain manager
    has been signalled by the time [drain] would answer that none is: in every run,
    between any two points of it, also when requests complete while they are being
    admitted. *)
Theorem gem5_drain_signalled {M} `{IMemorySystem M} `{Callbacks M} `{!MemoryElision M} `{!RejectQuiet M} (cfg : G5Config) (m : M) (n : nat)
  (env : Env) (full_system : bool) (edge : Z) g0 l1 g1 l2 g2 :
  0 < g5_dramPeriod cfg -> drained m -> startup cfg env (g5_init m n) full_system edge = Ok g0 ->
  g5_run cfg g0 l1 = Ok g1 -> g_drain g1 = Ok false -> g5_run cfg g1 l2 = Ok g2 -> g_drain g2 = Ok true ->
  g_drains g1 < g_drains g2.
Proof.
  intros HP Hd Hs H1 Hd1 H2 Hd2.
  assert (calm g0) as C0.
  { unfold startup in Hs. case_match; [done|]. set (gs := g_set_service _ _ _ _ _ _) in Hs.
    assert (calm gs) as C by done. destruct (g5_eventDriven cfg); [by destruct (scheduleService_tells cfg _ _ _ Hs C)|by injection Hs as <-]. }
  destruct (g5_run_tells cfg HP _ _ _ H1 C0) as (C1 & _ & _), (g5_run_tells cfg HP _ _ _ H2 C1) as (_ & _ & O2).
  assert (forall (g : Gem5 M) b, g_drain g = Ok b -> b = (outstanding_count g =? 0)) as Hg.
  { intros g b Hg. unfold g_drain, nbrOutstanding in Hg. apply bind_Ok in Hg as (k & Hk & [= <-]). by apply bind_Ok in Hk as (? & _ & [= <-]). }
  apply Hg in Hd1, Hd2. destruct O2 as [?|?]; lia.
Qed.

(** ** The memory system keeps the contracts over controllers that do *)
Class ControllerIdle (C : Type) `{IController C} `{Callbacks C} := {
  c_idle_shrinks (c : C) n k c' :
    c_idle_ticks c = Ok n -> 0 <= k <= n -> c_fast_forward c k = Ok c' ->
    exists n', c_idle_ticks c' = Ok n' /\ n - k <= n' /\ (n < 2 ^ 63 - 1 -> n' = n - k);
  c_reject_quiet (c : C) r r' c' : drained c -> c_send c r = Ok (false, r', c') -> drained c'
}.

#[export] Instance Atomic_idle {Md} (predict : Md -> Z -> Request -> Clk_t -> result (Clk_t * Md)) (apply : Request -> result Request) :
  @ControllerIdle (Atomic Md) (Atomic_controller predict apply) _.
Proof.
  split.
  - intros a n k a' [= <-] Hk [= <-]. eexists. split; [reflexivity|]. unfold Atomic_idle_ticks in *. cbn.
    destruct (at_pending a) as [|p q]; [unfold clk_max in *; lia|].
    destruct (Z.ltb_spec (at_clk a + 1) (p_depart p)), (Z.ltb_spec (at_clk a + k + 1) (p_depart p)); lia.
  - intros a r r' a' Hd Hs. cbn in Hs. unfold Atomic_send in Hs. case_match; [done|]. case_match.
    + injection Hs as <- <-. destruct a. unfold drained, take_callbacks, Atomic_callbacks, at_reject, at_clear_log in *. simpl in *. congruence.
    + apply bind_Ok in Hs as (? & _ & Hs). apply bind_Ok in Hs as (? & _ & Hs). apply bind_Ok in Hs as (? & _ & Hs). by case_match.
Qed.

Section system_contracts.
Context {C Mp : Type} `{HC : IController C} `{HB : Callbacks C} `{HL : !ControllerIdle C} (map_apply : Mp -> Request -> result Request).

Lemma fold_idle_le (cs : list C) z n : foldM (fun idle c => i ← c_idle_ticks c; Ok (Z.min idle i)) z cs = Ok n -> n <= z.
Proof.
  revert z. induction cs as [|c cs IH]; intros z Hf; [injection Hf as <-; lia|]. rewrite foldM_cons in Hf.
  apply bind_Ok in Hf as (z1 & (i & _ & [= <-])%bind_Ok & Hf). apply IH in Hf. lia.
Qed.

Lemma fold_idle_shrinks (cs cs' : list C) k z z' n :
  Forall2 (fun c c' => c_fast_forward c k = Ok c') cs cs' -> 0 <= k <= n -> z - k <= z' -> (z < 2 ^ 63 - 1 -> z' = z - k) ->
  foldM (fun idle c => i ← c_idle_ticks c; Ok (Z.min idle i)) z cs = Ok n ->
  exists n', foldM (fun idle c => i ← c_idle_ticks c; Ok (Z.min idle i)) z' cs' = Ok n' /\ n - k <= n' /\ (n < 2 ^ 63 - 1 -> n' = n - k).
Proof.
  intros H2. revert z z'. induction H2 as [|c c' cs cs' Hff _ IH]; intros z z' Hk Hz Hz' Hf.
  { injection Hf as <-. by exists z'. }
  rewrite foldM_cons in Hf. apply bind_Ok in Hf as (z1 & (i & Hi & [= <-])%bind_Ok & Hf). pose proof (fold_idle_le _ _ _ Hf) as Hle.
  destruct (c_idle_shrinks c i k c' Hi ltac:(lia) Hff) as (i' & Hi' & L1 & L2).
  destruct (IH (Z.min z i) (Z.min z' i') Hk) as (n' & Hn' & Hr); [lia|lia|done|]. exists n'. split; [|done].
  rewrite foldM_cons, Hi'. exact Hn'.
Qed.

#[export] Instance system_idle_contract : @IdleShrinks (GenericDRAMSystem C Mp) (system_memory map_apply).
Proof.
  split.
  - intros s n Hn. by apply (fold_idle_le _ _ _ Hn).
  - intros s n k s' Hn Hk Hf. cbn in *. unfold system_fast_forward in Hf. apply bind_Ok in Hf as (cs & Hcs%mapM_Ok & [= <-]).
    unfold system_idle_ticks in *. cbn. destruct (fold_idle_shrinks (m_controllers s) cs k (2 ^ 63 - 1) (2 ^ 63 - 1) n) as (n' & Hn' & L1 & L2); try done; [lia|].
    exists n'. split; [done|]. split; [done|lia].
Qed.

#[export] Instance system_reject_quiet : @RejectQuiet (GenericDRAMSystem C Mp) (system_memory map_apply) _.
Proof.
  intros s r r' s' Hd Hs. cbn in Hs. unfold system_send in Hs. case_match; [done|]. do 4 (apply bind_Ok in Hs as (? & _ & Hs)).
  apply bind_Ok in Hs as (c & [_ Hc]%vget_Ok & Hs). apply bind_Ok in Hs as ([[ok1 r1] c'] & Hsend & Hs).
  apply bind_Ok in Hs as (cs & [_ ->]%vset_Ok & [= -> <- <-]). apply system_drained. apply system_drained in Hd. cbn.
  apply Forall_insert; [done|]. eapply c_reject_quiet; [|exact Hsend]. by eapply (Forall_lookup_1 _ _ _ _ Hd).
Qed.
End system_contracts.

(** ** A run on an atomic controller

    Two ports, a DRAM period of ten ticks, edges from 100; the read departs twenty
    cycles after its admission and the service in between is skipped. *)
#[export] Instance atomic_idle_shrinks : IdleShrinks (GenericDRAMSystem (Atomic unit) Interleave) :=
  system_idle_contract (HL := Atomic_idle AtomicController_predict PassThrough_apply) CacheLineInterleave_apply.
#[export] Instance atomic_reject_quiet : RejectQuiet (GenericDRAMSystem (Atomic unit) Interleave) :=
  system_reject_quiet (HL := Atomic_idle AtomicController_predict PassThrough_apply) CacheLineInterleave_apply.

Definition g5_cfg : G5Config := mkG5Config true true 10 Z.of_nat.
Definition g5_packet (id : Z) (read : bool) (line : Z) : gpacket :=
  mkGPacket id read (negb read) false (line * 64) 64 true (Some 0) (Some id) false 7 0 0.
Definition g5_env (t : Z) : Env := mkEnv t true.
Definition no_offers (_ : nat) : list gpacket := [].
Definition g5_or {M} (r : result (Gem5 M)) (d : Gem5 M) : Gem5 M := match r with Ok g => g | Err _ => d end.

Definition g5_first : list (Env * g5_op) := [(g5_env 205, Receive 0 (g5_packet 1 true 3) no_offers)].
Definition g5_rest : list (Env * g5_op) :=
  [(g5_env 255, Receive 1 (g5_packet 2 false 4) no_offers); (g5_env 255, SendResponse 1 true); (g5_env 400, TickEvent no_offers);
   (g5_env 400, SendResponse 0 false); (g5_env 403, RespRetry 0 true); (g5_env 450, TickEvent no_offers)].

Section example.
Context {M : Type} `{IMemorySystem M} `{Callbacks M} (m : M).
Definition g5_start : Gem5 M := g5_or (startup g5_cfg (g5_env 95) (g5_init m 2) false 100) (g5_init m 2).
Definition g5_mid : Gem5 M := g5_or (g5_run g5_cfg g5_start g5_first) (g5_init m 2).
End example.

Lemma gem5_responses_conserved_witness :
  exists g, g5_run g5_cfg (g5_start atomic_memory) (g5_first ++ g5_rest) = Ok g /\ length (g_sent g) = 2%nat /\
    g_sent g ++ reads_owed (g_outstandingReads g) ++ gather port_queue (g_ports g) ≡ₚ g_accepted g ≫= needed.
Proof.
  assert (exists g, g5_run g5_cfg (g5_start atomic_memory) (g5_first ++ g5_rest) = Ok g /\ length (g_sent g) = 2%nat) as (g & Hg & Hl)
    by (eexists; split; vm_compute; reflexivity).
  exists g. split; [exact Hg|]. split; [exact Hl|].
  apply (gem5_responses_conserved g5_cfg atomic_memory 2 (g5_env 95) false 100 (g5_start atomic_memory) (g5_first ++ g5_rest) g);
    [vm_compute; reflexivity|exact Hg].
Defined.

Lemma gem5_drain_signalled_witness :
  exists g, g_drain (g5_mid atomic_memory) = Ok false /\ g5_run g5_cfg (g5_mid atomic_memory) g5_rest = Ok g /\ g_drain g = Ok true /\
    g_drains (g5_mid atomic_memory) < g_drains g.
Proof.
  assert (exists g, g5_run g5_cfg (g5_mid atomic_memory) g5_rest = Ok g /\ g_drain g = Ok true) as (g & Hg & Hd)
    by (eexists; split; vm_compute; reflexivity).
  exists g. split; [vm_compute; reflexivity|]. split; [exact Hg|]. split; [exact Hd|].
  apply (gem5_drain_signalled g5_cfg atomic_memory 2 (g5_env 95) false 100 (g5_start atomic_memory) g5_first
    (g5_mid atomic_memory) g5_rest g); [reflexivity|exact atomic_memory_drained|vm_compute; reflexivity|vm_compute; reflexivity
    |vm_compute; reflexivity|exact Hg|exact Hd].
Defined.

(** The second request arrives at tick 255: sixteen edges have passed. *)
Definition ticked_memory : Ticked (GenericDRAMSystem (Atomic unit) Interleave) := mkTicked atomic_memory 0.

Lemma gem5_clock_exact_witness :
  exists g1 g2, synchronizeClock g5_cfg (g5_env 255) no_offers (g5_mid ticked_memory) = Ok g1 /\
    take_packet g5_cfg (g5_env 255) g1 (g5_packet 2 false 4) 1 = Ok (true, g2) /\
    tk_ticks (g_ms g1) = 16 /\ tk_ticks (g_ms g2) = 16 /\ tk_ticks (g_ms (g5_mid ticked_memory)) = 11.
Proof.
  assert (exists g2, recvTimingReq g5_cfg (g5_env 255) no_offers (g5_mid ticked_memory) (g5_packet 2 false 4) 1 = Ok (true, g2)) as (g2 & Hg)
    by (eexists; vm_compute; reflexivity).
  destruct (gem5_clock_exact g5_cfg 100 atomic_memory 2 205 (g5_mid ticked_memory) (g5_env 255) no_offers (g5_packet 2 false 4) 1 true g2)
    as (g1 & H1 & H2 & H3 & H4); [reflexivity|reflexivity| |reflexivity|discriminate|vm_compute; discriminate|reflexivity|exact Hg|].
  - apply (run_step g5_cfg 100 atomic_memory 2 95 (g5_start ticked_memory) (g5_env 205) (Receive 0 (g5_packet 1 true 3) no_offers));
      [|reflexivity|discriminate|vm_compute; exact I|reflexivity|exact I|vm_compute; reflexivity].
    apply (run_start g5_cfg 100 atomic_memory 2 (g5_env 95) false 100); [reflexivity|vm_compute; reflexivity|vm_compute; reflexivity].
  - exists g1, g2. split; [exact H1|]. split; [exact H2|]. split; [exact H3|]. split; [rewrite H4; exact H3|vm_compute; reflexivity].
Defined.
